(* ===== verification/_CoqProject ===== *)
-Q . S2P
Prelude.v
Decimal.v
H2Frame.v
HpackBuffer.v
HpackTables.v
HpackHuffman.v
HpackTable.v
Hpack.v
HpackSync.v
HpackBound.v
H2Proto.v
H2ProtoSend.v
H2ProtoSubmit.v
H2ProtoRecv.v
H2ProtoInv.v
H2ProtoOut.v
H2ProtoQuiet.v
H2ProtoFlow.v
H2ProtoExample.v
H2ProtoTheorems.v
H2ProtoCredit.v
H2ProtoHeaders.v
H2ProtoBody.v
H2ProtoFindings.v
H2ProtoWitness.v
RateLimit.v
Router.v
RouterTheorems.v
Http1Parser.v
Http1ParserTheorems.v
ServerBuffer.v
Http1ParserLimits.v
Http1ParserSafe.v
Http1ParserExample.v
Session.v
SessionTheorems.v
Web.v
Multipart.v
MultipartTheorems.v
MultipartLanguage.v
MultipartRoundtrip.v
WebForm.v
WebFormTheorems.v
WebSession.v
WebSessionTheorems.v
Response.v
ResponseTheorems.v
ResponseWire.v
Jwt.v
JwtTheorems.v
Middleware.v
Cors.v
CorsTheorems.v
Interceptor.v
InterceptorTheorems.v
Request.v
RequestTheorems.v
Connection.v
ConnectionTheorems.v
WebSocketHandshake.v
WebSocketHandshakeTheorems.v
WebSocketServer.v
WebSocketTheorems.v
WebSocketExample.v
WebSse.v
WebSseTheorems.v
S3Text.v
S3Signer.v
S3Request.v
S3TextTheorems.v
S3SignerTheorems.v
S3Verify.v
S3Example.v
WebUpload.v
WebUploadTheorems.v
WebUploadProtocol.v
FileService.v
FileServiceTheorems.v
WebAssets.v
WebAssetsTheorems.v
