(* ===== verification/Prelude.v ===== *)
(** * Verification of chttp

    chttp is an HTTP toolkit in C: a server and a client for HTTP/1.1 and
    HTTP/2, WebSocket endpoints, sessions, rate limits, a layer for web
    applications (forms, uploads, authentication), and a client of S3 services.
    This library models its own protocol and state logic in Gallina and proves
    what makes that logic correct.  All paths below are relative to the [src]
    directory of the repository.

    ** The program and its parts

    Bytes of a connection enter the server runtime
    ([http_server/src/chttp_server.c]), which keeps them in buffers accounted
    against one budget for all connections.  For HTTP/1 they go to the request
    parser ([chttp_server_parser.c], on top of llhttp); for HTTP/2 to the
    protocol engine ([http_common/http/chttp_h2_proto.c]), which cuts them into
    frames ([chttp_h2_frame.c]) and reads header blocks with HPACK
    ([chttp_h2_hpack.c]).  Either way a request comes out, for which the router
    ([chttp_server_route.c]) finds a route; on its way to the handler stand the
    rate limiter ([chttp_rate_limit.c]), the CORS policy
    ([chttp_server_cors.c]) and the session of the request
    ([chttp_session.c]).  A handler of the application layer ([app/src])
    reads forms, uploads and tokens from the request and answers through the
    response builder ([chttp_server_response.c]).  The same engine, frame codec
    and HPACK serve the client, on which the client of S3 services ([s3/src])
    stands: it signs requests and hands them on.

    ** Which file models what

    - Shared: [Prelude] (record update, integer and list lemmas, the tactics
      [split_if], [bool_prop] and the hint databases).
    - HTTP/2 frames: [H2Frame] ([chttp_h2_frame.c], every function).
    - HPACK ([chttp_h2_hpack.c] and its two tables): [HpackBuffer] (growable
      buffers, integers), [HpackTables] (constants), [HpackHuffman] (tree and
      decoder), [HpackTable] (static and dynamic table), [Hpack] (strings,
      contexts, encoder, decoder); [HpackSync] and [HpackBound] are theorems.
    - HTTP/2 engine ([chttp_h2_proto.c], every function but the release of
      memory): [H2Proto] (state, streams, creation), [H2ProtoSend] and
      [H2ProtoSubmit] (output), [H2ProtoRecv] (input); theorems in [H2ProtoInv],
      [H2ProtoOut], [H2ProtoQuiet], [H2ProtoFlow], [H2ProtoTheorems],
      [H2ProtoCredit], [H2ProtoHeaders], [H2ProtoBody]; concrete sessions in
      [H2ProtoExample], [H2ProtoFindings], [H2ProtoWitness].
    - Rate limiter: [RateLimit].
    - Router: [Router], [RouterTheorems].
    - HTTP/1 parser: [Http1Parser]; theorems in [Http1ParserTheorems],
      [Http1ParserLimits], [Http1ParserSafe], [Http1ParserExample].
    - Buffer budget (the [chttp_server_buffer_*] functions of
      [chttp_server.c]): [ServerBuffer].
    - Sessions: [Session], [SessionTheorems].
    - Web layer: [Web] (statuses and errors of [web.h]).
    - Multipart bodies ([chttp_web_multipart.c]): [Multipart];
      [MultipartTheorems], [MultipartLanguage], [MultipartRoundtrip].
    - Web forms ([chttp_web_form.c]): [WebForm], [WebFormTheorems]; tokens and
      messages in sessions ([chttp_web_session.c]): [WebSession],
      [WebSessionTheorems].
    - Response builder ([chttp_server_response.c]): [Decimal], [Response];
      [ResponseTheorems], [ResponseWire] (what is on the wire).
    - Bearer tokens ([chttp_jwt.c], [chttp_jwt_token.c]): [Jwt], [JwtTheorems].
    - Middleware and requests: [Middleware] (activations of middleware and
      their continuations), [Cors], [CorsTheorems], [Interceptor],
      [InterceptorTheorems] ([chttp_server_interceptor.c]), [Request],
      [RequestTheorems] (admission, dispatch and body of a
      request: [chttp_server_interceptor.c] and [chttp_server.c]).
    - Connections of HTTP/1 ([chttp_server.c], [chttp_cnet_retained.h]):
      [Connection] (the callbacks of the parser, the outbound buffer, streamed
      bodies), [ConnectionTheorems].
    - WebSocket: [WebSocketHandshake], [WebSocketHandshakeTheorems]
      ([chttp_websocket_handshake.c], every function), [WebSocketServer],
      [WebSocketTheorems], [WebSocketExample] (the upgrade of a connection in
      [chttp_websocket_server.c]).
    - Server-sent events ([chttp_web_sse.c], every function): [WebSse],
      [WebSseTheorems] (also as the body of a response).
    - S3 client: [S3Text] and [S3Request] ([s3_request.c], [s3_credentials.c],
      the configuration in [s3_client.c]), [S3Signer] ([s3_signer.c]);
      [S3TextTheorems], [S3SignerTheorems], [S3Verify] (a verifier of
      signatures), [S3Example] (SHA-256, published vectors).
    - Uploads ([chttp_web_upload.c], every function): [WebUpload],
      [WebUploadTheorems], [WebUploadProtocol]; the order of the calls of the
      multipart parser is in [MultipartLanguage].
    - Files: [FileService], [FileServiceTheorems] (conditional requests, ranges
      and responses from a file: [chttp_server_file_service.c],
      [chttp_server_files.c]); [WebAssets], [WebAssetsTheorems]
      ([chttp_web_assets.c], every function, as on POSIX).

    ** How C becomes Gallina

    - An integer is a [Z]; arithmetic that can leave its width is written with
      the wrap-around ([u32], [u64], [i32]) or with the guard the code has.
    - A C string is the list of its bytes without the terminator; a buffer with
      a size is the list of the bytes below the size; a cursor into either is
      the list of what remains.  A capacity stays a number, and every guard on
      it is kept.
    - A struct is a record with its fields, prefixed; a struct that the code
      changes in place is passed and returned.  A pointer into a table is the
      index of the slot.  A pointer argument that the code only checks against
      [NULL] is a value, so that check has no counterpart; where [NULL] has a
      meaning the type is an [option].
    - A function that fails returns its error as a value, and the state that
      the failure leaves behind is returned with it.
    - A loop is a [Fixpoint] on its list, or on fuel.  Fuel is the number of
      input bytes plus a constant (a round of the frame loop, the HPACK loop,
      the segment loops and the multipart loop consumes a byte or stops), the
      number of slots of the table, or the size of the body that is sent; that
      it suffices is part of the theorems ([session_safe], [hpack_decode_total],
      [parser_session_safe], [multipart_session_safe], [emit_data_terminates],
      [route_validate_correct]).
    - What is not code of the program is a parameter with named laws: the
      allocator ([Allocator]), the callbacks and body sources of an HTTP/2
      application ([Application], law [LawfulApplication]), llhttp and the
      URI parser ([Llhttp], [UriParser], law [LawfulTokenizer]), the string
      search ([VstrSearch], law [LawfulVstr]), the buffers of a connection
      (law [LawfulBuffers]), the consumer of an upload (laws [LawfulSink],
      [LawfulStage]),
      the encoding and decoding of tokens in the vendored [vendor/cjwt]
      ([Cjwt], [CjwtEncode], [LawfulCjwt]), the middleware, handlers
      and body sources of an application ([Callbacks], [LawfulCallbacks],
      [BodySources], [LawfulSource]), calendar conversion ([Gmtime]), base64,
      SHA-1 and string views ([LawfulBase64], [LawfulSha1], [LawfulVstrText]),
      the check of UTF-8 and the producer of events ([VstrUtf8],
      [SseCallbacks]), SHA-256 ([Sha256], [LawfulSha256]), the
      file system, its transfers and the parser of dates ([FileSystem],
      [LawfulFileSystem], [FileTransfers], [LawfulTransfers],
      [DatetimeParser]), constants of the network library, the clock and
      random bytes.  Every
      theorem that uses a law has a witness with a concrete instance.
    - A mutex around a whole function makes the function one step.  Where code
      runs between two critical sections (the end of a request on its session)
      or on atomics without a lock (the buffer budget), the parts are separate
      steps and the theorems quantify over every interleaving.

    ** What the theorems show

    - Protocol engine: any sequence of calls keeps the invariant, returns,
      writes whole frames, and on the connection sends no more DATA than its
      window and the WINDOW_UPDATE frames that it read allow ([session_safe]); header blocks and bodies go over the wire unchanged
      ([headers_delivered], [header_block_on_wire], [body_in_data_frames]);
      flow-control credit is conserved, violations are refused, settings move
      all windows or none, and a failure sends one GOAWAY.
    - HPACK and frames: decoding inverts encoding with the tables of the two
      ends in step ([hpack_roundtrip]); the Huffman decoder accepts exactly the
      encodings of the RFC ([huff_decode_iff]); the dynamic table refines the
      table of the RFC; decoding is total.
    - HTTP/1 parser: the skipping scan is the scan of one byte at a time and
      does not depend on how the input is cut; the header checks are what they
      should be; every sequence of calls stays within the limits.
    - Server: the router finds the preferred matching route and keeps its table
      valid; the limiter is a set of independent token buckets; the budget is
      never exceeded under any interleaving of threads; sessions are isolated
      from each other and persist.
    - Application layer: the multipart parser accepts exactly the bodies that
      are parts between delimiters, with header blocks that its own parser of
      headers takes, and reports exactly their parts, in any fragmentation.
    - Forms and session values: a form is parsed as its grammar says and
      lookups find the first or the only value; a token check passes exactly
      for the token of the session; messages are delivered once and in order.
    - Responses: the builder keeps its limits and cleans every source up once;
      what is serialised is read back as the same status line, headers and
      body ([response_on_wire]).
    - Requests: the chain of middleware runs in order and each part at most
      once, whatever the middleware does ([interceptor_order]); a cross-origin
      policy and bearer tokens are enforced ([cors_policy_enforced],
      [bearer_admission_correct]); the answer to a request is what its handlers
      made, or an error page that shows nothing of it when they failed
      ([dispatch_correct]); the sinks of request bodies are opened and closed
      in turn.
    - Connections: pipelined requests are answered in their order, each with
      the response of its own dispatch ([pipelined_responses_in_order]), whole
      but for one that is streamed, which a later request can cut
      ([pipelined_request_cuts_stream]); a streamed body that is sent to its end
      arrives as the source gave it ([streamed_body_on_wire]).
    - WebSocket: server and client accept exactly the handshakes they should,
      and each other's ([handshake_roundtrip]); an upgrade opens the route,
      answers or fails, each for its reasons, after the middleware and the
      callback of the route ([upgrade_outcome]).
    - Uploads: what is staged is committed exactly when the body, the token and
      the validation are right ([upload_commit_iff]); the application sees whole
      transactions whatever is called ([upload_protocol]).
    - Files: a request is answered with what its conditions and its range ask
      for ([serve_file_correct], [file_range_correct], [file_tags_correct]);
      a mount serves the files below its root that a path names, through no
      link, and nothing else, in a file system that does not change between the
      checks and the use ([assets_confined]).
    - Server-sent events: a reader gets the events back that were formatted,
      also through a streamed response ([sse_roundtrip],
      [sse_stream_delivered]).
    - S3: the canonical form of a query and of a request stands for one of them
      only ([canonical_query_correct], [canonical_request_binds]); a service
      that knows the secret accepts what the client signs and presigns
      ([planned_request_verifies], [presigned_url_verifies]).

    Where the code does something else than it means to, a theorem shows it on
    a concrete input ([H2ProtoFindings], [unclosed_quotes_accepted],
    [get_int_accepts_overflow], [dyn_table_add_oversize_keeps],
    [dyn_table_add_full_refused], [put_string_huffman_misflagged],
    [empty_message_needs_bytes], [too_long_uri_text],
    [pipelined_request_cuts_stream], [upgrade_drops_pending],
    [backslash_root_escapes]).

    ** Not modelled

    - The event loops, threads and sockets of the server, the client and the
      RPC services: they are callbacks of the network library, which is not
      part of the repository.
    - TLS, the reading of files, and the operations of the S3 client on top of
      its requests (responses in XML): calls into libraries.
    - The release of memory.
    - The OpenAPI generator, and cjwt, third-party code under [vendor/cjwt],
      which the theorems take as a parameter.
    - Of the server runtime: responses that are deferred to another thread, the
      sending and receiving on the network, the reading of files as
      bodies, the adapter of the HTTP/2 engine, and WebSocket frames after the
      opening, which the network library reads and writes.
    - The JSON-RPC codec, form plans and validation: they bind data by the
      reflection metadata of a library. *)

From Stdlib Require Export ZArith Lia.
From stdpp Require Export base tactics numbers list.
From Stdlib Require String Ascii.
Export String.StringSyntax.

#[global] Open Scope Z_scope.

(** ** Notations *)

Declare Scope chttp_scope.
Delimit Scope chttp_scope with chttp.
#[global] Open Scope chttp_scope.

(** ** Record update *)

(** [Eta R] gives a record type its eta-expansion; from it [mk_setter] builds
    the update function of any one projection. *)
Class Eta (R : Type) := eta : R -> R.
Class Setter {R T : Type} (proj : R -> T) := set : (T -> T) -> R -> R.
Arguments set {R T} proj {_} f r /.

Ltac mk_setter :=
  lazymatch goal with
  | |- @Setter ?R ?T ?p =>
    let i := constr:(_ : Eta R) in
    let i' := eval hnf in i in
    let f := fresh "f" in
    let r := fresh "r" in
    intros f r;
    let t := eval cbv beta in (i' r) in
    let g := eval pattern (p r) in t in
    lazymatch g with
    | ?G _ => let t' := eval cbv beta in (G (f (p r))) in exact t'
    end
  end.

Notation "r <| p := v |>" := (set p (fun _ => v) r)
  (at level 1, left associativity, format "r <| p  :=  v |>") : chttp_scope.

(** Early return of C code: run a state-passing operation that returns an
    [int]; continue with the new state when it is 0, return -1 otherwise. *)
Notation "'try!' p := e 'in' k" :=
  (let '(p, rc) := e in if (rc =? 0)%Z then k else (p, (-1)%Z))
  (at level 10, p name, e at level 200, k at level 200,
   format "'[v' 'try!'  p  :=  e  'in' '/' k ']'")
  : chttp_scope.

(** ** Status codes *)

(** The codes of [salts/error_codes.h] that the modelled functions return.
    The header belongs to the Salts SDK, so the numbers stay abstract and only
    the identity of a code matters. *)
Inductive salts_status :=
  | SALTS_OK | SALTS_EINVAL | SALTS_EMSGSIZE | SALTS_EPROTO
  | SALTS_EALREADY | SALTS_ERANGE | SALTS_ENOMEM
  | SALTS_ENOENT | SALTS_ENOBUFS | SALTS_ENAMETOOLONG | SALTS_EBUSY
  | SALTS_EIO | SALTS_ESHUTDOWN | SALTS_ECANCELED | SALTS_EPERM | SALTS_EAGAIN
  | SALTS_ENOTSUP | SALTS_ETIMEDOUT | SALTS_EPROTONOSUPPORT
  | SALTS_EISDIR | SALTS_ENOTDIR | SALTS_EFBIG | SALTS_ELOOP | SALTS_ECHARSET.

#[export] Instance salts_status_eq_dec : EqDecision salts_status.
Proof. solve_decision. Defined.

(** A function that returns [SALTS_OK] and fills its out-parameters, or
    returns an error code. *)
Inductive outcome (A : Type) :=
  | Ok (a : A)
  | Err (e : salts_status).
Arguments Ok {A} a.
Arguments Err {A} e.

Definition is_ok {A} (o : outcome A) : bool :=
  match o with Ok _ => true | Err _ => false end.

(** Steps that stop at the first error: [x ← o; f x]. *)
#[export] Instance outcome_bind : MBind outcome :=
  fun A B f o => match o with Ok a => f a | Err e => Err e end.

Lemma bind_ok {A B} (f : A -> outcome B) (o : outcome A) b : (x ← o; f x) = Ok b ->
  exists a, o = Ok a /\ f a = Ok b.
Proof. destruct o as [a|e]; cbn; [by exists a|discriminate]. Qed.

(** [if (condition) return error;] in front of steps. *)
Definition guard_err (failing : bool) (e : salts_status) : outcome unit :=
  if failing then Err e else Ok tt.

(** ** Machine integers *)

Definition SIZE_MAX : Z := 2 ^ 64 - 1.
Definition PTRDIFF_MAX : Z := 2 ^ 63 - 1.
Definition UINT16_MAX : Z := 2 ^ 16 - 1.
Definition UINT32_MAX : Z := 2 ^ 32 - 1.
Definition INT32_MIN : Z := - 2 ^ 31.
Definition INT32_MAX : Z := 2 ^ 31 - 1.

(** Conversion to an unsigned type of 8, 16, 32 or 64 bits. *)
Definition u8 (z : Z) : Z := z mod 2 ^ 8.
Definition u32 (z : Z) : Z := z mod 2 ^ 32.
Definition u64 (z : Z) : Z := z mod 2 ^ 64.

(** Conversion to [int32_t] (two's complement). *)
Definition i32 (z : Z) : Z := (z + 2 ^ 31) mod 2 ^ 32 - 2 ^ 31.

Definition is_u8 (z : Z) : Prop := 0 <= z < 256.
Definition is_u32 (z : Z) : Prop := 0 <= z < 2 ^ 32.
Definition is_u64 (z : Z) : Prop := 0 <= z < 2 ^ 64.
Definition is_i32 (z : Z) : Prop := INT32_MIN <= z <= INT32_MAX.

Create HintDb widths.
#[export] Hint Unfold SIZE_MAX PTRDIFF_MAX UINT16_MAX UINT32_MAX INT32_MIN
  INT32_MAX is_u8 is_u32 is_u64 is_i32 : widths.

(** [zlia] is [lia] after unfolding the width constants. *)
Ltac zlia := autounfold with widths in *; lia.

(** A conditional of the goal or of a hypothesis on a boolean comparison,
    turned into the proposition it decides. *)
Ltac bool_prop :=
  repeat match goal with
  | H : (_ && _)%bool = true |- _ => apply andb_true_iff in H as [? ?]
  | H : (_ || _)%bool = false |- _ => apply orb_false_iff in H as [? ?]
  | H : (_ || _)%bool = true |- _ => apply orb_true_iff in H
  | H : (_ && _)%bool = false |- _ => apply andb_false_iff in H
  | H : negb _ = true |- _ => apply negb_true_iff in H
  | H : negb _ = false |- _ => apply negb_false_iff in H
  | H : (_ <? _) = true |- _ => apply Z.ltb_lt in H
  | H : (_ <? _) = false |- _ => apply Z.ltb_ge in H
  | H : (_ <=? _) = true |- _ => apply Z.leb_le in H
  | H : (_ <=? _) = false |- _ => apply Z.leb_gt in H
  | H : (_ =? _) = true |- _ => apply Z.eqb_eq in H
  | H : (_ =? _) = false |- _ => apply Z.eqb_neq in H
  end.

(** Split the first conditional or match of the goal, remembering why. *)
Ltac split_if :=
  match goal with
  | |- context [if ?b then _ else _] => destruct b eqn:?
  end; bool_prop.

Ltac split_if_in H :=
  match type of H with
  | context [if ?b then _ else _] => destruct b eqn:?
  end; bool_prop.

(** ** Byte strings *)

(** A byte is an integer in [0..255]; a C array of [uint8_t] or [char] is a
    list of them. *)
Definition zlen {A} (l : list A) : Z := Z.of_nat (length l).

Definition is_bytes (l : list Z) : Prop := Forall is_u8 l.

(** [a[i]]; the modelled code reads inside the array only. *)
Definition zth (l : list Z) (i : Z) : Z := nth (Z.to_nat i) l 0.

Definition ztake {A} (n : Z) (l : list A) : list A := take (Z.to_nat n) l.
Definition zdrop {A} (n : Z) (l : list A) : list A := drop (Z.to_nat n) l.

(** [memcmp(a, b, n) == 0] together with the equality of the lengths. *)
Definition bytes_eqb (a b : list Z) : bool := bool_decide (a = b).

(** The bytes of a C string literal, without its terminator. *)
Definition bytes_of (s : String.string) : list Z :=
  map (fun c => Z.of_N (Ascii.N_of_ascii c)) (String.list_ascii_of_string s).
Arguments bytes_of s%_string_scope.

(** The parts between the separators. *)
Fixpoint split_on (separator : Z) (s : list Z) : list (list Z) :=
  match s with
  | [] => [[]]
  | c :: s =>
    if c =? separator then [] :: split_on separator s
    else match split_on separator s with part :: parts => (c :: part) :: parts | [] => [[c]] end
  end.

Create HintDb chttp.

(** ** Shared lemmas *)

(** What holds of a computed value holds of its name. *)
Lemma fmap_value {A B} (f : A -> B) (o : option A) a b : o = Some a -> f <$> o = Some b -> f a = b.
Proof. intros ->. by intros [= <-]. Qed.

Lemma nodup_insert {A} (l : list A) i x : NoDup l -> x ∉ l -> NoDup (<[i := x]> l).
Proof.
  intros Hl Hx. apply NoDup_alt. intros j k y Hj Hk.
  apply list_lookup_insert_Some in Hj as [(-> & -> & Hi)|[Hij Hj]];
    apply list_lookup_insert_Some in Hk as [(? & ? & Hi')|[Hik Hk]]; subst; try done.
  - contradict Hx. by eapply list_elem_of_lookup_2.
  - contradict Hx. by eapply list_elem_of_lookup_2.
  - by eapply NoDup_lookup.
Qed.

Lemma split_on_cons x s : exists part parts, split_on x s = part :: parts.
Proof. destruct s as [|c s]; cbn; [eauto|]. destruct (c =? x); [eauto|]. destruct (split_on x s); eauto. Qed.

(** A part before a separator, or the last one. *)
Lemma split_on_app x a s : forallb (fun c => negb (c =? x)) a = true ->
  split_on x (a ++ s) = match split_on x s with part :: parts => (a ++ part) :: parts | [] => [a] end.
Proof.
  induction a as [|c a IH]; cbn; intros H.
  - destruct (split_on_cons x s) as (p & ps & ->). done.
  - apply andb_true_iff in H as [Hc Ha]. apply negb_true_iff in Hc. rewrite Hc, IH by done.
    by destruct (split_on_cons x s) as (p & ps & ->).
Qed.

Lemma u8_range z : is_u8 (u8 z).
Proof. unfold is_u8, u8. apply Z.mod_pos_bound. lia. Qed.

Lemma u32_range z : is_u32 (u32 z).
Proof. unfold is_u32, u32. apply Z.mod_pos_bound. lia. Qed.

Lemma u8_id z : is_u8 z -> u8 z = z.
Proof. intros. unfold u8. apply Z.mod_small. zlia. Qed.

Lemma u32_id z : is_u32 z -> u32 z = z.
Proof. intros. unfold u32. apply Z.mod_small. zlia. Qed.

Lemma i32_id z : is_i32 z -> i32 z = z.
Proof. intros. unfold i32. rewrite Z.mod_small; zlia. Qed.

Lemma i32_range z : is_i32 (i32 z).
Proof.
  unfold is_i32, i32, INT32_MIN, INT32_MAX.
  pose proof (Z.mod_pos_bound (z + 2 ^ 31) (2 ^ 32)). lia.
Qed.

Lemma zlen_nonneg {A} (l : list A) : 0 <= zlen l.
Proof. unfold zlen. lia. Qed.

Lemma zlen_app {A} (l k : list A) : zlen (l ++ k) = zlen l + zlen k.
Proof. unfold zlen. rewrite length_app. lia. Qed.

Lemma zlen_cons {A} (x : A) l : zlen (x :: l) = 1 + zlen l.
Proof. unfold zlen. cbn [length]. lia. Qed.

Lemma zlen_nil {A} : zlen (@nil A) = 0.
Proof. reflexivity. Qed.

Lemma zlen_0_inv {A} (l : list A) : zlen l = 0 -> l = [].
Proof. destruct l; [done|]. rewrite zlen_cons. pose proof (zlen_nonneg l). lia. Qed.

Lemma to_nat_zlen {A} (l : list A) : Z.to_nat (zlen l) = length l.
Proof. apply Nat2Z.id. Qed.

Lemma ztake_app {A} (l k : list A) : ztake (zlen l) (l ++ k) = l.
Proof. unfold ztake. rewrite to_nat_zlen. apply take_app_length. Qed.

Lemma zdrop_app {A} (l k : list A) : zdrop (zlen l) (l ++ k) = k.
Proof. unfold zdrop. rewrite to_nat_zlen. apply drop_app_length. Qed.

Lemma zlen_ztake {A} n (l : list A) : 0 <= n <= zlen l -> zlen (ztake n l) = n.
Proof. unfold zlen, ztake. rewrite length_take. lia. Qed.

Lemma zlen_zdrop {A} n (l : list A) : 0 <= n <= zlen l -> zlen (zdrop n l) = zlen l - n.
Proof. unfold zlen, zdrop. rewrite length_drop. lia. Qed.

Lemma ztake_all {A} (l : list A) : ztake (zlen l) l = l.
Proof. unfold ztake, zlen. rewrite Nat2Z.id. apply firstn_all. Qed.

Lemma zdrop_all {A} (l : list A) : zdrop (zlen l) l = [].
Proof. unfold zdrop, zlen. rewrite Nat2Z.id. apply skipn_all. Qed.

Lemma ztake_zdrop {A} n (l : list A) : ztake n l ++ zdrop n l = l.
Proof. unfold ztake, zdrop. apply take_drop. Qed.

Lemma bytes_eqb_eq a b : bytes_eqb a b = true <-> a = b.
Proof. unfold bytes_eqb. rewrite bool_decide_eq_true. done. Qed.

Lemma bytes_eqb_refl a : bytes_eqb a a = true.
Proof. by apply bytes_eqb_eq. Qed.

Lemma is_bytes_app a b : is_bytes (a ++ b) <-> is_bytes a /\ is_bytes b.
Proof. unfold is_bytes. apply Forall_app. Qed.

Lemma is_bytes_cons x l : is_bytes (x :: l) <-> is_u8 x /\ is_bytes l.
Proof. unfold is_bytes. apply Forall_cons_iff. Qed.

Lemma is_bytes_nil : is_bytes [].
Proof. constructor. Qed.

Lemma is_bytes_take n l : is_bytes l -> is_bytes (ztake n l).
Proof. unfold is_bytes, ztake. apply Forall_take. Qed.

Lemma is_bytes_drop n l : is_bytes l -> is_bytes (zdrop n l).
Proof. unfold is_bytes, zdrop. apply Forall_drop. Qed.

(** Disjoint bit fields: a value shifted above [n] bits or-ed with one that
    fits in [n] bits is a sum. *)
Lemma lor_shiftl_add a b n :
  0 <= n -> 0 <= b < 2 ^ n -> Z.lor (Z.shiftl a n) b = a * 2 ^ n + b.
Proof.
  intros Hn Hb. rewrite Z.shiftl_mul_pow2 by lia.
  rewrite <- Z.add_lor_land.
  assert (Z.land (a * 2 ^ n) b = 0) as ->; [|lia].
  apply Z.bits_inj'. intros i Hi.
  rewrite Z.land_spec, Z.bits_0.
  destruct (Z_lt_le_dec i n).
  - rewrite Z.mul_pow2_bits_low by lia. done.
  - rewrite <- (Z.mod_small b (2 ^ n)) by lia.
    rewrite Z.mod_pow2_bits_high by lia. by rewrite andb_false_r.
Qed.

Lemma land_mask z n : 0 <= n -> Z.land z (2 ^ n - 1) = z mod 2 ^ n.
Proof.
  intros. rewrite <- Z.land_ones by lia. f_equal. rewrite Z.ones_equiv. lia.
Qed.

Lemma bytes_of_bytes s : is_bytes (bytes_of s).
Proof.
  unfold is_bytes, bytes_of. induction (String.list_ascii_of_string s) as [|c l IH]; constructor;
    [|done]. pose proof (Ascii.N_ascii_bounded c). zlia.
Qed.

(** Testing the top bit of an [n+1]-bit value. *)
Lemma land_top_bit n z :
  0 <= n -> 0 <= z < 2 ^ (n + 1) -> (Z.land z (2 ^ n) =? 0) = (z <? 2 ^ n).
Proof.
  intros Hn Hz. rewrite Z.pow_add_r in Hz by lia. change (2 ^ 1) with 2 in Hz.
  destruct (Z.ltb_spec z (2 ^ n)) as [Hlt|Hge].
  - apply Z.eqb_eq, Z.bits_inj'. intros i Hi.
    rewrite Z.bits_0, Z.land_spec, Z.pow2_bits_eqb by lia.
    destruct (Z.eqb_spec n i) as [<-|]; [|apply andb_false_r].
    rewrite <- (Z.mod_small z (2 ^ n)) by lia. by rewrite Z.mod_pow2_bits_high by lia.
  - apply Z.eqb_neq. intros E. apply (f_equal (fun y => Z.testbit y n)) in E.
    rewrite Z.bits_0, Z.land_spec, Z.pow2_bits_true, andb_true_r in E by lia.
    replace z with (1 * 2 ^ n + (z - 2 ^ n)) in E by lia.
    rewrite <- lor_shiftl_add, Z.lor_spec, Z.shiftl_spec, Z.sub_diag in E by lia.
    done.
Qed.

Lemma land_0x80 z : is_u8 z -> (Z.land z 0x80 =? 0) = (z <? 128).
Proof. intros. apply (land_top_bit 7 z); zlia. Qed.

Lemma land_0x7f z : Z.land z 0x7f = z mod 128.
Proof. apply (land_mask z 7). lia. Qed.

(** Split every [is_bytes] hypothesis on a literal list. *)
Ltac bytes_inv :=
  repeat match goal with
  | H : is_bytes (_ :: _) |- _ => apply is_bytes_cons in H as [? H]
  | H : is_bytes (_ ++ _) |- _ => apply is_bytes_app in H as [? H]
  | H : is_bytes [] |- _ => clear H
  end.

Ltac bytes_solve :=
  repeat first
    [ apply is_bytes_app; split | apply is_bytes_cons; split | apply is_bytes_nil
    | solve [eauto with chttp] ].

#[export] Hint Resolve is_bytes_nil u8_range u32_range i32_range is_bytes_take is_bytes_drop
  zlen_nonneg : chttp.
Create Rewrite HintDb zlen.
#[export] Hint Rewrite @zlen_app @zlen_cons @zlen_nil : zlen.
