(* ===== verification/Decimal.v ===== *)
(** * Decimal numbers

    The conversions [%u], [%02d] and [%zu] of [snprintf], as far as the sources
    use them: the digits of a number that is not negative. *)

From S2P Require Import Prelude.

Module Decimal.

(** The digits of [n] in front of [digits], at most [fuel] of them. *)
Fixpoint decimal_loop (fuel : nat) (n : Z) (digits : list Z) : list Z :=
  match fuel with
  | O => digits
  | S fuel =>
    let digits := (48 + n mod 10) :: digits in
    if n <? 10 then digits else decimal_loop fuel (n / 10) digits
  end.

(** A [uint32_t] has ten digits at most, a [size_t] of 64 bits twenty. *)
Definition decimal (n : Z) : list Z := decimal_loop 10 n [].
Definition decimal_size (n : Z) : list Z := decimal_loop 20 n [].

(** The value of a string of digits. *)
Definition is_digit (d : Z) : Prop := 48 <= d <= 57.
Definition number (digits : list Z) : Z := foldl (fun v d => v * 10 + (d - 48)) 0 digits.

Lemma decimal_loop_number fuel : forall n digits, 0 <= n < 10 ^ Z.of_nat fuel -> (0 < fuel)%nat ->
  exists front, decimal_loop fuel n digits = front ++ digits /\ front <> [] /\
    Forall is_digit front /\ (length front <= fuel)%nat /\ number front = n.
Proof.
  unfold is_digit, number. induction fuel as [|fuel IH]; intros n digits Hn Hf; [lia|]. cbn [decimal_loop]. cbv zeta.
  pose proof (Z.mod_pos_bound n 10 ltac:(lia)). split_if.
  - exists [48 + n mod 10]. cbn. rewrite Z.mod_small by lia. split_and!; try done; try lia.
    apply Forall_cons_2; [lia|apply Forall_nil_2].
  - rewrite Nat2Z.inj_succ, Z.pow_succ_r in Hn by lia.
    destruct fuel as [|fuel]; [cbn in *; lia|].
    destruct (IH (n / 10) ((48 + n mod 10) :: digits)) as (front & -> & Hne & Hd & Hl & Hv); [|lia|].
    { split; [apply Z.div_pos; lia|apply Z.div_lt_upper_bound; lia]. }
    exists (front ++ [48 + n mod 10]). rewrite <- app_assoc, length_app, foldl_app, Hv. cbn. split_and!; try done.
    + by destruct front.
    + apply Forall_app. split; [done|]. apply Forall_cons_2; [lia|apply Forall_nil_2].
    + lia.
    + pose proof (Z.div_mod n 10 ltac:(lia)). lia.
Qed.

Lemma decimal_size_number n : 0 <= n <= SIZE_MAX -> exists front, decimal_size n = front /\ front <> [] /\
  Forall is_digit front /\ zlen front <= 20 /\ number front = n.
Proof.
  intros Hn. destruct (decimal_loop_number 20 n []) as (front & E & Hne & Hd & Hl & Hv); [zlia|lia|].
  exists front. unfold decimal_size. rewrite E, app_nil_r. split_and!; try done. unfold zlen. lia.
Qed.

Lemma decimal_number n : 0 <= n <= UINT32_MAX -> exists front, decimal n = front /\ front <> [] /\
  Forall is_digit front /\ zlen front <= 10 /\ number front = n.
Proof.
  intros Hn. destruct (decimal_loop_number 10 n []) as (front & E & Hne & Hd & Hl & Hv); [zlia|lia|].
  exists front. unfold decimal. rewrite E, app_nil_r. split_and!; try done. unfold zlen. lia.
Qed.

End Decimal.
