(* ===== verification/H2Frame.v ===== *)
(** * HTTP/2 frame codec

    Model of [http_common/http/chttp_h2_frame.c]: the nine-octet frame header,
    the payload layouts of DATA, HEADERS, SETTINGS, RST_STREAM, GOAWAY, PING,
    WINDOW_UPDATE and PRIORITY.  A C buffer with its size is a list of bytes;
    an encoder takes the capacity of the output array and returns the bytes it
    stores there ([*output_size] is their number). *)

From S2P Require Import Prelude.

Module H2Frame.

Definition CHTTP_H2_FRAME_HEADER_SIZE : Z := 9.

Definition CHTTP_H2_FRAME_DATA : Z := 0.
Definition CHTTP_H2_FRAME_HEADERS : Z := 1.
Definition CHTTP_H2_FRAME_PRIORITY : Z := 2.
Definition CHTTP_H2_FRAME_RST_STREAM : Z := 3.
Definition CHTTP_H2_FRAME_SETTINGS : Z := 4.
Definition CHTTP_H2_FRAME_PUSH_PROMISE : Z := 5.
Definition CHTTP_H2_FRAME_PING : Z := 6.
Definition CHTTP_H2_FRAME_GOAWAY : Z := 7.
Definition CHTTP_H2_FRAME_WINDOW_UPDATE : Z := 8.
Definition CHTTP_H2_FRAME_CONTINUATION : Z := 9.

Definition CHTTP_H2_FLAG_END_STREAM : Z := 0x01.
Definition CHTTP_H2_FLAG_ACK : Z := 0x01.
Definition CHTTP_H2_FLAG_END_HEADERS : Z := 0x04.
Definition CHTTP_H2_FLAG_PADDED : Z := 0x08.
Definition CHTTP_H2_FLAG_PRIORITY : Z := 0x20.

#[export] Hint Unfold CHTTP_H2_FRAME_DATA CHTTP_H2_FRAME_HEADERS CHTTP_H2_FRAME_PRIORITY
  CHTTP_H2_FRAME_RST_STREAM CHTTP_H2_FRAME_SETTINGS CHTTP_H2_FRAME_PUSH_PROMISE
  CHTTP_H2_FRAME_PING CHTTP_H2_FRAME_GOAWAY CHTTP_H2_FRAME_WINDOW_UPDATE
  CHTTP_H2_FRAME_CONTINUATION CHTTP_H2_FLAG_END_STREAM CHTTP_H2_FLAG_ACK
  CHTTP_H2_FLAG_END_HEADERS CHTTP_H2_FLAG_PADDED CHTTP_H2_FLAG_PRIORITY : widths.

Record chttp_h2_frame_header := {
  fh_length : Z;
  fh_type : Z;
  fh_flags : Z;
  fh_stream_id : Z;
}.

(** [(flags & mask) != 0u] *)
Definition has_flag (flags mask : Z) : bool := negb (Z.land flags mask =? 0).

Definition chttp_h2_read_u24 (input : list Z) : Z :=
  Z.lor (Z.lor (Z.shiftl (zth input 0) 16) (Z.shiftl (zth input 1) 8)) (zth input 2).

Definition chttp_h2_read_u32 (input : list Z) : Z :=
  Z.lor
    (Z.lor (Z.lor (Z.shiftl (zth input 0) 24) (Z.shiftl (zth input 1) 16))
       (Z.shiftl (zth input 2) 8))
    (zth input 3).

Definition chttp_h2_write_u24 (value : Z) : list Z :=
  [u8 (Z.shiftr value 16); u8 (Z.shiftr value 8); u8 value].

Definition chttp_h2_write_u32 (value : Z) : list Z :=
  [u8 (Z.shiftr value 24); u8 (Z.shiftr value 16); u8 (Z.shiftr value 8); u8 value].

Definition chttp_h2_frame_header_encode
    (capacity length type flags stream_id : Z) : outcome (list Z) :=
  if capacity <? CHTTP_H2_FRAME_HEADER_SIZE then Err SALTS_EMSGSIZE
  else if (0x00ffffff <? length) || negb (Z.land stream_id 0x80000000 =? 0)
  then Err SALTS_EINVAL
  else
    Ok (chttp_h2_write_u24 length ++ [type; flags] ++ chttp_h2_write_u32 stream_id).

(** Returns [*consumed_size] and [*header]. *)
Definition chttp_h2_frame_header_decode (input : list Z) (max_frame_size : Z) :
    outcome (Z * chttp_h2_frame_header) :=
  if zlen input <? CHTTP_H2_FRAME_HEADER_SIZE then Err SALTS_EMSGSIZE
  else
    let length := chttp_h2_read_u24 input in
    if max_frame_size <? length then Err SALTS_EMSGSIZE
    else
      Ok (CHTTP_H2_FRAME_HEADER_SIZE,
          {| fh_length := length;
             fh_type := zth input 3;
             fh_flags := zth input 4;
             fh_stream_id := Z.land (chttp_h2_read_u32 (zdrop 5 input)) 0x7fffffff |}).

(** Returns the view [*data], [*data_size]. *)
Definition chttp_h2_frame_data_payload (payload : list Z) (flags : Z) : outcome (list Z) :=
  if negb (has_flag flags CHTTP_H2_FLAG_PADDED) then Ok payload
  else if zlen payload =? 0 then Err SALTS_EPROTO
  else
    let padding_size := zth payload 0 in
    if zlen payload - 1 <? padding_size then Err SALTS_EPROTO
    else Ok (ztake (zlen payload - 1 - padding_size) (zdrop 1 payload)).

(** What [chttp_h2_frame_headers_payload] stores: the block view and, when the
    PRIORITY flag is set, the dependency and the weight. *)
Record headers_payload := {
  hp_block : list Z;
  hp_priority : option (Z * Z);
}.

Definition chttp_h2_frame_headers_payload (payload : list Z) (flags : Z) :
    outcome headers_payload :=
  let payload_size := zlen payload in
  let padded :=
    if has_flag flags CHTTP_H2_FLAG_PADDED then
      if payload_size =? 0 then Err SALTS_EPROTO
      else
        let padding_size := zth payload 0 in
        let offset := 1 in
        if payload_size - offset <? padding_size then Err SALTS_EPROTO
        else Ok (padding_size, offset)
    else Ok (0, 0) in
  match padded with
  | Err e => Err e
  | Ok (padding_size, offset) =>
    if has_flag flags CHTTP_H2_FLAG_PRIORITY then
      if payload_size - offset - padding_size <? 5 then Err SALTS_EPROTO
      else
        let dependency := Z.land (chttp_h2_read_u32 (zdrop offset payload)) 0x7fffffff in
        let weight := zth payload (offset + 4) + 1 in
        let offset := offset + 5 in
        Ok {| hp_block := ztake (payload_size - offset - padding_size) (zdrop offset payload);
              hp_priority := Some (dependency, weight) |}
    else
      Ok {| hp_block := ztake (payload_size - offset - padding_size) (zdrop offset payload);
            hp_priority := None |}
  end.

(** The loop of [chttp_h2_frame_settings_encode] over the settings. *)
Fixpoint settings_encode_loop (settings : list (Z * Z)) : outcome (list Z) :=
  match settings with
  | [] => Ok []
  | (identifier, value) :: rest =>
    if UINT16_MAX <? identifier then Err SALTS_EINVAL
    else
      match settings_encode_loop rest with
      | Err e => Err e
      | Ok out =>
        Ok ([u8 (Z.shiftr identifier 8); u8 identifier] ++ chttp_h2_write_u32 value ++ out)
      end
  end.

Definition chttp_h2_frame_settings_encode (capacity : Z) (settings : list (Z * Z)) :
    outcome (list Z) :=
  let count := zlen settings in
  if SIZE_MAX / 6 <? count then Err SALTS_EMSGSIZE
  else
    let required_size := count * 6 in
    if capacity <? required_size then Err SALTS_EMSGSIZE
    else settings_encode_loop settings.

(** Setting [index] of the payload: bytes [6 * index .. 6 * index + 5]. *)
Definition settings_entry (payload : list Z) (index : Z) : Z * Z :=
  (Z.lor (Z.shiftl (zth payload (index * 6)) 8) (zth payload (index * 6 + 1)),
   chttp_h2_read_u32 (zdrop (index * 6 + 2) payload)).

Definition chttp_h2_frame_settings_parse (payload : list Z) (max_count : Z) :
    outcome (list (Z * Z)) :=
  let payload_size := zlen payload in
  if negb (payload_size mod 6 =? 0) then Err SALTS_EPROTO
  else
    let parsed_count := payload_size / 6 in
    if max_count <? parsed_count then Err SALTS_EMSGSIZE
    else
      Ok (map (fun index => settings_entry payload (Z.of_nat index))
            (seq 0 (Z.to_nat parsed_count))).

Definition chttp_h2_frame_rst_encode (capacity error_code : Z) : outcome (list Z) :=
  if capacity <? 4 then Err SALTS_EMSGSIZE
  else Ok (chttp_h2_write_u32 error_code).

Definition chttp_h2_frame_goaway_encode (capacity last_stream_id error_code : Z) :
    outcome (list Z) :=
  if capacity <? 8 then Err SALTS_EMSGSIZE
  else if negb (Z.land last_stream_id 0x80000000 =? 0) then Err SALTS_EINVAL
  else Ok (chttp_h2_write_u32 last_stream_id ++ chttp_h2_write_u32 error_code).

Definition chttp_h2_frame_goaway_parse (payload : list Z) : outcome (Z * Z) :=
  if zlen payload <? 8 then Err SALTS_EMSGSIZE
  else
    Ok (Z.land (chttp_h2_read_u32 payload) 0x7fffffff,
        chttp_h2_read_u32 (zdrop 4 payload)).

Definition chttp_h2_frame_ping_encode (capacity : Z) (opaque_bytes : list Z) :
    outcome (list Z) :=
  if capacity <? 8 then Err SALTS_EMSGSIZE else Ok (ztake 8 opaque_bytes).

Definition chttp_h2_frame_window_update_encode (capacity increment : Z) : outcome (list Z) :=
  if (increment =? 0) || negb (Z.land increment 0x80000000 =? 0) then Err SALTS_EINVAL
  else if capacity <? 4 then Err SALTS_EMSGSIZE
  else Ok (chttp_h2_write_u32 increment).

Definition chttp_h2_frame_priority_encode
    (capacity : Z) (exclusive : bool) (dependency_stream_id weight : Z) :
    outcome (list Z) :=
  if (weight =? 0) || (256 <? weight) || negb (Z.land dependency_stream_id 0x80000000 =? 0)
  then Err SALTS_EINVAL
  else if capacity <? 5 then Err SALTS_EMSGSIZE
  else
    let dependency := Z.lor dependency_stream_id (if exclusive then 0x80000000 else 0) in
    Ok (chttp_h2_write_u32 dependency ++ [u8 (weight - 1)]).

(** ** Big-endian integers *)

Lemma zth_0 x l : zth (x :: l) 0 = x.
Proof. reflexivity. Qed.

Lemma zth_cons x l i : 0 < i -> zth (x :: l) i = zth l (i - 1).
Proof.
  intros. unfold zth. replace (Z.to_nat i) with (S (Z.to_nat (i - 1))) by lia. done.
Qed.

Lemma zth_app_r l k i : zlen l <= i -> zth (l ++ k) i = zth k (i - zlen l).
Proof.
  intros. unfold zth, zlen in *. rewrite app_nth2 by lia. f_equal. lia.
Qed.

Lemma read_u16_sum a b :
  is_u8 b -> Z.lor (Z.shiftl a 8) b = a * 2 ^ 8 + b.
Proof. intros. apply lor_shiftl_add; zlia. Qed.

Lemma read_u24_sum a b c l :
  is_u8 b -> is_u8 c ->
  chttp_h2_read_u24 (a :: b :: c :: l) = a * 2 ^ 16 + b * 2 ^ 8 + c.
Proof.
  intros Hb Hc. unfold chttp_h2_read_u24.
  change (zth (a :: b :: c :: l) 0) with a.
  change (zth (a :: b :: c :: l) 1) with b.
  change (zth (a :: b :: c :: l) 2) with c.
  replace (Z.shiftl a 16) with (Z.shiftl (Z.shiftl a 8) 8)
    by (rewrite !Z.shiftl_shiftl by lia; done).
  rewrite <- Z.shiftl_lor.
  rewrite !lor_shiftl_add; zlia.
Qed.

Lemma read_u32_sum a b c d l :
  is_u8 b -> is_u8 c -> is_u8 d ->
  chttp_h2_read_u32 (a :: b :: c :: d :: l) = a * 2 ^ 24 + b * 2 ^ 16 + c * 2 ^ 8 + d.
Proof.
  intros Hb Hc Hd. unfold chttp_h2_read_u32.
  change (zth (a :: b :: c :: d :: l) 0) with a.
  change (zth (a :: b :: c :: d :: l) 1) with b.
  change (zth (a :: b :: c :: d :: l) 2) with c.
  change (zth (a :: b :: c :: d :: l) 3) with d.
  replace (Z.shiftl a 24) with (Z.shiftl (Z.shiftl (Z.shiftl a 8) 8) 8)
    by (rewrite !Z.shiftl_shiftl by lia; done).
  replace (Z.shiftl b 16) with (Z.shiftl (Z.shiftl b 8) 8)
    by (rewrite !Z.shiftl_shiftl by lia; done).
  rewrite <- !Z.shiftl_lor.
  rewrite !lor_shiftl_add; zlia.
Qed.

Lemma write_u24_bytes v : is_bytes (chttp_h2_write_u24 v).
Proof. unfold is_bytes. repeat constructor; apply u8_range. Qed.

Lemma write_u32_bytes v : is_bytes (chttp_h2_write_u32 v).
Proof. unfold is_bytes. repeat constructor; apply u8_range. Qed.

Lemma read_write_u24 v l :
  0 <= v < 2 ^ 24 -> chttp_h2_read_u24 (chttp_h2_write_u24 v ++ l) = v.
Proof.
  intros. unfold chttp_h2_write_u24. cbn [app].
  rewrite read_u24_sum by apply u8_range. unfold u8.
  rewrite !Z.shiftr_div_pow2 by lia. Z.div_mod_to_equations. lia.
Qed.

Lemma read_write_u32 v l :
  is_u32 v -> chttp_h2_read_u32 (chttp_h2_write_u32 v ++ l) = v.
Proof.
  intros. unfold chttp_h2_write_u32. cbn [app].
  rewrite read_u32_sum by apply u8_range. unfold u8, is_u32 in *.
  rewrite !Z.shiftr_div_pow2 by lia. Z.div_mod_to_equations. lia.
Qed.

Lemma read_u32_range l : is_bytes l -> 4 <= zlen l -> is_u32 (chttp_h2_read_u32 l).
Proof.
  intros Hb Hl. destruct l as [|a [|b [|c [|d l]]]];
    try (unfold zlen in Hl; cbn in Hl; lia).
  bytes_inv.
  rewrite read_u32_sum by done. zlia.
Qed.

Lemma write_read_u32 a b c d l :
  is_bytes [a; b; c; d] ->
  chttp_h2_write_u32 (chttp_h2_read_u32 (a :: b :: c :: d :: l)) = [a; b; c; d].
Proof.
  intros Hb. bytes_inv.
  rewrite read_u32_sum by done. unfold chttp_h2_write_u32, u8, is_u8 in *.
  rewrite !Z.shiftr_div_pow2 by lia.
  repeat f_equal; Z.div_mod_to_equations; lia.
Qed.

(** The reserved top bit of a 32-bit field. *)
Lemma top_bit_clear z : is_u32 z -> (Z.land z 0x80000000 =? 0) = (z <? 2 ^ 31).
Proof.
  intros Hz. change 0x80000000 with (2 ^ 31). apply land_top_bit; zlia.
Qed.

Lemma land_31 z : Z.land z 0x7fffffff = z mod 2 ^ 31.
Proof. change 0x7fffffff with (2 ^ 31 - 1). apply land_mask. lia. Qed.

(** ** Frame header *)

Lemma frame_header_encode_ok cap len ty fl sid :
  9 <= cap -> 0 <= len <= 0xffffff -> 0 <= sid < 2 ^ 31 ->
  chttp_h2_frame_header_encode cap len ty fl sid =
  Ok (chttp_h2_write_u24 len ++ [ty; fl] ++ chttp_h2_write_u32 sid).
Proof.
  intros. unfold chttp_h2_frame_header_encode, CHTTP_H2_FRAME_HEADER_SIZE.
  rewrite top_bit_clear by zlia.
  repeat split_if; repeat destruct_or?; bool_prop; try lia. done.
Qed.

Lemma frame_header_decode_bytes len ty fl sid rest max :
  0 <= len <= 0xffffff -> 0 <= sid < 2 ^ 31 -> len <= max ->
  chttp_h2_frame_header_decode
    (chttp_h2_write_u24 len ++ [ty; fl] ++ chttp_h2_write_u32 sid ++ rest) max =
  Ok (9, {| fh_length := len; fh_type := ty; fh_flags := fl; fh_stream_id := sid |}).
Proof.
  intros. unfold chttp_h2_frame_header_decode, CHTTP_H2_FRAME_HEADER_SIZE.
  rewrite read_write_u24 by lia.
  change (zdrop 5 _) with (chttp_h2_write_u32 sid ++ rest).
  rewrite read_write_u32 by zlia. rewrite land_31, Z.mod_small by lia.
  pose proof (zlen_nonneg rest).
  split_if; [rewrite !zlen_app in *; unfold zlen in *; cbn in *; lia|].
  split_if; [lia|]. done.
Qed.

(** A frame header whose fields are in range encodes to nine bytes that decode to
    the same fields, whatever follows. *)
Theorem frame_header_roundtrip cap len ty fl sid max rest :
  9 <= cap -> 0 <= len <= 0xffffff -> is_u8 ty -> is_u8 fl -> 0 <= sid < 2 ^ 31 ->
  len <= max ->
  exists bytes,
    chttp_h2_frame_header_encode cap len ty fl sid = Ok bytes /\
    is_bytes bytes /\ zlen bytes = CHTTP_H2_FRAME_HEADER_SIZE /\
    chttp_h2_frame_header_decode (bytes ++ rest) max =
      Ok (CHTTP_H2_FRAME_HEADER_SIZE,
          {| fh_length := len; fh_type := ty; fh_flags := fl; fh_stream_id := sid |}).
Proof.
  intros. eexists. rewrite frame_header_encode_ok by done. split; [done|].
  split; [|split; [done|]].
  - bytes_solve.
  - rewrite <- !app_assoc. by apply frame_header_decode_bytes.
Qed.

Lemma frame_header_roundtrip_witness :
  exists bytes,
    chttp_h2_frame_header_encode 9 5 CHTTP_H2_FRAME_DATA CHTTP_H2_FLAG_END_STREAM 3 = Ok bytes /\
    is_bytes bytes /\ zlen bytes = CHTTP_H2_FRAME_HEADER_SIZE /\
    chttp_h2_frame_header_decode (bytes ++ [104; 101; 108; 108; 111]) 16384 =
      Ok (CHTTP_H2_FRAME_HEADER_SIZE,
          {| fh_length := 5; fh_type := CHTTP_H2_FRAME_DATA;
             fh_flags := CHTTP_H2_FLAG_END_STREAM; fh_stream_id := 3 |}).
Proof. apply frame_header_roundtrip; done. Defined.

Lemma frame_header_decode_ok input max hdr consumed :
  is_bytes input ->
  chttp_h2_frame_header_decode input max = Ok (consumed, hdr) ->
  consumed = 9 /\ 9 <= zlen input /\ 0 <= fh_length hdr <= Z.min max 0xffffff /\
  is_u8 (fh_type hdr) /\ is_u8 (fh_flags hdr) /\ 0 <= fh_stream_id hdr < 2 ^ 31.
Proof.
  unfold chttp_h2_frame_header_decode, CHTTP_H2_FRAME_HEADER_SIZE. intros Hb H.
  destruct (Z.ltb_spec (zlen input) 9) as [|Hl]; [done|].
  destruct (Z.ltb_spec max (chttp_h2_read_u24 input)) as [|Hm]; [done|].
  injection H as <- <-. cbn [fh_length fh_type fh_flags fh_stream_id].
  destruct input as [|a [|b [|c [|d [|e input]]]]];
    try (unfold zlen in Hl; cbn in Hl; lia).
  bytes_inv. rewrite read_u24_sum in * by done.
  rewrite land_31. pose proof (Z.mod_pos_bound (chttp_h2_read_u32 (zdrop 5
    (a :: b :: c :: d :: e :: input))) (2 ^ 31)).
  change (zth _ 3) with d. change (zth _ 4) with e. zlia.
Qed.

(** A decoded header has its fields in range. *)
Theorem frame_header_decode_sound input max hdr consumed :
  is_bytes input ->
  chttp_h2_frame_header_decode input max = Ok (consumed, hdr) ->
  consumed = 9 /\ 9 <= zlen input /\ 0 <= fh_length hdr <= Z.min max 0xffffff /\
  is_u8 (fh_type hdr) /\ is_u8 (fh_flags hdr) /\ 0 <= fh_stream_id hdr < 2 ^ 31.
Proof. apply frame_header_decode_ok. Qed.

(** ** Payload layouts *)

Lemma data_payload_padded data pad flags :
  has_flag flags CHTTP_H2_FLAG_PADDED = true ->
  chttp_h2_frame_data_payload (zlen pad :: data ++ pad) flags = Ok data.
Proof.
  intros Hf. unfold chttp_h2_frame_data_payload. rewrite Hf. cbn [negb].
  change (zth (zlen pad :: data ++ pad) 0) with (zlen pad).
  change (zdrop 1 (zlen pad :: data ++ pad)) with (data ++ pad).
  autorewrite with zlen. pose proof (zlen_nonneg data). pose proof (zlen_nonneg pad).
  repeat (split_if; [lia|]).
  replace (1 + (zlen data + zlen pad) - 1 - zlen pad) with (zlen data) by lia.
  by rewrite ztake_app.
Qed.

(** The DATA payload parser returns exactly the data between the pad length and
    the padding when PADDED is set, the whole payload otherwise, and fails exactly
    when there is no such split. *)
Theorem data_payload_iff payload flags data :
  is_bytes payload ->
  chttp_h2_frame_data_payload payload flags = Ok data <->
  if has_flag flags CHTTP_H2_FLAG_PADDED
  then exists pad, payload = zlen pad :: data ++ pad
  else payload = data.
Proof.
  intros Hb. destruct (has_flag flags CHTTP_H2_FLAG_PADDED) eqn:Hf.
  - split; [|intros [pad ->]; by apply data_payload_padded].
    unfold chttp_h2_frame_data_payload. rewrite Hf. cbn [negb].
    destruct payload as [|n rest]; [done|]. bytes_inv.
    change (zth (n :: rest) 0) with n. change (zdrop 1 (n :: rest)) with rest.
    autorewrite with zlen. pose proof (zlen_nonneg rest).
    split_if; [lia|]. split_if; [done|]. intros [= <-].
    exists (zdrop (1 + zlen rest - 1 - n) rest).
    rewrite ztake_zdrop, zlen_zdrop by zlia. f_equal. lia.
  - unfold chttp_h2_frame_data_payload. rewrite Hf. cbn. split; congruence.
Qed.

Lemma data_payload_iff_witness :
  chttp_h2_frame_data_payload [2; 104; 105; 0; 0] CHTTP_H2_FLAG_PADDED = Ok [104; 105] <->
  exists pad, [2; 104; 105; 0; 0] = zlen pad :: [104; 105] ++ pad.
Proof. apply (data_payload_iff [2; 104; 105; 0; 0] CHTTP_H2_FLAG_PADDED). by repeat constructor. Defined.

Lemma priority_encode_ok cap exclusive dep weight :
  5 <= cap -> 1 <= weight <= 256 -> 0 <= dep < 2 ^ 31 ->
  exists a b c d,
    chttp_h2_frame_priority_encode cap exclusive dep weight =
      Ok [a; b; c; d; weight - 1] /\
    is_bytes [a; b; c; d; weight - 1] /\
    (forall l, Z.land (chttp_h2_read_u32 (a :: b :: c :: d :: l)) 0x7fffffff = dep).
Proof.
  intros. unfold chttp_h2_frame_priority_encode.
  rewrite top_bit_clear by zlia.
  do 2 (split_if; [repeat destruct_or?; bool_prop; lia|]).
  rewrite u8_id by zlia.
  set (w := Z.lor dep (if exclusive then 0x80000000 else 0)).
  assert (w = (if exclusive then 1 else 0) * 2 ^ 31 + dep) as Hw.
  { subst w. destruct exclusive.
    - rewrite Z.lor_comm. change 0x80000000 with (Z.shiftl 1 31).
      by rewrite lor_shiftl_add by lia.
    - rewrite Z.lor_0_r. lia. }
  do 4 eexists. split; [reflexivity|]. split.
  - bytes_solve. zlia.
  - intros l. pose proof (read_write_u32 w l) as E. unfold chttp_h2_write_u32 in E.
    cbn [app] in E. rewrite E by (destruct exclusive; zlia).
    rewrite land_31, Hw. rewrite Z.add_comm, Z.mod_add by lia. apply Z.mod_small. lia.
Qed.

(** The priority fields before a header block, with or without padding, are parsed
    back with the block. *)
Theorem headers_priority_roundtrip cap exclusive dep weight block pad :
  5 <= cap -> 1 <= weight <= 256 -> 0 <= dep < 2 ^ 31 ->
  exists prio,
    chttp_h2_frame_priority_encode cap exclusive dep weight = Ok prio /\
    chttp_h2_frame_headers_payload (prio ++ block) CHTTP_H2_FLAG_PRIORITY =
      Ok {| hp_block := block; hp_priority := Some (dep, weight) |} /\
    chttp_h2_frame_headers_payload (zlen pad :: prio ++ block ++ pad)
        (Z.lor CHTTP_H2_FLAG_PADDED CHTTP_H2_FLAG_PRIORITY) =
      Ok {| hp_block := block; hp_priority := Some (dep, weight) |}.
Proof.
  intros Hc Hw Hd.
  destruct (priority_encode_ok cap exclusive dep weight Hc Hw Hd)
    as (a & b & c & d & He & _ & Hr).
  eexists. split; [exact He|].
  pose proof (zlen_nonneg block). pose proof (zlen_nonneg pad).
  unfold chttp_h2_frame_headers_payload. cbn [app]. split.
  - change (has_flag _ CHTTP_H2_FLAG_PADDED) with false.
    change (has_flag _ CHTTP_H2_FLAG_PRIORITY) with true. cbn iota beta.
    autorewrite with zlen. split_if; [lia|].
    change (zdrop 0 ?l) with l. rewrite Hr.
    change (zth _ (0 + 4)) with (weight - 1).
    change (zdrop (0 + 5) _) with block.
    replace (weight - 1 + 1) with weight by lia. do 2 f_equal.
    replace (_ - _ - 0) with (zlen block) by lia.
    by rewrite <- (app_nil_r block) at 2; rewrite ztake_app.
  - change (has_flag _ CHTTP_H2_FLAG_PADDED) with true.
    change (has_flag _ CHTTP_H2_FLAG_PRIORITY) with true.
    change (zth (zlen pad :: _) 0) with (zlen pad).
    cbn iota beta zeta. autorewrite with zlen.
    do 2 (split_if; [lia|]). cbn iota beta. split_if; [lia|].
    change (zdrop 1 (_ :: ?l)) with l. rewrite Hr.
    change (zth _ (1 + 4)) with (weight - 1).
    change (zdrop (1 + 5) _) with (block ++ pad).
    replace (weight - 1 + 1) with weight by lia. do 2 f_equal.
    replace (_ - _ - zlen pad) with (zlen block) by lia. apply ztake_app.
Qed.

Lemma headers_priority_roundtrip_witness :
  exists prio,
    chttp_h2_frame_priority_encode 5 true 3 256 = Ok prio /\
    chttp_h2_frame_headers_payload (prio ++ [130]) CHTTP_H2_FLAG_PRIORITY =
      Ok {| hp_block := [130]; hp_priority := Some (3, 256) |} /\
    chttp_h2_frame_headers_payload (zlen [0; 0] :: prio ++ [130] ++ [0; 0])
        (Z.lor CHTTP_H2_FLAG_PADDED CHTTP_H2_FLAG_PRIORITY) =
      Ok {| hp_block := [130]; hp_priority := Some (3, 256) |}.
Proof. apply headers_priority_roundtrip; lia. Defined.

(** ** SETTINGS *)

(** The settings a payload of whole entries holds, six bytes at a time. *)
Definition settings_entries (payload : list Z) (n : nat) : list (Z * Z) :=
  map (fun index => settings_entry payload (Z.of_nat index)) (seq 0 n).

Lemma settings_entry_skip a b c d e f rest i :
  0 <= i ->
  settings_entry (a :: b :: c :: d :: e :: f :: rest) (i + 1) = settings_entry rest i.
Proof.
  intros. unfold settings_entry.
  change (a :: b :: c :: d :: e :: f :: rest) with ([a; b; c; d; e; f] ++ rest).
  rewrite !zth_app_r by (unfold zlen; cbn; lia).
  unfold zdrop. rewrite (drop_app_ge _ _ _) by (cbn; lia).
  change (zlen [a; b; c; d; e; f]) with 6. cbn [length].
  repeat f_equal; lia.
Qed.

Lemma settings_entries_cons a b c d e f rest n :
  is_bytes [a; b; c; d; e; f] ->
  settings_entries (a :: b :: c :: d :: e :: f :: rest) (S n) =
  (a * 2 ^ 8 + b, c * 2 ^ 24 + d * 2 ^ 16 + e * 2 ^ 8 + f) :: settings_entries rest n.
Proof.
  intros Hb. bytes_inv. unfold settings_entries. cbn [seq map]. f_equal.
  - unfold settings_entry. change (Z.of_nat 0 * 6) with 0.
    change (zdrop (0 + 2) _) with (c :: d :: e :: f :: rest).
    change (zth _ 0) with a. change (zth _ (0 + 1)) with b.
    by rewrite read_u16_sum, read_u32_sum.
  - rewrite <- seq_shift, map_map. apply map_ext. intros i.
    rewrite Nat2Z.inj_succ, <- Z.add_1_r. apply settings_entry_skip. lia.
Qed.

Definition setting_ok (s : Z * Z) : Prop := 0 <= s.1 <= UINT16_MAX /\ is_u32 s.2.

Lemma settings_encode_loop_ok settings :
  Forall setting_ok settings ->
  exists bytes,
    settings_encode_loop settings = Ok bytes /\ is_bytes bytes /\
    zlen bytes = zlen settings * 6 /\
    settings_entries bytes (length settings) = settings.
Proof.
  induction 1 as [|[id v] rest [Hid Hv] _ (bytes & He & Hb & Hl & Hp)].
  { exists []. repeat split; bytes_solve. }
  cbn [fst snd] in *. cbn [settings_encode_loop].
  split_if; [zlia|]. rewrite He. eexists. split; [reflexivity|]. split; [bytes_solve|].
  split.
  { rewrite !zlen_app, !zlen_cons, Hl. unfold chttp_h2_write_u32, zlen. cbn. lia. }
  unfold chttp_h2_write_u32. cbn [app length].
  rewrite settings_entries_cons by bytes_solve. rewrite Hp.
  pose proof (read_write_u32 v [] Hv) as Ev. unfold chttp_h2_write_u32 in Ev.
  cbn [app] in Ev. rewrite read_u32_sum in Ev by apply u8_range. rewrite Ev.
  do 2 f_equal. unfold u8, UINT16_MAX in *. rewrite Z.shiftr_div_pow2 by lia.
  Z.div_mod_to_equations. lia.
Qed.

(** A list of settings encodes to six bytes each and parses back to the same list. *)
Theorem settings_roundtrip cap max settings :
  Forall setting_ok settings -> zlen settings * 6 <= cap -> cap <= SIZE_MAX ->
  zlen settings <= max ->
  exists bytes,
    chttp_h2_frame_settings_encode cap settings = Ok bytes /\
    zlen bytes = zlen settings * 6 /\
    chttp_h2_frame_settings_parse bytes max = Ok settings.
Proof.
  intros Hs Hc Hcap Hm.
  destruct (settings_encode_loop_ok settings Hs) as (bytes & He & _ & Hl & Hp).
  exists bytes. unfold chttp_h2_frame_settings_encode, chttp_h2_frame_settings_parse.
  pose proof (zlen_nonneg settings).
  assert (SIZE_MAX / 6 >= zlen settings) by (unfold SIZE_MAX in *; Z.div_mod_to_equations; lia).
  split; [by repeat (split_if; [lia|])|]. split; [done|].
  rewrite Hl, Z.mod_mul, Z.div_mul by lia. cbn. split_if; [lia|].
  rewrite to_nat_zlen. by f_equal.
Qed.

Lemma settings_roundtrip_witness :
  exists bytes,
    chttp_h2_frame_settings_encode 64 [(4, 65535); (5, 16384)] = Ok bytes /\
    zlen bytes = zlen [(4, 65535); (5, 16384)] * 6 /\
    chttp_h2_frame_settings_parse bytes 32 = Ok [(4, 65535); (5, 16384)].
Proof. apply settings_roundtrip; [by repeat constructor|done|done|done]. Defined.

(** Parsed settings encode back to the payload. *)
Theorem settings_parse_encode payload max settings :
  is_bytes payload -> zlen payload <= SIZE_MAX ->
  chttp_h2_frame_settings_parse payload max = Ok settings ->
  zlen settings <= max /\ Forall setting_ok settings /\
  chttp_h2_frame_settings_encode (zlen payload) settings = Ok payload.
Proof.
  unfold chttp_h2_frame_settings_parse. intros Hb Hsz.
  destruct (Z.eqb_spec (zlen payload mod 6) 0) as [Hmod|]; [|done]. cbn.
  split_if; [done|]. fold (settings_entries payload (Z.to_nat (zlen payload / 6))).
  intros [= <-]. pose proof (zlen_nonneg payload).
  set (n := Z.to_nat (zlen payload / 6)).
  assert (zlen payload = Z.of_nat n * 6) as Hn
    by (subst n; Z.div_mod_to_equations; lia).
  assert (zlen (settings_entries payload n) = Z.of_nat n) as Hlen
    by (unfold zlen, settings_entries; rewrite length_map, length_seq; done).
  split; [rewrite Hlen; subst n; Z.div_mod_to_equations; lia|].
  clearbody n.
  assert (Forall setting_ok (settings_entries payload n) /\
    settings_encode_loop (settings_entries payload n) = Ok payload) as [Hok He].
  { clear -Hb Hn. revert payload Hb Hn. induction n as [|n IH]; intros payload Hb Hn.
    - rewrite (zlen_0_inv payload) by lia. split; [constructor|done].
    - destruct payload as [|a [|b [|c [|d [|e [|f rest]]]]]];
        autorewrite with zlen in Hn; try lia. bytes_inv.
      destruct (IH rest) as [IH1 IH2]; [done|lia|].
      rewrite settings_entries_cons by bytes_solve. split.
      { constructor; [|done]. unfold setting_ok. cbn. zlia. }
      cbn [settings_encode_loop]. split_if; [zlia|]. rewrite IH2.
      rewrite <- (read_u32_sum c d e f []) by done.
      rewrite write_read_u32 by bytes_solve. cbn [app].
      unfold u8, is_u8 in *. rewrite Z.shiftr_div_pow2 by lia.
      do 3 f_equal; Z.div_mod_to_equations; lia. }
  split; [done|]. unfold chttp_h2_frame_settings_encode. rewrite Hlen.
  do 2 (split_if; [unfold SIZE_MAX in *; Z.div_mod_to_equations; lia|]). done.
Qed.

Lemma goaway_roundtrip cap last err rest :
  8 <= cap -> 0 <= last < 2 ^ 31 -> is_u32 err ->
  exists bytes,
    chttp_h2_frame_goaway_encode cap last err = Ok bytes /\ zlen bytes = 8 /\
    chttp_h2_frame_goaway_parse (bytes ++ rest) = Ok (last, err).
Proof.
  intros. unfold chttp_h2_frame_goaway_encode, chttp_h2_frame_goaway_parse.
  rewrite top_bit_clear by zlia. split_if; [lia|]. split_if; [lia|].
  eexists. split; [reflexivity|]. split; [done|].
  pose proof (zlen_nonneg rest).
  split_if; [rewrite !zlen_app in *; unfold zlen in *; cbn in *; lia|].
  rewrite <- app_assoc. rewrite read_write_u32 by zlia.
  change (zdrop 4 _) with (chttp_h2_write_u32 err ++ rest).
  rewrite read_write_u32 by done. rewrite land_31, Z.mod_small by lia. done.
Qed.

End H2Frame.
