(* ===== verification/HpackBuffer.v ===== *)
(** * HPACK output buffers and the integer representation

    Model of the first part of [http_common/http/chttp_h2_hpack.c]: the
    bounded growable buffer ([chttp_h2_hpack_buffer_*], also used by the
    protocol engine for its input and output) and the prefix integers of
    RFC 7541 section 5.1.  A buffer holds the bytes below [size]; what lies
    between [size] and [capacity] is never read.  Input cursors
    ([in], [in_len], [*pos]) are the list of the bytes that remain. *)

From S2P Require Import Prelude.

(** The C allocator: whether a request for that many bytes is served.  Every
    theorem holds for every allocator, or says that it needs one that serves. *)
Class Allocator := malloc_ok : Z -> bool.

(** An allocator that serves every request. *)
Definition unlimited_allocator : Allocator := fun _ => true.

Module HpackBuffer.

Record chttp_h2_hpack_buffer := {
  buf_data : list Z;
  buf_capacity : Z;
  buf_max_capacity : Z;
}.

#[export] Instance eta_buffer : Eta chttp_h2_hpack_buffer :=
  fun b => Build_chttp_h2_hpack_buffer (buf_data b) (buf_capacity b) (buf_max_capacity b).
#[export] Instance set_buf_data : Setter buf_data. Proof. mk_setter. Defined.
#[export] Instance set_buf_capacity : Setter buf_capacity. Proof. mk_setter. Defined.

Definition buf_size (b : chttp_h2_hpack_buffer) : Z := zlen (buf_data b).

(** [memset(b, 0, sizeof( *b))] *)
Definition buf_zero : chttp_h2_hpack_buffer :=
  {| buf_data := []; buf_capacity := 0; buf_max_capacity := 0 |}.

(** [memcpy(b->data + b->size, bytes, n); b->size += n] *)
Definition buf_append (b : chttp_h2_hpack_buffer) (bytes : list Z) : chttp_h2_hpack_buffer :=
  b <| buf_data := buf_data b ++ bytes |>.

(** [b->data[i] |= mask] *)
Definition buf_or (b : chttp_h2_hpack_buffer) (i mask : Z) : chttp_h2_hpack_buffer :=
  b <| buf_data := <[Z.to_nat i := Z.lor (zth (buf_data b) i) mask]> (buf_data b) |>.

Section Buffer.
Context {alloc : Allocator}.

Definition chttp_h2_hpack_buffer_init (hint max_capacity : Z) : option chttp_h2_hpack_buffer :=
  if (max_capacity =? 0) || (max_capacity <? hint) then None
  else
    let hint :=
      if hint =? 0 then (if max_capacity <? 256 then max_capacity else 256) else hint in
    if negb (malloc_ok hint) then None
    else Some {| buf_data := []; buf_capacity := hint; buf_max_capacity := max_capacity |}.

Definition chttp_h2_hpack_buffer_destroy (b : chttp_h2_hpack_buffer) : chttp_h2_hpack_buffer :=
  buf_zero.

(** [while (cap < need)]: the capacity at least doubles or reaches the
    maximum, so 65 rounds are enough for a 64-bit [need]. *)
Fixpoint reserve_loop (fuel : nat) (cap need max_capacity : Z) : option Z :=
  if need <=? cap then Some cap
  else
    match fuel with
    | O => None
    | S fuel =>
      let next := if max_capacity / 2 <? cap then max_capacity else cap * 2 in
      if next <=? cap then None else reserve_loop fuel next need max_capacity
    end.

Definition reserve_fuel : nat := 65.
#[global] Arguments reserve_fuel : simpl never.

Definition chttp_h2_hpack_buffer_reserve (b : chttp_h2_hpack_buffer) (extra : Z) :
    chttp_h2_hpack_buffer * Z :=
  if (buf_capacity b <? buf_size b) || (buf_max_capacity b <? buf_capacity b) then (b, -1)
  else if extra <=? buf_capacity b - buf_size b then (b, 0)
  else if buf_max_capacity b - buf_size b <? extra then (b, -1)
  else
    let need := buf_size b + extra in
    let cap :=
      if buf_capacity b =? 0
      then (if buf_max_capacity b <? 256 then buf_max_capacity b else 256)
      else buf_capacity b in
    match reserve_loop reserve_fuel cap need (buf_max_capacity b) with
    | None => (b, -1)
    | Some cap => if malloc_ok cap then (b <| buf_capacity := cap |>, 0) else (b, -1)
    end.

(** [while (remaining >= 128u) { ++encoded_size; remaining >>= 7; }]; a 32-bit
    value leaves the loop after at most four rounds. *)
Fixpoint integer_size_loop (fuel : nat) (remaining encoded_size : Z) : Z :=
  match fuel with
  | O => encoded_size
  | S fuel =>
    if remaining <? 128 then encoded_size
    else integer_size_loop fuel (Z.shiftr remaining 7) (encoded_size + 1)
  end.

(** The continuation bytes: seven bits at a time, low bits first. *)
Fixpoint integer_bytes_loop (fuel : nat) (value : Z) : list Z :=
  match fuel with
  | O => [u8 value]
  | S fuel =>
    if value <? 128 then [u8 value]
    else u8 (Z.lor (Z.land value 0x7f) 0x80) :: integer_bytes_loop fuel (Z.shiftr value 7)
  end.

Definition integer_fuel : nat := 5.
#[global] Arguments integer_fuel : simpl never.

Definition chttp_h2_hpack_integer_encode (b : chttp_h2_hpack_buffer) (value prefix : Z) :
    chttp_h2_hpack_buffer * Z :=
  if (prefix <? 1) || (8 <? prefix) then (b, -1)
  else
    let first := u8 (Z.shiftl 1 prefix - 1) in
    if value <? first then
      let '(b, rc) := chttp_h2_hpack_buffer_reserve b 1 in
      if negb (rc =? 0) then (b, rc) else (buf_append b [u8 value], 0)
    else
      let encoded_size := integer_size_loop integer_fuel (value - first) 2 in
      let '(b, rc) := chttp_h2_hpack_buffer_reserve b encoded_size in
      if negb (rc =? 0) then (b, rc)
      else
        (buf_append b (first :: integer_bytes_loop integer_fuel (value - first)), 0).

End Buffer.

(** [for (;;)] of [hpack_get_int]; [value] and the shifted byte wrap at 32
    bits. *)
Fixpoint get_int_loop (input : list Z) (value shift : Z) : option (Z * list Z) :=
  match input with
  | [] => None
  | byte :: input =>
    if 28 <? shift then None
    else
      let value := u32 (value + u32 (Z.shiftl (Z.land byte 0x7f) shift)) in
      if Z.land byte 0x80 =? 0 then Some (value, input)
      else get_int_loop input value (shift + 7)
  end.

(** The value and the remaining input, or [None] for -1. *)
Definition hpack_get_int (input : list Z) (prefix : Z) : option (Z * list Z) :=
  if (prefix <? 1) || (8 <? prefix) then None
  else
    let first_mask := Z.shiftl 1 prefix - 1 in
    match input with
    | [] => None
    | byte :: input =>
      let value := Z.land byte first_mask in
      if value <? first_mask then Some (value, input)
      else get_int_loop input value 0
    end.

#[global] Arguments chttp_h2_hpack_buffer_reserve : simpl never.
#[global] Arguments chttp_h2_hpack_integer_encode : simpl never.
#[global] Arguments hpack_get_int : simpl never.

(** ** Buffer invariant *)

Definition buf_wf (b : chttp_h2_hpack_buffer) : Prop :=
  is_bytes (buf_data b) /\ buf_size b <= buf_capacity b <= buf_max_capacity b /\
  buf_max_capacity b <= SIZE_MAX.

Section BufferFacts.
Context {alloc : Allocator}.

Lemma reserve_loop_ok fuel cap need max :
  0 < cap <= max -> need <= max -> max <= cap * 2 ^ Z.of_nat fuel ->
  exists cap', reserve_loop fuel cap need max = Some cap' /\ need <= cap' <= max /\ cap <= cap'.
Proof.
  revert cap. induction fuel as [|fuel IH]; intros cap Hc Hn Hf; cbn [reserve_loop].
  - change (2 ^ Z.of_nat 0) with 1 in Hf. split_if; [|lia]. exists cap. split; [done|lia].
  - split_if; [exists cap; split; [done|lia]|].
    rewrite Nat2Z.inj_succ, Z.pow_succ_r in Hf by lia.
    destruct (Z.ltb_spec (max / 2) cap).
    + split_if; [lia|]. destruct (IH max) as (c & -> & ? & ?); [lia|lia| |].
      { pose proof (Z.pow_pos_nonneg 2 (Z.of_nat fuel)). nia. }
      exists c. split; [done|lia].
    + assert (cap * 2 <= max) by (Z.div_mod_to_equations; lia).
      split_if; [lia|]. destruct (IH (cap * 2)) as (c & -> & ? & ?); [lia..|].
      exists c. split; [done|lia].
Qed.

Ltac buf_done :=
  unfold buf_wf, buf_size in *; cbn in *; split_and!; auto;
  first [lia | left; split; [done | lia] | right; done].

Lemma buffer_reserve_cases b extra :
  buf_wf b -> 0 <= extra ->
  let '(b', rc) := chttp_h2_hpack_buffer_reserve b extra in
  buf_data b' = buf_data b /\ buf_max_capacity b' = buf_max_capacity b /\ buf_wf b' /\
  (rc = 0 /\ buf_size b + extra <= buf_capacity b' \/ rc = -1 /\ b' = b).
Proof.
  intros (Hb & Hc & Hm) He. unfold chttp_h2_hpack_buffer_reserve.
  pose proof (zlen_nonneg (buf_data b)) as Hs. unfold buf_size in *.
  split_if; [lia|].
  split_if; [buf_done|].
  split_if; [buf_done|].
  set (cap := if buf_capacity b =? 0 then _ else _).
  assert (1 <= cap <= buf_max_capacity b) as Hcap
    by (subst cap; repeat split_if; lia).
  destruct (reserve_loop_ok reserve_fuel cap (zlen (buf_data b) + extra) (buf_max_capacity b))
    as (c & -> & ? & ?); [lia|lia| |].
  { change (2 ^ Z.of_nat reserve_fuel) with (2 ^ 65). unfold SIZE_MAX in Hm. nia. }
  split_if; buf_done.
Qed.

(** With an allocator that serves, the buffer refuses exactly what does not
    fit below its maximum. *)
Lemma buffer_reserve_rc b extra :
  buf_wf b -> 0 <= extra -> (forall n, malloc_ok n = true) ->
  (chttp_h2_hpack_buffer_reserve b extra).2 =
  if buf_size b + extra <=? buf_max_capacity b then 0 else -1.
Proof.
  intros (Hb & Hc & Hm) He Ha. unfold chttp_h2_hpack_buffer_reserve, buf_size in *.
  pose proof (zlen_nonneg (buf_data b)) as Hs.
  split_if; [lia|]. split_if; [split_if; cbn; lia|].
  split_if; [split_if; cbn; lia|].
  set (cap := if buf_capacity b =? 0 then _ else _).
  assert (1 <= cap <= buf_max_capacity b) as Hcap
    by (subst cap; repeat split_if; lia).
  destruct (reserve_loop_ok reserve_fuel cap (zlen (buf_data b) + extra) (buf_max_capacity b))
    as (c & -> & ? & ?); [lia|lia| |].
  { change (2 ^ Z.of_nat reserve_fuel) with (2 ^ 65). unfold SIZE_MAX in Hm. nia. }
  rewrite Ha. split_if; cbn; lia.
Qed.

End BufferFacts.

(** ** The integer representation *)

(** The bytes of an integer with an [prefix]-bit prefix, flag bits clear. *)
Definition int_encoding (value prefix : Z) : list Z :=
  if value <? 2 ^ prefix - 1 then [value]
  else (2 ^ prefix - 1) :: integer_bytes_loop integer_fuel (value - (2 ^ prefix - 1)).

Lemma prefix_first prefix :
  1 <= prefix <= 8 -> u8 (Z.shiftl 1 prefix - 1) = 2 ^ prefix - 1.
Proof.
  intros. rewrite Z.shiftl_mul_pow2 by lia.
  assert (2 ^ prefix <= 2 ^ 8) by (apply Z.pow_le_mono_r; lia).
  pose proof (Z.pow_pos_nonneg 2 prefix). rewrite u8_id; zlia.
Qed.

Lemma integer_size_loop_spec fuel r n :
  integer_size_loop fuel r n = n - 1 + zlen (integer_bytes_loop fuel r).
Proof.
  revert r n. induction fuel as [|fuel IH]; intros r n; cbn; [unfold zlen; cbn; lia|].
  split_if; [unfold zlen; cbn; lia|]. rewrite IH, zlen_cons. lia.
Qed.

Lemma integer_bytes_loop_bytes fuel v : is_bytes (integer_bytes_loop fuel v).
Proof. revert v. induction fuel; intros v; cbn; [|split_if]; bytes_solve; eauto. Qed.

Lemma integer_bytes_loop_length fuel v :
  1 <= zlen (integer_bytes_loop fuel v) <= 1 + Z.of_nat fuel.
Proof.
  revert v. induction fuel as [|fuel IH]; intros v; cbn [integer_bytes_loop].
  - unfold zlen. cbn. lia.
  - split_if; [unfold zlen; cbn; lia|]. rewrite zlen_cons.
    specialize (IH (Z.shiftr v 7)). lia.
Qed.

Lemma int_encoding_length value prefix : 1 <= zlen (int_encoding value prefix) <= 7.
Proof.
  unfold int_encoding. split_if; [unfold zlen; cbn; lia|]. rewrite zlen_cons.
  pose proof (integer_bytes_loop_length integer_fuel (value - (2 ^ prefix - 1))).
  change (Z.of_nat integer_fuel) with 5 in *. lia.
Qed.

Lemma int_encoding_bytes value prefix :
  1 <= prefix <= 8 -> is_u32 value -> is_bytes (int_encoding value prefix).
Proof.
  intros Hp Hv. unfold int_encoding.
  assert (2 ^ prefix <= 2 ^ 8) by (apply Z.pow_le_mono_r; lia).
  pose proof (Z.pow_pos_nonneg 2 prefix).
  split_if; bytes_solve; try zlia. apply integer_bytes_loop_bytes.
Qed.

Lemma buf_wf_append b bytes :
  buf_wf b -> is_bytes bytes -> buf_size b + zlen bytes <= buf_capacity b ->
  buf_wf (buf_append b bytes).
Proof.
  intros (? & ? & ?) Hb Hs. unfold buf_wf, buf_size in *. cbn. rewrite zlen_app.
  split_and!; try lia. bytes_solve; done.
Qed.

Section IntegerFacts.
Context {alloc : Allocator}.

Lemma integer_encode_cases b value prefix :
  buf_wf b -> 1 <= prefix <= 8 -> is_u32 value ->
  let '(b', rc) := chttp_h2_hpack_integer_encode b value prefix in
  buf_max_capacity b' = buf_max_capacity b /\ buf_wf b' /\
  (rc = 0 /\ buf_data b' = buf_data b ++ int_encoding value prefix \/
   rc = -1 /\ buf_data b' = buf_data b).
Proof.
  intros Hwf Hp Hv. unfold chttp_h2_hpack_integer_encode.
  split_if; [lia|]. rewrite prefix_first by done. unfold int_encoding.
  pose proof (int_encoding_bytes value prefix Hp Hv) as Hb. unfold int_encoding in Hb.
  assert (2 ^ prefix <= 2 ^ 8) by (apply Z.pow_le_mono_r; lia).
  split_if.
  - pose proof (buffer_reserve_cases b 1 Hwf) as Hr.
    destruct (chttp_h2_hpack_buffer_reserve b 1) as [b1 rc].
    destruct Hr as (Hd & Hm & Hwf1 & Hc); [lia|].
    rewrite u8_id by zlia.
    destruct Hc as [[-> Hc]|[-> ->]]; cbn; split_and!; auto.
    + apply buf_wf_append; auto. unfold buf_size in *. rewrite Hd. exact Hc.
    + left. by rewrite Hd.
  - rewrite integer_size_loop_spec.
    pose proof (integer_bytes_loop_length integer_fuel (value - (2 ^ prefix - 1))).
    match goal with |- context [chttp_h2_hpack_buffer_reserve b ?n] =>
      pose proof (buffer_reserve_cases b n Hwf) as Hr;
      destruct (chttp_h2_hpack_buffer_reserve b n) as [b1 rc] end.
    destruct Hr as (Hd & Hm & Hwf1 & Hc); [lia|].
    destruct Hc as [[-> Hc]|[-> ->]]; cbn; split_and!; auto.
    + apply buf_wf_append; auto. unfold buf_size in *. rewrite Hd, zlen_cons.
      etransitivity; [|exact Hc]. lia.
    + left. by rewrite Hd.
Qed.

Lemma integer_encode_rc b value prefix :
  buf_wf b -> 1 <= prefix <= 8 -> is_u32 value -> (forall n, malloc_ok n = true) ->
  (chttp_h2_hpack_integer_encode b value prefix).2 =
  if buf_size b + zlen (int_encoding value prefix) <=? buf_max_capacity b then 0 else -1.
Proof.
  intros Hwf Hp Hv Ha. unfold chttp_h2_hpack_integer_encode.
  split_if; [lia|]. rewrite prefix_first by done. unfold int_encoding.
  destruct (value <? 2 ^ prefix - 1).
  - pose proof (buffer_reserve_rc b 1 Hwf ltac:(lia) Ha) as Hr.
    destruct (chttp_h2_hpack_buffer_reserve b 1) as [b1 rc]. cbn in Hr. subst rc.
    change (zlen [value]) with 1. by split_if.
  - rewrite integer_size_loop_spec, zlen_cons.
    pose proof (integer_bytes_loop_length integer_fuel (value - (2 ^ prefix - 1))).
    match goal with |- context [chttp_h2_hpack_buffer_reserve b ?n] =>
      pose proof (buffer_reserve_rc b n Hwf ltac:(lia) Ha) as Hr;
      destruct (chttp_h2_hpack_buffer_reserve b n) as [b1 rc] end.
    cbn in Hr. subst rc. change (2 - 1) with 1. by split_if.
Qed.

End IntegerFacts.

Lemma cont_byte v :
  0 <= v ->
  let byte := u8 (Z.lor (Z.land v 0x7f) 0x80) in
  Z.land byte 0x7f = v mod 128 /\ (Z.land byte 0x80 =? 0) = false.
Proof.
  intros Hv byte.
  assert (byte = v mod 128 + 128) as ->.
  { subst byte. rewrite land_0x7f, Z.lor_comm.
    pose proof (Z.mod_pos_bound v 128 ltac:(lia)).
    pose proof (lor_shiftl_add 1 (v mod 128) 7 ltac:(lia) ltac:(lia)) as E.
    change (Z.shiftl 1 7) with 128 in E. rewrite E. change (1 * 2 ^ 7) with 128.
    rewrite u8_id; zlia. }
  pose proof (Z.mod_pos_bound v 128 ltac:(lia)). split.
  - rewrite land_0x7f. Z.div_mod_to_equations. lia.
  - rewrite land_0x80 by zlia. lia.
Qed.

Lemma get_int_loop_bytes fuel k v acc rest :
  (0 <= k <= 4) -> 32 - 7 * k <= 7 * Z.of_nat fuel ->
  0 <= v < 2 ^ (32 - 7 * k) -> 0 <= acc -> acc + v * 2 ^ (7 * k) < 2 ^ 32 ->
  get_int_loop (integer_bytes_loop fuel v ++ rest) acc (7 * k) =
  Some (acc + v * 2 ^ (7 * k), rest).
Proof.
  revert k v acc. induction fuel as [|fuel IH]; intros k v acc Hk Hf Hv Ha Hs; [lia|].
  cbn [integer_bytes_loop]. split_if.
  - cbn [app get_int_loop]. split_if; [lia|].
    rewrite u8_id by zlia. rewrite land_0x7f, land_0x80 by zlia.
    rewrite Z.mod_small by lia. rewrite Z.shiftl_mul_pow2 by lia.
    assert (0 <= v * 2 ^ (7 * k)) by (pose proof (Z.pow_pos_nonneg 2 (7 * k)); nia).
    rewrite (u32_id (v * _)) by zlia. rewrite u32_id by zlia.
    by split_if; [|lia].
  - assert (k <= 3) as Hk3.
    { destruct (Z.eq_dec k 4) as [->|]; [|lia]. cbn in Hv. lia. }
    cbn [app get_int_loop]. split_if; [lia|].
    destruct (cont_byte v) as [-> ->]; [lia|].
    rewrite Z.shiftl_mul_pow2, Z.shiftr_div_pow2 by lia.
    pose proof (Z.pow_pos_nonneg 2 (7 * k)) as Hpow.
    pose proof (Z.div_mod v 128) as Hdm. pose proof (Z.mod_pos_bound v 128) as Hmb.
    assert (v mod 128 * 2 ^ (7 * k) <= v * 2 ^ (7 * k)) by nia.
    rewrite (u32_id (v mod 128 * _)) by (unfold is_u32; nia).
    rewrite u32_id by (unfold is_u32; nia).
    assert (2 ^ (7 * (k + 1)) = 2 ^ (7 * k) * 128) as Hp1
      by (replace (7 * (k + 1)) with (7 * k + 7) by lia; rewrite Z.pow_add_r by lia; done).
    assert (2 ^ (32 - 7 * k) = 2 ^ (32 - 7 * (k + 1)) * 128) as Hp2
      by (replace (32 - 7 * k) with (32 - 7 * (k + 1) + 7) by lia;
          rewrite Z.pow_add_r by lia; done).
    change (2 ^ 7) with 128. replace (7 * k + 7) with (7 * (k + 1)) by lia.
    rewrite IH; [f_equal; f_equal; nia|lia|lia| |nia|nia].
    split; [apply Z.div_pos; lia|]. apply Z.div_lt_upper_bound; lia.
Qed.

Lemma land_flagged x hi n :
  0 <= n -> 0 <= x < 2 ^ n -> hi mod 2 ^ n = 0 -> Z.land (Z.lor x hi) (Z.shiftl 1 n - 1) = x.
Proof.
  intros Hn Hx Hh. rewrite Z.shiftl_mul_pow2, Z.mul_1_l by lia.
  rewrite land_mask by lia. rewrite Z.lor_comm.
  assert (hi = Z.shiftl (hi / 2 ^ n) n) as ->
    by (rewrite Z.shiftl_mul_pow2 by lia; Z.div_mod_to_equations; nia).
  rewrite lor_shiftl_add by lia. rewrite Z.add_comm, Z.mod_add by lia.
  apply Z.mod_small. lia.
Qed.

(** Reading back an encoded integer, whatever flag bits [hi] the caller put
    above the prefix of the first byte. *)
Lemma get_int_encoding value prefix :
  1 <= prefix <= 8 -> is_u32 value ->
  exists first tail,
    int_encoding value prefix = first :: tail /\
    0 <= first < 2 ^ prefix /\
    forall hi rest, hi mod 2 ^ prefix = 0 ->
      hpack_get_int (Z.lor first hi :: tail ++ rest) prefix = Some (value, rest).
Proof.
  intros Hp Hv. unfold int_encoding, hpack_get_int.
  assert (2 <= 2 ^ prefix) by (apply (Z.pow_le_mono_r 2 1); lia).
  assert (2 ^ prefix <= 2 ^ 8) by (apply Z.pow_le_mono_r; lia).
  assert (Z.shiftl 1 prefix - 1 = 2 ^ prefix - 1) as Hmask
    by (rewrite Z.shiftl_mul_pow2 by lia; lia).
  destruct (Z.ltb_spec value (2 ^ prefix - 1)).
  - exists value, []. split; [done|]. split; [zlia|]. intros hi rest Hh.
    split_if; [lia|]. rewrite land_flagged by zlia. rewrite Hmask.
    by split_if; [|lia].
  - do 2 eexists. split; [reflexivity|]. split; [lia|]. intros hi rest Hh.
    split_if; [lia|]. rewrite land_flagged by zlia. rewrite Hmask.
    split_if; [lia|]. unfold is_u32 in Hv.
    pose proof (get_int_loop_bytes integer_fuel 0 (value - (2 ^ prefix - 1))
      (2 ^ prefix - 1) rest) as E.
    change (Z.of_nat integer_fuel) with 5 in E. change (7 * 0) with 0 in E.
    rewrite E by (rewrite ?Z.sub_0_r, ?Z.pow_0_r; lia).
    do 2 f_equal. rewrite Z.pow_0_r. lia.
Qed.

(** An HPACK integer of 32 bits, encoded with any prefix length and with any bits
    set above the prefix, decodes to itself and leaves what follows it. *)
Theorem integer_roundtrip {alloc : Allocator} b value prefix :
  buf_wf b -> 1 <= prefix <= 8 -> is_u32 value ->
  (forall n, malloc_ok n = true) -> buf_size b + 7 <= buf_max_capacity b ->
  exists b' first tail,
    chttp_h2_hpack_integer_encode b value prefix = (b', 0) /\ buf_wf b' /\
    buf_data b' = buf_data b ++ first :: tail /\
    forall hi rest, hi mod 2 ^ prefix = 0 ->
      hpack_get_int (Z.lor first hi :: tail ++ rest) prefix = Some (value, rest).
Proof.
  intros Hwf Hp Hv Ha Hroom.
  pose proof (integer_encode_cases b value prefix Hwf Hp Hv) as Hc.
  pose proof (integer_encode_rc b value prefix Hwf Hp Hv Ha) as Hrc.
  pose proof (int_encoding_length value prefix).
  destruct (chttp_h2_hpack_integer_encode b value prefix) as [b' rc].
  cbn in Hrc. destruct (Z.leb_spec (buf_size b + zlen (int_encoding value prefix))
    (buf_max_capacity b)); [|lia]. subst rc.
  destruct Hc as (_ & Hwf' & [[_ Hd]|[? _]]); [|lia].
  destruct (get_int_encoding value prefix Hp Hv) as (first & tail & He & _ & Hg).
  exists b', first, tail. split; [done|]. split; [done|]. split; [by rewrite Hd, He|done].
Qed.

Lemma integer_roundtrip_witness :
  exists b' first tail,
    chttp_h2_hpack_integer_encode (alloc := unlimited_allocator)
      {| buf_data := []; buf_capacity := 16; buf_max_capacity := 64 |} 1337 5 = (b', 0) /\
    buf_wf b' /\ buf_data b' = [] ++ first :: tail /\
    forall hi rest, hi mod 2 ^ 5 = 0 ->
      hpack_get_int (Z.lor first hi :: tail ++ rest) 5 = Some (1337, rest).
Proof.
  apply (integer_roundtrip {| buf_data := []; buf_capacity := 16; buf_max_capacity := 64 |} 1337 5);
    [by repeat constructor|lia|done|done|done].
Defined.

(** ** What the decoder reads *)

(** The unbounded value of continuation bytes. *)
Fixpoint le128 (bytes : list Z) : Z :=
  match bytes with
  | [] => 0
  | byte :: bytes => byte mod 128 + 128 * le128 bytes
  end.

(** The unbounded value of a prefix integer (RFC 7541 section 5.1). *)
Definition int_value (first prefix : Z) (cont : list Z) : Z :=
  first mod 2 ^ prefix + le128 cont.

Lemma get_int_loop_inv input acc k v rest :
  is_bytes input -> 0 <= k -> 0 <= acc < 2 ^ 32 ->
  get_int_loop input acc (7 * k) = Some (v, rest) ->
  exists cont,
    input = cont ++ rest /\ 1 <= zlen cont <= 5 - k /\
    v = (acc + le128 cont * 2 ^ (7 * k)) mod 2 ^ 32.
Proof.
  revert acc k. induction input as [|byte input IH]; intros acc k Hb Hk Ha H; [done|].
  bytes_inv. cbn [get_int_loop] in H. split_if_in H; [done|].
  rewrite land_0x7f, land_0x80 in H by done. rewrite Z.shiftl_mul_pow2 in H by lia.
  assert (u32 (acc + u32 (byte mod 128 * 2 ^ (7 * k))) =
    (acc + byte mod 128 * 2 ^ (7 * k)) mod 2 ^ 32) as Hu
    by (unfold u32; by rewrite Zplus_mod_idemp_r).
  rewrite Hu in H. destruct (Z.ltb_spec byte 128).
  - injection H as <- <-. exists [byte]. split; [done|].
    split; [change (zlen [byte]) with 1; lia|]. cbn [le128]. f_equal. lia.
  - replace (7 * k + 7) with (7 * (k + 1)) in H by lia.
    apply IH in H as (cont & -> & Hl & ->); [|done|lia|apply Z.mod_pos_bound; lia].
    exists (byte :: cont). split; [done|]. rewrite zlen_cons. split; [lia|].
    cbn [le128]. rewrite Zplus_mod_idemp_l. f_equal.
    replace (7 * (k + 1)) with (7 * k + 7) by lia. rewrite Z.pow_add_r by lia.
    change (2 ^ 7) with 128. lia.
Qed.

(** What a decoded integer is: the value of its octets, reduced to 32 bits. *)
Theorem get_int_value input prefix v rest :
  is_bytes input -> hpack_get_int input prefix = Some (v, rest) ->
  exists first cont,
    input = first :: cont ++ rest /\ zlen cont <= 5 /\
    v = int_value first prefix cont mod 2 ^ 32.
Proof.
  unfold hpack_get_int. intros Hb H. split_if_in H; [done|].
  destruct input as [|first input]; [done|]. bytes_inv.
  rewrite Z.shiftl_mul_pow2, Z.mul_1_l, land_mask in H by lia.
  assert (2 ^ prefix <= 2 ^ 8) by (apply Z.pow_le_mono_r; lia).
  pose proof (Z.pow_pos_nonneg 2 prefix ltac:(lia) ltac:(lia)).
  pose proof (Z.mod_pos_bound first (2 ^ prefix) ltac:(lia)).
  unfold int_value. split_if_in H.
  - injection H as <- <-. exists first, []. split; [done|]. split; [done|].
    cbn [le128]. rewrite Z.add_0_r. symmetry. apply Z.mod_small. lia.
  - change 0 with (7 * 0) in H at 1.
    apply get_int_loop_inv in H as (cont & -> & Hl & ->); [|done|lia|lia].
    exists first, cont. split; [done|]. split; [lia|].
    by rewrite Z.mul_1_r.
Qed.

(** An encoding of a value over 32 bits is accepted and wraps. *)
Theorem get_int_accepts_overflow :
  exists first cont,
    is_bytes (first :: cont) /\ 2 ^ 32 <= int_value first 5 cont /\
    hpack_get_int (first :: cont) 5 = Some (31, []).
Proof.
  exists 0x1f, [0x80; 0x80; 0x80; 0x80; 0x10]. split; [|split; [|done]].
  - bytes_solve; zlia.
  - apply Z.leb_le. reflexivity.
Qed.

End HpackBuffer.
