(* ===== verification/HpackTables.v ===== *)
(** * HPACK constant tables

    The static table ([chttp_h2_hpack_static.inc], RFC 7541 Appendix A) and
    the Huffman codes ([chttp_h2_hpack_huffman_data.inc], Appendix B), entry
    for entry as the C initialisers give them. *)

From S2P Require Import Prelude.

Module HpackTables.

(** One initialiser [{name, name_size, value, value_size}]. *)
Record static_entry := {
  st_name : list Z;
  st_name_size : Z;
  st_value : list Z;
  st_value_size : Z;
}.

Definition static (name : String.string) (name_size : Z) (value : String.string)
    (value_size : Z) : static_entry :=
  {| st_name := bytes_of name; st_name_size := name_size;
     st_value := bytes_of value; st_value_size := value_size |}.
Arguments static name%_string_scope name_size value%_string_scope value_size.

Definition s_hpack_static : list static_entry := [
  static ":authority" 10 "" 0;
  static ":method" 7 "GET" 3;
  static ":method" 7 "POST" 4;
  static ":path" 5 "/" 1;
  static ":path" 5 "/index.html" 11;
  static ":scheme" 7 "http" 4;
  static ":scheme" 7 "https" 5;
  static ":status" 7 "200" 3;
  static ":status" 7 "204" 3;
  static ":status" 7 "206" 3;
  static ":status" 7 "304" 3;
  static ":status" 7 "400" 3;
  static ":status" 7 "404" 3;
  static ":status" 7 "500" 3;
  static "accept-charset" 14 "" 0;
  static "accept-encoding" 15 "gzip, deflate" 13;
  static "accept-language" 15 "" 0;
  static "accept-ranges" 13 "" 0;
  static "accept" 6 "" 0;
  static "access-control-allow-origin" 27 "" 0;
  static "age" 3 "" 0;
  static "allow" 5 "" 0;
  static "authorization" 13 "" 0;
  static "cache-control" 13 "" 0;
  static "content-disposition" 19 "" 0;
  static "content-encoding" 16 "" 0;
  static "content-language" 16 "" 0;
  static "content-length" 14 "" 0;
  static "content-location" 16 "" 0;
  static "content-range" 13 "" 0;
  static "content-type" 12 "" 0;
  static "cookie" 6 "" 0;
  static "date" 4 "" 0;
  static "etag" 4 "" 0;
  static "expect" 6 "" 0;
  static "expires" 7 "" 0;
  static "from" 4 "" 0;
  static "host" 4 "" 0;
  static "if-match" 8 "" 0;
  static "if-modified-since" 17 "" 0;
  static "if-none-match" 13 "" 0;
  static "if-range" 8 "" 0;
  static "if-unmodified-since" 19 "" 0;
  static "last-modified" 13 "" 0;
  static "link" 4 "" 0;
  static "location" 8 "" 0;
  static "max-forwards" 12 "" 0;
  static "proxy-authenticate" 18 "" 0;
  static "proxy-authorization" 19 "" 0;
  static "range" 5 "" 0;
  static "referer" 7 "" 0;
  static "refresh" 7 "" 0;
  static "retry-after" 11 "" 0;
  static "server" 6 "" 0;
  static "set-cookie" 10 "" 0;
  static "strict-transport-security" 25 "" 0;
  static "transfer-encoding" 17 "" 0;
  static "user-agent" 10 "" 0;
  static "vary" 4 "" 0;
  static "via" 3 "" 0;
  static "www-authenticate" 16 "" 0
].

(** [{nbits, code}], the code aligned to the top of 32 bits; symbol 256 is
    EOS. *)
Definition s_huff_sym : list (Z * Z) := [
  (13, 0xffc00000);
  (23, 0xffffb000);
  (28, 0xfffffe20);
  (28, 0xfffffe30);
  (28, 0xfffffe40);
  (28, 0xfffffe50);
  (28, 0xfffffe60);
  (28, 0xfffffe70);
  (28, 0xfffffe80);
  (24, 0xffffea00);
  (30, 0xfffffff0);
  (28, 0xfffffe90);
  (28, 0xfffffea0);
  (30, 0xfffffff4);
  (28, 0xfffffeb0);
  (28, 0xfffffec0);
  (28, 0xfffffed0);
  (28, 0xfffffee0);
  (28, 0xfffffef0);
  (28, 0xffffff00);
  (28, 0xffffff10);
  (28, 0xffffff20);
  (30, 0xfffffff8);
  (28, 0xffffff30);
  (28, 0xffffff40);
  (28, 0xffffff50);
  (28, 0xffffff60);
  (28, 0xffffff70);
  (28, 0xffffff80);
  (28, 0xffffff90);
  (28, 0xffffffa0);
  (28, 0xffffffb0);
  (6, 0x50000000);
  (10, 0xfe000000);
  (10, 0xfe400000);
  (12, 0xffa00000);
  (13, 0xffc80000);
  (6, 0x54000000);
  (8, 0xf8000000);
  (11, 0xff400000);
  (10, 0xfe800000);
  (10, 0xfec00000);
  (8, 0xf9000000);
  (11, 0xff600000);
  (8, 0xfa000000);
  (6, 0x58000000);
  (6, 0x5c000000);
  (6, 0x60000000);
  (5, 0x0);
  (5, 0x8000000);
  (5, 0x10000000);
  (6, 0x64000000);
  (6, 0x68000000);
  (6, 0x6c000000);
  (6, 0x70000000);
  (6, 0x74000000);
  (6, 0x78000000);
  (6, 0x7c000000);
  (7, 0xb8000000);
  (8, 0xfb000000);
  (15, 0xfff80000);
  (6, 0x80000000);
  (12, 0xffb00000);
  (10, 0xff000000);
  (13, 0xffd00000);
  (6, 0x84000000);
  (7, 0xba000000);
  (7, 0xbc000000);
  (7, 0xbe000000);
  (7, 0xc0000000);
  (7, 0xc2000000);
  (7, 0xc4000000);
  (7, 0xc6000000);
  (7, 0xc8000000);
  (7, 0xca000000);
  (7, 0xcc000000);
  (7, 0xce000000);
  (7, 0xd0000000);
  (7, 0xd2000000);
  (7, 0xd4000000);
  (7, 0xd6000000);
  (7, 0xd8000000);
  (7, 0xda000000);
  (7, 0xdc000000);
  (7, 0xde000000);
  (7, 0xe0000000);
  (7, 0xe2000000);
  (7, 0xe4000000);
  (8, 0xfc000000);
  (7, 0xe6000000);
  (8, 0xfd000000);
  (13, 0xffd80000);
  (19, 0xfffe0000);
  (13, 0xffe00000);
  (14, 0xfff00000);
  (6, 0x88000000);
  (15, 0xfffa0000);
  (5, 0x18000000);
  (6, 0x8c000000);
  (5, 0x20000000);
  (6, 0x90000000);
  (5, 0x28000000);
  (6, 0x94000000);
  (6, 0x98000000);
  (6, 0x9c000000);
  (5, 0x30000000);
  (7, 0xe8000000);
  (7, 0xea000000);
  (6, 0xa0000000);
  (6, 0xa4000000);
  (6, 0xa8000000);
  (5, 0x38000000);
  (6, 0xac000000);
  (7, 0xec000000);
  (6, 0xb0000000);
  (5, 0x40000000);
  (5, 0x48000000);
  (6, 0xb4000000);
  (7, 0xee000000);
  (7, 0xf0000000);
  (7, 0xf2000000);
  (7, 0xf4000000);
  (7, 0xf6000000);
  (15, 0xfffc0000);
  (11, 0xff800000);
  (14, 0xfff40000);
  (13, 0xffe80000);
  (28, 0xffffffc0);
  (20, 0xfffe6000);
  (22, 0xffff4800);
  (20, 0xfffe7000);
  (20, 0xfffe8000);
  (22, 0xffff4c00);
  (22, 0xffff5000);
  (22, 0xffff5400);
  (23, 0xffffb200);
  (22, 0xffff5800);
  (23, 0xffffb400);
  (23, 0xffffb600);
  (23, 0xffffb800);
  (23, 0xffffba00);
  (23, 0xffffbc00);
  (24, 0xffffeb00);
  (23, 0xffffbe00);
  (24, 0xffffec00);
  (24, 0xffffed00);
  (22, 0xffff5c00);
  (23, 0xffffc000);
  (24, 0xffffee00);
  (23, 0xffffc200);
  (23, 0xffffc400);
  (23, 0xffffc600);
  (23, 0xffffc800);
  (21, 0xfffee000);
  (22, 0xffff6000);
  (23, 0xffffca00);
  (22, 0xffff6400);
  (23, 0xffffcc00);
  (23, 0xffffce00);
  (24, 0xffffef00);
  (22, 0xffff6800);
  (21, 0xfffee800);
  (20, 0xfffe9000);
  (22, 0xffff6c00);
  (22, 0xffff7000);
  (23, 0xffffd000);
  (23, 0xffffd200);
  (21, 0xfffef000);
  (23, 0xffffd400);
  (22, 0xffff7400);
  (22, 0xffff7800);
  (24, 0xfffff000);
  (21, 0xfffef800);
  (22, 0xffff7c00);
  (23, 0xffffd600);
  (23, 0xffffd800);
  (21, 0xffff0000);
  (21, 0xffff0800);
  (22, 0xffff8000);
  (21, 0xffff1000);
  (23, 0xffffda00);
  (22, 0xffff8400);
  (23, 0xffffdc00);
  (23, 0xffffde00);
  (20, 0xfffea000);
  (22, 0xffff8800);
  (22, 0xffff8c00);
  (22, 0xffff9000);
  (23, 0xffffe000);
  (22, 0xffff9400);
  (22, 0xffff9800);
  (23, 0xffffe200);
  (26, 0xfffff800);
  (26, 0xfffff840);
  (20, 0xfffeb000);
  (19, 0xfffe2000);
  (22, 0xffff9c00);
  (23, 0xffffe400);
  (22, 0xffffa000);
  (25, 0xfffff600);
  (26, 0xfffff880);
  (26, 0xfffff8c0);
  (26, 0xfffff900);
  (27, 0xfffffbc0);
  (27, 0xfffffbe0);
  (26, 0xfffff940);
  (24, 0xfffff100);
  (25, 0xfffff680);
  (19, 0xfffe4000);
  (21, 0xffff1800);
  (26, 0xfffff980);
  (27, 0xfffffc00);
  (27, 0xfffffc20);
  (26, 0xfffff9c0);
  (27, 0xfffffc40);
  (24, 0xfffff200);
  (21, 0xffff2000);
  (21, 0xffff2800);
  (26, 0xfffffa00);
  (26, 0xfffffa40);
  (28, 0xffffffd0);
  (27, 0xfffffc60);
  (27, 0xfffffc80);
  (27, 0xfffffca0);
  (20, 0xfffec000);
  (24, 0xfffff300);
  (20, 0xfffed000);
  (21, 0xffff3000);
  (22, 0xffffa400);
  (21, 0xffff3800);
  (21, 0xffff4000);
  (23, 0xffffe600);
  (22, 0xffffa800);
  (22, 0xffffac00);
  (25, 0xfffff700);
  (25, 0xfffff780);
  (24, 0xfffff400);
  (24, 0xfffff500);
  (26, 0xfffffa80);
  (23, 0xffffe800);
  (26, 0xfffffac0);
  (27, 0xfffffcc0);
  (26, 0xfffffb00);
  (26, 0xfffffb40);
  (27, 0xfffffce0);
  (27, 0xfffffd00);
  (27, 0xfffffd20);
  (27, 0xfffffd40);
  (27, 0xfffffd60);
  (28, 0xffffffe0);
  (27, 0xfffffd80);
  (27, 0xfffffda0);
  (27, 0xfffffdc0);
  (27, 0xfffffde0);
  (27, 0xfffffe00);
  (26, 0xfffffb80);
  (30, 0xfffffffc)
].

(** The sizes written in the table are the lengths of its strings. *)
Lemma static_sizes :
  Forall (fun e => st_name_size e = zlen (st_name e) /\
                   st_value_size e = zlen (st_value e)) s_hpack_static.
Proof. repeat constructor. Qed.

Lemma static_length : length s_hpack_static = 61%nat.
Proof. reflexivity. Qed.

End HpackTables.
