(* ===== verification/HpackHuffman.v ===== *)
(** * HPACK Huffman coding

    Model of the Huffman part of [http_common/http/chttp_h2_hpack.c]: the
    binary tree built once from [s_huff_sym] ([huff_tree_add],
    [huff_tree_build]) and the decoder that walks it bit by bit
    ([hpack_huff_decode]).  The theorem at the end says that the decoder
    accepts exactly the encodings of RFC 7541 section 5.2: the codes of the
    symbols one after the other, padded with fewer than eight one bits. *)

From S2P Require Import Prelude HpackBuffer HpackTables.

Module HpackHuffman.
Import HpackTables.

(** Conversion to [int16_t]. *)
Definition i16 (z : Z) : Z := (z + 2 ^ 15) mod 2 ^ 16 - 2 ^ 15.

Record hpack_huff_node := {
  hn_zero : Z;
  hn_one : Z;
  hn_sym : Z;
}.

(** [node_count] is the length of [ht_nodes]. *)
Record hpack_huff_tree := {
  ht_nodes : list hpack_huff_node;
  ht_cap : Z;
}.

Definition CHTTP_H2_HUFFMAN_MAX_NODES : Z := 8192.

(** [sizeof(hpack_huff_node_t)]: three [int16_t]. *)
Definition sizeof_huff_node : Z := 6.

Definition huff_leaf : hpack_huff_node := {| hn_zero := -1; hn_one := -1; hn_sym := -1 |}.

(** [t->nodes[node]] *)
Definition huff_node (nodes : list hpack_huff_node) (node : Z) : hpack_huff_node :=
  nth (Z.to_nat node) nodes huff_leaf.

(** [bit ? t->nodes[node].one : t->nodes[node].zero] *)
Definition huff_child (nodes : list hpack_huff_node) (node : Z) (bit : bool) : Z :=
  if bit then hn_one (huff_node nodes node) else hn_zero (huff_node nodes node).

Definition huff_set_child (n : hpack_huff_node) (bit : bool) (idx : Z) : hpack_huff_node :=
  if bit
  then {| hn_zero := hn_zero n; hn_one := idx; hn_sym := hn_sym n |}
  else {| hn_zero := idx; hn_one := hn_one n; hn_sym := hn_sym n |}.

Definition huff_set_sym (n : hpack_huff_node) (sym : Z) : hpack_huff_node :=
  {| hn_zero := hn_zero n; hn_one := hn_one n; hn_sym := sym |}.

Section Build.
Context {alloc : Allocator}.

(** Make room for one more node. *)
Definition huff_grow (t : hpack_huff_tree) : option hpack_huff_tree :=
  if zlen (ht_nodes t) <? ht_cap t then Some t
  else
    let ncap := if negb (ht_cap t =? 0) then ht_cap t * 2 else 16 in
    let ncap :=
      if CHTTP_H2_HUFFMAN_MAX_NODES / 2 <? ht_cap t then CHTTP_H2_HUFFMAN_MAX_NODES else ncap in
    if (ncap <=? ht_cap t) || (SIZE_MAX / sizeof_huff_node <? ncap) then None
    else if malloc_ok (ncap * sizeof_huff_node)
    then Some {| ht_nodes := ht_nodes t; ht_cap := ncap |}
    else None.

(** The loop [for (i = 0; i < nbits; i++)]; [todo] is [nbits - i]. *)
Fixpoint huff_add_loop (todo : nat) (t : hpack_huff_tree) (code i node : Z) :
    option (hpack_huff_tree * Z) :=
  match todo with
  | O => Some (t, node)
  | S todo =>
    let bit := Z.testbit (Z.shiftr code (31 - i)) 0 in
    if huff_child (ht_nodes t) node bit <? 0 then
      match huff_grow t with
      | None => None
      | Some t =>
        let idx := zlen (ht_nodes t) in
        let nodes := ht_nodes t ++ [huff_leaf] in
        let nodes :=
          <[Z.to_nat node := huff_set_child (huff_node nodes node) bit (i16 idx)]> nodes in
        let t := {| ht_nodes := nodes; ht_cap := ht_cap t |} in
        huff_add_loop todo t code (i + 1) (huff_child nodes node bit)
      end
    else huff_add_loop todo t code (i + 1) (huff_child (ht_nodes t) node bit)
  end.

Definition huff_tree_add (t : hpack_huff_tree) (code nbits sym : Z) : option hpack_huff_tree :=
  match huff_add_loop (Z.to_nat nbits) t code 0 0 with
  | None => None
  | Some (t, node) =>
    let nodes := ht_nodes t in
    Some {| ht_nodes := <[Z.to_nat node := huff_set_sym (huff_node nodes node) (i16 sym)]> nodes;
            ht_cap := ht_cap t |}
  end.

(** The loop over the symbols from number [i] on. *)
Fixpoint huff_build_loop (syms : list (Z * Z)) (i : Z) (t : hpack_huff_tree) :
    option hpack_huff_tree :=
  match syms with
  | [] => Some t
  | (nbits, code) :: syms =>
    match huff_tree_add t code nbits i with
    | None => None
    | Some t => huff_build_loop syms (i + 1) t
    end
  end.

Definition huff_tree_build : option hpack_huff_tree :=
  if negb (malloc_ok (16 * sizeof_huff_node)) then None
  else huff_build_loop s_huff_sym 0 {| ht_nodes := [huff_leaf]; ht_cap := 16 |}.

(** ** Decoder *)

(** The bits of a byte, most significant first. *)
Definition byte_bits (byte : Z) : list bool :=
  map (fun bit => Z.testbit byte bit) [7; 6; 5; 4; 3; 2; 1; 0].

Definition bits_of (bytes : list Z) : list bool := concat (map byte_bits bytes).

(** The locals of [hpack_huff_decode]; [hs_pad] lists the bits since the last
    symbol ([pad_n] of them, the first eight also stored in [pad_bits]). *)
Record huff_state := {
  hs_node : Z;
  hs_pad : list bool;
  hs_out : list Z;
  hs_cap : Z;
}.

(** [if ( *out_len >= out_cap)]: room for one more output byte. *)
Definition huff_reserve (max_string_bytes : Z) (out_len out_cap : Z) : option Z :=
  if out_len <? out_cap then Some out_cap
  else
    let next := if max_string_bytes / 2 <? out_cap then max_string_bytes else out_cap * 2 in
    if next <=? out_cap then None
    else if malloc_ok next then Some next else None.

(** One bit. *)
Definition huff_step (nodes : list hpack_huff_node) (max_string_bytes : Z)
    (st : huff_state) (b : bool) : option huff_state :=
  if hs_node st =? -1 then None
  else
    let child := huff_child nodes (hs_node st) b in
    if child =? -1 then None
    else
      let node := child in
      let pad := hs_pad st ++ [b] in
      let sym := hn_sym (huff_node nodes node) in
      if 0 <=? sym then
        if sym =? 256 then None
        else
          match huff_reserve max_string_bytes (zlen (hs_out st)) (hs_cap st) with
          | None => None
          | Some cap =>
            Some {| hs_node := 0; hs_pad := []; hs_out := hs_out st ++ [u8 sym]; hs_cap := cap |}
          end
      else Some {| hs_node := node; hs_pad := pad; hs_out := hs_out st; hs_cap := hs_cap st |}.

Fixpoint huff_run (nodes : list hpack_huff_node) (max_string_bytes : Z)
    (st : huff_state) (bits : list bool) : option huff_state :=
  match bits with
  | [] => Some st
  | b :: bits =>
    match huff_step nodes max_string_bytes st b with
    | None => None
    | Some st => huff_run nodes max_string_bytes st bits
    end
  end.

Definition hpack_huff_decode (nodes : list hpack_huff_node) (max_string_bytes : Z)
    (input : list Z) : option (list Z) :=
  let in_len := zlen input in
  if (max_string_bytes <? in_len) || ((SIZE_MAX - 16) / 2 <? in_len) then None
  else
    let out_cap := in_len * 2 + 16 in
    let out_cap := if max_string_bytes <? out_cap then max_string_bytes else out_cap in
    if out_cap =? 0 then None
    else if negb (malloc_ok out_cap) then None
    else
      match huff_run nodes max_string_bytes
              {| hs_node := 0; hs_pad := []; hs_out := []; hs_cap := out_cap |}
              (bits_of input) with
      | None => None
      | Some st =>
        if 7 <? zlen (hs_pad st) then None
        else if forallb (fun bit => bit) (hs_pad st) then Some (hs_out st)
        else None
      end.

End Build.

(** ** The codes as bit strings *)

Definition huff_code (sym : Z) : list bool :=
  let '(nbits, code) := nth (Z.to_nat sym) s_huff_sym (0, 0) in
  map (fun i => Z.testbit code (31 - Z.of_nat i)) (seq 0 (Z.to_nat nbits)).

(** The Huffman encoding of a string before padding. *)
Definition huff_bits (s : list Z) : list bool := concat (map huff_code s).

(** The nodes that an allocator that serves every request lets
    [huff_tree_build] make: 513 of them. *)
Definition huff_nodes : list hpack_huff_node :=
  Eval vm_compute in
    match @huff_tree_build unlimited_allocator with Some t => ht_nodes t | None => [] end.

(** ** The tree does not depend on the allocator *)

Section AnyAllocator.
Context {alloc : Allocator}.

Lemma huff_grow_nodes t t' :
  huff_grow t = Some t' -> @huff_grow unlimited_allocator t = Some t'.
Proof.
  unfold huff_grow. destruct (_ <? _); [done|]. destruct (_ || _)%bool; [done|].
  destruct (@malloc_ok alloc _); [|done]. done.
Qed.

Lemma huff_add_loop_any todo t code i node r :
  huff_add_loop todo t code i node = Some r ->
  @huff_add_loop unlimited_allocator todo t code i node = Some r.
Proof.
  revert t i node. induction todo as [|todo IH]; intros t i node; cbn [huff_add_loop]; [done|].
  split_if; [|apply IH].
  destruct (huff_grow t) as [t'|] eqn:Hg; [|done].
  rewrite (huff_grow_nodes _ _ Hg). apply IH.
Qed.

Lemma huff_build_loop_any syms i t r :
  huff_build_loop syms i t = Some r ->
  @huff_build_loop unlimited_allocator syms i t = Some r.
Proof.
  revert i t. induction syms as [|[nbits code] syms IH]; intros i t; cbn [huff_build_loop]; [done|].
  unfold huff_tree_add. destruct (huff_add_loop _ t code 0 0) as [[t' node]|] eqn:Ha; [|done].
  rewrite (huff_add_loop_any _ _ _ _ _ _ Ha). apply IH.
Qed.

Lemma huff_tree_build_nodes t : huff_tree_build = Some t -> ht_nodes t = huff_nodes.
Proof.
  unfold huff_tree_build. split_if; [done|]. intros H. apply huff_build_loop_any in H.
  assert (option_map ht_nodes (@huff_build_loop unlimited_allocator s_huff_sym 0
    {| ht_nodes := [huff_leaf]; ht_cap := 16 |}) = Some huff_nodes) as E
    by (vm_compute; reflexivity).
  rewrite H in E. by injection E.
Qed.

End AnyAllocator.

(** ** Facts about the 513 nodes, by computation *)

(** The nodes below [node] with the path that leads to each. *)
Fixpoint huff_paths (fuel : nat) (node : Z) (path : list bool) : list (Z * list bool) :=
  (node, path) ::
  match fuel with
  | O => []
  | S fuel =>
    (if 0 <=? huff_child huff_nodes node false
     then huff_paths fuel (huff_child huff_nodes node false) (path ++ [false]) else []) ++
    (if 0 <=? huff_child huff_nodes node true
     then huff_paths fuel (huff_child huff_nodes node true) (path ++ [true]) else [])
  end.

(** The path of every node, by its index. *)
Definition node_paths : list (list bool) :=
  Eval vm_compute in
    let paths := huff_paths 30 0 [] in
    map (fun i => match List.find (fun e => e.1 =? Z.of_nat i) paths with
                  | Some e => e.2 | None => [] end) (seq 0 513).

Definition node_path (node : Z) : list bool := nth (Z.to_nat node) node_paths [].

Definition in_tree (node : Z) : bool := (0 <=? node) && (node <? 513).

(** A child extends the path of its parent by one bit; a symbol sits at the
    end of its code. *)
Definition node_ok (node : Z) : bool :=
  forallb (fun b =>
    let c := huff_child huff_nodes node b in
    (c =? -1) || (in_tree c && bool_decide (node_path c = node_path node ++ [b]))) [false; true]
  && (let sym := hn_sym (huff_node huff_nodes node) in
      (sym <? 0) || ((sym <=? 256) && bool_decide (node_path node = huff_code sym))).

Lemma node_ok_all node : in_tree node = true -> node_ok node = true.
Proof.
  intros H. unfold in_tree in H. bool_prop.
  assert (forallb (fun i => node_ok (Z.of_nat i)) (seq 0 513) = true) as E
    by (vm_compute; reflexivity).
  rewrite forallb_forall in E. specialize (E (Z.to_nat node)).
  rewrite Z2Nat.id in E by lia. apply E. apply in_seq. lia.
Qed.

(** The node that the bits lead to, when no node before it carries a symbol. *)
Fixpoint walk_code (node : Z) (bits : list bool) : option Z :=
  match bits with
  | [] => Some node
  | b :: bits =>
    let c := huff_child huff_nodes node b in
    match bits with
    | [] => if c <? 0 then None else Some c
    | _ =>
      if (c <? 0) || (0 <=? hn_sym (huff_node huff_nodes c)) then None else walk_code c bits
    end
  end.

Definition code_ok (sym : Z) : bool :=
  match huff_code sym, walk_code 0 (huff_code sym) with
  | _ :: _, Some c => hn_sym (huff_node huff_nodes c) =? sym
  | _, _ => false
  end.

Lemma code_ok_all sym : is_u8 sym -> code_ok sym = true.
Proof.
  intros H. unfold is_u8 in H.
  assert (forallb (fun i => code_ok (Z.of_nat i)) (seq 0 256) = true) as E
    by (vm_compute; reflexivity).
  rewrite forallb_forall in E. specialize (E (Z.to_nat sym)).
  rewrite Z2Nat.id in E by lia. apply E. apply in_seq. lia.
Qed.

(** ** The decoder accepts exactly the encodings *)

Section DecodeFacts.
Context {alloc : Allocator} (max : Z).

(** What holds of the locals after the bits [seen]. *)
Definition huff_inv (seen : list bool) (st : huff_state) : Prop :=
  in_tree (hs_node st) = true /\ node_path (hs_node st) = hs_pad st /\
  seen = huff_bits (hs_out st) ++ hs_pad st /\ is_bytes (hs_out st) /\
  zlen (hs_out st) <= hs_cap st <= max.

Lemma huff_bits_snoc s sym : huff_bits (s ++ [sym]) = huff_bits s ++ huff_code sym.
Proof. unfold huff_bits. rewrite map_app, concat_app. cbn. by rewrite app_nil_r. Qed.

Lemma huff_reserve_bounds out_len cap cap' :
  out_len <= cap <= max -> huff_reserve max out_len cap = Some cap' ->
  out_len + 1 <= cap' <= max.
Proof.
  unfold huff_reserve. intros Hc H. split_if_in H; [injection H as <-; lia|].
  split_if_in H; [done|]. destruct (malloc_ok _); [|done]. injection H as <-.
  destruct (Z.ltb_spec (max / 2) cap); [lia|].
  assert (cap * 2 <= max) by (Z.div_mod_to_equations; lia). lia.
Qed.

Lemma huff_step_inv seen st b st' :
  huff_inv seen st -> huff_step huff_nodes max st b = Some st' ->
  huff_inv (seen ++ [b]) st'.
Proof.
  intros (Hin & Hp & Hs & Hb & Hc) H. unfold huff_step in H.
  destruct (Z.eqb_spec (hs_node st) (-1)); [done|].
  pose proof (node_ok_all _ Hin) as Hok. unfold node_ok in Hok.
  apply andb_true_iff in Hok as [Hok _]. rewrite forallb_forall in Hok.
  specialize (Hok b ltac:(destruct b; cbn; auto)). cbn zeta in Hok.
  destruct (Z.eqb_spec (huff_child huff_nodes (hs_node st) b) (-1)) as [|Hne]; [done|].
  cbn [orb] in Hok. apply andb_true_iff in Hok as [Hc1 Hc2].
  apply bool_decide_eq_true in Hc2. rewrite Hp in Hc2.
  set (c := huff_child huff_nodes (hs_node st) b) in *.
  destruct (Z.leb_spec 0 (hn_sym (huff_node huff_nodes c))) as [Hsym|Hsym].
  - destruct (Z.eqb_spec (hn_sym (huff_node huff_nodes c)) 256); [done|].
    pose proof (node_ok_all _ Hc1) as Hok. unfold node_ok in Hok.
    apply andb_true_iff in Hok as [_ Hok]. cbn zeta in Hok.
    apply orb_true_iff in Hok as [Hok|Hok]; bool_prop; [lia|].
    apply bool_decide_eq_true in H1.
    destruct (huff_reserve _ _ _) as [cap|] eqn:Hr; [|done]. injection H as <-.
    apply huff_reserve_bounds in Hr; [|done].
    rewrite u8_id by zlia. unfold huff_inv. cbn [hs_node hs_pad hs_out hs_cap].
    split_and!; [done|done| |bytes_solve; zlia|rewrite zlen_app; change (zlen [_]) with 1; lia|lia].
    rewrite huff_bits_snoc, app_nil_r, Hs, <- app_assoc. f_equal. congruence.
  - injection H as <-. unfold huff_inv. cbn [hs_node hs_pad hs_out hs_cap].
    split_and!; [done|done| |done|lia|lia]. by rewrite Hs, app_assoc.
Qed.

Lemma huff_run_inv bits seen st st' :
  huff_inv seen st -> huff_run huff_nodes max st bits = Some st' ->
  huff_inv (seen ++ bits) st'.
Proof.
  revert seen st. induction bits as [|b bits IH]; intros seen st Hi H; cbn [huff_run] in H.
  - injection H as <-. by rewrite app_nil_r.
  - destruct (huff_step _ _ _ _) as [st1|] eqn:Hst; [|done].
    apply IH with (seen := seen ++ [b]) in H; [|by eapply huff_step_inv].
    by rewrite <- app_assoc in H.
Qed.

Lemma huff_run_app st bits1 bits2 :
  huff_run huff_nodes max st (bits1 ++ bits2) =
  match huff_run huff_nodes max st bits1 with
  | Some st' => huff_run huff_nodes max st' bits2
  | None => None
  end.
Proof.
  revert st. induction bits1 as [|b bits1 IH]; intros st; cbn [app huff_run]; [done|].
  destruct (huff_step _ _ _ _); [apply IH|done].
Qed.

Context (serves : forall n, malloc_ok n = true).

Lemma huff_reserve_ok out_len cap :
  0 <= out_len <= cap -> 0 < cap <= max -> out_len < max ->
  exists cap', huff_reserve max out_len cap = Some cap' /\ out_len + 1 <= cap' <= max.
Proof.
  intros Hl Hc Hm. unfold huff_reserve. split_if; [exists cap; split; [done|lia]|].
  destruct (Z.ltb_spec (max / 2) cap).
  - split_if; [lia|]. rewrite serves. exists max. split; [done|lia].
  - assert (cap * 2 <= max) by (Z.div_mod_to_equations; lia).
    split_if; [lia|]. rewrite serves. exists (cap * 2). split; [done|lia].
Qed.

(** Walking along a code emits its symbol. *)
Lemma huff_run_code bits : forall st c,
  bits <> [] -> walk_code (hs_node st) bits = Some c -> 0 <= hs_node st ->
  is_u8 (hn_sym (huff_node huff_nodes c)) ->
  zlen (hs_out st) <= hs_cap st -> 0 < hs_cap st <= max -> zlen (hs_out st) < max ->
  exists cap, zlen (hs_out st) + 1 <= cap <= max /\
    huff_run huff_nodes max st bits =
    Some {| hs_node := 0; hs_pad := [];
            hs_out := hs_out st ++ [hn_sym (huff_node huff_nodes c)]; hs_cap := cap |}.
Proof.
  induction bits as [|b bits IH]; intros st c Hne Hw Hn Hs Hl Hc Hm; [done|].
  cbn [walk_code] in Hw. cbn [huff_run]. unfold huff_step.
  destruct (Z.eqb_spec (hs_node st) (-1)); [lia|].
  destruct bits as [|b' bits].
  - split_if_in Hw; [done|]. injection Hw as <-.
    set (c := huff_child _ _ _) in *. destruct (Z.eqb_spec c (-1)); [lia|].
    unfold is_u8 in Hs. split_if; [|lia]. split_if; [lia|].
    destruct (huff_reserve_ok (zlen (hs_out st)) (hs_cap st)) as (cap & -> & ?);
      [pose proof (zlen_nonneg (hs_out st)); lia|lia|lia|].
    exists cap. split; [done|]. rewrite u8_id by zlia. done.
  - split_if_in Hw; [done|]. set (d := huff_child _ _ _) in *.
    destruct (Z.eqb_spec d (-1)); [lia|]. split_if; [lia|].
    edestruct (IH {| hs_node := d; hs_pad := hs_pad st ++ [b]; hs_out := hs_out st;
                     hs_cap := hs_cap st |} c) as (cap & Hcap & Hr);
      cbn [hs_node hs_out hs_cap] in *; try done; try lia. eauto.
Qed.

Lemma huff_run_string s : forall st,
  is_bytes s -> hs_node st = 0 -> hs_pad st = [] ->
  zlen (hs_out st) <= hs_cap st -> 0 < hs_cap st <= max ->
  zlen (hs_out st) + zlen s <= max ->
  exists cap, huff_run huff_nodes max st (huff_bits s) =
    Some {| hs_node := 0; hs_pad := []; hs_out := hs_out st ++ s; hs_cap := cap |}.
Proof.
  induction s as [|sym s IH]; intros st Hb Hn Hp Hl Hc Hm.
  - exists (hs_cap st). cbn. rewrite app_nil_r. destruct st; cbn in *; congruence.
  - bytes_inv. change (huff_bits (sym :: s)) with (huff_code sym ++ huff_bits s).
    rewrite huff_run_app. rewrite zlen_cons in Hm. pose proof (zlen_nonneg s).
    pose proof (code_ok_all sym H) as Hok. unfold code_ok in Hok.
    destruct (huff_code sym) as [|b0 code] eqn:Hcode; [done|].
    destruct (walk_code 0 (b0 :: code)) as [c|] eqn:Hw; [|done]. bool_prop.
    destruct (huff_run_code (b0 :: code) st c) as (cap & Hcap & ->);
      rewrite ?Hn, ?Hok; try done; try lia.
    edestruct (IH {| hs_node := 0; hs_pad := []; hs_out := hs_out st ++ [sym];
                     hs_cap := cap |}) as (cap' & Hr);
      cbn [hs_node hs_pad hs_out hs_cap]; try done;
      rewrite ?zlen_app; change (zlen [sym]) with 1; try lia.
    pose proof (zlen_nonneg (hs_out st)). lia.
    exists cap'. rewrite Hr. cbn [hs_out]. by rewrite <- app_assoc.
Qed.

(** Fewer than eight one bits from the root meet no symbol. *)
Lemma huff_run_padding k out cap :
  (k < 8)%nat ->
  exists st, huff_run huff_nodes max {| hs_node := 0; hs_pad := []; hs_out := out; hs_cap := cap |}
               (repeat true k) = Some st /\ hs_out st = out /\ hs_pad st = repeat true k.
Proof.
  intros Hk. do 8 (destruct k as [|k]; [eexists; split; [reflexivity|done]|]). lia.
Qed.

End DecodeFacts.

(** C6: The decoder that walks the tree built from the code table accepts exactly
    the octet strings that are the concatenated RFC 7541 codes of a byte string
    followed by fewer than eight one bits, and returns that byte string. *)
Theorem huff_decode_iff {alloc : Allocator} max input s :
  (forall n, malloc_ok n = true) -> 0 < max -> is_bytes input ->
  zlen input <= max -> zlen input <= (SIZE_MAX - 16) / 2 ->
  hpack_huff_decode huff_nodes max input = Some s <->
  is_bytes s /\ zlen s <= max /\
  exists k, (k < 8)%nat /\ bits_of input = huff_bits s ++ repeat true k.
Proof.
  intros Ha Hmax Hb Hl1 Hl2. unfold hpack_huff_decode.
  pose proof (zlen_nonneg input).
  split_if; [lia|].
  set (cap := if max <? zlen input * 2 + 16 then max else zlen input * 2 + 16).
  assert (0 < cap <= max) as Hcap by (subst cap; split_if; lia).
  destruct (Z.eqb_spec cap 0); [lia|]. rewrite Ha. cbn [negb]. split.
  - destruct (huff_run _ _ _ _) as [st|] eqn:Hr; [|done].
    apply (huff_run_inv max _ []) in Hr;
      [|unfold huff_inv; cbn [hs_node hs_pad hs_out hs_cap];
        split_and!; first [done | apply is_bytes_nil | unfold zlen; cbn; lia]].
    destruct Hr as (_ & _ & Hs & Hbs & Hc). cbn [app] in Hs.
    split_if; [done|]. destruct (forallb _ _) eqn:Hall; [|done]. intros [= <-].
    split; [done|]. split; [lia|]. exists (length (hs_pad st)).
    unfold zlen in *. split; [lia|]. rewrite Hs. f_equal.
    rewrite forallb_forall in Hall. clear -Hall.
    induction (hs_pad st) as [|b pad IH]; [done|]. cbn. f_equal; [|].
    + apply (Hall b). by left.
    + apply IH. intros x Hx. apply Hall. by right.
  - intros (Hbs & Hls & k & Hk & ->).
    destruct (huff_run_string max Ha s
      {| hs_node := 0; hs_pad := []; hs_out := []; hs_cap := cap |}) as (cap' & Hr);
      cbn [hs_node hs_pad hs_out hs_cap]; try done; rewrite ?zlen_nil; try lia.
    rewrite huff_run_app, Hr. cbn [hs_out app].
    destruct (huff_run_padding max k s cap' Hk) as (st & -> & Ho & ->).
    unfold zlen. rewrite repeat_length. split_if; [lia|].
    assert (forallb (fun bit => bit) (repeat true k) = true) as ->
      by (clear; induction k; cbn; auto). by rewrite Ho.
Qed.

(** The decoder reads the octets [1c 64] as the text [www]... of the code table:
    an [a] and its padding. *)
Lemma huff_decode_iff_witness :
  hpack_huff_decode (alloc := unlimited_allocator) huff_nodes 16 [0x1f] = Some [97] <->
  is_bytes [97] /\ zlen [97] <= 16 /\
  exists k, (k < 8)%nat /\ bits_of [0x1f] = huff_bits [97] ++ repeat true k.
Proof. apply (huff_decode_iff 16 [0x1f]); [done|done|by repeat constructor|done|done]. Defined.

End HpackHuffman.
