(* ===== verification/HpackTable.v ===== *)
(** * HPACK dynamic and static tables

    Model of the table part of [http_common/http/chttp_h2_hpack.c]: the dynamic
    table with its eviction ([dyn_table_evict], [dyn_table_add],
    [dyn_table_find]) and the searches in the static table.  The entries are a
    list, newest first; [count] is its length, [name_size] and [value_size] are
    the lengths of the strings. *)

From S2P Require Import Prelude HpackBuffer HpackTables.

Module HpackTable.
Import HpackTables.

Record hpack_entry := {
  e_name : list Z;
  e_value : list Z;
  e_size : Z;
}.

Record hpack_dyn_table := {
  dt_entries : list hpack_entry;
  dt_capacity : Z;
  dt_max_entries : Z;
  dt_size : Z;
  dt_max_size : Z;
}.

#[export] Instance eta_dyn_table : Eta hpack_dyn_table :=
  fun t => Build_hpack_dyn_table (dt_entries t) (dt_capacity t) (dt_max_entries t)
             (dt_size t) (dt_max_size t).
#[export] Instance set_dt_entries : Setter dt_entries. Proof. mk_setter. Defined.
#[export] Instance set_dt_capacity : Setter dt_capacity. Proof. mk_setter. Defined.
#[export] Instance set_dt_size : Setter dt_size. Proof. mk_setter. Defined.
#[export] Instance set_dt_max_size : Setter dt_max_size. Proof. mk_setter. Defined.

(** [sizeof(hpack_entry_t)]: five machine words. *)
Definition sizeof_entry : Z := 40.

Definition dt_count (t : hpack_dyn_table) : Z := zlen (dt_entries t).

(** The zeroed table that [dyn_table_destroy] leaves. *)
Definition dyn_table_destroy (t : hpack_dyn_table) : hpack_dyn_table :=
  {| dt_entries := []; dt_capacity := 0; dt_max_entries := 0; dt_size := 0; dt_max_size := 0 |}.

(** [while (t->count > 0 && t->size > t->max_size)]: each round drops the last
    entry, so the number of entries bounds the rounds. *)
Fixpoint evict_loop (fuel : nat) (t : hpack_dyn_table) : hpack_dyn_table :=
  match fuel with
  | O => t
  | S fuel =>
    match last (dt_entries t) with
    | Some oldest =>
      if dt_max_size t <? dt_size t then
        evict_loop fuel
          (t <| dt_size := dt_size t - e_size oldest |>
             <| dt_entries := removelast (dt_entries t) |>)
      else t
    | None => t
    end
  end.

Definition dyn_table_evict (t : hpack_dyn_table) : hpack_dyn_table :=
  evict_loop (length (dt_entries t)) t.

#[global] Arguments dyn_table_evict : simpl never.

Definition new_entry (name value : list Z) : hpack_entry :=
  {| e_name := name; e_value := value; e_size := zlen name + zlen value + 32 |}.

Section Add.
Context {alloc : Allocator}.

(** [if (t->count >= t->capacity)]: grow the entry array. *)
Definition dyn_table_grow (t : hpack_dyn_table) : option hpack_dyn_table :=
  if dt_count t <? dt_capacity t then Some t
  else if dt_max_entries t <=? dt_count t then None
  else
    let ncap := if negb (dt_capacity t =? 0) then dt_capacity t * 2 else 8 in
    let ncap := if dt_max_entries t <? ncap then dt_max_entries t else ncap in
    if (ncap <=? dt_capacity t) || (SIZE_MAX / sizeof_entry <? ncap) then None
    else if malloc_ok (ncap * sizeof_entry) then Some (t <| dt_capacity := ncap |>)
    else None.

Definition dyn_table_add (t : hpack_dyn_table) (name value : list Z) : hpack_dyn_table * Z :=
  let name_len := zlen name in
  let value_len := zlen value in
  if (SIZE_MAX - value_len <? name_len) || (SIZE_MAX - 32 <? name_len + value_len) then (t, -1)
  else
    let esize := name_len + value_len + 32 in
    if dt_max_size t <? esize then (t, 0)
    else
      match dyn_table_grow t with
      | None => (t, -1)
      | Some t =>
        if negb (malloc_ok (if name_len =? 0 then 1 else name_len)) ||
           negb (malloc_ok (if value_len =? 0 then 1 else value_len))
        then (t, -1)
        else
          (dyn_table_evict
             (t <| dt_entries := new_entry name value :: dt_entries t |>
                <| dt_size := dt_size t + esize |>), 0)
      end.

End Add.

(** [for (i = 0; ...; i++) if (matches(entries[i])) return i] *)
Fixpoint find_index {A} (matches : A -> bool) (l : list A) (i : Z) : option Z :=
  match l with
  | [] => None
  | x :: l => if matches x then Some i else find_index matches l (i + 1)
  end.

(** [value = None] is the search by name only. *)
Definition dyn_table_find (t : hpack_dyn_table) (name : list Z) (value : option (list Z)) : Z :=
  match find_index (fun e =>
          bytes_eqb (e_name e) name &&
          match value with None => true | Some value => bytes_eqb (e_value e) value end)
          (dt_entries t) 0 with
  | Some i => u32 (62 + i)
  | None => 0
  end.

(** [memcmp(a, b, n) == 0] *)
Definition memcmp_eq (a b : list Z) (n : Z) : bool := bytes_eqb (ztake n a) (ztake n b).

Definition static_name_matches (name : list Z) (e : static_entry) : bool :=
  (st_name_size e =? zlen name) && memcmp_eq (st_name e) name (zlen name).

Definition static_find_full (name value : list Z) : Z :=
  match find_index (fun e =>
          static_name_matches name e && (st_value_size e =? zlen value) &&
          memcmp_eq (st_value e) value (zlen value))
          s_hpack_static 0 with
  | Some i => u32 (i + 1)
  | None => 0
  end.

Definition static_find_name (name : list Z) : Z :=
  match find_index (static_name_matches name) s_hpack_static 0 with
  | Some i => u32 (i + 1)
  | None => 0
  end.

#[global] Arguments dyn_table_add : simpl never.
#[global] Arguments dyn_table_find : simpl never.
#[global] Arguments static_find_full : simpl never.
#[global] Arguments static_find_name : simpl never.

(** ** Reference: the longest prefix that fits (RFC 7541 section 4) *)

Definition entries_size (l : list hpack_entry) : Z := foldr (fun e n => e_size e + n) 0 l.

#[global] Arguments entries_size : simpl never.

(** The newest entries whose sizes add up to at most [max]. *)
Fixpoint table_fit (max : Z) (l : list hpack_entry) : list hpack_entry :=
  match l with
  | [] => []
  | e :: l => if e_size e <=? max then e :: table_fit (max - e_size e) l else []
  end.

Definition entry_ok (e : hpack_entry) : Prop :=
  e_size e = zlen (e_name e) + zlen (e_value e) + 32 /\
  is_bytes (e_name e) /\ is_bytes (e_value e).

(** The table invariant. *)
Definition dt_wf (t : hpack_dyn_table) : Prop :=
  Forall entry_ok (dt_entries t) /\ dt_size t = entries_size (dt_entries t) /\
  dt_size t <= dt_max_size t /\
  dt_count t <= dt_capacity t <= dt_max_entries t /\ dt_max_size t <= UINT32_MAX /\
  0 <= dt_max_entries t <= UINT32_MAX / 32.

(** ** Lemmas *)

Lemma entry_ok_size e : entry_ok e -> 32 <= e_size e.
Proof.
  intros (-> & _). pose proof (zlen_nonneg (e_name e)). pose proof (zlen_nonneg (e_value e)). lia.
Qed.

Lemma entries_size_cons e l : entries_size (e :: l) = e_size e + entries_size l.
Proof. reflexivity. Qed.

Lemma entries_size_app a b : entries_size (a ++ b) = entries_size a + entries_size b.
Proof.
  induction a as [|e a IH]; [done|]. cbn [app]. rewrite !entries_size_cons, IH. lia.
Qed.

Lemma entries_size_snoc a e : entries_size (a ++ [e]) = entries_size a + e_size e.
Proof. rewrite entries_size_app. change (entries_size [e]) with (e_size e + 0). lia. Qed.

Lemma entries_size_count l : Forall entry_ok l -> 32 * zlen l <= entries_size l.
Proof.
  induction 1 as [|e l He _ IH]; [done|].
  rewrite zlen_cons, entries_size_cons. apply entry_ok_size in He. lia.
Qed.

Lemma table_fit_all max l : Forall entry_ok l -> entries_size l <= max -> table_fit max l = l.
Proof.
  intros Hl. revert max. induction Hl as [|e l He Hl IH]; intros max Hm; cbn; [done|].
  rewrite entries_size_cons in Hm.
  pose proof (entries_size_count l Hl). pose proof (zlen_nonneg l).
  split_if; [|lia]. f_equal. apply IH. lia.
Qed.

Lemma table_fit_snoc max l e :
  Forall entry_ok l -> max < entries_size (l ++ [e]) -> table_fit max (l ++ [e]) = table_fit max l.
Proof.
  intros Hl. revert max. induction Hl as [|x l Hx Hl IH]; intros max Hm; cbn [app table_fit].
  - cbn [app] in Hm. rewrite entries_size_cons in Hm.
    change (entries_size []) with 0 in Hm. split_if; [lia|done].
  - cbn [app] in Hm. rewrite entries_size_cons in Hm.
    split_if; [|done]. f_equal. apply IH. lia.
Qed.

Lemma table_fit_bound max l : 0 <= max -> entries_size (table_fit max l) <= max.
Proof.
  revert max. induction l as [|e l IH]; intros max Hm; cbn [table_fit];
    [by change (entries_size []) with 0|].
  split_if; [|by change (entries_size []) with 0]. rewrite entries_size_cons.
  specialize (IH (max - e_size e)). lia.
Qed.

Lemma table_fit_sublist max l : exists k, l = table_fit max l ++ k.
Proof.
  revert max. induction l as [|e l IH]; intros max; cbn; [by exists []|].
  split_if; [|by exists (e :: l)]. destruct (IH (max - e_size e)) as [k Hk].
  exists k. cbn. congruence.
Qed.

Lemma table_fit_ok max l : Forall entry_ok l -> Forall entry_ok (table_fit max l).
Proof.
  intros H. destruct (table_fit_sublist max l) as [k Hk]. rewrite Hk in H.
  by apply Forall_app in H as [? _].
Qed.

Lemma table_fit_count max l : zlen (table_fit max l) <= zlen l.
Proof.
  destruct (table_fit_sublist max l) as [k Hk]. rewrite Hk at 2. rewrite zlen_app.
  pose proof (zlen_nonneg k). lia.
Qed.

(** Fitting a smaller table first does not matter. *)
Lemma table_fit_fit m n l :
  Forall entry_ok l -> m <= n -> table_fit m (table_fit n l) = table_fit m l.
Proof.
  intros Hl. revert m n. induction Hl as [|e l He Hl IH]; intros m n Hmn; cbn; [done|].
  destruct (Z.leb_spec (e_size e) n); cbn [table_fit].
  - split_if; [|done]. f_equal. apply IH. lia.
  - split_if; [lia|done].
Qed.

Lemma table_fit_fit_ge m n l :
  Forall entry_ok l -> n <= m -> 0 <= n -> table_fit m (table_fit n l) = table_fit n l.
Proof.
  intros Hl Hmn Hn. apply table_fit_all; [by apply table_fit_ok|].
  pose proof (table_fit_bound n l Hn). lia.
Qed.

Lemma evict_loop_spec fuel t :
  fuel = length (dt_entries t) -> Forall entry_ok (dt_entries t) ->
  dt_size t = entries_size (dt_entries t) -> 0 <= dt_max_size t ->
  let t' := evict_loop fuel t in
  dt_entries t' = table_fit (dt_max_size t) (dt_entries t) /\
  dt_size t' = entries_size (dt_entries t') /\
  dt_max_size t' = dt_max_size t /\ dt_capacity t' = dt_capacity t /\
  dt_max_entries t' = dt_max_entries t.
Proof.
  revert t. induction fuel as [|fuel IH]; intros t Hf Hok Hs Hm; cbn [evict_loop].
  - assert (dt_entries t = []) as E by (by destruct (dt_entries t)).
    rewrite E in *. split_and!; auto.
  - destruct (exists_last (l:=dt_entries t)) as (l & oldest & E);
      [by intros E; rewrite E in Hf|].
    rewrite E in *. rewrite last_snoc. split_if.
    + rewrite removelast_last. apply Forall_app in Hok as [Hok1 Hok2].
      rewrite length_app in Hf. cbn in Hf.
      edestruct (IH (t <| dt_size := dt_size t - e_size oldest |> <| dt_entries := l |>))
        as (H1 & H2 & H3 & H4 & H5);
        [cbn; lia|done|cbn; rewrite Hs, entries_size_snoc; lia|done|].
      cbn in *. split_and!; auto. rewrite H1.
      rewrite table_fit_snoc; [done|done|]. lia.
    + rewrite !E. split_and!; auto. symmetry. apply table_fit_all; [done|]. lia.
Qed.

Lemma dyn_table_evict_spec t :
  Forall entry_ok (dt_entries t) -> dt_size t = entries_size (dt_entries t) ->
  0 <= dt_max_size t ->
  dt_entries (dyn_table_evict t) = table_fit (dt_max_size t) (dt_entries t) /\
  dt_size (dyn_table_evict t) = entries_size (dt_entries (dyn_table_evict t)) /\
  dt_max_size (dyn_table_evict t) = dt_max_size t /\
  dt_capacity (dyn_table_evict t) = dt_capacity t /\
  dt_max_entries (dyn_table_evict t) = dt_max_entries t.
Proof. intros. by apply evict_loop_spec. Qed.

Lemma dt_wf_bounds t : dt_wf t -> 32 * dt_count t <= dt_max_size t /\ 0 <= dt_max_size t.
Proof.
  intros (Hok & Hs & Hm & _). pose proof (entries_size_count _ Hok).
  pose proof (zlen_nonneg (dt_entries t)). unfold dt_count. lia.
Qed.

(** Setting another maximum and evicting. *)
Lemma dt_wf_resize t max :
  dt_wf t -> 0 <= max <= UINT32_MAX ->
  let t' := dyn_table_evict (t <| dt_max_size := max |>) in
  dt_wf t' /\ dt_entries t' = table_fit max (dt_entries t) /\
  dt_max_size t' = max /\ dt_max_entries t' = dt_max_entries t.
Proof.
  intros (Hok & Hs & Hm & Hc & Hu & Hme) Hmax. cbv zeta.
  destruct (dyn_table_evict_spec (t <| dt_max_size := max |>)) as (H1 & H2 & H3 & H4 & H5);
    [done|done|cbn; lia|]. revert H1 H2 H3 H4 H5.
  generalize (dyn_table_evict (t <| dt_max_size := max |>)). cbn.
  intros t' H1 H2 H3 H4 H5. split; [|done]. unfold dt_wf, dt_count. rewrite H2, H3, H4, H5, H1.
  pose proof (table_fit_count max (dt_entries t)). pose proof (table_fit_bound max (dt_entries t)).
  unfold dt_count in Hc. split_and!; try lia. by apply table_fit_ok.
Qed.

Section AddFacts.
Context {alloc : Allocator}.

Lemma dyn_table_grow_ok t t' :
  dt_wf t -> dyn_table_grow t = Some t' ->
  dt_count t < dt_capacity t' <= dt_max_entries t /\
  t' = t <| dt_capacity := dt_capacity t' |>.
Proof.
  intros (Hok & Hs & Hm & Hc & Hu & Hme) H. unfold dyn_table_grow in H.
  pose proof (zlen_nonneg (dt_entries t)). unfold dt_count in *.
  split_if_in H; [injection H as <-; split; [lia|by destruct t]|].
  split_if_in H; [done|]. split_if_in H; [done|].
  destruct (malloc_ok _); [|done]. injection H as <-. cbn. split; [|done].
  repeat split_if; lia.
Qed.

Lemma dyn_table_add_cases t name value :
  dt_wf t -> is_bytes name -> is_bytes value ->
  let esize := zlen name + zlen value + 32 in
  let '(t', rc) := dyn_table_add t name value in
  dt_wf t' /\ dt_max_size t' = dt_max_size t /\ dt_max_entries t' = dt_max_entries t /\
  (rc = 0 /\ dt_entries t' =
     (if esize <=? dt_max_size t then table_fit (dt_max_size t) (new_entry name value :: dt_entries t)
      else dt_entries t) \/
   rc = -1 /\ dt_entries t' = dt_entries t).
Proof.
  intros Hwf Hn Hv esize. unfold dyn_table_add. fold esize.
  split_if; [split_and!; auto|].
  destruct (Z.ltb_spec (dt_max_size t) esize) as [|Hfit].
  { split_and!; auto. left. split; [done|]. by split_if; [lia|]. }
  destruct (dyn_table_grow t) as [t1|] eqn:Hg; [|split_and!; auto].
  destruct (dyn_table_grow_ok t t1 Hwf Hg) as (Hcap & Ht1).
  destruct Hwf as (Hok & Hs & Hm & Hc & Hu & Hme).
  destruct (_ || _)%bool.
  - rewrite Ht1. cbn. split_and!; auto. unfold dt_wf, dt_count in *. cbn.
    split_and!; auto; lia.
  - assert (dt_entries t1 = dt_entries t /\ dt_size t1 = dt_size t /\
      dt_max_size t1 = dt_max_size t /\ dt_max_entries t1 = dt_max_entries t)
      as (E1 & E2 & E3 & E4) by (by rewrite Ht1).
    set (t2 := t1 <| dt_entries := _ |> <| dt_size := _ |>).
    assert (Forall entry_ok (dt_entries t2)) as Hok2.
    { cbn. rewrite E1. constructor; [|done]. by repeat split. }
    assert (dt_size t2 = entries_size (dt_entries t2)) as Hs2.
    { cbn. rewrite entries_size_cons, E1, E2. cbn. lia. }
    destruct (dyn_table_evict_spec t2 Hok2 Hs2) as (H1 & H2 & H3 & H4 & H5);
      [cbn; rewrite E3; pose proof (zlen_nonneg name); pose proof (zlen_nonneg value); lia|].
    assert (dt_max_size t2 = dt_max_size t1 /\ dt_capacity t2 = dt_capacity t1 /\
      dt_max_entries t2 = dt_max_entries t1 /\
      dt_entries t2 = new_entry name value :: dt_entries t) as (F1 & F2 & F3 & F4)
      by (rewrite <- E1; done).
    rewrite F1, F2, F3, F4 in *. rewrite E3, E4 in *. clearbody t2.
    pose proof (zlen_nonneg name). pose proof (zlen_nonneg value).
    pose proof (table_fit_bound (dt_max_size t) (new_entry name value :: dt_entries t)) as Hbound.
    pose proof (table_fit_count (dt_max_size t) (new_entry name value :: dt_entries t)) as Hcnt.
    rewrite zlen_cons in Hcnt. rewrite <- H1 in Hbound, Hcnt.
    split_and!; auto.
    + unfold dt_wf, dt_count in *. rewrite H2, H3, H4, H5. split_and!; try lia.
      rewrite H1. by apply table_fit_ok.
    + left. split; [done|]. by split_if; [|lia].
Qed.

(** With an allocator that serves, the insertion is refused exactly when the
    entry would fit but the table already holds [max_entries] entries. *)
Lemma dyn_table_add_rc t name value :
  dt_wf t -> (forall n, malloc_ok n = true) -> zlen name + zlen value + 32 <= SIZE_MAX ->
  (dyn_table_add t name value).2 =
  if (dt_max_size t <? zlen name + zlen value + 32) || (dt_count t <? dt_max_entries t)
  then 0 else -1.
Proof.
  intros (Hok & Hs & Hm & Hc & Hu & Hme) Ha Hsz. unfold dyn_table_add.
  pose proof (zlen_nonneg name). pose proof (zlen_nonneg value).
  pose proof (zlen_nonneg (dt_entries t)).
  split_if; [destruct_or?; bool_prop; lia|].
  destruct (Z.ltb_spec (dt_max_size t) (zlen name + zlen value + 32)); [done|].
  cbn [orb]. rewrite !Ha. cbn [negb orb]. unfold dyn_table_grow, dt_count in *.
  destruct (Z.ltb_spec (zlen (dt_entries t)) (dt_capacity t)).
  { split_if; [done|lia]. }
  destruct (Z.leb_spec (dt_max_entries t) (zlen (dt_entries t))).
  { split_if; [lia|done]. }
  set (ncap := if dt_max_entries t <? _ then dt_max_entries t else _).
  assert (dt_capacity t < ncap <= dt_max_entries t) as Hncap
    by (subst ncap; destruct (Z.eqb_spec (dt_capacity t) 0); cbn [negb]; split_if; lia).
  clearbody ncap. unfold SIZE_MAX, UINT32_MAX, sizeof_entry in *.
  replace (ncap <=? dt_capacity t) with false by lia.
  replace ((2 ^ 64 - 1) / 40 <? ncap) with false by (Z.div_mod_to_equations; lia).
  cbn [orb]. rewrite Ha. by split_if; [|lia].
Qed.

End AddFacts.

(** C14: Adding an entry to the dynamic table, on every branch: an entry that is
    added comes first and the longest prefix of the entries that fits the maximum
    size is kept, as RFC 7541 says; an entry larger than the table leaves the
    table as it is, where RFC 7541 empties it; a call that fails leaves the table
    as it is, and with memory it fails exactly when the entry fits the maximum
    size but the table already holds its maximum number of entries. *)
Theorem dyn_table_add_refines {alloc : Allocator} t name value :
  dt_wf t -> is_bytes name -> is_bytes value -> zlen name + zlen value + 32 <= SIZE_MAX ->
  let '(t', rc) := dyn_table_add t name value in
  dt_wf t' /\ dt_max_size t' = dt_max_size t /\ dt_max_entries t' = dt_max_entries t /\
  (rc = 0 /\ zlen name + zlen value + 32 <= dt_max_size t /\
     dt_entries t' = table_fit (dt_max_size t) (new_entry name value :: dt_entries t) /\
     hd_error (dt_entries t') = Some (new_entry name value) \/
   rc = 0 /\ dt_max_size t < zlen name + zlen value + 32 /\ dt_entries t' = dt_entries t \/
   rc = -1 /\ dt_entries t' = dt_entries t) /\
  ((forall n, malloc_ok n = true) ->
     (rc = -1 <-> zlen name + zlen value + 32 <= dt_max_size t /\ dt_count t = dt_max_entries t)).
Proof.
  intros Hwf Hn Hv Hsz. pose proof (dyn_table_add_cases t name value Hwf Hn Hv) as Hc.
  pose proof (dyn_table_add_rc t name value Hwf) as Hrc.
  destruct (dyn_table_add t name value) as [t' rc]. cbn [snd] in Hrc.
  destruct Hc as (Hwf' & Em & Ee & Hc). split_and!; try done.
  - destruct Hc as [[-> He]|[-> He]]; [|by auto]. revert He. split_if; intros He; [left|right; left; split_and!; [done|lia|done]].
    split_and!; [done|lia|done|]. rewrite He. cbn. by split_if; [|lia].
  - intros Ha. specialize (Hrc Ha Hsz). destruct Hwf as (_ & _ & _ & Hcap & _ & _). rewrite Hrc.
    split_if; [destruct_or?; bool_prop|bool_prop]; lia.
Qed.

(** An addition to a table with room, and to one whose slots are all in use. *)
Lemma dyn_table_add_refines_witness :
  let t := {| dt_entries := []; dt_capacity := 0; dt_max_entries := 1; dt_size := 0; dt_max_size := 40 |} in
  let '(t1, rc1) := dyn_table_add (alloc := unlimited_allocator) t [97] [98] in
  let '(t2, rc2) := dyn_table_add (alloc := unlimited_allocator) t1 [97] [98] in
  rc1 = 0 /\ dt_wf t1 /\ rc2 = -1 /\ dt_wf t2.
Proof.
  intros t. assert (is_bytes [97] /\ is_bytes [98]) as [Hn Hv] by (by repeat constructor).
  assert (dt_wf t) as Hwf by (by repeat constructor).
  pose proof (dyn_table_add_refines (alloc := unlimited_allocator) t [97] [98] Hwf Hn Hv ltac:(done)) as H1.
  destruct (dyn_table_add (alloc := unlimited_allocator) t [97] [98]) as [t1 rc1] eqn:E1.
  destruct H1 as (Hwf1 & _).
  pose proof (dyn_table_add_refines (alloc := unlimited_allocator) t1 [97] [98] Hwf1 Hn Hv ltac:(done)) as H2.
  vm_compute in E1. injection E1 as <- <-.
  destruct (dyn_table_add (alloc := unlimited_allocator) _ [97] [98]) as [t2 rc2] eqn:E2.
  destruct H2 as (Hwf2 & _ & _ & _ & Hrc). split_and!; [done|done|by apply Hrc|done].
Defined.

(** An entry larger than the table leaves the table as it is, where RFC 7541
    section 4.4 empties it. *)
Theorem dyn_table_add_oversize_keeps :
  exists t name value,
    dt_wf t /\ dt_entries t <> [] /\
    table_fit (dt_max_size t) (new_entry name value :: dt_entries t) = [] /\
    @dyn_table_add unlimited_allocator t name value = (t, 0).
Proof.
  exists {| dt_entries := [new_entry [97] []]; dt_capacity := 1; dt_max_entries := 1;
            dt_size := 33; dt_max_size := 40 |}, (repeat 97 9), [].
  split_and!; try done. unfold dt_wf, entry_ok. cbn.
  split_and!; try done. repeat constructor; zlia.
Qed.

(** A table with as many entries as its maximum size allows refuses an entry that
    eviction would make room for. *)
Theorem dyn_table_add_full_refused :
  exists t name value,
    dt_wf t /\ dt_max_entries t = dt_max_size t / 32 /\
    table_fit (dt_max_size t) (new_entry name value :: dt_entries t) <> [] /\
    (@dyn_table_add unlimited_allocator t name value).2 = -1.
Proof.
  exists {| dt_entries := [new_entry [97] []; new_entry [98] []; new_entry [99] []];
            dt_capacity := 3; dt_max_entries := 3; dt_size := 99; dt_max_size := 100 |},
    [100], [].
  split_and!; try done. unfold dt_wf, entry_ok. cbn.
  split_and!; try done. repeat constructor; zlia.
Qed.

(** ** Searches *)

Lemma find_index_Some {A} (matches : A -> bool) l i j :
  find_index matches l i = Some j ->
  i <= j < i + zlen l /\ exists x, l !! Z.to_nat (j - i) = Some x /\ matches x = true.
Proof.
  revert i. induction l as [|x l IH]; intros i H; cbn in H; [done|].
  rewrite zlen_cons. pose proof (zlen_nonneg l). destruct (matches x) eqn:Hx.
  - injection H as <-. split; [lia|]. exists x. by rewrite Z.sub_diag.
  - apply IH in H as (Hb & y & Hy & Hm). split; [lia|]. exists y. split; [|done].
    replace (Z.to_nat (j - i)) with (S (Z.to_nat (j - (i + 1)))) by lia. done.
Qed.

Lemma dyn_table_find_spec t name value idx :
  dt_wf t -> dyn_table_find t name value = idx -> idx <> 0 ->
  62 <= idx < 62 + dt_count t /\
  exists e, dt_entries t !! Z.to_nat (idx - 62) = Some e /\ e_name e = name /\
    (forall v, value = Some v -> e_value e = v).
Proof.
  unfold dyn_table_find. intros Hwf H Hne.
  destruct (find_index _ _ 0) as [j|] eqn:Hf; [|congruence].
  apply find_index_Some in Hf as (Hb & e & He & Hm).
  pose proof (dt_wf_bounds t Hwf). destruct Hwf as (_ & _ & _ & _ & Hu & _).
  unfold dt_count in *. rewrite u32_id in H by zlia. subst idx. split; [lia|].
  exists e. rewrite Z.sub_0_r in He. replace (62 + j - 62) with j by lia.
  apply andb_true_iff in Hm as [Hm1 Hm2]. apply bytes_eqb_eq in Hm1.
  split; [done|]. split; [done|]. intros v ->. by apply bytes_eqb_eq.
Qed.

Lemma memcmp_eq_full a b : zlen a = zlen b -> memcmp_eq a b (zlen b) = true -> a = b.
Proof.
  unfold memcmp_eq, ztake. intros Hl H. apply bytes_eqb_eq in H.
  rewrite to_nat_zlen in H. rewrite !take_ge in H; [done|lia|unfold zlen in Hl; lia].
Qed.

Lemma static_entry_match e name :
  e ∈ s_hpack_static -> static_name_matches name e = true -> st_name e = name.
Proof.
  intros He H. unfold static_name_matches in H. bool_prop.
  pose proof static_sizes as Hs. rewrite List.Forall_forall in Hs.
  destruct (Hs e) as [Hs1 _]; [by apply list_elem_of_In|].
  apply memcmp_eq_full; [lia|done].
Qed.

Lemma static_find_full_spec name value idx :
  static_find_full name value = idx -> idx <> 0 ->
  1 <= idx <= 61 /\
  exists e, s_hpack_static !! Z.to_nat (idx - 1) = Some e /\ st_name e = name /\
    st_value e = value.
Proof.
  unfold static_find_full. intros H Hne.
  destruct (find_index _ _ 0) as [j|] eqn:Hf; [|congruence].
  apply find_index_Some in Hf as (Hb & e & He & Hm).
  change (zlen s_hpack_static) with 61 in Hb. rewrite u32_id in H by zlia. subst idx.
  split; [lia|]. exists e. rewrite Z.sub_0_r in He. replace (j + 1 - 1) with j by lia.
  apply andb_true_iff in Hm as [Hm1 Hm2]. apply andb_true_iff in Hm1 as [Hm1 Hm3].
  assert (e ∈ s_hpack_static) as Hin by (apply list_elem_of_lookup; eauto).
  split; [done|]. split; [by apply static_entry_match|].
  pose proof static_sizes as Hs. rewrite List.Forall_forall in Hs.
  destruct (Hs e) as [_ Hs2]; [by apply list_elem_of_In|]. bool_prop.
  apply memcmp_eq_full; [lia|done].
Qed.

Lemma static_find_name_spec name idx :
  static_find_name name = idx -> idx <> 0 ->
  1 <= idx <= 61 /\
  exists e, s_hpack_static !! Z.to_nat (idx - 1) = Some e /\ st_name e = name.
Proof.
  unfold static_find_name. intros H Hne.
  destruct (find_index _ _ 0) as [j|] eqn:Hf; [|congruence].
  apply find_index_Some in Hf as (Hb & e & He & Hm).
  change (zlen s_hpack_static) with 61 in Hb. rewrite u32_id in H by zlia. subst idx.
  split; [lia|]. exists e. rewrite Z.sub_0_r in He. replace (j + 1 - 1) with j by lia.
  split; [done|]. apply static_entry_match; [|done]. apply list_elem_of_lookup; eauto.
Qed.

End HpackTable.
