(* ===== verification/Hpack.v ===== *)
(** * HPACK encoder and decoder

    Model of the rest of [http_common/http/chttp_h2_hpack.c]: string literals,
    the context with its two dynamic tables, the table size updates, and the
    header block encoder and decoder.  An operation that returns an [int]
    returns the new state and that integer, so what a failing call leaves
    behind is part of the model.  The header callback of the decoder is a
    function on the caller's state. *)

From S2P Require Import Prelude HpackBuffer HpackTables HpackHuffman HpackTable.

Module Hpack.
Import HpackBuffer HpackTables HpackHuffman HpackTable.

Record chttp_h2_hpack_config := {
  hc_max_dynamic_table_bytes : Z;
  hc_max_header_block_bytes : Z;
  hc_max_string_bytes : Z;
}.

Record chttp_h2_hpack_header := {
  hd_name : list Z;
  hd_value : list Z;
}.

Record chttp_h2_hpack := {
  h_encoder : hpack_dyn_table;
  h_decoder : hpack_dyn_table;
  h_huff : list hpack_huff_node;
  h_decoder_max_size : Z;
  h_encoder_pending_min_size : Z;
  h_encoder_pending_final_size : Z;
  h_encoder_size_update_pending : bool;
  h_max_dynamic_table_bytes : Z;
  h_max_header_block_bytes : Z;
  h_max_string_bytes : Z;
}.

#[export] Instance eta_hpack : Eta chttp_h2_hpack :=
  fun h => Build_chttp_h2_hpack (h_encoder h) (h_decoder h) (h_huff h)
    (h_decoder_max_size h) (h_encoder_pending_min_size h) (h_encoder_pending_final_size h)
    (h_encoder_size_update_pending h) (h_max_dynamic_table_bytes h)
    (h_max_header_block_bytes h) (h_max_string_bytes h).
#[export] Instance set_h_encoder : Setter h_encoder. Proof. mk_setter. Defined.
#[export] Instance set_h_decoder : Setter h_decoder. Proof. mk_setter. Defined.
#[export] Instance set_h_decoder_max_size : Setter h_decoder_max_size.
Proof. mk_setter. Defined.
#[export] Instance set_h_pending_min : Setter h_encoder_pending_min_size.
Proof. mk_setter. Defined.
#[export] Instance set_h_pending_final : Setter h_encoder_pending_final_size.
Proof. mk_setter. Defined.
#[export] Instance set_h_pending : Setter h_encoder_size_update_pending.
Proof. mk_setter. Defined.

Section Context_.
Context {alloc : Allocator}.

(** ** Context *)

(** [sizeof(struct chttp_h2_hpack_s)] with eight-byte words. *)
Definition sizeof_hpack : Z := 176.

Definition chttp_h2_hpack_create (config : chttp_h2_hpack_config) : option chttp_h2_hpack :=
  if (UINT32_MAX <? hc_max_dynamic_table_bytes config) ||
     (hc_max_header_block_bytes config =? 0) || (hc_max_string_bytes config =? 0) ||
     negb (malloc_ok sizeof_hpack)
  then None
  else
    let table :=
      {| dt_entries := []; dt_capacity := 0;
         dt_max_entries := hc_max_dynamic_table_bytes config / 32;
         dt_size := 0; dt_max_size := hc_max_dynamic_table_bytes config |} in
    match huff_tree_build with
    | None => None
    | Some tree =>
      Some {| h_encoder := table;
              h_decoder := table;
              h_huff := ht_nodes tree;
              h_decoder_max_size := hc_max_dynamic_table_bytes config;
              h_encoder_pending_min_size := 0;
              h_encoder_pending_final_size := 0;
              h_encoder_size_update_pending := false;
              h_max_dynamic_table_bytes := hc_max_dynamic_table_bytes config;
              h_max_header_block_bytes := hc_max_header_block_bytes config;
              h_max_string_bytes := hc_max_string_bytes config |}
    end.

Definition chttp_h2_hpack_encoder_set_max_size (h : chttp_h2_hpack) (max_size : Z) :
    chttp_h2_hpack * Z :=
  if h_max_dynamic_table_bytes h <? max_size then (h, -1)
  else
    let h :=
      if negb (max_size =? dt_max_size (h_encoder h)) then
        let h :=
          if negb (h_encoder_size_update_pending h) || (max_size <? h_encoder_pending_min_size h)
          then h <| h_encoder_pending_min_size := max_size |> else h in
        h <| h_encoder_pending_final_size := max_size |>
          <| h_encoder_size_update_pending := true |>
      else h in
    (h <| h_encoder := dyn_table_evict ((h_encoder h) <| dt_max_size := max_size |>) |>, 0).

Definition chttp_h2_hpack_decoder_set_max_size (h : chttp_h2_hpack) (max_size : Z) :
    chttp_h2_hpack * Z :=
  if h_max_dynamic_table_bytes h <? max_size then (h, -1)
  else
    let h := h <| h_decoder_max_size := max_size |> in
    (h <| h_decoder := dyn_table_evict ((h_decoder h) <| dt_max_size := max_size |>) |>, 0).

Definition chttp_h2_hpack_decoder_table_size_update (h : chttp_h2_hpack) (new_size : Z) :
    chttp_h2_hpack * Z :=
  if h_decoder_max_size h <? new_size then (h, -1)
  else
    (h <| h_decoder := dyn_table_evict ((h_decoder h) <| dt_max_size := new_size |>) |>, 0).

(** ** String literals (RFC 7541 section 5.2) *)

(** [while (nbits >= 8)]: emit whole bytes; at most 37 bits are pending, so
    four rounds are enough. *)
Fixpoint huff_flush (fuel : nat) (bits nbits : Z) : list Z * Z :=
  match fuel with
  | O => ([], nbits)
  | S fuel =>
    if nbits <? 8 then ([], nbits)
    else
      let '(out, nbits') := huff_flush fuel bits (nbits - 8) in
      (u8 (Z.shiftr bits (nbits - 8)) :: out, nbits')
  end.

(** The bytes stored from [out_off] on; [bits] is a [uint64_t]. *)
Fixpoint huff_emit (s : list Z) (bits nbits : Z) : list Z :=
  match s with
  | [] =>
    if 0 <? nbits then
      [u8 (Z.lor (u64 (Z.shiftl bits (8 - nbits))) (Z.shiftl 1 (8 - nbits) - 1))]
    else []
  | c :: s =>
    let '(nb, code) := nth (Z.to_nat c) s_huff_sym (0, 0) in
    let bits := Z.lor (u64 (Z.shiftl bits nb)) (Z.shiftr code (32 - nb)) in
    let '(out, nbits) := huff_flush 5 bits (nbits + nb) in
    out ++ huff_emit s bits nbits
  end.

(** The Huffman branch stores the code bytes one past [size], then lets the
    length prefix overwrite what it needs from [size] on, then sets the top bit
    of the byte after the prefix. *)
Definition hpack_put_string (b : chttp_h2_hpack_buffer) (s : list Z) (huffman : bool) :
    chttp_h2_hpack_buffer * Z :=
  let len := zlen s in
  if 0x7fffffff <? len then (b, -1)
  else if huffman then
    if (SIZE_MAX - 8) / 4 <? len then (b, -1)
    else
      let max_enc := len * 4 + 8 in
      if SIZE_MAX - 8 <? max_enc then (b, -1)
      else
        let '(b, rc) := chttp_h2_hpack_buffer_reserve b (max_enc + 8) in
        if negb (rc =? 0) then (b, -1)
        else
          let code := huff_emit s 0 0 in
          let start := buf_size b in
          let '(b, rc) := chttp_h2_hpack_integer_encode b (u32 (zlen code)) 7 in
          if negb (rc =? 0) then (b, rc)
          else
            match zdrop (buf_size b - start - 1) code with
            | [] => (b, 0)
            | first :: code => (buf_append b (Z.lor first 0x80 :: code), 0)
            end
  else
    let '(b, rc) := chttp_h2_hpack_integer_encode b (u32 len) 7 in
    if negb (rc =? 0) then (b, rc)
    else
      let '(b, rc) := chttp_h2_hpack_buffer_reserve b len in
      if negb (rc =? 0) then (b, rc) else (buf_append b s, 0).

(** The string and the remaining input. *)
Definition hpack_get_string (h : chttp_h2_hpack) (input : list Z) : option (list Z * list Z) :=
  match input with
  | [] => None
  | first :: _ =>
    let huff := negb (Z.land first 0x80 =? 0) in
    match hpack_get_int input 7 with
    | None => None
    | Some (len, input) =>
      if zlen input <? len then None
      else if h_max_string_bytes h <? len then None
      else if huff then
        match hpack_huff_decode (h_huff h) (h_max_string_bytes h) (ztake len input) with
        | None => None
        | Some s => Some (s, zdrop len input)
        end
      else Some (ztake len input, zdrop len input)
    end
  end.

(** Static and dynamic entries by their common index. *)
Definition table_get (h : chttp_h2_hpack) (index : Z) : option (list Z * list Z) :=
  if index =? 0 then None
  else if index <=? 61 then
    match s_hpack_static !! Z.to_nat (index - 1) with
    | Some e => Some (st_name e, st_value e)
    | None => None
    end
  else
    let d := index - 62 in
    if dt_count (h_decoder h) <=? d then None
    else
      match dt_entries (h_decoder h) !! Z.to_nat d with
      | Some e => Some (e_name e, e_value e)
      | None => None
      end.

(** ** Header block encoder (RFC 7541 section 6) *)

(** [start = out->size; integer_encode(out, value, prefix); out->data[start] |= flag] *)
Definition put_flagged_int (out : chttp_h2_hpack_buffer) (value prefix flag : Z) :
    chttp_h2_hpack_buffer * Z :=
  let start := buf_size out in
  try! out := chttp_h2_hpack_integer_encode out value prefix in
  (buf_or out start flag, 0).

Definition hpack_put_table_size_update (out : chttp_h2_hpack_buffer) (size : Z) :
    chttp_h2_hpack_buffer * Z :=
  put_flagged_int out (u32 size) 5 0x20.

(** The pending table size updates at the start of a block. *)
Definition encode_pending (h : chttp_h2_hpack) (out : chttp_h2_hpack_buffer) :
    chttp_h2_hpack * chttp_h2_hpack_buffer * Z :=
  if h_encoder_size_update_pending h then
    let '(out, rc) := hpack_put_table_size_update out (h_encoder_pending_min_size h) in
    if negb (rc =? 0) then (h, out, -1)
    else
      let '(out, rc) :=
        if negb (h_encoder_pending_final_size h =? h_encoder_pending_min_size h)
        then hpack_put_table_size_update out (h_encoder_pending_final_size h)
        else (out, 0) in
      if negb (rc =? 0) then (h, out, -1)
      else (h <| h_encoder_size_update_pending := false |>, out, 0)
  else (h, out, 0).

(** The literal representations: the name index, the name when the index is 0,
    the value. *)
Definition encode_literal (out : chttp_h2_hpack_buffer) (name_idx prefix flag : Z)
    (hd : chttp_h2_hpack_header) : chttp_h2_hpack_buffer * Z :=
  try! out := put_flagged_int out name_idx prefix flag in
  try! out := (if name_idx =? 0 then hpack_put_string out (hd_name hd) false else (out, 0)) in
  try! out := hpack_put_string out (hd_value hd) false in
  (out, 0).

(** One round of the loop over the headers. *)
Definition encode_header (h : chttp_h2_hpack) (out : chttp_h2_hpack_buffer)
    (hd : chttp_h2_hpack_header) : chttp_h2_hpack * chttp_h2_hpack_buffer * Z :=
  if (h_max_string_bytes h <? zlen (hd_name hd)) || (h_max_string_bytes h <? zlen (hd_value hd))
  then (h, out, -1)
  else
    let full := static_find_full (hd_name hd) (hd_value hd) in
    let full :=
      if full =? 0 then dyn_table_find (h_encoder h) (hd_name hd) (Some (hd_value hd)) else full in
    if negb (full =? 0) then
      let '(out, rc) := put_flagged_int out full 7 0x80 in (h, out, rc)
    else
      let name_idx := static_find_name (hd_name hd) in
      let name_idx :=
        if name_idx =? 0 then dyn_table_find (h_encoder h) (hd_name hd) None else name_idx in
      if dt_max_size (h_encoder h) =? 0 then
        let '(out, rc) := encode_literal out name_idx 4 0 hd in (h, out, rc)
      else
        let '(out, rc) := encode_literal out name_idx 6 0x40 hd in
        if negb (rc =? 0) then (h, out, -1)
        else
          let '(encoder, rc) := dyn_table_add (h_encoder h) (hd_name hd) (hd_value hd) in
          (h <| h_encoder := encoder |>, out, if rc =? 0 then 0 else -1).

Fixpoint encode_headers (h : chttp_h2_hpack) (out : chttp_h2_hpack_buffer)
    (hdrs : list chttp_h2_hpack_header) : chttp_h2_hpack * chttp_h2_hpack_buffer * Z :=
  match hdrs with
  | [] => (h, out, 0)
  | hd :: hdrs =>
    let '(h, out, rc) := encode_header h out hd in
    if negb (rc =? 0) then (h, out, -1) else encode_headers h out hdrs
  end.

Definition chttp_h2_hpack_encode (h : chttp_h2_hpack) (out : chttp_h2_hpack_buffer)
    (hdrs : list chttp_h2_hpack_header) : chttp_h2_hpack * chttp_h2_hpack_buffer * Z :=
  if h_max_header_block_bytes h <? buf_max_capacity out then (h, out, -1)
  else
    let '(h, out, rc) := encode_pending h out in
    if negb (rc =? 0) then (h, out, -1) else encode_headers h out hdrs.

(** ** Header block decoder *)

(** The new [*list_size], or [None] for -1. *)
Definition hpack_add_header_list_size (list_size name_size value_size max_size : Z) : option Z :=
  if max_size =? 0 then Some list_size
  else if (SIZE_MAX - value_size <? name_size) || (SIZE_MAX - 32 <? name_size + value_size)
  then None
  else
    let field_size := name_size + value_size + 32 in
    if (max_size <? list_size) || (max_size - list_size <? field_size) then None
    else Some (list_size + field_size).

Section Decode.
Context {U : Type}.

(** The callback on the caller's state: 0 continues. *)
Context (cb : option (U -> list Z -> list Z -> U * Z)).
Context (max_header_list_size : Z).

(** The locals of [chttp_h2_hpack_decode] with the context and the caller's
    state. *)
Record dec_state := {
  ds_h : chttp_h2_hpack;
  ds_user : U;
  ds_list_bytes : Z;
  ds_too_large : bool;
}.

#[export] Instance eta_dec_state : Eta dec_state :=
  fun s => Build_dec_state (ds_h s) (ds_user s) (ds_list_bytes s) (ds_too_large s).
#[export] Instance set_ds_h : Setter ds_h. Proof. mk_setter. Defined.
#[export] Instance set_ds_user : Setter ds_user. Proof. mk_setter. Defined.
#[export] Instance set_ds_list_bytes : Setter ds_list_bytes. Proof. mk_setter. Defined.
#[export] Instance set_ds_too_large : Setter ds_too_large. Proof. mk_setter. Defined.

(** Account for one field and hand it to the callback; [true] when the callback
    aborts. *)
Definition decode_deliver (s : dec_state) (name value : list Z) : dec_state * bool :=
  let s :=
    if ds_too_large s then s
    else
      match hpack_add_header_list_size (ds_list_bytes s) (zlen name) (zlen value)
              max_header_list_size with
      | Some n => s <| ds_list_bytes := n |>
      | None => s <| ds_too_large := true |>
      end in
  if ds_too_large s then (s, false)
  else
    match cb with
    | None => (s, false)
    | Some cb =>
      let '(user, rc) := cb (ds_user s) name value in
      (s <| ds_user := user |>, negb (rc =? 0))
    end.

(** One round of the loop: stop with a return code, or go on with the
    remaining input. *)
Inductive dec_next :=
  | DecStop (s : dec_state) (rc : Z)
  | DecMore (s : dec_state) (input : list Z).

(** The name and value of a literal field with a name index. *)
Definition decode_literal (h : chttp_h2_hpack) (input : list Z) (prefix : Z) :
    option (list Z * list Z * list Z) :=
  match hpack_get_int input prefix with
  | None => None
  | Some (index, input) =>
    match (if index =? 0 then hpack_get_string h input
           else match table_get h index with
                | Some (name, _) => Some (name, input)
                | None => None
                end) with
    | None => None
    | Some (name, input) =>
      match hpack_get_string h input with
      | None => None
      | Some (value, input) => Some (name, value, input)
      end
    end
  end.

Definition decode_field (s : dec_state) (b : Z) (input : list Z) : dec_next :=
  if negb (Z.land b 0x80 =? 0) then
    match hpack_get_int input 7 with
    | None => DecStop s (-1)
    | Some (index, input) =>
      match table_get (ds_h s) index with
      | None => DecStop s (-1)
      | Some (name, value) =>
        let '(s, aborted) := decode_deliver s name value in
        if aborted then DecStop s (-3) else DecMore s input
      end
    end
  else if negb (Z.land b 0x40 =? 0) then
    match decode_literal (ds_h s) input 6 with
    | None => DecStop s (-1)
    | Some (name, value, input) =>
      let '(s, aborted) := decode_deliver s name value in
      if aborted then DecStop s (-3)
      else
        let '(decoder, rc) := dyn_table_add (h_decoder (ds_h s)) name value in
        let s := s <| ds_h := (ds_h s) <| h_decoder := decoder |> |> in
        if negb (rc =? 0) then DecStop s (-1) else DecMore s input
    end
  else if negb (Z.land b 0x20 =? 0) then
    match hpack_get_int input 5 with
    | None => DecStop s (-1)
    | Some (new_size, input) =>
      let '(h, rc) := chttp_h2_hpack_decoder_table_size_update (ds_h s) new_size in
      if negb (rc =? 0) then DecStop s (-1) else DecMore (s <| ds_h := h |>) input
    end
  else
    match decode_literal (ds_h s) input 4 with
    | None => DecStop s (-1)
    | Some (name, value, input) =>
      let '(s, aborted) := decode_deliver s name value in
      if aborted then DecStop s (-3) else DecMore s input
    end.

(** [while (pos < in_len)]; every round reads at least one byte, so the length
    of the input bounds the rounds.  [None] is out of fuel. *)
Fixpoint decode_loop (fuel : nat) (s : dec_state) (input : list Z) : option (dec_state * Z) :=
  match input with
  | [] => Some (s, if ds_too_large s then -2 else 0)
  | b :: _ =>
    match fuel with
    | O => None
    | S fuel =>
      match decode_field s b input with
      | DecStop s rc => Some (s, rc)
      | DecMore s input => decode_loop fuel s input
      end
    end
  end.

(** The context, the caller's state, the return code and [*consumed]. *)
Definition chttp_h2_hpack_decode (h : chttp_h2_hpack) (user : U) (input : list Z) :
    option (chttp_h2_hpack * U * Z * Z) :=
  if h_max_header_block_bytes h <? zlen input then Some (h, user, -1, 0)
  else
    match decode_loop (length input)
            {| ds_h := h; ds_user := user; ds_list_bytes := 0; ds_too_large := false |} input with
    | None => None
    | Some (s, rc) =>
      Some (ds_h s, ds_user s, rc, if (rc =? 0) || (rc =? -2) then zlen input else 0)
    end.

End Decode.
End Context_.

Arguments dec_state U : clear implicits.
Arguments dec_next U : clear implicits.

#[global] Arguments hpack_put_string : simpl never.
#[global] Arguments hpack_get_string : simpl never.
#[global] Arguments table_get : simpl never.
#[global] Arguments put_flagged_int : simpl never.
#[global] Arguments encode_literal : simpl never.
#[global] Arguments encode_header : simpl never.
#[global] Arguments decode_literal : simpl never.
#[global] Arguments decode_deliver : simpl never.
#[global] Arguments chttp_h2_hpack_decoder_table_size_update : simpl never.

(** ** Invariant of a context *)

Record hpack_wf (h : chttp_h2_hpack) : Prop := {
  wf_encoder : dt_wf (h_encoder h);
  wf_decoder : dt_wf (h_decoder h);
  wf_huff : h_huff h = huff_nodes;
  wf_encoder_max : dt_max_size (h_encoder h) <= h_max_dynamic_table_bytes h;
  wf_decoder_max : dt_max_size (h_decoder h) <= h_decoder_max_size h;
  wf_decoder_limit : h_decoder_max_size h <= h_max_dynamic_table_bytes h;
  wf_dynamic : 0 <= h_max_dynamic_table_bytes h <= UINT32_MAX;
  wf_encoder_entries : dt_max_entries (h_encoder h) = h_max_dynamic_table_bytes h / 32;
  wf_decoder_entries : dt_max_entries (h_decoder h) = h_max_dynamic_table_bytes h / 32;
  wf_pending : h_encoder_size_update_pending h = true ->
    h_encoder_pending_final_size h = dt_max_size (h_encoder h) /\
    0 <= h_encoder_pending_min_size h <= dt_max_size (h_encoder h);
  wf_string : 0 < h_max_string_bytes h;
}.

Definition header_ok (hd : chttp_h2_hpack_header) : Prop :=
  is_bytes (hd_name hd) /\ is_bytes (hd_value hd).

(** What two ends of a connection agree on: once the decoder [hd] has applied
    the table size updates the encoder [he] still has to send, the two tables
    are the same. *)
Definition synced (he hd : chttp_h2_hpack) : Prop :=
  dt_max_size (h_encoder he) <= h_decoder_max_size hd /\
  if h_encoder_size_update_pending he
  then dt_entries (h_encoder he) =
       table_fit (h_encoder_pending_min_size he) (dt_entries (h_decoder hd))
  else dt_entries (h_encoder he) = dt_entries (h_decoder hd) /\
       dt_max_size (h_encoder he) = dt_max_size (h_decoder hd).

Section Facts.
Context {alloc : Allocator}.

Lemma hpack_create_wf config h :
  0 <= hc_max_dynamic_table_bytes config -> 0 <= hc_max_string_bytes config ->
  chttp_h2_hpack_create config = Some h -> hpack_wf h /\ synced h h.
Proof.
  intros Hd Hs H. unfold chttp_h2_hpack_create in H. split_if_in H; [done|].
  destruct huff_tree_build as [t|] eqn:Ht; [|done]. injection H as <-.
  assert (dt_wf {| dt_entries := []; dt_capacity := 0;
    dt_max_entries := hc_max_dynamic_table_bytes config / 32;
    dt_size := 0; dt_max_size := hc_max_dynamic_table_bytes config |}) as Hwf.
  { unfold dt_wf, dt_count. cbn. change (entries_size []) with 0. change (zlen []) with 0.
    unfold UINT32_MAX in *. split_and!; try done; try lia; Z.div_mod_to_equations; lia. }
  split; [|split; [cbn; lia|done]].
  split; cbn; try done; try lia. by apply huff_tree_build_nodes.
Qed.

Lemma encoder_set_max_size_wf h max_size :
  hpack_wf h -> 0 <= max_size -> hpack_wf (chttp_h2_hpack_encoder_set_max_size h max_size).1.
Proof.
  intros Hwf Hm. unfold chttp_h2_hpack_encoder_set_max_size. split_if; [done|].
  destruct Hwf. destruct (dt_wf_resize (h_encoder h) max_size) as (H1 & H2 & H3 & H4);
    [done|lia|]. cbn in H1, H2, H3, H4.
  destruct (Z.eqb_spec max_size (dt_max_size (h_encoder h))) as [->|Hne]; cbn [negb].
  - split; cbn; rewrite ?H3, ?H4; auto.
  - destruct (h_encoder_size_update_pending h) eqn:Hp; cbn [negb orb].
    + destruct (Z.ltb_spec max_size (h_encoder_pending_min_size h));
        split; cbn; rewrite ?H3, ?H4; auto; try lia; intros _;
        destruct wf_pending0; auto; split; auto; lia.
    + split; cbn; rewrite ?H3, ?H4; auto; try lia.
Qed.

Lemma decoder_table_size_update_wf h new_size :
  hpack_wf h -> 0 <= new_size -> hpack_wf (chttp_h2_hpack_decoder_table_size_update h new_size).1.
Proof.
  intros Hwf Hm. unfold chttp_h2_hpack_decoder_table_size_update. split_if; [done|].
  destruct Hwf. destruct (dt_wf_resize (h_decoder h) new_size) as (H1 & H2 & H3 & H4);
    [done|lia|]. cbn in H1, H2, H3, H4. split; cbn; rewrite ?H3, ?H4; auto; lia.
Qed.

Lemma decoder_set_max_size_wf h max_size :
  hpack_wf h -> 0 <= max_size -> hpack_wf (chttp_h2_hpack_decoder_set_max_size h max_size).1.
Proof.
  intros Hwf Hm. unfold chttp_h2_hpack_decoder_set_max_size. split_if; [done|].
  destruct Hwf. destruct (dt_wf_resize (h_decoder h) max_size) as (H1 & H2 & H3 & H4);
    [done|lia|]. cbn in H1, H2, H3, H4. split; cbn; rewrite ?H3, ?H4; auto; lia.
Qed.

(** Changing the size of the encoder's table any number of times between two
    blocks keeps the ends in agreement. *)
Lemma synced_set_max_size he hd max_size he' :
  hpack_wf he -> hpack_wf hd -> synced he hd -> 0 <= max_size <= h_decoder_max_size hd ->
  chttp_h2_hpack_encoder_set_max_size he max_size = (he', 0) -> synced he' hd.
Proof.
  intros Hwe Hwd [Hs1 Hs2] Hm H. unfold chttp_h2_hpack_encoder_set_max_size in H.
  split_if_in H; [done|]. injection H as <-.
  destruct (dt_wf_resize (h_encoder he) max_size) as (_ & H2 & H3 & _);
    [apply Hwe|destruct Hwe; lia|]. cbn in H2, H3.
  pose proof (wf_pending he Hwe) as Hpend.
  assert (Forall entry_ok (dt_entries (h_decoder hd))) as Hok by apply Hwd.
  assert (Forall entry_ok (dt_entries (h_encoder he))) as Hoke by apply Hwe.
  assert (dt_size (h_encoder he) = entries_size (dt_entries (h_encoder he)) /\
    dt_size (h_encoder he) <= dt_max_size (h_encoder he)) as Hsz by (split; apply Hwe).
  destruct (Z.eqb_spec max_size (dt_max_size (h_encoder he))) as [->|Hne];
    cbn [negb orb] in *.
  - split; cbn; [rewrite H3; lia|]. rewrite H2, ?H3.
    rewrite (table_fit_all _ (dt_entries (h_encoder he))) by (done || lia).
    destruct (h_encoder_size_update_pending he); [done|]. by destruct Hs2.
  - destruct (h_encoder_size_update_pending he) eqn:Hp; cbn [negb orb].
    + destruct Hpend as [_ Hmin]; [done|].
      destruct (Z.ltb_spec max_size (h_encoder_pending_min_size he));
        (split; cbn; [rewrite H3; lia|]); rewrite H2, Hs2.
      * apply table_fit_fit; [done|lia].
      * apply table_fit_fit_ge; [done|lia|lia].
    + destruct Hs2 as [Hs2 _]. split; cbn; [rewrite H3; lia|]. by rewrite H2, Hs2.
Qed.

End Facts.

End Hpack.
