(* ===== verification/HpackSync.v ===== *)
(** * HPACK: encoder and decoder agree

    The decoder of one end reads back what the encoder of the other end wrote,
    and their dynamic tables stay equal, block after block, whatever table size
    changes happen in between.  Also: the decoder loop always ends, and every
    operation keeps the context invariant. *)

From S2P Require Import Prelude HpackBuffer HpackTables HpackHuffman HpackTable Hpack.

Module HpackSync.
Import HpackBuffer HpackTables HpackHuffman HpackTable Hpack.

Section Pieces.
Context {alloc : Allocator}.

(** ** Pieces of the wire format *)

Lemma lor_flag first prefix flag :
  1 <= prefix <= 7 -> 0 <= first < 2 ^ prefix -> flag mod 2 ^ prefix = 0 -> 0 <= flag <= 0x80 ->
  Z.lor first flag = flag + first.
Proof.
  intros Hp Hf Hm Hfl. rewrite Z.lor_comm.
  assert (flag = Z.shiftl (flag / 2 ^ prefix) prefix) as E
    by (rewrite Z.shiftl_mul_pow2 by lia; Z.div_mod_to_equations; nia).
  rewrite E at 1. rewrite lor_shiftl_add by lia.
  rewrite Z.shiftl_mul_pow2 in E by lia. lia.
Qed.

Lemma buf_or_at b first tail flag :
  buf_or (b <| buf_data := buf_data b ++ first :: tail |>) (buf_size b) flag =
  b <| buf_data := buf_data b ++ Z.lor first flag :: tail |>.
Proof.
  unfold buf_or, buf_size, set, set_buf_data. cbn. f_equal.
  unfold zth. rewrite to_nat_zlen, nth_middle. rewrite insert_app_r_alt by lia. by rewrite Nat.sub_diag.
Qed.

Lemma put_flagged_int_ok out value prefix flag out' :
  buf_wf out -> 1 <= prefix <= 7 -> is_u32 value ->
  flag mod 2 ^ prefix = 0 -> 0 <= flag <= 0x80 ->
  put_flagged_int out value prefix flag = (out', 0) ->
  exists first tail,
    buf_data out' = buf_data out ++ (flag + first) :: tail /\ buf_wf out' /\
    buf_max_capacity out' = buf_max_capacity out /\ 0 <= first < 2 ^ prefix /\
    forall rest, hpack_get_int ((flag + first) :: tail ++ rest) prefix = Some (value, rest).
Proof.
  intros Hwf Hp Hv Hm Hfl H. unfold put_flagged_int in H.
  pose proof (integer_encode_cases out value prefix Hwf ltac:(lia) Hv) as Hc.
  destruct (chttp_h2_hpack_integer_encode out value prefix) as [b rc].
  destruct Hc as (Hmax & Hwf' & [[-> Hd]|[-> Hd]]); [|done].
  cbn in H. injection H as <-.
  destruct (get_int_encoding value prefix ltac:(lia) Hv) as (first & tail & He & Hf & Hg).
  exists first, tail.
  assert (2 ^ prefix <= 2 ^ 7) by (apply Z.pow_le_mono_r; lia).
  rewrite <- (lor_flag first prefix flag) by done.
  assert (b = b <| buf_data := buf_data out ++ first :: tail |>) as ->
    by (rewrite <- He, <- Hd; by destruct b).
  pose proof (buf_or_at (b <| buf_data := buf_data out |>) first tail flag) as Hor.
  cbn in Hor. unfold buf_size in Hor at 1. cbn in Hor. unfold buf_size.
  split_and!.
  - etransitivity; [apply (f_equal buf_data Hor)|done].
  - destruct Hwf' as (Hb & Hs & Hx). unfold buf_wf, buf_size in *.
    rewrite Hd, He in Hb, Hs. bytes_inv.
    assert (buf_data (buf_or b <|buf_data := buf_data out ++ first :: tail|>
      (zlen (buf_data out)) flag) = buf_data out ++ Z.lor first flag :: tail) as ->
      by (etransitivity; [apply (f_equal buf_data Hor)|done]).
    cbn. rewrite !zlen_app, !zlen_cons in *. split_and!; try lia. bytes_solve.
    rewrite (lor_flag first prefix flag) by done. zlia.
  - done.
  - lia.
  - lia.
  - intros rest. by apply Hg.
Qed.

Lemma put_string_ok b s b' :
  buf_wf b -> is_bytes s -> hpack_put_string b s false = (b', 0) ->
  exists first tail,
    buf_data b' = buf_data b ++ (first :: tail) /\ buf_wf b' /\
    buf_max_capacity b' = buf_max_capacity b /\
    forall h rest, zlen s <= h_max_string_bytes h ->
      hpack_get_string h ((first :: tail) ++ rest) = Some (s, rest).
Proof.
  intros Hwf Hs H. unfold hpack_put_string in H. pose proof (zlen_nonneg s).
  split_if_in H; [done|]. rewrite u32_id in H by zlia.
  pose proof (integer_encode_cases b (zlen s) 7 Hwf ltac:(lia) ltac:(zlia)) as Hc.
  destruct (chttp_h2_hpack_integer_encode b (zlen s) 7) as [b1 rc1].
  destruct Hc as (Hmax & Hwf1 & [[-> Hd]|[-> Hd]]); [|done]. cbn [Z.eqb negb] in H.
  pose proof (buffer_reserve_cases b1 (zlen s) Hwf1 ltac:(lia)) as Hr.
  destruct (chttp_h2_hpack_buffer_reserve b1 (zlen s)) as [b2 rc2].
  destruct Hr as (Hd2 & Hmax2 & Hwf2 & [[-> Hcap]|[-> _]]); [|done].
  cbn [Z.eqb negb] in H. injection H as <-.
  destruct (get_int_encoding (zlen s) 7 ltac:(lia) ltac:(zlia)) as (first & tail & He & Hf & Hg).
  exists first, (tail ++ s). cbn. split_and!.
  - rewrite Hd2, Hd, He, <- app_assoc. done.
  - apply buf_wf_append; [done|done|]. unfold buf_size in *. rewrite Hd2. done.
  - congruence.
  - intros h rest Hl. unfold hpack_get_string. cbn [app].
    specialize (Hg 0 (s ++ rest) ltac:(done)). rewrite Z.lor_0_r in Hg.
    rewrite <- app_assoc. rewrite Hg.
    rewrite land_0x80 by zlia. replace (first <? 128) with true by lia. cbn [negb].
    rewrite zlen_app. pose proof (zlen_nonneg rest).
    split_if; [lia|]. split_if; [lia|]. by rewrite ztake_app, zdrop_app.
Qed.

Lemma encode_literal_ok out name_idx prefix flag hd out' :
  buf_wf out -> 1 <= prefix <= 7 -> is_u32 name_idx ->
  flag mod 2 ^ prefix = 0 -> 0 <= flag <= 0x80 -> header_ok hd ->
  encode_literal out name_idx prefix flag hd = (out', 0) ->
  exists first tail,
    buf_data out' = buf_data out ++ (flag + first) :: tail /\ buf_wf out' /\
    buf_max_capacity out' = buf_max_capacity out /\ 0 <= first < 2 ^ prefix /\
    forall h rest,
      zlen (hd_name hd) <= h_max_string_bytes h -> zlen (hd_value hd) <= h_max_string_bytes h ->
      (name_idx <> 0 -> exists v, table_get h name_idx = Some (hd_name hd, v)) ->
      decode_literal h ((flag + first) :: tail ++ rest) prefix =
      Some (hd_name hd, hd_value hd, rest).
Proof.
  intros Hwf Hp Hv Hm Hfl [Hn Hval] H. unfold encode_literal in H.
  destruct (put_flagged_int out name_idx prefix flag) as [b1 rc1] eqn:H1.
  destruct (Z.eqb_spec rc1 0) as [->|]; [|done].
  destruct (put_flagged_int_ok _ _ _ _ _ Hwf Hp Hv Hm Hfl H1)
    as (first & tail & Hd1 & Hwf1 & Hmax1 & Hf & Hg).
  destruct (if name_idx =? 0 then _ else _) as [b2 rc2] eqn:H2.
  destruct (Z.eqb_spec rc2 0) as [->|]; [|done].
  destruct (hpack_put_string b2 (hd_value hd) false) as [b3 rc3] eqn:H3.
  destruct (Z.eqb_spec rc3 0) as [->|]; [|done]. injection H as <-.
  destruct (Z.eqb_spec name_idx 0) as [->|Hne].
  - destruct (put_string_ok _ _ _ Hwf1 Hn H2) as (f2 & t2 & Hd2 & Hwf2 & Hmax2 & Hg2).
    destruct (put_string_ok _ _ _ Hwf2 Hval H3) as (f3 & t3 & Hd3 & Hwf3 & Hmax3 & Hg3).
    exists first, (tail ++ (f2 :: t2) ++ (f3 :: t3)).
    rewrite Hd3, Hd2, Hd1, Hmax3, Hmax2, Hmax1.
    split_and!; try done; try lia; [by rewrite <- !app_assoc|].
    intros h rest Hl1 Hl2 _. unfold decode_literal.
    replace ((tail ++ (f2 :: t2) ++ (f3 :: t3)) ++ rest)
      with (tail ++ (f2 :: t2) ++ (f3 :: t3) ++ rest) by (by rewrite <- !app_assoc).
    rewrite Hg. cbn [Z.eqb]. rewrite Hg2 by done. by rewrite Hg3 by done.
  - injection H2 as <-.
    destruct (put_string_ok _ _ _ Hwf1 Hval H3) as (f3 & t3 & Hd3 & Hwf3 & Hmax3 & Hg3).
    exists first, (tail ++ (f3 :: t3)). rewrite Hd3, Hd1, Hmax3, Hmax1.
    split_and!; try done; try lia; [by rewrite <- !app_assoc|].
    intros h rest Hl1 Hl2 Ht. destruct (Ht Hne) as [v Hv'].
    unfold decode_literal.
    replace ((tail ++ (f3 :: t3)) ++ rest) with (tail ++ (f3 :: t3) ++ rest)
      by (by rewrite <- !app_assoc).
    rewrite Hg.
    destruct (Z.eqb_spec name_idx 0); [done|]. rewrite Hv', Hg3 by done. done.
Qed.

(** ** Indices that the encoder finds are indices the decoder knows *)

Lemma table_get_static h idx e :
  1 <= idx <= 61 -> s_hpack_static !! Z.to_nat (idx - 1) = Some e ->
  table_get h idx = Some (st_name e, st_value e).
Proof.
  intros Hb He. unfold table_get. destruct (Z.eqb_spec idx 0); [lia|].
  destruct (Z.leb_spec idx 61); [|lia]. by rewrite He.
Qed.

Lemma table_get_dynamic h idx e :
  62 <= idx < 62 + dt_count (h_decoder h) ->
  dt_entries (h_decoder h) !! Z.to_nat (idx - 62) = Some e ->
  table_get h idx = Some (e_name e, e_value e).
Proof.
  intros Hb He. unfold table_get. destruct (Z.eqb_spec idx 0); [lia|].
  destruct (Z.leb_spec idx 61); [lia|].
  destruct (Z.leb_spec (dt_count (h_decoder h)) (idx - 62)); [lia|]. by rewrite He.
Qed.

Definition full_index (he : chttp_h2_hpack) (hd : chttp_h2_hpack_header) : Z :=
  if static_find_full (hd_name hd) (hd_value hd) =? 0
  then dyn_table_find (h_encoder he) (hd_name hd) (Some (hd_value hd))
  else static_find_full (hd_name hd) (hd_value hd).

Definition name_index (he : chttp_h2_hpack) (hd : chttp_h2_hpack_header) : Z :=
  if static_find_name (hd_name hd) =? 0
  then dyn_table_find (h_encoder he) (hd_name hd) None
  else static_find_name (hd_name hd).

Lemma full_index_spec he hd h :
  dt_wf (h_encoder he) -> dt_entries (h_encoder he) = dt_entries (h_decoder h) ->
  full_index he hd <> 0 ->
  is_u32 (full_index he hd) /\
  table_get h (full_index he hd) = Some (hd_name hd, hd_value hd).
Proof.
  intros Hwf He Hne. unfold full_index in *.
  destruct (Z.eqb_spec (static_find_full (hd_name hd) (hd_value hd)) 0) as [E|Hs].
  - destruct (dyn_table_find_spec _ _ _ _ Hwf eq_refl Hne) as (Hb & e & Hl & Hn & Hv).
    pose proof (dt_wf_bounds _ Hwf). assert (dt_max_size (h_encoder he) <= UINT32_MAX) by apply Hwf.
    split; [unfold UINT32_MAX, is_u32 in *; lia|].
    replace (Some (hd_name hd, hd_value hd)) with (Some (e_name e, e_value e))
      by (by rewrite Hn, (Hv _ eq_refl)).
    apply table_get_dynamic; [unfold dt_count in *; by rewrite <- He|by rewrite <- He].
  - destruct (static_find_full_spec _ _ _ eq_refl Hs) as (Hb & e & Hl & Hn & Hv).
    split; [zlia|].
    replace (Some (hd_name hd, hd_value hd)) with (Some (st_name e, st_value e))
      by (by rewrite Hn, Hv).
    by apply table_get_static.
Qed.

Lemma name_index_spec he hd h :
  dt_wf (h_encoder he) -> dt_entries (h_encoder he) = dt_entries (h_decoder h) ->
  is_u32 (name_index he hd) /\
  (name_index he hd <> 0 -> exists v, table_get h (name_index he hd) = Some (hd_name hd, v)).
Proof.
  intros Hwf He. unfold name_index in *.
  destruct (Z.eqb_spec (static_find_name (hd_name hd)) 0) as [E|Hs].
  - destruct (Z.eq_dec (dyn_table_find (h_encoder he) (hd_name hd) None) 0) as [->|Hne].
    { split; [zlia|done]. }
    destruct (dyn_table_find_spec _ _ _ _ Hwf eq_refl Hne) as (Hb & e & Hl & Hn & Hv).
    pose proof (dt_wf_bounds _ Hwf). assert (dt_max_size (h_encoder he) <= UINT32_MAX) by apply Hwf.
    split; [unfold UINT32_MAX, is_u32 in *; lia|]. intros _.
    exists (e_value e).
    replace (Some (hd_name hd, e_value e)) with (Some (e_name e, e_value e)) by (by rewrite Hn).
    apply table_get_dynamic; [unfold dt_count in *; by rewrite <- He|by rewrite <- He].
  - destruct (static_find_name_spec _ _ eq_refl Hs) as (Hb & e & Hl & Hn).
    split; [zlia|]. intros _. exists (st_value e).
    replace (Some (hd_name hd, st_value e)) with (Some (st_name e, st_value e)) by (by rewrite Hn).
    by apply table_get_static.
Qed.

End Pieces.

(** ** One header *)

(** The callback that records what it is handed. *)
Definition record_cb (u : list chttp_h2_hpack_header) (name value : list Z) :
    list chttp_h2_hpack_header * Z :=
  (u ++ [{| hd_name := name; hd_value := value |}], 0).

(** The limits of a context, which decoding never changes. *)
Definition same_limits (h h' : chttp_h2_hpack) : Prop :=
  h_max_string_bytes h' = h_max_string_bytes h /\
  h_decoder_max_size h' = h_decoder_max_size h /\
  h_max_header_block_bytes h' = h_max_header_block_bytes h /\
  h_max_dynamic_table_bytes h' = h_max_dynamic_table_bytes h.

Definition header_fits (h : chttp_h2_hpack) (hd : chttp_h2_hpack_header) : Prop :=
  header_ok hd /\ zlen (hd_name hd) <= h_max_string_bytes h /\
  zlen (hd_value hd) <= h_max_string_bytes h /\
  zlen (hd_name hd) + zlen (hd_value hd) + 32 <= SIZE_MAX.

Lemma land_0x40 z : 0 <= z < 128 -> (Z.land z 0x40 =? 0) = (z <? 64).
Proof. intros. apply (land_top_bit 6 z); lia. Qed.

Lemma land_0x20 z : 0 <= z < 64 -> (Z.land z 0x20 =? 0) = (z <? 32).
Proof. intros. apply (land_top_bit 5 z); lia. Qed.

Section Headers.
Context {alloc : Allocator} (serves : forall n, malloc_ok n = true).
Context (max : Z).

#[local] Abbreviation deliver := (decode_deliver (Some record_cb) max) (only parsing).
#[local] Abbreviation field := (decode_field (Some record_cb) max) (only parsing).

Lemma deliver_record s name value :
  (deliver s name value).2 = false /\ ds_h (deliver s name value).1 = ds_h s.
Proof.
  unfold decode_deliver. destruct (ds_too_large s) eqn:Ht; [by rewrite Ht|].
  destruct (hpack_add_header_list_size _ _ _ _); cbn; [rewrite Ht|]; done.
Qed.

(** What the decoder does with the bytes [bs] of one header: it delivers the
    header and moves to a context that agrees with the encoder's. *)
Definition reads_header (he' hd : chttp_h2_hpack) (hdr : chttp_h2_hpack_header) (bs : list Z) :
    Prop :=
  exists hd' b tail,
    bs = b :: tail /\ hpack_wf hd' /\ same_limits hd hd' /\ synced he' hd' /\
    forall s rest, ds_h s = hd ->
      field s b (bs ++ rest) =
      DecMore ((deliver s (hd_name hdr) (hd_value hdr)).1 <| ds_h := hd' |>) rest.

Lemma deliver_same_h s name value h :
  ds_h s = h -> (deliver s name value).1 <| ds_h := h |> = (deliver s name value).1.
Proof.
  intros <-. rewrite <- (proj2 (deliver_record s name value)). by destruct (deliver s name value).1.
Qed.

Lemma reads_indexed he hd hdr first tail :
  hpack_wf hd -> synced he hd -> 0 <= first < 128 ->
  (forall rest, exists idx, hpack_get_int ((0x80 + first) :: tail ++ rest) 7 = Some (idx, rest) /\
     table_get hd idx = Some (hd_name hdr, hd_value hdr)) ->
  reads_header he hd hdr ((0x80 + first) :: tail).
Proof.
  intros Hwd Hs Hf Hg. exists hd, (0x80 + first), tail.
  split_and!; [done|done|by repeat split|done|]. intros s rest Hh.
  rewrite deliver_same_h by done. destruct (Hg rest) as (idx & Hi & Ht).
  pose proof (deliver_record s (hd_name hdr) (hd_value hdr)) as [Hab _].
  unfold decode_field. rewrite land_0x80 by zlia.
  replace (0x80 + first <? 128) with false by lia. cbn [negb app].
  rewrite Hi, Hh, Ht. by destruct (deliver s _ _) as [s1 []].
Qed.

Lemma reads_plain_literal he hd hdr first tail :
  hpack_wf hd -> synced he hd -> 0 <= first < 16 ->
  (forall rest, decode_literal hd (first :: tail ++ rest) 4 =
     Some (hd_name hdr, hd_value hdr, rest)) ->
  reads_header he hd hdr (first :: tail).
Proof.
  intros Hwd Hs Hf Hg. exists hd, first, tail.
  split_and!; [done|done|by repeat split|done|]. intros s rest Hh.
  rewrite deliver_same_h by done.
  pose proof (deliver_record s (hd_name hdr) (hd_value hdr)) as [Hab _].
  unfold decode_field. rewrite land_0x80, land_0x40, land_0x20 by zlia.
  replace (first <? 128) with true by lia. replace (first <? 64) with true by lia.
  replace (first <? 32) with true by lia. cbn [negb app].
  rewrite Hh, Hg. by destruct (deliver s _ _) as [s1 []].
Qed.

(** A literal with incremental indexing: both ends insert the field. *)
Lemma reads_indexing_literal he hd hdr first tail encoder :
  hpack_wf he -> hpack_wf hd -> synced he hd ->
  h_encoder_size_update_pending he = false ->
  h_max_dynamic_table_bytes he <= h_max_dynamic_table_bytes hd ->
  header_fits hd hdr -> 0 <= first < 64 ->
  dyn_table_add (h_encoder he) (hd_name hdr) (hd_value hdr) = (encoder, 0) ->
  (forall rest, decode_literal hd ((0x40 + first) :: tail ++ rest) 6 =
     Some (hd_name hdr, hd_value hdr, rest)) ->
  reads_header (he <| h_encoder := encoder |>) hd hdr ((0x40 + first) :: tail).
Proof.
  intros Hwe Hwd [Hs1 Hs2] Hp Hdyn ((Hn & Hv) & _ & _ & Hsz) Hf Hadd Hg.
  rewrite Hp in Hs2. destruct Hs2 as [Hs2 Hs3].
  pose proof (dyn_table_add_cases (h_encoder he) _ _ (wf_encoder _ Hwe) Hn Hv) as He.
  pose proof (dyn_table_add_rc (h_encoder he) _ _ (wf_encoder _ Hwe) serves Hsz) as Herc.
  pose proof (dyn_table_add_cases (h_decoder hd) _ _ (wf_decoder _ Hwd) Hn Hv) as Hc.
  pose proof (dyn_table_add_rc (h_decoder hd) _ _ (wf_decoder _ Hwd) serves Hsz) as Hcrc.
  rewrite Hadd in He, Herc. cbn in Herc. destruct He as (_ & He1 & He2 & [[_ He]|[? _]]); [|done].
  destruct (dyn_table_add (h_decoder hd) _ _) as [decoder rc] eqn:Hda. cbn in Hcrc.
  assert (rc = 0) as ->.
  { rewrite Hcrc, <- Hs3. unfold dt_count in *. rewrite <- Hs2.
    rewrite (wf_decoder_entries _ Hwd). rewrite (wf_encoder_entries _ Hwe) in Herc.
    pose proof (Z.div_le_mono _ _ 32 ltac:(lia) Hdyn).
    destruct (Z.ltb_spec (dt_max_size (h_encoder he))
      (zlen (hd_name hdr) + zlen (hd_value hdr) + 32)); [done|].
    cbn [orb] in *. destruct (Z.ltb_spec (zlen (dt_entries (h_encoder he)))
      (h_max_dynamic_table_bytes he / 32)); [|done].
    by split_if; [|lia]. }
  destruct Hc as (Hwd' & Hc1 & Hc2 & [[_ Hc]|[? _]]); [|done].
  exists (hd <| h_decoder := decoder |>), (0x40 + first), tail. split_and!; [done| | | |].
  - destruct Hwd. split; cbn; rewrite ?Hc1, ?Hc2; auto.
  - by repeat split.
  - split; cbn; [by rewrite He1|]. rewrite Hp, He, Hc, He1, Hc1, Hs2, Hs3. done.
  - intros s rest Hh. destruct (deliver_record s (hd_name hdr) (hd_value hdr)) as [Hab Hdh].
    unfold decode_field. rewrite land_0x80, land_0x40 by zlia.
    replace (0x40 + first <? 128) with true by lia.
    replace (0x40 + first <? 64) with false by lia. cbn [negb app].
    rewrite Hh, Hg. destruct (deliver s _ _) as [s1 ab]. cbn in Hab, Hdh. subst ab.
    cbv beta iota zeta. by rewrite Hdh, Hh, Hda.
Qed.

Lemma encode_header_ok he out hdr he' out' hd :
  hpack_wf he -> hpack_wf hd -> synced he hd ->
  h_encoder_size_update_pending he = false ->
  h_max_dynamic_table_bytes he <= h_max_dynamic_table_bytes hd ->
  header_fits hd hdr -> buf_wf out ->
  encode_header he out hdr = (he', out', 0) ->
  hpack_wf he' /\ h_encoder_size_update_pending he' = false /\
  h_max_dynamic_table_bytes he' = h_max_dynamic_table_bytes he /\
  buf_wf out' /\ buf_max_capacity out' = buf_max_capacity out /\
  exists bs, buf_data out' = buf_data out ++ bs /\ reads_header he' hd hdr bs.
Proof.
  intros Hwe Hwd Hs Hp Hdyn Hfits Hwf H.
  pose proof Hfits as ([Hn Hv] & Hl1 & Hl2 & Hsz).
  assert (dt_entries (h_encoder he) = dt_entries (h_decoder hd)) as Heq
    by (destruct Hs as [_ Hs]; rewrite Hp in Hs; apply Hs).
  unfold encode_header in H. split_if_in H; [done|].
  fold (full_index he hdr) in H. fold (name_index he hdr) in H.
  destruct (Z.eqb_spec (full_index he hdr) 0) as [Hfull|Hfull]; cbn [negb] in H.
  - destruct (name_index_spec he hdr hd (wf_encoder _ Hwe) Heq) as [Hu Ht].
    destruct (dt_max_size (h_encoder he) =? 0).
    + destruct (encode_literal out _ 4 0 hdr) as [b rc] eqn:Hlit. injection H as -> -> ->.
      destruct (encode_literal_ok _ _ 4 0 _ _ Hwf ltac:(lia) Hu ltac:(done) ltac:(lia)
        (conj Hn Hv) Hlit) as (first & tail & Hd & Hwf' & Hmax & Hf & Hg).
      split_and!; try done. exists (0 + first :: tail). split; [done|].
      apply reads_plain_literal; try done. intros rest. by apply Hg.
    + destruct (encode_literal out _ 6 0x40 hdr) as [b rc] eqn:Hlit.
      destruct (Z.eqb_spec rc 0) as [->|]; [|done]. cbn [negb] in H.
      destruct (encode_literal_ok _ _ 6 0x40 _ _ Hwf ltac:(lia) Hu ltac:(done) ltac:(lia)
        (conj Hn Hv) Hlit) as (first & tail & Hd & Hwf' & Hmax & Hf & Hg).
      destruct (dyn_table_add (h_encoder he) _ _) as [encoder rc] eqn:Hadd.
      injection H as <- <- Hrc. destruct (Z.eqb_spec rc 0) as [->|]; [|done].
      pose proof (dyn_table_add_cases (h_encoder he) _ _ (wf_encoder _ Hwe) Hn Hv) as He.
      rewrite Hadd in He. destruct He as (Hwe' & He1 & He2 & _).
      split_and!; try done.
      * destruct Hwe. split; cbn; rewrite ?He1, ?He2; auto.
      * exists (0x40 + first :: tail). split; [done|].
        apply reads_indexing_literal; try done. intros rest. by apply Hg.
  - destruct (full_index_spec he hdr hd (wf_encoder _ Hwe) Heq Hfull) as [Hu Ht].
    destruct (put_flagged_int out _ 7 0x80) as [b rc] eqn:Hput. injection H as -> -> ->.
    destruct (put_flagged_int_ok _ _ 7 0x80 _ Hwf ltac:(lia) Hu ltac:(done) ltac:(lia) Hput)
      as (first & tail & Hd & Hwf' & Hmax & Hf & Hg).
    split_and!; try done. exists (0x80 + first :: tail). split; [done|].
    apply reads_indexed; try done. intros rest. eauto.
Qed.

(** ** A whole block *)

(** The fields that fit [max], in order, and whether one did not. *)
Fixpoint delivered (used : Z) (hdrs : list chttp_h2_hpack_header) :
    list chttp_h2_hpack_header * bool :=
  match hdrs with
  | [] => ([], false)
  | hdr :: hdrs =>
    let used := used + zlen (hd_name hdr) + zlen (hd_value hdr) + 32 in
    if (max =? 0) || (used <=? max) then
      let '(got, large) := delivered used hdrs in (hdr :: got, large)
    else ([], true)
  end.

Definition deliver_all (s : dec_state _) (hdrs : list chttp_h2_hpack_header) : dec_state _ :=
  fold_left (fun s hdr => (deliver s (hd_name hdr) (hd_value hdr)).1) hdrs s.

Lemma deliver_all_too_large hdrs s : ds_too_large s = true -> deliver_all s hdrs = s.
Proof.
  intros Ht. induction hdrs as [|hdr hdrs IH]; [done|].
  unfold deliver_all in *. cbn [fold_left]. unfold decode_deliver at 2. rewrite Ht.
  cbn. rewrite Ht. done.
Qed.

Lemma deliver_one s hdr :
  zlen (hd_name hdr) + zlen (hd_value hdr) + 32 <= SIZE_MAX ->
  ds_too_large s = false -> (max <> 0 -> ds_list_bytes s <= max) ->
  let used := ds_list_bytes s + zlen (hd_name hdr) + zlen (hd_value hdr) + 32 in
  (deliver s (hd_name hdr) (hd_value hdr)).1 =
  if max =? 0 then s <| ds_user := ds_user s ++ [hdr] |>
  else if used <=? max then s <| ds_list_bytes := used |> <| ds_user := ds_user s ++ [hdr] |>
  else s <| ds_too_large := true |>.
Proof.
  intros Hsz Ht Hle. unfold decode_deliver, hpack_add_header_list_size, record_cb.
  pose proof (zlen_nonneg (hd_name hdr)). pose proof (zlen_nonneg (hd_value hdr)).
  destruct s as [h u lb tl], hdr as [n v]; cbn in *. subst tl. cbn.
  destruct (Z.eqb_spec max 0) as [Hm|Hm]; [done|]. specialize (Hle Hm).
  replace ((SIZE_MAX - zlen v <? zlen n) || (SIZE_MAX - 32 <? zlen n + zlen v)) with false by lia.
  destruct (Z.leb_spec (lb + zlen n + zlen v + 32) max).
  - replace ((max <? lb) || (max - lb <? zlen n + zlen v + 32)) with false by lia.
    cbn. by rewrite !Z.add_assoc.
  - replace ((max <? lb) || (max - lb <? zlen n + zlen v + 32)) with true by lia. done.
Qed.

Lemma delivered_unlimited hdrs u v : max = 0 -> delivered u hdrs = delivered v hdrs.
Proof.
  intros Hm. revert u v. induction hdrs as [|x l IHl]; intros; cbn; [done|]. rewrite Hm. cbn.
  by rewrite (IHl _ (v + zlen (hd_name x) + zlen (hd_value x) + 32)).
Qed.

Lemma deliver_all_spec hdrs s :
  Forall (fun hdr => zlen (hd_name hdr) + zlen (hd_value hdr) + 32 <= SIZE_MAX) hdrs ->
  ds_too_large s = false -> (max <> 0 -> ds_list_bytes s <= max) ->
  ds_user (deliver_all s hdrs) = ds_user s ++ (delivered (ds_list_bytes s) hdrs).1 /\
  ds_too_large (deliver_all s hdrs) = (delivered (ds_list_bytes s) hdrs).2.
Proof.
  intros Hf. revert s. induction Hf as [|hdr hdrs Hsz Hf IH]; intros s Ht Hle.
  { cbn. by rewrite app_nil_r. }
  change (deliver_all s (hdr :: hdrs))
    with (deliver_all (deliver s (hd_name hdr) (hd_value hdr)).1 hdrs).
  rewrite deliver_one by done. cbn [delivered].
  destruct (Z.eqb_spec max 0) as [Hm|Hm]; cbn [orb].
  - rewrite (delivered_unlimited hdrs _ (ds_list_bytes s)) by done.
    edestruct IH as [H1 H2]; [| |rewrite H1, H2]; [done|done|]. cbn.
    destruct (delivered _ hdrs). cbn. by rewrite <- app_assoc.
  - destruct (Z.leb_spec (ds_list_bytes s + zlen (hd_name hdr) + zlen (hd_value hdr) + 32) max).
    + edestruct IH as [H1 H2]; [| |rewrite H1, H2]; [done|cbn; lia|]. cbn.
      destruct (delivered _ hdrs). cbn. by rewrite <- app_assoc.
    + rewrite deliver_all_too_large by done. cbn. by rewrite app_nil_r.
Qed.

Lemma deliver_all_h hdrs s h :
  deliver_all (s <| ds_h := h |>) hdrs = (deliver_all s hdrs) <| ds_h := h |>.
Proof.
  revert s. induction hdrs as [|hdr hdrs IH]; intros s; [done|].
  unfold deliver_all in *. cbn [fold_left]. rewrite <- IH. f_equal.
  unfold decode_deliver. destruct s as [h0 u lb tl]; cbn. destruct tl; cbn; [done|].
  destruct (hpack_add_header_list_size _ _ _ _); done.
Qed.

Lemma encode_headers_ok hdrs : forall he out he' out' hd,
  hpack_wf he -> hpack_wf hd -> synced he hd ->
  h_encoder_size_update_pending he = false ->
  h_max_dynamic_table_bytes he <= h_max_dynamic_table_bytes hd ->
  Forall (header_fits hd) hdrs -> buf_wf out ->
  encode_headers he out hdrs = (he', out', 0) ->
  hpack_wf he' /\ buf_wf out' /\
  exists bs hd', buf_data out' = buf_data out ++ bs /\
    hpack_wf hd' /\ same_limits hd hd' /\ synced he' hd' /\
    forall s fuel, ds_h s = hd -> (length bs <= fuel)%nat ->
      decode_loop (Some record_cb) max fuel s bs =
      (let s' := (deliver_all s hdrs) <| ds_h := hd' |> in
       Some (s', if ds_too_large s' then -2 else 0)).
Proof.
  induction hdrs as [|hdr hdrs IH]; intros he out he' out' hd Hwe Hwd Hs Hp Hdyn Hf Hwf H.
  { cbn in H. injection H as <- <-. split_and!; [done|done|]. exists [], hd.
    rewrite app_nil_r. split_and!; try done.
    intros s fuel Hh _. destruct fuel, s; cbn in *; by subst. }
  inversion Hf as [|? ? Hfh Hft]; subst. cbn [encode_headers] in H.
  destruct (encode_header he out hdr) as [[he1 out1] rc] eqn:H1.
  destruct (Z.eqb_spec rc 0) as [->|]; [|done]. cbn [negb] in H.
  destruct (encode_header_ok _ _ _ _ _ _ Hwe Hwd Hs Hp Hdyn Hfh Hwf H1)
    as (Hwe1 & Hp1 & Hdyn1 & Hwf1 & Hmax1 & bs1 & Hd1 & hd1 & b & tail & -> & Hwd1 & Hl1 & Hs1 & Hr).
  destruct Hl1 as (Hl11 & Hl12 & Hl13 & Hl14).
  destruct (IH he1 out1 he' out' hd1) as (Hwe2 & Hwf2 & bs2 & hd2 & Hd2 & Hwd2 & Hl2 & Hs2 & Hr2);
    [done|done|done|done|congruence| |done|done|].
  { eapply Forall_impl; [exact Hft|]. unfold header_fits. by rewrite Hl11. }
  split_and!; [done|done|]. exists ((b :: tail) ++ bs2), hd2.
  split_and!; [by rewrite Hd2, Hd1, <- app_assoc|done| |done|].
  { destruct Hl2 as (? & ? & ? & ?). repeat split; congruence. }
  intros s fuel Hh Hfuel. rewrite length_app in Hfuel. cbn in Hfuel.
  destruct fuel as [|fuel]; [lia|]. cbn [decode_loop app].
  rewrite app_comm_cons, Hr by done. rewrite Hr2 by (done || lia).
  rewrite deliver_all_h. done.
Qed.

(** ** Table size updates at the start of a block *)

(** The decoder reads [bs] without delivering anything and moves to [hd']. *)
Definition reads_silently (hd hd' : chttp_h2_hpack) (bs : list Z) : Prop :=
  forall s rest fuel, ds_h s = hd -> (length (bs ++ rest) <= fuel)%nat ->
  exists fuel', (length rest <= fuel')%nat /\
    decode_loop (Some record_cb) max fuel s (bs ++ rest) =
    decode_loop (Some record_cb) max fuel' (s <| ds_h := hd' |>) rest.

Lemma reads_silently_nil hd : reads_silently hd hd [].
Proof. intros s rest fuel Hh Hf. exists fuel. split; [done|]. destruct s; cbn in *; by subst. Qed.

Lemma reads_silently_app hd1 hd2 hd3 bs1 bs2 :
  reads_silently hd1 hd2 bs1 -> reads_silently hd2 hd3 bs2 -> reads_silently hd1 hd3 (bs1 ++ bs2).
Proof.
  intros H1 H2 s rest fuel Hh Hf. rewrite <- app_assoc in *.
  destruct (H1 s (bs2 ++ rest) fuel Hh Hf) as (f1 & Hf1 & ->).
  destruct (H2 (s <| ds_h := hd2 |>) rest f1 ltac:(by destruct s) Hf1) as (f2 & Hf2 & ->). by exists f2.
Qed.

Lemma size_update_ok out v out' hd :
  buf_wf out -> hpack_wf hd -> 0 <= v <= h_decoder_max_size hd ->
  hpack_put_table_size_update out v = (out', 0) ->
  buf_wf out' /\ exists bs hd', buf_data out' = buf_data out ++ bs /\ hpack_wf hd' /\
    same_limits hd hd' /\ reads_silently hd hd' bs /\ dt_max_size (h_decoder hd') = v /\
    dt_entries (h_decoder hd') = table_fit v (dt_entries (h_decoder hd)).
Proof.
  intros Hwf Hwd Hv H. unfold hpack_put_table_size_update in H.
  assert (is_u32 v) as Hu by (pose proof (wf_decoder_limit _ Hwd); pose proof (wf_dynamic _ Hwd);
    unfold UINT32_MAX, is_u32 in *; lia).
  rewrite u32_id in H by done.
  destruct (put_flagged_int_ok _ _ 5 0x20 _ Hwf ltac:(lia) Hu ltac:(done) ltac:(lia) H)
    as (first & tail & Hd & Hwf' & _ & Hf & Hg).
  split; [done|]. exists ((0x20 + first) :: tail).
  pose proof (decoder_table_size_update_wf hd v Hwd ltac:(lia)) as Hwd'.
  assert (dt_wf (h_decoder hd)) as Hdt by apply Hwd.
  destruct (dt_wf_resize (h_decoder hd) v Hdt) as (_ & He & Hmx & _);
    [pose proof (wf_decoder_limit _ Hwd); pose proof (wf_dynamic _ Hwd); lia|].
  assert ((h_decoder_max_size hd <? v) = false) as Hlt by lia.
  exists (chttp_h2_hpack_decoder_table_size_update hd v).1.
  unfold chttp_h2_hpack_decoder_table_size_update in *. rewrite Hlt in *. cbn [fst].
  split_and!; [done|done|by repeat split| |done|done].
  intros s rest fuel Hh Hfuel. cbn in Hfuel. rewrite length_app in Hfuel.
  destruct fuel as [|fuel]; [lia|]. exists fuel. split; [lia|].
  cbn [app decode_loop]. unfold decode_field.
  rewrite land_0x80, land_0x40, land_0x20 by zlia.
  replace (0x20 + first <? 128) with true by lia. replace (0x20 + first <? 64) with true by lia.
  replace (0x20 + first <? 32) with false by lia. cbn [negb].
  rewrite Hg. unfold chttp_h2_hpack_decoder_table_size_update. rewrite Hh, Hlt. done.
Qed.

Lemma same_limits_trans h1 h2 h3 : same_limits h1 h2 -> same_limits h2 h3 -> same_limits h1 h3.
Proof. intros (? & ? & ? & ?) (? & ? & ? & ?). repeat split; congruence. Qed.

Lemma encode_pending_ok he out he' out' hd :
  hpack_wf he -> hpack_wf hd -> synced he hd -> buf_wf out ->
  encode_pending he out = (he', out', 0) ->
  hpack_wf he' /\ buf_wf out' /\ h_encoder_size_update_pending he' = false /\
  h_max_dynamic_table_bytes he' = h_max_dynamic_table_bytes he /\
  exists bs hd', buf_data out' = buf_data out ++ bs /\
    hpack_wf hd' /\ same_limits hd hd' /\ synced he' hd' /\ reads_silently hd hd' bs.
Proof.
  intros Hwe Hwd Hs Hwf H. unfold encode_pending in H.
  destruct (h_encoder_size_update_pending he) eqn:Hp; cycle 1.
  { injection H as <- <-. split_and!; try done. exists [], hd. rewrite app_nil_r.
    split_and!; try done. apply reads_silently_nil. }
  destruct (wf_pending _ Hwe Hp) as [Hfin Hmin].
  destruct Hs as [Hle Hs]. rewrite Hp in Hs.
  assert (hpack_wf (he <| h_encoder_size_update_pending := false |>)) as Hwe'
    by (destruct Hwe; by split).
  destruct (hpack_put_table_size_update out _) as [out1 rc1] eqn:H1.
  destruct (Z.eqb_spec rc1 0) as [->|]; [|done]. cbn [negb] in H.
  destruct (size_update_ok _ (h_encoder_pending_min_size he) _ hd Hwf Hwd ltac:(lia) H1)
    as (Hwf1 & bs1 & hd1 & Hd1 & Hwd1 & Hl1 & Hr1 & Hm1 & He1).
  destruct (Z.eqb_spec (h_encoder_pending_final_size he) (h_encoder_pending_min_size he))
    as [Heq|Hne]; cbn [negb] in H.
  - injection H as <- <-. split_and!; try done. exists bs1, hd1. split_and!; try done.
    split; cbn; [|split; congruence]. destruct Hl1 as (_ & -> & _). lia.
  - destruct (hpack_put_table_size_update out1 _) as [out2 rc2] eqn:H2.
    destruct (Z.eqb_spec rc2 0) as [->|]; [|done]. cbn [negb] in H. injection H as <- <-.
    assert (h_decoder_max_size hd1 = h_decoder_max_size hd) as Hdm by apply Hl1.
    destruct (size_update_ok _ (h_encoder_pending_final_size he) _ hd1 Hwf1 Hwd1 ltac:(lia) H2)
      as (Hwf2 & bs2 & hd2 & Hd2 & Hwd2 & Hl2 & Hr2 & Hm2 & He2).
    split_and!; try done. exists (bs1 ++ bs2), hd2.
    split_and!; [by rewrite Hd2, Hd1, <- app_assoc|done|by eapply same_limits_trans| |
      by eapply reads_silently_app].
    assert (dt_wf (h_encoder he)) as (Hok & Hsz & Hszm & _) by apply Hwe.
    split; cbn; [destruct Hl2 as (_ & -> & _); lia|]. split; [|congruence].
    rewrite He2, He1, <- Hs, Hfin. symmetry. apply table_fit_all; [done|lia].
Qed.

(** ** The two ends of a connection *)

(** What the encoder writes, the decoder reads. *)
Lemma hpack_encode_decode he hd out hdrs he' out' :
  hpack_wf he -> hpack_wf hd -> synced he hd ->
  h_max_dynamic_table_bytes he <= h_max_dynamic_table_bytes hd ->
  Forall (header_fits hd) hdrs -> buf_wf out -> buf_data out = [] -> 0 <= max ->
  chttp_h2_hpack_encode he out hdrs = (he', out', 0) ->
  zlen (buf_data out') <= h_max_header_block_bytes hd ->
  exists hd',
    chttp_h2_hpack_decode (Some record_cb) max hd [] (buf_data out') =
      Some (hd', (delivered 0 hdrs).1, if (delivered 0 hdrs).2 then -2 else 0,
            zlen (buf_data out')) /\
    hpack_wf he' /\ hpack_wf hd' /\ same_limits hd hd' /\ synced he' hd'.
Proof.
  intros Hwe Hwd Hs Hdyn Hf Hwf Hnil Hmax H Hlen. unfold chttp_h2_hpack_encode in H.
  split_if_in H; [done|]. destruct (encode_pending he out) as [[he1 out1] rc] eqn:H1.
  destruct (Z.eqb_spec rc 0) as [->|]; [|done]. cbn [negb] in H.
  destruct (encode_pending_ok _ _ _ _ _ Hwe Hwd Hs Hwf H1)
    as (Hwe1 & Hwf1 & Hp1 & Hdyn1 & bs1 & hd1 & Hd1 & Hwd1 & Hl1 & Hs1 & Hr1).
  assert (Forall (header_fits hd1) hdrs) as Hf1.
  { eapply Forall_impl; [exact Hf|]. unfold header_fits. by destruct Hl1 as (-> & _). }
  destruct (encode_headers_ok hdrs he1 out1 he' out' hd1 Hwe1 Hwd1 Hs1 Hp1) as
    (Hwe2 & Hwf2 & bs2 & hd2 & Hd2 & Hwd2 & Hl2 & Hs2 & Hr2);
    [destruct Hl1 as (_ & _ & _ & ->); lia|done|done|done|].
  exists hd2. split; [|split_and!; [done|done|by eapply same_limits_trans|done]].
  rewrite Hd1, Hnil in Hd2. cbn [app] in Hd2.
  unfold chttp_h2_hpack_decode. split_if; [lia|].
  set (s0 := {| ds_h := hd; ds_user := []; ds_list_bytes := 0; ds_too_large := false |}).
  destruct (Hr1 s0 bs2 (length (buf_data out')) eq_refl) as (f & Hfu & Hrun); [by rewrite Hd2|].
  rewrite Hd2 in *. rewrite Hrun, Hr2 by done.
  rewrite deliver_all_h. destruct (deliver_all_spec hdrs s0) as [Hu Ht];
    [|done|cbn; lia|].
  { eapply Forall_impl; [exact Hf|]. by intros x (_ & _ & _ & ?). }
  cbn in Hu, Ht. cbn. rewrite Hu, Ht. by destruct (delivered 0 hdrs).2.
Qed.

(** C3: Decoding what the HPACK encoder produced, with a decoder whose dynamic
    table is in step, delivers the same header fields in the same order up to the
    header-list limit (and reports -2 exactly when the limit cut them), consumes
    the whole block, and leaves encoder and decoder well formed and in step for
    the next block. *)
Theorem hpack_roundtrip he hd out hdrs he' out' :
  hpack_wf he -> hpack_wf hd -> synced he hd ->
  h_max_dynamic_table_bytes he <= h_max_dynamic_table_bytes hd ->
  Forall (header_fits hd) hdrs -> buf_wf out -> buf_data out = [] -> 0 <= max ->
  chttp_h2_hpack_encode he out hdrs = (he', out', 0) ->
  zlen (buf_data out') <= h_max_header_block_bytes hd ->
  exists hd',
    chttp_h2_hpack_decode (Some record_cb) max hd [] (buf_data out') =
      Some (hd', (delivered 0 hdrs).1, if (delivered 0 hdrs).2 then -2 else 0,
            zlen (buf_data out')) /\
    hpack_wf he' /\ hpack_wf hd' /\ same_limits hd hd' /\ synced he' hd'.
Proof. apply hpack_encode_decode. Qed.

End Headers.

(** ** Every block is decoded, whatever its bytes and the callback *)

Lemma get_int_loop_rest input : forall value shift v rest,
  get_int_loop input value shift = Some (v, rest) ->
  0 <= v /\ exists used, input = used ++ rest /\ used <> [].
Proof.
  induction input as [|b input IH]; intros value shift v rest H; cbn in H; [done|].
  split_if_in H; [done|]. split_if_in H.
  - injection H as <- <-. split; [apply Z.mod_pos_bound; lia|]. by exists [b].
  - destruct (IH _ _ _ _ H) as (Hv & used & -> & _). split; [done|]. by exists (b :: used).
Qed.

Lemma get_int_rest input prefix v rest :
  hpack_get_int input prefix = Some (v, rest) ->
  0 <= v /\ exists used, input = used ++ rest /\ used <> [].
Proof.
  unfold hpack_get_int. split_if; [done|]. destruct input as [|b input]; [done|].
  destruct (_ <? _).
  - intros [= <- <-]. split; [|by exists [b]].
    rewrite Z.shiftl_1_l, land_mask by lia. apply Z.mod_pos_bound. lia.
  - intros Hl. destruct (get_int_loop_rest _ _ _ _ _ Hl) as (Hv & used & -> & _).
    split; [done|]. by exists (b :: used).
Qed.

Section Total.
Context {alloc : Allocator} {U : Type} (cb : option (U -> list Z -> list Z -> U * Z)) (max : Z).

Lemma huff_run_bytes nodes m bits : forall st st',
  huff_run nodes m st bits = Some st' -> is_bytes (hs_out st) -> is_bytes (hs_out st').
Proof.
  induction bits as [|b bits IH]; intros st st' H Hb; cbn in H; [by injection H as <-|].
  destruct (huff_step nodes m st b) as [st1|] eqn:H1; [|done].
  apply (IH _ _ H). unfold huff_step in H1.
  repeat (split_if_in H1; try done); [|by injection H1 as <-].
  destruct (huff_reserve _ _ _); [|done]. injection H1 as <-. cbn. bytes_solve.
Qed.

Lemma huff_decode_bytes nodes m input s : hpack_huff_decode nodes m input = Some s -> is_bytes s.
Proof.
  unfold hpack_huff_decode. intros H. repeat (split_if_in H; try done);
  (destruct (huff_run _ _ _ _) as [st|] eqn:Hr; [|done]);
  repeat (split_if_in H; try done); injection H as <-; eapply huff_run_bytes; eauto; constructor.
Qed.

(** A string read from the wire: its bytes are bytes and the input shrinks. *)
Lemma get_string_rest h input s rest :
  is_bytes input -> hpack_get_string h input = Some (s, rest) ->
  is_bytes s /\ exists used, input = used ++ rest /\ used <> [].
Proof.
  intros Hb. unfold hpack_get_string. destruct input as [|b input]; [done|].
  destruct (hpack_get_int (b :: input) 7) as [[len inp]|] eqn:Hi; [|done].
  destruct (get_int_rest _ _ _ _ Hi) as (Hlen & used & Hu & Hne). rewrite Hu in Hb |- *.
  assert (is_bytes (ztake len inp)) as Hbt by (bytes_inv; bytes_solve).
  intros H. split_if_in H; [done|]. split_if_in H; [done|].
  assert (exists u, used ++ inp = u ++ zdrop len inp /\ u <> []) as Hex.
  { exists (used ++ ztake len inp). rewrite <- app_assoc. unfold ztake, zdrop.
    rewrite take_drop. split; [done|]. by destruct used. }
  split_if_in H; [|by injection H as <- <-].
  destruct (hpack_huff_decode _ _ _) as [x|] eqn:Hx; [|done]. injection H as <- <-.
  split; [by eapply huff_decode_bytes|done].
Qed.


Lemma table_get_bytes h index name value :
  hpack_wf h -> table_get h index = Some (name, value) -> is_bytes name /\ is_bytes value.
Proof.
  intros Hwf. unfold table_get. split_if; [done|]. destruct (index <=? 61).
  - destruct (s_hpack_static !! _) as [e|] eqn:He; [|done]. intros [= <- <-].
    assert (Forall (fun e => is_bytes (st_name e) /\ is_bytes (st_value e)) s_hpack_static)
      as Hall by (repeat (constructor; [by split; apply bytes_of_bytes|]); constructor).
    by apply (Forall_lookup_1 _ _ _ _ Hall He).
  - destruct (_ <=? _); [done|]. destruct (dt_entries _ !! _) as [e|] eqn:He; [|done].
    intros [= <- <-]. destruct (wf_decoder _ Hwf) as [Hall _].
    by destruct (Forall_lookup_1 _ _ _ _ Hall He) as (_ & ? & ?).
Qed.

Lemma decode_literal_rest h input prefix name value rest :
  hpack_wf h -> is_bytes input -> decode_literal h input prefix = Some (name, value, rest) ->
  is_bytes name /\ is_bytes value /\ exists used, input = used ++ rest /\ used <> [].
Proof.
  intros Hwf Hb. unfold decode_literal.
  destruct (hpack_get_int input prefix) as [[index inp]|] eqn:Hi; [|done].
  destruct (get_int_rest _ _ _ _ Hi) as (_ & u1 & -> & Hne).
  assert (is_bytes inp) as Hb1 by (bytes_inv; bytes_solve).
  destruct (if index =? 0 then _ else _) as [[n inp2]|] eqn:Hn; [|done].
  destruct (hpack_get_string h inp2) as [[v inp3]|] eqn:Hv; [|done]. intros [= <- <- <-].
  assert (is_bytes n /\ exists u2, inp = u2 ++ inp2) as (Hbn & u2 & ->).
  { destruct (index =? 0).
    - destruct (get_string_rest _ _ _ _ Hb1 Hn) as (? & u2 & ? & _). eauto.
    - destruct (table_get h index) as [[n' v']|] eqn:Ht; [|done]. injection Hn as <- <-.
      destruct (table_get_bytes _ _ _ _ Hwf Ht). split; [done|]. by exists []. }
  assert (is_bytes inp2) as Hb2 by (bytes_inv; bytes_solve).
  destruct (get_string_rest _ _ _ _ Hb2 Hv) as (Hbv & u3 & -> & _).
  split_and!; [done|done|]. exists (u1 ++ u2 ++ u3). rewrite <- !app_assoc. split; [done|].
  by destruct u1.
Qed.

(** What decoding may change of a context: the decoder's table. *)
Definition decoder_only (h h' : chttp_h2_hpack) : Prop := h' = h <| h_decoder := h_decoder h' |>.

Lemma deliver_h s name value : ds_h (decode_deliver cb max s name value).1 = ds_h s.
Proof.
  unfold decode_deliver. destruct (ds_too_large s) eqn:Ht; [by rewrite Ht|].
  destruct (hpack_add_header_list_size _ _ _ _); cbn; [rewrite Ht|done].
  destruct cb as [f|]; [|done]. by destruct (f _ _ _).
Qed.

Lemma decode_field_ok s b input :
  is_bytes (b :: input) -> hpack_wf (ds_h s) ->
  match decode_field cb max s b (b :: input) with
  | DecStop s' rc => hpack_wf (ds_h s') /\ decoder_only (ds_h s) (ds_h s') /\ (rc = -1 \/ rc = -3)
  | DecMore s' rest =>
    hpack_wf (ds_h s') /\ decoder_only (ds_h s) (ds_h s') /\
    exists used, b :: input = used ++ rest /\ used <> []
  end.
Proof.
  intros Hb Hwf. unfold decode_field.
  assert (decoder_only (ds_h s) (ds_h s)) as Hsame by (by destruct (ds_h s)).
  destruct (negb (Z.land b 0x80 =? 0)).
  { destruct (hpack_get_int (b :: input) 7) as [[index inp]|] eqn:Hi; [|by auto].
    destruct (get_int_rest _ _ _ _ Hi) as (_ & used).
    destruct (table_get _ _) as [[name value]|]; [|by auto].
    pose proof (deliver_h s name value) as Hh.
    destruct (decode_deliver _ _ _ _ _) as [s1 []]; cbn in Hh; rewrite Hh; auto. }
  destruct (negb (Z.land b 0x40 =? 0)).
  { destruct (decode_literal _ _ _) as [[[name value] rest]|] eqn:Hl; [|by auto].
    destruct (decode_literal_rest _ _ _ _ _ _ Hwf Hb Hl) as (Hn & Hv & used).
    pose proof (deliver_h s name value) as Hh.
    destruct (decode_deliver _ _ _ _ _) as [s1 []]; cbn in Hh; rewrite Hh; [by auto|].
    pose proof (dyn_table_add_cases (h_decoder (ds_h s)) _ _ (wf_decoder _ Hwf) Hn Hv) as Hc.
    destruct (dyn_table_add _ _ _) as [decoder rc].
    destruct Hc as (Hwf' & Hc1 & Hc2 & _).
    assert (hpack_wf ((ds_h s) <| h_decoder := decoder |>)) as Hwf1
      by (destruct Hwf; split; cbn; rewrite ?Hc1, ?Hc2; auto).
    destruct (negb (rc =? 0)); (split; [exact Hwf1|]); (split; [done|]); by auto. }
  destruct (negb (Z.land b 0x20 =? 0)).
  { destruct (hpack_get_int (b :: input) 5) as [[index inp]|] eqn:Hi; [|by auto].
    destruct (get_int_rest _ _ _ _ Hi) as (Hge & used).
    pose proof (decoder_table_size_update_wf (ds_h s) index Hwf Hge) as Hwf'.
    unfold chttp_h2_hpack_decoder_table_size_update in *.
    split_if; cbn [negb Z.eqb fst] in *; (split; [exact Hwf'|]); (split; [done|]); by auto. }
  destruct (decode_literal _ _ _) as [[[name value] rest]|] eqn:Hl; [|by auto].
  destruct (decode_literal_rest _ _ _ _ _ _ Hwf Hb Hl) as (_ & _ & used).
  pose proof (deliver_h s name value) as Hh.
  destruct (decode_deliver _ _ _ _ _) as [s1 []]; cbn in Hh; rewrite Hh; auto.
Qed.

Lemma decode_loop_ok fuel : forall s input,
  is_bytes input -> hpack_wf (ds_h s) -> (length input <= fuel)%nat ->
  exists s' rc, decode_loop cb max fuel s input = Some (s', rc) /\
    hpack_wf (ds_h s') /\ decoder_only (ds_h s) (ds_h s') /\ -3 <= rc <= 0.
Proof.
  induction fuel as [|fuel IH]; intros s [|b input] Hb Hwf Hf; try (cbn in Hf; lia);
    try (eexists _, _; split; [done|]; split_and!; [done|by destruct (ds_h s)| |];
         destruct (ds_too_large s); lia).
  cbn [decode_loop]. pose proof (decode_field_ok s b input Hb Hwf) as Hd.
  destruct (decode_field cb max s b (b :: input)) as [s1 rc|s1 rest].
  { destruct Hd as (? & ? & Hrc). eexists _, _. split; [done|]. split_and!; auto; lia. }
  destruct Hd as (Hwf1 & Ho1 & used & Hu & Hne).
  assert (length rest <= fuel)%nat as Hl.
  { apply (f_equal length) in Hu. rewrite length_app in Hu. destruct used; cbn in *; [done|lia]. }
  rewrite Hu in Hb. destruct (IH s1 rest ltac:(bytes_inv; bytes_solve) Hwf1 Hl)
    as (s2 & rc & Hr & Hwf2 & Ho2 & Hrc).
  exists s2, rc. split_and!; try done; try lia. unfold decoder_only in *. rewrite Ho2, Ho1. done.
Qed.

Lemma hpack_decode_ok h user input :
  hpack_wf h -> is_bytes input ->
  exists h' user' rc consumed,
    chttp_h2_hpack_decode cb max h user input = Some (h', user', rc, consumed) /\
    hpack_wf h' /\ decoder_only h h' /\ -3 <= rc <= 0 /\
    consumed = if (rc =? 0) || (rc =? -2) then zlen input else 0.
Proof.
  intros Hwf Hb. unfold chttp_h2_hpack_decode.
  destruct (_ <? _). { eexists _, _, _, _. split_and!; [done|done|by destruct h|lia|lia|done]. }
  set (s0 := {| ds_h := h; ds_user := user; ds_list_bytes := 0; ds_too_large := false |}).
  destruct (decode_loop_ok (length input) s0 input Hb Hwf ltac:(done))
    as (s' & rc & -> & Hwf' & Ho & Hrc).
  eexists _, _, _, _. split; [done|]. split_and!; try done; lia.
Qed.

(** C39: Decoding any bytes terminates with one of the return codes 0, -1, -2, -3,
    keeps the decoder well formed, touches nothing but the decoder, and reports
    the whole input consumed exactly on 0 and -2. *)
Theorem hpack_decode_total h user input :
  hpack_wf h -> is_bytes input ->
  exists h' user' rc consumed,
    chttp_h2_hpack_decode cb max h user input = Some (h', user', rc, consumed) /\
    hpack_wf h' /\ decoder_only h h' /\ -3 <= rc <= 0 /\
    consumed = if (rc =? 0) || (rc =? -2) then zlen input else 0.
Proof. apply hpack_decode_ok. Qed.

End Total.

(** The Huffman form of [hpack_put_string] flags the byte after the length, so
    that the result does not decode to the string. *)
Theorem put_string_huffman_misflagged h :
  0 < h_max_string_bytes h ->
  exists b, hpack_put_string (alloc := unlimited_allocator)
              {| buf_data := []; buf_capacity := 64; buf_max_capacity := 64 |} [97] true = (b, 0) /\
    hpack_get_string (alloc := unlimited_allocator) h (buf_data b) = Some ([0x9f], []).
Proof.
  intros Hm. eexists. split; [vm_compute; reflexivity|].
  cbn -[hpack_get_string]. unfold hpack_get_string. cbn [Z.land Z.eqb negb].
  change (hpack_get_int [1; 159] 7) with (Some (1, [159])). cbv iota beta.
  change (zlen [159] <? 1) with false. destruct (Z.ltb_spec (h_max_string_bytes h) 1); [lia|done].
Qed.

(** ** Examples *)

(** A context as the engine creates it, and two header fields, the second of
    which enters the dynamic table. *)
Definition example_hpack : option chttp_h2_hpack :=
  chttp_h2_hpack_create (alloc := unlimited_allocator)
    {| hc_max_dynamic_table_bytes := 4096; hc_max_header_block_bytes := 65536;
       hc_max_string_bytes := 16384 |}.

Definition example_headers : list chttp_h2_hpack_header :=
  [{| hd_name := bytes_of ":method"; hd_value := bytes_of "GET" |};
   {| hd_name := bytes_of "x"; hd_value := bytes_of "y" |}].

Definition example_out : chttp_h2_hpack_buffer :=
  {| buf_data := []; buf_capacity := 64; buf_max_capacity := 64 |}.

Lemma example_hpack_wf h : example_hpack = Some h -> hpack_wf h /\ synced h h.
Proof. by apply hpack_create_wf. Qed.

Lemma example_limits h :
  example_hpack = Some h -> h_max_string_bytes h = 16384 /\ h_max_header_block_bytes h = 65536.
Proof.
  intros E. split; [apply (fmap_value h_max_string_bytes _ _ _ E)|
    apply (fmap_value h_max_header_block_bytes _ _ _ E)]; vm_compute; reflexivity.
Qed.

Lemma hpack_roundtrip_witness :
  exists h he' out',
    example_hpack = Some h /\
    chttp_h2_hpack_encode (alloc := unlimited_allocator) h example_out example_headers = (he', out', 0) /\
    exists hd',
    chttp_h2_hpack_decode (alloc := unlimited_allocator) (Some record_cb) 0 h [] (buf_data out') =
      Some (hd', example_headers, 0, zlen (buf_data out')) /\
    hpack_wf he' /\ hpack_wf hd' /\ same_limits h hd' /\ synced he' hd'.
Proof.
  destruct example_hpack as [h|] eqn:E; [|vm_compute in E; discriminate].
  destruct (example_hpack_wf h E) as [W S]. destruct (example_limits h E) as [L1 L2].
  destruct (chttp_h2_hpack_encode (alloc := unlimited_allocator) h example_out example_headers)
    as [[he' out'] rc] eqn:Ee.
  pose proof (fmap_value (fun h => let '(_, b, rc) := chttp_h2_hpack_encode
    (alloc := unlimited_allocator) h example_out example_headers in (zlen (buf_data b), rc))
    _ _ (6, 0) E ltac:(vm_compute; reflexivity)) as Hr.
  cbv beta in Hr. rewrite Ee in Hr.
  injection Hr as Hz ->. exists h, he', out'. split; [reflexivity|]. split; [exact Ee|].
  clear E. assert (Forall (header_fits h) example_headers) as Hf.
  { repeat (apply Forall_cons_2 || apply Forall_nil_2); unfold header_fits; rewrite L1;
      vm_compute; repeat constructor; discriminate. }
  apply (hpack_roundtrip (alloc := unlimited_allocator) ltac:(reflexivity) 0 h h example_out
    example_headers he' out' W W S ltac:(lia) Hf ltac:(by repeat constructor) eq_refl ltac:(lia) Ee).
  rewrite Hz, L2. lia.
Defined.

Lemma hpack_decode_total_witness :
  exists h h' user' rc consumed,
    example_hpack = Some h /\
    chttp_h2_hpack_decode (alloc := unlimited_allocator) (Some record_cb) 100 h [] [0x82; 0xff] =
      Some (h', user', rc, consumed) /\
    hpack_wf h' /\ decoder_only h h' /\ -3 <= rc <= 0 /\
    consumed = if (rc =? 0) || (rc =? -2) then zlen [0x82; 0xff] else 0.
Proof.
  destruct example_hpack as [h|] eqn:E; [|vm_compute in E; discriminate].
  exists h.
  destruct (hpack_decode_total (alloc := unlimited_allocator) (Some record_cb) 100 h [] [0x82; 0xff]
    (proj1 (example_hpack_wf h E)) ltac:(by repeat constructor)) as (h' & u & rc & c & H).
  exists h', u, rc, c. split; [reflexivity|exact H].
Defined.

End HpackSync.
