(* ===== verification/HpackBound.v ===== *)
(** * HPACK: how long a header block can get

    The engine reserves output room from a bound it computes before it encodes
    ([proto_header_bounds] of [chttp_h2_proto.c]), and it keeps the encoder's
    dynamic table at size 0.  Here: for such an encoder, the bytes each piece
    of the encoder appends, in the buffer's terms, and that nothing but the
    buffer's limit can make it fail. *)

From S2P Require Import Prelude HpackBuffer HpackTables HpackHuffman HpackTable Hpack HpackSync.

Module HpackBound.
Import HpackBuffer HpackTables HpackHuffman HpackTable Hpack HpackSync.

Lemma integer_bytes_loop_short fuel k v :
  0 <= v < 2 ^ (7 * Z.of_nat (S k)) -> zlen (integer_bytes_loop fuel v) <= Z.of_nat (S k).
Proof.
  revert fuel v. induction k as [|k IH]; intros [|fuel] v Hv; cbn [integer_bytes_loop].
  all: try (change (zlen [_]) with 1; lia).
  - change (2 ^ (7 * Z.of_nat 1)) with 128 in Hv. split_if; [change (zlen [_]) with 1; lia|lia].
  - split_if; [change (zlen [_]) with 1; lia|]. rewrite zlen_cons.
    specialize (IH fuel (Z.shiftr v 7)). rewrite Z.shiftr_div_pow2 in * by lia.
    assert (zlen (integer_bytes_loop fuel (v / 2 ^ 7)) <= Z.of_nat (S k)); [apply IH|lia].
    replace (7 * Z.of_nat (S (S k))) with (7 * Z.of_nat (S k) + 7) in Hv by lia.
    rewrite Z.pow_add_r in Hv by lia. split; [apply Z.div_pos; lia|].
    apply Z.div_lt_upper_bound; lia.
Qed.

Lemma int_encoding_short value prefix :
  1 <= prefix <= 8 -> is_u32 value -> zlen (int_encoding value prefix) <= 6.
Proof.
  intros Hp Hv. unfold int_encoding. split_if; [change (zlen [_]) with 1; lia|].
  rewrite zlen_cons. pose proof (Z.pow_pos_nonneg 2 prefix ltac:(lia) ltac:(lia)).
  pose proof (integer_bytes_loop_short integer_fuel 4 (value - (2 ^ prefix - 1))) as Hl.
  change (2 ^ (7 * Z.of_nat 5)) with (2 ^ 35) in Hl. change (Z.of_nat 5) with 5 in Hl.
  assert (2 ^ 32 < 2 ^ 35) by done. unfold is_u32 in Hv. lia.
Qed.

Section Bounded.
Context {alloc : Allocator}.

(** The circumstances in which only the size of the buffer can make the
    encoder fail; they include that memory is available. *)
Context (ok : Prop) (ok_serves : ok -> forall k, malloc_ok k = true).

(** Operation result [r] on the buffer [b]: at most [n] bytes were appended,
    and if that many fit, the operation succeeded. *)
Definition bounded (n : Z) (b : chttp_h2_hpack_buffer) (r : chttp_h2_hpack_buffer * Z) : Prop :=
  buf_wf r.1 /\ buf_max_capacity r.1 = buf_max_capacity b /\
  (exists bs, buf_data r.1 = buf_data b ++ bs /\ zlen bs <= n) /\ (r.2 = 0 \/ r.2 = -1) /\
  (ok -> buf_size b + n <= buf_max_capacity b -> r.2 = 0).

Lemma bounded_ret b : buf_wf b -> bounded 0 b (b, 0).
Proof. intros. split_and!; auto. exists []. rewrite app_nil_r. done. Qed.

Lemma bounded_weaken n m b r : bounded n b r -> n <= m -> bounded m b r.
Proof.
  intros (H1 & H2 & (bs & H3 & H4) & H5 & H6) Hn. split_and!; auto.
  - exists bs. split; [done|lia].
  - intros. apply H6; [done|lia].
Qed.

Lemma bounded_seq n m b b1 rc (k : chttp_h2_hpack_buffer -> chttp_h2_hpack_buffer * Z) :
  bounded n b (b1, rc) -> (rc = 0 -> bounded m b1 (k b1)) -> 0 <= m ->
  bounded (n + m) b (if rc =? 0 then k b1 else (b1, -1)).
Proof.
  intros (H1 & H2 & (bs & H3 & H4) & H5 & H6) Hk Hm. cbn in *.
  destruct (Z.eqb_spec rc 0) as [->|Hne].
  - destruct (Hk eq_refl) as (K1 & K2 & (bs' & K3 & K4) & K5 & K6). split_and!; auto; [congruence| |].
    + exists (bs ++ bs'). rewrite K3, H3, <- app_assoc, zlen_app. split; [done|lia].
    + intros Ha Hfit. apply K6; [done|]. unfold buf_size in *. rewrite H3, zlen_app, H2. lia.
  - split_and!; auto; [exists bs; split; [done|lia]|].
    intros Ha Hfit. exfalso. apply Hne, H6; [done|lia].
Qed.

Lemma integer_encode_bounded b value prefix :
  buf_wf b -> 1 <= prefix <= 8 -> is_u32 value ->
  bounded (zlen (int_encoding value prefix)) b (chttp_h2_hpack_integer_encode b value prefix).
Proof.
  intros Hwf Hp Hv. pose proof (integer_encode_cases b value prefix Hwf Hp Hv) as Hc.
  pose proof (integer_encode_rc b value prefix Hwf Hp Hv) as Hrc.
  pose proof (int_encoding_length value prefix).
  destruct (chttp_h2_hpack_integer_encode b value prefix) as [b' rc].
  destruct Hc as (Hm & Hwf' & Hd). split_and!; cbn; auto.
  - destruct Hd as [[_ Hd]|[_ Hd]]; [by exists (int_encoding value prefix)|].
    exists []. rewrite app_nil_r. split; [done|]. change (zlen []) with 0. lia.
  - destruct Hd as [[? _]|[? _]]; auto.
  - intros Ha Hfit. cbn in Hrc. rewrite Hrc by auto. by split_if; [|lia].
Qed.

Lemma buf_or_zlen b i mask : zlen (buf_data (buf_or b i mask)) = zlen (buf_data b).
Proof. unfold buf_or, zlen. cbn. by rewrite length_insert. Qed.

Lemma put_flagged_int_bounded out value prefix flag :
  buf_wf out -> 1 <= prefix <= 7 -> is_u32 value -> flag mod 2 ^ prefix = 0 -> 0 <= flag <= 0x80 ->
  bounded (zlen (int_encoding value prefix)) out (put_flagged_int out value prefix flag).
Proof.
  intros Hwf Hp Hv Hm Hfl.
  pose proof (integer_encode_bounded out value prefix Hwf ltac:(lia) Hv)
    as (H1 & H2 & (bs & H3 & H4) & H5 & H6).
  pose proof (put_flagged_int_ok out value prefix flag) as Hok. unfold put_flagged_int in *.
  destruct (chttp_h2_hpack_integer_encode out value prefix) as [b rc]. cbn in *.
  destruct (Z.eqb_spec rc 0) as [->|Hne]; cycle 1.
  { split_and!; cbn; eauto. intros Ha Hfit. exfalso. by apply Hne, H6. }
  destruct (Hok _ Hwf Hp Hv Hm Hfl eq_refl) as (first & tail & Hd & Hwf' & Hmax & _ & _).
  split_and!; cbn [fst snd]; auto. exists ((flag + first) :: tail). split; [done|].
  enough (zlen ((flag + first) :: tail) = zlen bs) by lia.
  apply (f_equal zlen) in Hd. apply (f_equal zlen) in H3.
  rewrite buf_or_zlen in Hd. rewrite zlen_app in Hd, H3. lia.
Qed.

Lemma put_string_bounded b s :
  buf_wf b -> is_bytes s -> (ok -> zlen s <= 0x7fffffff) ->
  bounded (6 + zlen s) b (hpack_put_string b s false).
Proof.
  intros Hwf Hs Hl. pose proof (zlen_nonneg s). unfold hpack_put_string.
  split_if.
  { split_and!; cbn; auto; [exists []; rewrite app_nil_r; change (zlen (@nil Z)) with 0; split; [done|lia]|].
    intros Hk. specialize (Hl Hk). lia. }
  rewrite u32_id by zlia.
  pose proof (integer_encode_bounded b (zlen s) 7 Hwf ltac:(lia) ltac:(zlia)) as H1.
  pose proof (int_encoding_short (zlen s) 7 ltac:(lia) ltac:(zlia)).
  destruct (chttp_h2_hpack_integer_encode b (zlen s) 7) as [b1 rc1].
  apply (bounded_weaken (zlen (int_encoding (zlen s) 7) + zlen s)); [|lia].
  assert (rc1 = 0 \/ rc1 = -1) as Hrc1 by apply H1. assert (buf_wf b1) as Hwf1 by apply H1.
  pose proof (buffer_reserve_cases b1 (zlen s) Hwf1 ltac:(lia)) as Hc.
  pose proof (buffer_reserve_rc b1 (zlen s) Hwf1 ltac:(lia)) as Hrc.
  eapply (bounded_seq _ (zlen s) _ _ _ (fun b1 =>
    let '(b, rc) := chttp_h2_hpack_buffer_reserve b1 (zlen s) in
    if negb (rc =? 0) then (b, rc) else (buf_append b s, 0))) in H1; [|intros ->|lia].
  - destruct Hrc1 as [->| ->]; exact H1.
  - destruct (chttp_h2_hpack_buffer_reserve b1 (zlen s)) as [b2 rc2].
    destruct Hc as (Hd2 & Hm2 & Hwf2 & [[-> Hcap]|[-> ->]]); cbn [Z.eqb negb].
    + split_and!; cbn; auto; [|exists s; by rewrite Hd2].
      apply buf_wf_append; [done|done|]. unfold buf_size in *. by rewrite Hd2.
    + split_and!; cbn; auto; [exists []; rewrite app_nil_r; split; [done|by change (zlen []) with 0]|].
      intros Ha Hfit. cbn in Hrc. rewrite Hrc by auto. by split_if; [|lia].
Qed.

(** A literal: the name index, the name unless indexed, the value. *)
Lemma encode_literal_bounded out name_idx prefix flag hd :
  buf_wf out -> 1 <= prefix <= 7 -> is_u32 name_idx -> flag mod 2 ^ prefix = 0 ->
  0 <= flag <= 0x80 -> header_ok hd ->
  (ok -> zlen (hd_name hd) <= 0x7fffffff) -> (ok -> zlen (hd_value hd) <= 0x7fffffff) ->
  bounded (zlen (hd_name hd) + zlen (hd_value hd) + 13) out
    (encode_literal out name_idx prefix flag hd).
Proof.
  intros Hwf Hp Hv Hm Hfl [Hn Hval] Hln Hlv.
  pose proof (zlen_nonneg (hd_name hd)). pose proof (zlen_nonneg (hd_value hd)).
  unfold encode_literal.
  pose proof (put_flagged_int_bounded out name_idx prefix flag Hwf Hp Hv Hm Hfl) as H1.
  destruct (put_flagged_int out name_idx prefix flag) as [b1 rc1].
  set (n2 := if name_idx =? 0 then 6 + zlen (hd_name hd) else 0).
  apply (bounded_weaken (zlen (int_encoding name_idx prefix) + (n2 + (6 + zlen (hd_value hd) + 0)))).
  2: { subst n2. destruct (Z.eqb_spec name_idx 0) as [->|].
       - replace (zlen (int_encoding 0 prefix)) with 1; [lia|].
         unfold int_encoding. assert (2 ^ 1 <= 2 ^ prefix) by (apply Z.pow_le_mono_r; lia).
         split_if; [done|lia].
       - pose proof (int_encoding_short name_idx prefix ltac:(lia) Hv). lia. }
  apply (bounded_seq _ _ _ _ _ (fun b1 =>
    try! out := (if name_idx =? 0 then hpack_put_string b1 (hd_name hd) false else (b1, 0)) in
    try! out := hpack_put_string out (hd_value hd) false in (out, 0))); [done| |subst n2; split_if; lia].
  intros ->. assert (buf_wf b1) as Hwf1 by apply H1.
  assert (bounded n2 b1 (if name_idx =? 0 then hpack_put_string b1 (hd_name hd) false else (b1, 0)))
    as H2.
  { subst n2. split_if; [by apply put_string_bounded|by apply bounded_ret]. }
  destruct (if name_idx =? 0 then hpack_put_string b1 (hd_name hd) false else (b1, 0))
    as [b2 rc2].
  apply (bounded_seq _ _ _ _ _ (fun b2 =>
    try! out := hpack_put_string b2 (hd_value hd) false in (out, 0))); [done| |lia].
  intros ->. assert (buf_wf b2) as Hwf2 by apply H2.
  pose proof (put_string_bounded b2 (hd_value hd) Hwf2 Hval Hlv) as H3.
  destruct (hpack_put_string b2 (hd_value hd) false) as [b3 rc3].
  apply (bounded_seq _ _ _ _ _ (fun b3 => (b3, 0))); [done| |lia].
  intros ->. apply bounded_ret, H3.
Qed.

(** ** A whole block, with the encoder's dynamic table off *)

(** The bound of [proto_header_bounds] for the fields. *)
Fixpoint fields_bound (hdrs : list chttp_h2_hpack_header) : Z :=
  match hdrs with
  | [] => 0
  | hd :: hdrs => zlen (hd_name hd) + zlen (hd_value hd) + 15 + fields_bound hdrs
  end.

Lemma fields_bound_nonneg hdrs : 0 <= fields_bound hdrs.
Proof.
  induction hdrs as [|hd hdrs IH]; cbn; [lia|].
  pose proof (zlen_nonneg (hd_name hd)). pose proof (zlen_nonneg (hd_value hd)). lia.
Qed.

Definition field_ok (h : chttp_h2_hpack) (hd : chttp_h2_hpack_header) : Prop :=
  header_ok hd /\
  (ok -> zlen (hd_name hd) <= h_max_string_bytes h /\ zlen (hd_value hd) <= h_max_string_bytes h /\
         zlen (hd_name hd) <= 0x7fffffff /\ zlen (hd_value hd) <= 0x7fffffff).

Lemma encode_header_bounded h out hd :
  hpack_wf h -> dt_max_size (h_encoder h) = 0 -> buf_wf out -> field_ok h hd ->
  exists out' rc, encode_header h out hd = (h, out', rc) /\
    bounded (zlen (hd_name hd) + zlen (hd_value hd) + 15) out (out', rc).
Proof.
  intros Hwf Hoff Hb (Hok & Hl). unfold encode_header.
  pose proof (zlen_nonneg (hd_name hd)). pose proof (zlen_nonneg (hd_value hd)).
  assert (ok -> zlen (hd_name hd) <= 0x7fffffff) as Hl3 by (intros Hk; by apply Hl).
  assert (ok -> zlen (hd_value hd) <= 0x7fffffff) as Hl4 by (intros Hk; by apply Hl).
  split_if.
  { eexists _, _. split; [done|]. split_and!; cbn; auto.
    - exists []. rewrite app_nil_r. change (zlen (@nil Z)) with 0. split; [done|lia].
    - intros Hk. destruct (Hl Hk) as (? & ? & _). lia. }
  fold (full_index h hd). fold (name_index h hd).
  set (hd0 := h <| h_decoder := h_encoder h |>).
  destruct (Z.eqb_spec (full_index h hd) 0) as [Hf|Hf]; cbn [negb].
  - destruct (name_index_spec h hd hd0 (wf_encoder _ Hwf) eq_refl) as [Hu _].
    rewrite Hoff. cbn [Z.eqb].
    pose proof (encode_literal_bounded out (name_index h hd) 4 0 hd Hb ltac:(lia) Hu
      ltac:(done) ltac:(lia) Hok Hl3 Hl4) as He.
    destruct (encode_literal _ _ _ _ _) as [out' rc]. eexists _, _. split; [done|].
    eapply bounded_weaken; [done|lia].
  - destruct (full_index_spec h hd hd0 (wf_encoder _ Hwf) eq_refl Hf) as [Hu _].
    pose proof (put_flagged_int_bounded out (full_index h hd) 7 0x80 Hb ltac:(lia) Hu
      ltac:(done) ltac:(lia)) as He.
    destruct (put_flagged_int _ _ _ _) as [out' rc]. eexists _, _. split; [done|].
    eapply bounded_weaken; [done|]. pose proof (int_encoding_short _ 7 ltac:(lia) Hu). lia.
Qed.

Lemma encode_headers_bounded hdrs : forall h out,
  hpack_wf h -> dt_max_size (h_encoder h) = 0 -> buf_wf out -> Forall (field_ok h) hdrs ->
  exists out' rc, encode_headers h out hdrs = (h, out', rc) /\
    bounded (fields_bound hdrs) out (out', rc).
Proof.
  induction hdrs as [|hd hdrs IH]; intros h out Hwf Hoff Hb Hok; cbn [encode_headers fields_bound].
  { eexists _, _. split; [done|]. by apply bounded_ret. }
  inversion Hok as [|? ? Hhd Hrest]; subst.
  destruct (encode_header_bounded h out hd Hwf Hoff Hb Hhd) as (out1 & rc1 & -> & H1).
  assert (buf_wf out1) as Hb1 by apply H1.
  destruct (IH h out1 Hwf Hoff Hb1 Hrest) as (out2 & rc2 & H2 & Hbd2).
  pose proof (fields_bound_nonneg hdrs) as Hnn.
  pose proof (bounded_seq _ _ out out1 rc1 (fun _ => (out2, rc2)) H1 (fun _ => Hbd2) Hnn) as Hs.
  rewrite H2. destruct (Z.eqb_spec rc1 0) as [->|Hne]; cbn [negb]; eexists _, _; (split; [done|done]).
Qed.

Lemma encode_pending_bounded h out :
  hpack_wf h -> dt_max_size (h_encoder h) = 0 -> buf_wf out ->
  exists h' out' rc, encode_pending h out = (h', out', rc) /\ bounded 12 out (out', rc) /\
    h' = h <| h_encoder_size_update_pending := h_encoder_size_update_pending h' |> /\
    (h_encoder_size_update_pending h' = true -> h_encoder_size_update_pending h = true).
Proof.
  intros Hwf Hoff Hb. unfold encode_pending.
  destruct (h_encoder_size_update_pending h) eqn:Hp; cycle 1.
  { eexists _, _, _. split; [done|]. split; [|split; [by destruct h; cbn in *; subst|congruence]].
    eapply bounded_weaken; [by apply bounded_ret|lia]. }
  destruct (wf_pending _ Hwf Hp) as [Hfin Hmin].
  replace (h_encoder_pending_min_size h) with 0 by lia. rewrite Hfin, Hoff.
  pose proof (put_flagged_int_bounded out 0 5 0x20 Hb ltac:(lia) ltac:(zlia)
    ltac:(done) ltac:(lia)) as H1.
  unfold hpack_put_table_size_update. rewrite u32_id by zlia.
  destruct (put_flagged_int out 0 5 0x20) as [out1 rc1]. change (zlen (int_encoding 0 5)) with 1 in H1.
  apply (bounded_weaken _ 12) in H1; [|lia].
  assert (rc1 = 0 \/ rc1 = -1) as [->| ->] by apply H1; cbn [Z.eqb negb];
    (eexists _, _, _; split; [done|]; split; [done|]; split; [by destruct h; cbn in *; subst|cbn; congruence]).
Qed.

(** [chttp_h2_hpack_encode] with the encoder's table off: only the pending
    flag of the context changes, the block is at most the bound, and it is
    complete whenever the bound fits the buffer. *)
Lemma hpack_encode_bounded h out hdrs :
  hpack_wf h -> dt_max_size (h_encoder h) = 0 -> buf_wf out -> Forall (field_ok h) hdrs ->
  buf_max_capacity out <= h_max_header_block_bytes h ->
  exists h' out' rc, chttp_h2_hpack_encode h out hdrs = (h', out', rc) /\
    bounded (12 + fields_bound hdrs) out (out', rc) /\ hpack_wf h' /\
    h' = h <| h_encoder_size_update_pending := h_encoder_size_update_pending h' |>.
Proof.
  intros Hwf Hoff Hb Hok Hcap. unfold chttp_h2_hpack_encode. split_if; [lia|].
  destruct (encode_pending_bounded h out Hwf Hoff Hb) as (h1 & out1 & rc1 & -> & H1 & Hh1 & Hp1).
  assert (hpack_wf h1) as Hwf1.
  { rewrite Hh1. destruct Hwf. split; cbn; auto. }
  assert (dt_max_size (h_encoder h1) = 0) as Hoff1 by (rewrite Hh1; done).
  assert (buf_wf out1) as Hb1 by apply H1.
  destruct (encode_headers_bounded hdrs h1 out1 Hwf1 Hoff1 Hb1) as (out2 & rc2 & H2 & Hbd2).
  { rewrite Hh1. done. }
  pose proof (bounded_seq _ _ out out1 rc1 (fun _ => (out2, rc2)) H1 (fun _ => Hbd2)
    (fields_bound_nonneg hdrs)) as Hs.
  rewrite H2. destruct (Z.eqb_spec rc1 0) as [->|Hne]; cbn [negb]; eexists _, _, _; by (split; [done|]).
Qed.

End Bounded.

End HpackBound.
