(* ===== verification/H2Proto.v ===== *)
(** * HTTP/2 engine: state

    Model of the state of [http_common/http/chttp_h2_proto.c] and of the
    functions that read or change it without producing output: the stream
    table, the history of local resets, configuration, creation.  The engine is
    one record with the fields of [struct chttp_h2_proto_s]; a pointer to a
    stream is its slot number in [p_streams], whose length is [stream_count].
    [p_user] stands for what [cbs.user_data] points to.  Flags of type [int]
    are booleans. *)

From S2P Require Import Prelude H2Frame HpackBuffer HpackHuffman HpackTable Hpack.

Module H2Proto.
Import H2Frame HpackBuffer HpackHuffman HpackTable Hpack.

Inductive chttp_h2_proto_mode := CHTTP_H2_PROTO_CLIENT | CHTTP_H2_PROTO_SERVER.

#[export] Instance mode_eq_dec : EqDecision chttp_h2_proto_mode.
Proof. solve_decision. Defined.

Definition is_client (mode : chttp_h2_proto_mode) : bool :=
  match mode with CHTTP_H2_PROTO_CLIENT => true | CHTTP_H2_PROTO_SERVER => false end.

Definition is_server (mode : chttp_h2_proto_mode) : bool := negb (is_client mode).

(** ** Constants *)

Definition CHTTP_H2_PROTO_HPACK_FIELD_OVERHEAD_BYTES : Z := 15.
Definition CHTTP_H2_PROTO_HPACK_PENDING_UPDATE_BYTES : Z := 12.

Definition CHTTP_H2_ERR_NO_ERROR : Z := 0x0.
Definition CHTTP_H2_ERR_PROTOCOL_ERROR : Z := 0x1.
Definition CHTTP_H2_ERR_INTERNAL_ERROR : Z := 0x2.
Definition CHTTP_H2_ERR_FLOW_CONTROL_ERROR : Z := 0x3.
Definition CHTTP_H2_ERR_STREAM_CLOSED : Z := 0x5.
Definition CHTTP_H2_ERR_FRAME_SIZE_ERROR : Z := 0x6.
Definition CHTTP_H2_ERR_REFUSED_STREAM : Z := 0x7.
Definition CHTTP_H2_ERR_CANCEL : Z := 0x8.
Definition CHTTP_H2_ERR_COMPRESSION_ERROR : Z := 0x9.
Definition CHTTP_H2_ERR_ENHANCE_YOUR_CALM : Z := 0xb.

Definition CHTTP_H2_SETTING_HEADER_TABLE_SIZE : Z := 0x1.
Definition CHTTP_H2_SETTING_ENABLE_PUSH : Z := 0x2.
Definition CHTTP_H2_SETTING_MAX_CONCURRENT_STREAMS : Z := 0x3.
Definition CHTTP_H2_SETTING_INITIAL_WINDOW_SIZE : Z := 0x4.
Definition CHTTP_H2_SETTING_MAX_FRAME_SIZE : Z := 0x5.
Definition CHTTP_H2_SETTING_MAX_HEADER_LIST_SIZE : Z := 0x6.
Definition CHTTP_H2_SETTING_ENABLE_CONNECT_PROTOCOL : Z := 0x8.

Definition CHTTP_H2_PROTO_DATA_OK : Z := 0.
Definition CHTTP_H2_PROTO_DATA_PAUSE : Z := 1.

Definition CHTTP_H2_PROTO_SOURCE_DATA : Z := 0.
Definition CHTTP_H2_PROTO_SOURCE_WAIT : Z := 1.
Definition CHTTP_H2_PROTO_SOURCE_EOF : Z := 2.
Definition CHTTP_H2_PROTO_SOURCE_ERROR : Z := 3.

Definition CHTTP_H2_DEFAULT_WINDOW : Z := 65535.
Definition CHTTP_H2_MAX_WINDOW : Z := 0x7fffffff.
Definition CHTTP_H2_DEFAULT_FRAME_BYTES : Z := 16 * 1024.
Definition CHTTP_H2_MAX_FRAME_BYTES : Z := 0x00ffffff.
Definition CHTTP_H2_HEADER_LIST_FIELD_OVERHEAD : Z := 32.
Definition CHTTP_H2_PRIORITY_BYTES : Z := 5.

(** "PRI * HTTP/2.0\r\n\r\nSM\r\n\r\n" *)
Definition CHTTP_H2_PREFACE : list Z :=
  bytes_of "PRI * HTTP/2.0" ++ [13; 10; 13; 10] ++ bytes_of "SM" ++ [13; 10; 13; 10].

#[global] Arguments CHTTP_H2_PREFACE : simpl never.

Definition CHTTP_H2_PREFACE_LEN : Z := 24.

(** ** Records *)

Record chttp_h2_proto_config := {
  c_stream_capacity : Z;
  c_output_buffer_bytes : Z;
  c_input_buffer_bytes : Z;
  c_header_block_bytes : Z;
  c_max_header_list_bytes : Z;
  c_hpack_dynamic_table_bytes : Z;
  c_max_hpack_string_bytes : Z;
  c_max_settings_count : Z;
  c_local_initial_window_size : Z;
  c_connection_receive_window_size : Z;
}.

Record proto_settings := {
  st_header_table_size : Z;
  st_enable_push : Z;
  st_max_concurrent_streams : Z;
  st_initial_window_size : Z;
  st_max_frame_size : Z;
  st_max_header_list_size : Z;
  st_enable_connect_protocol : Z;
}.

#[export] Instance eta_proto_settings : Eta proto_settings :=
  fun r => Build_proto_settings (st_header_table_size r) (st_enable_push r)
    (st_max_concurrent_streams r) (st_initial_window_size r) (st_max_frame_size r)
    (st_max_header_list_size r) (st_enable_connect_protocol r).
#[export] Instance set_st_header_table_size : Setter st_header_table_size. Proof. mk_setter. Defined.
#[export] Instance set_st_enable_push : Setter st_enable_push. Proof. mk_setter. Defined.
#[export] Instance set_st_max_concurrent_streams : Setter st_max_concurrent_streams. Proof. mk_setter. Defined.
#[export] Instance set_st_initial_window_size : Setter st_initial_window_size. Proof. mk_setter. Defined.
#[export] Instance set_st_max_frame_size : Setter st_max_frame_size. Proof. mk_setter. Defined.
#[export] Instance set_st_max_header_list_size : Setter st_max_header_list_size. Proof. mk_setter. Defined.
#[export] Instance set_st_enable_connect_protocol : Setter st_enable_connect_protocol. Proof. mk_setter. Defined.

(** One slot of the stream table.  [body] and [body_len] are one list, so
    [body_len] is 0 when [body] is [NULL]; [source] names the body source and
    its user data. *)
Record chttp_h2_proto_stream := {
  s_id : Z;
  s_send_window : Z;
  s_recv_window : Z;
  s_closed : bool;
  s_local_reset : bool;
  s_end_stream_sent : bool;
  s_remote_end_stream : bool;
  s_user_data : Z;
  s_body : option (list Z);
  s_body_off : Z;
  s_body_eof : bool;
  s_source : option Z;
  s_source_done : bool;
  s_source_waiting : bool;
  s_trailers : chttp_h2_hpack_buffer;
  s_trailers_pending : bool;
  s_consumed : Z;
  s_local_window : Z;
}.

#[export] Instance eta_proto_stream : Eta chttp_h2_proto_stream :=
  fun r => Build_chttp_h2_proto_stream (s_id r) (s_send_window r) (s_recv_window r)
    (s_closed r) (s_local_reset r) (s_end_stream_sent r) (s_remote_end_stream r)
    (s_user_data r) (s_body r) (s_body_off r) (s_body_eof r) (s_source r) (s_source_done
    r) (s_source_waiting r) (s_trailers r) (s_trailers_pending r) (s_consumed r)
    (s_local_window r).
#[export] Instance set_s_send_window : Setter s_send_window. Proof. mk_setter. Defined.
#[export] Instance set_s_recv_window : Setter s_recv_window. Proof. mk_setter. Defined.
#[export] Instance set_s_closed : Setter s_closed. Proof. mk_setter. Defined.
#[export] Instance set_s_local_reset : Setter s_local_reset. Proof. mk_setter. Defined.
#[export] Instance set_s_end_stream_sent : Setter s_end_stream_sent. Proof. mk_setter. Defined.
#[export] Instance set_s_remote_end_stream : Setter s_remote_end_stream. Proof. mk_setter. Defined.
#[export] Instance set_s_user_data : Setter s_user_data. Proof. mk_setter. Defined.
#[export] Instance set_s_body : Setter s_body. Proof. mk_setter. Defined.
#[export] Instance set_s_body_off : Setter s_body_off. Proof. mk_setter. Defined.
#[export] Instance set_s_body_eof : Setter s_body_eof. Proof. mk_setter. Defined.
#[export] Instance set_s_source : Setter s_source. Proof. mk_setter. Defined.
#[export] Instance set_s_source_done : Setter s_source_done. Proof. mk_setter. Defined.
#[export] Instance set_s_source_waiting : Setter s_source_waiting. Proof. mk_setter. Defined.
#[export] Instance set_s_trailers : Setter s_trailers. Proof. mk_setter. Defined.
#[export] Instance set_s_trailers_pending : Setter s_trailers_pending. Proof. mk_setter. Defined.
#[export] Instance set_s_consumed : Setter s_consumed. Proof. mk_setter. Defined.
#[export] Instance set_s_local_window : Setter s_local_window. Proof. mk_setter. Defined.

(** The engine.  [settings_ids] and [settings_values] are scratch arrays of
    [proto_dispatch]; the callbacks are a parameter of the operations. *)
Record chttp_h2_proto {U : Type} := {
  p_user : U;
  p_mode : chttp_h2_proto_mode;
  p_config : chttp_h2_proto_config;
  p_hpack : chttp_h2_hpack;
  p_local : proto_settings;
  p_peer : proto_settings;
  p_peer_settings_received : bool;
  p_settings_sent : bool;
  p_settings_acked : bool;
  p_streams : list chttp_h2_proto_stream;
  p_stream_cap : Z;
  p_local_reset_ids : list Z;
  p_local_reset_cursor : Z;
  p_next_stream_id : Z;
  p_max_peer_stream_id : Z;
  p_last_proc_stream_id : Z;
  p_goaway_sent : bool;
  p_goaway_received_last : Z;
  p_goaway_received_error : Z;
  p_draining : bool;
  p_conn_send_window : Z;
  p_conn_recv_window : Z;
  p_conn_consumed : Z;
  p_conn_local_window : Z;
  p_send_chunk : Z;
  p_out : chttp_h2_hpack_buffer;
  p_inbuf : chttp_h2_hpack_buffer;
  p_in_block : chttp_h2_hpack_buffer;
  p_in_headers : bool;
  p_input_generation : Z;
  p_in_headers_stream : Z;
  p_in_headers_end_stream : bool;
  p_input_paused : bool;
  p_input_paused_stream : Z;
  p_input_paused_end_stream : bool;
  p_client_preface_done : bool;
  p_server_preface_seen : bool;
  p_failed : bool;
  p_last_error : Z;
}.

Arguments chttp_h2_proto U : clear implicits.

#[export] Instance eta_proto {U} : Eta (chttp_h2_proto U) :=
  fun r => Build_chttp_h2_proto U (p_user r) (p_mode r) (p_config r) (p_hpack r) (p_local r)
    (p_peer r) (p_peer_settings_received r) (p_settings_sent r) (p_settings_acked r)
    (p_streams r) (p_stream_cap r) (p_local_reset_ids r) (p_local_reset_cursor r)
    (p_next_stream_id r) (p_max_peer_stream_id r) (p_last_proc_stream_id r) (p_goaway_sent
    r) (p_goaway_received_last r) (p_goaway_received_error r) (p_draining r)
    (p_conn_send_window r) (p_conn_recv_window r) (p_conn_consumed r) (p_conn_local_window
    r) (p_send_chunk r) (p_out r) (p_inbuf r) (p_in_block r) (p_in_headers r)
    (p_input_generation r) (p_in_headers_stream r) (p_in_headers_end_stream r)
    (p_input_paused r) (p_input_paused_stream r) (p_input_paused_end_stream r)
    (p_client_preface_done r) (p_server_preface_seen r) (p_failed r) (p_last_error r).
#[export] Instance set_p_user {U} : Setter (@p_user U). Proof. mk_setter. Defined.
#[export] Instance set_p_hpack {U} : Setter (@p_hpack U). Proof. mk_setter. Defined.
#[export] Instance set_p_local {U} : Setter (@p_local U). Proof. mk_setter. Defined.
#[export] Instance set_p_peer {U} : Setter (@p_peer U). Proof. mk_setter. Defined.
#[export] Instance set_p_peer_settings_received {U} : Setter (@p_peer_settings_received U). Proof. mk_setter. Defined.
#[export] Instance set_p_settings_sent {U} : Setter (@p_settings_sent U). Proof. mk_setter. Defined.
#[export] Instance set_p_settings_acked {U} : Setter (@p_settings_acked U). Proof. mk_setter. Defined.
#[export] Instance set_p_streams {U} : Setter (@p_streams U). Proof. mk_setter. Defined.
#[export] Instance set_p_local_reset_ids {U} : Setter (@p_local_reset_ids U). Proof. mk_setter. Defined.
#[export] Instance set_p_local_reset_cursor {U} : Setter (@p_local_reset_cursor U). Proof. mk_setter. Defined.
#[export] Instance set_p_next_stream_id {U} : Setter (@p_next_stream_id U). Proof. mk_setter. Defined.
#[export] Instance set_p_max_peer_stream_id {U} : Setter (@p_max_peer_stream_id U). Proof. mk_setter. Defined.
#[export] Instance set_p_last_proc_stream_id {U} : Setter (@p_last_proc_stream_id U). Proof. mk_setter. Defined.
#[export] Instance set_p_goaway_sent {U} : Setter (@p_goaway_sent U). Proof. mk_setter. Defined.
#[export] Instance set_p_goaway_received_last {U} : Setter (@p_goaway_received_last U). Proof. mk_setter. Defined.
#[export] Instance set_p_goaway_received_error {U} : Setter (@p_goaway_received_error U). Proof. mk_setter. Defined.
#[export] Instance set_p_draining {U} : Setter (@p_draining U). Proof. mk_setter. Defined.
#[export] Instance set_p_conn_send_window {U} : Setter (@p_conn_send_window U). Proof. mk_setter. Defined.
#[export] Instance set_p_conn_recv_window {U} : Setter (@p_conn_recv_window U). Proof. mk_setter. Defined.
#[export] Instance set_p_conn_consumed {U} : Setter (@p_conn_consumed U). Proof. mk_setter. Defined.
#[export] Instance set_p_conn_local_window {U} : Setter (@p_conn_local_window U). Proof. mk_setter. Defined.
#[export] Instance set_p_send_chunk {U} : Setter (@p_send_chunk U). Proof. mk_setter. Defined.
#[export] Instance set_p_out {U} : Setter (@p_out U). Proof. mk_setter. Defined.
#[export] Instance set_p_inbuf {U} : Setter (@p_inbuf U). Proof. mk_setter. Defined.
#[export] Instance set_p_in_block {U} : Setter (@p_in_block U). Proof. mk_setter. Defined.
#[export] Instance set_p_in_headers {U} : Setter (@p_in_headers U). Proof. mk_setter. Defined.
#[export] Instance set_p_input_generation {U} : Setter (@p_input_generation U). Proof. mk_setter. Defined.
#[export] Instance set_p_in_headers_stream {U} : Setter (@p_in_headers_stream U). Proof. mk_setter. Defined.
#[export] Instance set_p_in_headers_end_stream {U} : Setter (@p_in_headers_end_stream U). Proof. mk_setter. Defined.
#[export] Instance set_p_input_paused {U} : Setter (@p_input_paused U). Proof. mk_setter. Defined.
#[export] Instance set_p_input_paused_stream {U} : Setter (@p_input_paused_stream U). Proof. mk_setter. Defined.
#[export] Instance set_p_input_paused_end_stream {U} : Setter (@p_input_paused_end_stream U). Proof. mk_setter. Defined.
#[export] Instance set_p_client_preface_done {U} : Setter (@p_client_preface_done U). Proof. mk_setter. Defined.
#[export] Instance set_p_server_preface_seen {U} : Setter (@p_server_preface_seen U). Proof. mk_setter. Defined.
#[export] Instance set_p_failed {U} : Setter (@p_failed U). Proof. mk_setter. Defined.
#[export] Instance set_p_last_error {U} : Setter (@p_last_error U). Proof. mk_setter. Defined.

Definition s_body_len (s : chttp_h2_proto_stream) : Z :=
  match s_body s with Some body => zlen body | None => 0 end.

(** [memset(s, 0, sizeof( *s))] *)
Definition stream_zero (id : Z) : chttp_h2_proto_stream :=
  {| s_id := id; s_send_window := 0; s_recv_window := 0; s_closed := false;
     s_local_reset := false; s_end_stream_sent := false; s_remote_end_stream := false;
     s_user_data := 0; s_body := None; s_body_off := 0; s_body_eof := false;
     s_source := None; s_source_done := false; s_source_waiting := false;
     s_trailers := buf_zero; s_trailers_pending := false; s_consumed := 0;
     s_local_window := 0 |}.

(** ** Stream table *)

Section Table.
Context {U : Type}.
Implicit Types p : chttp_h2_proto U.

(** [p->streams[i]] and an assignment to its fields. *)
Definition stream_at p (i : nat) : chttp_h2_proto_stream := nth i (p_streams p) (stream_zero 0).

Definition upd_stream p (i : nat) (f : chttp_h2_proto_stream -> chttp_h2_proto_stream) :
    chttp_h2_proto U :=
  p <| p_streams := alter f i (p_streams p) |>.

Definition proto_find p (id : Z) : option nat :=
  fst <$> list_find (fun s => s_id s = id) (p_streams p).

Definition proto_local_reset_contains p (id : Z) : bool :=
  if id <=? 0 then false else existsb (fun x => x =? id) (p_local_reset_ids p).

Definition proto_local_reset_record p (id : Z) : chttp_h2_proto U :=
  if (id <=? 0) || proto_local_reset_contains p id then p
  else
    p <| p_local_reset_ids := <[Z.to_nat (p_local_reset_cursor p) := id]> (p_local_reset_ids p) |>
      <| p_local_reset_cursor := (p_local_reset_cursor p + 1) mod p_stream_cap p |>.

Definition proto_local_reset_forget p (id : Z) : chttp_h2_proto U :=
  if id <=? 0 then p
  else
    p <| p_local_reset_ids := map (fun x => if x =? id then 0 else x) (p_local_reset_ids p) |>.

(** [(id & 1) != 0] *)
Definition odd_id (id : Z) : bool := negb (Z.land id 1 =? 0).

(** The first closed slot is reused, else a slot is appended; the result is
    the slot. *)
Definition proto_new_stream p (id user_data : Z) : chttp_h2_proto U * option nat :=
  let s := (stream_zero id)
             <| s_send_window := i32 (st_initial_window_size (p_peer p)) |>
             <| s_recv_window := i32 (st_initial_window_size (p_local p)) |>
             <| s_local_window := i32 (st_initial_window_size (p_local p)) |>
             <| s_user_data := user_data |> in
  let finish p i :=
    let p :=
      if (if is_client (p_mode p) then negb (odd_id id) else odd_id id) &&
         (p_last_proc_stream_id p <? id)
      then p <| p_last_proc_stream_id := id |> else p in
    (p, Some i) in
  match list_find (fun s => s_closed s = true) (p_streams p) with
  | Some (i, _) => finish (p <| p_streams := <[i := s]> (p_streams p) |>) i
  | None =>
    if p_stream_cap p <=? zlen (p_streams p) then (p, None)
    else finish (p <| p_streams := p_streams p ++ [s] |>) (length (p_streams p))
  end.

Definition proto_active_local_streams p : Z :=
  zlen (filter (fun s => s_closed s = false /\
                  (if is_client (p_mode p) then odd_id (s_id s) else negb (odd_id (s_id s))) = true)
          (p_streams p)).

Definition proto_active_streams p : Z :=
  zlen (filter (fun s => s_closed s = false) (p_streams p)).

(** ** Accessors *)

Definition chttp_h2_proto_set_send_chunk p (chunk : Z) : chttp_h2_proto U :=
  p <| p_send_chunk := chunk |>.

Definition chttp_h2_proto_set_local_enable_connect_protocol p (enable : Z) : chttp_h2_proto U :=
  p <| p_local := (p_local p) <| st_enable_connect_protocol := if enable =? 0 then 0 else 1 |> |>.

Definition chttp_h2_proto_peer_max_concurrent_streams p : Z :=
  st_max_concurrent_streams (p_peer p).
Definition chttp_h2_proto_settings_acked p : bool := p_settings_acked p.
Definition chttp_h2_proto_peer_initial_window_size p : Z := st_initial_window_size (p_peer p).
Definition chttp_h2_proto_peer_settings_received p : bool := p_peer_settings_received p.
Definition chttp_h2_proto_peer_enable_connect_protocol p : Z :=
  st_enable_connect_protocol (p_peer p).
Definition chttp_h2_proto_get_last_proc_stream_id p : Z := u32 (p_last_proc_stream_id p).
Definition chttp_h2_proto_input_paused p : bool := p_input_paused p.
Definition chttp_h2_proto_input_generation p : Z := p_input_generation p.
Definition chttp_h2_proto_input_incomplete p : bool :=
  negb (p_input_paused p) && (negb (buf_size (p_inbuf p) =? 0) || p_in_headers p).

Definition chttp_h2_proto_get_stream_user_data p (stream_id : Z) : Z :=
  match proto_find p stream_id with Some i => s_user_data (stream_at p i) | None => 0 end.

Definition chttp_h2_proto_remote_end_stream p (stream_id : Z) : bool :=
  match proto_find p stream_id with
  | Some i => s_remote_end_stream (stream_at p i)
  | None => false
  end.

Definition chttp_h2_proto_set_stream_user_data p (stream_id ud : Z) : chttp_h2_proto U * Z :=
  match proto_find p stream_id with
  | None => (p, -1)
  | Some i => (upd_stream p i (fun s => s <| s_user_data := ud |>), 0)
  end.

(** [s->body != NULL && (s->body_off < s->body_len || s->body_eof)] *)
Definition body_pending (s : chttp_h2_proto_stream) : bool :=
  match s_body s with
  | None => false
  | Some body => (s_body_off s <? zlen body) || s_body_eof s
  end.

Definition has_source (s : chttp_h2_proto_stream) : bool :=
  match s_source s with Some _ => true | None => false end.

Definition chttp_h2_proto_stream_output_pending p (stream_id : Z) : bool :=
  match proto_find p stream_id with
  | None => false
  | Some i =>
    let s := stream_at p i in
    if s_closed s then false
    else body_pending s || (has_source s && negb (s_source_done s))
  end.

End Table.

(** ** Configuration and creation *)

Definition proto_default_config : chttp_h2_proto_config :=
  {| c_stream_capacity := 100;
     c_output_buffer_bytes := 1024 * 1024;
     c_input_buffer_bytes := 128 * 1024;
     c_header_block_bytes := 64 * 1024;
     c_max_header_list_bytes := 64 * 1024;
     c_hpack_dynamic_table_bytes := 4096;
     c_max_hpack_string_bytes := 16 * 1024;
     c_max_settings_count := 32;
     c_local_initial_window_size := CHTTP_H2_DEFAULT_WINDOW;
     c_connection_receive_window_size := CHTTP_H2_DEFAULT_WINDOW |}.

(** [sizeof] of the structures with eight-byte pointers. *)
Definition sizeof_stream : Z := 144.
Definition sizeof_proto : Z := 528.

Definition chttp_h2_proto_config_valid (config : chttp_h2_proto_config) : bool :=
  negb (c_stream_capacity config =? 0) &&
  (c_stream_capacity config <=? SIZE_MAX / sizeof_stream) &&
  (CHTTP_H2_PREFACE_LEN + 2 * CHTTP_H2_FRAME_HEADER_SIZE + 42 + CHTTP_H2_DEFAULT_FRAME_BYTES <=?
     c_output_buffer_bytes config) &&
  (c_output_buffer_bytes config <=? PTRDIFF_MAX) &&
  (CHTTP_H2_FRAME_HEADER_SIZE + CHTTP_H2_DEFAULT_FRAME_BYTES <=? c_input_buffer_bytes config) &&
  (c_input_buffer_bytes config <=? PTRDIFF_MAX) &&
  negb (c_header_block_bytes config =? 0) &&
  (c_header_block_bytes config <=? PTRDIFF_MAX) &&
  (c_header_block_bytes config <=? c_output_buffer_bytes config - CHTTP_H2_FRAME_HEADER_SIZE) &&
  negb (c_max_header_list_bytes config =? 0) &&
  (c_max_header_list_bytes config <=? UINT32_MAX) &&
  (c_hpack_dynamic_table_bytes config <=? UINT32_MAX) &&
  negb (c_max_hpack_string_bytes config =? 0) &&
  negb (c_max_settings_count config =? 0) &&
  (c_max_settings_count config <=? SIZE_MAX / 4) &&
  ((c_local_initial_window_size config =? 0) ||
   (c_local_initial_window_size config <=? CHTTP_H2_MAX_WINDOW)) &&
  ((c_connection_receive_window_size config =? 0) ||
   ((CHTTP_H2_DEFAULT_WINDOW <=? c_connection_receive_window_size config) &&
    (c_connection_receive_window_size config <=? CHTTP_H2_MAX_WINDOW))).

Definition proto_initial_capacity (maximum preferred : Z) : Z :=
  if maximum <? preferred then maximum else preferred.

Section Create.
Context {alloc : Allocator} {U : Type}.
Implicit Types p : chttp_h2_proto U.

Definition chttp_h2_proto_create (mode : chttp_h2_proto_mode)
    (config : option chttp_h2_proto_config) (user : U) : option (chttp_h2_proto U) :=
  let selected := match config with Some config => config | None => proto_default_config end in
  if negb (chttp_h2_proto_config_valid selected) then None
  else
    let local_initial_window :=
      if negb (c_local_initial_window_size selected =? 0)
      then c_local_initial_window_size selected else CHTTP_H2_DEFAULT_WINDOW in
    let connection_receive_window :=
      if negb (c_connection_receive_window_size selected =? 0)
      then c_connection_receive_window_size selected else CHTTP_H2_DEFAULT_WINDOW in
    if negb (malloc_ok sizeof_proto) then None
    else if negb (malloc_ok (c_stream_capacity selected * sizeof_stream)) ||
            negb (malloc_ok (c_stream_capacity selected * 4)) ||
            negb (malloc_ok (c_max_settings_count selected * 4))
    then None
    else
      match chttp_h2_hpack_create
              {| hc_max_dynamic_table_bytes := c_hpack_dynamic_table_bytes selected;
                 hc_max_header_block_bytes := c_header_block_bytes selected;
                 hc_max_string_bytes := c_max_hpack_string_bytes selected |} with
      | None => None
      | Some hpack =>
        let '(hpack, rc) := chttp_h2_hpack_encoder_set_max_size hpack 0 in
        if negb (rc =? 0) then None
        else
          match
            chttp_h2_hpack_buffer_init
              (proto_initial_capacity (c_output_buffer_bytes selected) 512)
              (c_output_buffer_bytes selected),
            chttp_h2_hpack_buffer_init
              (proto_initial_capacity (c_input_buffer_bytes selected) 512)
              (c_input_buffer_bytes selected),
            chttp_h2_hpack_buffer_init
              (proto_initial_capacity (c_header_block_bytes selected) 256)
              (c_header_block_bytes selected)
          with
          | Some out, Some inbuf, Some in_block =>
            Some {|
              p_user := user;
              p_mode := mode;
              p_config := selected;
              p_hpack := hpack;
              p_local :=
                {| st_header_table_size :=
                     if c_hpack_dynamic_table_bytes selected <? 4096
                     then u32 (c_hpack_dynamic_table_bytes selected) else 4096;
                   st_enable_push := 0;
                   st_max_concurrent_streams :=
                     if UINT32_MAX <? c_stream_capacity selected then UINT32_MAX
                     else u32 (c_stream_capacity selected);
                   st_initial_window_size := local_initial_window;
                   st_max_frame_size := 16384;
                   st_max_header_list_size := u32 (c_max_header_list_bytes selected);
                   st_enable_connect_protocol := 0 |};
              p_peer :=
                {| st_header_table_size := 4096;
                   st_enable_push := 0;
                   st_max_concurrent_streams := 0x7fffffff;
                   st_initial_window_size := 65535;
                   st_max_frame_size := 16384;
                   st_max_header_list_size := 0x7fffffff;
                   st_enable_connect_protocol := 0 |};
              p_peer_settings_received := false;
              p_settings_sent := false;
              p_settings_acked := false;
              p_streams := [];
              p_stream_cap := c_stream_capacity selected;
              p_local_reset_ids := replicate (Z.to_nat (c_stream_capacity selected)) 0;
              p_local_reset_cursor := 0;
              p_next_stream_id := if is_client mode then 1 else 2;
              p_max_peer_stream_id := 0;
              p_last_proc_stream_id := 0;
              p_goaway_sent := false;
              p_goaway_received_last := -1;
              p_goaway_received_error := 0;
              p_draining := false;
              p_conn_send_window := CHTTP_H2_DEFAULT_WINDOW;
              p_conn_recv_window := CHTTP_H2_DEFAULT_WINDOW;
              p_conn_consumed := 0;
              p_conn_local_window := i32 connection_receive_window;
              p_send_chunk := 0;
              p_out := out;
              p_inbuf := inbuf;
              p_in_block := in_block;
              p_in_headers := false;
              p_input_generation := 0;
              p_in_headers_stream := 0;
              p_in_headers_end_stream := false;
              p_input_paused := false;
              p_input_paused_stream := 0;
              p_input_paused_end_stream := false;
              p_client_preface_done := false;
              p_server_preface_seen := false;
              p_failed := false;
              p_last_error := 0 |}
          | _, _, _ => None
          end
      end.

Definition chttp_h2_proto_set_local_settings p
    (header_table_size enable_push max_concurrent_streams initial_window_size max_frame_size
     max_header_list_size : Z) : chttp_h2_proto U * Z :=
  if p_settings_sent p ||
     (c_hpack_dynamic_table_bytes (p_config p) <? header_table_size) ||
     (1 <? enable_push) || (max_concurrent_streams =? 0) ||
     (c_stream_capacity (p_config p) <? max_concurrent_streams) ||
     (CHTTP_H2_MAX_WINDOW <? initial_window_size) ||
     (max_frame_size <? CHTTP_H2_DEFAULT_FRAME_BYTES) ||
     (CHTTP_H2_MAX_FRAME_BYTES <? max_frame_size) ||
     (c_input_buffer_bytes (p_config p) - CHTTP_H2_FRAME_HEADER_SIZE <? max_frame_size) ||
     (max_header_list_size =? 0) ||
     (c_max_header_list_bytes (p_config p) <? max_header_list_size)
  then (p, -1)
  else
    let '(hpack, rc) := chttp_h2_hpack_decoder_set_max_size (p_hpack p) header_table_size in
    let p := p <| p_hpack := hpack |> in
    if negb (rc =? 0) then (p, -1)
    else
      (p <| p_local :=
              {| st_header_table_size := header_table_size;
                 st_enable_push := enable_push;
                 st_max_concurrent_streams := max_concurrent_streams;
                 st_initial_window_size := initial_window_size;
                 st_max_frame_size := max_frame_size;
                 st_max_header_list_size := max_header_list_size;
                 st_enable_connect_protocol := st_enable_connect_protocol (p_local p) |} |>, 0).

End Create.

End H2Proto.
