(* ===== verification/H2ProtoSend.v ===== *)
(** * HTTP/2 engine: output

    Model of the output side of [http_common/http/chttp_h2_proto.c]: frames
    are serialised into [p_out], the submit functions queue requests,
    responses, DATA, trailers and control frames, and [chttp_h2_proto_send]
    turns pending bodies into DATA frames within the flow-control windows.

    A function that returns [int] returns the engine and the integer.  The
    application is a parameter: its callbacks act on the engine, because they
    may call back into it, and its body sources act on the user state only. *)

From S2P Require Import Prelude H2Frame HpackBuffer HpackHuffman HpackTable Hpack H2Proto.

Module H2ProtoSend.
Import H2Frame HpackBuffer HpackHuffman HpackTable Hpack H2Proto.

(** [chttp_h2_proto_callbacks]; [None] is [NULL].  [on_begin_headers] and
    [on_header] run while a header block is being decoded and act on the
    user state (the pointer that the adapter of the server attaches to a stream
    there is not modelled); the return value of [on_stream_close] is never read. *)
Record chttp_h2_proto_callbacks (U : Type) := {
  on_begin_headers : option (U -> Z -> U * Z);
  on_header : option (U -> Z -> list Z -> list Z -> U * Z);
  on_end_headers : option (chttp_h2_proto U -> Z -> bool -> chttp_h2_proto U * Z);
  on_data : option (chttp_h2_proto U -> Z -> list Z -> chttp_h2_proto U * Z);
  on_stream_close : option (chttp_h2_proto U -> Z -> Z -> chttp_h2_proto U);
  on_settings : option (chttp_h2_proto U -> list (Z * Z) -> chttp_h2_proto U);
  on_settings_ack : option (chttp_h2_proto U -> chttp_h2_proto U);
  on_ping_ack : option (chttp_h2_proto U -> list Z -> chttp_h2_proto U);
  on_window_update : option (chttp_h2_proto U -> Z -> Z -> chttp_h2_proto U);
  on_goaway : option (chttp_h2_proto U -> Z -> Z -> chttp_h2_proto U);
  on_rst_received : option (chttp_h2_proto U -> Z -> Z -> chttp_h2_proto U);
  on_wake_write : option (chttp_h2_proto U -> chttp_h2_proto U);
}.

(** [chttp_h2_proto_source_result] with the bytes the source left in [buf]. *)
Record chttp_h2_proto_source_result := {
  sr_status : Z;
  sr_size : Z;
  sr_bytes : list Z;
}.

(** What the engine calls: the callbacks and, for each source, the function
    that fills a buffer of the given length. *)
Class Application (U : Type) := {
  cbs : chttp_h2_proto_callbacks U;
  source_pull : U -> Z -> Z -> U * chttp_h2_proto_source_result;
}.

Section Output.
Context {alloc : Allocator} {U : Type} {app : Application U}.
Implicit Types p : chttp_h2_proto U.

(** ** Output helpers *)

Definition out_frame p (type flags stream_id : Z) (payload : list Z) : chttp_h2_proto U * Z :=
  let plen := zlen payload in
  if (stream_id <? 0) || (CHTTP_H2_MAX_FRAME_BYTES <? plen) ||
     (SIZE_MAX - CHTTP_H2_FRAME_HEADER_SIZE <? plen)
  then (p, -1)
  else
    match chttp_h2_frame_header_encode 9 (u32 plen) type flags (u32 stream_id) with
    | Err _ => (p, -1)
    | Ok hdr =>
      let '(out, rc) :=
        chttp_h2_hpack_buffer_reserve (p_out p) (CHTTP_H2_FRAME_HEADER_SIZE + plen) in
      let p := p <| p_out := out |> in
      if negb (rc =? 0) then (p, -1)
      else (p <| p_out := buf_append (p_out p) (hdr ++ payload) |>, 0)
    end.

(** The loop of [proto_header_bounds]: the new [encoded] and [header_list]. *)
Fixpoint header_bounds_loop (max_hpack_string_bytes : Z) (headers : list chttp_h2_hpack_header)
    (encoded header_list : Z) : option (Z * Z) :=
  match headers with
  | [] => Some (encoded, header_list)
  | header :: headers =>
    let name_size := zlen (hd_name header) in
    let value_size := zlen (hd_value header) in
    if (max_hpack_string_bytes <? name_size) || (max_hpack_string_bytes <? value_size) ||
       (SIZE_MAX - value_size <? name_size)
    then None
    else
      let field_size := name_size + value_size in
      if (SIZE_MAX - CHTTP_H2_PROTO_HPACK_FIELD_OVERHEAD_BYTES <? field_size) ||
         (SIZE_MAX - (field_size + CHTTP_H2_PROTO_HPACK_FIELD_OVERHEAD_BYTES) <? encoded)
      then None
      else
        let encoded := encoded + field_size + CHTTP_H2_PROTO_HPACK_FIELD_OVERHEAD_BYTES in
        if (SIZE_MAX - CHTTP_H2_HEADER_LIST_FIELD_OVERHEAD <? field_size) ||
           (SIZE_MAX - (field_size + CHTTP_H2_HEADER_LIST_FIELD_OVERHEAD) <? header_list)
        then None
        else
          header_bounds_loop max_hpack_string_bytes headers encoded
            (header_list + field_size + CHTTP_H2_HEADER_LIST_FIELD_OVERHEAD)
  end.

(** [*out_encoded_bound] and [*out_wire_bound], or [None] for -1. *)
Definition proto_header_bounds p (headers : list chttp_h2_hpack_header) (has_priority : bool) :
    option (Z * Z) :=
  match header_bounds_loop (c_max_hpack_string_bytes (p_config p)) headers
          CHTTP_H2_PROTO_HPACK_PENDING_UPDATE_BYTES 0 with
  | None => None
  | Some (encoded, header_list) =>
    if (c_header_block_bytes (p_config p) <? encoded) ||
       (st_max_header_list_size (p_peer p) <? header_list)
    then None
    else
      let priority := if has_priority then CHTTP_H2_PRIORITY_BYTES else 0 in
      if SIZE_MAX - priority <? encoded then None
      else
        let payload := encoded + priority in
        let frame_count :=
          if payload =? 0 then 1 else 1 + (payload - 1) / st_max_frame_size (p_peer p) in
        if (SIZE_MAX / CHTTP_H2_FRAME_HEADER_SIZE <? frame_count) ||
           (SIZE_MAX - frame_count * CHTTP_H2_FRAME_HEADER_SIZE <? payload)
        then None
        else Some (encoded, payload + frame_count * CHTTP_H2_FRAME_HEADER_SIZE)
  end.

(** ** Connection preface, SETTINGS, WINDOW_UPDATE, GOAWAY *)

(** The settings [chttp_h2_proto_submit_settings] advertises. *)
Definition advertised_settings p : list (Z * Z) :=
  (if is_client (p_mode p)
   then [(CHTTP_H2_SETTING_ENABLE_PUSH, st_enable_push (p_local p))] else []) ++
  [(CHTTP_H2_SETTING_MAX_CONCURRENT_STREAMS, st_max_concurrent_streams (p_local p));
   (CHTTP_H2_SETTING_HEADER_TABLE_SIZE, st_header_table_size (p_local p));
   (CHTTP_H2_SETTING_INITIAL_WINDOW_SIZE, st_initial_window_size (p_local p));
   (CHTTP_H2_SETTING_MAX_FRAME_SIZE, st_max_frame_size (p_local p));
   (CHTTP_H2_SETTING_MAX_HEADER_LIST_SIZE, st_max_header_list_size (p_local p))] ++
  (if negb (st_enable_connect_protocol (p_local p) =? 0)
   then [(CHTTP_H2_SETTING_ENABLE_CONNECT_PROTOCOL, 1)] else []).

Definition chttp_h2_proto_submit_settings p : chttp_h2_proto U * Z :=
  match chttp_h2_frame_settings_encode 42 (advertised_settings p) with
  | Err _ => (p, -1)
  | Ok payload =>
    try! p := out_frame p CHTTP_H2_FRAME_SETTINGS 0 0 payload in
    (p <| p_settings_sent := true |>, 0)
  end.

(** [chttp_h2_proto_submit_window_update] over the [proto_ensure_preface] it
    calls: the two functions call each other. *)
Definition submit_window_update_with (ensure_preface : chttp_h2_proto U -> chttp_h2_proto U * Z)
    p (stream_id increment : Z) : chttp_h2_proto U * Z :=
  try! p := ensure_preface p in
  (if (stream_id <? 0) || (increment =? 0) || (CHTTP_H2_MAX_WINDOW <? increment) then (p, -1)
   else
     match chttp_h2_frame_window_update_encode 4 increment with
     | Err _ => (p, -1)
     | Ok payload =>
       if stream_id =? 0 then
         if CHTTP_H2_MAX_WINDOW - i32 increment <? p_conn_recv_window p then (p, -1)
         else
           let p := p <| p_conn_recv_window := p_conn_recv_window p + i32 increment |> in
           out_frame p CHTTP_H2_FRAME_WINDOW_UPDATE 0 stream_id payload
       else
         match proto_find p stream_id with
         | None => (p, -1)
         | Some i =>
           let s := stream_at p i in
           if s_closed s then (p, -1)
           else if CHTTP_H2_MAX_WINDOW - i32 increment <? s_recv_window s then (p, -1)
           else
             let p := upd_stream p i
               (fun s => s <| s_recv_window := s_recv_window s + i32 increment |>) in
             out_frame p CHTTP_H2_FRAME_WINDOW_UPDATE 0 stream_id payload
         end
     end).

(** [fuel] bounds the nesting of the two functions.  The nested call of
    [proto_ensure_preface] finds the preface queued and returns at once, so
    depth 2 is enough. *)
Fixpoint ensure_preface_fuel (fuel : nat) p : chttp_h2_proto U * Z :=
  match fuel with
  | O => (p, -1)
  | S fuel =>
    let announce_window p :=
      if CHTTP_H2_DEFAULT_WINDOW <? p_conn_local_window p then
        submit_window_update_with (ensure_preface_fuel fuel) p 0
          (u32 (p_conn_local_window p - CHTTP_H2_DEFAULT_WINDOW))
      else (p, 0) in
    if is_client (p_mode p) && negb (p_client_preface_done p) then
      let '(out, rc) :=
        chttp_h2_hpack_buffer_reserve (p_out p)
          (CHTTP_H2_PREFACE_LEN + 2 * CHTTP_H2_FRAME_HEADER_SIZE + 42 + 4) in
      let p := p <| p_out := out |> in
      if negb (rc =? 0) then (p, -1)
      else
        let p := p <| p_out := buf_append (p_out p) CHTTP_H2_PREFACE |>
                   <| p_client_preface_done := true |> in
        let '(p, status) := chttp_h2_proto_submit_settings p in
        if negb (status =? 0) then (p, status) else announce_window p
    else if is_server (p_mode p) && p_server_preface_seen p && negb (p_settings_sent p) then
      let '(p, status) := chttp_h2_proto_submit_settings p in
      if negb (status =? 0) then (p, status) else announce_window p
    else (p, 0)
  end.

Definition proto_ensure_preface p : chttp_h2_proto U * Z := ensure_preface_fuel 2 p.

Definition chttp_h2_proto_submit_window_update p (stream_id increment : Z) :
    chttp_h2_proto U * Z :=
  submit_window_update_with proto_ensure_preface p stream_id increment.

Definition chttp_h2_proto_submit_ping p (opaque : list Z) : chttp_h2_proto U * Z :=
  try! p := proto_ensure_preface p in
  out_frame p CHTTP_H2_FRAME_PING 0 0 (ztake 8 opaque).

Definition chttp_h2_proto_submit_goaway p (last_stream_id error_code : Z) :
    chttp_h2_proto U * Z :=
  if 0x7fffffff <? last_stream_id then (p, -1)
  else
    try! p := proto_ensure_preface p in
    (match chttp_h2_frame_goaway_encode 8 last_stream_id error_code with
     | Err _ => (p, -1)
     | Ok payload =>
       try! p := out_frame p CHTTP_H2_FRAME_GOAWAY 0 0 payload in
       (p <| p_goaway_sent := true |> <| p_draining := true |>, 0)
     end).

Definition proto_fail p (error : Z) : chttp_h2_proto U :=
  if negb (p_failed p) then
    let p := p <| p_failed := true |> <| p_last_error := error |> in
    (chttp_h2_proto_submit_goaway p (u32 (p_last_proc_stream_id p)) error).1
  else p.

(** ** HEADERS *)

(** The [do ... while] loop over the header block; [block] is what is left of
    it and [first] says that [offset == 0u].  Every round sends at least one
    byte, so the length of the block is enough fuel. *)
Fixpoint headers_loop (fuel : nat) p (stream_id : Z) (block : list Z)
    (first end_stream has_priority : bool) : chttp_h2_proto U * Z :=
  match fuel with
  | O => (p, -1)
  | S fuel =>
    let chunk :=
      if st_max_frame_size (p_peer p) <? zlen block then st_max_frame_size (p_peer p)
      else zlen block in
    let type := if first then CHTTP_H2_FRAME_HEADERS else CHTTP_H2_FRAME_CONTINUATION in
    let flags := if first && end_stream then CHTTP_H2_FLAG_END_STREAM else 0 in
    let flags := if first && has_priority then Z.lor flags CHTTP_H2_FLAG_PRIORITY else flags in
    let flags :=
      if chunk =? zlen block then Z.lor flags CHTTP_H2_FLAG_END_HEADERS else flags in
    let '(p, rc) := out_frame p type flags stream_id (ztake chunk block) in
    if negb (rc =? 0) then (proto_fail p CHTTP_H2_ERR_INTERNAL_ERROR, -1)
    else
      match zdrop chunk block with
      | [] => (p, 0)
      | block => headers_loop fuel p stream_id block false end_stream has_priority
      end
  end.

Definition out_headers p (stream_id : Z) (hdrs : list chttp_h2_hpack_header)
    (end_stream has_priority : bool) (weight dep_stream_id : Z) (exclusive : bool) :
    chttp_h2_proto U * Z :=
  match proto_header_bounds p hdrs has_priority with
  | None => (p, -1)
  | Some (encoded_bound, wire_bound) =>
    let '(out, rc) := chttp_h2_hpack_buffer_reserve (p_out p) wire_bound in
    let p := p <| p_out := out |> in
    if negb (rc =? 0) then (p, -1)
    else
      match chttp_h2_hpack_buffer_init (if encoded_bound <? 256 then encoded_bound else 256)
              (c_header_block_bytes (p_config p)) with
      | None => (p, -1)
      | Some blk =>
        let '(hpack, blk, rc) := chttp_h2_hpack_encode (p_hpack p) blk hdrs in
        let p := p <| p_hpack := hpack |> in
        if negb (rc =? 0) then (proto_fail p CHTTP_H2_ERR_INTERNAL_ERROR, -1)
        else
          let prioritised :=
            if has_priority then
              let '(blk, rc) := chttp_h2_hpack_buffer_reserve blk CHTTP_H2_PRIORITY_BYTES in
              if negb (rc =? 0) then None
              else
                match chttp_h2_frame_priority_encode CHTTP_H2_PRIORITY_BYTES exclusive
                        (u32 dep_stream_id) weight with
                | Err _ => None
                | Ok priority => Some (priority ++ buf_data blk)
                end
            else Some (buf_data blk) in
          match prioritised with
          | None => (p, -1)
          | Some [] =>
            let flags :=
              if end_stream then Z.lor CHTTP_H2_FLAG_END_HEADERS CHTTP_H2_FLAG_END_STREAM
              else CHTTP_H2_FLAG_END_HEADERS in
            let '(p, rc) := out_frame p CHTTP_H2_FRAME_HEADERS flags stream_id [] in
            if negb (rc =? 0) then (proto_fail p CHTTP_H2_ERR_INTERNAL_ERROR, -1) else (p, 0)
          | Some block =>
            headers_loop (length block) p stream_id block true end_stream has_priority
          end
      end
  end.

(** ** Stream closure *)

Definition stream_closed_cb p (stream_id error_code : Z) : chttp_h2_proto U :=
  match on_stream_close U cbs with
  | Some f => f p stream_id error_code
  | None => p
  end.

Definition proto_maybe_close p (i : nat) : chttp_h2_proto U :=
  let s := stream_at p i in
  if s_closed s then p
  else if s_end_stream_sent s && s_remote_end_stream s then
    let p := upd_stream p i
      (fun s => s <| s_closed := true |> <| s_body := None |> <| s_body_off := 0 |>) in
    stream_closed_cb p (s_id s) 0
  else p.

(** [if (s->trailers_pending)]: drop the queued trailers. *)
Definition drop_trailers (s : chttp_h2_proto_stream) : chttp_h2_proto_stream :=
  if s_trailers_pending s then
    s <| s_trailers_pending := false |>
      <| s_trailers := chttp_h2_hpack_buffer_destroy (s_trailers s) |>
  else s.

Definition chttp_h2_proto_submit_rst_stream p (stream_id error_code : Z) :
    chttp_h2_proto U * Z :=
  if stream_id <=? 0 then (p, -1)
  else
    try! p := proto_ensure_preface p in
    (match proto_find p stream_id with
     | None => (p, -1)
     | Some i =>
       if s_closed (stream_at p i) then (p, -1)
       else
         match chttp_h2_frame_rst_encode 4 error_code with
         | Err _ => (p, -1)
         | Ok payload =>
           try! p := out_frame p CHTTP_H2_FRAME_RST_STREAM 0 stream_id payload in
           (let p := upd_stream p i
              (fun s => s <| s_closed := true |> <| s_local_reset := true |>) in
            let p := proto_local_reset_record p stream_id in
            let p := upd_stream p i
              (fun s => drop_trailers (s <| s_body := None |> <| s_body_off := 0 |>)) in
            (stream_closed_cb p stream_id error_code, 0))
         end
     end).

End Output.

#[global] Arguments out_frame : simpl never.
#[global] Arguments proto_header_bounds : simpl never.
#[global] Arguments proto_ensure_preface : simpl never.

End H2ProtoSend.
