(* ===== verification/H2ProtoSubmit.v ===== *)
(** * HTTP/2 engine: requests, responses and the send path

    Model of the rest of the output side of
    [http_common/http/chttp_h2_proto.c]: submitting requests, responses, DATA
    and trailers, turning pending bodies into DATA frames, and the consumption
    calls that replenish the receive windows. *)

From S2P Require Import Prelude H2Frame HpackBuffer HpackHuffman HpackTable Hpack H2Proto.
From S2P Require Import H2ProtoSend.

Module H2ProtoSubmit.
Import H2Frame HpackBuffer HpackHuffman HpackTable Hpack H2Proto H2ProtoSend.

Section Submit.
Context {alloc : Allocator} {U : Type} {app : Application U}.
Implicit Types p : chttp_h2_proto U.

(** ** Requests *)

(** The third component is what is stored to [*out_stream_id], if anything. *)
Definition chttp_h2_proto_submit_request_ex p (hdrs : list chttp_h2_hpack_header)
    (body : option (list Z)) (source : option Z) (weight dep_stream_id : Z) (exclusive : bool) :
    chttp_h2_proto U * Z * option Z :=
  let body_len := match body with Some body => zlen body | None => 0 end in
  if negb (is_client (p_mode p)) || p_draining p || p_failed p ||
     (match body, source with Some _, Some _ => true | _, _ => false end) ||
     (256 <? weight) ||
     (st_max_concurrent_streams (p_peer p) <=? proto_active_local_streams p)
  then (p, -1, None)
  else
    let has_priority := negb (weight =? 0) || (0 <? dep_stream_id) || exclusive in
    let effective_weight := if negb (weight =? 0) then weight else 16 in
    let id := p_next_stream_id p in
    if (0x7ffffffe <? p_next_stream_id p) || (dep_stream_id =? id) then (p, -1, Some 0)
    else
      let '(p, rc) := proto_ensure_preface p in
      if negb (rc =? 0) then (p, -1, Some 0)
      else
        let p := p <| p_next_stream_id := p_next_stream_id p + 2 |> in
        let '(p, slot) := proto_new_stream p id 0 in
        match slot with
        | None => (p, -1, Some 0)
        | Some i =>
          let end_stream :=
            match source with Some _ => false | None => body_len =? 0 end in
          let p := upd_stream p i (fun s => s <| s_end_stream_sent := end_stream |>) in
          let '(p, rc) :=
            out_headers p id hdrs end_stream has_priority effective_weight dep_stream_id
              exclusive in
          if negb (rc =? 0) then
            (upd_stream p i
               (fun s => s <| s_closed := true |> <| s_body := None |> <| s_source := None |>),
             -1, Some 0)
          else
            let p :=
              match source with
              | Some _ => upd_stream p i (fun s => s <| s_source := source |>)
              | None =>
                if 0 <? body_len then
                  upd_stream p i (fun s => s <| s_body := body |> <| s_body_off := 0 |>
                                             <| s_body_eof := true |>)
                else p
              end in
            (p, 0, Some id)
        end.

Definition chttp_h2_proto_submit_request p (hdrs : list chttp_h2_hpack_header)
    (body : option (list Z)) : chttp_h2_proto U * Z * option Z :=
  chttp_h2_proto_submit_request_ex p hdrs body None 0 0 false.

Definition chttp_h2_proto_submit_request_headers p (hdrs : list chttp_h2_hpack_header)
    (end_stream : Z) : chttp_h2_proto U * Z * option Z :=
  if negb (is_client (p_mode p)) || p_draining p || p_failed p ||
     (negb (end_stream =? 0) && negb (end_stream =? 1)) ||
     (st_max_concurrent_streams (p_peer p) <=? proto_active_local_streams p)
  then (p, -1, None)
  else
    let stream_id := p_next_stream_id p in
    if 0x7ffffffe <? p_next_stream_id p then (p, -1, Some 0)
    else
      let '(p, rc) := proto_ensure_preface p in
      if negb (rc =? 0) then (p, -1, Some 0)
      else
        let p := p <| p_next_stream_id := p_next_stream_id p + 2 |> in
        let '(p, slot) := proto_new_stream p stream_id 0 in
        match slot with
        | None => (p, -1, Some 0)
        | Some i =>
          let end_stream := negb (end_stream =? 0) in
          let p := upd_stream p i (fun s => s <| s_end_stream_sent := end_stream |>) in
          let '(p, rc) := out_headers p stream_id hdrs end_stream false 0 0 false in
          if negb (rc =? 0) then
            (upd_stream p i (fun s => s <| s_closed := true |>), -1, Some 0)
          else (p, 0, Some stream_id)
        end.

(** ** Responses *)

Definition chttp_h2_proto_submit_headers p (stream_id : Z) (hdrs : list chttp_h2_hpack_header)
    (end_stream : Z) : chttp_h2_proto U * Z :=
  if negb (is_server (p_mode p)) || (negb (end_stream =? 0) && negb (end_stream =? 1))
  then (p, -1)
  else
    match proto_find p stream_id with
    | None => (p, -1)
    | Some i =>
      if s_closed (stream_at p i) then (p, -1)
      else
        try! p := proto_ensure_preface p in
        (let end_stream := negb (end_stream =? 0) in
         try! p := out_headers p stream_id hdrs end_stream false 0 0 false in
         (if end_stream then
            (proto_maybe_close (upd_stream p i (fun s => s <| s_end_stream_sent := true |>)) i, 0)
          else (p, 0)))
    end.

Definition chttp_h2_proto_submit_response_ex p (stream_id : Z)
    (hdrs : list chttp_h2_hpack_header) (body : option (list Z)) (source : option Z) :
    chttp_h2_proto U * Z :=
  let body_len := match body with Some body => zlen body | None => 0 end in
  if negb (is_server (p_mode p)) ||
     (match body, source with Some _, Some _ => true | _, _ => false end)
  then (p, -1)
  else
    match proto_find p stream_id with
    | None => (p, -1)
    | Some i =>
      if s_closed (stream_at p i) then (p, -1)
      else
        try! p := proto_ensure_preface p in
        (let end_stream :=
           (body_len =? 0) && match source with None => true | Some _ => false end in
         let p := upd_stream p i (fun s => s <| s_end_stream_sent := end_stream |>) in
         try! p := out_headers p stream_id hdrs end_stream false 0 0 false in
         (match source with
          | Some _ => (upd_stream p i (fun s => s <| s_source := source |>), 0)
          | None =>
            if 0 <? body_len then
              (upd_stream p i (fun s => s <| s_body := body |> <| s_body_off := 0 |>
                                          <| s_body_eof := true |>), 0)
            else (proto_maybe_close p i, 0)
          end))
    end.

Definition chttp_h2_proto_submit_response p (stream_id : Z) (hdrs : list chttp_h2_hpack_header)
    (body : option (list Z)) : chttp_h2_proto U * Z :=
  chttp_h2_proto_submit_response_ex p stream_id hdrs body None.

(** [data] is [None] for [NULL] with [len] 0. *)
Definition chttp_h2_proto_submit_data p (stream_id : Z) (data : option (list Z))
    (end_stream : Z) : chttp_h2_proto U * Z :=
  let len := match data with Some data => zlen data | None => 0 end in
  if ((len =? 0) && (end_stream =? 0)) || (negb (end_stream =? 0) && negb (end_stream =? 1))
  then (p, -1)
  else
    match proto_find p stream_id with
    | None => (p, -1)
    | Some i =>
      let s := stream_at p i in
      if s_closed s then (p, -1)
      else if (match s_body s with Some _ => true | None => false end) || has_source s ||
              s_end_stream_sent s
      then (p, -1)
      else
        try! p := proto_ensure_preface p in
        (upd_stream p i
           (fun s => s <| s_body := Some (match data with Some data => data | None => [] end) |>
                       <| s_body_off := 0 |> <| s_body_eof := negb (end_stream =? 0) |>), 0)
    end.

Definition chttp_h2_proto_submit_trailers p (stream_id : Z) (hdrs : list chttp_h2_hpack_header) :
    chttp_h2_proto U * Z :=
  if negb (is_server (p_mode p)) then (p, -1)
  else
    match proto_find p stream_id with
    | None => (p, -1)
    | Some i =>
      if s_closed (stream_at p i) then (p, -1)
      else
        try! p := proto_ensure_preface p in
        (let s := stream_at p i in
         if s_trailers_pending s then (p, -1)
         else if body_pending s then
           match chttp_h2_hpack_buffer_init
                   (proto_initial_capacity (c_header_block_bytes (p_config p)) 64)
                   (c_header_block_bytes (p_config p)) with
           | None => (p, -1)
           | Some trailers =>
             let '(hpack, trailers, rc) := chttp_h2_hpack_encode (p_hpack p) trailers hdrs in
             let p := p <| p_hpack := hpack |> in
             if negb (rc =? 0) then
               (upd_stream p i
                  (fun s => s <| s_trailers := chttp_h2_hpack_buffer_destroy trailers |>), -1)
             else
               (upd_stream p i
                  (fun s => s <| s_trailers := trailers |> <| s_trailers_pending := true |>), 0)
           end
         else
           let p := upd_stream p i
             (fun s => s <| s_end_stream_sent := true |> <| s_body_eof := false |>) in
           try! p := out_headers p stream_id hdrs true false 0 0 false in
           (proto_maybe_close p i, 0))
    end.

(** ** Send path *)

Definition proto_any_pending_body p : bool :=
  if p_failed p then false
  else
    existsb
      (fun s => negb (s_closed s) &&
         (body_pending s || (has_source s && negb (s_source_done s) && negb (s_source_waiting s))))
      (p_streams p).

(** A round of the loop of [proto_emit_data] returns or starts the next. *)
Inductive emit_next :=
  | EmitReturn (p : chttp_h2_proto U)
  | EmitContinue (p : chttp_h2_proto U).

Definition drop_source (s : chttp_h2_proto_stream) : chttp_h2_proto_stream :=
  s <| s_source := None |>.

Definition clear_body (s : chttp_h2_proto_stream) : chttp_h2_proto_stream :=
  s <| s_body := None |> <| s_body_off := 0 |> <| s_body_eof := false |>.

(** [if (chunk > limit) chunk = limit] *)
Definition cap_at (chunk limit : Z) : Z := if limit <? chunk then limit else chunk.

(** The limits that the chunk of a DATA frame is subject to. *)
Definition window_chunk p (s : chttp_h2_proto_stream) (chunk : Z) : Z :=
  let chunk :=
    if negb (p_send_chunk p =? 0) && (p_send_chunk p <? chunk) then p_send_chunk p else chunk in
  cap_at (cap_at chunk (p_conn_send_window p)) (s_send_window s).

(** The body source branch. *)
Definition emit_source p (i : nat) (source max : Z) : emit_next :=
  let s := stream_at p i in
  let fail p := EmitReturn (proto_fail p CHTTP_H2_ERR_INTERNAL_ERROR) in
  if s_source_done s then EmitReturn p
  else
    let chunk := window_chunk p s max in
    if chunk =? 0 then EmitReturn p
    else
      let '(out, rc) := chttp_h2_hpack_buffer_reserve (p_out p) (9 + chunk) in
      let p := p <| p_out := out |> in
      if negb (rc =? 0) then fail p
      else
        let '(user, result) := source_pull (p_user p) source chunk in
        let p := p <| p_user := user |> in
        let n := sr_size result in
        let status := sr_status result in
        if status =? CHTTP_H2_PROTO_SOURCE_WAIT then
          if negb (n =? 0) then fail (upd_stream p i drop_source)
          else EmitReturn (upd_stream p i (fun s => s <| s_source_waiting := true |>))
        else if status =? CHTTP_H2_PROTO_SOURCE_ERROR then
          let p := upd_stream p i drop_source in
          EmitReturn (chttp_h2_proto_submit_rst_stream p (s_id (stream_at p i))
                        CHTTP_H2_ERR_CANCEL).1
        else if (status =? CHTTP_H2_PROTO_SOURCE_DATA) && ((n =? 0) || (chunk <? n)) then
          fail (upd_stream p i drop_source)
        else if (status =? CHTTP_H2_PROTO_SOURCE_EOF) && negb (n =? 0) then
          fail (upd_stream p i drop_source)
        else if negb (status =? CHTTP_H2_PROTO_SOURCE_EOF) &&
                negb (status =? CHTTP_H2_PROTO_SOURCE_DATA)
        then fail (upd_stream p i drop_source)
        else
          let eof := status =? CHTTP_H2_PROTO_SOURCE_EOF in
          let flags := if eof then CHTTP_H2_FLAG_END_STREAM else 0 in
          let p :=
            if eof then upd_stream p i (fun s => (drop_source s) <| s_source_done := true |>)
            else p in
          match chttp_h2_frame_header_encode 9 (u32 n) CHTTP_H2_FRAME_DATA flags (u32 (s_id s)) with
          | Err _ => fail p
          | Ok hdr =>
            let p := p <| p_out := buf_append (p_out p) (hdr ++ ztake n (sr_bytes result)) |> in
            if eof then
              EmitReturn (proto_maybe_close
                (upd_stream p i (fun s => s <| s_end_stream_sent := true |>)) i)
            else
              EmitContinue (upd_stream (p <| p_conn_send_window := p_conn_send_window p - i32 n |>) i
                (fun s => s <| s_send_window := s_send_window s - i32 n |>))
          end.

(** [if (s->body_off == s->body_len)]: what follows the last byte of a body;
    [flags] are those of the DATA frame.  The boolean tells that the engine
    failed. *)
Definition emit_body_end p (i : nat) (flags : Z) : chttp_h2_proto U * bool :=
  let s := stream_at p i in
  if s_body_eof s then
    if s_trailers_pending s then
      let p := upd_stream p i (fun s => s <| s_trailers_pending := false |>) in
      let '(p, rc) :=
        out_frame p CHTTP_H2_FRAME_HEADERS
          (Z.lor CHTTP_H2_FLAG_END_HEADERS CHTTP_H2_FLAG_END_STREAM) (s_id s)
          (buf_data (s_trailers s)) in
      if negb (rc =? 0) then (proto_fail p CHTTP_H2_ERR_INTERNAL_ERROR, true)
      else
        (upd_stream p i
           (fun s => clear_body
              (s <| s_trailers := chttp_h2_hpack_buffer_destroy (s_trailers s) |>
                 <| s_end_stream_sent := true |>)), false)
    else if has_flag flags CHTTP_H2_FLAG_END_STREAM then
      (upd_stream p i (fun s => clear_body (s <| s_end_stream_sent := true |>)), false)
    else
      (upd_stream p i
         (fun s => s <| s_body := Some [] |> <| s_body_off := 0 |> <| s_body_eof := true |>
                     <| s_end_stream_sent := false |>), false)
  else (upd_stream p i (fun s => s <| s_body := None |> <| s_body_off := 0 |>), false).

(** The flat body branch. *)
Definition emit_body p (i : nat) (max : Z) : emit_next :=
  let s := stream_at p i in
  let fail p := EmitReturn (proto_fail p CHTTP_H2_ERR_INTERNAL_ERROR) in
  match s_body s with
  | None => EmitReturn p
  | Some body =>
    if negb (body_pending s) then EmitReturn p
    else
      let chunk := window_chunk p s (cap_at (zlen body - s_body_off s) max) in
      if chunk =? 0 then EmitReturn p
      else
        let flags :=
          if (s_body_off s + chunk =? zlen body) && s_body_eof s && negb (s_trailers_pending s)
          then CHTTP_H2_FLAG_END_STREAM else 0 in
        let '(out, rc) := chttp_h2_hpack_buffer_reserve (p_out p) (9 + chunk) in
        let p := p <| p_out := out |> in
        if negb (rc =? 0) then fail p
        else
          match chttp_h2_frame_header_encode 9 (u32 chunk) CHTTP_H2_FRAME_DATA flags
                  (u32 (s_id s)) with
          | Err _ => fail p
          | Ok hdr =>
            let p := p <| p_out := buf_append (p_out p)
                                     (hdr ++ ztake chunk (zdrop (s_body_off s) body)) |>
                       <| p_conn_send_window := p_conn_send_window p - i32 chunk |> in
            let p := upd_stream p i
              (fun s => s <| s_send_window := s_send_window s - i32 chunk |>
                          <| s_body_off := s_body_off s + chunk |>) in
            let '(p, failed) :=
              if s_body_off s + chunk =? zlen body then emit_body_end p i flags else (p, false) in
            if failed then EmitReturn p else EmitContinue (proto_maybe_close p i)
          end
  end.

(** One round of [proto_emit_data]. *)
Definition emit_round p (i : nat) : emit_next :=
  let s := stream_at p i in
  let fail p := EmitReturn (proto_fail p CHTTP_H2_ERR_INTERNAL_ERROR) in
  if s_closed s then EmitReturn p
  else if c_output_buffer_bytes (p_config p) <? buf_size (p_out p) then fail p
  else
    let output_remaining := c_output_buffer_bytes (p_config p) - buf_size (p_out p) in
    if negb (has_source s) &&
       (match s_body s with Some body => zlen body =? 0 | None => false end) &&
       (s_body_off s =? 0) && s_body_eof s
    then
      if output_remaining <? CHTTP_H2_FRAME_HEADER_SIZE then EmitReturn p
      else
        let '(p, rc) := out_frame p CHTTP_H2_FRAME_DATA CHTTP_H2_FLAG_END_STREAM (s_id s) [] in
        if negb (rc =? 0) then fail p
        else
          EmitReturn (proto_maybe_close
            (upd_stream p i (fun s => (clear_body s) <| s_end_stream_sent := true |>)) i)
    else if (p_conn_send_window p <=? 0) || (s_send_window s <=? 0) then EmitReturn p
    else if output_remaining <=? CHTTP_H2_FRAME_HEADER_SIZE then EmitReturn p
    else
      let max := cap_at (st_max_frame_size (p_peer p))
                   (output_remaining - CHTTP_H2_FRAME_HEADER_SIZE) in
      match s_source s with
      | Some source => emit_source p i source max
      | None => emit_body p i max
      end.

(** Every round that continues sends at least one byte of the connection
    window, so the window bounds the rounds. *)
Fixpoint emit_loop (fuel : nat) p (i : nat) : chttp_h2_proto U :=
  match fuel with
  | O => p
  | S fuel =>
    match emit_round p i with
    | EmitReturn p => p
    | EmitContinue p => emit_loop fuel p i
    end
  end.

Definition proto_emit_data p (i : nat) : chttp_h2_proto U :=
  emit_loop (Z.to_nat (p_conn_send_window p + 2)) p i.

(** [for (i = 0; i < p->stream_count; i++)]; the count never falls and stays
    below the capacity, so the capacity bounds the rounds. *)
Definition for_streams (body : chttp_h2_proto U -> nat -> chttp_h2_proto U) p :
    chttp_h2_proto U :=
  foldl (fun p i => if decide (i < length (p_streams p))%nat then body p i else p) p
    (seq 0 (Z.to_nat (p_stream_cap p))).

(** The return value and the bytes at [*out]. *)
Definition chttp_h2_proto_send p : chttp_h2_proto U * Z * list Z :=
  let '(p, rc) := proto_ensure_preface p in
  if negb (rc =? 0) then (p, -1, [])
  else
    let p := if negb (p_failed p) then for_streams proto_emit_data p else p in
    let n := buf_size (p_out p) in
    let out := buf_data (p_out p) in
    (p <| p_out := (p_out p) <| buf_data := [] |> |>, n, out).

Definition chttp_h2_proto_want_write p : bool :=
  (0 <? buf_size (p_out p)) || proto_any_pending_body p.

Definition chttp_h2_proto_want_read p : bool :=
  negb (p_failed p) || (0 <? buf_size (p_out p)).

(** ** Flow control consumption *)

Definition chttp_h2_proto_consume_connection p (bytes : Z) : chttp_h2_proto U * Z :=
  if (bytes =? 0) || (CHTTP_H2_MAX_WINDOW <? bytes) then (p, -1)
  else if CHTTP_H2_MAX_WINDOW - i32 bytes <? p_conn_consumed p then (p, -1)
  else
    let p := p <| p_conn_consumed := p_conn_consumed p + i32 bytes |> in
    if (0 <? p_conn_consumed p) && (p_conn_local_window p ÷ 2 <=? p_conn_consumed p) then
      let inc := p_conn_consumed p in
      let p := p <| p_conn_consumed := 0 |> in
      try! p := chttp_h2_proto_submit_window_update p 0 (u32 inc) in
      (p, 0)
    else (p, 0).

Definition chttp_h2_proto_consume_stream p (stream_id bytes : Z) : chttp_h2_proto U * Z :=
  if (bytes =? 0) || (CHTTP_H2_MAX_WINDOW <? bytes) then (p, -1)
  else
    match proto_find p stream_id with
    | None => (p, -1)
    | Some i =>
      if s_closed (stream_at p i) then (p, -1)
      else
        try! p := chttp_h2_proto_submit_window_update p stream_id (u32 bytes) in
        (p, 0)
    end.

Definition chttp_h2_proto_resume_source p (stream_id : Z) : chttp_h2_proto U * Z :=
  match proto_find p stream_id with
  | None => (p, -1)
  | Some i =>
    let s := stream_at p i in
    if s_closed s || negb (has_source s) || negb (s_source_waiting s) || s_source_done s
    then (p, -1)
    else
      let p := upd_stream p i (fun s => s <| s_source_waiting := false |>) in
      (match on_wake_write U cbs with Some f => f p | None => p end, 0)
  end.

(** ** Termination *)

Definition chttp_h2_proto_terminate p (error_code : Z) : chttp_h2_proto U * Z :=
  try! p := chttp_h2_proto_submit_goaway p (u32 (p_last_proc_stream_id p)) error_code in
  (for_streams
     (fun p i =>
        let s := stream_at p i in
        if s_closed s then p
        else
          let p := upd_stream p i
            (fun s => s <| s_closed := true |> <| s_body := None |> <| s_body_off := 0 |>) in
          stream_closed_cb p (s_id s) error_code) p, 0).

End Submit.

Arguments emit_next U : clear implicits.

End H2ProtoSubmit.
