(* ===== verification/H2ProtoRecv.v ===== *)
(** * HTTP/2 engine: input

    Model of the receive path of [http_common/http/chttp_h2_proto.c]: the
    peer's SETTINGS, header blocks, the dispatch of one frame, and the loop
    over the buffered input. *)

From S2P Require Import Prelude H2Frame HpackBuffer HpackHuffman HpackTable Hpack H2Proto.
From S2P Require Import H2ProtoSend H2ProtoSubmit.

Module H2ProtoRecv.
Import H2Frame HpackBuffer HpackHuffman HpackTable Hpack H2Proto H2ProtoSend H2ProtoSubmit.

Section Input.
Context {alloc : Allocator} {U : Type} {app : Application U}.
Implicit Types p : chttp_h2_proto U.

(** ** The peer's SETTINGS *)

(** [case CHTTP_H2_SETTING_INITIAL_WINDOW_SIZE]: every open stream moves by the
    difference, or none does. *)
Definition apply_initial_window p (value : Z) : chttp_h2_proto U * Z :=
  let delta := value - st_initial_window_size (p_peer p) in
  if CHTTP_H2_MAX_WINDOW <? value then (p, CHTTP_H2_ERR_FLOW_CONTROL_ERROR)
  else if existsb
      (fun s => negb (s_closed s) &&
         ((s_send_window s + delta <? INT32_MIN) ||
          (CHTTP_H2_MAX_WINDOW <? s_send_window s + delta)))
      (p_streams p)
  then (p, CHTTP_H2_ERR_FLOW_CONTROL_ERROR)
  else
    let p := p <| p_streams :=
      map (fun s => if s_closed s then s
                    else s <| s_send_window := i32 (s_send_window s + delta) |>) (p_streams p) |> in
    (p <| p_peer := (p_peer p) <| st_initial_window_size := value |> |>, CHTTP_H2_ERR_NO_ERROR).

(** One round of the loop over the settings. *)
Definition apply_peer_setting p (id value : Z) : chttp_h2_proto U * Z :=
  if id =? CHTTP_H2_SETTING_HEADER_TABLE_SIZE then
    (p <| p_peer := (p_peer p) <| st_header_table_size := value |> |>, CHTTP_H2_ERR_NO_ERROR)
  else if id =? CHTTP_H2_SETTING_ENABLE_PUSH then
    if is_client (p_mode p) || (1 <? value) then (p, CHTTP_H2_ERR_PROTOCOL_ERROR)
    else (p <| p_peer := (p_peer p) <| st_enable_push := value |> |>, CHTTP_H2_ERR_NO_ERROR)
  else if id =? CHTTP_H2_SETTING_ENABLE_CONNECT_PROTOCOL then
    if (1 <? value) || ((st_enable_connect_protocol (p_peer p) =? 1) && (value =? 0))
    then (p, CHTTP_H2_ERR_PROTOCOL_ERROR)
    else
      (p <| p_peer := (p_peer p) <| st_enable_connect_protocol := value |> |>,
       CHTTP_H2_ERR_NO_ERROR)
  else if id =? CHTTP_H2_SETTING_MAX_CONCURRENT_STREAMS then
    (p <| p_peer := (p_peer p) <| st_max_concurrent_streams := value |> |>, CHTTP_H2_ERR_NO_ERROR)
  else if id =? CHTTP_H2_SETTING_INITIAL_WINDOW_SIZE then apply_initial_window p value
  else if id =? CHTTP_H2_SETTING_MAX_FRAME_SIZE then
    if (value <? CHTTP_H2_DEFAULT_FRAME_BYTES) || (CHTTP_H2_MAX_FRAME_BYTES <? value)
    then (p, CHTTP_H2_ERR_PROTOCOL_ERROR)
    else (p <| p_peer := (p_peer p) <| st_max_frame_size := value |> |>, CHTTP_H2_ERR_NO_ERROR)
  else if id =? CHTTP_H2_SETTING_MAX_HEADER_LIST_SIZE then
    (p <| p_peer := (p_peer p) <| st_max_header_list_size := value |> |>, CHTTP_H2_ERR_NO_ERROR)
  else (p, CHTTP_H2_ERR_NO_ERROR).

Fixpoint proto_apply_peer_settings p (settings : list (Z * Z)) : chttp_h2_proto U * Z :=
  match settings with
  | [] => (p, CHTTP_H2_ERR_NO_ERROR)
  | (id, value) :: settings =>
    let '(p, error) := apply_peer_setting p id value in
    if error =? CHTTP_H2_ERR_NO_ERROR then proto_apply_peer_settings p settings else (p, error)
  end.

(** ** Header blocks *)

(** [chttp_h2_header_context] with the user state. *)
Record chttp_h2_header_context := {
  x_user : U;
  x_ignore : bool;
  x_callback_failed : bool;
}.

Definition chttp_h2_header_decode (stream_id : Z) (ctx : chttp_h2_header_context)
    (name value : list Z) : chttp_h2_header_context * Z :=
  if x_ignore ctx then (ctx, 0)
  else
    match on_header U cbs with
    | None => (ctx, 0)
    | Some f =>
      let '(user, rc) := f (x_user ctx) stream_id name value in
      if negb (rc =? 0)
      then ({| x_user := user; x_ignore := true; x_callback_failed := true |}, 0)
      else ({| x_user := user; x_ignore := x_ignore ctx;
               x_callback_failed := x_callback_failed ctx |}, 0)
    end.

(** [if (ctx.ignore is not set) on_begin_headers], then the block through
    HPACK.  The decoder always ends (see the HPACK development), so the
    [None] of its fuel is given the code of a malformed block. *)
Definition finish_headers_decode p (initially_ignored : bool) :
    chttp_h2_proto U * chttp_h2_header_context * Z :=
  let ctx := {| x_user := p_user p; x_ignore := initially_ignored; x_callback_failed := false |} in
  let ctx :=
    if x_ignore ctx then ctx
    else
      match on_begin_headers U cbs with
      | None => ctx
      | Some f =>
        let '(user, rc) := f (x_user ctx) (p_in_headers_stream p) in
        if negb (rc =? 0)
        then {| x_user := user; x_ignore := true; x_callback_failed := true |}
        else {| x_user := user; x_ignore := x_ignore ctx;
                x_callback_failed := x_callback_failed ctx |}
      end in
  match chttp_h2_hpack_decode (Some (chttp_h2_header_decode (p_in_headers_stream p)))
          (st_max_header_list_size (p_local p)) (p_hpack p) ctx (buf_data (p_in_block p)) with
  | Some (hpack, ctx, rc, _) => (p <| p_hpack := hpack |> <| p_user := x_user ctx |>, ctx, rc)
  | None => (p, ctx, -1)
  end.

(** [s && p->in_headers_end_stream]: note the end of the peer's side. *)
Definition finish_headers_end_stream p (slot : option nat) (initially_ignored : bool) :
    chttp_h2_proto U :=
  match slot with
  | Some i =>
    if p_in_headers_end_stream p then
      let p := upd_stream p i (fun s => s <| s_remote_end_stream := true |>) in
      if s_local_reset (stream_at p i) then
        proto_local_reset_forget (upd_stream p i (fun s => s <| s_local_reset := false |>))
          (p_in_headers_stream p)
      else p
    else p
  | None =>
    if p_in_headers_end_stream p && initially_ignored
    then proto_local_reset_forget p (p_in_headers_stream p) else p
  end.

(** Everything after the end of the peer's side was noted: the callback that
    ends the block, the reset of a refused stream, the closure of a finished
    one. *)
Definition finish_headers_outcome p (slot : option nat) (ctx : chttp_h2_header_context)
    (initially_ignored : bool) (stream_error : Z) : chttp_h2_proto U :=
  let no_error e := e =? CHTTP_H2_ERR_NO_ERROR in
  let stream_error :=
    if negb (p_failed p) && negb initially_ignored && no_error stream_error &&
       x_callback_failed ctx
    then CHTTP_H2_ERR_PROTOCOL_ERROR else stream_error in
  let '(p, stream_error) :=
    if negb (p_failed p) && negb initially_ignored && no_error stream_error &&
       negb (x_ignore ctx)
    then
      match on_end_headers U cbs with
      | None => (p, stream_error)
      | Some f =>
        let '(p, rc) := f p (p_in_headers_stream p) (p_in_headers_end_stream p) in
        (p, if negb (rc =? 0) then CHTTP_H2_ERR_PROTOCOL_ERROR else stream_error)
      end
    else (p, stream_error) in
  match slot with
  | None => p
  | Some i =>
    let p :=
      if negb (p_failed p) && negb initially_ignored && negb (no_error stream_error) &&
         negb (s_closed (stream_at p i))
      then
        let '(p, rc) := chttp_h2_proto_submit_rst_stream p (p_in_headers_stream p) stream_error in
        if negb (rc =? 0) then proto_fail p CHTTP_H2_ERR_INTERNAL_ERROR
        else if p_in_headers_end_stream p then
          proto_local_reset_forget (upd_stream p i (fun s => s <| s_local_reset := false |>))
            (p_in_headers_stream p)
        else p
      else p in
    if negb (p_failed p) && negb initially_ignored && no_error stream_error &&
       negb (s_closed (stream_at p i))
    then proto_maybe_close p i else p
  end.

Definition proto_finish_headers p : chttp_h2_proto U :=
  let slot := proto_find p (p_in_headers_stream p) in
  let initially_ignored :=
    (match slot with
     | Some i => s_closed (stream_at p i) && s_local_reset (stream_at p i)
     | None => false
     end) || proto_local_reset_contains p (p_in_headers_stream p) in
  let '(p, ctx, rc) := finish_headers_decode p initially_ignored in
  let '(p, stream_error) :=
    if rc =? -2 then (p, CHTTP_H2_ERR_ENHANCE_YOUR_CALM)
    else if rc =? -3 then (proto_fail p CHTTP_H2_ERR_INTERNAL_ERROR, CHTTP_H2_ERR_NO_ERROR)
    else if negb (rc =? 0) then
      (proto_fail p CHTTP_H2_ERR_COMPRESSION_ERROR, CHTTP_H2_ERR_NO_ERROR)
    else (p, CHTTP_H2_ERR_NO_ERROR) in
  let p := finish_headers_end_stream p slot initially_ignored in
  let p := finish_headers_outcome p slot ctx initially_ignored stream_error in
  p <| p_in_headers := false |> <| p_in_block := (p_in_block p) <| buf_data := [] |> |>.

(** ** One frame *)

Definition dispatch_settings p (payload : list Z) (hdr : chttp_h2_frame_header) :
    chttp_h2_proto U :=
  if negb (fh_stream_id hdr =? 0) then proto_fail p CHTTP_H2_ERR_PROTOCOL_ERROR
  else if has_flag (fh_flags hdr) CHTTP_H2_FLAG_ACK then
    if negb (fh_length hdr =? 0) then proto_fail p CHTTP_H2_ERR_FRAME_SIZE_ERROR
    else
      let p := p <| p_settings_acked := true |> in
      match on_settings_ack U cbs with Some f => f p | None => p end
  else
    match chttp_h2_frame_settings_parse payload (c_max_settings_count (p_config p)) with
    | Err _ => proto_fail p CHTTP_H2_ERR_PROTOCOL_ERROR
    | Ok settings =>
      let '(p, settings_error) := proto_apply_peer_settings p settings in
      if negb (settings_error =? CHTTP_H2_ERR_NO_ERROR) then proto_fail p settings_error
      else
        let p := p <| p_peer_settings_received := true |> in
        let p := match on_settings U cbs with Some f => f p settings | None => p end in
        let '(p, rc) := out_frame p CHTTP_H2_FRAME_SETTINGS CHTTP_H2_FLAG_ACK 0 [] in
        if negb (rc =? 0) then proto_fail p CHTTP_H2_ERR_PROTOCOL_ERROR else p
    end.

Definition dispatch_window_update p (payload : list Z) (hdr : chttp_h2_frame_header) :
    chttp_h2_proto U :=
  if negb (fh_length hdr =? 4) then proto_fail p CHTTP_H2_ERR_FRAME_SIZE_ERROR
  else
    let inc := Z.land (chttp_h2_read_u32 payload) 0x7fffffff in
    let notify p :=
      let p :=
        match on_window_update U cbs with
        | Some f => f p (i32 (fh_stream_id hdr)) inc
        | None => p
        end in
      match on_wake_write U cbs with Some f => f p | None => p end in
    if inc =? 0 then proto_fail p CHTTP_H2_ERR_FLOW_CONTROL_ERROR
    else if fh_stream_id hdr =? 0 then
      if CHTTP_H2_MAX_WINDOW - i32 inc <? p_conn_send_window p
      then proto_fail p CHTTP_H2_ERR_FLOW_CONTROL_ERROR
      else notify (p <| p_conn_send_window := p_conn_send_window p + i32 inc |>)
    else
      match proto_find p (i32 (fh_stream_id hdr)) with
      | None =>
        if proto_local_reset_contains p (i32 (fh_stream_id hdr)) then p
        else proto_fail p CHTTP_H2_ERR_PROTOCOL_ERROR
      | Some i =>
        let s := stream_at p i in
        if s_closed s then p
        else if CHTTP_H2_MAX_WINDOW - i32 inc <? s_send_window s
        then proto_fail p CHTTP_H2_ERR_FLOW_CONTROL_ERROR
        else
          notify (upd_stream p i (fun s => s <| s_send_window := s_send_window s + i32 inc |>))
      end.

Definition dispatch_rst_stream p (payload : list Z) (hdr : chttp_h2_frame_header) :
    chttp_h2_proto U :=
  let id := i32 (fh_stream_id hdr) in
  if (fh_stream_id hdr =? 0) || negb (fh_length hdr =? 4) then
    proto_fail p (if fh_stream_id hdr =? 0 then CHTTP_H2_ERR_PROTOCOL_ERROR
                  else CHTTP_H2_ERR_FRAME_SIZE_ERROR)
  else
    match proto_find p id with
    | None =>
      if proto_local_reset_contains p id then proto_local_reset_forget p id
      else proto_fail p CHTTP_H2_ERR_PROTOCOL_ERROR
    | Some i =>
      let p :=
        if s_closed (stream_at p i) then p
        else
          let p := upd_stream p i
            (fun s => drop_trailers
               (s <| s_closed := true |> <| s_body := None |> <| s_body_off := 0 |>)) in
          stream_closed_cb p id (chttp_h2_read_u32 payload) in
      let p := upd_stream p i (fun s => s <| s_local_reset := false |>) in
      let p := proto_local_reset_forget p id in
      match on_rst_received U cbs with
      | Some f => f p id (chttp_h2_read_u32 payload)
      | None => p
      end
    end.

(** One round of the loop of GOAWAY over the streams. *)
Definition goaway_close (last : Z) p (i : nat) : chttp_h2_proto U :=
  let st := stream_at p i in
  let mine := if is_client (p_mode p) then odd_id (s_id st) else negb (odd_id (s_id st)) in
  if negb (s_closed st) && mine && (i32 last <? s_id st) then
    let p := upd_stream p i
      (fun s => drop_trailers
         (s <| s_closed := true |> <| s_body := None |> <| s_body_off := 0 |>)) in
    stream_closed_cb p (s_id st) CHTTP_H2_ERR_REFUSED_STREAM
  else p.

Definition dispatch_goaway p (payload : list Z) (hdr : chttp_h2_frame_header) :
    chttp_h2_proto U :=
  if negb (fh_stream_id hdr =? 0) || (fh_length hdr <? 8) then
    proto_fail p CHTTP_H2_ERR_PROTOCOL_ERROR
  else
    match chttp_h2_frame_goaway_parse payload with
    | Err _ => proto_fail p CHTTP_H2_ERR_PROTOCOL_ERROR
    | Ok (last, err) =>
      let p := p <| p_goaway_received_last := i32 last |> <| p_goaway_received_error := err |>
                 <| p_draining := true |> in
      let p := match on_goaway U cbs with Some f => f p last err | None => p end in
      for_streams (goaway_close last) p
    end.

Definition dispatch_ping p (payload : list Z) (hdr : chttp_h2_frame_header) :
    chttp_h2_proto U :=
  if negb (fh_stream_id hdr =? 0) || negb (fh_length hdr =? 8) then
    proto_fail p CHTTP_H2_ERR_PROTOCOL_ERROR
  else if negb (has_flag (fh_flags hdr) CHTTP_H2_FLAG_ACK) then
    let '(p, rc) := out_frame p CHTTP_H2_FRAME_PING CHTTP_H2_FLAG_ACK 0 (ztake 8 payload) in
    if negb (rc =? 0) then proto_fail p CHTTP_H2_ERR_PROTOCOL_ERROR else p
  else
    match on_ping_ack U cbs with Some f => f p payload | None => p end.

(** DATA for a stream that this end reset: give the connection its credit
    back; [ended] runs when the frame ends the stream. *)
Definition drain_data p (hdr : chttp_h2_frame_header)
    (ended : chttp_h2_proto U -> chttp_h2_proto U) : chttp_h2_proto U :=
  let '(p, rc) :=
    if negb (fh_length hdr =? 0) then chttp_h2_proto_consume_connection p (fh_length hdr)
    else (p, 0) in
  if negb (rc =? 0) then proto_fail p CHTTP_H2_ERR_INTERNAL_ERROR
  else if has_flag (fh_flags hdr) CHTTP_H2_FLAG_END_STREAM then ended p else p.

(** DATA within both receive windows, for an open stream. *)
Definition accept_data p (i : nat) (data : list Z) (hdr : chttp_h2_frame_header) :
    chttp_h2_proto U :=
  let id := i32 (fh_stream_id hdr) in
  let end_stream := has_flag (fh_flags hdr) CHTTP_H2_FLAG_END_STREAM in
  let p := upd_stream p i (fun s => s <| s_recv_window := s_recv_window s - i32 (fh_length hdr) |>) in
  let hidden_flow_bytes := fh_length hdr - zlen data in
  let '(p, rc) :=
    if negb (hidden_flow_bytes =? 0) then
      try! p := chttp_h2_proto_consume_stream p id hidden_flow_bytes in
      chttp_h2_proto_consume_connection p hidden_flow_bytes
    else (p, 0) in
  if negb (rc =? 0) then proto_fail p CHTTP_H2_ERR_INTERNAL_ERROR
  else
    let p := if end_stream then upd_stream p i (fun s => s <| s_remote_end_stream := true |>)
             else p in
    let '(p, data_status) :=
      match on_data U cbs with
      | Some f => f p id data
      | None => (p, CHTTP_H2_PROTO_DATA_OK)
      end in
    if data_status =? CHTTP_H2_PROTO_DATA_PAUSE then
      p <| p_input_paused := true |> <| p_input_paused_stream := id |>
        <| p_input_paused_end_stream := end_stream |>
    else if negb (data_status =? CHTTP_H2_PROTO_DATA_OK) then
      proto_fail p CHTTP_H2_ERR_INTERNAL_ERROR
    else if end_stream then
      let p :=
        if s_local_reset (stream_at p i) then
          proto_local_reset_forget (upd_stream p i (fun s => s <| s_local_reset := false |>)) id
        else p in
      proto_maybe_close p i
    else p.

Definition dispatch_data p (payload : list Z) (hdr : chttp_h2_frame_header) :
    chttp_h2_proto U :=
  let id := i32 (fh_stream_id hdr) in
  if fh_stream_id hdr =? 0 then proto_fail p CHTTP_H2_ERR_PROTOCOL_ERROR
  else
    let slot := proto_find p id in
    let reset_stream := proto_local_reset_contains p id in
    match chttp_h2_frame_data_payload payload (fh_flags hdr) with
    | Err _ => proto_fail p CHTTP_H2_ERR_PROTOCOL_ERROR
    | Ok data =>
      if p_conn_recv_window p <? i32 (fh_length hdr) then
        proto_fail p CHTTP_H2_ERR_FLOW_CONTROL_ERROR
      else
        let p := p <| p_conn_recv_window := p_conn_recv_window p - i32 (fh_length hdr) |> in
        match slot with
        | None =>
          if negb reset_stream then proto_fail p CHTTP_H2_ERR_STREAM_CLOSED
          else drain_data p hdr (fun p => proto_local_reset_forget p id)
        | Some i =>
          let s := stream_at p i in
          if (s_closed s && negb (s_local_reset s)) ||
             (s_remote_end_stream s && negb (s_local_reset s))
          then proto_fail p CHTTP_H2_ERR_STREAM_CLOSED
          else if s_local_reset s then
            drain_data p hdr
              (fun p => proto_local_reset_forget
                 (upd_stream p i (fun s => s <| s_remote_end_stream := true |>
                                             <| s_local_reset := false |>)) id)
          else if s_recv_window s <? i32 (fh_length hdr) then
            proto_fail p CHTTP_H2_ERR_FLOW_CONTROL_ERROR
          else accept_data p i data hdr
        end
    end.

(** The stream of an inbound HEADERS frame: the server registers a new one.
    The boolean tells that the frame was refused. *)
Definition headers_stream p (hdr : chttp_h2_frame_header) (reset_stream : bool) :
    chttp_h2_proto U * option nat * bool :=
  let id := i32 (fh_stream_id hdr) in
  match proto_find p id with
  | Some i => (p, Some i, false)
  | None =>
    if is_server (p_mode p) && negb reset_stream then
      if (Z.land (fh_stream_id hdr) 1 =? 0) ||
         (fh_stream_id hdr <=? u32 (p_max_peer_stream_id p))
      then (proto_fail p CHTTP_H2_ERR_PROTOCOL_ERROR, None, true)
      else if st_max_concurrent_streams (p_local p) <=? proto_active_streams p
      then (proto_fail p CHTTP_H2_ERR_ENHANCE_YOUR_CALM, None, true)
      else
        let '(p, slot) := proto_new_stream p id 0 in
        match slot with
        | None => (proto_fail p CHTTP_H2_ERR_ENHANCE_YOUR_CALM, None, true)
        | Some _ =>
          let p := p <| p_max_peer_stream_id := id |> in
          (p, proto_find p id, false)
        end
    else (p, None, false)
  end.

Definition dispatch_headers p (payload : list Z) (hdr : chttp_h2_frame_header) :
    chttp_h2_proto U :=
  if fh_stream_id hdr =? 0 then proto_fail p CHTTP_H2_ERR_PROTOCOL_ERROR
  else if p_in_headers p then proto_fail p CHTTP_H2_ERR_PROTOCOL_ERROR
  else
    match chttp_h2_frame_headers_payload payload (fh_flags hdr) with
    | Err _ => proto_fail p CHTTP_H2_ERR_PROTOCOL_ERROR
    | Ok parsed =>
      let block := hp_block parsed in
      let reset_stream := proto_local_reset_contains p (i32 (fh_stream_id hdr)) in
      let '(p, slot, refused) := headers_stream p hdr reset_stream in
      if refused then p
      else if negb reset_stream &&
              match slot with
              | None => true
              | Some i =>
                let s := stream_at p i in
                (s_closed s && negb (s_local_reset s)) ||
                (s_remote_end_stream s && negb (s_local_reset s))
              end
      then proto_fail p CHTTP_H2_ERR_STREAM_CLOSED
      else
        let p := p <| p_in_headers := true |>
                   <| p_in_headers_stream := i32 (fh_stream_id hdr) |>
                   <| p_in_headers_end_stream :=
                        has_flag (fh_flags hdr) CHTTP_H2_FLAG_END_STREAM |> in
        let '(in_block, rc) :=
          chttp_h2_hpack_buffer_reserve ((p_in_block p) <| buf_data := [] |>) (zlen block) in
        let p := p <| p_in_block := in_block |> in
        if negb (rc =? 0) then proto_fail p CHTTP_H2_ERR_PROTOCOL_ERROR
        else
          let p := p <| p_in_block := buf_append (p_in_block p) block |> in
          if has_flag (fh_flags hdr) CHTTP_H2_FLAG_END_HEADERS then proto_finish_headers p else p
    end.

Definition dispatch_continuation p (payload : list Z) (hdr : chttp_h2_frame_header) :
    chttp_h2_proto U :=
  if (fh_stream_id hdr =? 0) || negb (p_in_headers p) ||
     negb (i32 (fh_stream_id hdr) =? p_in_headers_stream p)
  then proto_fail p CHTTP_H2_ERR_PROTOCOL_ERROR
  else
    let '(in_block, rc) := chttp_h2_hpack_buffer_reserve (p_in_block p) (fh_length hdr) in
    let p := p <| p_in_block := in_block |> in
    if negb (rc =? 0) then proto_fail p CHTTP_H2_ERR_PROTOCOL_ERROR
    else
      let p := p <| p_in_block := buf_append (p_in_block p) payload |> in
      if has_flag (fh_flags hdr) CHTTP_H2_FLAG_END_HEADERS then proto_finish_headers p else p.

Definition dispatch_priority p (hdr : chttp_h2_frame_header) : chttp_h2_proto U :=
  if (fh_stream_id hdr =? 0) || negb (fh_length hdr =? CHTTP_H2_PRIORITY_BYTES) then
    proto_fail p (if fh_stream_id hdr =? 0 then CHTTP_H2_ERR_PROTOCOL_ERROR
                  else CHTTP_H2_ERR_FRAME_SIZE_ERROR)
  else p.

Definition proto_dispatch p (payload : list Z) (hdr : chttp_h2_frame_header) :
    chttp_h2_proto U :=
  let type := fh_type hdr in
  if p_in_headers p && negb (type =? CHTTP_H2_FRAME_CONTINUATION) then
    proto_fail p CHTTP_H2_ERR_PROTOCOL_ERROR
  else if negb (p_peer_settings_received p) &&
          (negb (type =? CHTTP_H2_FRAME_SETTINGS) || has_flag (fh_flags hdr) CHTTP_H2_FLAG_ACK)
  then proto_fail p CHTTP_H2_ERR_PROTOCOL_ERROR
  else if type =? CHTTP_H2_FRAME_SETTINGS then dispatch_settings p payload hdr
  else if type =? CHTTP_H2_FRAME_WINDOW_UPDATE then dispatch_window_update p payload hdr
  else if type =? CHTTP_H2_FRAME_RST_STREAM then dispatch_rst_stream p payload hdr
  else if type =? CHTTP_H2_FRAME_GOAWAY then dispatch_goaway p payload hdr
  else if type =? CHTTP_H2_FRAME_PING then dispatch_ping p payload hdr
  else if type =? CHTTP_H2_FRAME_DATA then dispatch_data p payload hdr
  else if type =? CHTTP_H2_FRAME_HEADERS then dispatch_headers p payload hdr
  else if type =? CHTTP_H2_FRAME_CONTINUATION then dispatch_continuation p payload hdr
  else if type =? CHTTP_H2_FRAME_PRIORITY then dispatch_priority p hdr
  else if type =? CHTTP_H2_FRAME_PUSH_PROMISE then proto_fail p CHTTP_H2_ERR_PROTOCOL_ERROR
  else p.

(** ** The input loop *)

(** The [while] loop from position [pos]; every round reads a frame header, so
    the length of the input is enough fuel.  [None] is out of fuel. *)
Fixpoint recv_loop (fuel : nat) p (pos : Z) : option (chttp_h2_proto U * Z) :=
  if negb (p_failed p) && negb (p_input_paused p) &&
     (CHTTP_H2_FRAME_HEADER_SIZE <=? u64 (buf_size (p_inbuf p) - pos))
  then
    match fuel with
    | O => None
    | S fuel =>
      let input := zdrop pos (buf_data (p_inbuf p)) in
      match chttp_h2_frame_header_decode input (st_max_frame_size (p_local p)) with
      | Err _ => Some (proto_fail p CHTTP_H2_ERR_PROTOCOL_ERROR, pos)
      | Ok (used, hdr) =>
        if zlen input - used <? fh_length hdr then Some (p, pos)
        else
          let p := proto_dispatch p (ztake (fh_length hdr) (zdrop used input)) hdr in
          let p := if p_in_headers p then p
                   else p <| p_input_generation := u64 (p_input_generation p + 1) |> in
          recv_loop fuel p (pos + used + fh_length hdr)
      end
    end
  else Some (p, pos).

(** The server reads the client preface first: the new position, or the
    code to return with. *)
Definition recv_preface p (in_len : Z) : chttp_h2_proto U * (Z + Z) :=
  if is_server (p_mode p) && negb (p_server_preface_seen p) then
    let need := CHTTP_H2_PREFACE_LEN in
    let avail := cap_at (buf_size (p_inbuf p)) need in
    if negb (bytes_eqb (ztake avail (buf_data (p_inbuf p))) (ztake avail CHTTP_H2_PREFACE)) then
      (proto_fail p CHTTP_H2_ERR_PROTOCOL_ERROR, inr (-1))
    else if avail <? need then (p, inr in_len)
    else
      let p := p <| p_server_preface_seen := true |> in
      let '(p, rc) := proto_ensure_preface p in
      if negb (rc =? 0) then (proto_fail p CHTTP_H2_ERR_INTERNAL_ERROR, inr (-1))
      else (p, inl need)
  else (p, inl 0).

Definition chttp_h2_proto_recv p (input : list Z) : option (chttp_h2_proto U * Z) :=
  let in_len := zlen input in
  let '(p, rc) :=
    if negb (in_len =? 0) then
      let '(inbuf, rc) := chttp_h2_hpack_buffer_reserve (p_inbuf p) in_len in
      (p <| p_inbuf := inbuf |>, rc)
    else (p, 0) in
  if negb (rc =? 0) then Some (p, -1)
  else
    let p := p <| p_inbuf := buf_append (p_inbuf p) input |> in
    if p_input_paused p then Some (p, in_len)
    else
      let '(p, start) := recv_preface p in_len in
      match start with
      | inr code => Some (p, code)
      | inl pos =>
        match recv_loop (length (buf_data (p_inbuf p))) p pos with
        | None => None
        | Some (p, pos) =>
          let p :=
            if (0 <? pos) && (pos <=? buf_size (p_inbuf p)) then
              p <| p_inbuf := (p_inbuf p) <| buf_data := zdrop pos (buf_data (p_inbuf p)) |> |>
            else p in
          Some (p, if p_failed p then -1 else in_len)
        end
      end.

Definition chttp_h2_proto_resume_input p (stream_id : Z) : option (chttp_h2_proto U * Z) :=
  if (stream_id <=? 0) || negb (p_input_paused p) || negb (p_input_paused_stream p =? stream_id)
  then Some (p, -1)
  else
    let slot := proto_find p stream_id in
    let end_stream := p_input_paused_end_stream p in
    let p := p <| p_input_paused := false |> <| p_input_paused_stream := 0 |>
               <| p_input_paused_end_stream := false |> in
    let p :=
      match slot with
      | Some i =>
        if end_stream && negb (s_closed (stream_at p i)) then proto_maybe_close p i else p
      | None => p
      end in
    if p_failed p then Some (p, -1)
    else
      match chttp_h2_proto_recv p [] with
      | None => None
      | Some (p, rc) => Some (p, if rc <? 0 then -1 else 0)
      end.

End Input.

Arguments chttp_h2_header_context U : clear implicits.

End H2ProtoRecv.
