(* ===== verification/H2ProtoInv.v ===== *)
(** * HTTP/2 engine: invariant

    The well-formedness of an engine, and [quiet]: what every operation of the
    engine other than sending DATA and receiving bytes does to it.  A quiet
    step keeps the engine well-formed, keeps the first error, leaves the send
    window of the connection and the input alone and appends whole control
    frames to the output.  Quiet steps compose, so one lemma per operation is
    enough; the application's callbacks are required to be quiet too. *)

From S2P Require Import Prelude H2Frame HpackBuffer HpackTables HpackHuffman HpackTable Hpack.
From S2P Require Import HpackSync HpackBound H2Proto H2ProtoSend.

Module H2ProtoInv.
Import H2Frame HpackBuffer HpackTables HpackHuffman HpackTable Hpack HpackSync HpackBound.
Import H2Proto H2ProtoSend.

(** ** Frames on the wire *)

Inductive wire_item :=
  | WPreface
  | WFrame (type flags stream_id : Z) (payload : list Z).

Definition wire_bytes (it : wire_item) : list Z :=
  match it with
  | WPreface => CHTTP_H2_PREFACE
  | WFrame type flags stream_id payload =>
    (chttp_h2_write_u24 (zlen payload) ++ [type; flags] ++ chttp_h2_write_u32 stream_id) ++ payload
  end.

Definition wire (items : list wire_item) : list Z := concat (map wire_bytes items).

Definition item_ok (it : wire_item) : Prop :=
  match it with
  | WPreface => True
  | WFrame type flags stream_id payload =>
    is_u8 type /\ is_u8 flags /\ 0 <= stream_id <= INT32_MAX /\ is_bytes payload /\
    zlen payload <= CHTTP_H2_MAX_FRAME_BYTES
  end.

(** The bytes of DATA among the items. *)
Definition item_data (it : wire_item) : Z :=
  match it with
  | WFrame type _ _ payload => if type =? CHTTP_H2_FRAME_DATA then zlen payload else 0
  | WPreface => 0
  end.

Fixpoint data_bytes (items : list wire_item) : Z :=
  match items with
  | [] => 0
  | it :: items => item_data it + data_bytes items
  end.

Definition is_data (it : wire_item) : bool :=
  match it with
  | WFrame type _ _ _ => type =? CHTTP_H2_FRAME_DATA
  | WPreface => false
  end.

Definition control (it : wire_item) : Prop := item_ok it /\ is_data it = false.

Lemma wire_app a b : wire (a ++ b) = wire a ++ wire b.
Proof. unfold wire. by rewrite map_app, concat_app. Qed.

Lemma data_bytes_app a b : data_bytes (a ++ b) = data_bytes a + data_bytes b.
Proof. induction a as [|x a IH]; cbn; [done|]. lia. Qed.

Lemma data_bytes_control items : Forall control items -> data_bytes items = 0.
Proof.
  induction 1 as [|it items [_ Hc] _ IH]; cbn; [done|]. rewrite IH.
  destruct it; cbn in *; [done|]. by rewrite Hc.
Qed.

(** ** Well-formed streams and engines *)

Record stream_wf (s : chttp_h2_proto_stream) : Prop := {
  sw_id : 0 < s_id s <= INT32_MAX;
  sw_send : is_i32 (s_send_window s);
  sw_recv : 0 <= s_recv_window s <= CHTTP_H2_MAX_WINDOW;
  sw_body : match s_body s with
            | Some body => is_bytes body /\ 0 <= s_body_off s <= zlen body
            | None => True
            end;
  sw_trailers : buf_wf (s_trailers s);
}.

Record settings_wf (st : proto_settings) : Prop := {
  stw_frame : CHTTP_H2_DEFAULT_FRAME_BYTES <= st_max_frame_size st <= CHTTP_H2_MAX_FRAME_BYTES;
  stw_window : 0 <= st_initial_window_size st <= CHTTP_H2_MAX_WINDOW;
  stw_table : is_u32 (st_header_table_size st);
  stw_push : is_u32 (st_enable_push st);
  stw_streams : is_u32 (st_max_concurrent_streams st);
  stw_list : is_u32 (st_max_header_list_size st);
}.

(** The configuration fields are unsigned. *)
Record config_wf (c : chttp_h2_proto_config) : Prop := {
  cw_valid : chttp_h2_proto_config_valid c = true;
  cw_capacity : 0 <= c_stream_capacity c;
  cw_block : 0 <= c_header_block_bytes c;
  cw_list : 0 <= c_max_header_list_bytes c;
  cw_table : 0 <= c_hpack_dynamic_table_bytes c;
  cw_string : 0 <= c_max_hpack_string_bytes c;
  cw_settings : 0 <= c_max_settings_count c;
  cw_window : 0 <= c_local_initial_window_size c;
  cw_conn_window : 0 <= c_connection_receive_window_size c;
}.

Record proto_wf {U} (p : chttp_h2_proto U) : Prop := {
  w_config : config_wf (p_config p);
  w_hpack : hpack_wf (p_hpack p);
  w_encoder_off : dt_max_size (h_encoder (p_hpack p)) = 0;
  w_block : h_max_header_block_bytes (p_hpack p) = c_header_block_bytes (p_config p);
  w_string : h_max_string_bytes (p_hpack p) = c_max_hpack_string_bytes (p_config p);
  w_local : settings_wf (p_local p);
  w_peer : settings_wf (p_peer p);
  w_cap : p_stream_cap p = c_stream_capacity (p_config p);
  w_count : zlen (p_streams p) <= p_stream_cap p;
  w_streams : Forall stream_wf (p_streams p);
  w_unique : NoDup (map s_id (p_streams p));
  w_ids : Forall (fun s => if is_client (p_mode p) then s_id s < p_next_stream_id p
                           else s_id s <= p_max_peer_stream_id p) (p_streams p);
  w_reset : zlen (p_local_reset_ids p) = p_stream_cap p;
  w_cursor : 0 <= p_local_reset_cursor p < p_stream_cap p;
  w_next : 1 <= p_next_stream_id p <= INT32_MAX;
  w_next_odd : is_client (p_mode p) = true -> Z.odd (p_next_stream_id p) = true;
  w_max_peer : 0 <= p_max_peer_stream_id p <= INT32_MAX;
  w_last_proc : 0 <= p_last_proc_stream_id p <= INT32_MAX;
  w_conn_send : 0 <= p_conn_send_window p <= CHTTP_H2_MAX_WINDOW;
  w_conn_recv : 0 <= p_conn_recv_window p <= CHTTP_H2_MAX_WINDOW;
  w_conn_consumed : 0 <= p_conn_consumed p <= CHTTP_H2_MAX_WINDOW;
  w_conn_local : CHTTP_H2_DEFAULT_WINDOW <= p_conn_local_window p <= CHTTP_H2_MAX_WINDOW;
  w_send_chunk : 0 <= p_send_chunk p;
  w_out : buf_wf (p_out p);
  w_out_max : buf_max_capacity (p_out p) = c_output_buffer_bytes (p_config p);
  w_inbuf : buf_wf (p_inbuf p);
  w_inbuf_max : buf_max_capacity (p_inbuf p) = c_input_buffer_bytes (p_config p);
  w_in_block : buf_wf (p_in_block p);
  w_in_block_max : buf_max_capacity (p_in_block p) = c_header_block_bytes (p_config p);
}.

(** ** Quiet steps *)

Record kept {U} (p p' : chttp_h2_proto U) : Prop := {
  k_wf : proto_wf p';
  k_mode : p_mode p' = p_mode p;
  k_config : p_config p' = p_config p;
  k_failed : p_failed p = true -> p_failed p' = true /\ p_last_error p' = p_last_error p;
  k_conn : p_conn_send_window p' = p_conn_send_window p;
  k_inbuf : p_inbuf p' = p_inbuf p;
  k_count : (length (p_streams p) <= length (p_streams p'))%nat;
  k_next : p_next_stream_id p <= p_next_stream_id p';
  k_max_peer : p_max_peer_stream_id p <= p_max_peer_stream_id p';
  k_out : exists items, Forall control items /\
            buf_data (p_out p') = buf_data (p_out p) ++ wire items;
}.

Definition quiet {U} (p p' : chttp_h2_proto U) : Prop := proto_wf p -> kept p p'.

Lemma quiet_out_same {U} (p p' : chttp_h2_proto U) :
  buf_data (p_out p') = buf_data (p_out p) ->
  exists items, Forall control items /\ buf_data (p_out p') = buf_data (p_out p) ++ wire items.
Proof. intros. exists []. split; [constructor|]. cbn. by rewrite app_nil_r. Qed.

#[export] Instance quiet_refl {U} : Reflexive (@quiet U).
Proof. intros p Hwf. split; auto; try lia. by apply quiet_out_same. Qed.

#[export] Instance quiet_trans {U} : Transitive (@quiet U).
Proof.
  intros p q r Hpq Hqr Hwf. destruct (Hpq Hwf) as [W M C F S I N X P (i1 & O1 & O2)].
  destruct (Hqr W) as [W' M' C' F' S' I' N' X' P' (i2 & O1' & O2')].
  split; try congruence; try lia; auto.
  - intros Hf. destruct (F Hf) as [Hf1 E1]. destruct (F' Hf1) as [Hf2 E2]. split; congruence.
  - exists (i1 ++ i2). split; [by apply Forall_app|]. by rewrite O2', O2, wire_app, <- app_assoc.
Qed.

#[export] Instance quiet_preorder {U} : PreOrder (@quiet U) := {}.

(** The invariant may be assumed to show that a step is quiet. *)
Lemma quiet_by {U} (p p' : chttp_h2_proto U) : (proto_wf p -> quiet p p') -> quiet p p'.
Proof. intros H Hwf. by apply H. Qed.

(** Sequence a step that returned [(q, rc)]. *)
Ltac q_bind L :=
  let H := fresh "Hq" in
  pose proof L as H;
  lazymatch type of H with
  | quiet ?p (fst ?e) =>
    let q := fresh "p" in let rc := fresh "rc" in let E := fresh "E" in
    destruct e as [q rc] eqn:E; cbn [fst] in H; transitivity q; [exact H|]; clear H; try clear E
  end.

(** A step that only sets fields about which the invariant says nothing, or
    whose bounds follow by arithmetic. *)
Ltac q_set :=
  let W := fresh "Hwf" in
  intros W; destruct W;
  split; [split; cbn; auto; try lia | cbn; auto; try lia .. | by apply quiet_out_same].

(** The same for the fields of a stream. *)
Ltac sw_set := let W := fresh "Hsw" in intros W; destruct W; split; cbn; auto.

Section Primitive.
Context {alloc : Allocator} {U : Type}.
Implicit Types p q : chttp_h2_proto U.

Lemma quiet_set_failed p error :
  p_failed p = false -> quiet p (p <| p_failed := true |> <| p_last_error := error |>).
Proof. intros Hf. q_set. congruence. Qed.

Lemma quiet_set_out p out items :
  (proto_wf p -> buf_wf out /\ buf_max_capacity out = buf_max_capacity (p_out p)) ->
  Forall control items -> buf_data out = buf_data (p_out p) ++ wire items ->
  quiet p (p <| p_out := out |>).
Proof.
  intros Hb Hi Hd W. destruct (Hb W) as [Hwf Hmax]. destruct W.
  split; [split; cbn; auto; congruence|cbn; auto; try lia..]. by exists items.
Qed.

(** Growing the output buffer. *)
Lemma quiet_reserve p n :
  0 <= n ->
  quiet p (p <| p_out := (chttp_h2_hpack_buffer_reserve (p_out p) n).1 |>).
Proof.
  intros Hn. apply quiet_by. intros Hwf.
  pose proof (buffer_reserve_cases (p_out p) n (w_out _ Hwf) Hn) as Hc.
  destruct (chttp_h2_hpack_buffer_reserve (p_out p) n) as [out rc]. cbn [fst].
  apply (quiet_set_out _ _ []); [intros _; split; apply Hc|constructor|].
  cbn. rewrite app_nil_r. apply Hc.
Qed.

Lemma alter_ge {A} (f : A -> A) l i : (length l <= i)%nat -> alter f i l = l.
Proof.
  intros Hi. apply list_eq. intros j. rewrite list_lookup_alter. case_decide; [|done]. subst.
  by rewrite lookup_ge_None_2.
Qed.

(** An assignment to the fields of a stream. *)
Lemma quiet_upd_at p i f :
  (stream_wf (stream_at p i) -> stream_wf (f (stream_at p i))) ->
  (forall s, s_id (f s) = s_id s) -> quiet p (upd_stream p i f).
Proof.
  intros Hf Hid W. destruct (decide (i < length (p_streams p))%nat) as [Hi|Hi]; cycle 1.
  { unfold upd_stream. rewrite alter_ge by lia.
    replace (p <| p_streams := p_streams p |>) with p by (by destruct p). by apply quiet_refl. }
  assert (p_streams p !! i = Some (stream_at p i)) as Hl.
  { destruct (lookup_lt_is_Some_2 _ _ Hi) as [s Hs]. unfold stream_at.
    by rewrite (nth_lookup_Some _ _ _ _ Hs). }
  assert (map s_id (alter f i (p_streams p)) = map s_id (p_streams p)) as Hids.
  { apply list_eq. intros j. rewrite !list_lookup_fmap, list_lookup_alter.
    case_decide; [|done]. subst. destruct (p_streams p !! j); cbn; [by rewrite Hid|done]. }
  destruct W. split; [split; cbn; auto|cbn; auto; try lia..|by apply quiet_out_same].
  - unfold zlen in *. by rewrite length_alter.
  - apply Forall_alter; [done|]. intros s Hs Hw. rewrite Hl in Hs. injection Hs as <-. auto.
  - by rewrite Hids.
  - apply Forall_alter; [done|]. intros s Hs Hw. by rewrite Hid.
  - by rewrite length_alter.
Qed.

Lemma quiet_upd p i f :
  (forall s, stream_wf s -> stream_wf (f s)) -> (forall s, s_id (f s) = s_id s) ->
  quiet p (upd_stream p i f).
Proof. intros Hf Hid. apply quiet_upd_at; auto. Qed.

Lemma quiet_reset_record p id : quiet p (proto_local_reset_record p id).
Proof.
  unfold proto_local_reset_record. split_if; [reflexivity|]. q_set.
  - unfold zlen in *. by rewrite length_insert.
  - apply Z.mod_pos_bound. lia.
Qed.

Lemma quiet_reset_forget p id : quiet p (proto_local_reset_forget p id).
Proof.
  unfold proto_local_reset_forget. split_if; [reflexivity|]. q_set.
  unfold zlen in *. by rewrite length_map.
Qed.

Lemma proto_find_Some p id i :
  proto_find p id = Some i -> exists s, p_streams p !! i = Some s /\ stream_at p i = s /\ s_id s = id.
Proof.
  unfold proto_find. destruct (list_find _ _) as [[j s]|] eqn:H; [|done]. intros [= <-].
  apply list_find_Some in H as (Hl & Hid & _). exists s. split_and!; [done| |done].
  unfold stream_at. by apply nth_lookup_Some.
Qed.

Lemma proto_find_None p id : proto_find p id = None -> id ∉ map s_id (p_streams p).
Proof.
  unfold proto_find. destruct (list_find _ _) as [[j s]|] eqn:H; [done|]. intros _ Hin.
  apply list_find_None in H. apply list_elem_of_fmap in Hin as (s & -> & Hs).
  rewrite Forall_forall in H. by apply (H s).
Qed.

(** The slot that [proto_find] returns holds a well-formed stream. *)
Lemma proto_find_wf p id i :
  proto_wf p -> proto_find p id = Some i ->
  stream_wf (stream_at p i) /\ s_id (stream_at p i) = id /\ 0 < id <= INT32_MAX.
Proof.
  intros Hwf Hf. destruct (proto_find_Some _ _ _ Hf) as (s & Hl & -> & <-).
  pose proof (Forall_lookup_1 _ _ _ _ (w_streams _ Hwf) Hl) as Hs. split_and!; try done; apply Hs.
Qed.

Lemma buf_zero_wf : buf_wf buf_zero.
Proof. split; [constructor|]. unfold buf_size, zlen. cbn. zlia. Qed.

(** A new stream: its identifier is new and within the bound of the mode. *)
Lemma quiet_new_stream p id ud :
  0 < id <= INT32_MAX -> proto_find p id = None ->
  (if is_client (p_mode p) then id < p_next_stream_id p else id <= p_max_peer_stream_id p) ->
  quiet p (proto_new_stream p id ud).1.
Proof.
  intros Hid Hnew Hb. apply quiet_by. intros Hwf. unfold proto_new_stream.
  apply proto_find_None in Hnew.
  set (s := _ <| s_user_data := ud |>).
  assert (forall q i, quiet p q -> quiet p
    (let q := if (if is_client (p_mode q) then negb (odd_id id) else odd_id id) &&
                  (p_last_proc_stream_id q <? id)
              then q <| p_last_proc_stream_id := id |> else q in (q, Some i : option nat)).1) as Hfin.
  { intros q i Hq. cbn [fst]. split_if; [|done]. transitivity q; [done|]. q_set. }
  assert (stream_wf s) as Hs.
  { pose proof (stw_window _ (w_peer _ Hwf)). pose proof (stw_window _ (w_local _ Hwf)).
    unfold CHTTP_H2_MAX_WINDOW in *. subst s.
    split; cbn; rewrite ?i32_id by zlia; try zlia; [done|apply buf_zero_wf]. }
  destruct (list_find _ (p_streams p)) as [[i s0]|] eqn:Hc.
  - apply Hfin. destruct Hwf. intros _.
    split; [split; cbn; auto|cbn; auto; try lia..|by apply quiet_out_same].
    + unfold zlen in *. by rewrite length_insert.
    + by apply Forall_insert.
    + change (NoDup (s_id <$> <[i := s]> (p_streams p))). rewrite list_fmap_insert.
      by apply nodup_insert.
    + by apply Forall_insert.
    + by rewrite length_insert.
  - split_if; [reflexivity|]. apply Hfin. destruct Hwf. intros _.
    split; [split; cbn; auto|cbn; auto; try lia..|by apply quiet_out_same].
    + rewrite zlen_app. change (zlen [s]) with 1. lia.
    + apply Forall_app. split; [done|by constructor].
    + rewrite map_app. apply NoDup_app. split_and!; [done| |apply NoDup_singleton].
      intros x Hx Hx'. apply list_elem_of_singleton in Hx' as ->. done.
    + apply Forall_app. split; [done|by constructor].
    + rewrite length_app. lia.
Qed.

End Primitive.

End H2ProtoInv.
