(* ===== verification/H2ProtoOut.v ===== *)
(** * HTTP/2 engine: the output operations are quiet

    One lemma per operation of [H2ProtoSend]: what it appends to the output is
    a sequence of whole control frames, and the engine stays well-formed. *)

From S2P Require Import Prelude H2Frame HpackBuffer HpackTables HpackHuffman HpackTable Hpack.
From S2P Require Import HpackSync HpackBound H2Proto H2ProtoSend H2ProtoInv.

Module H2ProtoOut.
Import H2Frame HpackBuffer HpackTables HpackHuffman HpackTable Hpack HpackSync HpackBound.
Import H2Proto H2ProtoSend H2ProtoInv.

(** What the engine relies on from the application: a callback that calls back
    into the engine uses its quiet operations (the submit functions, not
    [chttp_h2_proto_recv], [chttp_h2_proto_send] or
    [chttp_h2_proto_resume_input]), and a source fills the buffer it is given. *)
Class LawfulApplication (U : Type) (app : Application U) : Prop := {
  law_end_headers p id e f : on_end_headers U cbs = Some f -> quiet p (f p id e).1;
  law_data p id d f : on_data U cbs = Some f -> is_bytes d -> quiet p (f p id d).1;
  law_stream_close p id e f : on_stream_close U cbs = Some f -> quiet p (f p id e);
  law_settings p l f : on_settings U cbs = Some f -> quiet p (f p l);
  law_settings_ack p f : on_settings_ack U cbs = Some f -> quiet p (f p);
  law_ping_ack p o f : on_ping_ack U cbs = Some f -> quiet p (f p o);
  law_window_update p id i f : on_window_update U cbs = Some f -> quiet p (f p id i);
  law_goaway p l e f : on_goaway U cbs = Some f -> quiet p (f p l e);
  law_rst_received p id e f : on_rst_received U cbs = Some f -> quiet p (f p id e);
  law_wake_write p f : on_wake_write U cbs = Some f -> quiet p (f p);
  law_source u source len : 0 < len ->
    let r := (source_pull u source len).2 in
    is_bytes (sr_bytes r) /\ zlen (sr_bytes r) = len /\ 0 <= sr_size r;
}.

Section Output.
Context {alloc : Allocator} {U : Type} {app : Application U} {law : LawfulApplication U app}.
Implicit Types p q : chttp_h2_proto U.

Lemma frame_header_bytes len type flags sid :
  0 <= len <= CHTTP_H2_MAX_FRAME_BYTES -> 0 <= sid <= INT32_MAX ->
  chttp_h2_frame_header_encode 9 (u32 len) type flags (u32 sid) =
  Ok (chttp_h2_write_u24 len ++ [type; flags] ++ chttp_h2_write_u32 sid).
Proof.
  intros Hl Hs. unfold CHTTP_H2_MAX_FRAME_BYTES in *. rewrite !u32_id by zlia.
  apply frame_header_encode_ok; zlia.
Qed.

Lemma zlen_header len type flags sid :
  zlen (chttp_h2_write_u24 len ++ [type; flags] ++ chttp_h2_write_u32 sid) = 9.
Proof. reflexivity. Qed.

Lemma header_is_bytes len type flags sid :
  is_u8 type -> is_u8 flags ->
  is_bytes (chttp_h2_write_u24 len ++ [type; flags] ++ chttp_h2_write_u32 sid).
Proof.
  intros. apply is_bytes_app. split; [apply write_u24_bytes|].
  apply is_bytes_app. split; [|apply write_u32_bytes]. bytes_solve.
Qed.

(** Exactly what [out_frame] does. *)
Lemma out_frame_cases p type flags sid payload :
  buf_wf (p_out p) -> is_u8 type -> is_u8 flags -> sid <= INT32_MAX -> is_bytes payload ->
  exists out rc, out_frame p type flags sid payload = (p <| p_out := out |>, rc) /\
    buf_wf out /\ buf_max_capacity out = buf_max_capacity (p_out p) /\
    (rc = 0 /\ item_ok (WFrame type flags sid payload) /\
       buf_data out = buf_data (p_out p) ++ wire_bytes (WFrame type flags sid payload) \/
     rc = -1 /\ buf_data out = buf_data (p_out p)).
Proof.
  intros Hwf Ht Hfl Hs Hb. unfold out_frame. pose proof (zlen_nonneg payload).
  assert (p <| p_out := p_out p |> = p) as Hsame by (by destruct p).
  split_if. { exists (p_out p), (-1). rewrite Hsame. split_and!; auto. }
  rewrite frame_header_bytes by zlia.
  pose proof (buffer_reserve_cases (p_out p) (CHTTP_H2_FRAME_HEADER_SIZE + zlen payload) Hwf
    ltac:(unfold CHTTP_H2_FRAME_HEADER_SIZE; lia)) as Hc.
  destruct (chttp_h2_hpack_buffer_reserve _ _) as [out rc].
  destruct Hc as (Hd & Hmax & Hwf' & [[-> Hcap]|[-> ->]]); cbn [Z.eqb negb].
  - eexists _, 0. split; [reflexivity|]. cbn [p_out]. split_and!; [|done|].
    + apply buf_wf_append; [done| |].
      * apply is_bytes_app. split; [by apply header_is_bytes|done].
      * rewrite zlen_app, zlen_header. unfold buf_size, CHTTP_H2_FRAME_HEADER_SIZE in *.
        change (p_out (p <| p_out := out |>)) with out. rewrite Hd. lia.
    + left. split; [done|]. split; [by split_and!; try done; lia|]. cbn. by rewrite Hd.
  - exists (p_out p), (-1). rewrite Hsame. split_and!; auto.
Qed.

(** When it succeeds. *)
Lemma out_frame_rc p type flags sid payload :
  buf_wf (p_out p) -> (forall n, malloc_ok n = true) ->
  0 <= sid <= INT32_MAX -> zlen payload <= CHTTP_H2_MAX_FRAME_BYTES ->
  buf_size (p_out p) + 9 + zlen payload <= buf_max_capacity (p_out p) ->
  (out_frame p type flags sid payload).2 = 0.
Proof.
  intros Hwf Ha Hs Hl Hfit. unfold out_frame. pose proof (zlen_nonneg payload).
  unfold CHTTP_H2_MAX_FRAME_BYTES, CHTTP_H2_FRAME_HEADER_SIZE in *. split_if; [zlia|].
  rewrite frame_header_bytes by (unfold CHTTP_H2_MAX_FRAME_BYTES; zlia).
  pose proof (buffer_reserve_rc (p_out p) (9 + zlen payload) Hwf ltac:(lia) Ha) as Hr.
  destruct (chttp_h2_hpack_buffer_reserve _ _) as [out rc]. cbn in Hr.
  replace (_ <=? _) with true in Hr by lia. by rewrite Hr.
Qed.

Lemma out_frame_quiet p type flags sid payload :
  is_u8 type -> is_u8 flags -> sid <= INT32_MAX -> is_bytes payload ->
  type <> CHTTP_H2_FRAME_DATA -> quiet p (out_frame p type flags sid payload).1.
Proof.
  intros Ht Hfl Hs Hb Hne. apply quiet_by. intros Hwf.
  destruct (out_frame_cases p type flags sid payload (w_out _ Hwf) Ht Hfl Hs Hb)
    as (out & rc & -> & Hwf' & Hmax & Hc). cbn [fst].
  destruct Hc as [(_ & Hok & Hd)|[_ Hd]].
  - apply (quiet_set_out _ _ [WFrame type flags sid payload]); [done| |].
    + constructor; [|constructor]. split; [done|]. cbn. lia.
    + unfold wire. cbn [map concat]. by rewrite app_nil_r.
  - apply (quiet_set_out _ _ []); [done|constructor|]. cbn. by rewrite app_nil_r.
Qed.

Lemma settings_payload_bytes settings : forall payload,
  settings_encode_loop settings = Ok payload -> is_bytes payload.
Proof.
  induction settings as [|[id v] settings IH]; cbn; intros payload H;
    [injection H as <-; constructor|].
  destruct (UINT16_MAX <? id); [done|].
  destruct (settings_encode_loop settings) as [out|]; [|done]. injection H as <-.
  repeat (constructor; [apply u8_range|]). by apply IH.
Qed.

Lemma submit_settings_quiet p : quiet p (chttp_h2_proto_submit_settings p).1.
Proof.
  unfold chttp_h2_proto_submit_settings.
  destruct (chttp_h2_frame_settings_encode _ _) as [payload|] eqn:He; [|reflexivity].
  assert (is_bytes payload) as Hb.
  { unfold chttp_h2_frame_settings_encode in He. repeat (split_if_in He; [done|]).
    by eapply settings_payload_bytes. }
  q_bind (out_frame_quiet p CHTTP_H2_FRAME_SETTINGS 0 0 payload ltac:(zlia) ltac:(zlia)
    ltac:(zlia) Hb ltac:(done)).
  split_if; [|reflexivity]. cbn [fst]. q_set.
Qed.

Lemma window_update_payload inc payload :
  chttp_h2_frame_window_update_encode 4 inc = Ok payload -> is_bytes payload.
Proof.
  unfold chttp_h2_frame_window_update_encode. intros H. repeat (split_if_in H; [done|]).
  injection H as <-. apply write_u32_bytes.
Qed.

Lemma submit_window_update_with_quiet ensure p sid inc :
  (forall q, quiet q (ensure q).1) -> 0 <= inc -> quiet p (submit_window_update_with ensure p sid inc).1.
Proof.
  intros He Hinc. unfold submit_window_update_with. q_bind (He p). split_if; [|reflexivity].
  split_if; [reflexivity|].
  destruct (chttp_h2_frame_window_update_encode 4 inc) as [payload|] eqn:Hp; [|reflexivity].
  apply window_update_payload in Hp. unfold CHTTP_H2_MAX_WINDOW in *.
  assert (forall q sid, sid <= INT32_MAX ->
    quiet q (out_frame q CHTTP_H2_FRAME_WINDOW_UPDATE 0 sid payload).1) as Hout.
  { intros. apply out_frame_quiet; done || zlia. }
  assert (i32 inc = inc) as Hi by (apply i32_id; zlia).
  destruct (Z.eqb_spec sid 0) as [->|Hsid].
  - split_if; [reflexivity|]. etransitivity; [|apply Hout; zlia].
    rewrite Hi in *. q_set. unfold CHTTP_H2_MAX_WINDOW in *. lia.
  - apply quiet_by. intros Hwf.
    destruct (proto_find p0 sid) as [i|] eqn:Hf; [|reflexivity].
    destruct (proto_find_wf _ _ _ Hwf Hf) as (Hs & Hid & Hr).
    split_if; [reflexivity|]. split_if; [reflexivity|].
    etransitivity; [|apply Hout; zlia]. rewrite Hi in *.
    apply quiet_upd_at; [|done]. intros []. split; cbn; auto.
    unfold CHTTP_H2_MAX_WINDOW in *. lia.
Qed.

Lemma quiet_set_preface_done p : quiet p (p <| p_client_preface_done := true |>).
Proof. q_set. Qed.

Lemma preface_facts :
  is_bytes CHTTP_H2_PREFACE /\ zlen CHTTP_H2_PREFACE = 24 /\ wire [WPreface] = CHTTP_H2_PREFACE.
Proof.
  split_and!; [|done|unfold wire; cbn [map concat]; apply app_nil_r].
  unfold CHTTP_H2_PREFACE. rewrite !is_bytes_app.
  split_and!; try apply bytes_of_bytes; repeat (constructor; [zlia|]); constructor.
Qed.

Lemma quiet_append_preface p out :
  buf_wf out -> buf_max_capacity out = buf_max_capacity (p_out p) ->
  buf_data out = buf_data (p_out p) -> buf_size (p_out p) + 24 <= buf_capacity out ->
  quiet p (p <| p_out := out |> <| p_out := buf_append out CHTTP_H2_PREFACE |>).
Proof.
  destruct preface_facts as (Hb & Hl & Hw). intros Hwf Hmax Hd Hcap.
  transitivity (p <| p_out := out |>).
  - apply (quiet_set_out _ _ []); [done|constructor|]. cbn. by rewrite app_nil_r.
  - apply (quiet_set_out _ _ [WPreface]); [intros _|by repeat constructor|].
    + split; [|done]. apply buf_wf_append; [done|done|]. unfold buf_size in *. rewrite Hl, Hd. lia.
    + by rewrite Hw.
Qed.

Lemma ensure_preface_fuel_quiet fuel : forall p, quiet p (ensure_preface_fuel fuel p).1.
Proof.
  induction fuel as [|fuel IH]; intros p; [reflexivity|]. cbn [ensure_preface_fuel].
  assert (forall q, quiet q (if CHTTP_H2_DEFAULT_WINDOW <? p_conn_local_window q
    then submit_window_update_with (ensure_preface_fuel fuel) q 0
           (u32 (p_conn_local_window q - CHTTP_H2_DEFAULT_WINDOW)) else (q, 0)).1) as Hann.
  { intros q. split_if; [|reflexivity]. apply submit_window_update_with_quiet; [done|apply u32_range]. }
  split_if; [|split_if; [|reflexivity]].
  - set (n := _ + 4). apply quiet_by. intros Hwf.
    pose proof (buffer_reserve_cases (p_out p) n (w_out _ Hwf) ltac:(done)) as Hc.
    destruct (chttp_h2_hpack_buffer_reserve (p_out p) n) as [out rc].
    destruct Hc as (Hd & Hmax & Hwf' & [[-> Hcap]|[-> ->]]); cbn [Z.eqb negb]; cycle 1.
    { cbn [fst]. replace (p <| p_out := p_out p |>) with p by (by destruct p). reflexivity. }
    set (q := _ <| p_client_preface_done := true |>).
    assert (quiet p q) as Hq.
    { unfold q. etransitivity; [|apply quiet_set_preface_done].
      apply (quiet_append_preface _ out Hwf' Hmax Hd). change n with 88 in Hcap. lia. }
    etransitivity; [exact Hq|]. clearbody q.
    q_bind (submit_settings_quiet q). split_if; [reflexivity|apply Hann].
  - q_bind (submit_settings_quiet p). split_if; [reflexivity|apply Hann].
Qed.

Lemma ensure_preface_quiet p : quiet p (proto_ensure_preface p).1.
Proof. apply ensure_preface_fuel_quiet. Qed.

Lemma submit_window_update_quiet p sid inc :
  0 <= inc -> quiet p (chttp_h2_proto_submit_window_update p sid inc).1.
Proof. apply submit_window_update_with_quiet, ensure_preface_quiet. Qed.

Lemma submit_ping_quiet p opaque :
  is_bytes opaque -> quiet p (chttp_h2_proto_submit_ping p opaque).1.
Proof.
  intros Hb. unfold chttp_h2_proto_submit_ping. q_bind (ensure_preface_quiet p).
  split_if; [|reflexivity]. apply out_frame_quiet; [zlia|zlia|zlia|bytes_solve|done].
Qed.

Lemma submit_goaway_quiet p last error : quiet p (chttp_h2_proto_submit_goaway p last error).1.
Proof.
  unfold chttp_h2_proto_submit_goaway. split_if; [reflexivity|].
  q_bind (ensure_preface_quiet p). split_if; [|reflexivity].
  destruct (chttp_h2_frame_goaway_encode 8 last error) as [payload|] eqn:He; [|reflexivity].
  assert (is_bytes payload) as Hb.
  { unfold chttp_h2_frame_goaway_encode in He. repeat (split_if_in He; [done|]).
    assert (payload = chttp_h2_write_u32 last ++ chttp_h2_write_u32 error) as -> by congruence.
    apply is_bytes_app. split; apply write_u32_bytes. }
  q_bind (out_frame_quiet p0 CHTTP_H2_FRAME_GOAWAY 0 0 payload ltac:(zlia) ltac:(zlia)
    ltac:(zlia) Hb ltac:(done)).
  split_if; [|reflexivity]. cbn [fst]. q_set.
Qed.

Lemma proto_fail_quiet p error : quiet p (proto_fail p error).
Proof.
  unfold proto_fail. destruct (p_failed p) eqn:Hf; cbn [negb]; [reflexivity|].
  etransitivity; [by apply (quiet_set_failed _ error)|]. apply submit_goaway_quiet.
Qed.

(** ** HEADERS *)

Lemma header_bounds_loop_spec max hdrs : forall encoded list e l,
  header_bounds_loop max hdrs encoded list = Some (e, l) ->
  e = encoded + fields_bound hdrs /\
  Forall (fun hd => zlen (hd_name hd) <= max /\ zlen (hd_value hd) <= max) hdrs.
Proof.
  induction hdrs as [|hd hdrs IH]; cbn [header_bounds_loop fields_bound]; intros encoded list e l H.
  { injection H as -> ->. split; [lia|constructor]. }
  repeat (split_if_in H; [done|]). destruct (IH _ _ _ _ H) as [-> Hf].
  unfold CHTTP_H2_PROTO_HPACK_FIELD_OVERHEAD_BYTES in *. split; [lia|]. by constructor.
Qed.

Lemma proto_header_bounds_spec p hdrs pri e w :
  proto_header_bounds p hdrs pri = Some (e, w) ->
  e = 12 + fields_bound hdrs /\ e <= c_header_block_bytes (p_config p) /\
  Forall (fun hd => zlen (hd_name hd) <= c_max_hpack_string_bytes (p_config p) /\
                    zlen (hd_value hd) <= c_max_hpack_string_bytes (p_config p)) hdrs /\
  let payload := e + if pri then 5 else 0 in
  w = payload + (1 + (payload - 1) / st_max_frame_size (p_peer p)) * 9.
Proof.
  unfold proto_header_bounds.
  destruct (header_bounds_loop _ _ _ _) as [[e' l]|] eqn:Hl; [|done]. intros H.
  apply header_bounds_loop_spec in Hl as [-> Hf].
  pose proof (fields_bound_nonneg hdrs).
  unfold CHTTP_H2_PROTO_HPACK_PENDING_UPDATE_BYTES, CHTTP_H2_PRIORITY_BYTES,
    CHTTP_H2_FRAME_HEADER_SIZE in *.
  split_if_in H; [done|]. cbv zeta in H |- *.
  set (extra := if pri then 5 else 0) in *. assert (0 <= extra) by (subst extra; by destruct pri).
  clearbody extra. split_if_in H; [done|].
  replace (12 + fields_bound hdrs + extra =? 0) with false in H by lia.
  split_if_in H; [done|]. injection H as <- <-. split_and!; auto; lia.
Qed.

Lemma quiet_set_hpack p hpack :
  (proto_wf p -> hpack_wf hpack /\ dt_max_size (h_encoder hpack) = 0 /\
    h_max_header_block_bytes hpack = h_max_header_block_bytes (p_hpack p) /\
    h_max_string_bytes hpack = h_max_string_bytes (p_hpack p)) ->
  quiet p (p <| p_hpack := hpack |>).
Proof.
  intros H Hwf. destruct (H Hwf) as (H1 & H2 & H3 & H4). revert Hwf. q_set; congruence.
Qed.

Lemma headers_loop_quiet fuel : forall p sid block first end_stream pri,
  is_bytes block -> sid <= INT32_MAX ->
  quiet p (headers_loop fuel p sid block first end_stream pri).1.
Proof.
  induction fuel as [|fuel IH]; intros p sid block first end_stream pri Hb Hs; [reflexivity|].
  cbn [headers_loop]. set (chunk := if _ <? _ then _ else _).
  set (type := if first then _ else _). set (flags := if chunk =? zlen block then _ else _).
  assert (is_u8 type /\ type <> CHTTP_H2_FRAME_DATA) as [Ht Hne]
    by (unfold type; destruct first; split; (done || zlia)).
  assert (is_u8 flags) as Hfl.
  { unfold flags. by destruct (chunk =? zlen block), first, end_stream, pri. }
  q_bind (out_frame_quiet p type flags sid (ztake chunk block) Ht Hfl Hs ltac:(bytes_solve) Hne).
  split_if; [apply proto_fail_quiet|].
  destruct (zdrop chunk block) as [|b rest] eqn:Hd; [reflexivity|].
  apply IH; [|done]. rewrite <- Hd. bytes_solve.
Qed.

Lemma priority_bytes exclusive dep weight payload :
  chttp_h2_frame_priority_encode CHTTP_H2_PRIORITY_BYTES exclusive dep weight = Ok payload ->
  is_bytes payload /\ zlen payload = 5.
Proof.
  unfold chttp_h2_frame_priority_encode. intros H. split_if_in H; [done|]. split_if_in H; [done|].
  set (w := Z.lor _ _) in H.
  assert (payload = chttp_h2_write_u32 w ++ [u8 (weight - 1)]) as -> by congruence.
  split; [|done]. apply is_bytes_app. split; [apply write_u32_bytes|]. bytes_solve.
Qed.

Lemma hpack_buffer_init_ok hint max b :
  chttp_h2_hpack_buffer_init hint max = Some b -> 0 <= hint -> max <= SIZE_MAX -> 0 <= max ->
  buf_wf b /\ buf_data b = [] /\ buf_max_capacity b = max.
Proof.
  unfold chttp_h2_hpack_buffer_init. intros H H1 H2 H3. split_if_in H; [done|].
  split_if_in H; [done|]. injection H as <-. cbn. unfold buf_wf, buf_size. cbn.
  change (zlen []) with 0. split_and!; try done; try (constructor || lia);
    repeat split_if; lia.
Qed.

(** What the engine's encoder does for [hdrs]. *)
Lemma engine_encode p hdrs blk :
  proto_wf p -> Forall header_ok hdrs -> buf_wf blk ->
  buf_max_capacity blk = c_header_block_bytes (p_config p) ->
  let ok := (forall n, malloc_ok n = true) /\
            Forall (fun hd => zlen (hd_name hd) <= c_max_hpack_string_bytes (p_config p) /\
                              zlen (hd_value hd) <= c_max_hpack_string_bytes (p_config p) /\
                              zlen (hd_name hd) <= 0x7fffffff /\
                              zlen (hd_value hd) <= 0x7fffffff) hdrs in
  exists hpack blk' rc, chttp_h2_hpack_encode (p_hpack p) blk hdrs = (hpack, blk', rc) /\
    bounded ok (12 + fields_bound hdrs) blk (blk', rc) /\ quiet p (p <| p_hpack := hpack |>).
Proof.
  intros Hwf Hh Hb Hmax ok.
  destruct (hpack_encode_bounded ok ltac:(by intros []) (p_hpack p) blk hdrs) as
    (hpack & blk' & rc & He & Hbd & Hw & Heq); [apply Hwf|apply Hwf|done| | |].
  { rewrite Forall_forall in *. intros hd Hin. unfold field_ok.
    rewrite (w_string _ Hwf). split; [by apply Hh|]. intros [_ Hk].
    rewrite Forall_forall in Hk. by apply Hk. }
  { rewrite Hmax, (w_block _ Hwf). done. }
  exists hpack, blk', rc. split_and!; [done|done|]. apply quiet_set_hpack. intros _.
  split; [done|]. rewrite Heq. cbn. split_and!; try done. apply Hwf.
Qed.

Lemma out_headers_quiet p sid hdrs end_stream pri weight dep exclusive :
  Forall header_ok hdrs -> sid <= INT32_MAX ->
  quiet p (out_headers p sid hdrs end_stream pri weight dep exclusive).1.
Proof.
  intros Hh Hs. unfold out_headers.
  destruct (proto_header_bounds p hdrs pri) as [[e w]|] eqn:Hbd; [|reflexivity].
  apply proto_header_bounds_spec in Hbd as (-> & Hle & Hstr & Hw). cbv zeta in Hw.
  pose proof (fields_bound_nonneg hdrs) as Hfb.
  apply quiet_by. intros Hwf.
  pose proof (stw_frame _ (w_peer _ Hwf)) as Hmf. unfold CHTTP_H2_DEFAULT_FRAME_BYTES in Hmf.
  pose proof (cw_block _ (w_config _ Hwf)) as Hblk.
  assert (c_header_block_bytes (p_config p) <= SIZE_MAX) as Hcap.
  { pose proof (cw_valid _ (w_config _ Hwf)) as Hv. unfold chttp_h2_proto_config_valid in Hv.
    bool_prop. zlia. }
  assert (0 <= w) as Hw0.
  { set (pl := _ + (if pri then 5 else 0)) in Hw.
    assert (0 <= (pl - 1) / st_max_frame_size (p_peer p))
      by (apply Z.div_pos; subst pl; destruct pri; lia).
    assert (0 <= pl) by (subst pl; destruct pri; lia). lia. }
  pose proof (quiet_reserve p w Hw0) as Hq1.
  destruct (chttp_h2_hpack_buffer_reserve (p_out p) w) as [out rc]. cbn [fst] in Hq1.
  transitivity (p <| p_out := out |>); [exact Hq1|].
  assert (proto_wf (p <| p_out := out |>)) as Hwf1 by apply (Hq1 Hwf).
  assert (p_config (p <| p_out := out |>) = p_config p) as Hcfg by done.
  set (q := p <| p_out := out |>) in *. clearbody q. clear Hq1.
  split_if; [reflexivity|]. rewrite Hcfg.
  destruct (chttp_h2_hpack_buffer_init _ _) as [blk|] eqn:Hi; [|reflexivity].
  apply hpack_buffer_init_ok in Hi as (Hbw & Hb0 & Hbm); [|split_if; lia|lia|lia].
  rewrite <- Hcfg in Hbm.
  destruct (engine_encode q hdrs blk Hwf1 Hh Hbw Hbm) as (hpack & blk' & rc' & -> & Hbd & Hq2).
  etransitivity; [exact Hq2|].
  split_if; [apply proto_fail_quiet|].
  set (prioritised := if pri then _ else _).
  assert (forall block, prioritised = Some block -> is_bytes block) as Hpb.
  { destruct Hbd as (Hbw' & _). cbn in Hbw'. unfold prioritised. destruct pri; intros block Hb.
    - pose proof (buffer_reserve_cases blk' CHTTP_H2_PRIORITY_BYTES Hbw' ltac:(done)) as Hc.
      destruct (chttp_h2_hpack_buffer_reserve blk' _) as [b2 rc2].
      destruct (negb (rc2 =? 0)); [done|].
      destruct (chttp_h2_frame_priority_encode _ _ _ _) as [pr|] eqn:Hpr; [|done].
      injection Hb as <-. apply priority_bytes in Hpr as [Hpr _]. apply is_bytes_app.
      split; [done|]. destruct Hc as (-> & _). apply Hbw'.
    - injection Hb as <-. apply Hbw'. }
  clearbody prioritised. destruct prioritised as [[|b0 block]|]; [| |reflexivity].
  - q_bind (out_frame_quiet (q <| p_hpack := hpack |>) CHTTP_H2_FRAME_HEADERS
      (if end_stream then Z.lor CHTTP_H2_FLAG_END_HEADERS CHTTP_H2_FLAG_END_STREAM
       else CHTTP_H2_FLAG_END_HEADERS) sid [] ltac:(zlia) ltac:(by destruct end_stream) Hs
      ltac:(constructor) ltac:(done)).
    split_if; [apply proto_fail_quiet|reflexivity].
  - apply headers_loop_quiet; [by apply Hpb|done].
Qed.

(** ** Closing streams *)

Lemma stream_closed_cb_quiet p id error : quiet p (stream_closed_cb p id error).
Proof.
  unfold stream_closed_cb. destruct (on_stream_close U cbs) as [f|] eqn:Hf; [|reflexivity].
  by eapply law_stream_close.
Qed.

Lemma stream_wf_close s :
  stream_wf s -> stream_wf (s <| s_closed := true |> <| s_body := None |> <| s_body_off := 0 |>).
Proof. sw_set. Qed.

Lemma stream_wf_no_body s :
  stream_wf s -> stream_wf (s <| s_body := None |> <| s_body_off := 0 |>).
Proof. sw_set. Qed.

Lemma stream_wf_drop_trailers s : stream_wf s -> stream_wf (drop_trailers s).
Proof.
  intros Hs. unfold drop_trailers. split_if; [|done]. destruct Hs.
  split; cbn; auto. apply buf_zero_wf.
Qed.

Lemma drop_trailers_id s : s_id (drop_trailers s) = s_id s.
Proof. unfold drop_trailers. by split_if. Qed.

Lemma maybe_close_quiet p i : quiet p (proto_maybe_close p i).
Proof.
  unfold proto_maybe_close. split_if; [reflexivity|]. split_if; [|reflexivity].
  etransitivity; [|apply stream_closed_cb_quiet]. apply quiet_upd; [apply stream_wf_close|done].
Qed.

Lemma submit_rst_stream_quiet p sid error :
  quiet p (chttp_h2_proto_submit_rst_stream p sid error).1.
Proof.
  unfold chttp_h2_proto_submit_rst_stream. split_if; [reflexivity|].
  q_bind (ensure_preface_quiet p). split_if; [|reflexivity].
  apply quiet_by. intros Hwf. destruct (proto_find p0 sid) as [i|] eqn:Hf; [|reflexivity].
  destruct (proto_find_wf _ _ _ Hwf Hf) as (Hs & Hid & Hr).
  split_if; [reflexivity|]. unfold chttp_h2_frame_rst_encode. cbn [Z.ltb Z.compare Pos.compare].
  split_if; [reflexivity|].
  q_bind (out_frame_quiet p0 CHTTP_H2_FRAME_RST_STREAM 0 sid (chttp_h2_write_u32 error)
    ltac:(zlia) ltac:(zlia) ltac:(zlia) (write_u32_bytes error) ltac:(done)).
  split_if; [|reflexivity]. cbn [fst].
  etransitivity; [|apply stream_closed_cb_quiet].
  etransitivity; [|apply quiet_upd].
  - etransitivity; [|apply quiet_reset_record]. apply quiet_upd; [|done]. intros s. sw_set.
  - intros s Hws. by apply stream_wf_drop_trailers, stream_wf_no_body.
  - intros s. by rewrite drop_trailers_id.
Qed.

(** ** What control frames leave alone *)

(** Queueing control frames changes these fields only. *)
Definition ctl p q : Prop :=
  q = p <| p_out := p_out q |> <| p_conn_recv_window := p_conn_recv_window q |>
        <| p_settings_sent := p_settings_sent q |>
        <| p_client_preface_done := p_client_preface_done q |>
        <| p_goaway_sent := p_goaway_sent q |> <| p_draining := p_draining q |>.

Lemma ctl_refl p : ctl p p.
Proof. by destruct p. Qed.

Lemma ctl_trans p q r : ctl p q -> ctl q r -> ctl p r.
Proof. unfold ctl. intros Hq Hr. rewrite Hr, Hq. reflexivity. Qed.

Lemma out_frame_ctl p type flags sid payload : ctl p (out_frame p type flags sid payload).1.
Proof.
  unfold out_frame. cbv zeta. split_if; [apply ctl_refl|].
  destruct (chttp_h2_frame_header_encode _ _ _ _ _); [|apply ctl_refl].
  destruct (chttp_h2_hpack_buffer_reserve _ _). destruct p. by split_if.
Qed.

Lemma submit_settings_ctl p : ctl p (chttp_h2_proto_submit_settings p).1.
Proof.
  unfold chttp_h2_proto_submit_settings.
  destruct (chttp_h2_frame_settings_encode _ _) as [payload|]; [|apply ctl_refl].
  pose proof (out_frame_ctl p CHTTP_H2_FRAME_SETTINGS 0 0 payload) as Ho.
  destruct (out_frame _ _ _ _ _) as [q rc]. cbn [fst] in Ho. split_if; [|exact Ho].
  eapply ctl_trans; [exact Ho|]. by destruct q.
Qed.

Lemma ensure_preface_fuel_ctl fuel : forall p, ctl p (ensure_preface_fuel fuel p).1.
Proof.
  induction fuel as [|fuel IH]; intros p; [apply ctl_refl|]. cbn [ensure_preface_fuel].
  assert (forall q, ctl q (if CHTTP_H2_DEFAULT_WINDOW <? p_conn_local_window q
    then submit_window_update_with (ensure_preface_fuel fuel) q 0
           (u32 (p_conn_local_window q - CHTTP_H2_DEFAULT_WINDOW)) else (q, 0)).1) as Hann.
  { intros q. split_if; [|apply ctl_refl]. unfold submit_window_update_with. specialize (IH q).
    destruct (ensure_preface_fuel fuel q) as [q1 rc]. cbn [fst] in IH. split_if; [|exact IH].
    split_if; [exact IH|]. destruct (chttp_h2_frame_window_update_encode _ _); [|exact IH].
    cbn [Z.eqb]. split_if; [exact IH|]. eapply ctl_trans; [exact IH|].
    eapply ctl_trans; [|apply out_frame_ctl]. by destruct q1. }
  split_if; [|split_if; [|apply ctl_refl]].
  - destruct (chttp_h2_hpack_buffer_reserve _ _) as [out rc]. split_if; [by destruct p|].
    match goal with |- context [chttp_h2_proto_submit_settings ?x] =>
      set (q := x); assert (ctl p q) as Hq by (unfold q; by destruct p); clearbody q end.
    pose proof (submit_settings_ctl q) as Hs. destruct (chttp_h2_proto_submit_settings q) as [r st].
    cbn [fst] in Hs. pose proof (ctl_trans _ _ _ Hq Hs) as Hr. split_if; [exact Hr|].
    eapply ctl_trans; [exact Hr|apply Hann].
  - pose proof (submit_settings_ctl p) as Hs. destruct (chttp_h2_proto_submit_settings p) as [r st].
    cbn [fst] in Hs. split_if; [exact Hs|]. eapply ctl_trans; [exact Hs|apply Hann].
Qed.

Lemma ensure_preface_ctl p : ctl p (proto_ensure_preface p).1.
Proof. apply ensure_preface_fuel_ctl. Qed.

Lemma submit_goaway_ctl p last error : ctl p (chttp_h2_proto_submit_goaway p last error).1.
Proof.
  unfold chttp_h2_proto_submit_goaway. split_if; [apply ctl_refl|].
  pose proof (ensure_preface_ctl p) as He. destruct (proto_ensure_preface p) as [q rc].
  cbn [fst] in He. split_if; [|exact He].
  destruct (chttp_h2_frame_goaway_encode 8 last error) as [payload|]; [|exact He].
  pose proof (out_frame_ctl q CHTTP_H2_FRAME_GOAWAY 0 0 payload) as Ho.
  destruct (out_frame _ _ _ _ _) as [r rc']. cbn [fst] in Ho.
  pose proof (ctl_trans _ _ _ He Ho) as Hr. split_if; [|exact Hr].
  eapply ctl_trans; [exact Hr|]. by destruct r.
Qed.

(** A first error is recorded; only control fields change besides. *)
Lemma proto_fail_ctl p error :
  p_failed p = false ->
  ctl (p <| p_failed := true |> <| p_last_error := error |>) (proto_fail p error).
Proof. intros Hf. unfold proto_fail. rewrite Hf. cbn [negb]. apply submit_goaway_ctl. Qed.

End Output.

End H2ProtoOut.
