(* ===== verification/H2ProtoQuiet.v ===== *)
(** * HTTP/2 engine: submitting and dispatching are quiet

    The lemma of [H2ProtoOut] for the submit functions, the settings calls, the
    consumption calls and the receive path.  A WINDOW_UPDATE for the connection
    is the one frame whose dispatch is not quiet: it moves the send window. *)

From S2P Require Import Prelude H2Frame HpackBuffer HpackTables HpackHuffman HpackTable Hpack.
From S2P Require Import HpackSync HpackBound H2Proto H2ProtoSend H2ProtoSubmit H2ProtoRecv.
From S2P Require Import H2ProtoInv H2ProtoOut.

Module H2ProtoQuiet.
Import H2Frame HpackBuffer HpackTables HpackHuffman HpackTable Hpack HpackSync HpackBound.
Import H2Proto H2ProtoSend H2ProtoSubmit H2ProtoRecv H2ProtoInv H2ProtoOut.

(** The same for an operation whose first step is a pair computed in place. *)
Ltac q_pair tac :=
  lazymatch goal with
  | |- quiet ?p (match ?r with _ => _ end) =>
    let H := fresh "Hq" in let q := fresh "q" in let rc := fresh "rc" in
    assert (quiet p (fst r)) as H by tac;
    destruct r as [q rc]; cbn [fst] in H; transitivity q; [exact H|]; clear H
  end.

(** A body handed to the engine. *)
Definition body_ok (body : option (list Z)) : Prop :=
  match body with Some body => is_bytes body | None => True end.

Section Submit.
Context {alloc : Allocator} {U : Type} {app : Application U} {law : LawfulApplication U app}.
Implicit Types p q : chttp_h2_proto U.

(** ** Settings and accessors *)

Lemma set_send_chunk_quiet p chunk : 0 <= chunk -> quiet p (chttp_h2_proto_set_send_chunk p chunk).
Proof. intros H. unfold chttp_h2_proto_set_send_chunk. q_set. Qed.

Lemma set_connect_protocol_quiet p enable :
  quiet p (chttp_h2_proto_set_local_enable_connect_protocol p enable).
Proof.
  unfold chttp_h2_proto_set_local_enable_connect_protocol. q_set. by destruct w_local0.
Qed.

Lemma set_stream_user_data_quiet p sid ud :
  quiet p (chttp_h2_proto_set_stream_user_data p sid ud).1.
Proof.
  unfold chttp_h2_proto_set_stream_user_data. destruct (proto_find p sid) as [i|]; [|reflexivity].
  apply quiet_upd; [|done]. intros s. sw_set.
Qed.

Lemma set_local_settings_quiet p a b c d e f :
  is_u32 a -> is_u32 b -> is_u32 c -> is_u32 d -> is_u32 e -> is_u32 f ->
  quiet p (chttp_h2_proto_set_local_settings p a b c d e f).1.
Proof.
  intros Ha Hb Hc Hd He Hf. unfold chttp_h2_proto_set_local_settings. split_if; [reflexivity|].
  assert (quiet p (p <| p_hpack := (chttp_h2_hpack_decoder_set_max_size (p_hpack p) a).1 |>)) as Hq.
  { apply quiet_set_hpack. intros Hwf. split; [apply decoder_set_max_size_wf; [apply Hwf|zlia]|].
    unfold chttp_h2_hpack_decoder_set_max_size. destruct Hwf. by split_if. }
  destruct (chttp_h2_hpack_decoder_set_max_size (p_hpack p) a) as [hpack rc]. cbn [fst] in Hq.
  etransitivity; [exact Hq|]. split_if; [reflexivity|]. cbn [fst].
  set (q := p <| p_hpack := hpack |>). clearbody q. q_set.
  split; cbn; auto; zlia.
Qed.

(** ** Requests *)

(** Opening a stream as the client does. *)
Lemma open_stream_quiet p :
  is_client (p_mode p) = true -> p_next_stream_id p <= 0x7ffffffe ->
  let q := p <| p_next_stream_id := p_next_stream_id p + 2 |> in
  quiet p (proto_new_stream q (p_next_stream_id p) 0).1.
Proof.
  intros Hm Hn q. apply quiet_by. intros Hwf.
  assert (p_next_stream_id p + 2 <= INT32_MAX) as Hmax.
  { pose proof (w_next_odd _ Hwf Hm) as Hodd. apply Z.odd_spec in Hodd as [k Hk]. zlia. }
  transitivity q.
  - unfold q. q_set.
    + eapply Forall_impl; [eassumption|]. intros s. rewrite Hm. lia.
    + intros _. by rewrite Z.odd_add, (w_next_odd0 Hm).
  - apply quiet_new_stream.
    + pose proof (w_next _ Hwf). zlia.
    + destruct (proto_find q (p_next_stream_id p)) as [i|] eqn:Hf; [|done]. exfalso.
      destruct (proto_find_Some _ _ _ Hf) as (s & Hl & _ & Hid).
      pose proof (Forall_lookup_1 _ _ _ _ (w_ids _ Hwf) Hl) as Hb. cbn in Hb.
      rewrite Hm in Hb. lia.
    + cbn. rewrite Hm. lia.
Qed.

Lemma quiet_set_end_stream_sent p i b :
  quiet p (upd_stream p i (fun s => s <| s_end_stream_sent := b |>)).
Proof. apply quiet_upd; [|done]. intros s. sw_set. Qed.

Lemma quiet_set_body p i body eof :
  body_ok body ->
  quiet p (upd_stream p i (fun s => s <| s_body := body |> <| s_body_off := 0 |>
                                      <| s_body_eof := eof |>)).
Proof.
  intros Hb. apply quiet_upd; [|done]. intros s. sw_set.
  destruct body as [body|]; [|done]. pose proof (zlen_nonneg body). by split; [|lia].
Qed.

Lemma quiet_set_source p i source :
  quiet p (upd_stream p i (fun s => s <| s_source := source |>)).
Proof. apply quiet_upd; [|done]. intros s. sw_set. Qed.

Lemma submit_request_ex_quiet p hdrs body source weight dep exclusive :
  Forall header_ok hdrs -> body_ok body ->
  quiet p (chttp_h2_proto_submit_request_ex p hdrs body source weight dep exclusive).1.1.
Proof.
  intros Hh Hb. unfold chttp_h2_proto_submit_request_ex. split_if; [reflexivity|].
  split_if; [reflexivity|]. apply quiet_by. intros Hwf.
  pose proof (ensure_preface_quiet p) as Hq. pose proof (ensure_preface_ctl p) as Hctl.
  destruct (proto_ensure_preface p) as [p1 rc] eqn:E. cbn [fst] in Hq, Hctl.
  assert (p_next_stream_id p1 = p_next_stream_id p) as Hnext by (by rewrite Hctl).
  pose proof (k_mode _ _ (Hq Hwf)) as Hmode.
  transitivity p1; [exact Hq|]. split_if; [reflexivity|]. rewrite <- Hnext in *.
  pose proof (open_stream_quiet p1 ltac:(congruence) ltac:(lia)) as Ho. cbv zeta in Ho.
  destruct (proto_new_stream _ _ _) as [p2 slot]. cbn [fst] in Ho.
  transitivity p2; [exact Ho|]. destruct slot as [i|]; [|reflexivity].
  set (es := match source with Some _ => false | None => _ end).
  etransitivity; [apply (quiet_set_end_stream_sent p2 i es)|].
  set (p3 := upd_stream p2 i _). apply quiet_by. intros Hwf3.
  pose proof (w_next _ Hwf) as Hn. rewrite <- Hnext in *.
  q_bind (out_headers_quiet p3 (p_next_stream_id p1) hdrs es
    (negb (weight =? 0) || (0 <? dep) || exclusive)
    (if negb (weight =? 0) then weight else 16) dep exclusive Hh ltac:(lia)).
  split_if.
  - apply quiet_upd; [|done]. intros s. sw_set.
  - destruct source as [src|]; [apply quiet_set_source|].
    split_if; [by apply quiet_set_body|reflexivity].
Qed.

Lemma submit_request_quiet p hdrs body :
  Forall header_ok hdrs -> body_ok body -> quiet p (chttp_h2_proto_submit_request p hdrs body).1.1.
Proof. apply submit_request_ex_quiet. Qed.

Lemma submit_request_headers_quiet p hdrs end_stream :
  Forall header_ok hdrs ->
  quiet p (chttp_h2_proto_submit_request_headers p hdrs end_stream).1.1.
Proof.
  intros Hh. unfold chttp_h2_proto_submit_request_headers. split_if; [reflexivity|].
  split_if; [reflexivity|]. apply quiet_by. intros Hwf.
  pose proof (ensure_preface_quiet p) as Hq. pose proof (ensure_preface_ctl p) as Hctl.
  destruct (proto_ensure_preface p) as [p1 rc] eqn:E. cbn [fst] in Hq, Hctl.
  assert (p_next_stream_id p1 = p_next_stream_id p) as Hnext by (by rewrite Hctl).
  pose proof (k_mode _ _ (Hq Hwf)) as Hmode.
  transitivity p1; [exact Hq|]. split_if; [reflexivity|]. rewrite <- Hnext in *.
  pose proof (open_stream_quiet p1 ltac:(congruence) ltac:(lia)) as Ho. cbv zeta in Ho.
  destruct (proto_new_stream _ _ _) as [p2 slot]. cbn [fst] in Ho.
  transitivity p2; [exact Ho|]. destruct slot as [i|]; [|reflexivity].
  etransitivity; [apply (quiet_set_end_stream_sent p2 i (negb (end_stream =? 0)))|].
  set (p3 := upd_stream p2 i _).
  pose proof (w_next _ Hwf) as Hn. rewrite <- Hnext in *.
  q_bind (out_headers_quiet p3 (p_next_stream_id p1) hdrs (negb (end_stream =? 0)) false 0 0 false
    Hh ltac:(lia)).
  split_if; [|reflexivity]. apply quiet_upd; [|done]. intros s. sw_set.
Qed.

(** ** Responses *)

Lemma submit_headers_quiet p sid hdrs end_stream :
  Forall header_ok hdrs -> quiet p (chttp_h2_proto_submit_headers p sid hdrs end_stream).1.
Proof.
  intros Hh. unfold chttp_h2_proto_submit_headers. split_if; [reflexivity|].
  apply quiet_by. intros Hwf. destruct (proto_find p sid) as [i|] eqn:Hf; [|reflexivity].
  destruct (proto_find_wf _ _ _ Hwf Hf) as (_ & _ & Hr). split_if; [reflexivity|].
  q_bind (ensure_preface_quiet p). split_if; [|reflexivity]. cbv zeta.
  q_bind (out_headers_quiet p0 sid hdrs (negb (end_stream =? 0)) false 0 0 false Hh ltac:(lia)).
  split_if; [|reflexivity]. split_if; [|reflexivity].
  etransitivity; [|apply maybe_close_quiet]. apply quiet_set_end_stream_sent.
Qed.

Lemma submit_response_ex_quiet p sid hdrs body source :
  Forall header_ok hdrs -> body_ok body ->
  quiet p (chttp_h2_proto_submit_response_ex p sid hdrs body source).1.
Proof.
  intros Hh Hb. unfold chttp_h2_proto_submit_response_ex. split_if; [reflexivity|].
  apply quiet_by. intros Hwf. destruct (proto_find p sid) as [i|] eqn:Hf; [|reflexivity].
  destruct (proto_find_wf _ _ _ Hwf Hf) as (_ & _ & Hr). split_if; [reflexivity|].
  q_bind (ensure_preface_quiet p). split_if; [|reflexivity]. cbv zeta.
  set (es := (_ && _)%bool).
  etransitivity; [apply (quiet_set_end_stream_sent p0 i es)|]. set (p3 := upd_stream p0 i _).
  q_bind (out_headers_quiet p3 sid hdrs es false 0 0 false Hh ltac:(lia)).
  split_if; [|reflexivity]. destruct source as [src|]; [apply quiet_set_source|].
  split_if; [by apply quiet_set_body|apply maybe_close_quiet].
Qed.

Lemma submit_response_quiet p sid hdrs body :
  Forall header_ok hdrs -> body_ok body ->
  quiet p (chttp_h2_proto_submit_response p sid hdrs body).1.
Proof. apply submit_response_ex_quiet. Qed.

Lemma submit_data_quiet p sid data end_stream :
  body_ok data -> quiet p (chttp_h2_proto_submit_data p sid data end_stream).1.
Proof.
  intros Hb. unfold chttp_h2_proto_submit_data. split_if; [reflexivity|].
  destruct (proto_find p sid) as [i|] eqn:Hf; [|reflexivity].
  split_if; [reflexivity|]. split_if; [reflexivity|].
  q_bind (ensure_preface_quiet p). split_if; [|reflexivity]. apply quiet_set_body.
  destruct data; [done|constructor].
Qed.

Lemma submit_trailers_quiet p sid hdrs :
  Forall header_ok hdrs -> quiet p (chttp_h2_proto_submit_trailers p sid hdrs).1.
Proof.
  intros Hok. unfold chttp_h2_proto_submit_trailers. split_if; [reflexivity|].
  apply quiet_by. intros Hwf. destruct (proto_find p sid) as [i|] eqn:Hf; [|reflexivity].
  destruct (proto_find_wf _ _ _ Hwf Hf) as (_ & _ & Hr). split_if; [reflexivity|].
  pose proof (ensure_preface_quiet p) as Hq.
  destruct (proto_ensure_preface p) as [p0 rc]. cbn [fst] in Hq.
  pose proof (k_config _ _ (Hq Hwf)) as Hcfg. pose proof (k_wf _ _ (Hq Hwf)) as Hwf0.
  transitivity p0; [exact Hq|]. split_if; [|reflexivity]. cbv zeta.
  split_if; [reflexivity|]. split_if.
  - pose proof (cw_valid _ (w_config _ Hwf0)) as Hv. unfold chttp_h2_proto_config_valid in Hv.
    pose proof (cw_block _ (w_config _ Hwf0)). bool_prop.
    destruct (chttp_h2_hpack_buffer_init _ _) as [tr|] eqn:Hi; [|reflexivity].
    apply hpack_buffer_init_ok in Hi as (Hbw & Hb0 & Hbm);
      [|unfold proto_initial_capacity; split_if; lia|zlia|lia].
    destruct (engine_encode p0 hdrs tr Hwf0 Hok Hbw Hbm) as (hpack & tr' & rc' & -> & Hbd & Hq2).
    etransitivity; [exact Hq2|]. split_if; (apply quiet_upd; [|done]; intros s; sw_set).
    + apply buf_zero_wf.
    + apply Hbd.
  - set (p3 := upd_stream p0 i _).
    transitivity p3. { apply quiet_upd; [|done]. intros s. sw_set. }
    q_bind (out_headers_quiet p3 sid hdrs true false 0 0 false Hok ltac:(lia)).
    split_if; [|reflexivity]. apply maybe_close_quiet.
Qed.

(** ** Consumption, resumption, termination *)

Lemma consume_connection_quiet p bytes :
  0 <= bytes -> quiet p (chttp_h2_proto_consume_connection p bytes).1.
Proof.
  intros Hb. unfold chttp_h2_proto_consume_connection. split_if; [reflexivity|].
  unfold CHTTP_H2_MAX_WINDOW in *. assert (i32 bytes = bytes) as Hi by (apply i32_id; zlia).
  rewrite Hi in *. split_if; [reflexivity|]. cbv zeta.
  assert (quiet p (p <| p_conn_consumed := p_conn_consumed p + bytes |>)) as Hq.
  { q_set. unfold CHTTP_H2_MAX_WINDOW in *. lia. }
  etransitivity; [exact Hq|]. set (q := p <| p_conn_consumed := _ |>). clearbody q. clear Hq.
  split_if; [|reflexivity].
  assert (quiet q (q <| p_conn_consumed := 0 |>)) as Hq by q_set.
  etransitivity; [exact Hq|]. set (inc := p_conn_consumed q).
  set (r := q <| p_conn_consumed := 0 |>). clearbody r.
  q_bind (submit_window_update_quiet r 0 (u32 inc) ltac:(apply u32_range)).
  split_if; reflexivity.
Qed.

Lemma consume_stream_quiet p sid bytes :
  quiet p (chttp_h2_proto_consume_stream p sid bytes).1.
Proof.
  unfold chttp_h2_proto_consume_stream. split_if; [reflexivity|].
  destruct (proto_find p sid) as [i|]; [|reflexivity]. split_if; [reflexivity|].
  q_bind (submit_window_update_quiet p sid (u32 bytes) ltac:(apply u32_range)).
  split_if; reflexivity.
Qed.

Lemma wake_write_quiet p : quiet p (match on_wake_write U cbs with Some f => f p | None => p end).
Proof. destruct (on_wake_write U cbs) eqn:Hf; [by eapply law_wake_write|reflexivity]. Qed.

Lemma resume_source_quiet p sid : quiet p (chttp_h2_proto_resume_source p sid).1.
Proof.
  unfold chttp_h2_proto_resume_source. destruct (proto_find p sid) as [i|]; [|reflexivity].
  split_if; [reflexivity|]. cbn [fst]. etransitivity; [|apply wake_write_quiet].
  apply quiet_upd; [|done]. intros s. sw_set.
Qed.

Lemma for_streams_quiet body p : (forall q i, quiet q (body q i)) -> quiet p (for_streams body p).
Proof.
  intros Hb. unfold for_streams. generalize (seq 0 (Z.to_nat (p_stream_cap p))) as l.
  intros l. revert p. induction l as [|i l IH]; intros p; cbn [foldl]; [reflexivity|].
  etransitivity; [|apply IH]. case_decide; [apply Hb|reflexivity].
Qed.

Lemma terminate_quiet p error : quiet p (chttp_h2_proto_terminate p error).1.
Proof.
  unfold chttp_h2_proto_terminate.
  q_bind (submit_goaway_quiet p (u32 (p_last_proc_stream_id p)) error).
  split_if; [|reflexivity]. cbn [fst]. apply for_streams_quiet. intros q i. split_if; [reflexivity|].
  etransitivity; [|apply stream_closed_cb_quiet]. apply quiet_upd; [apply stream_wf_close|done].
Qed.

End Submit.

Section Receive.
Context {alloc : Allocator} {U : Type} {app : Application U} {law : LawfulApplication U app}.
Implicit Types p q : chttp_h2_proto U.

(** ** The peer's settings *)

Lemma quiet_set_peer p st : (proto_wf p -> settings_wf st) -> quiet p (p <| p_peer := st |>).
Proof. intros H Hwf. pose proof (H Hwf). revert Hwf. q_set. Qed.

Lemma apply_initial_window_quiet p value :
  0 <= value -> quiet p (apply_initial_window p value).1.
Proof.
  intros Hv. unfold apply_initial_window. split_if; [reflexivity|].
  set (delta := value - _). destruct (existsb _ _) eqn:Hex; [reflexivity|]. cbn [fst].
  set (f := fun s : chttp_h2_proto_stream => _). set (q := p <| p_streams := map f _ |>).
  assert (forall s, s_id (f s) = s_id s) as Hid by (intros s; unfold f; by split_if).
  transitivity q; [|apply quiet_set_peer; intros Hwf; destruct (w_peer _ Hwf); split; cbn; auto; lia].
  intros Hwf.
  assert (Forall stream_wf (map f (p_streams p))) as Hf.
  { apply Forall_fmap. pose proof (w_streams _ Hwf) as Hs. rewrite Forall_forall in *.
    intros s Hin. specialize (Hs s Hin). unfold compose, f. destruct (s_closed s) eqn:Hc; [done|].
    assert (negb (s_closed s) && ((s_send_window s + delta <? INT32_MIN) ||
      (CHTTP_H2_MAX_WINDOW <? s_send_window s + delta)) = false) as Hb.
    { destruct (negb _ && _) eqn:Hb; [|done]. rewrite <- Hex. symmetry.
      apply existsb_exists. exists s. split; [by apply list_elem_of_In|done]. }
    rewrite Hc in Hb. bool_prop. destruct Hs. split; cbn; auto.
    unfold CHTTP_H2_MAX_WINDOW in *. rewrite i32_id; zlia. }
  assert (map s_id (map f (p_streams p)) = map s_id (p_streams p)) as Hm.
  { rewrite map_map. apply map_ext. done. }
  destruct Hwf. split; [split; cbn; auto|cbn; auto; try lia..|by apply quiet_out_same].
  - unfold zlen in *. by rewrite length_map.
  - by rewrite Hm.
  - apply Forall_fmap. eapply Forall_impl; [eassumption|]. intros s. unfold compose.
    by rewrite Hid.
  - by rewrite length_map.
Qed.

Lemma apply_peer_setting_quiet p id value :
  is_u32 value -> quiet p (apply_peer_setting p id value).1.
Proof.
  intros Hv. unfold apply_peer_setting.
  assert (forall st, (settings_wf (p_peer p) -> settings_wf st) ->
    quiet p (p <| p_peer := st |>)) as Hset.
  { intros st H. apply quiet_set_peer. intros Hwf. apply H, Hwf. }
  unfold CHTTP_H2_DEFAULT_FRAME_BYTES, CHTTP_H2_MAX_FRAME_BYTES.
  repeat (split_if;
    try (apply Hset; intros []; split; cbn; auto;
         unfold CHTTP_H2_DEFAULT_FRAME_BYTES, CHTTP_H2_MAX_FRAME_BYTES; lia);
    try reflexivity; try (apply apply_initial_window_quiet; zlia)).
Qed.

Lemma apply_peer_settings_quiet settings : forall p,
  Forall (fun s => is_u32 s.2) settings -> quiet p (proto_apply_peer_settings p settings).1.
Proof.
  induction settings as [|[id value] settings IH]; intros p Hs; cbn [proto_apply_peer_settings];
    [reflexivity|]. inversion Hs; subst.
  q_bind (apply_peer_setting_quiet p id value ltac:(done)). split_if; [by apply IH|reflexivity].
Qed.

Lemma settings_parse_values payload max settings :
  is_bytes payload -> chttp_h2_frame_settings_parse payload max = Ok settings ->
  Forall (fun s => is_u32 s.2) settings.
Proof.
  intros Hb H. unfold chttp_h2_frame_settings_parse in H. split_if_in H; [done|].
  split_if_in H; [done|]. injection H as <-. apply Forall_fmap. apply Forall_forall.
  intros i Hi. apply list_elem_of_In, in_seq in Hi. unfold compose, settings_entry. cbn [snd].
  apply read_u32_range; [by apply is_bytes_drop|].
  pose proof (Z.div_mod (zlen payload) 6 ltac:(lia)). rewrite zlen_zdrop by lia. lia.
Qed.

(** ** Header blocks *)

Lemma quiet_set_user p user : quiet p (p <| p_user := user |>).
Proof. q_set. Qed.

Lemma finish_headers_decode_quiet p ignored : quiet p (finish_headers_decode p ignored).1.1.
Proof.
  unfold finish_headers_decode. set (ctx := if x_ignore _ then _ else _). clearbody ctx.
  apply quiet_by. intros Hwf.
  destruct (hpack_decode_ok (Some (chttp_h2_header_decode (p_in_headers_stream p)))
    (st_max_header_list_size (p_local p)) (p_hpack p) ctx (buf_data (p_in_block p)))
    as (hpack & ctx' & rc & consumed & -> & Hw & Ho & _); [apply Hwf|apply Hwf|].
  cbn [fst]. etransitivity; [|apply quiet_set_user]. apply quiet_set_hpack. intros _.
  split; [done|]. rewrite Ho. cbn. split; [apply Hwf|done].
Qed.

Lemma quiet_clear_local_reset p i :
  quiet p (upd_stream p i (fun s => s <| s_local_reset := false |>)).
Proof. apply quiet_upd; [|done]. intros s. sw_set. Qed.

Lemma quiet_remote_end p i :
  quiet p (upd_stream p i (fun s => s <| s_remote_end_stream := true |>)).
Proof. apply quiet_upd; [|done]. intros s. sw_set. Qed.

Lemma finish_headers_end_stream_quiet p slot ignored :
  quiet p (finish_headers_end_stream p slot ignored).
Proof.
  unfold finish_headers_end_stream. destruct slot as [i|]; split_if; try reflexivity;
    [|apply quiet_reset_forget].
  etransitivity; [apply (quiet_remote_end p i)|]. set (q := upd_stream p i _).
  split_if; [|reflexivity].
  etransitivity; [apply (quiet_clear_local_reset q i)|]. apply quiet_reset_forget.
Qed.

Lemma finish_headers_outcome_quiet p slot ctx ignored error :
  quiet p (finish_headers_outcome p slot ctx ignored error).
Proof.
  unfold finish_headers_outcome. cbv zeta.
  q_pair ltac:(split_if; [|reflexivity];
    destruct (on_end_headers U cbs) as [f|] eqn:Hf; [|reflexivity];
    match goal with |- context [f ?a ?b ?c] => q_bind (law_end_headers a b c f Hf) end;
    reflexivity).
  destruct slot as [i|]; [|reflexivity].
  lazymatch goal with
  | |- quiet ?q (if _ then proto_maybe_close ?x _ else _) => set (q1 := x); assert (quiet q q1) as Hq1
  end.
  { unfold q1. split_if; [|reflexivity].
    lazymatch goal with |- context [chttp_h2_proto_submit_rst_stream ?a ?b ?c] =>
      q_bind (submit_rst_stream_quiet a b c) end.
    split_if; [apply proto_fail_quiet|]. split_if; [|reflexivity].
    etransitivity; [|apply quiet_reset_forget]. apply quiet_clear_local_reset. }
  etransitivity; [exact Hq1|]. split_if; [apply maybe_close_quiet|reflexivity].
Qed.

Lemma buf_wf_empty b : buf_wf b -> buf_wf (b <| buf_data := [] |>).
Proof.
  intros (_ & Hc & Hm). pose proof (zlen_nonneg (buf_data b)). unfold buf_wf, buf_size in *. cbn.
  change (zlen []) with 0. split; [constructor|lia].
Qed.

Lemma quiet_set_in_block p b :
  (proto_wf p -> buf_wf b /\ buf_max_capacity b = buf_max_capacity (p_in_block p)) ->
  quiet p (p <| p_in_block := b |>).
Proof. intros H Hwf. destruct (H Hwf) as [H1 H2]. revert Hwf. q_set. Qed.

Lemma quiet_set_in_headers p b : quiet p (p <| p_in_headers := b |>).
Proof. q_set. Qed.

Lemma finish_headers_quiet p : quiet p (proto_finish_headers p).
Proof.
  unfold proto_finish_headers. cbv zeta. set (slot := proto_find _ _). set (ignored := orb _ _).
  pose proof (finish_headers_decode_quiet p ignored) as Hq.
  destruct (finish_headers_decode p ignored) as [[q ctx] rc]. cbn [fst] in Hq.
  etransitivity; [exact Hq|]. clear Hq.
  q_pair ltac:(repeat (split_if; try reflexivity; try apply proto_fail_quiet)).
  etransitivity; [eapply (finish_headers_end_stream_quiet _ slot ignored)|].
  etransitivity; [eapply (finish_headers_outcome_quiet _ slot ctx ignored)|].
  etransitivity; [|apply quiet_set_in_block; intros Hwf; split; [apply buf_wf_empty, Hwf|done]].
  apply quiet_set_in_headers.
Qed.

(** ** One frame *)

Lemma dispatch_settings_quiet p payload hdr :
  is_bytes payload -> quiet p (dispatch_settings p payload hdr).
Proof.
  intros Hb. unfold dispatch_settings. split_if; [apply proto_fail_quiet|]. split_if.
  - split_if; [apply proto_fail_quiet|]. cbv zeta. set (q := p <| p_settings_acked := true |>).
    assert (quiet p q) as Hq by (unfold q; q_set). etransitivity; [exact Hq|].
    destruct (on_settings_ack U cbs) eqn:Hf; [by eapply law_settings_ack|reflexivity].
  - destruct (chttp_h2_frame_settings_parse _ _) as [settings|] eqn:Hp; [|apply proto_fail_quiet].
    apply settings_parse_values in Hp; [|done].
    q_bind (apply_peer_settings_quiet settings p Hp). split_if; [apply proto_fail_quiet|].
    set (q := p0 <| p_peer_settings_received := true |>).
    assert (quiet p0 q) as Hq by (unfold q; q_set). etransitivity; [exact Hq|]. clearbody q.
    lazymatch goal with |- context [out_frame ?x] => set (q1 := x) end.
    assert (quiet q q1) as Hq1
      by (unfold q1; destruct (on_settings U cbs) eqn:Hf; [by eapply law_settings|reflexivity]).
    etransitivity; [exact Hq1|].
    q_bind (out_frame_quiet q1 CHTTP_H2_FRAME_SETTINGS CHTTP_H2_FLAG_ACK 0 [] ltac:(zlia)
      ltac:(zlia) ltac:(zlia) ltac:(constructor) ltac:(done)).
    split_if; [apply proto_fail_quiet|reflexivity].
Qed.

Lemma dispatch_rst_stream_quiet p payload hdr : quiet p (dispatch_rst_stream p payload hdr).
Proof.
  unfold dispatch_rst_stream. cbv zeta. set (id := i32 _). split_if; [apply proto_fail_quiet|].
  destruct (proto_find p id) as [i|]; cycle 1.
  { split_if; [apply quiet_reset_forget|apply proto_fail_quiet]. }
  lazymatch goal with
  | |- context [upd_stream ?x i (fun s => s <| s_local_reset := false |>)] => set (q := x)
  end.
  assert (quiet p q) as Hq.
  { unfold q. split_if; [reflexivity|]. etransitivity; [|apply stream_closed_cb_quiet].
    apply quiet_upd; [intros s Hs; by apply stream_wf_drop_trailers, stream_wf_close|].
    intros s. by rewrite drop_trailers_id. }
  etransitivity; [exact Hq|]. etransitivity; [apply (quiet_clear_local_reset q i)|].
  etransitivity; [apply (quiet_reset_forget _ id)|].
  set (q2 := proto_local_reset_forget _ _).
  destruct (on_rst_received U cbs) eqn:Hf; [by eapply law_rst_received|reflexivity].
Qed.

Lemma dispatch_goaway_quiet p payload hdr : quiet p (dispatch_goaway p payload hdr).
Proof.
  unfold dispatch_goaway. split_if; [apply proto_fail_quiet|].
  destruct (chttp_h2_frame_goaway_parse payload) as [[last err]|]; [|apply proto_fail_quiet].
  set (q := p <| p_goaway_received_last := _ |> <| p_goaway_received_error := _ |>
              <| p_draining := true |>).
  assert (quiet p q) as Hq by (unfold q; q_set). etransitivity; [exact Hq|].
  etransitivity; [|apply for_streams_quiet].
  - destruct (on_goaway U cbs) eqn:Hf; [by eapply law_goaway|reflexivity].
  - intros r i. unfold goaway_close. split_if; [|reflexivity].
    etransitivity; [|apply stream_closed_cb_quiet].
    apply quiet_upd; [intros s Hs; by apply stream_wf_drop_trailers, stream_wf_close|].
    intros s. by rewrite drop_trailers_id.
Qed.

Lemma dispatch_ping_quiet p payload hdr : is_bytes payload -> quiet p (dispatch_ping p payload hdr).
Proof.
  intros Hb. unfold dispatch_ping. split_if; [apply proto_fail_quiet|]. split_if.
  - q_bind (out_frame_quiet p CHTTP_H2_FRAME_PING CHTTP_H2_FLAG_ACK 0 (ztake 8 payload) ltac:(zlia)
      ltac:(zlia) ltac:(zlia) ltac:(bytes_solve) ltac:(done)).
    split_if; [apply proto_fail_quiet|reflexivity].
  - destruct (on_ping_ack U cbs) eqn:Hf; [by eapply law_ping_ack|reflexivity].
Qed.

Lemma drain_data_quiet p hdr ended :
  0 <= fh_length hdr -> (forall q, quiet q (ended q)) -> quiet p (drain_data p hdr ended).
Proof.
  intros Hl He. unfold drain_data.
  assert (quiet p (if negb (fh_length hdr =? 0)
    then chttp_h2_proto_consume_connection p (fh_length hdr) else (p, 0)).1) as Hq
    by (split_if; [by apply consume_connection_quiet|reflexivity]).
  q_bind Hq. split_if; [apply proto_fail_quiet|]. split_if; [apply He|reflexivity].
Qed.

(** A frame as the input loop hands it to [proto_dispatch]. *)
Record frame_wf (payload : list Z) (hdr : chttp_h2_frame_header) : Prop := {
  f_bytes : is_bytes payload;
  f_length : fh_length hdr = zlen payload;
  f_max : fh_length hdr <= CHTTP_H2_MAX_FRAME_BYTES;
  f_stream : 0 <= fh_stream_id hdr <= INT32_MAX;
}.

Lemma frame_length_i32 payload hdr :
  frame_wf payload hdr -> i32 (fh_length hdr) = fh_length hdr /\ 0 <= fh_length hdr.
Proof.
  intros []. pose proof (zlen_nonneg payload). unfold CHTTP_H2_MAX_FRAME_BYTES in *.
  split; [apply i32_id; zlia|lia].
Qed.

Lemma data_payload_ok payload flags data :
  is_bytes payload -> chttp_h2_frame_data_payload payload flags = Ok data ->
  is_bytes data /\ zlen data <= zlen payload.
Proof.
  intros Hb. unfold chttp_h2_frame_data_payload. split_if; [intros [= <-]; auto with lia|].
  split_if; [done|]. split_if; [done|]. intros [= <-].
  split; [by apply is_bytes_take, is_bytes_drop|].
  unfold ztake, zdrop, zlen. rewrite length_take, length_drop. lia.
Qed.

Lemma accept_data_quiet p i data hdr payload :
  frame_wf payload hdr -> is_bytes data -> zlen data <= fh_length hdr ->
  fh_length hdr <= s_recv_window (stream_at p i) -> quiet p (accept_data p i data hdr).
Proof.
  intros Hf Hd Hle Hw. destruct (frame_length_i32 _ _ Hf) as [Hi Hl]. unfold accept_data.
  cbv zeta. set (q := upd_stream p i _).
  assert (quiet p q) as Hq.
  { apply quiet_upd_at; [|done]. sw_set. rewrite Hi. unfold CHTTP_H2_MAX_WINDOW in *. lia. }
  etransitivity; [exact Hq|]. clearbody q. clear Hq Hw.
  q_pair ltac:(split_if; [|reflexivity]; 
    match goal with |- context [chttp_h2_proto_consume_stream ?a ?b ?c] =>
      q_bind (consume_stream_quiet a b c) end;
    split_if; [apply consume_connection_quiet; lia|reflexivity]).
  split_if; [apply proto_fail_quiet|].
  set (q1 := if has_flag _ _ then upd_stream _ _ _ else _).
  assert (quiet q0 q1) as Hq1 by (unfold q1; split_if; [apply quiet_remote_end|reflexivity]).
  etransitivity; [exact Hq1|]. clearbody q1.
  q_pair ltac:(destruct (on_data U cbs) eqn:Hod; [by eapply law_data|reflexivity]).
  split_if; [q_set|]. split_if; [apply proto_fail_quiet|]. split_if; [|reflexivity].
  etransitivity; [|apply maybe_close_quiet]. split_if; [|reflexivity].
  etransitivity; [|apply quiet_reset_forget]. apply quiet_clear_local_reset.
Qed.

Lemma dispatch_data_quiet p payload hdr :
  frame_wf payload hdr -> quiet p (dispatch_data p payload hdr).
Proof.
  intros Hf. destruct (frame_length_i32 _ _ Hf) as [Hi Hl]. unfold dispatch_data. cbv zeta.
  split_if; [apply proto_fail_quiet|].
  destruct (chttp_h2_frame_data_payload _ _) as [data|] eqn:Hd; [|apply proto_fail_quiet].
  apply data_payload_ok in Hd as [Hdb Hdl]; [|apply Hf]. rewrite <- (f_length _ _ Hf) in Hdl.
  rewrite Hi. split_if; [apply proto_fail_quiet|].
  set (q := p <| p_conn_recv_window := _ |>).
  assert (quiet p q) as Hq by (unfold q; q_set).
  etransitivity; [exact Hq|]. set (slot := proto_find p _). set (reset := proto_local_reset_contains p _).
  clearbody q slot reset. destruct slot as [i|].
  - split_if; [apply proto_fail_quiet|]. split_if.
    + apply drain_data_quiet; [done|]. intros r. etransitivity; [|apply quiet_reset_forget].
      apply quiet_upd; [|done]. intros s. sw_set.
    + split_if; [apply proto_fail_quiet|]. by eapply accept_data_quiet.
  - split_if; [apply proto_fail_quiet|]. apply drain_data_quiet; [done|].
    intros r. apply quiet_reset_forget.
Qed.

(** Registering the stream of a request: the server's new identifier. *)
Lemma register_stream_quiet p id :
  is_client (p_mode p) = false -> 0 < id <= INT32_MAX -> p_max_peer_stream_id p < id ->
  quiet p ((proto_new_stream p id 0).1 <| p_max_peer_stream_id := id |>).
Proof.
  intros Hm Hid Hmax. apply quiet_by. intros Hwf.
  set (q := p <| p_max_peer_stream_id := id |>).
  assert ((proto_new_stream p id 0).1 <| p_max_peer_stream_id := id |> =
          (proto_new_stream q id 0).1) as ->.
  { unfold proto_new_stream, q. cbn. destruct (list_find _ _) as [[i s]|]; [cbn; by split_if|].
    destruct (_ <=? _); [done|]. cbn. by split_if. }
  transitivity q.
  - unfold q. q_set. eapply Forall_impl; [eassumption|]. intros s. rewrite Hm. lia.
  - apply quiet_new_stream; [done| |].
    + destruct (proto_find q id) as [i|] eqn:Hf; [|done]. exfalso.
      destruct (proto_find_Some _ _ _ Hf) as (s & Hl & _ & Hsid).
      pose proof (Forall_lookup_1 _ _ _ _ (w_ids _ Hwf) Hl) as Hb. cbn in Hb.
      rewrite Hm in Hb. lia.
    + cbn. rewrite Hm. lia.
Qed.

Lemma new_stream_full_quiet p id p' :
  proto_new_stream p id 0 = (p', None) -> p' = p.
Proof.
  unfold proto_new_stream. destruct (list_find _ _) as [[i s]|]; [done|]. split_if; congruence.
Qed.

Lemma headers_stream_quiet p hdr payload reset :
  frame_wf payload hdr -> fh_stream_id hdr <> 0 -> quiet p (headers_stream p hdr reset).1.1.
Proof.
  intros Hf Hne. pose proof (f_stream _ _ Hf) as Hr. unfold headers_stream. cbv zeta.
  rewrite i32_id by zlia. destruct (proto_find p (fh_stream_id hdr)) as [i|] eqn:Hfind; [reflexivity|].
  split_if; [|reflexivity]. apply quiet_by. intros Hwf.
  rewrite u32_id by (pose proof (w_max_peer _ Hwf); zlia).
  split_if; [apply proto_fail_quiet|]. split_if; [apply proto_fail_quiet|].
  unfold is_server in *. bool_prop.
  pose proof (register_stream_quiet p (fh_stream_id hdr) ltac:(done) ltac:(lia) ltac:(lia)) as Hq.
  destruct (proto_new_stream p (fh_stream_id hdr) 0) as [q slot] eqn:Hns. destruct slot as [i|].
  - exact Hq.
  - apply new_stream_full_quiet in Hns as ->. apply proto_fail_quiet.
Qed.

(** Appending to the header block. *)
Lemma append_in_block_quiet p b bytes b' rc :
  buf_wf b -> buf_max_capacity b = buf_max_capacity (p_in_block p) -> is_bytes bytes ->
  chttp_h2_hpack_buffer_reserve b (zlen bytes) = (b', rc) ->
  quiet p (p <| p_in_block := b' |>) /\
  (rc = 0 -> quiet p (p <| p_in_block := b' |> <| p_in_block := buf_append b' bytes |>)).
Proof.
  intros Hw Hm Hbytes Hr.
  pose proof (buffer_reserve_cases b (zlen bytes) Hw (zlen_nonneg _)) as Hc. rewrite Hr in Hc.
  destruct Hc as (Hd & Hmax & Hw' & Hcase).
  assert (quiet p (p <| p_in_block := b' |>)) as Hq
    by (apply quiet_set_in_block; intros _; split; [done|congruence]).
  split; [exact Hq|]. intros ->. etransitivity; [exact Hq|].
  apply quiet_set_in_block. intros _. split; [|done].
  destruct Hcase as [[_ Hcap]|[? _]]; [|done]. apply buf_wf_append; [done|done|].
  unfold buf_size in *. rewrite Hd. lia.
Qed.

Lemma dispatch_continuation_quiet p payload hdr :
  frame_wf payload hdr -> quiet p (dispatch_continuation p payload hdr).
Proof.
  intros Hf. unfold dispatch_continuation. split_if; [apply proto_fail_quiet|].
  apply quiet_by. intros Hwf. rewrite (f_length _ _ Hf).
  destruct (chttp_h2_hpack_buffer_reserve _ _) as [b rc] eqn:Hr.
  destruct (append_in_block_quiet p _ payload b rc (w_in_block _ Hwf) eq_refl
    (f_bytes _ _ Hf) Hr) as [Hq1 Hq2].
  split_if; [etransitivity; [exact Hq1|apply proto_fail_quiet]|]. bool_prop. subst rc.
  etransitivity; [exact (Hq2 eq_refl)|]. split_if; [apply finish_headers_quiet|reflexivity].
Qed.

Lemma headers_payload_bytes payload flags parsed :
  is_bytes payload -> chttp_h2_frame_headers_payload payload flags = Ok parsed ->
  is_bytes (hp_block parsed).
Proof.
  intros Hb. unfold chttp_h2_frame_headers_payload. cbv zeta.
  destruct (if has_flag flags CHTTP_H2_FLAG_PADDED then _ else _) as [[pad off]|]; [|done].
  split_if; [split_if; [done|]|]; intros [= <-]; cbn; by apply is_bytes_take, is_bytes_drop.
Qed.

Lemma dispatch_headers_quiet p payload hdr :
  frame_wf payload hdr -> quiet p (dispatch_headers p payload hdr).
Proof.
  intros Hf. unfold dispatch_headers. split_if; [apply proto_fail_quiet|].
  split_if; [apply proto_fail_quiet|].
  destruct (chttp_h2_frame_headers_payload _ _) as [parsed|] eqn:Hp; [|apply proto_fail_quiet].
  apply headers_payload_bytes in Hp; [|apply Hf]. cbv zeta.
  set (reset := proto_local_reset_contains _ _). clearbody reset.
  pose proof (headers_stream_quiet p hdr payload reset Hf ltac:(done)) as Hq.
  destruct (headers_stream p hdr reset) as [[q slot] refused]. cbn [fst] in Hq.
  etransitivity; [exact Hq|]. split_if; [reflexivity|]. split_if; [apply proto_fail_quiet|].
  set (q1 := q <| p_in_headers := true |> <| p_in_headers_stream := _ |>
               <| p_in_headers_end_stream := _ |>).
  assert (quiet q q1) as Hq1 by (unfold q1; q_set).
  etransitivity; [exact Hq1|]. clearbody q1. apply quiet_by. intros Hwf.
  destruct (chttp_h2_hpack_buffer_reserve _ _) as [b rc] eqn:Hr.
  destruct (append_in_block_quiet q1 _ (hp_block parsed) b rc
    (buf_wf_empty _ (w_in_block _ Hwf)) eq_refl Hp Hr) as [Hq2 Hq3].
  split_if; [etransitivity; [exact Hq2|apply proto_fail_quiet]|]. bool_prop. subst rc.
  etransitivity; [exact (Hq3 eq_refl)|]. split_if; [apply finish_headers_quiet|reflexivity].
Qed.

Lemma dispatch_priority_quiet p hdr : quiet p (dispatch_priority p hdr).
Proof. unfold dispatch_priority. split_if; [apply proto_fail_quiet|reflexivity]. Qed.

(** The credit that a frame gives the connection's send window. *)
Definition frame_credit (payload : list Z) (hdr : chttp_h2_frame_header) : Z :=
  if (fh_type hdr =? CHTTP_H2_FRAME_WINDOW_UPDATE) && (fh_stream_id hdr =? 0) &&
     (fh_length hdr =? 4)
  then Z.land (chttp_h2_read_u32 payload) 0x7fffffff else 0.

(** A step is quiet once the connection's send window has moved by [credit]. *)
Definition credited (credit : Z) p q : Prop :=
  0 <= credit /\ (0 < credit -> p_conn_send_window p + credit <= CHTTP_H2_MAX_WINDOW) /\
  quiet (p <| p_conn_send_window := p_conn_send_window p + credit |>) q.

Lemma credited_quiet p q : quiet p q -> credited 0 p q.
Proof.
  intros Hq. split_and!; [done|done|]. rewrite Z.add_0_r.
  by replace (p <| p_conn_send_window := p_conn_send_window p |>) with p by (by destruct p).
Qed.

Lemma quiet_notify p (f : option (chttp_h2_proto U -> Z -> Z -> chttp_h2_proto U)) sid inc :
  f = on_window_update U cbs ->
  quiet p (match on_wake_write U cbs with
           | Some g => g (match f with Some f => f p sid inc | None => p end)
           | None => match f with Some f => f p sid inc | None => p end
           end).
Proof.
  intros ->. etransitivity; [|apply wake_write_quiet].
  destruct (on_window_update U cbs) eqn:Hf; [by eapply law_window_update|reflexivity].
Qed.

(** What a frame grants is received, unless the frame fails the session. *)
Definition receives p payload hdr q : Prop :=
  exists credit, (credit = frame_credit payload hdr \/ credit = 0 /\ p_failed q = true) /\ credited credit p q.

Lemma receives_fail p payload hdr error : p_failed p = false -> receives p payload hdr (proto_fail p error).
Proof.
  intros Hf. exists 0. split; [right; split; [done|]|apply credited_quiet, proto_fail_quiet].
  by rewrite (proto_fail_ctl p error Hf).
Qed.

Lemma receives_nothing p payload hdr q : frame_credit payload hdr = 0 -> quiet p q -> receives p payload hdr q.
Proof. intros H0 Hq. exists 0. split; [by left|by apply credited_quiet]. Qed.

Lemma dispatch_window_update_credited p payload hdr :
  frame_wf payload hdr -> p_failed p = false -> fh_type hdr = CHTTP_H2_FRAME_WINDOW_UPDATE ->
  receives p payload hdr (dispatch_window_update p payload hdr).
Proof.
  intros Hf Hnf Ht. unfold dispatch_window_update. cbv zeta.
  destruct (Z.eqb_spec (fh_length hdr) 4) as [H4|H4]; cbn [negb]; [|by apply receives_fail].
  set (inc := Z.land _ _).
  assert (0 <= inc <= CHTTP_H2_MAX_WINDOW) as Hinc.
  { unfold inc. rewrite land_31. pose proof (Z.mod_pos_bound (chttp_h2_read_u32 payload) (2 ^ 31)).
    unfold CHTTP_H2_MAX_WINDOW. lia. }
  assert (i32 inc = inc) as Hi by (apply i32_id; unfold CHTTP_H2_MAX_WINDOW in *; zlia).
  rewrite Hi. split_if; [by apply receives_fail|].
  destruct (Z.eqb_spec (fh_stream_id hdr) 0) as [H0|Hne].
  - split_if; [by apply receives_fail|].
    exists inc. split; [left; unfold frame_credit; by rewrite Ht, H0, H4|]. split_and!; [lia|lia|]. by apply quiet_notify.
  - apply receives_nothing; [unfold frame_credit; by rewrite (proj2 (Z.eqb_neq (fh_stream_id hdr) 0)), andb_false_r by done|].
    destruct (proto_find p _) as [i|] eqn:Hfind.
    + split_if; [reflexivity|]. split_if; [apply proto_fail_quiet|].
      etransitivity; [|by apply quiet_notify]. apply quiet_upd_at; [|done].
      sw_set. unfold CHTTP_H2_MAX_WINDOW in *. zlia.
    + split_if; [reflexivity|apply proto_fail_quiet].
Qed.

(** One frame: quiet, up to the credit it carries. *)
Lemma dispatch_credited p payload hdr :
  frame_wf payload hdr -> p_failed p = false -> receives p payload hdr (proto_dispatch p payload hdr).
Proof.
  intros Hf Hnf. unfold proto_dispatch. cbv zeta.
  split_if; [by apply receives_fail|]. split_if; [by apply receives_fail|].
  assert (fh_type hdr <> CHTTP_H2_FRAME_WINDOW_UPDATE -> forall q, quiet p q -> receives p payload hdr q) as Hz.
  { intros Hn q Hq. apply receives_nothing; [|done]. unfold frame_credit. by rewrite (proj2 (Z.eqb_neq _ _)) by done. }
  destruct (Z.eqb_spec (fh_type hdr) CHTTP_H2_FRAME_SETTINGS) as [Ht|_]; [apply Hz; [by rewrite Ht|]; apply dispatch_settings_quiet, Hf|].
  destruct (Z.eqb_spec (fh_type hdr) CHTTP_H2_FRAME_WINDOW_UPDATE) as [Ht|Hn]; [by apply dispatch_window_update_credited|].
  specialize (Hz Hn).
  split_if; [apply Hz, dispatch_rst_stream_quiet|].
  split_if; [apply Hz, dispatch_goaway_quiet|].
  split_if; [apply Hz, dispatch_ping_quiet, Hf|].
  split_if; [by apply Hz, dispatch_data_quiet|].
  split_if; [by apply Hz, dispatch_headers_quiet|].
  split_if; [by apply Hz, dispatch_continuation_quiet|].
  split_if; [apply Hz, dispatch_priority_quiet|].
  split_if; [by apply receives_fail|]. by apply Hz.
Qed.

End Receive.

End H2ProtoQuiet.
