(* ===== verification/H2ProtoFlow.v ===== *)
(** * HTTP/2 engine: flow control, sending, receiving

    [flows credit]: a step of the engine that appended whole frames to the
    output and moved the connection's send window by [credit] less the DATA
    bytes among those frames.  Sending and receiving are such steps, their
    loops end, and so a whole session keeps the engine well-formed and, on
    the connection, never sends more DATA than the window and the WINDOW_UPDATE
    frames that were read granted. *)

From S2P Require Import Prelude H2Frame HpackBuffer HpackTables HpackHuffman HpackTable Hpack.
From S2P Require Import HpackSync HpackBound H2Proto H2ProtoSend H2ProtoSubmit H2ProtoRecv.
From S2P Require Import H2ProtoInv H2ProtoOut H2ProtoQuiet.

Module H2ProtoFlow.
Import H2Frame HpackBuffer HpackTables HpackHuffman HpackTable Hpack HpackSync HpackBound.
Import H2Proto H2ProtoSend H2ProtoSubmit H2ProtoRecv H2ProtoInv H2ProtoOut H2ProtoQuiet.

(** ** Steps with flow control *)

Record flowed {U} (credit : Z) (p p' : chttp_h2_proto U) : Prop := {
  fl_wf : proto_wf p';
  fl_mode : p_mode p' = p_mode p;
  fl_config : p_config p' = p_config p;
  fl_failed : p_failed p = true -> p_failed p' = true /\ p_last_error p' = p_last_error p;
  fl_inbuf : p_inbuf p' = p_inbuf p;
  fl_next : p_next_stream_id p <= p_next_stream_id p';
  fl_max_peer : p_max_peer_stream_id p <= p_max_peer_stream_id p';
  fl_out : exists items, Forall item_ok items /\
             buf_data (p_out p') = buf_data (p_out p) ++ wire items /\
             p_conn_send_window p' + data_bytes items = p_conn_send_window p + credit;
}.

Definition flows {U} (credit : Z) (p p' : chttp_h2_proto U) : Prop :=
  proto_wf p -> flowed credit p p'.

Section Flow.
Context {alloc : Allocator} {U : Type} {app : Application U} {law : LawfulApplication U app}.
Implicit Types p q : chttp_h2_proto U.

Lemma flows_quiet p q : quiet p q -> flows 0 p q.
Proof.
  intros Hq Hwf. destruct (Hq Hwf) as [W M C F S I N X P (items & Hi & Ho)].
  split; auto. exists items. split_and!; [|done|].
  - eapply Forall_impl; [exact Hi|]. by intros ? [? _].
  - rewrite data_bytes_control by done. lia.
Qed.

Lemma flows_trans a b p q r : flows a p q -> flows b q r -> flows (a + b) p r.
Proof.
  intros Hpq Hqr Hwf. destruct (Hpq Hwf) as [W M C F I X P (i1 & O1 & O2 & O3)].
  destruct (Hqr W) as [W' M' C' F' I' X' P' (i2 & O1' & O2' & O3')].
  split; try congruence; try lia; auto.
  - intros Hf. destruct (F Hf) as [Hf1 E1]. destruct (F' Hf1) as [Hf2 E2]. split; congruence.
  - exists (i1 ++ i2). split_and!; [by apply Forall_app|by rewrite O2', O2, wire_app, <- app_assoc|].
    rewrite data_bytes_app. lia.
Qed.

Lemma flows_quiet_r a p q r : flows a p q -> quiet q r -> flows a p r.
Proof. intros H1 H2. rewrite <- (Z.add_0_r a). eapply flows_trans; [exact H1|by apply flows_quiet]. Qed.

Lemma flows_quiet_l a p q r : quiet p q -> flows a q r -> flows a p r.
Proof. intros H1 H2. rewrite <- (Z.add_0_l a). eapply flows_trans; [by apply flows_quiet|exact H2]. Qed.

Lemma flows_by a p q : (proto_wf p -> flows a p q) -> flows a p q.
Proof. intros H Hwf. by apply H. Qed.

(** Appending one DATA frame and taking its bytes from both windows. *)
Lemma flows_data p out i sid flags payload f :
  (proto_wf p -> buf_wf out /\ buf_max_capacity out = buf_max_capacity (p_out p)) ->
  item_ok (WFrame CHTTP_H2_FRAME_DATA flags sid payload) ->
  buf_data out = buf_data (p_out p) ++ wire_bytes (WFrame CHTTP_H2_FRAME_DATA flags sid payload) ->
  zlen payload <= p_conn_send_window p ->
  (stream_wf (stream_at p i) -> stream_wf (f (stream_at p i))) -> (forall s, s_id (f s) = s_id s) ->
  flows 0 p (upd_stream (p <| p_out := out |>
                           <| p_conn_send_window := p_conn_send_window p - zlen payload |>) i f).
Proof.
  intros Hb Hok Hd Hle Hf Hid. eapply flows_quiet_r; [|by apply quiet_upd_at].
  intros Hwf. destruct (Hb Hwf) as [Hw Hm]. pose proof (zlen_nonneg payload). destruct Hwf.
  split; [split; cbn; auto; try lia; congruence|cbn; auto; try lia..|].
  exists [WFrame CHTTP_H2_FRAME_DATA flags sid payload].
  split_and!; [by constructor|unfold wire; cbn [map concat]; by rewrite app_nil_r|].
  cbn [data_bytes item_data]. rewrite Z.eqb_refl. cbn. lia.
Qed.

(** ** One round of [proto_emit_data] *)

Lemma stream_at_wf p i :
  proto_wf p -> 0 < s_send_window (stream_at p i) \/ s_body (stream_at p i) <> None ->
  stream_wf (stream_at p i).
Proof.
  intros Hwf Hs. unfold stream_at in *.
  destruct (nth_lookup_or_length (p_streams p) i (stream_zero 0)) as [Hl|Hl].
  - by apply (Forall_lookup_1 _ _ _ _ (w_streams _ Hwf) Hl).
  - rewrite nth_overflow in Hs by done. cbn in Hs. by destruct Hs; [lia|].
Qed.

Lemma window_chunk_bounds p s chunk :
  0 <= p_send_chunk p -> 0 < p_conn_send_window p -> 0 < s_send_window s -> 0 <= chunk ->
  0 <= window_chunk p s chunk <= chunk /\
  window_chunk p s chunk <= p_conn_send_window p /\ window_chunk p s chunk <= s_send_window s.
Proof.
  intros. unfold window_chunk, cap_at. set (c := if _ && _ then _ else _).
  assert (0 <= c <= chunk) as Hc
    by (subst c; destruct (p_send_chunk p =? 0); cbn [negb andb]; [|split_if]; lia).
  clearbody c. destruct (Z.ltb_spec (p_conn_send_window p) c); split_if; lia.
Qed.

(** What a round does: a flow step, and a round that continues has sent. *)
Definition round_ok p (r : emit_next U) : Prop :=
  match r with
  | EmitReturn q => flows 0 p q
  | EmitContinue q => flows 0 p q /\ (proto_wf p -> p_conn_send_window q < p_conn_send_window p)
  end.

Lemma round_quiet p q : quiet p q -> round_ok p (EmitReturn q).
Proof. apply flows_quiet. Qed.

(** Room for the frame, then the frame. *)
Lemma reserve_data p chunk out payload flags sid :
  buf_wf (p_out p) -> 0 <= chunk <= CHTTP_H2_MAX_FRAME_BYTES ->
  chttp_h2_hpack_buffer_reserve (p_out p) (9 + chunk) = (out, 0) ->
  is_bytes payload -> zlen payload <= chunk -> 0 < sid <= INT32_MAX -> is_u8 flags ->
  let item := WFrame CHTTP_H2_FRAME_DATA flags sid payload in
  item_ok item /\
  chttp_h2_frame_header_encode 9 (u32 (zlen payload)) CHTTP_H2_FRAME_DATA flags (u32 sid) =
    Ok (chttp_h2_write_u24 (zlen payload) ++ [CHTTP_H2_FRAME_DATA; flags] ++ chttp_h2_write_u32 sid) /\
  forall hdr, hdr = chttp_h2_write_u24 (zlen payload) ++ [CHTTP_H2_FRAME_DATA; flags] ++
                      chttp_h2_write_u32 sid ->
  buf_wf (buf_append out (hdr ++ payload)) /\
  buf_max_capacity (buf_append out (hdr ++ payload)) = buf_max_capacity (p_out p) /\
  buf_data (buf_append out (hdr ++ payload)) = buf_data (p_out p) ++ wire_bytes item.
Proof.
  intros Hwf Hc Hr Hb Hl Hs Hfl item. pose proof (zlen_nonneg payload).
  pose proof (buffer_reserve_cases (p_out p) (9 + chunk) Hwf ltac:(lia)) as Hcase. rewrite Hr in Hcase.
  destruct Hcase as (Hd & Hm & Hw & [[_ Hcap]|[? _]]); [|done].
  split; [cbn; split_and!; try done; try lia; zlia|].
  split; [apply frame_header_bytes; lia|]. intros hdr ->. split_and!.
  - apply buf_wf_append; [done| |].
    + apply is_bytes_app. split; [apply header_is_bytes; [zlia|done]|done].
    + rewrite zlen_app, zlen_header. unfold buf_size in *. rewrite Hd. lia.
  - done.
  - cbn. by rewrite Hd.
Qed.

Lemma emit_body_end_quiet p i flags : quiet p (emit_body_end p i flags).1.
Proof.
  unfold emit_body_end. cbv zeta. apply quiet_by. intros Hwf. split_if; cycle 1.
  { apply quiet_upd; [|done]. intros s. sw_set. }
  split_if; [|split_if; (apply quiet_upd; [|done]; intros s; sw_set)].
  - set (q := upd_stream p i _).
    assert (quiet p q) as Hq by (apply quiet_upd; [intros s; sw_set|done]).
    transitivity q; [exact Hq|]. clearbody q.
    destruct (nth_lookup_or_length (p_streams p) i (stream_zero 0)) as [Hl|Hl].
    2: { unfold stream_at in *. rewrite nth_overflow in * by done. done. }
    pose proof (Forall_lookup_1 _ _ _ _ (w_streams _ Hwf) Hl) as Hs. fold (stream_at p i) in Hs.
    q_bind (out_frame_quiet q CHTTP_H2_FRAME_HEADERS
      (Z.lor CHTTP_H2_FLAG_END_HEADERS CHTTP_H2_FLAG_END_STREAM) (s_id (stream_at p i))
      (buf_data (s_trailers (stream_at p i))) ltac:(zlia) ltac:(done)
      ltac:(apply Hs) ltac:(apply Hs) ltac:(done)).
    split_if; [apply proto_fail_quiet|]. cbn [fst]. apply quiet_upd; [|done].
    intros s. sw_set. apply buf_zero_wf.
  - cbn. split; [constructor|]. change (zlen []) with 0. lia.
Qed.

Lemma upd_drop_source_quiet p i : quiet p (upd_stream p i drop_source).
Proof. apply quiet_upd; [|done]. intros s. sw_set. Qed.

Lemma emit_body_ok p i max :
  proto_wf p -> 0 < p_conn_send_window p -> 0 < s_send_window (stream_at p i) ->
  0 < max <= CHTTP_H2_MAX_FRAME_BYTES -> round_ok p (emit_body p i max).
Proof.
  intros Hwf Hconn Hsend Hmax. unfold emit_body. cbv zeta.
  pose proof (stream_at_wf p i Hwf (or_introl Hsend)) as Hs.
  destruct (s_body (stream_at p i)) as [body|] eqn:Hbody; [|by apply round_quiet].
  split_if; [by apply round_quiet|].
  pose proof (sw_body _ Hs) as Hoff. rewrite Hbody in Hoff. destruct Hoff as [Hbytes Hoff].
  set (s := stream_at p i) in *. set (avail := cap_at _ max).
  assert (0 <= avail <= max /\ avail <= zlen body - s_body_off s) as Hav
    by (unfold avail, cap_at; split_if; lia).
  destruct (window_chunk_bounds p s avail (w_send_chunk _ Hwf) Hconn Hsend ltac:(lia))
    as (Hc1 & Hc2 & Hc3).
  set (chunk := window_chunk p s avail) in *. clearbody chunk.
  split_if; [by apply round_quiet|].
  set (flags := if _ && _ then CHTTP_H2_FLAG_END_STREAM else 0).
  assert (is_u8 flags) as Hfl by (unfold flags; split_if; zlia). clearbody flags.
  pose proof (quiet_reserve p (9 + chunk) ltac:(lia)) as Hq.
  destruct (chttp_h2_hpack_buffer_reserve (p_out p) (9 + chunk)) as [out rc] eqn:Hr.
  cbn [fst] in Hq. split_if.
  { apply round_quiet. etransitivity; [exact Hq|apply proto_fail_quiet]. }
  subst rc. set (payload := ztake chunk (zdrop (s_body_off s) body)).
  assert (zlen payload = chunk) as Hpl.
  { unfold payload. apply zlen_ztake. rewrite zlen_zdrop by lia. lia. }
  destruct (reserve_data p chunk out payload flags (s_id s) (w_out _ Hwf) ltac:(lia) Hr
    ltac:(unfold payload; bytes_solve) ltac:(lia) (sw_id _ Hs) Hfl) as (Hok & Henc & Happ).
  rewrite Hpl in Henc. rewrite Henc. destruct (Happ _ eq_refl) as (Ha1 & Ha2 & Ha3).
  rewrite Hpl in Ha1, Ha2, Ha3.
  change (p_out (p <| p_out := out |>)) with out.
  change (p_conn_send_window (p <| p_out := out |>)) with (p_conn_send_window p).
  assert (i32 chunk = chunk) as Hi
    by (apply i32_id; unfold CHTTP_H2_MAX_FRAME_BYTES in *; zlia).
  rewrite Hi. set (hdr := _ ++ _ ++ chttp_h2_write_u32 (s_id s)) in *.
  set (q := upd_stream _ i _).
  assert (flows 0 p q /\ p_conn_send_window q = p_conn_send_window p - chunk) as [Hflow Hcq].
  { split; [|done]. unfold q.
    match goal with |- flows 0 p (upd_stream _ _ ?f) =>
      pose proof (flows_data p (buf_append out (hdr ++ payload)) i (s_id s) flags payload f) as Hfd
    end.
    rewrite Hpl in Hfd. apply Hfd; try done.
    intros _. destruct Hs. split; cbn; fold s; rewrite ?Hbody; auto; [zlia|]. split; [done|lia]. }
  clearbody q.
  assert (forall r, quiet q r -> round_ok p (EmitContinue (proto_maybe_close r i))) as Hcont.
  { intros r Hqr. assert (quiet q (proto_maybe_close r i)) as Hqr2
      by (etransitivity; [exact Hqr|apply maybe_close_quiet]).
    split; [by eapply flows_quiet_r|]. intros _.
    rewrite (k_conn _ _ (Hqr2 (fl_wf _ _ _ (Hflow Hwf)))). lia. }
  destruct (s_body_off s + chunk =? zlen body).
  - pose proof (emit_body_end_quiet q i flags) as He. destruct (emit_body_end q i flags) as [r []].
    + eapply flows_quiet_r; [exact Hflow|exact He].
    + by apply Hcont.
  - by apply Hcont.
Qed.

(** An empty DATA frame takes nothing from the windows. *)
Lemma flows_empty_data p out flags sid :
  (proto_wf p -> buf_wf out /\ buf_max_capacity out = buf_max_capacity (p_out p)) ->
  item_ok (WFrame CHTTP_H2_FRAME_DATA flags sid []) ->
  buf_data out = buf_data (p_out p) ++ wire_bytes (WFrame CHTTP_H2_FRAME_DATA flags sid []) ->
  flows 0 p (p <| p_out := out |>).
Proof.
  intros Hb Hok Hd Hwf. destruct (Hb Hwf) as [Hw Hm]. destruct Hwf.
  split; [split; cbn; auto; congruence|cbn; auto; try lia..|].
  exists [WFrame CHTTP_H2_FRAME_DATA flags sid []].
  split_and!; [by constructor|unfold wire; cbn [map concat]; by rewrite app_nil_r|].
  cbn [data_bytes item_data]. rewrite Z.eqb_refl.
  change (zlen (@nil Z)) with 0. cbn. lia.
Qed.

(** The bytes a source produced, committed to the output. *)
Lemma emit_source_ok p i source max :
  proto_wf p -> 0 < p_conn_send_window p -> 0 < s_send_window (stream_at p i) ->
  0 < max <= CHTTP_H2_MAX_FRAME_BYTES -> round_ok p (emit_source p i source max).
Proof.
  intros Hwf Hconn Hsend Hmax. unfold emit_source. cbv zeta.
  pose proof (stream_at_wf p i Hwf (or_introl Hsend)) as Hs.
  set (s := stream_at p i) in *. split_if; [by apply round_quiet|].
  destruct (window_chunk_bounds p s max (w_send_chunk _ Hwf) Hconn Hsend ltac:(lia))
    as (Hc1 & Hc2 & Hc3).
  set (chunk := window_chunk p s max) in *. clearbody chunk.
  split_if; [by apply round_quiet|].
  pose proof (quiet_reserve p (9 + chunk) ltac:(lia)) as Hq.
  destruct (chttp_h2_hpack_buffer_reserve (p_out p) (9 + chunk)) as [out rc] eqn:Hr.
  cbn [fst] in Hq. split_if.
  { apply round_quiet. etransitivity; [exact Hq|apply proto_fail_quiet]. }
  subst rc. change (p_user (p <| p_out := out |>)) with (p_user p).
  pose proof (law_source (p_user p) source chunk ltac:(lia)) as Hsrc.
  destruct (source_pull (p_user p) source chunk) as [user r]. cbn [snd] in Hsrc.
  destruct Hsrc as (Hrb & Hrl & Hrn).
  set (q := p <| p_out := out |> <| p_user := user |>).
  assert (quiet p q) as Hpq by (etransitivity; [exact Hq|apply quiet_set_user]).
  assert (round_ok p (EmitReturn (proto_fail (upd_stream q i drop_source)
    CHTTP_H2_ERR_INTERNAL_ERROR))) as Hfail.
  { apply round_quiet. etransitivity; [exact Hpq|].
    etransitivity; [apply (upd_drop_source_quiet q i)|apply proto_fail_quiet]. }
  split_if.
  { split_if; [exact Hfail|]. apply round_quiet. etransitivity; [exact Hpq|].
    apply quiet_upd; [|done]. intros s0. sw_set. }
  split_if.
  { apply round_quiet. etransitivity; [exact Hpq|].
    etransitivity; [apply (upd_drop_source_quiet q i)|apply submit_rst_stream_quiet]. }
  destruct ((sr_status r =? CHTTP_H2_PROTO_SOURCE_DATA) && _) eqn:Hdata; [exact Hfail|].
  destruct ((sr_status r =? CHTTP_H2_PROTO_SOURCE_EOF) && _) eqn:Heof; [exact Hfail|].
  destruct (negb (sr_status r =? CHTTP_H2_PROTO_SOURCE_EOF) && _) eqn:Hoth; [exact Hfail|].
  assert (0 <= sr_size r <= chunk) as Hn.
  { destruct (sr_status r =? CHTTP_H2_PROTO_SOURCE_EOF), (sr_status r =? CHTTP_H2_PROTO_SOURCE_DATA);
      cbn in Hdata, Heof, Hoth; bool_prop; lia || done. }
  set (n := sr_size r) in *. set (payload := ztake n (sr_bytes r)).
  assert (zlen payload = n) as Hpl by (apply zlen_ztake; lia).
  set (eof := sr_status r =? CHTTP_H2_PROTO_SOURCE_EOF) in *.
  assert (is_u8 (if eof then CHTTP_H2_FLAG_END_STREAM else 0)) as Hfl by (split_if; zlia).
  destruct (reserve_data p chunk out payload _ (s_id s) (w_out _ Hwf) ltac:(lia) Hr
    ltac:(unfold payload; bytes_solve) ltac:(lia) (sw_id _ Hs) Hfl) as (Hok & Henc & Happ).
  rewrite Hpl in Henc. rewrite Henc. destruct (Happ _ eq_refl) as (Ha1 & Ha2 & Ha3).
  rewrite Hpl in Ha1, Ha2, Ha3. set (hdr := _ ++ _ ++ chttp_h2_write_u32 (s_id s)) in *.
  destruct eof.
  - assert (n = 0) as Hn0 by (cbn in Heof; bool_prop; lia).
    assert (payload = []) as Hp0 by (unfold payload; rewrite Hn0; done).
    rewrite Hp0 in *.
    change (p_out (upd_stream q i _)) with out.
    eapply flows_quiet_r; [apply (flows_empty_data p (buf_append out (hdr ++ []))
      CHTTP_H2_FLAG_END_STREAM (s_id s)); done|].
    etransitivity; [apply (quiet_set_user _ user)|].
    etransitivity; [apply (quiet_upd _ i (fun s => (drop_source s) <| s_source_done := true |>));
      [intros s0; sw_set|done]|].
    etransitivity; [|apply maybe_close_quiet]. apply quiet_set_end_stream_sent.
  - assert (0 < n) as Hn0.
    { destruct (sr_status r =? CHTTP_H2_PROTO_SOURCE_DATA); [|done]. cbn in Hdata. bool_prop. lia. }
    assert (i32 n = n) as Hi by (apply i32_id; unfold CHTTP_H2_MAX_FRAME_BYTES in *; zlia).
    rewrite Hi. change (p_out q) with out. split; [|intros _; cbn; lia].
    eapply flows_quiet_l; [apply (quiet_set_user p user)|].
    match goal with |- flows 0 ?q (upd_stream _ _ ?f) =>
      pose proof (flows_data q (buf_append out (hdr ++ payload)) i (s_id s) 0 payload f) as Hfd
    end.
    rewrite Hpl in Hfd. apply Hfd.
    + intros _. split; [exact Ha1|exact Ha2].
    + exact Hok.
    + exact Ha3.
    + cbn. lia.
    + change (stream_at (p <| p_user := user |>) i) with s. intros _. destruct Hs.
      clear - sw_id0 sw_send0 sw_recv0 sw_body0 sw_trailers0 Hn Hn0 Hc3. split; cbn; auto. zlia.
    + intros s0. reflexivity.
Qed.

Lemma emit_round_ok p i : proto_wf p -> round_ok p (emit_round p i).
Proof.
  intros Hwf. unfold emit_round. cbv zeta. split_if; [by apply round_quiet|].
  split_if; [apply round_quiet, proto_fail_quiet|]. split_if.
  - split_if; [by apply round_quiet|].
    destruct (s_body (stream_at p i)) as [body|] eqn:Hbody; [|done].
    pose proof (stream_at_wf p i Hwf) as Hs. rewrite Hbody in Hs. specialize (Hs ltac:(by right)).
    destruct (out_frame_cases p CHTTP_H2_FRAME_DATA CHTTP_H2_FLAG_END_STREAM (s_id (stream_at p i)) []
      (w_out _ Hwf) ltac:(zlia) ltac:(zlia) ltac:(apply Hs) ltac:(constructor))
      as (out & rc & -> & Hw & Hm & Hcase).
    destruct Hcase as [(-> & Hok & Hd)|[-> Hd]]; cbn [Z.eqb negb].
    + eapply flows_quiet_r; [apply (flows_empty_data p out CHTTP_H2_FLAG_END_STREAM
        (s_id (stream_at p i)))|]; try done.
      etransitivity; [|apply maybe_close_quiet]. apply quiet_upd; [|done]. intros s. sw_set.
    + apply round_quiet. etransitivity; [|apply proto_fail_quiet].
      apply (quiet_set_out _ _ []); [done|constructor|]. cbn. by rewrite app_nil_r.
  - split_if; [by apply round_quiet|]. split_if; [by apply round_quiet|].
    assert (0 < cap_at (st_max_frame_size (p_peer p)) (c_output_buffer_bytes (p_config p) -
      buf_size (p_out p) - CHTTP_H2_FRAME_HEADER_SIZE) <= CHTTP_H2_MAX_FRAME_BYTES) as Hmax.
    { pose proof (stw_frame _ (w_peer _ Hwf)) as Hf. unfold CHTTP_H2_DEFAULT_FRAME_BYTES in Hf.
      unfold cap_at. split_if; lia. }
    destruct (s_source (stream_at p i)); [apply emit_source_ok|apply emit_body_ok]; done || lia.
Qed.

(** ** The send path *)

Lemma emit_loop_flows fuel : forall p i, flows 0 p (emit_loop fuel p i).
Proof.
  induction fuel as [|fuel IH]; intros p i; cbn [emit_loop]; [by apply flows_quiet|].
  apply flows_by. intros Hwf. pose proof (emit_round_ok p i Hwf) as Hr.
  destruct (emit_round p i) as [q|q]; [exact Hr|]. destruct Hr as [Hr _].
  eapply (flows_trans 0 0); [exact Hr|apply IH].
Qed.

(** The fuel of [proto_emit_data] is enough: more rounds change nothing. *)
Lemma emit_loop_enough n m : forall p i,
  proto_wf p -> (Z.to_nat (p_conn_send_window p + 1) <= n)%nat -> (n <= m)%nat ->
  emit_loop n p i = emit_loop m p i.
Proof.
  revert m. induction n as [|n IH]; intros m p i Hwf Hn Hm.
  { pose proof (w_conn_send _ Hwf). lia. }
  destruct m as [|m]; [lia|]. cbn [emit_loop].
  pose proof (emit_round_ok p i Hwf) as Hr. destruct (emit_round p i) as [q|q]; [done|].
  destruct Hr as [Hf Hlt]. specialize (Hlt Hwf). pose proof (fl_wf _ _ _ (Hf Hwf)) as Hq.
  pose proof (w_conn_send _ Hq). apply IH; [done|lia|lia].
Qed.

Lemma emit_data_flows p i : flows 0 p (proto_emit_data p i).
Proof. apply emit_loop_flows. Qed.

Lemma for_streams_flows body p :
  (forall q i, flows 0 q (body q i)) -> flows 0 p (for_streams body p).
Proof.
  intros Hb. unfold for_streams. generalize (seq 0 (Z.to_nat (p_stream_cap p))) as l.
  intros l. revert p. induction l as [|i l IH]; intros p; cbn [foldl]; [by apply flows_quiet|].
  eapply (flows_trans 0 0); [|apply IH]. case_decide; [apply Hb|by apply flows_quiet].
Qed.

(** A failed engine sends no DATA. *)
Lemma send_prepare_flows p :
  flows 0 p (if negb (p_failed p) then for_streams proto_emit_data p else p).
Proof. split_if; [apply for_streams_flows, emit_data_flows|by apply flows_quiet]. Qed.

Lemma proto_wf_flush p : proto_wf p -> proto_wf (p <| p_out := (p_out p) <| buf_data := [] |> |>).
Proof. intros []. split; cbn; auto. by apply buf_wf_empty. Qed.

Lemma send_spec p p' n bytes :
  proto_wf p -> chttp_h2_proto_send p = (p', n, bytes) ->
  proto_wf p' /\
  (n = -1 /\ bytes = [] /\ quiet p p' \/
   n = zlen bytes /\ buf_data (p_out p') = [] /\
   exists items, Forall item_ok items /\ bytes = buf_data (p_out p) ++ wire items /\
     p_conn_send_window p' + data_bytes items = p_conn_send_window p).
Proof.
  intros Hwf Hs. unfold chttp_h2_proto_send in Hs.
  pose proof (ensure_preface_quiet p) as Hq. destruct (proto_ensure_preface p) as [q rc].
  cbn [fst] in Hq. split_if_in Hs.
  { injection Hs as <- <- <-. split; [apply (Hq Hwf)|]. by left. }
  pose proof (send_prepare_flows q) as Hf.
  set (r := if negb (p_failed q) then _ else _) in *. clearbody r.
  assert (flows 0 p r) as Hpr by (eapply flows_quiet_l; [exact Hq|exact Hf]).
  destruct (Hpr Hwf) as [W _ _ _ _ _ _ (items & Hi & Ho & Hc)].
  cbv zeta in Hs. injection Hs as <- <- <-. split; [by apply proto_wf_flush|]. right.
  split; [done|]. split; [done|]. exists items. split; [done|]. split; [done|].
  rewrite Z.add_0_r in Hc. exact Hc.
Qed.

(** ** The input loop *)

(** A frame and its bytes: the header, then the payload. *)
Definition frame_bytes (f : list Z * chttp_h2_frame_header) (bytes : list Z) : Prop :=
  exists head, bytes = head ++ f.1 /\ zlen head = 9 /\ zlen f.1 = fh_length f.2 /\
    chttp_h2_frame_header_decode head CHTTP_H2_MAX_FRAME_BYTES = Ok (9, f.2).

(** [input] starts with the frames [fs], whole, and goes on with [rest]; a client
    puts its preface before them. *)
Inductive framed : list Z -> list (list Z * chttp_h2_frame_header) -> list Z -> Prop :=
  | framed_nil input : framed input [] input
  | framed_preface input fs rest : framed input fs rest -> framed (CHTTP_H2_PREFACE ++ input) fs rest
  | framed_cons f bytes input fs rest :
      frame_bytes f bytes -> framed input fs rest -> framed (bytes ++ input) (f :: fs) rest.

Lemma framed_app x fs r y : framed x fs r -> framed (x ++ y) fs (r ++ y).
Proof.
  induction 1 as [input|input fs rest _ IH|f bytes input fs rest Hf _ IH]; [constructor| |]; rewrite <- app_assoc; by constructor.
Qed.

Lemma framed_trans x fs y gs z : framed x fs y -> framed y gs z -> framed x (fs ++ gs) z.
Proof.
  induction 1 as [input|input fs rest _ IH|f bytes input fs rest Hf _ IH]; intros Hg; [done|constructor; by apply IH|].
  cbn. constructor; [done|by apply IH].
Qed.

(** The header is read from its nine bytes. *)
Lemma decode_head input max : 9 <= zlen input ->
  chttp_h2_frame_header_decode (ztake 9 input) max = chttp_h2_frame_header_decode input max.
Proof.
  intros H. unfold chttp_h2_frame_header_decode, CHTTP_H2_FRAME_HEADER_SIZE. rewrite (zlen_ztake 9 input) by lia.
  rewrite (proj2 (Z.ltb_ge (zlen input) 9)) by lia. cbn [Z.ltb Z.compare].
  do 9 (destruct input as [|? input]; [unfold zlen in H; cbn in H; lia|]). reflexivity.
Qed.

(** What the frames grant the connection's send window. *)
Fixpoint credits (fs : list (list Z * chttp_h2_frame_header)) : Z :=
  match fs with
  | [] => 0
  | (payload, hdr) :: fs => frame_credit payload hdr + credits fs
  end.

Lemma credits_app fs gs : credits (fs ++ gs) = credits fs + credits gs.
Proof. induction fs as [|[payload hdr] fs IH]; cbn [Datatypes.app credits]; [lia|]. rewrite IH. lia. Qed.

(** The frames that were read, and the credit that was received for them: all of
    it, but for the frame that failed the session, which is the last one; a
    session that has failed reads no frame. *)
Definition granted p p' (fs : list (list Z * chttp_h2_frame_header)) (credit : Z) : Prop :=
  (p_failed p = true -> fs = []) /\
  (credit = credits fs \/
   exists before last, fs = before ++ [last] /\ credit = credits before /\ p_failed p = false /\ p_failed p' = true).

Lemma granted_trans p q r fs gs c d : (p_failed p = true -> p_failed q = true) ->
  (p_failed q = true -> p_failed r = true) -> granted p q fs c -> granted q r gs d -> granted p r (fs ++ gs) (c + d).
Proof.
  intros Hpq Hqr [Hf Hc] [Hg Hd]. split; [intros H; by rewrite Hf, Hg by auto|].
  destruct Hc as [->|(before & last & -> & -> & Hp & Hq)].
  - destruct Hd as [->|(before & last & -> & -> & Hq & Hr)]; [left; by rewrite credits_app|].
    right. exists (fs ++ before), last. rewrite app_assoc, credits_app. split_and!; try done.
    destruct (p_failed p); [|done]. by rewrite Hpq in Hq.
  - rewrite (Hg Hq) in *. rewrite app_nil_r. right. exists before, last. split_and!; try done; [|by auto].
    destruct Hd as [->|(b & l & E & _)]; [cbn; lia|]. by destruct b.
Qed.

Lemma frame_credit_nonneg payload hdr : 0 <= frame_credit payload hdr.
Proof.
  unfold frame_credit. split_if; [|done]. rewrite land_31. apply Z.mod_pos_bound. lia.
Qed.

Lemma credits_nonneg fs : 0 <= credits fs.
Proof.
  induction fs as [|[payload hdr] fs IH]; cbn; [done|].
  pose proof (frame_credit_nonneg payload hdr). lia.
Qed.

Lemma credited_flows c p q : credited c p q -> flows c p q.
Proof.
  intros (Hc & Hmax & Hq) Hwf.
  set (p1 := p <| p_conn_send_window := p_conn_send_window p + c |>) in *.
  assert (proto_wf p1) as Hwf1.
  { pose proof (w_conn_send _ Hwf). destruct Hwf. split; cbn; auto. split; [lia|].
    destruct (Z.eq_dec c 0) as [->|]; [lia|]. apply Hmax. lia. }
  destruct (Hq Hwf1) as [W M C F S I N X P (items & Hi & Ho)].
  split; auto. exists items. split_and!; [|done|].
  - eapply Forall_impl; [exact Hi|]. by intros ? [? _].
  - rewrite data_bytes_control by done. rewrite S. unfold p1. cbn. lia.
Qed.

Lemma decode_frame_wf input max used hdr :
  is_bytes input -> chttp_h2_frame_header_decode input max = Ok (used, hdr) ->
  used = 9 /\ 9 <= zlen input /\ 0 <= fh_length hdr <= CHTTP_H2_MAX_FRAME_BYTES /\
  chttp_h2_frame_header_decode input CHTTP_H2_MAX_FRAME_BYTES = Ok (9, hdr) /\
  (fh_length hdr <= zlen input - 9 -> frame_wf (ztake (fh_length hdr) (zdrop 9 input)) hdr).
Proof.
  intros Hb Hd. pose proof (frame_header_decode_ok _ _ _ _ Hb Hd)
    as (-> & H9 & Hl & Ht & Hfl & Hs). unfold CHTTP_H2_MAX_FRAME_BYTES.
  split_and!; try lia.
  - revert Hd Hl. unfold chttp_h2_frame_header_decode. split_if; [done|]. split_if; [done|].
    intros [= <-]. cbn. intros Hl. by split_if; [lia|].
  - intros Hle. split.
    + bytes_solve.
    + symmetry. apply zlen_ztake. rewrite zlen_zdrop by lia. lia.
    + unfold CHTTP_H2_MAX_FRAME_BYTES. lia.
    + zlia.
Qed.

Lemma quiet_bump_generation p :
  quiet p (if p_in_headers p then p
           else p <| p_input_generation := u64 (p_input_generation p + 1) |>).
Proof. split_if; [reflexivity|]. q_set. Qed.

(** The loop always ends; it reads whole frames and hands each to
    [proto_dispatch]. *)
Lemma recv_loop_ok fuel : forall p pos,
  proto_wf p -> 0 <= pos <= buf_size (p_inbuf p) ->
  (Z.to_nat (buf_size (p_inbuf p) - pos) <= fuel)%nat ->
  exists p' pos' fs credit,
    recv_loop fuel p pos = Some (p', pos') /\ pos <= pos' <= buf_size (p_inbuf p) /\
    framed (zdrop pos (buf_data (p_inbuf p))) fs (zdrop pos' (buf_data (p_inbuf p))) /\
    granted p p' fs credit /\ flowed credit p p'.
Proof.
  induction fuel as [|fuel IH]; intros p pos Hwf Hpos Hfuel; cbn [recv_loop].
  all: assert (u64 (buf_size (p_inbuf p) - pos) = buf_size (p_inbuf p) - pos) as ->
    by (apply Z.mod_small; destruct (w_inbuf _ Hwf) as (_ & ? & ?); zlia).
  all: unfold CHTTP_H2_FRAME_HEADER_SIZE.
  all: assert (forall q, granted p q [] 0) as Hnone by (intros q; split; [done|by left]).
  all: assert (exists p' pos' fs credit, Some (p, pos) = Some (p', pos') /\
    pos <= pos' <= buf_size (p_inbuf p) /\
    framed (zdrop pos (buf_data (p_inbuf p))) fs (zdrop pos' (buf_data (p_inbuf p))) /\
    granted p p' fs credit /\ flowed credit p p') as Hstop
    by (exists p, pos, [], 0; split_and!; [done|lia|lia|constructor|done|
        by apply (flows_quiet p p)]).
  { split_if; [|exact Hstop]. lia. }
  destruct (p_failed p) eqn:Hnf; [exact Hstop|]. cbn [negb andb]. split_if; [|exact Hstop].
  set (input := zdrop pos (buf_data (p_inbuf p))).
  assert (is_bytes input) as Hb by (apply is_bytes_drop, (w_inbuf _ Hwf)).
  assert (zlen input = buf_size (p_inbuf p) - pos) as Hlen by (by apply zlen_zdrop).
  destruct (chttp_h2_frame_header_decode input _) as [[used hdr]|] eqn:Hd; cycle 1.
  { exists (proto_fail p CHTTP_H2_ERR_PROTOCOL_ERROR), pos, [], 0.
    split_and!; [done|lia|lia|constructor|done|]. by apply flows_quiet, Hwf; apply proto_fail_quiet. }
  destruct (decode_frame_wf _ _ _ _ Hb Hd) as (-> & H9 & Hl & Hdec & Hfwf).
  split_if; [exact Hstop|]. specialize (Hfwf ltac:(lia)).
  set (payload := ztake (fh_length hdr) (zdrop 9 input)) in *.
  destruct (dispatch_credited p payload hdr Hfwf Hnf) as (c & Hc & Hcred).
  set (q := proto_dispatch p _ hdr) in *.
  pose proof (flows_quiet_r c p q _ (credited_flows _ _ _ Hcred) (quiet_bump_generation q)) as Hfl.
  assert (p_failed q = p_failed (if p_in_headers q then q else q <| p_input_generation := u64 (p_input_generation q + 1) |>)) as Hqr
    by (by destruct (p_in_headers q)).
  set (r := if p_in_headers q then q else _) in *. clearbody r. rewrite Hqr in Hc.
  destruct (Hfl Hwf) as [W M C F I X P O].
  destruct (IH r (pos + 9 + fh_length hdr)) as (p' & pos' & fs & c' & -> & Hp & Hfr & Hc' & Hf');
    [done|rewrite I; lia|rewrite I; lia|]. rewrite I in *.
  exists p', pos', ((payload, hdr) :: fs), (c + c').
  split_and!; [done|lia|lia| | |].
  - assert (zdrop (pos + 9 + fh_length hdr) (buf_data (p_inbuf p)) = zdrop (fh_length hdr) (zdrop 9 input)) as Erest
      by (unfold input, zdrop; rewrite !drop_drop; f_equal; lia).
    rewrite Erest in Hfr. rewrite <- (ztake_zdrop 9 input), <- (ztake_zdrop (fh_length hdr) (zdrop 9 input)), app_assoc.
    constructor; [|exact Hfr]. exists (ztake 9 input). split_and!; [done|apply zlen_ztake; lia| |by rewrite decode_head].
    symmetry. apply Hfwf.
  - apply (granted_trans p r p' [(payload, hdr)] fs); [by rewrite Hnf|apply (fl_failed _ _ _ Hf')| |done].
    split; [by rewrite Hnf|]. destruct Hc as [->|[-> Hfail]]; [left; cbn; lia|]. right. by exists [], (payload, hdr).
  - exact (flows_trans c c' p r p' Hfl (fun _ => Hf') Hwf).
Qed.

Lemma recv_preface_ok p n :
  quiet p (recv_preface p n).1 /\
  match (recv_preface p n).2 with
  | inl pos => pos = 0 \/ pos = 24 /\ ztake 24 (buf_data (p_inbuf p)) = CHTTP_H2_PREFACE
  | inr code => code = -1 \/ code = n
  end.
Proof.
  unfold recv_preface. cbv zeta. destruct (is_server _ && negb _); [|split; [reflexivity|by left]].
  destruct (bytes_eqb _ _) eqn:He; cbn [negb]; [|split; [apply proto_fail_quiet|by left]].
  apply bool_decide_eq_true in He.
  destruct (Z.ltb_spec (cap_at (buf_size (p_inbuf p)) CHTTP_H2_PREFACE_LEN) CHTTP_H2_PREFACE_LEN)
    as [|Hge]; [split; [reflexivity|by right]|].
  set (q := p <| p_server_preface_seen := true |>).
  assert (quiet p q) as Hq by (unfold q; q_set).
  pose proof (ensure_preface_quiet q) as Hq2. destruct (proto_ensure_preface q) as [r rc].
  cbn [fst] in Hq2. assert (quiet p r) as Hr by (etransitivity; [exact Hq|exact Hq2]).
  split_if.
  - split; [|by left]. etransitivity; [exact Hr|apply proto_fail_quiet].
  - split; [exact Hr|]. right. split; [done|].
    assert (cap_at (buf_size (p_inbuf p)) CHTTP_H2_PREFACE_LEN = 24) as Hcap.
    { unfold cap_at, CHTTP_H2_PREFACE_LEN in *. destruct (24 <? buf_size (p_inbuf p)) eqn:?; lia. }
    rewrite Hcap in He. by rewrite He.
Qed.

Lemma flowed_inbuf c p q b :
  flowed c p q -> buf_wf b -> buf_max_capacity b = buf_max_capacity (p_inbuf q) ->
  flowed c (p <| p_inbuf := b |>) (q <| p_inbuf := b |>).
Proof.
  intros [W M C F I X P O] Hb Hm. split; cbn; auto.
  destruct W. split; cbn; auto. congruence.
Qed.

(** The bytes of an input that the engine takes: all of them, unless the input
    buffer has no room. *)
Definition taken p (input : list Z) : list Z :=
  if (chttp_h2_hpack_buffer_reserve (p_inbuf p) (zlen input)).2 =? 0 then input else [].

(** [chttp_h2_proto_recv] always returns: it takes whole frames off the input
    and, apart from the input buffer, is a flow step whose credit the frames
    carry. *)
Definition recv_result p (input : list Z) (r : option (chttp_h2_proto U * Z)) : Prop :=
  exists p' rc fs credit,
    r = Some (p', rc) /\ flowed credit (p <| p_inbuf := p_inbuf p' |>) p' /\
    granted p p' fs credit /\ (rc = -1 \/ rc = zlen input) /\
    framed (buf_data (p_inbuf p) ++ taken p input) fs (buf_data (p_inbuf p')).

Lemma recv_ok p input :
  proto_wf p -> is_bytes input -> recv_result p input (chttp_h2_proto_recv p input).
Proof.
  intros Hwf Hb. unfold chttp_h2_proto_recv, recv_result. cbv zeta.
  assert (exists b rc, (if negb (zlen input =? 0) then
      let '(inbuf, rc) := chttp_h2_hpack_buffer_reserve (p_inbuf p) (zlen input) in
      (p <| p_inbuf := inbuf |>, rc) else (p, 0)) = (p <| p_inbuf := b |>, rc) /\
    buf_wf b /\ buf_max_capacity b = buf_max_capacity (p_inbuf p) /\ buf_data b = buf_data (p_inbuf p) /\
    taken p input = (if rc =? 0 then input else []) /\
    (rc = 0 -> buf_wf (buf_append b input)))
    as (b & rc & -> & Hw & Hm & Hda & Htk & Happ).
  { pose proof (w_inbuf _ Hwf) as Hwi. unfold taken. destruct (Z.eqb_spec (zlen input) 0) as [E|E]; cbn [negb].
    - exists (p_inbuf p), 0. split; [by destruct p|]. apply zlen_0_inv in E as ->. split_and!; auto; [by destruct (_ =? 0)|].
      intros _. apply buf_wf_append; [done|done|]. destruct Hwi as (_ & ? & _). change (zlen (@nil Z)) with 0. lia.
    - pose proof (buffer_reserve_cases (p_inbuf p) (zlen input) Hwi (zlen_nonneg _)) as Hc.
      destruct (chttp_h2_hpack_buffer_reserve _ _) as [b rc]. exists b, rc.
      destruct Hc as (Hd & Hm & Hw & Hcase). split_and!; auto. intros ->.
      destruct Hcase as [[_ Hcap]|[? _]]; [|done]. apply buf_wf_append; [done|done|].
      unfold buf_size in *. rewrite Hd. lia. }
  assert (forall b', buf_wf b' -> buf_max_capacity b' = buf_max_capacity (p_inbuf p) ->
    proto_wf (p <| p_inbuf := b' |>)) as Hset.
  { intros b' H1 H2. destruct Hwf. split; cbn; auto. congruence. }
  assert (forall q, granted p q [] 0) as Hnone by (intros q; split; [done|by left]). rewrite Htk. clear Htk.
  destruct (Z.eqb_spec rc 0) as [->|Hrc]; cbn [negb]; cycle 1.
  { exists (p <| p_inbuf := b |>), (-1), [], 0. split_and!; auto; [|cbn; rewrite Hda, app_nil_r; constructor].
    apply flows_quiet; [reflexivity|by apply Hset]. }
  specialize (Happ eq_refl). rename Happ into Hwa.
  change (p_inbuf (p <| p_inbuf := b |>)) with b.
  change (p <| p_inbuf := b |> <| p_inbuf := buf_append b input |>)
    with (p <| p_inbuf := buf_append b input |>).
  assert (buf_data (p_inbuf p) ++ input = buf_data (buf_append b input)) as Hdata by (cbn; by rewrite Hda). rewrite Hdata. clear Hdata.
  set (b1 := buf_append b input) in *. set (p1 := p <| p_inbuf := b1 |>).
  assert (proto_wf p1) as Hwf1 by (by apply Hset).
  destruct (p_input_paused p1).
  { exists p1, (zlen input), [], 0. split_and!; auto; [|constructor]. apply flows_quiet; [reflexivity|done]. }
  pose proof (recv_preface_ok p1 (zlen input)) as [Hq Hpos].
  destruct (recv_preface p1 (zlen input)) as [p2 start]. cbn [fst snd] in Hq, Hpos.
  pose proof (Hq Hwf1) as Hk. pose proof (k_wf _ _ Hk) as Hwf2. pose proof (k_inbuf _ _ Hk) as Hi2.
  change (p_inbuf p1) with b1 in Hi2, Hpos.
  destruct start as [pos|code]; cycle 1.
  { exists p2, code, [], 0. rewrite Hi2. split_and!; auto; [|constructor]. by apply (flows_quiet p1 p2 Hq). }
  assert (0 <= pos <= buf_size (p_inbuf p2)) as Hposb.
  { destruct Hpos as [->|[-> Ht]]; [split; [done|apply zlen_nonneg]|]. split; [done|]. rewrite Hi2.
    apply (f_equal zlen) in Ht. change (zlen CHTTP_H2_PREFACE) with 24 in Ht.
    unfold ztake, zlen in Ht. rewrite length_take in Ht. unfold buf_size, zlen. lia. }
  destruct (recv_loop_ok (length (buf_data (p_inbuf p2))) p2 pos Hwf2 Hposb) as
    (p3 & pos' & fs & c & -> & Hp3 & Hfr & Hc & Hf3); [unfold buf_size, zlen; lia|].
  pose proof (fl_inbuf _ _ _ Hf3) as Hi3. rewrite Hi2 in Hi3, Hp3, Hfr.
  set (p4 := if (0 <? pos') && _ then _ else p3).
  assert (p4 = p3 <| p_inbuf := b1 <| buf_data := zdrop pos' (buf_data b1) |> |>) as Hp4.
  { unfold p4. rewrite Hi3. destruct (Z.ltb_spec 0 pos'); cbn [andb].
    - split_if; [done|lia].
    - replace pos' with 0 by lia.
      assert (forall b0, b0 <| buf_data := zdrop 0 (buf_data b0) |> = b0) as Hz by (by intros []).
      rewrite Hz, <- Hi3. by destruct p3. }
  clearbody p4. subst p4.
  assert (buf_wf (b1 <| buf_data := zdrop pos' (buf_data b1) |>)) as Hwb.
  { assert (0 <= pos' <= zlen (buf_data b1)) as Hz by (unfold buf_size in *; lia).
    clearbody b1. destruct Hwa as (H1 & H2 & H3). unfold buf_wf, buf_size in *. cbn.
    rewrite zlen_zdrop by lia. split_and!; auto; try lia. by apply is_bytes_drop. }
  eexists _, _, fs, c. split; [reflexivity|]. split; [|split; [|split]].
  - apply (flowed_inbuf c p1 p3); [|done|by rewrite Hi3].
    exact (flows_quiet_l c p1 p2 p3 Hq (fun _ => Hf3) Hwf1).
  - rewrite <- (app_nil_l fs), <- (Z.add_0_l c). apply (granted_trans p p2); [apply (k_failed _ _ Hk)|apply (fl_failed _ _ _ Hf3)|done|exact Hc].
  - split_if; auto.
  - change (framed (buf_data b1) fs (zdrop pos' (buf_data b1))). destruct Hpos as [->|[-> Ht]]; [exact Hfr|]. rewrite <- (ztake_zdrop 24 (buf_data b1)) at 1. rewrite Ht. by constructor.
Qed.

End Flow.

End H2ProtoFlow.
