(* ===== verification/H2ProtoExample.v ===== *)
(** * HTTP/2 engine: concrete applications and sessions

    Two applications that the engine's theorems apply to, and engines in
    states a client and a server reach.  [log_app] records what the engine
    reports and calls nothing; [hello_app] is a server that answers every
    finished request from within [on_end_headers]. *)

From S2P Require Import Prelude H2Frame HpackBuffer HpackTables HpackHuffman HpackTable Hpack.
From S2P Require Import HpackSync HpackBound H2Proto H2ProtoSend H2ProtoSubmit H2ProtoRecv.
From S2P Require Import H2ProtoInv H2ProtoOut H2ProtoQuiet.

Module H2ProtoExample.
Import H2Frame HpackBuffer HpackTables HpackHuffman HpackTable Hpack HpackSync HpackBound.
Import H2Proto H2ProtoSend H2ProtoSubmit H2ProtoRecv H2ProtoInv H2ProtoOut H2ProtoQuiet.

#[export] Existing Instance unlimited_allocator.

(** ** Applications *)

(** What an application was told. *)
Inductive event :=
  | EHeader (sid : Z) (name value : list Z)
  | EData (sid : Z) (data : list Z)
  | EClose (sid error : Z).

Definition journal := list event.

Definition log (p : chttp_h2_proto journal) (e : event) : chttp_h2_proto journal :=
  p <| p_user := p_user p ++ [e] |>.

Definition log_callbacks : chttp_h2_proto_callbacks journal :=
  {| on_begin_headers := None;
     on_header := Some (fun u sid name value => (u ++ [EHeader sid name value], 0));
     on_end_headers := None;
     on_data := Some (fun p sid data => (log p (EData sid data), CHTTP_H2_PROTO_DATA_OK));
     on_stream_close := Some (fun p sid error => log p (EClose sid error));
     on_settings := None; on_settings_ack := None; on_ping_ack := None;
     on_window_update := None; on_goaway := None; on_rst_received := None;
     on_wake_write := None |}.

(** A source that always fills half of the buffer, at least a byte. *)
Definition half_source (u : journal) (source len : Z) :
    journal * chttp_h2_proto_source_result :=
  (u, {| sr_status := CHTTP_H2_PROTO_SOURCE_DATA; sr_size := (len + 1) / 2;
         sr_bytes := replicate (Z.to_nat len) 120 |}).

Definition log_app : Application journal :=
  {| cbs := log_callbacks; source_pull := half_source |}.

Definition field (name value : String.string) : chttp_h2_hpack_header :=
  {| hd_name := bytes_of name; hd_value := bytes_of value |}.
#[global] Arguments field name%_string_scope value%_string_scope.

Definition ok_response : list chttp_h2_hpack_header := [field ":status" "200"].

(** The answer of [hello_app].  [on_stream_close] is the only callback the
    call can reach, and both applications have the same. *)
Definition hello_end_headers (p : chttp_h2_proto journal) (sid : Z) (end_stream : bool) :
    chttp_h2_proto journal * Z :=
  if end_stream
  then chttp_h2_proto_submit_response (app := log_app) p sid ok_response (Some (bytes_of "hello"))
  else (p, 0).

Definition hello_app : Application journal :=
  {| cbs :=
       {| on_begin_headers := None;
          on_header := on_header journal log_callbacks;
          on_end_headers := Some hello_end_headers;
          on_data := on_data journal log_callbacks;
          on_stream_close := on_stream_close journal log_callbacks;
          on_settings := None; on_settings_ack := None; on_ping_ack := None;
          on_window_update := None; on_goaway := None; on_rst_received := None;
          on_wake_write := None |};
     source_pull := half_source |}.

Lemma log_quiet p e : quiet p (log p e).
Proof. apply quiet_set_user. Qed.

Lemma half_source_ok u source len :
  0 < len ->
  let r := (half_source u source len).2 in
  is_bytes (sr_bytes r) /\ zlen (sr_bytes r) = len /\ 0 <= sr_size r.
Proof.
  intros Hl. cbn. split_and!.
  - apply Forall_forall. intros x Hx. apply elem_of_replicate in Hx as [-> _]. done.
  - unfold zlen. rewrite length_replicate. lia.
  - apply Z.div_pos; lia.
Qed.

#[export] Instance log_lawful : LawfulApplication journal log_app.
Proof.
  split; cbn; try (intros; discriminate).
  - intros p id d f [= <-] _. apply log_quiet.
  - intros p id e f [= <-]. apply log_quiet.
  - apply half_source_ok.
Qed.

Lemma ok_response_ok : Forall header_ok ok_response.
Proof. vm_compute. repeat constructor; done. Qed.

#[export] Instance hello_lawful : LawfulApplication journal hello_app.
Proof.
  split; cbn; try (intros; discriminate).
  - intros p id e f [= <-]. unfold hello_end_headers. destruct e; [|reflexivity].
    apply submit_response_quiet; [apply ok_response_ok|]. vm_compute. repeat constructor; done.
  - intros p id d f [= <-] _. apply log_quiet.
  - intros p id e f [= <-]. apply log_quiet.
  - apply half_source_ok.
Qed.

(** ** Engines *)

(** The value of a computation that is known to give one. *)
Definition the {A} (default : A) (o : option A) : A :=
  match o with Some a => a | None => default end.

Definition client_engine : option (chttp_h2_proto journal) :=
  chttp_h2_proto_create CHTTP_H2_PROTO_CLIENT None [].

Definition server_engine : option (chttp_h2_proto journal) :=
  chttp_h2_proto_create CHTTP_H2_PROTO_SERVER None [].

Definition get_request : list chttp_h2_hpack_header :=
  [field ":method" "GET"; field ":path" "/x"; field "user-agent" "chttp"].

(** One engine sends and the other reads all of it. *)
Definition deliver (from_app to_app : Application journal) (from to : chttp_h2_proto journal) :
    option (chttp_h2_proto journal * chttp_h2_proto journal * list Z) :=
  match chttp_h2_proto_send (app := from_app) from with
  | (from, _, bytes) =>
    match chttp_h2_proto_recv (app := to_app) to bytes with
    | Some (to, _) => Some (from, to, bytes)
    | None => None
    end
  end.

(** The client asks, the server (running [app]) reads the request and answers,
    the client reads the answer. *)
Definition exchange (app : Application journal) (client server : chttp_h2_proto journal)
    (body : option (list Z)) :
    option (chttp_h2_proto journal * chttp_h2_proto journal * list Z * list Z) :=
  let client := (chttp_h2_proto_submit_request client get_request body).1.1 in
  match deliver log_app app client server with
  | Some (client, server, request) =>
    match deliver app log_app server client with
    | Some (server, client, response) => Some (client, server, request, response)
    | None => None
    end
  | None => None
  end.

End H2ProtoExample.
