(* ===== verification/H2ProtoTheorems.v ===== *)
(** * HTTP/2 engine: theorems

    The properties of the protocol engine: sessions of arbitrary calls,
    flow control, header blocks on the wire, connection errors, and the
    behaviours of the engine that differ from what its comments promise. *)

From S2P Require Import Prelude H2Frame HpackBuffer HpackTables HpackHuffman HpackTable Hpack.
From S2P Require Import HpackSync HpackBound H2Proto H2ProtoSend H2ProtoSubmit H2ProtoRecv.
From S2P Require Import H2ProtoInv H2ProtoOut H2ProtoQuiet H2ProtoFlow.

Module H2ProtoTheorems.
Import H2Frame HpackBuffer HpackTables HpackHuffman HpackTable Hpack HpackSync HpackBound.
Import H2Proto H2ProtoSend H2ProtoSubmit H2ProtoRecv H2ProtoInv H2ProtoOut H2ProtoQuiet H2ProtoFlow.

(** ** Sessions *)

(** A call of the engine's interface. *)
Inductive call :=
  | CRequest (hdrs : list chttp_h2_hpack_header) (body : option (list Z)) (source : option Z)
      (weight dep : Z) (exclusive : bool)
  | CRequestHeaders (hdrs : list chttp_h2_hpack_header) (end_stream : Z)
  | CHeaders (sid : Z) (hdrs : list chttp_h2_hpack_header) (end_stream : Z)
  | CResponse (sid : Z) (hdrs : list chttp_h2_hpack_header) (body : option (list Z))
      (source : option Z)
  | CData (sid : Z) (data : option (list Z)) (end_stream : Z)
  | CTrailers (sid : Z) (hdrs : list chttp_h2_hpack_header)
  | CSettings
  | CPing (opaque : list Z)
  | CWindowUpdate (sid increment : Z)
  | CRstStream (sid error : Z)
  | CGoaway (last error : Z)
  | CConsumeConnection (bytes : Z)
  | CConsumeStream (sid bytes : Z)
  | CResumeSource (sid : Z)
  | CTerminate (error : Z)
  | CSetUserData (sid ud : Z)
  | CSetSendChunk (chunk : Z)
  | CSend
  | CRecv (input : list Z)
  | CResumeInput (sid : Z).

(** The arguments are bytes and unsigned sizes. *)
Definition call_ok (c : call) : Prop :=
  match c with
  | CRequest hdrs body _ _ _ _ | CResponse _ hdrs body _ => Forall header_ok hdrs /\ body_ok body
  | CRequestHeaders hdrs _ | CHeaders _ hdrs _ | CTrailers _ hdrs => Forall header_ok hdrs
  | CData _ data _ => body_ok data
  | CPing opaque => is_bytes opaque
  | CWindowUpdate _ n | CConsumeConnection n | CSetSendChunk n => 0 <= n
  | CRecv input => is_bytes input
  | _ => True
  end.

(** The calls that read input. *)
Definition reads_input (c : call) : bool :=
  match c with CRecv _ | CResumeInput _ => true | _ => false end.

Section Session.
Context {alloc : Allocator} {U : Type} {app : Application U}.
Implicit Types p q : chttp_h2_proto U.

(** The engine after a call and the bytes it handed to the transport. *)
Definition run_call p (c : call) : option (chttp_h2_proto U * list Z) :=
  match c with
  | CRequest hdrs body source weight dep exclusive =>
    Some ((chttp_h2_proto_submit_request_ex p hdrs body source weight dep exclusive).1.1, [])
  | CRequestHeaders hdrs es => Some ((chttp_h2_proto_submit_request_headers p hdrs es).1.1, [])
  | CHeaders sid hdrs es => Some ((chttp_h2_proto_submit_headers p sid hdrs es).1, [])
  | CResponse sid hdrs body source =>
    Some ((chttp_h2_proto_submit_response_ex p sid hdrs body source).1, [])
  | CData sid data es => Some ((chttp_h2_proto_submit_data p sid data es).1, [])
  | CTrailers sid hdrs => Some ((chttp_h2_proto_submit_trailers p sid hdrs).1, [])
  | CSettings => Some ((chttp_h2_proto_submit_settings p).1, [])
  | CPing opaque => Some ((chttp_h2_proto_submit_ping p opaque).1, [])
  | CWindowUpdate sid inc => Some ((chttp_h2_proto_submit_window_update p sid inc).1, [])
  | CRstStream sid error => Some ((chttp_h2_proto_submit_rst_stream p sid error).1, [])
  | CGoaway last error => Some ((chttp_h2_proto_submit_goaway p last error).1, [])
  | CConsumeConnection n => Some ((chttp_h2_proto_consume_connection p n).1, [])
  | CConsumeStream sid n => Some ((chttp_h2_proto_consume_stream p sid n).1, [])
  | CResumeSource sid => Some ((chttp_h2_proto_resume_source p sid).1, [])
  | CTerminate error => Some ((chttp_h2_proto_terminate p error).1, [])
  | CSetUserData sid ud => Some ((chttp_h2_proto_set_stream_user_data p sid ud).1, [])
  | CSetSendChunk n => Some (chttp_h2_proto_set_send_chunk p n, [])
  | CSend => let '(p, _, bytes) := chttp_h2_proto_send p in Some (p, bytes)
  | CRecv input => (fun r => (r.1, [])) <$> chttp_h2_proto_recv p input
  | CResumeInput sid => (fun r => (r.1, [])) <$> chttp_h2_proto_resume_input p sid
  end.

Fixpoint run_calls p (calls : list call) : option (chttp_h2_proto U * list Z) :=
  match calls with
  | [] => Some (p, [])
  | c :: calls =>
    match run_call p c with
    | None => None
    | Some (p, sent) =>
      match run_calls p calls with
      | None => None
      | Some (p, sent') => Some (p, sent ++ sent')
      end
    end
  end.

(** What a stretch of a session does: whole frames, in order, through the
    output buffer to the transport, and DATA paid for. *)
Record ran (credit : Z) p p' (sent : list Z) : Prop := {
  r_wf : proto_wf p';
  r_failed : p_failed p = true -> p_failed p' = true /\ p_last_error p' = p_last_error p;
  r_next : p_next_stream_id p <= p_next_stream_id p';
  r_max_peer : p_max_peer_stream_id p <= p_max_peer_stream_id p';
  r_out : exists items, Forall item_ok items /\
            sent ++ buf_data (p_out p') = buf_data (p_out p) ++ wire items /\
            p_conn_send_window p' + data_bytes items = p_conn_send_window p + credit;
}.

Lemma ran_trans c1 c2 p q r s1 s2 : ran c1 p q s1 -> ran c2 q r s2 -> ran (c1 + c2) p r (s1 ++ s2).
Proof.
  intros [W F X P (i1 & O1 & O2 & O3)] [W' F' X' P' (i2 & O1' & O2' & O3')].
  split; auto; try lia.
  - intros Hf. destruct (F Hf) as [Hf1 E1]. destruct (F' Hf1) as [Hf2 E2]. split; congruence.
  - exists (i1 ++ i2). split_and!; [by apply Forall_app| |rewrite data_bytes_app; lia].
    by rewrite <- app_assoc, O2', app_assoc, O2, wire_app, <- app_assoc.
Qed.

Lemma ran_flowed c p q : flowed c p q -> ran c p q [].
Proof. intros [W M C F I X P O]. by split. Qed.

Lemma ran_quiet p q : quiet p q -> proto_wf p -> ran 0 p q [].
Proof. intros Hq Hwf. by apply ran_flowed, flows_quiet. Qed.

Context {law : LawfulApplication U app}.

(** The bytes that a call takes from the transport. *)
Definition taken_by p (c : call) : list Z := match c with CRecv input => taken p input | _ => [] end.

Fixpoint accepted p (calls : list call) : list Z :=
  match calls with
  | [] => []
  | c :: calls => taken_by p c ++ match run_call p c with Some (q, _) => accepted q calls | None => [] end
  end.

(** What a stretch of a session reads: the bytes that were left from before and
    those that were taken are the frames [read], then what is left; the credit is
    what these frames grant. *)
Record heard p p' (input : list Z) (read : list (list Z * chttp_h2_frame_header)) (credit : Z) : Prop := {
  h_frames : framed (buf_data (p_inbuf p) ++ input) read (buf_data (p_inbuf p'));
  h_credit : granted p p' read credit;
}.

Lemma heard_nothing p q : p_inbuf q = p_inbuf p -> heard p q [] [] 0.
Proof. intros E. split; [rewrite E, app_nil_r; constructor|split; [done|by left]]. Qed.

Lemma heard_trans p q r x y fs gs c d sent sent' : ran c p q sent -> ran d q r sent' ->
  heard p q x fs c -> heard q r y gs d -> heard p r (x ++ y) (fs ++ gs) (c + d).
Proof.
  intros R1 R2 [F1 G1] [F2 G2]. split.
  - rewrite app_assoc. eapply framed_trans; [by apply framed_app|exact F2].
  - apply (granted_trans p q r); [apply (r_failed _ _ _ _ R1)|apply (r_failed _ _ _ _ R2)|done|done].
Qed.

Lemma ran_recv p input :
  proto_wf p -> is_bytes input ->
  exists p' rc read credit, chttp_h2_proto_recv p input = Some (p', rc) /\
    ran credit p p' [] /\ heard p p' (taken p input) read credit /\ (rc = -1 \/ rc = zlen input).
Proof.
  intros Hwf Hb. destruct (recv_ok p input Hwf Hb) as (p' & rc & fs & c & -> & Hf & Hc & Hrc & Hfr).
  exists p', rc, fs, c. split_and!; [done| |by split|done]. destruct Hf as [W M C F I X P O]. by split.
Qed.

Lemma ran_resume_input p sid :
  proto_wf p ->
  exists p' rc read credit, chttp_h2_proto_resume_input p sid = Some (p', rc) /\
    ran credit p p' [] /\ heard p p' [] read credit.
Proof.
  intros Hwf. unfold chttp_h2_proto_resume_input.
  split_if. { exists p, (-1), [], 0. split_and!; [done|by apply ran_quiet|by apply heard_nothing]. }
  cbv zeta. set (q := p <| p_input_paused := false |> <| p_input_paused_stream := 0 |>
                         <| p_input_paused_end_stream := false |>).
  assert (quiet p q) as Hq by (unfold q; q_set).
  set (r := match proto_find p sid with Some i => _ | None => _ end).
  assert (quiet q r) as Hr.
  { unfold r. destruct (proto_find p sid) as [i|]; [|reflexivity].
    split_if; [apply maybe_close_quiet|reflexivity]. }
  clearbody r. assert (quiet p r) as Hpr by (etransitivity; [exact Hq|exact Hr]).
  pose proof (ran_quiet p r Hpr Hwf) as R1. pose proof (heard_nothing p r (k_inbuf _ _ (Hpr Hwf))) as L1.
  destruct (p_failed r). { exists r, (-1), [], 0. by split_and!. }
  destruct (ran_recv r [] (r_wf _ _ _ _ R1) ltac:(constructor)) as (p' & rc & fs & c & -> & R2 & L2 & _).
  assert (taken r [] = []) as E by (unfold taken; by destruct (_ =? 0)). rewrite E in L2.
  eexists p', _, fs, c. split_and!; [done|exact (ran_trans 0 c p r p' [] [] R1 R2)|].
  exact (heard_trans p r p' [] [] [] fs 0 c [] [] R1 R2 L1 L2).
Qed.

Lemma ran_send p :
  proto_wf p -> let '(p', _, bytes) := chttp_h2_proto_send p in ran 0 p p' bytes /\ p_inbuf p' = p_inbuf p.
Proof.
  intros Hwf. unfold chttp_h2_proto_send.
  pose proof (ensure_preface_quiet p) as Hq. destruct (proto_ensure_preface p) as [q rc].
  cbn [fst] in Hq. split_if; [split; [by apply ran_quiet|apply (Hq Hwf)]|].
  pose proof (send_prepare_flows q) as Hf.
  set (r := if negb (p_failed q) then _ else _) in *. clearbody r.
  assert (flows 0 p r) as Hpr by (eapply flows_quiet_l; [exact Hq|exact Hf]).
  destruct (Hpr Hwf) as [W M C F I X P (items & Hi & Ho & Hc)]. cbv zeta.
  split; [|exact I]. split; [by apply proto_wf_flush|done|done|done|]. exists items. split; [done|].
  split; [|done]. rewrite <- Ho. cbn. by rewrite app_nil_r.
Qed.

Lemma run_call_ok p c :
  proto_wf p -> call_ok c ->
  exists p' sent read credit, run_call p c = Some (p', sent) /\ ran credit p p' sent /\
    heard p p' (taken_by p c) read credit /\ (reads_input c = false -> read = []).
Proof.
  intros Hwf Hc.
  assert (forall q, quiet p q -> taken_by p c = [] -> exists p' sent read credit, Some (q, []) = Some (p', sent) /\ ran credit p p' sent /\
    heard p p' (taken_by p c) read credit /\ (reads_input c = false -> read = [])) as Hz.
  { intros q Hq ->. exists q, [], [], 0. split_and!; try done; [by apply ran_quiet|apply heard_nothing, (Hq Hwf)]. }
  destruct c; cbn [run_call]; cbn in Hc.
  - apply Hz; [|done]. apply submit_request_ex_quiet; apply Hc.
  - apply Hz; [|done]. by apply submit_request_headers_quiet.
  - apply Hz; [|done]. by apply submit_headers_quiet.
  - apply Hz; [|done]. apply submit_response_ex_quiet; apply Hc.
  - apply Hz; [|done]. by apply submit_data_quiet.
  - apply Hz; [|done]. by apply submit_trailers_quiet.
  - apply Hz; [|done]. apply submit_settings_quiet.
  - apply Hz; [|done]. by apply submit_ping_quiet.
  - apply Hz; [|done]. by apply submit_window_update_quiet.
  - apply Hz; [|done]. apply submit_rst_stream_quiet.
  - apply Hz; [|done]. apply submit_goaway_quiet.
  - apply Hz; [|done]. by apply consume_connection_quiet.
  - apply Hz; [|done]. apply consume_stream_quiet.
  - apply Hz; [|done]. apply resume_source_quiet.
  - apply Hz; [|done]. apply terminate_quiet.
  - apply Hz; [|done]. apply set_stream_user_data_quiet.
  - apply Hz; [|done]. by apply set_send_chunk_quiet.
  - pose proof (ran_send p Hwf) as Hs. destruct (chttp_h2_proto_send p) as [[q n] bytes]. destruct Hs as [Hs Hi].
    exists q, bytes, [], 0. split_and!; try done. by apply heard_nothing.
  - destruct (ran_recv p input Hwf Hc) as (q & rc & fs & credit & -> & Hr & Hh & _).
    exists q, [], fs, credit. by split_and!.
  - destruct (ran_resume_input p sid Hwf) as (q & rc & fs & credit & -> & Hr & Hh).
    exists q, [], fs, credit. by split_and!.
Qed.

Lemma run_calls_ok calls : forall p,
  proto_wf p -> Forall call_ok calls ->
  exists p' sent read credit, run_calls p calls = Some (p', sent) /\ ran credit p p' sent /\
    heard p p' (accepted p calls) read credit /\ (existsb reads_input calls = false -> read = []).
Proof.
  induction calls as [|c calls IH]; intros p Hwf Hc.
  { exists p, [], [], 0. split_and!; try done; [by apply ran_quiet|by apply heard_nothing]. }
  inversion Hc as [|? ? H1 H2]; subst. cbn [run_calls existsb accepted].
  destruct (run_call_ok p c Hwf H1) as (q & s1 & f1 & c1 & -> & R1 & L1 & Hz1).
  destruct (IH q (r_wf _ _ _ _ R1) H2) as (r & s2 & f2 & c2 & -> & R2 & L2 & Hz2).
  exists r, (s1 ++ s2), (f1 ++ f2), (c1 + c2). split_and!; [done|by eapply ran_trans|by eapply heard_trans|].
  intros He. bool_prop. rewrite Hz1, Hz2 by done. done.
Qed.

(** C1: Any sequence of calls on a well-formed engine (submissions, sends,
    receives, flow-control returns), with any lawful application behind the
    callbacks, terminates and leaves a well-formed engine: a failed session stays
    failed with its first error, stream ids never go back, everything handed to
    the transport together with what is still queued is a sequence of whole well-
    formed frames in order, and the connection send window plus the DATA payload
    sent equals the old window plus the credit. The credit is the sum of the
    increments of the WINDOW_UPDATE frames of stream 0 among the frames that were
    read, each counted once and the frame that failed the session not at all; the
    frames read are exactly the whole frames, in order, in the bytes that the
    calls took from the transport after the bytes left from before and the preface
    of a client; a failed session reads none, and neither do calls that are not
    receives. *)
Theorem session_safe calls : forall p,
  proto_wf p -> Forall call_ok calls ->
  exists p' sent read credit, run_calls p calls = Some (p', sent) /\ ran credit p p' sent /\
    heard p p' (accepted p calls) read credit /\ (existsb reads_input calls = false -> read = []).
Proof. apply run_calls_ok. Qed.

(** The loop that emits the DATA frames of a stream ends: more rounds than the
    connection send window plus two change nothing. *)
Theorem emit_data_terminates p i m :
  proto_wf p -> (Z.to_nat (p_conn_send_window p + 2) <= m)%nat ->
  emit_loop m p i = proto_emit_data p i.
Proof.
  intros Hwf Hm. unfold proto_emit_data. symmetry. apply emit_loop_enough; [done| |done].
  lia.
Qed.

End Session.

(** ** Creation *)

(** The configuration a caller may pass: its fields are unsigned. *)
Record config_unsigned (c : chttp_h2_proto_config) : Prop := {
  cu_capacity : 0 <= c_stream_capacity c;
  cu_block : 0 <= c_header_block_bytes c;
  cu_list : 0 <= c_max_header_list_bytes c;
  cu_table : 0 <= c_hpack_dynamic_table_bytes c;
  cu_string : 0 <= c_max_hpack_string_bytes c;
  cu_settings : 0 <= c_max_settings_count c;
  cu_window : 0 <= c_local_initial_window_size c;
  cu_conn_window : 0 <= c_connection_receive_window_size c;
}.

Section Create.
Context {alloc : Allocator} {U : Type}.

Lemma encoder_off_ok h :
  hpack_wf h ->
  let h' := (chttp_h2_hpack_encoder_set_max_size h 0).1 in
  hpack_wf h' /\ dt_max_size (h_encoder h') = 0 /\
  h_max_header_block_bytes h' = h_max_header_block_bytes h /\
  h_max_string_bytes h' = h_max_string_bytes h.
Proof.
  intros Hwf. cbv zeta. split; [by apply encoder_set_max_size_wf|].
  destruct (dt_wf_resize (h_encoder h) 0 (wf_encoder _ Hwf) ltac:(zlia)) as (_ & _ & Hm & _).
  unfold chttp_h2_hpack_encoder_set_max_size.
  destruct (Z.ltb_spec (h_max_dynamic_table_bytes h) 0); [pose proof (wf_dynamic _ Hwf); lia|].
  destruct (negb (0 =? _)); [destruct (negb _ || _)|]; cbn; auto.
Qed.

Lemma create_ok mode config (user : U) p :
  match config with Some c => config_unsigned c | None => True end ->
  chttp_h2_proto_create mode config user = Some p -> proto_wf p.
Proof.
  intros Hu. unfold chttp_h2_proto_create.
  set (c := match config with Some c => c | None => _ end).
  assert (config_unsigned c) as [U1 U2 U3 U4 U5 U6 U7 U8] by (destruct config; [exact Hu|by split]).
  clearbody c. clear Hu. destruct (chttp_h2_proto_config_valid c) eqn:Hv; cbn [negb]; [|done].
  cbv zeta. intros H. split_if_in H; [done|]. split_if_in H; [done|].
  destruct (chttp_h2_hpack_create _) as [h|] eqn:Hh; [|done].
  assert (h_max_header_block_bytes h = c_header_block_bytes c /\
          h_max_string_bytes h = c_max_hpack_string_bytes c) as [Hhb Hhs].
  { unfold chttp_h2_hpack_create in Hh. split_if_in Hh; [done|].
    destruct huff_tree_build; [|done]. by injection Hh as <-. }
  apply hpack_create_wf in Hh as [Hwf _]; [|done|done].
  destruct (encoder_off_ok h Hwf) as (E1 & E2 & E3 & E4).
  destruct (chttp_h2_hpack_encoder_set_max_size h 0) as [h' rc]. cbn [fst] in *.
  split_if_in H; [done|].
  pose proof Hv as Hv'. unfold chttp_h2_proto_config_valid in Hv'. bool_prop.
  assert (forall max pref b, 0 <= pref -> 0 <= max <= PTRDIFF_MAX ->
    chttp_h2_hpack_buffer_init (proto_initial_capacity max pref) max = Some b ->
    buf_wf b /\ buf_max_capacity b = max) as Hinit.
  { intros max pref b Hp Hm Hb. apply hpack_buffer_init_ok in Hb as (? & _ & ?); [done|..|zlia|lia].
    unfold proto_initial_capacity. split_if; lia. }
  destruct (chttp_h2_hpack_buffer_init (proto_initial_capacity (c_output_buffer_bytes c) _) _)
    as [out|] eqn:B1; [|done].
  destruct (chttp_h2_hpack_buffer_init (proto_initial_capacity (c_input_buffer_bytes c) _) _)
    as [inb|] eqn:B2; [|done].
  destruct (chttp_h2_hpack_buffer_init (proto_initial_capacity (c_header_block_bytes c) _) _)
    as [blk|] eqn:B3; [|done].
  unfold CHTTP_H2_FRAME_HEADER_SIZE, CHTTP_H2_PREFACE_LEN, CHTTP_H2_DEFAULT_FRAME_BYTES in *.
  apply Hinit in B1 as [B1 B1m]; [|lia|lia]. apply Hinit in B2 as [B2 B2m]; [|lia|lia].
  apply Hinit in B3 as [B3 B3m]; [|lia|lia].
  set (w1 := if negb (c_local_initial_window_size c =? 0) then _ else _) in H.
  set (w2 := if negb (c_connection_receive_window_size c =? 0) then _ else _) in H.
  assert (0 <= w1 <= CHTTP_H2_MAX_WINDOW) as Hw1.
  { subst w1. unfold CHTTP_H2_MAX_WINDOW, CHTTP_H2_DEFAULT_WINDOW in *.
    destruct (Z.eqb_spec (c_local_initial_window_size c) 0); cbn [negb]; lia. }
  assert (CHTTP_H2_DEFAULT_WINDOW <= w2 <= CHTTP_H2_MAX_WINDOW) as Hw2.
  { subst w2. unfold CHTTP_H2_MAX_WINDOW, CHTTP_H2_DEFAULT_WINDOW in *.
    destruct (Z.eqb_spec (c_connection_receive_window_size c) 0); cbn [negb]; lia. }
  clearbody w1 w2. unfold CHTTP_H2_MAX_WINDOW, CHTTP_H2_DEFAULT_WINDOW in *.
  rewrite i32_id in H by zlia. injection H as <-.
  split; cbn; try done; try congruence; try zlia.
  all: try (unfold CHTTP_H2_MAX_WINDOW, CHTTP_H2_DEFAULT_WINDOW; zlia).
  - split; cbn; try zlia; unfold CHTTP_H2_DEFAULT_FRAME_BYTES, CHTTP_H2_MAX_FRAME_BYTES,
      CHTTP_H2_MAX_WINDOW; try zlia; [split_if; [apply u32_range|zlia]|split_if; [zlia|apply u32_range]|
      apply u32_range].
  - constructor.
  - unfold zlen. rewrite length_replicate. lia.
  - destruct mode; cbn; zlia.
  - by destruct mode.
Qed.

(** C37: An engine that was created, for any configuration the validation accepts,
    satisfies the invariant of the engine. *)
Theorem create_wf mode config (user : U) p :
  match config with Some c => config_unsigned c | None => True end ->
  chttp_h2_proto_create mode config user = Some p -> proto_wf p.
Proof. apply create_ok. Qed.

End Create.

Section Engine.
Context {alloc : Allocator} {U : Type} {app : Application U}.
Implicit Types p q : chttp_h2_proto U.

(** ** The connection preface *)

(** Nothing is left to queue before the next frame. *)
Definition preface_done p : Prop :=
  if is_client (p_mode p) then p_client_preface_done p = true
  else p_server_preface_seen p = true -> p_settings_sent p = true.

Lemma ensure_preface_done n p : preface_done p -> ensure_preface_fuel (S n) p = (p, 0).
Proof.
  unfold preface_done, is_server. cbn [ensure_preface_fuel]. unfold is_server.
  destruct (is_client (p_mode p)); cbn [negb andb].
  - intros ->. done.
  - destruct (p_server_preface_seen p); cbn [andb]; [|done]. intros H. by rewrite H.
Qed.

Lemma out_frame_fields p type flags sid payload :
  let q := (out_frame p type flags sid payload).1 in
  p_mode q = p_mode p /\ p_client_preface_done q = p_client_preface_done p /\
  p_settings_sent q = p_settings_sent p /\ p_server_preface_seen q = p_server_preface_seen p.
Proof.
  unfold out_frame. cbv zeta. split_if; [done|].
  destruct (chttp_h2_frame_header_encode _ _ _ _ _); [|done].
  destruct (chttp_h2_hpack_buffer_reserve _ _). by split_if.
Qed.

Lemma submit_settings_done p q :
  chttp_h2_proto_submit_settings p = (q, 0) ->
  (is_client (p_mode p) = true -> p_client_preface_done p = true) -> preface_done q.
Proof.
  unfold chttp_h2_proto_submit_settings. intros H Hc.
  destruct (chttp_h2_frame_settings_encode _ _) as [payload|]; [|done].
  pose proof (out_frame_fields p CHTTP_H2_FRAME_SETTINGS 0 0 payload) as (M & C & _).
  destruct (out_frame _ _ _ _ _) as [r rc]. cbn [fst] in *. split_if_in H; [|done].
  injection H as <-. unfold preface_done. cbn. rewrite M, C.
  destruct (is_client (p_mode p)); [by apply Hc|done].
Qed.

(** The mutual recursion between the preface and the WINDOW_UPDATE it submits is
    two calls deep: more fuel does not change its result. *)
Theorem ensure_preface_depth n p : ensure_preface_fuel (S (S n)) p = proto_ensure_preface p.
Proof.
  unfold proto_ensure_preface.
  assert (forall q, preface_done q ->
    (if CHTTP_H2_DEFAULT_WINDOW <? p_conn_local_window q
     then submit_window_update_with (ensure_preface_fuel (S n)) q 0
            (u32 (p_conn_local_window q - CHTTP_H2_DEFAULT_WINDOW)) else (q, 0)) =
    (if CHTTP_H2_DEFAULT_WINDOW <? p_conn_local_window q
     then submit_window_update_with (ensure_preface_fuel 1) q 0
            (u32 (p_conn_local_window q - CHTTP_H2_DEFAULT_WINDOW)) else (q, 0))) as Hann.
  { intros q Hq. unfold submit_window_update_with.
    rewrite (ensure_preface_done n q Hq), (ensure_preface_done 0 q Hq). done. }
  change (ensure_preface_fuel (S (S n)) p) with (
    let announce_window q := if CHTTP_H2_DEFAULT_WINDOW <? p_conn_local_window q
     then submit_window_update_with (ensure_preface_fuel (S n)) q 0
            (u32 (p_conn_local_window q - CHTTP_H2_DEFAULT_WINDOW)) else (q, 0) in
    if is_client (p_mode p) && negb (p_client_preface_done p) then
      let '(out, rc) := chttp_h2_hpack_buffer_reserve (p_out p)
          (CHTTP_H2_PREFACE_LEN + 2 * CHTTP_H2_FRAME_HEADER_SIZE + 42 + 4) in
      let p := p <| p_out := out |> in
      if negb (rc =? 0) then (p, -1)
      else
        let p := p <| p_out := buf_append (p_out p) CHTTP_H2_PREFACE |>
                   <| p_client_preface_done := true |> in
        let '(p, status) := chttp_h2_proto_submit_settings p in
        if negb (status =? 0) then (p, status) else announce_window p
    else if is_server (p_mode p) && p_server_preface_seen p && negb (p_settings_sent p) then
      let '(p, status) := chttp_h2_proto_submit_settings p in
      if negb (status =? 0) then (p, status) else announce_window p
    else (p, 0)).
  cbn [ensure_preface_fuel]. cbv zeta.
  destruct (is_client (p_mode p) && negb (p_client_preface_done p)) eqn:Hc.
  - destruct (chttp_h2_hpack_buffer_reserve _ _) as [out rc]. destruct (negb (rc =? 0)); [done|].
    destruct (chttp_h2_proto_submit_settings _) as [q status] eqn:Hs.
    destruct (Z.eqb_spec status 0) as [->|]; cbn [negb]; [|done].
    apply Hann. eapply submit_settings_done; [exact Hs|done].
  - destruct (is_server _ && _ && _) eqn:Hsv; [|done].
    destruct (chttp_h2_proto_submit_settings _) as [q status] eqn:Hs.
    destruct (Z.eqb_spec status 0) as [->|]; cbn [negb]; [|done].
    apply Hann. eapply submit_settings_done; [exact Hs|]. intros Hm. unfold is_server in Hsv.
    by rewrite Hm in Hsv.
Qed.

(** ** Connection errors *)

(** The first failure of a session records its error, stops new work and queues
    one GOAWAY frame with the last processed stream and the error. *)
Theorem proto_fail_goaway p error :
  proto_wf p -> p_failed p = false -> preface_done p -> (forall n, malloc_ok n = true) ->
  buf_size (p_out p) + 17 <= c_output_buffer_bytes (p_config p) ->
  let q := proto_fail p error in
  p_failed q = true /\ p_last_error q = error /\ p_goaway_sent q = true /\ p_draining q = true /\
  buf_data (p_out q) = buf_data (p_out p) ++
    wire_bytes (WFrame CHTTP_H2_FRAME_GOAWAY 0 0
                  (chttp_h2_write_u32 (p_last_proc_stream_id p) ++ chttp_h2_write_u32 error)).
Proof.
  intros Hwf Hf Hpre Ha Hroom. unfold proto_fail. rewrite Hf. cbn [negb].
  set (p1 := p <| p_failed := true |> <| p_last_error := error |>).
  pose proof (w_last_proc _ Hwf) as Hlast. unfold chttp_h2_proto_submit_goaway.
  change (p_last_proc_stream_id p1) with (p_last_proc_stream_id p).
  rewrite u32_id by zlia. destruct (Z.ltb_spec 0x7fffffff (p_last_proc_stream_id p)); [zlia|].
  unfold proto_ensure_preface. rewrite (ensure_preface_done 1 p1 Hpre). cbn [Z.eqb].
  unfold chttp_h2_frame_goaway_encode. rewrite top_bit_clear by zlia. cbn [Z.ltb Z.compare].
  destruct (Z.ltb_spec 8 8); [lia|].
  destruct (Z.ltb_spec (p_last_proc_stream_id p) (2 ^ 31)); [|zlia]. cbn [negb].
  set (payload := _ ++ _).
  assert (is_bytes payload) as Hb by (apply is_bytes_app; split; apply write_u32_bytes).
  destruct (out_frame_cases p1 CHTTP_H2_FRAME_GOAWAY 0 0 payload (w_out _ Hwf) ltac:(zlia)
    ltac:(zlia) ltac:(zlia) Hb) as (out & rc & Ho & _ & _ & Hc).
  pose proof (out_frame_rc p1 CHTTP_H2_FRAME_GOAWAY 0 0 payload (w_out _ Hwf) Ha ltac:(zlia)) as Hrc.
  rewrite Ho in Hrc |- *. cbn [snd] in Hrc.
  assert (rc = 0) as ->.
  { apply Hrc; [done|]. change (zlen payload) with 8. rewrite <- (w_out_max _ Hwf) in Hroom.
    change (p_out p1) with (p_out p). lia. }
  destruct Hc as [(_ & _ & Hd)|[? _]]; [|done]. cbn [Z.eqb fst].
  split_and!; try done; cbn; rewrite Hd; done.
Qed.

(** A frame other than CONTINUATION inside a header block, and any frame before
    the first SETTINGS of the peer, fails the session with PROTOCOL_ERROR and
    reaches neither a stream nor the application. *)
Theorem dispatch_order_enforced p payload hdr :
  p_failed p = false ->
  (p_in_headers p = true /\ fh_type hdr <> CHTTP_H2_FRAME_CONTINUATION \/
   p_peer_settings_received p = false /\
     (fh_type hdr <> CHTTP_H2_FRAME_SETTINGS \/ has_flag (fh_flags hdr) CHTTP_H2_FLAG_ACK = true)) ->
  let q := proto_dispatch p payload hdr in
  p_failed q = true /\ p_last_error q = CHTTP_H2_ERR_PROTOCOL_ERROR /\
  p_streams q = p_streams p /\ p_user q = p_user p.
Proof.
  intros Hf Hbad.
  assert (proto_dispatch p payload hdr = proto_fail p CHTTP_H2_ERR_PROTOCOL_ERROR) as ->.
  { unfold proto_dispatch. cbv zeta.
    destruct (p_in_headers p && negb (fh_type hdr =? CHTTP_H2_FRAME_CONTINUATION)) eqn:H1; [done|].
    destruct (negb (p_peer_settings_received p) && _) eqn:H2; [done|]. exfalso.
    destruct Hbad as [[Hi Ht]|[Hr Ht]].
    - rewrite Hi in H1. cbn in H1. apply negb_false_iff, Z.eqb_eq in H1. done.
    - rewrite Hr in H2. cbn in H2. apply orb_false_iff in H2 as [H2 H3].
      apply negb_false_iff, Z.eqb_eq in H2. destruct Ht; congruence. }
  cbv zeta. rewrite (proto_fail_ctl p CHTTP_H2_ERR_PROTOCOL_ERROR Hf). done.
Qed.

End Engine.

End H2ProtoTheorems.
