(* ===== verification/H2ProtoCredit.v ===== *)
(** * HTTP/2 engine: windows and stream identifiers

    What SETTINGS_INITIAL_WINDOW_SIZE does to the open streams, how consumed
    input becomes WINDOW_UPDATE frames, what happens to DATA beyond a receive
    window, and the identifiers a client gives its streams. *)

From S2P Require Import Prelude H2Frame HpackBuffer HpackTables HpackHuffman HpackTable Hpack.
From S2P Require Import HpackSync HpackBound H2Proto H2ProtoSend H2ProtoSubmit H2ProtoRecv.
From S2P Require Import H2ProtoInv H2ProtoOut H2ProtoQuiet H2ProtoFlow H2ProtoTheorems.

Module H2ProtoCredit.
Import H2Frame HpackBuffer HpackTables HpackHuffman HpackTable Hpack HpackSync HpackBound.
Import H2Proto H2ProtoSend H2ProtoSubmit H2ProtoRecv H2ProtoInv H2ProtoOut H2ProtoQuiet.
Import H2ProtoFlow H2ProtoTheorems.

Section Credit.
Context {alloc : Allocator} {U : Type} {app : Application U}.
Implicit Types p q : chttp_h2_proto U.

(** ** The initial window of the peer *)

(** A stream when the initial window moves by [delta]: closed ones stay. *)
Definition shift_window (delta : Z) (s : chttp_h2_proto_stream) : chttp_h2_proto_stream :=
  if s_closed s then s else s <| s_send_window := s_send_window s + delta |>.

Definition window_fits (delta : Z) (s : chttp_h2_proto_stream) : Prop :=
  s_closed s = false -> INT32_MIN <= s_send_window s + delta <= CHTTP_H2_MAX_WINDOW.

Lemma window_fits_existsb delta ss :
  existsb (fun s => negb (s_closed s) && ((s_send_window s + delta <? INT32_MIN) ||
             (CHTTP_H2_MAX_WINDOW <? s_send_window s + delta))) ss = false <->
  Forall (window_fits delta) ss.
Proof.
  unfold window_fits. induction ss as [|s ss IH]; cbn [existsb]; [by split|].
  rewrite orb_false_iff, IH, Forall_cons. apply and_iff_compat_r.
  destruct (s_closed s); cbn [negb andb]; [done|].
  rewrite orb_false_iff, !Z.ltb_ge. intuition lia.
Qed.

Lemma initial_window_cases p value :
  is_u32 value ->
  let delta := value - st_initial_window_size (p_peer p) in
  let '(q, error) := apply_initial_window p value in
  error = CHTTP_H2_ERR_NO_ERROR /\
    value <= CHTTP_H2_MAX_WINDOW /\ Forall (window_fits delta) (p_streams p) /\
    q = p <| p_streams := map (shift_window delta) (p_streams p) |>
          <| p_peer := (p_peer p) <| st_initial_window_size := value |> |> \/
  error = CHTTP_H2_ERR_FLOW_CONTROL_ERROR /\ q = p /\
    (CHTTP_H2_MAX_WINDOW < value \/ ~ Forall (window_fits delta) (p_streams p)).
Proof.
  intros Hv delta. unfold apply_initial_window. fold delta.
  destruct (Z.ltb_spec CHTTP_H2_MAX_WINDOW value); [right; auto|].
  destruct (existsb _ _) eqn:He.
  - right. split_and!; auto. right. rewrite <- window_fits_existsb, He. done.
  - apply window_fits_existsb in He. left. split_and!; auto. f_equal.
    assert (map (fun s => if s_closed s then s
              else s <| s_send_window := i32 (s_send_window s + delta) |>) (p_streams p) =
            map (shift_window delta) (p_streams p)) as ->; [|done].
    apply map_ext_in. intros s Hin. apply list_elem_of_In in Hin.
    rewrite Forall_forall in He. specialize (He s Hin). unfold shift_window, window_fits in *.
    destruct (s_closed s); [done|]. unfold CHTTP_H2_MAX_WINDOW in *. rewrite i32_id by zlia. done.
Qed.

(** A new initial window size moves the windows of all open streams, or is refused
    with FLOW_CONTROL_ERROR and changes nothing; it is refused exactly when it, or
    one of the resulting windows, is out of range. *)
Theorem initial_window_all_or_none p value :
  is_u32 value ->
  let delta := value - st_initial_window_size (p_peer p) in
  let '(q, error) := apply_initial_window p value in
  error = CHTTP_H2_ERR_NO_ERROR /\
    value <= CHTTP_H2_MAX_WINDOW /\ Forall (window_fits delta) (p_streams p) /\
    q = p <| p_streams := map (shift_window delta) (p_streams p) |>
          <| p_peer := (p_peer p) <| st_initial_window_size := value |> |> \/
  error = CHTTP_H2_ERR_FLOW_CONTROL_ERROR /\ q = p /\
    (CHTTP_H2_MAX_WINDOW < value \/ ~ Forall (window_fits delta) (p_streams p)).
Proof. apply initial_window_cases. Qed.

(** The last value a SETTINGS frame gives to the initial window. *)
Fixpoint last_initial_window (old : Z) (settings : list (Z * Z)) : Z :=
  match settings with
  | [] => old
  | (id, value) :: settings =>
    last_initial_window (if id =? CHTTP_H2_SETTING_INITIAL_WINDOW_SIZE then value else old) settings
  end.

Lemma shift_window_0 ss : map (shift_window 0) ss = ss.
Proof.
  rewrite <- (map_id ss) at 2. apply map_ext. intros s.
  unfold shift_window. split_if; [done|]. rewrite Z.add_0_r. by destruct s.
Qed.

Lemma shift_window_add a b ss : map (shift_window b) (map (shift_window a) ss) = map (shift_window (a + b)) ss.
Proof.
  rewrite map_map. apply map_ext. intros s. unfold shift_window.
  destruct (s_closed s) eqn:Hc; [by rewrite Hc|]. cbn. rewrite Hc, Z.add_assoc. done.
Qed.

Lemma apply_peer_setting_streams p id value q :
  is_u32 value -> apply_peer_setting p id value = (q, CHTTP_H2_ERR_NO_ERROR) ->
  let new := if id =? CHTTP_H2_SETTING_INITIAL_WINDOW_SIZE then value
             else st_initial_window_size (p_peer p) in
  st_initial_window_size (p_peer q) = new /\
  p_streams q = map (shift_window (new - st_initial_window_size (p_peer p))) (p_streams p).
Proof.
  intros Hv H. cbv zeta. destruct (Z.eqb_spec id CHTTP_H2_SETTING_INITIAL_WINDOW_SIZE) as [->|Hne].
  - change (apply_peer_setting p _ value) with (apply_initial_window p value) in H.
    pose proof (initial_window_cases p value Hv) as Hc. cbv zeta in Hc. rewrite H in Hc.
    destruct Hc as [(_ & _ & _ & ->)|[? _]]; [|discriminate]. split; reflexivity.
  - rewrite Z.sub_diag, shift_window_0. revert H. unfold apply_peer_setting.
    destruct (Z.eqb_spec id CHTTP_H2_SETTING_INITIAL_WINDOW_SIZE) as [|_]; [done|].
    repeat split_if; intros Hr; simplify_eq; split; reflexivity.
Qed.

(** A SETTINGS frame that is accepted moves the send window of every open stream
    by the difference between the last initial window size it names and the one
    before, whatever else it contains. *)
Theorem settings_shift_windows settings : forall p q,
  Forall (fun s => is_u32 s.2) settings ->
  proto_apply_peer_settings p settings = (q, CHTTP_H2_ERR_NO_ERROR) ->
  let old := st_initial_window_size (p_peer p) in
  let new := last_initial_window old settings in
  st_initial_window_size (p_peer q) = new /\
  p_streams q = map (shift_window (new - old)) (p_streams p).
Proof.
  induction settings as [|[id value] settings IH]; intros p q Hs H; cbv zeta;
    cbn [proto_apply_peer_settings last_initial_window] in *.
  { injection H as <-. split; [done|]. by rewrite Z.sub_diag, shift_window_0. }
  apply Forall_cons in Hs as [Hv Hs]. cbn [snd] in Hv.
  destruct (apply_peer_setting p id value) as [r e] eqn:Hr.
  destruct (Z.eqb_spec e CHTTP_H2_ERR_NO_ERROR) as [->|]; [|simplify_eq; done].
  destruct (apply_peer_setting_streams p id value r Hv Hr) as [Ew Es].
  destruct (IH r q Hs H) as [Ew' Es']. rewrite Ew in *. split; [done|].
  rewrite Es', Es, shift_window_add. f_equal. f_equal. lia.
Qed.

(** ** Consumed input *)

(** Returning connection credit conserves it: the receive window plus the bytes
    not yet announced grows by the bytes consumed, what is left unannounced is
    under half of the window, and it is announced by exactly one WINDOW_UPDATE of
    the accumulated amount. *)
Theorem consume_connection_conserves p bytes q :
  proto_wf p -> preface_done p -> 0 <= bytes ->
  chttp_h2_proto_consume_connection p bytes = (q, 0) ->
  p_conn_recv_window q + p_conn_consumed q = p_conn_recv_window p + p_conn_consumed p + bytes /\
  p_conn_consumed q < p_conn_local_window p ÷ 2 /\
  (p_conn_consumed q = p_conn_consumed p + bytes /\ p_out q = p_out p \/
   p_conn_consumed q = 0 /\
   buf_data (p_out q) = buf_data (p_out p) ++
     wire_bytes (WFrame CHTTP_H2_FRAME_WINDOW_UPDATE 0 0
                   (chttp_h2_write_u32 (p_conn_consumed p + bytes)))).
Proof.
  intros Hwf Hpre Hb0. unfold chttp_h2_proto_consume_connection.
  pose proof (w_conn_consumed _ Hwf) as Hcc. pose proof (w_conn_local _ Hwf) as Hloc.
  unfold CHTTP_H2_MAX_WINDOW, CHTTP_H2_DEFAULT_WINDOW in *.
  destruct ((bytes =? 0) || (0x7fffffff <? bytes)) eqn:Hb; [done|]. bool_prop.
  assert (i32 bytes = bytes) as -> by (apply i32_id; zlia).
  split_if; [done|]. cbv zeta. set (inc := p_conn_consumed p + bytes).
  change (p_conn_consumed (p <| p_conn_consumed := inc |>)) with inc.
  change (p_conn_local_window (p <| p_conn_consumed := inc |>)) with (p_conn_local_window p).
  assert (p_conn_local_window p ÷ 2 = p_conn_local_window p / 2) as -> by (apply Z.quot_div_nonneg; lia).
  assert (32767 <= p_conn_local_window p / 2) by (apply Z.div_le_lower_bound; lia).
  destruct ((0 <? inc) && (p_conn_local_window p / 2 <=? inc)) eqn:Hg; cycle 1.
  { intros [= <-]. cbn. split_and!; [lia|bool_prop; lia|by left]. }
  set (p1 := p <| p_conn_consumed := inc |> <| p_conn_consumed := 0 |>).
  assert (u32 inc = inc) as -> by (apply u32_id; subst inc; zlia).
  unfold chttp_h2_proto_submit_window_update, submit_window_update_with, proto_ensure_preface.
  rewrite (ensure_preface_done 1 p1 Hpre). cbn [Z.eqb]. unfold CHTTP_H2_MAX_WINDOW.
  cbn [Z.ltb Z.compare orb]. assert (0 < inc <= 0x7fffffff) as Hinc by (subst inc; lia).
  replace ((inc =? 0) || (0x7fffffff <? inc)) with false by lia.
  unfold chttp_h2_frame_window_update_encode. rewrite top_bit_clear by zlia.
  replace ((inc =? 0) || _) with false by lia. cbn [Z.ltb Z.compare].
  assert (i32 inc = inc) as -> by (apply i32_id; zlia).
  change (p_conn_recv_window p1) with (p_conn_recv_window p).
  destruct (0x7fffffff - inc <? p_conn_recv_window p); [intros ?; discriminate|].
  change (4 <? 4) with false. cbv iota.
  set (p2 := p1 <| p_conn_recv_window := p_conn_recv_window p + inc |>).
  destruct (out_frame_cases p2 CHTTP_H2_FRAME_WINDOW_UPDATE 0 0 (chttp_h2_write_u32 inc)
    (w_out _ Hwf) ltac:(zlia) ltac:(zlia) ltac:(zlia) (write_u32_bytes _))
    as (out & rc & -> & _ & _ & Hc).
  destruct Hc as [(-> & _ & Hd)|[-> _]]; [|done]. cbn [Z.eqb]. intros [= <-].
  split_and!; [cbn; lia|cbn; lia|]. right. split; [done|]. exact Hd.
Qed.

(** ** DATA beyond a window *)

(** A DATA frame longer than the connection window or the window of its stream
    fails the session with FLOW_CONTROL_ERROR, without a callback and without
    changing a stream. *)
Theorem data_beyond_window_refused p payload hdr i data :
  p_failed p = false -> p_peer_settings_received p = true -> p_in_headers p = false ->
  fh_type hdr = CHTTP_H2_FRAME_DATA -> 0 < fh_stream_id hdr <= INT32_MAX ->
  0 <= fh_length hdr <= CHTTP_H2_MAX_FRAME_BYTES ->
  chttp_h2_frame_data_payload payload (fh_flags hdr) = Ok data ->
  proto_find p (fh_stream_id hdr) = Some i ->
  s_closed (stream_at p i) = false -> s_local_reset (stream_at p i) = false ->
  s_remote_end_stream (stream_at p i) = false ->
  Z.min (p_conn_recv_window p) (s_recv_window (stream_at p i)) < fh_length hdr ->
  let q := proto_dispatch p payload hdr in
  p_failed q = true /\ p_last_error q = CHTTP_H2_ERR_FLOW_CONTROL_ERROR /\
  p_user q = p_user p /\ p_streams q = p_streams p.
Proof.
  intros Hf Hset Hin Ht Hid Hlen Hd Hfind Hc Hr He Hover. cbv zeta.
  assert (exists r, proto_dispatch p payload hdr = proto_fail r CHTTP_H2_ERR_FLOW_CONTROL_ERROR /\
    p_failed r = false /\ p_user r = p_user p /\ p_streams r = p_streams p) as (r & -> & Hfr & Hu & Hst).
  { unfold proto_dispatch. cbv zeta. rewrite Hset, Hin, Ht. cbn -[dispatch_data].
    unfold dispatch_data. rewrite !i32_id by (unfold CHTTP_H2_MAX_FRAME_BYTES in *; zlia).
    replace (fh_stream_id hdr =? 0) with false by lia. cbv zeta. rewrite Hd, Hfind.
    destruct (Z.ltb_spec (p_conn_recv_window p) (fh_length hdr)); [by exists p|].
    set (q := p <| p_conn_recv_window := _ |>).
    change (stream_at q i) with (stream_at p i). rewrite Hc, Hr, He. cbn [negb andb orb].
    replace (s_recv_window (stream_at p i) <? fh_length hdr) with true by lia. by exists q. }
  rewrite (proto_fail_ctl r _ Hfr). done.
Qed.

(** ** Stream identifiers of a client *)

(** Queueing a header block keeps the streams and the identifiers. *)
Definition keeps_streams p q : Prop :=
  p_streams q = p_streams p /\ p_next_stream_id q = p_next_stream_id p /\ p_mode q = p_mode p.

Lemma keeps_streams_trans p q r : keeps_streams p q -> keeps_streams q r -> keeps_streams p r.
Proof. intros (A & B & C) (A' & B' & C'). repeat split; congruence. Qed.

Lemma ctl_keeps_streams p q : ctl p q -> keeps_streams p q.
Proof. intros ->. done. Qed.

Lemma proto_fail_keeps_streams p error : keeps_streams p (proto_fail p error).
Proof.
  destruct (p_failed p) eqn:Hf; [unfold proto_fail; by rewrite Hf|].
  by rewrite (proto_fail_ctl p error Hf).
Qed.

Lemma out_frame_keeps_streams p type flags sid payload :
  keeps_streams p (out_frame p type flags sid payload).1.
Proof. apply ctl_keeps_streams, out_frame_ctl. Qed.

Lemma headers_loop_keeps_streams fuel : forall p sid block first end_stream pri,
  keeps_streams p (headers_loop fuel p sid block first end_stream pri).1.
Proof.
  induction fuel as [|fuel IH]; intros; cbn [headers_loop]; [done|].
  set (chunk := if _ <? _ then _ else _).
  match goal with |- context [out_frame ?p ?t ?fl ?s ?b] =>
    pose proof (out_frame_keeps_streams p t fl s b) as Ho;
    destruct (out_frame p t fl s b) as [q rc] end.
  cbn [fst] in Ho. split_if; [eapply keeps_streams_trans; [exact Ho|apply proto_fail_keeps_streams]|].
  destruct (zdrop chunk block); [exact Ho|]. eapply keeps_streams_trans; [exact Ho|apply IH].
Qed.

Lemma out_headers_keeps_streams p sid hdrs end_stream pri weight dep exclusive :
  keeps_streams p (out_headers p sid hdrs end_stream pri weight dep exclusive).1.
Proof.
  unfold out_headers. destruct (proto_header_bounds p hdrs pri) as [[e w]|]; [|done].
  destruct (chttp_h2_hpack_buffer_reserve _ _) as [out rc].
  set (q := p <| p_out := out |>). assert (keeps_streams p q) as Hq by done. clearbody q.
  split_if; [done|]. destruct (chttp_h2_hpack_buffer_init _ _) as [blk|]; [|done].
  destruct (chttp_h2_hpack_encode _ _ _) as [[hpack blk'] rc'].
  set (r := q <| p_hpack := hpack |>). assert (keeps_streams p r) as Hr by done. clearbody r.
  split_if; [eapply keeps_streams_trans; [exact Hr|apply proto_fail_keeps_streams]|].
  destruct (if pri then _ else _) as [[|b0 block]|]; [| |done].
  - match goal with |- context [out_frame ?p ?t ?fl ?s ?b] =>
      pose proof (out_frame_keeps_streams p t fl s b) as Ho;
      destruct (out_frame p t fl s b) as [r' rc''] end.
    pose proof (keeps_streams_trans _ _ _ Hr Ho) as Hr'. cbn [fst] in Hr'.
    split_if; [eapply keeps_streams_trans; [exact Hr'|apply proto_fail_keeps_streams]|done].
  - eapply keeps_streams_trans; [exact Hr|apply headers_loop_keeps_streams].
Qed.

(** What [proto_new_stream] puts into a slot. *)
Definition fresh_stream p (id user_data : Z) : chttp_h2_proto_stream :=
  (stream_zero id)
    <| s_send_window := i32 (st_initial_window_size (p_peer p)) |>
    <| s_recv_window := i32 (st_initial_window_size (p_local p)) |>
    <| s_local_window := i32 (st_initial_window_size (p_local p)) |>
    <| s_user_data := user_data |>.

Lemma new_stream_spec p id ud q i :
  proto_new_stream p id ud = (q, Some i) ->
  p_next_stream_id q = p_next_stream_id p /\ p_streams q !! i = Some (fresh_stream p id ud) /\
  (forall s, p_streams p !! i = Some s -> s_closed s = true) /\
  (forall j s, j <> i -> p_streams p !! j = Some s -> p_streams q !! j = Some s).
Proof.
  unfold proto_new_stream. fold (fresh_stream p id ud). set (s0 := fresh_stream p id ud).
  assert (forall r j, (let r' := if (if is_client (p_mode r) then negb (odd_id id) else odd_id id) &&
      (p_last_proc_stream_id r <? id) then r <| p_last_proc_stream_id := id |> else r in
      (r', Some j)) = (q, Some i) ->
    j = i /\ p_next_stream_id q = p_next_stream_id r /\ p_streams q = p_streams r) as Hfin.
  { intros r j H. cbv zeta in H. injection H as <- <-. by split_if. }
  destruct (list_find _ (p_streams p)) as [[j sj]|] eqn:Hl.
  - intros H. apply Hfin in H as (-> & -> & ->). cbn.
    apply list_find_Some in Hl as (Hl & Hc & _).
    split_and!; [done|apply list_lookup_insert_eq; by eapply lookup_lt_Some| |].
    + intros s Hs. rewrite Hl in Hs. by injection Hs as <-.
    + intros k s Hk Hs. by rewrite list_lookup_insert_ne by done.
  - split_if; [done|]. intros H. apply Hfin in H as (<- & -> & ->). cbn.
    split_and!; [done|by apply list_lookup_middle| |].
    + intros s Hs. apply lookup_lt_Some in Hs. lia.
    + intros k s Hk Hs. by apply lookup_app_l_Some.
Qed.

Lemma proto_find_unique p i s :
  proto_wf p -> p_streams p !! i = Some s -> proto_find p (s_id s) = Some i.
Proof.
  intros Hwf Hl. destruct (proto_find p (s_id s)) as [j|] eqn:Hf.
  - destruct (proto_find_Some _ _ _ Hf) as (s' & Hj & _ & Hid). f_equal.
    eapply NoDup_lookup; [apply (w_unique _ Hwf)| |];
      rewrite list_lookup_fmap; [by rewrite Hj|by rewrite Hl; cbn; rewrite Hid].
  - apply proto_find_None in Hf. contradict Hf. apply list_elem_of_fmap. exists s.
    split; [done|]. by eapply list_elem_of_lookup_2.
Qed.

Lemma stream_at_lookup p i s : p_streams p !! i = Some s -> stream_at p i = s.
Proof. intros Hl. unfold stream_at. by apply nth_lookup_Some. Qed.

(** An open stream that both engines hold alike. *)
Definition carried p q (i : nat) : Prop :=
  forall s, p_streams p !! i = Some s -> s_closed s = false ->
  proto_find q (s_id s) = Some i /\ stream_at q i = s.

(** A request fills one slot that no open stream held. *)
Lemma opened_slot p q i s' :
  proto_wf p -> proto_wf q -> is_client (p_mode p) = true ->
  s_id s' = p_next_stream_id p -> p_streams q !! i = Some s' ->
  (forall s, p_streams p !! i = Some s -> s_closed s = true) ->
  (forall j s, j <> i -> p_streams p !! j = Some s -> p_streams q !! j = Some s) ->
  Z.odd (s_id s') = true /\ proto_find p (s_id s') = None /\ (forall j, carried p q j) /\
  proto_find q (s_id s') = Some i /\ stream_at q i = s'.
Proof.
  intros Hwf Hwfq Hm Hid Hi Hold Hkeep. split_and!.
  - rewrite Hid. by apply (w_next_odd _ Hwf).
  - destruct (proto_find p (s_id s')) as [j|] eqn:Hf; [|done]. exfalso.
    destruct (proto_find_Some _ _ _ Hf) as (s & Hl & _ & Hs).
    pose proof (Forall_lookup_1 _ _ _ _ (w_ids _ Hwf) Hl) as Hb. cbn in Hb. rewrite Hm in Hb. lia.
  - intros j s Hl Hc. destruct (decide (j = i)) as [->|Hj]; [by rewrite (Hold s Hl) in Hc|].
    pose proof (Hkeep j s Hj Hl) as Hq. split; [by apply proto_find_unique|by apply stream_at_lookup].
  - by apply proto_find_unique.
  - by apply stream_at_lookup.
Qed.

(** The slot of a request: a new stream, then the fields the request sets. *)
Definition request_body_set (body : option (list Z)) (source : option Z) :
    chttp_h2_proto_stream -> chttp_h2_proto_stream :=
  match source with
  | Some _ => fun s => s <| s_source := source |>
  | None => if 0 <? match body with Some body => zlen body | None => 0 end
            then fun s => s <| s_body := body |> <| s_body_off := 0 |> <| s_body_eof := true |>
            else fun s => s
  end.

Definition request_end (body : option (list Z)) (source : option Z) : bool :=
  match source with
  | Some _ => false
  | None => match body with Some body => zlen body | None => 0 end =? 0
  end.

Lemma request_slot_fields p id body source :
  proto_wf p -> body = None \/ source = None ->
  let s := request_body_set body source
             ((fresh_stream p id 0) <| s_end_stream_sent := request_end body source |>) in
  s_id s = id /\ s_closed s = false /\
  s_send_window s = st_initial_window_size (p_peer p) /\
  s_recv_window s = st_initial_window_size (p_local p) /\
  s_source s = source /\
  s_body s = (match body with Some (_ :: _) => body | _ => None end) /\
  s_end_stream_sent s =
    match source, body with None, None | None, Some [] => true | _, _ => false end.
Proof.
  intros Hwf Hx. cbv zeta. pose proof (stw_window _ (w_peer _ Hwf)) as W1.
  pose proof (stw_window _ (w_local _ Hwf)) as W2. unfold CHTTP_H2_MAX_WINDOW in *.
  unfold request_body_set, request_end, fresh_stream.
  rewrite !i32_id by zlia.
  destruct source as [src|], body as [[|b body]|]; try done; by destruct Hx.
Qed.

(** The engine after a request that was accepted. *)
Lemma request_slot p hdrs body source weight dep exclusive q out :
  chttp_h2_proto_submit_request_ex p hdrs body source weight dep exclusive = (q, 0, out) ->
  is_client (p_mode p) = true /\
  (body = None \/ source = None) /\
  out = Some (p_next_stream_id p) /\ p_next_stream_id q = p_next_stream_id p + 2 /\
  exists i,
    p_streams q !! i = Some (request_body_set body source
      ((fresh_stream p (p_next_stream_id p) 0) <| s_end_stream_sent := request_end body source |>)) /\
    (forall s, p_streams p !! i = Some s -> s_closed s = true) /\
    (forall j s, j <> i -> p_streams p !! j = Some s -> p_streams q !! j = Some s).
Proof.
  unfold chttp_h2_proto_submit_request_ex. cbv zeta.
  destruct (negb (is_client (p_mode p)) || _ || _ || _ || _ || _) eqn:Hg; [done|].
  repeat (let G := fresh "G" in apply orb_false_iff in Hg as [Hg G]).
  apply negb_false_iff in Hg.
  destruct ((0x7ffffffe <? p_next_stream_id p) || _); [done|].
  pose proof (ensure_preface_ctl p) as Hctl.
  destruct (proto_ensure_preface p) as [p1 rc1]. cbn [fst] in Hctl.
  destruct (negb (rc1 =? 0)); [done|].
  destruct (proto_new_stream _ _ _) as [p2 [i|]] eqn:Hn; [|done].
  apply new_stream_spec in Hn as (N1 & N2 & N3 & N4).
  assert (p_streams p1 = p_streams p /\ p_next_stream_id p1 = p_next_stream_id p /\
    p_peer p1 = p_peer p /\ p_local p1 = p_local p) as (E1 & E2 & E3 & E4) by (by rewrite Hctl).
  unfold fresh_stream in N2. cbn in N1, N2, N3, N4. rewrite E1, E2, E3, E4 in *. clear Hctl.
  fold (request_end body source). set (p3 := upd_stream p2 i _).
  match goal with |- context [out_headers p3 ?a ?b ?c ?d ?e ?f ?g] =>
    pose proof (out_headers_keeps_streams p3 a b c d e f g) as Hk;
    destruct (out_headers p3 a b c d e f g) as [p4 rc4] end.
  cbn [fst] in Hk. destruct Hk as (K1 & K2 & _). destruct (negb (rc4 =? 0)); [done|].
  intros H. injection H as Hq <-.
  assert (q = upd_stream p4 i (request_body_set body source)) as ->.
  { rewrite <- Hq. unfold request_body_set. destruct source; [done|]. split_if; [done|].
    unfold upd_stream. rewrite list_alter_id by done. by destruct p4. }
  split_and!; [done|by destruct body, source; auto|done|cbn; by rewrite K2|]. exists i. cbn. rewrite K1. cbn.
  split_and!; [by rewrite !list_lookup_alter_eq, N2|done|].
  intros j s Hj Hs. rewrite !list_lookup_alter_ne by done. auto.
Qed.

(** A request that is accepted opens exactly one stream: the next odd id, not in
    use before, with the initial windows of the peer and of this side, the given
    body or source, END_STREAM already sent exactly when there is none; every
    other open stream keeps its slot and its state. *)
Theorem request_opens_stream p hdrs body source weight dep exclusive q id :
  proto_wf p -> Forall header_ok hdrs -> body_ok body ->
  chttp_h2_proto_submit_request_ex p hdrs body source weight dep exclusive = (q, 0, Some id) ->
  id = p_next_stream_id p /\ Z.odd id = true /\ proto_find p id = None /\
  p_next_stream_id q = id + 2 /\ (forall i, carried p q i) /\
  exists i, proto_find q id = Some i /\ s_closed (stream_at q i) = false /\
    s_send_window (stream_at q i) = st_initial_window_size (p_peer p) /\
    s_recv_window (stream_at q i) = st_initial_window_size (p_local p) /\
    s_source (stream_at q i) = source /\
    s_body (stream_at q i) = (match body with Some (_ :: _) => body | _ => None end) /\
    s_end_stream_sent (stream_at q i) =
      match source, body with None, None | None, Some [] => true | _, _ => false end.
Proof.
  intros Hwf Hh Hb H.
  pose proof (submit_request_ex_quiet p hdrs body source weight dep exclusive Hh Hb) as Hq.
  rewrite H in Hq. pose proof (k_wf _ _ (Hq Hwf)) as Hwfq.
  apply request_slot in H as (Hm & Hx & [= ->] & Hn & i & Hi & Hold & Hkeep).
  destruct (request_slot_fields p (p_next_stream_id p) body source Hwf Hx)
    as (F1 & F2 & F3 & F4 & F5 & F6 & F7).
  destruct (opened_slot p q i _ Hwf Hwfq Hm F1 Hi Hold Hkeep) as (O1 & O2 & O3 & O4 & O5).
  rewrite F1 in *. split_and!; try done. exists i. rewrite O5. by split_and!.
Qed.

End Credit.
End H2ProtoCredit.
