(* ===== verification/H2ProtoHeaders.v ===== *)
(** * HTTP/2 engine: header blocks from one engine to another

    [out_headers] turns a list of headers into a HEADERS frame and as many
    CONTINUATION frames as the peer's frame size asks for; an engine that
    dispatches these frames assembles the block and hands its application the
    same headers in the same order. *)

From S2P Require Import Prelude H2Frame HpackBuffer HpackTables HpackHuffman HpackTable Hpack.
From S2P Require Import HpackSync HpackBound H2Proto H2ProtoSend H2ProtoSubmit H2ProtoRecv.
From S2P Require Import H2ProtoInv H2ProtoOut H2ProtoQuiet H2ProtoFlow.

Module H2ProtoHeaders.
Import H2Frame HpackBuffer HpackTables HpackHuffman HpackTable Hpack HpackSync HpackBound.
Import H2Proto H2ProtoSend H2ProtoSubmit H2ProtoRecv H2ProtoInv H2ProtoOut H2ProtoQuiet H2ProtoFlow.

(** ** The frames of a block *)

(** The frames that carry [block] on stream [sid] when no frame may be larger
    than [max]: all but the last are full, the last one ends the block. *)
Inductive header_frames (max sid : Z) : bool -> Z -> list wire_item -> list Z -> Prop :=
  | hf_last first flags block :
      zlen block <= max ->
      header_frames max sid first flags
        [WFrame (if first then CHTTP_H2_FRAME_HEADERS else CHTTP_H2_FRAME_CONTINUATION)
                (Z.lor flags CHTTP_H2_FLAG_END_HEADERS) sid block] block
  | hf_more first flags payload items block :
      zlen payload = max ->
      header_frames max sid false 0 items block ->
      header_frames max sid first flags
        (WFrame (if first then CHTTP_H2_FRAME_HEADERS else CHTTP_H2_FRAME_CONTINUATION)
                flags sid payload :: items) (payload ++ block).

(** The flags of the HEADERS frame. *)
Definition start_flags (end_stream priority : bool) : Z :=
  Z.lor (if end_stream then CHTTP_H2_FLAG_END_STREAM else 0)
        (if priority then CHTTP_H2_FLAG_PRIORITY else 0).

(** The bytes that the frames of a block of [n] bytes take. *)
Definition frames_size (max n : Z) : Z := n + 9 * (1 + (n - 1) / max).

Section Sender.
Context {alloc : Allocator} {U : Type}.
Implicit Types p q : chttp_h2_proto U.

Lemma frames_size_step max n : 0 < max < n -> frames_size max n = max + 9 + frames_size max (n - max).
Proof.
  intros H. unfold frames_size. replace (n - 1) with (1 * max + (n - max - 1)) by lia.
  rewrite Z.div_add_l by lia. lia.
Qed.

Lemma frames_size_mono max n m : 0 < max -> n <= m -> frames_size max n <= frames_size max m.
Proof.
  intros Hm Hn. unfold frames_size.
  assert ((n - 1) / max <= (m - 1) / max) by (apply Z.div_le_mono; lia). lia.
Qed.

Lemma start_flags_loop first end_stream pri :
  (let flags := if first && end_stream then CHTTP_H2_FLAG_END_STREAM else 0 in
   if first && pri then Z.lor flags CHTTP_H2_FLAG_PRIORITY else flags) =
  (if first then start_flags end_stream pri else 0).
Proof. by destruct first, end_stream, pri. Qed.

(** The loop over a block: its frames if it succeeds, and success when there
    is room. *)
Lemma headers_loop_frames fuel : forall p sid block first end_stream pri,
  buf_wf (p_out p) -> 0 < st_max_frame_size (p_peer p) <= CHTTP_H2_MAX_FRAME_BYTES ->
  is_bytes block -> block <> [] -> (length block <= fuel)%nat -> 0 <= sid <= INT32_MAX ->
  let '(q, rc) := headers_loop fuel p sid block first end_stream pri in
  (rc = 0 -> q = p <| p_out := p_out q |> /\ buf_wf (p_out q) /\
     exists items, buf_data (p_out q) = buf_data (p_out p) ++ wire items /\
       header_frames (st_max_frame_size (p_peer p)) sid first
         (if first then start_flags end_stream pri else 0) items block /\ Forall item_ok items) /\
  ((forall n, malloc_ok n = true) ->
   buf_size (p_out p) + frames_size (st_max_frame_size (p_peer p)) (zlen block) <=
     buf_max_capacity (p_out p) -> rc = 0).
Proof.
  induction fuel as [|fuel IH]; intros p sid block first end_stream pri Hwf Hmax Hb Hne Hfuel Hs.
  { destruct block; [done|cbn in Hfuel; lia]. }
  cbn [headers_loop]. set (max := st_max_frame_size (p_peer p)) in *.
  set (chunk := if max <? zlen block then max else zlen block).
  set (type := if first then CHTTP_H2_FRAME_HEADERS else CHTTP_H2_FRAME_CONTINUATION).
  rewrite start_flags_loop. set (flags := if first then start_flags end_stream pri else 0).
  assert (0 < zlen block) as Hlen by (destruct block; [done|rewrite zlen_cons; pose proof (zlen_nonneg block); lia]).
  assert (0 < chunk <= zlen block /\ chunk <= max) as [Hc Hcm]
    by (unfold chunk; destruct (Z.ltb_spec max (zlen block)); lia).
  set (fl := if chunk =? zlen block then _ else _).
  assert (is_u8 fl) as Hfl.
  { unfold fl, flags, start_flags. by destruct (chunk =? zlen block), first, end_stream, pri. }
  assert (is_u8 type) as Hty by (unfold type; by destruct first).
  assert (zlen (ztake chunk block) = chunk) as Hzt by (apply zlen_ztake; lia).
  destruct (out_frame_cases p type fl sid (ztake chunk block) Hwf Hty Hfl ltac:(lia)
    ltac:(bytes_solve)) as (out & rc & Ho & Hwo & Hmo & Hcase).
  pose proof (out_frame_rc p type fl sid (ztake chunk block) Hwf) as Hrc. rewrite Ho in Hrc.
  rewrite Hzt in Hrc. cbn [snd] in Hrc. rewrite Ho.
  destruct Hcase as [(-> & Hok & Hd)|[-> Hd]]; cbn [Z.eqb negb]; cycle 1.
  { split; [done|]. intros Ha Hroom. exfalso.
    assert (-1 = 0); [|done]. apply Hrc; try done; [lia|].
    unfold frames_size in Hroom. assert (0 <= (zlen block - 1) / max) by (apply Z.div_pos; lia). lia. }
  destruct (Z.ltb_spec max (zlen block)) as [Hbig|Hsmall].
  - assert (chunk = max) as Hcx by (unfold chunk; by replace (max <? zlen block) with true by lia).
    assert (fl = flags) as Hfx by (unfold fl; by replace (chunk =? zlen block) with false by lia).
    rewrite Hcx, Hfx in *. clear fl Hfx Hfl. set (r := p <| p_out := out |>).
    assert (zlen (zdrop max block) = zlen block - max) as Hzd by (apply zlen_zdrop; lia).
    destruct (zdrop max block) as [|z l] eqn:Hrest; [change (zlen []) with 0 in Hzd; lia|].
    rewrite <- Hrest in *.
    specialize (IH r sid (zdrop max block) false end_stream pri Hwo Hmax ltac:(bytes_solve)
      ltac:(congruence) ltac:(unfold zlen in *; lia) Hs).
    destruct (headers_loop fuel r sid (zdrop max block) false end_stream pri) as [q rc].
    destruct IH as [IH1 IH2]. split.
    + intros ->. destruct (IH1 eq_refl) as (Hq & Hwq & items & Hdq & Hhf & Hfo). split_and!.
      * rewrite Hq. done.
      * done.
      * exists (WFrame type flags sid (ztake max block) :: items). split_and!.
        -- rewrite Hdq. cbn [p_out]. change (p_out r) with out. rewrite Hd.
           unfold wire. cbn [map concat]. by rewrite <- app_assoc.
        -- rewrite <- (ztake_zdrop max block) at 2. by apply hf_more.
        -- by constructor.
    + intros Ha Hroom. apply IH2; [done|]. change (st_max_frame_size (p_peer r)) with max.
      change (p_out r) with out. rewrite frames_size_step in Hroom by lia. rewrite Hzd, Hmo.
      unfold buf_size in *. rewrite Hd, zlen_app. cbn [wire_bytes]. rewrite zlen_app, zlen_header, Hzt. lia.
  - assert (chunk = zlen block) as Hcx by (unfold chunk; by replace (max <? zlen block) with false by lia).
    assert (fl = Z.lor flags CHTTP_H2_FLAG_END_HEADERS) as Hfx
      by (unfold fl; by replace (chunk =? zlen block) with true by lia).
    rewrite Hcx, Hfx in *. rewrite zdrop_all, ztake_all in *.
    split; [|done]. intros _. split_and!; [done|done|].
    exists [WFrame type (Z.lor flags CHTTP_H2_FLAG_END_HEADERS) sid block]. split_and!.
    + change (p_out (p <| p_out := out |>)) with out. rewrite Hd. unfold wire. cbn [map concat].
      by rewrite app_nil_r.
    + by apply hf_last.
    + by constructor.
Qed.

(** A block on the wire, also when it is empty. *)
Lemma block_frames p sid block (end_stream pri : bool) :
  buf_wf (p_out p) -> 0 < st_max_frame_size (p_peer p) <= CHTTP_H2_MAX_FRAME_BYTES ->
  is_bytes block -> 0 <= sid <= INT32_MAX -> (pri = true -> block <> []) ->
  let '(q, rc) :=
    match block with
    | [] =>
      let flags :=
        if end_stream then Z.lor CHTTP_H2_FLAG_END_HEADERS CHTTP_H2_FLAG_END_STREAM
        else CHTTP_H2_FLAG_END_HEADERS in
      let '(p, rc) := out_frame p CHTTP_H2_FRAME_HEADERS flags sid [] in
      if negb (rc =? 0) then (proto_fail p CHTTP_H2_ERR_INTERNAL_ERROR, -1) else (p, 0)
    | block => headers_loop (length block) p sid block true end_stream pri
    end in
  (rc = 0 -> q = p <| p_out := p_out q |> /\ buf_wf (p_out q) /\
     exists items, buf_data (p_out q) = buf_data (p_out p) ++ wire items /\
       header_frames (st_max_frame_size (p_peer p)) sid true (start_flags end_stream pri) items
         block /\ Forall item_ok items) /\
  ((forall n, malloc_ok n = true) ->
   buf_size (p_out p) + Z.max 9 (frames_size (st_max_frame_size (p_peer p)) (zlen block)) <=
     buf_max_capacity (p_out p) -> rc = 0).
Proof.
  intros Hwf Hmax Hb Hs Hpri. destruct block as [|b block].
  - assert (pri = false) as -> by (destruct pri; [by specialize (Hpri eq_refl)|done]).
    cbv zeta. set (flags := if end_stream then _ else _).
    assert (is_u8 flags) as Hfl by (unfold flags; by destruct end_stream).
    assert (flags = Z.lor (start_flags end_stream false) CHTTP_H2_FLAG_END_HEADERS) as Hfx
      by (unfold flags; by destruct end_stream).
    destruct (out_frame_cases p CHTTP_H2_FRAME_HEADERS flags sid [] Hwf ltac:(zlia) Hfl ltac:(lia)
      ltac:(constructor)) as (out & rc & Ho & Hwo & Hmo & Hcase).
    pose proof (out_frame_rc p CHTTP_H2_FRAME_HEADERS flags sid [] Hwf) as Hrc.
    rewrite Ho in Hrc. cbn [snd] in Hrc. change (zlen []) with 0 in Hrc. rewrite Ho.
    destruct Hcase as [(-> & Hok & Hd)|[-> Hd]]; cbn [Z.eqb negb].
    + split; [|done]. intros _. split_and!; [done|done|]. rewrite Hfx in Hd, Hok.
      eexists. split_and!; [|apply hf_last; change (zlen []) with 0; lia|by constructor].
      change (p_out (p <| p_out := out |>)) with out. rewrite Hd. unfold wire. cbn [map concat].
      by rewrite app_nil_r.
    + split; [done|]. intros Ha Hroom. exfalso. assert (-1 = 0); [|done].
      apply Hrc; try done; unfold CHTTP_H2_MAX_FRAME_BYTES; lia.
  - pose proof (headers_loop_frames (length (b :: block)) p sid (b :: block) true end_stream pri
      Hwf Hmax Hb ltac:(done) ltac:(lia) Hs) as Hl.
    destruct (headers_loop _ _ _ _ _ _ _) as [q rc]. destruct Hl as [H1 H2].
    split; [exact H1|]. intros Ha Hroom. apply H2; [done|lia].
Qed.

(** The five bytes of the priority, if the frame has it. *)
Definition priority_prefix (pri : bool) (exclusive : bool) (dep weight : Z) (prefix : list Z) :
    Prop :=
  if pri
  then chttp_h2_frame_priority_encode CHTTP_H2_PRIORITY_BYTES exclusive (u32 dep) weight = Ok prefix
  else prefix = [].

(** When [out_headers] is sure to succeed. *)
Definition headers_room p (hdrs : list chttp_h2_hpack_header) (pri : bool) (weight dep : Z) : Prop :=
  (forall n, malloc_ok n = true) /\
  Forall (fun hd => zlen (hd_name hd) <= 0x7fffffff /\ zlen (hd_value hd) <= 0x7fffffff) hdrs /\
  (pri = true -> 1 <= weight <= 256 /\ 0 <= dep <= INT32_MAX /\
     12 + fields_bound hdrs + 5 <= c_header_block_bytes (p_config p)) /\
  exists encoded wire_bound, proto_header_bounds p hdrs pri = Some (encoded, wire_bound) /\
    buf_size (p_out p) + wire_bound <= c_output_buffer_bytes (p_config p).

(** The bytes of the block after the priority was put in front. *)
Lemma prioritise blk (pri exclusive : bool) dep weight :
  buf_wf blk ->
  let r :=
    if pri then
      let '(blk, rc) := chttp_h2_hpack_buffer_reserve blk CHTTP_H2_PRIORITY_BYTES in
      if negb (rc =? 0) then None
      else
        match chttp_h2_frame_priority_encode CHTTP_H2_PRIORITY_BYTES exclusive (u32 dep) weight with
        | Err _ => None
        | Ok priority => Some (priority ++ buf_data blk)
        end
    else Some (buf_data blk) in
  (forall block, r = Some block -> exists prefix, priority_prefix pri exclusive dep weight prefix /\
     block = prefix ++ buf_data blk /\ zlen prefix = (if pri then 5 else 0) /\ is_bytes prefix) /\
  ((forall n, malloc_ok n = true) ->
   (pri = true -> 1 <= weight <= 256 /\ 0 <= dep <= INT32_MAX /\
      buf_size blk + 5 <= buf_max_capacity blk) -> r <> None).
Proof.
  intros Hwf. destruct pri; cbn [priority_prefix]; cbv zeta; cycle 1.
  { split; [|done]. intros block [= <-]. exists []. by split_and!; try constructor. }
  pose proof (buffer_reserve_cases blk CHTTP_H2_PRIORITY_BYTES Hwf ltac:(done)) as Hc.
  pose proof (buffer_reserve_rc blk CHTTP_H2_PRIORITY_BYTES Hwf ltac:(done)) as Hrc.
  destruct (chttp_h2_hpack_buffer_reserve blk CHTTP_H2_PRIORITY_BYTES) as [b2 rc].
  destruct Hc as (Hd & _). cbn [snd] in Hrc.
  destruct (negb (rc =? 0)) eqn:Hr.
  { split; [done|]. intros Ha Hp. destruct (Hp eq_refl) as (_ & _ & Hfit). exfalso.
    specialize (Hrc Ha). unfold CHTTP_H2_PRIORITY_BYTES in Hrc.
    replace (_ <=? _) with true in Hrc by lia. by subst rc. }
  destruct (chttp_h2_frame_priority_encode _ _ _ _) as [pr|] eqn:Hpr.
  - split; [|done]. intros block [= <-]. exists pr. rewrite Hd.
    destruct (priority_bytes _ _ _ _ Hpr). by split_and!.
  - split; [done|]. intros _ Hp. destruct (Hp eq_refl) as (H1 & H2 & _). exfalso. revert Hpr.
    unfold chttp_h2_frame_priority_encode. rewrite u32_id by zlia. rewrite top_bit_clear by zlia.
    replace (_ || _ || _) with false by zlia. done.
Qed.

Lemma hpack_buffer_init_some hint max :
  (forall n, malloc_ok n = true) -> 0 < max -> hint <= max ->
  chttp_h2_hpack_buffer_init hint max <> None.
Proof.
  intros Ha Hm Hh. unfold chttp_h2_hpack_buffer_init. rewrite Ha.
  replace (_ || _) with false by lia. done.
Qed.

(** What follows the encoding: the block with its priority, in frames. *)
Definition send_headers p (sid : Z) (end_stream pri exclusive : bool) (dep weight : Z)
    (blk : chttp_h2_hpack_buffer) : chttp_h2_proto U * Z :=
  match
    (if pri then
       let '(blk, rc) := chttp_h2_hpack_buffer_reserve blk CHTTP_H2_PRIORITY_BYTES in
       if negb (rc =? 0) then None
       else
         match chttp_h2_frame_priority_encode CHTTP_H2_PRIORITY_BYTES exclusive (u32 dep) weight with
         | Err _ => None
         | Ok priority => Some (priority ++ buf_data blk)
         end
     else Some (buf_data blk))
  with
  | None => (p, -1)
  | Some [] =>
    let flags :=
      if end_stream then Z.lor CHTTP_H2_FLAG_END_HEADERS CHTTP_H2_FLAG_END_STREAM
      else CHTTP_H2_FLAG_END_HEADERS in
    let '(p, rc) := out_frame p CHTTP_H2_FRAME_HEADERS flags sid [] in
    if negb (rc =? 0) then (proto_fail p CHTTP_H2_ERR_INTERNAL_ERROR, -1) else (p, 0)
  | Some block => headers_loop (length block) p sid block true end_stream pri
  end.

(** [out_headers] fails for want of room or memory, or it has encoded the
    headers and goes on with [send_headers]. *)
Lemma out_headers_encode p sid hdrs end_stream pri weight dep exclusive :
  proto_wf p -> Forall header_ok hdrs -> 0 <= sid <= INT32_MAX ->
  (exists q, out_headers p sid hdrs end_stream pri weight dep exclusive = (q, -1) /\
     ~ headers_room p hdrs pri weight dep) \/
  exists out hpack blk blk',
    let p2 := p <| p_out := out |> <| p_hpack := hpack |> in
    out_headers p sid hdrs end_stream pri weight dep exclusive =
      send_headers p2 sid end_stream pri exclusive dep weight blk' /\
    proto_wf p2 /\ buf_data out = buf_data (p_out p) /\
    chttp_h2_hpack_encode (p_hpack p) blk hdrs = (hpack, blk', 0) /\
    buf_wf blk /\ buf_data blk = [] /\ buf_wf blk' /\
    buf_size blk' <= 12 + fields_bound hdrs /\
    buf_max_capacity blk' = c_header_block_bytes (p_config p).
Proof.
  intros Hwf Hh Hs. unfold out_headers, headers_room, send_headers.
  destruct (proto_header_bounds p hdrs pri) as [[e w]|] eqn:Hbd;
    [|left; eexists; split; [done|by intros (_ & _ & _ & ? & ? & ? & _)]].
  apply proto_header_bounds_spec in Hbd as (-> & Hle & Hstr & Hw). cbv zeta in Hw.
  pose proof (fields_bound_nonneg hdrs) as Hfb.
  pose proof (stw_frame _ (w_peer _ Hwf)) as Hmf. unfold CHTTP_H2_DEFAULT_FRAME_BYTES in Hmf.
  set (max := st_max_frame_size (p_peer p)) in *.
  set (extra := if pri then 5 else 0) in *. assert (0 <= extra) by (subst extra; by destruct pri).
  assert (w = frames_size max (12 + fields_bound hdrs + extra)) as Hwe by (rewrite Hw; unfold frames_size; lia).
  assert (0 <= w) as Hw0.
  { rewrite Hwe. unfold frames_size.
    assert (0 <= (12 + fields_bound hdrs + extra - 1) / max) by (apply Z.div_pos; lia). lia. }
  pose proof (buffer_reserve_cases (p_out p) w (w_out _ Hwf) Hw0) as Hc1.
  pose proof (buffer_reserve_rc (p_out p) w (w_out _ Hwf) Hw0) as Hr1.
  pose proof (quiet_reserve p w Hw0) as Hq1.
  destruct (chttp_h2_hpack_buffer_reserve (p_out p) w) as [out rc1]. cbn [fst snd] in *.
  destruct Hc1 as (Hd1 & Hm1 & Hw1 & Hc1).
  set (p1 := p <| p_out := out |>) in *. pose proof (k_wf _ _ (Hq1 Hwf)) as Hwf1.
  rewrite (w_out_max _ Hwf) in *.
  destruct (Z.eqb_spec rc1 0) as [->|Hne]; cbn [negb]; cycle 1.
  { left. eexists. split; [done|]. intros (Ha & _ & _ & e' & w' & [= <- <-] & Hroom). specialize (Hr1 Ha).
    by replace (_ <=? _) with true in Hr1 by lia. }
  pose proof (cw_valid _ (w_config _ Hwf)) as Hv. unfold chttp_h2_proto_config_valid in Hv.
  assert (0 < c_header_block_bytes (p_config p) <= SIZE_MAX) as Hcap.
  { pose proof (cw_block _ (w_config _ Hwf)). bool_prop. zlia. }
  change (p_config p1) with (p_config p).
  destruct (chttp_h2_hpack_buffer_init _ (c_header_block_bytes (p_config p))) as [blk|] eqn:Hi; cycle 1.
  { left. eexists. split; [done|]. intros (Ha & _). exfalso. revert Hi. apply hpack_buffer_init_some; [done|lia|].
    split_if; lia. }
  apply hpack_buffer_init_ok in Hi as (Hbw & Hb0 & Hbm); [|split_if; lia|lia|lia].
  destruct (engine_encode p1 hdrs blk Hwf1 Hh Hbw Hbm) as (hpack & blk' & rc2 & He & Hbd & Hq2).
  rewrite He. destruct Hbd as (Hbw' & Hbm' & (bs & Hbs & Hbl) & Hrc2 & Hok). cbn [fst snd] in *.
  set (p2 := p1 <| p_hpack := hpack |>) in *. pose proof (k_wf _ _ (Hq2 Hwf1)) as Hwf2.
  assert ((forall n, malloc_ok n = true) ->
    Forall (fun hd => zlen (hd_name hd) <= 0x7fffffff /\ zlen (hd_value hd) <= 0x7fffffff) hdrs ->
    rc2 = 0) as Hrc2'.
  { intros Ha Hsz. apply Hok; [|unfold buf_size; rewrite Hb0, Hbm; change (zlen []) with 0; lia].
    split; [done|]. rewrite Forall_forall in *. intros hd Hin.
    specialize (Hsz hd Hin). specialize (Hstr hd Hin). cbn in *. tauto. }
  destruct (Z.eqb_spec rc2 0) as [->|]; cbn [negb]; cycle 1.
  { left. eexists. split; [done|]. intros (Ha & Hsz & _). by specialize (Hrc2' Ha Hsz). }
  right. exists out, hpack, blk, blk'. cbv zeta. fold p1 p2.
  split; [done|]. split_and!; try done; [|congruence].
  unfold buf_size. rewrite Hbs, Hb0. done.
Qed.

Lemma out_headers_frames p sid hdrs end_stream pri weight dep exclusive :
  proto_wf p -> Forall header_ok hdrs -> 0 <= sid <= INT32_MAX ->
  let '(q, rc) := out_headers p sid hdrs end_stream pri weight dep exclusive in
  (rc = 0 -> exists items prefix blk blk',
     buf_data (p_out q) = buf_data (p_out p) ++ wire items /\ Forall item_ok items /\
     header_frames (st_max_frame_size (p_peer p)) sid true (start_flags end_stream pri) items
       (prefix ++ buf_data blk') /\
     priority_prefix pri exclusive dep weight prefix /\
     buf_wf blk /\ buf_data blk = [] /\ is_bytes (buf_data blk') /\
     zlen (buf_data blk') <= c_header_block_bytes (p_config p) /\
     chttp_h2_hpack_encode (p_hpack p) blk hdrs = (p_hpack q, blk', 0)) /\
  (headers_room p hdrs pri weight dep -> rc = 0).
Proof.
  intros Hwf Hh Hs.
  destruct (out_headers_encode p sid hdrs end_stream pri weight dep exclusive Hwf Hh Hs)
    as [(q & -> & Hno)|(out & hpack & blk & blk' & Hp2)]; [by split|].
  cbv zeta in Hp2. destruct Hp2 as (-> & Hwf2 & Hd & He & Hbw & Hb0 & Hbw' & Hsz & Hbm').
  set (p2 := p <| p_out := out |> <| p_hpack := hpack |>) in *.
  pose proof (stw_frame _ (w_peer _ Hwf2)) as Hmf. unfold CHTTP_H2_DEFAULT_FRAME_BYTES in Hmf.
  destruct (prioritise blk' pri exclusive dep weight Hbw') as [Hp1 Hp2]. unfold send_headers.
  destruct (if pri then _ else _) as [block|]; cycle 1.
  { split; [done|]. intros (Ha & _ & Hp & _). exfalso. apply Hp2; try done. intros Hpri.
    destruct (Hp Hpri) as (? & ? & ?). split_and!; try lia. }
  destruct (Hp1 block eq_refl) as (prefix & Hpre & -> & Hzp & Hbp).
  assert (is_bytes (prefix ++ buf_data blk')) as Hbb by (apply is_bytes_app; split; [done|apply Hbw']).
  pose proof (block_frames p2 sid (prefix ++ buf_data blk') end_stream pri (w_out _ Hwf2)
    ltac:(lia) Hbb Hs) as Hbf.
  assert (pri = true -> prefix ++ buf_data blk' <> []) as Hne.
  { intros ->. destruct prefix; [done|done]. }
  specialize (Hbf Hne). set (block := prefix ++ buf_data blk') in *.
  set (r := match block with [] => _ | _ => _ end) in Hbf |- *. destruct r as [q rc].
  destruct Hbf as [H1 H2]. split.
  - intros ->. destruct (H1 eq_refl) as (Hq & _ & items & Hdq & Hhf & Hok).
    exists items, prefix, blk, blk'. split_and!; try done.
    + rewrite Hdq. change (p_out p2) with out. by rewrite Hd.
    + apply Hbw'.
    + rewrite <- Hbm'. destruct Hbw' as (_ & ? & ?). unfold buf_size in *. lia.
    + rewrite Hq. exact He.
  - intros (Ha & _ & _ & e & w & Hb & Hroom). apply H2; [done|].
    apply proto_header_bounds_spec in Hb as (-> & _ & _ & Hw). cbv zeta in Hw.
    change (p_out p2) with out. change (st_max_frame_size (p_peer p2)) with (st_max_frame_size (p_peer p)) in *.
    pose proof (w_out_max _ Hwf2) as Hom. change (p_out p2) with out in Hom. rewrite Hom.
    change (p_config p2) with (p_config p). unfold buf_size in Hroom, Hsz |- *. rewrite Hd.
    set (max := st_max_frame_size (p_peer p)) in *. set (n := 12 + fields_bound hdrs + _) in Hw.
    assert (w = frames_size max n) as -> by (rewrite Hw; unfold frames_size; lia).
    pose proof (fields_bound_nonneg hdrs) as Hfb.
    assert (zlen block <= n) as Hbn by (unfold block, n; rewrite zlen_app, Hzp; destruct pri; lia).
    assert (12 <= n) as Hn by (unfold n; destruct pri; lia).
    pose proof (frames_size_mono max _ _ ltac:(lia) Hbn) as Hmono.
    pose proof (frames_size_mono max 12 n ltac:(lia) Hn) as Hmono2.
    assert (9 <= frames_size max 12).
    { unfold frames_size. rewrite Z.div_small; lia. }
    lia.
Qed.

(** C5: Writing headers appends to the output exactly one HEADERS frame followed
    by CONTINUATION frames of the same stream, none larger than the frame size of
    the peer, END_HEADERS on the last only, END_STREAM and PRIORITY on the first
    only, whose payloads concatenate to the priority fields and the HPACK encoding
    of the fields; and it succeeds whenever the precomputed bounds fit. *)
Theorem header_block_on_wire p sid hdrs end_stream pri weight dep exclusive :
  proto_wf p -> Forall header_ok hdrs -> 0 <= sid <= INT32_MAX ->
  let '(q, rc) := out_headers p sid hdrs end_stream pri weight dep exclusive in
  (rc = 0 -> exists items prefix blk blk',
     buf_data (p_out q) = buf_data (p_out p) ++ wire items /\ Forall item_ok items /\
     header_frames (st_max_frame_size (p_peer p)) sid true (start_flags end_stream pri) items
       (prefix ++ buf_data blk') /\
     priority_prefix pri exclusive dep weight prefix /\
     buf_wf blk /\ buf_data blk = [] /\ is_bytes (buf_data blk') /\
     zlen (buf_data blk') <= c_header_block_bytes (p_config p) /\
     chttp_h2_hpack_encode (p_hpack p) blk hdrs = (p_hpack q, blk', 0)) /\
  (headers_room p hdrs pri weight dep -> rc = 0).
Proof. apply out_headers_frames. Qed.

End Sender.

(** ** Decoding for an application *)

(** A decoder that calls [cb] runs like the one that records the headers. *)
Section Replay.
Context {alloc : Allocator} {X : Type} (cb : X -> list Z -> list Z -> X * Z) (max : Z).
Hypothesis cb_accepts : forall x name value, (cb x name value).2 = 0.

Definition replay_step (x : X) (hdr : chttp_h2_hpack_header) : X :=
  (cb x (hd_name hdr) (hd_value hdr)).1.

Definition replay (x : X) (s : dec_state (list chttp_h2_hpack_header)) : dec_state X :=
  {| ds_h := ds_h s; ds_user := fold_left replay_step (ds_user s) x;
     ds_list_bytes := ds_list_bytes s; ds_too_large := ds_too_large s |}.

Definition replay_next (x : X) (n : dec_next (list chttp_h2_hpack_header)) : dec_next X :=
  match n with
  | DecStop s rc => DecStop (replay x s) rc
  | DecMore s input => DecMore (replay x s) input
  end.

Lemma replay_deliver x s name value :
  decode_deliver (Some cb) max (replay x s) name value =
  let '(s, aborted) := decode_deliver (Some record_cb) max s name value in (replay x s, aborted).
Proof.
  unfold decode_deliver, replay. destruct s as [h u lb tl]. cbn.
  destruct tl; cbn; [done|].
  destruct (hpack_add_header_list_size _ _ _ _) as [n|]; cbn; [|done].
  pose proof (cb_accepts (fold_left replay_step u x) name value) as Ha.
  assert (fold_left replay_step (u ++ [{| hd_name := name; hd_value := value |}]) x =
          (cb (fold_left replay_step u x) name value).1) as -> by (by rewrite fold_left_app).
  destruct (cb _ name value) as [x' rc]. cbn in *. by subst rc.
Qed.

Lemma replay_field x s b input :
  decode_field (Some cb) max (replay x s) b input =
  replay_next x (decode_field (Some record_cb) max s b input).
Proof.
  unfold decode_field. change (ds_h (replay x s)) with (ds_h s).
  split_if; [|split_if; [|split_if]].
  - destruct (hpack_get_int input 7) as [[idx rest]|]; [|done].
    destruct (table_get (ds_h s) idx) as [[name value]|]; [|done]. rewrite replay_deliver.
    destruct (decode_deliver (Some record_cb) max s name value) as [s' ab]. by destruct ab.
  - destruct (decode_literal (ds_h s) input 6) as [[[name value] rest]|]; [|done].
    rewrite replay_deliver.
    destruct (decode_deliver (Some record_cb) max s name value) as [s' ab]. destruct ab; [done|].
    change (ds_h (replay x s')) with (ds_h s').
    destruct (dyn_table_add _ _ _) as [d rc]. by destruct (negb (rc =? 0)).
  - destruct (hpack_get_int input 5) as [[n rest]|]; [|done].
    destruct (chttp_h2_hpack_decoder_table_size_update _ _) as [h rc]. by destruct (negb (rc =? 0)).
  - destruct (decode_literal (ds_h s) input 4) as [[[name value] rest]|]; [|done].
    rewrite replay_deliver.
    destruct (decode_deliver (Some record_cb) max s name value) as [s' ab]. by destruct ab.
Qed.

Lemma replay_loop x fuel : forall s input,
  decode_loop (Some cb) max fuel (replay x s) input =
  (fun r => (replay x r.1, r.2)) <$> decode_loop (Some record_cb) max fuel s input.
Proof.
  induction fuel as [|fuel IH]; intros s [|b input]; cbn [decode_loop]; try done.
  rewrite replay_field. destruct (decode_field (Some record_cb) max s b (b :: input)); cbn; [done|].
  apply IH.
Qed.

Lemma replay_decode x h input :
  chttp_h2_hpack_decode (Some cb) max h x input =
  (fun r => let '(h, hdrs, rc, n) := r in (h, fold_left replay_step hdrs x, rc, n)) <$>
    chttp_h2_hpack_decode (Some record_cb) max h [] input.
Proof.
  unfold chttp_h2_hpack_decode. split_if; [done|].
  change {| ds_h := h; ds_user := x; ds_list_bytes := 0; ds_too_large := false |}
    with (replay x {| ds_h := h; ds_user := []; ds_list_bytes := 0; ds_too_large := false |}).
  rewrite replay_loop. destruct (decode_loop _ _ _ _ _) as [[s rc]|]; done.
Qed.

End Replay.

(** The size of a list of headers, as SETTINGS_MAX_HEADER_LIST_SIZE counts. *)
Fixpoint header_list_size (hdrs : list chttp_h2_hpack_header) : Z :=
  match hdrs with
  | [] => 0
  | hd :: hdrs => zlen (hd_name hd) + zlen (hd_value hd) + 32 + header_list_size hdrs
  end.

Lemma delivered_fits max hdrs : forall used,
  max = 0 \/ used + header_list_size hdrs <= max -> delivered max used hdrs = (hdrs, false).
Proof.
  induction hdrs as [|hd hdrs IH]; intros used H; cbn [delivered header_list_size] in *; [done|].
  assert (0 <= header_list_size hdrs) as Hn.
  { clear. induction hdrs as [|x l IH]; cbn; [done|].
    pose proof (zlen_nonneg (hd_name x)). pose proof (zlen_nonneg (hd_value x)). lia. }
  replace ((max =? 0) || _) with true by lia. rewrite IH by lia. done.
Qed.

(** ** The receiving engine *)

Section Receiver.
Context {alloc : Allocator} {U : Type} {app : Application U}.
Implicit Types p q r : chttp_h2_proto U.

(** Hand a frame to an engine, as its input loop does. *)
Definition dispatch_item r (it : wire_item) : chttp_h2_proto U :=
  match it with
  | WPreface => r
  | WFrame type flags stream_id payload =>
    proto_dispatch r payload
      {| fh_length := zlen payload; fh_type := type; fh_flags := flags;
         fh_stream_id := stream_id |}
  end.

(** The engine is within the header block of stream [sid] and has room for
    [n] more bytes of it. *)
Record in_block r (sid n : Z) : Prop := {
  ib_settings : p_peer_settings_received r = true;
  ib_headers : p_in_headers r = true;
  ib_stream : p_in_headers_stream r = sid;
  ib_wf : buf_wf (p_in_block r);
  ib_room : buf_size (p_in_block r) + n <= buf_max_capacity (p_in_block r);
}.

Hypothesis serves : forall n, malloc_ok n = true.

(** Adding bytes to the block. *)
Lemma block_append b payload :
  buf_wf b -> is_bytes payload -> buf_size b + zlen payload <= buf_max_capacity b ->
  exists b', chttp_h2_hpack_buffer_reserve b (zlen payload) = (b', 0) /\
    buf_wf (buf_append b' payload) /\ buf_max_capacity b' = buf_max_capacity b /\
    buf_data (buf_append b' payload) = buf_data b ++ payload.
Proof.
  intros Hwf Hb Hfit.
  pose proof (buffer_reserve_cases b (zlen payload) Hwf (zlen_nonneg _)) as Hc.
  pose proof (buffer_reserve_rc b (zlen payload) Hwf (zlen_nonneg _) serves) as Hrc.
  destruct (chttp_h2_hpack_buffer_reserve b (zlen payload)) as [b' rc]. cbn [snd] in Hrc.
  replace (_ <=? _) with true in Hrc by lia. subst rc.
  destruct Hc as (Hd & Hm & Hw & [[_ Hcap]|[? _]]); [|done].
  exists b'. split; [done|]. split_and!; [|done|cbn; by rewrite Hd].
  apply buf_wf_append; [done|done|]. unfold buf_size in *. rewrite Hd. lia.
Qed.

Lemma continuation_dispatch r sid payload flags n :
  0 < sid <= INT32_MAX -> is_bytes payload -> in_block r sid (zlen payload + n) -> 0 <= n ->
  exists b, buf_data b = buf_data (p_in_block r) ++ payload /\
    let r' := r <| p_in_block := b |> in in_block r' sid n /\
    dispatch_item r (WFrame CHTTP_H2_FRAME_CONTINUATION flags sid payload) =
      if has_flag flags CHTTP_H2_FLAG_END_HEADERS then proto_finish_headers r' else r'.
Proof.
  intros Hs Hb [Hset Hin Hst Hwf Hroom] Hn.
  destruct (block_append (p_in_block r) payload Hwf Hb ltac:(lia)) as (b' & Hr & Hwa & Hm & Hd).
  exists (buf_append b' payload). split; [done|]. cbv zeta. split.
  - split; try done. cbn. unfold buf_size in *. rewrite Hd, zlen_app. cbn. lia.
  - cbn [dispatch_item]. unfold proto_dispatch. cbn [fh_type fh_flags]. rewrite Hset, Hin.
    cbn [negb andb Z.eqb Pos.eqb CHTTP_H2_FRAME_CONTINUATION CHTTP_H2_FRAME_SETTINGS
      CHTTP_H2_FRAME_WINDOW_UPDATE CHTTP_H2_FRAME_RST_STREAM CHTTP_H2_FRAME_GOAWAY
      CHTTP_H2_FRAME_PING CHTTP_H2_FRAME_DATA CHTTP_H2_FRAME_HEADERS].
    unfold dispatch_continuation. cbn [fh_stream_id fh_length fh_flags].
    rewrite i32_id by zlia. rewrite Hin, Hst. replace (sid =? 0) with false by lia.
    rewrite Z.eqb_refl. cbn [orb negb]. rewrite Hr. cbn [Z.eqb negb]. done.
Qed.

(** The frames after the first complete the block. *)
Lemma continuation_frames max sid first flags items block :
  header_frames max sid first flags items block -> 0 < sid <= INT32_MAX ->
  first = false -> flags = 0 -> is_bytes block -> forall r, in_block r sid (zlen block) ->
  exists b, buf_data b = buf_data (p_in_block r) ++ block /\ buf_wf b /\
    fold_left dispatch_item items r = proto_finish_headers (r <| p_in_block := b |>).
Proof.
  intros Hf Hs. induction Hf as [first flags block Hle|first flags payload items block Hle Hf IH];
    intros -> -> Hb r Hin.
  - destruct (continuation_dispatch r sid block (Z.lor 0 CHTTP_H2_FLAG_END_HEADERS) 0 Hs Hb)
      as (b & Hd & Hr & He); [by rewrite Z.add_0_r|done|].
    exists b. split_and!; [done|apply (ib_wf _ _ _ Hr)|]. cbn [fold_left]. exact He.
  - apply is_bytes_app in Hb as [Hp Hb]. rewrite zlen_app in Hin.
    destruct (continuation_dispatch r sid payload 0 (zlen block) Hs Hp Hin (zlen_nonneg _))
      as (b & Hd & Hr & He).
    destruct (IH eq_refl eq_refl Hb _ Hr) as (b' & Hd' & Hw' & He'). cbn in Hd'.
    exists b'. split_and!; [by rewrite Hd', Hd, app_assoc|done|].
    cbn [fold_left]. rewrite He. exact He'.
Qed.

(** The engine takes HEADERS of stream [sid] as those of an open stream, which
    it finds or registers: [r'] is the engine after that. *)
Record accepts_headers r (sid : Z) r' (i : nat) : Prop := {
  ah_settings : p_peer_settings_received r = true;
  ah_idle : p_in_headers r = false;
  ah_reset : proto_local_reset_contains r sid = false;
  ah_stream : headers_stream r
                {| fh_length := 0; fh_type := CHTTP_H2_FRAME_HEADERS; fh_flags := 0;
                   fh_stream_id := sid |} false = (r', Some i, false);
  ah_open : s_closed (stream_at r' i) = false;
  ah_remote : s_remote_end_stream (stream_at r' i) = false;
}.

(** Registering a stream leaves the header state alone. *)
Lemma headers_stream_keeps r hdr r' slot :
  headers_stream r hdr false = (r', slot, false) ->
  p_peer_settings_received r' = p_peer_settings_received r /\ p_in_block r' = p_in_block r /\
  p_hpack r' = p_hpack r /\ p_user r' = p_user r /\ p_local r' = p_local r /\
  p_local_reset_ids r' = p_local_reset_ids r /\ slot = proto_find r' (i32 (fh_stream_id hdr)).
Proof.
  unfold headers_stream. destruct (proto_find r (i32 (fh_stream_id hdr))) as [i|] eqn:Hf.
  { intros [= <- <-]. by rewrite Hf. }
  destruct (is_server (p_mode r) && negb false); [|intros [= <- <-]; by rewrite Hf].
  split_if; [done|]. split_if; [done|].
  destruct (proto_new_stream r _ 0) as [r1 [j|]] eqn:Hn; [|done]. intros [= <- <-].
  assert (p_peer_settings_received r1 = p_peer_settings_received r /\ p_in_block r1 = p_in_block r /\
    p_hpack r1 = p_hpack r /\ p_user r1 = p_user r /\ p_local r1 = p_local r /\
    p_local_reset_ids r1 = p_local_reset_ids r) as Hkeep; [|by destruct Hkeep as (?&?&?&?&?&?)].
  revert Hn. unfold proto_new_stream. destruct (list_find _ _) as [[k sk]|].
  - intros [= <- _]. by split_if.
  - split_if; [done|]. intros [= <- _]. by split_if.
Qed.

Lemma headers_payload_plain payload flags :
  has_flag flags CHTTP_H2_FLAG_PADDED = false -> has_flag flags CHTTP_H2_FLAG_PRIORITY = false ->
  chttp_h2_frame_headers_payload payload flags =
    Ok {| hp_block := payload; hp_priority := None |}.
Proof.
  intros H1 H2. unfold chttp_h2_frame_headers_payload. rewrite H1, H2.
  rewrite !Z.sub_0_r. change (zdrop 0 payload) with payload. by rewrite ztake_all.
Qed.

(** The engine that has started the block of [sid]. *)
Definition started r (sid : Z) (end_stream : bool) (b : chttp_h2_hpack_buffer) : chttp_h2_proto U :=
  r <| p_in_headers := true |> <| p_in_headers_stream := sid |>
    <| p_in_headers_end_stream := end_stream |> <| p_in_block := b |>.

Lemma headers_dispatch r sid r' i end_stream last payload n :
  accepts_headers r sid r' i -> 0 < sid <= INT32_MAX -> is_bytes payload -> 0 <= n ->
  buf_wf (p_in_block r) -> zlen payload + n <= buf_max_capacity (p_in_block r) ->
  let flags := if last : bool then Z.lor (start_flags end_stream false) CHTTP_H2_FLAG_END_HEADERS
               else start_flags end_stream false in
  exists b, buf_data b = payload /\ in_block (started r' sid end_stream b) sid n /\
    dispatch_item r (WFrame CHTTP_H2_FRAME_HEADERS flags sid payload) =
      if last then proto_finish_headers (started r' sid end_stream b)
      else started r' sid end_stream b.
Proof.
  intros [Hset Hidle Hres Hstr Hop Hrem] Hs Hb Hn Hwf Hroom flags.
  destruct (headers_stream_keeps _ _ _ _ Hstr) as (K1 & K2 & _).
  pose proof (buf_wf_empty _ Hwf) as Hwe.
  destruct (block_append ((p_in_block r) <| buf_data := [] |>) payload Hwe Hb)
    as (b' & Hr & Hwa & Hm & Hd).
  { change (buf_size ((p_in_block r) <| buf_data := [] |>)) with 0. cbn. lia. }
  exists (buf_append b' payload). split; [exact Hd|]. split.
  { split; [exact (eq_trans K1 Hset)|reflexivity|reflexivity|exact Hwa|]. cbn. unfold buf_size. cbn [buf_append buf_data] in *.
    rewrite Hd. cbn. rewrite Hm. cbn. lia. }
  cbn [dispatch_item]. unfold proto_dispatch. cbn [fh_type fh_flags]. rewrite Hset, Hidle.
  cbn [negb andb Z.eqb Pos.eqb CHTTP_H2_FRAME_CONTINUATION CHTTP_H2_FRAME_SETTINGS
    CHTTP_H2_FRAME_WINDOW_UPDATE CHTTP_H2_FRAME_RST_STREAM CHTTP_H2_FRAME_GOAWAY
    CHTTP_H2_FRAME_PING CHTTP_H2_FRAME_DATA CHTTP_H2_FRAME_HEADERS].
  unfold dispatch_headers. cbn [fh_stream_id fh_length fh_flags].
  replace (sid =? 0) with false by lia. rewrite Hidle.
  assert (chttp_h2_frame_headers_payload payload flags =
    Ok {| hp_block := payload; hp_priority := None |}) as ->.
  { unfold flags. destruct last, end_stream; by apply headers_payload_plain. }
  cbn [hp_block]. rewrite i32_id by zlia. rewrite Hres.
  change (headers_stream r _ false) with (headers_stream r
    {| fh_length := 0; fh_type := CHTTP_H2_FRAME_HEADERS; fh_flags := 0; fh_stream_id := sid |} false).
  rewrite Hstr. cbv zeta. rewrite Hop, Hrem. cbn [negb andb orb].
  match goal with |- context [chttp_h2_hpack_buffer_reserve ?x ?y] =>
    change x with ((p_in_block r') <| buf_data := [] |>) end.
  rewrite K2, Hr. cbn [Z.eqb negb].
  unfold flags. by destruct last, end_stream.
Qed.

(** The frames of a block bring the engine to [proto_finish_headers]. *)
Lemma frames_assemble r sid r' i end_stream max items block :
  accepts_headers r sid r' i -> 0 < sid <= INT32_MAX -> is_bytes block ->
  buf_wf (p_in_block r) -> zlen block <= buf_max_capacity (p_in_block r) ->
  header_frames max sid true (start_flags end_stream false) items block ->
  exists b, buf_data b = block /\
    fold_left dispatch_item items r = proto_finish_headers (started r' sid end_stream b).
Proof.
  intros Ha Hs Hb Hwf Hroom Hf. inversion Hf; subst.
  - destruct (headers_dispatch r sid r' i end_stream true block 0 Ha Hs Hb ltac:(lia) Hwf ltac:(lia))
      as (b & Hd & _ & He). exists b. split; [done|]. exact He.
  - apply is_bytes_app in Hb as [Hp Hb]. rewrite zlen_app in Hroom.
    destruct (headers_dispatch r sid r' i end_stream false payload (zlen block0) Ha Hs Hp
      (zlen_nonneg _) Hwf Hroom) as (b & Hd & Hin & He).
    match goal with H : header_frames _ _ false _ _ _ |- _ =>
      destruct (continuation_frames _ _ _ _ _ _ H Hs eq_refl eq_refl Hb _ Hin)
        as (b' & Hd' & _ & He') end.
    exists b'. split; [rewrite Hd'; cbn; by rewrite Hd|]. cbn [fold_left].
    rewrite He. exact He'.
Qed.

(** What the application makes of the start of a block and of its headers. *)
Definition begins (u : U) (sid : Z) : U :=
  match on_begin_headers U cbs with Some f => (f u sid).1 | None => u end.

Definition hears (u : U) (sid : Z) (hdrs : list chttp_h2_hpack_header) : U :=
  fold_left (fun u hd => match on_header U cbs with
                         | Some f => (f u sid (hd_name hd) (hd_value hd)).1
                         | None => u
                         end) hdrs u.

(** The application takes every header of the stream. *)
Definition agreeable (sid : Z) : Prop :=
  (forall u f, on_begin_headers U cbs = Some f -> (f u sid).2 = 0) /\
  (forall u f name value, on_header U cbs = Some f -> (f u sid name value).2 = 0).

Definition listening (u : U) : chttp_h2_header_context U :=
  {| x_user := u; x_ignore := false; x_callback_failed := false |}.

Lemma hears_replay sid hdrs : agreeable sid -> forall u,
  fold_left (replay_step (chttp_h2_header_decode sid)) hdrs (listening u) =
  listening (hears u sid hdrs).
Proof.
  intros [_ Hh]. induction hdrs as [|hd hdrs IH]; intros u; [done|].
  unfold hears. cbn [fold_left]. fold (hears (match on_header U cbs with
    | Some f => (f u sid (hd_name hd) (hd_value hd)).1 | None => u end) sid hdrs).
  rewrite <- IH. f_equal. unfold replay_step, chttp_h2_header_decode. cbn [x_ignore listening].
  destruct (on_header U cbs) as [f|] eqn:Hf; [|done].
  pose proof (Hh u f (hd_name hd) (hd_value hd) eq_refl) as H0.
  change (x_user (listening u)) with u.
  destruct (f u sid (hd_name hd) (hd_value hd)) as [u' rc]. cbn in H0. by subst rc.
Qed.

(** An engine whose decoder is in step with the encoder [he] reads its block. *)
Lemma decode_block r he blk hdrs he' blk' sid u :
  hpack_wf he -> proto_wf r -> synced he (p_hpack r) ->
  h_max_dynamic_table_bytes he <= h_max_dynamic_table_bytes (p_hpack r) ->
  Forall (header_fits (p_hpack r)) hdrs ->
  st_max_header_list_size (p_local r) = 0 \/
    header_list_size hdrs <= st_max_header_list_size (p_local r) ->
  buf_wf blk -> buf_data blk = [] -> chttp_h2_hpack_encode he blk hdrs = (he', blk', 0) ->
  zlen (buf_data blk') <= c_header_block_bytes (p_config r) -> agreeable sid ->
  exists hd', synced he' hd' /\ hpack_wf hd' /\
    chttp_h2_hpack_decode (Some (chttp_h2_header_decode sid)) (st_max_header_list_size (p_local r))
      (p_hpack r) (listening u) (buf_data blk') =
    Some (hd', listening (hears u sid hdrs), 0, zlen (buf_data blk')).
Proof.
  intros Hwe Hwf Hsy Hdyn Hfit Hls Hbw Hb0 He Hlen Hag.
  pose proof (stw_list _ (w_local _ Hwf)) as Hml.
  rewrite <- (w_block _ Hwf) in Hlen.
  destruct (hpack_encode_decode serves (st_max_header_list_size (p_local r)) he (p_hpack r) blk hdrs
    he' blk' Hwe (w_hpack _ Hwf) Hsy Hdyn Hfit Hbw Hb0 ltac:(zlia) He Hlen)
    as (hd' & Hdec & _ & Hwd & _ & Hs').
  rewrite (delivered_fits (st_max_header_list_size (p_local r)) hdrs 0 ltac:(lia)) in Hdec. cbn [fst snd] in Hdec.
  exists hd'. split_and!; [done|done|].
  rewrite replay_decode, Hdec; [cbn; by rewrite hears_replay|].
  intros x name value. unfold chttp_h2_header_decode. split_if; [done|].
  destruct (on_header U cbs) as [f|]; [|done].
  destruct (f (x_user x) sid name value) as [u' rc']. by destruct (negb (rc' =? 0)).
Qed.

Lemma finish_decode r sid u0 hd' u n :
  p_in_headers_stream r = sid -> p_user r = u0 -> agreeable sid ->
  chttp_h2_hpack_decode (Some (chttp_h2_header_decode sid)) (st_max_header_list_size (p_local r))
    (p_hpack r) (listening (begins u0 sid)) (buf_data (p_in_block r)) =
    Some (hd', listening u, 0, n) ->
  finish_headers_decode r false = (r <| p_hpack := hd' |> <| p_user := u |>, listening u, 0).
Proof.
  intros Hst Hu [Hbeg _] Hdec. unfold finish_headers_decode. cbn [x_ignore x_user x_callback_failed].
  rewrite Hst, Hu. unfold begins in Hdec. destruct (on_begin_headers U cbs) as [f|] eqn:Hf.
  - pose proof (Hbeg u0 f eq_refl) as H0. destruct (f u0 sid) as [u1 rc]. cbn in H0. subst rc.
    cbn [Z.eqb negb fst] in *. unfold listening in Hdec at 1. by rewrite Hdec.
  - unfold listening in Hdec at 1. by rewrite Hdec.
Qed.

(** What the engine does once the block was decoded without error. *)
Definition conclude r (i : nat) (u : U) : chttp_h2_proto U :=
  let r := finish_headers_end_stream r (Some i) false in
  let r := finish_headers_outcome r (Some i) (listening u) false CHTTP_H2_ERR_NO_ERROR in
  r <| p_in_headers := false |> <| p_in_block := (p_in_block r) <| buf_data := [] |> |>.

(** A block that decodes without error, on a stream that was not reset. *)
Lemma finish_headers_ok r sid i u r3 :
  p_in_headers_stream r = sid -> proto_find r sid = Some i ->
  s_closed (stream_at r i) = false -> proto_local_reset_contains r sid = false ->
  finish_headers_decode r false = (r3, listening u, 0) ->
  proto_finish_headers r = conclude r3 i u.
Proof.
  intros Hst Hf Hop Hres Hdec. unfold proto_finish_headers, conclude. cbv zeta.
  rewrite Hst, Hf, Hop, Hres. cbn [andb orb]. rewrite Hdec. reflexivity.
Qed.

(** C2: The header block that one engine writes for a stream, cut into HEADERS and
    CONTINUATION frames, makes a receiving engine with a matching HPACK context
    call its application exactly once per header field, in order and with the same
    names and values, ends in the state after the end-of-headers processing, and
    leaves the two HPACK contexts in step. *)
Theorem headers_delivered p r sid hdrs end_stream q r' i :
  proto_wf p -> proto_wf r -> Forall (header_fits (p_hpack r)) hdrs ->
  0 < sid <= INT32_MAX -> synced (p_hpack p) (p_hpack r) ->
  h_max_dynamic_table_bytes (p_hpack p) <= h_max_dynamic_table_bytes (p_hpack r) ->
  c_header_block_bytes (p_config p) <= c_header_block_bytes (p_config r) ->
  st_max_header_list_size (p_local r) = 0 \/
    header_list_size hdrs <= st_max_header_list_size (p_local r) ->
  accepts_headers r sid r' i -> agreeable sid ->
  out_headers p sid hdrs end_stream false 0 0 false = (q, 0) ->
  let u := hears (begins (p_user r) sid) sid hdrs in
  exists items r3,
    buf_data (p_out q) = buf_data (p_out p) ++ wire items /\
    fold_left dispatch_item items r = conclude r3 i u /\
    p_user r3 = u /\ p_streams r3 = p_streams r' /\
    p_in_headers_stream r3 = sid /\ p_in_headers_end_stream r3 = end_stream /\
    synced (p_hpack q) (p_hpack r3).
Proof.
  intros Hwp Hwr Hfit Hs Hsy Hdyn Hblk Hls Hacc Hag Hout u.
  assert (Forall header_ok hdrs) as Hh by (eapply Forall_impl; [exact Hfit|]; by intros ? (? & _)).
  pose proof (out_headers_frames p sid hdrs end_stream false 0 0 false Hwp Hh ltac:(lia)) as Hof.
  rewrite Hout in Hof. destruct Hof as [Hof _].
  destruct (Hof eq_refl) as (items & prefix & blk & blk' & Hd & _ & Hhf & -> & Hbw & Hb0 & Hby & Hbl & He).
  change ([] ++ buf_data blk') with (buf_data blk') in Hhf.
  destruct (frames_assemble r sid r' i end_stream (st_max_frame_size (p_peer p)) items (buf_data blk') Hacc Hs Hby
    (w_in_block _ Hwr)) as (b & Hb & Hfold); [rewrite (w_in_block_max _ Hwr); lia|done|].
  destruct (headers_stream_keeps _ _ _ _ (ah_stream _ _ _ _ Hacc)) as (_ & _ & K3 & K4 & K5 & K6 & K7).
  cbn [fh_stream_id] in K7. rewrite i32_id in K7 by zlia.
  destruct (decode_block r (p_hpack p) blk hdrs (p_hpack q) blk' sid (begins (p_user r) sid)
    (w_hpack _ Hwp) Hwr Hsy Hdyn Hfit Hls Hbw Hb0 He ltac:(lia) Hag) as (hd' & Hsy' & _ & Hdec).
  set (s := started r' sid end_stream b) in *.
  assert (finish_headers_decode s false = (s <| p_hpack := hd' |> <| p_user := u |>, listening u, 0))
    as Hfd.
  { apply (finish_decode s sid (p_user r) hd' u (zlen (buf_data blk'))); [done|exact K4|done|].
    change (p_local s) with (p_local r'). change (p_hpack s) with (p_hpack r').
    change (p_in_block s) with b. rewrite K3, K5, Hb. exact Hdec. }
  exists items, (s <| p_hpack := hd' |> <| p_user := u |>).
  split_and!; try done. rewrite Hfold.
  apply (finish_headers_ok s sid); [done|by symmetry|apply Hacc| |exact Hfd].
  pose proof (ah_reset _ _ _ _ Hacc) as Hres. unfold proto_local_reset_contains in *.
  change (p_local_reset_ids s) with (p_local_reset_ids r'). by rewrite K6.
Qed.

End Receiver.

End H2ProtoHeaders.
