(* ===== verification/H2ProtoBody.v ===== *)
(** * HTTP/2 engine: bodies in DATA frames

    [proto_emit_data] cuts the body of a stream into DATA frames: the frames
    carry the bytes of the body in order, none is empty or larger than the peer
    allows, and the loop stops before the end of the body only when a window or
    the output buffer is exhausted, or memory.  The last frame ends the stream,
    or the trailers do that follow it; when the peer has ended its side too, the
    stream closes, and the application hears of it. *)

From S2P Require Import Prelude H2Frame HpackBuffer HpackTables HpackHuffman HpackTable Hpack.
From S2P Require Import HpackSync HpackBound H2Proto H2ProtoSend H2ProtoSubmit H2ProtoRecv.
From S2P Require Import H2ProtoInv H2ProtoOut H2ProtoQuiet H2ProtoFlow.

Module H2ProtoBody.
Import H2Frame HpackBuffer HpackTables HpackHuffman HpackTable Hpack HpackSync HpackBound.
Import H2Proto H2ProtoSend H2ProtoSubmit H2ProtoRecv H2ProtoInv H2ProtoOut H2ProtoQuiet H2ProtoFlow.

Section Body.
Context {alloc : Allocator} {U : Type} {app : Application U} {law : LawfulApplication U app}.
Implicit Types p q : chttp_h2_proto U.

(** Slot [i] has part of [body] still to send. *)
Record sending p (i : nat) (body : list Z) : Prop := {
  sd_wf : proto_wf p;
  sd_open : s_closed (stream_at p i) = false;
  sd_source : s_source (stream_at p i) = None;
  sd_body : s_body (stream_at p i) = Some body;
  sd_unended : s_end_stream_sent (stream_at p i) = false;
  sd_rest : s_body_off (stream_at p i) < zlen body;
}.

(** Why nothing can be sent. *)
Definition blocked p (i : nat) : Prop :=
  p_conn_send_window p <= 0 \/ s_send_window (stream_at p i) <= 0 \/
  c_output_buffer_bytes (p_config p) - buf_size (p_out p) <= CHTTP_H2_FRAME_HEADER_SIZE.

(** The stream after [n] bytes. *)
Definition progressed (s : chttp_h2_proto_stream) (n : Z) : chttp_h2_proto_stream :=
  s <| s_send_window := s_send_window s - n |> <| s_body_off := s_body_off s + n |>.

(** The flag of the last frame; trailers end the stream themselves. *)
Definition end_flag (s : chttp_h2_proto_stream) (rest : list Z) : Z :=
  match rest with
  | [] => if s_body_eof s && negb (s_trailers_pending s) then CHTTP_H2_FLAG_END_STREAM else 0
  | _ => 0
  end.

(** The stream when its body was sent: it waits for more, or has ended its side,
    with the trailers gone. *)
Definition drop_body (s : chttp_h2_proto_stream) : chttp_h2_proto_stream := s <| s_body := None |> <| s_body_off := 0 |>.

Definition end_stream (s : chttp_h2_proto_stream) : chttp_h2_proto_stream :=
  clear_body
    ((if s_trailers_pending s
      then s <| s_trailers_pending := false |> <| s_trailers := chttp_h2_hpack_buffer_destroy (s_trailers s) |> else s)
       <| s_end_stream_sent := true |>).

Definition close_slot (s : chttp_h2_proto_stream) : chttp_h2_proto_stream :=
  s <| s_closed := true |> <| s_body := None |> <| s_body_off := 0 |>.

Lemma slot_in_range p i : s_body (stream_at p i) <> None -> (i < length (p_streams p))%nat.
Proof.
  intros H. destruct (nth_lookup_or_length (p_streams p) i (stream_zero 0)) as [Hl|Hl].
  - by eapply lookup_lt_Some.
  - unfold stream_at in H. by rewrite nth_overflow in H.
Qed.

Lemma stream_at_upd p i f :
  (i < length (p_streams p))%nat -> stream_at (upd_stream p i f) i = f (stream_at p i).
Proof.
  intros Hi. destruct (lookup_lt_is_Some_2 _ _ Hi) as [s Hs]. unfold stream_at, upd_stream. cbn.
  rewrite (nth_lookup_Some _ _ _ s Hs). apply nth_lookup_Some. by rewrite list_lookup_alter_eq, Hs.
Qed.

Lemma sending_stream p i body :
  sending p i body ->
  stream_wf (stream_at p i) /\ is_bytes body /\ 0 <= s_body_off (stream_at p i) < zlen body.
Proof.
  intros [Hwf _ _ Hb _ Hr]. assert (s_body (stream_at p i) <> None) as Hn by congruence.
  pose proof (stream_at_wf p i Hwf (or_intror Hn)) as Hs. pose proof (sw_body _ Hs) as Hoff.
  rewrite Hb in Hoff. destruct Hoff as [Hby Hoff]. by split_and!; try lia.
Qed.

Lemma blocked_round p i body : sending p i body -> blocked p i -> emit_round p i = EmitReturn p.
Proof.
  intros [Hwf Hop Hsrc Hb Hes Hr] Hbl. unfold emit_round. rewrite Hop, Hsrc, Hb.
  pose proof (w_out _ Hwf) as (_ & Hsz & _). pose proof (w_out_max _ Hwf) as Hom.
  replace (c_output_buffer_bytes (p_config p) <? buf_size (p_out p)) with false by lia.
  destruct (sending_stream p i body) as (_ & _ & Hoff); [by split|].
  replace (zlen body =? 0) with false by lia. rewrite andb_false_r. cbn [andb].
  destruct ((p_conn_send_window p <=? 0) || (s_send_window (stream_at p i) <=? 0)) eqn:Hw; [done|].
  bool_prop. destruct Hbl as [|[|Hroom]]; [lia|lia|].
  by replace (_ <=? CHTTP_H2_FRAME_HEADER_SIZE) with true by lia.
Qed.

(** The size of the next DATA frame. *)
Definition next_chunk p (i : nat) (body : list Z) : Z :=
  window_chunk p (stream_at p i)
    (cap_at (zlen body - s_body_off (stream_at p i))
       (cap_at (st_max_frame_size (p_peer p))
          (c_output_buffer_bytes (p_config p) - buf_size (p_out p) - CHTTP_H2_FRAME_HEADER_SIZE))).

Lemma cap_at_min a b : cap_at a b = Z.min a b.
Proof. unfold cap_at. split_if; lia. Qed.

Lemma next_chunk_bounds p i body :
  sending p i body -> ~ blocked p i ->
  0 < next_chunk p i body <= st_max_frame_size (p_peer p) /\
  next_chunk p i body <= zlen body - s_body_off (stream_at p i) /\
  next_chunk p i body <= p_conn_send_window p /\
  next_chunk p i body <= s_send_window (stream_at p i) /\
  buf_size (p_out p) + 9 + next_chunk p i body <= c_output_buffer_bytes (p_config p).
Proof.
  intros Hsd Hnb. destruct (sending_stream p i body Hsd) as (_ & _ & Hoff). unfold blocked in Hnb.
  pose proof (w_send_chunk _ (sd_wf _ _ _ Hsd)) as Hsc.
  pose proof (stw_frame _ (w_peer _ (sd_wf _ _ _ Hsd))) as Hmf.
  unfold next_chunk, window_chunk, CHTTP_H2_FRAME_HEADER_SIZE, CHTTP_H2_DEFAULT_FRAME_BYTES in *.
  rewrite !cap_at_min. set (avail := Z.min (zlen body - _) _).
  assert (0 < avail) as Ha by (unfold avail; lia).
  set (c := if _ && _ then _ else avail).
  assert (0 < c <= avail) as Hc.
  { unfold c. destruct (Z.eqb_spec (p_send_chunk p) 0); cbn [negb andb]; [lia|].
    destruct (Z.ltb_spec (p_send_chunk p) avail); lia. }
  unfold avail in *. lia.
Qed.

(** A round with room is the flat body branch. *)
Lemma open_round p i body :
  sending p i body -> ~ blocked p i ->
  emit_round p i = emit_body p i
    (cap_at (st_max_frame_size (p_peer p))
       (c_output_buffer_bytes (p_config p) - buf_size (p_out p) - CHTTP_H2_FRAME_HEADER_SIZE)).
Proof.
  intros Hsd Hnb. destruct (sending_stream p i body Hsd) as (_ & _ & Hoff).
  destruct Hsd as [Hwf Hop Hsrc Hb Hes Hr]. unfold blocked in Hnb. unfold emit_round.
  rewrite Hop, Hsrc, Hb.
  pose proof (w_out _ Hwf) as (_ & Hsz & _). pose proof (w_out_max _ Hwf) as Hom.
  replace (c_output_buffer_bytes (p_config p) <? buf_size (p_out p)) with false by lia.
  replace (zlen body =? 0) with false by lia. rewrite andb_false_r. cbn [andb].
  replace ((p_conn_send_window p <=? 0) || _) with false by lia.
  by replace (_ <=? CHTTP_H2_FRAME_HEADER_SIZE) with false by lia.
Qed.

(** The flags of the frame, as the code computes them. *)
Lemma data_flags p i body chunk rest :
  sending p i body -> zdrop (s_body_off (stream_at p i)) body = chunk ++ rest ->
  (if (s_body_off (stream_at p i) + zlen chunk =? zlen body) && s_body_eof (stream_at p i) &&
      negb (s_trailers_pending (stream_at p i)) then CHTTP_H2_FLAG_END_STREAM else 0) =
    end_flag (stream_at p i) rest /\
  (s_body_off (stream_at p i) + zlen chunk =? zlen body) = match rest with [] => true | _ => false end.
Proof.
  intros Hsd Hz. destruct (sending_stream p i body Hsd) as (_ & _ & Hoff).
  assert (s_body_off (stream_at p i) + zlen chunk + zlen rest = zlen body) as Hlen.
  { apply (f_equal zlen) in Hz. rewrite zlen_zdrop, zlen_app in Hz by lia. lia. }
  unfold end_flag. destruct rest as [|x rest].
  - change (zlen []) with 0 in Hlen. by replace (_ =? zlen body) with true by lia.
  - rewrite zlen_cons in Hlen. pose proof (zlen_nonneg rest).
    by replace (_ =? zlen body) with false by lia.
Qed.

(** The frame of a round, before the end of the body is looked at. *)
Lemma emit_frame p i body chunk rest out :
  sending p i body -> ~ blocked p i ->
  zdrop (s_body_off (stream_at p i)) body = chunk ++ rest -> zlen chunk = next_chunk p i body ->
  chttp_h2_hpack_buffer_reserve (p_out p) (9 + zlen chunk) = (out, 0) ->
  exists out',
    let p1 := upd_stream (p <| p_out := out' |>
                            <| p_conn_send_window := p_conn_send_window p - zlen chunk |>) i
                (fun s => progressed s (zlen chunk)) in
    buf_wf out' /\ buf_data out' = buf_data (p_out p) ++
      wire_bytes (WFrame CHTTP_H2_FRAME_DATA (end_flag (stream_at p i) rest)
                    (s_id (stream_at p i)) chunk) /\
    emit_round p i =
      let '(q, failed) :=
        match rest with
        | [] => emit_body_end p1 i (end_flag (stream_at p i) rest)
        | _ => (p1, false)
        end in
      if failed then EmitReturn q else EmitContinue (proto_maybe_close q i).
Proof.
  intros Hsd Hnb Hz Hn Hr. destruct (sending_stream p i body Hsd) as (Hs & Hby & Hoff).
  destruct (next_chunk_bounds p i body Hsd Hnb) as (B1 & B2 & B3 & B4 & B5).
  destruct (data_flags p i body chunk rest Hsd Hz) as [Hfl Hlast].
  pose proof (stw_frame _ (w_peer _ (sd_wf _ _ _ Hsd))) as Hmf.
  unfold CHTTP_H2_DEFAULT_FRAME_BYTES in Hmf. set (s := stream_at p i) in *.
  assert (is_bytes chunk) as Hbc.
  { apply (is_bytes_drop (s_body_off s)) in Hby. rewrite Hz in Hby. by apply is_bytes_app in Hby as [? _]. }
  assert (is_u8 (end_flag s rest)) as Hu8
    by (unfold end_flag; destruct rest; [destruct (s_body_eof s && _)|]; zlia).
  destruct (reserve_data p (zlen chunk) out chunk (end_flag s rest) (s_id s)
    (w_out _ (sd_wf _ _ _ Hsd)) ltac:(lia) Hr Hbc ltac:(lia) (sw_id _ Hs) Hu8) as (_ & Henc & Happ).
  destruct (Happ _ eq_refl) as (Hw & _ & Hd). eexists. cbv zeta. split; [exact Hw|]. split; [exact Hd|].
  rewrite (open_round p i body Hsd Hnb). unfold emit_body. rewrite (sd_body _ _ _ Hsd).
  replace (body_pending (stream_at p i)) with true
    by (unfold body_pending; rewrite (sd_body _ _ _ Hsd); fold s; lia).
  cbn [negb]. cbv zeta.
  change (window_chunk p (stream_at p i) _) with (next_chunk p i body). rewrite <- Hn.
  replace (zlen chunk =? 0) with false by lia. fold s. rewrite Hfl, Hlast, Hr. cbn [Z.eqb negb].
  rewrite Henc.
  assert (i32 (zlen chunk) = zlen chunk) as Hi
    by (apply i32_id; unfold CHTTP_H2_MAX_FRAME_BYTES in *; zlia).
  rewrite Hi. assert (ztake (zlen chunk) (zdrop (s_body_off s) body) = chunk) as ->
    by (rewrite Hz; apply ztake_app).
  destruct rest; reflexivity.
Qed.

(** A stream that does not end stays open. *)
Lemma unended_open p i : s_end_stream_sent (stream_at p i) = false -> proto_maybe_close p i = p.
Proof. intros H. unfold proto_maybe_close. rewrite H. by destruct (s_closed _). Qed.

(** The engine after [chunk], with the end of the body not looked at. *)
Record chunk_sent p (i : nat) (chunk rest : list Z) q : Prop := {
  ck_config : p_config q = p_config p;
  ck_peer : p_peer q = p_peer p;
  ck_conn : p_conn_send_window q = p_conn_send_window p - zlen chunk;
  ck_slots : length (p_streams q) = length (p_streams p);
  ck_out_wf : buf_wf (p_out q);
  ck_out : buf_data (p_out q) = buf_data (p_out p) ++
             wire_bytes (WFrame CHTTP_H2_FRAME_DATA (end_flag (stream_at p i) rest)
                           (s_id (stream_at p i)) chunk);
  ck_stream : stream_at q i = progressed (stream_at p i) (zlen chunk);
}.

(** A round sends the next bytes of the body as one DATA frame, or runs out of
    memory. *)
Lemma body_round p i body :
  sending p i body -> ~ blocked p i ->
  (exists out rc, chttp_h2_hpack_buffer_reserve (p_out p) (9 + next_chunk p i body) = (out, rc) /\ rc <> 0 /\
     emit_round p i = EmitReturn (proto_fail (p <| p_out := out |>) CHTTP_H2_ERR_INTERNAL_ERROR)) \/
  exists chunk rest q, zdrop (s_body_off (stream_at p i)) body = chunk ++ rest /\
    0 < zlen chunk <= st_max_frame_size (p_peer p) /\ chunk_sent p i chunk rest q /\
    emit_round p i =
      match rest with
      | [] =>
        let '(r, failed) := emit_body_end q i (end_flag (stream_at p i) []) in
        if failed then EmitReturn r else EmitContinue (proto_maybe_close r i)
      | _ => EmitContinue q
      end.
Proof.
  intros Hsd Hnb. destruct (sending_stream p i body Hsd) as (Hs & Hby & Hoff).
  destruct (next_chunk_bounds p i body Hsd Hnb) as (B1 & B2 & B3 & B4 & B5).
  set (s := stream_at p i) in *. set (n := next_chunk p i body) in *.
  set (chunk := ztake n (zdrop (s_body_off s) body)). set (rest := zdrop n (zdrop (s_body_off s) body)).
  assert (zdrop (s_body_off s) body = chunk ++ rest) as Hz by (symmetry; apply ztake_zdrop).
  assert (zlen chunk = n) as Hn by (apply zlen_ztake; rewrite zlen_zdrop by lia; lia).
  clearbody chunk rest.
  destruct (chttp_h2_hpack_buffer_reserve (p_out p) (9 + n)) as [out rc] eqn:Hr.
  destruct (Z.eq_dec rc 0) as [->|Hrc]; cycle 1.
  { left. exists out, rc. split_and!; [done|done|]. rewrite (open_round p i body Hsd Hnb). unfold emit_body. rewrite (sd_body _ _ _ Hsd).
    replace (body_pending (stream_at p i)) with true
      by (unfold body_pending; rewrite (sd_body _ _ _ Hsd); fold s; lia).
    cbn [negb]. cbv zeta. change (window_chunk p (stream_at p i) _) with (next_chunk p i body). fold n.
    replace (n =? 0) with false by lia. rewrite Hr. by rewrite (proj2 (Z.eqb_neq rc 0)). }
  right. rewrite <- Hn in Hr.
  destruct (emit_frame p i body chunk rest out Hsd Hnb Hz Hn Hr) as (out' & Hwo & Hout & Hround).
  cbv zeta in Hout, Hround. fold s in Hout, Hround. set (p1 := upd_stream _ i _) in Hround.
  assert (i < length (p_streams p))%nat as Hi.
  { apply slot_in_range. rewrite (sd_body _ _ _ Hsd). done. }
  assert (stream_at p1 i = progressed s (zlen chunk)) as Hat by (unfold p1; rewrite stream_at_upd; done).
  exists chunk, rest, p1. split_and!; [done|lia|lia| |].
  - split; try done. unfold p1. cbn. by rewrite length_alter.
  - rewrite Hround. destruct rest as [|x rest]; [done|]. rewrite unended_open; [done|]. rewrite Hat. exact (sd_unended _ _ _ Hsd).
Qed.

(** ** The end of a body *)

(** The trailers after the body, if there are any. *)
Definition trailers_out q (i : nat) (out : chttp_h2_hpack_buffer) : Prop :=
  let s := stream_at q i in
  if s_trailers_pending s then
    buf_data out = buf_data (p_out q) ++
      wire_bytes (WFrame CHTTP_H2_FRAME_HEADERS (Z.lor CHTTP_H2_FLAG_END_HEADERS CHTTP_H2_FLAG_END_STREAM) (s_id s)
                    (buf_data (s_trailers s)))
  else out = p_out q.

(** How [proto_emit_data] ends, [q] being the engine after the last DATA frame
    and [rest] what is left of the body.  When the stream closes the application
    is told, and may put another stream into the slot, which is then looked at. *)
Inductive body_end q (i : nat) (body rest : list Z) : chttp_h2_proto U -> Prop :=
  | EndBlocked : rest <> [] -> blocked q i -> body_end q i body rest q
  | EndNoMemory out rc :
      rest <> [] -> chttp_h2_hpack_buffer_reserve (p_out q) (9 + next_chunk q i body) = (out, rc) -> rc <> 0 ->
      body_end q i body rest (proto_fail (q <| p_out := out |>) CHTTP_H2_ERR_INTERNAL_ERROR)
  | EndMore : rest = [] -> s_body_eof (stream_at q i) = false -> body_end q i body rest (upd_stream q i drop_body)
  | EndNoTrailers r rc :
      rest = [] -> s_body_eof (stream_at q i) = true -> s_trailers_pending (stream_at q i) = true ->
      out_frame (upd_stream q i (fun s => s <| s_trailers_pending := false |>)) CHTTP_H2_FRAME_HEADERS
        (Z.lor CHTTP_H2_FLAG_END_HEADERS CHTTP_H2_FLAG_END_STREAM) (s_id (stream_at q i)) (buf_data (s_trailers (stream_at q i))) = (r, rc) ->
      rc <> 0 -> body_end q i body rest (proto_fail r CHTTP_H2_ERR_INTERNAL_ERROR)
  | EndHalf out :
      rest = [] -> s_body_eof (stream_at q i) = true -> trailers_out q i out -> s_remote_end_stream (stream_at q i) = false ->
      body_end q i body rest (upd_stream (q <| p_out := out |>) i end_stream)
  | EndClosed out :
      rest = [] -> s_body_eof (stream_at q i) = true -> trailers_out q i out -> s_remote_end_stream (stream_at q i) = true ->
      body_end q i body rest
        (proto_emit_data (stream_closed_cb (upd_stream (q <| p_out := out |>) i (fun s => close_slot (end_stream s)))
           (s_id (stream_at q i)) 0) i).

Lemma upd_stream_twice q i f g : upd_stream (upd_stream q i f) i g = upd_stream q i (fun s => g (f s)).
Proof. unfold upd_stream. cbn. by rewrite list_alter_alter_eq. Qed.

Lemma upd_stream_ext q i f g : f (stream_at q i) = g (stream_at q i) -> upd_stream q i f = upd_stream q i g.
Proof.
  intros H. unfold upd_stream. assert (alter f i (p_streams q) = alter g i (p_streams q)) as ->; [|done].
  apply list_alter_ext; [|done]. intros s Hs. unfold stream_at in H. by rewrite (nth_lookup_Some _ _ _ s Hs) in H.
Qed.

(** A slot without a body or a source. *)
Lemma idle_round p i : proto_wf p -> s_body (stream_at p i) = None -> s_source (stream_at p i) = None -> emit_round p i = EmitReturn p.
Proof.
  intros Hwf Hb Hs. unfold emit_round. rewrite Hb, Hs. pose proof (w_out _ Hwf) as (_ & Hsz & _). pose proof (w_out_max _ Hwf) as Hom.
  replace (c_output_buffer_bytes (p_config p) <? buf_size (p_out p)) with false by lia.
  destruct (s_closed _); [done|]. rewrite !andb_false_r. cbn [andb].
  destruct ((p_conn_send_window p <=? 0) || _); [done|]. destruct (_ <=? CHTTP_H2_FRAME_HEADER_SIZE); [done|].
  unfold emit_body. by rewrite Hb.
Qed.

Lemma idle_emit p i : proto_wf p -> s_body (stream_at p i) = None -> s_source (stream_at p i) = None -> proto_emit_data p i = p.
Proof.
  intros Hwf Hb Hs. unfold proto_emit_data. destruct (Z.to_nat _) as [|n]; [done|]. cbn [emit_loop]. by rewrite idle_round.
Qed.

(** The stream ends its side, and closes when the other has ended. *)
Lemma close_end q i body out : (i < length (p_streams q))%nat -> s_closed (stream_at q i) = false -> s_source (stream_at q i) = None ->
  s_body_eof (stream_at q i) = true -> trailers_out q i out ->
  let r := proto_maybe_close (upd_stream (q <| p_out := out |>) i end_stream) i in
  proto_wf r -> body_end q i body [] (proto_emit_data r i).
Proof.
  intros Hi Hop Hsrc Heof Htr. cbv zeta. set (r0 := upd_stream _ i end_stream).
  assert (stream_at r0 i = end_stream (stream_at q i)) as Hat by (unfold r0; by rewrite stream_at_upd).
  assert (s_closed (end_stream (stream_at q i)) = false /\ s_end_stream_sent (end_stream (stream_at q i)) = true /\
    s_remote_end_stream (end_stream (stream_at q i)) = s_remote_end_stream (stream_at q i) /\ s_id (end_stream (stream_at q i)) = s_id (stream_at q i) /\
    s_body (end_stream (stream_at q i)) = None /\ s_source (end_stream (stream_at q i)) = None) as (E1 & E2 & E3 & E4 & E5 & E6)
    by (unfold end_stream; destruct (s_trailers_pending (stream_at q i)); done).
  unfold proto_maybe_close. rewrite Hat, E1, E2, E3, E4. cbn [andb]. destruct (s_remote_end_stream (stream_at q i)) eqn:Hrem; intros Hwf.
  - assert (upd_stream r0 i (fun s => s <| s_closed := true |> <| s_body := None |> <| s_body_off := 0 |>) =
      upd_stream (q <| p_out := out |>) i (fun s => close_slot (end_stream s))) as -> by apply upd_stream_twice.
    by apply EndClosed.
  - rewrite idle_emit; [by apply EndHalf|done|by rewrite Hat|by rewrite Hat].
Qed.

(** What follows the last byte of a body. *)
Lemma body_over q i body fuel s : stream_wf s -> buf_wf (p_out q) -> (i < length (p_streams q))%nat ->
  s_closed (stream_at q i) = false -> s_source (stream_at q i) = None -> s_end_stream_sent (stream_at q i) = false ->
  (exists n, stream_at q i = progressed s n) ->
  let '(r, failed) := emit_body_end q i (end_flag s []) in
  if failed then body_end q i body [] r
  else let r := proto_maybe_close r i in
    proto_wf r -> (Z.to_nat (p_conn_send_window r + 1) <= fuel)%nat -> body_end q i body [] (emit_loop fuel r i).
Proof.
  intros Hs Hout Hi Hop Hsrc Hes (n & Hat).
  assert (s_body_eof (stream_at q i) = s_body_eof s /\ s_trailers_pending (stream_at q i) = s_trailers_pending s /\
    s_trailers (stream_at q i) = s_trailers s /\ s_id (stream_at q i) = s_id s) as (Heof & Htr & Htrs & Hid) by (by rewrite Hat).
  assert (forall r, proto_wf r -> (Z.to_nat (p_conn_send_window r + 1) <= fuel)%nat -> emit_loop fuel r i = proto_emit_data r i) as Henough.
  { intros r Hwf Hf. unfold proto_emit_data. destruct (Nat.le_ge_cases fuel (Z.to_nat (p_conn_send_window r + 2))).
    - by apply emit_loop_enough.
    - symmetry. apply emit_loop_enough; [done|lia|done]. }
  unfold emit_body_end, end_flag. rewrite <- Heof, <- Htr. destruct (s_body_eof (stream_at q i)) eqn:E1; cbn [andb].
  2:{ cbv zeta. fold drop_body. set (r := upd_stream q i _). assert (r = upd_stream q i drop_body) as Er by done.
      assert (stream_at r i = drop_body (stream_at q i)) as Hr by (rewrite Er; by rewrite stream_at_upd).
      rewrite unended_open by (by rewrite Hr). intros Hwf Hf. rewrite Henough by done. rewrite idle_emit; [|done|by rewrite Hr|by rewrite Hr].
      rewrite Er. by apply EndMore. }
  destruct (s_trailers_pending (stream_at q i)) eqn:E2; cbn [negb].
  - destruct (out_frame_cases (upd_stream q i (fun s => s <| s_trailers_pending := false |>)) CHTTP_H2_FRAME_HEADERS
      (Z.lor CHTTP_H2_FLAG_END_HEADERS CHTTP_H2_FLAG_END_STREAM) (s_id (stream_at q i)) (buf_data (s_trailers (stream_at q i)))
      Hout ltac:(zlia) ltac:(done) ltac:(rewrite Hid; apply Hs) ltac:(rewrite Htrs; apply Hs)) as (out & rc & Ho & _ & _ & Hcase).
    rewrite Ho. destruct (Z.eqb_spec rc 0) as [->|Hne]; cbn [negb].
    + destruct Hcase as [(_ & _ & Hd)|[? _]]; [|done]. set (r := upd_stream _ i _).
      assert (r = upd_stream (q <| p_out := out |>) i end_stream) as ->.
      { unfold r. set (q1 := q <| p_out := out |>). change ((upd_stream q i (fun s0 => s0 <| s_trailers_pending := false |>)) <| p_out := out |>)
          with (upd_stream q1 i (fun s0 => s0 <| s_trailers_pending := false |>)). rewrite upd_stream_twice.
        apply upd_stream_ext. change (stream_at q1 i) with (stream_at q i). unfold end_stream. by rewrite E2. }
      intros Hwf Hf. rewrite Henough by done. apply close_end; try done. unfold trailers_out. rewrite E2. exact Hd.
    + eapply EndNoTrailers; [done|done|done|exact Ho|done].
  - change (has_flag CHTTP_H2_FLAG_END_STREAM CHTTP_H2_FLAG_END_STREAM) with true. cbv iota zeta. set (r := upd_stream q i _).
    assert (r = upd_stream (q <| p_out := p_out q |>) i end_stream) as ->.
    { assert (q <| p_out := p_out q |> = q) as -> by (by destruct q). apply upd_stream_ext. unfold end_stream. by rewrite E2. }
    intros Hwf Hf. rewrite Henough by done. apply close_end; try done. unfold trailers_out. by rewrite E2.
Qed.

(** ** The whole loop *)

Lemma progressed_0 s : progressed s 0 = s.
Proof. unfold progressed. rewrite Z.sub_0_r, Z.add_0_r. by destruct s. Qed.

Lemma progressed_add s a b : progressed (progressed s a) b = progressed s (a + b).
Proof.
  unfold progressed. cbn. rewrite <- Z.sub_add_distr, <- Z.add_assoc. done.
Qed.

(** The DATA frames of the chunks of a body of which [rest] stays behind. *)
Fixpoint body_frames (s : chttp_h2_proto_stream) (chunks : list (list Z)) (rest : list Z) :
    list wire_item :=
  match chunks with
  | [] => []
  | chunk :: chunks =>
    WFrame CHTTP_H2_FRAME_DATA (end_flag s (concat chunks ++ rest)) (s_id s) chunk ::
    body_frames s chunks rest
  end.

Lemma body_frames_progressed s n chunks rest :
  body_frames (progressed s n) chunks rest = body_frames s chunks rest.
Proof. induction chunks as [|c cs IH]; cbn; [done|]. by rewrite IH. Qed.

(** What was sent of a body, [q] being the engine after the last frame. *)
Record body_sent p (i : nat) (body : list Z) q (chunks : list (list Z)) (rest : list Z) : Prop := {
  bs_body : zdrop (s_body_off (stream_at p i)) body = concat chunks ++ rest;
  bs_sizes : Forall (fun c => 0 < zlen c <= st_max_frame_size (p_peer p)) chunks;
  bs_out : buf_data (p_out q) =
             buf_data (p_out p) ++ wire (body_frames (stream_at p i) chunks rest);
  bs_conn : p_conn_send_window q = p_conn_send_window p - zlen (concat chunks);
  bs_stream : stream_at q i = progressed (stream_at p i) (zlen (concat chunks));
}.

Lemma body_sent_nil p i body : body_sent p i body p [] (zdrop (s_body_off (stream_at p i)) body).
Proof.
  split; cbn [concat body_frames]; [done|apply Forall_nil_2|by rewrite app_nil_r|change (zlen []) with 0; lia|].
  change (zlen []) with 0. by rewrite progressed_0.
Qed.

Lemma round_then p i body chunk rest q chunks rest' r :
  zdrop (s_body_off (stream_at p i)) body = chunk ++ rest ->
  0 < zlen chunk <= st_max_frame_size (p_peer p) -> 0 <= s_body_off (stream_at p i) ->
  chunk_sent p i chunk rest q -> body_sent q i body r chunks rest' ->
  body_sent p i body r (chunk :: chunks) rest'.
Proof.
  intros Hz Hc H0 [_ Rp Rc _ _ Ro Hat] [B1 B2 B3 B4 B5].
  rewrite Hat in *. cbn [s_body_off progressed] in B1.
  assert (rest = concat chunks ++ rest') as Hr.
  { rewrite <- B1. change (s_body_off (progressed (stream_at p i) (zlen chunk)))
      with (s_body_off (stream_at p i) + zlen chunk).
    assert (zdrop (zlen chunk) (zdrop (s_body_off (stream_at p i)) body) = rest) as <-
      by (rewrite Hz; apply zdrop_app).
    unfold zdrop. rewrite drop_drop. f_equal. pose proof (zlen_nonneg chunk). lia. }
  split.
  - rewrite Hz, Hr. cbn [concat]. by rewrite app_assoc.
  - rewrite Rp in B2. by constructor.
  - rewrite B3, Ro, body_frames_progressed. cbn [body_frames]. rewrite <- Hr.
    unfold wire. cbn [map concat]. by rewrite app_assoc.
  - cbn [concat]. rewrite B4, Rc, zlen_app. lia.
  - cbn [concat]. by rewrite B5, zlen_app, progressed_add.
Qed.

Lemma emit_loop_body fuel : forall p i body,
  sending p i body -> (Z.to_nat (p_conn_send_window p + 1) <= fuel)%nat ->
  exists q chunks rest, body_sent p i body q chunks rest /\ body_end q i body rest (emit_loop fuel p i).
Proof.
  induction fuel as [|fuel IH]; intros p i body Hsd Hfuel.
  { pose proof (w_conn_send _ (sd_wf _ _ _ Hsd)). lia. }
  destruct (sending_stream p i body Hsd) as (Hs & _ & Hoff).
  assert (zdrop (s_body_off (stream_at p i)) body <> []) as Hrest.
  { intros E. apply (f_equal zlen) in E. rewrite zlen_zdrop in E by lia. change (zlen []) with 0 in E. lia. }
  cbn [emit_loop].
  assert (blocked p i \/ ~ blocked p i) as [Hbl|Hnb] by (unfold blocked; lia).
  { rewrite (blocked_round p i body Hsd Hbl). eexists p, [], _. split; [apply body_sent_nil|by apply EndBlocked]. }
  pose proof (emit_round_ok p i (sd_wf _ _ _ Hsd)) as Hok.
  destruct (body_round p i body Hsd Hnb) as [(out & rc & Hr & Hrc & E)|(chunk & rest & q & Hz & Hc & Hck & E)]; rewrite E in *.
  { eexists p, [], _. split; [apply body_sent_nil|]. by eapply EndNoMemory. }
  pose proof Hck as [C1 C2 C3 C4 CW C5 C6]. destruct rest as [|x rest].
  - exists q, [chunk], []. split.
    { apply (round_then p i body chunk [] q [] [] q); try done; [lia|]. pose proof (body_sent_nil q i body) as Hn.
      assert (zdrop (s_body_off (stream_at q i)) body = []) as E0; [|by rewrite E0 in Hn].
      rewrite C6. cbn. apply (f_equal zlen) in Hz. rewrite app_nil_r, zlen_zdrop in Hz by lia. unfold zdrop.
      apply drop_ge. unfold zlen in *. lia. }
    pose proof (body_over q i body fuel (stream_at p i) Hs CW) as Hover.
    assert (i < length (p_streams q))%nat as Hi by (rewrite C4; apply slot_in_range; rewrite (sd_body _ _ _ Hsd); done).
    rewrite C6 in Hover. specialize (Hover Hi (sd_open _ _ _ Hsd) (sd_source _ _ _ Hsd) (sd_unended _ _ _ Hsd) (ex_intro _ _ eq_refl)).
    destruct (emit_body_end q i (end_flag (stream_at p i) [])) as [r [|]]; [exact Hover|].
    destruct Hok as [Hf Hlt]. specialize (Hlt (sd_wf _ _ _ Hsd)). apply Hover; [apply (Hf (sd_wf _ _ _ Hsd))|lia].
  - destruct Hok as [Hf _]. destruct (IH q i body) as (r & chunks & rest' & Hb & He).
    + destruct Hsd as [Hwf A B C D F]. split; [apply (Hf Hwf)|rewrite C6; try done..]. cbn.
      apply (f_equal zlen) in Hz. rewrite zlen_zdrop, zlen_app, zlen_cons in Hz by lia.
      pose proof (zlen_nonneg rest). lia.
    + lia.
    + exists r, (chunk :: chunks), rest'. split; [|done]. apply (round_then p i body chunk (x :: rest) q); try done. lia.
Qed.

(** C4: Sending from an open stream with unsent bytes of a buffered body, for any
    application and allocator, emits these bytes in order as DATA frames that are
    not empty and fit the frame size of the peer, with END_STREAM exactly on the
    frame that ends a final body without trailers behind it, and takes exactly the
    bytes sent off the connection and stream windows. It stops before the end of
    the body only when a window or the room for output is exhausted, or when
    memory is, which fails the session. After the last byte of a final body the
    pending trailers follow in a HEADERS frame that ends the stream, or fail the
    session when they cannot be written; this side is then closed, and where the
    peer had ended too the stream closes, the application is told, and the sending
    goes on with what it left in the slot. After the last byte of a body that is
    not final the stream waits for more. *)
Theorem body_in_data_frames p i body :
  sending p i body ->
  exists q chunks rest, body_sent p i body q chunks rest /\ body_end q i body rest (proto_emit_data p i).
Proof.
  intros Hsd. apply emit_loop_body; [done|].
  pose proof (w_conn_send _ (sd_wf _ _ _ Hsd)). lia.
Qed.

End Body.
End H2ProtoBody.
