(* ===== verification/H2ProtoFindings.v ===== *)
(** * HTTP/2 engine: concrete sessions

    A whole exchange between two engines, and sessions in which the engine does
    something else than its comments or RFC 9113 say.  All of them run the
    engine on concrete bytes. *)

From S2P Require Import Prelude H2Frame HpackBuffer HpackTables HpackHuffman HpackTable Hpack.
From S2P Require Import HpackSync HpackBound H2Proto H2ProtoSend H2ProtoSubmit H2ProtoRecv.
From S2P Require Import H2ProtoInv H2ProtoOut H2ProtoQuiet H2ProtoExample.

Module H2ProtoFindings.
Import H2Frame HpackBuffer HpackTables HpackHuffman HpackTable Hpack HpackSync HpackBound.
Import H2Proto H2ProtoSend H2ProtoSubmit H2ProtoRecv H2ProtoInv H2ProtoOut H2ProtoQuiet.
Import H2ProtoExample.

(** Run [k] on an engine that was created. *)
Definition on_engine {A} (p : option (chttp_h2_proto journal)) (k : chttp_h2_proto journal -> A) :
    option A := k <$> p.

(** A server that has read the headers of a request on stream 1, whose body
    is still to come, and has sent its own settings. *)
Definition open_stream (client server : chttp_h2_proto journal) : option (chttp_h2_proto journal) :=
  let client := (chttp_h2_proto_submit_request_headers client get_request 0).1.1 in
  match deliver log_app log_app client server with
  | Some (_, server, _) => Some (chttp_h2_proto_send (app := log_app) server).1.1
  | None => None
  end.

Definition open_server : option (chttp_h2_proto journal) :=
  client_engine ≫= fun client => server_engine ≫= open_stream client.

(** The frames in a stretch of output: type, flags, stream and length. *)
Fixpoint frames_of (fuel : nat) (bytes : list Z) : list (Z * Z * Z * Z) :=
  match fuel with
  | O => []
  | S fuel =>
    match chttp_h2_frame_header_decode bytes CHTTP_H2_MAX_FRAME_BYTES with
    | Ok (_, hdr) =>
      (fh_type hdr, fh_flags hdr, fh_stream_id hdr, fh_length hdr) ::
      frames_of fuel (zdrop (9 + fh_length hdr) bytes)
    | Err _ => []
    end
  end.

(** What [hello_app] and its client are told, and the frames they exchange. *)
Definition exchange_outcome (client server : chttp_h2_proto journal) :
    option (journal * journal * (bool * bool) * list (Z * Z * Z * Z) * list (Z * Z * Z * Z)) :=
  match exchange hello_app client server None with
  | Some (client, server, request, response) =>
    Some (p_user server, p_user client, (p_failed client, p_failed server),
          frames_of 9 (zdrop 24 request), frames_of 9 response)
  | None => None
  end.

(** A whole exchange, evaluated: the client sends its preface, settings and a
    request, the server answers from its callback, both applications hear every
    header and byte once, and both streams close. *)
Theorem request_response_exchange :
  (client_engine ≫= fun client => server_engine ≫= exchange_outcome client) =
  Some (map (fun hd => EHeader 1 (hd_name hd) (hd_value hd)) get_request ++ [EClose 1 0],
        map (fun hd => EHeader 1 (hd_name hd) (hd_value hd)) ok_response ++
          [EData 1 (bytes_of "hello"); EClose 1 0],
        (false, false),
        [(CHTTP_H2_FRAME_SETTINGS, 0, 0, 36); (CHTTP_H2_FRAME_HEADERS, 5, 1, 14)],
        [(CHTTP_H2_FRAME_SETTINGS, 0, 0, 30); (CHTTP_H2_FRAME_SETTINGS, 1, 0, 0);
         (CHTTP_H2_FRAME_HEADERS, 4, 1, 2); (CHTTP_H2_FRAME_DATA, 1, 1, 5)]).
Proof. vm_compute. reflexivity. Qed.

(** ** Trailers *)

Definition one_trailer : list chttp_h2_hpack_header := [field "x-checksum" "00"].

(** Trailers behind an empty final body are accepted and never sent: the empty
    DATA frame already carries END_STREAM. *)
Theorem trailers_after_empty_body_lost :
  on_engine open_server (fun p =>
    let '(p, rc1) := chttp_h2_proto_submit_headers (app := log_app) p 1 ok_response 0 in
    let '(p, rc2) := chttp_h2_proto_submit_data p 1 None 1 in
    let '(p, rc3) := chttp_h2_proto_submit_trailers (app := log_app) p 1 one_trailer in
    let '(p, _, sent) := chttp_h2_proto_send (app := log_app) p in
    (rc1, rc2, rc3, frames_of 9 sent, s_trailers_pending (stream_at p 0),
     chttp_h2_proto_want_write p)) =
  Some (0, 0, 0,
        [(CHTTP_H2_FRAME_HEADERS, 4, 1, 2);
         (CHTTP_H2_FRAME_DATA, CHTTP_H2_FLAG_END_STREAM, 1, 0)], true, false).
Proof. vm_compute. reflexivity. Qed.

(** Trailers of a stream with a body source go out before the DATA of the source,
    with END_STREAM. *)
Theorem trailers_before_source_data :
  on_engine open_server (fun p =>
    let p := chttp_h2_proto_set_send_chunk p 16000 in
    let '(p, rc1) :=
      chttp_h2_proto_submit_response_ex (app := log_app) p 1 ok_response None (Some 0) in
    let '(p, rc2) := chttp_h2_proto_submit_trailers (app := log_app) p 1 one_trailer in
    let '(p, _, sent) := chttp_h2_proto_send (app := log_app) p in
    (rc1, rc2, take 3 (frames_of 3 sent))) =
  Some (0, 0,
        [(CHTTP_H2_FRAME_HEADERS, 4, 1, 2);
         (CHTTP_H2_FRAME_HEADERS, Z.lor CHTTP_H2_FLAG_END_HEADERS CHTTP_H2_FLAG_END_STREAM, 1, 15);
         (CHTTP_H2_FRAME_DATA, 0, 1, 8000)]).
Proof. vm_compute. reflexivity. Qed.

Definition long_trailers : list chttp_h2_hpack_header :=
  let hd := {| hd_name := [120]; hd_value := replicate (Z.to_nat 9000) 65 |} in [hd; hd].

(** A deferred trailer block goes out in one HEADERS frame that is larger than the
    peer allows. *)
Theorem deferred_trailers_exceed_frame_size :
  on_engine open_server (fun p =>
    let '(p, rc1) := chttp_h2_proto_submit_headers (app := log_app) p 1 ok_response 0 in
    let '(p, rc2) := chttp_h2_proto_submit_data p 1 (Some [1]) 1 in
    let '(p, rc3) := chttp_h2_proto_submit_trailers (app := log_app) p 1 long_trailers in
    let '(p, _, sent) := chttp_h2_proto_send (app := log_app) p in
    (rc1, rc2, rc3, st_max_frame_size (p_peer p), frames_of 9 sent)) =
  Some (0, 0, 0, 16384,
        [(CHTTP_H2_FRAME_HEADERS, 4, 1, 2); (CHTTP_H2_FRAME_DATA, 0, 1, 1);
         (CHTTP_H2_FRAME_HEADERS, Z.lor CHTTP_H2_FLAG_END_HEADERS CHTTP_H2_FLAG_END_STREAM, 1,
          18012)]).
Proof. vm_compute. reflexivity. Qed.

(** ** Errors and order *)

(** A frame over the size limit fails the session with PROTOCOL_ERROR, not
    FRAME_SIZE_ERROR. *)
Theorem oversize_frame_is_protocol_error :
  on_engine open_server (fun p =>
    (fun r => (r.2, p_failed r.1, p_last_error r.1)) <$>
      chttp_h2_proto_recv (app := log_app) p
        (chttp_h2_write_u24 16385 ++ [CHTTP_H2_FRAME_DATA; 0] ++ chttp_h2_write_u32 1)) =
  Some (Some (-1, true, CHTTP_H2_ERR_PROTOCOL_ERROR)).
Proof. vm_compute. reflexivity. Qed.

(** A client that receives SETTINGS before its first send puts the ACK in front of
    its preface. *)
Theorem settings_ack_before_preface :
  on_engine client_engine (fun p =>
    match chttp_h2_proto_recv (app := log_app) p
            (chttp_h2_write_u24 0 ++ [CHTTP_H2_FRAME_SETTINGS; 0] ++ chttp_h2_write_u32 0) with
    | Some (p, rc) =>
      let '(p, _, sent) := chttp_h2_proto_send (app := log_app) p in
      (rc, frames_of 1 sent, bool_decide (ztake 24 (zdrop 9 sent) = CHTTP_H2_PREFACE))
    | None => (0, [], false)
    end) =
  Some (9, [(CHTTP_H2_FRAME_SETTINGS, CHTTP_H2_FLAG_ACK, 0, 0)], true).
Proof. vm_compute. reflexivity. Qed.

End H2ProtoFindings.
