(* ===== verification/H2ProtoWitness.v ===== *)
(** * HTTP/2 engine: instances of the theorems

    Concrete sessions of a client and a server, and the theorems of the engine
    at them. *)

From S2P Require Import Prelude H2Frame HpackBuffer HpackTables HpackHuffman HpackTable Hpack.
From S2P Require Import HpackSync HpackBound H2Proto H2ProtoSend H2ProtoSubmit H2ProtoRecv.
From S2P Require Import H2ProtoInv H2ProtoOut H2ProtoQuiet H2ProtoFlow H2ProtoExample.
From S2P Require Import H2ProtoTheorems H2ProtoCredit H2ProtoHeaders H2ProtoBody.

Module H2ProtoWitness.
Import H2Frame HpackBuffer HpackTables HpackHuffman HpackTable Hpack HpackSync HpackBound.
Import H2Proto H2ProtoSend H2ProtoSubmit H2ProtoRecv H2ProtoInv H2ProtoOut H2ProtoQuiet.
Import H2ProtoFlow H2ProtoExample H2ProtoTheorems H2ProtoCredit H2ProtoHeaders H2ProtoBody.

#[local] Existing Instance log_app.

(** ** Sessions *)

Definition after (engine : option (chttp_h2_proto journal)) (calls : list call) :
    option (chttp_h2_proto journal) :=
  p ← engine; fst <$> run_calls p calls.

Lemma client_wf p : client_engine = Some p -> proto_wf p.
Proof. by apply create_ok. Qed.

Lemma server_wf p : server_engine = Some p -> proto_wf p.
Proof. by apply create_ok. Qed.

Lemma after_wf engine calls p :
  (forall q, engine = Some q -> proto_wf q) -> Forall call_ok calls ->
  after engine calls = Some p -> proto_wf p.
Proof.
  intros Hw Hc. unfold after. destruct engine as [q|]; [|done]. cbn.
  destruct (run_calls_ok calls q (Hw q eq_refl) Hc) as (p' & sent & read & c & -> & R & _).
  intros [= <-]. exact (r_wf _ _ _ _ R).
Qed.

(** What a client sends first. *)
Definition client_hello : list Z :=
  Eval vm_compute in
    match client_engine with
    | Some p => (chttp_h2_proto_send p).2
    | None => []
    end.

(** A client that opened a stream for a request with a body, and a server that
    has read the preface and the settings of a client. *)
Definition requesting : option (chttp_h2_proto journal) :=
  after client_engine
    [CSend; CRequest get_request (Some (bytes_of "hello")) None 0 0 false].

Definition listener : option (chttp_h2_proto journal) :=
  after server_engine [CRecv client_hello].

(** Concrete bytes. *)
Ltac concrete_bytes :=
  vm_compute; repeat (apply Forall_nil_2 || (apply Forall_cons_2; [split; [discriminate|reflexivity]|])).

Lemma get_request_ok : Forall header_ok get_request.
Proof. repeat (apply Forall_nil_2 || apply Forall_cons_2); split; concrete_bytes. Qed.

Lemma requesting_wf p : requesting = Some p -> proto_wf p.
Proof.
  apply after_wf; [apply client_wf|].
  apply Forall_cons_2; [exact I|]. apply Forall_singleton. split; [apply get_request_ok|concrete_bytes].
Qed.

Lemma listener_wf p : listener = Some p -> proto_wf p.
Proof.
  apply after_wf; [apply server_wf|]. apply Forall_singleton. concrete_bytes.
Qed.

Lemma always_served n : malloc_ok n = true.
Proof. reflexivity. Qed.

(** A fact about a computed engine. *)
Ltac engine_fact E f := apply (fmap_value f _ _ _ E); vm_compute; reflexivity.

(** The connection's window grows by 1000. *)
Definition window_grant : list Z := wire_bytes (WFrame CHTTP_H2_FRAME_WINDOW_UPDATE 0 0 (chttp_h2_write_u32 1000)).

Lemma session_safe_witness :
  let calls := [CRecv client_hello; CRecv (ztake 5 window_grant); CRecv (zdrop 5 window_grant); CPing (replicate 8 7); CSend] in
  exists p p' sent read credit, server_engine = Some p /\
    run_calls p calls = Some (p', sent) /\ ran credit p p' sent /\ heard p p' (client_hello ++ window_grant) read credit.
Proof.
  intros calls. destruct server_engine as [p|] eqn:E; [|vm_compute in E; discriminate].
  assert (Forall call_ok calls) as Hc.
  { repeat (apply Forall_cons_2; [cbn [call_ok]; try exact I; concrete_bytes|]). apply Forall_nil_2. }
  destruct (session_safe calls p (server_wf p E) Hc) as (p' & sent & read & credit & Hr & R & Hh & _).
  exists p, p', sent, read, credit. split; [reflexivity|]. split; [exact Hr|]. split; [exact R|].
  assert (accepted p calls = client_hello ++ window_grant) as <-; [|exact Hh].
  apply (fmap_value (fun p => accepted p calls) _ _ _ E). vm_compute. reflexivity.
Defined.

(** The credit there, and without it when the frame comes before the settings of
    the client and so fails the session. *)
Example window_grant_credited :
  (fun p => p_conn_send_window p) <$> after server_engine [CRecv client_hello; CRecv window_grant] = Some 66535 /\
  (fun p => (p_conn_send_window p, p_failed p)) <$> after server_engine [CRecv (CHTTP_H2_PREFACE ++ window_grant)] = Some (65535, true).
Proof. split; vm_compute; reflexivity. Qed.

Lemma emit_data_terminates_witness :
  exists p, requesting = Some p /\ emit_loop (Z.to_nat 70000) p 0 = proto_emit_data p 0.
Proof.
  destruct requesting as [p|] eqn:E; [|vm_compute in E; discriminate].
  exists p. split; [reflexivity|]. apply emit_data_terminates; [exact (requesting_wf p E)|].
  replace (p_conn_send_window p) with 65535; [lia|]. symmetry. engine_fact E (@p_conn_send_window journal).
Defined.

Lemma create_wf_witness :
  exists p : chttp_h2_proto journal,
    chttp_h2_proto_create CHTTP_H2_PROTO_SERVER None [] = Some p /\ proto_wf p.
Proof.
  destruct (chttp_h2_proto_create CHTTP_H2_PROTO_SERVER None []) as [p|] eqn:E;
    [|vm_compute in E; discriminate].
  exists p. split; [reflexivity|]. exact (create_wf CHTTP_H2_PROTO_SERVER None [] p I E).
Defined.

Lemma proto_fail_goaway_witness :
  exists p, requesting = Some p /\
    let q := proto_fail p CHTTP_H2_ERR_PROTOCOL_ERROR in
    p_failed q = true /\ p_last_error q = CHTTP_H2_ERR_PROTOCOL_ERROR /\
    p_goaway_sent q = true /\ p_draining q = true /\
    buf_data (p_out q) = buf_data (p_out p) ++
      wire_bytes (WFrame CHTTP_H2_FRAME_GOAWAY 0 0
        (chttp_h2_write_u32 (p_last_proc_stream_id p) ++
         chttp_h2_write_u32 CHTTP_H2_ERR_PROTOCOL_ERROR)).
Proof.
  destruct requesting as [p|] eqn:E; [|vm_compute in E; discriminate].
  exists p. split; [reflexivity|]. apply proto_fail_goaway; [exact (requesting_wf p E)| | |apply always_served|].
  - engine_fact E (@p_failed journal).
  - unfold preface_done. replace (p_mode p) with CHTTP_H2_PROTO_CLIENT; cbn [is_client];
      [|symmetry; engine_fact E (@p_mode journal)]. engine_fact E (@p_client_preface_done journal).
  - apply Z.leb_le. engine_fact E (fun p => buf_size (p_out p) + 17 <=? c_output_buffer_bytes (p_config (U := journal) p)).
Defined.

Definition frame (type flags sid length : Z) : chttp_h2_frame_header :=
  {| fh_length := length; fh_type := type; fh_flags := flags; fh_stream_id := sid |}.

(** DATA before the settings of the peer. *)
Lemma dispatch_order_enforced_witness :
  exists p, requesting = Some p /\
    let q := proto_dispatch p [1] (frame CHTTP_H2_FRAME_DATA 0 1 1) in
    p_failed q = true /\ p_last_error q = CHTTP_H2_ERR_PROTOCOL_ERROR /\
    p_streams q = p_streams p /\ p_user q = p_user p.
Proof.
  destruct requesting as [p|] eqn:E; [|vm_compute in E; discriminate].
  exists p. split; [reflexivity|]. apply dispatch_order_enforced.
  - engine_fact E (@p_failed journal).
  - right. split; [engine_fact E (@p_peer_settings_received journal)|]. left. discriminate.
Defined.

Lemma initial_window_all_or_none_witness :
  exists p, requesting = Some p /\
    let delta := 100000 - st_initial_window_size (p_peer p) in
    let '(q, error) := apply_initial_window p 100000 in
    error = CHTTP_H2_ERR_NO_ERROR /\
      100000 <= CHTTP_H2_MAX_WINDOW /\ Forall (window_fits delta) (p_streams p) /\
      q = p <| p_streams := map (shift_window delta) (p_streams p) |>
            <| p_peer := (p_peer p) <| st_initial_window_size := 100000 |> |> \/
    error = CHTTP_H2_ERR_FLOW_CONTROL_ERROR /\ q = p /\
      (CHTTP_H2_MAX_WINDOW < 100000 \/ ~ Forall (window_fits delta) (p_streams p)).
Proof.
  destruct requesting as [p|] eqn:E; [|vm_compute in E; discriminate].
  exists p. split; [reflexivity|]. apply (initial_window_all_or_none p 100000).
  split; [lia|reflexivity].
Defined.

Lemma settings_shift_windows_witness :
  exists p q, requesting = Some p /\
    proto_apply_peer_settings p [(CHTTP_H2_SETTING_INITIAL_WINDOW_SIZE, 100000)] =
      (q, CHTTP_H2_ERR_NO_ERROR) /\
    st_initial_window_size (p_peer q) = 100000 /\
    p_streams q = map (shift_window (100000 - st_initial_window_size (p_peer p))) (p_streams p).
Proof.
  destruct requesting as [p|] eqn:E; [|vm_compute in E; discriminate].
  destruct (proto_apply_peer_settings p [(CHTTP_H2_SETTING_INITIAL_WINDOW_SIZE, 100000)])
    as [q error] eqn:Eq.
  assert (error = CHTTP_H2_ERR_NO_ERROR) as ->.
  { change error with (snd (q, error)). rewrite <- Eq.
    engine_fact E (fun p : chttp_h2_proto journal =>
      (proto_apply_peer_settings p [(CHTTP_H2_SETTING_INITIAL_WINDOW_SIZE, 100000)]).2). }
  exists p, q. split; [reflexivity|]. split; [exact Eq|].
  apply (settings_shift_windows [(CHTTP_H2_SETTING_INITIAL_WINDOW_SIZE, 100000)] p q); [|exact Eq].
  apply Forall_singleton. vm_compute. split; [discriminate|reflexivity].
Defined.

Lemma consume_connection_conserves_witness :
  exists p q, requesting = Some p /\ chttp_h2_proto_consume_connection p 100 = (q, 0) /\
    p_conn_recv_window q + p_conn_consumed q = p_conn_recv_window p + p_conn_consumed p + 100.
Proof.
  destruct requesting as [p|] eqn:E; [|vm_compute in E; discriminate].
  destruct (chttp_h2_proto_consume_connection p 100) as [q rc] eqn:Eq.
  assert (rc = 0) as ->.
  { change rc with (snd (q, rc)). rewrite <- Eq.
    engine_fact E (fun p : chttp_h2_proto journal => (chttp_h2_proto_consume_connection p 100).2). }
  exists p, q. split; [reflexivity|]. split; [exact Eq|].
  refine (proj1 (consume_connection_conserves p 100 q (requesting_wf p E) _ ltac:(lia) Eq)).
  unfold preface_done. replace (p_mode p) with CHTTP_H2_PROTO_CLIENT; cbn [is_client];
    [|symmetry; engine_fact E (@p_mode journal)]. engine_fact E (@p_client_preface_done journal).
Defined.

(** A client that has the settings of the server and an open stream. *)
Definition server_hello : list Z :=
  chttp_h2_write_u24 0 ++ [CHTTP_H2_FRAME_SETTINGS; 0] ++ chttp_h2_write_u32 0.

Definition connected : option (chttp_h2_proto journal) :=
  after client_engine
    [CSend; CRecv server_hello;
     CRequest get_request (Some (bytes_of "hello")) None 0 0 false].

Lemma data_beyond_window_refused_witness :
  exists p, connected = Some p /\
    let q := proto_dispatch p [1] (frame CHTTP_H2_FRAME_DATA 0 1 70000) in
    p_failed q = true /\ p_last_error q = CHTTP_H2_ERR_FLOW_CONTROL_ERROR /\
    p_user q = p_user p /\ p_streams q = p_streams p.
Proof.
  destruct connected as [p|] eqn:E; [|vm_compute in E; discriminate].
  exists p. split; [reflexivity|].
  apply (data_beyond_window_refused p [1] (frame CHTTP_H2_FRAME_DATA 0 1 70000) 0%nat [1]).
  - engine_fact E (@p_failed journal).
  - engine_fact E (@p_peer_settings_received journal).
  - engine_fact E (@p_in_headers journal).
  - reflexivity.
  - vm_compute. split; [reflexivity|discriminate].
  - vm_compute. split; discriminate.
  - reflexivity.
  - engine_fact E (fun p : chttp_h2_proto journal => proto_find p 1).
  - engine_fact E (fun p : chttp_h2_proto journal => s_closed (stream_at p 0)).
  - engine_fact E (fun p : chttp_h2_proto journal => s_local_reset (stream_at p 0)).
  - engine_fact E (fun p : chttp_h2_proto journal => s_remote_end_stream (stream_at p 0)).
  - apply Z.ltb_lt. engine_fact E (fun p : chttp_h2_proto journal =>
      Z.min (p_conn_recv_window p) (s_recv_window (stream_at p 0)) <? 70000).
Defined.

Lemma request_opens_stream_witness :
  exists p q id, client_engine = Some p /\
    chttp_h2_proto_submit_request_ex p get_request None None 0 0 false = (q, 0, Some id) /\
    id = p_next_stream_id p /\ Z.odd id = true /\ p_next_stream_id q = id + 2.
Proof.
  destruct client_engine as [p|] eqn:E; [|vm_compute in E; discriminate].
  destruct (chttp_h2_proto_submit_request_ex p get_request None None 0 0 false)
    as [[q rc] id] eqn:Eq.
  assert ((rc, id) = (0, Some 1)) as Hr.
  { replace (rc, id) with (((q, rc, id).1.2), (q, rc, id).2) by reflexivity. rewrite <- Eq.
    engine_fact E (fun p : chttp_h2_proto journal =>
      let r := chttp_h2_proto_submit_request_ex p get_request None None 0 0 false in (r.1.2, r.2)). }
  injection Hr as -> ->. exists p, q, 1. split; [reflexivity|]. split; [exact Eq|].
  destruct (request_opens_stream p get_request None None 0 0 false q 1 (client_wf p E)
    get_request_ok I Eq) as (H1 & H2 & _ & H4 & _). split; [exact H1|]. split; [exact H2|exact H4].
Defined.

Lemma header_block_on_wire_witness :
  exists p, client_engine = Some p /\
    let '(q, rc) := out_headers p 1 get_request true false 0 0 false in
    rc = 0 -> exists items block, buf_data (p_out q) = buf_data (p_out p) ++ wire items /\
      header_frames (st_max_frame_size (p_peer p)) 1 true (start_flags true false) items block.
Proof.
  destruct client_engine as [p|] eqn:E; [|vm_compute in E; discriminate].
  exists p. split; [reflexivity|].
  assert (H := header_block_on_wire p 1 get_request true false 0 0 false (client_wf p E)
    get_request_ok ltac:(vm_compute; split; discriminate)).
  destruct (out_headers p 1 get_request true false 0 0 false) as [q rc]. intros Hrc.
  destruct (proj1 H Hrc) as (items & prefix & blk & blk' & H1 & _ & H2 & _).
  exists items, (prefix ++ buf_data blk'). split; [exact H1|exact H2].
Defined.

(** What a client sends that asks and has nothing more to say, and a server that
    has read it and submitted its answer. *)
Definition client_question : list Z :=
  Eval vm_compute in
    match client_engine with
    | Some p => (chttp_h2_proto_send (chttp_h2_proto_submit_request_ex p get_request None None 0 0 false).1.1).2
    | None => []
    end.

Definition answering : option (chttp_h2_proto journal) :=
  after server_engine [CRecv client_question; CResponse 1 ok_response (Some (bytes_of "hello")) None].

Lemma answering_wf p : answering = Some p -> proto_wf p.
Proof.
  apply after_wf; [apply server_wf|]. apply Forall_cons_2; [concrete_bytes|]. apply Forall_singleton.
  split; [|concrete_bytes]. apply Forall_singleton. split; concrete_bytes.
Qed.

(** The body [hello] of the answer goes out in a DATA frame that ends and closes
    the stream, of which the application hears. *)
Lemma body_in_data_frames_witness :
  exists p, answering = Some p /\
    exists q chunks rest, body_sent p 0 (bytes_of "hello") q chunks rest /\ body_end q 0 (bytes_of "hello") rest (proto_emit_data p 0).
Proof.
  destruct answering as [p|] eqn:E; [|vm_compute in E; discriminate].
  exists p. split; [reflexivity|].
  apply (body_in_data_frames p 0 (bytes_of "hello")). split.
  - exact (answering_wf p E).
  - engine_fact E (fun p : chttp_h2_proto journal => s_closed (stream_at p 0)).
  - engine_fact E (fun p : chttp_h2_proto journal => s_source (stream_at p 0)).
  - engine_fact E (fun p : chttp_h2_proto journal => s_body (stream_at p 0)).
  - engine_fact E (fun p : chttp_h2_proto journal => s_end_stream_sent (stream_at p 0)).
  - apply Z.ltb_lt. engine_fact E (fun p : chttp_h2_proto journal =>
      s_body_off (stream_at p 0) <? zlen (bytes_of "hello")).
Defined.

Example answer_closes :
  (fun p => let q := proto_emit_data p 0 in
     (zdrop (buf_size (p_out p)) (buf_data (p_out q)), s_closed (stream_at q 0), last (p_user q))) <$> answering =
  Some (wire_bytes (WFrame CHTTP_H2_FRAME_DATA CHTTP_H2_FLAG_END_STREAM 1 (bytes_of "hello")), true, Some (EClose 1 0)).
Proof. vm_compute. reflexivity. Qed.

(** ** A request from a client to a server *)

Lemma encoder_resize_decoder h n :
  h_decoder (chttp_h2_hpack_encoder_set_max_size h n).1 = h_decoder h /\
  h_decoder_max_size (chttp_h2_hpack_encoder_set_max_size h n).1 = h_decoder_max_size h.
Proof.
  unfold chttp_h2_hpack_encoder_set_max_size. destruct (h_max_dynamic_table_bytes h <? n); [done|].
  destruct (negb (n =? _)); [destruct (negb _ || _)|]; cbn; auto.
Qed.

(** Both engines hold the coding context they were created with. *)
Lemma fresh_contexts p r :
  client_engine = Some p -> listener = Some r ->
  p_hpack r = p_hpack p /\ synced (p_hpack p) (p_hpack r).
Proof.
  intros Ep Er.
  assert (p_hpack r = p_hpack p) as H.
  { pose proof (f_equal (fmap p_hpack) Ep) as Hp. pose proof (f_equal (fmap p_hpack) Er) as Hr.
    assert (p_hpack <$> listener = p_hpack <$> client_engine) as Hx by (vm_compute; reflexivity).
    rewrite Hp, Hr in Hx. injection Hx as Hx. exact Hx. }
  split; [exact H|]. rewrite H.
  pose (config := {| hc_max_dynamic_table_bytes := 4096; hc_max_header_block_bytes := 65536;
                     hc_max_string_bytes := 16384 |}).
  destruct (chttp_h2_hpack_create config) as [h|] eqn:Eh; [|vm_compute in Eh; discriminate].
  destruct (hpack_create_wf config h ltac:(cbn; lia) ltac:(cbn; lia) Eh) as [Wh Sh].
  assert (chttp_h2_hpack_encoder_set_max_size h 0 = (p_hpack p, 0)) as Hc.
  { pose proof (f_equal (fmap p_hpack) Ep) as Hp. cbn [fmap option_fmap option_map] in Hp.
    assert ((fun h => (chttp_h2_hpack_encoder_set_max_size h 0)) <$> chttp_h2_hpack_create config =
      (fun h => (h, 0)) <$> (p_hpack <$> client_engine)) as Hx by (vm_compute; reflexivity).
    rewrite Eh, Hp in Hx. injection Hx as Hx. exact Hx. }
  assert (0 <= 0 <= h_decoder_max_size h) as Hm.
  { replace (h_decoder_max_size h) with 4096; [lia|]. symmetry. engine_fact Eh h_decoder_max_size. }
  destruct (encoder_resize_decoder h 0) as [Hd1 Hd2]. rewrite Hc in Hd1, Hd2. cbn [fst] in Hd1, Hd2.
  pose proof (synced_set_max_size h h 0 (p_hpack p) Wh Wh Sh Hm Hc) as Hs.
  unfold synced in *. rewrite Hd1, Hd2. exact Hs.
Qed.

Lemma get_request_fits h : h_max_string_bytes h = 16384 -> Forall (header_fits h) get_request.
Proof.
  intros L. eapply Forall_impl; [apply Forall_and; split; [exact get_request_ok|]|].
  - instantiate (1 := fun hd => zlen (hd_name hd) <= 16384 /\ zlen (hd_value hd) <= 16384).
    vm_compute. repeat constructor; discriminate.
  - intros hd [Hok [H1 H2]]. split; [exact Hok|]. rewrite L. split_and!; [done|done|zlia].
Qed.

Lemma log_agreeable sid : agreeable sid.
Proof. split; [discriminate|]. intros u f name value [= <-]. reflexivity. Qed.

Lemma headers_delivered_witness :
  exists (p r q r' : chttp_h2_proto journal) i items r3,
    client_engine = Some p /\ listener = Some r /\
    out_headers p 1 get_request true false 0 0 false = (q, 0) /\
    buf_data (p_out q) = buf_data (p_out p) ++ wire items /\
    fold_left dispatch_item items r = conclude r3 i (hears [] 1 get_request) /\
    p_user r3 = hears [] 1 get_request /\ p_streams r3 = p_streams r' /\
    synced (p_hpack q) (p_hpack r3).
Proof.
  destruct client_engine as [p|] eqn:Ep; [|vm_compute in Ep; discriminate].
  destruct listener as [r|] eqn:Er; [|vm_compute in Er; discriminate].
  destruct (fresh_contexts p r Ep Er) as [Hh Hsy].
  pose (hdr := {| fh_length := 0; fh_type := CHTTP_H2_FRAME_HEADERS; fh_flags := 0; fh_stream_id := 1 |}).
  destruct (headers_stream r hdr false) as [[r' oi] stop] eqn:Es.
  assert ((oi, stop) = (Some 0%nat, false)) as Ho.
  { replace (oi, stop) with ((r', oi, stop).1.2, (r', oi, stop).2) by reflexivity. rewrite <- Es.
    engine_fact Er (fun r : chttp_h2_proto journal =>
      ((headers_stream r hdr false).1.2, (headers_stream r hdr false).2)). }
  injection Ho as -> ->.
  destruct (out_headers p 1 get_request true false 0 0 false) as [q rc] eqn:Eo.
  assert (rc = 0) as ->.
  { change rc with (q, rc).2. rewrite <- Eo.
    engine_fact Ep (fun p : chttp_h2_proto journal => (out_headers p 1 get_request true false 0 0 false).2). }
  assert (accepts_headers r 1 r' 0) as Ha.
  { split.
    - engine_fact Er (@p_peer_settings_received journal).
    - engine_fact Er (@p_in_headers journal).
    - engine_fact Er (fun r : chttp_h2_proto journal => proto_local_reset_contains r 1).
    - exact Es.
    - replace r' with (headers_stream r hdr false).1.1 by (rewrite Es; reflexivity).
      engine_fact Er (fun r : chttp_h2_proto journal => s_closed (stream_at (headers_stream r hdr false).1.1 0)).
    - replace r' with (headers_stream r hdr false).1.1 by (rewrite Es; reflexivity).
      engine_fact Er (fun r : chttp_h2_proto journal =>
        s_remote_end_stream (stream_at (headers_stream r hdr false).1.1 0)). }
  assert (Forall (header_fits (p_hpack r)) get_request) as Hf.
  { apply get_request_fits.
    engine_fact Er (fun r : chttp_h2_proto journal => h_max_string_bytes (p_hpack r)). }
  assert (p_user r = []) as Hu by engine_fact Er (@p_user journal).
  assert (c_header_block_bytes (p_config p) = 65536) as B1
    by engine_fact Ep (fun p : chttp_h2_proto journal => c_header_block_bytes (p_config p)).
  assert (c_header_block_bytes (p_config r) = 65536) as B2
    by engine_fact Er (fun p : chttp_h2_proto journal => c_header_block_bytes (p_config p)).
  assert (st_max_header_list_size (p_local r) = 65536) as B3
    by engine_fact Er (fun p : chttp_h2_proto journal => st_max_header_list_size (p_local p)).
  destruct (headers_delivered always_served p r 1 get_request true q r' 0 (client_wf p Ep)
    (listener_wf r Er) Hf ltac:(vm_compute; split; [reflexivity|discriminate]) Hsy ltac:(rewrite Hh; lia) ltac:(lia)
    ltac:(right; rewrite B3; vm_compute; discriminate) Ha (log_agreeable 1) Eo)
    as (items & r3 & H1 & H2 & H3 & H4 & _ & _ & H5).
  rewrite Hu in H2, H3. exists p, r, q, r', 0%nat, items, r3.
  split; [reflexivity|]. split; [reflexivity|]. split; [exact Eo|]. split; [exact H1|].
  split; [exact H2|]. split; [exact H3|]. split; [exact H4|exact H5].
Defined.

End H2ProtoWitness.
