(* ===== verification/RateLimit.v ===== *)
(** * Rate limiter

    Model of [http_server/src/chttp_rate_limit.c]: token buckets per group of
    requests (all requests, a peer address, or the subject of a JWT), kept in a
    fixed table whose full buckets may be given to another group.

    The buckets' keys are the first [key_size] bytes of [key].  The table is a
    typed vector of the container library, which is not part of the sources:
    whether it could be allocated and filled is an argument of the
    initialisation, after which it is a list of [group_capacity] slots.  The
    mutex makes each admission one step.  The numbers of the two address
    families come from the network library and are parameters. *)

From S2P Require Import Prelude HpackBuffer.

Module RateLimit.

(** [CNET_DATAGRAM_ADDRESS_IPV4] and [CNET_DATAGRAM_ADDRESS_IPV6]. *)
Class AddressFamilies := {
  CNET_DATAGRAM_ADDRESS_IPV4 : Z;
  CNET_DATAGRAM_ADDRESS_IPV6 : Z;
}.

Definition CHTTP_RATE_LIMIT_KEY_BYTES : Z := 256.

Definition CHTTP_RATE_LIMIT_GLOBAL : Z := 0.
Definition CHTTP_RATE_LIMIT_PEER_IP : Z := 1.
Definition CHTTP_RATE_LIMIT_JWT_SUBJECT : Z := 2.

Definition RATE_MS_PER_SECOND : Z := 1000.
Definition RATE_IPV4_BYTES : Z := 4.
Definition RATE_IPV6_BYTES : Z := 16.
Definition RATE_LIMITED : Z := 429.
Definition RATE_CAPACITY : Z := 503.
Definition RATE_NO_SUBJECT : Z := 403.
Definition RATE_KEY_TOO_LONG : Z := 431.

Record chttp_rate_limit_config := {
  rc_scope : Z;
  rc_group_capacity : Z;
  rc_burst : Z;
  rc_refill_tokens : Z;
  rc_refill_period_ms : Z;
  rc_key_bytes : Z;
}.

Record chttp_rate_bucket := {
  rb_credit : Z;
  rb_updated_ms : Z;
  rb_key : list Z;
}.

#[export] Instance eta_rate_bucket : Eta chttp_rate_bucket :=
  fun b => Build_chttp_rate_bucket (rb_credit b) (rb_updated_ms b) (rb_key b).
#[export] Instance set_rb_credit : Setter rb_credit. Proof. mk_setter. Defined.
#[export] Instance set_rb_updated_ms : Setter rb_updated_ms. Proof. mk_setter. Defined.

Definition rate_bucket_empty : chttp_rate_bucket :=
  {| rb_credit := 0; rb_updated_ms := 0; rb_key := [] |}.

Record chttp_rate_limit_impl := {
  rl_config : chttp_rate_limit_config;
  rl_buckets : list chttp_rate_bucket;
  rl_last_ms : Z;
  rl_maximum_credit : Z;
  rl_used : nat;
}.

#[export] Instance eta_rate_limit_impl : Eta chttp_rate_limit_impl :=
  fun l => Build_chttp_rate_limit_impl (rl_config l) (rl_buckets l) (rl_last_ms l)
             (rl_maximum_credit l) (rl_used l).
#[export] Instance set_rl_buckets : Setter rl_buckets. Proof. mk_setter. Defined.
#[export] Instance set_rl_last_ms : Setter rl_last_ms. Proof. mk_setter. Defined.
#[export] Instance set_rl_used : Setter rl_used. Proof. mk_setter. Defined.

(** What the limiter reads of a request: the address of the peer and the
    claims of a validated token.  C strings are lists of non-zero bytes. *)
Record stream_peer := {
  sp_family : Z;
  sp_address : list Z;
  sp_scope_id : Z;
}.

Record jwt_claims := {
  jc_issuer : option (list Z);
  jc_subject : option (list Z);
}.

Record rate_request := {
  rq_peer : option stream_peer;
  rq_jwt_claims : option jwt_claims;
}.

Record chttp_server_admission_result := {
  ar_status_code : Z;
  ar_retry_after_seconds : Z;
}.

Definition admission_zero : chttp_server_admission_result :=
  {| ar_status_code := 0; ar_retry_after_seconds := 0 |}.

Definition sizeof_rate_bucket : Z := 280.
Definition sizeof_rate_limit_impl : Z := 168.

Section Limiter.
Context {alloc : Allocator} {families : AddressFamilies}.

(** [limiter_impl] is [limiter->impl]; [vec_ok] says that the vector could be
    allocated and filled. *)
Definition chttp_rate_limiter_init (limiter_impl : option chttp_rate_limit_impl)
    (config : chttp_rate_limit_config) (vec_ok : bool) : outcome chttp_rate_limit_impl :=
  match limiter_impl with
  | Some _ => Err SALTS_EALREADY
  | None =>
    if (rc_scope config <? CHTTP_RATE_LIMIT_GLOBAL) ||
       (CHTTP_RATE_LIMIT_JWT_SUBJECT <? rc_scope config) ||
       (rc_group_capacity config =? 0) || (rc_burst config =? 0) ||
       (rc_refill_tokens config =? 0) || (rc_refill_period_ms config =? 0) ||
       ((rc_scope config =? CHTTP_RATE_LIMIT_GLOBAL) && negb (rc_group_capacity config =? 1)) ||
       ((rc_scope config =? CHTTP_RATE_LIMIT_JWT_SUBJECT) &&
        ((rc_key_bytes config <? 2) || (CHTTP_RATE_LIMIT_KEY_BYTES <? rc_key_bytes config)))
    then Err SALTS_EINVAL
    else if SIZE_MAX / sizeof_rate_bucket <? rc_group_capacity config then Err SALTS_ERANGE
    else if negb (malloc_ok sizeof_rate_limit_impl) then Err SALTS_ENOMEM
    else if negb vec_ok then Err SALTS_ENOMEM
    else
      Ok {| rl_config := config;
            rl_buckets := replicate (Z.to_nat (rc_group_capacity config)) rate_bucket_empty;
            rl_last_ms := 0;
            rl_maximum_credit := u64 (rc_burst config * rc_refill_period_ms config);
            rl_used := 0 |}
  end.

(** The four bytes of a [uint32_t] in memory (little-endian). *)
Definition u32_bytes (z : Z) : list Z :=
  [u8 z; u8 (Z.shiftr z 8); u8 (Z.shiftr z 16); u8 (Z.shiftr z 24)].

(** The loop of [rate_key] over the issuer and the subject: the key, or [None]
    when it does not fit. *)
Fixpoint rate_key_parts (key_bytes : Z) (parts : list (list Z)) (key : list Z) : option (list Z) :=
  match parts with
  | [] => Some key
  | part :: parts =>
    let remaining := key_bytes - zlen key in
    let length := Z.min (zlen part) remaining in
    if length =? remaining then None
    else rate_key_parts key_bytes parts (key ++ ztake length part ++ [0])
  end.

(** The status, the key and [result->status_code]. *)
Definition rate_key (config : chttp_rate_limit_config) (request : rate_request) :
    salts_status * list Z * Z :=
  if rc_scope config =? CHTTP_RATE_LIMIT_GLOBAL then (SALTS_OK, [], 0)
  else if rc_scope config =? CHTTP_RATE_LIMIT_PEER_IP then
    match rq_peer request with
    | None => (SALTS_EINVAL, [], 0)
    | Some peer =>
      if negb (sp_family peer =? CNET_DATAGRAM_ADDRESS_IPV4) &&
         negb (sp_family peer =? CNET_DATAGRAM_ADDRESS_IPV6)
      then (SALTS_EINVAL, [], 0)
      else
        let size :=
          if sp_family peer =? CNET_DATAGRAM_ADDRESS_IPV4 then RATE_IPV4_BYTES
          else RATE_IPV6_BYTES in
        let key := u8 (sp_family peer) :: ztake size (sp_address peer) in
        let key :=
          if sp_family peer =? CNET_DATAGRAM_ADDRESS_IPV6
          then key ++ u32_bytes (sp_scope_id peer) else key in
        (SALTS_OK, key, 0)
    end
  else
    match rq_jwt_claims request with
    | None => (SALTS_OK, [], RATE_NO_SUBJECT)
    | Some claims =>
      match jc_subject claims with
      | None | Some [] => (SALTS_OK, [], RATE_NO_SUBJECT)
      | Some subject =>
        let issuer := match jc_issuer claims with None => [] | Some issuer => issuer end in
        match rate_key_parts (rc_key_bytes config) [issuer; subject] [] with
        | None => (SALTS_OK, [], RATE_KEY_TOO_LONG)
        | Some key => (SALTS_OK, key, 0)
        end
      end
    end.

Definition rate_ceil_div (value divisor : Z) : Z :=
  value / divisor + (if value mod divisor =? 0 then 0 else 1).

Definition rate_refill (config : chttp_rate_limit_config) (maximum_credit : Z)
    (bucket : chttp_rate_bucket) (now_ms : Z) : chttp_rate_bucket :=
  let missing := u64 (maximum_credit - rb_credit bucket) in
  let elapsed := u64 (now_ms - rb_updated_ms bucket) in
  let bucket :=
    if rate_ceil_div missing (rc_refill_tokens config) <=? elapsed
    then bucket <| rb_credit := maximum_credit |>
    else bucket <| rb_credit := u64 (rb_credit bucket + u64 (elapsed * rc_refill_tokens config)) |> in
  bucket <| rb_updated_ms := now_ms |>.

(** The loop over the used buckets from index [i] on: the buckets, the index
    of the selected one and that of the last reusable one. *)
Fixpoint rate_scan (config : chttp_rate_limit_config) (maximum_credit : Z) (key : list Z)
    (now_ms : Z) (count : nat) (buckets : list chttp_rate_bucket) (i : nat)
    (reusable : option nat) : list chttp_rate_bucket * option nat * option nat :=
  match count, buckets with
  | S count, bucket :: buckets =>
    let bucket := rate_refill config maximum_credit bucket now_ms in
    if bytes_eqb (rb_key bucket) key then (bucket :: buckets, Some i, reusable)
    else
      let reusable := if rb_credit bucket =? maximum_credit then Some i else reusable in
      let '(buckets, selected, reusable) :=
        rate_scan config maximum_credit key now_ms count buckets (S i) reusable in
      (bucket :: buckets, selected, reusable)
  | _, _ => (buckets, None, reusable)
  end.

(** The charge of one token, or the refusal with its delay. *)
Definition rate_charge (impl : chttp_rate_limit_impl) (i : nat) :
    chttp_rate_limit_impl * salts_status * chttp_server_admission_result :=
  let config := rl_config impl in
  let selected := nth i (rl_buckets impl) rate_bucket_empty in
  if rb_credit selected <? rc_refill_period_ms config then
    let delay_ms :=
      rate_ceil_div (rc_refill_period_ms config - rb_credit selected) (rc_refill_tokens config) in
    (impl, SALTS_OK,
     {| ar_status_code := RATE_LIMITED;
        ar_retry_after_seconds := u32 (rate_ceil_div delay_ms RATE_MS_PER_SECOND) |})
  else
    (impl <| rl_buckets :=
       alter (fun b => b <| rb_credit := rb_credit b - rc_refill_period_ms config |>) i
         (rl_buckets impl) |>, SALTS_OK, admission_zero).

Definition chttp_rate_limiter_admit_at (impl : chttp_rate_limit_impl) (request : rate_request)
    (now_ms : Z) : chttp_rate_limit_impl * salts_status * chttp_server_admission_result :=
  let config := rl_config impl in
  let max := rl_maximum_credit impl in
  if now_ms <? rl_last_ms impl then (impl, SALTS_EINVAL, admission_zero)
  else
    let '(status, key, code) := rate_key config request in
    let result := {| ar_status_code := code; ar_retry_after_seconds := 0 |} in
    if negb (bool_decide (status = SALTS_OK)) || negb (code =? 0) then (impl, status, result)
    else
      let impl := impl <| rl_last_ms := now_ms |> in
      let count := rl_used impl in
      let '(buckets, selected, reusable) :=
        rate_scan config max key now_ms count (rl_buckets impl) 0 None in
      let impl := impl <| rl_buckets := buckets |> in
      let fresh := {| rb_credit := max; rb_updated_ms := now_ms; rb_key := key |} in
      match selected with
      | Some i => rate_charge impl i
      | None =>
        match reusable with
        | Some i => rate_charge (impl <| rl_buckets := <[i := fresh]> (rl_buckets impl) |>) i
        | None =>
          if Z.of_nat count <? rc_group_capacity config then
            rate_charge (impl <| rl_buckets := <[count := fresh]> (rl_buckets impl) |>
                              <| rl_used := S count |>) count
          else
            (impl, SALTS_OK, {| ar_status_code := RATE_CAPACITY; ar_retry_after_seconds := 0 |})
        end
      end.

End Limiter.

(** ** Token buckets *)

(** The credit that a bucket has grown to at time [t]. *)
Definition bucket_credit (config : chttp_rate_limit_config) (max : Z) (b : chttp_rate_bucket)
    (t : Z) : Z :=
  Z.min max (rb_credit b + (t - rb_updated_ms b) * rc_refill_tokens config).

Lemma rate_ceil_div_spec v d x : 0 <= v -> 0 < d -> (rate_ceil_div v d <= x <-> v <= x * d).
Proof.
  intros Hv Hd. unfold rate_ceil_div. pose proof (Z.div_mod v d ltac:(lia)) as E.
  pose proof (Z.mod_pos_bound v d Hd) as Hm. set (q := v / d) in *. set (r := v mod d) in *.
  clearbody q r. destruct (Z.eqb_spec r 0); split; intros H; nia.
Qed.

Record config_ok (c : chttp_rate_limit_config) : Prop := {
  co_tokens : 0 < rc_refill_tokens c < 2 ^ 32;
  co_period : 0 < rc_refill_period_ms c < 2 ^ 32;
  co_burst : 0 < rc_burst c < 2 ^ 32;
  co_capacity : 0 < rc_group_capacity c;
}.

Definition bucket_ok (max last : Z) (b : chttp_rate_bucket) : Prop :=
  0 <= rb_credit b <= max /\ 0 <= rb_updated_ms b <= last.

Section Buckets.
Context (config : chttp_rate_limit_config) (max : Z).
Context (Hconfig : config_ok config) (Hmax : 0 <= max < 2 ^ 64).

#[local] Abbreviation tokens := (rc_refill_tokens config).
#[local] Abbreviation credit := (bucket_credit config max).

(** Refilling gives a bucket its credit of the moment; nothing overflows. *)
Lemma refill_credit b last now :
  bucket_ok max last b -> last <= now < 2 ^ 64 ->
  rate_refill config max b now =
    {| rb_credit := credit b now; rb_updated_ms := now; rb_key := rb_key b |}.
Proof.
  intros [Hc Hu] Hn. unfold rate_refill, bucket_credit, u64. pose proof (co_tokens _ Hconfig) as Ht.
  rewrite (Z.mod_small (max - rb_credit b)), (Z.mod_small (now - rb_updated_ms b)) by lia.
  pose proof (rate_ceil_div_spec (max - rb_credit b) tokens (now - rb_updated_ms b)
    ltac:(lia) ltac:(lia)) as Hd.
  destruct (Z.leb_spec (rate_ceil_div (max - rb_credit b) tokens) (now - rb_updated_ms b)) as [Hle|Hgt].
  - apply Hd in Hle. destruct b as [c u k]; cbn in *.
    unfold set_rb_updated_ms, set_rb_credit. cbn. f_equal. lia.
  - assert ((now - rb_updated_ms b) * tokens < max - rb_credit b) as Hlt by lia.
    assert (0 <= (now - rb_updated_ms b) * tokens) by (apply Z.mul_nonneg_nonneg; lia).
    destruct b as [c u k]; cbn in *. rewrite (Z.mod_small ((now - u) * tokens)) by lia.
    rewrite Z.mod_small by lia. unfold set_rb_updated_ms, set_rb_credit. cbn. f_equal. lia.
Qed.

(** A bucket that may have been refilled at [now]. *)
Definition refreshed (now : Z) (b b' : chttp_rate_bucket) : Prop :=
  b' = b \/ b' = rate_refill config max b now.

Lemma refreshed_credit last now b b' t :
  bucket_ok max last b -> last <= now < 2 ^ 64 -> refreshed now b b' -> now <= t ->
  rb_key b' = rb_key b /\ credit b' t = credit b t /\ bucket_ok max now b'.
Proof.
  intros Hok Hn Hr Ht. assert (bucket_ok max now b) as Hok' by (destruct Hok; split; lia).
  destruct Hr as [->| ->]; [done|]. rewrite (refill_credit b last now Hok Hn).
  split; [done|]. destruct Hok as [Hc Hu]. pose proof (co_tokens _ Hconfig).
  assert (0 <= (now - rb_updated_ms b) * tokens) by (apply Z.mul_nonneg_nonneg; lia).
  assert (0 <= (t - now) * tokens) by (apply Z.mul_nonneg_nonneg; lia).
  unfold bucket_ok, bucket_credit. cbn. split; [|lia].
  replace ((t - rb_updated_ms b) * tokens)
    with ((now - rb_updated_ms b) * tokens + (t - now) * tokens) by ring. lia.
Qed.

(** ** The table *)

(** The credit of the group [key] in a table: a group without a bucket has all
    of its tokens. *)
Definition group_credit (act : list chttp_rate_bucket) (key : list Z) (t : Z) : Z :=
  match list_find (fun b => rb_key b = key) act with
  | Some (_, b) => credit b t
  | None => max
  end.

Lemma group_credit_held act j b t :
  NoDup (map rb_key act) -> act !! j = Some b -> group_credit act (rb_key b) t = credit b t.
Proof.
  intros Hnd Hj. unfold group_credit. destruct (list_find _ act) as [[k b']|] eqn:Hf.
  - apply list_find_Some in Hf as (Hk & Hkey & _). assert (j = k) as <-; [|congruence].
    eapply NoDup_lookup; [exact Hnd| |]; rewrite list_lookup_fmap; [by rewrite Hj|rewrite Hk; cbn; congruence].
  - apply list_find_None in Hf. rewrite Forall_lookup in Hf. by destruct (Hf j b Hj).
Qed.

Lemma group_credit_free act key t :
  Forall (fun b => rb_key b <> key) act -> group_credit act key t = max.
Proof.
  intros Hf. unfold group_credit. destruct (list_find _ act) as [[k b']|] eqn:Hk; [|done].
  apply list_find_Some in Hk as (Hk & Hkey & _). by destruct (Forall_lookup_1 _ _ _ _ Hf Hk).
Qed.

(** Every group has one bucket, or none. *)
Lemma held_or_free act key :
  (exists j b, act !! j = Some b /\ rb_key b = key) \/ Forall (fun b => rb_key b <> key) act.
Proof.
  destruct (list_find (fun b => rb_key b = key) act) as [[j b]|] eqn:Hf.
  - apply list_find_Some in Hf as (Hj & Hk & _). left. eauto.
  - right. by apply list_find_None in Hf.
Qed.

Lemma refreshed_group act act' last now key t :
  Forall (bucket_ok max last) act -> last <= now < 2 ^ 64 -> Forall2 (refreshed now) act act' ->
  now <= t -> group_credit act' key t = group_credit act key t.
Proof.
  intros Hok Hn Hr Ht. unfold group_credit.
  induction Hr as [|b b' act act' Hb Hr IH]; [done|]. apply Forall_cons in Hok as [Hb0 Hok].
  destruct (refreshed_credit last now b b' t Hb0 Hn Hb Ht) as (Hk & Hc & _).
  specialize (IH Hok). cbn [list_find]. rewrite Hk. destruct (decide (rb_key b = key)); [done|].
  destruct (list_find _ act) as [[? ?]|], (list_find _ act') as [[? ?]|]; cbn in *; done.
Qed.

Lemma refreshed_table act act' last now :
  Forall (bucket_ok max last) act -> last <= now < 2 ^ 64 -> Forall2 (refreshed now) act act' ->
  map rb_key act' = map rb_key act /\ Forall (bucket_ok max now) act'.
Proof.
  intros Hok Hn Hr. induction Hr as [|b b' act act' Hb Hr IH]; [done|].
  apply Forall_cons in Hok as [Hb0 Hok]. destruct (IH Hok) as [E Hok'].
  destruct (refreshed_credit last now b b' now Hb0 Hn Hb ltac:(lia)) as (Hk & _ & Hb').
  cbn. rewrite Hk, E. split; [done|by constructor].
Qed.

(** ** The scan *)

(** What the scan found: the group's own bucket, else one that is full, else
    that no bucket is the group's and none is full. *)
Definition scan_found (key : list Z) (now : Z) (act : list chttp_rate_bucket)
    (selected reusable : option nat) : Prop :=
  match selected with
  | Some k => exists b, act !! k = Some b /\ rb_key b = key /\ rb_updated_ms b = now
  | None =>
    Forall (fun b => rb_key b <> key /\ rb_updated_ms b = now) act /\
    match reusable with
    | Some k => exists b, act !! k = Some b /\ rb_credit b = max /\ rb_updated_ms b = now
    | None => Forall (fun b => rb_credit b <> max) act
    end
  end.

Lemma scan_spec key now last count : forall buckets pre reusable,
  Forall (bucket_ok max last) (take count buckets) -> last <= now < 2 ^ 64 ->
  (count <= length buckets)%nat -> scan_found key now pre None reusable ->
  let '(buckets', selected, reusable') :=
    rate_scan config max key now count buckets (length pre) reusable in
  exists act, buckets' = act ++ drop count buckets /\
    Forall2 (refreshed now) (take count buckets) act /\
    scan_found key now (pre ++ act) selected reusable'.
Proof.
  induction count as [|count IH]; intros buckets pre reusable Hok Hn Hlen Hpre; cbn [rate_scan].
  { exists []. rewrite app_nil_r, drop_0, take_0. split_and!; [done|apply Forall2_nil_2|done]. }
  destruct buckets as [|b buckets]; [cbn in Hlen; lia|]. cbn [take drop] in *.
  apply Forall_cons in Hok as [Hb Hok]. set (b' := rate_refill config max b now).
  assert (refreshed now b b') as Hr by (by right).
  assert (b' = {| rb_credit := credit b now; rb_updated_ms := now; rb_key := rb_key b |}) as Eb
    by (by apply (refill_credit b last now)).
  assert (length (pre ++ [b']) = S (length pre)) as Elen by (rewrite length_app; cbn; lia).
  assert ((pre ++ [b']) !! length pre = Some b') as Elook by (by apply list_lookup_middle).
  destruct Hpre as [Hkeys Hfull].
  destruct (bytes_eqb (rb_key b') key) eqn:Ek.
  { apply bytes_eqb_eq in Ek. exists (b' :: take count buckets). split_and!.
    - cbn. by rewrite take_drop.
    - constructor; [done|]. apply Forall2_same_length_lookup_2; [done|].
      intros j x y Hx Hy. rewrite Hx in Hy. left. by injection Hy as ->.
    - exists b'. split_and!; [|done|by rewrite Eb]. by apply list_lookup_middle. }
  assert (rb_key b' <> key) as Hne.
  { intros E. rewrite <- bytes_eqb_eq in E. congruence. }
  set (re := if rb_credit b' =? max then Some (length pre) else reusable).
  assert (scan_found key now (pre ++ [b']) None re) as Hpre'.
  { split; [apply Forall_app; split; [done|constructor; [by rewrite Eb in *|constructor]]|]. unfold re.
    destruct (Z.eqb_spec (rb_credit b') max) as [Hm|Hm];
      [exists b'; split_and!; [exact Elook|exact Hm|by rewrite Eb]|].
    destruct reusable as [k|]; [|apply Forall_app; by split; [|constructor]].
    destruct Hfull as (x & Hx & Hx'). exists x. split; [|done]. by apply lookup_app_l_Some. }
  specialize (IH buckets (pre ++ [b']) re Hok Hn ltac:(cbn in Hlen; lia) Hpre').
  rewrite Elen in IH. destruct (rate_scan _ _ _ _ _ _ _ _) as [[bs sel] re'].
  destruct IH as (act & -> & Hact & Hf). exists (b' :: act). split_and!; [done|by constructor|].
  by rewrite <- app_assoc in Hf.
Qed.

(** ** Replacing a bucket *)

Lemma insert_keys_free act i b b' :
  NoDup (map rb_key act) -> act !! i = Some b -> rb_key b <> rb_key b' ->
  Forall (fun x => rb_key x <> rb_key b) (<[i := b']> act).
Proof.
  intros Hnd Hi Hne. apply Forall_lookup. intros j x Hx.
  apply list_lookup_insert_Some in Hx as [(-> & <- & _)|[Hij Hx]]; [done|]. intros E.
  apply Hij. eapply NoDup_lookup; [exact Hnd| |]; rewrite list_lookup_fmap.
  - by rewrite Hi.
  - by rewrite Hx, <- E.
Qed.

Lemma insert_group_other act i b b' key t :
  NoDup (map rb_key act) -> NoDup (map rb_key (<[i := b']> act)) -> act !! i = Some b ->
  key <> rb_key b' ->
  group_credit (<[i := b']> act) key t =
    if decide (key = rb_key b) then max else group_credit act key t.
Proof.
  intros Hnd Hnd' Hi Hne. case_decide as Hk.
  { subst key. apply group_credit_free. by apply insert_keys_free. }
  destruct (held_or_free act key) as [(j & x & Hj & <-)|Hf].
  - rewrite (group_credit_held act j x t Hnd Hj). apply (group_credit_held _ j); [done|].
    rewrite list_lookup_insert_ne; [done|]. intros ->. congruence.
  - rewrite (group_credit_free act key t Hf). apply group_credit_free. by apply Forall_insert.
Qed.

Lemma insert_group_same act i b b' key t :
  NoDup (map rb_key act) -> act !! i = Some b -> rb_key b' = rb_key b -> key <> rb_key b ->
  group_credit (<[i := b']> act) key t = group_credit act key t.
Proof.
  intros Hnd Hi Hk Hne.
  assert (map rb_key (<[i := b']> act) = map rb_key act) as E.
  { change (rb_key <$> <[i := b']> act = rb_key <$> act). rewrite list_fmap_insert, Hk.
    apply list_insert_id. by rewrite list_lookup_fmap, Hi. }
  rewrite (insert_group_other act i b b' key t Hnd); [|by rewrite E|done|congruence].
  by case_decide.
Qed.

Lemma app_group_other act b key t :
  NoDup (map rb_key (act ++ [b])) -> key <> rb_key b ->
  group_credit (act ++ [b]) key t = group_credit act key t.
Proof.
  intros Hnd Hne. destruct (held_or_free act key) as [(j & x & Hj & <-)|Hf].
  - rewrite (group_credit_held act j x t); [|by rewrite map_app in Hnd; apply NoDup_app in Hnd as [? _]|done].
    apply (group_credit_held _ j); [done|]. by apply lookup_app_l_Some.
  - rewrite (group_credit_free act key t Hf). apply group_credit_free.
    apply Forall_app. split; [done|]. constructor; [congruence|constructor].
Qed.

End Buckets.

(** ** The limiter *)

Definition active (l : chttp_rate_limit_impl) : list chttp_rate_bucket :=
  take (rl_used l) (rl_buckets l).

Record limiter_wf (l : chttp_rate_limit_impl) : Prop := {
  lw_config : config_ok (rl_config l);
  lw_max : rl_maximum_credit l = rc_burst (rl_config l) * rc_refill_period_ms (rl_config l);
  lw_table : length (rl_buckets l) = Z.to_nat (rc_group_capacity (rl_config l));
  lw_used : (rl_used l <= length (rl_buckets l))%nat;
  lw_last : 0 <= rl_last_ms l < 2 ^ 64;
  lw_buckets : Forall (bucket_ok (rl_maximum_credit l) (rl_last_ms l)) (active l);
  lw_keys : NoDup (map rb_key (active l));
}.

(** The tokens of a group at time [t], in units of a token per period. *)
Definition credit_of (l : chttp_rate_limit_impl) (key : list Z) (t : Z) : Z :=
  group_credit (rl_config l) (rl_maximum_credit l) (active l) key t.

Lemma limiter_max l :
  limiter_wf l -> rc_refill_period_ms (rl_config l) <= rl_maximum_credit l < 2 ^ 64.
Proof.
  intros [[] Hm _ _ _ _ _]. rewrite Hm. split; [nia|].
  apply Z.le_lt_trans with ((2 ^ 32 - 1) * (2 ^ 32 - 1)); [apply Z.mul_le_mono_nonneg; lia|lia].
Qed.

(** The table after a bucket was replaced by one that is in order. *)
Lemma limiter_wf_set l i b b' :
  limiter_wf l -> active l !! i = Some b -> bucket_ok (rl_maximum_credit l) (rl_last_ms l) b' ->
  NoDup (map rb_key (<[i := b']> (active l))) ->
  let l' := l <| rl_buckets := <[i := b']> (rl_buckets l) |> in
  limiter_wf l' /\ active l' = <[i := b']> (active l).
Proof.
  intros [C M T U L B K] Hi Hb Hnd. cbv zeta.
  assert (i < rl_used l)%nat as Hlt.
  { apply lookup_lt_Some in Hi. unfold active in Hi. rewrite length_take in Hi. lia. }
  assert (active (l <| rl_buckets := <[i := b']> (rl_buckets l) |>) = <[i := b']> (active l)) as E
    by (unfold active; cbn; by rewrite take_insert_lt).
  split; [|done]. split; [exact C|exact M|cbn; by rewrite length_insert|cbn; by rewrite length_insert|
    exact L|rewrite E; by apply Forall_insert|by rewrite E].
Qed.

(** What an admission does to the credit of the groups from time [now] on: the
    group [key] loses [spent], the others nothing. *)
Definition spends (l l' : chttp_rate_limit_impl) (key : list Z) (spent now : Z) : Prop :=
  forall k t, now <= t ->
    credit_of l' k t =
      if decide (k = key)
      then Z.min (rl_maximum_credit l)
             (credit_of l key now - spent + (t - now) * rc_refill_tokens (rl_config l))
      else credit_of l k t.

Definition kept_config (l l' : chttp_rate_limit_impl) : Prop :=
  rl_config l' = rl_config l /\ rl_maximum_credit l' = rl_maximum_credit l.

(** A bucket that was refilled at the time of the table. *)
Lemma credit_of_now l i b t :
  limiter_wf l -> active l !! i = Some b -> rb_updated_ms b = rl_last_ms l -> rl_last_ms l <= t ->
  credit_of l (rb_key b) (rl_last_ms l) = rb_credit b /\
  credit_of l (rb_key b) t =
    Z.min (rl_maximum_credit l) (rb_credit b + (t - rl_last_ms l) * rc_refill_tokens (rl_config l)).
Proof.
  intros Hwf Hi Hu Ht. unfold credit_of. destruct Hwf as [C M T U L B K].
  rewrite !(group_credit_held _ _ _ i b _ K Hi). unfold bucket_credit. rewrite Hu.
  pose proof (Forall_lookup_1 _ _ _ _ B Hi) as [Hc _]. split; lia.
Qed.

Lemma charge_spec l i b :
  limiter_wf l -> active l !! i = Some b -> rb_updated_ms b = rl_last_ms l ->
  let period := rc_refill_period_ms (rl_config l) in
  let c := credit_of l (rb_key b) (rl_last_ms l) in
  let '(l', status, result) := rate_charge l i in
  status = SALTS_OK /\ limiter_wf l' /\ kept_config l l' /\ rl_last_ms l' = rl_last_ms l /\
  if c <? period then
    l' = l /\ result = {| ar_status_code := RATE_LIMITED;
                          ar_retry_after_seconds :=
                            u32 (rate_ceil_div (rate_ceil_div (period - c) (rc_refill_tokens (rl_config l)))
                                   RATE_MS_PER_SECOND) |}
  else result = admission_zero /\ spends l l' (rb_key b) period (rl_last_ms l).
Proof.
  intros Hwf Hi Hu. cbv zeta. destruct (credit_of_now l i b _ Hwf Hi Hu (Z.le_refl _)) as [-> _].
  unfold rate_charge.
  assert (rl_buckets l !! i = Some b) as Hl by (unfold active in Hi; by apply lookup_take_Some in Hi as [? _]).
  rewrite (nth_lookup_Some _ _ _ b Hl).
  destruct (Z.ltb_spec (rb_credit b) (rc_refill_period_ms (rl_config l))) as [Hlt|Hge]; [done|].
  set (b' := b <| rb_credit := rb_credit b - rc_refill_period_ms (rl_config l) |>).
  assert (alter (fun b => b <| rb_credit := rb_credit b - rc_refill_period_ms (rl_config l) |>) i
    (rl_buckets l) = <[i := b']> (rl_buckets l)) as ->.
  { apply list_eq. intros j. rewrite list_lookup_alter. case_decide as Hj.
    - subst j. rewrite Hl. cbn. by rewrite list_lookup_insert_eq by (by eapply lookup_lt_Some).
    - by rewrite list_lookup_insert_ne. }
  pose proof (Forall_lookup_1 _ _ _ _ (lw_buckets _ Hwf) Hi) as [Hc Hup].
  assert (map rb_key (<[i := b']> (active l)) = map rb_key (active l)) as E.
  { change (rb_key <$> <[i := b']> (active l) = rb_key <$> active l). rewrite list_fmap_insert.
    apply list_insert_id. by rewrite list_lookup_fmap, Hi. }
  destruct (limiter_wf_set l i b b' Hwf Hi) as [Hwf' Ha];
    [split; cbn; pose proof (co_period _ (lw_config _ Hwf)); lia|rewrite E; apply Hwf|].
  split_and!; try done. intros k t Ht. case_decide as Hk.
  - subst k. destruct (credit_of_now l i b _ Hwf Hi Hu (Z.le_refl _)) as [-> _].
    change (rb_key b) with (rb_key b').
    destruct (credit_of_now _ i b' t Hwf') as [_ ->]; [rewrite Ha|done|done|done].
    apply list_lookup_insert_eq. by eapply lookup_lt_Some.
  - unfold credit_of. rewrite Ha. by apply (insert_group_same _ _ _ _ b b' k t (lw_keys _ Hwf) Hi).
Qed.

(** The table after the scan. *)
Lemma limiter_wf_scan l now act :
  limiter_wf l -> rl_last_ms l <= now < 2 ^ 64 ->
  Forall2 (refreshed (rl_config l) (rl_maximum_credit l) now) (active l) act ->
  let l1 := l <| rl_last_ms := now |> <| rl_buckets := act ++ drop (rl_used l) (rl_buckets l) |> in
  limiter_wf l1 /\ active l1 = act /\
  (forall k t, now <= t -> credit_of l1 k t = credit_of l k t).
Proof.
  intros Hwf Hn Hr. cbv zeta. pose proof (limiter_max l Hwf) as Hmax.
  pose proof (co_period _ (lw_config _ Hwf)) as Hper. destruct Hwf as [C M T U L B K].
  assert (length act = rl_used l) as Hlen.
  { apply Forall2_length in Hr. unfold active in Hr. rewrite length_take in Hr. lia. }
  set (l1 := l <| rl_last_ms := now |> <| rl_buckets := _ |>).
  assert (active l1 = act) as Ha by (unfold active, l1; cbn; rewrite <- Hlen; apply take_app_length).
  destruct (refreshed_table (rl_config l) (rl_maximum_credit l) C ltac:(lia) (active l) act _ now B Hn Hr)
    as [Ek Hb].
  split_and!; [|done|].
  - split; [exact C|exact M| | |unfold l1; cbn; lia|rewrite Ha; exact Hb|rewrite Ha, Ek; exact K];
      unfold l1; cbn; rewrite length_app, length_drop; lia.
  - intros k t Ht. unfold credit_of. rewrite Ha.
    exact (refreshed_group (rl_config l) (rl_maximum_credit l) C ltac:(lia) (active l) act _ now k t B Hn Hr Ht).
Qed.

(** A full bucket for a group that had none, in place of a full bucket or in a
    new slot, changes the credit of no group. *)
Lemma assign_reused l i b key :
  limiter_wf l -> active l !! i = Some b -> rb_credit b = rl_maximum_credit l ->
  rb_updated_ms b = rl_last_ms l -> Forall (fun b => rb_key b <> key) (active l) ->
  let fresh := {| rb_credit := rl_maximum_credit l; rb_updated_ms := rl_last_ms l; rb_key := key |} in
  let l2 := l <| rl_buckets := <[i := fresh]> (rl_buckets l) |> in
  limiter_wf l2 /\ active l2 !! i = Some fresh /\
  (forall k t, rl_last_ms l <= t -> credit_of l2 k t = credit_of l k t).
Proof.
  intros Hwf Hi Hc Hu Hf fresh. cbv zeta. pose proof (limiter_max l Hwf) as Hmax.
  pose proof (co_period _ (lw_config _ Hwf)) as Hper. pose proof (lw_last _ Hwf) as Hlast.
  assert (NoDup (map rb_key (<[i := fresh]> (active l)))) as Hnd.
  { change (NoDup (rb_key <$> <[i := fresh]> (active l))). rewrite list_fmap_insert.
    apply nodup_insert; [apply Hwf|]. intros Hin. apply list_elem_of_fmap in Hin as (x & Hx & Hin).
    rewrite Forall_forall in Hf. by apply (Hf x). }
  destruct (limiter_wf_set l i b fresh Hwf Hi) as [Hwf' Ha]; [split; cbn; lia|done|].
  set (l2 := l <| rl_buckets := _ |>) in *.
  assert (active l2 !! i = Some fresh) as Hi2.
  { rewrite Ha. apply list_lookup_insert_eq. by eapply lookup_lt_Some. }
  split_and!; [done|done|]. intros k t Ht.
  assert (0 <= (t - rl_last_ms l) * rc_refill_tokens (rl_config l)) as Hpos.
  { pose proof (co_tokens _ (lw_config _ Hwf)). apply Z.mul_nonneg_nonneg; lia. }
  destruct (decide (k = key)) as [->|Hk].
  - destruct (credit_of_now l2 i fresh t Hwf' Hi2 eq_refl Ht) as [_ E].
    change (rb_key fresh) with key in E. rewrite E. cbn. unfold credit_of.
    rewrite group_credit_free by done. lia.
  - unfold credit_of at 1. rewrite Ha.
    change (rl_config l2) with (rl_config l). change (rl_maximum_credit l2) with (rl_maximum_credit l).
    rewrite (insert_group_other _ _ _ i b fresh k t (lw_keys _ Hwf) Hnd Hi Hk).
    case_decide as Hkb; [|done]. subst k.
    destruct (credit_of_now l i b t Hwf Hi Hu Ht) as [_ ->]. lia.
Qed.

Lemma assign_new l key :
  limiter_wf l -> Forall (fun b => rb_key b <> key) (active l) ->
  Z.of_nat (rl_used l) < rc_group_capacity (rl_config l) ->
  let fresh := {| rb_credit := rl_maximum_credit l; rb_updated_ms := rl_last_ms l; rb_key := key |} in
  let l2 := l <| rl_buckets := <[rl_used l := fresh]> (rl_buckets l) |> <| rl_used := S (rl_used l) |> in
  limiter_wf l2 /\ active l2 !! rl_used l = Some fresh /\
  (forall k t, rl_last_ms l <= t -> credit_of l2 k t = credit_of l k t).
Proof.
  intros Hwf Hf Hcap fresh. cbv zeta. pose proof (limiter_max l Hwf) as Hmax.
  pose proof (co_period _ (lw_config _ Hwf)) as Hper. pose proof (lw_last _ Hwf) as Hlast.
  pose proof (lw_table _ Hwf) as Htab.
  set (l2 := l <| rl_buckets := _ |> <| rl_used := _ |>).
  assert (active l2 = active l ++ [fresh]) as Ha.
  { unfold active. change (rl_used l2) with (S (rl_used l)).
    change (rl_buckets l2) with (<[rl_used l := fresh]> (rl_buckets l)).
    rewrite (take_S_r _ _ fresh) by (apply list_lookup_insert_eq; lia).
    f_equal. apply take_insert_ge. lia. }
  assert (active l2 !! rl_used l = Some fresh) as Hi2.
  { rewrite Ha. apply list_lookup_middle. unfold active. rewrite length_take. lia. }
  assert (NoDup (map rb_key (active l ++ [fresh]))) as Hnd.
  { rewrite map_app. apply NoDup_app. split_and!; [apply Hwf| |apply NoDup_singleton].
    intros x Hx Hx'. apply list_elem_of_singleton in Hx' as ->.
    apply list_elem_of_fmap in Hx as (y & Hy & Hin). rewrite Forall_forall in Hf. by apply (Hf y). }
  assert (limiter_wf l2) as Hwf'.
  { destruct Hwf as [C M T U L B K]. split; [exact C|exact M|unfold l2; cbn; by rewrite length_insert| |
      exact L|rewrite Ha; apply Forall_app; split; [exact B|]|by rewrite Ha].
    - unfold l2. cbn. rewrite length_insert. lia.
    - constructor; [|constructor]. split; cbn; lia. }
  split_and!; [done|done|]. intros k t Ht.
  assert (0 <= (t - rl_last_ms l) * rc_refill_tokens (rl_config l)) as Hpos.
  { pose proof (co_tokens _ (lw_config _ Hwf)). apply Z.mul_nonneg_nonneg; lia. }
  destruct (decide (k = key)) as [->|Hk].
  - destruct (credit_of_now l2 _ fresh t Hwf' Hi2 eq_refl Ht) as [_ E].
    change (rb_key fresh) with key in E. rewrite E. cbn. unfold credit_of.
    rewrite group_credit_free by done. lia.
  - unfold credit_of. rewrite Ha. by apply app_group_other.
Qed.

(** The delay that a refusal announces. *)
Definition retry_after (config : chttp_rate_limit_config) (c : Z) : Z :=
  u32 (rate_ceil_div (rate_ceil_div (rc_refill_period_ms config - c) (rc_refill_tokens config))
         RATE_MS_PER_SECOND).

(** The decision on a request of the group [key], as independent token buckets
    would take it. *)
Definition decided (l l' : chttp_rate_limit_impl) (key : list Z) (now : Z)
    (result : chttp_server_admission_result) : Prop :=
  let c := credit_of l key now in
  let period := rc_refill_period_ms (rl_config l) in
  (ar_status_code result = 0 /\ period <= c /\ spends l l' key period now) \/
  (ar_status_code result = RATE_LIMITED /\ c < period /\ spends l l' key 0 now /\
   ar_retry_after_seconds result = retry_after (rl_config l) c) \/
  (ar_status_code result = RATE_CAPACITY /\ spends l l' key 0 now /\
   Z.of_nat (rl_used l) = rc_group_capacity (rl_config l) /\
   forall k, k ∈ map rb_key (active l) -> k <> key /\ credit_of l k now < rl_maximum_credit l).

Lemma spends_nothing l l' key now :
  limiter_wf l -> (forall k t, now <= t -> credit_of l' k t = credit_of l k t) ->
  rl_last_ms l <= now -> spends l l' key 0 now.
Proof.
  intros Hwf Hk Hn k t Ht. rewrite Hk by done. case_decide as E; [subst k|done].
  pose proof (co_tokens _ (lw_config _ Hwf)) as Htok. unfold credit_of.
  assert (0 <= (t - now) * rc_refill_tokens (rl_config l)) by (apply Z.mul_nonneg_nonneg; lia).
  destruct (held_or_free (active l) key) as [(j & b & Hj & <-)|Hf].
  - rewrite !(group_credit_held _ _ _ j b _ (lw_keys _ Hwf) Hj). unfold bucket_credit.
    replace ((t - rb_updated_ms b) * rc_refill_tokens (rl_config l))
      with ((now - rb_updated_ms b) * rc_refill_tokens (rl_config l) +
            (t - now) * rc_refill_tokens (rl_config l)) by ring. lia.
  - rewrite !group_credit_free by done. lia.
Qed.

(** Charging a bucket of a table whose credits are those of [l]. *)
Lemma charge_decides l l2 i b now :
  limiter_wf l -> limiter_wf l2 -> kept_config l l2 -> rl_last_ms l2 = now -> rl_last_ms l <= now ->
  active l2 !! i = Some b -> rb_updated_ms b = now ->
  (forall k t, now <= t -> credit_of l2 k t = credit_of l k t) ->
  let '(l', status, result) := rate_charge l2 i in
  status = SALTS_OK /\ limiter_wf l' /\ kept_config l l' /\ rl_last_ms l' = now /\
  decided l l' (rb_key b) now result.
Proof.
  intros Hwf Hwf2 [Kc Km] Hnow Hle Hi Hu Hsame.
  pose proof (charge_spec l2 i b Hwf2 Hi ltac:(congruence)) as Hs. cbv zeta in Hs.
  rewrite Hnow, (Hsame (rb_key b) now ltac:(lia)), Kc in Hs.
  destruct (rate_charge l2 i) as [[l' st] res]. destruct Hs as (-> & Hwf' & [Kc' Km'] & Hl' & Hs).
  split_and!; [done|done|split; congruence|congruence|]. unfold decided. cbv zeta.
  destruct (Z.ltb_spec (credit_of l (rb_key b) now) (rc_refill_period_ms (rl_config l))) as [Hlt|Hge].
  - destruct Hs as [-> ->]. right. left. split_and!; [done|done| |done].
    by apply spends_nothing.
  - destruct Hs as [-> Hsp]. left. split_and!; [done|done|]. intros k t Ht.
    rewrite (Hsp k t Ht), Km, Kc, !Hsame by lia. done.
Qed.

Section Admission.
Context {families : AddressFamilies}.

Lemma admit_decides l request now key :
  limiter_wf l -> rl_last_ms l <= now < 2 ^ 64 ->
  rate_key (rl_config l) request = (SALTS_OK, key, 0) ->
  let '(l', status, result) := chttp_rate_limiter_admit_at l request now in
  status = SALTS_OK /\ limiter_wf l' /\ kept_config l l' /\ rl_last_ms l' = now /\
  decided l l' key now result.
Proof.
  intros Hwf Hn Hkey. unfold chttp_rate_limiter_admit_at. rewrite Hkey.
  replace (now <? rl_last_ms l) with false by lia. cbn [negb bool_decide orb Z.eqb].
  change (rl_used (l <| rl_last_ms := now |>)) with (rl_used l).
  change (rl_buckets (l <| rl_last_ms := now |>)) with (rl_buckets l).
  pose proof (scan_spec (rl_config l) (rl_maximum_credit l) (lw_config _ Hwf)
    ltac:(pose proof (limiter_max l Hwf); pose proof (co_period _ (lw_config _ Hwf)); lia)
    key now (rl_last_ms l) (rl_used l) (rl_buckets l) [] None (lw_buckets _ Hwf) Hn (lw_used _ Hwf)
    ltac:(split; apply Forall_nil_2)) as Hscan.
  change (length []) with O in Hscan.
  destruct (rate_scan _ _ _ _ _ _ _ _) as [[bs sel] re]. destruct Hscan as (act & -> & Hr & Hf).
  change ([] ++ act) with act in Hf.
  destruct (limiter_wf_scan l now act Hwf Hn Hr) as (Hwf1 & Ha & Hsame).
  set (l1 := l <| rl_last_ms := now |> <| rl_buckets := _ |>) in *.
  assert (kept_config l l1) as Hk1 by done. rewrite <- Ha in Hf. destruct sel as [i|].
  { destruct Hf as (b & Hi & <- & Hu). apply (charge_decides l l1 i b now); try done; lia. }
  destruct Hf as [Hall Hf].
  assert (Forall (fun b => rb_key b <> key) (active l1)) as Hfree
    by (eapply Forall_impl; [exact Hall|]; by intros ? [? _]).
  destruct re as [i|].
  { destruct Hf as (b & Hi & Hc & Hu).
    destruct (assign_reused l1 i b key Hwf1 Hi Hc Hu Hfree) as (Hwf2 & Hi2 & Hsame2).
    apply (charge_decides l _ i {| rb_credit := rl_maximum_credit l1; rb_updated_ms := now; rb_key := key |} now);
      try done; [lia|]. intros k t Ht. rewrite Hsame2 by done. by apply Hsame. }
  destruct (Z.ltb_spec (Z.of_nat (rl_used l)) (rc_group_capacity (rl_config l))) as [Hlt|Hge].
  { destruct (assign_new l1 key Hwf1 Hfree Hlt) as (Hwf2 & Hi2 & Hsame2).
    apply (charge_decides l _ (rl_used l)
      {| rb_credit := rl_maximum_credit l1; rb_updated_ms := now; rb_key := key |} now);
      try done; [lia|]. intros k t Ht. rewrite Hsame2 by done. by apply Hsame. }
  split_and!; try done. right. right. split_and!; [done|apply spends_nothing; [done|exact Hsame|lia]| |].
  { pose proof (lw_used _ Hwf). pose proof (lw_table _ Hwf).
    pose proof (co_capacity _ (lw_config _ Hwf)). cbn. lia. }
  intros k Hk. rewrite <- (Hsame k now) by lia.
  assert (map rb_key (active l) = map rb_key (active l1)) as Ek.
  { rewrite Ha. symmetry. eapply refreshed_table; [apply Hwf| |apply (lw_buckets _ Hwf)|exact Hn|exact Hr].
    pose proof (limiter_max l Hwf). pose proof (co_period _ (lw_config _ Hwf)). lia. }
  rewrite Ek in Hk. apply list_elem_of_fmap in Hk as (b & -> & Hin).
  apply list_elem_of_lookup_1 in Hin as [j Hj].
  pose proof (Forall_lookup_1 _ _ _ _ Hall Hj) as [Hb1 Hb2]. split; [done|].
  destruct (credit_of_now l1 j b now Hwf1 Hj Hb2 ltac:(cbn; lia)) as [E _].
  change (rl_last_ms l1) with now in E. rewrite E.
  pose proof (Forall_lookup_1 _ _ _ _ Hf Hj). pose proof (Forall_lookup_1 _ _ _ _ (lw_buckets _ Hwf1) Hj) as [? _].
  cbn in *. lia.
Qed.

(** A request that has no group, or comes before an earlier one, changes
    nothing. *)
Lemma admit_refused l request now :
  now < rl_last_ms l \/ (rate_key (rl_config l) request).1.1 <> SALTS_OK \/
    (rate_key (rl_config l) request).2 <> 0 ->
  (chttp_rate_limiter_admit_at l request now).1.1 = l /\
  ((chttp_rate_limiter_admit_at l request now).1.2 = SALTS_OK ->
   ar_status_code (chttp_rate_limiter_admit_at l request now).2 <> 0).
Proof.
  intros H. unfold chttp_rate_limiter_admit_at.
  destruct (Z.ltb_spec now (rl_last_ms l)); [done|].
  destruct (rate_key (rl_config l) request) as [[st key] code]. cbn in H.
  destruct (negb (bool_decide (st = SALTS_OK)) || negb (code =? 0)) eqn:Hg.
  - cbn. split; [done|]. intros ->. rewrite bool_decide_eq_true_2 in Hg by done. cbn in Hg. lia.
  - bool_prop. apply bool_decide_eq_true in H1. subst. destruct H as [?|[?|?]]; [lia|done|lia].
Qed.

(** The identity of a request in the scope of the limiter, or the status and
    the code with which it is refused: the peer needs a known address, and the
    subject of a token must be there and fit with its issuer into the key. *)
Inductive identified :=
  | Identity (key : list Z)
  | Unidentified (status : salts_status) (code : Z).

Definition peer_identity (peer : stream_peer) : identified :=
  let ipv4 := sp_family peer =? CNET_DATAGRAM_ADDRESS_IPV4 in
  let ipv6 := sp_family peer =? CNET_DATAGRAM_ADDRESS_IPV6 in
  if ipv4 || ipv6
  then Identity (u8 (sp_family peer) :: ztake (if ipv4 then 4 else 16) (sp_address peer) ++
                 if ipv6 then u32_bytes (sp_scope_id peer) else [])
  else Unidentified SALTS_EINVAL 0.

Definition subject_identity (key_bytes : Z) (claims : jwt_claims) : identified :=
  let issuer := default [] (jc_issuer claims) in
  let subject := default [] (jc_subject claims) in
  if zlen subject =? 0 then Unidentified SALTS_OK 403
  else if zlen issuer + zlen subject + 2 <=? key_bytes then Identity (issuer ++ 0 :: subject ++ [0])
  else Unidentified SALTS_OK 431.

Definition identity (config : chttp_rate_limit_config) (request : rate_request) : identified :=
  if rc_scope config =? CHTTP_RATE_LIMIT_GLOBAL then Identity []
  else if rc_scope config =? CHTTP_RATE_LIMIT_PEER_IP
  then from_option peer_identity (Unidentified SALTS_EINVAL 0) (rq_peer request)
  else from_option (subject_identity (rc_key_bytes config)) (Unidentified SALTS_OK 403) (rq_jwt_claims request).

Lemma rate_key_parts_two n a b :
  rate_key_parts n [a; b] [] = if zlen a + zlen b + 2 <=? n then Some (a ++ 0 :: b ++ [0]) else None.
Proof.
  cbn [rate_key_parts app]. change (zlen []) with 0. pose proof (zlen_nonneg a). pose proof (zlen_nonneg b).
  destruct (Z.eqb_spec (Z.min (zlen a) (n - 0)) (n - 0)); [by split_if; [lia|]|].
  rewrite (Z.min_l (zlen a)), ztake_all, zlen_app by lia. change (zlen [0]) with 1.
  destruct (Z.eqb_spec (Z.min (zlen b) (n - (zlen a + 1))) (n - (zlen a + 1))); [by split_if; [lia|]|].
  rewrite (Z.min_l (zlen b)), ztake_all by lia. split_if; [|lia]. by rewrite <- app_assoc.
Qed.

Lemma rate_key_identity config request :
  rate_key config request =
    match identity config request with
    | Identity key => (SALTS_OK, key, 0)
    | Unidentified status code => (status, [], code)
    end.
Proof.
  unfold rate_key, identity. split_if; [done|]. split_if.
  - destruct (rq_peer request) as [peer|]; [|done]. cbn. unfold peer_identity. cbv zeta.
    unfold RATE_IPV4_BYTES, RATE_IPV6_BYTES.
    destruct (sp_family peer =? CNET_DATAGRAM_ADDRESS_IPV4), (sp_family peer =? CNET_DATAGRAM_ADDRESS_IPV6);
      cbn; by rewrite ?app_nil_r.
  - destruct (rq_jwt_claims request) as [[issuer [[|c subject]|]]|]; [done| |done|done]. cbn [from_option].
    unfold subject_identity. cbn [jc_issuer jc_subject default].
    replace (zlen (c :: subject) =? 0) with false by (rewrite zlen_cons; pose proof (zlen_nonneg subject); lia).
    rewrite rate_key_parts_two. by destruct issuer; cbn; split_if.
Qed.

(** The cases of a call. *)
Lemma admit_cases l request now :
  limiter_wf l -> 0 <= now < 2 ^ 64 ->
  let '(l', status, result) := chttp_rate_limiter_admit_at l request now in
  limiter_wf l' /\ kept_config l l' /\
  if now <? rl_last_ms l then l' = l /\ status = SALTS_EINVAL /\ ar_status_code result = 0
  else
    match identity (rl_config l) request with
    | Unidentified refused code => l' = l /\ status = refused /\ ar_status_code result = code
    | Identity key => status = SALTS_OK /\ rl_last_ms l' = now /\ decided l l' key now result
    end.
Proof.
  intros Hwf Hn. destruct (Z.ltb_spec now (rl_last_ms l)) as [Hlt|Hge].
  { unfold chttp_rate_limiter_admit_at. rewrite (proj2 (Z.ltb_lt _ _)) by done. by split_and!. }
  pose proof (rate_key_identity (rl_config l) request) as Hk.
  destruct (identity (rl_config l) request) as [key|refused code] eqn:Hi.
  - pose proof (admit_decides l request now key Hwf ltac:(lia) Hk) as Hd.
    destruct (chttp_rate_limiter_admit_at l request now) as [[l' st] res]. tauto.
  - assert (refused <> SALTS_OK \/ code <> 0) as Hno.
    { revert Hi. unfold identity, from_option, subject_identity, peer_identity. clear.
      repeat case_match; intros [= <- <-]; by (left + right). }
    unfold chttp_rate_limiter_admit_at. rewrite (proj2 (Z.ltb_ge _ _)), Hk by done.
    replace (negb (bool_decide (refused = SALTS_OK)) || negb (code =? 0)) with true; [by split_and!|].
    destruct Hno; [by rewrite bool_decide_eq_false_2 by done|]. destruct (bool_decide _); cbn; lia.
Qed.

(** C12: An admission decision of the limiter, with its bounded table and the
    reuse of replenished groups, is the decision of independent token buckets, one
    for each identity. A clock before the last one seen gives EINVAL, and a
    request without an identity in the scope of the limiter the status and code of
    what is missing, both without a change of the limiter. Every other request is
    decided by the bucket of its identity: it passes and one token is spent, only
    when the bucket has a token; or it is refused with 429 and the right delay,
    only when the bucket has none; or with 503, only when the identity has no
    group and every group of the full table is in use and not replenished; the
    credit of no other identity changes. *)
Theorem admit_as_token_buckets l request now :
  limiter_wf l -> 0 <= now < 2 ^ 64 ->
  let '(l', status, result) := chttp_rate_limiter_admit_at l request now in
  limiter_wf l' /\ kept_config l l' /\
  if now <? rl_last_ms l then l' = l /\ status = SALTS_EINVAL /\ ar_status_code result = 0
  else
    match identity (rl_config l) request with
    | Unidentified refused code => l' = l /\ status = refused /\ ar_status_code result = code
    | Identity key => status = SALTS_OK /\ rl_last_ms l' = now /\ decided l l' key now result
    end.
Proof. apply admit_cases. Qed.

(** ** The rate of a group *)

Lemma credit_of_grows l key t t' :
  limiter_wf l -> t <= t' ->
  credit_of l key t' <= credit_of l key t + (t' - t) * rc_refill_tokens (rl_config l).
Proof.
  intros Hwf Ht. pose proof (co_tokens _ (lw_config _ Hwf)) as Htok. unfold credit_of.
  assert (0 <= (t' - t) * rc_refill_tokens (rl_config l)) by (apply Z.mul_nonneg_nonneg; lia).
  destruct (held_or_free (active l) key) as [(j & b & Hj & <-)|Hf].
  - rewrite !(group_credit_held _ _ _ j b _ (lw_keys _ Hwf) Hj). unfold bucket_credit.
    replace ((t' - rb_updated_ms b) * rc_refill_tokens (rl_config l))
      with ((t - rb_updated_ms b) * rc_refill_tokens (rl_config l) +
            (t' - t) * rc_refill_tokens (rl_config l)) by ring. lia.
  - rewrite !group_credit_free by done. lia.
Qed.

Lemma credit_of_range l key t :
  limiter_wf l -> rl_last_ms l <= t -> 0 <= credit_of l key t <= rl_maximum_credit l.
Proof.
  intros Hwf Ht. pose proof (co_tokens _ (lw_config _ Hwf)) as Htok. unfold credit_of.
  pose proof (limiter_max l Hwf). pose proof (co_period _ (lw_config _ Hwf)).
  destruct (held_or_free (active l) key) as [(j & b & Hj & <-)|Hf].
  - rewrite !(group_credit_held _ _ _ j b _ (lw_keys _ Hwf) Hj). unfold bucket_credit.
    pose proof (Forall_lookup_1 _ _ _ _ (lw_buckets _ Hwf) Hj) as [? ?].
    assert (0 <= (t - rb_updated_ms b) * rc_refill_tokens (rl_config l))
      by (apply Z.mul_nonneg_nonneg; lia). lia.
  - rewrite !group_credit_free by done. lia.
Qed.

(** The request was admitted in the group [key]. *)
Definition admits (l : chttp_rate_limit_impl) (request : rate_request) (now : Z) (key : list Z) : bool :=
  let '(_, status, result) := chttp_rate_limiter_admit_at l request now in
  bool_decide (status = SALTS_OK) && (ar_status_code result =? 0) &&
  bool_decide ((rate_key (rl_config l) request).1.2 = key).

(** The limiter after some requests, and how many of the group were admitted. *)
Fixpoint admit_all (l : chttp_rate_limit_impl) (requests : list (rate_request * Z)) (key : list Z) :
    chttp_rate_limit_impl * Z :=
  match requests with
  | [] => (l, 0)
  | (request, now) :: requests =>
    let '(l', n) := admit_all (chttp_rate_limiter_admit_at l request now).1.1 requests key in
    (l', n + if admits l request now key then 1 else 0)
  end.

Lemma admit_step l request now key :
  limiter_wf l -> 0 <= now < 2 ^ 64 ->
  let l' := (chttp_rate_limiter_admit_at l request now).1.1 in
  limiter_wf l' /\ kept_config l l' /\ rl_last_ms l <= rl_last_ms l' /\
  credit_of l' key (rl_last_ms l') +
    (if admits l request now key then rc_refill_period_ms (rl_config l) else 0) <=
  credit_of l key (rl_last_ms l) +
    (rl_last_ms l' - rl_last_ms l) * rc_refill_tokens (rl_config l).
Proof.
  intros Hwf Hn. pose proof (co_period _ (lw_config _ Hwf)) as Hper. unfold admits.
  destruct (decide (now < rl_last_ms l \/ (rate_key (rl_config l) request).1.1 <> SALTS_OK \/
    (rate_key (rl_config l) request).2 <> 0)) as [Hr|Hr].
  - pose proof (admit_refused l request now Hr) as [E1 E2].
    destruct (chttp_rate_limiter_admit_at l request now) as [[l' st] res]. cbn in *. subst l'.
    split_and!; [done|done|lia|].
    destruct (bool_decide (st = SALTS_OK) && (ar_status_code res =? 0)) eqn:Hg; [|cbn; lia].
    bool_prop. apply bool_decide_eq_true in H. exfalso. by apply E2.
  - destruct (rate_key (rl_config l) request) as [[st k] code] eqn:Hk. cbn in Hr.
    assert (st = SALTS_OK) as -> by (destruct (decide (st = SALTS_OK)); [done|tauto]).
    assert (code = 0) as -> by lia.
    pose proof (admit_decides l request now k Hwf ltac:(lia) Hk) as Hd.
    destruct (chttp_rate_limiter_admit_at l request now) as [[l' st] res].
    destruct Hd as (-> & H1 & H2 & H3 & Hd). cbn [fst snd]. rewrite H3.
    pose proof (credit_of_grows l key (rl_last_ms l) now Hwf ltac:(lia)) as Hg.
    split_and!; [done|done|lia|].
    destruct Hd as [(Hs & Hc & Hsp)|[(Hs & Hc & Hsp & _)|(Hs & Hsp & _)]];
      rewrite Hs, (Hsp key now) by lia; rewrite Z.sub_diag, Z.mul_0_l, (bool_decide_eq_true_2 (SALTS_OK = SALTS_OK)) by done.
    + cbn [Z.eqb andb]. case_decide as Hkk; [subst k; rewrite bool_decide_eq_true_2 by done; lia|].
      rewrite bool_decide_eq_false_2 by congruence. lia.
    + change (RATE_LIMITED =? 0) with false. cbn [andb]. case_decide; [subst k|]; lia.
    + change (RATE_CAPACITY =? 0) with false. cbn [andb]. case_decide; [subst k|]; lia.
Qed.

Lemma admit_all_spec key requests : forall l,
  limiter_wf l -> Forall (fun r => 0 <= r.2 < 2 ^ 64) requests ->
  let '(l', n) := admit_all l requests key in
  limiter_wf l' /\ rl_last_ms l <= rl_last_ms l' /\
  credit_of l' key (rl_last_ms l') + n * rc_refill_period_ms (rl_config l) <=
    credit_of l key (rl_last_ms l) +
    (rl_last_ms l' - rl_last_ms l) * rc_refill_tokens (rl_config l).
Proof.
  induction requests as [|[request now] requests IH]; intros l Hwf Hr; cbn [admit_all].
  { split_and!; [done|lia|]. rewrite Z.sub_diag. lia. }
  apply Forall_cons in Hr as [Hn Hr]. cbn in Hn.
  destruct (admit_step l request now key Hwf Hn) as (Hwf1 & [Kc Km] & Hl1 & Hs).
  set (l1 := (chttp_rate_limiter_admit_at l request now).1.1) in *.
  specialize (IH l1 Hwf1 Hr). rewrite Kc in IH.
  destruct (admit_all l1 requests key) as [l' n]. destruct IH as (Hwf' & Hl' & Hs').
  split_and!; [done|lia|]. destruct (admits l request now key); nia.
Qed.

(** C40: Over any sequence of requests, the number admitted for one identity times
    the period is at most the burst times the period plus the refill of the
    elapsed time. *)
Theorem rate_bounded l requests key :
  limiter_wf l -> Forall (fun r => 0 <= r.2 < 2 ^ 64) requests ->
  let '(l', n) := admit_all l requests key in
  let config := rl_config l in
  limiter_wf l' /\
  n * rc_refill_period_ms config <=
    rc_burst config * rc_refill_period_ms config +
    (rl_last_ms l' - rl_last_ms l) * rc_refill_tokens config.
Proof.
  intros Hwf Hr. pose proof (admit_all_spec key requests l Hwf Hr) as Hs.
  destruct (admit_all l requests key) as [l' n]. destruct Hs as (Hwf' & Hl & Hs). cbv zeta.
  split; [done|]. rewrite <- (lw_max _ Hwf).
  pose proof (credit_of_range l key (rl_last_ms l) Hwf ltac:(lia)).
  pose proof (credit_of_range l' key (rl_last_ms l') Hwf' ltac:(lia)). lia.
Qed.

Lemma retry_after_enough l key now :
  limiter_wf l -> rl_last_ms l <= now ->
  credit_of l key now < rc_refill_period_ms (rl_config l) ->
  let wait := retry_after (rl_config l) (credit_of l key now) in
  1 <= wait /\ rc_refill_period_ms (rl_config l) <= credit_of l key (now + 1000 * wait).
Proof.
  intros Hwf Hn Hc. cbv zeta. pose proof (co_tokens _ (lw_config _ Hwf)) as Htok.
  pose proof (co_period _ (lw_config _ Hwf)) as Hper. pose proof (limiter_max l Hwf) as Hmax.
  pose proof (credit_of_range l key now Hwf Hn) as Hrange.
  set (c := credit_of l key now) in *. set (period := rc_refill_period_ms (rl_config l)) in *.
  set (tokens := rc_refill_tokens (rl_config l)) in *. unfold retry_after, RATE_MS_PER_SECOND. fold period tokens.
  set (delay := rate_ceil_div (period - c) tokens).
  pose proof (rate_ceil_div_spec (period - c) tokens delay ltac:(lia) ltac:(lia)) as Hd.
  fold delay in Hd. assert (period - c <= delay * tokens) as Hdel by (apply Hd; lia).
  assert (0 < delay) as Hpos by nia.
  assert (delay <= period) as Hle.
  { apply (rate_ceil_div_spec (period - c) tokens period); [lia|lia|]. nia. }
  set (w := rate_ceil_div delay 1000).
  pose proof (rate_ceil_div_spec delay 1000 w ltac:(lia) ltac:(lia)) as Hw.
  pose proof (rate_ceil_div_spec delay 1000 delay ltac:(lia) ltac:(lia)) as Hwd. fold w in Hw, Hwd.
  assert (delay <= w * 1000 /\ w <= delay) as [Hw1 Hw2] by lia. clear Hw Hwd.
  rewrite u32_id by zlia. split; [lia|].
  pose proof (spends_nothing l l key now Hwf ltac:(done) Hn key (now + 1000 * w) ltac:(lia)) as Hs.
  rewrite decide_True in Hs by done. fold c tokens in Hs. rewrite Hs. nia.
Qed.

(** A group that was told to wait is held in the table. *)
Lemma low_credit_held l key now :
  limiter_wf l -> rl_last_ms l <= now -> credit_of l key now < rl_maximum_credit l ->
  key ∈ map rb_key (active l).
Proof.
  intros Hwf Hn Hc. destruct (held_or_free (active l) key) as [(j & b & Hj & <-)|Hf].
  - apply list_elem_of_fmap. exists b. split; [done|]. by apply list_elem_of_lookup_2 with j.
  - unfold credit_of in Hc. rewrite group_credit_free in Hc by done. lia.
Qed.

Lemma rate_key_code config request : (rate_key config request).2 <> RATE_LIMITED.
Proof.
  unfold rate_key. repeat (case_match; try done).
Qed.

Lemma admit_refused_code l request now :
  now < rl_last_ms l \/ (rate_key (rl_config l) request).1.1 <> SALTS_OK \/
    (rate_key (rl_config l) request).2 <> 0 ->
  ar_status_code (chttp_rate_limiter_admit_at l request now).2 <> RATE_LIMITED.
Proof.
  intros H. pose proof (rate_key_code (rl_config l) request). unfold chttp_rate_limiter_admit_at.
  destruct (Z.ltb_spec now (rl_last_ms l)); [done|].
  destruct (rate_key (rl_config l) request) as [[st key] code]. cbn in *.
  destruct (negb (bool_decide (st = SALTS_OK)) || negb (code =? 0)) eqn:Hg; [done|].
  bool_prop. apply bool_decide_eq_true in H2. subst. destruct H as [?|[?|?]]; [lia|done|lia].
Qed.

(** C38: A request refused with 429 is admitted when the same identity asks again
    after the announced number of seconds, which is at least one. *)
Theorem retry_after_sufficient l request now :
  limiter_wf l -> 0 <= now < 2 ^ 64 ->
  let '(l', status, result) := chttp_rate_limiter_admit_at l request now in
  let again := now + 1000 * ar_retry_after_seconds result in
  ar_status_code result = RATE_LIMITED -> again < 2 ^ 64 ->
  1 <= ar_retry_after_seconds result /\
  let '(_, status', result') := chttp_rate_limiter_admit_at l' request again in
  status' = SALTS_OK /\ ar_status_code result' = 0.
Proof.
  intros Hwf Hn.
  destruct (decide (now < rl_last_ms l \/ (rate_key (rl_config l) request).1.1 <> SALTS_OK \/
    (rate_key (rl_config l) request).2 <> 0)) as [Hr|Hr].
  { pose proof (admit_refused_code l request now Hr) as Hc.
    by destruct (chttp_rate_limiter_admit_at l request now) as [[l' st] res]. }
  destruct (rate_key (rl_config l) request) as [[st key] code] eqn:Hk. cbn in Hr.
  assert (st = SALTS_OK) as -> by (destruct (decide (st = SALTS_OK)); [done|tauto]).
  assert (code = 0) as -> by lia.
  pose proof (admit_decides l request now key Hwf ltac:(lia) Hk) as Hd.
  destruct (chttp_rate_limiter_admit_at l request now) as [[l' st] res].
  destruct Hd as (_ & Hwf' & [Kc Km] & Hlast & Hd). cbv zeta. intros Hcode Hagain.
  destruct Hd as [(E & _)|[(_ & Hc & Hsp & Hw)|(E & _)]]; try (rewrite E in Hcode; done).
  destruct (retry_after_enough l key now Hwf ltac:(lia) Hc) as [H1 H2]. rewrite <- Hw in H1, H2.
  split; [done|]. set (again := now + 1000 * ar_retry_after_seconds res) in *.
  assert (now <= again) as Hna by lia.
  pose proof (spends_nothing l l key now Hwf ltac:(done) ltac:(lia) key again Hna) as Hl.
  pose proof (Hsp key again Hna) as Hl'. rewrite decide_True in Hl, Hl' by done. rewrite <- Hl in Hl'.
  rewrite <- Kc in Hk.
  pose proof (admit_decides l' request again key Hwf' ltac:(lia) Hk) as Hd.
  destruct (chttp_rate_limiter_admit_at l' request again) as [[l2 st2] res2].
  destruct Hd as (-> & _ & _ & _ & Hd). split; [done|].
  destruct Hd as [(E & _)|[(_ & E & _)|(_ & _ & _ & E)]]; [done|rewrite Kc in E; lia|].
  exfalso. assert (key ∈ map rb_key (active l')) as Hin; [|by destruct (E key Hin)].
  apply (low_credit_held l' key now Hwf'); [lia|]. rewrite (Hsp key now) by lia.
  rewrite decide_True, Km by done. pose proof (limiter_max l Hwf). lia.
Qed.

End Admission.

(** ** Initialisation and keys *)

(** The fields of the configuration are unsigned integers of their width. *)
Record config_widths (c : chttp_rate_limit_config) : Prop := {
  cw_group_capacity : 0 <= rc_group_capacity c;
  cw_burst : is_u32 (rc_burst c);
  cw_tokens : is_u32 (rc_refill_tokens c);
  cw_period : is_u32 (rc_refill_period_ms c);
}.

Lemma limiter_init_spec {alloc : Allocator} config vec_ok l :
  config_widths config -> chttp_rate_limiter_init None config vec_ok = Ok l ->
  limiter_wf l /\ rl_used l = O /\
  (forall key t, credit_of l key t = rc_burst config * rc_refill_period_ms config).
Proof.
  intros [W1 W2 W3 W4] H. unfold chttp_rate_limiter_init in H. split_if_in H; [done|].
  repeat (split_if_in H; [done|]). injection H as <-.
  assert (rc_burst config * rc_refill_period_ms config < 2 ^ 64) as Hm.
  { apply Z.le_lt_trans with ((2 ^ 32 - 1) * (2 ^ 32 - 1)); [apply Z.mul_le_mono_nonneg; zlia|lia]. }
  assert (u64 (rc_burst config * rc_refill_period_ms config) =
          rc_burst config * rc_refill_period_ms config) as E.
  { apply Z.mod_small. split; [apply Z.mul_nonneg_nonneg; zlia|done]. }
  split_and!; [|done|].
  - split; cbn; rewrite ?length_replicate; try done; try lia; try apply Forall_nil_2; try apply NoDup_nil_2.
    split; zlia.
  - intros key t. unfold credit_of. cbn. exact E.
Qed.

(** A limiter that was initialised satisfies its invariant, and every identity
    starts with the full burst. *)
Theorem limiter_init_wf {alloc : Allocator} config vec_ok l :
  config_widths config -> chttp_rate_limiter_init None config vec_ok = Ok l ->
  limiter_wf l /\ rl_used l = O /\
  (forall key t, credit_of l key t = rc_burst config * rc_refill_period_ms config).
Proof. apply limiter_init_spec. Qed.

(** ** Examples *)

#[local] Instance example_families : AddressFamilies :=
  {| CNET_DATAGRAM_ADDRESS_IPV4 := 1; CNET_DATAGRAM_ADDRESS_IPV6 := 2 |}.

(** Two requests at once, then one every half second, for at most two peers. *)
Definition example_config : chttp_rate_limit_config :=
  {| rc_scope := CHTTP_RATE_LIMIT_PEER_IP; rc_group_capacity := 2; rc_burst := 2;
     rc_refill_tokens := 1; rc_refill_period_ms := 500; rc_key_bytes := 64 |}.

Definition example_limiter : chttp_rate_limit_impl :=
  {| rl_config := example_config; rl_buckets := [rate_bucket_empty; rate_bucket_empty];
     rl_last_ms := 0; rl_maximum_credit := 1000; rl_used := 0 |}.

Definition example_request : rate_request :=
  {| rq_peer := Some {| sp_family := 1; sp_address := [127; 0; 0; 1]; sp_scope_id := 0 |};
     rq_jwt_claims := None |}.

Lemma example_widths : config_widths example_config.
Proof. by repeat constructor. Qed.

Lemma example_limiter_wf : limiter_wf example_limiter.
Proof. by apply (limiter_init_spec (alloc := unlimited_allocator) example_config true); [apply example_widths|]. Qed.

Lemma limiter_init_wf_witness :
  chttp_rate_limiter_init (alloc := unlimited_allocator) None example_config true =
    Ok example_limiter /\
  limiter_wf example_limiter /\ rl_used example_limiter = O /\
  (forall key t, credit_of example_limiter key t = 2 * 500).
Proof.
  split; [reflexivity|].
  by apply (limiter_init_wf (alloc := unlimited_allocator) example_config true);
    [apply example_widths|].
Defined.

Lemma admit_as_token_buckets_witness :
  let '(l', status, result) := chttp_rate_limiter_admit_at example_limiter example_request 7 in
  limiter_wf l' /\ kept_config example_limiter l' /\ status = SALTS_OK /\ rl_last_ms l' = 7 /\
  decided example_limiter l' [1; 127; 0; 0; 1] 7 result.
Proof. exact (admit_as_token_buckets example_limiter example_request 7 example_limiter_wf ltac:(done)). Defined.

(** Of five requests within a second, the bound allows four; three pass. *)
Lemma rate_bounded_witness :
  let requests := map (pair example_request) [7; 8; 9; 510; 1000] in
  let '(l', n) := admit_all example_limiter requests [1; 127; 0; 0; 1] in
  n = 3 /\ limiter_wf l' /\ n * 500 <= 2 * 500 + (1000 - 0) * 1.
Proof.
  intros requests.
  assert (H := rate_bounded example_limiter requests [1; 127; 0; 0; 1] example_limiter_wf
    ltac:(by repeat constructor)).
  destruct (admit_all example_limiter requests [1; 127; 0; 0; 1]) as [l' n] eqn:E.
  vm_compute in E. injection E as <- <-. split; [done|]. exact H.
Defined.

(** The limiter after two requests. *)
Definition example_busy : chttp_rate_limit_impl :=
  {| rl_config := example_config;
     rl_buckets := [{| rb_credit := 1; rb_updated_ms := 8; rb_key := [1; 127; 0; 0; 1] |};
                    rate_bucket_empty];
     rl_last_ms := 8; rl_maximum_credit := 1000; rl_used := 1 |}.

Lemma example_busy_wf : limiter_wf example_busy.
Proof.
  pose proof (admit_all_spec [] [(example_request, 7); (example_request, 8)] example_limiter
    example_limiter_wf ltac:(by repeat constructor)) as H.
  assert (admit_all example_limiter [(example_request, 7); (example_request, 8)] [] =
    (example_busy, 0)) as E by (vm_compute; reflexivity).
  rewrite E in H. apply H.
Qed.

(** Its third request is told to wait for a second, and passes then. *)
Lemma retry_after_sufficient_witness :
  let '(l', _, result) := chttp_rate_limiter_admit_at example_busy example_request 9 in
  ar_status_code result = RATE_LIMITED /\ ar_retry_after_seconds result = 1 /\
  let '(_, status', result') := chttp_rate_limiter_admit_at l' example_request 1009 in
  status' = SALTS_OK /\ ar_status_code result' = 0.
Proof.
  assert (H := retry_after_sufficient example_busy example_request 9 example_busy_wf ltac:(done)).
  assert (ar_status_code (chttp_rate_limiter_admit_at example_busy example_request 9).2 = RATE_LIMITED)
    as Hc by (vm_compute; reflexivity).
  assert (ar_retry_after_seconds (chttp_rate_limiter_admit_at example_busy example_request 9).2 = 1)
    as Hw by (vm_compute; reflexivity).
  destruct (chttp_rate_limiter_admit_at example_busy example_request 9) as [[l' st] res].
  cbn [snd] in Hc, Hw. cbv zeta in H. rewrite Hw in H. split; [exact Hc|]. split; [exact Hw|].
  exact (proj2 (H Hc ltac:(lia))).
Defined.


Definition nul_free (s : list Z) : Prop := Forall (fun c => c <> 0) s.

Lemma rate_key_parts_spec n parts : forall key key',
  rate_key_parts n parts key = Some key' -> key' = key ++ concat (map (fun p => p ++ [0]) parts).
Proof.
  induction parts as [|part parts IH]; intros key key' H; cbn [rate_key_parts map concat] in *.
  { injection H as <-. by rewrite app_nil_r. }
  destruct (Z.eqb_spec (Z.min (zlen part) (n - zlen key)) (n - zlen key)) as [|Hne]; [done|].
  apply IH in H as ->. replace (Z.min (zlen part) (n - zlen key)) with (zlen part) by lia.
  rewrite ztake_all. by rewrite <- !app_assoc.
Qed.

Lemma nul_split a b a' b' :
  nul_free a -> nul_free a' -> a ++ 0 :: b = a' ++ 0 :: b' -> a = a' /\ b = b'.
Proof.
  intros Ha. revert a'. induction Ha as [|x a Hx Ha IH]; intros [|y a'] Ha' H; cbn in H.
  - by injection H.
  - injection H as <- _. apply Forall_cons in Ha' as [? _]. done.
  - injection H as -> _. done.
  - injection H as <- H. apply Forall_cons in Ha' as [_ Ha']. by destruct (IH a' Ha' H) as [-> ->].
Qed.

(** The identity of a request in the scope of a JWT subject. *)
Definition jwt_identity (r : rate_request) (issuer subject : list Z) : Prop :=
  exists claims, rq_jwt_claims r = Some claims /\ jc_subject claims = Some subject /\
    issuer = match jc_issuer claims with None => [] | Some issuer => issuer end /\
    nul_free issuer /\ nul_free subject.

Lemma jwt_rate_key {families : AddressFamilies} config r issuer subject key :
  rc_scope config = CHTTP_RATE_LIMIT_JWT_SUBJECT -> jwt_identity r issuer subject ->
  rate_key config r = (SALTS_OK, key, 0) -> key = issuer ++ 0 :: subject ++ [0].
Proof.
  intros Hs (claims & Hc & Hsub & -> & _) H. unfold rate_key in H. rewrite Hs, Hc, Hsub in H.
  cbn [Z.eqb CHTTP_RATE_LIMIT_JWT_SUBJECT CHTTP_RATE_LIMIT_GLOBAL CHTTP_RATE_LIMIT_PEER_IP Pos.eqb] in H.
  destruct subject as [|x subject]; [done|].
  destruct (rate_key_parts _ _ _) as [k|] eqn:Hk; [|done]. injection H as <-.
  apply rate_key_parts_spec in Hk as ->. cbn. by rewrite app_nil_r, <- app_assoc.
Qed.

(** Two requests that share a group in the JWT scope have the same issuer and the
    same subject. *)
Theorem jwt_keys_separate {families : AddressFamilies} config r r' issuer subject issuer' subject' key :
  rc_scope config = CHTTP_RATE_LIMIT_JWT_SUBJECT ->
  jwt_identity r issuer subject -> jwt_identity r' issuer' subject' ->
  rate_key config r = (SALTS_OK, key, 0) -> rate_key config r' = (SALTS_OK, key, 0) ->
  issuer = issuer' /\ subject = subject'.
Proof.
  intros Hs Hi Hi' Hk Hk'. apply (jwt_rate_key _ _ _ _ _ Hs Hi) in Hk.
  apply (jwt_rate_key _ _ _ _ _ Hs Hi') in Hk'. rewrite Hk in Hk'.
  destruct Hi as (? & _ & _ & _ & N1 & N2). destruct Hi' as (? & _ & _ & _ & N1' & N2').
  apply nul_split in Hk' as [-> E]; [|done|done]. split; [done|].
  by apply (nul_split subject [] subject' []) in E as [-> _].
Qed.

Lemma jwt_keys_separate_witness :
  let config := {| rc_scope := CHTTP_RATE_LIMIT_JWT_SUBJECT; rc_group_capacity := 2; rc_burst := 2;
                   rc_refill_tokens := 1; rc_refill_period_ms := 500; rc_key_bytes := 64 |} in
  let r := {| rq_peer := None;
              rq_jwt_claims := Some {| jc_issuer := Some [97]; jc_subject := Some [98] |} |} in
  rate_key config r = (SALTS_OK, [97; 0; 98; 0], 0) /\ [97] = [97] /\ [98] = [98].
Proof.
  intros config r. split; [reflexivity|].
  apply (jwt_keys_separate config r r [97] [98] [97] [98] [97; 0; 98; 0]);
    [done| | |done|done];
    exists {| jc_issuer := Some [97]; jc_subject := Some [98] |};
    split_and!; try done; by repeat constructor.
Defined.

End RateLimit.
