(* ===== verification/Router.v ===== *)
(** * Router

    Model of [http_server/src/chttp_server_route.c]: validation and
    registration of routes, matching of a path against a pattern with [:name]
    segments, and the choice of the route of a request.

    A C string is the list of its bytes without the terminator, a cursor into
    it is what is left of it.  Handlers, middleware and user pointers are
    opaque numbers, [None] for [NULL]; the array of routes with its counter is
    a list.  The limits of the WebSocket framing belong to the network library
    and are parameters. *)

From S2P Require Import Prelude.

Module Router.

Definition CHTTP_METHOD_GET : Z := 1.
Definition CHTTP_METHOD_HEAD : Z := 2.
Definition CHTTP_METHOD_POST : Z := 3.
Definition CHTTP_METHOD_PUT : Z := 4.
Definition CHTTP_METHOD_DELETE : Z := 5.
Definition CHTTP_METHOD_PATCH : Z := 6.
Definition CHTTP_METHOD_OPTIONS : Z := 7.

Definition CHTTP_SERVER_DEFAULT_WEBSOCKET_FRAME_BYTES : Z := 64 * 1024.

Class WebsocketLimits := {
  CNET_WEBSOCKET_MAX_HEADER_BYTES : Z;
  CNET_WEBSOCKET_MIN_FRAME_BYTES : Z;
}.

(** Characters of a pattern. *)
Definition SLASH : Z := 47.
Definition COLON : Z := 58.
Definition STAR : Z := 42.
Definition QUESTION : Z := 63.
Definition HASH : Z := 35.

(** ** State *)

Record route_config := {
  sc_max_target_bytes : Z;
  sc_route_capacity : Z;
  sc_max_route_param_count : Z;
  sc_max_route_param_bytes : Z;
  sc_max_route_middleware_count : Z;
  sc_max_send_bytes : Z;
}.

(** The handler of a route: the application's, or
    [chttp_server_websocket_upgrade_required]. *)
Inductive route_handler :=
  | UserHandler (fn : Z)
  | WebsocketUpgradeRequired.

Record chttp_server_route_record := {
  rr_method : Z;
  rr_path : list Z;
  rr_middleware : list (option Z);
  rr_param_count : Z;
  rr_handler : route_handler;
  rr_user : Z;
  rr_body_open : option Z;
  rr_body_close : option Z;
  rr_jwt_bearer_validator : option Z;
  rr_websocket_open : option Z;
  rr_websocket_event : option Z;
  rr_websocket_max_frame_bytes : Z;
  rr_websocket_max_message_bytes : Z;
  rr_websocket_max_buffered_input_bytes : Z;
  rr_websocket_user : Z;
  rr_websocket : bool;
  rr_dynamic : bool;
}.

#[export] Instance eta_route_record : Eta chttp_server_route_record :=
  fun r => Build_chttp_server_route_record (rr_method r) (rr_path r) (rr_middleware r)
    (rr_param_count r) (rr_handler r) (rr_user r) (rr_body_open r) (rr_body_close r)
    (rr_jwt_bearer_validator r) (rr_websocket_open r) (rr_websocket_event r)
    (rr_websocket_max_frame_bytes r) (rr_websocket_max_message_bytes r)
    (rr_websocket_max_buffered_input_bytes r) (rr_websocket_user r) (rr_websocket r)
    (rr_dynamic r).
#[export] Instance set_rr_jwt_bearer_validator : Setter rr_jwt_bearer_validator. Proof. mk_setter. Defined.
#[export] Instance set_rr_websocket_open : Setter rr_websocket_open. Proof. mk_setter. Defined.
#[export] Instance set_rr_websocket_event : Setter rr_websocket_event. Proof. mk_setter. Defined.
#[export] Instance set_rr_websocket_max_frame_bytes : Setter rr_websocket_max_frame_bytes. Proof. mk_setter. Defined.
#[export] Instance set_rr_websocket_max_message_bytes : Setter rr_websocket_max_message_bytes. Proof. mk_setter. Defined.
#[export] Instance set_rr_websocket_max_buffered_input_bytes : Setter rr_websocket_max_buffered_input_bytes. Proof. mk_setter. Defined.
#[export] Instance set_rr_websocket_user : Setter rr_websocket_user. Proof. mk_setter. Defined.
#[export] Instance set_rr_websocket : Setter rr_websocket. Proof. mk_setter. Defined.

Record chttp_server_impl := {
  sv_config : route_config;
  sv_routes : list chttp_server_route_record;
  sv_start_called : bool;
}.

#[export] Instance eta_server_impl : Eta chttp_server_impl :=
  fun s => Build_chttp_server_impl (sv_config s) (sv_routes s) (sv_start_called s).
#[export] Instance set_sv_routes : Setter sv_routes. Proof. mk_setter. Defined.

Record chttp_server_route_options := {
  ro_method : Z;
  ro_path : option (list Z);
  ro_middleware : option (list (option Z));
  ro_middleware_count : Z;
  ro_handler : option route_handler;
  ro_user : Z;
  ro_body_open : option Z;
  ro_body_close : option Z;
}.

(** ** Validation *)

Definition chttp_server_method_valid (method : Z) : bool :=
  (CHTTP_METHOD_GET <=? method) && (method <=? CHTTP_METHOD_OPTIONS).

Definition chttp_server_param_name_char (value : Z) : bool :=
  ((97 <=? value) && (value <=? 122)) || ((65 <=? value) && (value <=? 90)) ||
  ((48 <=? value) && (value <=? 57)) || (value =? 95).

(** The segment up to the next [/] and the rest from it on:
    [end = strchr(segment, '/')], or the end of the string. *)
Fixpoint break_slash (s : list Z) : list Z * list Z :=
  match s with
  | [] => ([], [])
  | c :: rest =>
    if c =? SLASH then ([], s)
    else let '(segment, rest) := break_slash rest in (c :: segment, rest)
  end.

Definition has_char (c : Z) (s : list Z) : bool := existsb (fun x => x =? c) s.

(** The [while] loop of [chttp_server_route_validate]; every round takes a
    [/] off the path, so its length is enough fuel.  [None] is out of fuel. *)
Fixpoint route_validate_loop (fuel : nat) (config : route_config) (cursor : list Z)
    (param_count param_name_bytes : Z) : option (outcome Z) :=
  match cursor with
  | [] => Some (Ok param_count)
  | c :: cursor =>
    match fuel with
    | O => None
    | S fuel =>
      if negb (c =? SLASH) then Some (Err SALTS_EINVAL)
      else
        let '(segment, rest) := break_slash cursor in
        match segment with
        | first :: name =>
          if first =? COLON then
            if zlen name =? 0 then Some (Err SALTS_EINVAL)
            else if negb (forallb chttp_server_param_name_char name) then Some (Err SALTS_EINVAL)
            else
              let name_size := zlen name + 1 in
              if (param_count =? sc_max_route_param_count config) ||
                 (sc_max_route_param_bytes config <? param_name_bytes) ||
                 (sc_max_route_param_bytes config - param_name_bytes <? name_size)
              then Some (Err SALTS_ENOBUFS)
              else
                route_validate_loop fuel config rest (param_count + 1)
                  (param_name_bytes + name_size)
          else if has_char COLON segment then Some (Err SALTS_EINVAL)
          else route_validate_loop fuel config rest param_count param_name_bytes
        | [] => route_validate_loop fuel config rest param_count param_name_bytes
        end
    end
  end.

(** [*out_param_count]. *)
Definition chttp_server_route_validate (server : chttp_server_impl) (method : Z)
    (path : option (list Z)) : option (outcome Z) :=
  match path with
  | None | Some [] => Some (Err SALTS_EINVAL)
  | Some path =>
    if negb (chttp_server_method_valid method) then Some (Err SALTS_EINVAL)
    else if bytes_eqb path [STAR] then
      if negb (method =? CHTTP_METHOD_OPTIONS) then Some (Err SALTS_EINVAL) else Some (Ok 0)
    else if negb (zth path 0 =? SLASH) || has_char QUESTION path || has_char HASH path
    then Some (Err SALTS_EINVAL)
    else if sc_max_target_bytes (sv_config server) <? zlen path
    then Some (Err SALTS_ENAMETOOLONG)
    else route_validate_loop (length path) (sv_config server) path 0 0
  end.

(** ** Registration *)

Definition is_none {A} (o : option A) : bool := match o with None => true | Some _ => false end.

(** [None] is out of fuel of the validation, which does not happen. *)
Definition chttp_server_route_register (server : chttp_server_impl)
    (options : chttp_server_route_options) : option (outcome chttp_server_impl) :=
  match ro_handler options with
  | None => Some (Err SALTS_EINVAL)
  | Some handler =>
    if (negb (ro_middleware_count options =? 0) && is_none (ro_middleware options)) ||
       negb (Bool.eqb (is_none (ro_body_open options)) (is_none (ro_body_close options)))
    then Some (Err SALTS_EINVAL)
    else if sv_start_called server then Some (Err SALTS_EBUSY)
    else if (sc_route_capacity (sv_config server) <=? zlen (sv_routes server)) ||
            (sc_max_route_middleware_count (sv_config server) <? ro_middleware_count options)
    then Some (Err SALTS_ENOBUFS)
    else
      match chttp_server_route_validate server (ro_method options) (ro_path options) with
      | None => None
      | Some (Err e) => Some (Err e)
      | Some (Ok param_count) =>
        let path := match ro_path options with Some path => path | None => [] end in
        let middleware :=
          ztake (ro_middleware_count options)
            (match ro_middleware options with Some m => m | None => [] end) in
        if existsb is_none middleware then Some (Err SALTS_EINVAL)
        else if existsb (fun r => (rr_method r =? ro_method options) && bytes_eqb (rr_path r) path)
                  (sv_routes server)
        then Some (Err SALTS_EALREADY)
        else
          let route :=
            {| rr_method := ro_method options; rr_path := path; rr_middleware := middleware;
               rr_param_count := param_count; rr_handler := handler; rr_user := ro_user options;
               rr_body_open := ro_body_open options; rr_body_close := ro_body_close options;
               rr_jwt_bearer_validator := None; rr_websocket_open := None;
               rr_websocket_event := None; rr_websocket_max_frame_bytes := 0;
               rr_websocket_max_message_bytes := 0; rr_websocket_max_buffered_input_bytes := 0;
               rr_websocket_user := 0; rr_websocket := false;
               rr_dynamic := negb (param_count =? 0) |} in
          Some (Ok (server <| sv_routes := sv_routes server ++ [route] |>))
      end
  end.

(** [&impl->routes[impl->route_count - 1u]] *)
Definition upd_last_route (server : chttp_server_impl)
    (f : chttp_server_route_record -> chttp_server_route_record) : chttp_server_impl :=
  server <| sv_routes := alter f (pred (length (sv_routes server))) (sv_routes server) |>.

Definition chttp_server_route (server : chttp_server_impl) (method : Z) (path : option (list Z))
    (handler : option route_handler) (user : Z) : option (outcome chttp_server_impl) :=
  chttp_server_route_register server
    {| ro_method := method; ro_path := path; ro_middleware := None; ro_middleware_count := 0;
       ro_handler := handler; ro_user := user; ro_body_open := None; ro_body_close := None |}.

Definition chttp_server_route_with (server : chttp_server_impl)
    (options : chttp_server_route_options) : option (outcome chttp_server_impl) :=
  chttp_server_route_register server options.

(** The functions that [CHTTP_SERVER_ROUTE_METHOD] defines. *)
Definition chttp_server_get server path handler user :=
  chttp_server_route server CHTTP_METHOD_GET path handler user.
Definition chttp_server_head server path handler user :=
  chttp_server_route server CHTTP_METHOD_HEAD path handler user.
Definition chttp_server_post server path handler user :=
  chttp_server_route server CHTTP_METHOD_POST path handler user.
Definition chttp_server_put server path handler user :=
  chttp_server_route server CHTTP_METHOD_PUT path handler user.
Definition chttp_server_delete server path handler user :=
  chttp_server_route server CHTTP_METHOD_DELETE path handler user.
Definition chttp_server_patch server path handler user :=
  chttp_server_route server CHTTP_METHOD_PATCH path handler user.
Definition chttp_server_options server path handler user :=
  chttp_server_route server CHTTP_METHOD_OPTIONS path handler user.

(** [validator] is [None] for [NULL] or one that is not initialised. *)
Definition chttp_server_route_with_jwt_bearer (server : chttp_server_impl)
    (options : chttp_server_route_options) (validator : option Z) :
    option (outcome chttp_server_impl) :=
  if is_none validator then Some (Err SALTS_EINVAL)
  else
    match chttp_server_route_register server options with
    | Some (Ok server) =>
      Some (Ok (upd_last_route server (fun r => r <| rr_jwt_bearer_validator := validator |>)))
    | r => r
    end.

Definition sizeof_websocket_options : Z := 80.

Record chttp_server_websocket_options := {
  wo_size : Z;
  wo_path : option (list Z);
  wo_on_open : option Z;
  wo_on_event : option Z;
  wo_middleware : option (list (option Z));
  wo_middleware_count : Z;
  wo_max_frame_bytes : Z;
  wo_max_message_bytes : Z;
  wo_max_buffered_input_bytes : Z;
  wo_user : Z;
}.

(** The frame, message and input limits of a WebSocket route. *)
Definition websocket_limits {ws : WebsocketLimits} (max_send_bytes : Z)
    (options : chttp_server_websocket_options) : outcome (Z * Z * Z) :=
  if max_send_bytes <=? CNET_WEBSOCKET_MAX_HEADER_BYTES then Err SALTS_EMSGSIZE
  else
    let max_frame_bytes :=
      if wo_max_frame_bytes options =? 0 then
        let bytes := max_send_bytes - CNET_WEBSOCKET_MAX_HEADER_BYTES in
        if CHTTP_SERVER_DEFAULT_WEBSOCKET_FRAME_BYTES <? bytes
        then CHTTP_SERVER_DEFAULT_WEBSOCKET_FRAME_BYTES else bytes
      else wo_max_frame_bytes options in
    let max_message_bytes :=
      if wo_max_message_bytes options =? 0 then max_frame_bytes
      else wo_max_message_bytes options in
    if (max_frame_bytes <? CNET_WEBSOCKET_MIN_FRAME_BYTES) ||
       (max_message_bytes <? max_frame_bytes) ||
       (SIZE_MAX - CNET_WEBSOCKET_MAX_HEADER_BYTES <? max_frame_bytes)
    then Err SALTS_EINVAL
    else
      let output_bytes := max_frame_bytes + CNET_WEBSOCKET_MAX_HEADER_BYTES in
      let max_buffered_input_bytes :=
        if wo_max_buffered_input_bytes options =? 0 then output_bytes
        else wo_max_buffered_input_bytes options in
      if (max_send_bytes <? output_bytes) || (max_buffered_input_bytes <? output_bytes)
      then Err SALTS_EMSGSIZE
      else if (SIZE_MAX - max_message_bytes <? max_buffered_input_bytes) ||
              (SIZE_MAX - output_bytes <? max_buffered_input_bytes + max_message_bytes)
      then Err SALTS_ERANGE
      else Ok (max_frame_bytes, max_message_bytes, max_buffered_input_bytes).

Definition chttp_server_websocket_route_register {ws : WebsocketLimits}
    (server : chttp_server_impl) (options : chttp_server_websocket_options) :
    option (outcome chttp_server_impl) :=
  if negb (wo_size options =? sizeof_websocket_options) ||
     is_none (wo_on_open options) || is_none (wo_on_event options) ||
     (negb (wo_middleware_count options =? 0) && is_none (wo_middleware options))
  then Some (Err SALTS_EINVAL)
  else
    match websocket_limits (sc_max_send_bytes (sv_config server)) options with
    | Err e => Some (Err e)
    | Ok (max_frame_bytes, max_message_bytes, max_buffered_input_bytes) =>
      match
        chttp_server_route_register server
          {| ro_method := CHTTP_METHOD_GET; ro_path := wo_path options;
             ro_middleware := wo_middleware options;
             ro_middleware_count := wo_middleware_count options;
             ro_handler := Some WebsocketUpgradeRequired; ro_user := 0;
             ro_body_open := None; ro_body_close := None |}
      with
      | Some (Ok server) =>
        Some (Ok (upd_last_route server (fun r =>
          r <| rr_websocket_open := wo_on_open options |>
            <| rr_websocket_event := wo_on_event options |>
            <| rr_websocket_max_frame_bytes := max_frame_bytes |>
            <| rr_websocket_max_message_bytes := max_message_bytes |>
            <| rr_websocket_max_buffered_input_bytes := max_buffered_input_bytes |>
            <| rr_websocket_user := wo_user options |> <| rr_websocket := true |>)))
      | r => r
      end
    end.

Definition chttp_server_websocket_with_jwt_bearer {ws : WebsocketLimits}
    (server : chttp_server_impl) (options : chttp_server_websocket_options)
    (validator : option Z) : option (outcome chttp_server_impl) :=
  if is_none validator then Some (Err SALTS_EINVAL)
  else
    match chttp_server_websocket_route_register server options with
    | Some (Ok server) =>
      Some (Ok (upd_last_route server (fun r => r <| rr_jwt_bearer_validator := validator |>)))
    | r => r
    end.

Definition chttp_server_websocket_with {ws : WebsocketLimits} (server : chttp_server_impl)
    (options : chttp_server_websocket_options) : option (outcome chttp_server_impl) :=
  chttp_server_websocket_route_register server options.

Definition chttp_server_websocket {ws : WebsocketLimits} (server : chttp_server_impl)
    (path : option (list Z)) (on_open on_event : option Z) (user : Z) :
    option (outcome chttp_server_impl) :=
  chttp_server_websocket_with server
    {| wo_size := sizeof_websocket_options; wo_path := path; wo_on_open := on_open; wo_on_event := on_event; wo_middleware := None;
       wo_middleware_count := 0; wo_max_frame_bytes := 0; wo_max_message_bytes := 0;
       wo_max_buffered_input_bytes := 0; wo_user := user |}.

(** ** Matching *)

(** The parameters of a request; [params] has [param_count] entries and
    [param_storage_used] bytes hold their names and values. *)
Record chttp_server_request_state := {
  rs_params : list (list Z * list Z);
  rs_param_storage_used : Z;
  rs_param_storage_capacity : Z;
}.

#[export] Instance eta_request_state : Eta chttp_server_request_state :=
  fun s => Build_chttp_server_request_state (rs_params s) (rs_param_storage_used s)
             (rs_param_storage_capacity s).
#[export] Instance set_rs_params : Setter rs_params. Proof. mk_setter. Defined.
#[export] Instance set_rs_param_storage_used : Setter rs_param_storage_used. Proof. mk_setter. Defined.

(** [state->param_count = 0u; state->param_storage_used = 0u;] *)
Definition params_reset (state : chttp_server_request_state) : chttp_server_request_state :=
  state <| rs_params := [] |> <| rs_param_storage_used := 0 |>.

Section Match.
Context (config : route_config).

Definition chttp_server_route_param_copy (state : chttp_server_request_state)
    (name value : list Z) : chttp_server_request_state * salts_status :=
  if (sc_max_route_param_count config <=? zlen (rs_params state)) ||
     (SIZE_MAX - zlen value - 2 <? zlen name)
  then (state, SALTS_ENOBUFS)
  else
    let needed := zlen name + zlen value + 2 in
    if (rs_param_storage_capacity state <? rs_param_storage_used state) ||
       (rs_param_storage_capacity state - rs_param_storage_used state <? needed)
    then (state, SALTS_ENOBUFS)
    else
      (state <| rs_params := rs_params state ++ [(name, value)] |>
             <| rs_param_storage_used := rs_param_storage_used state + needed |>, SALTS_OK).

(** The loop of [chttp_server_route_match]; every round takes a [/] off the
    pattern, so its length is enough fuel.  [None] is out of fuel. *)
Fixpoint route_match_loop (fuel : nat) (state : chttp_server_request_state)
    (pattern actual : list Z) : option (chttp_server_request_state * salts_status) :=
  match pattern, actual with
  | [], [] => Some (state, SALTS_OK)
  | p :: pattern, a :: actual =>
    match fuel with
    | O => None
    | S fuel =>
      if negb (p =? SLASH) || negb (a =? SLASH) then Some (state, SALTS_ENOENT)
      else
        let '(pattern_segment, pattern) := break_slash pattern in
        let '(actual_segment, actual) := break_slash actual in
        if negb (zlen pattern_segment =? 0) && (zth pattern_segment 0 =? COLON) then
          if zlen actual_segment =? 0 then Some (state, SALTS_ENOENT)
          else
            let '(state, status) :=
              chttp_server_route_param_copy state (zdrop 1 pattern_segment) actual_segment in
            if negb (bool_decide (status = SALTS_OK)) then Some (state, status)
            else route_match_loop fuel state pattern actual
        else if negb (bytes_eqb pattern_segment actual_segment) then Some (state, SALTS_ENOENT)
        else route_match_loop fuel state pattern actual
    end
  | _, _ => Some (state, SALTS_ENOENT)
  end.

Definition chttp_server_route_match (state : chttp_server_request_state)
    (route : chttp_server_route_record) (path : list Z) :
    option (chttp_server_request_state * salts_status) :=
  let state := params_reset state in
  if negb (rr_dynamic route) then
    Some (state, if bytes_eqb (rr_path route) path then SALTS_OK else SALTS_ENOENT)
  else route_match_loop (length (rr_path route)) state (rr_path route) path.

Definition chttp_server_route_method_matches (request_method route_method : Z) (fallback : bool) :
    bool :=
  if negb fallback then request_method =? route_method
  else (request_method =? CHTTP_METHOD_HEAD) && (route_method =? CHTTP_METHOD_GET).

(** What a pass over the routes comes to: a route, the error to return with,
    or nothing. *)
Inductive route_pass :=
  | PassFound (i : nat)
  | PassError (status : salts_status)
  | PassNone.

(** The innermost loop of [chttp_server_route_find] from index [i] on. *)
Fixpoint route_find_pass (state : chttp_server_request_state) (method : Z) (path : list Z)
    (fallback dynamic : bool) (routes : list chttp_server_route_record) (i : nat) :
    option (chttp_server_request_state * route_pass) :=
  match routes with
  | [] => Some (state, PassNone)
  | route :: routes =>
    if negb (Bool.eqb (rr_dynamic route) dynamic) ||
       negb (chttp_server_route_method_matches method (rr_method route) fallback)
    then route_find_pass state method path fallback dynamic routes (S i)
    else
      match chttp_server_route_match state route path with
      | None => None
      | Some (state, status) =>
        if bool_decide (status = SALTS_OK) then Some (state, PassFound i)
        else if negb (bool_decide (status = SALTS_ENOENT)) then Some (state, PassError status)
        else route_find_pass state method path fallback dynamic routes (S i)
      end
  end.

(** The passes in their order, until one decides. *)
Fixpoint route_find_passes (state : chttp_server_request_state) (method : Z) (path : list Z)
    (passes : list (bool * bool)) (routes : list chttp_server_route_record) :
    option (chttp_server_request_state * route_pass) :=
  match passes with
  | [] => Some (state, PassNone)
  | (fallback, dynamic) :: passes =>
    match route_find_pass state method path fallback dynamic routes 0 with
    | Some (state, PassNone) => route_find_passes state method path passes routes
    | r => r
    end
  end.

Definition method_bit (method : Z) : Z := Z.shiftl 1 method.

(** The last loop: the methods of the routes that match the path. *)
Fixpoint route_allowed (state : chttp_server_request_state) (path : list Z)
    (routes : list chttp_server_route_record) (allowed : Z) :
    option (chttp_server_request_state * Z * salts_status) :=
  match routes with
  | [] => Some (state, allowed, SALTS_OK)
  | route :: routes =>
    match chttp_server_route_match state route path with
    | None => None
    | Some (state, status) =>
      if bool_decide (status = SALTS_OK) then
        let allowed := Z.lor allowed (method_bit (rr_method route)) in
        let allowed :=
          if rr_method route =? CHTTP_METHOD_GET
          then Z.lor allowed (method_bit CHTTP_METHOD_HEAD) else allowed in
        route_allowed state path routes allowed
      else if negb (bool_decide (status = SALTS_ENOENT)) then Some (state, allowed, status)
      else route_allowed state path routes allowed
    end
  end.

(** The state, the index of the route, [*out_allowed_methods] and
    [*out_status]. *)
Definition chttp_server_route_find (routes : list chttp_server_route_record)
    (state : chttp_server_request_state) (method : Z) (path : list Z) :
    option (chttp_server_request_state * option nat * Z * salts_status) :=
  let passes :=
    [(false, false); (false, true)] ++
    (if method =? CHTTP_METHOD_HEAD then [(true, false); (true, true)] else []) in
  match route_find_passes state method path passes routes with
  | None => None
  | Some (state, PassFound i) => Some (state, Some i, 0, SALTS_OK)
  | Some (state, PassError status) => Some (state, None, 0, status)
  | Some (state, PassNone) =>
    match route_allowed (params_reset state) path routes 0 with
    | None => None
    | Some (state, allowed, SALTS_OK) => Some (params_reset state, None, allowed, SALTS_OK)
    | Some (state, allowed, status) => Some (state, None, allowed, status)
    end
  end.

End Match.

(** The value bound to [name] in the parameters of a request. *)
Fixpoint chttp_server_request_param (params : list (list Z * list Z)) (name : list Z) :
    option (list Z) :=
  match params with
  | [] => None
  | (n, value) :: params =>
    if bytes_eqb n name then Some value else chttp_server_request_param params name
  end.

End Router.
