(* ===== verification/RouterTheorems.v ===== *)
(** * Router: theorems

    The specification of patterns and paths as lists of segments, and the
    proofs that validation, registration, matching and the choice of a route
    implement it. *)

From Stdlib Require Import Sorting.Sorted Strings.String.
From S2P Require Import Prelude Router.

Module RouterTheorems.
Import Router.

(** ** Segments *)

(** The segments between the slashes of what follows a slash. *)
Abbreviation split_slashes := (split_on SLASH).

(** A cursor of the code: the end of the string, or at a slash. *)
Definition at_slash (s : list Z) : Prop := match s with [] => True | c :: _ => c = SLASH end.

Definition segs (s : list Z) : list (list Z) := match s with [] => [] | _ :: s => split_slashes s end.

Lemma break_slash_spec s :
  let '(segment, rest) := break_slash s in
  s = segment ++ rest /\ at_slash rest /\ split_slashes s = segment :: segs rest.
Proof.
  induction s as [|c s IH]; cbn [break_slash split_on]; [done|].
  destruct (Z.eqb_spec c SLASH) as [->|Hc]; [done|].
  destruct (break_slash s) as [segment rest]. destruct IH as (-> & Hr & ->). done.
Qed.

(** ** Patterns *)

(** The name of a parameter segment. *)
Definition param_name (seg : list Z) : option (list Z) :=
  match seg with c :: name => if c =? COLON then Some name else None | [] => None end.

Definition valid_segment (seg : list Z) : Prop :=
  match param_name seg with
  | Some name => name <> [] /\ forallb chttp_server_param_name_char name = true
  | None => has_char COLON seg = false
  end.

Definition names (pattern : list (list Z)) : list (list Z) := omap param_name pattern.

(** The bytes that the names take with their terminators. *)
Fixpoint names_size (l : list (list Z)) : Z :=
  match l with [] => 0 | name :: l => zlen name + 1 + names_size l end.

Lemma names_size_nonneg l : 0 <= names_size l.
Proof. induction l as [|n l IH]; cbn; [done|]. pose proof (zlen_nonneg n). lia. Qed.

Lemma names_cons seg pattern :
  names (seg :: pattern) = match param_name seg with Some n => n :: names pattern | None => names pattern end.
Proof. reflexivity. Qed.

(** ** Validation *)

(** What the loop accepts. *)
Definition pattern_fits (config : route_config) (pattern : list (list Z)) (count bytes : Z) : Prop :=
  Forall valid_segment pattern /\ count + zlen (names pattern) <= sc_max_route_param_count config /\
  (names pattern <> [] -> bytes + names_size (names pattern) <= sc_max_route_param_bytes config).

Lemma pattern_fits_literal config seg pattern count bytes :
  param_name seg = None -> has_char COLON seg = false ->
  pattern_fits config (seg :: pattern) count bytes <-> pattern_fits config pattern count bytes.
Proof.
  intros Hp Hc. unfold pattern_fits. rewrite names_cons, Hp, Forall_cons. unfold valid_segment at 1.
  rewrite Hp. tauto.
Qed.

Lemma pattern_fits_param config seg name pattern count bytes :
  param_name seg = Some name -> name <> [] -> forallb chttp_server_param_name_char name = true ->
  pattern_fits config (seg :: pattern) count bytes <->
  count < sc_max_route_param_count config /\
  bytes + (zlen name + 1) <= sc_max_route_param_bytes config /\
  pattern_fits config pattern (count + 1) (bytes + (zlen name + 1)).
Proof.
  intros Hp Hn Hc. unfold pattern_fits. rewrite names_cons, Hp, Forall_cons, zlen_cons.
  cbn [names_size]. pose proof (names_size_nonneg (names pattern)).
  pose proof (zlen_nonneg (names pattern)).
  assert (valid_segment seg) as Hv by (unfold valid_segment; by rewrite Hp).
  split.
  - intros ([_ Hf] & H1 & H2). specialize (H2 ltac:(done)). split_and!; [lia|lia|done|lia|intros; lia].
  - intros (H1 & H2 & Hf & H3 & H4). split_and!; [done|done|lia|intros _].
    destruct (names pattern) as [|x l]; [cbn; lia|]. specialize (H4 ltac:(done)). lia.
Qed.

(** A round that refuses the pattern. *)
Lemma refuse_ok e config pattern count bytes m :
  ~ pattern_fits config pattern count bytes ->
  exists r : outcome Z, Some (Err e) = Some r /\
    forall n, r = Ok n <-> pattern_fits config pattern count bytes /\ n = m.
Proof. intros Hn. eexists. split; [done|]. intros n. split; [done|tauto]. Qed.

Lemma validate_loop_spec config fuel : forall cursor count bytes,
  at_slash cursor -> (length cursor <= fuel)%nat -> count <= sc_max_route_param_count config ->
  exists r, route_validate_loop fuel config cursor count bytes = Some r /\
    forall n, r = Ok n <-> pattern_fits config (segs cursor) count bytes /\
                           n = count + zlen (names (segs cursor)).
Proof.
  induction fuel as [|fuel IH]; intros [|c cursor] count bytes Hat Hlen Hcount;
    cbn [route_validate_loop]; try (cbn in Hlen; lia).
  1,2: eexists; split; [done|]; intros n; unfold pattern_fits; cbn; rewrite Z.add_0_r;
    split; [intros [= <-]; done|by intros [_ ->]].
  cbn in Hat. subst c. rewrite Z.eqb_refl. cbn [negb].
  pose proof (break_slash_spec cursor) as Hb. destruct (break_slash cursor) as [seg rest].
  destruct Hb as (Hc & Hat & Hs). cbn [segs]. rewrite Hs.
  assert (length rest <= fuel)%nat as Hl by (subst cursor; cbn in Hlen; rewrite length_app in Hlen; lia).
  assert (param_name seg = None -> has_char COLON seg = false ->
    exists r, route_validate_loop fuel config rest count bytes = Some r /\
    forall n, r = Ok n <-> pattern_fits config (seg :: segs rest) count bytes /\
                           n = count + zlen (names (seg :: segs rest))) as Hlit.
  { intros Hp Hh. destruct (IH rest count bytes Hat Hl Hcount) as (r & Hr & Hn).
    exists r. split; [done|]. intros n. rewrite (Hn n), pattern_fits_literal by done.
    by rewrite names_cons, Hp. }
  destruct seg as [|first name]; [by apply Hlit|].
  destruct (Z.eqb_spec first COLON) as [->|Hne]; cycle 1.
  { assert (param_name (first :: name) = None) as Hp
      by (cbn; by destruct (Z.eqb_spec first COLON)).
    destruct (has_char COLON (first :: name)) eqn:Hh; [|by apply Hlit].
    apply refuse_ok. unfold pattern_fits. rewrite Forall_cons. unfold valid_segment at 1.
    rewrite Hp, Hh. intros [[? _] _]. done. }
  assert (param_name (COLON :: name) = Some name) as Hp by done.
  destruct (Z.eqb_spec (zlen name) 0) as [Hz|Hz].
  { apply refuse_ok. unfold pattern_fits. rewrite Forall_cons. unfold valid_segment at 1.
    rewrite Hp. intros [[[Hx _] _] _]. by apply zlen_0_inv in Hz. }
  destruct (forallb chttp_server_param_name_char name) eqn:Hch; cbn [negb]; cycle 1.
  { apply refuse_ok. unfold pattern_fits. rewrite Forall_cons. unfold valid_segment at 1.
    rewrite Hp, Hch. intros [[[_ Hx] _] _]. done. }
  assert (name <> []) as Hnn by (by intros ->).
  destruct (_ || _ || _) eqn:Hlim.
  { apply refuse_ok. rewrite (pattern_fits_param config _ name) by done. bool_prop.
    pose proof (zlen_nonneg name). destruct Hlim as [Hlim|Hlim]; bool_prop; [|lia].
    destruct Hlim as [Hlim|Hlim]; bool_prop; lia. }
  bool_prop. destruct (IH rest (count + 1) (bytes + (zlen name + 1)) Hat Hl ltac:(lia)) as (r & Hr & Hn).
  exists r. split; [done|]. intros n. rewrite (Hn n), (pattern_fits_param config _ name) by done.
  rewrite names_cons, Hp, zlen_cons. split; intros [Ha Hb]; split; try lia; try tauto.
  split_and!; [lia|lia|done].
Qed.

(** What a route may be. *)
Definition valid_pattern (config : route_config) (method : Z) (path : list Z) : Prop :=
  CHTTP_METHOD_GET <= method <= CHTTP_METHOD_OPTIONS /\
  (path = [STAR] /\ method = CHTTP_METHOD_OPTIONS \/
   (exists rest, path = SLASH :: rest) /\ has_char QUESTION path = false /\
   has_char HASH path = false /\ zlen path <= sc_max_target_bytes config /\
   pattern_fits config (segs path) 0 0).

Lemma route_validate_spec server method path :
  0 <= sc_max_route_param_count (sv_config server) ->
  exists r, chttp_server_route_validate server method path = Some r /\
    forall n, r = Ok n <->
      exists p, path = Some p /\ valid_pattern (sv_config server) method p /\
        n = zlen (names (segs p)).
Proof.
  intros Hc. unfold chttp_server_route_validate, valid_pattern.
  assert (forall e (P : Z -> Prop), (forall n, ~ P n) ->
    exists r : outcome Z, Some (Err e) = Some r /\ forall n, r = Ok n <-> P n) as Hno.
  { intros e P HP. eexists. split; [done|]. intros n. split; [done|]. intros H. by destruct (HP n). }
  destruct path as [[|c path]|]; [apply Hno; intros n (p & [= <-] & (_ & [[? _]|[[? ?] _]]) & _); done| |
    by apply Hno; intros n (p & ? & _)].
  destruct (chttp_server_method_valid method) eqn:Hm; unfold chttp_server_method_valid in Hm; cbn [negb]; cycle 1.
  { apply Hno. intros n (p & _ & (? & _) & _). bool_prop. lia. }
  bool_prop. destruct (bytes_eqb (c :: path) [STAR]) eqn:Hs.
  { apply bytes_eqb_eq in Hs. injection Hs as -> ->.
    destruct (Z.eqb_spec method CHTTP_METHOD_OPTIONS) as [->|Hne]; cbn [negb].
    - eexists. split; [done|]. intros n. split; [|by intros (p & [= <-] & _ & ->)].
      intros [= <-]. eexists. split; [done|]. split; [|done]. split; [done|]. by left.
    - apply Hno. intros n (p & [= <-] & (_ & [[_ ?]|[[? ?] _]]) & _); done. }
  assert (c :: path <> [STAR]) as Hns by (intros E; rewrite <- bytes_eqb_eq in E; congruence).
  destruct (negb (zth (c :: path) 0 =? SLASH) || has_char QUESTION (c :: path) ||
            has_char HASH (c :: path)) eqn:Hx.
  { apply Hno. intros n (p & [= <-] & (_ & [[? _]|([rest E] & Hq & Hh & _)]) & _); [done|].
    rewrite Hq, Hh in Hx. injection E as -> ->. done. }
  apply orb_false_iff in Hx as [Hx Hhash]. apply orb_false_iff in Hx as [Hx Hquest].
  apply negb_false_iff, Z.eqb_eq in Hx. change (c = SLASH) in Hx. subst c.
  destruct (Z.ltb_spec (sc_max_target_bytes (sv_config server)) (zlen (SLASH :: path))) as [Hlong|Hshort].
  { apply Hno. intros n (p & [= <-] & (_ & [[? _]|(_ & _ & _ & ? & _)]) & _); [done|lia]. }
  destruct (validate_loop_spec (sv_config server) (length (SLASH :: path)) (SLASH :: path) 0 0)
    as (r & Hr & Hn); [done|lia|lia|].
  exists r. split; [exact Hr|]. intros n. rewrite (Hn n). split.
  - intros [Hf ->]. eexists. split; [done|]. split; [|done]. split; [done|]. right. split_and!; eauto.
  - intros (p & [= <-] & (_ & [[? _]|(_ & _ & _ & _ & Hf)]) & ->); [done|]. done.
Qed.

(** The validation of a route terminates and accepts exactly the valid patterns (a
    known method; the asterisk for OPTIONS; otherwise a rooted path without query
    or fragment, within the length limit, whose parameter segments are well named
    and within the limits), with the number of its parameters. *)
Theorem route_validate_correct server method path :
  0 <= sc_max_route_param_count (sv_config server) ->
  exists r, chttp_server_route_validate server method path = Some r /\
    forall n, r = Ok n <->
      exists p, path = Some p /\ valid_pattern (sv_config server) method p /\
        n = zlen (names (segs p)).
Proof. apply route_validate_spec. Qed.

(** ** Registration *)

(** A route that was registered: a valid pattern, and the facts the matcher
    relies on. *)
Definition route_wf (config : route_config) (r : chttp_server_route_record) : Prop :=
  valid_pattern config (rr_method r) (rr_path r) /\
  rr_param_count r = zlen (names (segs (rr_path r))) /\
  rr_dynamic r = negb (rr_param_count r =? 0).

Record server_wf (s : chttp_server_impl) : Prop := {
  sw_limit : 0 <= sc_max_route_param_count (sv_config s);
  sw_routes : Forall (route_wf (sv_config s)) (sv_routes s);
  sw_count : sv_routes s = [] \/ zlen (sv_routes s) <= sc_route_capacity (sv_config s);
  sw_unique : NoDup (map (fun r => (rr_method r, rr_path r)) (sv_routes s));
}.

Lemma route_register_spec s options :
  server_wf s ->
  exists r, chttp_server_route_register s options = Some r /\
    forall s', r = Ok s' ->
      server_wf s' /\ sv_config s' = sv_config s /\ sv_start_called s = false /\
      exists route path, ro_path options = Some path /\ rr_path route = path /\
        rr_method route = ro_method options /\ ro_handler options = Some (rr_handler route) /\
        route_wf (sv_config s) route /\ sv_routes s' = sv_routes s ++ [route].
Proof.
  intros [L R C Un]. unfold chttp_server_route_register.
  destruct (ro_handler options) as [h|] eqn:Hh; [|by eexists]. split_if; [by eexists|].
  destruct (sv_start_called s) eqn:Hst; [by eexists|]. split_if; [by eexists|].
  destruct (route_validate_spec s (ro_method options) (ro_path options) L) as (r & -> & Hr).
  destruct r as [n|e]; [|by eexists]. destruct (proj1 (Hr n) eq_refl) as (p & Hp & Hv & Hn).
  rewrite Hp. cbv zeta. split_if; [by eexists|].
  destruct (existsb _ (sv_routes s)) eqn:Hex; [by eexists|].
  eexists. split; [done|]. intros s' [= <-]. set (route := Build_chttp_server_route_record _ _ _ _ _ _ _ _ _ _ _ _ _ _ _ _ _).
  assert (route_wf (sv_config s) route) as Hwf by done.
  split_and!; [|done|done|by exists route, p].
  split; cbn; [done|apply Forall_app; by split; [|constructor]| |].
  - right. rewrite zlen_app. change (zlen [route]) with 1. bool_prop. lia.
  - rewrite map_app. apply NoDup_app. split_and!; [done| |apply NoDup_singleton].
    intros x Hx Hx'. apply list_elem_of_singleton in Hx' as ->.
    apply list_elem_of_fmap in Hx as (y & Hy & Hin). injection Hy as Hy1 Hy2.
    assert (existsb (fun r => (rr_method r =? ro_method options) && bytes_eqb (rr_path r) p)
      (sv_routes s) = true) as Ht; [|congruence].
    apply existsb_exists. exists y. split; [by apply list_elem_of_In|].
    rewrite <- Hy1, <- Hy2. cbn. by rewrite Z.eqb_refl, bytes_eqb_refl.
Qed.

(** Registering a route keeps the invariant of the route table (valid patterns,
    the flags the matcher relies on, no two routes with the same method and path,
    the capacity) and appends exactly the requested route. *)
Theorem route_register_invariant s options :
  server_wf s ->
  exists r, chttp_server_route_register s options = Some r /\
    forall s', r = Ok s' ->
      server_wf s' /\ sv_config s' = sv_config s /\ sv_start_called s = false /\
      exists route path, ro_path options = Some path /\ rr_path route = path /\
        rr_method route = ro_method options /\ ro_handler options = Some (rr_handler route) /\
        route_wf (sv_config s) route /\ sv_routes s' = sv_routes s ++ [route].
Proof. apply route_register_spec. Qed.

(** Changes of a route that keep what matching depends on. *)
Definition keeps_route (f : chttp_server_route_record -> chttp_server_route_record) : Prop :=
  forall r, rr_method (f r) = rr_method r /\ rr_path (f r) = rr_path r /\
    rr_param_count (f r) = rr_param_count r /\ rr_dynamic (f r) = rr_dynamic r.

Lemma upd_last_route_snoc s routes route f :
  sv_routes s = routes ++ [route] -> sv_routes (upd_last_route s f) = routes ++ [f route].
Proof.
  intros E. unfold upd_last_route. cbn. rewrite E, length_app. change (length [route]) with 1%nat.
  replace (pred (length routes + 1)) with (length routes + 0)%nat by lia.
  by rewrite alter_app_r.
Qed.

Lemma keeps_route_wf s routes route f :
  keeps_route f -> server_wf s -> sv_routes s = routes ++ [route] ->
  server_wf (upd_last_route s f).
Proof.
  intros Hf [L R C Un] E. destruct (Hf route) as (H1 & H2 & H3 & H4).
  pose proof (upd_last_route_snoc s routes route f E) as E'. rewrite E in R, C, Un.
  apply Forall_app in R as [R Rl]. apply (proj1 (Forall_singleton _ _)) in Rl.
  destruct Rl as (V & Hc & Hd).
  split; [done| | |]; rewrite ?E'.
  - apply Forall_app. split; [done|]. apply Forall_singleton. unfold route_wf.
    by rewrite H1, H2, H3, H4.
  - destruct C as [C|C]; [by destruct routes|]. right. by rewrite zlen_app in *.
  - by rewrite map_app in *; cbn in *; rewrite H1, H2.
Qed.

(** What the limits of a WebSocket route guarantee: a frame with its header
    fits one send and the input buffer, a message is at least a frame, and the
    three sizes add up without overflow. *)
Lemma websocket_limits_spec {ws : WebsocketLimits} max_send options frame message input :
  0 <= CNET_WEBSOCKET_MAX_HEADER_BYTES ->
  websocket_limits max_send options = Ok (frame, message, input) ->
  CNET_WEBSOCKET_MIN_FRAME_BYTES <= frame <= message /\
  frame + CNET_WEBSOCKET_MAX_HEADER_BYTES <= max_send /\
  frame + CNET_WEBSOCKET_MAX_HEADER_BYTES <= input /\
  input + message + (frame + CNET_WEBSOCKET_MAX_HEADER_BYTES) <= SIZE_MAX.
Proof.
  intros H0. unfold websocket_limits. split_if; [done|].
  set (fr := if wo_max_frame_bytes options =? 0 then _ else _).
  set (ms := if wo_max_message_bytes options =? 0 then _ else _).
  cbv zeta. set (inp := if wo_max_buffered_input_bytes options =? 0 then _ else _).
  clearbody fr ms inp. split_if; [done|]. split_if; [done|]. split_if; [done|].
  intros E. injection E as <- <- <-. split_and!; lia.
Qed.

(** Registering a WebSocket route keeps the invariant of the route table and gives
    limits that are consistent: a frame with its header fits one send and the
    input buffer, a message is at least a frame, and the buffers add up without
    overflow. *)
Theorem websocket_register_invariant {ws : WebsocketLimits} s options s' :
  0 <= CNET_WEBSOCKET_MAX_HEADER_BYTES -> server_wf s ->
  chttp_server_websocket_route_register s options = Some (Ok s') ->
  server_wf s' /\ exists route, sv_routes s' = sv_routes s ++ [route] /\
    rr_websocket route = true /\ rr_method route = CHTTP_METHOD_GET /\
    rr_handler route = WebsocketUpgradeRequired /\
    CNET_WEBSOCKET_MIN_FRAME_BYTES <= rr_websocket_max_frame_bytes route <=
      rr_websocket_max_message_bytes route /\
    rr_websocket_max_frame_bytes route + CNET_WEBSOCKET_MAX_HEADER_BYTES <=
      Z.min (sc_max_send_bytes (sv_config s)) (rr_websocket_max_buffered_input_bytes route) /\
    rr_websocket_max_buffered_input_bytes route + rr_websocket_max_message_bytes route +
      (rr_websocket_max_frame_bytes route + CNET_WEBSOCKET_MAX_HEADER_BYTES) <= SIZE_MAX.
Proof.
  intros H0 W. unfold chttp_server_websocket_route_register. split_if; [done|].
  destruct (websocket_limits _ options) as [[[frame message] input]|] eqn:El; [|done].
  destruct (websocket_limits_spec _ _ _ _ _ H0 El) as ((? & ?) & ? & ? & ?).
  match goal with |- context [chttp_server_route_register s ?o] => set (opts := o) end.
  destruct (route_register_spec s opts W) as (r & -> & Hr). destruct r as [s1|]; [|done].
  destruct (Hr s1 eq_refl) as (W1 & _ & _ & route & path & _ & _ & Hm & Hh & _ & E).
  match goal with |- context [upd_last_route s1 ?g] => pose (f := g); change g with f end.
  assert (keeps_route f) as Hf by (intros r; split_and!; reflexivity).
  intros Hs. assert (s' = upd_last_route s1 f) as -> by congruence.
  split; [by apply keeps_route_wf with (sv_routes s) route|].
  exists (f route). split; [by apply upd_last_route_snoc|].
  change (rr_websocket (f route)) with true. change (rr_handler (f route)) with (rr_handler route).
  change (rr_websocket_max_frame_bytes (f route)) with frame.
  change (rr_websocket_max_message_bytes (f route)) with message.
  change (rr_websocket_max_buffered_input_bytes (f route)) with input.
  rewrite (proj1 (Hf route)), Hm. clearbody f.
  split_and!; [reflexivity|reflexivity|by injection Hh as <-|done|done|lia|done].
Qed.

(** ** Matching *)

(** The parameters that a path binds in a pattern, if it matches. *)
Fixpoint bindings (pattern actual : list (list Z)) : option (list (list Z * list Z)) :=
  match pattern, actual with
  | [], [] => Some []
  | p :: pattern, a :: actual =>
    match param_name p with
    | Some name => if bool_decide (a = []) then None else cons (name, a) <$> bindings pattern actual
    | None => if bool_decide (p = a) then bindings pattern actual else None
    end
  | _, _ => None
  end.

Definition path_bindings (pattern path : list Z) : option (list (list Z * list Z)) :=
  match path with
  | c :: _ => if c =? SLASH then bindings (segs pattern) (segs path) else None
  | [] => bindings (segs pattern) []
  end.

(** The parameters that are bound before the pattern and the path differ. *)
Fixpoint bound (pattern actual : list (list Z)) : list (list Z * list Z) :=
  match pattern, actual with
  | p :: pattern, a :: actual =>
    match param_name p with
    | Some name => if bool_decide (a = []) then [] else (name, a) :: bound pattern actual
    | None => if bool_decide (p = a) then bound pattern actual else []
    end
  | _, _ => []
  end.

Definition path_bound (pattern path : list Z) : list (list Z * list Z) :=
  match path with
  | c :: _ => if c =? SLASH then bound (segs pattern) (segs path) else []
  | [] => []
  end.

(** The bytes that hold parameters, each with its terminators. *)
Fixpoint stored_bytes (bs : list (list Z * list Z)) : Z :=
  match bs with
  | [] => 0
  | (name, value) :: bs => zlen name + zlen value + 2 + stored_bytes bs
  end.

Lemma stored_bytes_nonneg bs : 0 <= stored_bytes bs.
Proof.
  induction bs as [|[name value] bs IH]; cbn [stored_bytes]; [done|].
  pose proof (zlen_nonneg name). pose proof (zlen_nonneg value). lia.
Qed.

(** The counters of the storage. *)
Definition storage_ok (config : route_config) (state : chttp_server_request_state)
    (pattern : list (list Z)) : Prop :=
  rs_param_storage_capacity state <= SIZE_MAX /\
  0 <= rs_param_storage_used state <= rs_param_storage_capacity state /\
  zlen (rs_params state) + zlen (names pattern) <= sc_max_route_param_count config.

(** What a match comes to: the bindings, or that there are none; an error
    exactly when what is bound on the way does not fit. *)
Definition match_ok (state : chttp_server_request_state) (found : option (list (list Z * list Z)))
    (bs : list (list Z * list Z)) (r : option (chttp_server_request_state * salts_status)) : Prop :=
  exists state', rs_param_storage_capacity state' = rs_param_storage_capacity state /\
    if rs_param_storage_used state + stored_bytes bs <=? rs_param_storage_capacity state then
      match found with
      | Some found => r = Some (state', SALTS_OK) /\ rs_params state' = rs_params state ++ found
      | None => r = Some (state', SALTS_ENOENT)
      end
    else r = Some (state', SALTS_ENOBUFS).

Lemma match_ok_none config state pattern :
  storage_ok config state pattern -> match_ok state None [] (Some (state, SALTS_ENOENT)).
Proof. intros (_ & ? & _). exists state. split; [done|]. cbn. by split_if; [|lia]. Qed.

Lemma param_copy_spec config state ps name value pattern :
  param_name ps = Some name -> storage_ok config state (ps :: pattern) ->
  let '(state', status) := chttp_server_route_param_copy config state name value in
  rs_param_storage_capacity state' = rs_param_storage_capacity state /\
  (status = SALTS_OK /\ storage_ok config state' pattern /\ rs_params state' = rs_params state ++ [(name, value)] /\
     rs_param_storage_used state' = rs_param_storage_used state + (zlen name + zlen value + 2) \/
   status = SALTS_ENOBUFS /\
     rs_param_storage_capacity state < rs_param_storage_used state + (zlen name + zlen value + 2)).
Proof.
  intros Hp (Hs & Hu & Hc). rewrite names_cons, Hp, zlen_cons in Hc.
  unfold chttp_server_route_param_copy, storage_ok. pose proof (zlen_nonneg (names pattern)).
  pose proof (zlen_nonneg name). pose proof (zlen_nonneg value).
  destruct (_ || _) eqn:E1; [|cbv zeta; destruct ((_ <? _) || _) eqn:E2].
  - split; [done|]. right. split; [done|]. bool_prop. destruct E1; bool_prop; lia.
  - split; [done|]. right. split; [done|]. bool_prop. destruct E2; bool_prop; lia.
  - split; [done|]. left. cbn. rewrite zlen_app. change (zlen [(name, value)]) with 1.
    bool_prop. split_and!; try done; lia.
Qed.

Lemma param_segment_test seg :
  negb (zlen seg =? 0) && (zth seg 0 =? COLON) = negb (is_none (param_name seg)).
Proof.
  destruct seg as [|c seg]; [done|]. rewrite zlen_cons. pose proof (zlen_nonneg seg).
  destruct (Z.eqb_spec (1 + zlen seg) 0); [lia|]. change (zth (c :: seg) 0) with c.
  unfold param_name. by destruct (c =? COLON).
Qed.

Lemma bindings_nil_path a actual : path_bindings [] (a :: actual) = None.
Proof.
  cbn. destruct (a =? SLASH); [|done]. by destruct (split_on_cons SLASH actual) as (? & ? & ->).
Qed.

Lemma bindings_nil_actual p pattern : path_bindings (p :: pattern) [] = None.
Proof. cbn. by destruct (split_on_cons SLASH pattern) as (? & ? & ->). Qed.

Lemma path_bindings_at_slash pattern path :
  at_slash path -> path_bindings pattern path = bindings (segs pattern) (segs path).
Proof. destruct path as [|c path]; [done|]. cbn. by intros ->. Qed.

Lemma path_bound_at_slash pattern path :
  at_slash path -> path_bound pattern path = bound (segs pattern) (segs path).
Proof. destruct path as [|c path]; cbn; [by destruct (segs pattern)|]. by intros ->. Qed.

(** A parameter in front of a match of the rest. *)
Lemma match_ok_param state state1 name value found bs r :
  rs_param_storage_capacity state1 = rs_param_storage_capacity state ->
  rs_params state1 = rs_params state ++ [(name, value)] ->
  rs_param_storage_used state1 = rs_param_storage_used state + (zlen name + zlen value + 2) ->
  match_ok state1 found bs r -> match_ok state (cons (name, value) <$> found) ((name, value) :: bs) r.
Proof.
  intros H1 H2 H3 (st & Hc & H). exists st. split; [congruence|]. cbn [stored_bytes].
  rewrite H1, H3 in H. rewrite Z.add_assoc. revert H. split_if; [|done]. destruct found as [found|]; [|done].
  cbn. intros [-> ->]. by rewrite H2, <- app_assoc.
Qed.

Lemma match_loop_spec config fuel : forall state pattern actual,
  at_slash pattern -> (length pattern <= fuel)%nat -> storage_ok config state (segs pattern) ->
  match_ok state (path_bindings pattern actual) (path_bound pattern actual)
    (route_match_loop config fuel state pattern actual).
Proof.
  induction fuel as [|fuel IH]; intros state [|p pattern] [|a actual] Hp Hlen Hok;
    cbn [route_match_loop]; try (cbn in Hlen; lia).
  1,3: exists state; split; [done|]; cbn; destruct Hok as (_ & ? & _); split_if; [|lia]; by rewrite app_nil_r.
  1,2: rewrite bindings_nil_path; cbn [path_bound]; replace (bound (segs []) (segs (a :: actual))) with (@nil (list Z * list Z)) by done;
    destruct (a =? SLASH); by eapply match_ok_none.
  1: rewrite bindings_nil_actual; by eapply match_ok_none.
  cbn in Hp. subst p. rewrite Z.eqb_refl. cbn [negb orb path_bindings path_bound].
  destruct (a =? SLASH) eqn:Ha; cbn [negb]; [|by eapply match_ok_none].
  cbn [segs] in *. pose proof (break_slash_spec pattern) as Hb. pose proof (break_slash_spec actual) as Hb'.
  destruct (break_slash pattern) as [ps prest], (break_slash actual) as [acs arest].
  destruct Hb as (Hpe & Hat & E). rewrite E in *. destruct Hb' as (Hae & Hat' & ->).
  assert (length prest <= fuel)%nat as Hl by (subst pattern; cbn in Hlen; rewrite length_app in Hlen; lia).
  rewrite param_segment_test. cbn [bindings bound].
  destruct (param_name ps) as [name|] eqn:Hpn; cbn [is_none negb]; cycle 1.
  { destruct (bytes_eqb ps acs) eqn:Heq; cbn [negb].
    - apply bytes_eqb_eq in Heq. rewrite !bool_decide_eq_true_2, <- path_bindings_at_slash, <- path_bound_at_slash by done.
      apply IH; [done|done|]. unfold storage_ok in *. by rewrite names_cons, Hpn in Hok.
    - rewrite !bool_decide_eq_false_2; [by eapply match_ok_none|..];
      intros Ex; rewrite <- bytes_eqb_eq in Ex; congruence. }
  destruct (Z.eqb_spec (zlen acs) 0) as [Hz0|Hz0].
  { apply zlen_0_inv in Hz0. rewrite !bool_decide_eq_true_2 by done. by eapply match_ok_none. }
  rewrite !bool_decide_eq_false_2 by (by intros ->).
  replace (zdrop 1 ps) with name by (destruct ps as [|c ps]; [done|]; cbn in Hpn;
    destruct (c =? COLON); [by injection Hpn|done]).
  pose proof (param_copy_spec config state ps name acs (segs prest) Hpn Hok) as Hcp.
  destruct (chttp_server_route_param_copy config state name acs) as [state1 status].
  destruct Hcp as [Hcap [(-> & Hok1 & Hps & Hus)|(-> & Hfull)]]; cbn [bool_decide negb].
  - rewrite <- path_bindings_at_slash, <- path_bound_at_slash by done.
    eapply match_ok_param; [done|done|done|]. by apply IH.
  - exists state1. split; [done|]. cbn [stored_bytes]. pose proof (stored_bytes_nonneg (bound (segs prest) (segs arest))).
    by split_if; [lia|].
Qed.

(** ** Routes *)

(** The parameters that a path binds in a route, if the route matches it. *)
Definition route_bindings (route : chttp_server_route_record) (path : list Z) :
    option (list (list Z * list Z)) :=
  if rr_dynamic route then path_bindings (rr_path route) path
  else if bool_decide (rr_path route = path) then Some [] else None.

(** The parameters that matching the route binds, whether it matches in the
    end or not, are more than the storage of the request holds. *)
Definition overflows (capacity : Z) (path : list Z) (route : chttp_server_route_record) : Prop :=
  rr_dynamic route = true /\ capacity < stored_bytes (path_bound (rr_path route) path).

#[export] Instance overflows_dec capacity path route : Decision (overflows capacity path route).
Proof. unfold overflows. apply _. Defined.

Lemma route_match_spec config state route path :
  route_wf config route -> 0 <= sc_max_route_param_count config -> 0 <= rs_param_storage_capacity state <= SIZE_MAX ->
  exists state', rs_param_storage_capacity state' = rs_param_storage_capacity state /\
    chttp_server_route_match config state route path =
      Some (state', if decide (overflows (rs_param_storage_capacity state) path route) then SALTS_ENOBUFS
                    else if route_bindings route path is Some _ then SALTS_OK else SALTS_ENOENT) /\
    (~ overflows (rs_param_storage_capacity state) path route -> forall bs, route_bindings route path = Some bs -> rs_params state' = bs).
Proof.
  intros ([_ Hv] & Hc & Hd) H0 Hcap. unfold chttp_server_route_match, route_bindings.
  destruct (rr_dynamic route) eqn:Edyn; cbn [negb].
  - assert (at_slash (rr_path route) /\ zlen (names (segs (rr_path route))) <= sc_max_route_param_count config) as [Hat Hmax].
    { destruct Hv as [[Hp _]|([rest Hp] & _ & _ & _ & _ & Hf & _)].
      - rewrite Hc, Hp in Hd. by vm_compute in Hd.
      - split; [by rewrite Hp|done]. }
    destruct (match_loop_spec config (length (rr_path route)) (params_reset state) (rr_path route) path Hat ltac:(done))
      as (st & Hst & H).
    { unfold storage_ok. change (rs_params (params_reset state)) with (@nil (list Z * list Z)). change (zlen (@nil (list Z * list Z))) with 0.
      change (rs_param_storage_used (params_reset state)) with 0.
      change (rs_param_storage_capacity (params_reset state)) with (rs_param_storage_capacity state). lia. }
    cbn in Hst, H. rewrite Z.add_0_l in H. exists st. split; [done|].
    destruct (Z.leb_spec (stored_bytes (path_bound (rr_path route) path)) (rs_param_storage_capacity state)) as [Hle|Hgt].
    + rewrite decide_False by (intros [_ ?]; lia). destruct (path_bindings (rr_path route) path) as [bs|]; [|by rewrite H].
      destruct H as [-> Hp]. split; [done|]. intros _ bs' [= <-]. done.
    + rewrite decide_True by done. rewrite H. split; [done|]. intros []. done.
  - exists (params_reset state). split; [done|]. rewrite decide_False by (intros [? _]; congruence).
    split; [|by intros _ bs; case_bool_decide; intros [= <-]]. f_equal. f_equal.
    destruct (bytes_eqb (rr_path route) path) eqn:E.
    + apply bytes_eqb_eq in E. by rewrite bool_decide_eq_true_2.
    + rewrite bool_decide_eq_false_2; [done|]. intros Ep. rewrite <- bytes_eqb_eq in Ep. congruence.
Qed.

(** ** The choice of a route *)

(** A route serves a request in one of four classes, the preferred first: the
    method itself, static or dynamic, then [GET] for [HEAD], static or
    dynamic. *)
Definition serves (r : chttp_server_route_record) (method : Z) (pass : bool * bool) : Prop :=
  rr_dynamic r = snd pass /\ chttp_server_route_method_matches method (rr_method r) (fst pass) = true.

Definition eligible (routes : list chttp_server_route_record) (method : Z) (path : list Z)
    (pass : bool * bool) (i : nat) : Prop :=
  exists r, routes !! i = Some r /\ serves r method pass /\ route_bindings r path <> None.

Section Choice.
Context (config : route_config) (capacity : Z) (path : list Z).
Context (Hcount : 0 <= sc_max_route_param_count config) (Hcapacity : 0 <= capacity <= SIZE_MAX).

(** The end of a pass from index [i] on. *)
Definition pass_ends (routes : list chttp_server_route_record) (method : Z) (pass : bool * bool) (i : nat)
    (params : list (list Z * list Z)) (res : route_pass) : Prop :=
  match res with
  | PassFound k => exists j r, k = (i + j)%nat /\ routes !! j = Some r /\ eligible routes method path pass j /\
      route_bindings r path = Some params /\ forall j', (j' < j)%nat -> ~ eligible routes method path pass j'
  | PassError status => status = SALTS_ENOBUFS /\ exists j r, routes !! j = Some r /\ serves r method pass /\
      overflows capacity path r /\ forall j', (j' < j)%nat -> ~ eligible routes method path pass j'
  | PassNone => forall j, ~ eligible routes method path pass j
  end.

Lemma pass_ends_cons r routes method pass i params res :
  ~ eligible (r :: routes) method path pass 0 -> pass_ends routes method pass (S i) params res ->
  pass_ends (r :: routes) method pass i params res.
Proof.
  intros H0. destruct res as [k|status|]; cbn.
  - intros (j & r0 & -> & H1 & H2 & H3 & H4). exists (S j), r0. split_and!; [lia|done|exact H2|done|].
    intros [|j'] Hlt; [done|]. apply H4. lia.
  - intros (-> & j & r0 & H1 & H2 & H3 & H4). split; [done|]. exists (S j), r0. split_and!; try done.
    intros [|j'] Hlt; [done|]. apply H4. lia.
  - intros H [|j]; [done|apply H].
Qed.

(** A pass finds the first eligible route, unless one before it overflows. *)
Lemma find_pass_spec method fallback dynamic routes : forall state i,
  Forall (route_wf config) routes -> rs_param_storage_capacity state = capacity ->
  exists state' res,
    route_find_pass config state method path fallback dynamic routes i = Some (state', res) /\
    rs_param_storage_capacity state' = capacity /\
    pass_ends routes method (fallback, dynamic) i (rs_params state') res.
Proof.
  induction routes as [|r routes IH]; intros state i Hs Hcap; cbn [route_find_pass].
  { eexists _, _. split_and!; [done|done|]. by intros j (? & ? & _). }
  apply Forall_cons in Hs as [Hr Hs].
  assert (forall st, rs_param_storage_capacity st = capacity -> ~ eligible (r :: routes) method path (fallback, dynamic) 0 ->
    exists state' res, route_find_pass config st method path fallback dynamic routes (S i) = Some (state', res) /\
    rs_param_storage_capacity state' = capacity /\
    pass_ends (r :: routes) method (fallback, dynamic) i (rs_params state') res) as Hnext.
  { intros st Hst H0. destruct (IH st (S i) Hs Hst) as (st' & res & E & Hc & H). exists st', res.
    split_and!; [done|done|]. by apply pass_ends_cons. }
  destruct (_ || _) eqn:Hskip.
  { apply Hnext; [done|]. intros (r0 & [= <-] & [Hd Hm] & _). cbn in Hd, Hm. rewrite Hd, Hm in Hskip.
    by rewrite eqb_reflx in Hskip. }
  apply orb_false_iff in Hskip as [Hd Hm]. apply negb_false_iff in Hd, Hm. apply eqb_prop in Hd.
  destruct (route_match_spec config state r path Hr Hcount) as (st & Hc & -> & Hp); [by rewrite Hcap|].
  rewrite Hcap in *. case_decide as Ho; [|destruct (route_bindings r path) as [bs|] eqn:Eb]; cbn [bool_decide negb].
  - eexists _, _. split_and!; [done|done|]. split; [done|]. exists O, r. split_and!; [done|done|done|lia].
  - eexists _, _. split_and!; [done|done|]. exists O, r. split_and!; [lia|done| |by rewrite (Hp Ho bs)|lia].
    exists r. by rewrite Eb.
  - apply Hnext; [done|]. intros (r0 & [= <-] & _ & Hx). done.
Qed.

(** The order of preference: the class first, then the order of
    registration. *)
Definition pass_rank (pass : bool * bool) : Z :=
  (if fst pass then 2 else 0) + (if snd pass then 1 else 0).

Definition preferred (a : bool * bool) (i : nat) (b : bool * bool) (j : nat) : Prop :=
  pass_rank a < pass_rank b \/ pass_rank a = pass_rank b /\ (i <= j)%nat.

Lemma pass_rank_inj a b : pass_rank a = pass_rank b -> a = b.
Proof. destruct a as [[] []], b as [[] []]; cbn; intros; try done; lia. Qed.

(** What the passes come to. *)
Definition passes_end (routes : list chttp_server_route_record) (method : Z) (passes : list (bool * bool))
    (params : list (list Z * list Z)) (res : route_pass) : Prop :=
  match res with
  | PassFound i => exists pass r, routes !! i = Some r /\ pass ∈ passes /\
      eligible routes method path pass i /\ route_bindings r path = Some params /\
      forall pass' j, pass' ∈ passes -> eligible routes method path pass' j -> preferred pass i pass' j
  | PassError status => status = SALTS_ENOBUFS /\ exists pass i r, routes !! i = Some r /\ serves r method pass /\
      overflows capacity path r /\
      forall pass' j, pass' ∈ passes -> eligible routes method path pass' j -> preferred pass i pass' j
  | PassNone => forall pass j, pass ∈ passes -> ~ eligible routes method path pass j
  end.

Lemma preferred_here routes method pass passes i :
  Forall (fun b => pass_rank pass < pass_rank b) passes ->
  (forall j', (j' < i)%nat -> ~ eligible routes method path pass j') ->
  forall pass' j, pass' ∈ pass :: passes -> eligible routes method path pass' j -> preferred pass i pass' j.
Proof.
  intros Hall Hmin pass' j Hin He. apply elem_of_cons in Hin as [->|Hin].
  - right. split; [done|]. destruct (Nat.le_gt_cases i j) as [|Hlt]; [done|]. by destruct (Hmin j).
  - left. by apply (proj1 (List.Forall_forall _ _) Hall), list_elem_of_In.
Qed.

Lemma find_passes_spec method routes passes : forall state,
  Forall (route_wf config) routes -> rs_param_storage_capacity state = capacity ->
  StronglySorted (fun a b => pass_rank a < pass_rank b) passes ->
  exists state' res, route_find_passes config state method path passes routes = Some (state', res) /\
    rs_param_storage_capacity state' = capacity /\ passes_end routes method passes (rs_params state') res.
Proof.
  induction passes as [|[fb dy] passes IH]; intros state Hs Hcap Hsort; cbn [route_find_passes].
  { eexists _, _. split_and!; [done|done|]. intros pass j Hin. by apply elem_of_nil in Hin. }
  apply StronglySorted_inv in Hsort as [Hsort Hall].
  destruct (find_pass_spec method fb dy routes state 0 Hs Hcap) as (st & res & -> & Hc & H).
  destruct res as [i|status|].
  - destruct H as (j & r & -> & Hr & He & Hb & Hmin). eexists _, _. split_and!; [done|done|].
    exists (fb, dy), r. split_and!; [done|by left|done|done|by apply preferred_here].
  - destruct H as (-> & j & r & Hr & Hv & Ho & Hmin). eexists _, _. split_and!; [done|done|]. split; [done|].
    exists (fb, dy), j, r. split_and!; [done|done|done|by apply preferred_here].
  - destruct (IH st Hs Hc Hsort) as (st' & res & -> & Hc' & H').
    eexists _, _. split_and!; [done|done|]. destruct res as [i|status|].
    + destruct H' as (pass & r & Hr & Hin & He & Hb & Hmin). exists pass, r.
      split_and!; [done|by right|done|done|]. intros pass' j Hin' He'.
      apply elem_of_cons in Hin' as [->|Hin']; [by destruct (H j)|by apply Hmin].
    + destruct H' as (-> & pass & i & r & Hr & Hv & Ho & Hmin). split; [done|]. exists pass, i, r.
      split_and!; try done. intros pass' j Hin' He'.
      apply elem_of_cons in Hin' as [->|Hin']; [by destruct (H j)|by apply Hmin].
    + intros pass j Hin. apply elem_of_cons in Hin as [->|Hin]; [apply H|by apply H'].
Qed.

(** The methods to report for a path: those of the matching routes, and
    [HEAD] with [GET]. *)
Definition path_allows (routes : list chttp_server_route_record) (path : list Z) (method : Z) : Prop :=
  exists r, r ∈ routes /\ route_bindings r path <> None /\
    (rr_method r = method \/ rr_method r = CHTTP_METHOD_GET /\ method = CHTTP_METHOD_HEAD).

Lemma method_bit_spec m k : 0 <= m -> 0 <= k -> Z.testbit (method_bit m) k = (m =? k).
Proof.
  intros. unfold method_bit. rewrite Z.shiftl_1_l. destruct (Z.eqb_spec m k) as [->|].
  - by apply Z.pow2_bits_true.
  - by apply Z.pow2_bits_false.
Qed.

Lemma route_allowed_spec routes : forall state allowed,
  Forall (route_wf config) routes -> rs_param_storage_capacity state = capacity ->
  Forall (fun r => 0 <= rr_method r) routes ->
  exists state' allowed' status, route_allowed config state path routes allowed = Some (state', allowed', status) /\
    (status = SALTS_OK /\ (forall m, 0 <= m ->
      (Z.testbit allowed' m = true <-> Z.testbit allowed m = true \/ path_allows routes path m)) \/
     status = SALTS_ENOBUFS /\ exists r, r ∈ routes /\ overflows capacity path r).
Proof.
  induction routes as [|r routes IH]; intros state allowed Hs Hcap Hm; cbn [route_allowed].
  { eexists _, _, _. split; [done|]. left. split; [done|]. intros m _. split; [by left|]. intros [?|(r & Hin & _)]; [done|].
    by apply elem_of_nil in Hin. }
  apply Forall_cons in Hs as [Hr Hs]. apply Forall_cons in Hm as [Hm0 Hm].
  destruct (route_match_spec config state r path Hr Hcount) as (st & Hc & -> & _); [by rewrite Hcap|].
  rewrite Hcap in *. case_decide as Ho; [|destruct (route_bindings r path) as [bs|] eqn:Hb]; cbn [bool_decide negb].
  - eexists _, _, _. split; [done|]. right. split; [done|]. exists r. split; [by left|done].
  - set (allowed1 := if rr_method r =? CHTTP_METHOD_GET then _ else _).
    destruct (IH st allowed1 Hs Hc Hm) as (st' & al & status & -> & Hal). eexists _, _, _. split; [done|].
    destruct Hal as [[-> Hal]|(-> & r0 & Hin & Ho')]; [left|right; split; [done|]; exists r0; split; [by right|done]].
    split; [done|]. intros m Hm1. rewrite (Hal m Hm1).
    assert (Z.testbit allowed1 m = true <-> Z.testbit allowed m = true \/
      (rr_method r = m \/ rr_method r = CHTTP_METHOD_GET /\ m = CHTTP_METHOD_HEAD)) as ->.
    { subst allowed1. destruct (Z.eqb_spec (rr_method r) CHTTP_METHOD_GET) as [Hg|Hg];
        rewrite ?Z.lor_spec, ?method_bit_spec, ?orb_true_iff, ?Z.eqb_eq by (done || lia).
      - rewrite Hg. split; [intros [[?|?]|?]; auto|intros [?|[?|[_ ->]]]; auto].
      - split; [intros [?|?]; auto|intros [?|[?|[? _]]]; auto; done]. }
    unfold path_allows. split.
    + intros [[?|Hx]|(r0 & Hin & Hx)]; [by left|right; exists r|right; exists r0].
      * split_and!; [by left|by rewrite Hb|done].
      * split; [by right|done].
    + intros [?|(r0 & Hin & Hx & Hy)]; [by left; left|]. apply elem_of_cons in Hin as [->|Hin].
      * by left; right.
      * right. eauto.
  - destruct (IH st allowed Hs Hc Hm) as (st' & al & status & -> & Hal). eexists _, _, _. split; [done|].
    destruct Hal as [[-> Hal]|(-> & r0 & Hin & Ho')]; [left|right; split; [done|]; exists r0; split; [by right|done]].
    split; [done|]. intros m Hm1. rewrite (Hal m Hm1). unfold path_allows. split.
    + intros [?|(r0 & Hin & Hx)]; [by left|right; exists r0; split; [by right|done]].
    + intros [?|(r0 & Hin & Hx & Hy)]; [by left|]. right.
      apply elem_of_cons in Hin as [->|Hin]; [done|eauto].
Qed.

End Choice.

Definition request_passes (method : Z) : list (bool * bool) :=
  [(false, false); (false, true)] ++
  (if method =? CHTTP_METHOD_HEAD then [(true, false); (true, true)] else []).

Lemma request_passes_sorted method :
  StronglySorted (fun a b => pass_rank a < pass_rank b) (request_passes method).
Proof.
  unfold request_passes. destruct (method =? CHTTP_METHOD_HEAD); cbn;
    repeat constructor.
Qed.

Lemma eligible_request_pass routes method path pass i :
  eligible routes method path pass i -> pass ∈ request_passes method.
Proof.
  intros (r & _ & [_ Hm] & _). destruct pass as [[] dy]; cbn in Hm.
  - unfold request_passes. bool_prop. rewrite (proj2 (Z.eqb_eq _ _)) by done. destruct dy; repeat constructor.
  - unfold request_passes. destruct dy; repeat constructor.
Qed.

(** What the choice of a route promises. *)
Definition route_chosen (routes : list chttp_server_route_record) (method : Z) (path : list Z)
    (params : list (list Z * list Z)) (found : option nat) (allowed : Z) : Prop :=
  match found with
  | Some i => exists pass r, routes !! i = Some r /\ eligible routes method path pass i /\
      route_bindings r path = Some params /\ allowed = 0 /\
      forall pass' j, eligible routes method path pass' j -> preferred pass i pass' j
  | None => (forall pass j, ~ eligible routes method path pass j) /\ params = [] /\
      forall m, 0 <= m -> (Z.testbit allowed m = true <-> path_allows routes path m)
  end.

(** The search may end for want of storage only at a route that overflows and
    that is tried before every route that matches. *)
Definition storage_exhausted (capacity : Z) (routes : list chttp_server_route_record) (method : Z) (path : list Z) : Prop :=
  exists i r, routes !! i = Some r /\ overflows capacity path r /\
    forall pass' j, eligible routes method path pass' j ->
      exists pass, serves r method pass /\ preferred pass i pass' j.

(** C13: On a server whose routes were registered, the search for a request, with
    room for parameters of any size, returns the most preferred matching route
    (exact method before GET for HEAD, static before dynamic, first registered
    first) with the parameters its pattern binds in the path, or no route together
    with exactly the set of methods that some matching route allows; or it reports
    that the storage is exhausted, without a route, which happens only when the
    parameters of a dynamic route that is tried before every matching one overflow
    the storage. *)
Theorem route_find_correct s state method path :
  server_wf s -> 0 <= rs_param_storage_capacity state <= SIZE_MAX ->
  exists state' found allowed status,
    chttp_server_route_find (sv_config s) (sv_routes s) state method path = Some (state', found, allowed, status) /\
    (status = SALTS_OK /\ route_chosen (sv_routes s) method path (rs_params state') found allowed \/
     status = SALTS_ENOBUFS /\ found = None /\
       storage_exhausted (rs_param_storage_capacity state) (sv_routes s) method path).
Proof.
  intros [L R _ _] Hcap. unfold chttp_server_route_find. fold (request_passes method).
  assert (Forall (fun r => 0 <= rr_method r) (sv_routes s)) as Hm.
  { eapply Forall_impl; [exact R|]. intros r [[Hm _] _]. unfold CHTTP_METHOD_GET in Hm. lia. }
  destruct (find_passes_spec (sv_config s) (rs_param_storage_capacity state) path L Hcap method (sv_routes s)
    (request_passes method) state R eq_refl (request_passes_sorted method)) as (st & res & -> & Hc & H).
  destruct res as [i|status|].
  - destruct H as (pass & r & Hr & _ & He & Hb & Hmin). eexists _, _, _, _. split; [done|]. left. split; [done|].
    exists pass, r. split_and!; try done. intros pass' j He'. apply Hmin; [|done]. by eapply eligible_request_pass.
  - destruct H as (-> & pass & i & r & Hr & Hv & Ho & Hmin). eexists _, _, _, _. split; [done|]. right. split_and!; try done.
    exists i, r. split_and!; try done. intros pass' j He'. exists pass. split; [done|]. apply Hmin; [|done]. by eapply eligible_request_pass.
  - assert (forall pass j, ~ eligible (sv_routes s) method path pass j) as Hno
      by (intros pass j He; apply (H pass j); [by eapply eligible_request_pass|done]).
    destruct (route_allowed_spec (sv_config s) (rs_param_storage_capacity state) path L Hcap (sv_routes s) (params_reset st) 0)
      as (st' & al & status & -> & Hal); [done|done|done|]. destruct Hal as [[-> Hal]|(-> & r & Hin & Ho)].
    + eexists _, _, _, _. split; [done|]. left. split; [done|]. split; [exact Hno|]. split; [done|].
      intros m H0. rewrite (Hal m H0), Z.bits_0. split; [by intros [?|?]|by right].
    + eexists _, _, _, _. split; [done|]. right. split_and!; try done.
      apply list_elem_of_lookup_1 in Hin as [i Hi]. exists i, r. split_and!; try done. intros pass' j He. by destruct (Hno pass' j).
Qed.

(** Looking up a parameter gives its first binding. *)
Lemma request_param_spec params name value :
  chttp_server_request_param params name = Some value <->
  exists before after, params = before ++ (name, value) :: after /\
    forall v, (name, v) ∉ before.
Proof.
  induction params as [|[n v] params IH]; cbn [chttp_server_request_param].
  { split; [done|]. by intros ([|] & after & ? & _). }
  destruct (bytes_eqb n name) eqn:E.
  - apply bytes_eqb_eq in E as ->. split.
    + intros [= ->]. exists [], params. split; [done|]. intros v Hin. by apply elem_of_nil in Hin.
    + intros ([|[n' v'] before] & after & Heq & Hn); [by injection Heq as [= ->]|].
      injection Heq as <- <- _. destruct (Hn v). by left.
  - rewrite IH. assert (n <> name) as Hne by (intros ->; by rewrite bytes_eqb_refl in E). split.
    + intros (before & after & -> & Hn). exists ((n, v) :: before), after. split; [done|].
      intros v' Hin. apply elem_of_cons in Hin as [[= ? _]|Hin]; [done|by apply (Hn v')].
    + intros ([|[n' v'] before] & after & Heq & Hn); [by injection Heq as ? ?|].
      injection Heq as <- <- ->. exists before, after. split; [done|]. intros v' Hin.
      apply (Hn v'). by right.
Qed.

(** ** Examples *)

Definition example_config : route_config :=
  {| sc_max_target_bytes := 64; sc_route_capacity := 8; sc_max_route_param_count := 4;
     sc_max_route_param_bytes := 64; sc_max_route_middleware_count := 2;
     sc_max_send_bytes := 65536 |}.

Definition empty_server : chttp_server_impl :=
  {| sv_config := example_config; sv_routes := []; sv_start_called := false |}.

(** The server with the routes that could be registered. *)
Definition with_routes (s : chttp_server_impl) (routes : list (Z * String.string)) : chttp_server_impl :=
  fold_left (fun s '(method, path) =>
    match chttp_server_route s method (Some (bytes_of path)) (Some (UserHandler 1)) 0 with
    | Some (Ok s') => s'
    | _ => s
    end) routes s.

Lemma with_routes_wf routes : forall s, server_wf s -> server_wf (with_routes s routes).
Proof.
  unfold with_routes.
  induction routes as [|[method path] routes IH]; intros s W; [done|]. cbn [fold_left]. apply IH.
  unfold chttp_server_route. match goal with |- context [chttp_server_route_register s ?o] =>
    destruct (route_register_spec s o W) as (r & -> & Hr) end.
  destruct r as [s'|]; [|done]. by apply (Hr s').
Qed.

Lemma empty_server_wf : server_wf empty_server.
Proof. split; cbn; [done|apply Forall_nil_2|by left|apply NoDup_nil_2]. Qed.

Definition example_server : chttp_server_impl :=
  with_routes empty_server
    [(CHTTP_METHOD_GET, "/users/:id"%string); (CHTTP_METHOD_GET, "/users/me"%string);
     (CHTTP_METHOD_POST, "/users/:name"%string)].

Lemma example_server_wf : server_wf example_server.
Proof. apply with_routes_wf, empty_server_wf. Qed.

Definition example_state : chttp_server_request_state :=
  {| rs_params := []; rs_param_storage_used := 0; rs_param_storage_capacity := 64 |}.

#[local] Instance example_limits : WebsocketLimits :=
  {| CNET_WEBSOCKET_MAX_HEADER_BYTES := 14; CNET_WEBSOCKET_MIN_FRAME_BYTES := 125 |}.

Lemma route_validate_correct_witness :
  exists r, chttp_server_route_validate empty_server CHTTP_METHOD_GET
              (Some (bytes_of "/a/:b")) = Some r /\
    forall n, r = Ok n <->
      exists p, Some (bytes_of "/a/:b") = Some p /\ valid_pattern example_config CHTTP_METHOD_GET p /\
        n = zlen (names (segs p)).
Proof. apply (route_validate_correct empty_server). done. Defined.

Definition example_options : chttp_server_route_options :=
  {| ro_method := CHTTP_METHOD_GET; ro_path := Some (bytes_of "/health"); ro_middleware := None;
     ro_middleware_count := 0; ro_handler := Some (UserHandler 1); ro_user := 0;
     ro_body_open := None; ro_body_close := None |}.

Lemma route_register_invariant_witness :
  exists r, chttp_server_route_register example_server example_options = Some r /\
    forall s', r = Ok s' -> server_wf s'.
Proof.
  destruct (route_register_invariant example_server example_options example_server_wf) as (r & E & H).
  exists r. split; [exact E|]. intros s' Hs. exact (proj1 (H s' Hs)).
Defined.

Definition example_websocket : chttp_server_websocket_options :=
  {| wo_size := sizeof_websocket_options; wo_path := Some (bytes_of "/ws"); wo_on_open := Some 1;
     wo_on_event := Some 2; wo_middleware := None; wo_middleware_count := 0;
     wo_max_frame_bytes := 0; wo_max_message_bytes := 0; wo_max_buffered_input_bytes := 0;
     wo_user := 0 |}.

Lemma websocket_register_invariant_witness :
  exists s', chttp_server_websocket_route_register empty_server example_websocket = Some (Ok s') /\
    server_wf s'.
Proof.
  destruct (chttp_server_websocket_route_register empty_server example_websocket) as [[s'|]|] eqn:E;
    [|vm_compute in E; discriminate|vm_compute in E; discriminate].
  exists s'. split; [reflexivity|].
  exact (proj1 (websocket_register_invariant (ws := example_limits) empty_server
    example_websocket s' ltac:(cbn; lia)
    empty_server_wf E)).
Defined.

(** [HEAD /users/me] goes to the static [GET] route; a request whose storage
    is too small for the parameter of the dynamic one is refused. *)
Lemma route_find_correct_witness :
  (exists state' allowed,
    chttp_server_route_find example_config (sv_routes example_server) example_state
      CHTTP_METHOD_HEAD (bytes_of "/users/me") = Some (state', Some 1%nat, allowed, SALTS_OK) /\
    route_chosen (sv_routes example_server) CHTTP_METHOD_HEAD (bytes_of "/users/me")
      (rs_params state') (Some 1%nat) allowed) /\
  storage_exhausted 4 (sv_routes example_server) CHTTP_METHOD_GET (bytes_of "/users/you").
Proof.
  split.
  - destruct (route_find_correct example_server example_state CHTTP_METHOD_HEAD (bytes_of "/users/me")
      example_server_wf ltac:(done)) as (state' & found & allowed & status & E & H).
    exists state', allowed.
    assert ((fun r => (r.1.1.2, r.2)) <$> chttp_server_route_find (sv_config example_server) (sv_routes example_server) example_state
      CHTTP_METHOD_HEAD (bytes_of "/users/me") = Some (Some 1%nat, SALTS_OK)) as E' by (vm_compute; reflexivity).
    rewrite E in E'. injection E' as -> ->. split; [exact E|]. destruct H as [[_ H]|[H _]]; [exact H|discriminate H].
  - destruct (route_find_correct example_server {| rs_params := []; rs_param_storage_used := 0; rs_param_storage_capacity := 4 |}
      CHTTP_METHOD_GET (bytes_of "/users/you") example_server_wf ltac:(done)) as (state' & found & allowed & status & E & H).
    assert ((fun r => r.2) <$> chttp_server_route_find (sv_config example_server) (sv_routes example_server)
      {| rs_params := []; rs_param_storage_used := 0; rs_param_storage_capacity := 4 |}
      CHTTP_METHOD_GET (bytes_of "/users/you") = Some SALTS_ENOBUFS) as E' by (vm_compute; reflexivity).
    rewrite E in E'. injection E' as ->. destruct H as [[H _]|(_ & _ & H)]; [discriminate H|exact H].
Defined.

End RouterTheorems.
