(* ===== verification/Http1Parser.v ===== *)
(** * HTTP/1 request parser

    Model of [http_server/src/chttp_server_parser.c]: the limits the server
    puts on the bytes of a request before they reach the tokenizer, the
    callbacks that collect the request the tokenizer reports, the checks on its
    headers, and the loop that drives both.

    The tokenizer (llhttp), the URI parser and the string search of the vstr
    library are not part of the repository.  They are parameters: [ll_execute]
    runs the callbacks of this file on the state of the parser in an order of
    its choice; what it hands to a callback is the argument of an event.

    A C string is the list of its bytes without the terminator.  A header is a
    pair of pointers, into the header storage or to a string of its own. *)

From S2P Require Import Prelude HpackBuffer Router.

Module Http1Parser.
Import HpackBuffer Router.

Definition CHTTP_SERVER_REQUEST_LINE_OVERHEAD_BYTES : Z := 32.

Definition CR : Z := 13.
Definition LF : Z := 10.
Definition TAB : Z := 9.
Definition SPACE : Z := 32.

Inductive chttp_server_wire_phase :=
  | CHTTP_SERVER_WIRE_PREAMBLE
  | CHTTP_SERVER_WIRE_START_LINE
  | CHTTP_SERVER_WIRE_HEADERS
  | CHTTP_SERVER_WIRE_HEADERS_PENDING
  | CHTTP_SERVER_WIRE_FIXED_BODY
  | CHTTP_SERVER_WIRE_CHUNK_LINE
  | CHTTP_SERVER_WIRE_CHUNK_LINE_PENDING
  | CHTTP_SERVER_WIRE_CHUNK_BODY
  | CHTTP_SERVER_WIRE_CHUNK_BODY_END
  | CHTTP_SERVER_WIRE_TRAILERS
  | CHTTP_SERVER_WIRE_TRAILERS_PENDING.

#[export] Instance wire_phase_eq_dec : EqDecision chttp_server_wire_phase.
Proof. solve_decision. Defined.

(** ** The wire: what was read of the current message *)

Record wire_limits := {
  max_start_line_wire_bytes : Z;
  max_header_bytes : Z;
}.

Record wire := {
  start_line_wire_bytes : Z;
  header_wire_bytes : Z;
  wire_line_bytes : Z;
  chunk_body_remaining : Z;
  chunk_body_end_bytes : Z;
  wire_previous_was_cr : bool;
  wire_phase : chttp_server_wire_phase;
}.

#[export] Instance eta_wire : Eta wire :=
  fun w => Build_wire (start_line_wire_bytes w) (header_wire_bytes w) (wire_line_bytes w)
    (chunk_body_remaining w) (chunk_body_end_bytes w) (wire_previous_was_cr w) (wire_phase w).
#[export] Instance set_start_line_wire_bytes : Setter start_line_wire_bytes. Proof. mk_setter. Defined.
#[export] Instance set_header_wire_bytes : Setter header_wire_bytes. Proof. mk_setter. Defined.
#[export] Instance set_wire_line_bytes : Setter wire_line_bytes. Proof. mk_setter. Defined.
#[export] Instance set_chunk_body_remaining : Setter chunk_body_remaining. Proof. mk_setter. Defined.
#[export] Instance set_chunk_body_end_bytes : Setter chunk_body_end_bytes. Proof. mk_setter. Defined.
#[export] Instance set_wire_previous_was_cr : Setter wire_previous_was_cr. Proof. mk_setter. Defined.
#[export] Instance set_wire_phase : Setter wire_phase. Proof. mk_setter. Defined.

(** [chttp_server_parser_reset_wire] *)
Definition wire_start : wire :=
  {| start_line_wire_bytes := 0; header_wire_bytes := 0; wire_line_bytes := 0;
     chunk_body_remaining := 0; chunk_body_end_bytes := 0; wire_previous_was_cr := false;
     wire_phase := CHTTP_SERVER_WIRE_PREAMBLE |}.

(** The result of a scan: [*out_size], or the HTTP status to fail with. *)
Inductive scan_result :=
  | ScanOk (size : Z)
  | ScanFail (http_status : Z).

(** The string search of the vstr library: the first position of a byte. *)
Class VstrSearch := vstr_find_char : list Z -> Z -> option Z.

Section Scan.
Context {vstr : VstrSearch} (limits : wire_limits).

(** The branch of [scan_head] for the bytes before and in the start line. *)
Definition scan_start_byte (w : wire) (byte : Z) : wire + Z :=
  if max_start_line_wire_bytes limits <=? start_line_wire_bytes w then inr 400
  else
    let w := w <| start_line_wire_bytes := start_line_wire_bytes w + 1 |> in
    inl
      (if bool_decide (wire_phase w = CHTTP_SERVER_WIRE_PREAMBLE) then
         if negb (byte =? CR) && negb (byte =? LF) then
           w <| wire_phase := CHTTP_SERVER_WIRE_START_LINE |> <| wire_line_bytes := 1 |>
             <| wire_previous_was_cr := byte =? CR |>
         else w
       else
         let w := w <| wire_line_bytes := wire_line_bytes w + 1 |> in
         if wire_previous_was_cr w && (byte =? LF) then
           w <| wire_phase := CHTTP_SERVER_WIRE_HEADERS |> <| wire_line_bytes := 0 |>
             <| wire_previous_was_cr := false |>
         else w <| wire_previous_was_cr := byte =? CR |>).

(** One byte of the header lines, [true] when it ends the last of them. *)
Definition scan_line_byte (w : wire) (byte : Z) (pending : chttp_server_wire_phase) : wire * bool :=
  let w := w <| header_wire_bytes := header_wire_bytes w + 1 |>
             <| wire_line_bytes := wire_line_bytes w + 1 |> in
  if wire_previous_was_cr w && (byte =? LF) then
    if wire_line_bytes w =? 2 then (w <| wire_phase := pending |>, true)
    else (w <| wire_line_bytes := 0 |> <| wire_previous_was_cr := false |>, false)
  else (w <| wire_previous_was_cr := byte =? CR |>, false).

Definition in_start_line (w : wire) : bool :=
  bool_decide (wire_phase w = CHTTP_SERVER_WIRE_PREAMBLE) ||
  bool_decide (wire_phase w = CHTTP_SERVER_WIRE_START_LINE).

(** The loop of [chttp_server_parser_scan_head] with the rest of the data;
    [index] bytes are behind.  A round takes at least a byte, so the length of
    the data is enough fuel. *)
Fixpoint scan_head_loop (fuel : nat) (w : wire) (data : list Z) (index : Z) :
    option (wire * scan_result) :=
  match data with
  | [] => Some (w, ScanOk index)
  | byte :: rest =>
    match fuel with
    | O => None
    | S fuel =>
      if in_start_line w then
        match scan_start_byte w byte with
        | inl w => scan_head_loop fuel w rest (index + 1)
        | inr status => Some (w, ScanFail status)
        end
      else if max_header_bytes limits <=? header_wire_bytes w then Some (w, ScanFail 431)
      else if (1 <? zlen data) && negb (byte =? CR) && negb (byte =? LF) then
        let budget := max_header_bytes limits - header_wire_bytes w in
        let remaining := zlen data in
        let scan_size := if remaining <? budget then remaining else budget in
        let consumed :=
          match vstr_find_char (ztake scan_size data) CR with
          | None => scan_size
          | Some cr => cr
          end in
        let w := w <| header_wire_bytes := header_wire_bytes w + consumed |>
                   <| wire_line_bytes := wire_line_bytes w + consumed |>
                   <| wire_previous_was_cr := false |> in
        scan_head_loop fuel w (zdrop consumed data) (index + consumed)
      else
        match scan_line_byte w byte CHTTP_SERVER_WIRE_HEADERS_PENDING with
        | (w, true) => Some (w, ScanOk (index + 1))
        | (w, false) => scan_head_loop fuel w rest (index + 1)
        end
    end
  end.

Definition chttp_server_parser_scan_head (w : wire) (data : list Z) : option (wire * scan_result) :=
  scan_head_loop (length data) w data 0.

(** The loop of [chttp_server_parser_scan_line]. *)
Fixpoint scan_line_loop (pending_phase : chttp_server_wire_phase) (failure_status : Z) (w : wire)
    (data : list Z) (index : Z) : wire * scan_result :=
  match data with
  | [] => (w, ScanOk index)
  | byte :: rest =>
    if max_header_bytes limits <=? wire_line_bytes w then (w, ScanFail failure_status)
    else
      let w := w <| wire_line_bytes := wire_line_bytes w + 1 |> in
      if wire_previous_was_cr w && (byte =? LF) then
        (w <| wire_phase := pending_phase |> <| wire_previous_was_cr := false |>,
         ScanOk (index + 1))
      else
        scan_line_loop pending_phase failure_status (w <| wire_previous_was_cr := byte =? CR |>)
          rest (index + 1)
  end.

Definition chttp_server_parser_scan_line (w : wire) (data : list Z)
    (pending_phase : chttp_server_wire_phase) (failure_status : Z) : wire * scan_result :=
  scan_line_loop pending_phase failure_status w data 0.

(** The loop of [chttp_server_parser_scan_trailers]. *)
Fixpoint scan_trailers_loop (w : wire) (data : list Z) (index : Z) : wire * scan_result :=
  match data with
  | [] => (w, ScanOk index)
  | byte :: rest =>
    if max_header_bytes limits <=? header_wire_bytes w then (w, ScanFail 431)
    else
      match scan_line_byte w byte CHTTP_SERVER_WIRE_TRAILERS_PENDING with
      | (w, true) => (w, ScanOk (index + 1))
      | (w, false) => scan_trailers_loop w rest (index + 1)
      end
  end.

Definition chttp_server_parser_scan_trailers (w : wire) (data : list Z) : wire * scan_result :=
  scan_trailers_loop w data 0.

End Scan.

(** ** The request *)

(** A [const char *] of a header: into the header storage, or to a string that
    lives elsewhere. *)
Inductive text_ptr :=
  | InStorage (offset : Z)
  | Elsewhere (s : list Z).

Record chttp_server_request_view := {
  rv_method : Z;
  rv_http_major : Z;
  rv_http_minor : Z;
  rv_target : list Z;
  rv_path : list Z;
  rv_headers : list (text_ptr * text_ptr);
  rv_body : list Z;
  rv_body_size : Z;
  rv_body_streamed : bool;
  rv_protocol_keep_alive : bool;
}.

#[export] Instance eta_request_view : Eta chttp_server_request_view :=
  fun r => Build_chttp_server_request_view (rv_method r) (rv_http_major r) (rv_http_minor r)
    (rv_target r) (rv_path r) (rv_headers r) (rv_body r) (rv_body_size r) (rv_body_streamed r)
    (rv_protocol_keep_alive r).
#[export] Instance set_rv_method : Setter rv_method. Proof. mk_setter. Defined.
#[export] Instance set_rv_http_major : Setter rv_http_major. Proof. mk_setter. Defined.
#[export] Instance set_rv_http_minor : Setter rv_http_minor. Proof. mk_setter. Defined.
#[export] Instance set_rv_target : Setter rv_target. Proof. mk_setter. Defined.
#[export] Instance set_rv_path : Setter rv_path. Proof. mk_setter. Defined.
#[export] Instance set_rv_headers : Setter rv_headers. Proof. mk_setter. Defined.
#[export] Instance set_rv_body : Setter rv_body. Proof. mk_setter. Defined.
#[export] Instance set_rv_body_size : Setter rv_body_size. Proof. mk_setter. Defined.
#[export] Instance set_rv_body_streamed : Setter rv_body_streamed. Proof. mk_setter. Defined.
#[export] Instance set_rv_protocol_keep_alive : Setter rv_protocol_keep_alive. Proof. mk_setter. Defined.

Definition request_zero : chttp_server_request_view :=
  {| rv_method := 0; rv_http_major := 0; rv_http_minor := 0; rv_target := []; rv_path := [];
     rv_headers := []; rv_body := []; rv_body_size := 0; rv_body_streamed := false;
     rv_protocol_keep_alive := false |}.

(** A C string in memory: the bytes up to the first zero. *)
Fixpoint up_to_nul (s : list Z) : list Z :=
  match s with
  | [] => []
  | c :: s => if c =? 0 then [] else c :: up_to_nul s
  end.

Definition text_at (storage : list Z) (p : text_ptr) : list Z :=
  match p with
  | InStorage offset => up_to_nul (zdrop offset storage)
  | Elsewhere s => s
  end.

(** ** Strings *)

Definition ascii_lower (c : Z) : Z := if (65 <=? c) && (c <=? 90) then c + 32 else c.

(** Both compare two C strings without regard to case. *)
Definition chttp_server_ascii_equal (left right : list Z) : bool :=
  bytes_eqb (map ascii_lower left) (map ascii_lower right).

Definition chttp_server_ascii_equal_size (value expected : list Z) : bool :=
  bytes_eqb (map ascii_lower value) (map ascii_lower expected).

Definition is_ows (c : Z) : bool := (c =? SPACE) || (c =? TAB).

Fixpoint drop_ows (s : list Z) : list Z :=
  match s with
  | [] => []
  | c :: rest => if is_ows c then drop_ows rest else s
  end.

(** The text between the leading and the trailing blanks. *)
Definition chttp_server_trim_ows (value : list Z) : list Z :=
  reverse (drop_ows (reverse (drop_ows value))).

(** ** The tokenizer *)

Inductive llhttp_method :=
  | HTTP_GET | HTTP_HEAD | HTTP_POST | HTTP_PUT | HTTP_DELETE | HTTP_PATCH | HTTP_OPTIONS
  | HTTP_OTHER_METHOD.

(** What the callback for the end of the headers reads of the tokenizer. *)
Record ll_head := {
  lh_method : llhttp_method;
  lh_http_major : Z;
  lh_http_minor : Z;
  lh_chunked : bool;
  lh_content_length : option Z;
  lh_upgrade : bool;
}.

(** The callbacks that the tokenizer runs. *)
Inductive ll_event :=
  | EvMessageBegin
  | EvUrl (at_ : list Z)
  | EvUrlComplete
  | EvHeaderField (at_ : list Z)
  | EvHeaderFieldComplete
  | EvHeaderValue (at_ : list Z)
  | EvHeaderValueComplete
  | EvHeadersComplete (head : ll_head)
  | EvBody (at_ : list Z)
  | EvMessageComplete (should_keep_alive : bool)
  | EvChunkHeader (content_length : Z).

(** What a callback returns; [CbOkNoUpgrade] is 0 after the callback cleared
    the upgrade flag of the tokenizer, [CbUpgrade] is 2. *)
Inductive cb_result := CbOk | CbOkNoUpgrade | CbUpgrade | CbUser | CbPaused.

Definition cb_continues (r : cb_result) : bool :=
  match r with CbOk | CbOkNoUpgrade | CbUpgrade => true | CbUser | CbPaused => false end.

Inductive ll_errno := HPE_OK | HPE_PAUSED_UPGRADE | HPE_PAUSED | HPE_INVALID_VERSION | HPE_OTHER.

(** llhttp with the state of its own. *)
Class Llhttp := {
  ll_state : Type;
  ll_init : ll_state;
  ll_reset : ll_state -> ll_state;
  ll_execute : forall {S : Type}, (S -> ll_event -> S * cb_result) ->
    ll_state -> S -> list Z -> ll_state * S * ll_errno;
}.

(** What [uri_parse] reports. *)
Record uri_t := {
  uri_parsed : bool;
  uri_overflow : bool;
  uri_host : list Z;
  uri_userinfo : bool;
  uri_scheme : list Z;
}.

Class UriParser := uri_parse : list Z -> uri_t.

(** ** The application *)

Inductive headers_action := HeadersContinue | HeadersStop | HeadersUnknown.
Inductive upgrade_action := UpgradeIgnore | UpgradeStop | UpgradeUnknown.
Inductive request_result := RequestDeferred | RequestStatus (status : salts_status).

(** The callbacks of the configuration, [None] for [NULL].  A body sink is a
    number, [None] when [sink.write] is [NULL]; [buffer_grow] gives the new
    capacity. *)
Record parser_callbacks (U : Type) := {
  on_request : U -> chttp_server_request_view -> list Z -> U * request_result;
  on_message_begin : option (U -> U);
  on_headers : option (U -> chttp_server_request_view -> list Z -> U * salts_status * headers_action);
  on_continue : option (U -> U * salts_status);
  on_body_open : option (U -> chttp_server_request_view -> list Z -> U * salts_status * option Z);
  on_body_close : option (U -> Z -> salts_status -> U);
  on_upgrade :
    option (U -> chttp_server_request_view -> list Z -> U * salts_status * upgrade_action * Z);
  buffer_grow : option (U -> Z -> Z -> Z -> Z -> U * salts_status * Z);
  buffer_release : option (U -> Z -> U);
  sink_write : U -> Z -> list Z -> U * salts_status;
}.

Record parser_limits := {
  max_target_bytes : Z;
  max_header_count : Z;
  pl_max_header_bytes : Z;
  max_body_bytes : Z;
}.

(** ** The parser *)

(** [ps_target_storage] holds [target_size] bytes, [ps_header_storage]
    [header_storage_used] bytes, [ps_body_storage] the bytes written to the
    body buffer. *)
Record chttp_server_parser_impl (U : Type) := {
  ps_request : chttp_server_request_view;
  ps_limits : parser_limits;
  ps_target_storage : list Z;
  ps_header_storage : list Z;
  ps_header_storage_capacity : Z;
  ps_body_storage_capacity : option Z;
  ps_field_offset : Z;
  ps_value_offset : Z;
  ps_wire : wire;
  ps_failure_http_status : Z;
  ps_callback_status : salts_status;
  ps_body_sink : option Z;
  ps_user : U;
  ps_field_open : bool;
  ps_value_open : bool;
  ps_target_terminated : bool;
  ps_terminal : bool;
  ps_paused : bool;
  ps_upgrade_stopped : bool;
  ps_headers_stopped : bool;
}.

#[global] Arguments ps_request {U} _.
#[global] Arguments ps_limits {U} _.
#[global] Arguments ps_target_storage {U} _.
#[global] Arguments ps_header_storage {U} _.
#[global] Arguments ps_header_storage_capacity {U} _.
#[global] Arguments ps_body_storage_capacity {U} _.
#[global] Arguments ps_field_offset {U} _.
#[global] Arguments ps_value_offset {U} _.
#[global] Arguments ps_wire {U} _.
#[global] Arguments ps_failure_http_status {U} _.
#[global] Arguments ps_callback_status {U} _.
#[global] Arguments ps_body_sink {U} _.
#[global] Arguments ps_user {U} _.
#[global] Arguments ps_field_open {U} _.
#[global] Arguments ps_value_open {U} _.
#[global] Arguments ps_target_terminated {U} _.
#[global] Arguments ps_terminal {U} _.
#[global] Arguments ps_paused {U} _.
#[global] Arguments ps_upgrade_stopped {U} _.
#[global] Arguments ps_headers_stopped {U} _.

#[export] Instance eta_parser_impl {U} : Eta (chttp_server_parser_impl U) :=
  fun p => Build_chttp_server_parser_impl U (ps_request p) (ps_limits p) (ps_target_storage p)
    (ps_header_storage p) (ps_header_storage_capacity p) (ps_body_storage_capacity p)
    (ps_field_offset p) (ps_value_offset p) (ps_wire p) (ps_failure_http_status p)
    (ps_callback_status p) (ps_body_sink p) (ps_user p) (ps_field_open p) (ps_value_open p)
    (ps_target_terminated p) (ps_terminal p) (ps_paused p) (ps_upgrade_stopped p)
    (ps_headers_stopped p).
#[export] Instance set_ps_request {U} : Setter (@ps_request U). Proof. mk_setter. Defined.
#[export] Instance set_ps_target_storage {U} : Setter (@ps_target_storage U). Proof. mk_setter. Defined.
#[export] Instance set_ps_header_storage {U} : Setter (@ps_header_storage U). Proof. mk_setter. Defined.
#[export] Instance set_ps_body_storage_capacity {U} : Setter (@ps_body_storage_capacity U). Proof. mk_setter. Defined.
#[export] Instance set_ps_field_offset {U} : Setter (@ps_field_offset U). Proof. mk_setter. Defined.
#[export] Instance set_ps_value_offset {U} : Setter (@ps_value_offset U). Proof. mk_setter. Defined.
#[export] Instance set_ps_wire {U} : Setter (@ps_wire U). Proof. mk_setter. Defined.
#[export] Instance set_ps_failure_http_status {U} : Setter (@ps_failure_http_status U). Proof. mk_setter. Defined.
#[export] Instance set_ps_callback_status {U} : Setter (@ps_callback_status U). Proof. mk_setter. Defined.
#[export] Instance set_ps_body_sink {U} : Setter (@ps_body_sink U). Proof. mk_setter. Defined.
#[export] Instance set_ps_user {U} : Setter (@ps_user U). Proof. mk_setter. Defined.
#[export] Instance set_ps_field_open {U} : Setter (@ps_field_open U). Proof. mk_setter. Defined.
#[export] Instance set_ps_value_open {U} : Setter (@ps_value_open U). Proof. mk_setter. Defined.
#[export] Instance set_ps_target_terminated {U} : Setter (@ps_target_terminated U). Proof. mk_setter. Defined.
#[export] Instance set_ps_terminal {U} : Setter (@ps_terminal U). Proof. mk_setter. Defined.
#[export] Instance set_ps_paused {U} : Setter (@ps_paused U). Proof. mk_setter. Defined.
#[export] Instance set_ps_upgrade_stopped {U} : Setter (@ps_upgrade_stopped U). Proof. mk_setter. Defined.
#[export] Instance set_ps_headers_stopped {U} : Setter (@ps_headers_stopped U). Proof. mk_setter. Defined.

Definition upd_request {U} (p : chttp_server_parser_impl U)
    (f : chttp_server_request_view -> chttp_server_request_view) : chttp_server_parser_impl U :=
  p <| ps_request := f (ps_request p) |>.

Section Parser.
Context {alloc : Allocator} {uri : UriParser} {U : Type} (cbs : parser_callbacks U).
Implicit Types p : chttp_server_parser_impl U.

(** The headers of the request as strings. *)
Definition request_headers p : list (list Z * list Z) :=
  map (fun h => (text_at (ps_header_storage p) h.1, text_at (ps_header_storage p) h.2))
    (rv_headers (ps_request p)).

Definition chttp_server_request_header (headers : list (list Z * list Z)) (name : list Z) :
    option (list Z) :=
  snd <$> (snd <$> list_find (fun h => chttp_server_ascii_equal h.1 name = true) headers).

Definition chttp_server_parser_fail p (http_status : Z) :
    chttp_server_parser_impl U * cb_result :=
  (p <| ps_failure_http_status := http_status |>, CbUser).

Definition chttp_server_parser_callback_fail p (status : salts_status) :
    chttp_server_parser_impl U * cb_result :=
  (p <| ps_callback_status := if bool_decide (status = SALTS_OK) then SALTS_EIO else status |>,
   CbUser).

Definition chttp_server_parser_close_body p (status : salts_status) : chttp_server_parser_impl U :=
  match ps_body_sink p with
  | None => p
  | Some sink =>
    let p := p <| ps_body_sink := None |> in
    match on_body_close U cbs with
    | Some f => p <| ps_user := f (ps_user p) sink status |>
    | None => p
    end
  end.

(** [None] when the storage is full. *)
Definition chttp_server_parser_storage_append p (data : list Z) :
    option (chttp_server_parser_impl U) :=
  if (ps_header_storage_capacity p <? zlen (ps_header_storage p)) ||
     (ps_header_storage_capacity p - zlen (ps_header_storage p) <? zlen data)
  then None
  else Some (p <| ps_header_storage := ps_header_storage p ++ data |>).

Definition chttp_server_parser_reset_message p : chttp_server_parser_impl U :=
  let p :=
    match ps_body_storage_capacity p with
    | Some capacity =>
      let p :=
        match buffer_release U cbs with
        | Some f => p <| ps_user := f (ps_user p) capacity |>
        | None => p
        end in
      p <| ps_body_storage_capacity := None |>
    | None => p
    end in
  p <| ps_request := request_zero |> <| ps_target_storage := [] |> <| ps_header_storage := [] |>
    <| ps_field_offset := 0 |> <| ps_value_offset := 0 |> <| ps_failure_http_status := 0 |>
    <| ps_callback_status := SALTS_OK |> <| ps_field_open := false |>
    <| ps_value_open := false |> <| ps_target_terminated := false |>.

Definition chttp_server_parser_reset_wire p : chttp_server_parser_impl U :=
  p <| ps_wire := wire_start |>.

Definition chttp_server_parser_on_message_begin p : chttp_server_parser_impl U * cb_result :=
  let p := chttp_server_parser_reset_message p in
  (match on_message_begin U cbs with
   | Some f => p <| ps_user := f (ps_user p) |>
   | None => p
   end, CbOk).

Definition chttp_server_parser_on_url p (at_ : list Z) : chttp_server_parser_impl U * cb_result :=
  let target_size := zlen (ps_target_storage p) in
  if ps_target_terminated p || (max_target_bytes (ps_limits p) <? target_size) ||
     (max_target_bytes (ps_limits p) - target_size <? zlen at_)
  then chttp_server_parser_fail p 414
  else (p <| ps_target_storage := ps_target_storage p ++ at_ |>, CbOk).

Definition chttp_server_parser_on_url_complete p : chttp_server_parser_impl U * cb_result :=
  let target_size := zlen (ps_target_storage p) in
  if (target_size =? 0) || (max_target_bytes (ps_limits p) <? target_size)
  then chttp_server_parser_fail p 400
  else (p <| ps_target_terminated := true |>, CbOk).

Definition chttp_server_parser_on_header_field p (at_ : list Z) :
    chttp_server_parser_impl U * cb_result :=
  if bool_decide (wire_phase (ps_wire p) = CHTTP_SERVER_WIRE_TRAILERS) ||
     bool_decide (wire_phase (ps_wire p) = CHTTP_SERVER_WIRE_TRAILERS_PENDING)
  then chttp_server_parser_fail p 400
  else if ps_value_open p then chttp_server_parser_fail p 400
  else
    let p :=
      if negb (ps_field_open p)
      then p <| ps_field_offset := zlen (ps_header_storage p) |> <| ps_field_open := true |>
      else p in
    match chttp_server_parser_storage_append p at_ with
    | None => chttp_server_parser_fail p 431
    | Some p => (p, CbOk)
    end.

Definition chttp_server_parser_on_header_field_complete p :
    chttp_server_parser_impl U * cb_result :=
  if negb (ps_field_open p) ||
     (max_header_count (ps_limits p) <=? zlen (rv_headers (ps_request p)))
  then chttp_server_parser_fail p 431
  else
    match chttp_server_parser_storage_append p [0] with
    | None => chttp_server_parser_fail p 431
    | Some p =>
      (p <| ps_field_open := false |> <| ps_value_offset := zlen (ps_header_storage p) |>
         <| ps_value_open := true |>, CbOk)
    end.

Definition chttp_server_parser_on_header_value p (at_ : list Z) :
    chttp_server_parser_impl U * cb_result :=
  if negb (ps_value_open p) then chttp_server_parser_fail p 400
  else
    match chttp_server_parser_storage_append p at_ with
    | None => chttp_server_parser_fail p 431
    | Some p => (p, CbOk)
    end.

Definition chttp_server_parser_on_header_value_complete p :
    chttp_server_parser_impl U * cb_result :=
  if negb (ps_value_open p) ||
     (max_header_count (ps_limits p) <=? zlen (rv_headers (ps_request p)))
  then chttp_server_parser_fail p 431
  else
    match chttp_server_parser_storage_append p [0] with
    | None => chttp_server_parser_fail p 431
    | Some p =>
      let header := (InStorage (ps_field_offset p), InStorage (ps_value_offset p)) in
      ((upd_request p (fun r => r <| rv_headers := rv_headers r ++ [header] |>))
         <| ps_value_open := false |>, CbOk)
    end.

Definition chttp_server_parser_method (m : llhttp_method) : Z :=
  match m with
  | HTTP_GET => CHTTP_METHOD_GET
  | HTTP_HEAD => CHTTP_METHOD_HEAD
  | HTTP_POST => CHTTP_METHOD_POST
  | HTTP_PUT => CHTTP_METHOD_PUT
  | HTTP_DELETE => CHTTP_METHOD_DELETE
  | HTTP_PATCH => CHTTP_METHOD_PATCH
  | HTTP_OPTIONS => CHTTP_METHOD_OPTIONS
  | HTTP_OTHER_METHOD => 0
  end.

(** *** Checks at the end of the headers *)

(** What the loop of [validate_headers] has seen. *)
Record header_scan := {
  hs_host_count : Z;
  hs_expect : option (list Z);
  hs_transfer_encoding : option (list Z);
}.

#[local] Instance eta_header_scan : Eta header_scan :=
  fun s => Build_header_scan (hs_host_count s) (hs_expect s) (hs_transfer_encoding s).
#[local] Instance set_hs_host_count : Setter hs_host_count. Proof. mk_setter. Defined.
#[local] Instance set_hs_expect : Setter hs_expect. Proof. mk_setter. Defined.
#[local] Instance set_hs_transfer_encoding : Setter hs_transfer_encoding. Proof. mk_setter. Defined.

(** One round: the scan, or the HTTP status to fail with. *)
Definition validate_header (http_minor : Z) (s : header_scan) (name value : list Z) :
    header_scan + Z :=
  if chttp_server_ascii_equal name (bytes_of "host") then
    let s := s <| hs_host_count := hs_host_count s + 1 |> in
    if (1 <? hs_host_count s) || (zlen (chttp_server_trim_ows value) =? 0) then inr 400 else inl s
  else if (http_minor =? 1) && chttp_server_ascii_equal name (bytes_of "expect") then
    match hs_expect s with
    | Some _ => inr 417
    | None => inl (s <| hs_expect := Some (chttp_server_trim_ows value) |>)
    end
  else if chttp_server_ascii_equal name (bytes_of "transfer-encoding") then
    match hs_transfer_encoding s with
    | Some _ => inr 501
    | None => inl (s <| hs_transfer_encoding := Some (chttp_server_trim_ows value) |>)
    end
  else inl s.

Fixpoint validate_loop (http_minor : Z) (s : header_scan) (headers : list (list Z * list Z)) :
    header_scan + Z :=
  match headers with
  | [] => inl s
  | (name, value) :: headers =>
    match validate_header http_minor s name value with
    | inl s => validate_loop http_minor s headers
    | inr status => inr status
    end
  end.

(** [*out_wants_continue], or the HTTP status to fail with. *)
Definition chttp_server_parser_validate_headers (http_major http_minor : Z) (chunked : bool)
    (headers : list (list Z * list Z)) : bool + Z :=
  match validate_loop http_minor
          {| hs_host_count := 0; hs_expect := None; hs_transfer_encoding := None |} headers with
  | inr status => inr status
  | inl s =>
    if (http_major =? 1) && (http_minor =? 1) && negb (hs_host_count s =? 1) then inr 400
    else
      let checked :=
        match hs_transfer_encoding s with
        | Some te =>
          if http_minor =? 0 then Some 400
          else if negb (chttp_server_ascii_equal_size te (bytes_of "chunked")) || negb chunked
          then Some 501
          else None
        | None => None
        end in
      match checked with
      | Some status => inr status
      | None =>
        match hs_expect s with
        | None => inl false
        | Some expect =>
          if bytes_eqb (map ascii_lower expect) (bytes_of "100-continue") then inl true
          else inr 417
        end
      end
  end.

(** [strstr(s, pattern)]: what follows the first occurrence. *)
Fixpoint after_first (pattern s : list Z) : option (list Z) :=
  if bytes_eqb (ztake (zlen pattern) s) pattern then Some (zdrop (zlen pattern) s)
  else match s with [] => None | _ :: s => after_first pattern s end.

(** The authority and the rest: [strcspn(authority, "/?")]. *)
Fixpoint break_authority (s : list Z) : list Z * list Z :=
  match s with
  | [] => ([], [])
  | c :: rest =>
    if (c =? SLASH) || (c =? QUESTION) then ([], s)
    else let '(authority, suffix) := break_authority rest in (c :: authority, suffix)
  end.

(** [parser->headers[index].value = target] for the first [Host] header. *)
Fixpoint replace_host (storage : list Z) (headers : list (text_ptr * text_ptr)) (target : list Z) :
    option (list (text_ptr * text_ptr)) :=
  match headers with
  | [] => None
  | h :: headers =>
    if chttp_server_ascii_equal (text_at storage h.1) (bytes_of "Host")
    then Some ((h.1, Elsewhere target) :: headers)
    else cons h <$> replace_host storage headers target
  end.

(** The bytes before the authority in the target: the scheme and its
    separator. *)
Definition before_suffix (target suffix : list Z) : list Z :=
  ztake (zlen target - zlen suffix) target.

(** The target in origin form is [rv_target] of the result. *)
Definition chttp_server_parser_normalize_target p : chttp_server_parser_impl U * cb_result :=
  let target := ps_target_storage p in
  if has_char HASH target then chttp_server_parser_fail p 400
  else if (zth target 0 =? SLASH) ||
          ((rv_method (ps_request p) =? CHTTP_METHOD_OPTIONS) && (zlen target =? 1) &&
           (zth target 0 =? STAR))
  then (upd_request p (fun r => r <| rv_target := target |>), CbOk)
  else
    match after_first (bytes_of "://") (up_to_nul target) with
    | None => chttp_server_parser_fail p 400
    | Some rest =>
      let '(authority, suffix) := break_authority rest in
      let u := uri_parse (before_suffix (up_to_nul target) suffix) in
      if uri_overflow u then chttp_server_parser_fail p 414
      else if negb (uri_parsed u) || (zlen (uri_host u) =? 0) || uri_userinfo u ||
              (negb (chttp_server_ascii_equal (uri_scheme u) (bytes_of "http")) &&
               negb (chttp_server_ascii_equal (uri_scheme u) (bytes_of "https")))
      then chttp_server_parser_fail p 400
      else
        let origin := if zth suffix 0 =? SLASH then suffix else SLASH :: suffix in
        let p := upd_request p (fun r => r <| rv_target := origin |>) in
        match replace_host (ps_header_storage p) (rv_headers (ps_request p)) authority with
        | Some headers => (upd_request p (fun r => r <| rv_headers := headers |>), CbOk)
        | None =>
          if max_header_count (ps_limits p) <=? zlen (rv_headers (ps_request p))
          then chttp_server_parser_fail p 431
          else
            (upd_request p (fun r =>
               r <| rv_headers := rv_headers r ++ [(Elsewhere (bytes_of "Host"), Elsewhere authority)] |>),
             CbOk)
        end
    end.

(** The path is the target up to the query. *)
Fixpoint before_query (s : list Z) : list Z :=
  match s with
  | [] => []
  | c :: rest => if c =? QUESTION then [] else c :: before_query rest
  end.

(** The last part of [on_headers_complete]: the body sink and the phase of the
    wire. *)
Definition headers_open_body p (head : ll_head) : chttp_server_parser_impl U * cb_result :=
  let opened :=
    match on_body_open U cbs with
    | None => (p, SALTS_OK)
    | Some f =>
      let '(user, status, sink) := f (ps_user p) (ps_request p) (ps_header_storage p) in
      let p := p <| ps_user := user |> in
      (if bool_decide (status = SALTS_OK) then
         match sink with
         | Some sink =>
           (upd_request p (fun r => r <| rv_body := [] |> <| rv_body_streamed := true |>))
             <| ps_body_sink := Some sink |>
         | None => p
         end
       else p, status)
    end in
  let '(p, status) := opened in
  if negb (bool_decide (status = SALTS_OK)) then chttp_server_parser_callback_fail p status
  else
    let w := ps_wire p in
    let w :=
      if lh_chunked head then
        w <| wire_line_bytes := 0 |> <| wire_previous_was_cr := false |>
          <| wire_phase := CHTTP_SERVER_WIRE_CHUNK_LINE |>
      else
        match lh_content_length head with
        | Some n =>
          if negb (n =? 0) then
            w <| chunk_body_remaining := n |> <| wire_phase := CHTTP_SERVER_WIRE_FIXED_BODY |>
          else w
        | None => w
        end in
    (p <| ps_wire := w |>, if lh_upgrade head then CbOkNoUpgrade else CbOk).

(** The middle part: the application's decision on an upgrade. *)
Definition headers_upgrade p (head : ll_head) : chttp_server_parser_impl U * cb_result :=
  if lh_upgrade head then
    match on_upgrade U cbs with
    | None => headers_open_body p head
    | Some f =>
      let p := upd_request p (fun r => r <| rv_protocol_keep_alive := true |>) in
      let '(user, status, action, http_status) :=
        f (ps_user p) (ps_request p) (ps_header_storage p) in
      let p := p <| ps_user := user |> in
      if negb (bool_decide (status = SALTS_OK)) then
        chttp_server_parser_callback_fail (p <| ps_failure_http_status := http_status |>) status
      else
        match action with
        | UpgradeStop =>
          (p <| ps_failure_http_status := http_status |> <| ps_upgrade_stopped := true |>, CbUpgrade)
        | UpgradeUnknown => chttp_server_parser_callback_fail p SALTS_EPROTO
        | UpgradeIgnore => headers_open_body p head
        end
    end
  else headers_open_body p head.

(** [100 Continue]. *)
Definition headers_continue p (head : ll_head) (wants_continue : bool) :
    chttp_server_parser_impl U * cb_result :=
  if wants_continue then
    match on_continue U cbs with
    | None => chttp_server_parser_fail p 417
    | Some f =>
      let '(user, status) := f (ps_user p) in
      let p := p <| ps_user := user |> in
      if negb (bool_decide (status = SALTS_OK)) then chttp_server_parser_callback_fail p status
      else headers_upgrade p head
    end
  else headers_upgrade p head.

(** The application's decision on the headers. *)
Definition headers_decide p (head : ll_head) (wants_continue : bool) :
    chttp_server_parser_impl U * cb_result :=
  match on_headers U cbs with
  | None => headers_continue p head wants_continue
  | Some f =>
    let '(user, status, action) := f (ps_user p) (ps_request p) (ps_header_storage p) in
    let p := p <| ps_user := user |> in
    if negb (bool_decide (status = SALTS_OK)) then chttp_server_parser_callback_fail p status
    else
      match action with
      | HeadersStop => (p <| ps_headers_stopped := true |>, CbPaused)
      | HeadersUnknown => chttp_server_parser_callback_fail p SALTS_EPROTO
      | HeadersContinue => headers_continue p head wants_continue
      end
  end.

Definition chttp_server_parser_on_headers_complete p (head : ll_head) :
    chttp_server_parser_impl U * cb_result :=
  if ps_field_open p || ps_value_open p || negb (ps_target_terminated p)
  then chttp_server_parser_fail p 400
  else
    let p := upd_request p (fun r =>
      r <| rv_http_major := lh_http_major head |> <| rv_http_minor := lh_http_minor head |>) in
    if negb (lh_http_major head =? 1) || (1 <? lh_http_minor head)
    then chttp_server_parser_fail p 505
    else
      let method := chttp_server_parser_method (lh_method head) in
      let p := upd_request p (fun r => r <| rv_method := method |>) in
      if method =? 0 then chttp_server_parser_fail p 501
      else
        match chttp_server_parser_validate_headers (lh_http_major head) (lh_http_minor head)
                (lh_chunked head) (request_headers p) with
        | inr status => chttp_server_parser_fail p status
        | inl wants_continue =>
          match chttp_server_parser_normalize_target p with
          | (p, CbOk) =>
            let path := before_query (rv_target (ps_request p)) in
            if zlen path =? 0 then chttp_server_parser_fail p 400
            else
              let p := upd_request p (fun r => r <| rv_path := path |>) in
              if match lh_content_length head with
                 | Some n => max_body_bytes (ps_limits p) <? n
                 | None => false
                 end
              then chttp_server_parser_fail p 413
              else headers_decide p head wants_continue
          | r => r
          end
        end.

(** *** The body *)

Definition chttp_server_parser_on_body p (at_ : list Z) : chttp_server_parser_impl U * cb_result :=
  let body_size := rv_body_size (ps_request p) in
  let max := max_body_bytes (ps_limits p) in
  if (max <? body_size) || (max - body_size <? zlen at_) then chttp_server_parser_fail p 413
  else
    let required := body_size + zlen at_ in
    let stored :=
      if zlen at_ =? 0 then (p, SALTS_OK)
      else
        match ps_body_sink p with
        | Some sink =>
          let '(user, status) := sink_write U cbs (ps_user p) sink at_ in
          (p <| ps_user := user |>, status)
        | None =>
          let '(p, status) :=
            match buffer_grow U cbs with
            | Some f =>
              let capacity := match ps_body_storage_capacity p with Some c => c | None => 0 end in
              let '(user, status, capacity) := f (ps_user p) capacity required max body_size in
              (p <| ps_user := user |> <| ps_body_storage_capacity := Some capacity |>, status)
            | None =>
              if malloc_ok required
              then (p <| ps_body_storage_capacity := Some required |>, SALTS_OK)
              else (p, SALTS_ENOMEM)
            end in
          (if bool_decide (status = SALTS_OK)
           then upd_request p (fun r => r <| rv_body := ztake body_size (rv_body r) ++ at_ |>)
           else p, status)
        end in
    let '(p, status) := stored in
    if negb (bool_decide (status = SALTS_OK)) then chttp_server_parser_callback_fail p status
    else (upd_request p (fun r => r <| rv_body_size := rv_body_size r + zlen at_ |>), CbOk).

Definition chttp_server_parser_on_message_complete p (should_keep_alive : bool) :
    chttp_server_parser_impl U * cb_result :=
  let p := chttp_server_parser_reset_wire p in
  let p := upd_request p (fun r => r <| rv_protocol_keep_alive := should_keep_alive |>) in
  let p := chttp_server_parser_close_body p SALTS_OK in
  if ps_upgrade_stopped p then (p, CbOk)
  else
    let '(user, result) := on_request U cbs (ps_user p) (ps_request p) (ps_header_storage p) in
    let p := p <| ps_user := user |> in
    match result with
    | RequestDeferred => (p <| ps_paused := true |>, CbOk)
    | RequestStatus status =>
      if negb (bool_decide (status = SALTS_OK)) then chttp_server_parser_callback_fail p status
      else (p, CbOk)
    end.

Definition chttp_server_parser_on_chunk_header p (content_length : Z) :
    chttp_server_parser_impl U * cb_result :=
  let body_size := rv_body_size (ps_request p) in
  let max := max_body_bytes (ps_limits p) in
  if (max <? body_size) || (max - body_size <? content_length)
  then chttp_server_parser_fail p 413
  else
    let w := (ps_wire p) <| chunk_body_remaining := content_length |> in
    let w :=
      if content_length =? 0 then
        w <| header_wire_bytes := 0 |> <| wire_line_bytes := 0 |>
          <| wire_previous_was_cr := false |> <| wire_phase := CHTTP_SERVER_WIRE_TRAILERS |>
      else w <| wire_phase := CHTTP_SERVER_WIRE_CHUNK_BODY |> in
    (p <| ps_wire := w |>, CbOk).

(** The callbacks that [chttp_server_parser_init] installs. *)
Definition parser_callback p (event : ll_event) : chttp_server_parser_impl U * cb_result :=
  match event with
  | EvMessageBegin => chttp_server_parser_on_message_begin p
  | EvUrl at_ => chttp_server_parser_on_url p at_
  | EvUrlComplete => chttp_server_parser_on_url_complete p
  | EvHeaderField at_ => chttp_server_parser_on_header_field p at_
  | EvHeaderFieldComplete => chttp_server_parser_on_header_field_complete p
  | EvHeaderValue at_ => chttp_server_parser_on_header_value p at_
  | EvHeaderValueComplete => chttp_server_parser_on_header_value_complete p
  | EvHeadersComplete head => chttp_server_parser_on_headers_complete p head
  | EvBody at_ => chttp_server_parser_on_body p at_
  | EvMessageComplete keep_alive => chttp_server_parser_on_message_complete p keep_alive
  | EvChunkHeader n => chttp_server_parser_on_chunk_header p n
  end.

(** ** Driving the tokenizer *)

Context {vstr : VstrSearch} {ll : Llhttp}.

(** The parser with the state of the tokenizer. *)
Record chttp_server_parser := {
  sp_ll : ll_state;
  sp_impl : chttp_server_parser_impl U;
}.

Definition parser_wire_limits p : wire_limits :=
  {| max_start_line_wire_bytes :=
       max_target_bytes (ps_limits p) + CHTTP_SERVER_REQUEST_LINE_OVERHEAD_BYTES;
     max_header_bytes := pl_max_header_bytes (ps_limits p) |}.

(** The sizes of the structures with eight-byte pointers. *)
Definition sizeof_header : Z := 16.
Definition sizeof_parser_impl : Z := 768.

(** [has_callbacks] tells whether [on_request] is set. *)
Definition chttp_server_parser_init (limits : parser_limits) (has_on_request : bool) (user : U) :
    outcome chttp_server_parser :=
  if (max_target_bytes limits =? 0) || (max_header_count limits =? 0) ||
     (pl_max_header_bytes limits =? 0) || (max_body_bytes limits =? 0) || negb has_on_request ||
     negb (Bool.eqb (is_none (on_body_open U cbs)) (is_none (on_body_close U cbs)))
  then Err SALTS_EINVAL
  else if (SIZE_MAX - CHTTP_SERVER_REQUEST_LINE_OVERHEAD_BYTES <? max_target_bytes limits) ||
          (pl_max_header_bytes limits =? SIZE_MAX) ||
          (SIZE_MAX / sizeof_header <? max_header_count limits) ||
          ((SIZE_MAX - pl_max_header_bytes limits - 1) / 2 <? max_header_count limits)
  then Err SALTS_ERANGE
  else
    let storage_capacity := pl_max_header_bytes limits + max_header_count limits * 2 + 1 in
    if negb (malloc_ok sizeof_parser_impl) ||
       negb (malloc_ok (max_header_count limits * sizeof_header)) ||
       negb (malloc_ok (max_target_bytes limits + 1)) || negb (malloc_ok storage_capacity)
    then Err SALTS_ENOMEM
    else
      Ok {| sp_ll := ll_init;
            sp_impl :=
              {| ps_request := request_zero; ps_limits := limits; ps_target_storage := [];
                 ps_header_storage := []; ps_header_storage_capacity := storage_capacity;
                 ps_body_storage_capacity := None; ps_field_offset := 0; ps_value_offset := 0;
                 ps_wire := wire_start; ps_failure_http_status := 0;
                 ps_callback_status := SALTS_OK; ps_body_sink := None; ps_user := user;
                 ps_field_open := false; ps_value_open := false; ps_target_terminated := false;
                 ps_terminal := false; ps_paused := false; ps_upgrade_stopped := false;
                 ps_headers_stopped := false |} |}.

(** The parser, the status and [*out_http_status]. *)
Definition chttp_server_parser_execute_llhttp (sp : chttp_server_parser) (data : list Z)
    (http_status : Z) : chttp_server_parser * salts_status * Z :=
  let '(state, p, errno) := ll_execute parser_callback (sp_ll sp) (sp_impl sp) data in
  let done p := {| sp_ll := state; sp_impl := p |} in
  let failed p :=
    let p := p <| ps_terminal := true |> in
    if negb (bool_decide (ps_callback_status p = SALTS_OK)) then
      let status := ps_callback_status p in
      (done (chttp_server_parser_close_body p status), status, http_status)
    else
      let p := chttp_server_parser_close_body p SALTS_EPROTO in
      let p :=
        if ps_failure_http_status p =? 0 then
          p <| ps_failure_http_status := match errno with HPE_INVALID_VERSION => 505 | _ => 400 end |>
        else p in
      (done p, SALTS_EPROTO, ps_failure_http_status p) in
  match errno with
  | HPE_OK => (done p, SALTS_OK, http_status)
  | HPE_PAUSED_UPGRADE =>
    if ps_upgrade_stopped p then (done p, SALTS_OK, http_status) else failed p
  | HPE_PAUSED => if ps_headers_stopped p then (done p, SALTS_OK, http_status) else failed p
  | _ => failed p
  end.

(** The failure is [SALTS_EPROTO] with [http_status]. *)
Definition chttp_server_parser_wire_fail p (http_status : Z) : chttp_server_parser_impl U :=
  chttp_server_parser_close_body
    (p <| ps_failure_http_status := http_status |> <| ps_terminal := true |>) SALTS_EPROTO.

(** The [switch] of the loop of [execute_consumed]: the size of the next
    segment, or the HTTP status to fail with.  [None] is out of fuel of the
    scan. *)
Definition next_segment (limits : wire_limits) (w : wire) (data : list Z) :
    option (wire * scan_result) :=
  match wire_phase w with
  | CHTTP_SERVER_WIRE_PREAMBLE | CHTTP_SERVER_WIRE_START_LINE | CHTTP_SERVER_WIRE_HEADERS =>
    chttp_server_parser_scan_head limits w data
  | CHTTP_SERVER_WIRE_CHUNK_LINE =>
    Some (chttp_server_parser_scan_line limits w data CHTTP_SERVER_WIRE_CHUNK_LINE_PENDING 413)
  | CHTTP_SERVER_WIRE_FIXED_BODY | CHTTP_SERVER_WIRE_CHUNK_BODY =>
    let segment_size :=
      if chunk_body_remaining w <? zlen data then chunk_body_remaining w else zlen data in
    let w := w <| chunk_body_remaining := chunk_body_remaining w - segment_size |> in
    let w :=
      if (chunk_body_remaining w =? 0) &&
         bool_decide (wire_phase w = CHTTP_SERVER_WIRE_CHUNK_BODY)
      then w <| chunk_body_end_bytes := 0 |> <| wire_phase := CHTTP_SERVER_WIRE_CHUNK_BODY_END |>
      else w in
    Some (w, ScanOk segment_size)
  | CHTTP_SERVER_WIRE_CHUNK_BODY_END =>
    let needed := 2 - chunk_body_end_bytes w in
    let segment_size := if needed <? zlen data then needed else zlen data in
    let w := w <| chunk_body_end_bytes := chunk_body_end_bytes w + segment_size |> in
    let w :=
      if chunk_body_end_bytes w =? 2 then
        w <| wire_line_bytes := 0 |> <| wire_previous_was_cr := false |>
          <| wire_phase := CHTTP_SERVER_WIRE_CHUNK_LINE |>
      else w in
    Some (w, ScanOk segment_size)
  | CHTTP_SERVER_WIRE_TRAILERS => Some (chttp_server_parser_scan_trailers limits w data)
  | CHTTP_SERVER_WIRE_HEADERS_PENDING | CHTTP_SERVER_WIRE_CHUNK_LINE_PENDING
  | CHTTP_SERVER_WIRE_TRAILERS_PENDING => Some (w, ScanFail 400)
  end.

(** The loop with what remains of [size] bytes: the parser, the status,
    [*out_consumed] and [*out_http_status].  [None] is out of fuel: the code
    does not return. *)
Fixpoint execute_loop (fuel : nat) (sp : chttp_server_parser) (size : Z) (data : list Z)
    (http_status : Z) : option (chttp_server_parser * salts_status * Z * Z) :=
  let consumed := size - zlen data in
  match data with
  | [] => Some (sp, SALTS_OK, consumed, ps_failure_http_status (sp_impl sp))
  | _ =>
    match fuel with
    | O => None
    | S fuel =>
      let p := sp_impl sp in
      match next_segment (parser_wire_limits p) (ps_wire p) data with
      | None => None
      | Some (w, ScanFail status) =>
        let p := chttp_server_parser_wire_fail (p <| ps_wire := w |>) status in
        let pending :=
          match wire_phase w with
          | CHTTP_SERVER_WIRE_HEADERS_PENDING | CHTTP_SERVER_WIRE_CHUNK_LINE_PENDING
          | CHTTP_SERVER_WIRE_TRAILERS_PENDING => true
          | _ => false
          end in
        Some ({| sp_ll := sp_ll sp; sp_impl := p |}, SALTS_EPROTO,
              if pending then 0 else consumed, status)
      | Some (w, ScanOk segment_size) =>
        let sp := {| sp_ll := sp_ll sp; sp_impl := p <| ps_wire := w |> |} in
        match chttp_server_parser_execute_llhttp sp (ztake segment_size data) http_status with
        | (sp, SALTS_OK, http_status) =>
          let data := zdrop segment_size data in
          if ps_upgrade_stopped (sp_impl sp) || ps_headers_stopped (sp_impl sp) ||
             ps_paused (sp_impl sp)
          then Some (sp, SALTS_OK, size - zlen data, ps_failure_http_status (sp_impl sp))
          else execute_loop fuel sp size data http_status
        | (sp, status, http_status) => Some (sp, status, consumed, http_status)
        end
      end
    end
  end.

(** A round that consumes nothing leaves the wire as the callbacks left it; the
    tokenizer is trusted to end a body after its last byte, so one round more
    than there are bytes is enough. *)
Definition chttp_server_parser_execute_consumed (sp : chttp_server_parser) (data : list Z) :
    option (chttp_server_parser * salts_status * Z * Z) :=
  let p := sp_impl sp in
  if zlen data =? 0 then Some (sp, SALTS_EINVAL, 0, 0)
  else if ps_paused p then Some (sp, SALTS_EBUSY, 0, 0)
  else if ps_upgrade_stopped p || ps_headers_stopped p then Some (sp, SALTS_ESHUTDOWN, 0, 0)
  else if ps_terminal p then
    Some (sp, if negb (bool_decide (ps_callback_status p = SALTS_OK)) then ps_callback_status p
              else SALTS_EPROTO, 0, ps_failure_http_status p)
  else execute_loop (S (length data)) sp (zlen data) data 0.

Definition chttp_server_parser_execute (sp : chttp_server_parser) (data : list Z) :
    option (chttp_server_parser * salts_status * Z) :=
  match chttp_server_parser_execute_consumed sp data with
  | None => None
  | Some (sp, status, consumed, http_status) =>
    Some (sp, if bool_decide (status = SALTS_OK) && negb (consumed =? zlen data)
              then SALTS_EBUSY else status, http_status)
  end.

Definition chttp_server_parser_resume (sp : chttp_server_parser) :
    chttp_server_parser * salts_status :=
  let p := sp_impl sp in
  if negb (ps_paused p) then (sp, SALTS_EALREADY)
  else if ps_terminal p || ps_upgrade_stopped p || ps_headers_stopped p
  then (sp, SALTS_ESHUTDOWN)
  else ({| sp_ll := sp_ll sp; sp_impl := p <| ps_paused := false |> |}, SALTS_OK).

Definition chttp_server_parser_reset (sp : chttp_server_parser) : chttp_server_parser :=
  let p := chttp_server_parser_close_body (sp_impl sp) SALTS_ECANCELED in
  let p := p <| ps_terminal := false |> <| ps_paused := false |>
             <| ps_upgrade_stopped := false |> <| ps_headers_stopped := false |> in
  {| sp_ll := ll_reset (sp_ll sp);
     sp_impl := chttp_server_parser_reset_wire (chttp_server_parser_reset_message p) |}.

(** What remains is the state of the application. *)
Definition chttp_server_parser_destroy (sp : chttp_server_parser) : U :=
  let p := chttp_server_parser_close_body (sp_impl sp) SALTS_ECANCELED in
  match ps_body_storage_capacity p, buffer_release U cbs with
  | Some capacity, Some f => f (ps_user p) capacity
  | _, _ => ps_user p
  end.

End Parser.

End Http1Parser.
