(* ===== verification/Http1ParserTheorems.v ===== *)
(** * HTTP/1 request parser: theorems

    The scan of the header lines that skips ordinary bytes against the scan of
    one byte at a time, its independence of how the input is cut, the headers
    that the callbacks collect, the checks on them, and the limits that hold
    through every call. *)

From S2P Require Import Prelude HpackBuffer Router Http1Parser.

Module Http1ParserTheorems.
Import HpackBuffer Router Http1Parser.

(** ** The scan of the head *)

(** [vstr_find_char] gives the first position of the byte. *)
Class LawfulVstr (vstr : VstrSearch) : Prop := {
  vstr_some : forall s c i, vstr_find_char s c = Some i ->
    exists before after, s = before ++ c :: after /\ zlen before = i /\ c ∉ before;
  vstr_none : forall s c, vstr_find_char s c = None -> c ∉ s;
}.

Section Reference.
Context (limits : wire_limits).

(** The state after a byte of the head, or how the scan ends at it. *)
Inductive byte_result :=
  | ByteMore (w : wire)
  | ByteEnd (w : wire)
  | ByteFail (w : wire) (http_status : Z).

Definition head_byte (w : wire) (byte : Z) : byte_result :=
  if in_start_line w then
    match scan_start_byte limits w byte with
    | inl w => ByteMore w
    | inr status => ByteFail w status
    end
  else if max_header_bytes limits <=? header_wire_bytes w then ByteFail w 431
  else
    match scan_line_byte w byte CHTTP_SERVER_WIRE_HEADERS_PENDING with
    | (w, true) => ByteEnd w
    | (w, false) => ByteMore w
    end.

(** The scan of one byte at a time. *)
Fixpoint head_bytes (w : wire) (data : list Z) (index : Z) : wire * scan_result :=
  match data with
  | [] => (w, ScanOk index)
  | byte :: rest =>
    match head_byte w byte with
    | ByteMore w => head_bytes w rest (index + 1)
    | ByteEnd w => (w, ScanOk (index + 1))
    | ByteFail w status => (w, ScanFail status)
    end
  end.

End Reference.

Section Scan.
Context {vstr : VstrSearch} {law : LawfulVstr vstr} (limits : wire_limits).

(** A byte that is neither CR nor follows one only moves the counters. *)
Lemma plain_byte w byte :
  in_start_line w = false -> header_wire_bytes w < max_header_bytes limits ->
  wire_previous_was_cr w = false \/ byte <> LF -> byte <> CR ->
  head_byte limits w byte =
    ByteMore (w <| header_wire_bytes := header_wire_bytes w + 1 |>
                <| wire_line_bytes := wire_line_bytes w + 1 |>
                <| wire_previous_was_cr := false |>).
Proof.
  intros Hs Hb Hp Hc. unfold head_byte, scan_line_byte. rewrite Hs.
  replace (max_header_bytes limits <=? header_wire_bytes w) with false by lia.
  cbn [wire_previous_was_cr set set_header_wire_bytes set_wire_line_bytes].
  replace (byte =? CR) with false by lia.
  destruct Hp as [->|Hl]; [done|]. replace (byte =? LF) with false by lia. by rewrite andb_false_r.
Qed.

Definition advanced (w : wire) (n : Z) : wire :=
  w <| header_wire_bytes := header_wire_bytes w + n |> <| wire_line_bytes := wire_line_bytes w + n |>
    <| wire_previous_was_cr := false |>.

(** Two states of the wire that agree field by field. *)
Ltac wire_eq w :=
  destruct w; unfold advanced, set, set_header_wire_bytes, set_wire_line_bytes,
    set_wire_previous_was_cr in *; cbn in *; f_equal; first [lia | congruence].

(** So does a run of bytes without CR that starts with an ordinary one. *)
Lemma plain_run run : forall w rest index,
  in_start_line w = false -> wire_previous_was_cr w = false ->
  header_wire_bytes w + zlen run <= max_header_bytes limits -> CR ∉ run -> 
  head_bytes limits w (run ++ rest) index =
    head_bytes limits (advanced w (zlen run)) rest (index + zlen run).
Proof.
  induction run as [|b run IH]; intros w rest index Hs Hp Hb Hc.
  { cbn [app]. change (zlen []) with 0. rewrite Z.add_0_r. f_equal. wire_eq w. }
  rewrite zlen_cons in *. pose proof (zlen_nonneg run). apply not_elem_of_cons in Hc as [Hcb Hc].
  cbn [app head_bytes]. rewrite plain_byte; [|done|lia|by left|done].
  rewrite IH; [|done|done|cbn; lia|done]. f_equal; [|lia]. wire_eq w.
Qed.


(** A run as the scan skips it: the first byte is ordinary, whatever was
    before it. *)
Lemma skipped_run w b run rest index :
  in_start_line w = false -> header_wire_bytes w + zlen (b :: run) <= max_header_bytes limits ->
  b <> CR -> b <> LF -> CR ∉ run ->
  head_bytes limits w (b :: run ++ rest) index =
    head_bytes limits (advanced w (zlen (b :: run))) rest (index + zlen (b :: run)).
Proof.
  intros Hs Hb Hc Hl Hr. rewrite zlen_cons in *. pose proof (zlen_nonneg run).
  cbn [head_bytes]. rewrite plain_byte; [|done|lia|by right|done].
  rewrite plain_run; [|done|done|cbn; lia|done]. f_equal; [|lia]. wire_eq w.
Qed.

(** The bytes that the search finds before the next CR, within the budget. *)
Lemma search_run size b rest :
  0 < size <= zlen (b :: rest) -> b <> CR ->
  let consumed := match vstr_find_char (ztake size (b :: rest)) CR with
                  | None => size | Some cr => cr end in
  exists run tail, b :: rest = ((b :: run) ++ tail) /\ zlen (b :: run) = consumed /\ (CR ∉ run) /\
    consumed <= size.
Proof.
  intros Hsize Hb consumed.
  assert (exists run tail, ztake size (b :: rest) = (b :: run) ++ tail /\ zlen (b :: run) = consumed /\
    CR ∉ (b :: run)) as (run & tail & Ht & Hl & Hc).
  { subst consumed. destruct (vstr_find_char (ztake size (b :: rest)) CR) as [i|] eqn:E.
    - apply vstr_some in E as (before & after & Ht & Hi & Hn). unfold ztake in *.
      destruct (Z.to_nat size) as [|n] eqn:Es; [lia|]. cbn [take] in *.
      destruct before as [|b' run]; cbn [app] in Ht; injection Ht as Hx Ht; [congruence|subst b'].
      exists run, (CR :: after). by rewrite Ht.
    - apply vstr_none in E. unfold ztake in *. destruct (Z.to_nat size) as [|n] eqn:Es; [lia|].
      cbn [take] in *. exists (take n rest), []. rewrite app_nil_r. split_and!; [done| |done].
      rewrite zlen_cons in *. unfold zlen in *. rewrite length_take. lia. }
  exists run, (tail ++ zdrop size (b :: rest)). rewrite app_assoc, <- Ht. split_and!; [|done| |].
  - symmetry. apply ztake_zdrop.
  - by apply not_elem_of_cons in Hc as [_ ?].
  - rewrite <- Hl. apply (f_equal zlen) in Ht. rewrite zlen_app in Ht. pose proof (zlen_nonneg tail).
    rewrite zlen_ztake in Ht by lia. lia.
Qed.

Lemma scan_head_reference fuel : forall w data index,
  (length data <= fuel)%nat ->
  scan_head_loop limits fuel w data index = Some (head_bytes limits w data index).
Proof.
  induction fuel as [|fuel IH]; intros w [|byte rest] index Hf; try (cbn in Hf; lia); [done|done|].
  cbn [scan_head_loop]. destruct (in_start_line w) eqn:Hs.
  { cbn [head_bytes]. unfold head_byte. rewrite Hs.
    destruct (scan_start_byte limits w byte); [|done]. apply IH. cbn in Hf. lia. }
  destruct (max_header_bytes limits <=? header_wire_bytes w) eqn:Hb.
  { cbn [head_bytes]. unfold head_byte. by rewrite Hs, Hb. }
  destruct (_ && _ && _) eqn:Hfast; cycle 1.
  { cbn [head_bytes]. unfold head_byte. rewrite Hs, Hb.
    destruct (scan_line_byte w byte CHTTP_SERVER_WIRE_HEADERS_PENDING) as [w' []]; [done|].
    apply IH. cbn in Hf. lia. }
  bool_prop. cbv zeta.
  set (size := if zlen (byte :: rest) <? max_header_bytes limits - header_wire_bytes w then _ else _).
  assert (0 < size <= zlen (byte :: rest) /\ size <= max_header_bytes limits - header_wire_bytes w)
    as [Hz Hz'].
  { subst size. destruct (Z.ltb_spec (zlen (byte :: rest)) (max_header_bytes limits - header_wire_bytes w)); lia. }
  clearbody size.
  destruct (search_run size byte rest Hz ltac:(done)) as (run & tail & Ht & Hl & Hc & Hle).
  set (consumed := match vstr_find_char _ CR with Some cr => cr | None => size end) in *.
  clearbody consumed. fold (advanced w consumed).
  rewrite IH; cycle 1.
  { unfold zdrop. rewrite length_drop. cbn [length] in *. rewrite zlen_cons in Hl.
    pose proof (zlen_nonneg run). lia. }
  rewrite Ht. cbn [app]. rewrite skipped_run; [|done|lia|done|done|done].
  rewrite Hl. f_equal. f_equal. rewrite <- Hl. change (byte :: run ++ tail) with ((byte :: run) ++ tail).
  apply zdrop_app.
Qed.

(** The scan of a request head, which skips to the next carriage return within the
    budget, gives the same state and result as the scan of one byte at a time. *)
Theorem scan_head_as_bytes w data :
  chttp_server_parser_scan_head limits w data = Some (head_bytes limits w data 0).
Proof. by apply scan_head_reference. Qed.

(** ** Fragments *)

Definition in_head (w : wire) : Prop :=
  wire_phase w = CHTTP_SERVER_WIRE_PREAMBLE \/ wire_phase w = CHTTP_SERVER_WIRE_START_LINE \/
  wire_phase w = CHTTP_SERVER_WIRE_HEADERS.

Lemma head_byte_phase w byte :
  in_head w ->
  match head_byte limits w byte with
  | ByteMore w' => in_head w'
  | ByteEnd w' => wire_phase w' = CHTTP_SERVER_WIRE_HEADERS_PENDING
  | ByteFail _ _ => True
  end.
Proof.
  intros Hw. unfold head_byte. destruct (in_start_line w) eqn:Hs.
  - unfold scan_start_byte. split_if; [done|]. cbv zeta. unfold in_head.
    repeat case_match; cbn; auto.
  - split_if; [done|]. unfold in_start_line in Hs. bool_prop.
    apply bool_decide_eq_false in H, H0. destruct Hw as [Hw|[Hw|Hw]]; [done|done|].
    unfold scan_line_byte, in_head. cbv zeta. repeat case_match; simplify_eq; cbn; auto.
Qed.

Lemma head_bytes_index data : forall w i,
  head_bytes limits w data i =
    match head_bytes limits w data 0 with
    | (w', ScanOk n) => (w', ScanOk (i + n))
    | r => r
    end.
Proof.
  induction data as [|byte data IH]; intros w i; cbn [head_bytes]; [by rewrite Z.add_0_r|].
  destruct (head_byte limits w byte); [|done|done].
  rewrite IH, (IH _ (0 + 1)). destruct (head_bytes limits w0 data 0) as [? []]; [|done].
  do 2 f_equal. lia.
Qed.

(** A scan of two pieces is a scan of the first, and of the second unless the
    first ended the head or failed. *)
Lemma head_bytes_app a b : forall w,
  in_head w ->
  head_bytes limits w (a ++ b) 0 =
    match head_bytes limits w a 0 with
    | (w', ScanOk n) =>
      if bool_decide (wire_phase w' = CHTTP_SERVER_WIRE_HEADERS_PENDING) then (w', ScanOk n)
      else head_bytes limits w' b n
    | r => r
    end.
Proof.
  induction a as [|byte a IH]; intros w Hw; cbn [app head_bytes].
  { rewrite bool_decide_eq_false_2; [done|]. destruct Hw as [->|[->| ->]]; done. }
  pose proof (head_byte_phase w byte Hw) as Hp.
  destruct (head_byte limits w byte) as [w'|w'|]; [|by rewrite bool_decide_eq_true_2|done].
  rewrite head_bytes_index, (head_bytes_index a), IH by done.
  destruct (head_bytes limits w' a 0) as [w2 [n|]]; [|done].
  case_bool_decide; [done|]. rewrite (head_bytes_index b w2 n), (head_bytes_index b w2 (0 + 1 + n)).
  destruct (head_bytes limits w2 b 0) as [? []]; [|done]. do 2 f_equal. lia.
Qed.

(** Scanning a request head in two pieces gives what scanning it at once gives,
    wherever it is cut: the same state, the same failure, and sizes that add up,
    unless the first piece already ended the head. *)
Theorem scan_head_fragments w a b :
  in_head w ->
  chttp_server_parser_scan_head limits w (a ++ b) =
    match chttp_server_parser_scan_head limits w a with
    | Some (w', ScanOk n) =>
      if bool_decide (wire_phase w' = CHTTP_SERVER_WIRE_HEADERS_PENDING) then Some (w', ScanOk n)
      else
        match chttp_server_parser_scan_head limits w' b with
        | Some (w'', ScanOk m) => Some (w'', ScanOk (n + m))
        | r => r
        end
    | r => r
    end.
Proof.
  intros Hw. unfold chttp_server_parser_scan_head. rewrite !scan_head_reference, head_bytes_app by done.
  destruct (head_bytes limits w a 0) as [w' [n|]]; [|done]. case_bool_decide; [done|].
  rewrite scan_head_reference, head_bytes_index by done.
  by destruct (head_bytes limits w' b 0) as [? []].
Qed.

End Scan.
(** ** The checks on the headers *)

(** The trimmed values of the headers with a name. *)
Definition values_of (name : list Z) (headers : list (list Z * list Z)) : list (list Z) :=
  omap (fun h => if chttp_server_ascii_equal h.1 name then Some (chttp_server_trim_ows h.2) else None)
    headers.

Definition same_text (s t : list Z) : Prop := map ascii_lower s = map ascii_lower t.

(** What a request may look like: at most one [Host], not blank, and exactly
    one in HTTP/1.1; at most one [Transfer-Encoding], which is [chunked] and
    was understood as such, and none in HTTP/1.0; in HTTP/1.1 at most one
    [Expect], which is [100-continue]. *)
Record headers_valid (http_minor : Z) (chunked : bool) (headers : list (list Z * list Z)) : Prop := {
  hv_host : Forall (fun v => v <> []) (values_of (bytes_of "host") headers);
  hv_hosts : (length (values_of (bytes_of "host") headers) <= 1)%nat;
  hv_host_11 : http_minor = 1 -> length (values_of (bytes_of "host") headers) = 1%nat;
  hv_encodings : (length (values_of (bytes_of "transfer-encoding") headers) <= 1)%nat;
  hv_encoding : Forall (fun v => same_text v (bytes_of "chunked") /\ chunked = true /\ http_minor <> 0)
                  (values_of (bytes_of "transfer-encoding") headers);
  hv_expects : http_minor = 1 -> (length (values_of (bytes_of "expect") headers) <= 1)%nat;
  hv_expect : http_minor = 1 ->
    Forall (fun v => same_text v (bytes_of "100-continue")) (values_of (bytes_of "expect") headers);
}.

Definition wants_100 (http_minor : Z) (headers : list (list Z * list Z)) : bool :=
  (http_minor =? 1) &&
  match values_of (bytes_of "expect") headers with [] => false | _ => true end.

(** The three names differ. *)
Lemma ascii_equal_spec s t : chttp_server_ascii_equal s t = true <-> same_text s t.
Proof. unfold chttp_server_ascii_equal, same_text. apply bytes_eqb_eq. Qed.

Lemma names_differ name a b :
  chttp_server_ascii_equal name a = true -> map ascii_lower a <> map ascii_lower b ->
  chttp_server_ascii_equal name b = false.
Proof.
  rewrite ascii_equal_spec. unfold same_text. intros E H. apply not_true_iff_false.
  rewrite ascii_equal_spec. unfold same_text. congruence.
Qed.

Lemma values_of_cons name n v headers :
  values_of name ((n, v) :: headers) =
    if chttp_server_ascii_equal n name then chttp_server_trim_ows v :: values_of name headers
    else values_of name headers.
Proof. unfold values_of. cbn. by destruct (chttp_server_ascii_equal n name). Qed.

(** The value a scan keeps of a header: the first one. *)
Definition keeps (o : option (list Z)) (vs : list (list Z)) : option (list Z) :=
  match o with Some v => Some v | None => hd_error vs end.

Definition one_more (o : option (list Z)) (vs : list (list Z)) : Prop :=
  match o with Some _ => vs = [] | None => (length vs <= 1)%nat end.

Definition expects (http_minor : Z) (headers : list (list Z * list Z)) : list (list Z) :=
  if http_minor =? 1 then values_of (bytes_of "expect") headers else [].

(** What the loop accepts from a state on, and what it has seen then. *)
Definition accepts (s : header_scan) (hosts tes exps : list (list Z)) : Prop :=
  Forall (fun v => v <> []) hosts /\ (hosts = [] \/ hs_host_count s + zlen hosts <= 1) /\
  one_more (hs_transfer_encoding s) tes /\ one_more (hs_expect s) exps.

Definition seen (s : header_scan) (hosts tes exps : list (list Z)) : header_scan :=
  {| hs_host_count := hs_host_count s + zlen hosts;
     hs_expect := keeps (hs_expect s) exps;
     hs_transfer_encoding := keeps (hs_transfer_encoding s) tes |}.

Lemma accepts_host s h hosts tes exps :
  accepts s (h :: hosts) tes exps <->
  hs_host_count s + 1 <= 1 /\ h <> [] /\
  accepts (Build_header_scan (hs_host_count s + 1) (hs_expect s) (hs_transfer_encoding s))
    hosts tes exps.
Proof.
  unfold accepts. rewrite Forall_cons, zlen_cons. cbn. pose proof (zlen_nonneg hosts). split.
  - intros ([? ?] & [?|?] & ? & ?); [done|]. split_and!; auto; [lia|right; lia].
  - intros (? & ? & ? & Hc & ? & ?). split_and!; auto. right.
    destruct Hc as [->|?]; [change (zlen []) with 0|]; lia.
Qed.

Lemma accepts_encoding s t hosts tes exps :
  accepts s hosts (t :: tes) exps <->
  hs_transfer_encoding s = None /\
  accepts (Build_header_scan (hs_host_count s) (hs_expect s) (Some t)) hosts tes exps.
Proof.
  unfold accepts. cbn. destruct (hs_transfer_encoding s); cbn; [by split; intros (? & ? & ? & ?)|].
  split; intros; destruct_and!; split_and!; auto; [by destruct tes; cbn in *; [|lia]|subst; cbn; lia].
Qed.

Lemma accepts_expect s e hosts tes exps :
  accepts s hosts tes (e :: exps) <->
  hs_expect s = None /\
  accepts (Build_header_scan (hs_host_count s) (Some e) (hs_transfer_encoding s)) hosts tes exps.
Proof.
  unfold accepts. cbn. destruct (hs_expect s); cbn; [by split; intros (? & ? & ? & ?)|].
  split; intros; destruct_and!; split_and!; auto; [by destruct exps; cbn in *; [|lia]|subst; cbn; lia].
Qed.

#[local] Arguments bytes_of : simpl never.
#[local] Opaque bytes_of.

Lemma header_checks_spec minor headers : forall s,
  let hosts := values_of (bytes_of "host") headers in
  let tes := values_of (bytes_of "transfer-encoding") headers in
  let exps := expects minor headers in
  match validate_loop minor s headers with
  | inl s' => accepts s hosts tes exps /\ s' = seen s hosts tes exps
  | inr _ => ~ accepts s hosts tes exps
  end.
Proof.
  induction headers as [|[n v] headers IH]; intros s; cbv zeta in *; cbn [validate_loop].
  { unfold expects, values_of, accepts, seen, one_more, keeps. cbn. rewrite Z.add_0_r.
    assert (Forall (fun v : list Z => v <> []) []) by apply Forall_nil_2.
    destruct (minor =? 1); destruct s as [c [] []]; cbn; split_and!; auto; lia. }
  unfold validate_header, expects. rewrite !values_of_cons.
  destruct (chttp_server_ascii_equal n (bytes_of "host")) eqn:Eh.
  { rewrite (names_differ _ _ (bytes_of "expect") Eh) by (vm_compute; discriminate).
    rewrite (names_differ _ _ (bytes_of "transfer-encoding") Eh) by (vm_compute; discriminate).
    fold (expects minor headers). cbv zeta.
    pose proof (accepts_host s (chttp_server_trim_ows v) (values_of (bytes_of "host") headers)
      (values_of (bytes_of "transfer-encoding") headers) (expects minor headers)) as HA.
    change (hs_host_count (s <| hs_host_count := hs_host_count s + 1 |>)) with (hs_host_count s + 1).
    destruct ((1 <? hs_host_count s + 1) || (zlen (chttp_server_trim_ows v) =? 0)) eqn:Hb.
    { rewrite HA. intros (? & Hn & _). bool_prop. destruct Hb as [Hb|Hb]; bool_prop; [lia|]. by apply zlen_0_inv in Hb. }
    bool_prop. specialize (IH (Build_header_scan (hs_host_count s + 1) (hs_expect s) (hs_transfer_encoding s))).
    change (s <| hs_host_count := hs_host_count s + 1 |>) with
      (Build_header_scan (hs_host_count s + 1) (hs_expect s) (hs_transfer_encoding s)).
    destruct (validate_loop minor _ headers); [|rewrite HA; tauto]. rewrite HA. destruct IH as [Ha ->].
    split; [split; [lia|]; split; [by intros E; rewrite E in *|done]|]. unfold seen. cbn. f_equal. rewrite zlen_cons. lia. }
  destruct ((minor =? 1) && chttp_server_ascii_equal n (bytes_of "expect")) eqn:Ee.
  { bool_prop. rewrite (proj2 (Z.eqb_eq minor 1)) by done. rewrite H0.
    rewrite (names_differ _ _ (bytes_of "transfer-encoding") H0) by (vm_compute; discriminate).
    assert (expects minor headers = values_of (bytes_of "expect") headers) as Ex
      by (unfold expects; by rewrite (proj2 (Z.eqb_eq minor 1))).
    rewrite Ex in IH.
    pose proof (accepts_expect s (chttp_server_trim_ows v) (values_of (bytes_of "host") headers)
      (values_of (bytes_of "transfer-encoding") headers) (values_of (bytes_of "expect") headers)) as HA.
    destruct (hs_expect s) eqn:Hx; [rewrite HA; by intros [? _]|].
    specialize (IH (Build_header_scan (hs_host_count s) (Some (chttp_server_trim_ows v)) (hs_transfer_encoding s))).
    change (s <| hs_expect := Some (chttp_server_trim_ows v) |>) with
      (Build_header_scan (hs_host_count s) (Some (chttp_server_trim_ows v)) (hs_transfer_encoding s)).
    destruct (validate_loop minor _ headers); [|rewrite HA; tauto]. rewrite HA. destruct IH as [Ha ->].
    split_and!; [done|done|]. unfold seen. cbn. by rewrite ?Hx. }
  assert ((if minor =? 1 then
      if chttp_server_ascii_equal n (bytes_of "expect")
      then chttp_server_trim_ows v :: values_of (bytes_of "expect") headers
      else values_of (bytes_of "expect") headers else []) = expects minor headers) as ->.
  { unfold expects. destruct (minor =? 1); [|done]. cbn in Ee. by rewrite Ee. }
  destruct (chttp_server_ascii_equal n (bytes_of "transfer-encoding")) eqn:Et; [|apply IH].
  pose proof (accepts_encoding s (chttp_server_trim_ows v) (values_of (bytes_of "host") headers)
    (values_of (bytes_of "transfer-encoding") headers) (expects minor headers)) as HA.
  destruct (hs_transfer_encoding s) eqn:Hx; [rewrite HA; by intros [? _]|].
  specialize (IH (Build_header_scan (hs_host_count s) (hs_expect s) (Some (chttp_server_trim_ows v)))).
  change (s <| hs_transfer_encoding := Some (chttp_server_trim_ows v) |>) with
    (Build_header_scan (hs_host_count s) (hs_expect s) (Some (chttp_server_trim_ows v))).
  destruct (validate_loop minor _ headers); [|rewrite HA; tauto]. rewrite HA. destruct IH as [Ha ->].
  split_and!; [done|done|]. unfold seen. cbn. by rewrite ?Hx.
Qed.

Lemma accepts_start hosts tes exps :
  accepts (Build_header_scan 0 None None) hosts tes exps <->
  Forall (fun v => v <> []) hosts /\ (length hosts <= 1)%nat /\ (length tes <= 1)%nat /\
  (length exps <= 1)%nat.
Proof.
  unfold accepts, one_more, zlen. cbn. split.
  - intros (? & [->|?] & ? & ?); split_and!; auto; cbn; lia.
  - intros (? & ? & ? & ?). split_and!; auto. right. lia.
Qed.

(** At most one value, as what the scan keeps. *)
Lemma Forall_hd_error {A} (P : A -> Prop) (l : list A) :
  (length l <= 1)%nat -> Forall P l <-> match hd_error l with Some x => P x | None => True end.
Proof.
  destruct l as [|x [|y l]]; cbn; [|intros _; apply Forall_singleton|lia].
  split; [done|]. intros. apply Forall_nil_2.
Qed.

(** The check of the transfer encoding and of the expectation that were kept. *)
Definition encoding_ok (http_minor : Z) (chunked : bool) (v : list Z) : Prop :=
  same_text v (bytes_of "chunked") /\ chunked = true /\ http_minor <> 0.

Lemma headers_valid_alt minor chunked headers :
  let hosts := values_of (bytes_of "host") headers in
  let tes := values_of (bytes_of "transfer-encoding") headers in
  let exps := expects minor headers in
  headers_valid minor chunked headers <->
  accepts (Build_header_scan 0 None None) hosts tes exps /\
  (minor = 1 -> zlen hosts = 1) /\
  match hd_error tes with Some v => encoding_ok minor chunked v | None => True end /\
  match hd_error exps with Some v => same_text v (bytes_of "100-continue") | None => True end.
Proof.
  cbv zeta. rewrite accepts_start. unfold expects, zlen. split.
  - intros [? ? ? ? ? ? ?]. split_and!; auto.
    + destruct (Z.eqb_spec minor 1); [auto|cbn; lia].
    + intros. rewrite hv_host_12 by done. done.
    + by apply (proj1 (Forall_hd_error (encoding_ok minor chunked) _ hv_encodings0)).
    + destruct (Z.eqb_spec minor 1); [|done].
      by apply (proj1 (Forall_hd_error (fun v => same_text v (bytes_of "100-continue")) _ (hv_expects0 e))), hv_expect0.
  - intros ((? & ? & ? & He) & Hh & Ht & Hx). split; auto.
    + intros Hm. apply Hh in Hm. lia.
    + by apply (Forall_hd_error (encoding_ok minor chunked)).
    + intros ->. done.
    + intros ->. by apply (Forall_hd_error (fun v => same_text v (bytes_of "100-continue"))).
Qed.

Lemma wants_100_kept minor headers :
  wants_100 minor headers = match hd_error (expects minor headers) with Some _ => true | None => false end.
Proof. unfold wants_100, expects. destruct (minor =? 1); [|done]. by destruct (values_of _ headers). Qed.

(** The text of the literal has no upper case. *)
Lemma continue_spec v :
  (bytes_eqb (map ascii_lower v) (bytes_of "100-continue") = true) <-> same_text v (bytes_of "100-continue").
Proof. rewrite bytes_eqb_eq. unfold same_text. by replace (map ascii_lower (bytes_of "100-continue")) with (bytes_of "100-continue") by (vm_compute; reflexivity). Qed.

Lemma encoding_spec minor chunked v :
  encoding_ok minor chunked v <->
  (minor =? 0) = false /\
  (negb (chttp_server_ascii_equal_size v (bytes_of "chunked")) || negb chunked) = false.
Proof.
  unfold encoding_ok. rewrite <- ascii_equal_spec, Z.eqb_neq, orb_false_iff, !negb_false_iff. tauto.
Qed.

(** C19: The check at the end of the headers succeeds exactly on requests with at
    most one Host, not blank, and exactly one in HTTP/1.1; at most one Transfer-
    Encoding, which is chunked and was understood as such, and none in HTTP/1.0;
    and in HTTP/1.1 at most one Expect, which is 100-continue; and it asks for an
    interim response exactly when there is one. *)
Theorem validate_headers_correct minor chunked headers wants :
  chttp_server_parser_validate_headers 1 minor chunked headers = inl wants <->
  headers_valid minor chunked headers /\ wants = wants_100 minor headers.
Proof.
  unfold chttp_server_parser_validate_headers.
  pose proof (header_checks_spec minor headers (Build_header_scan 0 None None)) as Hl.
  pose proof (headers_valid_alt minor chunked headers) as Hv. cbv zeta in Hl, Hv. rewrite Hv. clear Hv.
  destruct (validate_loop _ _ _) as [s'|]; [|split; [done|tauto]]. destruct Hl as [Ha ->].
  unfold seen. cbn [hs_host_count hs_expect hs_transfer_encoding keeps]. rewrite wants_100_kept.
  change (1 =? 1) with true. rewrite Z.add_0_l, andb_true_l.
  destruct ((minor =? 1) && negb (zlen (values_of (bytes_of "host") headers) =? 1)) eqn:Hh.
  { bool_prop. split; [done|]. intros ((_ & Hm & _) & _). lia. }
  assert (minor = 1 -> zlen (values_of (bytes_of "host") headers) = 1) as Hone by (intros ->; lia). clear Hh.
  destruct (hd_error (values_of (bytes_of "transfer-encoding") headers)) as [te|].
  all: rewrite ?encoding_spec.
  1: destruct (minor =? 0); [split; [done|naive_solver]|].
  1: destruct (negb (chttp_server_ascii_equal_size te (bytes_of "chunked")) || negb chunked);
       [split; [done|naive_solver]|].
  all: destruct (hd_error (expects minor headers)) as [e|]; [|naive_solver].
  all: rewrite <- continue_spec;
       destruct (bytes_eqb (map ascii_lower e) (bytes_of "100-continue")); naive_solver.
Qed.

End Http1ParserTheorems.
