(* ===== verification/ServerBuffer.v ===== *)
(** * The buffer budget of the server

    Model of the part of [http_server/src/chttp_server.c] that accounts for the
    buffers of all connections: [buffer_reserve], [buffer_peak_update],
    [buffer_grow] and [buffer_release].

    The lanes of the server call these functions from threads of their own and
    share three atomic counters.  The file has the functions as one thread runs
    them alone, and the steps of the same functions between two accesses of the
    counters, for any interleaving of any number of threads.  A weak exchange
    may fail although the counter has the expected value. *)

From stdpp Require Import relations.
From S2P Require Import Prelude HpackBuffer.

#[local] Open Scope Z_scope.

Module ServerBuffer.
Import HpackBuffer.

(** ** The counters *)

Record budget := {
  buffer_capacity_bytes : Z;
  buffer_bytes : Z;
  peak_buffer_bytes : Z;
  rejected_buffer_allocations : Z;
}.

#[export] Instance eta_budget : Eta budget :=
  fun b => Build_budget (buffer_capacity_bytes b) (buffer_bytes b) (peak_buffer_bytes b)
    (rejected_buffer_allocations b).
#[export] Instance set_buffer_bytes : Setter buffer_bytes. Proof. mk_setter. Defined.
#[export] Instance set_peak_buffer_bytes : Setter peak_buffer_bytes. Proof. mk_setter. Defined.
#[export] Instance set_rejected : Setter rejected_buffer_allocations. Proof. mk_setter. Defined.

(** ** One thread alone *)

(** The exchange succeeds in the first round when nobody interferes. *)
Definition chttp_server_buffer_peak_update (b : budget) (value : Z) : budget :=
  if peak_buffer_bytes b <? value then b <| peak_buffer_bytes := value |> else b.

(** The test of [buffer_reserve] on the bytes it saw. *)
Definition over_budget (b : budget) (observed size : Z) : bool :=
  (buffer_capacity_bytes b <? observed) || (buffer_capacity_bytes b - observed <? size).

Definition chttp_server_buffer_reserve (b : budget) (size : Z) : budget * bool :=
  if size =? 0 then (b, true)
  else if over_budget b (buffer_bytes b) size then
    (b <| rejected_buffer_allocations := rejected_buffer_allocations b + 1 |>, false)
  else
    let desired := buffer_bytes b + size in
    (chttp_server_buffer_peak_update (b <| buffer_bytes := desired |>) desired, true).

(** The loop that doubles the capacity.  A round doubles [desired], which is
    positive and at most [limit]: 64 rounds reach any [size_t]. *)
Fixpoint grow_desired (fuel : nat) (desired required limit : Z) : option Z :=
  if desired <? required then
    match fuel with
    | O => None
    | S fuel =>
      if limit - desired <? desired then Some limit
      else grow_desired fuel (desired * 2) required limit
    end
  else Some desired.

Definition CHTTP_SERVER_BUFFER_START : Z := 4096.

Inductive grow_plan_result :=
  | PlanDone (status : salts_status)
  | PlanGrow (desired : Z).

(** [buffer_grow] up to the reservation; [None] is out of fuel. *)
Definition grow_plan (capacity required limit preserve_size : Z) : option grow_plan_result :=
  if capacity <? preserve_size then Some (PlanDone SALTS_EINVAL)
  else if limit <? required then Some (PlanDone SALTS_EMSGSIZE)
  else if required <=? capacity then Some (PlanDone SALTS_OK)
  else
    let desired := if capacity =? 0 then CHTTP_SERVER_BUFFER_START else capacity in
    let desired := if limit <? desired then limit else desired in
    match grow_desired 64 desired required limit with
    | None => None
    | Some desired => Some (PlanGrow (if desired <? required then required else desired))
    end.

(** The counters, the status and [*capacity]. *)
Definition chttp_server_buffer_grow {alloc : Allocator} (b : budget)
    (capacity required limit preserve_size : Z) : option (budget * salts_status * Z) :=
  match grow_plan capacity required limit preserve_size with
  | None => None
  | Some (PlanDone status) => Some (b, status, capacity)
  | Some (PlanGrow desired) =>
    let delta := desired - capacity in
    let '(b, reserved) := chttp_server_buffer_reserve b delta in
    if negb reserved then Some (b, SALTS_ENOBUFS, capacity)
    else if negb (malloc_ok desired) then
      Some (b <| buffer_bytes := buffer_bytes b - delta |>, SALTS_ENOMEM, capacity)
    else Some (b, SALTS_OK, desired)
  end.

(** [capacity] is [None] when the buffer is [NULL]. *)
Definition chttp_server_buffer_release (b : budget) (capacity : option Z) : budget :=
  match capacity with
  | None => b
  | Some capacity =>
    if negb (capacity =? 0) then b <| buffer_bytes := buffer_bytes b - capacity |> else b
  end.

(** ** Many threads *)

(** Where a thread is in a call of [buffer_grow] for its buffer [i]. *)
Inductive program_point :=
  | Outside
  | Reserving (i : nat) (desired delta observed : Z)
  | PeakLoading (i : nat) (desired delta value : Z)
  | PeakUpdating (i : nat) (desired delta value peak : Z)
  | Reallocating (i : nat) (desired delta : Z).

(** The capacities of the buffers of the thread, 0 for [NULL]. *)
Record thread := {
  th_buffers : list Z;
  th_point : program_point;
}.

(** What a step does: a call, or the outcome of an operation that the thread
    does not decide. *)
Inductive label :=
  | CallGrow (i : nat) (required limit preserve_size : Z)
  | CallRelease (i : nat)
  | Exchange (spurious : bool)
  | Load
  | Realloc (ok : bool).

Definition at_point (t : thread) (p : program_point) : thread :=
  {| th_buffers := th_buffers t; th_point := p |}.

Definition thread_step (l : label) (b : budget) (t : thread) : option (budget * thread) :=
  match th_point t, l with
  | Outside, CallGrow i required limit preserve_size =>
    match th_buffers t !! i with
    | None => None
    | Some capacity =>
      match grow_plan capacity required limit preserve_size with
      | None => None
      | Some (PlanDone _) => Some (b, t)
      | Some (PlanGrow desired) =>
        Some (b, at_point t (Reserving i desired (desired - capacity) (buffer_bytes b)))
      end
    end
  | Outside, CallRelease i =>
    match th_buffers t !! i with
    | None => None
    | Some capacity =>
      Some (b <| buffer_bytes := buffer_bytes b - capacity |>,
            {| th_buffers := <[i := 0]> (th_buffers t); th_point := Outside |})
    end
  | Reserving i desired delta observed, Exchange spurious =>
    if over_budget b observed delta then
      Some (b <| rejected_buffer_allocations := rejected_buffer_allocations b + 1 |>,
            at_point t Outside)
    else if negb spurious && (buffer_bytes b =? observed) then
      Some (b <| buffer_bytes := observed + delta |>,
            at_point t (PeakLoading i desired delta (observed + delta)))
    else Some (b, at_point t (Reserving i desired delta (buffer_bytes b)))
  | PeakLoading i desired delta value, Load =>
    Some (b, at_point t (PeakUpdating i desired delta value (peak_buffer_bytes b)))
  | PeakUpdating i desired delta value peak, Exchange spurious =>
    if negb (peak <? value) then Some (b, at_point t (Reallocating i desired delta))
    else if negb spurious && (peak_buffer_bytes b =? peak) then
      Some (b <| peak_buffer_bytes := value |>, at_point t (Reallocating i desired delta))
    else Some (b, at_point t (PeakUpdating i desired delta value (peak_buffer_bytes b)))
  | Reallocating i desired delta, Realloc ok =>
    if ok then
      Some (b, {| th_buffers := <[i := desired]> (th_buffers t); th_point := Outside |})
    else Some (b <| buffer_bytes := buffer_bytes b - delta |>, at_point t Outside)
  | _, _ => None
  end.

(** A step of the system is a step of one thread. *)
Inductive system_step : budget * list thread -> budget * list thread -> Prop :=
  | system_thread k l b threads t b' t' :
    threads !! k = Some t -> thread_step l b t = Some (b', t') ->
    system_step (b, threads) (b', <[k := t']> threads).

(** The server starts with no bytes, its threads with [NULL] buffers. *)
Definition idle_thread (count : nat) : thread :=
  {| th_buffers := replicate count 0; th_point := Outside |}.

Definition budget_start (capacity : Z) : budget :=
  {| buffer_capacity_bytes := capacity; buffer_bytes := 0; peak_buffer_bytes := 0;
     rejected_buffer_allocations := 0 |}.

Definition reachable (capacity : Z) (counts : list nat) : budget * list thread -> Prop :=
  rtc system_step (budget_start capacity, map idle_thread counts).

(** ** The plan of a growth *)

Lemma grow_desired_spec fuel : forall desired required limit,
  0 < desired <= limit -> required <= limit -> limit < desired * 2 ^ Z.of_nat fuel ->
  exists d, grow_desired fuel desired required limit = Some d /\ required <= d <= limit /\ desired <= d.
Proof.
  induction fuel as [|fuel IH]; intros desired required limit Hd Hr Hf; cbn [grow_desired].
  { change (2 ^ Z.of_nat 0) with 1 in Hf. lia. }
  destruct (Z.ltb_spec desired required); [|exists desired; split_and!; [done|lia..]].
  destruct (Z.ltb_spec (limit - desired) desired); [exists limit; split_and!; [done|lia..]|].
  rewrite Nat2Z.inj_succ, Z.pow_succ_r in Hf by lia.
  destruct (IH (desired * 2) required limit) as (d & -> & ? & ?); [lia..|].
  exists d. split_and!; [done|lia..].
Qed.

(** A plan always ends; it grows to a capacity that is enough and within the
    limit. *)
Lemma grow_plan_spec capacity required limit preserve :
  0 <= capacity -> limit <= SIZE_MAX ->
  exists r, grow_plan capacity required limit preserve = Some r /\
  match r with
  | PlanGrow desired => preserve <= capacity < desired /\ required <= desired <= limit
  | PlanDone SALTS_OK => preserve <= capacity /\ required <= capacity
  | PlanDone SALTS_EINVAL => capacity < preserve
  | PlanDone SALTS_EMSGSIZE => limit < required
  | PlanDone _ => False
  end.
Proof.
  intros Hc Hl. unfold grow_plan, CHTTP_SERVER_BUFFER_START.
  split_if; [by eexists; split; [done|]|]. split_if; [by eexists; split; [done|]|].
  split_if; [eexists; split; [done|]; cbn; lia|].
  set (start := if limit <? _ then _ else _).
  assert (0 < start <= limit) as Hs by (subst start; repeat split_if; lia).
  assert (capacity <= start \/ capacity = 0) as Hs' by (subst start; repeat split_if; lia).
  clearbody start.
  destruct (grow_desired_spec 64 start required limit) as (d & -> & ? & ?); [lia|lia|zlia|].
  eexists; split; [done|]. cbn. split_if; lia.
Qed.

(** ** One thread alone: what a growth does *)

Record budget_ok (b : budget) : Prop := {
  bo_bytes : 0 <= buffer_bytes b <= buffer_capacity_bytes b;
  bo_peak : buffer_bytes b <= peak_buffer_bytes b <= buffer_capacity_bytes b;
}.

(** The outcome of a growth, branch by branch. *)
Record grow_outcome {alloc : Allocator} (b : budget) (capacity required limit preserve : Z)
    (b' : budget) (status : salts_status) (capacity' : Z) : Prop := {
  go_budget : budget_ok b' /\ buffer_capacity_bytes b' = buffer_capacity_bytes b;
  go_bytes : buffer_bytes b' = buffer_bytes b + (capacity' - capacity);
  go_ok : status = SALTS_OK -> required <= capacity' /\ capacity <= capacity' /\
            (capacity' = capacity \/ capacity' <= limit);
  go_failed : status <> SALTS_OK -> capacity' = capacity;
  go_status :
    match status with
    | SALTS_OK => True
    | SALTS_EINVAL => capacity < preserve
    | SALTS_EMSGSIZE => limit < required
    | SALTS_ENOBUFS =>
      rejected_buffer_allocations b' = rejected_buffer_allocations b + 1 /\
      exists desired, capacity < desired <= limit /\
        buffer_capacity_bytes b < buffer_bytes b + (desired - capacity)
    | SALTS_ENOMEM => exists desired, capacity < desired <= limit /\ malloc_ok desired = false
    | _ => False
    end;
}.

Lemma peak_update_ok b size :
  budget_ok b -> 0 < size -> buffer_bytes b + size <= buffer_capacity_bytes b ->
  budget_ok (chttp_server_buffer_peak_update (b <| buffer_bytes := buffer_bytes b + size |>)
    (buffer_bytes b + size)).
Proof. intros [? ?] ? ?. unfold chttp_server_buffer_peak_update. split_if; split; cbn in *; lia. Qed.

Lemma peak_update_rest b value :
  buffer_bytes (chttp_server_buffer_peak_update b value) = buffer_bytes b /\
  buffer_capacity_bytes (chttp_server_buffer_peak_update b value) = buffer_capacity_bytes b.
Proof. unfold chttp_server_buffer_peak_update. by split_if. Qed.

(** Growing a buffer ends with the capacity asked for, within the limit and
    accounted in the budget, or leaves the buffer and the bytes accounted as they
    were, with EINVAL, EMSGSIZE, ENOBUFS or ENOMEM exactly when the arguments, the
    limit, the budget or the allocator say so. *)
Theorem buffer_grow_correct {alloc : Allocator} b capacity required limit preserve :
  budget_ok b -> 0 <= capacity -> limit <= SIZE_MAX ->
  exists b' status capacity',
    chttp_server_buffer_grow b capacity required limit preserve = Some (b', status, capacity') /\
    grow_outcome b capacity required limit preserve b' status capacity'.
Proof.
  intros Hb Hc Hl. unfold chttp_server_buffer_grow.
  destruct (grow_plan_spec capacity required limit preserve Hc Hl) as ([status|desired] & Hp & Hr).
  { rewrite Hp. exists b, status, capacity. split; [done|].
    split; [done|lia| |done|by destruct status]. intros ->. lia. }
  rewrite Hp. destruct Hr as [[? ?] ?]. cbv zeta. unfold chttp_server_buffer_reserve, over_budget.
  replace (desired - capacity =? 0) with false by lia.
  destruct (_ || _) eqn:Hover; cbn [negb].
  { eexists _, _, _. split; [done|]. destruct Hb. split; [done|cbn; lia|done|done|].
    split; [done|]. exists desired. bool_prop. destruct Hover; bool_prop; lia. }
  bool_prop. pose proof (peak_update_ok b (desired - capacity) Hb ltac:(lia) ltac:(lia)) as Hok.
  pose proof (peak_update_rest (b <| buffer_bytes := buffer_bytes b + (desired - capacity) |>)
    (buffer_bytes b + (desired - capacity))) as [Hb1 Hb2].
  set (b1 := chttp_server_buffer_peak_update _ _) in *. clearbody b1. cbn in Hb1, Hb2.
  destruct (malloc_ok desired) eqn:Hm; cbn [negb]; eexists _, _, _; (split; [done|]).
  - split; [done|lia|lia|done|done].
  - destruct Hok, Hb. split; [split; [split|]; cbn; lia|cbn; lia|done|done|]. exists desired. split; [lia|done].
Qed.

(** ** Many threads: the budget is never exceeded *)

Definition zsum (l : list Z) : Z := foldr Z.add 0 l.

Lemma zsum_insert l i x y : l !! i = Some x -> zsum (<[i := y]> l) = zsum l - x + y.
Proof.
  unfold zsum. revert i. induction l as [|z l IH]; intros [|i] E; try done.
  - injection E as ->. cbn. lia.
  - change (<[S i := y]> (z :: l)) with (z :: <[i := y]> l). cbn [foldr]. rewrite (IH i E). lia.
Qed.

Lemma zsum_nonneg l : Forall (fun x => 0 <= x) l -> 0 <= zsum l.
Proof. unfold zsum. induction 1; cbn; lia. Qed.

(** The bytes that a thread has reserved but not yet put in a buffer. *)
Definition in_flight (t : thread) : Z :=
  match th_point t with
  | Outside | Reserving _ _ _ _ => 0
  | PeakLoading _ _ delta _ | PeakUpdating _ _ delta _ _ | Reallocating _ _ delta => delta
  end.

Definition owned (t : thread) : Z := zsum (th_buffers t).
Definition charged (t : thread) : Z := owned t + in_flight t.

(** The value that a thread has yet to make the peak. *)
Definition pending_peak (t : thread) : Z :=
  match th_point t with
  | PeakLoading _ _ _ value | PeakUpdating _ _ _ value _ => value
  | _ => 0
  end.

(** A growth in progress is for a buffer of the thread. *)
Definition growing (t : thread) (i : nat) (desired delta : Z) : Prop :=
  th_buffers t !! i = Some (desired - delta) /\ 0 < delta.

Record thread_ok (b : budget) (t : thread) : Prop := {
  to_buffers : Forall (fun c => 0 <= c) (th_buffers t);
  to_point :
    match th_point t with
    | Outside => True
    | Reserving i desired delta _ | Reallocating i desired delta
    | PeakLoading i desired delta _ => growing t i desired delta
    | PeakUpdating i desired delta _ peak => growing t i desired delta /\ peak <= peak_buffer_bytes b
    end;
  to_pending : 0 <= pending_peak t <= buffer_capacity_bytes b;
}.

Record system_ok (b : budget) (threads : list thread) : Prop := {
  so_threads : Forall (thread_ok b) threads;
  so_bytes : buffer_bytes b = zsum (map charged threads);
  so_budget : 0 <= buffer_bytes b <= buffer_capacity_bytes b;
  so_peak : 0 <= peak_buffer_bytes b <= buffer_capacity_bytes b;
  so_peaked : forall M, peak_buffer_bytes b <= M -> Forall (fun t => pending_peak t <= M) threads ->
    buffer_bytes b <= M;
}.

(** What a step of a thread owes to the rest of the system. *)
Record step_ok (b : budget) (t : thread) (b' : budget) (t' : thread) : Prop := {
  st_thread : thread_ok b' t';
  st_bytes : buffer_bytes b' - buffer_bytes b = charged t' - charged t;
  st_budget : buffer_bytes b' <= buffer_capacity_bytes b;
  st_capacity : buffer_capacity_bytes b' = buffer_capacity_bytes b;
  st_peak : peak_buffer_bytes b <= peak_buffer_bytes b' <= buffer_capacity_bytes b;
  st_peaked : buffer_bytes b' <= pending_peak t' \/
    buffer_bytes b' <= buffer_bytes b /\ (pending_peak t <= pending_peak t' \/ pending_peak t <= peak_buffer_bytes b');
}.

Lemma grow_plan_grows capacity required limit preserve desired :
  grow_plan capacity required limit preserve = Some (PlanGrow desired) -> capacity < desired.
Proof.
  unfold grow_plan. intros H. do 3 (split_if_in H; [done|]). cbv zeta in H.
  destruct (grow_desired _ _ _ _); [|done]. simplify_eq. split_if; lia.
Qed.

Lemma owned_at t i desired delta :
  Forall (fun c => 0 <= c) (th_buffers t) -> growing t i desired delta -> 0 <= desired.
Proof. intros Hb [Hi ?]. pose proof (proj1 (Forall_lookup _ _) Hb _ _ Hi). cbn in *. lia. Qed.

(** A finished case of [thread_step_ok]. *)
Ltac step_case Hs :=
  injection Hs as <- <-; split; [split|..];
  unfold charged, owned, in_flight, pending_peak, growing in *; cbn -[zsum] in *;
  rewrite ?Z.add_0_r; try done; try lia; auto.

(** Every step keeps its part. *)
Lemma thread_step_ok l b t b' t' :
  thread_ok b t -> 0 <= buffer_bytes b <= buffer_capacity_bytes b ->
  0 <= peak_buffer_bytes b <= buffer_capacity_bytes b ->
  thread_step l b t = Some (b', t') -> step_ok b t b' t'.
Proof.
  intros [Hb Hp Hv] Hbytes Hpeak Hs. unfold thread_step, at_point in Hs.
  destruct t as [buffers point]. unfold pending_peak in Hv. cbn [th_buffers th_point] in *.
  destruct point as [|i desired delta observed|i desired delta value|i desired delta value peak|i desired delta], l;
    try done.
  - destruct (buffers !! i) as [capacity|] eqn:Hi; [|done].
    destruct (grow_plan _ _ _ _) as [[|desired]|] eqn:Hg; [step_case Hs| |done].
    apply grow_plan_grows in Hg. step_case Hs. split; [|lia]. rewrite Hi. f_equal. lia.
  - destruct (buffers !! i) as [capacity|] eqn:Hi; [|done].
    pose proof (proj1 (Forall_lookup _ _) Hb _ _ Hi) as Hc. cbn in Hc.
    step_case Hs; [by apply Forall_insert|].
    rewrite (zsum_insert _ _ _ 0 Hi). lia.
  - destruct (over_budget b observed delta) eqn:Ho; [step_case Hs|].
    unfold over_budget in Ho. bool_prop.
    destruct (negb spurious && (buffer_bytes b =? observed)) eqn:Hx; [|step_case Hs].
    bool_prop. subst observed. destruct Hp. step_case Hs.
  - step_case Hs.
  - destruct Hp as [[Hi Hd] Hk]. split_if_in Hs; [step_case Hs|].
    destruct (negb spurious && (peak_buffer_bytes b =? peak)) eqn:Hx;
      bool_prop; step_case Hs.
  - destruct ok; [|step_case Hs]. pose proof (owned_at (Build_thread buffers Outside) i desired delta Hb Hp) as Hc.
    step_case Hs; [by apply Forall_insert|]. destruct Hp as [Hi Hd].
    rewrite (zsum_insert _ _ _ desired Hi). lia.
Qed.

Lemma map_insert_sum (f : thread -> Z) threads k t t' :
  threads !! k = Some t -> zsum (map f (<[k := t']> threads)) = zsum (map f threads) - f t + f t'.
Proof.
  intros Hk. change (map f) with (fmap f : list thread -> list Z). rewrite list_fmap_insert.
  apply zsum_insert. by rewrite list_lookup_fmap, Hk.
Qed.

(** Another thread is not disturbed. *)
Lemma thread_ok_frame b b' t :
  buffer_capacity_bytes b' = buffer_capacity_bytes b -> peak_buffer_bytes b <= peak_buffer_bytes b' ->
  thread_ok b t -> thread_ok b' t.
Proof.
  intros Hc Hp [? Hpt ?]. split; [done| |by rewrite Hc]. destruct (th_point t); [done..| |done].
  destruct Hpt. split; [done|lia].
Qed.

Lemma charged_nonneg b t : thread_ok b t -> 0 <= owned t <= charged t.
Proof.
  intros [Hb Hp _]. apply zsum_nonneg in Hb. unfold charged, owned, in_flight, growing in *.
  destruct (th_point t); lia.
Qed.

Lemma charged_total b threads :
  Forall (thread_ok b) threads -> 0 <= zsum (map owned threads) <= zsum (map charged threads).
Proof.
  unfold zsum. induction 1 as [|t threads Ht _ IH]; [done|]. cbn [map foldr].
  pose proof (charged_nonneg b t Ht). lia.
Qed.

Lemma system_step_ok b threads b' threads' :
  system_ok b threads -> system_step (b, threads) (b', threads') ->
  system_ok b' threads' /\ buffer_capacity_bytes b' = buffer_capacity_bytes b.
Proof.
  intros [Ht Hb Hg Hp Hm] Hs. inversion Hs as [k l b0 ts0 t b1 t' Hk Hstep]; subst.
  assert (thread_ok b t) as Hto by exact (proj1 (Forall_lookup _ _) Ht _ _ Hk).
  destruct (thread_step_ok _ _ _ _ _ Hto Hg Hp Hstep) as [H1 H2 H3 H4 H5 H6].
  assert (Forall (thread_ok b') (<[k := t']> threads)) as Ht'.
  { apply Forall_insert; [|done]. eapply Forall_impl; [exact Ht|]. intros u.
    apply thread_ok_frame; [done|lia]. }
  split; [|done]. pose proof (map_insert_sum charged threads k t t' Hk) as Hsum.
  split; [done|lia| |lia|].
  { pose proof (charged_total _ _ Ht'). lia. }
  intros M HM HF. pose proof (proj1 (Forall_lookup _ _) HF k t' ltac:(eapply list_lookup_insert_eq, lookup_lt_Some; exact Hk)) as Hk'.
  cbn in Hk'. destruct H6 as [?|[? Hpend]]; [lia|]. etransitivity; [exact H|]. apply Hm; [lia|].
  apply Forall_lookup. intros j u Hj. destruct (decide (j = k)) as [->|Hne].
  - simplify_eq. destruct Hpend; lia.
  - apply (proj1 (Forall_lookup _ _) HF j u). by rewrite list_lookup_insert_ne.
Qed.

Lemma system_start_ok capacity counts :
  0 <= capacity -> system_ok (budget_start capacity) (map idle_thread counts).
Proof.
  intros Hc.
  assert (forall n, zsum (replicate n 0) = 0) as Hr by (unfold zsum; induction n; [done|]; cbn [replicate foldr]; lia).
  split; [| |cbn; lia|cbn; lia|intros M ? _; cbn in *; lia].
  - apply Forall_fmap, Forall_forall. intros n _. split; [|done|cbn; lia].
    apply Forall_replicate. lia.
  - induction counts as [|n counts IH]; [done|]. cbn [map zsum foldr]. fold (zsum (map charged (map idle_thread counts))).
    rewrite <- IH. unfold charged, owned, in_flight. cbn [idle_thread th_buffers th_point]. rewrite Hr. done.
Qed.

Lemma reachable_ok capacity counts b threads :
  0 <= capacity -> reachable capacity counts (b, threads) ->
  system_ok b threads /\ buffer_capacity_bytes b = capacity.
Proof.
  intros Hc Hr.
  apply (rtc_ind_r (R := system_step) (fun s => system_ok s.1 s.2 /\ buffer_capacity_bytes s.1 = capacity)
    (budget_start capacity, map idle_thread counts)) with (z := (b, threads)); [| |exact Hr].
  - split; [by apply system_start_ok|done].
  - intros [b1 t1] [b2 t2] _ Hs [IH <-]. by apply (system_step_ok _ _ _ _ IH).
Qed.

(** C16: However the atomic steps of growing and releasing buffers interleave
    among any number of threads, with exchanges that fail spuriously and
    allocations that fail, the bytes accounted are exactly the capacities held
    plus the growths in flight, never exceed the budget, and once no call is in
    progress they equal the capacities held and the recorded peak is at least as
    high. *)
Theorem buffer_budget_safe capacity counts b threads :
  0 <= capacity -> reachable capacity counts (b, threads) ->
  0 <= zsum (map owned threads) <= buffer_bytes b /\ buffer_bytes b <= capacity /\
  buffer_bytes b = zsum (map charged threads) /\ peak_buffer_bytes b <= capacity /\
  (Forall (fun t => th_point t = Outside) threads ->
     buffer_bytes b = zsum (map owned threads) /\ buffer_bytes b <= peak_buffer_bytes b).
Proof.
  intros Hc Hr. destruct (reachable_ok _ _ _ _ Hc Hr) as [[Ht Hb Hg Hp Hm] <-].
  pose proof (charged_total _ _ Ht). split_and!; [lia..|]. intros Hout. split.
  - rewrite Hb. f_equal. apply map_ext_Forall. eapply Forall_impl; [exact Hout|].
    intros t Ho. unfold charged, in_flight. rewrite Ho. lia.
  - apply Hm; [lia|]. eapply Forall_impl; [exact Hout|]. intros t Ho. cbn in *. unfold pending_peak. rewrite Ho. lia.
Qed.

(** ** The function is a run of the steps *)

Section Alone.
Context {alloc : Allocator} (t : thread) (i : nat) (capacity : Z).
Hypothesis outside : th_point t = Outside.
Hypothesis buffer_i : th_buffers t !! i = Some capacity.

Lemma system_alone l b u b' u' :
  thread_step l b u = Some (b', u') -> system_step (b, [u]) (b', [u']).
Proof. intros H. apply (system_thread 0 l b [u] u b' u'); done. Qed.

(** The function is a run of the steps of a thread that is not interrupted. *)
Lemma grow_alone b required limit preserve b' status capacity' :
  chttp_server_buffer_grow b capacity required limit preserve = Some (b', status, capacity') ->
  rtc system_step (b, [t])
    (b', [{| th_buffers := <[i := capacity']> (th_buffers t); th_point := Outside |}]).
Proof.
  unfold chttp_server_buffer_grow.
  destruct (grow_plan capacity required limit preserve) as [[st|desired]|] eqn:Hp; [| |done].
  { intros [= <- <- <-]. rewrite list_insert_id by done. destruct t as [bs p]. cbn in outside |- *. subst p. done. }
  pose proof (grow_plan_grows _ _ _ _ _ Hp) as Hd. cbv zeta. unfold chttp_server_buffer_reserve.
  replace (desired - capacity =? 0) with false by lia.
  set (delta := desired - capacity) in *.
  assert (system_step (b, [t]) (b, [at_point t (Reserving i desired delta (buffer_bytes b))])) as S1.
  { apply (system_alone (CallGrow i required limit preserve)). unfold thread_step. by rewrite outside, buffer_i, Hp. }
  unfold over_budget. destruct (_ || _) eqn:Ho; cbn [negb].
  { intros [= <- <- <-]. eapply rtc_l; [exact S1|]. apply rtc_once.
    apply (system_alone (Exchange false)). unfold thread_step. cbn [th_point at_point].
    unfold over_budget. rewrite Ho, list_insert_id by done. done. }
  set (b1 := b <| buffer_bytes := buffer_bytes b + delta |>).
  set (value := buffer_bytes b + delta).
  set (b2 := chttp_server_buffer_peak_update b1 value).
  assert (rtc system_step (b, [t]) (b2, [at_point t (Reallocating i desired delta)])) as S2.
  { eapply rtc_l; [exact S1|].
    eapply rtc_l. { apply (system_alone (Exchange false)). unfold thread_step. cbn [th_point at_point].
      unfold over_budget. rewrite Ho, Z.eqb_refl. cbn [negb andb]. reflexivity. }
    eapply rtc_l. { apply (system_alone Load). reflexivity. }
    apply rtc_once, (system_alone (Exchange false)). unfold thread_step. cbn [th_point at_point].
    unfold b2, chttp_server_buffer_peak_update. fold value.
    change (b <| buffer_bytes := value |>) with b1.
    rewrite Z.eqb_refl. by destruct (peak_buffer_bytes b1 <? value). }
  destruct (malloc_ok desired); cbn [negb]; intros [= <- <- <-];
    (eapply rtc_r; [exact S2|]).
  - by apply (system_alone (Realloc true)).
  - rewrite list_insert_id by done. by apply (system_alone (Realloc false)).
Qed.
End Alone.

(** ** Examples *)

(** A schedule: which thread does what. *)
Fixpoint system_run (schedule : list (nat * label)) (s : budget * list thread) :
    option (budget * list thread) :=
  match schedule with
  | [] => Some s
  | (k, l) :: schedule =>
    match s.2 !! k with
    | None => None
    | Some t =>
      match thread_step l s.1 t with
      | None => None
      | Some (b, t) => system_run schedule (b, <[k := t]> s.2)
      end
    end
  end.

Lemma system_run_steps schedule : forall s s',
  system_run schedule s = Some s' -> rtc system_step s s'.
Proof.
  induction schedule as [|[k l] schedule IH]; intros [b threads] s' H; cbn in H; [by simplify_eq|].
  destruct (threads !! k) as [t|] eqn:Hk; [|done].
  destruct (thread_step l b t) as [[b' t']|] eqn:Ht; [|done].
  eapply rtc_l; [by eapply system_thread|]. by apply IH.
Qed.

(** Two threads grow a buffer to 5000 bytes within 16384: both see 0 bytes, the
    second exchange fails and is tried again, the peak is updated out of
    order, the second [realloc] fails and the first buffer is released. *)
Definition race : list (nat * label) :=
  let grow := CallGrow 0 5000 8192 0 in
  [(0, grow); (1, grow); (0, Exchange false); (1, Exchange false); (1, Exchange true);
   (1, Exchange false); (1, Load); (0, Load); (1, Exchange false); (0, Exchange false);
   (0, Exchange false); (0, Realloc true); (1, Realloc false)]%nat.

Definition race_end : budget * list thread :=
  Eval vm_compute in
    match system_run race (budget_start 16384, map idle_thread [1%nat; 1%nat]) with
    | Some s => s
    | None => (budget_start 0, [])
    end.

Lemma buffer_budget_safe_witness :
  0 <= zsum (map owned race_end.2) <= buffer_bytes race_end.1 /\ buffer_bytes race_end.1 <= 16384 /\
  buffer_bytes race_end.1 = zsum (map charged race_end.2) /\ peak_buffer_bytes race_end.1 <= 16384 /\
  (Forall (fun t => th_point t = Outside) race_end.2 ->
     buffer_bytes race_end.1 = zsum (map owned race_end.2) /\
     buffer_bytes race_end.1 <= peak_buffer_bytes race_end.1).
Proof.
  apply (buffer_budget_safe 16384 [1%nat; 1%nat]); [lia|].
  apply (system_run_steps race). vm_compute. reflexivity.
Defined.

(** The accounts after the race. *)
Example race_result :
  buffer_bytes race_end.1 = 8192 /\ peak_buffer_bytes race_end.1 = 16384 /\
  map th_buffers race_end.2 = [[8192]; [0]].
Proof. vm_compute. done. Qed.

Lemma buffer_grow_correct_witness :
  exists b' status capacity',
    chttp_server_buffer_grow (alloc := unlimited_allocator) (budget_start 10000) 4096 5000 9000 100 =
      Some (b', status, capacity') /\
    grow_outcome (alloc := unlimited_allocator) (budget_start 10000) 4096 5000 9000 100 b' status capacity'.
Proof.
  apply (buffer_grow_correct (alloc := unlimited_allocator)); [|lia|vm_compute; discriminate].
  split; cbn; lia.
Defined.

End ServerBuffer.
