(* ===== verification/Http1ParserLimits.v ===== *)
(** * HTTP/1 request parser: headers and limits

    What the callbacks of the parser keep while the tokenizer drives them: the
    headers of the request are the ones that were reported, in order, however
    they were cut; the storage, the counts and the body stay within the limits;
    and a call of [execute] returns. *)

From S2P Require Import Prelude HpackBuffer Router Http1Parser Http1ParserTheorems ServerBuffer.

Module Http1ParserLimits.
Import HpackBuffer Router Http1Parser Http1ParserTheorems ServerBuffer.

(** ** Pointers into the header storage *)

(** A pointer to a string that ends inside the storage. *)
Definition ptr_ok (storage : list Z) (p : text_ptr) : Prop :=
  match p with
  | InStorage offset => 0 <= offset /\ 0 ∈ zdrop offset storage
  | Elsewhere _ => True
  end.

Lemma zdrop_app_le {A} n (l k : list A) : n <= zlen l -> zdrop n (l ++ k) = zdrop n l ++ k.
Proof. intros H. unfold zdrop, zlen in *. apply drop_app_le. lia. Qed.

Lemma zdrop_inside {A} n (l : list A) x : x ∈ zdrop n l -> n <= zlen l.
Proof.
  intros H. unfold zdrop, zlen in *. apply list_elem_of_lookup_1 in H as [i Hi].
  rewrite lookup_drop in Hi. apply lookup_lt_Some in Hi. lia.
Qed.

Lemma up_to_nul_app s t : 0 ∈ s -> up_to_nul (s ++ t) = up_to_nul s.
Proof.
  induction s as [|c s IH]; [by rewrite elem_of_nil|]. rewrite elem_of_cons. intros H.
  cbn. destruct (Z.eqb_spec c 0); [done|]. f_equal. apply IH. destruct H; [congruence|done].
Qed.

Lemma up_to_nul_stops s t : 0 ∉ s -> up_to_nul (s ++ 0 :: t) = s.
Proof.
  induction s as [|c s IH]; cbn; [done|]. rewrite not_elem_of_cons. intros [Hc Hs].
  destruct (Z.eqb_spec c 0); [congruence|]. by rewrite IH.
Qed.

Lemma ptr_ok_app storage data p : ptr_ok storage p -> ptr_ok (storage ++ data) p.
Proof.
  destruct p; [|done]. intros [? H]. split; [done|].
  rewrite zdrop_app_le by (by eapply zdrop_inside). apply elem_of_app. by left.
Qed.

Lemma text_at_app storage data p : ptr_ok storage p -> text_at (storage ++ data) p = text_at storage p.
Proof.
  destruct p; [|done]. intros [? H]. cbn.
  rewrite zdrop_app_le by (by eapply zdrop_inside). by apply up_to_nul_app.
Qed.

(** ** The events of the tokenizer *)

Section Limits.
Context {alloc : Allocator} {uri : UriParser} {U : Type} (cbs : parser_callbacks U).
Implicit Types p : chttp_server_parser_impl U.

(** What llhttp promises of an event in a state of the parser: a message begins
    after the body of the last one has ended, and a length is not negative. *)
Definition event_ok p (event : ll_event) : Prop :=
  match event with
  | EvMessageBegin => ps_body_sink p = None
  | EvHeadersComplete head =>
    match lh_content_length head with Some n => 0 <= n | None => True end
  | EvChunkHeader n => 0 <= n
  | _ => True
  end.

(** The callbacks of a list of events; one that does not continue is the last. *)
Fixpoint run_events p (events : list ll_event) : chttp_server_parser_impl U * cb_result :=
  match events with
  | [] => (p, CbOk)
  | event :: events =>
    let '(p, r) := parser_callback cbs p event in
    if cb_continues r then run_events p events else (p, r)
  end.

Fixpoint events_ok p (events : list ll_event) : Prop :=
  match events with
  | [] => True
  | event :: events => event_ok p event /\ events_ok (parser_callback cbs p event).1 events
  end.

(** ** The headers of the request *)

Definition header_events (h : list (list Z) * list (list Z)) : list ll_event :=
  map EvHeaderField h.1 ++ [EvHeaderFieldComplete] ++ map EvHeaderValue h.2 ++ [EvHeaderValueComplete].

Definition header_text (h : list (list Z) * list (list Z)) : list Z * list Z :=
  (concat h.1, concat h.2).

(** Bytes of the storage that a header takes. *)
Definition header_bytes (h : list (list Z) * list (list Z)) : Z :=
  zlen (concat h.1) + 1 + (zlen (concat h.2) + 1).

Definition headers_bytes (hs : list (list (list Z) * list (list Z))) : Z :=
  foldr (fun h n => header_bytes h + n) 0 hs.

(** A header as llhttp reports it: its name in one piece or more, no NUL. *)
Definition header_wf (h : list (list Z) * list (list Z)) : Prop :=
  h.1 <> [] /\ (0 ∉ concat h.1) /\ 0 ∉ concat h.2.

Definition header_ok (storage : list Z) (h : text_ptr * text_ptr) : Prop :=
  ptr_ok storage h.1 /\ ptr_ok storage h.2.

Definition not_trailers p : Prop :=
  wire_phase (ps_wire p) <> CHTTP_SERVER_WIRE_TRAILERS /\
  wire_phase (ps_wire p) <> CHTTP_SERVER_WIRE_TRAILERS_PENDING.

(** Between two headers. *)
Record between p : Prop := {
  bt_field : ps_field_open p = false;
  bt_value : ps_value_open p = false;
  bt_trailers : not_trailers p;
  bt_count : zlen (rv_headers (ps_request p)) <= max_header_count (ps_limits p);
  bt_storage : zlen (ps_header_storage p) <= ps_header_storage_capacity p;
  bt_ptrs : Forall (header_ok (ps_header_storage p)) (rv_headers (ps_request p));
}.

Definition fits p (data : list Z) : bool :=
  zlen (ps_header_storage p) + zlen data <=? ps_header_storage_capacity p.

Definition append p (data : list Z) : chttp_server_parser_impl U :=
  p <| ps_header_storage := ps_header_storage p ++ data |>.

Lemma storage_append_spec p data :
  chttp_server_parser_storage_append p data = if fits p data then Some (append p data) else None.
Proof.
  unfold chttp_server_parser_storage_append, fits. pose proof (zlen_nonneg data).
  destruct (_ || _) eqn:E; bool_prop.
  - replace (_ <=? _) with false; [done|]. symmetry. apply Z.leb_gt. destruct E; bool_prop; lia.
  - by replace (_ <=? _) with true by lia.
Qed.

(** The parser failed with a status. *)
Definition failed_with (status : Z) (pr : chttp_server_parser_impl U * cb_result) : Prop :=
  pr.2 = CbUser /\ ps_failure_http_status pr.1 = status.

(** A callback that appends its piece to the storage. *)
Lemma pieces_run (event : list Z -> ll_event) (Q : chttp_server_parser_impl U -> Prop) :
  (forall p piece, Q p ->
     parser_callback cbs p (event piece) =
       if fits p piece then (append p piece, CbOk) else chttp_server_parser_fail p 431) ->
  (forall p data, Q p -> Q (append p data)) ->
  forall pieces p rest, Q p -> zlen (ps_header_storage p) <= ps_header_storage_capacity p ->
  if fits p (concat pieces)
  then run_events p (map event pieces ++ rest) = run_events (append p (concat pieces)) rest
  else failed_with 431 (run_events p (map event pieces ++ rest)).
Proof.
  intros Hstep Hkeep. induction pieces as [|piece pieces IH]; intros p rest HQ Hc; cbn [concat map app].
  { unfold fits, append. change (zlen []) with 0. rewrite Z.add_0_r, (proj2 (Z.leb_le _ _) Hc), app_nil_r.
    by destruct p. }
  cbn [run_events]. rewrite Hstep by done. unfold fits at 1. rewrite zlen_app.
  pose proof (zlen_nonneg (concat pieces)).
  destruct (fits p piece) eqn:Hfit; unfold fits in Hfit; bool_prop; cycle 1.
  { cbn. replace (_ <=? _) with false by lia. done. }
  cbn [cb_continues]. specialize (IH (append p piece) rest (Hkeep _ _ HQ)).
  assert (fits (append p piece) (concat pieces) =
    (zlen (ps_header_storage p) + (zlen piece + zlen (concat pieces)) <=? ps_header_storage_capacity p)) as Hfx.
  { unfold fits, append. cbn. rewrite zlen_app. f_equal. lia. }
  rewrite Hfx in IH. destruct (_ <=? _) eqn:E.
  - rewrite IH by (cbn; rewrite zlen_app; lia). f_equal. unfold append. cbn. by rewrite <- app_assoc.
  - apply IH. cbn. rewrite zlen_app. lia.
Qed.

(** The name: the first piece opens the field. *)
Definition open_field p : chttp_server_parser_impl U :=
  p <| ps_field_offset := zlen (ps_header_storage p) |> <| ps_field_open := true |>.

Definition in_field p : Prop :=
  ps_field_open p = true /\ ps_value_open p = false /\ not_trailers p.

Lemma field_step p piece :
  in_field p ->
  parser_callback cbs p (EvHeaderField piece) =
    if fits p piece then (append p piece, CbOk) else chttp_server_parser_fail p 431.
Proof.
  intros (Hf & Hv & Ht & Ht'). cbn [parser_callback]. unfold chttp_server_parser_on_header_field.
  rewrite !bool_decide_eq_false_2 by done. cbn [orb]. rewrite Hf, Hv. cbn [negb]. cbv zeta.
  rewrite storage_append_spec. by destruct (fits p piece).
Qed.

Lemma field_opens p piece :
  ps_field_open p = false -> ps_value_open p = false -> not_trailers p ->
  parser_callback cbs p (EvHeaderField piece) = parser_callback cbs (open_field p) (EvHeaderField piece).
Proof.
  intros Hf Hv [Ht Ht']. cbn [parser_callback]. unfold chttp_server_parser_on_header_field.
  rewrite !bool_decide_eq_false_2 by done. cbn [orb].
  change (ps_value_open (open_field p)) with (ps_value_open p). rewrite Hf, Hv. reflexivity.
Qed.

Lemma value_step p piece :
  ps_value_open p = true ->
  parser_callback cbs p (EvHeaderValue piece) =
    if fits p piece then (append p piece, CbOk) else chttp_server_parser_fail p 431.
Proof.
  intros Hv. cbn [parser_callback]. unfold chttp_server_parser_on_header_value.
  rewrite Hv. cbn [negb]. rewrite storage_append_spec. by destruct (fits p piece).
Qed.

(** A name in pieces. *)
Lemma field_run p pieces rest :
  between p -> pieces <> [] ->
  if fits p (concat pieces)
  then run_events p (map EvHeaderField pieces ++ rest) = run_events (append (open_field p) (concat pieces)) rest
  else failed_with 431 (run_events p (map EvHeaderField pieces ++ rest)).
Proof.
  intros [Hf Hv Ht _ Hc _] Hn. destruct pieces as [|piece pieces]; [done|].
  assert (run_events p (map EvHeaderField (piece :: pieces) ++ rest) =
    run_events (open_field p) (map EvHeaderField (piece :: pieces) ++ rest)) as ->.
  { cbn [map app run_events]. by rewrite field_opens. }
  change (fits p (concat (piece :: pieces))) with (fits (open_field p) (concat (piece :: pieces))).
  apply (pieces_run EvHeaderField in_field field_step); [by intros q d Hq|by repeat split; try apply Ht|done].
Qed.

(** The terminators. *)
Lemma field_ends p rest :
  ps_field_open p = true ->
  if (zlen (rv_headers (ps_request p)) <? max_header_count (ps_limits p)) && fits p [0]
  then run_events p (EvHeaderFieldComplete :: rest) =
    run_events ((append p [0]) <| ps_field_open := false |>
      <| ps_value_offset := zlen (ps_header_storage p) + 1 |> <| ps_value_open := true |>) rest
  else failed_with 431 (run_events p (EvHeaderFieldComplete :: rest)).
Proof.
  intros Hf. cbn [run_events parser_callback]. unfold chttp_server_parser_on_header_field_complete.
  rewrite Hf. cbn [negb orb]. rewrite Z.leb_antisym.
  destruct (zlen (rv_headers (ps_request p)) <? max_header_count (ps_limits p)); [|done].
  cbn [negb andb]. rewrite storage_append_spec. destruct (fits p [0]); [|done].
  cbn [cb_continues]. f_equal. unfold append. cbn. by rewrite zlen_app.
Qed.

Definition add_header p : chttp_server_parser_impl U :=
  (upd_request (append p [0]) (fun r =>
     r <| rv_headers := rv_headers r ++ [(InStorage (ps_field_offset p), InStorage (ps_value_offset p))] |>))
    <| ps_value_open := false |>.

Lemma value_ends p rest :
  ps_value_open p = true ->
  if (zlen (rv_headers (ps_request p)) <? max_header_count (ps_limits p)) && fits p [0]
  then run_events p (EvHeaderValueComplete :: rest) = run_events (add_header p) rest
  else failed_with 431 (run_events p (EvHeaderValueComplete :: rest)).
Proof.
  intros Hf. cbn [run_events parser_callback]. unfold chttp_server_parser_on_header_value_complete.
  rewrite Hf. cbn [negb orb]. rewrite Z.leb_antisym.
  destruct (zlen (rv_headers (ps_request p)) <? max_header_count (ps_limits p)); [|done].
  cbn [negb andb]. rewrite storage_append_spec. by destruct (fits p [0]).
Qed.

(** The parser after a whole header. *)
Definition with_header p (h : list (list Z) * list (list Z)) : chttp_server_parser_impl U :=
  let storage := ps_header_storage p in
  let named := storage ++ concat h.1 ++ [0] in
  (upd_request p (fun r => r <| rv_headers := rv_headers r ++ [(InStorage (zlen storage), InStorage (zlen named))] |>))
    <| ps_header_storage := named ++ concat h.2 ++ [0] |>
    <| ps_field_offset := zlen storage |> <| ps_value_offset := zlen named |>.

Lemma with_header_steps p name value :
  between p ->
  let named := append (open_field p) name in
  add_header (append ((append named [0]) <| ps_field_open := false |>
    <| ps_value_offset := zlen (ps_header_storage named) + 1 |> <| ps_value_open := true |>) value) =
  with_header p ([name], [value]).
Proof.
  intros [Hf Hv _ _ _ _]. destruct p as [[] ? ? storage ? ? ? ? ? ? ? ? ? ? ? ? ? ? ? ?]. cbn in Hf, Hv. subst.
  unfold add_header, with_header, append, open_field, upd_request. cbn. rewrite !app_nil_r.
  autorewrite with zlen. rewrite <- !app_assoc.
  replace (zlen storage + (zlen name + (1 + 0))) with (zlen storage + zlen name + 1) by lia. reflexivity.
Qed.

Definition header_fits p (h : list (list Z) * list (list Z)) : bool :=
  (zlen (rv_headers (ps_request p)) <? max_header_count (ps_limits p)) &&
  (zlen (ps_header_storage p) + header_bytes h <=? ps_header_storage_capacity p).

Lemma header_run p h rest :
  between p -> header_wf h ->
  if header_fits p h
  then run_events p (header_events h ++ rest) = run_events (with_header p h) rest
  else failed_with 431 (run_events p (header_events h ++ rest)).
Proof.
  intros Hb (Hn & _ & _). unfold header_events, header_fits, header_bytes. rewrite <- !app_assoc. cbn [app].
  pose proof (zlen_nonneg (concat h.1)). pose proof (zlen_nonneg (concat h.2)).
  pose proof (field_run p h.1 (EvHeaderFieldComplete :: map EvHeaderValue h.2 ++ EvHeaderValueComplete :: rest) Hb Hn) as H1.
  destruct (fits p (concat h.1)) eqn:F1; unfold fits in F1; bool_prop; cycle 1.
  { replace (_ && _) with false; [done|]. symmetry. apply andb_false_iff. lia. }
  rewrite H1. clear H1. set (p1 := append (open_field p) (concat h.1)).
  assert (zlen (ps_header_storage p1) = zlen (ps_header_storage p) + zlen (concat h.1)) as L1
    by (unfold p1; cbn; by rewrite zlen_app).
  pose proof (field_ends p1 (map EvHeaderValue h.2 ++ EvHeaderValueComplete :: rest) eq_refl) as H2.
  change (rv_headers (ps_request p1)) with (rv_headers (ps_request p)) in H2.
  change (ps_limits p1) with (ps_limits p) in H2.
  destruct (_ <? _) eqn:Hcount; [|done]. cbn [andb] in *. unfold fits in H2. rewrite L1 in H2. 
  change (zlen [0]) with 1 in H2. change (ps_header_storage_capacity p1) with (ps_header_storage_capacity p) in H2.
  destruct (_ + 1 <=? _) eqn:F2; bool_prop; cycle 1.
  { replace (_ <=? _) with false by lia. exact H2. }
  rewrite H2. clear H2. set (p2 := _ <| ps_value_open := true |>).
  assert (zlen (ps_header_storage p2) = zlen (ps_header_storage p1) + 1) as L2
    by (unfold p2; cbn; by rewrite zlen_app).
  pose proof (pieces_run EvHeaderValue (fun q => ps_value_open q = true) value_step ltac:(done)
    h.2 p2 (EvHeaderValueComplete :: rest) eq_refl) as H3.
  unfold fits in H3. change (ps_header_storage_capacity p2) with (ps_header_storage_capacity p) in H3.
  specialize (H3 ltac:(lia)). destruct (_ <=? ps_header_storage_capacity p) eqn:F3 in H3; bool_prop; cycle 1.
  { replace (_ <=? _) with false by lia. exact H3. }
  rewrite H3. clear H3. set (p3 := append p2 (concat h.2)).
  assert (zlen (ps_header_storage p3) = zlen (ps_header_storage p2) + zlen (concat h.2)) as L3
    by (unfold p3; cbn [append set set_ps_header_storage ps_header_storage]; by rewrite zlen_app).
  pose proof (value_ends p3 rest eq_refl) as H4.
  change (rv_headers (ps_request p3)) with (rv_headers (ps_request p)) in H4.
  change (ps_limits p3) with (ps_limits p) in H4. rewrite (proj2 (Z.ltb_lt _ _) Hcount) in H4.
  cbn [andb] in H4.
  unfold fits in H4. change (zlen [0]) with 1 in H4.
  change (ps_header_storage_capacity p3) with (ps_header_storage_capacity p) in H4.
  replace (zlen (ps_header_storage p) + (zlen (concat h.1) + 1 + (zlen (concat h.2) + 1)))
    with (zlen (ps_header_storage p3) + 1) by lia.
  destruct (_ <=? _); [|exact H4]. rewrite H4. f_equal.
  unfold p3, p2. rewrite <- L1. unfold p1. etransitivity; [exact (with_header_steps p _ _ Hb)|].
  unfold with_header. cbn [concat fst snd]. by rewrite !app_nil_r.
Qed.

Lemma request_headers_fields p p' :
  ps_header_storage p' = ps_header_storage p -> rv_headers (ps_request p') = rv_headers (ps_request p) ->
  request_headers p' = request_headers p.
Proof. unfold request_headers. by intros -> ->. Qed.

(** The new header is the last one, and the others are as they were. *)
Lemma with_header_request p h :
  between p -> header_wf h -> request_headers (with_header p h) = request_headers p ++ [header_text h].
Proof.
  intros [_ _ _ _ _ Hp] (_ & H1 & H2). unfold request_headers, with_header. cbn.
  rewrite map_app. f_equal.
  - apply map_ext_Forall. eapply Forall_impl; [exact Hp|]. intros [a b] [Ha Hb]. cbn in *.
    rewrite <- app_assoc, !text_at_app by done. done.
  - cbn. unfold header_text. f_equal. f_equal.
    + rewrite <- !app_assoc, zdrop_app. by apply up_to_nul_stops.
    + rewrite zdrop_app. by apply up_to_nul_stops.
Qed.

Lemma with_header_between p h :
  between p -> header_wf h -> header_fits p h = true -> between (with_header p h).
Proof.
  intros [Hf Hv Ht Hc Hs Hp] _ Hfit. unfold header_fits, header_bytes in Hfit. bool_prop.
  split; [done|done|done| | |]; unfold with_header; cbn -[zlen].
  - autorewrite with zlen. lia.
  - autorewrite with zlen. lia.
  - apply Forall_app. split.
    + eapply Forall_impl; [exact Hp|]. intros [a b] [Ha Hb]. split; rewrite <- app_assoc; by apply ptr_ok_app.
    + apply Forall_singleton. split; cbn; (split; [autorewrite with zlen; pose proof (zlen_nonneg (concat h.1)); pose proof (zlen_nonneg (ps_header_storage p)); lia|]).
      * rewrite <- !app_assoc, zdrop_app. apply elem_of_app. right. apply elem_of_cons. by left.
      * rewrite zdrop_app. apply elem_of_app. right. apply elem_of_cons. by left.
Qed.

Definition headers_fit p (hs : list (list (list Z) * list (list Z))) : bool :=
  (zlen (rv_headers (ps_request p)) + zlen hs <=? max_header_count (ps_limits p)) &&
  (zlen (ps_header_storage p) + headers_bytes hs <=? ps_header_storage_capacity p).

(** When the tokenizer reports headers whose names and values come in any number
    of pieces, the request gets exactly these headers, in order and whole, after
    the ones it had, which are unchanged; and the parser fails with 431 exactly
    when they are more than the count or the storage allows. *)
Theorem headers_collected hs p :
  between p -> Forall header_wf hs ->
  let '(p', r) := run_events p (concat (map header_events hs)) in
  if headers_fit p hs
  then r = CbOk /\ between p' /\ request_headers p' = request_headers p ++ map header_text hs
  else r = CbUser /\ ps_failure_http_status p' = 431.
Proof.
  intros Hb Hw. revert p Hb. induction Hw as [|h hs Hh Hw IH]; intros p Hb.
  { cbn. unfold headers_fit. pose proof Hb as [_ _ _ Hc Hs _]. cbn.
    replace (_ && _) with true; [by rewrite app_nil_r|]. symmetry. apply andb_true_iff. rewrite zlen_nil. lia. }
  cbn [map concat]. pose proof (header_run p h (concat (map header_events hs)) Hb Hh) as Hrun.
  assert (0 <= headers_bytes hs) as Hn.
  { unfold headers_bytes, header_bytes. clear. induction hs as [|h hs IH]; cbn; [done|].
    pose proof (zlen_nonneg (concat h.1)). pose proof (zlen_nonneg (concat h.2)). lia. }
  destruct (header_fits p h) eqn:Hfit; cycle 1.
  { destruct (run_events p _) as [p' r]. destruct Hrun as [Hr Hs]. cbn in Hr, Hs.
    replace (headers_fit p (h :: hs)) with false; [done|]. symmetry. unfold headers_fit, header_fits in *.
    rewrite zlen_cons. cbn [headers_bytes foldr]. fold (headers_bytes hs). pose proof (zlen_nonneg hs).
    bool_prop. apply andb_false_iff. destruct Hfit; bool_prop; lia. }
  rewrite Hrun. specialize (IH _ (with_header_between _ _ Hb Hh Hfit)).
  destruct (run_events (with_header p h) _) as [p' r].
  rewrite with_header_request in IH by done. rewrite <- app_assoc in IH.
  replace (headers_fit p (h :: hs)) with (headers_fit (with_header p h) hs); [done|].
  unfold headers_fit, with_header. change (headers_bytes (h :: hs)) with (header_bytes h + headers_bytes hs).
  cbn -[zlen headers_bytes header_bytes]. unfold header_bytes. autorewrite with zlen.
  f_equal; apply Bool.eq_true_iff_eq; rewrite !Z.leb_le; lia.
Qed.

End Limits.

End Http1ParserLimits.
