(* ===== verification/Http1ParserSafe.v ===== *)
(** * HTTP/1 request parser: safety

    The invariant of the parser: every counter and buffer within its limit,
    every header a string inside the storage, the body as long as it is said
    to be.  Every callback keeps it, and a call of
    [chttp_server_parser_execute_consumed] returns with it, for any input and
    any application. *)

From S2P Require Import Prelude HpackBuffer Router Http1Parser Http1ParserTheorems Http1ParserLimits.
From S2P Require Import ServerBuffer.

Module Http1ParserSafe.
Import HpackBuffer Router Http1Parser Http1ParserTheorems Http1ParserLimits ServerBuffer.

Create HintDb parser.

(** ** The wire *)

Record wire_ok (l : wire_limits) (w : wire) : Prop := {
  wo_start : 0 <= start_line_wire_bytes w <= max_start_line_wire_bytes l;
  wo_header : 0 <= header_wire_bytes w <= max_header_bytes l;
  wo_line : 0 <= wire_line_bytes w;
  wo_chunk_line : wire_phase w = CHTTP_SERVER_WIRE_CHUNK_LINE -> wire_line_bytes w <= max_header_bytes l;
  wo_remaining : 0 <= chunk_body_remaining w;
  wo_chunk : wire_phase w = CHTTP_SERVER_WIRE_CHUNK_BODY -> 0 < chunk_body_remaining w;
  wo_end : wire_phase w = CHTTP_SERVER_WIRE_CHUNK_BODY_END -> 0 <= chunk_body_end_bytes w < 2;
}.

Record limits_ok (l : wire_limits) : Prop := {
  lo_start : 0 <= max_start_line_wire_bytes l;
  lo_header : 0 <= max_header_bytes l;
}.

(** The body of a known length is complete, but not its message. *)
Definition body_done (w : wire) : Prop :=
  wire_phase w = CHTTP_SERVER_WIRE_FIXED_BODY /\ chunk_body_remaining w = 0.

(** The result of a scan of [n] bytes with [index] behind. *)
Definition scan_ok (l : wire_limits) (index n : Z) (r : wire * scan_result) : Prop :=
  wire_ok l r.1 /\ match r.2 with ScanOk size => index + 1 <= size <= index + n | ScanFail _ => True end.

(** A new state of the wire, field by field. *)
Ltac wire_solve :=
  split; unfold set, set_start_line_wire_bytes, set_header_wire_bytes, set_wire_line_bytes,
    set_chunk_body_remaining, set_chunk_body_end_bytes, set_wire_previous_was_cr, set_wire_phase in *;
  cbn in *; try discriminate; try lia; try (intros; first [discriminate|congruence|lia]); auto.

Section Wire.
Context (l : wire_limits) (Hl : limits_ok l).

Lemma scan_start_byte_ok w byte w' :
  wire_ok l w -> in_head w -> scan_start_byte l w byte = inl w' -> wire_ok l w'.
Proof.
  intros [] Hh Hs. unfold scan_start_byte in Hs. split_if_in Hs; [done|]. injection Hs as <-.
  destruct Hl. destruct w; unfold in_head in Hh; cbn in *.
  repeat case_match; destruct Hh as [Hh|[Hh|Hh]]; subst; wire_solve.
Qed.

Lemma scan_line_byte_ok w byte pending w' b :
  wire_ok l w -> header_wire_bytes w < max_header_bytes l ->
  pending = CHTTP_SERVER_WIRE_HEADERS_PENDING \/ pending = CHTTP_SERVER_WIRE_TRAILERS_PENDING ->
  wire_phase w = CHTTP_SERVER_WIRE_HEADERS \/ wire_phase w = CHTTP_SERVER_WIRE_TRAILERS ->
  scan_line_byte w byte pending = (w', b) -> wire_ok l w' /\ (b = false -> wire_phase w' = wire_phase w).
Proof.
  intros [] Hb Hp Hph Hs. unfold scan_line_byte in Hs. destruct w; cbn in *.
  repeat case_match; simplify_eq; (split; [|done]); destruct Hp, Hph; subst; wire_solve.
Qed.

Lemma head_bytes_ok data : forall w index,
  wire_ok l w -> in_head w -> data <> [] -> scan_ok l index (zlen data) (head_bytes l w data index).
Proof.
  induction data as [|byte data IH]; intros w index Hw Hh Hd; [done|]. rewrite zlen_cons. cbn [head_bytes].
  pose proof (head_byte_phase l w byte Hh) as Hph. pose proof (zlen_nonneg data).
  assert (match head_byte l w byte with ByteMore w' | ByteEnd w' => wire_ok l w' | ByteFail w' _ => w' = w end) as Hok.
  { unfold head_byte. destruct (in_start_line w) eqn:Hs.
    { destruct (scan_start_byte l w byte) eqn:E; [|done]. by eapply scan_start_byte_ok. }
    split_if; [done|]. destruct (scan_line_byte w byte _) as [w' b] eqn:E.
    unfold in_start_line in Hs. bool_prop. apply bool_decide_eq_false in H0, H1.
    eapply scan_line_byte_ok in E as [E _]; [by destruct b|done|lia|by left|]. left.
    by destruct Hh as [?|[?|?]]. }
  destruct (head_byte l w byte) as [w'|w'|w' st]; cbn.
  - destruct data as [|b data]; [cbn; split; [done|cbn; lia]|].
    destruct (IH w' (index + 1) Hok Hph ltac:(done)) as [H1 H2]. split; [done|].
    destruct (head_bytes l w' (b :: data) (index + 1)) as [w2 [n|]]; cbn in *; lia.
  - split; [done|cbn; lia].
  - subst w'. by split.
Qed.

Lemma scan_line_ok pending status data : forall w index,
  pending = CHTTP_SERVER_WIRE_CHUNK_LINE_PENDING -> wire_phase w = CHTTP_SERVER_WIRE_CHUNK_LINE ->
  wire_ok l w -> data <> [] -> scan_ok l index (zlen data) (scan_line_loop l pending status w data index).
Proof.
  induction data as [|byte data IH]; intros w index Hp Hph Hw Hd; [done|]. rewrite zlen_cons.
  cbn [scan_line_loop]. pose proof (zlen_nonneg data). split_if; [by split|].
  assert (wire_ok l (w <| wire_line_bytes := wire_line_bytes w + 1 |>)) as Hw'
    by (destruct Hw, w; cbn in *; wire_solve).
  cbv zeta. split_if.
  { split; [|cbn; lia]. destruct Hw', w; cbn in *. subst. wire_solve. }
  destruct data as [|b data].
  { cbn. split; [destruct Hw', w; cbn in *; wire_solve|cbn; lia]. }
  destruct (IH (w <| wire_line_bytes := wire_line_bytes w + 1 |> <| wire_previous_was_cr := byte =? CR |>) (index + 1))
    as [H1 H2]; [done|by destruct w|destruct Hw', w; cbn in *; wire_solve|done|]. split; [done|].
  destruct (scan_line_loop _ _ _ _ _ _) as [w2 [n|]]; cbn in *; lia.
Qed.

Lemma scan_trailers_ok data : forall w index,
  wire_phase w = CHTTP_SERVER_WIRE_TRAILERS -> wire_ok l w -> data <> [] ->
  scan_ok l index (zlen data) (scan_trailers_loop l w data index).
Proof.
  induction data as [|byte data IH]; intros w index Hph Hw Hd; [done|]. rewrite zlen_cons.
  cbn [scan_trailers_loop]. pose proof (zlen_nonneg data). split_if; [by split|].
  destruct (scan_line_byte w byte _) as [w' b] eqn:E.
  apply scan_line_byte_ok in E as [Hw' Hb]; [|done|lia|by right|by right].
  destruct b; [split; [done|cbn; lia]|]. specialize (Hb eq_refl).
  destruct data as [|b data]; [cbn; split; [done|cbn; lia]|].
  destruct (IH w' (index + 1)) as [H1 H2]; [congruence|done|done|]. split; [done|].
  destruct (scan_trailers_loop _ _ _ _) as [w2 [n|]]; cbn in *; lia.
Qed.

(** A round makes progress unless a body is complete. *)
Lemma next_segment_ok {vstr : VstrSearch} {law : LawfulVstr vstr} w data :
  wire_ok l w -> ~ body_done w -> data <> [] ->
  exists r, next_segment l w data = Some r /\ scan_ok l 0 (zlen data) r.
Proof.
  intros Hw Hd Hn. unfold next_segment.
  assert (0 < zlen data) as Hz by (destruct data; [done|rewrite zlen_cons; pose proof (zlen_nonneg data); lia]).
  destruct (wire_phase w) eqn:Hph; try (eexists; split; [done|by split]).
  1-3: unfold chttp_server_parser_scan_head; rewrite scan_head_reference by done;
    eexists; split; [done|]; apply head_bytes_ok; [done| |done]; unfold in_head; tauto.
  - eexists; split; [done|]. assert (chunk_body_remaining w <> 0) by (intros ?; apply Hd; by split).
    destruct Hw, w; cbn in *. subst. cbv zeta. rewrite bool_decide_eq_false_2, andb_false_r by done.
    split_if; split; cbn; (lia || wire_solve).
  - eexists; split; [done|]. by apply scan_line_ok.
  - eexists; split; [done|]. destruct Hw, w; cbn in *. subst. cbv zeta. rewrite bool_decide_eq_true_2, andb_true_r by done.
    specialize (wo_chunk0 eq_refl). repeat split_if; split; cbn in *; (lia || wire_solve).
  - eexists; split; [done|]. destruct Hw, w; cbn in *. subst. cbv zeta.
    specialize (wo_end0 eq_refl). destruct Hl. repeat split_if; split; cbn in *; (lia || wire_solve).
  - eexists; split; [done|]. by apply scan_trailers_ok.
Qed.

End Wire.

(** ** The parser *)

(** What the parser needs of the growth of its body buffer: the room asked for,
    or the old buffer. *)
Class LawfulBuffers {U : Type} (cbs : parser_callbacks U) : Prop :=
  grow_lawful : forall f u capacity required limit used u' status capacity',
    buffer_grow U cbs = Some f -> f u capacity required limit used = (u', status, capacity') ->
    (status = SALTS_OK -> required <= capacity') /\ (status <> SALTS_OK -> capacity' = capacity).

Section Parser.
Context {alloc : Allocator} {uri : UriParser} {U : Type} (cbs : parser_callbacks U).
Context {buffers : LawfulBuffers cbs}.
Implicit Types p : chttp_server_parser_impl U.

(** The limits the parser was made with. *)
Context (L : parser_limits).

Definition body_capacity p : Z := default 0 (ps_body_storage_capacity p).

Record parser_limits_ok (l : parser_limits) : Prop := {
  pl_target : 0 < max_target_bytes l;
  pl_count : 0 < max_header_count l;
  pl_header : 0 < pl_max_header_bytes l;
  pl_body : 0 < max_body_bytes l;
  pl_same : l = L;
}.

(** The parts of the parser with an invariant of their own. *)
Record headers_ok p : Prop := {
  ho_count : zlen (rv_headers (ps_request p)) <= max_header_count (ps_limits p);
  ho_storage : zlen (ps_header_storage p) <= ps_header_storage_capacity p;
  ho_headers : Forall (header_ok (ps_header_storage p)) (rv_headers (ps_request p));
  ho_field : ps_field_open p = true ->
    ps_value_open p = false /\ 0 <= ps_field_offset p <= zlen (ps_header_storage p);
  ho_value : ps_value_open p = true ->
    ptr_ok (ps_header_storage p) (InStorage (ps_field_offset p)) /\
    0 <= ps_value_offset p <= zlen (ps_header_storage p);
}.

Record body_ok p : Prop := {
  by_size : 0 <= rv_body_size (ps_request p) <= max_body_bytes (ps_limits p);
  by_buffer : rv_body_streamed (ps_request p) = false ->
    zlen (rv_body (ps_request p)) = rv_body_size (ps_request p) /\
    rv_body_size (ps_request p) <= body_capacity p;
  by_sink : ps_body_sink p <> None -> rv_body_streamed (ps_request p) = true;
}.

Record parser_ok p : Prop := {
  po_limits : parser_limits_ok (ps_limits p);
  po_target : zlen (ps_target_storage p) <= max_target_bytes (ps_limits p);
  po_headers : headers_ok p;
  po_body : body_ok p;
  po_wire : wire_ok (parser_wire_limits p) (ps_wire p);
}.

(** Two states that the invariant does not tell apart. *)
Definition same_checked p p' : Prop :=
  ps_limits p' = ps_limits p /\ ps_target_storage p' = ps_target_storage p /\
  ps_header_storage p' = ps_header_storage p /\
  ps_header_storage_capacity p' = ps_header_storage_capacity p /\
  ps_field_open p' = ps_field_open p /\ ps_value_open p' = ps_value_open p /\
  ps_field_offset p' = ps_field_offset p /\ ps_value_offset p' = ps_value_offset p /\
  rv_headers (ps_request p') = rv_headers (ps_request p) /\
  rv_body (ps_request p') = rv_body (ps_request p) /\
  rv_body_size (ps_request p') = rv_body_size (ps_request p) /\
  rv_body_streamed (ps_request p') = rv_body_streamed (ps_request p) /\
  ps_body_storage_capacity p' = ps_body_storage_capacity p /\
  (ps_body_sink p' = ps_body_sink p \/ ps_body_sink p' = None) /\ ps_wire p' = ps_wire p.

Lemma parser_ok_same p p' : same_checked p p' -> parser_ok p -> parser_ok p'.
Proof.
  unfold same_checked. intros (E1 & E2 & E3 & E4 & E5 & E6 & E7 & E8 & E9 & E10 & E11 & E12 & E13 & E14 & E15)
    [Hl Ht [] [] Hw].
  split; [|by rewrite E1, E2|split|split|]; unfold body_capacity, parser_wire_limits in *;
    rewrite ?E1, ?E2, ?E3, ?E4, ?E5, ?E6, ?E7, ?E8, ?E9, ?E10, ?E11, ?E12, ?E13, ?E15; auto.
  destruct E14 as [-> | ->]; [done|by intros []].
Qed.

(** Goals [same_checked] on updates of other fields. *)
Ltac same := unfold same_checked; repeat split; try reflexivity; auto.

Lemma close_body_same p status : same_checked p (chttp_server_parser_close_body cbs p status).
Proof. unfold chttp_server_parser_close_body. destruct (ps_body_sink p); [destruct (on_body_close U cbs)|]; same. Qed.

Lemma close_body_sink p status : ps_body_sink (chttp_server_parser_close_body cbs p status) = None.
Proof. unfold chttp_server_parser_close_body. destruct (ps_body_sink p) eqn:E; [by destruct (on_body_close U cbs)|done]. Qed.

Lemma fail_ok p status : parser_ok p -> parser_ok (chttp_server_parser_fail p status).1.
Proof. apply parser_ok_same. same. Qed.

Lemma callback_fail_ok p status : parser_ok p -> parser_ok (chttp_server_parser_callback_fail p status).1.
Proof. apply parser_ok_same. same. Qed.

Hint Resolve fail_ok callback_fail_ok : parser.

Lemma reset_message_ok p :
  parser_limits_ok (ps_limits p) -> 0 <= ps_header_storage_capacity p ->
  wire_ok (parser_wire_limits p) (ps_wire p) -> ps_body_sink p = None ->
  parser_ok (chttp_server_parser_reset_message cbs p).
Proof.
  intros Hl Hc Hw Hs. unfold chttp_server_parser_reset_message.
  assert (parser_ok (p <| ps_body_storage_capacity := None |> <| ps_request := request_zero |>
    <| ps_target_storage := [] |> <| ps_header_storage := [] |>
    <| ps_field_offset := 0 |> <| ps_value_offset := 0 |>
    <| ps_field_open := false |> <| ps_value_open := false |>)) as H.
  { destruct Hl. split; [by split|cbn; rewrite zlen_nil; lia
      |split; cbn; rewrite ?zlen_nil; try done; try lia; apply Forall_nil_2
      |split; cbn; [lia|done|by rewrite Hs]|exact Hw]. }
  revert H. apply parser_ok_same. destruct (ps_body_storage_capacity p) eqn:E; [destruct (buffer_release U cbs)|]; same; exact E.
Qed.

(** *** Callbacks *)

Lemma storage_append_ok p data p' :
  chttp_server_parser_storage_append p data = Some p' ->
  p' = append p data /\ zlen (ps_header_storage p') <= ps_header_storage_capacity p'.
Proof.
  rewrite storage_append_spec. destruct (fits p data) eqn:E; [|done]. intros [= <-]. split; [done|].
  unfold fits in E. bool_prop. unfold append. cbn. rewrite zlen_app. lia.
Qed.

Lemma header_ok_app storage data headers :
  Forall (header_ok storage) headers -> Forall (header_ok (storage ++ data)) headers.
Proof. intros H. eapply Forall_impl; [exact H|]. intros h [? ?]. split; by apply ptr_ok_app. Qed.

Lemma append_ok p data :
  parser_ok p -> zlen (ps_header_storage p) + zlen data <= ps_header_storage_capacity p ->
  parser_ok (append p data).
Proof.
  intros [Hl Ht [] Hb Hw] Hfit. pose proof (zlen_nonneg data). unfold append.
  split; [done|done|split|by destruct Hb|done]; cbn; rewrite ?zlen_app; auto.
  - by apply header_ok_app.
  - intros Hf. destruct (ho_field0 Hf). split; [done|lia].
  - intros Hv. destruct (ho_value0 Hv) as [Hptr ?]. split; [exact (ptr_ok_app _ data _ Hptr)|lia].
Qed.

Lemma append_fits_ok p data :
  parser_ok p -> fits p data = true -> parser_ok (append p data).
Proof. intros Hp Hf. unfold fits in Hf. bool_prop. by apply append_ok. Qed.

Hint Resolve append_fits_ok : parser.

Lemma on_url_ok p at_ : parser_ok p -> parser_ok (chttp_server_parser_on_url p at_).1.
Proof.
  intros Hp. unfold chttp_server_parser_on_url. split_if; [auto with parser|].
  destruct Hp as [? ? [] [] ?]. split; [done| |by split|by split|done]. cbn. rewrite zlen_app. lia.
Qed.

Lemma on_url_complete_ok p : parser_ok p -> parser_ok (chttp_server_parser_on_url_complete p).1.
Proof.
  intros Hp. unfold chttp_server_parser_on_url_complete. split_if; [auto with parser|].
  revert Hp. apply parser_ok_same. same.
Qed.

Lemma open_field_ok p : ps_value_open p = false -> parser_ok p -> parser_ok (open_field p).
Proof.
  intros Hv [? ? [] [] ?]. split; [done|done|split|by split|done]; cbn; auto; [|by rewrite Hv].
  intros _. pose proof (zlen_nonneg (ps_header_storage p)). split; [done|lia].
Qed.

Lemma on_header_field_ok p at_ : parser_ok p -> parser_ok (chttp_server_parser_on_header_field p at_).1.
Proof.
  intros Hp. unfold chttp_server_parser_on_header_field. split_if; [auto with parser|].
  split_if; [auto with parser|]. fold (open_field p).
  assert (parser_ok (if negb (ps_field_open p) then open_field p else p)) as Hq
    by (split_if; [by apply open_field_ok|done]).
  cbv zeta. set (q := if negb _ then _ else _) in *. clearbody q. rewrite storage_append_spec.
  destruct (fits q at_) eqn:E; cbn [fst]; auto with parser.
Qed.

Lemma on_header_field_complete_ok p :
  parser_ok p -> parser_ok (chttp_server_parser_on_header_field_complete p).1.
Proof.
  intros Hp. unfold chttp_server_parser_on_header_field_complete. split_if; [auto with parser|].
  rewrite storage_append_spec. destruct (fits p [0]) eqn:E; [|auto with parser].
  destruct (append_fits_ok p [0] Hp E) as [? ? [] [] ?]. destruct Hp as [_ _ [_ _ _ Hf _] _ _].
  specialize (Hf ltac:(done)) as [Hv Hf].
  split; [done|done|split; cbn; auto|by split|done]; [done|]. intros _. split; cycle 1.
  { pose proof (zlen_nonneg (ps_header_storage p ++ [0])). lia. }
  split; [lia|]. rewrite zdrop_app_le by lia. apply elem_of_app. right. apply elem_of_cons. by left.
Qed.

Lemma on_header_value_ok p at_ : parser_ok p -> parser_ok (chttp_server_parser_on_header_value p at_).1.
Proof.
  intros Hp. unfold chttp_server_parser_on_header_value. split_if; [auto with parser|].
  rewrite storage_append_spec. destruct (fits p at_) eqn:E; cbn [fst]; auto with parser.
Qed.

Lemma on_header_value_complete_ok p :
  parser_ok p -> parser_ok (chttp_server_parser_on_header_value_complete p).1.
Proof.
  intros Hp. unfold chttp_server_parser_on_header_value_complete. split_if; [auto with parser|].
  rewrite storage_append_spec. destruct (fits p [0]) eqn:E; [|auto with parser].
  destruct (append_fits_ok p [0] Hp E) as [? ? [] [] ?]. destruct Hp as [_ _ [_ _ _ Hf Hv] _ _].
  specialize (Hv ltac:(done)) as [Hv ?].
  split; [done|done|split; cbn; auto|by split|done]; [rewrite zlen_app; change (zlen [_]) with 1; lia| |].
  2: { intros Hopen. destruct (ho_field0 Hopen) as [_ Hr]. split; [done|exact Hr]. }
  apply Forall_app. split; [done|]. apply Forall_singleton. split; [by apply ptr_ok_app|].
  cbn. split; [lia|]. rewrite zdrop_app_le by lia. apply elem_of_app. right. apply elem_of_cons. by left.
Qed.

Lemma with_headers_ok p headers :
  parser_ok p -> Forall (header_ok (ps_header_storage p)) headers ->
  zlen headers <= max_header_count (ps_limits p) ->
  parser_ok (upd_request p (fun r => r <| rv_headers := headers |>)).
Proof.
  intros [? ? [] [] ?] Hh Hc. split; [done|done|by split|by split|done].
Qed.

Lemma with_wire_ok p w :
  parser_ok p -> wire_ok (parser_wire_limits p) w -> parser_ok (p <| ps_wire := w |>).
Proof. intros [? ? [] [] ?] Hw. split; [done|done|by split|by split|done]. Qed.

Lemma replace_host_ok storage headers target headers' :
  Forall (header_ok storage) headers -> replace_host storage headers target = Some headers' ->
  Forall (header_ok storage) headers' /\ zlen headers' = zlen headers.
Proof.
  intros H. revert headers'. induction H as [|h headers [Hn Hv] Ht IH]; intros headers' E; cbn in E; [done|].
  split_if_in E.
  - simplify_eq. split; [|done]. apply Forall_cons. split; [by split|done].
  - destruct (replace_host storage headers target) as [hs|]; [|done]. cbn in E. simplify_eq.
    destruct (IH hs eq_refl) as [? ?]. split; [apply Forall_cons; split; [by split|done]|]. rewrite !zlen_cons. lia.
Qed.

Lemma normalize_target_ok p : parser_ok p -> parser_ok (chttp_server_parser_normalize_target p).1.
Proof.
  intros Hp. unfold chttp_server_parser_normalize_target. split_if; [auto with parser|].
  split_if; [revert Hp; apply parser_ok_same; same|].
  destruct (after_first _ _) as [rest|]; [|auto with parser].
  destruct (break_authority rest) as [authority suffix]. cbv zeta. do 2 (split_if; [auto with parser|]).
  set (q := upd_request p _).
  assert (parser_ok q) as Hq by (revert Hp; apply parser_ok_same; same). clearbody q.
  pose proof Hq as [_ _ [] _ _].
  destruct (replace_host _ _ _) as [headers|] eqn:E.
  { apply replace_host_ok in E as [? ?]; [|done]. apply with_headers_ok; [done|done|lia]. }
  split_if; [auto with parser|]. cbn [fst].
  change (upd_request q _) with (upd_request q (fun r => r <| rv_headers :=
    rv_headers (ps_request q) ++ [(Elsewhere (bytes_of "Host"), Elsewhere authority)] |>)).
  apply with_headers_ok; [done| |rewrite zlen_app; change (zlen [_]) with 1; lia].
  apply Forall_app. split; [done|]. apply Forall_singleton. done.
Qed.

Lemma wire_start_ok l : limits_ok l -> wire_ok l wire_start.
Proof. intros []. by split. Qed.

Lemma body_wire_ok l w head :
  limits_ok l -> wire_ok l w -> match lh_content_length head with Some n => 0 <= n | None => True end ->
  wire_ok l
    (if lh_chunked head then
       w <| wire_line_bytes := 0 |> <| wire_previous_was_cr := false |>
         <| wire_phase := CHTTP_SERVER_WIRE_CHUNK_LINE |>
     else
       match lh_content_length head with
       | Some n =>
         if negb (n =? 0) then
           w <| chunk_body_remaining := n |> <| wire_phase := CHTTP_SERVER_WIRE_FIXED_BODY |>
         else w
       | None => w
       end).
Proof. intros [] [] Hn. destruct w. cbn in *. repeat case_match; bool_prop; wire_solve. Qed.

Lemma parser_wire_limits_ok p : parser_limits_ok (ps_limits p) -> limits_ok (parser_wire_limits p).
Proof. intros []. split; cbn; unfold CHTTP_SERVER_REQUEST_LINE_OVERHEAD_BYTES; lia. Qed.

Lemma headers_open_body_ok p head :
  parser_ok p -> match lh_content_length head with Some n => 0 <= n | None => True end ->
  parser_ok (headers_open_body cbs p head).1.
Proof.
  intros Hp Hn. unfold headers_open_body.
  assert (forall q : chttp_server_parser_impl U * salts_status, parser_ok q.1 -> parser_ok (let '(p, status) := q in
    if negb (bool_decide (status = SALTS_OK)) then chttp_server_parser_callback_fail p status
    else
      let w := ps_wire p in
      let w :=
        if lh_chunked head then
          w <| wire_line_bytes := 0 |> <| wire_previous_was_cr := false |>
            <| wire_phase := CHTTP_SERVER_WIRE_CHUNK_LINE |>
        else
          match lh_content_length head with
          | Some n =>
            if negb (n =? 0) then
              w <| chunk_body_remaining := n |> <| wire_phase := CHTTP_SERVER_WIRE_FIXED_BODY |>
            else w
          | None => w
          end in
      (p <| ps_wire := w |>, if lh_upgrade head then CbOkNoUpgrade else CbOk)).1) as Hrest.
  { intros [q status] Hq. split_if; [auto with parser|]. cbv zeta. cbn [fst]. apply with_wire_ok; [done|].
    pose proof Hq as [Hl _ _ _ Hw]. apply body_wire_ok; [by apply parser_wire_limits_ok|done|done]. }
  apply Hrest. destruct (on_body_open U cbs) as [f|]; [|done].
  destruct (f _ _ _) as [[user status] sink]. cbn [fst].
  split_if; [|revert Hp; apply parser_ok_same; same].
  destruct sink as [sink|]; [|revert Hp; apply parser_ok_same; same].
  destruct Hp as [? ? [] [] ?]. split; [done|done|by split|by split|done].
Qed.

(** The rest of the callback with another user state or other flags. *)
Ltac keep Hp := revert Hp; apply parser_ok_same; same.

Lemma headers_upgrade_ok p head :
  parser_ok p -> match lh_content_length head with Some n => 0 <= n | None => True end ->
  parser_ok (headers_upgrade cbs p head).1.
Proof.
  intros Hp Hn. unfold headers_upgrade. destruct (lh_upgrade head); [|by apply headers_open_body_ok].
  destruct (on_upgrade U cbs) as [f|]; [|by apply headers_open_body_ok]. cbv zeta.
  destruct (f _ _ _) as [[[user status] action] http_status].
  split_if; [apply callback_fail_ok; keep Hp|].
  destruct action; [apply headers_open_body_ok; [keep Hp|done]|keep Hp|apply callback_fail_ok; keep Hp].
Qed.

Lemma headers_continue_ok p head wants :
  parser_ok p -> match lh_content_length head with Some n => 0 <= n | None => True end ->
  parser_ok (headers_continue cbs p head wants).1.
Proof.
  intros Hp Hn. unfold headers_continue. destruct wants; [|by apply headers_upgrade_ok].
  destruct (on_continue U cbs) as [f|]; [|auto with parser]. destruct (f _) as [user status]. cbv zeta.
  split_if; [apply callback_fail_ok; keep Hp|]. apply headers_upgrade_ok; [keep Hp|done].
Qed.

Lemma headers_decide_ok p head wants :
  parser_ok p -> match lh_content_length head with Some n => 0 <= n | None => True end ->
  parser_ok (headers_decide cbs p head wants).1.
Proof.
  intros Hp Hn. unfold headers_decide. destruct (on_headers U cbs) as [f|]; [|by apply headers_continue_ok].
  destruct (f _ _ _) as [[user status] action]. cbv zeta. split_if; [apply callback_fail_ok; keep Hp|].
  destruct action; [apply headers_continue_ok; [keep Hp|done]|keep Hp|apply callback_fail_ok; keep Hp].
Qed.

Lemma on_headers_complete_ok p head :
  parser_ok p -> match lh_content_length head with Some n => 0 <= n | None => True end ->
  parser_ok (chttp_server_parser_on_headers_complete cbs p head).1.
Proof.
  intros Hp Hn. unfold chttp_server_parser_on_headers_complete. split_if; [auto with parser|]. cbv zeta.
  split_if; [apply fail_ok; keep Hp|]. split_if; [apply fail_ok; keep Hp|].
  destruct (chttp_server_parser_validate_headers _ _ _ _) as [wants|status]; [|apply fail_ok; keep Hp].
  set (q := upd_request (upd_request p _) _). assert (parser_ok q) as Hq by keep Hp. clearbody q.
  apply normalize_target_ok in Hq. destruct (chttp_server_parser_normalize_target q) as [q' r]. cbn [fst] in Hq.
  destruct r; try done. split_if; [auto with parser|]. split_if; [apply fail_ok; keep Hq|].
  apply headers_decide_ok; [keep Hq|done].
Qed.

Lemma on_message_complete_ok p keep_alive :
  parser_ok p -> parser_ok (chttp_server_parser_on_message_complete cbs p keep_alive).1.
Proof.
  intros Hp. unfold chttp_server_parser_on_message_complete. cbv zeta.
  set (q := chttp_server_parser_close_body cbs _ _).
  assert (parser_ok q) as Hq.
  { eapply parser_ok_same; [apply close_body_same|]. unfold chttp_server_parser_reset_wire.
    eapply parser_ok_same with (p := p <| ps_wire := wire_start |>); [same|].
    apply with_wire_ok; [done|]. apply wire_start_ok, parser_wire_limits_ok. by destruct Hp. }
  clearbody q. split_if; [done|]. destruct (on_request U cbs _ _ _) as [user result].
  destruct result; [keep Hq|]. split_if; [apply callback_fail_ok; keep Hq|keep Hq].
Qed.

Lemma chunk_wire_ok l w n :
  limits_ok l -> wire_ok l w -> 0 <= n ->
  wire_ok l
    (if n =? 0 then
       w <| chunk_body_remaining := n |> <| header_wire_bytes := 0 |> <| wire_line_bytes := 0 |>
         <| wire_previous_was_cr := false |> <| wire_phase := CHTTP_SERVER_WIRE_TRAILERS |>
     else w <| chunk_body_remaining := n |> <| wire_phase := CHTTP_SERVER_WIRE_CHUNK_BODY |>).
Proof. intros [] [] Hn. destruct w. cbn in *. split_if; wire_solve. Qed.

Lemma on_chunk_header_ok p n :
  parser_ok p -> 0 <= n -> parser_ok (chttp_server_parser_on_chunk_header p n).1.
Proof.
  intros Hp Hn. unfold chttp_server_parser_on_chunk_header. cbv zeta. split_if; [auto with parser|].
  cbn [fst]. apply with_wire_ok; [done|]. apply chunk_wire_ok; [|by destruct Hp|done].
  apply parser_wire_limits_ok. by destruct Hp.
Qed.

(** The body: in the buffer, ... *)
Lemma buffered_ok p (at_ : list Z) user capacity :
  parser_ok p -> rv_body_size (ps_request p) + zlen at_ <= max_body_bytes (ps_limits p) ->
  rv_body_size (ps_request p) + zlen at_ <= capacity ->
  parser_ok (upd_request (upd_request
    (p <| ps_user := user |> <| ps_body_storage_capacity := Some capacity |>)
    (fun r => r <| rv_body := ztake (rv_body_size (ps_request p)) (rv_body r) ++ at_ |>))
    (fun r => r <| rv_body_size := rv_body_size r + zlen at_ |>)).
Proof.
  intros [? ? [] [] ?] Hm Hc. pose proof (zlen_nonneg at_).
  split; [done|done|by split|split; unfold body_capacity; cbn; [lia| |done]|done].
  intros Hs. destruct (by_buffer0 Hs) as [Hz _]. split; [|done]. rewrite zlen_app, zlen_ztake by lia. done.
Qed.

(** ... or handed to a sink. *)
Lemma streamed_ok p user n :
  parser_ok p -> 0 <= n -> rv_body_size (ps_request p) + n <= max_body_bytes (ps_limits p) ->
  n = 0 \/ ps_body_sink p <> None ->
  parser_ok (upd_request (p <| ps_user := user |>) (fun r => r <| rv_body_size := rv_body_size r + n |>)).
Proof.
  intros [? ? [] [] ?] Hn Hm Hs. split; [done|done|by split|split; cbn; [lia| |done]|done].
  destruct Hs as [->|Hs]; [by rewrite Z.add_0_r|]. rewrite by_sink0 by done. done.
Qed.

Lemma not_grown_ok p user :
  parser_ok p -> parser_ok (p <| ps_user := user |>
    <| ps_body_storage_capacity := Some (default 0 (ps_body_storage_capacity p)) |>).
Proof. intros [? ? [] [] ?]. split; [done|done|by split|by split|done]. Qed.

Lemma on_body_ok p at_ : parser_ok p -> parser_ok (chttp_server_parser_on_body cbs p at_).1.
Proof.
  intros Hp. unfold chttp_server_parser_on_body. cbv zeta. split_if; [auto with parser|].
  pose proof (zlen_nonneg at_) as Hz.
  destruct (Z.eqb_spec (zlen at_) 0) as [E|E].
  { rewrite bool_decide_eq_true_2 by done. cbn [negb fst]. rewrite E.
    pose proof (streamed_ok p (ps_user p) 0 Hp ltac:(lia) ltac:(lia) ltac:(by left)) as H1. by destruct p. }
  destruct (ps_body_sink p) as [sink|] eqn:Hsink.
  { destruct (sink_write U cbs _ _ _) as [user status]. split_if; [apply callback_fail_ok; keep Hp|].
    apply streamed_ok; [done|lia|lia|right; by rewrite Hsink]. }
  destruct (buffer_grow U cbs) as [f|] eqn:Hf.
  - set (capacity := match ps_body_storage_capacity p with Some c => c | None => 0 end).
    destruct (f _ _ _ _ _) as [[user status] capacity'] eqn:Hg.
    destruct (grow_lawful _ _ _ _ _ _ _ _ _ Hf Hg) as [Hok Hfail].
    destruct (bool_decide (status = SALTS_OK)) eqn:Hs; [apply bool_decide_eq_true in Hs|apply bool_decide_eq_false in Hs];
      cbn [negb fst].
    + apply buffered_ok; [done|lia|auto].
    + rewrite Hfail by done. apply callback_fail_ok. by apply not_grown_ok.
  - destruct (malloc_ok _) eqn:Hm; rewrite ?bool_decide_eq_true_2, ?bool_decide_eq_false_2 by done; cbn [negb fst].
    + pose proof (buffered_ok p at_ (ps_user p) (rv_body_size (ps_request p) + zlen at_) Hp) as H1.
      by destruct p; apply H1; cbn in *; lia.
    + auto with parser.
Qed.

Lemma user_ok p user : parser_ok p -> parser_ok (p <| ps_user := user |>).
Proof. apply parser_ok_same. same. Qed.

Lemma message_reset_ok p :
  parser_ok p -> ps_body_sink p = None -> parser_ok (chttp_server_parser_reset_message cbs p).
Proof.
  intros [? ? [] ? ?] Hs. pose proof (zlen_nonneg (ps_header_storage p)).
  apply reset_message_ok; [assumption|lia|assumption|assumption].
Qed.

Lemma reset_message_sink p : ps_body_sink (chttp_server_parser_reset_message cbs p) = ps_body_sink p.
Proof.
  unfold chttp_server_parser_reset_message.
  destruct (ps_body_storage_capacity p); [destruct (buffer_release U cbs)|]; reflexivity.
Qed.

Lemma on_message_begin_ok p :
  parser_ok p -> ps_body_sink p = None -> parser_ok (chttp_server_parser_on_message_begin cbs p).1.
Proof.
  intros Hp Hs. apply message_reset_ok in Hp; [|exact Hs].
  unfold chttp_server_parser_on_message_begin. cbv zeta. cbn [fst].
  destruct (on_message_begin U cbs); [apply user_ok|]; exact Hp.
Qed.

(** *** Runs *)

Lemma callback_ok p event :
  parser_ok p -> event_ok p event -> parser_ok (parser_callback cbs p event).1.
Proof.
  intros Hp He. destruct event; cbn [parser_callback event_ok] in *.
  - by apply on_message_begin_ok.
  - by apply on_url_ok.
  - by apply on_url_complete_ok.
  - by apply on_header_field_ok.
  - by apply on_header_field_complete_ok.
  - by apply on_header_value_ok.
  - by apply on_header_value_complete_ok.
  - by apply on_headers_complete_ok.
  - by apply on_body_ok.
  - by apply on_message_complete_ok.
  - by apply on_chunk_header_ok.
Qed.

Lemma run_events_ok events : forall p,
  parser_ok p -> events_ok cbs p events -> parser_ok (run_events cbs p events).1.
Proof.
  induction events as [|event events IH]; intros p Hp He; [done|]. destruct He as [He Hes].
  cbn [run_events]. apply callback_ok with (event := event) in Hp; [|done].
  destruct (parser_callback cbs p event) as [q r]. destruct (cb_continues r); [by apply IH|done].
Qed.

(** *** Calls *)

Context {vstr : VstrSearch} {vstr_law : LawfulVstr vstr} {ll : Llhttp}.

(** What the parser relies on of llhttp.  [in_step] relates its state to the
    wire and to whether a body is open.  In step, a segment runs the callbacks
    on events in order, and when it is accepted the tokenizer is in step again
    and has reported the end of a body of known length with its last byte. *)
Class LawfulTokenizer := {
  in_step : ll_state -> wire -> option Z -> Prop;
  step_init : in_step ll_init wire_start None;
  step_reset : forall st, in_step (ll_reset st) wire_start None;
  step_segment : forall st p data w size st' p' errno,
    parser_ok p -> in_step st (ps_wire p) (ps_body_sink p) ->
    next_segment (parser_wire_limits p) (ps_wire p) data = Some (w, ScanOk size) ->
    ll_execute (parser_callback cbs) st (p <| ps_wire := w |>) (ztake size data) = (st', p', errno) ->
    exists events, events_ok cbs (p <| ps_wire := w |>) events /\
      p' = (run_events cbs (p <| ps_wire := w |>) events).1 /\
      (errno = HPE_OK -> in_step st' (ps_wire p') (ps_body_sink p') /\ ~ body_done (ps_wire p'));
}.

Context {tokenizer : LawfulTokenizer}.

Definition stopped p : bool := ps_upgrade_stopped p || ps_headers_stopped p.

(** The parser between two calls. *)
Record parser_good (sp : chttp_server_parser (U := U)) : Prop := {
  pg_ok : parser_ok (sp_impl sp);
  pg_step : ps_terminal (sp_impl sp) = false -> stopped (sp_impl sp) = false ->
    in_step (sp_ll sp) (ps_wire (sp_impl sp)) (ps_body_sink (sp_impl sp)) /\
    ~ body_done (ps_wire (sp_impl sp));
}.

Lemma close_body_ok p status : parser_ok p -> parser_ok (chttp_server_parser_close_body cbs p status).
Proof. apply parser_ok_same, close_body_same. Qed.

Lemma close_body_terminal p status :
  ps_terminal (chttp_server_parser_close_body cbs p status) = ps_terminal p.
Proof. unfold chttp_server_parser_close_body. destruct (ps_body_sink p); [by destruct (on_body_close U cbs)|done]. Qed.

(** The failure of the tokenizer ends the connection. *)
Lemma execute_llhttp_ok sp w data size http_status st' p' errno :
  parser_ok p' -> ll_execute (parser_callback cbs) (sp_ll sp) ((sp_impl sp) <| ps_wire := w |>) (ztake size data) = (st', p', errno) ->
  forall sp' status http_status',
  chttp_server_parser_execute_llhttp cbs {| sp_ll := sp_ll sp; sp_impl := (sp_impl sp) <| ps_wire := w |> |}
    (ztake size data) http_status = (sp', status, http_status') ->
  parser_ok (sp_impl sp') /\
  (status = SALTS_OK -> sp_impl sp' = p' /\ sp_ll sp' = st' /\ (errno = HPE_OK \/ stopped p' = true)) /\
  (status <> SALTS_OK -> ps_terminal (sp_impl sp') = true).
Proof.
  intros Hp E sp' status http_status'. unfold chttp_server_parser_execute_llhttp. cbn [sp_ll sp_impl].
  rewrite E. clear E. cbv zeta. set (failed := if negb _ then _ else _).
  assert (failed = (sp', status, http_status') ->
    parser_ok (sp_impl sp') /\ status <> SALTS_OK /\ ps_terminal (sp_impl sp') = true) as Hfailed.
  { subst failed. split_if; intros [= <- <- <-]; cbn [sp_impl].
    - apply bool_decide_eq_false in Heqb. split_and!; [|done|by rewrite close_body_terminal].
      apply close_body_ok. keep Hp.
    - assert (parser_ok (chttp_server_parser_close_body cbs (p' <| ps_terminal := true |>) SALTS_EPROTO)) as Hq
        by (apply close_body_ok; keep Hp).
      pose proof (close_body_terminal (p' <| ps_terminal := true |>) SALTS_EPROTO) as Ht.
      set (q := chttp_server_parser_close_body _ _ _) in *. clearbody q.
      split_if; (split_and!; [|done|exact Ht]); [keep Hq|exact Hq]. }
  clearbody failed. unfold stopped.
  assert (({| sp_ll := st'; sp_impl := p' |}, SALTS_OK, http_status) = (sp', status, http_status') ->
    errno = HPE_OK \/ ps_upgrade_stopped p' || ps_headers_stopped p' = true ->
    parser_ok (sp_impl sp') /\
    (status = SALTS_OK -> sp_impl sp' = p' /\ sp_ll sp' = st' /\
       (errno = HPE_OK \/ ps_upgrade_stopped p' || ps_headers_stopped p' = true)) /\
    (status <> SALTS_OK -> ps_terminal (sp_impl sp') = true)) as Hdone
    by (intros [= <- <- <-] ?; split_and!; auto; done).
  destruct errno; try (split_if); intros R; try (apply Hdone; [exact R|]);
    try (destruct (Hfailed R) as (? & ? & ?); split_and!; auto; done).
  - by left.
  - by right.
  - right. apply orb_true_r.
Qed.

(** What a call returns. *)
Record execute_result_ok (size : Z) (sp' : chttp_server_parser (U := U)) (status : salts_status) (consumed : Z) :
    Prop := {
  er_good : parser_good sp';
  er_consumed : 0 <= consumed <= size;
  er_all : status = SALTS_OK -> consumed < size -> stopped (sp_impl sp') = true \/ ps_paused (sp_impl sp') = true;
}.

Lemma execute_loop_ok fuel : forall sp size data http_status,
  parser_ok (sp_impl sp) -> in_step (sp_ll sp) (ps_wire (sp_impl sp)) (ps_body_sink (sp_impl sp)) ->
  ~ body_done (ps_wire (sp_impl sp)) -> zlen data <= size -> (length data < fuel)%nat ->
  exists sp' status consumed http_status',
    execute_loop cbs fuel sp size data http_status = Some (sp', status, consumed, http_status') /\
    execute_result_ok size sp' status consumed.
Proof.
  induction fuel as [|fuel IH]; intros sp size data http_status Hok Hstep Hdone Hsize Hfuel; [lia|].
  destruct data as [|byte rest].
  { cbn. eexists _, _, _, _. split; [done|]. rewrite zlen_nil in *. split; [by split|lia|lia]. }
  set (data := byte :: rest) in *. assert (data <> []) as Hne by done.
  change (execute_loop cbs (S fuel) sp size data http_status) with
    (match next_segment (parser_wire_limits (sp_impl sp)) (ps_wire (sp_impl sp)) data with
     | None => None
     | Some (w, ScanFail status) =>
       let p := chttp_server_parser_wire_fail cbs ((sp_impl sp) <| ps_wire := w |>) status in
       let pending :=
         match wire_phase w with
         | CHTTP_SERVER_WIRE_HEADERS_PENDING | CHTTP_SERVER_WIRE_CHUNK_LINE_PENDING
         | CHTTP_SERVER_WIRE_TRAILERS_PENDING => true
         | _ => false
         end in
       Some ({| sp_ll := sp_ll sp; sp_impl := p |}, SALTS_EPROTO,
             if pending then 0 else size - zlen data, status)
     | Some (w, ScanOk segment_size) =>
       match chttp_server_parser_execute_llhttp cbs
         {| sp_ll := sp_ll sp; sp_impl := (sp_impl sp) <| ps_wire := w |> |} (ztake segment_size data) http_status with
       | (sp, SALTS_OK, http_status) =>
         let data := zdrop segment_size data in
         if ps_upgrade_stopped (sp_impl sp) || ps_headers_stopped (sp_impl sp) ||
            ps_paused (sp_impl sp)
         then Some (sp, SALTS_OK, size - zlen data, ps_failure_http_status (sp_impl sp))
         else execute_loop cbs fuel sp size data http_status
       | (sp, status, http_status) => Some (sp, status, size - zlen data, http_status)
       end
     end).
  pose proof Hok as [Hl _ _ _ Hw].
  destruct (next_segment_ok _ (parser_wire_limits_ok _ Hl) _ data Hw Hdone Hne) as ([w r] & Hseg & Hw' & Hr).
  rewrite Hseg. cbn [fst snd] in Hw', Hr. pose proof (zlen_nonneg data).
  assert (parser_ok ((sp_impl sp) <| ps_wire := w |>)) as Hpw by (by apply with_wire_ok).
  destruct r as [n|status]; cycle 1.
  { cbv zeta. eexists _, _, _, _. split; [done|]. split; [|case_match; lia|done].
    unfold chttp_server_parser_wire_fail. split; cbn [sp_impl].
    - apply close_body_ok. set (q := _ <| ps_wire := w |>) in *. clearbody q. keep Hpw.
    - by rewrite close_body_terminal. }
  destruct (ll_execute (parser_callback cbs) (sp_ll sp) ((sp_impl sp) <| ps_wire := w |>) (ztake n data))
    as [[st' p'] errno] eqn:E.
  destruct (step_segment _ _ _ _ _ _ _ _ Hok Hstep Hseg E) as (events & He & Hp' & Hin).
  assert (parser_ok p') as Hpok by (rewrite Hp'; by apply run_events_ok).
  destruct (chttp_server_parser_execute_llhttp cbs _ _ _) as [[sp' status] http'] eqn:El.
  apply (execute_llhttp_ok _ _ _ _ _ _ _ _ Hpok E) in El as (Hpok' & Hok' & Hbad).
  destruct (decide (status = SALTS_OK)) as [->|Hns]; cycle 1.
  { exists sp', status, (size - zlen data), http'. split; [by destruct status|].
    split; [|lia|done]. split; [done|]. rewrite (Hbad Hns). done. }
  destruct (Hok' eq_refl) as (<- & <- & Herr). clear Hok' Hbad. cbv zeta.
  assert (errno = HPE_OK \/ stopped (sp_impl sp') = true) as Herr' by exact Herr.
  assert (zlen (zdrop n data) = zlen data - n) as Hd by (apply zlen_zdrop; lia).
  assert (parser_good sp') as Hgood'.
  { split; [done|]. intros _ Hs. destruct Herr' as [->|Hs']; [by apply Hin|congruence]. }
  fold (stopped (sp_impl sp')).
  destruct (stopped (sp_impl sp') || ps_paused (sp_impl sp')) eqn:Hbreak.
  { eexists _, _, _, _. split; [done|]. split; [done|lia|]. intros _ _. by apply orb_true_iff. }
  apply orb_false_iff in Hbreak as [Hs Hpz].
  destruct Herr' as [->|Hs']; [|congruence]. destruct (Hin eq_refl) as [Hi1 Hi2].
  destruct (IH sp' size (zdrop n data) http' Hpok Hi1 Hi2) as (sp2 & status2 & consumed2 & http2 & E2 & R2).
  { lia. }
  { unfold zlen in *. lia. }
  exists sp2, status2, consumed2, http2. split; [exact E2|done].
Qed.

Lemma execute_consumed_ok sp data :
  parser_good sp ->
  exists sp' status consumed http_status,
    chttp_server_parser_execute_consumed cbs sp data = Some (sp', status, consumed, http_status) /\
    execute_result_ok (zlen data) sp' status consumed.
Proof.
  intros Hg. unfold chttp_server_parser_execute_consumed. pose proof (zlen_nonneg data).
  assert (forall status (http_status : Z), status <> SALTS_OK -> exists sp' status' consumed http_status',
    Some (sp, status, 0, http_status) = Some (sp', status', consumed, http_status') /\
    execute_result_ok (zlen data) sp' status' consumed) as Hrefuse.
  { intros status http_status Hs. eexists _, _, _, _. split; [done|]. split; [done|lia|done]. }
  split_if; [by apply Hrefuse|]. split_if; [by apply Hrefuse|]. split_if; [by apply Hrefuse|].
  split_if.
  { apply Hrefuse. destruct (negb _) eqn:E; [|done]. bool_prop. by apply bool_decide_eq_false in E. }
  destruct (pg_step _ Hg) as [Hi Hd]; [done|unfold stopped; by apply orb_false_iff|].
  apply execute_loop_ok; [by apply pg_ok|done|done|lia|lia].
Qed.

Lemma resume_ok sp : parser_good sp -> parser_good (chttp_server_parser_resume sp).1.
Proof.
  intros Hg. unfold chttp_server_parser_resume. split_if; [done|]. split_if; [done|].
  destruct Hg as [Hp Hs]. split; [keep Hp|exact Hs].
Qed.

Definition clear_flags p : chttp_server_parser_impl U :=
  p <| ps_terminal := false |> <| ps_paused := false |> <| ps_upgrade_stopped := false |>
    <| ps_headers_stopped := false |>.

Lemma clear_flags_ok p : parser_ok p -> parser_ok (clear_flags p).
Proof. apply parser_ok_same. same. Qed.

Lemma clear_flags_sink p : ps_body_sink (clear_flags p) = ps_body_sink p.
Proof. reflexivity. Qed.

Lemma fresh_good st p :
  parser_ok p -> ps_body_sink p = None -> in_step st wire_start None ->
  parser_good {| sp_ll := st; sp_impl := chttp_server_parser_reset_wire p |}.
Proof.
  intros Hp Hs Hi. split; cbn [sp_impl sp_ll].
  - apply with_wire_ok; [done|]. apply wire_start_ok, parser_wire_limits_ok. by destruct Hp.
  - intros _ _. cbn. rewrite Hs. split; [done|]. by intros [? _].
Qed.

Lemma reset_ok sp : parser_good sp -> parser_good (chttp_server_parser_reset cbs sp).
Proof.
  intros [Hp _]. unfold chttp_server_parser_reset. cbv zeta.
  fold (clear_flags (chttp_server_parser_close_body cbs (sp_impl sp) SALTS_ECANCELED)).
  apply fresh_good; [| |apply step_reset].
  - apply message_reset_ok; [apply clear_flags_ok, close_body_ok; exact Hp|].
    rewrite clear_flags_sink. apply close_body_sink.
  - rewrite reset_message_sink, clear_flags_sink. apply close_body_sink.
Qed.

End Parser.

(** ** Sessions *)

Section Sessions.
Context {alloc : Allocator} {uri : UriParser} {U : Type} (cbs : parser_callbacks U).
Context {buffers : LawfulBuffers cbs} {vstr : VstrSearch} {vstr_law : LawfulVstr vstr} {ll : Llhttp}.
Context (L : parser_limits) {tokenizer : LawfulTokenizer cbs L}.

Inductive parser_call :=
  | CallExecute (data : list Z)
  | CallResume
  | CallReset.

Definition run_call (sp : chttp_server_parser (U := U)) (c : parser_call) : option (chttp_server_parser (U := U)) :=
  match c with
  | CallExecute data =>
    match chttp_server_parser_execute cbs sp data with
    | None => None
    | Some (sp, _, _) => Some sp
    end
  | CallResume => Some (chttp_server_parser_resume sp).1
  | CallReset => Some (chttp_server_parser_reset cbs sp)
  end.

Fixpoint run_calls sp (calls : list parser_call) : option (chttp_server_parser (U := U)) :=
  match calls with
  | [] => Some sp
  | c :: calls => match run_call sp c with None => None | Some sp => run_calls sp calls end
  end.

Lemma run_call_good sp c : parser_good cbs L sp -> exists sp', run_call sp c = Some sp' /\ parser_good cbs L sp'.
Proof.
  intros Hg. destruct c; cbn [run_call].
  - unfold chttp_server_parser_execute.
    destruct (execute_consumed_ok cbs L sp data Hg) as (sp' & status & consumed & http & -> & [? _ _]). eauto.
  - eexists. split; [done|]. by apply resume_ok.
  - eexists. split; [done|]. by apply reset_ok.
Qed.

Lemma run_calls_good calls : forall sp,
  parser_good cbs L sp -> exists sp', run_calls sp calls = Some sp' /\ parser_good cbs L sp'.
Proof.
  induction calls as [|c calls IH]; intros sp Hg; cbn [run_calls]; [eauto|].
  destruct (run_call_good sp c Hg) as (sp' & -> & Hg'). by apply IH.
Qed.

(** Limits are [size_t]. *)
Definition limits_nonneg (l : parser_limits) : Prop :=
  0 <= max_target_bytes l /\ 0 <= max_header_count l /\ 0 <= pl_max_header_bytes l /\ 0 <= max_body_bytes l.

Lemma init_good has user sp :
  limits_nonneg L -> chttp_server_parser_init cbs L has user = Ok sp -> parser_good cbs L sp.
Proof.
  intros (? & ? & ? & ?). unfold chttp_server_parser_init. cbv zeta.
  split_if; [done|]. split_if; [done|]. split_if; [done|]. intros [= <-].
  assert (parser_limits_ok L L) as Hl by (split; [lia..|done]).
  split; cbn [sp_impl sp_ll].
  - split; [exact Hl|cbn; rewrite zlen_nil; lia| | |apply wire_start_ok, (parser_wire_limits_ok L); exact Hl].
    + split; cbn; rewrite ?zlen_nil; try done; try lia; apply Forall_nil_2.
    + split; cbn; [lia|done|done].
  - intros _ _. split; [apply step_init|]. by intros [? _].
Qed.

(** C15: Any sequence of calls on an HTTP/1 parser (input in any pieces,
    resumptions, resets), for any application, lawful buffers and a lawful
    tokenizer, returns, and keeps the parser within the limits it was made with:
    the target, the header count and storage, the body and the counters of the
    wire are bounded, every header points to a terminated string inside the
    storage, and a buffered body is as long as it is said to be and fits its
    buffer. *)
Theorem parser_session_safe has user sp0 calls :
  limits_nonneg L -> chttp_server_parser_init cbs L has user = Ok sp0 ->
  exists sp, run_calls sp0 calls = Some sp /\ parser_ok L (sp_impl sp).
Proof.
  intros Hl Hi. destruct (run_calls_good calls sp0 (init_good _ _ _ Hl Hi)) as (sp & E & [? _]). eauto.
Qed.

End Sessions.

End Http1ParserSafe.
