(* ===== verification/Http1ParserExample.v ===== *)
(** * HTTP/1 request parser: an instance

    A server whose buffers are the ones of [ServerBuffer], a string search, and
    a tokenizer that knows one request, with the laws the theorems on the
    parser ask for.  The theorems are applied to it. *)

From S2P Require Import Prelude HpackBuffer Router ServerBuffer Http1Parser Http1ParserTheorems.
From S2P Require Import Http1ParserLimits Http1ParserSafe.

Module Http1ParserExample.
Import HpackBuffer Router ServerBuffer Http1Parser Http1ParserTheorems Http1ParserLimits Http1ParserSafe.

(** ** The string search *)

Fixpoint first_index (s : list Z) (c : Z) : option Z :=
  match s with
  | [] => None
  | x :: s => if x =? c then Some 0 else Z.succ <$> first_index s c
  end.

Definition search : VstrSearch := first_index.

Lemma search_some s c i :
  first_index s c = Some i -> exists before after, s = before ++ c :: after /\ zlen before = i /\ c ∉ before.
Proof.
  revert i. induction s as [|x s IH]; intros i E; cbn in E; [done|].
  destruct (Z.eqb_spec x c) as [->|Hx].
  - injection E as <-. exists [], s. split_and!; [done|done|]. apply not_elem_of_nil.
  - destruct (first_index s c) as [j|]; [|done]. injection E as <-.
    destruct (IH j eq_refl) as (before & after & -> & <- & Hn). exists (x :: before), after.
    split_and!; [done|rewrite zlen_cons; lia|]. apply not_elem_of_cons. by split.
Qed.

Lemma search_none s c : first_index s c = None -> c ∉ s.
Proof.
  induction s as [|x s IH]; cbn; [intros; apply not_elem_of_nil|].
  destruct (Z.eqb_spec x c) as [->|Hx]; [done|]. destruct (first_index s c); [done|].
  intros _. apply not_elem_of_cons. split; [done|by apply IH].
Qed.

#[export] Instance search_lawful : LawfulVstr search.
Proof. split; [apply search_some|apply search_none]. Qed.

(** ** The server *)

(** The budget and the bodies of the requests so far. *)
Record server := {
  sv_budget : budget;
  sv_bodies : list (list Z);
}.

Section Server.
Context {alloc : Allocator}.

(** A growth never runs out of fuel ([grow_plan_spec]). *)
Definition server_grow (s : server) (capacity required limit used : Z) : server * salts_status * Z :=
  match chttp_server_buffer_grow (sv_budget s) capacity required limit used with
  | Some (b, status, capacity) => ({| sv_budget := b; sv_bodies := sv_bodies s |}, status, capacity)
  | None => (s, SALTS_EINVAL, capacity)
  end.

Definition server_callbacks : parser_callbacks server :=
  {| on_request := fun s r _ =>
       ({| sv_budget := sv_budget s; sv_bodies := sv_bodies s ++ [rv_body r] |}, RequestStatus SALTS_OK);
     on_message_begin := None; on_headers := None; on_continue := None; on_body_open := None;
     on_body_close := None; on_upgrade := None; buffer_grow := Some server_grow;
     buffer_release := Some (fun s capacity =>
       {| sv_budget := chttp_server_buffer_release (sv_budget s) (Some capacity); sv_bodies := sv_bodies s |});
     sink_write := fun s _ _ => (s, SALTS_OK) |}.

(** The buffers of the server are what the parser asks for. *)
#[export] Instance server_buffers : LawfulBuffers server_callbacks.
Proof.
  intros f u capacity required limit used u' status capacity' [= <-]. unfold server_grow, chttp_server_buffer_grow.
  destruct (grow_plan capacity required limit used) as [[st|desired]|] eqn:Hp; [| |intros [= <- <- <-]; by split].
  - intros [= <- <- <-]. split; [|done]. intros ->. unfold grow_plan in Hp.
    repeat (split_if_in Hp; [by simplify_eq; try lia|]). by destruct (grow_desired _ _ _ _).
  - assert (required <= desired) as Hd.
    { unfold grow_plan in Hp. do 3 (split_if_in Hp; [done|]). cbv zeta in Hp.
      destruct (grow_desired _ _ _ _); [|done]. simplify_eq. split_if; lia. }
    destruct (chttp_server_buffer_reserve _ _) as [b reserved]. cbv zeta.
    destruct reserved; cbn [negb]; [destruct (malloc_ok desired); cbn [negb]|]; intros [= <- <- <-]; by split.
Qed.

End Server.

(** ** The tokenizer *)

Fixpoint fold_events {S : Type} (callback : S -> ll_event -> S * cb_result) (s : S) (events : list ll_event) :
    S * cb_result :=
  match events with
  | [] => (s, CbOk)
  | event :: events =>
    let '(s, r) := callback s event in
    if cb_continues r then fold_events callback s events else (s, r)
  end.

Definition crlf : list Z := [CR; LF].

(** The request it knows, with a body of three bytes. *)
Definition head_bytes_known : list Z :=
  bytes_of "POST /a?b HTTP/1.1" ++ crlf ++ bytes_of "Host: h" ++ crlf ++ bytes_of "Content-Length: 3" ++ crlf ++ crlf.

Definition head_known : ll_head :=
  {| lh_method := HTTP_POST; lh_http_major := 1; lh_http_minor := 1; lh_chunked := false;
     lh_content_length := Some 3; lh_upgrade := false |}.

Definition before_body : list ll_event :=
  [EvMessageBegin; EvUrl (bytes_of "/a"); EvUrl (bytes_of "?b"); EvUrlComplete] ++
  header_events ([bytes_of "Ho"; bytes_of "st"], [bytes_of "h"]) ++
  header_events ([bytes_of "Content-Length"], [bytes_of "3"]).

(** [None] before a request, or the bytes of the body to come. *)
Definition mini_execute {S : Type} (callback : S -> ll_event -> S * cb_result) (st : option Z) (s : S)
    (data : list Z) : option Z * S * ll_errno :=
  let run events st' :=
    let '(s, r) := fold_events callback s events in
    if cb_continues r then (st', s, HPE_OK) else (st, s, HPE_OTHER) in
  match st with
  | None =>
    if bytes_eqb data head_bytes_known then run (before_body ++ [EvHeadersComplete head_known]) (Some 3)
    else (st, s, HPE_OTHER)
  | Some n =>
    if zlen data <? n then run [EvBody data] (Some (n - zlen data))
    else if zlen data =? n then run [EvBody data; EvMessageComplete true] None
    else (st, s, HPE_OTHER)
  end.

Definition mini : Llhttp :=
  {| ll_state := option Z; ll_init := None; ll_reset := fun _ => None;
     ll_execute := @mini_execute |}.

(** The wire and the sink through callbacks that do not change them. *)
Definition plain_event (e : ll_event) : bool :=
  match e with
  | EvHeadersComplete _ | EvMessageComplete _ | EvChunkHeader _ => false
  | _ => true
  end.

Section Tokenizer.
Context {alloc : Allocator} {uri : UriParser}.
#[local] Abbreviation cbs := server_callbacks.
Implicit Types p : chttp_server_parser_impl server.

Definition same_wire p p' : Prop := ps_wire p' = ps_wire p /\ ps_body_sink p' = ps_body_sink p.

Lemma storage_append_wire p data p' : chttp_server_parser_storage_append p data = Some p' -> same_wire p p'.
Proof. unfold chttp_server_parser_storage_append. split_if; [done|]. by intros [= <-]. Qed.

Lemma on_body_wire p at_ : same_wire p (chttp_server_parser_on_body cbs p at_).1.
Proof.
  unfold chttp_server_parser_on_body. cbv zeta. split_if; [done|].
  split_if; [by rewrite bool_decide_eq_true_2|]. destruct (ps_body_sink p) eqn:E.
  { cbn [sink_write cbs]. by rewrite bool_decide_eq_true_2. }
  cbn [buffer_grow cbs]. destruct (server_grow _ _ _ _ _) as [[user status] capacity].
  destruct (bool_decide (status = SALTS_OK)); cbn [negb]; by split.
Qed.

Lemma plain_wire p event : plain_event event = true -> same_wire p (parser_callback cbs p event).1.
Proof.
  intros He. destruct event; cbn [parser_callback]; try done.
  - unfold chttp_server_parser_on_message_begin, chttp_server_parser_reset_message. cbn.
    destruct (ps_body_storage_capacity p); by split.
  - unfold chttp_server_parser_on_url. by split_if.
  - unfold chttp_server_parser_on_url_complete. by split_if.
  - unfold chttp_server_parser_on_header_field. do 2 (split_if; [done|]). cbv zeta.
    set (q := if negb _ then _ else _). assert (same_wire p q) as [H1 H2] by (subst q; by split_if).
    destruct (chttp_server_parser_storage_append q at_) as [p'|] eqn:E; [|by split].
    apply storage_append_wire in E as [E1 E2]. split; cbn [fst]; congruence.
  - unfold chttp_server_parser_on_header_field_complete. split_if; [done|].
    destruct (chttp_server_parser_storage_append p [0]) as [p'|] eqn:E; [|done].
    apply storage_append_wire in E as [E1 E2]. by split.
  - unfold chttp_server_parser_on_header_value. split_if; [done|].
    destruct (chttp_server_parser_storage_append p at_) as [p'|] eqn:E; [|done].
    apply storage_append_wire in E as [E1 E2]. by split.
  - unfold chttp_server_parser_on_header_value_complete. split_if; [done|].
    destruct (chttp_server_parser_storage_append p [0]) as [p'|] eqn:E; [|done].
    apply storage_append_wire in E as [E1 E2]. by split.
  - apply on_body_wire.
Qed.

Lemma plain_events_wire events : forall p,
  forallb plain_event events = true -> same_wire p (run_events cbs p events).1.
Proof.
  induction events as [|event events IH]; intros p He; [done|]. cbn [forallb] in He. bool_prop.
  cbn [run_events]. pose proof (plain_wire p event H) as [H1 H2].
  destruct (parser_callback cbs p event) as [q r]. cbn [fst] in *.
  destruct (cb_continues r); [|done]. destruct (IH q H0) as [H3 H4]. split; congruence.
Qed.

Lemma plain_events_ok events : forall p,
  forallb plain_event events = true -> ps_body_sink p = None -> events_ok cbs p events.
Proof.
  induction events as [|event events IH]; intros p He Hs; [done|]. cbn [forallb] in He. bool_prop.
  cbn [events_ok]. split; [by destruct event|]. apply IH; [done|].
  destruct (plain_wire p event H) as [_ ->]. done.
Qed.

Lemma normalize_target_wire p :
  same_wire p (chttp_server_parser_normalize_target p).1 /\
  ((chttp_server_parser_normalize_target p).2 = CbOk \/ (chttp_server_parser_normalize_target p).2 = CbUser).
Proof.
  unfold chttp_server_parser_normalize_target. do 2 (split_if; [by split; [|auto]|]).
  destruct (after_first _ _) as [rest|]; [|by split; [|auto]].
  destruct (break_authority rest) as [authority suffix].
  cbv zeta. do 2 (split_if; [by split; [|auto]|]). destruct (replace_host _ _ _); [by split; [|auto]|].
  split_if; by split; [|auto].
Qed.

Lemma headers_complete_wire p p' r :
  chttp_server_parser_on_headers_complete cbs p head_known = (p', r) -> cb_continues r = true ->
  ps_wire p' = (ps_wire p) <| chunk_body_remaining := 3 |> <| wire_phase := CHTTP_SERVER_WIRE_FIXED_BODY |> /\
  ps_body_sink p' = ps_body_sink p.
Proof.
  unfold chttp_server_parser_on_headers_complete. cbv zeta. cbn [head_known lh_http_major lh_http_minor lh_method lh_chunked lh_content_length].
  split_if; [by intros [= <- <-]|]. split_if; [by intros [= <- <-]|]. split_if; [by intros [= <- <-]|].
  destruct (chttp_server_parser_validate_headers _ _ _ _) as [wants|status]; [|by intros [= <- <-]].
  set (q := upd_request (upd_request p _) _). assert (same_wire p q) as [Hq Hq'] by done. clearbody q.
  pose proof (normalize_target_wire q) as [[Hw Hs] Hr].
  destruct (chttp_server_parser_normalize_target q) as [q' r']. cbn [fst snd] in *.
  destruct Hr as [-> | ->]; [|by intros [= <- <-]].
  split_if; [by intros [= <- <-]|]. split_if; [by intros [= <- <-]|].
  unfold headers_decide, headers_continue, headers_upgrade, headers_open_body.
  cbn [on_headers on_continue on_upgrade on_body_open cbs head_known lh_upgrade lh_chunked lh_content_length].
  destruct wants; [by intros [= <- <-]|]. rewrite bool_decide_eq_true_2 by done. cbn [negb].
  intros [= <- <-] _. unfold same_wire in *. cbn. split; congruence.
Qed.

Lemma fold_run events : forall p, fold_events (parser_callback cbs) p events = run_events cbs p events.
Proof. induction events as [|e events IH]; intros p; [done|]. cbn. destruct (parser_callback cbs p e). by rewrite IH. Qed.

Lemma run_events_snoc events event : forall p,
  run_events cbs p (events ++ [event]) =
    let '(q, r) := run_events cbs p events in
    if cb_continues r then run_events cbs q [event] else (q, r).
Proof.
  induction events as [|e events IH]; intros p; [done|]. cbn [app run_events].
  destruct (parser_callback cbs p e) as [q r] eqn:E. destruct (cb_continues r) eqn:Hr; [apply IH|by rewrite Hr].
Qed.

Lemma events_ok_snoc events event : forall p,
  events_ok cbs p events -> (forall q : chttp_server_parser_impl server, event_ok q event) -> events_ok cbs p (events ++ [event]).
Proof.
  induction events as [|e events IH]; intros p He Hq; cbn [app events_ok] in *; [by split|].
  destruct He. split; [done|by apply IH].
Qed.

Lemma head_run p :
  ps_body_sink p = None ->
  let '(p', r) := run_events cbs p (before_body ++ [EvHeadersComplete head_known]) in
  cb_continues r = true ->
  ps_body_sink p' = None /\
  wire_phase (ps_wire p') = CHTTP_SERVER_WIRE_FIXED_BODY /\ chunk_body_remaining (ps_wire p') = 3.
Proof.
  intros Hs. rewrite run_events_snoc.
  pose proof (plain_events_wire before_body p eq_refl) as [_ Hq].
  destruct (run_events cbs p before_body) as [q r]. cbn [fst] in Hq.
  destruct (cb_continues r) eqn:Hr; [|by rewrite Hr]. cbn [run_events parser_callback].
  destruct (chttp_server_parser_on_headers_complete cbs q head_known) as [p' r'] eqn:E.
  destruct (cb_continues r') eqn:Hr'; [|by rewrite Hr']. intros _.
  apply headers_complete_wire in E as [-> ->]; [|done]. rewrite Hq. by destruct (ps_wire q).
Qed.

Lemma body_run p data :
  same_wire p (run_events cbs p [EvBody data]).1.
Proof. by apply plain_events_wire. Qed.

(** After the last bytes of the body the wire starts again. *)
Lemma body_end_run p data :
  let '(p', r) := run_events cbs p [EvBody data; EvMessageComplete true] in
  cb_continues r = true -> ps_wire p' = wire_start /\ ps_body_sink p' = None.
Proof.
  cbn [run_events parser_callback]. destruct (chttp_server_parser_on_body cbs p data) as [q r].
  destruct (cb_continues r) eqn:Hr; [|by rewrite Hr].
  unfold chttp_server_parser_on_message_complete. cbv zeta.
  unfold chttp_server_parser_close_body. cbn. destruct (ps_body_sink q) eqn:Hq; cbn; rewrite ?Hq.
  all: destruct (ps_upgrade_stopped q); cbn; intros _; cbn; auto.
Qed.

(** A step of the tokenizer is a run of events. *)
Lemma mini_run q events (st st1 st' : option Z) p' errno :
  (let '(s, r) := fold_events (parser_callback cbs) q events in
   if cb_continues r then (st1, s, HPE_OK) else (st, s, HPE_OTHER)) = (st', p', errno) ->
  p' = (run_events cbs q events).1 /\
  (errno = HPE_OK -> st' = st1 /\ cb_continues (run_events cbs q events).2 = true).
Proof.
  rewrite fold_run. destruct (run_events cbs q events) as [s r]. split_if; by intros [= <- <- <-].
Qed.

Definition mini_in_step (st : option Z) (w : wire) (sink : option Z) : Prop :=
  sink = None /\
  match st with
  | None => in_head w
  | Some n => wire_phase w = CHTTP_SERVER_WIRE_FIXED_BODY /\ chunk_body_remaining w = n /\ 0 < n
  end.

Lemma mini_segment st p data w size st' p' errno :
  mini_in_step st (ps_wire p) (ps_body_sink p) ->
  next_segment (vstr := search) (parser_wire_limits p) (ps_wire p) data = Some (w, ScanOk size) ->
  mini_execute (parser_callback cbs) st (p <| ps_wire := w |>) (ztake size data) = (st', p', errno) ->
  exists events, events_ok cbs (p <| ps_wire := w |>) events /\
    p' = (run_events cbs (p <| ps_wire := w |>) events).1 /\
    (errno = HPE_OK -> mini_in_step st' (ps_wire p') (ps_body_sink p') /\ ~ body_done (ps_wire p')).
Proof.
  intros [Hs Hst] Hseg. unfold mini_execute. set (q := p <| ps_wire := w |>).
  assert (ps_body_sink q = None) as Hsq by exact Hs. assert (ps_wire q = w) as Hwq by done. clearbody q.
  destruct st as [n|].
  - destruct Hst as (Hph & Hn & Hpos). unfold next_segment in Hseg. rewrite Hph in Hseg. cbv zeta in Hseg.
    rewrite bool_decide_eq_false_2, andb_false_r, Hn in Hseg by (cbn; by rewrite Hph).
    injection Hseg as Hw Hsize. rewrite Hsize in Hw.
    assert (0 <= size <= zlen data /\ size <= n) as [Hs1 Hs2].
    { pose proof (zlen_nonneg data). subst size. split_if; lia. }
    rewrite zlen_ztake by lia. destruct (Z.ltb_spec size n).
    { intros E. apply mini_run in E as [-> E]. exists [EvBody (ztake size data)].
      split; [by apply plain_events_ok|]. split; [done|]. intros Ho. destruct (E Ho) as [-> _].
      destruct (body_run q (ztake size data)) as [-> ->]. rewrite Hwq, <- Hw. destruct (ps_wire p). cbn in *.
      split; [split; [done|cbn; split_and!; [done|done|lia]]|]. intros [_ ?]. cbn in *. lia. }
    replace (size =? n) with true by lia. intros E. apply mini_run in E as [-> E].
    exists [EvBody (ztake size data); EvMessageComplete true]. split; [done|]. split; [done|].
    intros Ho. destruct (E Ho) as [-> Hr]. pose proof (body_end_run q (ztake size data)) as Hb.
    destruct (run_events cbs q _) as [p2 r]. cbn [fst snd] in *. destruct (Hb Hr) as [-> ->].
    split; [split; [done|by left]|]. by intros [? _].
  - split_if; cycle 1.
    { intros [= <- <- <-]. exists []. by split. }
    intros E. apply mini_run in E as [-> E]. exists (before_body ++ [EvHeadersComplete head_known]).
    split; [apply events_ok_snoc; [by apply plain_events_ok|done]|]. split; [done|].
    intros Ho. destruct (E Ho) as [-> Hr]. pose proof (head_run q Hsq) as Hh.
    destruct (run_events cbs q _) as [p2 r]. cbn [fst snd] in *. destruct (Hh Hr) as (Hp1 & Hp2 & Hp3).
    split; [by split|]. intros [_ ?]. lia.
Qed.

#[export] Instance mini_lawful (L : parser_limits) : LawfulTokenizer (vstr := search) (ll := mini) cbs L.
Proof.
  refine {| in_step := mini_in_step : @ll_state mini -> wire -> option Z -> Prop |}.
  - split; [done|by left].
  - intros st. split; [done|by left].
  - intros st p data w size st' p' errno _. apply mini_segment.
Defined.

End Tokenizer.

(** ** The theorems at this instance *)

Definition no_uri : UriParser := fun _ =>
  {| uri_parsed := false; uri_overflow := false; uri_host := []; uri_userinfo := false; uri_scheme := [] |}.

#[local] Existing Instances unlimited_allocator no_uri search mini.

Definition small_limits : parser_limits :=
  {| max_target_bytes := 64; max_header_count := 4; pl_max_header_bytes := 256; max_body_bytes := 16 |}.

Definition server_start : server := {| sv_budget := budget_start 10000; sv_bodies := [] |}.

(** The request in one piece and its body in two, then a reset. *)
Definition session_calls : list parser_call :=
  [CallExecute (head_bytes_known ++ bytes_of "x"); CallExecute (bytes_of "yz"); CallResume;
   CallExecute (bytes_of "junk"); CallReset; CallExecute (head_bytes_known ++ bytes_of "xyz")].

(** The parser as [chttp_server_parser_init] makes it. *)
Definition session_parser : chttp_server_parser (U := server) :=
  {| sp_ll := None : @ll_state mini;
     sp_impl :=
       {| ps_request := request_zero; ps_limits := small_limits; ps_target_storage := [];
          ps_header_storage := []; ps_header_storage_capacity := 265;
          ps_body_storage_capacity := None; ps_field_offset := 0; ps_value_offset := 0;
          ps_wire := wire_start; ps_failure_http_status := 0; ps_callback_status := SALTS_OK;
          ps_body_sink := None; ps_user := server_start; ps_field_open := false;
          ps_value_open := false; ps_target_terminated := false; ps_terminal := false;
          ps_paused := false; ps_upgrade_stopped := false; ps_headers_stopped := false |} |}.

Lemma parser_session_safe_witness :
  exists sp, run_calls server_callbacks session_parser session_calls = Some sp /\
    parser_ok small_limits (sp_impl sp).
Proof.
  apply (parser_session_safe server_callbacks small_limits true server_start session_parser session_calls);
    [by repeat split|vm_compute; reflexivity].
Defined.

(** Both requests were delivered, with their bodies. *)
Example session_bodies :
  (fun sp => sv_bodies (ps_user (sp_impl sp))) <$> run_calls server_callbacks session_parser session_calls =
    Some [bytes_of "xyz"; bytes_of "xyz"].
Proof. vm_compute. reflexivity. Qed.

(** The head in one piece and in two. *)
Definition example_wire_limits : wire_limits :=
  {| max_start_line_wire_bytes := 96; max_header_bytes := 256 |}.

Lemma scan_head_as_bytes_witness :
  chttp_server_parser_scan_head example_wire_limits wire_start head_bytes_known =
    Some (head_bytes example_wire_limits wire_start head_bytes_known 0).
Proof. apply (scan_head_as_bytes (vstr := search)). Defined.

Lemma scan_head_fragments_witness :
  chttp_server_parser_scan_head example_wire_limits wire_start (ztake 25 head_bytes_known ++ zdrop 25 head_bytes_known) =
    match chttp_server_parser_scan_head example_wire_limits wire_start (ztake 25 head_bytes_known) with
    | Some (w', ScanOk n) =>
      if bool_decide (wire_phase w' = CHTTP_SERVER_WIRE_HEADERS_PENDING) then Some (w', ScanOk n)
      else
        match chttp_server_parser_scan_head example_wire_limits w' (zdrop 25 head_bytes_known) with
        | Some (w'', ScanOk m) => Some (w'', ScanOk (n + m))
        | r => r
        end
    | r => r
    end.
Proof. apply (scan_head_fragments (vstr := search)). by left. Defined.

(** Two headers in pieces. *)
Definition header_pieces : list (list (list Z) * list (list Z)) :=
  [([bytes_of "Ho"; bytes_of "st"], [bytes_of "exam"; bytes_of "ple"]); ([bytes_of "Accept"], [])].

Lemma no_nul (l : list Z) : bool_decide (0 ∈ l) = false -> 0 ∉ l.
Proof. apply bool_decide_eq_false. Qed.

Lemma headers_collected_witness :
  let '(p', r) := run_events server_callbacks (sp_impl session_parser) (concat (map header_events header_pieces)) in
  if headers_fit (sp_impl session_parser) header_pieces
  then r = CbOk /\ between p' /\
    request_headers p' = request_headers (sp_impl session_parser) ++ map header_text header_pieces
  else r = CbUser /\ ps_failure_http_status p' = 431.
Proof.
  apply (headers_collected server_callbacks header_pieces).
  - split; [done|done|by split|done|done|apply Forall_nil_2].
  - unfold header_pieces. repeat (apply Forall_cons_2; [split; [done|split; apply no_nul; reflexivity]|]).
    apply Forall_nil_2.
Defined.

Example headers_fit_here : headers_fit (sp_impl session_parser) header_pieces = true.
Proof. reflexivity. Qed.

End Http1ParserExample.
