(* ===== verification/Session.v ===== *)
(** * Server sessions

    Model of [http_server/src/chttp_session.c]: the store of sessions that the
    requests of a server share, and the context through which one request
    reads and changes its session.

    A C string is the list of its bytes without the terminator.  A pointer to a
    record of the store is its index.  The clock and the random numbers are
    arguments; the headers of the response are kept by a function of the
    response builder, a parameter.  Every function that takes the mutex of the
    store does so once, around its whole effect on the store, except
    [chttp_session_request_finish], which takes it twice: its two parts are
    definitions of their own. *)

From S2P Require Import Prelude Decimal HpackBuffer Router Http1Parser.

Module Session.
Import Decimal HpackBuffer Router Http1Parser.

Definition CHTTP_SESSION_ID_RANDOM_BYTES : Z := 16.
Definition CHTTP_SESSION_ID_TEXT_BYTES : Z := 32.
Definition CHTTP_SESSION_ID_ATTEMPTS : nat := 8.
Definition CHTTP_SESSION_COOKIE_BYTES : Z := 256.

Definition UINT64_MAX : Z := 2 ^ 64 - 1.
Definition SEMICOLON : Z := 59.
Definition EQUALS : Z := 61.

(** ** Data *)

Record session_config := {
  session_capacity : Z;
  session_entry_capacity : Z;
  max_session_key_bytes : Z;
  max_session_value_bytes : Z;
  session_idle_timeout_ms : Z;
  session_cookie_secure : bool;
  session_cookie_name : list Z;
}.

Record chttp_session_entry := {
  se_used : bool;
  se_key : list Z;
  se_value : list Z;
}.

Definition entry_empty : chttp_session_entry := {| se_used := false; se_key := []; se_value := [] |}.

Record chttp_session_record := {
  sr_id : list Z;
  sr_entries : list chttp_session_entry;
  sr_expires_at_ms : Z;
  sr_generation : Z;
  sr_used : bool;
}.

#[export] Instance eta_session_record : Eta chttp_session_record :=
  fun r => Build_chttp_session_record (sr_id r) (sr_entries r) (sr_expires_at_ms r) (sr_generation r) (sr_used r).
#[export] Instance set_sr_id : Setter sr_id. Proof. mk_setter. Defined.
#[export] Instance set_sr_entries : Setter sr_entries. Proof. mk_setter. Defined.
#[export] Instance set_sr_expires_at_ms : Setter sr_expires_at_ms. Proof. mk_setter. Defined.
#[export] Instance set_sr_generation : Setter sr_generation. Proof. mk_setter. Defined.
#[export] Instance set_sr_used : Setter sr_used. Proof. mk_setter. Defined.

(** [sc_record] is the index of the record in the store. *)
Record chttp_session_context := {
  sc_record : option nat;
  sc_snapshot_entries : list chttp_session_entry;
  sc_id : list Z;
  sc_record_generation : Z;
  sc_presented : bool;
  sc_created : bool;
  sc_invalidated : bool;
  sc_dirty : bool;
}.

#[export] Instance eta_session_context : Eta chttp_session_context :=
  fun c => Build_chttp_session_context (sc_record c) (sc_snapshot_entries c) (sc_id c)
    (sc_record_generation c) (sc_presented c) (sc_created c) (sc_invalidated c) (sc_dirty c).
#[export] Instance set_sc_record : Setter sc_record. Proof. mk_setter. Defined.
#[export] Instance set_sc_snapshot_entries : Setter sc_snapshot_entries. Proof. mk_setter. Defined.
#[export] Instance set_sc_id : Setter sc_id. Proof. mk_setter. Defined.
#[export] Instance set_sc_record_generation : Setter sc_record_generation. Proof. mk_setter. Defined.
#[export] Instance set_sc_presented : Setter sc_presented. Proof. mk_setter. Defined.
#[export] Instance set_sc_created : Setter sc_created. Proof. mk_setter. Defined.
#[export] Instance set_sc_invalidated : Setter sc_invalidated. Proof. mk_setter. Defined.
#[export] Instance set_sc_dirty : Setter sc_dirty. Proof. mk_setter. Defined.

(** The records of the store. *)
Abbreviation store := (list chttp_session_record).

(** ** Helpers *)

Definition chttp_session_multiply (left right : Z) : option Z :=
  if negb (right =? 0) && (SIZE_MAX / right <? left) then None else Some (left * right).

Definition chttp_session_generation_next (generation : Z) : Z :=
  let generation := u32 (generation + 1) in
  if generation =? 0 then 1 else generation.

Definition chttp_session_entries_clear (entries : list chttp_session_entry) : list chttp_session_entry :=
  map (fun _ => entry_empty) entries.

Definition chttp_session_record_clear (r : chttp_session_record) : chttp_session_record :=
  {| sr_id := []; sr_entries := chttp_session_entries_clear (sr_entries r); sr_expires_at_ms := 0;
     sr_generation := chttp_session_generation_next (sr_generation r); sr_used := false |}.

(** The used entries, in their places. *)
Definition copy_entries (source : list chttp_session_entry) : list chttp_session_entry :=
  map (fun e => if se_used e then e else entry_empty) source.

Definition chttp_session_snapshot_clear (c : chttp_session_context) : chttp_session_context :=
  c <| sc_snapshot_entries := chttp_session_entries_clear (sc_snapshot_entries c) |>.

Definition chttp_session_snapshot_from_record (c : chttp_session_context) (r : chttp_session_record) :
    chttp_session_context :=
  c <| sc_snapshot_entries := copy_entries (sr_entries r) |>.

Definition chttp_session_record_from_snapshot (c : chttp_session_context) (r : chttp_session_record) :
    chttp_session_record :=
  r <| sr_entries := copy_entries (sc_snapshot_entries c) |>.

(** ** Creation *)

(** The sizes of the structures with eight-byte pointers. *)
Definition sizeof_session_entry : Z := 24.
Definition sizeof_session_record : Z := 64.

Definition fresh_entries (cfg : session_config) : list chttp_session_entry :=
  replicate (Z.to_nat (session_entry_capacity cfg)) entry_empty.

Definition context_zero (entries : list chttp_session_entry) : chttp_session_context :=
  {| sc_record := None; sc_snapshot_entries := entries; sc_id := []; sc_record_generation := 0;
     sc_presented := false; sc_created := false; sc_invalidated := false; sc_dirty := false |}.

Section Create.
Context {alloc : Allocator} (cfg : session_config).

Definition chttp_session_context_init : outcome chttp_session_context :=
  if session_capacity cfg =? 0 then Ok (context_zero [])
  else
    let key_stride := u64 (max_session_key_bytes cfg + 1) in
    let value_stride := u64 (max_session_value_bytes cfg + 1) in
    if (key_stride =? 0) || (value_stride =? 0) ||
       (SIZE_MAX / sizeof_session_entry <? session_entry_capacity cfg)
    then Err SALTS_ERANGE
    else
      match chttp_session_multiply (session_entry_capacity cfg) key_stride,
            chttp_session_multiply (session_entry_capacity cfg) value_stride with
      | Some key_bytes, Some value_bytes =>
        if malloc_ok (session_entry_capacity cfg * sizeof_session_entry) && malloc_ok key_bytes &&
           malloc_ok value_bytes
        then Ok (context_zero (fresh_entries cfg))
        else Err SALTS_ENOMEM
      | _, _ => Err SALTS_ERANGE
      end.

Definition chttp_session_store_init : outcome store :=
  if session_capacity cfg =? 0 then Ok []
  else
    let key_stride := u64 (max_session_key_bytes cfg + 1) in
    let value_stride := u64 (max_session_value_bytes cfg + 1) in
    if (key_stride =? 0) || (value_stride =? 0) then Err SALTS_ERANGE
    else
      match chttp_session_multiply (session_capacity cfg) (session_entry_capacity cfg) with
      | None => Err SALTS_ERANGE
      | Some entry_count =>
        match chttp_session_multiply entry_count key_stride,
              chttp_session_multiply entry_count value_stride with
        | Some key_bytes, Some value_bytes =>
          if (SIZE_MAX / sizeof_session_record <? session_capacity cfg) ||
             (SIZE_MAX / sizeof_session_entry <? entry_count)
          then Err SALTS_ERANGE
          else if malloc_ok (session_capacity cfg * sizeof_session_record) &&
                  malloc_ok (entry_count * sizeof_session_entry) && malloc_ok key_bytes &&
                  malloc_ok value_bytes
          then
            Ok (replicate (Z.to_nat (session_capacity cfg))
                  {| sr_id := []; sr_entries := fresh_entries cfg; sr_expires_at_ms := 0;
                     sr_generation := 0; sr_used := false |})
          else Err SALTS_ENOMEM
        | _, _ => Err SALTS_ERANGE
        end
      end.

End Create.

Definition chttp_session_context_reset (c : chttp_session_context) : chttp_session_context :=
  context_zero (chttp_session_entries_clear (sc_snapshot_entries c)).

Definition chttp_session_context_destroy (c : chttp_session_context) : chttp_session_context :=
  context_zero [].

Definition chttp_session_store_destroy (s : store) : store := [].

(** ** The store *)

Section Store.
Context (cfg : session_config).

Definition chttp_session_expiry (now_ms : Z) : Z :=
  if UINT64_MAX - now_ms <? session_idle_timeout_ms cfg then UINT64_MAX
  else now_ms + session_idle_timeout_ms cfg.

Definition expired (now_ms : Z) (r : chttp_session_record) : bool :=
  sr_used r && (sr_expires_at_ms r <=? now_ms).

Definition chttp_session_expire_locked (s : store) (now_ms : Z) : store :=
  map (fun r => if expired now_ms r then chttp_session_record_clear r else r) s.

Definition is_hex (ch : Z) : bool :=
  ((48 <=? ch) && (ch <=? 57)) || ((97 <=? ch) && (ch <=? 102)) || ((65 <=? ch) && (ch <=? 70)).

Definition chttp_session_hex_id (value : list Z) : bool :=
  (zlen value =? CHTTP_SESSION_ID_TEXT_BYTES) && forallb is_hex value.

(** [strchr]: what is before and after the first [c]. *)
Fixpoint split_at (c : Z) (s : list Z) : option (list Z * list Z) :=
  match s with
  | [] => None
  | x :: s =>
    if x =? c then Some ([], s)
    else match split_at c s with None => None | Some (a, b) => Some (x :: a, b) end
  end.

Fixpoint skip_cookie_blanks (s : list Z) : list Z :=
  match s with
  | [] => []
  | c :: rest => if is_ows c || (c =? SEMICOLON) then skip_cookie_blanks rest else s
  end.

Definition trim_right (s : list Z) : list Z := reverse (drop_ows (reverse s)).

(** The loop over the pairs of the [Cookie] header.  A round ends the loop or
    drops at least a semicolon, so the length of the text is enough fuel. *)
Fixpoint cookie_value_loop (fuel : nat) (cookie : list Z) : option (list Z) :=
  match cookie, fuel with
  | [], _ | _, O => None
  | _, S fuel =>
    let name := skip_cookie_blanks cookie in
    let '(item, rest) :=
      match split_at SEMICOLON name with
      | Some (item, rest) => (item, Some rest)
      | None => (name, None)
      end in
    let continue := match rest with Some rest => cookie_value_loop fuel rest | None => None end in
    match split_at EQUALS item with
    | None => continue
    | Some (key, value) =>
      if bytes_eqb (trim_right key) (session_cookie_name cfg)
      then Some (chttp_server_trim_ows value)
      else continue
    end
  end.

(** [cookie] is the [Cookie] header of the request. *)
Definition chttp_session_cookie_value (cookie : option (list Z)) : option (list Z) :=
  match cookie with
  | None => None
  | Some cookie => cookie_value_loop (length cookie) cookie
  end.

Definition chttp_session_record_matches (s : store) (c : chttp_session_context) : bool :=
  match sc_record c with
  | None => false
  | Some i =>
    match s !! i with
    | None => false
    | Some r =>
      sr_used r && (sr_generation r =? sc_record_generation c) && bytes_eqb (sr_id r) (sc_id c)
    end
  end.

(** The first record with an index that satisfies a test. *)
Definition find_record (test : chttp_session_record -> bool) (s : store) :
    option (nat * chttp_session_record) :=
  list_find (fun r => test r = true) s.

Definition chttp_session_request_begin (s : store) (c : chttp_session_context)
    (cookie : option (list Z)) (now_ms : Z) : store * chttp_session_context :=
  let c := chttp_session_context_reset c in
  if session_capacity cfg =? 0 then (s, c)
  else
    match chttp_session_cookie_value cookie with
    | None => (s, c)
    | Some id =>
      if negb (chttp_session_hex_id id) then (s, c)
      else
        let c := c <| sc_presented := true |> in
        let s := chttp_session_expire_locked s now_ms in
        match find_record (fun r => sr_used r && bytes_eqb (sr_id r) id) s with
        | None => (s, c)
        | Some (i, r) =>
          let r := r <| sr_expires_at_ms := chttp_session_expiry now_ms |> in
          let c := c <| sc_record := Some i |> <| sc_record_generation := sr_generation r |>
                     <| sc_id := sr_id r |> in
          (<[i := r]> s, chttp_session_snapshot_from_record c r)
        end
    end.

Definition chttp_session_id_exists_locked (s : store) (id : list Z) : bool :=
  existsb (fun r => sr_used r && bytes_eqb (sr_id r) id) s.

Definition hex_digit (n : Z) : Z := if n <? 10 then 48 + n else 87 + n.

Definition hex_text (random : list Z) : list Z :=
  concat (map (fun b => [hex_digit (Z.shiftr b 4); hex_digit (Z.land b 0x0f)]) random).

(** The loop over the attempts; [random] gives the bytes of an attempt or the
    error of the platform. *)
Fixpoint generate_id_loop (random : nat -> list Z + salts_status) (s : store) (attempt count : nat) :
    outcome (list Z) :=
  match count with
  | O => Err SALTS_EALREADY
  | S count =>
    match random attempt with
    | inr status => Err status
    | inl bytes =>
      let id := hex_text bytes in
      if negb (chttp_session_id_exists_locked s id) then Ok id
      else generate_id_loop random s (S attempt) count
    end
  end.

Definition chttp_session_generate_id_locked (random : nat -> list Z + salts_status) (s : store) :
    outcome (list Z) :=
  generate_id_loop random s 0 CHTTP_SESSION_ID_ATTEMPTS.

Definition chttp_session_create (random : nat -> list Z + salts_status) (s : store)
    (c : chttp_session_context) (now_ms : Z) : store * chttp_session_context * salts_status :=
  let s := chttp_session_expire_locked s now_ms in
  match find_record (fun r => negb (sr_used r)) s with
  | None => (s, c, SALTS_ENOBUFS)
  | Some (i, r) =>
    match chttp_session_generate_id_locked random s with
    | Err status => (s, c, status)
    | Ok id =>
      let r := {| sr_id := id; sr_entries := chttp_session_entries_clear (sr_entries r);
                  sr_expires_at_ms := chttp_session_expiry now_ms;
                  sr_generation := chttp_session_generation_next (sr_generation r);
                  sr_used := true |} in
      let c := c <| sc_record := Some i |> <| sc_record_generation := sr_generation r |>
                 <| sc_id := id |> <| sc_created := true |> <| sc_invalidated := false |>
                 <| sc_dirty := false |> in
      (<[i := r]> s, chttp_session_snapshot_clear c, SALTS_OK)
    end
  end.

(** ** The operations of a request *)

Definition entry_is (key : list Z) (e : chttp_session_entry) : bool :=
  se_used e && bytes_eqb (se_key e) key.

Definition chttp_session_get (c : chttp_session_context) (key : list Z) : option (list Z) :=
  if is_none (sc_record c) || sc_invalidated c then None
  else se_value <$> (snd <$> list_find (fun e => entry_is key e = true) (sc_snapshot_entries c)).

(** The loop of [chttp_session_set]: the entry with the key, or the first free
    one. *)
Definition set_entry (entries : list chttp_session_entry) (key value : list Z) :
    option (list chttp_session_entry) :=
  let entry := {| se_used := true; se_key := key; se_value := value |} in
  match list_find (fun e => entry_is key e = true) entries with
  | Some (i, _) => Some (<[i := entry]> entries)
  | None =>
    match list_find (fun e => se_used e = false) entries with
    | Some (i, _) => Some (<[i := entry]> entries)
    | None => None
    end
  end.

Definition chttp_session_set (random : nat -> list Z + salts_status) (s : store)
    (c : chttp_session_context) (key value : list Z) (now_ms : Z) :
    store * chttp_session_context * salts_status :=
  if (zlen key =? 0) || sc_invalidated c then (s, c, SALTS_EINVAL)
  else if (max_session_key_bytes cfg <? zlen key) || (max_session_value_bytes cfg <? zlen value)
  then (s, c, SALTS_EMSGSIZE)
  else
    let '(s, c, status) :=
      match sc_record c with
      | None => chttp_session_create random s c now_ms
      | Some _ => (s, c, SALTS_OK)
      end in
    if negb (bool_decide (status = SALTS_OK)) then (s, c, status)
    else
      match set_entry (sc_snapshot_entries c) key value with
      | None => (s, c, SALTS_ENOBUFS)
      | Some entries => (s, c <| sc_snapshot_entries := entries |> <| sc_dirty := true |>, SALTS_OK)
      end.

Definition chttp_session_remove (c : chttp_session_context) (key : list Z) :
    chttp_session_context * salts_status :=
  if (zlen key =? 0) || sc_invalidated c then (c, SALTS_EINVAL)
  else if is_none (sc_record c) then (c, SALTS_ENOENT)
  else
    match list_find (fun e => entry_is key e = true) (sc_snapshot_entries c) with
    | None => (c, SALTS_ENOENT)
    | Some (i, _) =>
      (c <| sc_snapshot_entries := <[i := entry_empty]> (sc_snapshot_entries c) |>
         <| sc_dirty := true |>, SALTS_OK)
    end.

Definition chttp_session_clear (c : chttp_session_context) : chttp_session_context * salts_status :=
  if sc_invalidated c then (c, SALTS_EINVAL)
  else if is_none (sc_record c) then (c, SALTS_OK)
  else ((chttp_session_snapshot_clear c) <| sc_dirty := true |>, SALTS_OK).

Definition upd_record (s : store) (i : nat) (f : chttp_session_record -> chttp_session_record) : store :=
  alter f i s.

Definition chttp_session_regenerate (random : nat -> list Z + salts_status) (s : store)
    (c : chttp_session_context) (now_ms : Z) : store * chttp_session_context * salts_status :=
  if sc_invalidated c then (s, c, SALTS_EINVAL)
  else
    match sc_record c with
    | None => chttp_session_create random s c now_ms
    | Some i =>
      if negb (chttp_session_record_matches s c) then (s, c, SALTS_ENOENT)
      else
        match chttp_session_generate_id_locked random s with
        | Err status => (s, c, status)
        | Ok id =>
          let generation :=
            chttp_session_generation_next (match s !! i with Some r => sr_generation r | None => 0 end) in
          (upd_record s i (fun r =>
             r <| sr_id := id |> <| sr_expires_at_ms := chttp_session_expiry now_ms |>
               <| sr_generation := generation |>),
           c <| sc_record_generation := generation |> <| sc_id := id |> <| sc_created := true |>
             <| sc_presented := false |>, SALTS_OK)
        end
    end.

(** The context lets go of its record. *)
Definition release_record (c : chttp_session_context) : chttp_session_context :=
  c <| sc_record := None |> <| sc_record_generation := 0 |> <| sc_id := [] |>.

(** [record_clear] on the record of the context, if it still is its record. *)
Definition clear_matching (s : store) (c : chttp_session_context) : store :=
  match sc_record c with
  | Some i => if chttp_session_record_matches s c then upd_record s i chttp_session_record_clear else s
  | None => s
  end.

Definition chttp_session_invalidate (s : store) (c : chttp_session_context) :
    store * chttp_session_context * salts_status :=
  let s := clear_matching s c in
  let c := (release_record c) <| sc_invalidated := true |> <| sc_created := false |>
             <| sc_dirty := false |> in
  (s, chttp_session_snapshot_clear c, SALTS_OK).

(** ** The end of a request *)

Definition cookie_text (id : list Z) (max_age_seconds : Z) : list Z :=
  session_cookie_name cfg ++ bytes_of "=" ++ id ++
  bytes_of "; Path=/; HttpOnly; SameSite=Lax; Max-Age=" ++ decimal max_age_seconds ++
  (if session_cookie_secure cfg then bytes_of "; Secure" else []).

Section Finish.
Context {R : Type} (set_header : R -> list Z -> list Z -> R * salts_status).

Definition chttp_session_set_cookie (response : R) (id : list Z) (max_age_seconds : Z) :
    R * salts_status :=
  let cookie := cookie_text id max_age_seconds in
  if CHTTP_SESSION_COOKIE_BYTES <=? zlen cookie then (response, SALTS_EMSGSIZE)
  else set_header response (bytes_of "Set-Cookie") cookie.

Definition chttp_session_discard_created (s : store) (c : chttp_session_context) :
    store * chttp_session_context :=
  if negb (sc_created c) || is_none (sc_record c) then (s, c)
  else (clear_matching s c, (release_record c) <| sc_created := false |> <| sc_dirty := false |>).

(** What the first part of [request_finish] leaves to the second. *)
Inductive finish_next :=
  | FinishDone
  | FinishInvalidated
  | FinishStale
  | FinishCookie (id : list Z).

(** The part up to the release of the mutex. *)
Definition finish_commit (s : store) (c : chttp_session_context) (now_ms : Z) : store * finish_next :=
  if session_capacity cfg =? 0 then (s, FinishDone)
  else if sc_invalidated c then (s, FinishInvalidated)
  else
    match sc_record c with
    | None => (s, FinishDone)
    | Some i =>
      if negb (chttp_session_record_matches s c) then (s, FinishStale)
      else
        let s := upd_record s i (fun r =>
          (if sc_dirty c then chttp_session_record_from_snapshot c r else r)
            <| sr_expires_at_ms := chttp_session_expiry now_ms |>) in
        (s, FinishCookie (match s !! i with Some r => sr_id r | None => [] end))
    end.

Definition session_max_age : Z :=
  let seconds := session_idle_timeout_ms cfg / 1000 in
  let seconds := if session_idle_timeout_ms cfg mod 1000 =? 0 then seconds else seconds + 1 in
  if seconds =? 0 then 1 else seconds.

(** The part after it. *)
Definition finish_reply (s : store) (c : chttp_session_context) (response : R) (next : finish_next) :
    store * chttp_session_context * R * salts_status :=
  match next with
  | FinishDone => (s, c, response, SALTS_OK)
  | FinishInvalidated =>
    let '(response, status) := chttp_session_set_cookie response [] 0 in (s, c, response, status)
  | FinishStale =>
    let c := (release_record c) <| sc_invalidated := true |> <| sc_created := false |>
               <| sc_dirty := false |> in
    let '(response, status) := chttp_session_set_cookie response [] 0 in (s, c, response, status)
  | FinishCookie id =>
    let '(response, status) := chttp_session_set_cookie response id session_max_age in
    if negb (bool_decide (status = SALTS_OK)) && sc_created c then
      let '(s, c) := chttp_session_discard_created s c in (s, c, response, status)
    else if bool_decide (status = SALTS_OK) then
      (s, c <| sc_created := false |> <| sc_dirty := false |>, response, status)
    else (s, c, response, status)
  end.

Definition chttp_session_request_finish (s : store) (c : chttp_session_context) (response : R)
    (now_ms : Z) : store * chttp_session_context * R * salts_status :=
  let '(s, next) := finish_commit s c now_ms in finish_reply s c response next.

End Finish.

Definition chttp_session_request_abort (s : store) (c : chttp_session_context) :
    store * chttp_session_context :=
  if session_capacity cfg =? 0 then (s, c)
  else
    let '(s, c) := chttp_session_discard_created s c in
    (s, (release_record c) <| sc_dirty := false |>).

End Store.

End Session.
