(* ===== verification/SessionTheorems.v ===== *)
(** * Server sessions: theorems

    The store keeps its invariant under the operations of any number of
    requests in any order, a request changes no live session but its own, the
    context of a request is a finite map, and what a request leaves in its
    session is what the next one with the same cookie finds. *)

From S2P Require Import Prelude HpackBuffer Router Http1Parser Session.

Module SessionTheorems.
Import HpackBuffer Router Http1Parser Session.

(** ** Entries *)

Definition entry_ok (cfg : session_config) (e : chttp_session_entry) : Prop :=
  if se_used e
  then 0 < zlen (se_key e) <= max_session_key_bytes cfg /\ zlen (se_value e) <= max_session_value_bytes cfg
  else e = entry_empty.

(** Used entries have different keys. *)
Definition keys_distinct (entries : list chttp_session_entry) : Prop :=
  forall i j e f, entries !! i = Some e -> entries !! j = Some f ->
    se_used e = true -> se_used f = true -> se_key e = se_key f -> i = j.

Record entries_ok (cfg : session_config) (entries : list chttp_session_entry) : Prop := {
  eo_length : length entries = Z.to_nat (session_entry_capacity cfg);
  eo_entries : Forall (entry_ok cfg) entries;
  eo_distinct : keys_distinct entries;
}.

(** The value of a key. *)
Definition entries_get (entries : list chttp_session_entry) (key : list Z) : option (list Z) :=
  se_value <$> (snd <$> list_find (fun e => entry_is key e = true) entries).

Lemma entry_is_true key e : entry_is key e = true <-> se_used e = true /\ se_key e = key.
Proof. unfold entry_is. by rewrite andb_true_iff, bytes_eqb_eq. Qed.

(** With distinct keys the value is the one of the entry with the key. *)
Lemma entries_get_Some entries key value :
  keys_distinct entries ->
  entries_get entries key = Some value <->
  exists i e, entries !! i = Some e /\ se_used e = true /\ se_key e = key /\ se_value e = value.
Proof.
  intros Hd. unfold entries_get. split.
  - destruct (list_find _ entries) as [[i e]|] eqn:E; [|done]. cbn. intros [= <-].
    apply list_find_Some in E as (Hi & He & _). apply entry_is_true in He as [? ?]. by exists i, e.
  - intros (i & e & Hi & Hu & Hk & <-).
    destruct (list_find (fun e => entry_is key e = true) entries) as [[j f]|] eqn:E; cycle 1.
    { apply list_find_None in E. rewrite Forall_lookup in E. destruct (E i e Hi). by apply entry_is_true. }
    cbn. apply list_find_Some in E as (Hj & Hf & _). apply entry_is_true in Hf as [Hfu Hfk].
    assert (i = j) as <- by (apply (Hd i j e f); congruence). congruence.
Qed.

Lemma entries_get_None entries key :
  entries_get entries key = None <->
  forall i e, entries !! i = Some e -> se_used e = true -> se_key e <> key.
Proof.
  unfold entries_get. split.
  - destruct (list_find _ entries) as [[i e]|] eqn:E; [done|]. intros _ j f Hj Hf Hk.
    apply list_find_None in E. rewrite Forall_lookup in E. destruct (E j f Hj). by apply entry_is_true.
  - intros H. destruct (list_find (fun e => entry_is key e = true) entries) as [[i e]|] eqn:E; [|done].
    apply list_find_Some in E as (Hi & He & _). apply entry_is_true in He as [? ?]. by destruct (H i e).
Qed.

Lemma entries_get_ext entries entries' :
  keys_distinct entries -> keys_distinct entries' ->
  (forall i e, se_used e = true -> entries !! i = Some e <-> entries' !! i = Some e) ->
  forall key, entries_get entries key = entries_get entries' key.
Proof.
  intros Hd Hd' H key. destruct (entries_get entries key) as [v|] eqn:E.
  - symmetry. apply entries_get_Some; [done|]. apply entries_get_Some in E as (i & e & Hi & Hu & Hk & Hv); [|done].
    exists i, e. split; [by apply H|done].
  - symmetry. rewrite entries_get_None in *. intros i e Hi Hu. apply (E i e); [by apply H|done].
Qed.

Lemma fresh_entries_ok cfg : entries_ok cfg (fresh_entries cfg).
Proof.
  unfold fresh_entries. split; [apply length_replicate|by apply Forall_replicate|].
  intros i j e f Hi _ Hu. apply lookup_replicate in Hi as [-> _]. done.
Qed.

Lemma entries_clear_fresh cfg entries :
  entries_ok cfg entries -> chttp_session_entries_clear entries = fresh_entries cfg.
Proof.
  intros [Hl _ _]. unfold chttp_session_entries_clear, fresh_entries. rewrite <- Hl.
  clear. induction entries as [|e entries IH]; [done|]. cbn. by rewrite IH.
Qed.

Lemma copy_entries_ok cfg entries : entries_ok cfg entries -> copy_entries entries = entries.
Proof.
  intros [_ He _]. unfold copy_entries. induction He as [|e entries He _ IH]; [done|]. cbn. rewrite IH.
  unfold entry_ok in He. destruct (se_used e); [done|]. by rewrite He.
Qed.

Section Insert.
Context (cfg : session_config) (entries : list chttp_session_entry) (i : nat) (old new : chttp_session_entry).
Hypothesis ok : entries_ok cfg entries.
Hypothesis at_i : entries !! i = Some old.
Hypothesis new_ok : entry_ok cfg new.
(** No other entry has the key of the new one. *)
Hypothesis fresh : forall j e, j <> i -> entries !! j = Some e -> se_used e = true -> se_used new = true ->
  se_key e <> se_key new.

Lemma insert_lookup j e :
  <[i := new]> entries !! j = Some e <-> (j = i /\ e = new) \/ (j <> i /\ entries !! j = Some e).
Proof using at_i.
  clear fresh. rewrite list_lookup_insert_Some. pose proof (lookup_lt_Some _ _ _ at_i). split.
  - intros [(-> & <- & _)|[? ?]]; auto.
  - intros [[-> ->]|[? ?]]; auto.
Qed.

Lemma insert_ok : entries_ok cfg (<[i := new]> entries).
Proof.
  destruct ok as [Hl He Hd]. split; [by rewrite length_insert|by apply Forall_insert|].
  intros j k e f Hj Hk Hu Hv Hkey. apply insert_lookup in Hj, Hk.
  destruct Hj as [[-> ->]|[Hj Hj']], Hk as [[-> ->]|[Hk Hk']]; [done| | |].
  - by destruct (fresh k f).
  - by destruct (fresh j e).
  - by apply (Hd j k e f).
Qed.

Lemma insert_get_new : se_used new = true -> entries_get (<[i := new]> entries) (se_key new) = Some (se_value new).
Proof.
  intros Hu. apply entries_get_Some; [apply insert_ok|]. exists i, new. split; [|done].
  apply insert_lookup. by left.
Qed.

Lemma insert_get_other key :
  (se_used old = true -> se_key old <> key) -> (se_used new = true -> se_key new <> key) ->
  entries_get (<[i := new]> entries) key = entries_get entries key.
Proof.
  intros Ho Hn. destruct ok as [_ _ Hd]. destruct (entries_get entries key) as [v|] eqn:E.
  - apply entries_get_Some in E as (j & e & Hj & Hu & Hk & Hv); [|done].
    apply entries_get_Some; [apply insert_ok|]. exists j, e. split; [|done]. apply insert_lookup.
    right. split; [|done]. intros ->. simplify_eq. by apply Ho.
  - rewrite entries_get_None in *. intros j e Hj Hu. apply insert_lookup in Hj as [[-> ->]|[? Hj]]; [by apply Hn|].
    by apply (E j e).
Qed.

End Insert.

(** Setting a key. *)
Lemma set_entry_spec cfg entries key value :
  entries_ok cfg entries -> 0 < zlen key <= max_session_key_bytes cfg -> zlen value <= max_session_value_bytes cfg ->
  match set_entry entries key value with
  | Some entries' =>
    entries_ok cfg entries' /\
    forall k, entries_get entries' k = if bool_decide (k = key) then Some value else entries_get entries k
  | None => entries_get entries key = None /\ Forall (fun e => se_used e = true) entries
  end.
Proof.
  intros Hok Hk Hv. unfold set_entry.
  assert (entry_ok cfg {| se_used := true; se_key := key; se_value := value |}) as Hnew by done.
  set (new := {| se_used := true; se_key := key; se_value := value |}) in *.
  assert (forall i old, entries !! i = Some old ->
    (forall j e, j <> i -> entries !! j = Some e -> se_used e = true -> se_used new = true -> se_key e <> se_key new) ->
    (se_used old = true -> se_key old = key) ->
    entries_ok cfg (<[i := new]> entries) /\
    forall k, entries_get (<[i := new]> entries) k = if bool_decide (k = key) then Some value else entries_get entries k) as Hins.
  { intros i old Hi Hf Ho. split; [by eapply insert_ok|]. intros k. case_bool_decide as Hkk.
    - subst k. by apply (insert_get_new cfg entries i old new).
    - apply (insert_get_other cfg entries i old new); [done..| |].
      + intros Hu E. apply Hkk. by rewrite <- E, Ho.
      + intros _ E. by apply Hkk. }
  destruct (list_find (fun e => entry_is key e = true) entries) as [[i e]|] eqn:E1.
  { apply list_find_Some in E1 as (Hi & He & _). apply entry_is_true in He as [Hu Hkey].
    apply (Hins i e); [done| |done]. intros j f Hj Hjf Hfu _ Heq. apply Hj.
    apply (eo_distinct _ _ Hok j i f e); try done. by rewrite Hkey. }
  assert (entries_get entries key = None) as Hnone by (unfold entries_get; by rewrite E1).
  destruct (list_find (fun e => se_used e = false) entries) as [[i e]|] eqn:E2; cycle 1.
  { split; [done|]. apply list_find_None in E2. eapply Forall_impl; [exact E2|]. intros e. cbn. by destruct (se_used e). }
  apply list_find_Some in E2 as (Hi & He & _). apply (Hins i e); [done| |by rewrite He].
  intros j f _ Hj Hu _. rewrite entries_get_None in Hnone. by apply (Hnone j f).
Qed.

(** Removing one. *)
Lemma remove_entry_spec cfg entries i e :
  entries_ok cfg entries -> entries !! i = Some e -> se_used e = true ->
  entries_ok cfg (<[i := entry_empty]> entries) /\
  forall k, entries_get (<[i := entry_empty]> entries) k =
    if bool_decide (k = se_key e) then None else entries_get entries k.
Proof.
  intros Hok Hi Hu. split; [by eapply insert_ok|]. intros k. case_bool_decide as Hk.
  - subst k. apply entries_get_None. intros j f Hj Hfu Hfk.
    destruct (proj1 (insert_lookup entries i e entry_empty Hi j f) Hj) as [[-> ->]|[Hji Hjf]]; [done|].
    apply Hji. by apply (eo_distinct _ _ Hok j i f e).
  - apply (insert_get_other cfg entries i e entry_empty); [done..| |done]. congruence.
Qed.

Lemma fresh_get cfg key : entries_get (fresh_entries cfg) key = None.
Proof. apply entries_get_None. intros i e Hi Hu. apply lookup_replicate in Hi as [-> _]. done. Qed.

(** ** The store *)

Record record_ok (cfg : session_config) (r : chttp_session_record) : Prop := {
  ro_entries : entries_ok cfg (sr_entries r);
  ro_generation : is_u32 (sr_generation r);
  ro_id : if sr_used r then chttp_session_hex_id (sr_id r) = true else sr_id r = [];
}.

(** Used records have different ids. *)
Definition ids_distinct (s : store) : Prop :=
  forall i j r q, s !! i = Some r -> s !! j = Some q ->
    sr_used r = true -> sr_used q = true -> sr_id r = sr_id q -> i = j.

Record store_ok (cfg : session_config) (s : store) : Prop := {
  st_length : length s = Z.to_nat (session_capacity cfg);
  st_records : Forall (record_ok cfg) s;
  st_ids : ids_distinct s;
}.

(** The context of a request. *)
Definition context_ok (cfg : session_config) (c : chttp_session_context) : Prop :=
  if session_capacity cfg =? 0 then sc_snapshot_entries c = [] /\ sc_record c = None
  else entries_ok cfg (sc_snapshot_entries c).

Section Store.
Context (cfg : session_config).

Lemma generation_next_u32 g : is_u32 (chttp_session_generation_next g).
Proof. unfold chttp_session_generation_next. cbv zeta. pose proof (u32_range (g + 1)). split_if; [zlia|done]. Qed.

Lemma entries_clear_ok entries : entries_ok cfg entries -> entries_ok cfg (chttp_session_entries_clear entries).
Proof. intros H. rewrite (entries_clear_fresh cfg) by done. apply fresh_entries_ok. Qed.

Lemma record_clear_ok r : record_ok cfg r -> record_ok cfg (chttp_session_record_clear r).
Proof. intros []. split; cbn; [by apply entries_clear_ok|apply generation_next_u32|done]. Qed.

Lemma expire_ok s now : store_ok cfg s -> store_ok cfg (chttp_session_expire_locked s now).
Proof.
  intros [Hl Hr Hi]. unfold chttp_session_expire_locked. split; [by rewrite length_map| |].
  - apply Forall_map. eapply Forall_impl; [exact Hr|]. intros r H. cbn. split_if; [by apply record_clear_ok|done].
  - intros i j r q Hir Hjq Hu Hv E. change (map ?f s) with (f <$> s) in *.
    apply list_lookup_fmap_Some in Hir as (r0 & -> & Hir). apply list_lookup_fmap_Some in Hjq as (q0 & -> & Hjq).
    destruct (expired now r0); [done|]. destruct (expired now q0); [done|]. by apply (Hi i j r0 q0).
Qed.

Lemma expire_keeps s now j r :
  s !! j = Some r -> expired now r = false -> chttp_session_expire_locked s now !! j = Some r.
Proof.
  intros Hj Hx. unfold chttp_session_expire_locked. change (map ?f s) with (f <$> s).
  apply list_lookup_fmap_Some. exists r. by rewrite Hx.
Qed.

(** Replacing a record by one with a fresh id, or its own. *)
Lemma store_insert_ok s i r :
  store_ok cfg s -> record_ok cfg r -> 
  (sr_used r = true -> forall j q, j <> i -> s !! j = Some q -> sr_used q = true -> sr_id q <> sr_id r) ->
  store_ok cfg (<[i := r]> s).
Proof.
  intros [Hl Hr Hi] Hok Hfresh. split; [by rewrite length_insert|by apply Forall_insert|].
  intros j k q p Hj Hk Hu Hv E.
  apply list_lookup_insert_Some in Hj as [(-> & -> & _)|[Hj Hj']];
    apply list_lookup_insert_Some in Hk as [(<- & -> & _)|[Hk Hk']]; try done.
  - by destruct (Hfresh Hu k p).
  - by destruct (Hfresh Hv j q).
  - by apply (Hi j k q p).
Qed.

Lemma alter_insert s i f r : s !! i = Some r -> upd_record s i f = <[i := f r]> s.
Proof.
  intros H. unfold upd_record. apply list_eq. intros j. destruct (decide (i = j)) as [<-|Hj].
  - rewrite list_lookup_alter_eq, H. symmetry. apply list_lookup_insert_eq. by eapply lookup_lt_Some.
  - by rewrite list_lookup_alter_ne, list_lookup_insert_ne.
Qed.

Lemma find_record_Some test s i r :
  find_record test s = Some (i, r) -> s !! i = Some r /\ test r = true.
Proof. intros H. by apply list_find_Some in H as (? & ? & _). Qed.

Lemma find_record_lookup test s i r :
  s !! i = Some r -> test r = true -> (forall j q, s !! j = Some q -> test q = true -> j = i) ->
  find_record test s = Some (i, r).
Proof.
  intros Hi Ht Hu. unfold find_record. destruct (list_find (fun r => test r = true) s) as [[j q]|] eqn:E.
  - apply list_find_Some in E as (Hj & Hq & _). assert (j = i) as -> by by apply (Hu j q). congruence.
  - apply list_find_None in E. rewrite Forall_lookup in E. by destruct (E i r Hi).
Qed.

(** An id that is used by no record. *)
Lemma id_exists_false s id :
  chttp_session_id_exists_locked s id = false ->
  forall j q, s !! j = Some q -> sr_used q = true -> sr_id q <> id.
Proof.
  unfold chttp_session_id_exists_locked. intros H j q Hj Hu E.
  assert (existsb (fun r => sr_used r && bytes_eqb (sr_id r) id) s = true); [|congruence].
  apply existsb_exists. exists q. split; [|by rewrite Hu, E, bytes_eqb_refl].
  apply list_elem_of_In. by eapply list_elem_of_lookup_2.
Qed.

(** What the platform promises of random numbers. *)
Definition random_ok (random : nat -> list Z + salts_status) : Prop :=
  forall n, match random n with
            | inl bytes => zlen bytes = CHTTP_SESSION_ID_RANDOM_BYTES /\ is_bytes bytes
            | inr status => status <> SALTS_OK
            end.

Lemma hex_digit_hex n : 0 <= n < 16 -> is_hex (hex_digit n) = true.
Proof.
  intros H. unfold is_hex, hex_digit.
  destruct (n <? 10) eqn:E; bool_prop; rewrite !orb_true_iff, !andb_true_iff, !Z.leb_le; lia.
Qed.

Lemma hex_text_hex bytes : is_bytes bytes -> forallb is_hex (hex_text bytes) = true /\ zlen (hex_text bytes) = 2 * zlen bytes.
Proof.
  unfold hex_text. induction 1 as [|b bytes Hb _ IH]; [done|]. destruct IH as [IH1 IH2].
  cbn [map concat app forallb]. rewrite !zlen_cons, IH2, IH1. split; [|lia].
  rewrite !hex_digit_hex; [done| |].
  - change 0x0f with (2 ^ 4 - 1). rewrite (land_mask b 4) by lia. apply Z.mod_pos_bound. lia.
  - rewrite Z.shiftr_div_pow2 by lia. unfold is_u8 in Hb. split; [apply Z.div_pos; lia|]. apply Z.div_lt_upper_bound; lia.
Qed.

Lemma generate_id_spec random s id :
  random_ok random -> chttp_session_generate_id_locked random s = Ok id ->
  chttp_session_hex_id id = true /\ forall j q, s !! j = Some q -> sr_used q = true -> sr_id q <> id.
Proof.
  intros Hr. unfold chttp_session_generate_id_locked. generalize CHTTP_SESSION_ID_ATTEMPTS as count, 0%nat as n.
  induction count as [|count IH]; intros n E; cbn in E; [done|].
  specialize (Hr n) as Hn. destruct (random n) as [bytes|]; [|done]. destruct Hn as [Hl Hb].
  destruct (chttp_session_id_exists_locked s (hex_text bytes)) eqn:Ex; cbn in E; [by apply (IH (S n))|].
  injection E as <-. destruct (hex_text_hex bytes Hb) as [H1 H2]. split; [|by apply id_exists_false].
  unfold chttp_session_hex_id. rewrite H1, H2, Hl. done.
Qed.

(** *** What the parts of the operations do to the store *)

(** The operation may change a record only if it has expired or has the id that
    the request holds. *)
Definition touches_only (s s' : store) (now : option Z) (own : list Z) : Prop :=
  forall j r, s !! j = Some r -> sr_used r = true ->
    (forall t, now = Some t -> t < sr_expires_at_ms r) -> sr_id r <> own -> s' !! j = Some r.

Lemma touches_refl s now own : touches_only s s now own.
Proof. by intros j r. Qed.

Lemma not_expired now t r :
  now = Some t -> (forall t, now = Some t -> t < sr_expires_at_ms r) -> expired t r = false.
Proof. intros -> H. unfold expired. specialize (H t eq_refl). apply andb_false_iff. right. lia. Qed.

Lemma expire_touches s t own : touches_only s (chttp_session_expire_locked s t) (Some t) own.
Proof. intros j r Hj _ Ht _. apply expire_keeps; [done|]. by eapply not_expired. Qed.

Lemma insert_touches s s' i r t own :
  touches_only s s' t own ->
  (forall q, s' !! i = Some q -> sr_used q = true -> sr_id q = own) -> touches_only s (<[i := r]> s') t own.
Proof.
  intros H Hi j q Hj Hu Ht Hn. specialize (H j q Hj Hu Ht Hn).
  rewrite list_lookup_insert_ne; [done|]. intros ->. by apply Hn, (Hi q).
Qed.

Lemma begin_ok s c cookie now :
  store_ok cfg s -> context_ok cfg c ->
  let '(s', c') := chttp_session_request_begin cfg s c cookie now in
  store_ok cfg s' /\ context_ok cfg c' /\
  touches_only s s' (Some now) (default [] (chttp_session_cookie_value cfg cookie)).
Proof.
  intros Hs Hc. unfold chttp_session_request_begin.
  assert (context_ok cfg (chttp_session_context_reset c)) as Hc'.
  { unfold context_ok in *. cbn. destruct (session_capacity cfg =? 0); [by destruct Hc as [-> _]|by apply entries_clear_ok]. }
  split_if; [auto using touches_refl|].
  destruct (chttp_session_cookie_value cfg cookie) as [id|]; [|auto using touches_refl]. cbn [default].
  split_if; [auto using touches_refl|]. cbv zeta.
  pose proof (expire_ok s now Hs) as He. pose proof (expire_touches s now id) as Ht.
  destruct (find_record _ _) as [[i r]|] eqn:E; [|done].
  apply find_record_Some in E as [Hi Hr]. bool_prop. apply bytes_eqb_eq in H0.
  assert (record_ok cfg r) as Hrok by exact (proj1 (Forall_lookup _ _) (st_records _ _ He) i r Hi).
  split_and!.
  - apply store_insert_ok; [done|by destruct Hrok|]. intros _ j q Hj Hq Hu. cbn. intros E.
    apply Hj. by apply (st_ids _ _ He j i q r).
  - unfold context_ok in *. rewrite (proj2 (Z.eqb_neq _ _)) in * by done. cbn.
    destruct Hrok as [Hen _ _]. rewrite (copy_entries_ok cfg) by done. done.
  - apply insert_touches; [done|]. intros q Hq _. rewrite Hi in Hq. by injection Hq as <-.
Qed.

Lemma session_create_ok random s c now :
  random_ok random -> store_ok cfg s -> context_ok cfg c -> session_capacity cfg <> 0 ->
  let '(s', c', status) := chttp_session_create cfg random s c now in
  store_ok cfg s' /\ context_ok cfg c' /\ (forall own, touches_only s s' (Some now) own) /\
  (status = SALTS_OK -> sc_invalidated c' = false /\ sc_record c' <> None /\ chttp_session_record_matches s' c' = true /\
     sc_snapshot_entries c' = fresh_entries cfg).
Proof.
  intros Hrand Hs Hc Hcap. unfold chttp_session_create. cbv zeta.
  pose proof (expire_ok s now Hs) as He. pose proof (expire_touches s now) as Ht.
  destruct (find_record _ _) as [[i r]|] eqn:E; [|split_and!; auto; done].
  apply find_record_Some in E as [Hi Hr]. bool_prop.
  destruct (chttp_session_generate_id_locked random _) as [id|status] eqn:Eg; cycle 1.
  { split_and!; auto. intros ->. exfalso. revert Eg. unfold chttp_session_generate_id_locked.
    clear -Hrand. generalize CHTTP_SESSION_ID_ATTEMPTS as count, 0%nat as n.
    induction count as [|count IH]; intros n; cbn; [done|]. specialize (Hrand n) as Hn.
    destruct (random n); [|congruence]. split_if; [done|apply IH]. }
  apply generate_id_spec in Eg as [Hhex Hfresh]; [|done].
  assert (record_ok cfg r) as Hrok by exact (proj1 (Forall_lookup _ _) (st_records _ _ He) i r Hi).
  assert (context_ok cfg c -> entries_ok cfg (sc_snapshot_entries c)) as Hce.
  { unfold context_ok. by rewrite (proj2 (Z.eqb_neq _ _)). }
  split_and!.
  - apply store_insert_ok; [done| |intros _ j q _ Hj Hu; cbn; by apply (Hfresh j q)].
    destruct Hrok. split; cbn; [by apply entries_clear_ok|apply generation_next_u32|done].
  - unfold context_ok. rewrite (proj2 (Z.eqb_neq _ _)) by done. cbn. by apply entries_clear_ok, Hce.
  - intros own. apply insert_touches; [done|]. intros q Hq Hu. congruence.
  - intros _. split_and!; [done|done| |].
    + unfold chttp_session_record_matches. cbn. rewrite list_lookup_insert_eq by (by eapply lookup_lt_Some).
      cbn. by rewrite Z.eqb_refl, bytes_eqb_refl.
    + cbn. by apply entries_clear_fresh, Hce.
Qed.

(** The record that matches a context. *)
Lemma matches_record s c :
  chttp_session_record_matches s c = true ->
  exists i r, sc_record c = Some i /\ s !! i = Some r /\ sr_used r = true /\
    sr_generation r = sc_record_generation c /\ sr_id r = sc_id c.
Proof.
  unfold chttp_session_record_matches. destruct (sc_record c) as [i|]; [|done].
  destruct (s !! i) as [r|] eqn:E; [|done]. intros H. bool_prop. apply bytes_eqb_eq in H0. by exists i, r.
Qed.

Lemma clear_matching_ok s c :
  store_ok cfg s -> store_ok cfg (clear_matching s c) /\ touches_only s (clear_matching s c) None (sc_id c).
Proof.
  intros Hs. unfold clear_matching. destruct (sc_record c) as [i|] eqn:Ei; [|auto using touches_refl].
  destruct (chttp_session_record_matches s c) eqn:Hm; [|auto using touches_refl].
  apply matches_record in Hm as (j & r & Hj & Hr & Hu & _ & Hid).
  rewrite Ei in Hj. injection Hj as <-. rewrite (alter_insert s i _ r Hr).
  assert (record_ok cfg r) as Hrok by exact (proj1 (Forall_lookup _ _) (st_records _ _ Hs) i r Hr).
  split; [by apply store_insert_ok; [|by apply record_clear_ok|]|].
  apply insert_touches; [apply touches_refl|]. intros q Hq _. congruence.
Qed.

(** *** The operations *)

(** A request: its context, and what its end has left to do. *)
Record request := {
  rq_context : chttp_session_context;
  rq_next : finish_next;
}.

(** The clock, the random numbers and the status of setting a header are
    whatever they are. *)
Inductive session_op :=
  | OpBegin (cookie : option (list Z)) (now_ms : Z)
  | OpSet (random : nat -> list Z + salts_status) (key value : list Z) (now_ms : Z)
  | OpRemove (key : list Z)
  | OpClear
  | OpRegenerate (random : nat -> list Z + salts_status) (now_ms : Z)
  | OpInvalidate
  | OpCommit (now_ms : Z)
  | OpReply (header_status : salts_status)
  | OpAbort.

Definition op_ok (op : session_op) : Prop :=
  match op with OpSet random _ _ _ | OpRegenerate random _ => random_ok random | _ => True end.

Definition run_op (s : store) (rq : request) (op : session_op) : store * request :=
  let c := rq_context rq in
  let keep c := {| rq_context := c; rq_next := rq_next rq |} in
  match op with
  | OpBegin cookie now =>
    let '(s, c) := chttp_session_request_begin cfg s c cookie now in
    (s, {| rq_context := c; rq_next := FinishDone |})
  | OpSet random key value now =>
    let '(s, c, _) := chttp_session_set cfg random s c key value now in (s, keep c)
  | OpRemove key => (s, keep (chttp_session_remove c key).1)
  | OpClear => (s, keep (chttp_session_clear c).1)
  | OpRegenerate random now =>
    let '(s, c, _) := chttp_session_regenerate cfg random s c now in (s, keep c)
  | OpInvalidate => let '(s, c, _) := chttp_session_invalidate s c in (s, keep c)
  | OpCommit now =>
    let '(s, next) := finish_commit cfg s c now in (s, {| rq_context := c; rq_next := next |})
  | OpReply status =>
    let '(s, c, _, _) := finish_reply cfg (fun (_ : unit) _ _ => (tt, status)) s c tt (rq_next rq) in
    (s, {| rq_context := c; rq_next := FinishDone |})
  | OpAbort => let '(s, c) := chttp_session_request_abort cfg s c in (s, keep c)
  end.

(** The time an operation looks at, and the id it may act on. *)
Definition op_now (op : session_op) : option Z :=
  match op with
  | OpBegin _ now | OpSet _ _ _ now | OpRegenerate _ now => Some now
  | _ => None
  end.

Definition op_id (rq : request) (op : session_op) : list Z :=
  match op with
  | OpBegin cookie _ => default [] (chttp_session_cookie_value cfg cookie)
  | _ => sc_id (rq_context rq)
  end.

Lemma touches_any s s' now own : touches_only s s' None own -> touches_only s s' now own.
Proof. intros H j r Hj Hu _ Hn. by apply H. Qed.

Lemma context_ok_same c c' :
  sc_snapshot_entries c' = sc_snapshot_entries c -> (sc_record c = None -> sc_record c' = None) ->
  context_ok cfg c -> context_ok cfg c'.
Proof. unfold context_ok. intros -> Hr. destruct (session_capacity cfg =? 0); [|done]. intros [? ?]. auto. Qed.

Lemma context_ok_entries c :
  context_ok cfg c -> sc_record c <> None -> session_capacity cfg <> 0 /\ entries_ok cfg (sc_snapshot_entries c).
Proof. unfold context_ok. destruct (Z.eqb_spec (session_capacity cfg) 0); [|done]. by intros [_ ?]. Qed.

Lemma context_ok_intro c entries :
  session_capacity cfg <> 0 -> entries_ok cfg entries -> sc_snapshot_entries c = entries -> context_ok cfg c.
Proof. intros Hc He E. unfold context_ok. by rewrite (proj2 (Z.eqb_neq _ _)), E. Qed.

Lemma snapshot_clear_ok c : context_ok cfg c -> context_ok cfg (chttp_session_snapshot_clear c).
Proof.
  unfold context_ok. cbn. destruct (session_capacity cfg =? 0); [by intros [-> ?]|apply entries_clear_ok].
Qed.

(** Without sessions there is nothing to create. *)
Lemma create_none random s c now :
  store_ok cfg s -> session_capacity cfg = 0 -> chttp_session_create cfg random s c now = (s, c, SALTS_ENOBUFS).
Proof. intros [Hl _ _] E. rewrite E in Hl. destruct s; [done|by cbn in Hl]. Qed.

Lemma create_any random s c now :
  random_ok random -> store_ok cfg s -> context_ok cfg c ->
  let '(s', c', status) := chttp_session_create cfg random s c now in
  store_ok cfg s' /\ context_ok cfg c' /\ (forall own, touches_only s s' (Some now) own) /\
  (status = SALTS_OK -> sc_record c' <> None).
Proof.
  intros Hr Hs Hc. destruct (Z.eq_dec (session_capacity cfg) 0) as [E|E].
  - rewrite create_none by done. split_and!; auto using touches_refl; done.
  - pose proof (session_create_ok random s c now Hr Hs Hc E) as H.
    destruct (chttp_session_create cfg random s c now) as [[s' c'] status].
    destruct H as (? & ? & ? & H). split_and!; auto. intros Hok. by destruct (H Hok) as (_ & ? & _).
Qed.

Lemma set_ok random s c key value now :
  random_ok random -> store_ok cfg s -> context_ok cfg c ->
  let '(s', c', _) := chttp_session_set cfg random s c key value now in
  store_ok cfg s' /\ context_ok cfg c' /\ (forall own, touches_only s s' (Some now) own).
Proof.
  intros Hr Hs Hc. unfold chttp_session_set. split_if; [auto using touches_refl|].
  split_if; [auto using touches_refl|].
  assert (forall s0 c0 status, store_ok cfg s0 -> context_ok cfg c0 ->
    (forall own, touches_only s s0 (Some now) own) -> (status = SALTS_OK -> sc_record c0 <> None) ->
    let '(s', c', _) := (if negb (bool_decide (status = SALTS_OK)) then (s0, c0, status)
      else match set_entry (sc_snapshot_entries c0) key value with
           | None => (s0, c0, SALTS_ENOBUFS)
           | Some entries => (s0, c0 <| sc_snapshot_entries := entries |> <| sc_dirty := true |>, SALTS_OK)
           end) in
    store_ok cfg s' /\ context_ok cfg c' /\ (forall own, touches_only s s' (Some now) own)) as Hrest.
  { intros s0 c0 status Hs0 Hc0 Ht Hrec. destruct (bool_decide (status = SALTS_OK)) eqn:Eb; cbn [negb]; [|auto].
    apply bool_decide_eq_true in Eb. destruct (context_ok_entries _ Hc0 (Hrec Eb)) as [Hcap He].
    pose proof (zlen_nonneg key).
    pose proof (set_entry_spec cfg _ key value He) as Hset. destruct (set_entry _ key value) as [entries|]; [|auto].
    split_and!; [done| |done]. eapply context_ok_intro; [done| |reflexivity]. cbn. apply Hset; lia. }
  destruct (sc_record c) as [i|] eqn:Ei; [apply Hrest; auto using touches_refl; congruence|].
  pose proof (create_any random s c now Hr Hs Hc) as Hcr.
  destruct (chttp_session_create cfg random s c now) as [[s0 c0] status]. destruct Hcr as (? & ? & ? & ?).
  by apply Hrest.
Qed.

Lemma remove_ok c key : context_ok cfg c -> context_ok cfg (chttp_session_remove c key).1.
Proof.
  intros Hc. unfold chttp_session_remove. split_if; [done|]. split_if; [done|].
  destruct (list_find _ _) as [[i e]|] eqn:E; [|done].
  apply list_find_Some in E as (Hi & He & _). apply entry_is_true in He as [Hu _].
  destruct (context_ok_entries c Hc) as [Hcap Hen]; [by destruct (sc_record c)|].
  eapply context_ok_intro; [done|by eapply remove_entry_spec|done].
Qed.

Lemma clear_ok c : context_ok cfg c -> context_ok cfg (chttp_session_clear c).1.
Proof.
  intros Hc. unfold chttp_session_clear. split_if; [done|]. split_if; [done|].
  apply snapshot_clear_ok in Hc. revert Hc. by apply context_ok_same.
Qed.

(** A change of the matching record that keeps its entries and gives it an id
    of its own. *)
Lemma matching_insert_ok s i r r' own :
  store_ok cfg s -> s !! i = Some r -> sr_used r = true -> sr_id r = own ->
  entries_ok cfg (sr_entries r') -> is_u32 (sr_generation r') -> sr_used r' = true ->
  chttp_session_hex_id (sr_id r') = true ->
  (sr_id r' = sr_id r \/ forall j q, s !! j = Some q -> sr_used q = true -> sr_id q <> sr_id r') ->
  store_ok cfg (<[i := r']> s) /\ touches_only s (<[i := r']> s) None own.
Proof.
  intros Hs Hi Hu Hid He Hg Hu' Hhex Hfresh. split.
  - apply store_insert_ok; [done|by split; [..|rewrite Hu']|]. intros _ j q Hj Hq Hqu.
    destruct Hfresh as [->|Hf]; [|by apply (Hf j q)]. intros E. apply Hj. by apply (st_ids _ _ Hs j i q r).
  - apply insert_touches; [apply touches_refl|]. intros q Hq _. congruence.
Qed.

Lemma record_of s i r : store_ok cfg s -> s !! i = Some r -> record_ok cfg r.
Proof. intros [_ H _] Hi. exact (proj1 (Forall_lookup _ _) H i r Hi). Qed.

Lemma regenerate_ok random s c now :
  random_ok random -> store_ok cfg s -> context_ok cfg c ->
  let '(s', c', _) := chttp_session_regenerate cfg random s c now in
  store_ok cfg s' /\ context_ok cfg c' /\ touches_only s s' (Some now) (sc_id c).
Proof.
  intros Hr Hs Hc. unfold chttp_session_regenerate. split_if; [auto using touches_refl|].
  destruct (sc_record c) as [i|] eqn:Ei; cycle 1.
  { pose proof (create_any random s c now Hr Hs Hc) as H.
    destruct (chttp_session_create cfg random s c now) as [[s0 c0] status]. destruct H as (? & ? & ? & ?). auto. }
  destruct (chttp_session_record_matches s c) eqn:Hm; cbn [negb]; [|auto using touches_refl].
  apply matches_record in Hm as (j & r & Hj & Hi & Hu & _ & Hid). rewrite Ei in Hj. injection Hj as <-.
  destruct (chttp_session_generate_id_locked random s) as [id|] eqn:Eg; [|auto using touches_refl].
  apply generate_id_spec in Eg as [Hhex Hfresh]; [|done]. cbv zeta. rewrite Hi, (alter_insert s i _ r Hi).
  destruct (record_of s i r Hs Hi) as [Hen _ _].
  destruct (matching_insert_ok s i r (r <| sr_id := id |> <| sr_expires_at_ms := chttp_session_expiry cfg now |>
    <| sr_generation := chttp_session_generation_next (sr_generation r) |>) (sc_id c)) as [Hs' Ht]; try done.
  - apply generation_next_u32.
  - by right.
  - split_and!; [done| |by apply touches_any]. revert Hc. by apply context_ok_same.
Qed.

Lemma commit_ok s c now :
  store_ok cfg s -> context_ok cfg c ->
  let '(s', _) := finish_commit cfg s c now in store_ok cfg s' /\ touches_only s s' None (sc_id c).
Proof.
  intros Hs Hc. unfold finish_commit. split_if; [auto using touches_refl|]. split_if; [auto using touches_refl|].
  destruct (sc_record c) as [i|] eqn:Ei; [|auto using touches_refl].
  destruct (chttp_session_record_matches s c) eqn:Hm; cbn [negb]; [|auto using touches_refl]. cbv zeta.
  apply matches_record in Hm as (j & r & Hj & Hi & Hu & _ & Hid). rewrite Ei in Hj. injection Hj as <-.
  rewrite (alter_insert s i _ r Hi). destruct (record_of s i r Hs Hi) as [Hen Hg Hhex]. rewrite Hu in Hhex.
  destruct (context_ok_entries c Hc) as [_ He]; [by rewrite Ei|].
  destruct (matching_insert_ok s i r ((if sc_dirty c then chttp_session_record_from_snapshot c r else r)
    <| sr_expires_at_ms := chttp_session_expiry cfg now |>) (sc_id c)) as [Hs' Ht]; try done.
  - destruct (sc_dirty c); [|done]. cbn. by rewrite (copy_entries_ok cfg).
  - by destruct (sc_dirty c).
  - by destruct (sc_dirty c).
  - by destruct (sc_dirty c).
  - left. by destruct (sc_dirty c).
Qed.

Lemma release_ok c : context_ok cfg c -> context_ok cfg (release_record c).
Proof. by apply context_ok_same. Qed.

Lemma discard_ok s c :
  store_ok cfg s -> context_ok cfg c ->
  let '(s', c') := chttp_session_discard_created s c in
  store_ok cfg s' /\ context_ok cfg c' /\ touches_only s s' None (sc_id c).
Proof.
  intros Hs Hc. unfold chttp_session_discard_created. split_if; [auto using touches_refl|].
  destruct (clear_matching_ok s c Hs). split_and!; auto. apply release_ok in Hc. revert Hc. by apply context_ok_same.
Qed.

Lemma finish_reply_ok {R} (set_header : R -> list Z -> list Z -> R * salts_status) s c response next :
  store_ok cfg s -> context_ok cfg c ->
  let '(s', c', _, _) := finish_reply cfg set_header s c response next in
  store_ok cfg s' /\ context_ok cfg c' /\ touches_only s s' None (sc_id c).
Proof.
  intros Hs Hc. unfold finish_reply. destruct next as [| | |id].
  - auto using touches_refl.
  - destruct (chttp_session_set_cookie _ _ _ _ _). auto using touches_refl.
  - destruct (chttp_session_set_cookie _ _ _ _ _). split_and!; [done| |apply touches_refl].
    apply release_ok in Hc. revert Hc. by apply context_ok_same.
  - destruct (chttp_session_set_cookie _ _ _ _ _) as [r st]. split_if.
    + pose proof (discard_ok s c Hs Hc) as H1. destruct (chttp_session_discard_created s c). done.
    + split_if; [|auto using touches_refl]. split_and!; [done| |apply touches_refl]. revert Hc. by apply context_ok_same.
Qed.

Lemma run_op_ok s rq op :
  op_ok op -> store_ok cfg s -> context_ok cfg (rq_context rq) ->
  let '(s', rq') := run_op s rq op in
  store_ok cfg s' /\ context_ok cfg (rq_context rq') /\ touches_only s s' (op_now op) (op_id rq op).
Proof.
  intros Ho Hs Hc. destruct op; cbn [run_op op_now op_id op_ok] in *.
  - pose proof (begin_ok s (rq_context rq) cookie now_ms Hs Hc) as H.
    by destruct (chttp_session_request_begin _ _ _ _ _).
  - pose proof (set_ok random s (rq_context rq) key value now_ms Ho Hs Hc) as H.
    destruct (chttp_session_set _ _ _ _ _ _ _) as [[s' c'] st]. destruct H as (? & ? & ?). auto.
  - split_and!; [done|by apply remove_ok|apply touches_refl].
  - split_and!; [done|by apply clear_ok|apply touches_refl].
  - pose proof (regenerate_ok random s (rq_context rq) now_ms Ho Hs Hc) as H.
    by destruct (chttp_session_regenerate _ _ _ _ _) as [[s' c'] st].
  - unfold chttp_session_invalidate. cbv zeta. destruct (clear_matching_ok s (rq_context rq) Hs).
    split_and!; [done| |done]. apply snapshot_clear_ok. apply release_ok in Hc. revert Hc. by apply context_ok_same.
  - pose proof (commit_ok s (rq_context rq) now_ms Hs Hc) as H.
    destruct (finish_commit _ _ _ _) as [s' next]. destruct H. auto.
  - pose proof (finish_reply_ok (fun (_ : unit) _ _ => (tt, header_status)) s (rq_context rq) tt (rq_next rq) Hs Hc) as H.
    by destruct (finish_reply _ _ _ _ _ _) as [[[s' c'] r] st].
  - unfold chttp_session_request_abort. split_if; [split_and!; auto using touches_refl|].
    pose proof (discard_ok s (rq_context rq) Hs Hc) as H. destruct (chttp_session_discard_created _ _) as [s' c'].
    destruct H as (? & Hc' & ?). split_and!; [done| |done]. apply release_ok in Hc'. revert Hc'. by apply context_ok_same.
Qed.

(** ** Many requests *)

(** A schedule says which request does what next. *)
Fixpoint run_schedule (s : store) (requests : list request) (schedule : list (nat * session_op)) :
    option (store * list request) :=
  match schedule with
  | [] => Some (s, requests)
  | (k, op) :: schedule =>
    match requests !! k with
    | None => None
    | Some rq => let '(s, rq) := run_op s rq op in run_schedule s (<[k := rq]> requests) schedule
    end
  end.

(** No step holds the id, or finds it expired. *)
Fixpoint schedule_spares (s : store) (requests : list request) (schedule : list (nat * session_op))
    (id : list Z) (expires : Z) : Prop :=
  match schedule with
  | [] => True
  | (k, op) :: schedule =>
    match requests !! k with
    | None => True
    | Some rq =>
      op_id rq op <> id /\ (forall t, op_now op = Some t -> t < expires) /\
      let '(s, rq) := run_op s rq op in schedule_spares s (<[k := rq]> requests) schedule id expires
    end
  end.

Lemma run_schedule_ok schedule : forall s requests s' requests',
  Forall (fun x => op_ok x.2) schedule -> store_ok cfg s ->
  Forall (fun rq => context_ok cfg (rq_context rq)) requests ->
  run_schedule s requests schedule = Some (s', requests') ->
  store_ok cfg s' /\ Forall (fun rq => context_ok cfg (rq_context rq)) requests'.
Proof.
  induction schedule as [|[k op] schedule IH]; intros s requests s' requests' Ho Hs Hc E; cbn in E.
  { by simplify_eq. }
  apply Forall_cons in Ho as [Hop Ho]. destruct (requests !! k) as [rq|] eqn:Hk; [|done].
  assert (context_ok cfg (rq_context rq)) as Hrq by exact (proj1 (Forall_lookup _ _) Hc k rq Hk).
  pose proof (run_op_ok s rq op Hop Hs Hrq) as Hstep. destruct (run_op s rq op) as [s1 rq1].
  destruct Hstep as (? & ? & _). eapply IH; [done|done| |exact E]. by apply Forall_insert.
Qed.

(** C17: Whatever any number of interleaved requests do with their own sessions
    (begin, set, remove, clear, regenerate, invalidate, the two halves of the end,
    abort), a record that no request presents or holds and that has not expired
    stays exactly as it was. *)
Theorem session_isolation schedule : forall s requests s' requests' j r,
  Forall (fun x => op_ok x.2) schedule -> store_ok cfg s ->
  Forall (fun rq => context_ok cfg (rq_context rq)) requests ->
  s !! j = Some r -> sr_used r = true ->
  schedule_spares s requests schedule (sr_id r) (sr_expires_at_ms r) ->
  run_schedule s requests schedule = Some (s', requests') ->
  s' !! j = Some r.
Proof.
  induction schedule as [|[k op] schedule IH]; intros s requests s' requests' j r Ho Hs Hc Hj Hu Ha E;
    cbn in Ha, E; [by simplify_eq|].
  apply Forall_cons in Ho as [Hop Ho]. destruct (requests !! k) as [rq|] eqn:Hk; [|done].
  assert (context_ok cfg (rq_context rq)) as Hrq by exact (proj1 (Forall_lookup _ _) Hc k rq Hk).
  pose proof (run_op_ok s rq op Hop Hs Hrq) as Hstep. destruct (run_op s rq op) as [s1 rq1].
  destruct Hstep as (? & ? & Ht), Ha as (Hid & Hnow & Ha).
  eapply (IH s1 (<[k := rq1]> requests)); [done|done|by apply Forall_insert| |done|exact Ha|exact E].
  by apply Ht.
Qed.

(** The start of a server and of its requests. *)
Lemma store_init_ok {alloc : Allocator} s : chttp_session_store_init cfg = Ok s -> store_ok cfg s.
Proof.
  unfold chttp_session_store_init. destruct (Z.eqb_spec (session_capacity cfg) 0) as [E|E].
  { intros [= <-]. split; [by rewrite E|apply Forall_nil_2|done]. }
  cbv zeta. split_if; [done|]. destruct (chttp_session_multiply _ _) as [count|]; [|done].
  destruct (chttp_session_multiply count (u64 (max_session_key_bytes cfg + 1))); [|done].
  destruct (chttp_session_multiply count (u64 (max_session_value_bytes cfg + 1))); [|done].
  split_if; [done|]. split_if; [|done]. intros [= <-]. split; [apply length_replicate| |].
  - apply Forall_replicate. split; [apply fresh_entries_ok|cbn; zlia|done].
  - intros i j r q Hi _ Hu. apply lookup_replicate in Hi as [-> _]. done.
Qed.

Lemma context_init_ok {alloc : Allocator} c : chttp_session_context_init cfg = Ok c -> context_ok cfg c.
Proof.
  unfold chttp_session_context_init, context_ok. destruct (session_capacity cfg =? 0); [by intros [= <-]|].
  cbv zeta. split_if; [done|].
  destruct (chttp_session_multiply _ (u64 (max_session_key_bytes cfg + 1))); [|done].
  destruct (chttp_session_multiply _ (u64 (max_session_value_bytes cfg + 1))); [|done].
  split_if; [|done]. intros [= <-]. apply fresh_entries_ok.
Qed.

(** A request that has not begun. *)
Definition new_request (c : chttp_session_context) : request := {| rq_context := c; rq_next := FinishDone |}.

(** However requests interleave their operations on the store, every record keeps
    its capacity, ids in use are distinct and 32 hexadecimal digits, keys in a
    session are distinct, non-empty and within the limits, values are within the
    limits, and the copy in each request satisfies the same. *)
Theorem session_store_safe {alloc : Allocator} s0 contexts schedule s requests :
  chttp_session_store_init cfg = Ok s0 ->
  Forall (fun c => chttp_session_context_init cfg = Ok c) contexts ->
  Forall (fun x => op_ok x.2) schedule ->
  run_schedule s0 (map new_request contexts) schedule = Some (s, requests) ->
  store_ok cfg s /\ Forall (fun rq => context_ok cfg (rq_context rq)) requests.
Proof.
  intros Hs Hc Ho. apply run_schedule_ok; [done|by eapply store_init_ok|].
  apply Forall_map. eapply Forall_impl; [exact Hc|]. intros c. apply context_init_ok.
Qed.

(** ** A request as a finite map *)

Lemma get_entries c key :
  sc_record c <> None -> sc_invalidated c = false ->
  chttp_session_get c key = entries_get (sc_snapshot_entries c) key.
Proof. intros Hr Hi. unfold chttp_session_get. rewrite Hi. by destruct (sc_record c). Qed.

Lemma get_nothing c key : sc_record c = None -> chttp_session_get c key = None.
Proof. intros H. unfold chttp_session_get. by rewrite H. Qed.

(** A creation that fails leaves the context. *)
Lemma create_same random s c now :
  let '(_, c', status) := chttp_session_create cfg random s c now in status <> SALTS_OK -> c' = c.
Proof.
  unfold chttp_session_create. cbv zeta. destruct (find_record _ _) as [[i r]|]; [|done].
  by destruct (chttp_session_generate_id_locked _ _).
Qed.

Lemma set_get_spec random s c key value now s' c' status :
  random_ok random -> store_ok cfg s -> context_ok cfg c ->
  chttp_session_set cfg random s c key value now = (s', c', status) ->
  match status with
  | SALTS_OK =>
    forall k, chttp_session_get c' k = if bool_decide (k = key) then Some value else chttp_session_get c k
  | _ => forall k, chttp_session_get c' k = chttp_session_get c k
  end.
Proof.
  intros Hr Hs Hc. unfold chttp_session_set. split_if; [by intros [= <- <- <-]|].
  split_if; [by intros [= <- <- <-]|]. pose proof (zlen_nonneg key).
  (* the context that the entry goes into *)
  assert (forall s0 c0 st0, (st0 = SALTS_OK -> sc_record c0 <> None /\ sc_invalidated c0 = false /\
      session_capacity cfg <> 0 /\ entries_ok cfg (sc_snapshot_entries c0)) ->
    (forall k, chttp_session_get c0 k = chttp_session_get c k) ->
    (if negb (bool_decide (st0 = SALTS_OK)) then (s0, c0, st0)
     else match set_entry (sc_snapshot_entries c0) key value with
          | None => (s0, c0, SALTS_ENOBUFS)
          | Some entries => (s0, c0 <| sc_snapshot_entries := entries |> <| sc_dirty := true |>, SALTS_OK)
          end) = (s', c', status) ->
    match status with
    | SALTS_OK =>
      forall k, chttp_session_get c' k = if bool_decide (k = key) then Some value else chttp_session_get c k
    | _ => forall k, chttp_session_get c' k = chttp_session_get c k
    end) as Hrest.
  { intros s0 c0 st0 Hok Hget. case_bool_decide as Eb; cbn [negb].
    - destruct (Hok Eb) as (Hrec & Hinv & _ & He). pose proof (set_entry_spec cfg _ key value He) as Hset.
      destruct (set_entry _ key value) as [entries|]; intros [= <- <- <-]; [|done].
      destruct Hset as [_ Hset]; [lia|lia|]. intros k. rewrite get_entries by done.
      change (sc_snapshot_entries _) with entries. rewrite Hset.
      case_bool_decide; [done|]. by rewrite <- Hget, get_entries.
    - intros [= <- <- <-]. destruct st0; done. }
  destruct (sc_record c) as [i|] eqn:Ei.
  { apply Hrest; [|done]. intros _. destruct (context_ok_entries c Hc) as [? ?]; [by rewrite Ei|].
    rewrite Ei. done. }
  destruct (Z.eq_dec (session_capacity cfg) 0) as [E|E]; [rewrite create_none by done; by apply Hrest|].
  pose proof (session_create_ok random s c now Hr Hs Hc E) as Hcr.
  pose proof (create_same random s c now) as Hsame.
  destruct (chttp_session_create cfg random s c now) as [[s0 c0] st0]. destruct Hcr as (_ & Hc0 & _ & Hcr).
  apply Hrest.
  - intros Hok. destruct (Hcr Hok) as (? & ? & _ & ->). split_and!; [done|done|done|apply fresh_entries_ok].
  - intros k. rewrite (get_nothing c k Ei). destruct (decide (st0 = SALTS_OK)) as [Hok|Hno].
    + destruct (Hcr Hok) as (? & ? & _ & Hf). rewrite get_entries by done. rewrite Hf. apply fresh_get.
    + rewrite (Hsame Hno). by apply get_nothing.
Qed.

(** Setting a key in a session makes that key read the value and leaves every
    other key as it was; a call that fails changes no key. *)
Theorem session_set_get random s c key value now s' c' status :
  random_ok random -> store_ok cfg s -> context_ok cfg c ->
  chttp_session_set cfg random s c key value now = (s', c', status) ->
  match status with
  | SALTS_OK =>
    forall k, chttp_session_get c' k = if bool_decide (k = key) then Some value else chttp_session_get c k
  | _ => forall k, chttp_session_get c' k = chttp_session_get c k
  end.
Proof. apply set_get_spec. Qed.

(** Removing a key makes it read nothing and leaves every other key as it was; a
    call that fails changes nothing. *)
Theorem session_remove_get c key c' status :
  context_ok cfg c -> chttp_session_remove c key = (c', status) ->
  forall k, chttp_session_get c' k =
    if bool_decide (status = SALTS_OK) && bool_decide (k = key) then None else chttp_session_get c k.
Proof.
  intros Hc. unfold chttp_session_remove. split_if; [by intros [= <- <-]|].
  split_if; [by intros [= <- <-]|]. assert (sc_record c <> None) as Hrec by (by destruct (sc_record c)).
  destruct (list_find _ _) as [[i e]|] eqn:E; [|by intros [= <- <-]]. intros [= <- <-] k.
  apply list_find_Some in E as (Hi & He & _). apply entry_is_true in He as [Hu Hk].
  destruct (context_ok_entries c Hc Hrec) as [_ Hen]. rewrite !get_entries by done.
  change (sc_snapshot_entries (_ <| sc_dirty := true |>)) with (<[i := entry_empty]> (sc_snapshot_entries c)).
  destruct (remove_entry_spec cfg _ i e Hen Hi Hu) as [_ ->]. by rewrite Hk.
Qed.

(** The length of the text is enough fuel for the loop over the cookies. *)
Lemma split_at_length ch t a b : split_at ch t = Some (a, b) -> (length b < length t)%nat.
Proof.
  revert a b. induction t as [|x t IH]; intros a b; cbn; [done|].
  destruct (x =? ch); [intros [= <- <-]; lia|]. destruct (split_at ch t) as [[a' b']|]; [|done].
  intros [= <- <-]. specialize (IH _ _ eq_refl). lia.
Qed.

Lemma skip_blanks_length t : (length (skip_cookie_blanks t) <= length t)%nat.
Proof. induction t as [|x t IH]; cbn; [done|]. split_if; cbn; lia. Qed.

(** The loop over a Cookie header ends: more rounds than the header has bytes
    change nothing. *)
Lemma cookie_loop_fuel fuel : forall fuel' cookie,
  (length cookie <= fuel)%nat -> (length cookie <= fuel')%nat ->
  cookie_value_loop cfg fuel cookie = cookie_value_loop cfg fuel' cookie.
Proof.
  induction fuel as [|fuel IH]; intros fuel' [|x cookie] Hf Hf'; try (cbn in Hf; lia); [by destruct fuel'..|].
  destruct fuel' as [|fuel']; [cbn in Hf'; lia|]. cbn [cookie_value_loop].
  pose proof (skip_blanks_length (x :: cookie)) as Hs.
  destruct (split_at SEMICOLON (skip_cookie_blanks (x :: cookie))) as [[item rest]|] eqn:E; [|done].
  apply split_at_length in E. cbn [length] in *. rewrite (IH fuel' rest) by lia. done.
Qed.

(** ** From one request to the next *)

(** A cookie name: not empty, no separator and no blank. *)
Definition cookie_name_ok (name : list Z) : Prop :=
  name <> [] /\ Forall (fun ch => is_ows ch = false /\ ch <> SEMICOLON /\ ch <> EQUALS) name.

Lemma split_at_absent ch s : ch ∉ s -> split_at ch s = None.
Proof.
  induction s as [|x s IH]; cbn; [done|]. rewrite not_elem_of_cons. intros [Hx Hs].
  destruct (Z.eqb_spec x ch); [congruence|]. by rewrite IH.
Qed.

Lemma split_at_first ch s t : ch ∉ s -> split_at ch (s ++ ch :: t) = Some (s, t).
Proof.
  induction s as [|x s IH]; cbn; [by rewrite Z.eqb_refl|]. rewrite not_elem_of_cons. intros [Hx Hs].
  destruct (Z.eqb_spec x ch); [congruence|]. by rewrite IH.
Qed.

Lemma drop_ows_id s : Forall (fun ch => is_ows ch = false) s -> drop_ows s = s.
Proof. destruct 1 as [|x s Hx _]; [done|]. cbn. by rewrite Hx. Qed.

Lemma trim_right_id s : Forall (fun ch => is_ows ch = false) s -> trim_right s = s.
Proof. intros H. unfold trim_right. rewrite drop_ows_id by (by apply Forall_reverse). apply reverse_involutive. Qed.

Lemma trim_ows_id s : Forall (fun ch => is_ows ch = false) s -> chttp_server_trim_ows s = s.
Proof.
  intros H. unfold chttp_server_trim_ows. rewrite (drop_ows_id s) by done. by apply trim_right_id.
Qed.

Lemma hex_plain id :
  chttp_session_hex_id id = true -> Forall (fun ch => is_ows ch = false /\ ch <> SEMICOLON /\ ch <> EQUALS) id.
Proof.
  unfold chttp_session_hex_id. intros H. bool_prop.
  apply Forall_forall. intros ch Hc. assert (is_hex ch = true) as Hx.
  { rewrite forallb_forall in H0. apply H0. by apply list_elem_of_In. }
  unfold is_hex, is_ows, SPACE, TAB, SEMICOLON, EQUALS in *. rewrite !orb_true_iff, !andb_true_iff, !Z.leb_le in Hx.
  split_and!; [|lia|lia]. apply orb_false_iff. lia.
Qed.

(** The id of a cookie pair of the session is found in the header. *)
Lemma cookie_roundtrip id :
  cookie_name_ok (session_cookie_name cfg) -> chttp_session_hex_id id = true ->
  chttp_session_cookie_value cfg (Some (session_cookie_name cfg ++ EQUALS :: id)) = Some id.
Proof.
  intros [Hne Hname] Hid. apply hex_plain in Hid. set (name := session_cookie_name cfg) in *.
  assert (forall P Q : Z -> Prop, (forall ch, P ch -> Q ch) -> forall l, Forall P l -> Forall Q l) as Himp
    by (intros P Q H l Hl; by eapply Forall_impl).
  assert (forall l ch, Forall (fun c => is_ows c = false /\ c <> SEMICOLON /\ c <> EQUALS) l ->
    ch = SEMICOLON \/ ch = EQUALS -> ch ∉ l) as Hno.
  { intros l ch Hl Hch Hin. rewrite Forall_forall in Hl. destruct (Hl ch Hin) as (_ & ? & ?). by destruct Hch. }
  unfold chttp_session_cookie_value. destruct name as [|x rest] eqn:En; [done|].
  cbn [app length cookie_value_loop].
  assert (skip_cookie_blanks (x :: rest ++ EQUALS :: id) = x :: rest ++ EQUALS :: id) as ->.
  { cbn. apply Forall_cons in Hname as [(-> & ? & _) _]. by rewrite (proj2 (Z.eqb_neq x SEMICOLON)). }
  change (x :: rest ++ EQUALS :: id) with ((x :: rest) ++ EQUALS :: id).
  rewrite split_at_absent; cycle 1.
  { intros Hin. apply elem_of_app in Hin as [Hin|Hin]; [by apply (Hno (x :: rest) SEMICOLON); auto|].
    apply elem_of_cons in Hin as [?|Hin]; [done|]. by apply (Hno id SEMICOLON); auto. }
  rewrite split_at_first by (apply Hno; auto). unfold name in En. rewrite En.
  rewrite trim_right_id by (eapply Himp; [|exact Hname]; by intros ? [? _]).
  rewrite bytes_eqb_refl. rewrite trim_ows_id by (eapply Himp; [|exact Hid]; by intros ? [? _]). done.
Qed.

(** What a request stored in its session is what the next request reads: after a
    finish that succeeded, a request that presents the cookie of the session
    before it expires sees the same value under every key. *)
Theorem session_persists {R} (set_header : R -> list Z -> list Z -> R * salts_status)
    s c response now s' c' response' c0 now' :
  store_ok cfg s -> context_ok cfg c -> cookie_name_ok (session_cookie_name cfg) ->
  chttp_session_record_matches s c = true -> sc_invalidated c = false -> sc_dirty c = true ->
  chttp_session_request_finish cfg set_header s c response now = (s', c', response', SALTS_OK) ->
  now' < chttp_session_expiry cfg now ->
  forall key,
  chttp_session_get
    (chttp_session_request_begin cfg s' c0 (Some (session_cookie_name cfg ++ EQUALS :: sc_id c)) now').2 key =
  chttp_session_get c key.
Proof.
  intros Hs Hc Hname Hm Hinv Hdirty. pose proof (commit_ok s c now Hs Hc) as Hcommit.
  unfold chttp_session_request_finish, finish_commit in *.
  pose proof Hm as Hm'. apply matches_record in Hm' as (i & r & Ei & Hi & Hu & _ & Hid).
  destruct (context_ok_entries c Hc) as [Hcap Hen]; [by rewrite Ei|].
  rewrite (proj2 (Z.eqb_neq _ _) Hcap), Hinv, Ei, Hm, Hdirty in *. cbn [negb] in *. cbv zeta in *.
  rewrite (alter_insert s i _ r Hi) in *. set (r' := _ <| sr_expires_at_ms := chttp_session_expiry cfg now |>) in *.
  destruct Hcommit as [Hs1 _]. rewrite list_lookup_insert_eq by (by eapply lookup_lt_Some).
  unfold finish_reply. destruct (chttp_session_set_cookie _ _ _ _ _) as [resp status].
  destruct (negb (bool_decide (status = SALTS_OK)) && sc_created c) eqn:Ef.
  { destruct (chttp_session_discard_created _ c). intros [= <- <- <- ->]. by rewrite bool_decide_eq_true_2 in Ef. }
  intros E Hnow. assert (s' = <[i := r']> s) as -> by (case_bool_decide; congruence). clear E.
  assert (chttp_session_hex_id (sc_id c) = true) as Hhex.
  { destruct (record_of s i r Hs Hi) as [_ _ H]. rewrite Hu in H. congruence. }
  unfold chttp_session_request_begin. rewrite (proj2 (Z.eqb_neq _ _) Hcap), (cookie_roundtrip _ Hname Hhex), Hhex.
  cbn [negb]. cbv zeta.
  assert (<[i := r']> s !! i = Some r') as Hi' by (apply list_lookup_insert_eq; by eapply lookup_lt_Some).
  assert (chttp_session_expire_locked (<[i := r']> s) now' !! i = Some r') as Hx.
  { apply expire_keeps; [done|]. unfold expired. apply andb_false_iff. right. cbn. lia. }
  pose proof (expire_ok _ now' Hs1) as He.
  rewrite (find_record_lookup _ _ i r' Hx); cycle 1.
  { cbn. by rewrite Hu, Hid, bytes_eqb_refl. }
  { intros j q Hj Hq. bool_prop. apply bytes_eqb_eq in H0. apply (st_ids _ _ He j i q r'); [done|done|done|exact Hu|].
    change (sr_id r') with (sr_id r). congruence. }
  intros key. rewrite !get_entries by (by rewrite ?Ei). f_equal.
  change (copy_entries (copy_entries (sc_snapshot_entries c)) = sc_snapshot_entries c).
  rewrite (copy_entries_ok cfg (sc_snapshot_entries c)) by done. by apply (copy_entries_ok cfg).
Qed.

End Store.

(** ** Examples *)

Definition example_config : session_config :=
  {| session_capacity := 2; session_entry_capacity := 2; max_session_key_bytes := 8;
     max_session_value_bytes := 16; session_idle_timeout_ms := 1500; session_cookie_secure := true;
     session_cookie_name := bytes_of "sid" |}.

(** Sixteen equal bytes, which are other ones in the next attempt. *)
Definition example_random (seed : Z) (n : nat) : list Z + salts_status :=
  inl (replicate 16 ((seed + Z.of_nat n) mod 256)).

Lemma example_random_ok seed : random_ok (example_random seed).
Proof.
  intros n. unfold example_random. split; [reflexivity|]. apply Forall_replicate. apply u8_range.
Qed.

Definition example_store : store :=
  replicate 2 {| sr_id := []; sr_entries := replicate 2 entry_empty; sr_expires_at_ms := 0; sr_generation := 0;
                 sr_used := false |}.

Definition example_context : chttp_session_context := context_zero (replicate 2 entry_empty).

(** One request leaves a session; another one begins without a cookie, gets the
    same random bytes first, sets a value twice and regenerates its id. *)
Definition first_request : list (nat * session_op) :=
  [(0, OpBegin None 10); (0, OpSet (example_random 7) (bytes_of "user") (bytes_of "ann") 11); (0, OpCommit 12);
   (0, OpReply SALTS_OK)]%nat.

Definition second_request : list (nat * session_op) :=
  [(1, OpBegin None 20); (1, OpSet (example_random 7) (bytes_of "user") (bytes_of "bob") 21);
   (1, OpRegenerate (example_random 6) 22); (1, OpRemove (bytes_of "user")); (1, OpCommit 23);
   (1, OpReply SALTS_ENOMEM)]%nat.

Lemma first_request_ok : Forall (fun x => op_ok x.2) first_request.
Proof. repeat (apply Forall_cons_2; [first [apply example_random_ok|exact I]|]). apply Forall_nil_2. Qed.

Lemma second_request_ok : Forall (fun x => op_ok x.2) second_request.
Proof. repeat (apply Forall_cons_2; [first [apply example_random_ok|exact I]|]). apply Forall_nil_2. Qed.

Definition example_requests : list request := map new_request [example_context; example_context].

Definition after_first : store * list request :=
  Eval vm_compute in
    match run_schedule example_config example_store example_requests first_request with
    | Some x => x
    | None => ([], [])
    end.

Definition after_second : store * list request :=
  Eval vm_compute in
    match run_schedule example_config after_first.1 after_first.2 second_request with
    | Some x => x
    | None => ([], [])
    end.

#[local] Existing Instance unlimited_allocator.

Lemma example_store_init : chttp_session_store_init example_config = Ok example_store.
Proof. vm_compute. reflexivity. Qed.

Lemma example_contexts_init :
  Forall (fun c => chttp_session_context_init example_config = Ok c) [example_context; example_context].
Proof. repeat (apply Forall_cons_2; [vm_compute; reflexivity|]). apply Forall_nil_2. Qed.

Lemma session_store_safe_witness :
  store_ok example_config after_first.1 /\
  Forall (fun rq => context_ok example_config (rq_context rq)) after_first.2.
Proof.
  apply (session_store_safe example_config example_store [example_context; example_context] first_request);
    [exact example_store_init|exact example_contexts_init|exact first_request_ok|vm_compute; reflexivity].
Defined.

Lemma after_first_ok :
  store_ok example_config after_first.1 /\
  Forall (fun rq => context_ok example_config (rq_context rq)) after_first.2.
Proof.
  apply (run_schedule_ok example_config first_request example_store example_requests); [apply first_request_ok| | |vm_compute; reflexivity].
  - eapply store_init_ok. exact example_store_init.
  - apply Forall_map. eapply Forall_impl; [exact example_contexts_init|]. intros c. apply context_init_ok.
Qed.

(** The session of the first request. *)
Definition ann_record : chttp_session_record :=
  {| sr_id := hex_text (replicate 16 7);
     sr_entries := [{| se_used := true; se_key := bytes_of "user"; se_value := bytes_of "ann" |}; entry_empty];
     sr_expires_at_ms := 1512; sr_generation := 1; sr_used := true |}.

Lemma session_isolation_witness : after_second.1 !! 0%nat = Some ann_record.
Proof.
  apply (session_isolation example_config second_request after_first.1 after_first.2 after_second.1 after_second.2 0 ann_record).
  - exact second_request_ok.
  - apply after_first_ok.
  - apply after_first_ok.
  - vm_compute. reflexivity.
  - reflexivity.
  - vm_compute. repeat split; try discriminate; intros t [= <-]; reflexivity.
  - vm_compute. reflexivity.
Defined.

(** The second session was discarded with its cookie. *)
Example second_discarded : sr_used <$> after_second.1 !! 1%nat = Some false.
Proof. vm_compute. reflexivity. Qed.

Definition ann_context : chttp_session_context :=
  match after_first.2 with rq :: _ => rq_context rq | [] => example_context end.

Lemma ann_context_ok : context_ok example_config ann_context.
Proof. exact (proj1 (Forall_lookup _ _) (proj2 after_first_ok) 0%nat _ eq_refl). Qed.

Definition ann_set : store * chttp_session_context * salts_status :=
  Eval vm_compute in
    chttp_session_set example_config (example_random 9) after_first.1 ann_context (bytes_of "lang") (bytes_of "en") 40.

Lemma session_set_get_witness :
  chttp_session_get ann_set.1.2 (bytes_of "lang") =
    if bool_decide (bytes_of "lang" = bytes_of "lang") then Some (bytes_of "en")
    else chttp_session_get ann_context (bytes_of "lang").
Proof.
  apply (session_set_get example_config (example_random 9) after_first.1 ann_context (bytes_of "lang") (bytes_of "en") 40
    ann_set.1.1 ann_set.1.2 SALTS_OK);
    [apply example_random_ok|apply after_first_ok|apply ann_context_ok|vm_compute; reflexivity].
Defined.

Definition ann_finish : store * chttp_session_context * unit * salts_status :=
  Eval vm_compute in
    chttp_session_request_finish example_config (fun (_ : unit) _ _ => (tt, SALTS_OK)) ann_set.1.1 ann_set.1.2 tt 50.

Lemma ann_set_ok : store_ok example_config ann_set.1.1 /\ context_ok example_config ann_set.1.2.
Proof.
  pose proof (set_ok example_config (example_random 9) after_first.1 ann_context (bytes_of "lang") (bytes_of "en") 40
    (example_random_ok 9) (proj1 after_first_ok) ann_context_ok) as H.
  destruct (chttp_session_set _ _ _ _ _ _ _) as [[s c] st] eqn:E. vm_compute in E. injection E as <- <- <-.
  destruct H as (H1 & H2 & _). split; [exact H1|exact H2].
Qed.

Lemma session_persists_witness :
  chttp_session_get
    (chttp_session_request_begin example_config ann_finish.1.1.1 example_context
       (Some (bytes_of "sid" ++ EQUALS :: sc_id ann_set.1.2)) 1500).2 (bytes_of "lang") =
  chttp_session_get ann_set.1.2 (bytes_of "lang").
Proof.
  apply (session_persists example_config (fun (_ : unit) _ _ => (tt, SALTS_OK)) ann_set.1.1 ann_set.1.2 tt 50
    ann_finish.1.1.1 ann_finish.1.1.2 tt example_context 1500);
    [apply ann_set_ok|apply ann_set_ok| |vm_compute; reflexivity..].
  split; [done|]. repeat (apply Forall_cons_2; [split; [vm_compute; reflexivity|split; vm_compute; discriminate]|]).
  apply Forall_nil_2.
Defined.

End SessionTheorems.
