(* ===== verification/Web.v ===== *)
(** * Statuses and errors of the web application layer

    The types of [app/include/chttp_app/web.h] that the application components
    share.  A function that fills the error structure returns its status, so
    the model returns the structure alone; a function that returns
    [CHTTP_WEB_OK] without touching the structure returns [None]. *)

From S2P Require Import Prelude.

Module Web.

Inductive chttp_web_status :=
  | CHTTP_WEB_OK | CHTTP_WEB_INVALID_ARGUMENT | CHTTP_WEB_TEMPLATE | CHTTP_WEB_CAPACITY
  | CHTTP_WEB_OUT_OF_MEMORY | CHTTP_WEB_METADATA | CHTTP_WEB_RENDER | CHTTP_WEB_NOT_FOUND
  | CHTTP_WEB_SERVER | CHTTP_WEB_FORM | CHTTP_WEB_BIND | CHTTP_WEB_CSRF | CHTTP_WEB_FLASH
  | CHTTP_WEB_MULTIPART | CHTTP_WEB_VALIDATION | CHTTP_WEB_UPLOAD | CHTTP_WEB_AUTH.

#[export] Instance web_status_eq_dec : EqDecision chttp_web_status.
Proof. solve_decision. Defined.

(** [template_name] is always emptied by the components modelled here.  A
    native status of 0 is [SALTS_OK]. *)
Record chttp_web_error := {
  we_status : chttp_web_status;
  we_native_status : salts_status;
  we_offset : Z;
  we_message : list Z;
}.

End Web.
