(* ===== verification/Multipart.v ===== *)
(** * Multipart form data

    Model of [app/src/chttp_web_multipart.c]: the incremental parser of
    [multipart/form-data] bodies, which hands the parts to the callbacks of the
    application as they arrive.

    A buffer with a size is the list of its bytes; what lies past the size is
    not modelled.  A position in a string is the rest of the string from
    there.  The callbacks are functions on the state [U] of the application,
    which the parser carries as its user. *)

From S2P Require Import Prelude Http1Parser Web.

Module Multipart.
Import Http1Parser Web.

Definition CHTTP_WEB_MULTIPART_BOUNDARY_HARD_MAX : Z := 70.
Definition CHTTP_WEB_MULTIPART_HEADER_COUNT_HARD_MAX : Z := 64.
Definition CHTTP_WEB_MULTIPART_HEADER_BYTES_HARD_MAX : Z := 8192.
Definition CHTTP_WEB_MULTIPART_NAME_HARD_MAX : Z := 256.
Definition CHTTP_WEB_MULTIPART_FILENAME_HARD_MAX : Z := 1024.
Definition CHTTP_WEB_MULTIPART_CONTENT_TYPE_HARD_MAX : Z := 256.

(** The sizes of the structures with eight-byte pointers and sizes. *)
Definition sizeof_multipart_limits : Z := 72.
Definition sizeof_multipart_callbacks : Z := 32.
Definition sizeof_multipart_parser : Z := 10120.

Definition DASH : Z := 45.
Definition QUOTE : Z := 34.
Definition BACKSLASH : Z := 92.
Definition SEMI : Z := 59.
Definition EQUAL : Z := 61.
Definition COLON : Z := 58.

Inductive multipart_state :=
  | CHTTP_WEB_MP_INITIAL
  | CHTTP_WEB_MP_HEADERS
  | CHTTP_WEB_MP_BODY
  | CHTTP_WEB_MP_SUFFIX
  | CHTTP_WEB_MP_DONE
  | CHTTP_WEB_MP_FAILED.

#[export] Instance multipart_state_eq_dec : EqDecision multipart_state.
Proof. solve_decision. Defined.

Record chttp_web_multipart_limits := {
  lm_size : Z;
  lm_max_parts : Z;
  lm_max_header_count : Z;
  lm_max_header_bytes : Z;
  lm_max_name_bytes : Z;
  lm_max_filename_bytes : Z;
  lm_max_content_type_bytes : Z;
  lm_max_field_bytes : Z;
  lm_max_total_bytes : Z;
}.

(** What a part says about itself; a view that is not there is [None]. *)
Record chttp_web_multipart_part := {
  part_name : list Z;
  part_filename : option (list Z);
  part_content_type : option (list Z);
}.

Record chttp_web_multipart_callbacks (U : Type) := {
  mc_size : Z;
  part_begin : U -> chttp_web_multipart_part -> U * salts_status;
  part_data : U -> list Z -> U * salts_status;
  part_end : U -> U * salts_status;
}.
Arguments mc_size {U}.
Arguments part_begin {U}.
Arguments part_data {U}.
Arguments part_end {U}.

Record chttp_web_multipart_parser (U : Type) := Build_parser {
  mp_size : Z;
  mp_limits : chttp_web_multipart_limits;
  mp_boundary : list Z;
  mp_header_bytes : list Z;
  mp_part_name : list Z;
  mp_part_filename : list Z;
  mp_part_content_type : list Z;
  mp_pending : list Z;
  mp_total_bytes : Z;
  mp_part_count : Z;
  mp_field_bytes : Z;
  mp_initial_index : Z;
  mp_state : multipart_state;
  mp_suffix_state : Z;
  mp_active : bool;
  mp_failed : bool;
  mp_current_file : bool;
  mp_has_filename : bool;
  mp_has_content_type : bool;
  mp_user : U;
}.

Arguments Build_parser {U}.
Arguments mp_size {U}.
Arguments mp_limits {U}.
Arguments mp_boundary {U}.
Arguments mp_header_bytes {U}.
Arguments mp_part_name {U}.
Arguments mp_part_filename {U}.
Arguments mp_part_content_type {U}.
Arguments mp_pending {U}.
Arguments mp_total_bytes {U}.
Arguments mp_part_count {U}.
Arguments mp_field_bytes {U}.
Arguments mp_initial_index {U}.
Arguments mp_state {U}.
Arguments mp_suffix_state {U}.
Arguments mp_active {U}.
Arguments mp_failed {U}.
Arguments mp_current_file {U}.
Arguments mp_has_filename {U}.
Arguments mp_has_content_type {U}.
Arguments mp_user {U}.

#[export] Instance eta_parser U : Eta (chttp_web_multipart_parser U) :=
  fun p => Build_parser (mp_size p) (mp_limits p) (mp_boundary p) (mp_header_bytes p) (mp_part_name
    p) (mp_part_filename p) (mp_part_content_type p) (mp_pending p) (mp_total_bytes p)
    (mp_part_count p) (mp_field_bytes p) (mp_initial_index p) (mp_state p) (mp_suffix_state p)
    (mp_active p) (mp_failed p) (mp_current_file p) (mp_has_filename p) (mp_has_content_type p)
    (mp_user p).
#[export] Instance set_mp_size U : Setter (@mp_size U). Proof. mk_setter. Defined.
#[export] Instance set_mp_limits U : Setter (@mp_limits U). Proof. mk_setter. Defined.
#[export] Instance set_mp_boundary U : Setter (@mp_boundary U). Proof. mk_setter. Defined.
#[export] Instance set_mp_header_bytes U : Setter (@mp_header_bytes U). Proof. mk_setter. Defined.
#[export] Instance set_mp_part_name U : Setter (@mp_part_name U). Proof. mk_setter. Defined.
#[export] Instance set_mp_part_filename U : Setter (@mp_part_filename U). Proof. mk_setter. Defined.
#[export] Instance set_mp_part_content_type U : Setter (@mp_part_content_type U). Proof. mk_setter. Defined.
#[export] Instance set_mp_pending U : Setter (@mp_pending U). Proof. mk_setter. Defined.
#[export] Instance set_mp_total_bytes U : Setter (@mp_total_bytes U). Proof. mk_setter. Defined.
#[export] Instance set_mp_part_count U : Setter (@mp_part_count U). Proof. mk_setter. Defined.
#[export] Instance set_mp_field_bytes U : Setter (@mp_field_bytes U). Proof. mk_setter. Defined.
#[export] Instance set_mp_initial_index U : Setter (@mp_initial_index U). Proof. mk_setter. Defined.
#[export] Instance set_mp_state U : Setter (@mp_state U). Proof. mk_setter. Defined.
#[export] Instance set_mp_suffix_state U : Setter (@mp_suffix_state U). Proof. mk_setter. Defined.
#[export] Instance set_mp_active U : Setter (@mp_active U). Proof. mk_setter. Defined.
#[export] Instance set_mp_failed U : Setter (@mp_failed U). Proof. mk_setter. Defined.
#[export] Instance set_mp_current_file U : Setter (@mp_current_file U). Proof. mk_setter. Defined.
#[export] Instance set_mp_has_filename U : Setter (@mp_has_filename U). Proof. mk_setter. Defined.
#[export] Instance set_mp_has_content_type U : Setter (@mp_has_content_type U). Proof. mk_setter. Defined.
#[export] Instance set_mp_user U : Setter (@mp_user U). Proof. mk_setter. Defined.

(** ** Errors *)

Definition chttp_web_multipart_error (status : chttp_web_status) (native_status : salts_status)
    (offset : Z) (message : String.string) : chttp_web_error :=
  {| we_status := status; we_native_status := native_status; we_offset := offset;
     we_message := bytes_of message |}.

Definition chttp_web_multipart_fail {U} (p : chttp_web_multipart_parser U) (status : chttp_web_status)
    (native_status : salts_status) (offset : Z) (message : String.string) :
    chttp_web_multipart_parser U * chttp_web_error :=
  (p <| mp_failed := true |> <| mp_state := CHTTP_WEB_MP_FAILED |>,
   chttp_web_multipart_error status native_status offset message).

(** A failure that no callback caused, at the bytes counted so far. *)
Definition fail_here {U} (p : chttp_web_multipart_parser U) (status : chttp_web_status)
    (message : String.string) : chttp_web_multipart_parser U * chttp_web_error :=
  chttp_web_multipart_fail p status SALTS_OK (mp_total_bytes p) message.

Arguments chttp_web_multipart_error _ _ _ message%_string_scope.
Arguments chttp_web_multipart_fail {U} _ _ _ _ message%_string_scope.
Arguments fail_here {U} _ _ message%_string_scope.

(** ** Characters *)

Definition chttp_web_multipart_ascii_lower (value : Z) : Z :=
  if (65 <=? value) && (value <=? 90) then value + 32 else value.

Definition chttp_web_multipart_ieq (data literal : list Z) : bool :=
  bytes_eqb (map chttp_web_multipart_ascii_lower data) (map chttp_web_multipart_ascii_lower literal).

Definition chttp_web_multipart_ows (value : Z) : bool := (value =? SPACE) || (value =? TAB).

Definition alphanumeric (value : Z) : bool :=
  ((48 <=? value) && (value <=? 57)) || ((65 <=? value) && (value <=? 90)) ||
  ((97 <=? value) && (value <=? 122)).

Definition one_of (values : list Z) (value : Z) : bool := existsb (Z.eqb value) values.

Definition chttp_web_multipart_token_char (value : Z) : bool :=
  alphanumeric value || one_of (bytes_of "!#$%&'*+-.^_`|~") value.

Definition chttp_web_multipart_boundary_char (value : Z) : bool :=
  alphanumeric value || one_of (bytes_of "'()+_,-./:=? ") value.

(** The longest prefix whose bytes satisfy a test, and the rest. *)
Fixpoint span (test : Z -> bool) (s : list Z) : list Z * list Z :=
  match s with
  | [] => ([], [])
  | c :: s' => if test c then let '(a, b) := span test s' in (c :: a, b) else ([], s)
  end.

Definition chttp_web_multipart_skip_ows (s : list Z) : list Z := (span chttp_web_multipart_ows s).2.

Definition trim_ows_end (s : list Z) : list Z := reverse (chttp_web_multipart_skip_ows (reverse s)).

(** ** Parameters of a header value *)

(** A byte that no parameter may hold. *)
Definition parameter_control (value : Z) : bool :=
  (value =? 0) || (value =? CR) || (value =? LF) || (value =? 127) || (value <? 32).

(** There is an output buffer and it is full. *)
Definition output_full (capacity : option Z) (out : list Z) : bool :=
  match capacity with Some n => n <=? zlen out | None => false end.

(** The loop inside quotes: the byte before the position, what was read and
    the rest, or the result 0 or -1. *)
Fixpoint quoted_loop (capacity : option Z) (previous : Z) (out s : list Z) :
    (Z * list Z * list Z) + Z :=
  match s with
  | [] => inl (previous, out, [])
  | value :: s =>
    if value =? QUOTE then inl (QUOTE, out, s)
    else if value =? BACKSLASH then
      match s with
      | [] => inr 0
      | value :: s =>
        if parameter_control value then inr 0
        else if output_full capacity out then inr (-1)
        else quoted_loop capacity value (out ++ [value]) s
      end
    else if parameter_control value then inr 0
    else if output_full capacity out then inr (-1)
    else quoted_loop capacity value (out ++ [value]) s
  end.

Fixpoint unquoted_loop (capacity : option Z) (out s : list Z) : (list Z * list Z) + Z :=
  match s with
  | [] => inl (out, [])
  | value :: s' =>
    if (value =? SEMI) || chttp_web_multipart_ows value then inl (out, s)
    else if parameter_control value then inr 0
    else if output_full capacity out then inr (-1)
    else unquoted_loop capacity (out ++ [value]) s'
  end.

(** The value and the rest, or the result 0 or -1. *)
Definition chttp_web_multipart_read_parameter_value (capacity : option Z) (s : list Z) :
    (list Z * list Z) + Z :=
  match chttp_web_multipart_skip_ows s with
  | [] => inr 0
  | c :: s =>
    let read :=
      if c =? QUOTE then
        match quoted_loop capacity QUOTE [] s with
        | inl (previous, out, s) => if previous =? QUOTE then inl (out, s, true) else inr 0
        | inr result => inr result
        end
      else
        match unquoted_loop capacity [] (c :: s) with
        | inl (out, s) => inl (out, s, false)
        | inr result => inr result
        end in
    match read with
    | inr result => inr result
    | inl (out, s, quoted) =>
      let s := chttp_web_multipart_skip_ows s in
      if match s with [] => false | c :: _ => negb (c =? SEMI) end then inr 0
      else if negb quoted && (zlen out =? 0) then inr 0
      else inl (out, s)
    end
  end.

(** The [; name =] before the value of a parameter. *)
Definition parameter_name (s : list Z) : option (list Z * list Z) :=
  match s with
  | [] => None
  | c :: s =>
    if negb (c =? SEMI) then None
    else
      let '(name, s) := span chttp_web_multipart_token_char (chttp_web_multipart_skip_ows s) in
      if zlen name =? 0 then None
      else
        match chttp_web_multipart_skip_ows s with
        | c :: s => if c =? EQUAL then Some (name, s) else None
        | [] => None
        end
  end.

Definition ends_with_space (s : list Z) : bool :=
  match last s with Some c => c =? SPACE | None => false end.

(** One round for each parameter; a parameter has more than one byte. *)
Fixpoint boundary_loop (fuel : nat) (s : list Z) (found : option (list Z)) : option (list Z) :=
  match s, fuel with
  | [], _ => found
  | _, O => None
  | _, S fuel =>
    match parameter_name s with
    | None => None
    | Some (name, s) =>
      if chttp_web_multipart_ieq name (bytes_of "boundary") then
        match found with
        | Some _ => None
        | None =>
          match chttp_web_multipart_read_parameter_value
                  (Some CHTTP_WEB_MULTIPART_BOUNDARY_HARD_MAX) s with
          | inr _ => None
          | inl (boundary, s) =>
            if (zlen boundary =? 0) || (CHTTP_WEB_MULTIPART_BOUNDARY_HARD_MAX <? zlen boundary) ||
               ends_with_space boundary || negb (forallb chttp_web_multipart_boundary_char boundary)
            then None
            else boundary_loop fuel s (Some boundary)
          end
        end
      else
        match chttp_web_multipart_read_parameter_value None s with
        | inr _ => None
        | inl (_, s) => boundary_loop fuel s found
        end
    end
  end.

Definition chttp_web_multipart_parse_outer_boundary (content_type : list Z) : option (list Z) :=
  let '(media, s) :=
    span (fun c => negb (c =? SEMI)) (chttp_web_multipart_skip_ows content_type) in
  if negb (chttp_web_multipart_ieq (trim_ows_end media) (bytes_of "multipart/form-data")) then None
  else boundary_loop (length s) s None.

(** ** Configuration *)

Definition chttp_web_multipart_limits_valid (limits : chttp_web_multipart_limits) : bool :=
  (sizeof_multipart_limits <=? lm_size limits) && negb (lm_max_parts limits =? 0) &&
  negb (lm_max_header_count limits =? 0) &&
  (lm_max_header_count limits <=? CHTTP_WEB_MULTIPART_HEADER_COUNT_HARD_MAX) &&
  (4 <=? lm_max_header_bytes limits) &&
  (lm_max_header_bytes limits <=? CHTTP_WEB_MULTIPART_HEADER_BYTES_HARD_MAX) &&
  negb (lm_max_name_bytes limits =? 0) &&
  (lm_max_name_bytes limits <=? CHTTP_WEB_MULTIPART_NAME_HARD_MAX) &&
  (lm_max_filename_bytes limits <=? CHTTP_WEB_MULTIPART_FILENAME_HARD_MAX) &&
  (lm_max_content_type_bytes limits <=? CHTTP_WEB_MULTIPART_CONTENT_TYPE_HARD_MAX) &&
  negb (lm_max_total_bytes limits =? 0) &&
  (lm_max_field_bytes limits <=? lm_max_total_bytes limits).

Section Parser.
Context {U : Type} (callbacks : chttp_web_multipart_callbacks U).
#[local] Abbreviation parser := (chttp_web_multipart_parser U).

Definition chttp_web_multipart_callbacks_valid : bool :=
  sizeof_multipart_callbacks <=? mc_size callbacks.

Definition chttp_web_multipart_parser_valid (p : parser) : bool :=
  (sizeof_multipart_parser <=? mp_size p) && negb (zlen (mp_boundary p) =? 0) &&
  (zlen (mp_boundary p) <=? CHTTP_WEB_MULTIPART_BOUNDARY_HARD_MAX) &&
  chttp_web_multipart_limits_valid (mp_limits p) && chttp_web_multipart_callbacks_valid.

Definition chttp_web_multipart_clear_part (p : parser) : parser :=
  p <| mp_header_bytes := [] |> <| mp_part_name := [] |> <| mp_part_filename := [] |>
    <| mp_part_content_type := [] |> <| mp_pending := [] |> <| mp_field_bytes := 0 |>
    <| mp_suffix_state := 0 |> <| mp_current_file := false |> <| mp_has_filename := false |>
    <| mp_has_content_type := false |>.

Definition chttp_web_multipart_start_body (p : parser) : parser :=
  chttp_web_multipart_clear_part
    (p <| mp_state := CHTTP_WEB_MP_INITIAL |> <| mp_initial_index := 0 |> <| mp_total_bytes := 0 |>
       <| mp_part_count := 0 |> <| mp_active := true |> <| mp_failed := false |>).

(** A parser that was not initialised is left as it was, [None]. *)
Definition chttp_web_multipart_init (content_type : list Z) (limits : chttp_web_multipart_limits)
    (user : U) : option parser * chttp_web_error :=
  match (if negb (chttp_web_multipart_limits_valid limits) then None
         else if negb chttp_web_multipart_callbacks_valid then None
         else chttp_web_multipart_parse_outer_boundary content_type) with
  | None =>
    (None, chttp_web_multipart_error CHTTP_WEB_INVALID_ARGUMENT SALTS_OK 0
             "multipart parser configuration or Content-Type is invalid")
  | Some boundary =>
    let p :=
      {| mp_size := sizeof_multipart_parser; mp_limits := limits; mp_boundary := boundary;
         mp_header_bytes := []; mp_part_name := []; mp_part_filename := [];
         mp_part_content_type := []; mp_pending := []; mp_total_bytes := 0; mp_part_count := 0;
         mp_field_bytes := 0; mp_initial_index := 0; mp_state := CHTTP_WEB_MP_INITIAL;
         mp_suffix_state := 0; mp_active := false; mp_failed := false; mp_current_file := false;
         mp_has_filename := false; mp_has_content_type := false; mp_user := user |} in
    (Some (chttp_web_multipart_start_body p), chttp_web_multipart_error CHTTP_WEB_OK SALTS_OK 0 "")
  end.

Definition chttp_web_multipart_initial_char (p : parser) (index : Z) : Z :=
  if index <? 2 then DASH
  else if index <? 2 + zlen (mp_boundary p) then zth (mp_boundary p) (index - 2)
  else if index =? 2 + zlen (mp_boundary p) then CR else LF.

Definition chttp_web_multipart_marker_char (p : parser) (index : Z) : Z :=
  if index =? 0 then CR
  else if index =? 1 then LF
  else if (index =? 2) || (index =? 3) then DASH
  else zth (mp_boundary p) (index - 4).

(** An operation that returns [CHTTP_WEB_OK], [None], or fails. *)
#[local] Abbreviation result := (parser * option chttp_web_error)%type.

Definition failed (r : parser * chttp_web_error) : result := (r.1, Some r.2).

Definition chttp_web_multipart_emit (p : parser) (data : list Z) : result :=
  if zlen data =? 0 then (p, None)
  else if negb (mp_current_file p) &&
          (u64 (lm_max_field_bytes (mp_limits p) - mp_field_bytes p) <? zlen data)
  then
    failed (fail_here p CHTTP_WEB_CAPACITY "multipart field bytes exceed configured limit")
  else
    let '(user, native_status) := part_data callbacks (mp_user p) data in
    let p := p <| mp_user := user |> in
    if negb (bool_decide (native_status = SALTS_OK)) then
      failed (chttp_web_multipart_fail p CHTTP_WEB_MULTIPART native_status (mp_total_bytes p)
                "multipart part-data callback failed")
    else if negb (mp_current_file p) then
      (p <| mp_field_bytes := mp_field_bytes p + zlen data |>, None)
    else (p, None).

(** ** The headers of a part *)

Definition chttp_web_multipart_copy_parameter (limit : Z) (s : list Z) : (list Z * list Z) + Z :=
  chttp_web_multipart_read_parameter_value (Some limit) s.

(** The result is 1, 0 or -1. *)
Fixpoint disposition_loop (fuel : nat) (p : parser) (s : list Z) (have_name have_filename : bool) :
    parser * Z :=
  match s, fuel with
  | [], _ => (p, if have_name then 1 else 0)
  | _, O => (p, 0)
  | _, S fuel =>
    match parameter_name s with
    | None => (p, 0)
    | Some (name, s) =>
      if chttp_web_multipart_ieq name (bytes_of "name") then
        if have_name then (p, 0)
        else
          match chttp_web_multipart_copy_parameter (lm_max_name_bytes (mp_limits p)) s with
          | inr result => (p, result)
          | inl (value, s) =>
            let p := p <| mp_part_name := value |> in
            if zlen value =? 0 then (p, 0) else disposition_loop fuel p s true have_filename
          end
      else if chttp_web_multipart_ieq name (bytes_of "filename") then
        if have_filename then (p, 0)
        else
          match chttp_web_multipart_copy_parameter (lm_max_filename_bytes (mp_limits p)) s with
          | inr result => (p, result)
          | inl (value, s) =>
            disposition_loop fuel (p <| mp_part_filename := value |> <| mp_has_filename := true |>) s
              have_name true
          end
      else
        match chttp_web_multipart_read_parameter_value None s with
        | inr _ => (p, 0)
        | inl (_, s) => disposition_loop fuel p s have_name have_filename
        end
    end
  end.

Definition chttp_web_multipart_parse_disposition (p : parser) (value : list Z) : parser * Z :=
  let '(type, s) := span (fun c => negb (c =? SEMI)) (chttp_web_multipart_skip_ows value) in
  if negb (chttp_web_multipart_ieq (trim_ows_end type) (bytes_of "form-data")) then (p, 0)
  else disposition_loop (length s) p s false false.

Definition chttp_web_multipart_header_name_valid (data : list Z) : bool :=
  negb (zlen data =? 0) && forallb chttp_web_multipart_token_char data.

Definition chttp_web_multipart_header_value_valid (data : list Z) : bool :=
  forallb (fun value => negb ((value =? 0) || (value =? CR) || (value =? LF) || (value =? 127) ||
                              ((value <? 32) && negb (value =? TAB)))) data.

(** The bytes before the first line end and the bytes after it. *)
Fixpoint find_line_end (s : list Z) : option (list Z * list Z) :=
  match s with
  | [] => None
  | c :: s' =>
    if (c =? CR) && match s' with c' :: _ => c' =? LF | [] => false end then Some ([], tail s')
    else match find_line_end s' with Some (line, rest) => Some (c :: line, rest) | None => None end
  end.

Definition header_value (s : list Z) : list Z := trim_ows_end (chttp_web_multipart_skip_ows s).

(** One header line; the new flags, or a failure. *)
Definition begin_line (p : parser) (line : list Z) (have_disposition have_content_type : bool) :
    (parser * bool * bool) + (parser * chttp_web_error) :=
  let '(name, s) := span (fun c => negb (c =? COLON)) line in
  match s with
  | [] => inr (fail_here p CHTTP_WEB_MULTIPART "multipart header name is invalid")
  | _ :: s =>
    if negb (chttp_web_multipart_header_name_valid name) then
      inr (fail_here p CHTTP_WEB_MULTIPART "multipart header name is invalid")
    else
      let value := header_value s in
      if negb (chttp_web_multipart_header_value_valid value) then
        inr (fail_here p CHTTP_WEB_MULTIPART "multipart header value is invalid")
      else if chttp_web_multipart_ieq name (bytes_of "Content-Disposition") then
        if have_disposition then
          inr (fail_here p CHTTP_WEB_MULTIPART "multipart Content-Disposition is duplicated")
        else
          let '(p, disposition_status) := chttp_web_multipart_parse_disposition p value in
          if disposition_status <? 0 then
            inr (fail_here p CHTTP_WEB_CAPACITY "multipart disposition metadata exceeds configured limit")
          else if disposition_status =? 0 then
            inr (fail_here p CHTTP_WEB_MULTIPART "multipart Content-Disposition is invalid")
          else inl (p, true, have_content_type)
      else if chttp_web_multipart_ieq name (bytes_of "Content-Type") then
        if have_content_type || (zlen value =? 0) then
          inr (fail_here p CHTTP_WEB_MULTIPART "multipart Content-Type is invalid")
        else if lm_max_content_type_bytes (mp_limits p) <? zlen value then
          inr (fail_here p CHTTP_WEB_CAPACITY "multipart Content-Type exceeds configured limit")
        else
          inl (p <| mp_part_content_type := value |> <| mp_has_content_type := true |>,
               have_disposition, true)
      else inl (p, have_disposition, have_content_type)
  end.

(** The loop over the lines: whether there was a disposition, or a failure. *)
Fixpoint begin_lines (fuel : nat) (p : parser) (s : list Z) (header_count : Z)
    (have_disposition have_content_type : bool) : (parser * bool) + (parser * chttp_web_error) :=
  if zlen s <? 2 then inl (p, have_disposition)
  else
    match fuel with
    | O => inl (p, have_disposition)
    | S fuel =>
      match find_line_end s with
      | None => inr (fail_here p CHTTP_WEB_MULTIPART "multipart header block is truncated")
      | Some ([], rest) =>
        if negb (zlen rest =? 0) then
          inr (fail_here p CHTTP_WEB_MULTIPART "multipart header terminator is malformed")
        else inl (p, have_disposition)
      | Some (line, rest) =>
        if lm_max_header_count (mp_limits p) <=? header_count then
          inr (fail_here p CHTTP_WEB_CAPACITY "multipart header count exceeds configured limit")
        else
          match begin_line p line have_disposition have_content_type with
          | inr failure => inr failure
          | inl (p, have_disposition, have_content_type) =>
            begin_lines fuel p rest (header_count + 1) have_disposition have_content_type
          end
      end
    end.

Definition part_of (p : parser) : chttp_web_multipart_part :=
  {| part_name := mp_part_name p;
     part_filename := if mp_has_filename p then Some (mp_part_filename p) else None;
     part_content_type := if mp_has_content_type p then Some (mp_part_content_type p) else None |}.

Definition chttp_web_multipart_begin_part (p : parser) : result :=
  let p := p <| mp_part_name := [] |> <| mp_part_filename := [] |> <| mp_part_content_type := [] |>
             <| mp_has_filename := false |> <| mp_has_content_type := false |> in
  match begin_lines (length (mp_header_bytes p)) p (mp_header_bytes p) 0 false false with
  | inr failure => failed failure
  | inl (p, have_disposition) =>
    if negb have_disposition then
      failed (fail_here p CHTTP_WEB_MULTIPART "multipart part is missing Content-Disposition")
    else if lm_max_parts (mp_limits p) <=? mp_part_count p then
      failed (fail_here p CHTTP_WEB_CAPACITY "multipart part count exceeds configured limit")
    else
      let '(user, native_status) := part_begin callbacks (mp_user p) (part_of p) in
      let p := p <| mp_user := user |> in
      if negb (bool_decide (native_status = SALTS_OK)) then
        failed (chttp_web_multipart_fail p CHTTP_WEB_MULTIPART native_status (mp_total_bytes p)
                  "multipart part-begin callback failed")
      else
        (p <| mp_part_count := mp_part_count p + 1 |> <| mp_current_file := mp_has_filename p |>
           <| mp_field_bytes := 0 |> <| mp_pending := [] |> <| mp_suffix_state := 0 |>
           <| mp_state := CHTTP_WEB_MP_BODY |>, None)
  end.

Definition chttp_web_multipart_end_part (p : parser) (final : bool) : result :=
  let '(user, native_status) := part_end callbacks (mp_user p) in
  let p := p <| mp_user := user |> in
  if negb (bool_decide (native_status = SALTS_OK)) then
    failed (chttp_web_multipart_fail p CHTTP_WEB_MULTIPART native_status (mp_total_bytes p)
              "multipart part-end callback failed")
  else if final then (p <| mp_state := CHTTP_WEB_MP_DONE |>, None)
  else ((chttp_web_multipart_clear_part p) <| mp_state := CHTTP_WEB_MP_HEADERS |>, None).

(** ** The bytes of the body *)

Definition last_is (c : Z) (s : list Z) : bool :=
  match last s with Some c' => c' =? c | None => false end.

Definition header_end : list Z := [CR; LF; CR; LF].

Definition chttp_web_multipart_feed_header_byte (p : parser) (value : Z) : result :=
  let header := mp_header_bytes p in
  if value =? 0 then failed (fail_here p CHTTP_WEB_MULTIPART "multipart header contains NUL")
  else if lm_max_header_bytes (mp_limits p) <=? zlen header then
    failed (fail_here p CHTTP_WEB_CAPACITY "multipart header bytes exceed configured limit")
  else if last_is CR header && negb (value =? LF) then
    failed (fail_here p CHTTP_WEB_MULTIPART "multipart header uses invalid CR framing")
  else if (value =? LF) && negb (last_is CR header) then
    failed (fail_here p CHTTP_WEB_MULTIPART "multipart header uses bare LF")
  else
    let header := header ++ [value] in
    let p := p <| mp_header_bytes := header |> in
    if (4 <=? zlen header) && bytes_eqb (zdrop (zlen header - 4) header) header_end then
      chttp_web_multipart_begin_part p
    else (p, None).

Definition chttp_web_multipart_feed_suffix_byte (p : parser) (value : Z) : result :=
  let malformed :=
    failed (fail_here p CHTTP_WEB_MULTIPART "multipart boundary suffix is malformed") in
  match mp_suffix_state p with
  | 0 =>
    if value =? CR then (p <| mp_suffix_state := 1 |>, None)
    else if value =? DASH then (p <| mp_suffix_state := 2 |>, None)
    else malformed
  | 1 =>
    if value =? LF then chttp_web_multipart_end_part (p <| mp_suffix_state := 0 |>) false
    else malformed
  | 2 => if value =? DASH then (p <| mp_suffix_state := 3 |>, None) else malformed
  | 3 => if value =? CR then (p <| mp_suffix_state := 4 |>, None) else malformed
  | 4 =>
    if value =? LF then chttp_web_multipart_end_part (p <| mp_suffix_state := 0 |>) true
    else malformed
  | _ => malformed
  end.

Definition count_byte (r : result) : result :=
  (r.1 <| mp_total_bytes := mp_total_bytes r.1 + 1 |>, r.2).

(** One round of the loop of [feed] on a position with at least one byte: the
    parser and the new position, or a failure. *)
Definition feed_round (p : parser) (value : Z) (rest : list Z) :
    (parser * list Z) + (parser * chttp_web_error) :=
  let continue (r : result) (s : list Z) :=
    match r with (p, None) => inl (p, s) | (p, Some error) => inr (p, error) end in
  match mp_state p with
  | CHTTP_WEB_MP_DONE => inr (fail_here p CHTTP_WEB_MULTIPART "multipart epilogue bytes are not accepted")
  | CHTTP_WEB_MP_INITIAL =>
    if negb (value =? chttp_web_multipart_initial_char p (mp_initial_index p)) then
      inr (fail_here p CHTTP_WEB_MULTIPART "multipart opening delimiter is malformed")
    else
      let p := p <| mp_initial_index := mp_initial_index p + 1 |>
                 <| mp_total_bytes := mp_total_bytes p + 1 |> in
      if mp_initial_index p =? zlen (mp_boundary p) + 4 then
        inl (p <| mp_initial_index := 0 |> <| mp_state := CHTTP_WEB_MP_HEADERS |>, rest)
      else inl (p, rest)
  | CHTTP_WEB_MP_HEADERS =>
    continue (count_byte (chttp_web_multipart_feed_header_byte p value)) rest
  | CHTTP_WEB_MP_SUFFIX =>
    continue (count_byte (chttp_web_multipart_feed_suffix_byte p value)) rest
  | CHTTP_WEB_MP_FAILED => inr (fail_here p CHTTP_WEB_MULTIPART "multipart parser entered an invalid state")
  | CHTTP_WEB_MP_BODY =>
    if zlen (mp_pending p) =? 0 then
      let '(run, s) := span (fun c => negb (c =? CR)) (value :: rest) in
      match (if 0 <? zlen run then chttp_web_multipart_emit p run else (p, None)) with
      | (p, Some error) => inr (p, error)
      | (p, None) =>
        let p := p <| mp_total_bytes := mp_total_bytes p + zlen run |> in
        match s with
        | [] => inl (p, [])
        | _ :: s =>
          inl (p <| mp_pending := [CR] |> <| mp_total_bytes := mp_total_bytes p + 1 |>, s)
        end
      end
    else if value =? chttp_web_multipart_marker_char p (zlen (mp_pending p)) then
      let p := p <| mp_pending := mp_pending p ++ [value] |>
                 <| mp_total_bytes := mp_total_bytes p + 1 |> in
      if zlen (mp_pending p) =? zlen (mp_boundary p) + 4 then
        inl (p <| mp_pending := [] |> <| mp_suffix_state := 0 |>
               <| mp_state := CHTTP_WEB_MP_SUFFIX |>, rest)
      else inl (p, rest)
    else
      match chttp_web_multipart_emit p (mp_pending p) with
      | (p, Some error) => inr (p, error)
      | (p, None) => inl (p <| mp_pending := [] |>, value :: rest)
      end
  end.

(** [None] is a loop that was cut short. *)
Fixpoint feed_loop (fuel : nat) (p : parser) (s : list Z) : option (parser * chttp_web_error) :=
  match s, fuel with
  | [], _ => Some (p, chttp_web_multipart_error CHTTP_WEB_OK SALTS_OK (mp_total_bytes p) "")
  | _, O => None
  | value :: rest, S fuel =>
    match feed_round p value rest with
    | inr failure => Some failure
    | inl (p, s) => feed_loop fuel p s
    end
  end.

(** A round that takes no byte empties the pending bytes, and the next one
    takes a byte. *)
Definition feed_fuel (data : list Z) : nat := S (2 * length data).

Definition chttp_web_multipart_feed (p : parser) (data : list Z) : option (parser * chttp_web_error) :=
  if negb (chttp_web_multipart_parser_valid p) || negb (mp_active p) || mp_failed p then
    Some (p, chttp_web_multipart_error CHTTP_WEB_INVALID_ARGUMENT SALTS_OK 0
               "multipart feed arguments or parser state are invalid")
  else if u64 (lm_max_total_bytes (mp_limits p) - mp_total_bytes p) <? zlen data then
    Some (fail_here p CHTTP_WEB_CAPACITY "multipart body exceeds configured total-byte limit")
  else feed_loop (feed_fuel data) p data.

Definition chttp_web_multipart_finish (p : parser) : parser * chttp_web_error :=
  if negb (chttp_web_multipart_parser_valid p) || negb (mp_active p) || mp_failed p then
    (p, chttp_web_multipart_error CHTTP_WEB_INVALID_ARGUMENT SALTS_OK 0
          "multipart finish parser state is invalid")
  else if negb (bool_decide (mp_state p = CHTTP_WEB_MP_DONE)) then
    fail_here p CHTTP_WEB_MULTIPART "multipart body is truncated before the closing delimiter"
  else
    (p <| mp_active := false |>,
     chttp_web_multipart_error CHTTP_WEB_OK SALTS_OK (mp_total_bytes p) "").

Definition chttp_web_multipart_reset (p : parser) : parser * chttp_web_error :=
  if negb (chttp_web_multipart_parser_valid p) || (mp_active p && negb (mp_failed p)) then
    (p, chttp_web_multipart_error CHTTP_WEB_INVALID_ARGUMENT SALTS_OK 0
          "multipart reset requires a finished or failed parser")
  else
    (chttp_web_multipart_start_body p, chttp_web_multipart_error CHTTP_WEB_OK SALTS_OK 0 "").

End Parser.

End Multipart.
