(* ===== verification/MultipartTheorems.v ===== *)
(** * The multipart parser stays within its limits and does not depend on how
      its input is cut

    The invariant of the parser, that every call keeps it and returns, and
    that a body fed in pieces gives what it gives at once, for an application
    that does not look at how the data of a part is cut. *)

From S2P Require Import Prelude H2Frame Http1Parser Web Multipart.

Module MultipartTheorems.
Import H2Frame Http1Parser Web Multipart.

(** ** Lists *)

Lemma span_app test s : (span test s).1 ++ (span test s).2 = s.
Proof.
  induction s as [|c s IH]; [done|]. cbn. destruct (test c); [|done].
  destruct (span test s). cbn in *. by rewrite IH.
Qed.

Lemma span_all test s : Forall (fun c => test c = true) (span test s).1.
Proof.
  induction s as [|c s IH]; [apply Forall_nil_2|]. cbn. destruct (test c) eqn:E; [|apply Forall_nil_2].
  destruct (span test s). by apply Forall_cons_2.
Qed.

Lemma span_stop test s c rest : (span test s).2 = c :: rest -> test c = false.
Proof.
  induction s as [|x s IH]; [done|]. cbn. destruct (test x) eqn:E; [destruct (span test s); exact IH|].
  by intros [= -> ->].
Qed.

Lemma span_over test a b :
  (span test a).2 = [] -> span test (a ++ b) = (a ++ (span test b).1, (span test b).2).
Proof.
  induction a as [|x a IH]; intros H; [apply surjective_pairing|]. cbn in *.
  destruct (test x); [|done]. destruct (span test a). cbn in H. by rewrite (IH H).
Qed.

Lemma span_cut test a b :
  (span test a).2 <> [] -> span test (a ++ b) = ((span test a).1, (span test a).2 ++ b).
Proof.
  induction a as [|x a IH]; intros H; [done|]. cbn in *. destruct (test x); [|done].
  destruct (span test a). cbn in *. by rewrite (IH H).
Qed.

Lemma span_length test s : (length (span test s).2 <= length s)%nat.
Proof. rewrite <- (span_app test s) at 2. rewrite length_app. lia. Qed.

(** ** Limits *)

Record limits_range (l : chttp_web_multipart_limits) : Prop := {
  lr_header_count : 0 <= lm_max_header_count l;
  lr_name : 0 <= lm_max_name_bytes l;
  lr_filename : 0 <= lm_max_filename_bytes l;
  lr_content_type : 0 <= lm_max_content_type_bytes l;
  lr_parts : 0 <= lm_max_parts l <= SIZE_MAX;
  lr_field : 0 <= lm_max_field_bytes l;
  lr_total : lm_max_total_bytes l <= SIZE_MAX;
}.

(** ** Parameters *)

Lemma quoted_loop_spec capacity s : forall previous out previous' out' rest,
  quoted_loop capacity previous out s = inl (previous', out', rest) ->
  (length rest <= length s)%nat /\
  forall n, capacity = Some n -> zlen out <= n -> zlen out' <= n.
Proof.
  remember (length s) as k eqn:Hk. revert s Hk.
  induction k as [k IH] using lt_wf_ind. intros s -> previous out previous' out' rest.
  assert (forall x s', (length s' < length s)%nat -> output_full capacity out = false ->
    quoted_loop capacity x (out ++ [x]) s' = inl (previous', out', rest) ->
    (length rest <= length s)%nat /\ forall n, capacity = Some n -> zlen out <= n -> zlen out' <= n) as step.
  { intros x s' Hlt Hfull E. destruct (IH _ Hlt s' eq_refl _ _ _ _ _ E) as [Hl Hn]. split; [lia|].
    intros n -> Hout. apply (Hn n eq_refl). unfold output_full in Hfull. bool_prop.
    rewrite zlen_app. change (zlen [x]) with 1. lia. }
  destruct s as [|x s]; cbn; [by intros [= <- <- <-]|]. split_if; [intros [= <- <- <-]; split; [lia|done]|].
  split_if.
  - destruct s as [|y s]; [done|]. do 2 (split_if; [done|]). by apply step; cbn; lia || done.
  - do 2 (split_if; [done|]). apply step; [cbn; lia|done].
Qed.

Lemma unquoted_loop_spec capacity s : forall out out' rest,
  unquoted_loop capacity out s = inl (out', rest) ->
  (length rest <= length s)%nat /\
  forall n, capacity = Some n -> zlen out <= n -> zlen out' <= n.
Proof.
  induction s as [|x s IH]; intros out out' rest; cbn; [by intros [= <- <-]|].
  split_if; [by intros [= <- <-]|]. split_if; [done|]. split_if; [done|]. intros E.
  destruct (IH _ _ _ E) as [Hl Hn]. split; [lia|]. intros n -> Hout. apply (Hn n eq_refl).
  unfold output_full in *. bool_prop. rewrite zlen_app. change (zlen [x]) with 1. lia.
Qed.

Lemma skip_ows_length s : (length (chttp_web_multipart_skip_ows s) <= length s)%nat.
Proof. apply span_length. Qed.

Lemma read_parameter_spec capacity s value rest :
  chttp_web_multipart_read_parameter_value capacity s = inl (value, rest) ->
  (length rest <= length s)%nat /\ forall n, capacity = Some n -> 0 <= n -> zlen value <= n.
Proof.
  unfold chttp_web_multipart_read_parameter_value. pose proof (skip_ows_length s) as Hs.
  destruct (chttp_web_multipart_skip_ows s) as [|c s0] eqn:Es; [done|]. cbv zeta. cbn [length] in Hs.
  assert (forall out r q,
    (if c =? QUOTE then
      match quoted_loop capacity QUOTE [] s0 with
      | inl (previous, out, s) => if previous =? QUOTE then inl (out, s, true) else inr 0
      | inr result => inr result end
     else match unquoted_loop capacity [] (c :: s0) with
          | inl (out, s) => inl (out, s, false) | inr result => inr result end) = inl (out, r, q) ->
    (length r <= length s)%nat /\ forall n, capacity = Some n -> 0 <= n -> zlen out <= n) as Hread.
  { intros out r q. split_if.
    - destruct (quoted_loop _ _ _ _) as [[[? ?] ?]|] eqn:E; [|done]. split_if; [|done]. intros [= <- <- <-].
      apply quoted_loop_spec in E as [? Hn]. split; [lia|]. intros n -> Hn0. by apply Hn.
    - destruct (unquoted_loop _ _ _) as [[? ?]|] eqn:E; [|done]. intros [= <- <- <-].
      apply unquoted_loop_spec in E as [Hl Hn]. cbn in Hl. split; [lia|]. intros n -> Hn0. by apply Hn. }
  destruct (if c =? QUOTE then _ else _) as [[[out r] q]|]; [|done].
  destruct (Hread _ _ _ eq_refl) as [Hl Hn]. pose proof (skip_ows_length r).
  split_if; [done|]. split_if; [done|]. intros [= <- <-]. split; [lia|done].
Qed.

Lemma parameter_name_length s name rest :
  parameter_name s = Some (name, rest) -> (length rest < length s)%nat.
Proof.
  unfold parameter_name. destruct s as [|c s]; [done|]. split_if; [done|].
  pose proof (span_length chttp_web_multipart_token_char (chttp_web_multipart_skip_ows s)) as H1.
  pose proof (skip_ows_length s) as H2.
  destruct (span _ _) as [n r]. split_if; [done|]. pose proof (skip_ows_length r) as H3.
  destruct (chttp_web_multipart_skip_ows r) as [|x r']; [done|]. split_if; [|done]. intros [= <- <-].
  cbn in *. lia.
Qed.

(** ** What the headers of a part change *)

(** The description of the part, as the parser keeps it. *)
Record meta := {
  m_name : list Z;
  m_filename : list Z;
  m_content_type : list Z;
  m_has_filename : bool;
  m_has_content_type : bool;
}.

Definition meta_zero : meta := Build_meta [] [] [] false false.

Definition with_meta {U} (m : meta) (p : chttp_web_multipart_parser U) : chttp_web_multipart_parser U :=
  p <| mp_part_name := m_name m |> <| mp_part_filename := m_filename m |>
    <| mp_part_content_type := m_content_type m |> <| mp_has_filename := m_has_filename m |>
    <| mp_has_content_type := m_has_content_type m |>.

Record meta_fits (l : chttp_web_multipart_limits) (m : meta) : Prop := {
  fits_name : zlen (m_name m) <= lm_max_name_bytes l;
  fits_filename : zlen (m_filename m) <= lm_max_filename_bytes l;
  fits_content_type : zlen (m_content_type m) <= lm_max_content_type_bytes l;
}.

Lemma disposition_loop_meta {U V} l (Hl : limits_range l) fuel : forall (p : chttp_web_multipart_parser U) m s hn hf p' r,
  mp_limits p = l -> disposition_loop fuel (with_meta m p) s hn hf = (p', r) ->
  exists m', p' = with_meta m' p /\ (meta_fits l m -> meta_fits l m') /\
    forall q : chttp_web_multipart_parser V, mp_limits q = l ->
      disposition_loop fuel (with_meta m q) s hn hf = (with_meta m' q, r).
Proof.
  induction fuel as [|fuel IH]; intros p m [|c s] hn hf p' r Hp; cbn [disposition_loop];
    try (intros [= <- <-]; by exists m).
  destruct (parameter_name (c :: s)) as [[name s']|]; [|intros [= <- <-]; by exists m].
  split_if.
  - destruct hn; [intros [= <- <-]; by exists m|].
    change (mp_limits (with_meta m p)) with (mp_limits p). rewrite Hp.
    unfold chttp_web_multipart_copy_parameter.
    destruct (chttp_web_multipart_read_parameter_value _ _) as [[value s'']|e] eqn:E; cycle 1.
    { intros [= <- <-]. exists m. split; [done|]. split; [done|]. intros q Hq.
      change (mp_limits (with_meta m q)) with (mp_limits q). by rewrite Hq, E. }
    set (m1 := Build_meta value (m_filename m) (m_content_type m) (m_has_filename m) (m_has_content_type m)).
    change ((with_meta m p) <| mp_part_name := value |>) with (with_meta m1 p).
    assert (meta_fits l m -> meta_fits l m1) as Hfit.
    { intros []. apply read_parameter_spec in E as [_ E]. split; cbn; try done. apply E; [done|apply Hl]. }
    split_if.
    + intros [= <- <-]. exists m1. split; [done|]. split; [done|]. intros q Hq.
      change (mp_limits (with_meta m q)) with (mp_limits q). rewrite Hq, E.
      by rewrite (proj2 (Z.eqb_eq _ _)) by done.
    + intros H1. destruct (IH p m1 s'' true hf p' r Hp H1) as (m' & -> & Hf' & Hq'). exists m'.
      split; [done|]. split; [by auto|]. intros q Hq.
      change (mp_limits (with_meta m q)) with (mp_limits q). rewrite Hq, E.
      rewrite (proj2 (Z.eqb_neq _ _)) by done. by apply Hq'.
  - split_if.
    + destruct hf; [intros [= <- <-]; by exists m|].
      change (mp_limits (with_meta m p)) with (mp_limits p). rewrite Hp.
      unfold chttp_web_multipart_copy_parameter.
      destruct (chttp_web_multipart_read_parameter_value _ _) as [[value s'']|e] eqn:E; cycle 1.
      { intros [= <- <-]. exists m. split; [done|]. split; [done|]. intros q Hq.
        change (mp_limits (with_meta m q)) with (mp_limits q). by rewrite Hq, E. }
      set (m1 := Build_meta (m_name m) value (m_content_type m) true (m_has_content_type m)).
      assert (meta_fits l m -> meta_fits l m1) as Hfit.
      { intros []. apply read_parameter_spec in E as [_ E]. split; cbn; try done. apply E; [done|apply Hl]. }
      intros H1. destruct (IH p m1 s'' hn true p' r Hp H1) as (m' & -> & Hf' & Hq'). exists m'.
      split; [done|]. split; [by auto|]. intros q Hq.
      change (mp_limits (with_meta m q)) with (mp_limits q). rewrite Hq, E. by apply Hq'.
    + destruct (chttp_web_multipart_read_parameter_value _ _) as [[value s'']|e]; [|intros [= <- <-]; by exists m].
      apply IH, Hp.
Qed.

Definition failed_parser {U} (p : chttp_web_multipart_parser U) : chttp_web_multipart_parser U :=
  p <| mp_failed := true |> <| mp_state := CHTTP_WEB_MP_FAILED |>.

(** The result of reading header lines, on any two parsers with the same limits
    and the same description: both go on, with the same new description, or
    both fail. *)
Definition meta_result {U V A} (l : chttp_web_multipart_limits) (m : meta)
    (p : chttp_web_multipart_parser U) (q : chttp_web_multipart_parser V)
    (r : (chttp_web_multipart_parser U * A) + (chttp_web_multipart_parser U * chttp_web_error))
    (r' : (chttp_web_multipart_parser V * A) + (chttp_web_multipart_parser V * chttp_web_error)) : Prop :=
  exists m', (meta_fits l m -> meta_fits l m') /\
  match r, r' with
  | inl (p', a), inl (q', a') => p' = with_meta m' p /\ q' = with_meta m' q /\ a = a'
  | inr (p', e), inr (q', e') =>
    p' = failed_parser (with_meta m' p) /\ q' = failed_parser (with_meta m' q) /\
    we_status e <> CHTTP_WEB_OK
  | _, _ => False
  end.

Definition pair_flags {U} (r : (chttp_web_multipart_parser U * bool * bool) + (chttp_web_multipart_parser U * chttp_web_error)) :
    (chttp_web_multipart_parser U * (bool * bool)) + (chttp_web_multipart_parser U * chttp_web_error) :=
  match r with inl (p, a, b) => inl (p, (a, b)) | inr e => inr e end.

Ltac meta_is m := exists m; split; [first [done|assumption]|]; cbn; split_and?; try done.

Section Meta.
Context {U V : Type} (l : chttp_web_multipart_limits) (Hl : limits_range l).
Implicit Types (p : chttp_web_multipart_parser U) (q : chttp_web_multipart_parser V).

Lemma parse_disposition_meta p q m value :
  mp_limits p = l -> mp_limits q = l ->
  exists m' r, chttp_web_multipart_parse_disposition (with_meta m p) value = (with_meta m' p, r) /\
    chttp_web_multipart_parse_disposition (with_meta m q) value = (with_meta m' q, r) /\
    (meta_fits l m -> meta_fits l m').
Proof.
  intros Hp Hq. unfold chttp_web_multipart_parse_disposition. destruct (span _ _) as [type s].
  split_if; [by exists m, 0|].
  destruct (disposition_loop (length s) (with_meta m p) s false false) as [p' r] eqn:E.
  eapply (disposition_loop_meta l Hl) in E as (m' & -> & Hf & Hq'); [|done].
  exists m', r. split; [done|]. split; [by apply Hq'|done].
Qed.

Lemma meta_fail {A} p q m status message :
  status <> CHTTP_WEB_OK ->
  meta_result (A := A) l m p q (inr (fail_here (with_meta m p) status message))
    (inr (fail_here (with_meta m q) status message)).
Proof. intros H. by meta_is m. Qed.

Lemma begin_line_meta p q m line hd hc :
  mp_limits p = l -> mp_limits q = l ->
  meta_result l m p q (pair_flags (begin_line (with_meta m p) line hd hc))
    (pair_flags (begin_line (with_meta m q) line hd hc)).
Proof.
  intros Hp Hq. unfold begin_line. destruct (span _ line) as [name [|c s]]; [by apply meta_fail|].
  split_if; [by apply meta_fail|]. cbv zeta. split_if; [by apply meta_fail|]. split_if.
  - destruct hd; [by apply meta_fail|].
    destruct (parse_disposition_meta p q m (header_value s) Hp Hq) as (m' & r & -> & -> & Hf).
    split_if; [by meta_is m'|]. split_if; by meta_is m'.
  - split_if; [|by meta_is m]. split_if; [by apply meta_fail|].
    change (mp_limits (with_meta m p)) with (mp_limits p). change (mp_limits (with_meta m q)) with (mp_limits q).
    rewrite Hp, Hq. split_if; [by apply meta_fail|].
    exists (Build_meta (m_name m) (m_filename m) (header_value s) (m_has_filename m) true).
    split; [|by split_and!]. intros []. split; cbn; try done; bool_prop; lia.
Qed.

Lemma begin_lines_meta fuel : forall p q m s count hd hc,
  mp_limits p = l -> mp_limits q = l ->
  meta_result l m p q (begin_lines fuel (with_meta m p) s count hd hc)
    (begin_lines fuel (with_meta m q) s count hd hc).
Proof.
  induction fuel as [|fuel IH]; intros p q m s count hd hc Hp Hq; cbn [begin_lines];
    (split_if; [by meta_is m|]); [by meta_is m|].
  destruct (find_line_end s) as [[[|x line] rest]|]; [| |by apply meta_fail].
  { split_if; [by apply meta_fail|by meta_is m]. }
  change (mp_limits (with_meta m p)) with (mp_limits p). change (mp_limits (with_meta m q)) with (mp_limits q).
  rewrite Hp, Hq. split_if; [by apply meta_fail|].
  destruct (begin_line_meta p q m (x :: line) hd hc Hp Hq) as (m' & Hf & H).
  destruct (begin_line (with_meta m p) _ _ _) as [[[? ?] ?]|[? ?]],
    (begin_line (with_meta m q) _ _ _) as [[[? ?] ?]|[? ?]]; cbn in H; try done.
  - destruct H as (-> & -> & [= -> ->]). destruct (IH p q m' rest (count + 1) b1 b2 Hp Hq) as (m2 & Hf2 & H2).
    exists m2. split; [by auto|done].
  - by exists m'.
Qed.

End Meta.

(** ** The delimiters *)

(** What ends the data of a part, and what opens the body. *)
Definition marker (boundary : list Z) : list Z := [CR; LF; DASH; DASH] ++ boundary.
Definition opening (boundary : list Z) : list Z := [DASH; DASH] ++ boundary ++ [CR; LF].

Lemma zlen_marker b : zlen (marker b) = zlen b + 4.
Proof. unfold marker. rewrite zlen_app. change (zlen [CR; LF; DASH; DASH]) with 4. lia. Qed.

Section Parser.
Context {U : Type} (cb : chttp_web_multipart_callbacks U).
#[local] Abbreviation parser := (chttp_web_multipart_parser U).
Implicit Types p : parser.

Lemma marker_char_zth p i :
  0 <= i -> chttp_web_multipart_marker_char p i = zth (marker (mp_boundary p)) i.
Proof.
  intros H. unfold chttp_web_multipart_marker_char, marker.
  destruct (decide (i < 4)).
  - assert (i = 0 \/ i = 1 \/ i = 2 \/ i = 3) as [->|[->|[->| ->]]] by lia; reflexivity.
  - rewrite zth_app_r by (unfold zlen; cbn; lia). change (zlen [CR; LF; DASH; DASH]) with 4.
    rewrite !(proj2 (Z.eqb_neq _ _)) by lia. done.
Qed.

Lemma initial_char_zth p i :
  0 <= i < zlen (mp_boundary p) + 4 ->
  chttp_web_multipart_initial_char p i = zth (opening (mp_boundary p)) i.
Proof.
  intros H. unfold chttp_web_multipart_initial_char, opening.
  split_if; [destruct (decide (i = 0)); [by subst|]; by replace i with 1 by lia|].
  rewrite zth_app_r by (unfold zlen; cbn; lia). change (zlen [DASH; DASH]) with 2.
  split_if.
  - unfold zth. rewrite app_nth1; [done|]. unfold zlen in *. lia.
  - rewrite zth_app_r by lia. split_if; [subst|].
    + replace (_ - 2 - _) with 0 by lia. done.
    + replace (i - 2 - zlen (mp_boundary p)) with 1 by lia. done.
Qed.

(** ** The invariant *)

(** The state of the parser within the limits it was made with. *)
Record mp_wf (p : parser) : Prop := {
  wf_valid : chttp_web_multipart_parser_valid cb p = true;
  wf_limits : limits_range (mp_limits p);
  wf_boundary : forallb chttp_web_multipart_boundary_char (mp_boundary p) = true;
  wf_header : zlen (mp_header_bytes p) <= lm_max_header_bytes (mp_limits p);
  wf_name : zlen (mp_part_name p) <= lm_max_name_bytes (mp_limits p);
  wf_filename : zlen (mp_part_filename p) <= lm_max_filename_bytes (mp_limits p);
  wf_content_type : zlen (mp_part_content_type p) <= lm_max_content_type_bytes (mp_limits p);
  wf_total : 0 <= mp_total_bytes p <= lm_max_total_bytes (mp_limits p);
  wf_parts : 0 <= mp_part_count p <= lm_max_parts (mp_limits p);
  wf_field : 0 <= mp_field_bytes p <= lm_max_field_bytes (mp_limits p);
  wf_initial : 0 <= mp_initial_index p < zlen (mp_boundary p) + 4;
  wf_pending : exists c rest, marker (mp_boundary p) = mp_pending p ++ c :: rest;
  wf_failed : mp_failed p = true <-> mp_state p = CHTTP_WEB_MP_FAILED;
}.

Lemma marker_next p c rest :
  marker (mp_boundary p) = mp_pending p ++ c :: rest ->
  chttp_web_multipart_marker_char p (zlen (mp_pending p)) = c.
Proof.
  intros E. rewrite marker_char_zth by apply zlen_nonneg. rewrite E, zth_app_r by lia.
  by rewrite Z.sub_diag.
Qed.

Lemma marker_starts b : exists c rest, marker b = [] ++ c :: rest.
Proof. by exists CR, (LF :: DASH :: DASH :: b). Qed.

(** What a call changes when it only moves on in the body: the fields that the
    configuration set stay. *)
Definition same_config p p' : Prop :=
  mp_size p' = mp_size p /\ mp_limits p' = mp_limits p /\ mp_boundary p' = mp_boundary p /\
  mp_active p' = mp_active p.

Lemma same_config_refl p : same_config p p.
Proof. done. Qed.

Lemma same_config_trans p q r : same_config p q -> same_config q r -> same_config p r.
Proof. intros (? & ? & ? & ?) (? & ? & ? & ?). unfold same_config. split_and!; congruence. Qed.

Lemma valid_same p p' :
  same_config p p' -> chttp_web_multipart_parser_valid cb p = true ->
  chttp_web_multipart_parser_valid cb p' = true.
Proof. intros (E1 & E2 & E3 & _). unfold chttp_web_multipart_parser_valid. by rewrite E1, E2, E3. Qed.

Lemma valid_bounds p :
  chttp_web_multipart_parser_valid cb p = true ->
  0 < zlen (mp_boundary p) <= CHTTP_WEB_MULTIPART_BOUNDARY_HARD_MAX /\
  4 <= lm_max_header_bytes (mp_limits p) <= CHTTP_WEB_MULTIPART_HEADER_BYTES_HARD_MAX /\
  lm_max_field_bytes (mp_limits p) <= lm_max_total_bytes (mp_limits p).
Proof.
  unfold chttp_web_multipart_parser_valid, chttp_web_multipart_limits_valid. intros H. bool_prop.
  pose proof (zlen_nonneg (mp_boundary p)). lia.
Qed.

(** The fields of a call that were not touched carry their part of the
    invariant over; [mp_auto] closes these and the arithmetic. *)
Ltac mp_auto :=
  cbn in *; try done; try lia;
  try (eapply valid_same; [|eassumption]; done);
  try apply marker_starts; try (split; intros; by simplify_eq);
  try (split; [congruence|done]).

Lemma fail_wf p status native offset message :
  mp_wf p -> mp_wf (chttp_web_multipart_fail p status native offset message).1.
Proof. intros []. split; mp_auto. Qed.

Lemma failed_wf p : mp_wf p -> mp_wf (failed_parser p).
Proof. apply (fail_wf p CHTTP_WEB_MULTIPART SALTS_OK 0 String.EmptyString). Qed.

Lemma with_meta_wf m p : mp_wf p -> meta_fits (mp_limits p) m -> mp_wf (with_meta m p).
Proof. intros [] []. split; mp_auto. Qed.

Lemma user_wf p u : mp_wf p -> mp_wf (p <| mp_user := u |>).
Proof. intros []. split; mp_auto. Qed.

Lemma total_wf p t :
  mp_wf p -> 0 <= t <= lm_max_total_bytes (mp_limits p) -> mp_wf (p <| mp_total_bytes := t |>).
Proof. intros [] ?. split; mp_auto. Qed.

(** An operation fails with the parser marked as failed, or goes on; either
    way the configuration and the count of bytes stay. *)
Definition op_ok p (r : parser * option chttp_web_error) : Prop :=
  same_config p r.1 /\ mp_total_bytes r.1 = mp_total_bytes p /\ mp_wf r.1 /\
  match r.2 with
  | None => mp_failed r.1 = false
  | Some e => we_status e <> CHTTP_WEB_OK /\ mp_failed r.1 = true
  end.

Lemma op_fail p p' status native offset message :
  status <> CHTTP_WEB_OK -> mp_wf p' -> same_config p p' -> mp_total_bytes p' = mp_total_bytes p ->
  op_ok p (failed (chttp_web_multipart_fail p' status native offset message)).
Proof.
  intros Hs Hp Hc Ht. split; [done|]. split; [done|]. split; [by apply fail_wf|done].
Qed.

(** ** Data of a part *)

(** What [part_data] is told: nothing when there is nothing. *)
Definition data_call (u : U) (data : list Z) : U * salts_status :=
  if zlen data =? 0 then (u, SALTS_OK) else part_data cb u data.

(** The parser after data was handed over. *)
Definition emitted p (u : U) (n : Z) : parser :=
  if mp_current_file p then p <| mp_user := u |>
  else p <| mp_user := u |> <| mp_field_bytes := mp_field_bytes p + n |>.

Lemma emit_ok_iff p data p' :
  mp_wf p ->
  chttp_web_multipart_emit cb p data = (p', None) <->
  exists u, data_call (mp_user p) data = (u, SALTS_OK) /\
    (mp_current_file p = false -> mp_field_bytes p + zlen data <= lm_max_field_bytes (mp_limits p)) /\
    p' = emitted p u (zlen data).
Proof.
  intros Hp. pose proof (wf_field p Hp) as Hf. pose proof (lr_total _ (wf_limits p Hp)) as Ht.
  destruct (valid_bounds p (wf_valid p Hp)) as (_ & _ & Hft).
  assert (u64 (lm_max_field_bytes (mp_limits p) - mp_field_bytes p) =
    lm_max_field_bytes (mp_limits p) - mp_field_bytes p) as Eu.
  { unfold u64. apply Z.mod_small. unfold SIZE_MAX in Ht. lia. }
  unfold chttp_web_multipart_emit, data_call, emitted. rewrite Eu.
  destruct (Z.eqb_spec (zlen data) 0) as [H|H].
  - split.
    + intros [= <-]. exists (mp_user p). split; [done|]. split; [lia|]. rewrite H.
      destruct p as [? ? ? ? ? ? ? ? ? ? ? ? ? ? ? ? file ? ? ?], file; cbn; [done|]. by rewrite Z.add_0_r.
    + intros (u & [= <-] & _ & ->). rewrite H.
      destruct p as [? ? ? ? ? ? ? ? ? ? ? ? ? ? ? ? file ? ? ?], file; cbn; [done|]. by rewrite Z.add_0_r.
  - destruct (mp_current_file p) eqn:Ec; cbn [negb andb].
    + destruct (part_data cb _ _) as [u native]. case_bool_decide as En; cbn [negb].
      * change (mp_current_file (p <| mp_user := u |>)) with (mp_current_file p). rewrite Ec. cbn [negb].
        split; [intros [= <-]; by exists u; subst|]. by intros (? & [= -> _] & _ & ->).
      * split; [done|]. by intros (? & [= -> ?] & _).
    + split_if; [split; [done|]; intros (? & _ & Hle & _); specialize (Hle eq_refl); lia|].
      destruct (part_data cb _ _) as [u native]. case_bool_decide as En; cbn [negb].
      * change (mp_current_file (p <| mp_user := u |>)) with (mp_current_file p). rewrite Ec. cbn [negb].
        split; [intros [= <-]; exists u; subst; split; [done|]; split; [lia|done]|]. by intros (? & [= -> _] & _ & ->).
      * split; [done|]. by intros (? & [= -> ?] & _).
Qed.

Lemma emitted_wf p u n :
  mp_wf p -> 0 <= n -> (mp_current_file p = false -> mp_field_bytes p + n <= lm_max_field_bytes (mp_limits p)) ->
  mp_wf (emitted p u n).
Proof. intros [] Hn Hf. unfold emitted. destruct (mp_current_file p); split; mp_auto; specialize (Hf eq_refl); lia. Qed.

Lemma emitted_same p u n :
  same_config p (emitted p u n) /\ mp_total_bytes (emitted p u n) = mp_total_bytes p /\
  mp_failed (emitted p u n) = mp_failed p /\ mp_state (emitted p u n) = mp_state p /\
  mp_pending (emitted p u n) = mp_pending p.
Proof. unfold emitted. by destruct (mp_current_file p). Qed.

Lemma emit_fails p data p' e :
  chttp_web_multipart_emit cb p data = (p', Some e) ->
  exists u, p' = failed_parser (p <| mp_user := u |>) /\ we_status e <> CHTTP_WEB_OK.
Proof.
  unfold chttp_web_multipart_emit. split_if; [done|].
  split_if; [intros [= <- <-]; exists (mp_user p); split; [by destruct p|done]|].
  destruct (part_data cb _ _) as [u native]. split_if; [intros [= <- <-]; by exists u|]. by split_if.
Qed.

Lemma emit_op p data : mp_wf p -> mp_failed p = false -> op_ok p (chttp_web_multipart_emit cb p data).
Proof.
  intros Hp Hnf. destruct (chttp_web_multipart_emit cb p data) as [p' [e|]] eqn:E.
  - apply emit_fails in E as (u & -> & He). split; [done|]. split; [done|].
    split; [by apply failed_wf, user_wf|done].
  - apply emit_ok_iff in E as (u & _ & Hf & ->); [|done]. pose proof (zlen_nonneg data).
    destruct (emitted_same p u (zlen data)) as (? & ? & Hff & _).
    split; [done|]. split; [done|]. split; [by apply emitted_wf|]. cbn. congruence.
Qed.

(** ** The headers of a part *)

(** The description that a header block gives, if it is accepted. *)
Definition block_meta (l : chttp_web_multipart_limits) (block : list Z) : option meta :=
  let p := {| mp_size := 0; mp_limits := l; mp_boundary := []; mp_header_bytes := [];
              mp_part_name := []; mp_part_filename := []; mp_part_content_type := []; mp_pending := [];
              mp_total_bytes := 0; mp_part_count := 0; mp_field_bytes := 0; mp_initial_index := 0;
              mp_state := CHTTP_WEB_MP_HEADERS; mp_suffix_state := 0; mp_active := true;
              mp_failed := false; mp_current_file := false; mp_has_filename := false;
              mp_has_content_type := false; mp_user := tt |} in
  match begin_lines (length block) p block 0 false false with
  | inl (p, true) =>
    Some (Build_meta (mp_part_name p) (mp_part_filename p) (mp_part_content_type p)
            (mp_has_filename p) (mp_has_content_type p))
  | _ => None
  end.

Definition meta_part (m : meta) : chttp_web_multipart_part :=
  {| part_name := m_name m;
     part_filename := if m_has_filename m then Some (m_filename m) else None;
     part_content_type := if m_has_content_type m then Some (m_content_type m) else None |}.

(** The parser once the application took the part. *)
Definition in_body p (m : meta) (u : U) : parser :=
  (with_meta m p) <| mp_user := u |> <| mp_part_count := mp_part_count p + 1 |>
    <| mp_current_file := m_has_filename m |> <| mp_field_bytes := 0 |> <| mp_pending := [] |>
    <| mp_suffix_state := 0 |> <| mp_state := CHTTP_WEB_MP_BODY |>.

Lemma meta_zero_fits l : limits_range l -> meta_fits l meta_zero.
Proof. intros []. split; cbn; by rewrite ?zlen_nil. Qed.

Lemma begin_lines_block p : limits_range (mp_limits p) ->
  exists m, meta_fits (mp_limits p) m /\
  match begin_lines (length (mp_header_bytes p)) (with_meta meta_zero p) (mp_header_bytes p) 0 false false with
  | inl (p', have) =>
    p' = with_meta m p /\ block_meta (mp_limits p) (mp_header_bytes p) = if have then Some m else None
  | inr (p', e) =>
    p' = failed_parser (with_meta m p) /\ we_status e <> CHTTP_WEB_OK /\
    block_meta (mp_limits p) (mp_header_bytes p) = None
  end.
Proof.
  intros Hl. unfold block_meta. set (q := Build_parser _ _ _ _ _ _ _ _ _ _ _ _ _ _ _ _ _ _ _ _).
  change q with (with_meta meta_zero q).
  destruct (begin_lines_meta (mp_limits p) Hl (length (mp_header_bytes p)) p q meta_zero (mp_header_bytes p)
    0 false false eq_refl eq_refl) as (m & Hf & H).
  exists m. split; [by apply Hf, meta_zero_fits|].
  destruct (begin_lines _ (with_meta meta_zero p) _ _ _ _) as [[p' have]|[p' e]],
    (begin_lines _ (with_meta meta_zero q) _ _ _ _) as [[q' have']|[q' e']]; try done.
  - destruct H as (-> & -> & <-). split; [done|]. destruct have; [|done]. by destruct m.
  - by destruct H as (-> & _ & ?).
Qed.

Lemma begin_part_cases p : limits_range (mp_limits p) ->
  match chttp_web_multipart_begin_part cb p with
  | (p', None) =>
    exists m u, meta_fits (mp_limits p) m /\ block_meta (mp_limits p) (mp_header_bytes p) = Some m /\
      mp_part_count p < lm_max_parts (mp_limits p) /\
      part_begin cb (mp_user p) (meta_part m) = (u, SALTS_OK) /\ p' = in_body p m u
  | (p', Some e) =>
    we_status e <> CHTTP_WEB_OK /\
    (exists m u, meta_fits (mp_limits p) m /\ p' = failed_parser ((with_meta m p) <| mp_user := u |>)) /\
    forall m u, block_meta (mp_limits p) (mp_header_bytes p) = Some m ->
      mp_part_count p < lm_max_parts (mp_limits p) ->
      part_begin cb (mp_user p) (meta_part m) <> (u, SALTS_OK)
  end.
Proof.
  intros Hl. unfold chttp_web_multipart_begin_part. cbv zeta.
  change (p <| mp_part_name := [] |> <| mp_part_filename := [] |> <| mp_part_content_type := [] |>
    <| mp_has_filename := false |> <| mp_has_content_type := false |>) with (with_meta meta_zero p).
  change (mp_header_bytes (with_meta meta_zero p)) with (mp_header_bytes p).
  destruct (begin_lines_block p Hl) as (m & Hm & H).
  destruct (begin_lines _ _ _ _ _ _) as [[p' have]|[p' e]]; cycle 1.
  { destruct H as (-> & He & Hn). split; [done|]. rewrite Hn. split; [|done].
    exists m, (mp_user p). split; [done|by destruct p]. }
  destruct H as [-> Hb]. rewrite Hb. destruct have; cbn [negb]; cycle 1.
  { split; [done|]. split; [|done]. exists m, (mp_user p). split; [done|by destruct p]. }
  change (lm_max_parts (mp_limits (with_meta m p))) with (lm_max_parts (mp_limits p)).
  change (mp_part_count (with_meta m p)) with (mp_part_count p). split_if.
  { split; [done|]. split; [|intros; lia]. exists m, (mp_user p). split; [done|by destruct p]. }
  change (part_of (with_meta m p)) with (meta_part m). change (mp_user (with_meta m p)) with (mp_user p).
  destruct (part_begin cb _ _) as [u native] eqn:Eb. case_bool_decide; cbn [negb].
  - subst. exists m, u. repeat split; done || apply Hm.
  - split; [done|]. split; [by exists m, u|]. intros m' u' [= <-] _. rewrite Eb. by intros [= _ ?].
Qed.

Lemma in_body_wf p m u :
  mp_wf p -> meta_fits (mp_limits p) m -> mp_part_count p < lm_max_parts (mp_limits p) ->
  mp_failed p = false -> mp_wf (in_body p m u).
Proof. intros [] [] Hc Hf. pose proof (lr_field _ wf_limits0). split; mp_auto. Qed.

Lemma begin_part_op p : mp_wf p -> mp_failed p = false -> op_ok p (chttp_web_multipart_begin_part cb p).
Proof.
  intros Hp Hnf. pose proof (begin_part_cases p (wf_limits p Hp)) as H.
  destruct (chttp_web_multipart_begin_part cb p) as [p' [e|]].
  - destruct H as (He & (m & u & Hm & ->) & _). split; [done|]. split; [done|]. split; [|done].
    by apply failed_wf, user_wf, with_meta_wf.
  - destruct H as (m & u & Hm & _ & Hc & _ & ->). split; [done|]. split; [done|].
    split; [by apply in_body_wf|done].
Qed.

(** The parser between two parts. *)
Definition next_part p (u : U) : parser :=
  (chttp_web_multipart_clear_part (p <| mp_user := u |>)) <| mp_state := CHTTP_WEB_MP_HEADERS |>.

Lemma next_part_wf p u : mp_wf p -> mp_failed p = false -> mp_wf (next_part p u).
Proof.
  intros [] Hf. destruct wf_limits0. pose proof (valid_bounds p wf_valid0).
  split; mp_auto; rewrite ?zlen_nil; try done; lia.
Qed.

Lemma done_wf p u : mp_wf p -> mp_failed p = false -> mp_wf (p <| mp_user := u |> <| mp_state := CHTTP_WEB_MP_DONE |>).
Proof. intros [] Hf. split; mp_auto. Qed.

Lemma end_part_op p final : mp_wf p -> mp_failed p = false -> op_ok p (chttp_web_multipart_end_part cb p final).
Proof.
  intros Hp Hnf. unfold chttp_web_multipart_end_part. destruct (part_end cb _) as [u native].
  split_if; [apply op_fail; [done|by apply user_wf|done..]|].
  destruct final; (split; [done|]; split; [done|]; split; [|done]); [by apply done_wf|by apply next_part_wf].
Qed.

Lemma header_byte_op p value :
  mp_wf p -> mp_failed p = false -> op_ok p (chttp_web_multipart_feed_header_byte cb p value).
Proof.
  intros Hp Hnf. unfold chttp_web_multipart_feed_header_byte. cbv zeta.
  do 4 (split_if; [by apply op_fail|]).
  set (p1 := p <| mp_header_bytes := mp_header_bytes p ++ [value] |>).
  assert (mp_wf p1) as H1.
  { destruct Hp. split; mp_auto. rewrite zlen_app. change (zlen [value]) with 1. lia. }
  split_if; [|by split_and!]. exact (begin_part_op p1 H1 Hnf).
Qed.

Lemma suffix_wf p n : mp_wf p -> mp_wf (p <| mp_suffix_state := n |>).
Proof. intros []. split; mp_auto. Qed.

Lemma suffix_byte_op p value :
  mp_wf p -> mp_failed p = false -> op_ok p (chttp_web_multipart_feed_suffix_byte cb p value).
Proof.
  intros Hp Hnf. unfold chttp_web_multipart_feed_suffix_byte. cbv zeta.
  assert (op_ok p (failed (fail_here p CHTTP_WEB_MULTIPART "multipart boundary suffix is malformed"))) as Hbad
    by (by apply op_fail).
  assert (forall n, op_ok p (p <| mp_suffix_state := n |>, None)) as Hgo
    by (intros n; split_and!; [done..|by apply suffix_wf|done]).
  assert (forall n final, op_ok p (chttp_web_multipart_end_part cb (p <| mp_suffix_state := n |>) final)) as Hend
    by (intros n final; exact (end_part_op (p <| mp_suffix_state := n |>) final (suffix_wf p n Hp) Hnf)).
  destruct (mp_suffix_state p) as [|n|n]; [|do 3 (try destruct n as [n|n|])|]; repeat (split_if; auto); auto.
Qed.

(** ** The loop *)

(** One more round is due when bytes of the marker are held back. *)
Definition waiting p : nat := match mp_pending p with [] => 0 | _ => 1 end.

(** A round moves on, or fails. *)
Definition round_ok p (s : list Z) (r : (parser * list Z) + (parser * chttp_web_error)) : Prop :=
  match r with
  | inl (p', s') =>
    same_config p p' /\ mp_wf p' /\ mp_failed p' = false /\
    mp_total_bytes p' + zlen s' = mp_total_bytes p + zlen s /\
    (2 * length s' + waiting p' < 2 * length s + waiting p)%nat
  | inr (p', e) =>
    same_config p p' /\ mp_wf p' /\ mp_failed p' = true /\ we_status e <> CHTTP_WEB_OK
  end.

Lemma round_fail p s status message :
  mp_wf p -> status <> CHTTP_WEB_OK -> round_ok p s (inr (fail_here p status message)).
Proof. intros Hp Hs. split; [done|]. split; [by apply failed_wf|done]. Qed.

Lemma round_op p value rest r :
  op_ok p r -> mp_total_bytes p + zlen (value :: rest) <= lm_max_total_bytes (mp_limits p) ->
  0 <= mp_total_bytes p ->
  round_ok p (value :: rest)
    (match count_byte r with (p, None) => inl (p, rest) | (p, Some error) => inr (p, error) end).
Proof.
  intros (Hc & Ht & Hw & Hr) Hle H0. destruct r as [p' [e|]]; cbn in *; rewrite zlen_cons in Hle;
    pose proof (zlen_nonneg rest); destruct Hc as (? & El & ?).
  - split; [done|]. split; [|by destruct Hr]. apply total_wf; [done|]. rewrite Ht, El. lia.
  - split; [done|]. split; [apply total_wf; [done|rewrite Ht, El; lia]|]. split; [done|].
    split; [rewrite zlen_cons; lia|]. unfold waiting. cbn. destruct (mp_pending p'), (mp_pending p); lia.
Qed.

Lemma initial_round_ok p value rest :
  mp_wf p -> mp_failed p = false -> mp_state p = CHTTP_WEB_MP_INITIAL ->
  mp_total_bytes p + zlen (value :: rest) <= lm_max_total_bytes (mp_limits p) ->
  round_ok p (value :: rest) (feed_round cb p value rest).
Proof.
  intros Hp Hnf Hs Hle. unfold feed_round. rewrite Hs. cbv zeta. split_if; [by apply round_fail|].
  pose proof (wf_total p Hp). pose proof (wf_initial p Hp). pose proof (zlen_nonneg rest).
  rewrite zlen_cons in Hle. cbn [mp_initial_index set mp_boundary].
  split_if; (split; [done|]; split; [|split; [done|]; cbn; rewrite zlen_cons; split; [lia|]; unfold waiting; cbn; destruct (mp_pending p); lia]);
    destruct Hp; split; mp_auto.
Qed.

Lemma pending_grows p value :
  mp_wf p -> mp_pending p <> [] -> value = chttp_web_multipart_marker_char p (zlen (mp_pending p)) ->
  zlen (mp_pending p ++ [value]) <> zlen (mp_boundary p) + 4 ->
  exists c rest, marker (mp_boundary p) = (mp_pending p ++ [value]) ++ c :: rest.
Proof.
  intros Hp _ -> Hn. destruct (wf_pending p Hp) as (c & rest & E). rewrite (marker_next p c rest E) in *.
  rewrite <- zlen_marker, E, !zlen_app in Hn.
  destruct rest as [|c' rest]; [done|]. exists c', rest. by rewrite E, <- app_assoc.
Qed.

Lemma body_round_ok p value rest :
  mp_wf p -> mp_failed p = false -> mp_state p = CHTTP_WEB_MP_BODY ->
  mp_total_bytes p + zlen (value :: rest) <= lm_max_total_bytes (mp_limits p) ->
  round_ok p (value :: rest) (feed_round cb p value rest).
Proof.
  intros Hp Hnf Hs Hle. pose proof (wf_total p Hp) as Ht. unfold feed_round. rewrite Hs.
  destruct (Z.eqb_spec (zlen (mp_pending p)) 0) as [He|He].
  - apply zlen_0_inv in He. destruct (span _ _) as [run s] eqn:Es.
    pose proof (span_app (fun c => negb (c =? CR)) (value :: rest)) as Ha. rewrite Es in Ha. cbn [fst snd] in Ha.
    assert (zlen run + zlen s = zlen (value :: rest)) as Hz by (by rewrite <- Ha, zlen_app).
    assert (length run + length s = length (value :: rest))%nat as Hz' by (by rewrite <- Ha, length_app).
    pose proof (zlen_nonneg run). pose proof (zlen_nonneg s).
    assert (op_ok p (if 0 <? zlen run then chttp_web_multipart_emit cb p run else (p, None))) as Hop.
    { split_if; [by apply emit_op|by split_and!]. }
    destruct (if 0 <? zlen run then _ else _) as [p1 [e|]]; destruct Hop as (Hc & Ht1 & Hw1 & Hr); cbn in Hc, Ht1, Hw1, Hr;
      [by split_and!; try apply Hr|].
    destruct Hc as (Ec1 & Ec2 & Ec3). cbv zeta. destruct s as [|c s].
    + split; [done|]. split; [apply total_wf; [done|rewrite Ht1, Ec2; lia]|]. split; [done|]. cbn -[zlen].
      rewrite zlen_nil, Ht1. split; [rewrite zlen_nil in Hz; lia|]. unfold waiting; cbn. rewrite He. destruct (mp_pending p1); lia.
    + rewrite !zlen_cons in *. pose proof (zlen_nonneg s).
      split; [done|]. split.
      { assert (mp_wf (p1 <| mp_total_bytes := mp_total_bytes p1 + zlen run + 1 |>)) as Hw2
          by (apply total_wf; [done|rewrite Ht1, Ec2; lia]).
        destruct Hw2. split; mp_auto. by exists LF, (DASH :: DASH :: mp_boundary p1). }
      split; [done|]. cbn -[zlen]. rewrite Ht1, ?zlen_cons. split; [lia|]. unfold waiting; cbn. rewrite He. cbn in Hz'. lia.
  - assert (mp_pending p <> []) as Hne by (intros E; by rewrite E in He).
    assert (waiting p = 1)%nat as Hwait by (unfold waiting; by destruct (mp_pending p)).
    rewrite zlen_cons in Hle. pose proof (zlen_nonneg rest). cbv zeta. split_if.
    + cbn [mp_pending set mp_boundary]. split_if.
      * split; [done|]. split; [destruct Hp; split; mp_auto|]. split; [done|].
        cbn -[zlen]. rewrite zlen_cons. split; [lia|]. unfold waiting at 1; cbn; lia.
      * split; [done|]. split; [|split; [done|]].
        { pose proof (pending_grows p value Hp Hne ltac:(done) ltac:(done)). destruct Hp; split; mp_auto. }
        cbn -[zlen]. rewrite zlen_cons. split; [lia|]. unfold waiting at 1; cbn. destruct (mp_pending p ++ [value]); lia.
    + pose proof (emit_op p (mp_pending p) Hp Hnf) as Hop.
      destruct (chttp_web_multipart_emit cb p (mp_pending p)) as [p1 [e|]]; destruct Hop as (Hc & Ht1 & Hw1 & Hr); cbn in Hc, Ht1, Hw1, Hr;
        [by split_and!; try apply Hr|].
      split; [done|]. split; [destruct Hw1; split; mp_auto|]. split; [done|]. cbn -[zlen]. split; [lia|].
      rewrite Hwait. unfold waiting; cbn. lia.
Qed.

Lemma feed_round_ok p value rest :
  mp_wf p -> mp_failed p = false ->
  mp_total_bytes p + zlen (value :: rest) <= lm_max_total_bytes (mp_limits p) ->
  round_ok p (value :: rest) (feed_round cb p value rest).
Proof.
  intros Hp Hnf Hle. pose proof (wf_total p Hp). destruct (mp_state p) eqn:Hs;
    [by apply initial_round_ok| |by apply body_round_ok| | |]; unfold feed_round; rewrite Hs.
  - apply round_op; [by apply header_byte_op|done|lia].
  - apply round_op; [by apply suffix_byte_op|done|lia].
  - by apply round_fail.
  - by apply round_fail.
Qed.

(** The loop returns, and the parser is well formed and has failed exactly when
    the status says so. *)
Lemma feed_loop_ok fuel : forall p s,
  mp_wf p -> mp_failed p = false -> mp_total_bytes p + zlen s <= lm_max_total_bytes (mp_limits p) ->
  (2 * length s + waiting p <= fuel)%nat ->
  exists p' e, feed_loop cb fuel p s = Some (p', e) /\ same_config p p' /\ mp_wf p' /\
    (if mp_failed p' then we_status e <> CHTTP_WEB_OK
     else e = chttp_web_multipart_error CHTTP_WEB_OK SALTS_OK (mp_total_bytes p') "" /\
          mp_total_bytes p' = mp_total_bytes p + zlen s).
Proof.
  induction fuel as [|fuel IH]; intros p [|value rest] Hp Hnf Hle Hfuel; cbn [feed_loop];
    try (cbn in Hfuel; lia);
    try (exists p, (chttp_web_multipart_error CHTTP_WEB_OK SALTS_OK (mp_total_bytes p) "");
         rewrite Hnf, zlen_nil; split_and!; [done..|lia]).
  pose proof (feed_round_ok p value rest Hp Hnf Hle) as Hr.
  destruct (feed_round cb p value rest) as [[p1 s1]|[p1 e]].
  - destruct Hr as (Hc & Hw & Hf & Ht & Hm). destruct Hc as (Hc1 & Hc2 & Hc3).
    destruct (IH p1 s1 Hw Hf) as (p' & e & E & Hc' & Hw' & He); [rewrite Hc2; lia|lia|].
    exists p', e. split; [done|]. split; [by eapply same_config_trans; [|exact Hc']|]. split; [done|].
    destruct (mp_failed p'); [done|]. destruct He as [-> He]. split; [done|lia].
  - destruct Hr as (Hc & Hw & Hf & He). exists p1, e. rewrite Hf. by split_and!.
Qed.

(** ** Any sequence of calls *)

Lemma room_u64 p : mp_wf p ->
  u64 (lm_max_total_bytes (mp_limits p) - mp_total_bytes p) = lm_max_total_bytes (mp_limits p) - mp_total_bytes p.
Proof.
  intros Hp. pose proof (wf_total p Hp). pose proof (lr_total _ (wf_limits p Hp)). unfold u64.
  apply Z.mod_small. unfold SIZE_MAX in *. lia.
Qed.

Lemma waiting_le p : (waiting p <= 1)%nat.
Proof. unfold waiting. destruct (mp_pending p); lia. Qed.

Lemma feed_call p data : mp_wf p -> mp_active p = true -> mp_failed p = false ->
  chttp_web_multipart_feed cb p data =
  if lm_max_total_bytes (mp_limits p) <? mp_total_bytes p + zlen data then
    Some (fail_here p CHTTP_WEB_CAPACITY "multipart body exceeds configured total-byte limit")
  else feed_loop cb (feed_fuel data) p data.
Proof.
  intros Hp Ha Hf. unfold chttp_web_multipart_feed. rewrite (wf_valid p Hp), Ha, Hf. cbn [negb orb].
  rewrite room_u64 by done. repeat split_if; done || lia.
Qed.

Lemma start_body_wf p : mp_wf p -> mp_wf (chttp_web_multipart_start_body p).
Proof.
  intros []. destruct wf_limits0. pose proof (valid_bounds p wf_valid0).
  split; mp_auto; rewrite ?zlen_nil; done || lia.
Qed.

Lemma finish_wf p : mp_wf p -> mp_wf (chttp_web_multipart_finish cb p).1.
Proof.
  intros Hp. unfold chttp_web_multipart_finish. split_if; [done|]. split_if; [by apply fail_wf|].
  destruct Hp. split; mp_auto.
Qed.

Lemma reset_wf p : mp_wf p -> mp_wf (chttp_web_multipart_reset cb p).1.
Proof. intros Hp. unfold chttp_web_multipart_reset. split_if; [done|by apply start_body_wf]. Qed.

Lemma feed_total p data : mp_wf p ->
  exists p' e, chttp_web_multipart_feed cb p data = Some (p', e) /\ mp_wf p' /\
    (we_status e = CHTTP_WEB_OK -> mp_failed p' = false).
Proof.
  intros Hp. destruct (mp_active p) eqn:Ha, (mp_failed p) eqn:Hf;
    try (unfold chttp_web_multipart_feed; rewrite (wf_valid p Hp), Ha, Hf; cbn [negb orb]; by eexists _, _).
  rewrite feed_call by done. split_if; [eexists _, _; split; [done|]; split; [by apply failed_wf|done]|].
  destruct (feed_loop_ok (feed_fuel data) p data Hp Hf) as (q & e & E & _ & Hw & He);
    [done|unfold feed_fuel; pose proof (waiting_le p); lia|].
  exists q, e. rewrite E. split; [done|]. split; [done|]. by destruct (mp_failed q).
Qed.

Lemma boundary_loop_valid fuel : forall s found b,
  (forall b', found = Some b' -> 0 < zlen b' <= CHTTP_WEB_MULTIPART_BOUNDARY_HARD_MAX /\
    forallb chttp_web_multipart_boundary_char b' = true) ->
  boundary_loop fuel s found = Some b ->
  0 < zlen b <= CHTTP_WEB_MULTIPART_BOUNDARY_HARD_MAX /\ forallb chttp_web_multipart_boundary_char b = true.
Proof.
  induction fuel as [|fuel IH]; intros [|c s] found b Hf; cbn [boundary_loop]; try done; try apply Hf.
  destruct (parameter_name _) as [[name s']|]; [|done]. split_if.
  - destruct found; [done|]. destruct (chttp_web_multipart_read_parameter_value _ _) as [[b' s'']|]; [|done].
    split_if; [done|]. apply IH. intros ? [= <-]. pose proof (zlen_nonneg b'). split; [lia|done].
  - destruct (chttp_web_multipart_read_parameter_value _ _) as [[? s'']|]; [|done]. by apply IH.
Qed.

Lemma init_wf content_type limits user p e :
  limits_range limits -> chttp_web_multipart_init cb content_type limits user = (Some p, e) ->
  mp_wf p /\ mp_active p = true /\ mp_failed p = false /\ mp_state p = CHTTP_WEB_MP_INITIAL /\
  mp_total_bytes p = 0 /\ mp_part_count p = 0 /\ mp_initial_index p = 0 /\ mp_header_bytes p = [] /\
  mp_user p = user /\ mp_limits p = limits /\
  chttp_web_multipart_parse_outer_boundary content_type = Some (mp_boundary p).
Proof.
  intros Hl. unfold chttp_web_multipart_init. split_if; [done|]. split_if; [done|].
  destruct (chttp_web_multipart_parse_outer_boundary content_type) as [b|] eqn:E; [|done]. intros [= <- <-].
  split; [|done]. unfold chttp_web_multipart_parse_outer_boundary in E. destruct (span _ _) as [media s].
  destruct (negb _); [done|]. apply boundary_loop_valid in E as [Hb Hc]; [|done]. pose proof Hl as [].
  split; try done; cbn -[zlen marker]; rewrite ?zlen_nil; try lia; try apply marker_starts.
  - unfold chttp_web_multipart_parser_valid. cbn -[zlen]. rewrite (proj2 (Z.eqb_neq _ _)), (proj2 (Z.leb_le _ _)) by lia.
    by bool_prop; rewrite Heqb, Heqb0.
  - unfold chttp_web_multipart_limits_valid in *. bool_prop. lia.
  - unfold chttp_web_multipart_limits_valid in *. bool_prop. lia.
Qed.

Inductive mp_call :=
  | MpFeed (data : list Z)
  | MpFinish
  | MpReset.

Definition run_call p (c : mp_call) : option parser :=
  match c with
  | MpFeed data => fst <$> chttp_web_multipart_feed cb p data
  | MpFinish => Some (chttp_web_multipart_finish cb p).1
  | MpReset => Some (chttp_web_multipart_reset cb p).1
  end.

Fixpoint run_calls p (calls : list mp_call) : option parser :=
  match calls with
  | [] => Some p
  | c :: calls => match run_call p c with Some p => run_calls p calls | None => None end
  end.

(** The arrays of the structure hold what the model says they hold, with the
    terminators the code writes. *)
Record buffers_fit p : Prop := {
  bf_boundary : zlen (mp_boundary p) < 71;
  bf_header : zlen (mp_header_bytes p) <= 8192;
  bf_name : zlen (mp_part_name p) < 257;
  bf_filename : zlen (mp_part_filename p) < 1025;
  bf_content_type : zlen (mp_part_content_type p) < 257;
  bf_pending : zlen (mp_pending p) < 74;
}.

Lemma wf_buffers p : mp_wf p -> buffers_fit p.
Proof.
  intros Hp. destruct (wf_pending p Hp) as (c & rest & E). apply (f_equal zlen) in E.
  rewrite zlen_marker, zlen_app, zlen_cons in E. pose proof (zlen_nonneg rest).
  pose proof (valid_bounds p (wf_valid p Hp)) as (Hb & Hh & _). pose proof (wf_valid p Hp) as Hv.
  unfold chttp_web_multipart_parser_valid, chttp_web_multipart_limits_valid in Hv.
  unfold CHTTP_WEB_MULTIPART_BOUNDARY_HARD_MAX, CHTTP_WEB_MULTIPART_HEADER_BYTES_HARD_MAX,
    CHTTP_WEB_MULTIPART_NAME_HARD_MAX, CHTTP_WEB_MULTIPART_FILENAME_HARD_MAX, CHTTP_WEB_MULTIPART_CONTENT_TYPE_HARD_MAX in *.
  bool_prop. destruct Hp. split; lia.
Qed.

(** Any sequence of feeds, finishes and resets returns, whatever the bytes and the
    application, and keeps the parser within its limits: header bytes, names,
    content type, counts of parts and bytes, and every array of the structure. *)
Theorem multipart_session_safe content_type limits user p0 e0 calls :
  limits_range limits -> chttp_web_multipart_init cb content_type limits user = (Some p0, e0) ->
  exists p, run_calls p0 calls = Some p /\ mp_wf p /\ buffers_fit p.
Proof.
  intros Hl E. apply init_wf in E as [Hp _]; [|done]. revert p0 Hp.
  induction calls as [|c calls IH]; intros p Hp; cbn [run_calls].
  - exists p. split; [done|]. split; [done|by apply wf_buffers].
  - destruct c as [data| |]; cbn [run_call].
    + destruct (feed_total p data Hp) as (p' & e & -> & Hw & _). by apply IH.
    + by apply IH, finish_wf.
    + by apply IH, reset_wf.
Qed.

(** ** Input in pieces *)

(** The loop ends with success. *)
Definition feeds p (s : list Z) p' : Prop :=
  exists fuel, feed_loop cb fuel p s =
    Some (p', chttp_web_multipart_error CHTTP_WEB_OK SALTS_OK (mp_total_bytes p') "").

Lemma feed_loop_more fuel : forall fuel' p s r,
  (fuel <= fuel')%nat -> feed_loop cb fuel p s = Some r -> feed_loop cb fuel' p s = Some r.
Proof.
  induction fuel as [|fuel IH]; intros fuel' p [|v s] r Hle; cbn; try done; try (by destruct fuel').
  destruct fuel' as [|fuel']; [lia|]. cbn. destruct (feed_round cb p v s) as [[p1 s1]|]; [|done].
  apply IH. lia.
Qed.

Lemma feeds_nil p p' : feeds p [] p' <-> p' = p.
Proof.
  split; [intros [[|fuel] E]; cbn in E; congruence|intros ->]. exists O. done.
Qed.

Definition room p (s : list Z) : Prop :=
  mp_wf p /\ mp_failed p = false /\ mp_total_bytes p + zlen s <= lm_max_total_bytes (mp_limits p).

Lemma feeds_cons p v s p' :
  room p (v :: s) ->
  feeds p (v :: s) p' <-> exists p1 s1, feed_round cb p v s = inl (p1, s1) /\ feeds p1 s1 p'.
Proof.
  intros (Hp & Hf & Ht). split.
  - intros [[|fuel] E]; [done|]. cbn in E. pose proof (feed_round_ok p v s Hp Hf Ht) as Hr.
    destruct (feed_round cb p v s) as [[p1 s1]|[p1 e]]; [by exists p1, s1; split; [|exists fuel]|].
    destruct Hr as (_ & _ & _ & Hr). injection E as -> ->. done.
  - intros (p1 & s1 & E & fuel & E'). exists (S fuel). cbn. by rewrite E.
Qed.

Lemma room_round p v s p1 s1 :
  room p (v :: s) -> feed_round cb p v s = inl (p1, s1) ->
  room p1 s1 /\ same_config p p1 /\ (2 * length s1 + waiting p1 < 2 * length (v :: s) + waiting p)%nat /\
  mp_total_bytes p1 + zlen s1 = mp_total_bytes p + zlen (v :: s).
Proof.
  intros (Hp & Hf & Ht) E. pose proof (feed_round_ok p v s Hp Hf Ht) as Hr. rewrite E in Hr.
  destruct Hr as ((H1 & H2 & H3) & Hw & Hf1 & Ht1 & Hm).
  split; [split; [done|]; split; [done|]; rewrite H2; lia|]. done.
Qed.

(** The application does not see how the data of a part is cut. *)
Class LawfulSink : Prop := {
  sink_split u a b u' :
    a <> [] -> b <> [] ->
    part_data cb u (a ++ b) = (u', SALTS_OK) <->
    exists u1, part_data cb u a = (u1, SALTS_OK) /\ part_data cb u1 b = (u', SALTS_OK);
}.

Context {Hsink : LawfulSink}.

Lemma data_call_split u a b u' :
  data_call u (a ++ b) = (u', SALTS_OK) <->
  exists u1, data_call u a = (u1, SALTS_OK) /\ data_call u1 b = (u', SALTS_OK).
Proof.
  unfold data_call. rewrite zlen_app. pose proof (zlen_nonneg a). pose proof (zlen_nonneg b).
  destruct (Z.eqb_spec (zlen a) 0) as [Ha|Ha].
  - apply zlen_0_inv in Ha. subst. rewrite zlen_nil. cbn [app]. rewrite Z.add_0_l.
    split; [by exists u|by intros (? & [= <-] & ?)].
  - destruct (Z.eqb_spec (zlen b) 0) as [Hb|Hb].
    + apply zlen_0_inv in Hb. subst. rewrite zlen_nil, app_nil_r, Z.add_0_r, (proj2 (Z.eqb_neq _ _) Ha).
      split; [by exists u'|by intros (? & ? & [= <-])].
    + rewrite (proj2 (Z.eqb_neq _ _)) by lia. apply sink_split; intros ->; by rewrite zlen_nil in *.
Qed.

Lemma emit_split p a b p' :
  mp_wf p ->
  chttp_web_multipart_emit cb p (a ++ b) = (p', None) <->
  exists p1, chttp_web_multipart_emit cb p a = (p1, None) /\ chttp_web_multipart_emit cb p1 b = (p', None).
Proof.
  intros Hp. pose proof (zlen_nonneg a). pose proof (zlen_nonneg b).
  assert (forall u n m u', emitted (emitted p u n) u' m = emitted p u' (n + m)) as Hee.
  { intros. unfold emitted. destruct p as [? ? ? ? ? ? ? ? ? ? ? ? ? ? ? ? file ? ? ?], file; cbn; [done|]. by rewrite Z.add_assoc. }
  assert (forall u n, mp_limits (emitted p u n) = mp_limits p /\ mp_current_file (emitted p u n) = mp_current_file p /\
    mp_user (emitted p u n) = u /\ (mp_current_file p = false -> mp_field_bytes (emitted p u n) = mp_field_bytes p + n)) as Hem.
  { intros. unfold emitted. by destruct p as [? ? ? ? ? ? ? ? ? ? ? ? ? ? ? ? file ? ? ?], file. }
  rewrite emit_ok_iff, zlen_app by done. setoid_rewrite data_call_split. split.
  - intros (u & (u1 & Ha & Hb) & Hle & ->). exists (emitted p u1 (zlen a)). destruct (Hem u1 (zlen a)) as (E1 & E2 & E3 & E4).
    assert (mp_current_file p = false -> mp_field_bytes p + zlen a <= lm_max_field_bytes (mp_limits p)) as Hla
      by (intros Hc; specialize (Hle Hc); lia).
    split; [apply emit_ok_iff; [done|]; by exists u1|]. apply emit_ok_iff; [by apply emitted_wf|].
    exists u. rewrite E1, E2, E3, Hee. split; [done|]. split; [|done]. intros Hc. rewrite (E4 Hc). specialize (Hle Hc). lia.
  - intros (p1 & Ha & Hb). apply emit_ok_iff in Ha as (u1 & Ha & Hla & ->); [|done].
    destruct (Hem u1 (zlen a)) as (E1 & E2 & E3 & E4).
    apply emit_ok_iff in Hb as (u & Hb & Hlb & ->); [|by apply emitted_wf].
    rewrite E1, E2, E3 in *. exists u. rewrite Hee. split; [by exists u1|]. split; [|done].
    intros Hc. specialize (Hlb Hc). rewrite (E4 Hc) in Hlb. lia.
Qed.

(** The parser after a run of data, and after the carriage return behind it. *)
Definition after_run p (n : Z) : parser := p <| mp_total_bytes := mp_total_bytes p + n |>.
Definition hold_cr p : parser :=
  p <| mp_pending := [CR] |> <| mp_total_bytes := mp_total_bytes p + 1 |>.

Definition not_cr (c : Z) : bool := negb (c =? CR).

Lemma after_run_0 p : after_run p 0 = p.
Proof. unfold after_run. rewrite Z.add_0_r. by destruct p. Qed.

Lemma after_run_run p n m : after_run (after_run p n) m = after_run p (n + m).
Proof. unfold after_run. cbn. by rewrite Z.add_assoc. Qed.

(** Handing over data does not look at the bytes counted. *)
Lemma emit_after_run p n data q :
  mp_wf p -> mp_wf (after_run p n) ->
  chttp_web_multipart_emit cb (after_run p n) data = (q, None) <->
  exists p0, chttp_web_multipart_emit cb p data = (p0, None) /\ q = after_run p0 n.
Proof.
  intros Hp Hn. setoid_rewrite emit_ok_iff; [|done..].
  assert (forall u m, emitted (after_run p n) u m = after_run (emitted p u m) n) as E.
  { intros. unfold emitted. by destruct p as [? ? ? ? ? ? ? ? ? ? ? ? ? ? ? ? file ? ? ?], file. }
  split.
  - intros (u & Hu & Hl & ->). rewrite E. eexists. split; [by exists u|done].
  - intros (p0 & (u & Hu & Hl & ->) & ->). exists u. by rewrite E.
Qed.

(** In the data of a part with nothing held back: the run up to the next
    carriage return is handed over at once. *)
Lemma feeds_body p s p' :
  room p s -> mp_state p = CHTTP_WEB_MP_BODY -> mp_pending p = [] ->
  feeds p s p' <->
  exists p0, chttp_web_multipart_emit cb p (span not_cr s).1 = (p0, None) /\
    match (span not_cr s).2 with
    | [] => p' = after_run p0 (zlen (span not_cr s).1)
    | _ :: rest => feeds (hold_cr (after_run p0 (zlen (span not_cr s).1))) rest p'
    end.
Proof.
  intros Hr Hs Hq. destruct s as [|v s].
  { rewrite feeds_nil. cbn [span fst snd]. rewrite zlen_nil. split.
    - intros ->. exists p. by rewrite after_run_0.
    - intros (p0 & [= <-] & ->). by rewrite after_run_0. }
  rewrite feeds_cons by done. unfold feed_round. rewrite Hs, Hq, zlen_nil. cbn [Z.eqb].
  change (fun c => negb (c =? CR)) with not_cr. destruct (span not_cr (v :: s)) as [run r]. cbn [fst snd].
  assert ((if 0 <? zlen run then chttp_web_multipart_emit cb p run else (p, None)) =
    chttp_web_multipart_emit cb p run) as ->.
  { split_if; [done|]. pose proof (zlen_nonneg run). unfold chttp_web_multipart_emit.
    by rewrite (proj2 (Z.eqb_eq _ _)) by lia. }
  destruct (chttp_web_multipart_emit cb p run) as [p0 [e|]].
  { split; [by intros (? & ? & ? & _)|by intros (? & ? & _)]. }
  cbv zeta. destruct r as [|c r]; split.
  - intros (p1 & s1 & [= <- <-] & E). apply feeds_nil in E as ->. by exists p0.
  - intros (p1 & [= <-] & ->). eexists _, []. split; [done|]. by apply feeds_nil.
  - intros (p1 & s1 & [= <- <-] & E). by exists p0.
  - intros (p1 & [= <-] & E). by eexists _, r.
Qed.

Lemma run_room p p0 a b :
  room p (a ++ b) -> chttp_web_multipart_emit cb p a = (p0, None) -> room (after_run p0 (zlen a)) b.
Proof.
  intros (Hp & Hf & Ht) E. pose proof (emit_op p a Hp Hf) as Hop. rewrite E in Hop.
  destruct Hop as ((_ & Hl & _) & Ht0 & Hw & Hf0). cbn in Hl, Ht0, Hw, Hf0. rewrite zlen_app in Ht.
  pose proof (zlen_nonneg a). pose proof (zlen_nonneg b). pose proof (wf_total p Hp).
  split; [apply total_wf; [done|]; rewrite Ht0, Hl; lia|]. split; [done|]. cbn. rewrite Ht0, Hl. lia.
Qed.

Lemma cr_room p0 c s : room p0 (c :: s) -> room (hold_cr p0) s.
Proof.
  intros (Hp & Hf & Ht). rewrite zlen_cons in Ht. pose proof (zlen_nonneg s). pose proof (wf_total p0 Hp).
  split; [|split; [done|cbn; lia]]. destruct Hp. split; mp_auto. by exists LF, (DASH :: DASH :: mp_boundary p0).
Qed.

Lemma emit_keeps p a p0 :
  mp_wf p -> chttp_web_multipart_emit cb p a = (p0, None) ->
  mp_state p0 = mp_state p /\ mp_pending p0 = mp_pending p /\ mp_total_bytes p0 = mp_total_bytes p /\ mp_wf p0.
Proof.
  intros Hp E. apply emit_ok_iff in E as (u & _ & Hf & ->); [|done]. pose proof (zlen_nonneg a).
  destruct (emitted_same p u (zlen a)) as (_ & ? & _ & ? & ?). by split_and!; [..|apply emitted_wf].
Qed.

(** Without a carriage return, data goes through as it is. *)
Lemma feeds_run p a b p' :
  room p (a ++ b) -> mp_state p = CHTTP_WEB_MP_BODY -> mp_pending p = [] -> (span not_cr a).2 = [] ->
  feeds p (a ++ b) p' <-> exists p1, feeds p a p1 /\ feeds p1 b p'.
Proof.
  intros Hr Hs Hq Ha.
  assert ((span not_cr a).1 = a) as Ea by (rewrite <- (span_app not_cr a) at 2; by rewrite Ha, app_nil_r).
  assert (room p a) as Hra.
  { destruct Hr as (? & ? & Ht). rewrite zlen_app in Ht. pose proof (zlen_nonneg b). by split_and!; [..|lia]. }
  pose proof Hr as (Hp & _ & _).
  rewrite (feeds_body p (a ++ b)) by done. setoid_rewrite (feeds_body p a) at 1; [|done..].
  rewrite span_over, Ha, Ea by done. cbn [fst snd]. setoid_rewrite emit_split at 1; [|done].
  assert (forall p1, chttp_web_multipart_emit cb p a = (p1, None) ->
    (exists p0, chttp_web_multipart_emit cb p1 (span not_cr b).1 = (p0, None) /\
      match (span not_cr b).2 with
      | [] => p' = after_run p0 (zlen (a ++ (span not_cr b).1))
      | _ :: rest => feeds (hold_cr (after_run p0 (zlen (a ++ (span not_cr b).1)))) rest p'
      end) <-> feeds (after_run p1 (zlen a)) b p') as Hb.
  { intros p1 E1. pose proof (run_room p p1 a b Hr E1) as Hr1. destruct (emit_keeps p a p1 Hp E1) as (Es & Eq & Et & Hw1).
    rewrite (feeds_body (after_run p1 (zlen a)) b); [|done|by cbn; rewrite Es|by cbn; rewrite Eq].
    pose proof Hr1 as (Hwr & _ & _). setoid_rewrite emit_after_run; [|done..]. rewrite zlen_app. split.
    - intros (p0 & E0 & H). exists (after_run p0 (zlen a)). rewrite after_run_run. split; [by exists p0|done].
    - intros (q & (p0 & E0 & ->) & H). exists p0. rewrite after_run_run in H. done. }
  split.
  - intros (p0 & (p1 & E1 & E0) & H). exists (after_run p1 (zlen a)). split; [by exists p1|]. apply Hb; [done|]. by exists p0.
  - intros (p2 & (p1 & E1 & ->) & H). apply Hb in H as (p0 & E0 & H); [|done]. exists p0. split; [by exists p1|done].
Qed.

(** Outside the data, and while bytes are held back, a round looks at one byte
    only. *)
Lemma round_one_byte p v a b :
  (mp_state p = CHTTP_WEB_MP_BODY -> mp_pending p <> []) ->
  feed_round cb p v (a ++ b) =
  match feed_round cb p v a with inl (p1, s1) => inl (p1, s1 ++ b) | inr e => inr e end.
Proof.
  intros H. unfold feed_round. destruct (mp_state p).
  - split_if; [done|]. cbv zeta. by split_if.
  - by destruct (count_byte _) as [? [?|]].
  - rewrite (proj2 (Z.eqb_neq _ _)) by (intros E; apply zlen_0_inv in E; by apply H).
    split_if; [cbv zeta; by split_if|]. by destruct (chttp_web_multipart_emit _ _ _) as [? [?|]].
  - by destruct (count_byte _) as [? [?|]].
  - done.
  - done.
Qed.

Lemma room_app p a b : room p (a ++ b) -> room p a.
Proof.
  intros (? & ? & Ht). rewrite zlen_app in Ht. pose proof (zlen_nonneg b). by split_and!; [..|lia].
Qed.

Lemma feeds_app a b p' : forall p, room p (a ++ b) ->
  feeds p (a ++ b) p' <-> exists p1, feeds p a p1 /\ feeds p1 b p'.
Proof.
  intros p. remember (2 * length a + waiting p)%nat as n eqn:Hn. revert a p Hn.
  induction n as [n IH] using lt_wf_ind. intros a p -> Hr. pose proof (room_app p a b Hr) as Hra.
  destruct (decide (mp_state p = CHTTP_WEB_MP_BODY /\ mp_pending p = [])) as [[Hs Hq]|Hno].
  - destruct (decide ((span not_cr a).2 = [])) as [Ha|Ha]; [by apply feeds_run|].
    rewrite (feeds_body p (a ++ b)) by done. setoid_rewrite (feeds_body p a) at 1; [|done..].
    rewrite span_cut by done. pose proof (span_app not_cr a) as Espl.
    destruct (span not_cr a) as [run [|c r]]; [done|]. cbn [fst snd] in *. cbn [app].
    assert (forall p0, chttp_web_multipart_emit cb p run = (p0, None) ->
      feeds (hold_cr (after_run p0 (zlen run))) (r ++ b) p' <->
      exists p1, feeds (hold_cr (after_run p0 (zlen run))) r p1 /\ feeds p1 b p') as Hb.
    { intros p0 E0. apply (IH (2 * length r + 1)%nat).
      - rewrite <- Espl, length_app. cbn. lia.
      - done.
      - apply (cr_room _ c), (run_room p p0 run); [|done]. by rewrite app_comm_cons, app_assoc, Espl. }
    split.
    + intros (p0 & E0 & H). apply Hb in H as (p1 & H1 & H2); [|done]. exists p1. split; [by exists p0|done].
    + intros (p1 & (p0 & E0 & H1) & H2). exists p0. split; [done|]. apply Hb; [done|]. by exists p1.
  - destruct a as [|v a]; [setoid_rewrite feeds_nil; cbn; split; [by exists p|by intros (? & -> & ?)]|].
    cbn [app]. rewrite feeds_cons by done. setoid_rewrite (feeds_cons p v a) at 1; [|done].
    rewrite round_one_byte by (intros Hs Hq; by apply Hno).
    destruct (feed_round cb p v a) as [[q s1]|e] eqn:E; cycle 1.
    { split; [by intros (? & ? & ? & _)|by intros (? & (? & ? & ? & _) & _)]. }
    destruct (room_round p v a q s1 Hra E) as ((Hwq & Hfq & _) & (_ & Hlq & _) & Hm & Htq).
    assert (room q (s1 ++ b)) as Hrq.
    { split; [done|]. split; [done|]. destruct Hr as (_ & _ & Ht). rewrite Hlq, zlen_app.
      rewrite zlen_app in Ht. lia. }
    pose proof (IH _ Hm s1 q eq_refl Hrq) as Hb. split.
    + intros (q' & s' & [= <- <-] & H). apply Hb in H as (p1 & H1 & H2). exists p1. split; [by exists q, s1|done].
    + intros (p1 & (q' & s' & [= <- <-] & H1) & H2). exists q, (s1 ++ b). split; [done|]. apply Hb. by exists p1.
Qed.

(** ** The calls *)

(** A call of [feed] that succeeds. *)
Definition feed_ok p (data : list Z) p' : Prop :=
  exists e, chttp_web_multipart_feed cb p data = Some (p', e) /\ we_status e = CHTTP_WEB_OK.

Lemma feed_ok_iff p data p' : mp_wf p -> mp_active p = true -> mp_failed p = false ->
  feed_ok p data p' <-> room p data /\ feeds p data p'.
Proof.
  intros Hp Ha Hf. unfold feed_ok. rewrite feed_call by done. pose proof (waiting_le p).
  split_if; [split; [by intros (? & [= <- <-] & ?)|intros [(_ & _ & ?) _]; lia]|].
  destruct (feed_loop_ok (feed_fuel data) p data Hp Hf) as (q & e & E & _ & _ & He); [done|unfold feed_fuel; lia|].
  rewrite E. split.
  - intros (? & [= -> <-] & Hs). split; [done|]. exists (feed_fuel data). rewrite E.
    destruct (mp_failed p'); [done|]. by destruct He as [-> _].
  - intros [_ [fuel E']]. exists e.
    assert (Some (q, e) = Some (p', chttp_web_multipart_error CHTTP_WEB_OK SALTS_OK (mp_total_bytes p') "")) as [= -> ->]; [|done].
    apply (feed_loop_more _ (fuel + feed_fuel data)) in E, E'; [|lia..]. congruence.
Qed.

Lemma feeds_keeps p data p' : room p data -> feeds p data p' ->
  same_config p p' /\ mp_wf p' /\ mp_failed p' = false /\ mp_total_bytes p' = mp_total_bytes p + zlen data.
Proof.
  intros (Hp & Hf & Ht) [fuel E].
  destruct (feed_loop_ok (fuel + feed_fuel data) p data Hp Hf) as (q & e & E' & Hc & Hw & He);
    [done|unfold feed_fuel; pose proof (waiting_le p); lia|].
  apply (feed_loop_more _ (fuel + feed_fuel data)) in E; [|lia]. rewrite E in E'. injection E' as <- <-.
  destruct (mp_failed p') eqn:Ef; [done|]. by destruct He as [_ He].
Qed.

(** The calls of [feed] on the pieces, as long as they succeed. *)
Fixpoint feed_pieces p (pieces : list (list Z)) : option parser :=
  match pieces with
  | [] => Some p
  | data :: pieces =>
    match chttp_web_multipart_feed cb p data with
    | Some (p, e) => if decide (we_status e = CHTTP_WEB_OK) then feed_pieces p pieces else None
    | None => None
    end
  end.

Lemma feed_pieces_cons p data pieces p' :
  feed_pieces p (data :: pieces) = Some p' <-> exists p1, feed_ok p data p1 /\ feed_pieces p1 pieces = Some p'.
Proof.
  cbn. unfold feed_ok. split.
  - destruct (chttp_web_multipart_feed cb p data) as [[p1 e]|] eqn:E; [|done]. case_decide; [|done].
    intros H1. exists p1. split; [by exists e|done].
  - intros (p1 & (e & -> & He) & H1). by rewrite decide_True.
Qed.

Lemma feed_pieces_concat p pieces p' :
  mp_wf p -> mp_active p = true -> mp_failed p = false ->
  feed_pieces p pieces = Some p' <-> feed_pieces p [concat pieces] = Some p'.
Proof.
  revert p. induction pieces as [|a pieces IH]; intros p Hp Ha Hf; rewrite !feed_pieces_cons.
  - cbn [concat feed_pieces]. setoid_rewrite feed_ok_iff; [|done..]. setoid_rewrite feeds_nil. split.
    + intros [= <-]. exists p. split; [|done]. split; [|done]. pose proof (wf_total p Hp).
      split; [done|]. split; [done|]. rewrite zlen_nil. lia.
    + by intros (? & (_ & ->) & ?).
  - cbn [concat feed_pieces]. setoid_rewrite feed_ok_iff; [|done..]. split.
    + intros (p1 & [Hr1 Hp1] & Hrest). destruct (feeds_keeps p a p1 Hr1 Hp1) as ((_ & Hl & _ & Ha1) & Hw1 & Hf1 & Ht1).
      apply IH in Hrest; [|done|congruence|done]. apply feed_pieces_cons in Hrest as (p2 & H2 & [= ->]).
      apply feed_ok_iff in H2 as [(_ & _ & Ht2) H2]; [|done|congruence|done]. exists p'. split; [|done].
      assert (room p (a ++ concat pieces)) as Hr.
      { split; [done|]. split; [done|]. rewrite zlen_app. rewrite Hl in Ht2. lia. }
      split; [done|]. apply feeds_app; [done|]. by exists p1.
    + intros (p2 & [Hr H2] & [= ->]). apply feeds_app in H2 as (p1 & H1 & H2); [|done].
      pose proof (room_app _ _ _ Hr) as Hra.
      destruct (feeds_keeps p a p1 Hra H1) as ((_ & Hl & _ & Ha1) & Hw1 & Hf1 & Ht1).
      exists p1. split; [done|]. apply IH; [done|congruence|done|]. apply feed_pieces_cons. exists p'. split; [|done].
      apply feed_ok_iff; [done|congruence|done|]. split; [|done]. split; [done|]. split; [done|].
      destruct Hr as (_ & _ & Ht). rewrite zlen_app in Ht. rewrite Hl. lia.
Qed.

(** Feeding a body in any pieces succeeds exactly when feeding it at once does,
    and leaves the parser and the application in the same state, for an
    application that does not see how the data of a part is cut. *)
Theorem multipart_fragments content_type limits user p0 e0 pieces p' :
  limits_range limits -> chttp_web_multipart_init cb content_type limits user = (Some p0, e0) ->
  feed_pieces p0 pieces = Some p' <-> feed_pieces p0 [concat pieces] = Some p'.
Proof. intros Hl E. apply init_wf in E as (Hp & Ha & Hf & _); [|done]. by apply feed_pieces_concat. Qed.

End Parser.

End MultipartTheorems.
