(* ===== verification/MultipartLanguage.v ===== *)
(** * What the multipart parser accepts

    The bodies that [chttp_web_multipart_feed] and [chttp_web_multipart_finish]
    accept are exactly these: parts between delimiters, each a header block that
    the parser of header blocks accepts and data in which no delimiter occurs;
    and the application is told exactly these parts, with their data. *)

From S2P Require Import Prelude H2Frame Http1Parser Web Multipart MultipartTheorems.

Module MultipartLanguage.
Import H2Frame Http1Parser Web Multipart MultipartTheorems.

(** ** Where a delimiter occurs *)

(** The data holds no delimiter. *)
Definition marker_free (b data : list Z) : Prop := ~ exists x y, data = x ++ marker b ++ y.

Lemma boundary_no_cr b : forallb chttp_web_multipart_boundary_char b = true -> CR ∉ LF :: DASH :: DASH :: b.
Proof.
  intros H. rewrite !not_elem_of_cons. split_and!; try done. intros Hin.
  assert (chttp_web_multipart_boundary_char CR = true) as Hc; [|done].
  eapply forallb_forall in H; [exact H|]. by apply list_elem_of_In.
Qed.

Section Marker.
Context (b : list Z) (Hb : CR ∉ LF :: DASH :: DASH :: b).

Lemma marker_head : marker b = CR :: LF :: DASH :: DASH :: b.
Proof. done. Qed.

(** The delimiter starts with its only carriage return, so it cannot overlap
    itself. *)
Lemma marker_no_overlap d x rest rest' : marker b = (x :: d) ++ rest -> rest <> CR :: rest'.
Proof.
  rewrite marker_head. intros [= <- E] ->. apply Hb. rewrite E. apply elem_of_app. right. by left.
Qed.

Lemma marker_at_end d s : marker_free b d -> marker b ++ s = d ++ marker b -> d = [] /\ s = [].
Proof.
  intros Hd E. destruct d as [|x d].
  { split; [done|]. apply (f_equal length) in E. rewrite !length_app in E. cbn in E. destruct s; [done|cbn in E; lia]. }
  exfalso. apply app_eq_inv in E as [(k & Em & Es)|(k & Em & Es)].
  - destruct k as [|c k].
    + apply Hd. exists [], []. by rewrite app_nil_r, Em, app_nil_r.
    + rewrite marker_head in Es. cbn in Es. injection Es as <- Es. by eapply marker_no_overlap.
  - apply Hd. by exists [], k.
Qed.

Lemma marker_mismatch q c r v s d :
  marker b = q ++ c :: r -> q <> [] -> v <> c -> q ++ v :: s = d ++ marker b -> exists d', d = q ++ d'.
Proof.
  intros Eq Hq Hv E. apply app_eq_inv in E as [(k & Ek & Es)|(k & Ek & Es)]; [|by exists k].
  destruct k as [|x k]; [exists []; by rewrite app_nil_r in *|]. exfalso. destruct d as [|y d].
  - cbn in Ek. subst q. rewrite Eq in Es. apply (app_inv_head (x :: k)) in Es. congruence.
  - rewrite marker_head in Es. cbn in Es. injection Es as <- Es. subst q. rewrite <- app_assoc in Eq.
    by eapply marker_no_overlap.
Qed.

Lemma marker_free_tail a d : marker_free b (a ++ d) -> marker_free b d.
Proof. intros H (x & y & ->). apply H. exists (a ++ x), y. by rewrite app_assoc. Qed.

Lemma first_marker s : marker_free b s \/ exists d s2, s = d ++ marker b ++ s2 /\ marker_free b d.
Proof.
  induction s as [|x s IH].
  { left. intros (u & y & E). by destruct u. }
  destruct (decide (marker b `prefix_of` x :: s)) as [[k Ek]|Hn].
  { right. exists [], k. split; [done|]. intros (u & y & E). by destruct u. }
  assert (forall t, x :: t `prefix_of` x :: s -> marker_free b t -> marker_free b (x :: t)) as Hcons.
  { intros t [k Ek] Ht (u & y & E). destruct u as [|x' u].
    - apply Hn. exists (y ++ k). by rewrite Ek, E, <- !app_assoc.
    - injection E as <- ->. apply Ht. by exists u, y. }
  destruct IH as [Hf|(d & s2 & -> & Hd)].
  - left. by apply Hcons; [exists []; rewrite app_nil_r|].
  - right. exists (x :: d), s2. split; [done|]. apply Hcons; [|done]. by exists (marker b ++ s2).
Qed.

End Marker.

Section Language.
Context {U : Type} (cb : chttp_web_multipart_callbacks U) {Hsink : LawfulSink cb}.
#[local] Abbreviation parser := (chttp_web_multipart_parser U).
Implicit Types p : parser.
#[local] Abbreviation feeds := (feeds cb).
#[local] Abbreviation room := (room cb).
#[local] Abbreviation emits := (chttp_web_multipart_emit cb).

Lemma feeds_step p v s p' :
  room p (v :: s) -> feeds p (v :: s) p' <-> exists p1, feeds p [v] p1 /\ feeds p1 s p'.
Proof. intros H. exact (feeds_app cb [v] s p' p H). Qed.

Lemma feeds_one p v p1 : room p [v] ->
  feeds p [v] p1 <-> match feed_round cb p v [] with inl (q, s) => feeds q s p1 | inr _ => False end.
Proof.
  intros H. rewrite feeds_cons by done. destruct (feed_round cb p v []) as [[q s]|e].
  - split; [by intros (? & ? & [= <- <-] & ?)|by exists q, s].
  - split; [by intros (? & ? & ? & _)|done].
Qed.

Lemma room_step p v s p1 : room p (v :: s) -> feeds p [v] p1 -> room p1 s.
Proof.
  intros Hr H. pose proof (room_app cb p [v] s Hr) as Hv. destruct (feeds_keeps cb p [v] p1 Hv H) as ((_ & Hl & _) & Hw & Hf & Ht).
  split; [done|]. split; [done|]. destruct Hr as (_ & _ & Hr). rewrite zlen_cons in Hr. rewrite Hl, Ht.
  change (zlen [v]) with 1. lia.
Qed.

(** ** The data of a part *)

Definition no_pending p : parser := p <| mp_pending := [] |>.

Definition at_suffix p (total : Z) : parser :=
  p <| mp_pending := [] |> <| mp_total_bytes := total |> <| mp_suffix_state := 0 |>
    <| mp_state := CHTTP_WEB_MP_SUFFIX |>.

Lemma no_pending_wf p : mp_wf cb p -> mp_wf cb (no_pending p).
Proof.
  intros []. split; cbn; try done. apply marker_starts.
Qed.

(** Handing over data does not look at the bytes held back. *)
Lemma emit_no_pending p data q :
  mp_wf cb p ->
  emits (no_pending p) data = (q, None) <-> exists p0, emits p data = (p0, None) /\ q = no_pending p0.
Proof.
  intros Hp. pose proof (no_pending_wf p Hp) as Hn. setoid_rewrite emit_ok_iff; [|done..].
  assert (forall u m, emitted (no_pending p) u m = no_pending (emitted p u m)) as E.
  { intros. unfold emitted. by destruct p as [? ? ? ? ? ? ? ? ? ? ? ? ? ? ? ? file ? ? ?], file. }
  split.
  - intros (u & Hu & Hl & ->). rewrite E. eexists. split; [by exists u|done].
  - intros (p0 & (u & Hu & Hl & ->) & ->). exists u. by rewrite E.
Qed.

(** The rest [s] of the data and the delimiter are read: [data], with what is
    held back, goes to the application. *)
Definition reads p (s data : list Z) p' : Prop :=
  exists p1, emits (no_pending p) data = (p1, None) /\ p' = at_suffix p1 (mp_total_bytes p + zlen s).

(** A byte was counted and held back. *)
Lemma reads_counted p p1 v s data p' :
  mp_wf cb p -> mp_wf cb p1 -> no_pending p1 = after_run (no_pending p) 1 ->
  reads p1 s data p' <-> reads p (v :: s) data p'.
Proof.
  intros Hp Hp1 En. unfold reads.
  assert (mp_total_bytes p1 = mp_total_bytes p + 1) as -> by (by apply (f_equal mp_total_bytes) in En).
  pose proof (no_pending_wf p1 Hp1) as Hn. rewrite En in *. rewrite zlen_cons, <- Z.add_assoc.
  setoid_rewrite emit_after_run; [|by apply no_pending_wf|done]. split.
  - intros (q & (p0 & E & ->) & ->). by exists p0.
  - intros (p0 & E & ->). exists (after_run p0 1). split; [by exists p0|done].
Qed.

(** A byte of the data was handed over. *)
Lemma reads_byte p v s d p' : mp_wf cb p ->
  (forall p0, emits p [v] = (p0, None) -> mp_wf cb (after_run p0 1)) ->
  (exists p0, emits p [v] = (p0, None) /\ reads (after_run p0 1) s d p') <-> reads p (v :: s) ([v] ++ d) p'.
Proof.
  intros Hp Hrun. unfold reads at 2. pose proof (no_pending_wf p Hp) as Hnp.
  setoid_rewrite (emit_split cb (no_pending p)); [|done]. setoid_rewrite (emit_no_pending p [v]); [|done].
  assert (forall p0, emits p [v] = (p0, None) -> reads (after_run p0 1) s d p' <->
    exists q, emits (no_pending p0) d = (q, None) /\ p' = at_suffix q (mp_total_bytes p + zlen (v :: s))) as Hr.
  { intros p0 E0. destruct (emit_keeps cb p [v] p0 Hp E0) as (_ & _ & Et & Hw0).
    rewrite (reads_counted p0 (after_run p0 1) v s d p' Hw0 (Hrun p0 E0) eq_refl). unfold reads. by rewrite Et. }
  split.
  - intros (p0 & E0 & H). apply Hr in H as (q & Eq & ->); [|done]. exists q. split; [|done].
    exists (no_pending p0). split; [by exists p0|done].
  - intros (q & (p1 & (p0 & E0 & ->) & Eq) & ->). exists p0. split; [done|]. apply Hr; [done|]. by exists q.
Qed.

(** What was held back turned out to be data. *)
Lemma reads_held p s d p' : mp_wf cb p ->
  (exists p0, emits p (mp_pending p) = (p0, None) /\ reads (no_pending p0) s d p') <->
  reads p s (mp_pending p ++ d) p'.
Proof.
  intros Hp. unfold reads at 2. pose proof (no_pending_wf p Hp) as Hnp.
  setoid_rewrite (emit_split cb (no_pending p)); [|done]. setoid_rewrite (emit_no_pending p (mp_pending p)); [|done]. split.
  - intros (p0 & E0 & q & Eq & ->). destruct (emit_keeps cb p _ p0 Hp E0) as (_ & _ & Et & _). exists q.
    split; [|by cbn; rewrite Et]. exists (no_pending p0). split; [by exists p0|done].
  - intros (q & (p1 & (p0 & E0 & ->) & Eq) & ->). exists p0. split; [done|]. exists q.
    destruct (emit_keeps cb p _ p0 Hp E0) as (_ & _ & Et & _). split; [done|]. cbn. by rewrite Et.
Qed.

Lemma body_byte_run p v p1 :
  room p [v] -> mp_state p = CHTTP_WEB_MP_BODY -> mp_pending p = [] ->
  feeds p [v] p1 <->
  if v =? CR then p1 = hold_cr p else exists p0, emits p [v] = (p0, None) /\ p1 = after_run p0 1.
Proof.
  intros Hr Hs Hq. rewrite feeds_body by done. cbn [span]. unfold not_cr. destruct (v =? CR); cbn [negb].
  - cbn [fst snd]. rewrite zlen_nil. setoid_rewrite feeds_nil. split.
    + intros (p0 & [= <-] & ->). by rewrite after_run_0.
    + intros ->. exists p. by rewrite after_run_0.
  - done.
Qed.

Definition push p (v : Z) : parser :=
  p <| mp_pending := mp_pending p ++ [v] |> <| mp_total_bytes := mp_total_bytes p + 1 |>.

Lemma body_byte_pending p v p1 c r :
  room p [v] -> mp_state p = CHTTP_WEB_MP_BODY -> mp_pending p <> [] ->
  marker (mp_boundary p) = mp_pending p ++ c :: r ->
  feeds p [v] p1 <->
  if v =? c then p1 = match r with [] => at_suffix p (mp_total_bytes p + 1) | _ => push p v end
  else exists p0, emits p (mp_pending p) = (p0, None) /\ feeds (no_pending p0) [v] p1.
Proof.
  intros Hr Hs Hq Em. rewrite feeds_cons by done. unfold feed_round. rewrite Hs.
  rewrite (proj2 (Z.eqb_neq _ _)) by (intros E; by apply zlen_0_inv in E).
  rewrite (marker_next p c r Em). destruct (Z.eqb_spec v c) as [->|Hv].
  - cbv zeta.
    change (p <| mp_pending := mp_pending p ++ [c] |> <| mp_total_bytes := mp_total_bytes p + 1 |>) with (push p c).
    assert ((zlen (mp_pending (push p c)) =? zlen (mp_boundary (push p c)) + 4) =
      match r with [] => true | _ => false end) as ->.
    { change (mp_pending (push p c)) with (mp_pending p ++ [c]). change (mp_boundary (push p c)) with (mp_boundary p).
      rewrite <- zlen_marker, Em, !zlen_app. destruct r as [|x r]; [by apply Z.eqb_eq|].
      apply Z.eqb_neq. rewrite !zlen_cons, zlen_nil. pose proof (zlen_nonneg r). lia. }
    destruct r.
    + split; [intros (? & ? & [= <- <-] & H); by apply feeds_nil in H|]. intros ->. eexists _, []. split; [done|by apply feeds_nil].
    + split; [intros (? & ? & [= <- <-] & H); by apply feeds_nil in H|]. intros ->. eexists _, []. split; [done|by apply feeds_nil].
  - destruct (emits p (mp_pending p)) as [p0 [e|]].
    + split; [by intros (? & ? & ? & _)|by intros (? & ? & _)].
    + split; [intros (? & ? & [= <- <-] & H); by exists p0|]. intros (? & [= <-] & H). by eexists _, [v].
Qed.

Lemma emit_boundary p data p0 : mp_wf cb p -> emits p data = (p0, None) -> mp_boundary p0 = mp_boundary p.
Proof.
  intros Hp E0. apply emit_ok_iff in E0 as (u & _ & _ & ->); [|done]. unfold emitted. by destruct (mp_current_file p).
Qed.

Lemma push_room p v s c x r :
  room p (v :: s) -> marker (mp_boundary p) = mp_pending p ++ c :: x :: r -> v = c -> room (push p v) s.
Proof.
  intros (Hp & Hf & Ht) Em ->. rewrite zlen_cons in Ht. pose proof (zlen_nonneg s). pose proof (wf_total cb p Hp).
  split; [|split; [done|cbn; lia]]. destruct Hp. split; try done; cbn; try lia.
  exists x, r. by rewrite <- app_assoc.
Qed.

Lemma held_room p p0 s : room p s -> emits p (mp_pending p) = (p0, None) -> room (no_pending p0) s.
Proof.
  intros (Hp & Hnf & Ht) E0. pose proof (emit_op cb p (mp_pending p) Hp Hnf) as Hop. rewrite E0 in Hop.
  destruct Hop as ((_ & Hl & _) & Ht0 & Hw & Hf). cbn in Hl, Ht0, Hw, Hf.
  split; [by apply no_pending_wf|]. split; [done|]. cbn -[zlen]. congruence.
Qed.

Lemma feeds_data data : forall s p p',
  room p s -> mp_state p = CHTTP_WEB_MP_BODY -> marker_free (mp_boundary p) data ->
  mp_pending p ++ s = data ++ marker (mp_boundary p) ->
  feeds p s p' <-> reads p s data p'.
Proof.
  intros s p. remember (2 * length s + waiting p)%nat as n eqn:Hn. revert data s p Hn.
  induction n as [n IH] using lt_wf_ind. intros data s p -> p' Hr Hs Hd E.
  pose proof Hr as (Hp & Hnf & Ht). pose proof (boundary_no_cr _ (wf_boundary cb p Hp)) as Hb.
  destruct (wf_pending cb p Hp) as (c & r & Em). destruct s as [|v s].
  { exfalso. rewrite app_nil_r in E. rewrite E, <- app_assoc in Em. apply (f_equal length) in Em.
    rewrite !length_app in Em. cbn in Em. lia. }
  rewrite feeds_step by done. pose proof (room_app cb p [v] s Hr) as Hv.
  destruct (decide (mp_pending p = [])) as [Hq|Hq].
  - setoid_rewrite body_byte_run; [|done..]. rewrite Hq in E. cbn [app] in E. destruct (Z.eqb_spec v CR) as [->|Hcr].
    + pose proof (cr_room cb p CR s Hr) as Hr1. rewrite <- (reads_counted p (hold_cr p)); [|done|by destruct Hr1|done].
      rewrite <- (IH (2 * length s + 1)%nat) by (done || cbn; lia). split; [by intros (? & -> & ?)|by exists (hold_cr p)].
    + destruct data as [|v' d]; [by injection E as -> _|]. injection E as <- Es.
      change (v :: d) with ([v] ++ d) in *. apply marker_free_tail in Hd.
      assert (forall p0, emits p [v] = (p0, None) -> room (after_run p0 1) s) as Hrun
        by (intros p0 E0; exact (run_room cb p p0 [v] s Hr E0)).
      rewrite <- reads_byte; [|done|intros p0 E0; by destruct (Hrun p0 E0)].
      assert (forall p0, emits p [v] = (p0, None) -> feeds (after_run p0 1) s p' <-> reads (after_run p0 1) s d p') as Hi.
      { intros p0 E0. destruct (emit_keeps cb p [v] p0 Hp E0) as (Es0 & Eq & _ & _).
        pose proof (emit_boundary p [v] p0 Hp E0) as Eb.
        apply (IH (2 * length s + 0)%nat); [cbn; lia| |by apply Hrun|cbn; congruence|by cbn; rewrite Eb|cbn; by rewrite Eq, Hq, Eb].
        unfold waiting; cbn. by rewrite Eq, Hq. }
      split; [intros (? & (p0 & E0 & ->) & H)|intros (p0 & E0 & H)]; apply Hi in H; eauto.
  - setoid_rewrite body_byte_pending; [|done..]. destruct (Z.eqb_spec v c) as [->|Hvc].
    + destruct r as [|x r].
      * assert (mp_pending p ++ [c] = marker (mp_boundary p)) as Em' by (by rewrite Em).
        assert (data = [] /\ s = []) as [-> ->].
        { apply (marker_at_end _ Hb); [done|]. by rewrite <- E, <- Em', <- app_assoc. }
        setoid_rewrite feeds_nil. unfold reads. change (zlen [c]) with 1.
        split; [intros (? & -> & ->); by exists (no_pending p)|intros (? & [= <-] & ->); by eexists].
      * pose proof (push_room p c s c x r Hr Em eq_refl) as Hr1.
        rewrite <- (reads_counted p (push p c)); [|done|by destruct Hr1|done].
        rewrite <- (IH (2 * length s + waiting (push p c))%nat);
          [|cbn; pose proof (waiting_le (push p c)); lia|done|done|done|done|cbn; by rewrite <- app_assoc].
        split; [by intros (? & -> & ?)|by exists (push p c)].
    + destruct (marker_mismatch (mp_boundary p) Hb _ c r v s data Em Hq Hvc E) as [d ->].
      rewrite <- app_assoc in E. apply app_inv_head in E. apply marker_free_tail in Hd. rewrite <- reads_held by done.
      pose proof (fun p0 => held_room p p0 (v :: s) Hr) as Hheld.
      assert (forall p0, emits p (mp_pending p) = (p0, None) ->
        feeds (no_pending p0) (v :: s) p' <-> reads (no_pending p0) (v :: s) d p') as Hi.
      { intros p0 E0. destruct (emit_keeps cb p _ p0 Hp E0) as (Es0 & _ & _ & _). pose proof (emit_boundary p _ p0 Hp E0) as Eb.
        apply (IH (2 * length (v :: s) + 0)%nat); [|done|by apply Hheld|cbn; congruence|by cbn; rewrite Eb|by cbn -[marker]; rewrite Eb].
        unfold waiting. destruct (mp_pending p); [done|lia]. }
      split.
      * intros (p1 & (p0 & E0 & H1) & H). exists p0. split; [done|]. apply Hi; [done|]. apply feeds_step; [by apply Hheld|]. by exists p1.
      * intros (p0 & E0 & H). apply Hi in H; [|done]. apply feeds_step in H as (p1 & H1 & H); [|by apply Hheld]. exists p1. split; [by exists p0|done].
Qed.

(** Without a delimiter the parser stays in the data. *)
Lemma feeds_no_marker : forall s p p',
  room p s -> mp_state p = CHTTP_WEB_MP_BODY -> marker_free (mp_boundary p) (mp_pending p ++ s) ->
  feeds p s p' -> mp_state p' = CHTTP_WEB_MP_BODY.
Proof.
  intros s p. remember (2 * length s + waiting p)%nat as n eqn:Hn. revert s p Hn.
  induction n as [n IH] using lt_wf_ind. intros s p -> p' Hr Hs Hd H.
  pose proof Hr as (Hp & Hnf & Ht). destruct (wf_pending cb p Hp) as (c & r & Em).
  destruct s as [|v s]; [apply feeds_nil in H; congruence|].
  apply feeds_step in H as (p1 & H1 & H); [|done]. pose proof (room_app cb p [v] s Hr) as Hv.
  pose proof (room_step p v s p1 Hr H1) as Hr1.
  destruct (decide (mp_pending p = [])) as [Hq|Hq].
  - apply body_byte_run in H1; [|done..]. rewrite Hq in Hd. destruct (Z.eqb_spec v CR) as [->|Hcr].
    + subst p1. apply (IH (2 * length s + 1)%nat) in H; done || cbn; lia.
    + destruct H1 as (p0 & E0 & ->). destruct (emit_keeps cb p [v] p0 Hp E0) as (Es0 & Eq & _ & _).
      pose proof (emit_boundary p [v] p0 Hp E0) as Eb.
      apply (IH (2 * length s + 0)%nat) in H; [done|cbn; lia| |done|cbn; congruence|].
      * unfold waiting; cbn. by rewrite Eq, Hq.
      * cbn. rewrite Eb, Eq, Hq. by apply (marker_free_tail _ [v]).
  - pose proof H1 as H1'. apply (body_byte_pending p v p1 c r) in H1; [|done..]. destruct (Z.eqb_spec v c) as [->|Hvc].
    + destruct r as [|x r]; [exfalso; apply Hd; exists [], s; cbn [app]; by rewrite Em, <- app_assoc|]. subst p1.
      apply (IH (2 * length s + waiting (push p c))%nat) in H; [done|cbn; pose proof (waiting_le (push p c)); lia|done|done|done|].
      cbn. by rewrite <- app_assoc.
    + destruct H1 as (p0 & E0 & H1). destruct (emit_keeps cb p _ p0 Hp E0) as (Es0 & _ & _ & _).
      pose proof (emit_boundary p _ p0 Hp E0) as Eb. pose proof (held_room p p0 (v :: s) Hr E0) as Hr0.
      apply (IH (2 * length (v :: s) + 0)%nat (ltac:(unfold waiting; destruct (mp_pending p); [done|lia])) (v :: s) (no_pending p0));
        [done|done|cbn; congruence| |apply feeds_step; [done|by exists p1]].
      cbn. rewrite Eb. by apply marker_free_tail in Hd.
Qed.

(** ** The headers of a part *)

Definition at_end (header : list Z) : bool :=
  (4 <=? zlen header) && bytes_eqb (zdrop (zlen header - 4) header) header_end.

(** A byte that the header may go on with. *)
Definition header_byte (l : chttp_web_multipart_limits) (header : list Z) (v : Z) : bool :=
  negb (v =? 0) && (zlen header <? lm_max_header_bytes l) && (negb (last_is CR header) || (v =? LF)) &&
  (negb (v =? LF) || last_is CR header).

Fixpoint header_goes_on (l : chttp_web_multipart_limits) (header s : list Z) : bool :=
  match s with
  | [] => true
  | v :: s => negb (at_end header) && header_byte l header v && header_goes_on l (header ++ [v]) s
  end.

(** A header block: well framed, within the limit, and its first empty line is
    its end. *)
Definition block_ok (l : chttp_web_multipart_limits) (block : list Z) : bool :=
  header_goes_on l [] block && at_end block.

Definition with_header p (header : list Z) (n : Z) : parser :=
  p <| mp_header_bytes := header |> <| mp_total_bytes := mp_total_bytes p + n |>.

Lemma headers_byte p v p1 :
  room p [v] -> mp_state p = CHTTP_WEB_MP_HEADERS ->
  let header := mp_header_bytes p ++ [v] in
  feeds p [v] p1 <->
  header_byte (mp_limits p) (mp_header_bytes p) v = true /\
  if at_end header then
    exists m u, block_meta (mp_limits p) header = Some m /\ mp_part_count p < lm_max_parts (mp_limits p) /\
      part_begin cb (mp_user p) (meta_part m) = (u, SALTS_OK) /\ p1 = in_body (with_header p header 1) m u
  else p1 = with_header p header 1.
Proof.
  intros Hr Hs header. pose proof Hr as (Hp & _ & _). rewrite feeds_one by done. unfold feed_round. rewrite Hs.
  unfold header_byte, chttp_web_multipart_feed_header_byte. cbv zeta. fold (at_end (mp_header_bytes p ++ [v])). fold header.
  assert (forall P : Prop, False <-> false = true /\ P) as Hbad by (intros; split; [done|by intros [? _]]).
  destruct (v =? 0); [apply Hbad|]. destruct (Z.leb_spec (lm_max_header_bytes (mp_limits p)) (zlen (mp_header_bytes p))) as [Hl|Hl].
  { rewrite (proj2 (Z.ltb_ge _ _) Hl). apply Hbad. }
  rewrite (proj2 (Z.ltb_lt _ _) Hl). cbn [negb andb].
  assert (match count_byte (if at_end header then chttp_web_multipart_begin_part cb (p <| mp_header_bytes := header |>)
                            else (p <| mp_header_bytes := header |>, None)) with
    | (q, None) => p1 = q | (_, Some _) => False end <->
    if at_end header then
      exists m u, block_meta (mp_limits p) header = Some m /\ mp_part_count p < lm_max_parts (mp_limits p) /\
        part_begin cb (mp_user p) (meta_part m) = (u, SALTS_OK) /\ p1 = in_body (with_header p header 1) m u
    else p1 = with_header p header 1) as Hgo.
  { destruct (at_end header); [|done]. set (p0 := p <| mp_header_bytes := header |>).
    pose proof (begin_part_cases cb p0 (wf_limits cb p Hp)) as H.
    destruct (chttp_web_multipart_begin_part cb p0) as [q [e|]]; cbn [count_byte fst snd].
    - destruct H as (_ & _ & H). split; [done|]. intros (m & u & Hm & Hc & Hu & _). by apply (H m u Hm Hc).
    - destruct H as (m & u & _ & Hm & Hc & Hu & ->). split.
      + intros ->. exists m, u. split_and!; [exact Hm|exact Hc|exact Hu|reflexivity].
      + intros (m' & u' & Hm' & _ & Hu' & ->). cbn in Hm, Hu. rewrite Hm in Hm'. injection Hm' as <-. rewrite Hu in Hu'. by injection Hu' as <-. }
  destruct (last_is CR (mp_header_bytes p)), (v =? LF); cbn [negb andb orb]; try apply Hbad;
    destruct (count_byte _) as [q [e|]]; cbn in Hgo |- *; rewrite ?feeds_nil, <- Hgo; tauto.
Qed.

(** The application takes the part that a header block describes. *)
Definition begins p (block : list Z) (n : Z) p' : Prop :=
  exists m u, block_meta (mp_limits p) block = Some m /\ mp_part_count p < lm_max_parts (mp_limits p) /\
    part_begin cb (mp_user p) (meta_part m) = (u, SALTS_OK) /\ p' = in_body (with_header p block n) m u.

Lemma with_header_more p h n h' m : with_header (with_header p h n) h' m = with_header p h' (n + m).
Proof. unfold with_header. cbn. by rewrite Z.add_assoc. Qed.

Lemma feeds_block s : forall p p',
  room p s -> mp_state p = CHTTP_WEB_MP_HEADERS -> s <> [] ->
  header_goes_on (mp_limits p) (mp_header_bytes p) s = true -> at_end (mp_header_bytes p ++ s) = true ->
  feeds p s p' <-> begins p (mp_header_bytes p ++ s) (zlen s) p'.
Proof.
  induction s as [|v s IH]; intros p p' Hr Hs Hne Hg He; [done|]. cbn [header_goes_on] in Hg. bool_prop.
  rewrite feeds_step by done. pose proof (room_app cb p [v] s Hr) as Hv.
  assert (forall p1, feeds p [v] p1 -> room p1 s) as Hr1 by (intros p1; by apply room_step).
  setoid_rewrite headers_byte; [|done..].
  destruct s as [|w s].
  - rewrite He. setoid_rewrite feeds_nil. unfold begins. change (zlen [v]) with 1. split.
    + by intros (p1 & [_ H'] & ->).
    + intros H'. exists p'. done.
  - destruct (at_end (mp_header_bytes p ++ [v])) eqn:Ev; [cbn in *; by rewrite Ev in *|].
    assert (room (with_header p (mp_header_bytes p ++ [v]) 1) (w :: s)) as Hr2.
    { apply Hr1, headers_byte; [done..|]. by rewrite Ev. }
    replace (mp_header_bytes p ++ v :: w :: s) with ((mp_header_bytes p ++ [v]) ++ w :: s) in *
      by (by rewrite <- app_assoc).
    assert (feeds (with_header p (mp_header_bytes p ++ [v]) 1) (w :: s) p' <->
      begins p ((mp_header_bytes p ++ [v]) ++ w :: s) (zlen (v :: w :: s)) p') as <-.
    { rewrite IH by done. rewrite (zlen_cons v). split; intros (m & u & Hm & Hc & Hu & ->); exists m, u.
      - rewrite with_header_more. by split_and!.
      - rewrite <- with_header_more with (h := mp_header_bytes p ++ [v]). by split_and!. }
    split; [by intros (p1 & [_ ->] & ?)|]. by eexists.
Qed.

Lemma header_byte_not_end p v s p1 :
  room p (v :: s) -> mp_state p = CHTTP_WEB_MP_HEADERS -> feeds p [v] p1 ->
  header_byte (mp_limits p) (mp_header_bytes p) v = true /\
  (at_end (mp_header_bytes p ++ [v]) = false -> p1 = with_header p (mp_header_bytes p ++ [v]) 1).
Proof.
  intros Hr Hs H. apply headers_byte in H as [Hb H]; [|by apply (room_app cb p [v] s)|done]. split; [done|].
  intros E. by rewrite E in H.
Qed.

Lemma feeds_leaves_headers s : forall p p',
  room p s -> mp_state p = CHTTP_WEB_MP_HEADERS -> at_end (mp_header_bytes p) = false ->
  feeds p s p' -> mp_state p' <> CHTTP_WEB_MP_HEADERS ->
  exists s1 s2, s = s1 ++ s2 /\ s1 <> [] /\ header_goes_on (mp_limits p) (mp_header_bytes p) s1 = true /\
    at_end (mp_header_bytes p ++ s1) = true.
Proof.
  induction s as [|v s IH]; intros p p' Hr Hs Hne H Hd; [apply feeds_nil in H; congruence|].
  apply feeds_step in H as (p1 & H1 & H); [|done].
  destruct (header_byte_not_end p v s p1 Hr Hs H1) as [Hb Hno]. destruct (at_end (mp_header_bytes p ++ [v])) eqn:Ev.
  - exists [v], s. split_and!; [done..| |done]. cbn. by rewrite Hne, Hb.
  - specialize (Hno eq_refl). pose proof (room_step p v s p1 Hr H1) as Hr1. subst p1.
    destruct (IH _ p' Hr1 Hs Ev H Hd) as (s1 & s2 & -> & Hn & Hg & He). exists (v :: s1), s2.
    cbn in Hg, He. rewrite <- app_assoc in He. split_and!; [done..| |done]. cbn. by rewrite Hne, Hb.
Qed.

(** ** After the delimiter *)

Definition closes p (final : bool) p' : Prop :=
  exists u, part_end cb (mp_user p) = (u, SALTS_OK) /\
    p' = if final then after_run (p <| mp_suffix_state := 0 |> <| mp_user := u |> <| mp_state := CHTTP_WEB_MP_DONE |>) 4
         else after_run (next_part (p <| mp_suffix_state := 0 |>) u) 2.

Definition SUFFIX_NEXT : list Z := [CR; LF].
Definition SUFFIX_LAST : list Z := [DASH; DASH; CR; LF].

Lemma suffix_byte p v p1 : room p [v] -> mp_state p = CHTTP_WEB_MP_SUFFIX ->
  feeds p [v] p1 <->
  match count_byte (chttp_web_multipart_feed_suffix_byte cb p v) with (q, None) => p1 = q | (_, Some _) => False end.
Proof.
  intros Hr Hs. rewrite feeds_one by done. unfold feed_round. rewrite Hs.
  destruct (count_byte _) as [q [e|]]; [done|]. apply feeds_nil.
Qed.

Definition suffix_to p (n : Z) : parser := after_run (p <| mp_suffix_state := n |>) 1.

Lemma end_part_iff p final p1 :
  match count_byte (chttp_web_multipart_end_part cb p final) with (q, None) => p1 = q | (_, Some _) => False end <->
  exists u, part_end cb (mp_user p) = (u, SALTS_OK) /\
    p1 = after_run (if final then p <| mp_user := u |> <| mp_state := CHTTP_WEB_MP_DONE |> else next_part p u) 1.
Proof.
  unfold chttp_web_multipart_end_part. destruct (part_end cb (mp_user p)) as [u native].
  case_bool_decide as E; cbn [negb]; [subst|split; [done|by intros (? & [= _ ?] & _)]].
  destruct final; (split; [intros ->; by exists u|by intros (? & [= <-] & ->)]).
Qed.

(** One byte of the suffix: the next state, or the end of the part. *)
Lemma suffix_byte_cases p v p1 : room p [v] -> mp_state p = CHTTP_WEB_MP_SUFFIX ->
  feeds p [v] p1 <->
  match mp_suffix_state p with
  | 0 => v = CR /\ p1 = suffix_to p 1 \/ v = DASH /\ p1 = suffix_to p 2
  | 1 => v = LF /\ exists u, part_end cb (mp_user p) = (u, SALTS_OK) /\
           p1 = after_run (next_part (p <| mp_suffix_state := 0 |>) u) 1
  | 2 => v = DASH /\ p1 = suffix_to p 3
  | 3 => v = CR /\ p1 = suffix_to p 4
  | 4 => v = LF /\ exists u, part_end cb (mp_user p) = (u, SALTS_OK) /\
           p1 = after_run (p <| mp_suffix_state := 0 |> <| mp_user := u |> <| mp_state := CHTTP_WEB_MP_DONE |>) 1
  | _ => False
  end.
Proof.
  intros Hr Hs. rewrite suffix_byte by done. unfold chttp_web_multipart_feed_suffix_byte.
  destruct (mp_suffix_state p) as [|n|n]; [|do 3 (try destruct n as [n|n|])|]; try done;
    repeat match goal with |- context[v =? ?c] => destruct (Z.eqb_spec v c) end; subst;
    rewrite ?end_part_iff; cbn [count_byte fst snd failed fail_here chttp_web_multipart_fail];
    try (split; [done|intuition congruence]); try (split; [by auto|intuition congruence]).
  split; [intros ->; by left|by intros [[_ ->]|[? _]]].
Qed.

Lemma feeds_next p p' :
  room p SUFFIX_NEXT -> mp_state p = CHTTP_WEB_MP_SUFFIX -> mp_suffix_state p = 0 ->
  feeds p SUFFIX_NEXT p' <-> closes p false p'.
Proof.
  intros Hr Hs H0. unfold SUFFIX_NEXT in *. rewrite feeds_step by done.
  pose proof (room_app cb p [CR] [LF] Hr) as Hv.
  assert (feeds p [CR] (suffix_to p 1)) as H1.
  { apply suffix_byte_cases; [done..|]. rewrite H0. by left. }
  pose proof (room_step p CR [LF] _ Hr H1) as Hr1. unfold closes. split.
  - intros (p1 & Hp1 & H). apply suffix_byte_cases in Hp1; [|done..]. rewrite H0 in Hp1.
    destruct Hp1 as [[_ ->]|[? _]]; [|done]. apply suffix_byte_cases in H as [_ (u & Hu & ->)]; [|done..].
    exists u. split; [done|]. unfold after_run. cbn. by rewrite <- Z.add_assoc.
  - intros (u & Hu & ->). exists (suffix_to p 1). split; [done|]. apply suffix_byte_cases; [done..|]. split; [done|].
    exists u. split; [done|]. unfold after_run. cbn. by rewrite <- Z.add_assoc.
Qed.

Lemma feeds_last p p' :
  room p SUFFIX_LAST -> mp_state p = CHTTP_WEB_MP_SUFFIX -> mp_suffix_state p = 0 ->
  feeds p SUFFIX_LAST p' <-> closes p true p'.
Proof.
  intros Hr Hs H0. unfold SUFFIX_LAST in *.
  assert (forall q v w s k, room q (v :: w :: s) -> mp_state q = CHTTP_WEB_MP_SUFFIX ->
    (forall q1, feeds q [v] q1 <-> q1 = suffix_to q k) ->
    (feeds q (v :: w :: s) p' <-> feeds (suffix_to q k) (w :: s) p') /\ room (suffix_to q k) (w :: s)) as step.
  { intros q v w s k Hq _ H. pose proof (room_step q v (w :: s) _ Hq (proj2 (H _) eq_refl)). split; [|done].
    rewrite feeds_step by done. setoid_rewrite H. split; [by intros (? & -> & ?)|by eexists]. }
  destruct (step p DASH DASH [CR; LF] 2 Hr Hs) as [-> Hr1].
  { intros q1. rewrite suffix_byte_cases, H0; [|by apply (room_app cb p [DASH] [DASH; CR; LF])|done].
    split; [by intros [[? _]|[_ ?]]|by right]. }
  destruct (step (suffix_to p 2) DASH CR [LF] 3 Hr1 Hs) as [-> Hr2].
  { intros q1. rewrite suffix_byte_cases; [|by apply (room_app cb _ [DASH] [CR; LF])|done]. cbn. tauto. }
  destruct (step _ CR LF [] 4 Hr2 Hs) as [-> Hr3].
  { intros q1. rewrite suffix_byte_cases; [|by apply (room_app cb _ [CR] [LF])|done]. cbn. tauto. }
  rewrite suffix_byte_cases by done. cbn [suffix_to]. unfold closes. split.
  - intros [_ (u & Hu & ->)]. exists u. split; [done|]. unfold after_run. cbn. by rewrite <- !Z.add_assoc.
  - intros (u & Hu & ->). split; [done|]. exists u. split; [done|]. unfold after_run. cbn. by rewrite <- !Z.add_assoc.
Qed.

Lemma feeds_suffix_shape s p p' :
  room p s -> mp_state p = CHTTP_WEB_MP_SUFFIX -> mp_suffix_state p = 0 ->
  feeds p s p' -> mp_state p' = CHTTP_WEB_MP_DONE ->
  (exists s2, s = SUFFIX_NEXT ++ s2) \/ exists s2, s = SUFFIX_LAST ++ s2.
Proof.
  intros Hr Hs H0 H Hd.
  assert (forall q v s, room q (v :: s) -> mp_state q = CHTTP_WEB_MP_SUFFIX -> feeds q (v :: s) p' ->
    exists q1, feeds q [v] q1 /\ feeds q1 s p' /\ room q1 s /\ room q [v]) as step.
  { intros q v t Hq _ Ht. apply feeds_step in Ht as (q1 & H1 & H2); [|done]. exists q1. split_and!; try done.
    - by apply (room_step q v).
    - by apply (room_app cb q [v] t). }
  assert (forall q, feeds q [] p' -> mp_state q = CHTTP_WEB_MP_SUFFIX -> False) as stop
    by (intros q Hq Hqs; apply feeds_nil in Hq; congruence).
  destruct s as [|v s]; [by exfalso; eapply stop|]. destruct (step _ _ _ Hr Hs H) as (p1 & H1 & H2 & Hr1 & Hv).
  apply suffix_byte_cases in H1; [|done..]. rewrite H0 in H1. destruct H1 as [[-> ->]|[-> ->]].
  - left. destruct s as [|w s]; [by exfalso; eapply stop|]. destruct (step _ _ _ Hr1 Hs H2) as (p2 & H3 & _ & _ & Hv2).
    apply suffix_byte_cases in H3 as [-> _]; [|done..]. by exists s.
  - right. destruct s as [|w s]; [by exfalso; eapply stop|]. destruct (step _ _ _ Hr1 Hs H2) as (p2 & H3 & H4 & Hr2 & Hv2).
    apply suffix_byte_cases in H3 as [-> ->]; [|done..].
    destruct s as [|x s]; [by exfalso; eapply stop|]. destruct (step _ _ _ Hr2 Hs H4) as (p3 & H5 & H6 & Hr3 & Hv3).
    apply suffix_byte_cases in H5 as [-> ->]; [|done..].
    destruct s as [|y s]; [by exfalso; eapply stop|]. destruct (step _ _ _ Hr3 Hs H6) as (p4 & H7 & _ & _ & Hv4).
    apply suffix_byte_cases in H7 as [-> _]; [|done..]. by exists s.
Qed.

Lemma feeds_done p s p' : room p s -> mp_state p = CHTTP_WEB_MP_DONE -> feeds p s p' -> s = [].
Proof.
  intros Hr Hs H. destruct s as [|v s]; [done|]. apply feeds_cons in H as (p1 & s1 & H & _); [|done].
  unfold feed_round in H. by rewrite Hs in H.
Qed.

(** ** The opening delimiter *)

Definition initial_to p (n : Z) : parser :=
  after_run (if n =? zlen (mp_boundary p) + 4 then p <| mp_initial_index := 0 |> <| mp_state := CHTTP_WEB_MP_HEADERS |>
             else p <| mp_initial_index := n |>) 1.

Lemma initial_byte p v p1 : room p [v] -> mp_state p = CHTTP_WEB_MP_INITIAL ->
  feeds p [v] p1 <-> v = zth (opening (mp_boundary p)) (mp_initial_index p) /\ p1 = initial_to p (mp_initial_index p + 1).
Proof.
  intros Hr Hs. pose proof Hr as (Hp & _ & _). rewrite feeds_one by done. unfold feed_round. rewrite Hs.
  rewrite initial_char_zth by apply (wf_initial cb p Hp). destruct (Z.eqb_spec v (zth (opening (mp_boundary p)) (mp_initial_index p))) as [->|Hv];
    cbn [negb]; [|split; [done|by intros [? _]]].
  cbv zeta. unfold initial_to. cbn [mp_initial_index mp_boundary]. 
  change (mp_initial_index (p <| mp_initial_index := mp_initial_index p + 1 |> <| mp_total_bytes := mp_total_bytes p + 1 |>))
    with (mp_initial_index p + 1).
  change (mp_boundary (p <| mp_initial_index := mp_initial_index p + 1 |> <| mp_total_bytes := mp_total_bytes p + 1 |>))
    with (mp_boundary p).
  split_if; rewrite feeds_nil; (split; [by intros ->|by intros [_ ->]]).
Qed.

Definition opened p (n : Z) : parser :=
  after_run (p <| mp_initial_index := 0 |> <| mp_state := CHTTP_WEB_MP_HEADERS |>) n.

Lemma zlen_opening b : zlen (opening b) = zlen b + 4.
Proof. unfold opening. rewrite !zlen_app. change (zlen [DASH; DASH]) with 2. change (zlen [CR; LF]) with 2. lia. Qed.

(** The opening delimiter is read from where the index is. *)
Lemma opening_byte p pre v rest v' p1 :
  room p [v'] -> mp_state p = CHTTP_WEB_MP_INITIAL -> opening (mp_boundary p) = pre ++ v :: rest ->
  zlen pre = mp_initial_index p ->
  feeds p [v'] p1 <-> v' = v /\ p1 = match rest with
                                     | [] => opened p 1
                                     | _ => after_run (p <| mp_initial_index := mp_initial_index p + 1 |>) 1
                                     end.
Proof.
  intros Hr Hs Eo Hi. rewrite initial_byte, Eo, <- Hi by done. rewrite zth_app_r, Z.sub_diag, zth_0 by lia.
  unfold initial_to. rewrite <- zlen_opening, Eo, zlen_app, zlen_cons. destruct rest as [|w rest].
  - rewrite zlen_nil, (proj2 (Z.eqb_eq _ _)) by lia. done.
  - rewrite zlen_cons, (proj2 (Z.eqb_neq _ _)) by (pose proof (zlen_nonneg rest); lia). done.
Qed.

Lemma feeds_opening s : forall pre p p',
  room p s -> mp_state p = CHTTP_WEB_MP_INITIAL -> opening (mp_boundary p) = pre ++ s -> zlen pre = mp_initial_index p ->
  s <> [] -> feeds p s p' <-> p' = opened p (zlen s).
Proof.
  induction s as [|v s IH]; intros pre p p' Hr Hs Eo Hi Hne; [done|]. rewrite feeds_step by done.
  pose proof (room_app cb p [v] s Hr) as Hv. pose proof (fun p1 => room_step p v s p1 Hr) as Hr1.
  setoid_rewrite (opening_byte p pre v s); [|done..]. destruct s as [|w s].
  - setoid_rewrite feeds_nil. split; [by intros (? & [_ ->] & ->)|intros ->; by eexists].
  - set (p1 := after_run (p <| mp_initial_index := mp_initial_index p + 1 |>) 1).
    assert (room p1 (w :: s)) as Hr2 by (apply Hr1, (opening_byte p pre v (w :: s)); done).
    assert (feeds p1 (w :: s) p' <-> p' = opened p (zlen (v :: w :: s))) as <-.
    { rewrite (IH (pre ++ [v]) p1); [|done|done|by rewrite <- app_assoc|rewrite zlen_app, Hi; done|done].
      rewrite (zlen_cons v). unfold opened, p1. rewrite <- after_run_run. done. }
    split; [by intros (? & [_ ->] & ?)|by exists p1].
Qed.

Lemma feeds_leaves_initial s : forall pre rest p p',
  room p s -> mp_state p = CHTTP_WEB_MP_INITIAL -> opening (mp_boundary p) = pre ++ rest -> rest <> [] ->
  zlen pre = mp_initial_index p -> feeds p s p' -> mp_state p' <> CHTTP_WEB_MP_INITIAL -> exists s2, s = rest ++ s2.
Proof.
  induction s as [|v s IH]; intros pre rest p p' Hr Hs Eo Hne Hi H Hd; [apply feeds_nil in H; congruence|].
  destruct rest as [|w rest]; [done|]. apply feeds_step in H as (p1 & H1 & H); [|done].
  pose proof (room_step p v s p1 Hr H1) as Hr1.
  apply (opening_byte p pre w rest) in H1 as [-> ->]; [|by apply (room_app cb p [v] s)|done..].
  destruct rest as [|x rest]; [by exists s|].
  destruct (IH (pre ++ [w]) (x :: rest) _ p' Hr1) as [s2 ->]; try done.
  - by rewrite <- app_assoc.
  - rewrite zlen_app, Hi. done.
  - by exists s2.
Qed.

(** ** The language of the parser *)

(** A part on the wire: its header block and its data. *)
Abbreviation wire_part := (list Z * list Z)%type.

Fixpoint parts_wire (b : list Z) (parts : list wire_part) : list Z :=
  match parts with
  | [] => []
  | (block, data) :: parts =>
    block ++ data ++ marker b ++ match parts with [] => SUFFIX_LAST | _ => SUFFIX_NEXT ++ parts_wire b parts end
  end.

Definition body_wire (b : list Z) (parts : list wire_part) : list Z := opening b ++ parts_wire b parts.

(** The application is told a list of parts, and accepts each step. *)
Inductive told (l : chttp_web_multipart_limits) (b : list Z) : U -> list wire_part -> U -> Prop :=
  | told_nil u : told l b u [] u
  | told_part u block data parts m u1 u2 u3 u4 :
      block_ok l block = true -> block_meta l block = Some m -> marker_free b data ->
      (m_has_filename m = false -> zlen data <= lm_max_field_bytes l) ->
      part_begin cb u (meta_part m) = (u1, SALTS_OK) ->
      data_call cb u1 data = (u2, SALTS_OK) ->
      part_end cb u2 = (u3, SALTS_OK) ->
      told l b u3 parts u4 -> told l b u ((block, data) :: parts) u4.

(** The parser is at the start of a header block. *)
Definition at_part p : Prop :=
  mp_state p = CHTTP_WEB_MP_HEADERS /\ mp_header_bytes p = [].

(** The parser behind the delimiter that ends the data of a part. *)
Definition part_read p p' (u : U) : Prop :=
  mp_state p' = CHTTP_WEB_MP_SUFFIX /\ mp_suffix_state p' = 0 /\ mp_user p' = u /\
  mp_part_count p' = mp_part_count p + 1.

Lemma at_part_not_end p : at_part p -> at_end (mp_header_bytes p) = false.
Proof. by intros [_ ->]. Qed.

Lemma block_not_nil l block : block_ok l block = true -> block <> [].
Proof. by intros H ->. Qed.

Lemma room_next p a b p1 : room p (a ++ b) -> feeds p a p1 -> room p1 b.
Proof.
  intros Hr H. pose proof (room_app cb p a b Hr) as Ha. destruct (feeds_keeps cb p a p1 Ha H) as ((_ & Hl & _) & Hw & Hf & Ht).
  split; [done|]. split; [done|]. destruct Hr as (_ & _ & Hr). rewrite zlen_app in Hr. rewrite Hl, Ht. lia.
Qed.

Lemma no_pending_id p : mp_pending p = [] -> no_pending p = p.
Proof. destruct p. cbn. by intros ->. Qed.

Lemma in_body_fields p m u : let q := in_body p m u in
  mp_state q = CHTTP_WEB_MP_BODY /\ mp_pending q = [] /\ mp_user q = u /\ mp_current_file q = m_has_filename m /\
  mp_field_bytes q = 0 /\ mp_limits q = mp_limits p /\ mp_boundary q = mp_boundary p.
Proof. by split_and!. Qed.

Lemma feeds_part_end p block data p' :
  room p (block ++ data ++ marker (mp_boundary p)) -> at_part p ->
  block_ok (mp_limits p) block = true -> marker_free (mp_boundary p) data ->
  feeds p (block ++ data ++ marker (mp_boundary p)) p' <->
  exists m u1 u2, block_meta (mp_limits p) block = Some m /\ mp_part_count p < lm_max_parts (mp_limits p) /\
    part_begin cb (mp_user p) (meta_part m) = (u1, SALTS_OK) /\
    (m_has_filename m = false -> zlen data <= lm_max_field_bytes (mp_limits p)) /\
    data_call cb u1 data = (u2, SALTS_OK) /\
    let q := in_body (with_header p block (zlen block)) m u1 in
    p' = at_suffix (emitted q u2 (zlen data)) (mp_total_bytes q + zlen (data ++ marker (mp_boundary p))).
Proof.
  intros Hr [Hs Hh] Hok Hd. apply andb_true_iff in Hok as Hok'. destruct Hok' as [Hg He].
  assert (forall q, feeds p block q <-> begins p block (zlen block) q) as Hblock.
  { intros q. rewrite feeds_block; [by rewrite Hh|by eapply room_app|done|by eapply block_not_nil|by rewrite Hh..]. }
  assert (forall m u1, let q := in_body (with_header p block (zlen block)) m u1 in feeds p block q ->
    feeds q (data ++ marker (mp_boundary p)) p' <->
    exists u2, (m_has_filename m = false -> zlen data <= lm_max_field_bytes (mp_limits p)) /\
      data_call cb u1 data = (u2, SALTS_OK) /\
      p' = at_suffix (emitted q u2 (zlen data)) (mp_total_bytes q + zlen (data ++ marker (mp_boundary p)))) as Hdata.
  { intros m u1 q Hq. pose proof (room_next p block _ q Hr Hq) as Hrq. pose proof Hrq as (Hwq & _ & _).
    destruct (in_body_fields (with_header p block (zlen block)) m u1) as (Es & Eq & Eu & Ec & Ef & El & Eb).
    fold q in Es, Eq, Eu, Ec, Ef, El, Eb. change (mp_limits (with_header p block (zlen block))) with (mp_limits p) in El.
    change (mp_boundary (with_header p block (zlen block))) with (mp_boundary p) in Eb. clearbody q.
    rewrite (feeds_data data); [|done|done|by rewrite Eb|by rewrite Eq, Eb]. unfold reads.
    rewrite no_pending_id by done. setoid_rewrite emit_ok_iff; [|done]. rewrite Eu, Ec, Ef, El. split.
    - intros (? & (u2 & Hu & Hf & ->) & ->). by exists u2.
    - intros (u2 & Hf & Hu & ->). eexists. split; [by exists u2|done]. }
  rewrite feeds_app by done. split.
  - intros (q & Hq & H). pose proof Hq as Hb. apply Hblock in Hb as (m & u1 & Hm & Hc & Hu1 & ->).
    apply Hdata in H as (u2 & Hf & Hu2 & ->); [|done]. exists m, u1, u2. by split_and!.
  - intros (m & u1 & u2 & Hm & Hc & Hu1 & Hf & Hu2 & ->). assert (feeds p block (in_body (with_header p block (zlen block)) m u1)) as Hq.
    { apply Hblock. by exists m, u1. }
    eexists. split; [exact Hq|]. apply Hdata; [done|]. by exists u2.
Qed.

Lemma part_read_suffix p block m u1 u2 n t :
  part_read p (at_suffix (emitted (in_body (with_header p block (zlen block)) m u1) u2 n) t) u2.
Proof. unfold part_read, emitted. cbn [mp_current_file in_body]. by destruct (mp_current_file _). Qed.

Lemma closes_fields p final p' : closes p final p' ->
  exists u, part_end cb (mp_user p) = (u, SALTS_OK) /\ mp_user p' = u /\ mp_part_count p' = mp_part_count p /\
    if final then mp_state p' = CHTTP_WEB_MP_DONE else at_part p'.
Proof. intros (u & Hu & ->). exists u. split; [done|]. by destruct final. Qed.

Lemma feeds_parts_sound n : forall s p p',
  (length s <= n)%nat -> room p s -> at_part p -> feeds p s p' -> mp_state p' = CHTTP_WEB_MP_DONE ->
  exists parts, parts <> [] /\ s = parts_wire (mp_boundary p) parts /\
    mp_part_count p + zlen parts <= lm_max_parts (mp_limits p) /\
    told (mp_limits p) (mp_boundary p) (mp_user p) parts (mp_user p').
Proof.
  induction n as [|n IH]; intros s p p' Hn Hr Hpart H Hd; pose proof Hpart as [Hs Hh].
  { destruct s; [|cbn in Hn; lia]. apply feeds_nil in H. congruence. }
  (* the header block *)
  destruct (feeds_leaves_headers s p p' Hr Hs (at_part_not_end p Hpart) H) as (block & s1 & -> & Hne & Hg & He); [congruence|].
  rewrite Hh in Hg, He. cbn [app] in He. assert (block_ok (mp_limits p) block = true) as Hok by (unfold block_ok; by rewrite Hg, He).
  assert (marker_free (mp_boundary p) s1 \/ exists d s2, s1 = d ++ marker (mp_boundary p) ++ s2 /\ marker_free (mp_boundary p) d)
    as [Hfree|(data & s2 & -> & Hfree)] by apply first_marker.
  { exfalso. apply (feeds_app cb) in H as (q & Hq & H); [|done]. pose proof (room_next p block s1 q Hr Hq) as Hrq.
    apply feeds_block in Hq as (m & u & _ & _ & _ & ->); [|by eapply room_app|done|done|by rewrite Hh..].
    apply feeds_no_marker in H; [congruence|done|done|done]. }
  rewrite (app_assoc data), (app_assoc block) in H, Hr. apply (feeds_app cb) in H as (q & Hq & H); [|done].
  pose proof (room_next p _ s2 q Hr Hq) as Hrq. pose proof (room_app cb p _ s2 Hr) as Hrp.
  destruct (feeds_keeps cb p _ q Hrp Hq) as ((_ & Hl & Hb & _) & _ & _ & _).
  apply feeds_part_end in Hq as (m & u1 & u2 & Hm & Hc & Hu1 & Hf & Hu2 & Eq); [|done..].
  assert (part_read p q u2) as (Hsq & H0q & Huq & Hcq) by (rewrite Eq; apply part_read_suffix). clear Eq.
  (* what follows the delimiter *)
  destruct (feeds_suffix_shape s2 q p' Hrq Hsq H0q H Hd) as [[s3 ->]|[s3 ->]].
  - apply (feeds_app cb) in H as (q2 & Hq2 & H); [|done]. pose proof (room_next q _ s3 q2 Hrq Hq2) as Hr2.
    pose proof (room_app cb q _ s3 Hrq) as Hrq'. destruct (feeds_keeps cb q _ q2 Hrq' Hq2) as ((_ & Hl2 & Hb2 & _) & _ & _ & _).
    apply feeds_next, closes_fields in Hq2 as (u3 & Hu3 & E3 & Ec & Hat); [|done..].
    assert (length s3 <= n)%nat as Hn3 by (rewrite !length_app in Hn; destruct block; [done|cbn in Hn; lia]).
    destruct (IH s3 q2 p' Hn3 Hr2 Hat H Hd) as (parts & Hnp & Ew & Hcount & Htold). subst s3.
    exists ((block, data) :: parts). split; [done|]. rewrite Hb2, Hb, Hl2, Hl, E3, Ec, Hcq in *. split; [|split].
    + cbn [parts_wire]. by destruct parts.
    + rewrite zlen_cons. lia.
    + by eapply told_part; try done; congruence.
  - apply (feeds_app cb) in H as (q2 & Hq2 & H); [|done]. pose proof (room_next q _ s3 q2 Hrq Hq2) as Hr2.
    pose proof (room_app cb q _ s3 Hrq) as Hrq'.
    apply feeds_last, closes_fields in Hq2 as (u3 & Hu3 & E3 & Ec & Hdone); [|done..].
    assert (s3 = []) as -> by (by eapply feeds_done). apply feeds_nil in H. subst p'.
    exists [(block, data)]. split; [done|]. split; [|split].
    + cbn [parts_wire]. by rewrite app_nil_r.
    + change (zlen [(block, data)]) with 1. lia.
    + apply (told_part _ _ _ _ _ _ m u1 u2 u3); try done; [congruence|]. rewrite E3. constructor.
Qed.

Lemma feeds_parts_complete parts : forall p u',
  parts <> [] -> room p (parts_wire (mp_boundary p) parts) -> at_part p ->
  mp_part_count p + zlen parts <= lm_max_parts (mp_limits p) ->
  told (mp_limits p) (mp_boundary p) (mp_user p) parts u' ->
  exists p', feeds p (parts_wire (mp_boundary p) parts) p' /\ mp_state p' = CHTTP_WEB_MP_DONE /\ mp_user p' = u'.
Proof.
  induction parts as [|[block data] parts IH]; intros p u' Hne Hr Hpart Hcount Htold; [done|].
  inversion Htold as [|? ? ? ? m u1 u2 u3 ? Hok Hm Hfree Hf Hu1 Hu2 Hu3 Hrest]; subst. rewrite zlen_cons in Hcount.
  pose proof (zlen_nonneg parts).
  pose (tail := match parts with [] => SUFFIX_LAST | _ => SUFFIX_NEXT ++ parts_wire (mp_boundary p) parts end).
  assert (parts_wire (mp_boundary p) ((block, data) :: parts) = (block ++ data ++ marker (mp_boundary p)) ++ tail) as Ew
    by (cbn [parts_wire]; fold tail; by rewrite <- !app_assoc).
  rewrite Ew in Hr |- *. pose proof (room_app cb p _ tail Hr) as Hrp.
  set (q := at_suffix (emitted (in_body (with_header p block (zlen block)) m u1) u2 (zlen data))
    (mp_total_bytes (in_body (with_header p block (zlen block)) m u1) + zlen (data ++ marker (mp_boundary p)))).
  assert (feeds p (block ++ data ++ marker (mp_boundary p)) q) as Hq.
  { apply feeds_part_end; [done..|]. exists m, u1, u2. split_and!; try done. lia. }
  destruct (part_read_suffix p block m u1 u2 (zlen data) (mp_total_bytes (in_body (with_header p block (zlen block)) m u1) +
    zlen (data ++ marker (mp_boundary p)))) as (Hsq & H0q & Huq & Hcq). fold q in Hsq, H0q, Huq, Hcq. clearbody q.
  destruct (feeds_keeps cb p _ q Hrp Hq) as ((_ & Hl & Hb & _) & _ & _ & _).
  pose proof (room_next p _ tail q Hr Hq) as Hrq. destruct parts as [|part parts].
  - inversion Hrest; subst. assert (closes q true (after_run (q <| mp_suffix_state := 0 |> <| mp_user := u' |>
      <| mp_state := CHTTP_WEB_MP_DONE |>) 4)) as Hc by (by exists u').
    apply closes_fields in Hc as Hcf. destruct Hcf as (u3' & _ & E3 & _ & Hdone).
    eexists. split; [apply (feeds_app cb); [done|]; exists q; split; [done|]; by apply feeds_last|]. split; [done|]. done.
  - set (q2 := after_run (next_part (q <| mp_suffix_state := 0 |>) u3) 2).
    assert (closes q false q2) as Hc by (exists u3; split; [congruence|done]).
    pose proof (closes_fields q false q2 Hc) as (? & _ & <- & Ec & Hat).
    assert (feeds q SUFFIX_NEXT q2) as Hq2 by (apply feeds_next; [by eapply room_app|done..]).
    assert (mp_user q2 = u3) as Eu by done. clearbody q2.
    pose proof (room_app cb q _ _ Hrq) as Hrq'.
    destruct (feeds_keeps cb q _ q2 Hrq' Hq2) as ((_ & Hl2 & Hb2 & _) & _ & _ & _).
    pose proof (room_next q _ _ q2 Hrq Hq2) as Hr2.
    specialize (IH q2 u'). rewrite Hb2, Hb, Hl2, Hl, Ec, Hcq, Eu in IH.
    destruct IH as (p' & Hp' & Hd & Hu); [done|done|done|lia|done|].
    exists p'. split; [|done]. apply (feeds_app cb); [done|]. exists q. split; [done|].
    apply (feeds_app cb); [done|]. by exists q2.
Qed.

Lemma finish_ok_iff p : mp_wf cb p -> mp_active p = true -> mp_failed p = false ->
  we_status (chttp_web_multipart_finish cb p).2 = CHTTP_WEB_OK <-> mp_state p = CHTTP_WEB_MP_DONE.
Proof.
  intros Hp Ha Hf. unfold chttp_web_multipart_finish. rewrite (wf_valid cb p Hp), Ha, Hf. cbn [negb orb].
  by case_bool_decide.
Qed.

Lemma finish_user p : mp_user (chttp_web_multipart_finish cb p).1 = mp_user p.
Proof. unfold chttp_web_multipart_finish. split_if; [done|]. by split_if. Qed.

(** A whole body is accepted, and leaves the application in this state. *)
Definition accepts p (pieces : list (list Z)) (u' : U) : Prop :=
  exists p1, feed_pieces cb p pieces = Some p1 /\
    we_status (chttp_web_multipart_finish cb p1).2 = CHTTP_WEB_OK /\
    mp_user (chttp_web_multipart_finish cb p1).1 = u'.

Lemma accepts_feeds p body u' : mp_wf cb p -> mp_active p = true -> mp_failed p = false ->
  accepts p [body] u' <->
  room p body /\ exists p1, feeds p body p1 /\ mp_state p1 = CHTTP_WEB_MP_DONE /\ mp_user p1 = u'.
Proof.
  intros Hp Ha Hf. unfold accepts. setoid_rewrite feed_pieces_cons. setoid_rewrite feed_ok_iff; [|done..].
  assert (forall p1, room p body -> feeds p body p1 ->
    we_status (chttp_web_multipart_finish cb p1).2 = CHTTP_WEB_OK <-> mp_state p1 = CHTTP_WEB_MP_DONE) as Hfin.
  { intros p1 Hr H1. destruct (feeds_keeps cb p body p1 Hr H1) as ((_ & _ & _ & Ha1) & Hw1 & Hf1 & _).
    apply finish_ok_iff; [done|congruence|done]. }
  setoid_rewrite finish_user. split.
  - intros (p1 & (q & [Hr Hq] & [= ->]) & Hok & Hu). split; [done|]. exists p1. apply Hfin in Hok; done.
  - intros (Hr & p1 & H1 & Hd & Hu). exists p1. split; [by exists p1|]. by rewrite (Hfin p1).
Qed.

Lemma accepts_iff content_type limits user p0 e0 body u' :
  limits_range limits -> chttp_web_multipart_init cb content_type limits user = (Some p0, e0) ->
  zlen body <= lm_max_total_bytes limits ->
  accepts p0 [body] u' <->
  exists b parts, chttp_web_multipart_parse_outer_boundary content_type = Some b /\
    parts <> [] /\ body = body_wire b parts /\ zlen parts <= lm_max_parts limits /\ told limits b user parts u'.
Proof.
  intros Hl Ei Hlen. apply init_wf in Ei as (Hp & Ha & Hf & Hs & Ht & Hc & Hi & Hh & Hu & El & Eb); [|done].
  rewrite accepts_feeds by done. subst limits user.
  assert (room p0 body) as Hr by (split; [done|]; split; [done|]; lia).
  assert (forall s, room p0 (opening (mp_boundary p0) ++ s) ->
    feeds p0 (opening (mp_boundary p0)) (opened p0 (zlen (opening (mp_boundary p0))))) as Hopen.
  { intros s Hrs. apply (feeds_opening _ []); [by eapply room_app|done|done|by rewrite zlen_nil|done|done]. }
  split.
  - intros (_ & p1 & H & Hd & <-). exists (mp_boundary p0).
    destruct (feeds_leaves_initial body [] (opening (mp_boundary p0)) p0 p1) as [s ->]; try done; [congruence|].
    apply (feeds_app cb) in H as (q & Hq & H); [|done]. pose proof (room_next p0 _ s q Hr Hq) as Hrq.
    apply (feeds_opening _ []) in Hq as ->; [|by eapply room_app|done|done|by rewrite zlen_nil|done].
    destruct (feeds_parts_sound (length s) s _ p1 (le_n _) Hrq) as (parts & Hne & -> & Hcount & Htold); [by split|done|done|].
    exists parts. split; [done|]. split; [done|]. split; [done|]. split; [|done].
    change (mp_part_count p0 + zlen parts <= lm_max_parts (mp_limits p0)) in Hcount. lia.
  - intros (b & parts & Eb' & Hne & -> & Hcount & Htold). assert (b = mp_boundary p0) as -> by congruence.
    split; [done|]. unfold body_wire in *. pose proof (Hopen _ Hr) as Hq. pose proof (room_next p0 _ _ _ Hr Hq) as Hrq.
    destruct (feeds_parts_complete parts (opened p0 (zlen (opening (mp_boundary p0)))) u') as (p1 & H1 & Hd & Hu1);
      [done|done|by split|cbn; lia|done|].
    exists p1. split; [|done]. apply (feeds_app cb); [done|]. by eexists.
Qed.


End Language.

End MultipartLanguage.

(** * The order of the calls of the multipart parser

    The parser tells its application a part, the data of this part, and the end
    of this part, and after a failure nothing more.  What the application keeps
    through such calls, it keeps through a body. *)

Module MultipartOrder.
Import H2Frame Http1Parser Web Multipart MultipartTheorems.

(** The state of an application between two parts, in a part, and after a call
    that failed. *)
Record bracketed {U} (cb : chttp_web_multipart_callbacks U) (outside inside stopped : U -> Prop) : Prop := {
  br_begin u part : outside u ->
    let '(u', status) := part_begin cb u part in if decide (status = SALTS_OK) then inside u' else stopped u';
  br_data u data : inside u ->
    let '(u', status) := part_data cb u data in if decide (status = SALTS_OK) then inside u' else stopped u';
  br_end u : inside u ->
    let '(u', status) := part_end cb u in if decide (status = SALTS_OK) then outside u' else stopped u';
  br_outside u : outside u -> stopped u;
  br_inside u : inside u -> stopped u;
}.

Section Order.
Context {U : Type} {cb : chttp_web_multipart_callbacks U} {outside inside stopped : U -> Prop}.
Context (Hbr : bracketed cb outside inside stopped).
#[local] Abbreviation parser := (chttp_web_multipart_parser U).
Implicit Types p : parser.

Definition in_order p : Prop :=
  if mp_failed p then stopped (mp_user p)
  else match mp_state p with
       | CHTTP_WEB_MP_BODY | CHTTP_WEB_MP_SUFFIX => inside (mp_user p)
       | CHTTP_WEB_MP_FAILED => stopped (mp_user p)
       | _ => outside (mp_user p)
       end.

Lemma order_stopped p : in_order p -> stopped (mp_user p).
Proof.
  unfold in_order. destruct (mp_failed p); [done|]. destruct (mp_state p); try done; intros H; (by eapply br_outside) || (by eapply br_inside).
Qed.

Lemma order_fail p status native offset message :
  stopped (mp_user p) -> in_order (chttp_web_multipart_fail p status native offset message).1.
Proof. done. Qed.

Lemma emit_order p data : mp_failed p = false -> inside (mp_user p) ->
  (mp_state p = CHTTP_WEB_MP_BODY \/ mp_state p = CHTTP_WEB_MP_SUFFIX) ->
  in_order (chttp_web_multipart_emit cb p data).1.
Proof.
  intros Hf Hi Hs. unfold chttp_web_multipart_emit.
  assert (forall q, mp_failed q = mp_failed p -> mp_state q = mp_state p -> inside (mp_user q) -> in_order q) as Hq.
  { intros q Eq Es Hu. unfold in_order. rewrite Eq, Hf, Es. by destruct Hs as [-> | ->]. }
  split_if; [by apply Hq|]. split_if; [by eapply order_fail, br_inside|].
  pose proof (br_data _ _ _ _ Hbr (mp_user p) data Hi) as H. destruct (part_data cb (mp_user p) data) as [u s].
  cbv zeta. case_bool_decide as Es; cbn [negb].
  - rewrite decide_True in H by done. by split_if; apply Hq.
  - rewrite decide_False in H by done. by apply order_fail.
Qed.

Lemma begin_part_order p : limits_range (mp_limits p) -> mp_failed p = false -> outside (mp_user p) ->
  in_order (chttp_web_multipart_begin_part cb p).1.
Proof.
  intros Hl Hf Ho. unfold chttp_web_multipart_begin_part. cbv zeta.
  change (p <| mp_part_name := [] |> <| mp_part_filename := [] |> <| mp_part_content_type := [] |>
    <| mp_has_filename := false |> <| mp_has_content_type := false |>) with (with_meta meta_zero p).
  change (mp_header_bytes (with_meta meta_zero p)) with (mp_header_bytes p).
  pose proof (br_outside _ _ _ _ Hbr _ Ho) as Hst.
  destruct (begin_lines_block p Hl) as (m & _ & H). destruct (begin_lines _ _ _ _ _ _) as [[p' have]|[p' e]].
  2: { by destruct H as (-> & _). }
  destruct H as [-> _]. split_if; [done|]. split_if; [done|].
  pose proof (br_begin _ _ _ _ Hbr (mp_user p) (part_of (with_meta m p)) Ho) as Hb. change (mp_user (with_meta m p)) with (mp_user p).
  destruct (part_begin cb (mp_user p) _) as [u s]. case_bool_decide as Es; cbn [negb].
  - rewrite decide_True in Hb by done. unfold in_order. cbn. by rewrite Hf.
  - rewrite decide_False in Hb by done. done.
Qed.

Lemma end_part_order p final : mp_failed p = false -> inside (mp_user p) ->
  in_order (chttp_web_multipart_end_part cb p final).1.
Proof.
  intros Hf Hi. unfold chttp_web_multipart_end_part. pose proof (br_end _ _ _ _ Hbr _ Hi) as H.
  destruct (part_end cb (mp_user p)) as [u s]. cbv zeta. case_bool_decide as Es; cbn [negb].
  - rewrite decide_True in H by done. unfold in_order. destruct final; cbn; by rewrite Hf.
  - rewrite decide_False in H by done. done.
Qed.

Lemma header_byte_order p value : limits_range (mp_limits p) -> mp_failed p = false -> mp_state p = CHTTP_WEB_MP_HEADERS ->
  outside (mp_user p) -> in_order (chttp_web_multipart_feed_header_byte cb p value).1.
Proof.
  intros Hl Hf Hs Ho. pose proof (br_outside _ _ _ _ Hbr _ Ho). unfold chttp_web_multipart_feed_header_byte. cbv zeta.
  do 4 (split_if; [done|]). split_if; [by apply begin_part_order|]. unfold in_order. cbn. by rewrite Hf, Hs.
Qed.

Lemma suffix_byte_order p value : mp_failed p = false -> mp_state p = CHTTP_WEB_MP_SUFFIX ->
  inside (mp_user p) -> in_order (chttp_web_multipart_feed_suffix_byte cb p value).1.
Proof.
  intros Hf Hs Hi. pose proof (br_inside _ _ _ _ Hbr _ Hi).
  assert (forall n, in_order (p <| mp_suffix_state := n |>)) as Hn by (intros n; unfold in_order; cbn; by rewrite Hf, Hs).
  unfold chttp_web_multipart_feed_suffix_byte. cbv zeta.
  repeat case_match; try done; try (by apply Hn); by apply end_part_order.
Qed.

Lemma order_same p q : in_order p -> mp_failed q = mp_failed p -> mp_state q = mp_state p -> mp_user q = mp_user p -> in_order q.
Proof. unfold in_order. by intros H -> -> ->. Qed.

(** The parser that a round leaves. *)
Definition round_parser (r : (parser * list Z) + (parser * chttp_web_error)) : parser :=
  match r with inl (p, _) => p | inr (p, _) => p end.

Lemma body_round_order p value rest : mp_wf cb p -> mp_failed p = false -> mp_state p = CHTTP_WEB_MP_BODY ->
  inside (mp_user p) -> in_order (round_parser (feed_round cb p value rest)).
Proof.
  intros Hp Hf Hs Hi. unfold feed_round. rewrite Hs. assert (in_order p) as Ho by (unfold in_order; by rewrite Hf, Hs).
  assert (forall data, in_order (chttp_web_multipart_emit cb p data).1) as He by (intros; apply emit_order; auto).
  split_if.
  - destruct (span _ _) as [run s]. specialize (He run).
    assert (in_order (if 0 <? zlen run then chttp_web_multipart_emit cb p run else (p, None)).1) as Hr by by split_if.
    destruct (if 0 <? zlen run then _ else _) as [q [e|]]; cbn [fst] in Hr; [done|]. destruct s; exact Hr.
  - split_if.
    + cbv zeta. split_if; [|exact Ho]. unfold in_order. cbn. by rewrite Hf.
    + specialize (He (mp_pending p)). destruct (chttp_web_multipart_emit cb p (mp_pending p)) as [q [e|]]; exact He.
Qed.

Lemma round_order p value rest : mp_wf cb p -> mp_failed p = false -> in_order p ->
  in_order (round_parser (feed_round cb p value rest)).
Proof.
  intros Hp Hf Ho. pose proof (order_stopped p Ho) as Hst. destruct (mp_state p) eqn:Hs.
  all: unfold in_order in Ho; rewrite Hf, Hs in Ho.
  3: by apply body_round_order.
  all: unfold feed_round; rewrite Hs; cbv zeta; try done.
  - split_if; [done|]. split_if; unfold in_order; cbn; rewrite Hf, ?Hs; done.
  - pose proof (header_byte_order p value (wf_limits cb p Hp) Hf Hs Ho) as H.
    destruct (chttp_web_multipart_feed_header_byte cb p value) as [q [e|]]; exact H.
  - pose proof (suffix_byte_order p value Hf Hs Ho) as H.
    destruct (chttp_web_multipart_feed_suffix_byte cb p value) as [q [e|]]; exact H.
Qed.

Lemma loop_order fuel : forall p s p' e,
  mp_wf cb p -> mp_failed p = false -> mp_total_bytes p + zlen s <= lm_max_total_bytes (mp_limits p) ->
  in_order p -> feed_loop cb fuel p s = Some (p', e) -> in_order p'.
Proof.
  induction fuel as [|fuel IH]; intros p [|value rest] p' e Hp Hf Ht Ho; cbn [feed_loop]; try done; try (by intros [= <- _]).
  pose proof (feed_round_ok cb p value rest Hp Hf Ht) as Hr. pose proof (round_order p value rest Hp Hf Ho) as Hro.
  destruct (feed_round cb p value rest) as [[p1 s1]|[p1 e1]].
  - destruct Hr as ((_ & El & _) & Hw & Hf1 & Ht1 & _). apply IH; try done. rewrite El. lia.
  - by intros [= <- <-].
Qed.

Lemma feed_order p data p' e : mp_wf cb p -> in_order p -> chttp_web_multipart_feed cb p data = Some (p', e) ->
  mp_wf cb p' /\ in_order p'.
Proof.
  intros Hp Ho E. split.
  { destruct (feed_total cb p data Hp) as (q & e' & E' & Hw & _). congruence. }
  destruct (mp_active p) eqn:Ha, (mp_failed p) eqn:Hf;
    try (unfold chttp_web_multipart_feed in E; rewrite (wf_valid cb p Hp), Ha, Hf in E; cbn [negb orb] in E; by injection E as <- _).
  rewrite feed_call in E by done. split_if_in E.
  - injection E as <- _. exact (order_stopped p Ho).
  - by eapply loop_order.
Qed.

(** A body that ends well has no open part. *)
Lemma finish_order p p' e : mp_wf cb p -> in_order p -> chttp_web_multipart_finish cb p = (p', e) ->
  mp_wf cb p' /\ in_order p' /\ (we_status e = CHTTP_WEB_OK -> outside (mp_user p')).
Proof.
  intros Hp Ho E. pose proof (finish_wf cb p Hp) as Hw. rewrite E in Hw. split; [done|]. revert E.
  unfold chttp_web_multipart_finish. destruct (mp_failed p) eqn:Hf; [rewrite orb_true_r; by intros [= <- <-]|].
  split_if; [by intros [= <- <-]|]. case_bool_decide as Es; cbn [negb].
  - intros [= <- <-]. unfold in_order in *. cbn. rewrite Hf, Es in *. done.
  - intros [= <- <-]. split; [exact (order_stopped p Ho)|done].
Qed.

End Order.

(** What every call keeps. *)
Lemma bracketed_invariant {U} (cb : chttp_web_multipart_callbacks U) (I : U -> Prop) :
  (forall u part, I u -> I (part_begin cb u part).1) -> (forall u data, I u -> I (part_data cb u data).1) ->
  (forall u, I u -> I (part_end cb u).1) -> bracketed cb I I I.
Proof.
  intros H1 H2 H3. split; try done.
  - intros u part Hu. specialize (H1 u part Hu). destruct (part_begin cb u part). by case_decide.
  - intros u data Hu. specialize (H2 u data Hu). destruct (part_data cb u data). by case_decide.
  - intros u Hu. specialize (H3 u Hu). destruct (part_end cb u). by case_decide.
Qed.

Lemma in_order_invariant {U} (I : U -> Prop) p : in_order (outside := I) (inside := I) (stopped := I) p <-> I (mp_user p).
Proof. unfold in_order. destruct (mp_failed p); [done|]. by destruct (mp_state p). Qed.

End MultipartOrder.
