(* ===== verification/MultipartRoundtrip.v ===== *)
(** * What a client writes, the multipart parser reads

    A printer of parts in the form that browsers use, and the round trip: the
    parts that were printed are the parts the application is told, however the
    body is cut.  Then an example, and what the parser accepts although it is
    not closed. *)

From S2P Require Import Prelude H2Frame Http1Parser Web Multipart MultipartTheorems MultipartLanguage.

Module MultipartRoundtrip.
Import H2Frame Http1Parser Web Multipart MultipartTheorems MultipartLanguage.

(** ** Printing *)

Fixpoint escape (s : list Z) : list Z :=
  match s with
  | [] => []
  | c :: s => if (c =? QUOTE) || (c =? BACKSLASH) then BACKSLASH :: c :: escape s else c :: escape s
  end.

Definition quoted (s : list Z) : list Z := QUOTE :: escape s ++ [QUOTE].

Definition print_disposition (m : chttp_web_multipart_part) : list Z :=
  bytes_of "Content-Disposition: form-data; name=" ++ quoted (part_name m) ++
  match part_filename m with Some f => bytes_of "; filename=" ++ quoted f | None => [] end.

Definition print_lines (m : chttp_web_multipart_part) : list (list Z) :=
  print_disposition m ::
  match part_content_type m with Some t => [bytes_of "Content-Type: " ++ t] | None => [] end.

Definition print_block (lines : list (list Z)) : list Z :=
  concat (map (fun line => line ++ [CR; LF]) lines) ++ [CR; LF].

Definition print_part (m : chttp_web_multipart_part) : list Z := print_block (print_lines m).

(** ** Reading a printed parameter *)

(** A byte that a quoted value may hold. *)
Definition plain (c : Z) : bool := negb (parameter_control c).

Lemma quoted_loop_escape n s rest : forall previous out,
  forallb plain s = true -> zlen out + zlen s <= n ->
  quoted_loop (Some n) previous out (escape s ++ QUOTE :: rest) = inl (QUOTE, out ++ s, rest).
Proof.
  induction s as [|c s IH]; intros previous out Hs Hn.
  { cbn. by rewrite app_nil_r. }
  cbn in Hs. apply andb_true_iff in Hs as [Hc Hs]. apply negb_true_iff in Hc. rewrite zlen_cons in Hn.
  pose proof (zlen_nonneg s).
  assert (output_full (Some n) out = false) as Hfull by (cbn; apply Z.leb_gt; lia).
  assert (quoted_loop (Some n) c (out ++ [c]) (escape s ++ QUOTE :: rest) = inl (QUOTE, out ++ c :: s, rest)) as Hgo.
  { rewrite IH; [by rewrite <- app_assoc|done|]. rewrite zlen_app. change (zlen [c]) with 1. lia. }
  cbn [escape]. destruct (c =? QUOTE) eqn:Eq; [|destruct (c =? BACKSLASH) eqn:Eb]; cbn [orb app quoted_loop].
  - by rewrite Hc, Hfull, Hgo.
  - by rewrite Hc, Hfull, Hgo.
  - by rewrite Eq, Eb, Hc, Hfull, Hgo.
Qed.

Lemma read_quoted n s rest :
  forallb plain s = true -> zlen s <= n ->
  match rest with [] => True | c :: _ => c = SEMI end ->
  chttp_web_multipart_read_parameter_value (Some n) (quoted s ++ rest) = inl (s, rest).
Proof.
  intros Hs Hn Hr. unfold chttp_web_multipart_read_parameter_value, quoted. rewrite <- app_comm_cons, <- app_assoc.
  change (chttp_web_multipart_skip_ows (QUOTE :: escape s ++ [QUOTE] ++ rest)) with (QUOTE :: escape s ++ QUOTE :: rest).
  cbv zeta. change (QUOTE =? QUOTE) with true. cbv iota.
  rewrite quoted_loop_escape by (done || rewrite zlen_nil; lia). cbn [app]. change (QUOTE =? QUOTE) with true. cbv iota.
  destruct rest as [|c rest]; [done|]. by subst c.
Qed.

Lemma span_until test a c rest :
  forallb test a = true -> test c = false -> span test (a ++ c :: rest) = (a, c :: rest).
Proof.
  induction a as [|x a IH]; cbn; intros Ha Hc; [by rewrite Hc|]. apply andb_true_iff in Ha as [-> Ha].
  by rewrite (IH Ha Hc).
Qed.

(** What the printer writes into one description. *)
Definition printed_meta (m : chttp_web_multipart_part) : meta :=
  Build_meta (part_name m) (default [] (part_filename m)) (default [] (part_content_type m))
    (match part_filename m with Some _ => true | None => false end)
    (match part_content_type m with Some _ => true | None => false end).

Lemma meta_part_printed m : meta_part (printed_meta m) = m.
Proof. by destruct m as [? [?|] [?|]]. Qed.

Section Read.
Context {U : Type}.
Implicit Types p : chttp_web_multipart_parser U.

Lemma read_filename fuel p f :
  forallb plain f = true -> zlen f <= lm_max_filename_bytes (mp_limits p) ->
  disposition_loop (S fuel) p (bytes_of "; filename=" ++ quoted f) true false =
  (p <| mp_part_filename := f |> <| mp_has_filename := true |>, 1).
Proof.
  intros Hf Hn. cbn [disposition_loop].
  change (parameter_name (bytes_of "; filename=" ++ quoted f)) with (Some (bytes_of "filename", quoted f)).
  change (bytes_of "; filename=" ++ quoted f) with (SEMI :: bytes_of " filename=" ++ quoted f). cbv iota beta.
  change (chttp_web_multipart_ieq (bytes_of "filename") (bytes_of "name")) with false.
  change (chttp_web_multipart_ieq (bytes_of "filename") (bytes_of "filename")) with true. cbv iota.
  unfold chttp_web_multipart_copy_parameter. rewrite <- (app_nil_r (quoted f)), read_quoted by done.
  by destruct fuel.
Qed.

Lemma read_name fuel p n tail :
  forallb plain n = true -> n <> [] -> zlen n <= lm_max_name_bytes (mp_limits p) ->
  match tail with [] => True | c :: _ => c = SEMI end ->
  disposition_loop (S fuel) p (bytes_of "; name=" ++ quoted n ++ tail) false false =
  disposition_loop fuel (p <| mp_part_name := n |>) tail true false.
Proof.
  intros Hf Hne Hn Ht. cbn [disposition_loop].
  change (parameter_name (bytes_of "; name=" ++ quoted n ++ tail)) with (Some (bytes_of "name", quoted n ++ tail)).
  change (bytes_of "; name=" ++ quoted n ++ tail) with (SEMI :: bytes_of " name=" ++ quoted n ++ tail). cbv iota beta.
  change (chttp_web_multipart_ieq (bytes_of "name") (bytes_of "name")) with true. cbv iota.
  unfold chttp_web_multipart_copy_parameter. rewrite read_quoted by done.
  rewrite (proj2 (Z.eqb_neq _ _)); [done|]. intros E. by apply zlen_0_inv in E.
Qed.

(** The parts a browser may send. *)
Record part_printable (l : chttp_web_multipart_limits) (m : chttp_web_multipart_part) : Prop := {
  pp_name : forallb plain (part_name m) = true /\ part_name m <> [] /\ zlen (part_name m) <= lm_max_name_bytes l;
  pp_filename : forall f, part_filename m = Some f ->
    forallb plain f = true /\ zlen f <= lm_max_filename_bytes l;
  pp_content_type : forall t, part_content_type m = Some t ->
    chttp_web_multipart_header_value_valid t = true /\ header_value t = t /\ t <> [] /\
    zlen t <= lm_max_content_type_bytes l;
  pp_count : zlen (print_lines m) <= lm_max_header_count l;
  pp_bytes : zlen (print_part m) <= lm_max_header_bytes l;
}.

Definition disposition_value (m : chttp_web_multipart_part) : list Z :=
  bytes_of "form-data" ++ bytes_of "; name=" ++ quoted (part_name m) ++
  match part_filename m with Some f => bytes_of "; filename=" ++ quoted f | None => [] end.

Lemma read_disposition p m :
  part_printable (mp_limits p) m ->
  chttp_web_multipart_parse_disposition (with_meta meta_zero p) (disposition_value m) =
  (with_meta (Build_meta (part_name m) (default [] (part_filename m)) []
     (match part_filename m with Some _ => true | None => false end) false) p, 1).
Proof.
  intros [(Hn1 & Hn2 & Hn3) Hf _ _ _]. unfold chttp_web_multipart_parse_disposition, disposition_value.
  set (tail := match part_filename m with Some f => _ | None => _ end).
  change (chttp_web_multipart_skip_ows (bytes_of "form-data" ++ bytes_of "; name=" ++ quoted (part_name m) ++ tail))
    with (bytes_of "form-data" ++ SEMI :: bytes_of " name=" ++ quoted (part_name m) ++ tail).
  rewrite span_until by done. change (negb _) with false. cbv iota.
  change (SEMI :: bytes_of " name=" ++ quoted (part_name m) ++ tail) with (bytes_of "; name=" ++ quoted (part_name m) ++ tail).
  change (length (bytes_of "; name=" ++ quoted (part_name m) ++ tail)) with
    (S (length (bytes_of " name=" ++ quoted (part_name m) ++ tail))).
  rewrite read_name; [|done..|unfold tail; by destruct (part_filename m)].
  unfold tail. destruct (part_filename m) as [f|].
  - change (length (bytes_of " name=" ++ _)) with (S (length (bytes_of "name=" ++ quoted (part_name m) ++ bytes_of "; filename=" ++ quoted f))).
    destruct (Hf f eq_refl). rewrite read_filename by done. done.
  - by destruct (length _).
Qed.

End Read.

(** ** Reading a printed header block *)

Lemma trim_end_id s c : chttp_web_multipart_ows c = false -> trim_ows_end (s ++ [c]) = s ++ [c].
Proof.
  intros Hc. unfold trim_ows_end, chttp_web_multipart_skip_ows. rewrite reverse_snoc. cbn [span]. rewrite Hc. cbn [snd].
  by rewrite reverse_cons, reverse_involutive.
Qed.

Lemma disposition_value_end m : exists s, disposition_value m = s ++ [QUOTE].
Proof.
  unfold disposition_value, quoted. destruct (part_filename m) as [f|].
  - eexists. rewrite !app_comm_cons, !app_assoc. done.
  - eexists. rewrite app_nil_r, !app_comm_cons, !app_assoc. done.
Qed.

Lemma header_value_space s : header_value (SPACE :: s) = header_value s.
Proof. unfold header_value, chttp_web_multipart_skip_ows. cbn [span]. by destruct (span _ s). Qed.

Lemma disposition_value_trim m : header_value (SPACE :: disposition_value m) = disposition_value m.
Proof.
  unfold header_value. change (chttp_web_multipart_skip_ows (SPACE :: disposition_value m)) with (disposition_value m).
  destruct (disposition_value_end m) as [s ->]. by apply trim_end_id.
Qed.

Lemma valid_app a b :
  chttp_web_multipart_header_value_valid (a ++ b) =
  chttp_web_multipart_header_value_valid a && chttp_web_multipart_header_value_valid b.
Proof. apply forallb_app. Qed.

Lemma valid_quoted s : forallb plain s = true -> chttp_web_multipart_header_value_valid (quoted s) = true.
Proof.
  intros H. unfold quoted. rewrite app_comm_cons, valid_app. apply andb_true_iff. split; [|done].
  change (chttp_web_multipart_header_value_valid (escape s) = true).
  induction s as [|c s IH]; [done|]. cbn in H. apply andb_true_iff in H as [Hc H]. specialize (IH H).
  assert (chttp_web_multipart_header_value_valid [c] = true) as Hv.
  { unfold plain, parameter_control in Hc. cbn. rewrite andb_true_r. bool_prop. apply negb_true_iff.
    rewrite !orb_false_iff. repeat split; try (by apply Z.eqb_neq || apply Z.ltb_ge); apply andb_false_iff; left; by apply Z.ltb_ge. }
  cbn [escape]. destruct (_ || _); cbn in Hv |- *; rewrite andb_true_r in Hv; rewrite Hv; done.
Qed.

Lemma valid_disposition l m : part_printable l m -> chttp_web_multipart_header_value_valid (disposition_value m) = true.
Proof.
  intros [(Hn & _ & _) Hf _ _ _]. unfold disposition_value. rewrite !valid_app, valid_quoted by done.
  destruct (part_filename m) as [f|]; [|done]. rewrite valid_app, valid_quoted by (by apply Hf). done.
Qed.

(** A byte inside a header line. *)
Definition clean (c : Z) : bool := negb ((c =? 0) || (c =? CR) || (c =? LF)).

Lemma valid_clean s : chttp_web_multipart_header_value_valid s = true -> forallb clean s = true.
Proof.
  induction s as [|c s IH]; [done|]. cbn. intros H. apply andb_true_iff in H as [Hc H]. rewrite (IH H), andb_true_r.
  unfold clean. destruct (c =? 0), (c =? CR), (c =? LF); done.
Qed.

Lemma find_line_clean line rest : forallb clean line = true -> find_line_end (line ++ CR :: LF :: rest) = Some (line, rest).
Proof.
  induction line as [|c line IH]; intros H; [done|]. cbn in H. apply andb_true_iff in H as [Hc H].
  cbn [app find_line_end]. unfold clean in Hc. destruct (c =? CR); [by rewrite orb_true_r in Hc|].
  cbn [andb]. by rewrite (IH H).
Qed.

Lemma disposition_line m : print_disposition m = bytes_of "Content-Disposition" ++ COLON :: SPACE :: disposition_value m.
Proof. done. Qed.

Lemma content_type_line t : bytes_of "Content-Type: " ++ t = bytes_of "Content-Type" ++ COLON :: SPACE :: t.
Proof. done. Qed.

Lemma lines_clean l m : part_printable l m -> Forall (fun line => line <> [] /\ forallb clean line = true) (print_lines m).
Proof.
  intros Hm. pose proof (valid_disposition l m Hm) as Hv. apply valid_clean in Hv. unfold print_lines.
  apply Forall_cons_2; [split; [done|]|].
  - rewrite disposition_line, forallb_app. cbn [forallb]. by rewrite Hv.
  - destruct (part_content_type m) as [t|] eqn:E; [|apply Forall_nil_2]. apply Forall_cons_2; [|apply Forall_nil_2].
    split; [done|]. destruct (pp_content_type l m Hm t E) as [Ht _]. apply valid_clean in Ht.
    rewrite content_type_line, forallb_app. cbn [forallb]. by rewrite Ht.
Qed.

Section Lines.
Context {U : Type}.
Implicit Types p : chttp_web_multipart_parser U.

Lemma begin_disposition p m :
  part_printable (mp_limits p) m ->
  begin_line (with_meta meta_zero p) (print_disposition m) false false =
  inl (with_meta (Build_meta (part_name m) (default [] (part_filename m)) []
         (match part_filename m with Some _ => true | None => false end) false) p, true, false).
Proof.
  intros Hm. rewrite disposition_line. unfold begin_line. rewrite span_until by done.
  change (negb (chttp_web_multipart_header_name_valid (bytes_of "Content-Disposition"))) with false. cbv iota zeta.
  rewrite disposition_value_trim, (valid_disposition _ _ Hm). cbn [negb].
  change (chttp_web_multipart_ieq (bytes_of "Content-Disposition") (bytes_of "Content-Disposition")) with true. cbv iota.
  by rewrite read_disposition.
Qed.

Lemma begin_content_type p m m0 t :
  part_printable (mp_limits p) m -> part_content_type m = Some t ->
  begin_line (with_meta m0 p) (bytes_of "Content-Type: " ++ t) true false =
  inl (with_meta (Build_meta (m_name m0) (m_filename m0) t (m_has_filename m0) true) p, true, true).
Proof.
  intros Hm E. destruct (pp_content_type _ m Hm t E) as (Hv & Ht & Hne & Hn).
  rewrite content_type_line. unfold begin_line. rewrite span_until by done.
  change (negb (chttp_web_multipart_header_name_valid (bytes_of "Content-Type"))) with false. cbv iota zeta.
  rewrite header_value_space, Ht, Hv. cbn [negb].
  change (chttp_web_multipart_ieq (bytes_of "Content-Type") (bytes_of "Content-Disposition")) with false.
  change (chttp_web_multipart_ieq (bytes_of "Content-Type") (bytes_of "Content-Type")) with true. cbv iota.
  change (mp_limits (with_meta m0 p)) with (mp_limits p).
  rewrite (proj2 (Z.eqb_neq _ _)), (proj2 (Z.ltb_ge _ _)) by (done || intros E0; by apply zlen_0_inv in E0).
  done.
Qed.

Lemma begin_lines_step fuel p line rest count hd hc :
  line <> [] -> forallb clean line = true -> count < lm_max_header_count (mp_limits p) ->
  begin_lines (S fuel) p (line ++ CR :: LF :: rest) count hd hc =
  match begin_line p line hd hc with
  | inr failure => inr failure
  | inl (p, hd, hc) => begin_lines fuel p rest (count + 1) hd hc
  end.
Proof.
  intros Hne Hc Hn. cbn [begin_lines]. rewrite (proj2 (Z.ltb_ge _ _)).
  - rewrite find_line_clean by done. destruct line; [done|]. by rewrite (proj2 (Z.leb_gt _ _)).
  - rewrite zlen_app, !zlen_cons. pose proof (zlen_nonneg line). pose proof (zlen_nonneg rest). lia.
Qed.

Lemma begin_lines_end fuel p count hc : begin_lines fuel p [CR; LF] count true hc = inl (p, true).
Proof. by destruct fuel. Qed.

Lemma read_part p m :
  part_printable (mp_limits p) m ->
  begin_lines (length (print_part m)) (with_meta meta_zero p) (print_part m) 0 false false =
  inl (with_meta (printed_meta m) p, true).
Proof.
  intros Hm. pose proof (lines_clean _ m Hm) as Hc. pose proof (pp_count _ m Hm) as Hn.
  unfold print_part, print_block, print_lines in *. apply Forall_cons in Hc as [[Hne Hcl] Hc].
  rewrite zlen_cons in Hn. cbn [map concat]. rewrite <- !app_assoc. cbn [app].
  set (lines := match part_content_type m with Some t => [bytes_of "Content-Type: " ++ t] | None => [] end) in *.
  assert (exists k, length (print_disposition m ++ CR :: LF :: concat (map (fun line => line ++ [CR; LF]) lines) ++ [CR; LF]) = S (S k))
    as [k ->] by (by eexists).
  pose proof (zlen_nonneg lines). rewrite begin_lines_step by (done || cbn; lia). rewrite begin_disposition by done.
  unfold printed_meta, lines in *. destruct (part_content_type m) as [t|] eqn:Et; [|by rewrite begin_lines_end].
  cbn [map concat]. rewrite app_nil_r, <- app_assoc. cbn [app]. apply Forall_cons in Hc as [[Hne2 Hcl2] _].
  rewrite begin_lines_step by (done || change (zlen [bytes_of "Content-Type: " ++ t]) with 1 in *; cbn; lia).
  rewrite (begin_content_type p m _ t) by done. by rewrite begin_lines_end.
Qed.

End Lines.

Lemma block_meta_printed l m : part_printable l m -> block_meta l (print_part m) = Some (printed_meta m).
Proof.
  intros Hm. unfold block_meta. set (q := Build_parser _ _ _ _ _ _ _ _ _ _ _ _ _ _ _ _ _ _ _ _).
  change q with (with_meta meta_zero q). by rewrite (read_part q m Hm).
Qed.

(** ** The framing of a printed header block *)

Lemma at_end_inv s : at_end s = true -> exists y, s = y ++ header_end.
Proof.
  unfold at_end. intros H. apply andb_true_iff in H as [_ H]. apply bytes_eqb_eq in H.
  exists (ztake (zlen s - 4) s). by rewrite <- H, ztake_zdrop.
Qed.

Lemma at_end_full s : at_end (s ++ header_end) = true.
Proof.
  unfold at_end. rewrite zlen_app. change (zlen header_end) with 4. pose proof (zlen_nonneg s).
  rewrite (proj2 (Z.leb_le _ _)) by lia. replace (zlen s + 4 - 4) with (zlen s) by lia. by rewrite zdrop_app, bytes_eqb_refl.
Qed.

Lemma at_end_snoc s c : c <> LF -> at_end (s ++ [c]) = false.
Proof.
  intros Hc. destruct (at_end (s ++ [c])) eqn:E; [|done]. apply at_end_inv in E as [y E]. unfold header_end in E.
  change [CR; LF; CR; LF] with ([CR; LF; CR] ++ [LF]) in E. rewrite app_assoc in E. by apply app_inj_tail in E as [_ ->].
Qed.

(** After one line end only. *)
Lemma at_end_line s c : c <> LF -> at_end (s ++ [c] ++ [CR; LF]) = false.
Proof.
  intros Hc. destruct (at_end _) eqn:E; [|done]. apply at_end_inv in E as [y E]. unfold header_end in E.
  change [CR; LF; CR; LF] with ([CR; LF] ++ [CR; LF]) in E. rewrite !app_assoc in E.
  change [CR; LF] with ([CR] ++ [LF]) in E. rewrite !app_assoc in E.
  do 2 apply app_inj_tail in E as [E _]. apply app_inj_tail in E as [_ ->]. done.
Qed.

Lemma goes_on_app l a : forall h b,
  header_goes_on l h (a ++ b) = header_goes_on l h a && header_goes_on l (h ++ a) b.
Proof.
  induction a as [|v a IH]; intros h b; cbn [app header_goes_on]; [by rewrite app_nil_r|].
  rewrite IH, <- app_assoc. cbn [app]. by rewrite andb_assoc.
Qed.

Lemma last_is_snoc c s v : last_is c (s ++ [v]) = (v =? c).
Proof. unfold last_is. by rewrite last_snoc. Qed.

Lemma goes_on_clean l line : forall h,
  forallb clean line = true -> at_end h = false -> last_is CR h = false ->
  zlen h + zlen line <= lm_max_header_bytes l -> header_goes_on l h line = true.
Proof.
  induction line as [|c line IH]; intros h Hl He Hc Hn; [done|]. cbn in Hl. apply andb_true_iff in Hl as [Hv Hl].
  rewrite zlen_cons in Hn. pose proof (zlen_nonneg line). unfold clean in Hv. bool_prop.
  cbn [header_goes_on]. unfold header_byte. rewrite He, Hc.
  rewrite (proj2 (Z.eqb_neq c 0)), (proj2 (Z.eqb_neq c LF)), (proj2 (Z.ltb_lt (zlen h) _)) by (done || lia). cbn [negb andb orb].
  apply IH; [done|by apply at_end_snoc| |].
  - rewrite last_is_snoc. by apply Z.eqb_neq.
  - rewrite zlen_app. change (zlen [c]) with 1. lia.
Qed.

Lemma goes_on_line_end l h :
  at_end h = false -> last_is CR h = false -> zlen h + 2 <= lm_max_header_bytes l ->
  header_goes_on l h [CR; LF] = true.
Proof.
  intros He Hc Hn. cbn [header_goes_on]. unfold header_byte. rewrite He, Hc, at_end_snoc, last_is_snoc by done.
  rewrite zlen_app. change (zlen [CR]) with 1. rewrite !(proj2 (Z.ltb_lt _ _)) by lia. done.
Qed.

Lemma goes_on_lines l lines : forall h,
  Forall (fun line => line <> [] /\ forallb clean line = true) lines ->
  at_end h = false -> last_is CR h = false ->
  zlen h + zlen (print_block lines) <= lm_max_header_bytes l ->
  header_goes_on l h (print_block lines) = true /\
  (lines <> [] -> at_end (h ++ print_block lines) = true).
Proof.
  induction lines as [|line lines IH]; intros h Hl He Hc Hn; unfold print_block in *; cbn [map concat] in *.
  { split; [|done]. by apply goes_on_line_end. }
  apply Forall_cons in Hl as [[Hne Hcl] Hl]. set (tail := concat _) in *. rewrite <- !app_assoc in *.
  rewrite !zlen_app in Hn. change (zlen [CR; LF]) with 2 in Hn. pose proof (zlen_nonneg tail). pose proof (zlen_nonneg h). pose proof (zlen_nonneg line).
  destruct (exists_last Hne) as (pre & c & ->). assert (clean c = true) as Hclean.
  { rewrite forallb_app in Hcl. apply andb_true_iff in Hcl as [_ Hcl]. cbn in Hcl. by rewrite andb_true_r in Hcl. }
  unfold clean in Hclean. bool_prop.
  assert (at_end ((h ++ pre ++ [c]) ++ [CR; LF]) = false) as He2 by (rewrite app_assoc, <- (app_assoc (h ++ pre)); by apply at_end_line).
  destruct (IH ((h ++ pre ++ [c]) ++ [CR; LF])) as [Hgo Hend]; [done|done| | |].
  { change [CR; LF] with ([CR] ++ [LF]). rewrite app_assoc, last_is_snoc. done. }
  { rewrite !zlen_app in *. change (zlen [CR; LF]) with 2. lia. }
  split.
  - rewrite goes_on_app, (goes_on_clean l (pre ++ [c])) by (done || lia). cbn [andb].
    change (CR :: LF :: tail ++ [CR; LF]) with ([CR; LF] ++ tail ++ [CR; LF]). rewrite goes_on_app, Hgo, andb_true_r.
    rewrite !app_assoc. apply goes_on_line_end.
    + by apply at_end_snoc.
    + rewrite last_is_snoc. by apply Z.eqb_neq.
    + rewrite !zlen_app in *. lia.
  - intros _. destruct lines as [|line2 lines].
    + unfold tail. cbn [map concat app]. rewrite !app_assoc.
      change (((h ++ pre) ++ [c]) ++ [CR; LF; CR; LF]) with (((h ++ pre) ++ [c]) ++ header_end). apply at_end_full.
    + specialize (Hend ltac:(done)). rewrite <- Hend. f_equal. by rewrite <- !app_assoc.
Qed.

Lemma block_ok_printed l m : part_printable l m -> block_ok l (print_part m) = true.
Proof.
  intros Hm. pose proof (pp_bytes l m Hm). destruct (goes_on_lines l (print_lines m) []) as [Hgo Hend];
    [by apply (lines_clean l)|done|done|done|]. unfold block_ok, print_part. rewrite Hgo. by apply Hend.
Qed.

(** ** The round trip *)

(** The application takes parts with their data, one after the other. *)
Inductive delivers {U} (cb : chttp_web_multipart_callbacks U) :
    U -> list (chttp_web_multipart_part * list Z) -> U -> Prop :=
  | delivers_nil u : delivers cb u [] u
  | delivers_part u m data parts u1 u2 u3 u4 :
      part_begin cb u m = (u1, SALTS_OK) -> data_call cb u1 data = (u2, SALTS_OK) ->
      part_end cb u2 = (u3, SALTS_OK) -> delivers cb u3 parts u4 ->
      delivers cb u ((m, data) :: parts) u4.

(** A part that a client may send with this boundary, under these limits. *)
Definition part_sendable (l : chttp_web_multipart_limits) (b : list Z)
    (part : chttp_web_multipart_part * list Z) : Prop :=
  part_printable l part.1 /\ marker_free b part.2 /\
  (part_filename part.1 = None -> zlen part.2 <= lm_max_field_bytes l).

Definition print_body (b : list Z) (parts : list (chttp_web_multipart_part * list Z)) : list Z :=
  body_wire b (map (fun part => (print_part part.1, part.2)) parts).

Lemma delivers_told {U} (cb : chttp_web_multipart_callbacks U) l b u parts u' :
  Forall (part_sendable l b) parts -> delivers cb u parts u' ->
  told cb l b u (map (fun part => (print_part part.1, part.2)) parts) u'.
Proof.
  intros Hp Hd. induction Hd as [u|u m data parts u1 u2 u3 u4 H1 H2 H3 _ IH]; [constructor|].
  apply Forall_cons in Hp as [(Hm & Hfree & Hf) Hp]. cbn [map fst snd] in *.
  apply (told_part _ _ _ _ _ _ _ (printed_meta m) u1 u2 u3); try done.
  - by apply block_ok_printed.
  - by apply block_meta_printed.
  - cbn. intros E. apply Hf. by destruct (part_filename m).
  - by rewrite meta_part_printed.
  - by apply IH.
Qed.

(** C18: Parts printed the way browsers print them, with quotes and backslashes in
    names escaped, and cut into pieces anywhere, are accepted, and the application
    is told exactly the names, file names, content types and data that were
    printed. *)
Theorem multipart_roundtrip {U} (cb : chttp_web_multipart_callbacks U) {Hsink : LawfulSink cb}
    content_type limits user p0 e0 b parts pieces u' :
  limits_range limits -> chttp_web_multipart_init cb content_type limits user = (Some p0, e0) ->
  chttp_web_multipart_parse_outer_boundary content_type = Some b ->
  parts <> [] -> zlen parts <= lm_max_parts limits -> Forall (part_sendable limits b) parts ->
  concat pieces = print_body b parts -> zlen (print_body b parts) <= lm_max_total_bytes limits ->
  delivers cb user parts u' ->
  accepts cb p0 pieces u'.
Proof.
  intros Hl Ei Eb Hne Hc Hp Epieces Hlen Hd.
  assert (accepts cb p0 [concat pieces] u') as (p1 & H1 & Hok & Hu).
  { rewrite Epieces. eapply accepts_iff; [done..|].
    exists b, (map (fun part => (print_part part.1, part.2)) parts). split; [done|].
    split; [by destruct parts|]. split; [done|]. split; [by unfold zlen in *; rewrite length_map|].
    by apply delivers_told. }
  exists p1. split; [|done]. apply init_wf in Ei as (Hw & Ha & Hf & _); [|done]. by apply feed_pieces_concat.
Qed.

(** ** An example *)

(** An application that keeps the parts, the newest first. *)
Definition collected : Type := list (chttp_web_multipart_part * list Z).

Definition collector : chttp_web_multipart_callbacks collected :=
  {| mc_size := sizeof_multipart_callbacks;
     part_begin := fun u m => ((m, []) :: u, SALTS_OK);
     part_data := fun u data =>
       match u with (m, old) :: u => ((m, old ++ data) :: u, SALTS_OK) | [] => (u, SALTS_EINVAL) end;
     part_end := fun u => (u, SALTS_OK) |}.

#[export] Instance collector_lawful : LawfulSink collector.
Proof.
  split. intros [|[m old] u] a b u' Ha Hb; cbn; split.
  - done.
  - by intros (? & ? & ?).
  - intros [= <-]. eexists. split; [done|]. cbn. by rewrite <- app_assoc.
  - intros (? & [= <-] & [= <-]). by rewrite <- app_assoc.
Qed.

(** [CHTTP_WEB_MULTIPART_LIMITS_INIT] *)
Definition default_limits : chttp_web_multipart_limits :=
  {| lm_size := sizeof_multipart_limits; lm_max_parts := 128; lm_max_header_count := 16;
     lm_max_header_bytes := 4096; lm_max_name_bytes := 128; lm_max_filename_bytes := 512;
     lm_max_content_type_bytes := 256; lm_max_field_bytes := 64 * 1024;
     lm_max_total_bytes := 16 * 1024 * 1024 |}.

Lemma default_limits_range : limits_range default_limits.
Proof. split; vm_compute; try split; discriminate. Qed.

Definition example_type : list Z := bytes_of "multipart/form-data; boundary=AaB03x".

(** A field whose data looks like the start of a delimiter, and a file with a
    quote in its name. *)
Definition example_parts : list (chttp_web_multipart_part * list Z) :=
  [({| part_name := bytes_of "note"; part_filename := None; part_content_type := None |},
    bytes_of "one" ++ [CR; LF] ++ bytes_of "--AaB03" ++ [CR; CR; LF]);
   ({| part_name := bytes_of "f"; part_filename := Some (bytes_of "a" ++ [QUOTE] ++ bytes_of ".txt");
       part_content_type := Some (bytes_of "text/plain") |}, bytes_of "hello")].

Definition example_parser : chttp_web_multipart_parser collected :=
  Eval vm_compute in
    match (chttp_web_multipart_init collector example_type default_limits []).1 with
    | Some p => p
    | None => Build_parser 0 default_limits [] [] [] [] [] [] 0 0 0 0 CHTTP_WEB_MP_FAILED 0 false true false false false []
    end.

Lemma example_init :
  chttp_web_multipart_init collector example_type default_limits [] =
  (Some example_parser, chttp_web_multipart_error CHTTP_WEB_OK SALTS_OK 0 "").
Proof. vm_compute. reflexivity. Qed.

Definition example_body : list Z := Eval vm_compute in print_body (bytes_of "AaB03x") example_parts.

(** The body in pieces of seven bytes. *)
Fixpoint cut (fuel : nat) (s : list Z) : list (list Z) :=
  match fuel with
  | O => [s]
  | S fuel => take 7 s :: cut fuel (drop 7 s)
  end.

Definition example_pieces : list (list Z) := Eval vm_compute in cut 40 example_body.

Lemma multipart_session_safe_witness :
  exists p, run_calls collector example_parser
    [MpFeed example_body; MpFeed [CR]; MpFinish; MpReset; MpFeed example_body; MpFinish] = Some p /\
    mp_wf collector p /\ buffers_fit p.
Proof.
  exact (multipart_session_safe collector example_type default_limits [] example_parser _ _ default_limits_range example_init).
Defined.

Lemma multipart_fragments_witness :
  feed_pieces collector example_parser example_pieces = feed_pieces collector example_parser [concat example_pieces].
Proof.
  destruct (feed_pieces collector example_parser example_pieces) as [p|] eqn:E; [|vm_compute in E; discriminate].
  symmetry.
  exact (proj1 (multipart_fragments collector example_type default_limits [] example_parser _ example_pieces p
    default_limits_range example_init) E).
Defined.

Lemma example_delivers : delivers collector [] example_parts (reverse example_parts).
Proof. repeat (eapply delivers_part; [reflexivity..|]). apply delivers_nil. Qed.

Lemma free_of_marker b data :
  forallb (fun i => negb (bytes_eqb (take (length (marker b)) (drop i data)) (marker b))) (seq 0 (length data)) = true ->
  marker_free b data.
Proof.
  intros H (x & y & ->). assert (In (length x) (seq 0 (length (x ++ marker b ++ y)))) as Hin.
  { apply in_seq. rewrite !length_app. cbn. lia. }
  apply (proj1 (forallb_forall _ _) H) in Hin. rewrite drop_app_length, take_app_length, bytes_eqb_refl in Hin. done.
Qed.

Lemma example_sendable : Forall (part_sendable default_limits (bytes_of "AaB03x")) example_parts.
Proof.
  assert (forall part, In part example_parts -> part_sendable default_limits (bytes_of "AaB03x") part) as H.
  { intros part [<-|[<-|[]]]; (split; [|split; [apply free_of_marker; vm_compute; reflexivity|]]);
      try (vm_compute; discriminate); split; cbn -[print_lines print_part lm_max_header_count lm_max_header_bytes zlen];
      try (split_and!; vm_compute; done); try (intros ? [= <-]; split_and!; vm_compute; done);
      try (vm_compute; discriminate). }
  apply Forall_forall. intros part Hin. by apply H, list_elem_of_In.
Qed.

Lemma multipart_roundtrip_witness : accepts collector example_parser example_pieces (reverse example_parts).
Proof.
  apply (multipart_roundtrip collector example_type default_limits [] example_parser
    (chttp_web_multipart_error CHTTP_WEB_OK SALTS_OK 0 "") (bytes_of "AaB03x") example_parts).
  - exact default_limits_range.
  - exact example_init.
  - vm_compute. reflexivity.
  - discriminate.
  - vm_compute. discriminate.
  - exact example_sendable.
  - vm_compute. reflexivity.
  - vm_compute. discriminate.
  - exact example_delivers.
Defined.


(** ** Quotes that are not closed *)

(** A value whose last byte is an escaped quote, or the opening quote itself,
    is taken as closed. *)
Example unclosed_quotes_accepted :
  chttp_web_multipart_read_parameter_value (Some 16) (QUOTE :: bytes_of "a" ++ [BACKSLASH; QUOTE]) =
    inl (bytes_of "a" ++ [QUOTE], []) /\
  chttp_web_multipart_read_parameter_value (Some 16) [QUOTE] = inl ([], []) /\
  chttp_web_multipart_read_parameter_value (Some 16) (QUOTE :: bytes_of "a") = inr 0.
Proof. split_and!; reflexivity. Qed.

End MultipartRoundtrip.
