(* ===== verification/WebForm.v ===== *)
(** * Forms

    Model of [app/src/chttp_web_form.c]: parsing of
    [application/x-www-form-urlencoded] bodies into storage of the caller, and
    the lookups in the result.

    Names and values are views into the byte storage, which only grows during
    the parsing; the model keeps the bytes of each view and the number of bytes
    used. *)

From S2P Require Import Prelude Http1Parser Web Multipart.

Module WebForm.
Import Http1Parser Web Multipart.

Definition PLUS : Z := 43.
Definition PERCENT : Z := 37.
Definition AMPERSAND : Z := 38.

Definition sizeof_form_parse_options : Z := 64.

Record chttp_web_form_pair := {
  fp_name : list Z;
  fp_value : list Z;
}.

Record chttp_web_form := {
  fm_pairs : list chttp_web_form_pair;
  fm_decoded_bytes : Z;
}.

Definition form_zero : chttp_web_form := {| fm_pairs := []; fm_decoded_bytes := 0 |}.

(** The storages, which are not null, are the capacities. *)
Record chttp_web_form_parse_options := {
  fo_size : Z;
  fo_max_input_bytes : Z;
  fo_max_pairs : Z;
  fo_max_decoded_bytes : Z;
  fo_pair_capacity : Z;
  fo_byte_capacity : Z;
}.

Definition chttp_web_form_fail (status : chttp_web_status) (native_status : salts_status)
    (offset : Z) (message : String.string) : chttp_web_error :=
  {| we_status := status; we_native_status := native_status; we_offset := offset;
     we_message := bytes_of message |}.
Arguments chttp_web_form_fail _ _ _ message%_string_scope.

Definition chttp_web_hex_value (c : Z) : Z :=
  if (48 <=? c) && (c <=? 57) then c - 48
  else if (97 <=? c) && (c <=? 102) then 10 + (c - 97)
  else if (65 <=? c) && (c <=? 70) then 10 + (c - 65)
  else -1.

Section Parse.
Context (options : chttp_web_form_parse_options).

Definition storage_full (used : Z) : bool :=
  (fo_max_decoded_bytes options <=? used) || (fo_byte_capacity options <=? used).

(** [s] is the input from [i] to the end of the component; the result is the
    bytes used and the view. *)
Fixpoint chttp_web_form_decode_component (i : Z) (s : list Z) (used : Z) (out : list Z) :
    (Z * list Z) + chttp_web_error :=
  match s with
  | [] => inl (used, out)
  | c :: s =>
    if c =? PERCENT then
      match s with
      | h :: l :: s =>
        let high := chttp_web_hex_value h in
        let low := chttp_web_hex_value l in
        if (high <? 0) || (low <? 0) then
          inr (chttp_web_form_fail CHTTP_WEB_FORM SALTS_OK i "form percent escape is invalid")
        else if storage_full used then
          inr (chttp_web_form_fail CHTTP_WEB_CAPACITY SALTS_OK (i + 3)
                 "decoded form bytes exceed configured storage")
        else
          chttp_web_form_decode_component (i + 3) s (used + 1)
            (out ++ [Z.lor (Z.shiftl high 4) low])
      | _ => inr (chttp_web_form_fail CHTTP_WEB_FORM SALTS_OK i "form percent escape is truncated")
      end
    else if storage_full used then
      inr (chttp_web_form_fail CHTTP_WEB_CAPACITY SALTS_OK (i + 1)
             "decoded form bytes exceed configured storage")
    else
      chttp_web_form_decode_component (i + 1) s (used + 1)
        (out ++ [if c =? PLUS then SPACE else c])
  end.

(** The loop over the segments; a round takes at least one byte. *)
Fixpoint form_loop (fuel : nat) (position : Z) (s : list Z) (used : Z)
    (pairs : list chttp_web_form_pair) : chttp_web_form + chttp_web_error :=
  match s, fuel with
  | [], _ | _, O => inl {| fm_pairs := pairs; fm_decoded_bytes := used |}
  | _, S fuel =>
    let '(segment, rest) := span (fun c => negb (c =? AMPERSAND)) s in
    if zlen segment =? 0 then
      inr (chttp_web_form_fail CHTTP_WEB_FORM SALTS_OK position "empty form segment is invalid")
    else if (fo_max_pairs options <=? zlen pairs) || (fo_pair_capacity options <=? zlen pairs) then
      inr (chttp_web_form_fail CHTTP_WEB_CAPACITY SALTS_OK position
             "form pair count exceeds configured storage")
    else
      let '(name, value) := span (fun c => negb (c =? EQUAL)) segment in
      if zlen name =? 0 then
        inr (chttp_web_form_fail CHTTP_WEB_FORM SALTS_OK position "form field name must not be empty")
      else
        match chttp_web_form_decode_component position name used [] with
        | inr error => inr error
        | inl (used, name_view) =>
          let '(begin, value) :=
            match value with
            | _ :: value => (position + zlen name + 1, value)
            | [] => (position + zlen segment, [])
            end in
          match chttp_web_form_decode_component begin value used [] with
          | inr error => inr error
          | inl (used, value_view) =>
            let pairs := pairs ++ [{| fp_name := name_view; fp_value := value_view |}] in
            let end_ := position + zlen segment in
            match rest with
            | [] => inl {| fm_pairs := pairs; fm_decoded_bytes := used |}
            | [_] =>
              inr (chttp_web_form_fail CHTTP_WEB_FORM SALTS_OK end_
                     "trailing form separator is invalid")
            | _ :: rest => form_loop fuel (end_ + 1) rest used pairs
            end
          end
        end
  end.

(** A form that was not parsed is empty. *)
Definition chttp_web_form_parse (data : list Z) : chttp_web_form * chttp_web_error :=
  if fo_size options <? sizeof_form_parse_options then
    (form_zero, chttp_web_form_fail CHTTP_WEB_INVALID_ARGUMENT SALTS_OK 0
                  "form parser arguments are invalid")
  else if fo_max_input_bytes options <? zlen data then
    (form_zero, chttp_web_form_fail CHTTP_WEB_CAPACITY SALTS_OK (zlen data)
                  "form input exceeds configured byte limit")
  else if zlen data =? 0 then (form_zero, chttp_web_form_fail CHTTP_WEB_OK SALTS_OK 0 "")
  else if (fo_max_pairs options =? 0) || (fo_max_decoded_bytes options =? 0) ||
          (fo_pair_capacity options =? 0) || (fo_byte_capacity options =? 0) then
    (form_zero, chttp_web_form_fail CHTTP_WEB_INVALID_ARGUMENT SALTS_OK 0
                  "non-empty form requires bounded caller storage")
  else
    match form_loop (length data) 0 data 0 [] with
    | inr error => (form_zero, error)
    | inl form => (form, chttp_web_form_fail CHTTP_WEB_OK SALTS_OK 0 "")
    end.

End Parse.

Definition chttp_web_form_name_equal (value name : list Z) : bool := bytes_eqb value name.

Fixpoint form_count_loop (pairs : list chttp_web_form_pair) (name : list Z) (result : Z) : Z :=
  match pairs with
  | [] => result
  | p :: pairs =>
    form_count_loop pairs name
      (if chttp_web_form_name_equal (fp_name p) name then result + 1 else result)
  end.

Definition chttp_web_form_count (form : chttp_web_form) (name : list Z) : Z :=
  form_count_loop (fm_pairs form) name 0.

Fixpoint form_get_loop (pairs : list chttp_web_form_pair) (name : list Z) (occurrence seen : Z) :
    option chttp_web_form_pair :=
  match pairs with
  | [] => None
  | p :: pairs =>
    if negb (chttp_web_form_name_equal (fp_name p) name) then form_get_loop pairs name occurrence seen
    else if seen =? occurrence then Some p
    else form_get_loop pairs name occurrence (seen + 1)
  end.

Definition chttp_web_form_get (form : chttp_web_form) (name : list Z) (occurrence : Z) :
    option chttp_web_form_pair :=
  form_get_loop (fm_pairs form) name occurrence 0.

End WebForm.
