(* ===== verification/WebFormTheorems.v ===== *)
(** * Forms are parsed as they are written

    The parser of forms against a reference definition: the input split at the
    ampersands, each segment at its first equals sign, names and values with
    their escapes decoded; and the round trip with an encoder. *)

From S2P Require Import Prelude Http1Parser Web Multipart MultipartTheorems MultipartRoundtrip WebForm.

Module WebFormTheorems.
Import Http1Parser Web Multipart MultipartTheorems MultipartRoundtrip WebForm.

(** ** The reference *)

(** The value of a component, if its escapes are well formed. *)
Fixpoint decoded (s : list Z) : option (list Z) :=
  match s with
  | [] => Some []
  | c :: s =>
    if c =? PERCENT then
      match s with
      | h :: l :: s =>
        if (0 <=? chttp_web_hex_value h) && (0 <=? chttp_web_hex_value l) then
          cons (16 * chttp_web_hex_value h + chttp_web_hex_value l) <$> decoded s
        else None
      | _ => None
      end
    else cons (if c =? PLUS then SPACE else c) <$> decoded s
  end.

(** The pair of a segment. *)
Definition segment_pair (segment : list Z) : option chttp_web_form_pair :=
  let '(name, value) := span (fun c => negb (c =? EQUAL)) segment in
  if zlen name =? 0 then None
  else
    match decoded name, decoded (tail value) with
    | Some name, Some value => Some {| fp_name := name; fp_value := value |}
    | _, _ => None
    end.

(** The segments between the ampersands, at least one. *)
Fixpoint segments (s : list Z) : list (list Z) :=
  match s with
  | [] => [[]]
  | c :: s =>
    if c =? AMPERSAND then [] :: segments s
    else match segments s with [] => [[c]] | segment :: more => (c :: segment) :: more end
  end.

Definition pairs_of (s : list Z) : option (list chttp_web_form_pair) := mapM segment_pair (segments s).

Definition pair_bytes (p : chttp_web_form_pair) : Z := zlen (fp_name p) + zlen (fp_value p).
Definition pairs_bytes (pairs : list chttp_web_form_pair) : Z := foldr (fun p n => pair_bytes p + n) 0 pairs.

(** ** Decoding *)

Lemma hex_value_range c : chttp_web_hex_value c = -1 \/ 0 <= chttp_web_hex_value c < 16.
Proof. unfold chttp_web_hex_value. repeat split_if; lia. Qed.

Section Parse.
Context (options : chttp_web_form_parse_options).

(** The decoded bytes that the storage can hold. *)
Definition byte_limit : Z := fo_max_decoded_bytes options `min` fo_byte_capacity options.
Definition pair_limit : Z := fo_max_pairs options `min` fo_pair_capacity options.

Lemma storage_full_false used : storage_full options used = false <-> used < byte_limit.
Proof. unfold storage_full, byte_limit. rewrite orb_false_iff, !Z.leb_gt. lia. Qed.

Lemma decode_component_iff s : forall i used out used' view,
  chttp_web_form_decode_component options i s used out = inl (used', view) <->
  exists bytes, decoded s = Some bytes /\ view = out ++ bytes /\ used' = used + zlen bytes /\
    (bytes <> [] -> used + zlen bytes <= byte_limit).
Proof.
  remember (length s) as n eqn:Hn. revert s Hn. induction n as [n IH] using lt_wf_ind. intros s -> i used out used' view.
  assert (forall s' i' v, (length s' < length s)%nat ->
    (if storage_full options used then inr (chttp_web_form_fail CHTTP_WEB_CAPACITY SALTS_OK i' "decoded form bytes exceed configured storage")
     else chttp_web_form_decode_component options i' s' (used + 1) (out ++ [v])) = inl (used', view) <->
    exists bytes, cons v <$> decoded s' = Some bytes /\ view = out ++ bytes /\ used' = used + zlen bytes /\
      (bytes <> [] -> used + zlen bytes <= byte_limit)) as step.
  { intros s' i' v Hlt. split_if.
    - split; [done|]. intros (bytes & Hb & _ & _ & Hle). destruct (decoded s') as [b|]; [|done]. injection Hb as <-.
      assert (used < byte_limit); [|by apply storage_full_false in H; congruence].
      specialize (Hle ltac:(done)). rewrite zlen_cons in Hle. pose proof (zlen_nonneg b). lia.
    - apply storage_full_false in Heqb. rewrite (IH (length s') Hlt s' eq_refl). split.
      + intros (b & Hd & -> & -> & Hle). exists (v :: b). rewrite Hd, zlen_cons, <- app_assoc. split_and!; try done; [lia|].
        intros _. destruct b as [|x b]; [rewrite zlen_nil in *; lia|]. specialize (Hle ltac:(done)). lia.
      + intros (bytes & Hb & -> & -> & Hle). destruct (decoded s') as [b|]; [|done]. injection Hb as <-.
        exists b. rewrite zlen_cons, <- app_assoc in *. split_and!; try done; [lia|]. intros _. specialize (Hle ltac:(done)). lia. }
  destruct s as [|c s]; [|cbn [chttp_web_form_decode_component decoded]].
  { cbn. split.
    - intros [= <- <-]. exists []. rewrite app_nil_r, zlen_nil. split_and!; try done. lia.
    - intros (? & [= <-] & -> & -> & _). rewrite app_nil_r, zlen_nil. by rewrite Z.add_0_r. }
  destruct (c =? PERCENT); [|by apply step; cbn; lia].
  destruct s as [|h [|l s]]; try (split; [done|by intros (? & ? & _)]). cbv zeta.
  destruct (hex_value_range h) as [Hh|Hh], (hex_value_range l) as [Hl|Hl];
    try (rewrite ?Hh, ?Hl, ?orb_true_r, ?andb_false_r; cbn; split; [done|by intros (? & ? & _)]).
  rewrite !(proj2 (Z.ltb_ge _ _)), !(proj2 (Z.leb_le _ _)) by lia. cbn [orb andb].
  assert (Z.lor (Z.shiftl (chttp_web_hex_value h) 4) (chttp_web_hex_value l) =
    16 * chttp_web_hex_value h + chttp_web_hex_value l) as ->.
  { rewrite lor_shiftl_add by lia. lia. }
  apply step. cbn; lia.
Qed.

Lemma decoded_nonempty s bytes : decoded s = Some bytes -> s <> [] -> bytes <> [].
Proof.
  destruct s as [|c s]; [done|]. cbn [decoded]. intros H _ ->. destruct (c =? PERCENT).
  - destruct s as [|h [|l s]]; try done. destruct (_ && _); [|done]. by destruct (decoded s).
  - by destruct (decoded s).
Qed.

Lemma segments_span s :
  let '(segment, rest) := span (fun c => negb (c =? AMPERSAND)) s in
  segments s = segment :: match rest with [] => [] | _ :: rest => segments rest end.
Proof.
  induction s as [|c s IH]; [done|]. cbn [span segments]. destruct (c =? AMPERSAND); [done|]. cbn [negb].
  destruct (span _ s) as [a b]. by rewrite IH.
Qed.

(** What a round stores for its segment. *)
Definition round_pair (position : Z) (segment : list Z) (used : Z) : (Z * chttp_web_form_pair) + chttp_web_error :=
  let '(name, value) := span (fun c => negb (c =? EQUAL)) segment in
  if zlen name =? 0 then
    inr (chttp_web_form_fail CHTTP_WEB_FORM SALTS_OK position "form field name must not be empty")
  else
    match chttp_web_form_decode_component options position name used [] with
    | inr error => inr error
    | inl (used, name_view) =>
      let '(begin, value) :=
        match value with
        | _ :: value => (position + zlen name + 1, value)
        | [] => (position + zlen segment, [])
        end in
      match chttp_web_form_decode_component options begin value used [] with
      | inr error => inr error
      | inl (used, value_view) => inl (used, {| fp_name := name_view; fp_value := value_view |})
      end
    end.

Lemma segment_pair_bytes segment p : segment_pair segment = Some p -> 0 < pair_bytes p.
Proof.
  unfold segment_pair, pair_bytes. destruct (span _ segment) as [name value]. split_if; [done|].
  destruct (decoded name) as [n|] eqn:En; [|done]. destruct (decoded (tail value)) as [v|]; [|done]. intros [= <-]. cbn.
  pose proof (zlen_nonneg v). destruct n as [|x n]; [|rewrite zlen_cons; pose proof (zlen_nonneg n); lia].
  exfalso. eapply decoded_nonempty; [exact En| |done]. intros ->. done.
Qed.

Lemma pairs_bytes_cons p pairs : pairs_bytes (p :: pairs) = pair_bytes p + pairs_bytes pairs.
Proof. done. Qed.

Lemma segments_bytes ps : forall l, mapM segment_pair ps = Some l -> 0 <= pairs_bytes l.
Proof.
  induction ps as [|q ps IH]; cbn; [by intros ? [= <-]|]. destruct (segment_pair q) as [y|] eqn:Eq; [|done]. cbn.
  destruct (mapM _ ps) as [m|]; [|done]. intros l [= <-]. apply segment_pair_bytes in Eq. specialize (IH m eq_refl).
  rewrite pairs_bytes_cons. lia.
Qed.

Lemma round_pair_iff position segment used used' p : used <= byte_limit ->
  round_pair position segment used = inl (used', p) <->
  segment_pair segment = Some p /\ used' = used + pair_bytes p /\ used + pair_bytes p <= byte_limit.
Proof.
  intros Hu. unfold round_pair, segment_pair. destruct (span _ segment) as [name value].
  split_if; [split; [done|by intros [? _]]|]. assert (name <> []) as Hn by (by intros ->).
  set (begin := match value with _ :: _ => _ | [] => _ end).
  replace begin with (begin.1, tail value) by (subst begin; by destruct value). clearbody begin. cbv beta iota. split.
  - destruct (chttp_web_form_decode_component _ _ name _ _) as [[u1 nv]|] eqn:E1; [|done].
    apply decode_component_iff in E1 as (n & Hd & -> & -> & Hle). rewrite Hd.
    destruct (chttp_web_form_decode_component _ _ (tail value) _ _) as [[u2 vv]|] eqn:E2; [|done].
    apply decode_component_iff in E2 as (v & Hd' & -> & -> & Hle'). rewrite Hd'. intros [= <- <-].
    unfold pair_bytes. cbn. split_and!; [done|lia|]. specialize (Hle (decoded_nonempty _ _ Hd Hn)).
    destruct v; [rewrite zlen_nil; lia|]. specialize (Hle' ltac:(done)). lia.
  - destruct (decoded name) as [n|] eqn:En; [|by intros [? _]]. destruct (decoded (tail value)) as [v|] eqn:Ev; [|by intros [? _]].
    intros ([= <-] & -> & Hle). unfold pair_bytes in *. cbn in *. pose proof (zlen_nonneg n). pose proof (zlen_nonneg v).
    rewrite (proj2 (decode_component_iff name position used [] (used + zlen n) n)) by (exists n; split_and!; try done; lia).
    rewrite (proj2 (decode_component_iff (tail value) begin.1 (used + zlen n) [] (used + zlen n + zlen v) v))
      by (exists v; split_and!; try done; lia).
    by rewrite Z.add_assoc.
Qed.

Lemma form_loop_round fuel position s used pairs : s <> [] ->
  form_loop options (S fuel) position s used pairs =
  let '(segment, rest) := span (fun c => negb (c =? AMPERSAND)) s in
  if zlen segment =? 0 then
    inr (chttp_web_form_fail CHTTP_WEB_FORM SALTS_OK position "empty form segment is invalid")
  else if (fo_max_pairs options <=? zlen pairs) || (fo_pair_capacity options <=? zlen pairs) then
    inr (chttp_web_form_fail CHTTP_WEB_CAPACITY SALTS_OK position "form pair count exceeds configured storage")
  else
    match round_pair position segment used with
    | inr error => inr error
    | inl (used, p) =>
      let end_ := position + zlen segment in
      match rest with
      | [] => inl {| fm_pairs := pairs ++ [p]; fm_decoded_bytes := used |}
      | [_] => inr (chttp_web_form_fail CHTTP_WEB_FORM SALTS_OK end_ "trailing form separator is invalid")
      | _ :: rest => form_loop options fuel (end_ + 1) rest used (pairs ++ [p])
      end
    end.
Proof.
  destruct s as [|c s]; [done|]. intros _. cbn [form_loop]. destruct (span _ (c :: s)) as [segment rest].
  split_if; [done|]. split_if; [done|]. unfold round_pair. destruct (span _ segment) as [name value]. split_if; [done|].
  destruct (chttp_web_form_decode_component _ _ name _ _) as [[u nv]|]; [|done].
  destruct (match value with [] => _ | _ => _ end) as [b v]. by destruct (chttp_web_form_decode_component _ _ v _ _) as [[? ?]|].
Qed.

Lemma decode_component_error s : forall i used out error,
  chttp_web_form_decode_component options i s used out = inr error -> we_status error <> CHTTP_WEB_OK.
Proof.
  remember (length s) as n eqn:Hn. revert s Hn. induction n as [n IH] using lt_wf_ind. intros s -> i used out error.
  destruct s as [|c s]; [done|]. cbn [chttp_web_form_decode_component]. split_if.
  - destruct s as [|h [|l s]]; try (by intros [= <-]). cbv zeta. split_if; [by intros [= <-]|]. split_if; [by intros [= <-]|].
    eapply IH; [|done]. cbn; lia.
  - split_if; [by intros [= <-]|]. eapply IH; [|done]. cbn; lia.
Qed.

Lemma form_loop_error fuel : forall position s used pairs error,
  form_loop options fuel position s used pairs = inr error -> we_status error <> CHTTP_WEB_OK.
Proof.
  induction fuel as [|fuel IH]; intros position s used pairs error; [by destruct s|].
  destruct s as [|c s]; [done|]. rewrite form_loop_round by done. destruct (span _ (c :: s)) as [segment rest].
  split_if; [by intros [= <-]|]. split_if; [by intros [= <-]|].
  destruct (round_pair position segment used) as [[used' p]|e] eqn:E.
  - destruct rest as [|a [|b rest]]; [done|by intros [= <-]|apply IH].
  - intros [= <-]. revert E. unfold round_pair. destruct (span _ segment) as [name value]. split_if; [by intros [= <-]|].
    destruct (chttp_web_form_decode_component _ _ name _ _) as [[u nv]|] eqn:E1; [|intros [= <-]; by eapply decode_component_error].
    destruct (match value with [] => _ | _ => _ end) as [b v].
    destruct (chttp_web_form_decode_component _ _ v _ _) as [[? ?]|] eqn:E2; [done|intros [= <-]; by eapply decode_component_error].
Qed.

Lemma form_loop_iff fuel : forall position s used pairs form,
  s <> [] -> (length s <= fuel)%nat -> used <= byte_limit ->
  form_loop options fuel position s used pairs = inl form <->
  exists more, pairs_of s = Some more /\
    form = {| fm_pairs := pairs ++ more; fm_decoded_bytes := used + pairs_bytes more |} /\
    zlen pairs + zlen more <= pair_limit /\ used + pairs_bytes more <= byte_limit.
Proof.
  induction fuel as [|fuel IH]; intros position s used pairs form Hs Hfuel Hu; [destruct s; [done|cbn in Hfuel; lia]|].
  rewrite form_loop_round by done. unfold pairs_of. pose proof (segments_span s) as Hseg.
  pose proof (span_app (fun c => negb (c =? AMPERSAND)) s) as Happ. destruct (span _ s) as [segment rest].
  cbn [fst snd] in Happ. subst s. rewrite Hseg. cbn [mapM]. rewrite length_app in Hfuel.
  assert (segment = [] -> segment_pair segment = None) as Hnil by (by intros ->).
  split_if. { apply zlen_0_inv in Heqb as ->. split; [done|]. by intros (? & ? & _). }
  split_if.
  { split; [done|]. intros (more & Hm & _ & Hc & _). destruct (segment_pair segment); [|done]. cbn in Hm.
    destruct (mapM _ _) as [l|]; [|done]. injection Hm as <-. rewrite zlen_cons in Hc. pose proof (zlen_nonneg l). unfold pair_limit in Hc. lia. }
  assert (zlen pairs < pair_limit) by (unfold pair_limit; lia).
  destruct (round_pair position segment used) as [[used' p]|error] eqn:Ep.
  - apply round_pair_iff in Ep as (Hp & -> & Hb); [|done]. rewrite Hp. cbn [mbind option_bind].
    destruct rest as [|a [|b rest]].
    + cbn [mapM mret option_ret mbind option_bind]. split.
      * intros [= <-]. exists [p]. change (zlen [p]) with 1. change (pairs_bytes [p]) with (pair_bytes p + 0).
        split_and!; try done; try lia. f_equal. lia.
      * intros (? & [= <-] & -> & _). change (pairs_bytes [p]) with (pair_bytes p + 0). do 2 f_equal. lia.
    + cbn. split; [done|]. by intros (? & ? & _).
    + rewrite IH; [|done|cbn in *; lia|done]. unfold pairs_of. split.
      * intros (more & -> & -> & Hc & Hl). exists (p :: more).
        rewrite zlen_app, zlen_cons, zlen_nil in Hc. rewrite zlen_cons, <- app_assoc, pairs_bytes_cons.
        split_and!; try done; try lia. cbn. f_equal. lia.
      * intros (more & Hm & -> & Hc & Hl). destruct (mapM _ _) as [l|]; [|done]. injection Hm as <-. exists l.
        rewrite pairs_bytes_cons, zlen_cons in *. rewrite zlen_app, zlen_cons, zlen_nil, <- app_assoc. cbn [app].
        split_and!; try done; try lia. f_equal. lia.
  - split; [done|]. intros (more & Hm & _ & _ & Hl). destruct (segment_pair segment) as [p|] eqn:Hp; [|done]. cbn in Hm.
    destruct (mapM _ _) as [l|] eqn:E; [|done]. apply segments_bytes in E.
    injection Hm as <-. rewrite pairs_bytes_cons in Hl. assert (used + pair_bytes p <= byte_limit) as Hle by lia.
    pose proof (proj2 (round_pair_iff position segment used _ p Hu) (conj Hp (conj eq_refl Hle))). congruence.
Qed.

(** The pairs of a body; an empty body has none. *)
Definition body_pairs (data : list Z) : option (list chttp_web_form_pair) :=
  match data with [] => Some [] | _ => pairs_of data end.

(** Numbers of type [size_t]. *)
Definition options_ok : Prop :=
  0 <= fo_max_pairs options /\ 0 <= fo_max_decoded_bytes options /\
  0 <= fo_pair_capacity options /\ 0 <= fo_byte_capacity options.

Definition form_fits (data : list Z) (pairs : list chttp_web_form_pair) : Prop :=
  sizeof_form_parse_options <= fo_size options /\ zlen data <= fo_max_input_bytes options /\
  zlen pairs <= pair_limit /\ pairs_bytes pairs <= byte_limit.

Lemma pairs_of_some s more : pairs_of s = Some more -> 0 < zlen more /\ 0 < pairs_bytes more.
Proof.
  unfold pairs_of. pose proof (segments_span s) as Hseg. destruct (span _ s) as [segment rest]. rewrite Hseg. cbn [mapM].
  destruct (segment_pair segment) as [p|] eqn:Ep; [|done]. cbn. apply segment_pair_bytes in Ep.
  destruct (mapM _ _) as [l|] eqn:El; [|done]. intros [= <-]. apply segments_bytes in El. rewrite zlen_cons, pairs_bytes_cons. pose proof (zlen_nonneg l). lia.
Qed.

Lemma form_parse_iff data form : options_ok ->
  (exists error, chttp_web_form_parse options data = (form, error) /\ we_status error = CHTTP_WEB_OK) <->
  exists pairs, body_pairs data = Some pairs /\ form_fits data pairs /\
    form = {| fm_pairs := pairs; fm_decoded_bytes := pairs_bytes pairs |}.
Proof.
  intros (O1 & O2 & O3 & O4). unfold chttp_web_form_parse, form_fits.
  split_if. { split; [by intros (? & [= <- <-] & ?)|]. intros (? & _ & (? & _) & _). lia. }
  split_if. { split; [by intros (? & [= <- <-] & ?)|]. intros (? & _ & (_ & ? & _) & _). lia. }
  split_if.
  { apply zlen_0_inv in Heqb1 as ->. cbn [body_pairs]. split.
    - intros (? & [= <- <-] & _). exists []. unfold pair_limit, byte_limit, zlen, pairs_bytes in *. cbn in *. split_and!; try done; lia.
    - intros (? & [= <-] & _ & ->). eauto. }
  assert (data <> []) as Hne by (by intros ->). assert (body_pairs data = pairs_of data) as -> by (by destruct data).
  split_if.
  { split; [by intros (? & [= <- <-] & ?)|]. intros (more & Hm & (_ & _ & Hc & Hb) & _).
    apply pairs_of_some in Hm. unfold pair_limit, byte_limit in *. rewrite !orb_true_iff, !Z.eqb_eq in Heqb2. lia. }
  assert (0 <= byte_limit) as Hb by (unfold byte_limit; lia).
  destruct (form_loop options (length data) 0 data 0 []) as [f|error] eqn:E.
  - apply form_loop_iff in E as (more & -> & -> & Hc & Hl); [|done..]. cbn in *. rewrite zlen_nil in Hc. split.
    + intros (? & [= <- <-] & _). exists more. split_and!; try done; lia.
    + intros (? & [= <-] & _ & ->). eauto.
  - split.
    + intros (? & [= <- ->] & Hs). exfalso. by eapply form_loop_error.
    + intros (more & Hm & (_ & _ & Hc & Hl) & ->).
      assert (form_loop options (length data) 0 data 0 [] = inl {| fm_pairs := more; fm_decoded_bytes := pairs_bytes more |}) as E2.
      { apply form_loop_iff; [done..|]. exists more. change (zlen []) with 0. split_and!; try done; lia. }
      congruence.
Qed.

End Parse.

(** ** Round trip *)

(** The encoding of the URL standard: letters, digits and four marks as they
    are, the space as a plus sign, every other byte as an escape. *)
Definition hex_upper (d : Z) : Z := if d <? 10 then 48 + d else 55 + d.

Definition encode_byte (c : Z) : list Z :=
  if alphanumeric c || one_of (bytes_of "*-._") c then [c]
  else if c =? SPACE then [PLUS]
  else [PERCENT; hex_upper (c / 16); hex_upper (c mod 16)].

Definition encode_component (s : list Z) : list Z := concat (map encode_byte s).

Definition encode_pair (p : chttp_web_form_pair) : list Z :=
  encode_component (fp_name p) ++ EQUAL :: encode_component (fp_value p).

Fixpoint encode_form (pairs : list chttp_web_form_pair) : list Z :=
  match pairs with
  | [] => []
  | [p] => encode_pair p
  | p :: pairs => encode_pair p ++ AMPERSAND :: encode_form pairs
  end.

Definition encodable (p : chttp_web_form_pair) : Prop :=
  fp_name p <> [] /\ is_bytes (fp_name p) /\ is_bytes (fp_value p).

(** A byte that separates nothing. *)
Definition plain (c : Z) : bool := negb (c =? AMPERSAND) && negb (c =? EQUAL).

Lemma byte_checks (test : Z -> bool) : forallb test (map Z.of_nat (seq 0 256)) = true ->
  forall c, is_u8 c -> test c = true.
Proof.
  intros H c Hc. rewrite forallb_forall in H. apply H, in_map_iff. exists (Z.to_nat c). unfold is_u8 in Hc.
  split; [lia|]. apply in_seq. lia.
Qed.

Lemma encode_byte_plain c : is_u8 c -> forallb plain (encode_byte c) = true.
Proof. by apply (byte_checks (fun c => forallb plain (encode_byte c))); vm_compute. Qed.

Lemma encode_byte_decoded c rest : is_u8 c -> decoded (encode_byte c ++ rest) = cons c <$> decoded rest.
Proof.
  intros Hc.
  assert (match encode_byte c with
    | [a] => negb (a =? PERCENT) && ((if a =? PLUS then SPACE else a) =? c)
    | [a; h; l] => (a =? PERCENT) && (0 <=? chttp_web_hex_value h) && (0 <=? chttp_web_hex_value l) &&
                   (16 * chttp_web_hex_value h + chttp_web_hex_value l =? c)
    | _ => false end = true) as H.
  { revert c Hc. apply byte_checks. by vm_compute. }
  destruct (encode_byte c) as [|a [|h [|l [|]]]]; try done; cbn [app decoded]; bool_prop.
  - rewrite (proj2 (Z.eqb_neq a PERCENT)) by done. by rewrite H0.
  - subst. rewrite Z.eqb_refl, !(proj2 (Z.leb_le 0 _)) by done. done.
Qed.

Lemma encode_component_decoded s : is_bytes s -> decoded (encode_component s) = Some s.
Proof.
  induction s as [|c s IH]; [done|]. intros [Hc Hs]%is_bytes_cons. unfold encode_component. cbn [map concat].
  rewrite encode_byte_decoded by done. unfold encode_component in IH. by rewrite IH.
Qed.

Lemma encode_component_plain s : is_bytes s -> forallb plain (encode_component s) = true.
Proof.
  induction s as [|c s IH]; [done|]. intros [Hc Hs]%is_bytes_cons. unfold encode_component. cbn [map concat].
  rewrite forallb_app, encode_byte_plain by done. by apply IH.
Qed.

Lemma encode_component_nonempty s : s <> [] -> encode_component s <> [].
Proof.
  destruct s as [|c s]; [done|]. intros _. unfold encode_component. cbn [map concat]. unfold encode_byte.
  repeat split_if; done.
Qed.

Lemma encode_pair_segment p : encodable p -> segment_pair (encode_pair p) = Some p.
Proof.
  intros (Hne & Hn & Hv). unfold segment_pair, encode_pair.
  rewrite span_until; [|apply forallb_forall; intros x Hx|done].
  2: { pose proof (encode_component_plain _ Hn) as H. rewrite forallb_forall in H. apply H in Hx. by apply andb_true_iff in Hx as [_ ?]. }
  split_if. { apply zlen_0_inv in Heqb. by apply encode_component_nonempty in Heqb. }
  cbn [tail]. rewrite !encode_component_decoded by done. by destruct p.
Qed.

Lemma encode_pair_no_ampersand p : encodable p -> forallb (fun c => negb (c =? AMPERSAND)) (encode_pair p) = true.
Proof.
  intros (_ & Hn & Hv). apply forallb_forall. intros x [Hx|[<-|Hx]]%in_app_or; [|done|];
    [pose proof (encode_component_plain _ Hn) as H|pose proof (encode_component_plain _ Hv) as H];
    rewrite forallb_forall in H; apply H in Hx; by apply andb_true_iff in Hx as [? _].
Qed.

Lemma span_everything test s : forallb test s = true -> span test s = (s, []).
Proof. induction s as [|c s IH]; [done|]. cbn. intros [-> H]%andb_true_iff. by rewrite IH. Qed.

Lemma encode_form_pairs pairs : pairs <> [] -> Forall encodable pairs -> pairs_of (encode_form pairs) = Some pairs.
Proof.
  intros Hne H. unfold pairs_of. induction H as [|p pairs Hp H IH]; [done|].
  destruct pairs as [|q pairs].
  - cbn [encode_form]. pose proof (segments_span (encode_pair p)) as Hs. rewrite span_everything in Hs by by apply encode_pair_no_ampersand.
    rewrite Hs. cbn. by rewrite encode_pair_segment.
  - change (encode_form (p :: q :: pairs)) with (encode_pair p ++ AMPERSAND :: encode_form (q :: pairs)).
    pose proof (segments_span (encode_pair p ++ AMPERSAND :: encode_form (q :: pairs))) as Hs.
    rewrite span_until in Hs by first [by apply encode_pair_no_ampersand|done]. rewrite Hs. cbn [mapM].
    rewrite encode_pair_segment by done. cbn [mbind option_bind]. by rewrite IH.
Qed.

Lemma body_pairs_encode pairs : Forall encodable pairs -> body_pairs (encode_form pairs) = Some pairs.
Proof.
  intros H. destruct pairs as [|p pairs]; [done|]. pose proof (encode_form_pairs (p :: pairs) ltac:(done) H) as E.
  unfold body_pairs. destruct (encode_form (p :: pairs)) eqn:Ef; [|done]. discriminate E.
Qed.

(** ** Theorems *)

(** A form is parsed successfully exactly when it fits the limits and every
    segment between ampersands has a name, which ends at the first equals sign,
    and well-formed escapes; the result is the decoded pairs in order, with the
    number of their bytes. *)
Theorem form_parse_correct options data form : options_ok options ->
  (exists error, chttp_web_form_parse options data = (form, error) /\ we_status error = CHTTP_WEB_OK) <->
  exists pairs, body_pairs data = Some pairs /\ form_fits options data pairs /\
    form = {| fm_pairs := pairs; fm_decoded_bytes := pairs_bytes pairs |}.
Proof. apply form_parse_iff. Qed.

(** Pairs with names that are not empty, encoded as browsers encode them, are
    parsed back to the same pairs when they fit the storage. *)
Theorem form_roundtrip options pairs : options_ok options -> Forall encodable pairs ->
  form_fits options (encode_form pairs) pairs ->
  exists error, we_status error = CHTTP_WEB_OK /\
    chttp_web_form_parse options (encode_form pairs) =
    ({| fm_pairs := pairs; fm_decoded_bytes := pairs_bytes pairs |}, error).
Proof.
  intros Ho He Hf. edestruct (form_parse_iff options (encode_form pairs)) as [_ H]; [done|].
  destruct H as (error & H & Hs); [|by exists error]. exists pairs. split_and!; [|done|done]. by apply body_pairs_encode.
Qed.

(** The pairs with a name, in order. *)
Definition named (form : chttp_web_form) (name : list Z) : list chttp_web_form_pair :=
  filter (fun p => fp_name p = name) (fm_pairs form).

Lemma form_count_loop_spec name pairs : forall result,
  form_count_loop pairs name result = result + zlen (filter (fun p => fp_name p = name) pairs).
Proof.
  induction pairs as [|p pairs IH]; intros result; cbn [form_count_loop]; [rewrite filter_nil, zlen_nil; lia|].
  rewrite IH, filter_cons. unfold chttp_web_form_name_equal, bytes_eqb.
  destruct (decide (fp_name p = name)); [rewrite bool_decide_true, zlen_cons by done; lia|by rewrite bool_decide_false].
Qed.

Lemma form_get_loop_spec name pairs : forall occurrence seen, 0 <= seen <= occurrence ->
  form_get_loop pairs name occurrence seen =
  filter (fun p => fp_name p = name) pairs !! Z.to_nat (occurrence - seen).
Proof.
  induction pairs as [|p pairs IH]; intros occurrence seen Hs; cbn [form_get_loop]; [done|].
  rewrite filter_cons. unfold chttp_web_form_name_equal, bytes_eqb.
  destruct (decide (fp_name p = name)); [rewrite bool_decide_true by done|rewrite bool_decide_false by done; by apply IH].
  cbn [negb]. split_if; [subst; by rewrite Z.sub_diag|]. rewrite IH by lia.
  replace (Z.to_nat (occurrence - seen)) with (S (Z.to_nat (occurrence - (seen + 1)))) by lia. done.
Qed.

(** The count of a name is the number of pairs with that name, and the lookup of
    an occurrence gives the pair of that rank among them, or nothing past their
    number. *)
Theorem form_lookup_correct form name occurrence : 0 <= occurrence ->
  chttp_web_form_count form name = zlen (named form name) /\
  chttp_web_form_get form name occurrence = named form name !! Z.to_nat occurrence /\
  (is_Some (chttp_web_form_get form name occurrence) <-> occurrence < chttp_web_form_count form name).
Proof.
  intros Ho. unfold chttp_web_form_count, chttp_web_form_get, named. rewrite form_count_loop_spec, form_get_loop_spec by lia.
  rewrite Z.sub_0_r. split_and!; [done..|]. rewrite lookup_lt_is_Some. unfold zlen. lia.
Qed.

(** ** Instances *)

Definition form_example_options : chttp_web_form_parse_options :=
  {| fo_size := 64; fo_max_input_bytes := 64; fo_max_pairs := 4; fo_max_decoded_bytes := 32;
     fo_pair_capacity := 2; fo_byte_capacity := 20 |}.

Definition form_example : list chttp_web_form_pair :=
  [{| fp_name := bytes_of "q"; fp_value := bytes_of "a b&c=d" |};
   {| fp_name := bytes_of "q"; fp_value := bytes_of "100%" |}].

Lemma form_example_fits : form_fits form_example_options (encode_form form_example) form_example.
Proof. unfold form_fits. vm_compute. split_and!; discriminate. Defined.

Lemma form_parse_correct_witness :
  exists form error, chttp_web_form_parse form_example_options (bytes_of "q=a+b%26c%3Dd&q=100%25") = (form, error) /\
    we_status error = CHTTP_WEB_OK /\ fm_pairs form = form_example.
Proof.
  destruct (form_parse_correct form_example_options (bytes_of "q=a+b%26c%3Dd&q=100%25")
    {| fm_pairs := form_example; fm_decoded_bytes := pairs_bytes form_example |}) as [_ H].
  - unfold options_ok. cbn. lia.
  - destruct H as (error & H & Hs); [|eauto]. exists form_example. split_and!; [vm_compute; done|exact form_example_fits|done].
Defined.

Lemma form_roundtrip_witness : exists error, we_status error = CHTTP_WEB_OK /\
  chttp_web_form_parse form_example_options (encode_form form_example) =
  ({| fm_pairs := form_example; fm_decoded_bytes := pairs_bytes form_example |}, error).
Proof.
  apply form_roundtrip.
  - unfold options_ok. cbn. lia.
  - repeat constructor; vm_compute; try discriminate; intros [=].
  - exact form_example_fits.
Defined.

Lemma form_lookup_correct_witness :
  is_Some (chttp_web_form_get {| fm_pairs := form_example; fm_decoded_bytes := 13 |} (bytes_of "q") 1).
Proof.
  apply (form_lookup_correct {| fm_pairs := form_example; fm_decoded_bytes := 13 |} (bytes_of "q") 1); [lia|].
  vm_compute. reflexivity.
Defined.

End WebFormTheorems.
