(* ===== verification/WebSession.v ===== *)
(** * Tokens and messages of a session

    Model of [app/src/chttp_web_session.c]: the token that protects a session
    against forged requests, and the queue of messages for the next page.
    Both are entries of the session of the request.

    What the layer asks of a session is the class [SessionOps]; the sessions of
    the server are one instance.  A session that a request does not have is
    [None].  The random bytes and the comparison in constant time come from the
    cryptographic library and are parameters. *)

From S2P Require Import Prelude Decimal Router Http1Parser Session Web Multipart WebForm.

Module WebSession.
Import Decimal Router Http1Parser Session Web Multipart WebForm.

Definition CHTTP_WEB_CSRF_RANDOM_BYTES : Z := 32.
Definition CHTTP_WEB_CSRF_TOKEN_BYTES : Z := 64.
Definition CHTTP_WEB_FLASH_HARD_MAX_MESSAGES : Z := 16.
Definition CHTTP_WEB_FLASH_HARD_MAX_SERIALIZED_BYTES : Z := 1024.
Definition CHTTP_WEB_FLASH_VERSION_PREFIX_BYTES : Z := 2.

Definition CHTTP_WEB_CSRF_FORM_FIELD : list Z := bytes_of "_csrf".
Definition CHTTP_WEB_CSRF_HEADER : list Z := bytes_of "X-CSRF-Token".
Definition CHTTP_WEB_CSRF_SESSION_KEY : list Z := bytes_of "__chttp_web_csrf_v1".
Definition CHTTP_WEB_FLASH_SESSION_KEY : list Z := bytes_of "__chttp_web_flash_v1".
Definition CHTTP_WEB_FLASH_VERSION_PREFIX : list Z := bytes_of "1;".

(** The sizes of the structures with eight-byte pointers and sizes. *)
Definition sizeof_flash_config : Z := 40.
Definition sizeof_flash_buffer : Z := 40.

(** ** What the layer uses *)

Class SessionOps (S : Type) := {
  session_get : S -> list Z -> option (list Z);
  session_set : S -> list Z -> list Z -> S * salts_status;
  session_remove : S -> list Z -> S * salts_status;
  session_regenerate : S -> S * salts_status;
  session_invalidate : S -> S * salts_status;
}.

(** [cmeta_crypto_equal] on two strings of the same size. *)
Class CryptoEqual := cmeta_crypto_equal : list Z -> list Z -> salts_status * bool.

(** What the layer reads of a request besides its session. *)
Record web_request := {
  wq_method : Z;
  wq_target : list Z;
  wq_headers : list (list Z * list Z);
  wq_body_streamed : bool;
}.

Definition chttp_web_request_is_htmx (request : web_request) : bool :=
  match chttp_server_request_header (wq_headers request) (bytes_of "HX-Request") with
  | Some value => bytes_eqb value (bytes_of "true")
  | None => false
  end.

(** ** Errors *)

Definition chttp_web_session_fail (status : chttp_web_status) (native_status : salts_status)
    (offset : Z) (message : String.string) : chttp_web_error :=
  {| we_status := status; we_native_status := native_status; we_offset := offset;
     we_message := bytes_of message |}.
Arguments chttp_web_session_fail _ _ _ message%_string_scope.

Definition session_done : chttp_web_error := chttp_web_session_fail CHTTP_WEB_OK SALTS_OK 0 "".

Definition chttp_web_session_status (status : salts_status) (message : String.string) : chttp_web_error :=
  match status with
  | SALTS_OK => session_done
  | SALTS_ENOBUFS | SALTS_EMSGSIZE => chttp_web_session_fail CHTTP_WEB_CAPACITY status 0 message
  | _ => chttp_web_session_fail CHTTP_WEB_SERVER status 0 message
  end.
Arguments chttp_web_session_status _ message%_string_scope.

Definition web_ok (error : chttp_web_error) : bool := bool_decide (we_status error = CHTTP_WEB_OK).

Section Session.
Context {S : Type} {ops : SessionOps S} {equal : CryptoEqual}.

(** ** The token *)

Definition chttp_web_csrf_token_valid (token : list Z) : bool :=
  (zlen token =? CHTTP_WEB_CSRF_TOKEN_BYTES) &&
  forallb (fun ch => ((48 <=? ch) && (ch <=? 57)) || ((97 <=? ch) && (ch <=? 102))) token.

Definition chttp_web_csrf_token (session : option S) : option (list Z) :=
  match session with
  | None => None
  | Some session =>
    match session_get session CHTTP_WEB_CSRF_SESSION_KEY with
    | Some token => if chttp_web_csrf_token_valid token then Some token else None
    | None => None
    end
  end.

(** [random] is what the platform gives: 32 bytes or an error. *)
Definition chttp_web_csrf_write (random : list Z + salts_status) (session : S) :
    S * option (list Z) * chttp_web_error :=
  match random with
  | inr status => (session, None, chttp_web_session_status status "secure random generation failed")
  | inl bytes =>
    let '(session, status) := session_set session CHTTP_WEB_CSRF_SESSION_KEY (hex_text bytes) in
    if negb (bool_decide (status = SALTS_OK)) then
      (session, None, chttp_web_session_status status "CHTTP session rejected the CSRF token")
    else
      match chttp_web_csrf_token (Some session) with
      | None =>
        (session, None,
         chttp_web_session_fail CHTTP_WEB_SERVER SALTS_EIO 0 "stored CSRF token is unavailable")
      | Some token => (session, Some token, session_done)
      end
  end.

Definition chttp_web_csrf_ensure (random : list Z + salts_status) (session : S) :
    S * option (list Z) * chttp_web_error :=
  match chttp_web_csrf_token (Some session) with
  | Some existing => (session, Some existing, session_done)
  | None => chttp_web_csrf_write random session
  end.

Definition chttp_web_csrf_rotate := chttp_web_csrf_write.

Definition chttp_web_csrf_clear (session : S) : S * chttp_web_error :=
  let '(session, status) := session_remove session CHTTP_WEB_CSRF_SESSION_KEY in
  if bool_decide (status = SALTS_ENOENT) then (session, session_done)
  else (session, chttp_web_session_status status "unable to clear CSRF token").

Definition chttp_web_csrf_method_unsafe (method : Z) : bool :=
  (method =? CHTTP_METHOD_POST) || (method =? CHTTP_METHOD_PUT) ||
  (method =? CHTTP_METHOD_PATCH) || (method =? CHTTP_METHOD_DELETE).

(** A token that is [NULL] is [None]; its size is 0. *)
Definition chttp_web_csrf_validate_token (request : web_request) (session : option S)
    (token : option (list Z)) : chttp_web_error :=
  if negb (chttp_web_csrf_method_unsafe (wq_method request)) then session_done
  else
    match chttp_web_csrf_token session with
    | None => chttp_web_session_fail CHTTP_WEB_CSRF SALTS_OK 0 "CSRF session token is missing"
    | Some expected =>
      match token with
      | None => chttp_web_session_fail CHTTP_WEB_CSRF SALTS_OK 0 "CSRF token is missing or malformed"
      | Some token =>
        if negb (zlen token =? CHTTP_WEB_CSRF_TOKEN_BYTES) then
          chttp_web_session_fail CHTTP_WEB_CSRF SALTS_OK 0 "CSRF token is missing or malformed"
        else
          let '(status, equal) := cmeta_crypto_equal expected token in
          if negb (bool_decide (status = SALTS_OK)) || negb equal then
            chttp_web_session_fail CHTTP_WEB_CSRF SALTS_OK 0
              "CSRF token does not match the current session"
          else session_done
      end
    end.

Definition csrf_header (request : web_request) : option (list Z) :=
  if chttp_web_request_is_htmx request
  then chttp_server_request_header (wq_headers request) CHTTP_WEB_CSRF_HEADER else None.

Definition chttp_web_csrf_validate (request : web_request) (session : option S)
    (form : option chttp_web_form) : chttp_web_error :=
  match csrf_header request with
  | Some header => chttp_web_csrf_validate_token request session (Some header)
  | None =>
    match form with
    | None => chttp_web_csrf_validate_token request session None
    | Some form =>
      let count := chttp_web_form_count form CHTTP_WEB_CSRF_FORM_FIELD in
      if negb (count =? 1) && chttp_web_csrf_method_unsafe (wq_method request) then
        chttp_web_session_fail CHTTP_WEB_CSRF SALTS_OK 0 "CSRF form token is missing or repeated"
      else
        let pair := if count =? 1 then chttp_web_form_get form CHTTP_WEB_CSRF_FORM_FIELD 0 else None in
        chttp_web_csrf_validate_token request session (fp_value <$> pair)
    end
  end.

(** ** The messages *)

Record chttp_web_flash_message := {
  fl_level : list Z;
  fl_text : list Z;
}.

Record chttp_web_flash_config := {
  fc_size : Z;
  fc_max_messages : Z;
  fc_max_level_bytes : Z;
  fc_max_text_bytes : Z;
  fc_max_serialized_bytes : Z;
}.

(** A storage is there or not, and has its capacity. *)
Record chttp_web_flash_buffer := {
  fb_size : Z;
  fb_message_storage : bool;
  fb_message_capacity : Z;
  fb_byte_storage : bool;
  fb_byte_capacity : Z;
}.

Definition chttp_web_flash_config_valid (config : chttp_web_flash_config) : bool :=
  (sizeof_flash_config <=? fc_size config) && negb (fc_max_messages config =? 0) &&
  (fc_max_messages config <=? CHTTP_WEB_FLASH_HARD_MAX_MESSAGES) &&
  negb (fc_max_level_bytes config =? 0) && negb (fc_max_text_bytes config =? 0) &&
  (CHTTP_WEB_FLASH_VERSION_PREFIX_BYTES <=? fc_max_serialized_bytes config) &&
  (fc_max_serialized_bytes config <=? CHTTP_WEB_FLASH_HARD_MAX_SERIALIZED_BYTES).

(** The digits up to a colon or the end; a failure leaves the position where
    it happened. *)
Fixpoint flash_size_loop (s : list Z) (value : Z) : list Z * option Z :=
  match s with
  | [] => ([], Some value)
  | ch :: rest =>
    if ch =? COLON then (s, Some value)
    else if (ch <? 48) || (57 <? ch) then (s, None)
    else
      let digit := ch - 48 in
      if (SIZE_MAX - digit) / 10 <? value then (s, None)
      else flash_size_loop rest (value * 10 + digit)
  end.

Definition chttp_web_flash_parse_size (s : list Z) : list Z * option Z :=
  match flash_size_loop s 0 with
  | (rest, None) => (rest, None)
  | (rest, Some value) =>
    if zlen rest =? zlen s then (rest, None)
    else match rest with [] => ([], None) | _ :: rest => (rest, Some value) end
  end.

(** The two sizes in front of a message, and whether the message may follow. *)
Definition flash_sizes (config : chttp_web_flash_config) (count : Z) (s : list Z) :
    list Z * option (Z * Z) :=
  if fc_max_messages config <=? count then (s, None)
  else
    match chttp_web_flash_parse_size s with
    | (s, None) => (s, None)
    | (s, Some level_size) =>
      match chttp_web_flash_parse_size s with
      | (s, None) => (s, None)
      | (s, Some text_size) =>
        if (fc_max_level_bytes config <? level_size) || (fc_max_text_bytes config <? text_size) ||
           (zlen s <? level_size) || (zlen s - level_size <? text_size)
        then (s, None) else (s, Some (level_size, text_size))
      end
    end.

Definition flash_buffer_full (buffer : chttp_web_flash_buffer) (count byte_cursor size : Z) : bool :=
  (fb_size buffer <? sizeof_flash_buffer) || negb (fb_message_storage buffer) ||
  negb (fb_byte_storage buffer) || (fb_message_capacity buffer <=? count) ||
  (fb_byte_capacity buffer <? byte_cursor) || (fb_byte_capacity buffer - byte_cursor <? size).

(** A round takes the four bytes of two sizes at least.  [bytes] is also the
    byte cursor of the buffer; [messages] is what the buffer holds, or would
    hold. *)
Fixpoint flash_scan_loop (fuel : nat) (config : chttp_web_flash_config)
    (buffer : option chttp_web_flash_buffer) (length : Z) (s : list Z) (bytes : Z)
    (messages : list chttp_web_flash_message) :
    (list chttp_web_flash_message * Z) + chttp_web_error :=
  match s, fuel with
  | [], _ | _, O => inl (messages, bytes)
  | _, Datatypes.S fuel =>
    let count := zlen messages in
    match flash_sizes config count s with
    | (s, None) =>
      inr (chttp_web_session_fail CHTTP_WEB_FLASH SALTS_OK (length - zlen s)
             "flash session payload is malformed")
    | (s, Some (level_size, text_size)) =>
      if (SIZE_MAX - text_size <? level_size) || (SIZE_MAX - level_size - text_size <? bytes) then
        inr (chttp_web_session_fail CHTTP_WEB_CAPACITY SALTS_OK (length - zlen s)
               "flash decoded bytes overflow")
      else if
        match buffer with
        | Some buffer => flash_buffer_full buffer count bytes (level_size + text_size)
        | None => false
        end then
        inr (chttp_web_session_fail CHTTP_WEB_CAPACITY SALTS_OK (length - zlen s)
               "flash output storage is too small")
      else
        let message := {| fl_level := ztake level_size s;
                          fl_text := ztake text_size (zdrop level_size s) |} in
        flash_scan_loop fuel config buffer length (zdrop text_size (zdrop level_size s))
          (bytes + (level_size + text_size)) (messages ++ [message])
    end
  end.

(** The number of messages is [count], their bytes are [bytes]. *)
Definition chttp_web_flash_scan_queue (encoded : option (list Z)) (config : chttp_web_flash_config)
    (buffer : option chttp_web_flash_buffer) :
    (list chttp_web_flash_message * Z) + chttp_web_error :=
  if negb (chttp_web_flash_config_valid config) then
    inr (chttp_web_session_fail CHTTP_WEB_INVALID_ARGUMENT SALTS_OK 0 "flash configuration is invalid")
  else
    match encoded with
    | None => inl ([], 0)
    | Some encoded =>
      let length := zlen encoded in
      if (fc_max_serialized_bytes config <? length) ||
         (length <? CHTTP_WEB_FLASH_VERSION_PREFIX_BYTES) ||
         negb (bytes_eqb (ztake CHTTP_WEB_FLASH_VERSION_PREFIX_BYTES encoded)
                 CHTTP_WEB_FLASH_VERSION_PREFIX)
      then
        inr (chttp_web_session_fail CHTTP_WEB_FLASH SALTS_OK 0 "flash session payload is invalid")
      else
        flash_scan_loop (Datatypes.length encoded) config buffer length
          (zdrop CHTTP_WEB_FLASH_VERSION_PREFIX_BYTES encoded) 0 []
    end.

Definition flash_header (level_size text_size : Z) : list Z :=
  decimal_size level_size ++ COLON :: decimal_size text_size ++ [COLON].

Definition FLASH_HEADER_BYTES : Z := 64.

Definition flash_capacity (message : String.string) : chttp_web_error :=
  chttp_web_session_fail CHTTP_WEB_CAPACITY SALTS_OK 0 message.
Arguments flash_capacity message%_string_scope.

Definition chttp_web_flash_push (session : S) (config : chttp_web_flash_config)
    (level text : list Z) : S * chttp_web_error :=
  if negb (chttp_web_flash_config_valid config) then
    (session, chttp_web_session_fail CHTTP_WEB_INVALID_ARGUMENT SALTS_OK 0
                "flash push arguments are invalid")
  else
    let level_size := zlen level in
    let text_size := zlen text in
    if (fc_max_level_bytes config <? level_size) || (fc_max_text_bytes config <? text_size) then
      (session, flash_capacity "flash message exceeds configured bounds")
    else
      let existing := session_get session CHTTP_WEB_FLASH_SESSION_KEY in
      match chttp_web_flash_scan_queue existing config None with
      | inr error => (session, error)
      | inl (messages, _) =>
        if fc_max_messages config <=? zlen messages then
          (session, flash_capacity "flash message count exceeds configured bound")
        else
          let prefix :=
            match existing with Some existing => existing | None => CHTTP_WEB_FLASH_VERSION_PREFIX end in
          let existing_size := zlen prefix in
          let header := flash_header level_size text_size in
          let header_size := zlen header in
          if FLASH_HEADER_BYTES <=? header_size then
            (session, flash_capacity "flash length header exceeds internal bound")
          else if (SIZE_MAX - header_size <? existing_size) ||
             (SIZE_MAX - level_size <? existing_size + header_size) ||
             (SIZE_MAX - text_size <? existing_size + header_size + level_size) then
            (session, flash_capacity "flash serialized size overflows")
          else
            let total := existing_size + header_size + level_size + text_size in
            if (fc_max_serialized_bytes config <? total) ||
               (CHTTP_WEB_FLASH_HARD_MAX_SERIALIZED_BYTES <? total) then
              (session, flash_capacity "flash queue exceeds configured serialized bound")
            else
              let next := prefix ++ header ++ level ++ text in
              let '(session, status) := session_set session CHTTP_WEB_FLASH_SESSION_KEY next in
              (session, chttp_web_session_status status "CHTTP session rejected flash state")
      end.

(** The messages that the buffer holds when the call succeeds. *)
Definition chttp_web_flash_consume (session : S) (config : chttp_web_flash_config)
    (buffer : chttp_web_flash_buffer) : S * list chttp_web_flash_message * chttp_web_error :=
  if negb (chttp_web_flash_config_valid config) || (fb_size buffer <? sizeof_flash_buffer) then
    (session, [], chttp_web_session_fail CHTTP_WEB_INVALID_ARGUMENT SALTS_OK 0
                    "flash consume arguments are invalid")
  else
    match session_get session CHTTP_WEB_FLASH_SESSION_KEY with
    | None => (session, [], session_done)
    | Some encoded =>
      match chttp_web_flash_scan_queue (Some encoded) config None with
      | inr error => (session, [], error)
      | inl (messages, bytes) =>
        if (fb_message_capacity buffer <? zlen messages) || (fb_byte_capacity buffer <? bytes) ||
           (negb (zlen messages =? 0) && negb (fb_message_storage buffer)) ||
           (negb (bytes =? 0) && negb (fb_byte_storage buffer)) then
          (session, [], chttp_web_session_fail CHTTP_WEB_CAPACITY SALTS_OK 0
                          "flash output storage is too small")
        else
          match chttp_web_flash_scan_queue (Some encoded) config (Some buffer) with
          | inr error => (session, [], error)
          | inl (messages, _) =>
            let '(session, status) := session_remove session CHTTP_WEB_FLASH_SESSION_KEY in
            if negb (bool_decide (status = SALTS_OK)) then
              (session, [], chttp_web_session_status status "unable to consume flash state")
            else (session, messages, session_done)
          end
      end
    end.

Definition chttp_web_flash_clear (session : S) : S * chttp_web_error :=
  let '(session, status) := session_remove session CHTTP_WEB_FLASH_SESSION_KEY in
  if bool_decide (status = SALTS_ENOENT) then (session, session_done)
  else (session, chttp_web_session_status status "unable to clear flash state").

End Session.

End WebSession.
