(* ===== verification/WebSessionTheorems.v ===== *)
(** * Tokens and messages of a session: theorems

    What the layer needs of a session is the class [LawfulSession]; the
    sessions of the server satisfy it.  For any such session: a request with an
    unsafe method passes the check exactly when it presents the token of its
    session, and the messages that were pushed are the messages that the next
    page consumes, once and in order. *)

From S2P Require Import Prelude Decimal HpackBuffer Router Http1Parser Session SessionTheorems Web Multipart WebForm WebFormTheorems WebSession.

Module WebSessionTheorems.
Import Decimal HpackBuffer Router Http1Parser Session SessionTheorems Web Multipart WebForm WebFormTheorems WebSession.

(** ** What a session promises *)

Class LawfulSession (S : Type) {ops : SessionOps S} (ok : S -> Prop) : Prop := {
  set_law s k v s' status : ok s -> session_set s k v = (s', status) ->
    ok s' /\ forall k', session_get s' k' =
      if bool_decide (status = SALTS_OK) && bool_decide (k' = k) then Some v else session_get s k';
  remove_law s k s' status : ok s -> session_remove s k = (s', status) ->
    ok s' /\ forall k', session_get s' k' =
      if bool_decide (status = SALTS_OK) && bool_decide (k' = k) then None else session_get s k';
  remove_present s k v : ok s -> session_get s k = Some v -> (session_remove s k).2 = SALTS_OK;
  regenerate_law s s' status : ok s -> session_regenerate s = (s', status) ->
    ok s' /\ forall k, session_get s' k = session_get s k;
  invalidate_law s s' status : ok s -> session_invalidate s = (s', status) ->
    ok s' /\ status = SALTS_OK /\ forall k, session_get s' k = None;
}.

(** The comparison decides equality. *)
Class LawfulEqual (equal : CryptoEqual) : Prop :=
  equal_law a b : zlen a = zlen b -> cmeta_crypto_equal a b = (SALTS_OK, bytes_eqb a b).

(** ** The messages in a value *)

Definition message_bytes (m : chttp_web_flash_message) : Z := zlen (fl_level m) + zlen (fl_text m).
Definition messages_bytes (ms : list chttp_web_flash_message) : Z := foldr (fun m n => message_bytes m + n) 0 ms.

Lemma messages_bytes_cons m ms : messages_bytes (m :: ms) = message_bytes m + messages_bytes ms.
Proof. done. Qed.

Lemma messages_bytes_nonneg ms : 0 <= messages_bytes ms.
Proof.
  induction ms as [|m ms IH]; [done|]. rewrite messages_bytes_cons. unfold message_bytes.
  pose proof (zlen_nonneg (fl_level m)). pose proof (zlen_nonneg (fl_text m)). lia.
Qed.

Section Flash.
Context (config : chttp_web_flash_config).

(** The first message of a value and what follows it. *)
Definition flash_next (s : list Z) : option (chttp_web_flash_message * list Z) :=
  match chttp_web_flash_parse_size s with
  | (s, Some level_size) =>
    match chttp_web_flash_parse_size s with
    | (s, Some text_size) =>
      if (fc_max_level_bytes config <? level_size) || (fc_max_text_bytes config <? text_size) ||
         (zlen s <? level_size) || (zlen s - level_size <? text_size)
      then None
      else Some ({| fl_level := ztake level_size s; fl_text := ztake text_size (zdrop level_size s) |},
                 zdrop text_size (zdrop level_size s))
    | _ => None
    end
  | _ => None
  end.

Inductive flash_reads : list Z -> list chttp_web_flash_message -> Prop :=
  | flash_reads_nil : flash_reads [] []
  | flash_reads_cons s m rest ms :
    flash_next s = Some (m, rest) -> flash_reads rest ms -> flash_reads s (m :: ms).

Lemma size_loop_range s : forall value rest v, 0 <= value ->
  flash_size_loop s value = (rest, Some v) -> 0 <= v /\ (length rest <= length s)%nat.
Proof.
  induction s as [|c s IH]; intros value rest v Hv; cbn [flash_size_loop]; [by intros [= <- <-]|].
  split_if; [by intros [= <- <-]|]. split_if; [done|]. cbv zeta. split_if; [done|].
  intros Hx. apply IH in Hx; [cbn; lia|lia].
Qed.

Lemma parse_size_range s rest v : chttp_web_flash_parse_size s = (rest, Some v) ->
  0 <= v /\ (S (length rest) < length s)%nat.
Proof.
  unfold chttp_web_flash_parse_size. destruct (flash_size_loop s 0) as [r [w|]] eqn:E; [|done].
  apply size_loop_range in E as [Hw Hl]; [|lia]. split_if; [done|]. destruct r as [|c r]; [done|]. intros [= <- <-].
  split; [done|]. unfold zlen in *. cbn in *. lia.
Qed.

Lemma flash_next_shrinks s m rest : flash_next s = Some (m, rest) ->
  (length rest < length s)%nat /\ message_bytes m + zlen rest <= zlen s.
Proof.
  unfold flash_next. destruct (chttp_web_flash_parse_size s) as [s1 [l|]] eqn:E1; [|done].
  destruct (chttp_web_flash_parse_size s1) as [s2 [t|]] eqn:E2; [|done].
  apply parse_size_range in E1 as [Hl H1], E2 as [Ht H2]. split_if; [done|]. intros [= <- <-].
  unfold message_bytes. cbn [fl_level fl_text]. rewrite !zlen_ztake, !zlen_zdrop by (rewrite ?zlen_zdrop; lia).
  split; [unfold zdrop; rewrite !length_drop; lia|unfold zlen in *; lia].
Qed.

Lemma flash_sizes_next count s :
  match flash_sizes config count s with
  | (s2, Some (l, t)) =>
    count < fc_max_messages config /\ 0 <= l /\ 0 <= t /\ l + t <= zlen s2 /\ zlen s2 <= zlen s /\
    flash_next s = Some ({| fl_level := ztake l s2; fl_text := ztake t (zdrop l s2) |}, zdrop t (zdrop l s2))
  | (_, None) => fc_max_messages config <= count \/ flash_next s = None
  end.
Proof.
  unfold flash_sizes, flash_next. split_if; [by left|].
  destruct (chttp_web_flash_parse_size s) as [s1 [l|]] eqn:E1; [|by right].
  destruct (chttp_web_flash_parse_size s1) as [s2 [t|]] eqn:E2; [|by right].
  apply parse_size_range in E1 as [Hl H1], E2 as [Ht H2]. split_if; [by right|].
  unfold zlen in *. split_and!; try done; lia.
Qed.

Lemma next_message_bytes l t s2 : 0 <= l -> 0 <= t -> l + t <= zlen s2 ->
  message_bytes {| fl_level := ztake l s2; fl_text := ztake t (zdrop l s2) |} = l + t.
Proof. intros. unfold message_bytes. cbn. rewrite !zlen_ztake; [done|rewrite zlen_zdrop; lia|lia]. Qed.

(** What the buffer can hold. *)
Definition buffer_holds (buffer : option chttp_web_flash_buffer) (count bytes : Z) : Prop :=
  match buffer with
  | None => True
  | Some b => sizeof_flash_buffer <= fb_size b /\ fb_message_storage b = true /\ fb_byte_storage b = true /\
              count <= fb_message_capacity b /\ bytes <= fb_byte_capacity b
  end.

Lemma buffer_full_false buffer count bytes size : 0 <= bytes -> 0 <= size ->
  match buffer with Some b => flash_buffer_full b count bytes size | None => false end = false <->
  buffer_holds buffer (count + 1) (bytes + size).
Proof.
  intros Hb Hs. destruct buffer as [b|]; [|done]. unfold flash_buffer_full, buffer_holds.
  rewrite !orb_false_iff, !negb_false_iff, !Z.ltb_ge, Z.leb_gt. intuition lia.
Qed.

Lemma buffer_holds_less buffer count bytes count' bytes' :
  buffer_holds buffer count bytes -> count' <= count -> bytes' <= bytes -> buffer_holds buffer count' bytes'.
Proof. destruct buffer; [|done]. unfold buffer_holds. intuition lia. Qed.

Lemma flash_scan_loop_iff buffer len fuel : forall s bytes acc out total,
  (length s <= fuel)%nat -> 0 <= bytes -> bytes + zlen s <= SIZE_MAX ->
  flash_scan_loop fuel config buffer len s bytes acc = inl (out, total) <->
  exists ms, flash_reads s ms /\ out = acc ++ ms /\ total = bytes + messages_bytes ms /\
    (ms <> [] -> zlen acc + zlen ms <= fc_max_messages config /\
                 buffer_holds buffer (zlen acc + zlen ms) (bytes + messages_bytes ms)).
Proof.
  induction fuel as [|fuel IH]; intros s bytes acc out total Hfuel Hb Hm.
  { destruct s; [|cbn in Hfuel; lia]. cbn. split.
    - intros [= <- <-]. exists []. cbn. rewrite app_nil_r, Z.add_0_r. split_and!; try done. constructor.
    - intros (ms & Hr & -> & -> & _). inversion Hr as [|? ? ? ? Hn]; subst; [|done]. cbn. by rewrite app_nil_r, Z.add_0_r. }
  destruct s as [|c s].
  { cbn. split.
    - intros [= <- <-]. exists []. cbn. rewrite app_nil_r, Z.add_0_r. split_and!; try done. constructor.
    - intros (ms & Hr & -> & -> & _). inversion Hr as [|? ? ? ? Hn]; subst; [|done]. cbn. by rewrite app_nil_r, Z.add_0_r. }
  cbn [flash_scan_loop]. set (s0 := c :: s) in *. assert (s0 <> []) as Hne by done. clearbody s0. clear c s.
  cbv zeta. pose proof (flash_sizes_next (zlen acc) s0) as Hs. destruct (flash_sizes config (zlen acc) s0) as [s2 [[l t]|]].
  - destruct Hs as (Hc & Hl & Ht & Hlt & Hs2 & Hn). rewrite (proj2 (orb_false_iff _ _)) by (rewrite !Z.ltb_ge; lia).
    pose proof (next_message_bytes l t s2 Hl Ht Hlt) as Hmb. set (m := {| fl_level := _ |}) in *. clearbody m.
    set (rest := zdrop t (zdrop l s2)) in *. clearbody rest. pose proof (flash_next_shrinks _ _ _ Hn) as [Hsh Hsz].
    destruct (match buffer with Some b => flash_buffer_full b (zlen acc) bytes (l + t) | None => false end) eqn:Ef.
    + split; [done|]. intros (ms & Hr & _ & _ & Hh). inversion Hr as [|? m' rest' ms' Hn' Hr']; subst; [done|]. rewrite Hn in Hn'.
      injection Hn' as <- <-. destruct (Hh ltac:(done)) as [_ Hh']. rewrite zlen_cons, messages_bytes_cons in Hh'.
      assert (buffer_holds buffer (zlen acc + 1) (bytes + (l + t))) as Hq.
      { eapply buffer_holds_less; [done|pose proof (zlen_nonneg ms'); lia|pose proof (messages_bytes_nonneg ms'); lia]. }
      apply buffer_full_false in Hq; [|lia|lia]. congruence.
    + apply buffer_full_false in Ef; [|lia|lia]. rewrite IH by lia. split.
      * intros (ms & Hr & -> & -> & Hh). exists (m :: ms). rewrite <- app_assoc, messages_bytes_cons, zlen_cons.
        split_and!; [by econstructor|done|lia|]. intros _. rewrite zlen_app in Hh. change (zlen [m]) with 1 in Hh.
        destruct ms as [|m' ms].
        -- cbn. rewrite zlen_nil, Hmb, !Z.add_0_r. split; [lia|]. by eapply buffer_holds_less; [done|lia|lia].
        -- destruct (Hh ltac:(done)) as [H1 H2]. split; [lia|]. eapply buffer_holds_less; [done|lia|lia].
      * intros (ms & Hr & -> & -> & Hh). inversion Hr as [|? m' rest' ms' Hn' Hr']; subst; [done|]. rewrite Hn in Hn'.
        injection Hn' as <- <-. destruct (Hh ltac:(done)) as [H1 H2]. rewrite messages_bytes_cons, zlen_cons in *.
        exists ms'. rewrite <- app_assoc, zlen_app. change (zlen [m]) with 1. split_and!; [done|done|lia|]. intros _.
        split; [lia|]. eapply buffer_holds_less; [done|lia|lia].
  - split; [done|]. intros (ms & Hr & _ & _ & Hh). inversion Hr as [|? m rest ms' Hn Hr']; subst; [done|].
    destruct (Hh ltac:(done)) as [H1 _]. rewrite zlen_cons in H1. pose proof (zlen_nonneg ms'). destruct Hs as [Hs|Hs]; [lia|congruence].
Qed.

Definition well_sized (encoded : list Z) : Prop :=
  zlen encoded <= fc_max_serialized_bytes config /\ exists s, encoded = CHTTP_WEB_FLASH_VERSION_PREFIX ++ s.

Lemma scan_queue_iff buffer encoded ms bytes : chttp_web_flash_config_valid config = true ->
  chttp_web_flash_scan_queue (Some encoded) config buffer = inl (ms, bytes) <->
  well_sized encoded /\ flash_reads (zdrop 2 encoded) ms /\ bytes = messages_bytes ms /\
  (ms <> [] -> zlen ms <= fc_max_messages config /\ buffer_holds buffer (zlen ms) bytes).
Proof.
  intros Hv. unfold chttp_web_flash_scan_queue. rewrite Hv. cbn [negb].
  assert (fc_max_serialized_bytes config <= 1024) as Hmax.
  { unfold chttp_web_flash_config_valid in Hv. repeat (apply andb_true_iff in Hv as [Hv ?]). bool_prop. done. }
  unfold well_sized. change CHTTP_WEB_FLASH_VERSION_PREFIX_BYTES with 2. split_if.
  - split; [done|]. intros ((Hle & s & ->) & _). rewrite !orb_true_iff, negb_true_iff, !Z.ltb_lt in Heqb.
    change 2 with (zlen CHTTP_WEB_FLASH_VERSION_PREFIX) in Heqb. rewrite ztake_app, bytes_eqb_refl, zlen_app in Heqb.
    pose proof (zlen_nonneg s). destruct Heqb as [[?|?]|?]; [rewrite zlen_app in Hle; lia|lia|done].
  - assert (exists s, encoded = CHTTP_WEB_FLASH_VERSION_PREFIX ++ s) as [s ->].
    { apply bytes_eqb_eq in H0. exists (zdrop 2 encoded). rewrite <- H0. by rewrite ztake_zdrop. }
    rewrite (zdrop_app CHTTP_WEB_FLASH_VERSION_PREFIX s : zdrop 2 _ = s).
    assert (0 + zlen s <= SIZE_MAX) as Hs.
    { pose proof (zlen_app CHTTP_WEB_FLASH_VERSION_PREFIX s). pose proof (zlen_nonneg CHTTP_WEB_FLASH_VERSION_PREFIX). zlia. }
    rewrite flash_scan_loop_iff; [|rewrite length_app; lia|done|done].
    split.
    + intros (ms' & Hr & -> & -> & Hh). cbn [app] in *. split_and!; [done|by exists s|done|done|done].
    + intros (_ & Hr & -> & Hh). by exists ms.
Qed.

(** ** Appending a message *)

Lemma size_loop_app a b : forall value rest v, rest <> [] ->
  flash_size_loop a value = (rest, Some v) -> flash_size_loop (a ++ b) value = (rest ++ b, Some v).
Proof.
  induction a as [|c a IH]; intros value rest v Hr; cbn [flash_size_loop app]; [by intros [= <- <-]|].
  split_if; [by intros [= <- <-]|]. split_if; [done|]. cbv zeta. split_if; [done|]. by apply IH.
Qed.

Lemma parse_size_app a b rest v : chttp_web_flash_parse_size a = (rest, Some v) ->
  chttp_web_flash_parse_size (a ++ b) = (rest ++ b, Some v).
Proof.
  unfold chttp_web_flash_parse_size. destruct (flash_size_loop a 0) as [r [w|]] eqn:E; [|done].
  split_if; [done|]. destruct r as [|c r]; [done|]. intros [= <- <-]. rewrite (size_loop_app a b 0 (c :: r) w ltac:(done) E).
  rewrite !zlen_app, (proj2 (Z.eqb_neq _ _)) by lia. done.
Qed.

Lemma flash_next_app a b m rest : flash_next a = Some (m, rest) -> flash_next (a ++ b) = Some (m, rest ++ b).
Proof.
  unfold flash_next. destruct (chttp_web_flash_parse_size a) as [s1 [l|]] eqn:E1; [|done].
  rewrite (parse_size_app _ b _ _ E1). destruct (chttp_web_flash_parse_size s1) as [s2 [t|]] eqn:E2; [|done].
  rewrite (parse_size_app _ b _ _ E2). apply parse_size_range in E1 as [Hl H1], E2 as [Ht H2].
  split_if; [done|]. intros [= <- <-]. pose proof (zlen_nonneg b).
  rewrite (proj2 (orb_false_iff _ _)) by (rewrite !orb_false_iff, !Z.ltb_ge, zlen_app; lia).
  unfold ztake, zdrop. rewrite (drop_app_le s2 b) by (unfold zlen in *; lia).
  rewrite !take_app_le, drop_app_le by (rewrite ?length_drop; unfold zlen in *; lia). done.
Qed.

Lemma flash_reads_app a ms b ms' : flash_reads a ms -> flash_reads b ms' -> flash_reads (a ++ b) (ms ++ ms').
Proof. induction 1; intros Hb; [done|]. econstructor; [by apply flash_next_app|by apply IHflash_reads]. Qed.

End Flash.

(** ** Digits *)

Lemma size_loop_number digits : forall value n k, 0 <= value ->
  Forall is_digit digits -> n <= SIZE_MAX ->
  n = foldl (fun v d => v * 10 + (d - 48)) value digits ->
  flash_size_loop (digits ++ COLON :: k) value = (COLON :: k, Some n).
Proof.
  unfold is_digit. induction digits as [|d digits IH]; intros value n k Hv Hd Hn ->; cbn [app foldl flash_size_loop]; [done|].
  apply Forall_cons_1 in Hd as [Hd Hds]. change COLON with 58 in *.
  rewrite (proj2 (Z.eqb_neq d 58)), (proj2 (orb_false_iff _ _)) by (rewrite ?Z.ltb_ge; lia). cbv zeta.
  assert (forall v, 0 <= v -> v <= foldl (fun v d => v * 10 + (d - 48)) v digits) as Hgrow.
  { clear -Hds. induction digits as [|d digits IH]; intros v Hv; cbn; [done|]. apply Forall_cons_1 in Hds as [Hd Hds].
    specialize (IH Hds (v * 10 + (d - 48))). lia. }
  cbn in Hn. specialize (Hgrow (value * 10 + (d - 48)) ltac:(lia)).
  pose proof (Z.div_le_lower_bound (SIZE_MAX - (d - 48)) 10 value ltac:(lia) ltac:(lia)).
  split_if; [exfalso; lia|]. apply IH; try done. lia.
Qed.

Lemma parse_decimal n k : 0 <= n <= SIZE_MAX -> chttp_web_flash_parse_size (decimal_size n ++ COLON :: k) = (k, Some n).
Proof.
  intros Hn. destruct (decimal_size_number n Hn) as (front & -> & Hne & Hd & _ & Hv). unfold chttp_web_flash_parse_size.
  rewrite (size_loop_number front 0 n) by (done || lia). rewrite zlen_app.
  rewrite (proj2 (Z.eqb_neq _ _)); [done|]. pose proof (zlen_nonneg front). assert (zlen front <> 0) by (intros E; by apply zlen_0_inv in E). lia.
Qed.

Lemma flash_next_printed config level text rest :
  zlen level <= fc_max_level_bytes config -> zlen text <= fc_max_text_bytes config ->
  zlen level <= SIZE_MAX -> zlen text <= SIZE_MAX ->
  flash_next config (flash_header (zlen level) (zlen text) ++ level ++ text ++ rest) =
  Some ({| fl_level := level; fl_text := text |}, rest).
Proof.
  intros Hl Ht Hl' Ht'. unfold flash_header, flash_next. rewrite <- app_assoc. cbn [app]. rewrite <- app_assoc. cbn [app].
  pose proof (zlen_nonneg level). pose proof (zlen_nonneg text). pose proof (zlen_nonneg rest).
  rewrite !parse_decimal by lia. rewrite (proj2 (orb_false_iff _ _)) by (rewrite !orb_false_iff, !Z.ltb_ge, !zlen_app; lia).
  by rewrite ztake_app, !zdrop_app, ztake_app.
Qed.

Lemma flash_header_size l t : 0 <= l <= SIZE_MAX -> 0 <= t <= SIZE_MAX -> zlen (flash_header l t) < FLASH_HEADER_BYTES.
Proof.
  intros Hl Ht. destruct (decimal_size_number l Hl) as (f & E & _ & _ & Hf & _), (decimal_size_number t Ht) as (g & E' & _ & _ & Hg & _).
  unfold flash_header. rewrite E, E', zlen_app, zlen_cons, zlen_app. change (zlen [COLON]) with 1. unfold FLASH_HEADER_BYTES. lia.
Qed.

(** ** A session with tokens and messages *)

Section Laws.
Context {S : Type} {ops : SessionOps S} {ok : S -> Prop} {laws : LawfulSession S ok}.

(** The messages that wait in a session. *)
Definition flash_queue (config : chttp_web_flash_config) (session : S) : option (list chttp_web_flash_message) :=
  match chttp_web_flash_scan_queue (session_get session CHTTP_WEB_FLASH_SESSION_KEY) config None with
  | inl (messages, _) => Some messages
  | inr _ => None
  end.

Definition same_entries (but : list Z) (s s' : S) : Prop :=
  forall k, k <> but -> session_get s' k = session_get s k.

Lemma session_status_ok status message :
  we_status (chttp_web_session_status status message) = CHTTP_WEB_OK <-> status = SALTS_OK.
Proof. by destruct status. Qed.

Lemma scan_error_status encoded config buffer error :
  chttp_web_flash_scan_queue encoded config buffer = inr error -> we_status error <> CHTTP_WEB_OK.
Proof.
  unfold chttp_web_flash_scan_queue. split_if; [by intros [= <-]|]. destruct encoded as [e|]; [|done]. cbv zeta.
  split_if; [by intros [= <-]|]. generalize (zdrop CHTTP_WEB_FLASH_VERSION_PREFIX_BYTES e) as s, 0 as b, (@nil chttp_web_flash_message) as acc.
  generalize (zlen e) as len. generalize (length e) as fuel. induction fuel as [|fuel IH]; intros len s b acc; [by destruct s|].
  destruct s as [|c s]; [done|]. cbn [flash_scan_loop]. cbv zeta. destruct (flash_sizes _ _ _) as [s2 [[l t]|]]; [|by intros [= <-]].
  split_if; [by intros [= <-]|]. destruct (match buffer with Some _ => _ | None => _ end); [by intros [= <-]|]. apply IH.
Qed.

Lemma push_spec session config level text session' error : ok session ->
  chttp_web_flash_push session config level text = (session', error) ->
  ok session' /\ same_entries CHTTP_WEB_FLASH_SESSION_KEY session session' /\
  (we_status error = CHTTP_WEB_OK -> exists ms, flash_queue config session = Some ms /\
     flash_queue config session' = Some (ms ++ [{| fl_level := level; fl_text := text |}])) /\
  (we_status error <> CHTTP_WEB_OK -> forall k, session_get session' k = session_get session k).
Proof.
  intros Hok. unfold chttp_web_flash_push. split_if; [by intros [= <- <-]|]. cbv zeta. split_if; [by intros [= <- <-]|].
  unfold flash_queue. set (existing := session_get session _).
  destruct (chttp_web_flash_scan_queue existing config None) as [[ms bytes]|e] eqn:Es;
    [|intros [= <- <-]; split_and!; try done; intros He; by apply scan_error_status in Es].
  split_if; [by intros [= <- <-]|]. split_if; [by intros [= <- <-]|]. split_if; [by intros [= <- <-]|]. split_if; [by intros [= <- <-]|].
  set (prefix := match existing with Some e => e | None => _ end) in *.
  set (next := prefix ++ _). destruct (session_set session _ next) as [s1 status] eqn:Eset. intros [= <- <-].
  destruct (set_law _ _ _ _ _ Hok Eset) as [Hok1 Hget]. rewrite session_status_ok.
  split_and!; [done| | |].
  - intros k Hk. rewrite Hget, (bool_decide_false (k = _)) by done. by rewrite andb_false_r.
  - intros ->. exists ms. split; [done|]. rewrite Hget, !bool_decide_true by done. cbn [andb].
    assert (well_sized config prefix /\ flash_reads config (zdrop 2 prefix) ms) as [[Hws (s & Hp)] Hr].
    { subst prefix. destruct existing as [e|].
      - apply scan_queue_iff in Es as (? & ? & _); done.
      - unfold chttp_web_flash_scan_queue in Es. rewrite Heqb in Es. injection Es as <- <-. split; [|constructor].
        split; [|by exists []]. unfold chttp_web_flash_config_valid in Heqb. repeat (apply andb_true_iff in Heqb as [Heqb ?]). bool_prop. done. }
    rewrite Hp, (zdrop_app CHTTP_WEB_FLASH_VERSION_PREFIX s : zdrop 2 _ = s) in Hr.
    assert (zlen level <= SIZE_MAX /\ zlen text <= SIZE_MAX) as [? ?].
    { pose proof (zlen_nonneg prefix). pose proof (zlen_nonneg (flash_header (zlen level) (zlen text))).
      pose proof (zlen_nonneg level). pose proof (zlen_nonneg text). unfold CHTTP_WEB_FLASH_HARD_MAX_SERIALIZED_BYTES in *. zlia. }
    assert (chttp_web_flash_scan_queue (Some next) config None = inl (ms ++ [{| fl_level := level; fl_text := text |}],
      messages_bytes (ms ++ [{| fl_level := level; fl_text := text |}]))) as ->; [|done].
    apply scan_queue_iff; [done|]. split_and!.
    + split; [|exists (s ++ flash_header (zlen level) (zlen text) ++ level ++ text); subst next; by rewrite Hp, <- app_assoc].
      subst next. rewrite !zlen_app. lia.
    + subst next. rewrite Hp, <- app_assoc, (zdrop_app CHTTP_WEB_FLASH_VERSION_PREFIX _ : zdrop 2 _ = _).
      apply flash_reads_app; [done|]. econstructor; [|constructor].
      rewrite <- (app_nil_r text) at 2. apply flash_next_printed; lia.
    + done.
    + intros _. rewrite zlen_app. split; [|done]. unfold zlen at 2. cbn. lia.
  - intros Hne k. rewrite Hget, (bool_decide_false (status = _)) by done. done.
Qed.

Lemma consume_spec session config buffer session' out error : ok session ->
  chttp_web_flash_consume session config buffer = (session', out, error) ->
  ok session' /\ same_entries CHTTP_WEB_FLASH_SESSION_KEY session session' /\
  (we_status error = CHTTP_WEB_OK ->
     flash_queue config session = Some out /\ session_get session' CHTTP_WEB_FLASH_SESSION_KEY = None) /\
  (we_status error <> CHTTP_WEB_OK -> out = [] /\ forall k, session_get session' k = session_get session k).
Proof.
  intros Hok. unfold chttp_web_flash_consume, flash_queue. split_if; [by intros [= <- <- <-]|].
  destruct (session_get session _) as [encoded|] eqn:Eg.
  2: { intros [= <- <- <-]. unfold chttp_web_flash_scan_queue. by rewrite H. }
  destruct (chttp_web_flash_scan_queue (Some encoded) config None) as [[ms bytes]|e] eqn:Es;
    [|intros [= <- <- <-]; split_and!; try done; intros He; by apply scan_error_status in Es].
  split_if; [by intros [= <- <- <-]|].
  destruct (chttp_web_flash_scan_queue (Some encoded) config (Some buffer)) as [[ms' bytes']|e] eqn:Es';
    [|intros [= <- <- <-]; split_and!; try done; intros He; by apply scan_error_status in Es'].
  destruct (session_remove session _) as [s1 status] eqn:Er. destruct (remove_law _ _ _ _ Hok Er) as [Hok1 Hget].
  pose proof (remove_present _ _ _ Hok Eg) as Hst. rewrite Er in Hst. cbn in Hst. subst status.
  rewrite bool_decide_true by done. cbn [negb]. intros [= <- <- <-]. split_and!; [done| | |done].
  - intros k Hk. rewrite Hget, (bool_decide_false (k = _)) by done. by rewrite andb_false_r.
  - intros _. rewrite Hget, !bool_decide_true by done. split; [|done].
    apply scan_queue_iff in Es as (_ & Hr & -> & _); [|done]. apply scan_queue_iff in Es' as (_ & Hr' & _); [|done].
    f_equal. clear -Hr Hr'. revert ms' Hr'. induction Hr as [|s m rest ms Hn Hr IH]; intros ms' Hr'; inversion Hr' as [|? m' rest' ms'' Hn' Hr'']; subst;
      [done|done|done|]. rewrite Hn in Hn'. injection Hn' as <- <-. f_equal. by apply IH.
Qed.

(** Messages that fit are consumed. *)
Lemma consume_total session config buffer ms : ok session -> chttp_web_flash_config_valid config = true ->
  flash_queue config session = Some ms -> buffer_holds (Some buffer) (zlen ms) (messages_bytes ms) ->
  we_status (chttp_web_flash_consume session config buffer).2 = CHTTP_WEB_OK /\
  (chttp_web_flash_consume session config buffer).1.2 = ms.
Proof.
  intros Hok Hv Hq (H1 & H2 & H3 & H4 & H5). unfold chttp_web_flash_consume. unfold flash_queue in Hq.
  rewrite Hv, (proj2 (Z.ltb_ge _ _)) by done. cbn [negb orb].
  destruct (session_get session _) as [encoded|] eqn:Eg.
  2: { unfold chttp_web_flash_scan_queue in Hq. rewrite Hv in Hq. by injection Hq as <-. }
  destruct (chttp_web_flash_scan_queue (Some encoded) config None) as [[ms' bytes]|e] eqn:Es; [|done]. injection Hq as ->.
  apply scan_queue_iff in Es as (Hws & Hr & -> & Hh); [|done].
  rewrite H2, H3, !andb_false_r, (proj2 (Z.ltb_ge (fb_message_capacity buffer) _)), (proj2 (Z.ltb_ge (fb_byte_capacity buffer) _)) by done.
  cbn [orb negb]. assert (chttp_web_flash_scan_queue (Some encoded) config (Some buffer) = inl (ms, messages_bytes ms)) as ->.
  { apply scan_queue_iff; [done|]. split_and!; try done. intros Hne. destruct (Hh Hne). split; done. }
  destruct (session_remove session _) as [s1 status] eqn:Er. pose proof (remove_present _ _ _ Hok Eg) as Hst. rewrite Er in Hst.
  cbn in Hst. subst status. by rewrite bool_decide_true.
Qed.

(** *** The token *)

Context {equal : CryptoEqual} {equal_ok : LawfulEqual equal}.

(** The token that a request presents: the header of a request of htmx that has
    it, otherwise the one form field of that name. *)
Definition submitted (request : web_request) (form : option chttp_web_form) : option (list Z) :=
  match csrf_header request with
  | Some header => Some header
  | None =>
    match form with
    | Some form => match named form CHTTP_WEB_CSRF_FORM_FIELD with [p] => Some (fp_value p) | _ => None end
    | None => None
    end
  end.

Lemma csrf_token_size session token : chttp_web_csrf_token session = Some token -> zlen token = CHTTP_WEB_CSRF_TOKEN_BYTES.
Proof.
  unfold chttp_web_csrf_token. destruct session as [s|]; [|done]. destruct (session_get s _) as [t|]; [|done].
  unfold chttp_web_csrf_token_valid. split_if; [|done]. bool_prop. by intros [= <-].
Qed.

Lemma validate_token_iff request session token : chttp_web_csrf_method_unsafe (wq_method request) = true ->
  we_status (chttp_web_csrf_validate_token request session token) = CHTTP_WEB_OK <->
  exists t, chttp_web_csrf_token session = Some t /\ token = Some t.
Proof.
  intros Hm. unfold chttp_web_csrf_validate_token. rewrite Hm. cbn [negb].
  destruct (chttp_web_csrf_token session) as [t|] eqn:Et; [|by split; [|intros (? & ? & _)]].
  apply csrf_token_size in Et. destruct token as [u|]; [|by split; [|intros (? & _ & ?)]].
  split_if.
  - split; [done|]. intros (? & [= <-] & [= ->]). lia.
  - rewrite equal_law by lia. cbn. destruct (bytes_eqb t u) eqn:E; cbn.
    + apply bytes_eqb_eq in E as ->. split; [by exists u|done].
    + split; [done|]. intros (? & [= <-] & [= ->]). by rewrite bytes_eqb_refl in E.
Qed.

Lemma validate_iff request session form : chttp_web_csrf_method_unsafe (wq_method request) = true ->
  we_status (chttp_web_csrf_validate request session form) = CHTTP_WEB_OK <->
  exists token, chttp_web_csrf_token session = Some token /\ submitted request form = Some token.
Proof.
  intros Hm. unfold chttp_web_csrf_validate, submitted. destruct (csrf_header request) as [h|]; [by apply validate_token_iff|].
  destruct form as [f|]; [|by apply validate_token_iff]. unfold chttp_web_form_count, chttp_web_form_get.
  rewrite form_count_loop_spec, form_get_loop_spec, Hm by lia. fold (named f CHTTP_WEB_CSRF_FORM_FIELD).
  rewrite Z.add_0_l, andb_true_r. destruct (named f _) as [|p [|q l]].
  - cbn. split; [done|]. by intros (? & _ & ?).
  - cbn. by apply validate_token_iff.
  - rewrite !zlen_cons. pose proof (zlen_nonneg l). rewrite (proj2 (Z.eqb_neq _ _)) by lia. cbn. split; [done|]. by intros (? & _ & ?).
Qed.

Lemma validate_safe_method request session form : chttp_web_csrf_method_unsafe (wq_method request) = false ->
  we_status (chttp_web_csrf_validate request session form) = CHTTP_WEB_OK.
Proof.
  intros Hm. unfold chttp_web_csrf_validate, chttp_web_csrf_validate_token. rewrite Hm. cbn [negb].
  destruct (csrf_header request); [done|]. destruct form; [|done]. cbv zeta. by rewrite andb_false_r.
Qed.

(** What the platform promises of random numbers. *)
Definition token_random_ok (random : list Z + salts_status) : Prop :=
  match random with
  | inl bytes => zlen bytes = CHTTP_WEB_CSRF_RANDOM_BYTES /\ is_bytes bytes
  | inr status => status <> SALTS_OK
  end.

Lemma hex_text_token bytes : zlen bytes = CHTTP_WEB_CSRF_RANDOM_BYTES -> is_bytes bytes ->
  chttp_web_csrf_token_valid (hex_text bytes) = true.
Proof.
  intros Hl Hb. unfold chttp_web_csrf_token_valid. destruct (hex_text_hex bytes Hb) as [_ ->]. rewrite Hl.
  apply andb_true_iff. split; [done|]. clear Hl. unfold hex_text.
  assert (forall n, 0 <= n < 16 ->
    ((48 <=? hex_digit n) && (hex_digit n <=? 57)) || ((97 <=? hex_digit n) && (hex_digit n <=? 102)) = true) as Hd.
  { intros n Hn. unfold hex_digit. destruct (n <? 10) eqn:E; bool_prop; rewrite orb_true_iff, !andb_true_iff, !Z.leb_le; lia. }
  induction Hb as [|b bytes Hb _ IH]; [done|]. cbn [map concat app forallb]. rewrite !Hd; [done| |].
  - change 0x0f with (2 ^ 4 - 1). rewrite (land_mask b 4) by lia. apply Z.mod_pos_bound. lia.
  - rewrite Z.shiftr_div_pow2 by lia. unfold is_u8 in Hb. split; [apply Z.div_pos; lia|]. apply Z.div_lt_upper_bound; lia.
Qed.

Lemma csrf_write_spec random session session' out error : ok session -> token_random_ok random ->
  chttp_web_csrf_write random session = (session', out, error) ->
  ok session' /\ same_entries CHTTP_WEB_CSRF_SESSION_KEY session session' /\
  (we_status error = CHTTP_WEB_OK -> exists bytes, random = inl bytes /\ out = Some (hex_text bytes) /\
     chttp_web_csrf_token (Some session') = out) /\
  (we_status error <> CHTTP_WEB_OK -> out = None /\ forall k, session_get session' k = session_get session k).
Proof.
  intros Hok Hr. unfold chttp_web_csrf_write. destruct random as [bytes|status].
  2: { intros [= <- <- <-]. split_and!; try done. intros He. by apply session_status_ok in He. }
  destruct Hr as [Hl Hb]. destruct (session_set session _ _) as [s1 status] eqn:E. destruct (set_law _ _ _ _ _ Hok E) as [Hok1 Hget].
  assert (same_entries CHTTP_WEB_CSRF_SESSION_KEY session s1) as Hsame.
  { intros k Hk. rewrite Hget, (bool_decide_false (k = _)) by done. by rewrite andb_false_r. }
  destruct (decide (status = SALTS_OK)) as [->|Hne].
  - assert (chttp_web_csrf_token (Some s1) = Some (hex_text bytes)) as Ht.
    { unfold chttp_web_csrf_token. rewrite Hget, !bool_decide_true by done. cbn [andb]. by rewrite hex_text_token. }
    rewrite Ht, bool_decide_true by done. cbn [negb]. intros [= <- <- <-]. split_and!; try done. intros _. eauto.
  - rewrite bool_decide_false by done. cbn [negb]. intros [= <- <- <-]. split_and!; try done.
    + intros He. by apply session_status_ok in He.
    + intros _. split; [done|]. intros k. by rewrite Hget, bool_decide_false.
Qed.

(** The pushes that succeed, one after the other. *)
Fixpoint push_all (config : chttp_web_flash_config) (session : S) (messages : list chttp_web_flash_message) :
    S * list chttp_web_flash_message :=
  match messages with
  | [] => (session, [])
  | m :: messages =>
    let '(session, error) := chttp_web_flash_push session config (fl_level m) (fl_text m) in
    let '(session, accepted) := push_all config session messages in
    (session, if web_ok error then m :: accepted else accepted)
  end.

Lemma push_all_spec config messages : forall session session' accepted ms, ok session ->
  flash_queue config session = Some ms -> push_all config session messages = (session', accepted) ->
  ok session' /\ same_entries CHTTP_WEB_FLASH_SESSION_KEY session session' /\
  flash_queue config session' = Some (ms ++ accepted).
Proof.
  induction messages as [|m messages IH]; intros session session' accepted ms Hok Hq; cbn [push_all].
  { intros [= <- <-]. by rewrite app_nil_r. }
  destruct (chttp_web_flash_push _ _ _ _) as [s1 error] eqn:E. apply push_spec in E as (Hok1 & Hsame & Hgood & Hbad); [|done].
  destruct (push_all config s1 messages) as [s2 acc] eqn:E2. unfold web_ok. case_bool_decide as He; intros [= <- <-].
  - destruct (Hgood He) as (ms' & Hq' & Hq1). rewrite Hq in Hq'. injection Hq' as <-.
    destruct (IH _ _ _ _ Hok1 Hq1 E2) as (? & Hs2 & ->). split_and!; [done| |by rewrite <- app_assoc; destruct m].
    intros k Hk. by rewrite (Hs2 k Hk), (Hsame k Hk).
  - assert (flash_queue config s1 = Some ms) as Hq1 by (unfold flash_queue; by rewrite (Hbad He)).
    destruct (IH _ _ _ _ Hok1 Hq1 E2) as (? & Hs2 & ->). split_and!; [done| |done].
    intros k Hk. by rewrite (Hs2 k Hk), (Hsame k Hk).
Qed.

(** ** Theorems *)

(** The check against forged requests passes exactly for safe methods and for
    requests that present the token of their session, in the header of an htmx
    request that has it, otherwise as the only form field of that name. *)
Theorem csrf_validate_correct request session form :
  we_status (chttp_web_csrf_validate request session form) = CHTTP_WEB_OK <->
  chttp_web_csrf_method_unsafe (wq_method request) = false \/
  exists token, chttp_web_csrf_token session = Some token /\ submitted request form = Some token.
Proof.
  destruct (chttp_web_csrf_method_unsafe (wq_method request)) eqn:Hm.
  - rewrite validate_iff by done. split; [by right|]. by intros [|].
  - split; [by left|]. intros _. by apply validate_safe_method.
Qed.

(** Asking for the token of a session keeps a token that is there, otherwise
    stores a new one; afterwards a request with an unsafe method passes exactly
    when it presents the token that was returned. Other entries of the session
    stay as they are, and a call that fails changes nothing. *)
Theorem csrf_issued_token random session session' out error : ok session -> token_random_ok random ->
  chttp_web_csrf_ensure random session = (session', out, error) ->
  same_entries CHTTP_WEB_CSRF_SESSION_KEY session session' /\
  match out with
  | None => we_status error <> CHTTP_WEB_OK /\ forall k, session_get session' k = session_get session k
  | Some token =>
    we_status error = CHTTP_WEB_OK /\
    (forall old, chttp_web_csrf_token (Some session) = Some old -> token = old) /\
    forall request form, chttp_web_csrf_method_unsafe (wq_method request) = true ->
      we_status (chttp_web_csrf_validate request (Some session') form) = CHTTP_WEB_OK <->
      submitted request form = Some token
  end.
Proof.
  intros Hok Hr.
  assert (forall s token, chttp_web_csrf_token (Some s) = Some token -> forall request form,
    chttp_web_csrf_method_unsafe (wq_method request) = true ->
    we_status (chttp_web_csrf_validate request (Some s) form) = CHTTP_WEB_OK <-> submitted request form = Some token) as Hval.
  { intros s token Ht request form Hm. rewrite validate_iff by done. rewrite Ht. split; [by intros (? & [= <-] & ?)|]. by exists token. }
  unfold chttp_web_csrf_ensure. destruct (chttp_web_csrf_token (Some session)) as [old|] eqn:Eo.
  - intros [= <- <- <-]. split; [done|]. split_and!; [done|by intros ? [= <-]|]. by apply Hval.
  - intros E. apply csrf_write_spec in E as (Hok' & Hsame & Hgood & Hbad); [|done..]. split; [done|].
    destruct (decide (we_status error = CHTTP_WEB_OK)) as [He|He].
    + destruct (Hgood He) as (bytes & -> & -> & Ht). split_and!; [done|done|]. by apply Hval.
    + destruct (Hbad He) as [-> ?]. done.
Qed.

(** The messages whose push was accepted are consumed exactly once, in order and
    whole, after the ones that were already waiting; a push that is refused loses
    nothing, and no other entry of the session changes. *)
Theorem flash_delivered config session messages ms session' accepted buffer : ok session ->
  chttp_web_flash_config_valid config = true -> flash_queue config session = Some ms ->
  push_all config session messages = (session', accepted) ->
  buffer_holds (Some buffer) (zlen (ms ++ accepted)) (messages_bytes (ms ++ accepted)) ->
  exists session'' error, chttp_web_flash_consume session' config buffer = (session'', ms ++ accepted, error) /\
    we_status error = CHTTP_WEB_OK /\ same_entries CHTTP_WEB_FLASH_SESSION_KEY session session'' /\
    flash_queue config session'' = Some [].
Proof.
  intros Hok Hv Hq Hp Hb. destruct (push_all_spec _ _ _ _ _ _ Hok Hq Hp) as (Hok1 & Hsame & Hq1).
  destruct (consume_total _ _ _ _ Hok1 Hv Hq1 Hb) as [He Ho].
  destruct (chttp_web_flash_consume session' config buffer) as [[s2 out] error] eqn:E. cbn in He, Ho. subst out.
  apply consume_spec in E as (_ & Hs2 & Hgood & _); [|done]. destruct (Hgood He) as [_ Hnone]. exists s2, error.
  split_and!; [done|done| |].
  - intros k Hk. by rewrite (Hs2 k Hk), (Hsame k Hk).
  - unfold flash_queue. rewrite Hnone. unfold chttp_web_flash_scan_queue. by rewrite Hv.
Qed.

End Laws.

(** ** The sessions of the server *)

Section Server.
Context (cfg : session_config) (random : nat -> list Z + salts_status) (now_ms : Z).

#[export] Instance server_session : SessionOps (store * chttp_session_context) := {
  session_get s k := chttp_session_get s.2 k;
  session_set s k v := chttp_session_set cfg random s.1 s.2 k v now_ms;
  session_remove s k := let '(c, status) := chttp_session_remove s.2 k in (s.1, c, status);
  session_regenerate s := chttp_session_regenerate cfg random s.1 s.2 now_ms;
  session_invalidate s := chttp_session_invalidate s.1 s.2;
}.

Definition server_session_ok (s : store * chttp_session_context) : Prop :=
  random_ok random /\ store_ok cfg s.1 /\ context_ok cfg s.2.

Lemma regenerate_get s c s' c' status : random_ok random -> store_ok cfg s -> context_ok cfg c ->
  chttp_session_regenerate cfg random s c now_ms = (s', c', status) ->
  forall k, chttp_session_get c' k = chttp_session_get c k.
Proof.
  intros Hr Hs Hc. unfold chttp_session_regenerate. split_if; [by intros [= <- <- <-]|].
  destruct (sc_record c) as [i|] eqn:Ei.
  - split_if; [by intros [= <- <- <-]|]. destruct (chttp_session_generate_id_locked random s); intros [= <- <- <-]; [|done].
    intros k. unfold chttp_session_get. cbn. by rewrite Ei.
  - intros E k. rewrite (get_nothing c k Ei). destruct (Z.eq_dec (session_capacity cfg) 0) as [Ez|Ez].
    { rewrite create_none in E by done. injection E as <- <- <-. by apply get_nothing. }
    pose proof (session_create_ok cfg random s c now_ms Hr Hs Hc Ez) as Hcr. pose proof (create_same cfg random s c now_ms) as Hsame.
    rewrite E in Hcr, Hsame. destruct Hcr as (_ & _ & _ & Hcr). destruct (decide (status = SALTS_OK)) as [Hok|Hno].
    + destruct (Hcr Hok) as (? & ? & _ & Hf). rewrite get_entries by done. rewrite Hf. apply fresh_get.
    + rewrite (Hsame Hno). by apply get_nothing.
Qed.

#[export] Instance server_session_lawful : LawfulSession (store * chttp_session_context) server_session_ok.
Proof.
  constructor.
  - intros [s c] k v [s' c'] status (Hr & Hs & Hc) E. cbn in E. pose proof (set_ok cfg random s c k v now_ms Hr Hs Hc) as Hok.
    pose proof (set_get_spec cfg random s c k v now_ms s' c' status Hr Hs Hc E) as Hget. rewrite E in Hok.
    destruct Hok as (? & ? & _). split; [done|]. intros k'. cbn. by destruct status; rewrite ?Hget.
  - intros [s c] k [s' c'] status (Hr & Hs & Hc) E. cbn in E. pose proof (remove_ok cfg c k Hc) as Hok.
    destruct (chttp_session_remove c k) as [c1 st] eqn:Er. injection E as <- <- <-. cbn in Hok. split; [done|].
    intros k'. cbn. by rewrite (session_remove_get cfg c k c1 st Hc Er k').
  - intros [s c] k v (Hr & Hs & Hc). cbn. unfold chttp_session_get, chttp_session_remove. intros E.
    destruct (sc_record c) eqn:Erec; [|done]. destruct (sc_invalidated c) eqn:Ei; [done|]. cbn in *.
    destruct (list_find _ _) as [[i e]|] eqn:El; [|done].
    apply list_find_Some in El as (Hl & He & _). apply entry_is_true in He as [Hu Hk].
    destruct (context_ok_entries cfg c Hc ltac:(by rewrite Erec)) as [_ Hen]. pose proof (Forall_lookup_1 _ _ _ _ (eo_entries _ _ Hen) Hl) as Hle.
    unfold entry_ok in Hle. rewrite Hu, Hk in Hle. rewrite (proj2 (Z.eqb_neq _ _)) by lia. done.
  - intros [s c] [s' c'] status (Hr & Hs & Hc) E. cbn in E. pose proof (regenerate_ok cfg random s c now_ms Hr Hs Hc) as Hok.
    rewrite E in Hok. destruct Hok as (? & ? & _). split; [done|]. intros k. by apply (regenerate_get s c s' c' status).
  - intros [s c] [s' c'] status (Hr & Hs & Hc) E. cbn in E.
    unfold chttp_session_invalidate in E. cbv zeta in E. injection E as <- <- <-. destruct (clear_matching_ok cfg s c Hs).
    split; [split; [done|split; [done|]]|done].
    apply snapshot_clear_ok. apply release_ok in Hc. revert Hc. by apply context_ok_same.
Qed.

End Server.

(** ** Instances *)

Definition web_config : session_config :=
  {| session_capacity := 2; session_entry_capacity := 6; max_session_key_bytes := 64;
     max_session_value_bytes := 256; session_idle_timeout_ms := 1500; session_cookie_secure := true;
     session_cookie_name := bytes_of "sid" |}.

#[local] Existing Instance unlimited_allocator.

Definition web_store : store :=
  Eval vm_compute in match chttp_session_store_init web_config with Ok s => s | Err _ => [] end.

Definition web_session : store * chttp_session_context := (web_store, context_zero (replicate 6 entry_empty)).

#[export] Instance web_session_ops : SessionOps (store * chttp_session_context) :=
  server_session web_config (example_random 7) 10.

Abbreviation web_session_ok := (server_session_ok web_config (example_random 7)).

#[export] Instance web_session_lawful : LawfulSession (store * chttp_session_context) web_session_ok.
Proof. apply server_session_lawful. Qed.

Lemma web_session_good : web_session_ok web_session.
Proof.
  split; [apply example_random_ok|]. split.
  - apply (store_init_ok web_config). vm_compute. reflexivity.
  - apply (context_init_ok web_config). vm_compute. reflexivity.
Qed.

#[export] Instance web_equal : CryptoEqual := fun a b => (SALTS_OK, bytes_eqb a b).
#[export] Instance web_equal_lawful : LawfulEqual web_equal.
Proof. done. Qed.

Definition flash_config : chttp_web_flash_config :=
  {| fc_size := 40; fc_max_messages := 4; fc_max_level_bytes := 32; fc_max_text_bytes := 256;
     fc_max_serialized_bytes := 1024 |}.

Definition flash_buffer : chttp_web_flash_buffer :=
  {| fb_size := 40; fb_message_storage := true; fb_message_capacity := 4; fb_byte_storage := true;
     fb_byte_capacity := 64 |}.

Definition flash_messages : list chttp_web_flash_message :=
  [{| fl_level := bytes_of "info"; fl_text := bytes_of "saved 3:4:" |};
   {| fl_level := bytes_of "a level of more than thirty-two bytes"; fl_text := [] |};
   {| fl_level := bytes_of ""; fl_text := bytes_of "bye" |}].

(** The second message is refused. *)
Definition flash_accepted : list chttp_web_flash_message :=
  [{| fl_level := bytes_of "info"; fl_text := bytes_of "saved 3:4:" |};
   {| fl_level := bytes_of ""; fl_text := bytes_of "bye" |}].

Definition flash_pushed : store * chttp_session_context :=
  Eval vm_compute in (push_all flash_config web_session flash_messages).1.

Lemma flash_delivered_witness :
  exists session'' error, chttp_web_flash_consume flash_pushed flash_config flash_buffer = (session'', [] ++ flash_accepted, error) /\
    we_status error = CHTTP_WEB_OK /\ same_entries CHTTP_WEB_FLASH_SESSION_KEY web_session session'' /\
    flash_queue flash_config session'' = Some [].
Proof.
  apply (flash_delivered (ok := web_session_ok) flash_config web_session flash_messages [] flash_pushed flash_accepted flash_buffer).
  - exact web_session_good.
  - reflexivity.
  - vm_compute. reflexivity.
  - vm_compute. reflexivity.
  - vm_compute. repeat split; discriminate.
Defined.

Definition token_bytes : list Z := replicate 32 171.

Definition token_ensured : store * chttp_session_context * option (list Z) * chttp_web_error :=
  Eval vm_compute in chttp_web_csrf_ensure (inl token_bytes) web_session.

Lemma csrf_issued_token_witness :
  same_entries CHTTP_WEB_CSRF_SESSION_KEY web_session token_ensured.1.1 /\
  token_ensured.1.2 = Some (hex_text token_bytes) /\
  match token_ensured.1.2 with
  | None => we_status token_ensured.2 <> CHTTP_WEB_OK /\ forall k, session_get token_ensured.1.1 k = session_get web_session k
  | Some token =>
    we_status token_ensured.2 = CHTTP_WEB_OK /\
    (forall old, chttp_web_csrf_token (Some web_session) = Some old -> token = old) /\
    forall request form, chttp_web_csrf_method_unsafe (wq_method request) = true ->
      we_status (chttp_web_csrf_validate request (Some token_ensured.1.1) form) = CHTTP_WEB_OK <->
      submitted request form = Some token
  end.
Proof.
  assert (H : chttp_web_csrf_ensure (inl token_bytes) web_session = (token_ensured.1.1, token_ensured.1.2, token_ensured.2))
    by (vm_compute; reflexivity).
  destruct (csrf_issued_token (ok := web_session_ok) (inl token_bytes) web_session token_ensured.1.1 token_ensured.1.2 token_ensured.2)
    as [H1 H2].
  - exact web_session_good.
  - split; [reflexivity|]. apply Forall_replicate. unfold is_u8. lia.
  - exact H.
  - split; [exact H1|]. split; [vm_compute; reflexivity|exact H2].
Defined.

Definition csrf_post : web_request :=
  {| wq_method := CHTTP_METHOD_POST; wq_target := bytes_of "/"; wq_headers := []; wq_body_streamed := false |}.

Definition csrf_form (token : list Z) : option chttp_web_form :=
  Some {| fm_pairs := [{| fp_name := CHTTP_WEB_CSRF_FORM_FIELD; fp_value := token |}]; fm_decoded_bytes := 69 |}.

Lemma csrf_validate_correct_witness :
  we_status (chttp_web_csrf_validate csrf_post (Some token_ensured.1.1) (csrf_form (hex_text token_bytes))) = CHTTP_WEB_OK.
Proof.
  apply (csrf_validate_correct csrf_post (Some token_ensured.1.1) (csrf_form (hex_text token_bytes))).
  right. exists (hex_text token_bytes). split; vm_compute; reflexivity.
Defined.

(** A queue whose only message is empty is refused for want of byte storage
    after the check has let the missing storage pass. *)
Example empty_message_needs_bytes :
  exists session, chttp_web_flash_push web_session flash_config [] [] = (session, session_done) /\
    let '(_, _, error) := chttp_web_flash_consume session flash_config
      {| fb_size := 40; fb_message_storage := true; fb_message_capacity := 4; fb_byte_storage := false; fb_byte_capacity := 0 |} in
    we_status error = CHTTP_WEB_CAPACITY /\ we_offset error = 6.
Proof. eexists. split; [vm_compute; reflexivity|]. vm_compute. done. Qed.

End WebSessionTheorems.
