(* ===== verification/Response.v ===== *)
(** * Responses

    Model of [http_server/src/chttp_server_response.c] without deferred
    responses: the builder that a handler fills with headers and a body, and
    its serialisation as an HTTP/1 message.

    A C string is the list of its bytes without the terminator; the header
    storage, whose strings are never overwritten, is the number of its bytes in
    use.  The body buffer is its capacity, 0 for [NULL], and the bytes that
    were copied into it; a retained buffer is its bytes.  The functions of a
    body source and of its cleanup are opaque numbers.  What an operation does
    outside the builder is in [world]: the buffer budget of the server, and the
    cleanups that were called. *)

From S2P Require Import Prelude Decimal HpackBuffer Router Http1Parser ServerBuffer.

Module Response.
Import Decimal HpackBuffer Router Http1Parser ServerBuffer.

(** ** Data *)

Record chttp_body_source := {
  bs_read : Z;
  bs_content_length : Z;
  bs_content_length_known : bool;
}.

Record world := {
  w_budget : budget;
  w_cleanups : list (Z * salts_status);
}.

Record chttp_server_response_builder := {
  rb_headers : list (list Z * list Z);
  rb_header_capacity : Z;
  rb_header_storage_capacity : Z;
  rb_header_storage_used : Z;
  rb_header_wire_bytes : Z;
  rb_body : list Z;
  rb_body_capacity : Z;
  rb_retained_body : option (list Z);
  rb_body_limit : Z;
  rb_source_capacity : Z;
  rb_body_size : Z;
  rb_source_transferred : Z;
  rb_status_code : Z;
  rb_body_source : option chttp_body_source;
  rb_source_cleanup : option Z;
  rb_replied : bool;
  rb_source_enabled : bool;
  rb_deferred : bool;
}.

#[export] Instance eta_builder : Eta chttp_server_response_builder :=
  fun b => Build_chttp_server_response_builder (rb_headers b) (rb_header_capacity b)
    (rb_header_storage_capacity b) (rb_header_storage_used b) (rb_header_wire_bytes b) (rb_body b)
    (rb_body_capacity b) (rb_retained_body b) (rb_body_limit b) (rb_source_capacity b) (rb_body_size b)
    (rb_source_transferred b) (rb_status_code b) (rb_body_source b) (rb_source_cleanup b) (rb_replied b)
    (rb_source_enabled b) (rb_deferred b).
#[export] Instance set_rb_headers : Setter rb_headers. Proof. mk_setter. Defined.
#[export] Instance set_rb_header_storage_used : Setter rb_header_storage_used. Proof. mk_setter. Defined.
#[export] Instance set_rb_header_wire_bytes : Setter rb_header_wire_bytes. Proof. mk_setter. Defined.
#[export] Instance set_rb_body : Setter rb_body. Proof. mk_setter. Defined.
#[export] Instance set_rb_body_capacity : Setter rb_body_capacity. Proof. mk_setter. Defined.
#[export] Instance set_rb_retained_body : Setter rb_retained_body. Proof. mk_setter. Defined.
#[export] Instance set_rb_body_size : Setter rb_body_size. Proof. mk_setter. Defined.
#[export] Instance set_rb_source_transferred : Setter rb_source_transferred. Proof. mk_setter. Defined.
#[export] Instance set_rb_status_code : Setter rb_status_code. Proof. mk_setter. Defined.
#[export] Instance set_rb_body_source : Setter rb_body_source. Proof. mk_setter. Defined.
#[export] Instance set_rb_source_cleanup : Setter rb_source_cleanup. Proof. mk_setter. Defined.
#[export] Instance set_rb_replied : Setter rb_replied. Proof. mk_setter. Defined.
#[export] Instance set_rb_source_enabled : Setter rb_source_enabled. Proof. mk_setter. Defined.
#[export] Instance set_rb_deferred : Setter rb_deferred. Proof. mk_setter. Defined.

(** The limits of [chttp_server_config] that a builder takes over. *)
Record response_config := {
  max_response_header_count : Z;
  max_response_header_bytes : Z;
  max_response_body_bytes : Z;
  max_buffered_response_body_bytes : Z;
}.

(** ** Strings *)

Definition chttp_server_response_ascii_equal (left right : list Z) : bool :=
  bytes_eqb (map ascii_lower left) (map ascii_lower right).

Definition token_char (ch : Z) : bool :=
  ((48 <=? ch) && (ch <=? 57)) || ((65 <=? ch) && (ch <=? 90)) || ((97 <=? ch) && (ch <=? 122)) ||
  existsb (Z.eqb ch) (bytes_of "!#$%&'*+-.^_`|~").

Definition chttp_server_response_token (value : list Z) : bool :=
  negb (zlen value =? 0) && forallb token_char value.

Definition value_char (ch : Z) : bool := negb (((ch <? 32) && negb (ch =? TAB)) || (ch =? 127)).

Definition chttp_server_response_value (value : list Z) : bool := forallb value_char value.

(** ** The life of a builder *)

(** The copy itself is the string. *)
Definition chttp_server_response_storage_copy (b : chttp_server_response_builder) (value : list Z) :
    chttp_server_response_builder * salts_status :=
  let size := zlen value + 1 in
  if (rb_header_storage_capacity b <? rb_header_storage_used b) ||
     (rb_header_storage_capacity b - rb_header_storage_used b <? size) then (b, SALTS_ENOBUFS)
  else (b <| rb_header_storage_used := rb_header_storage_used b + size |>, SALTS_OK).

Definition chttp_server_response_builder_close_source (w : world) (b : chttp_server_response_builder)
    (status : salts_status) : world * chttp_server_response_builder :=
  if negb (rb_source_enabled b) then (w, b)
  else
    let cleanup := rb_source_cleanup b in
    (match cleanup with
     | Some f => {| w_budget := w_budget w; w_cleanups := w_cleanups w ++ [(f, status)] |}
     | None => w
     end,
     b <| rb_source_enabled := false |> <| rb_body_source := None |> <| rb_source_cleanup := None |>).

Definition chttp_server_response_builder_release_retained_body (b : chttp_server_response_builder) :
    chttp_server_response_builder := b <| rb_retained_body := None |>.

Definition release_body (w : world) (b : chttp_server_response_builder) : world :=
  {| w_budget := chttp_server_buffer_release (w_budget w)
                   (if rb_body_capacity b =? 0 then None else Some (rb_body_capacity b));
     w_cleanups := w_cleanups w |}.

Definition chttp_server_response_builder_reset (w : world) (b : chttp_server_response_builder) :
    world * chttp_server_response_builder :=
  let '(w, b) := chttp_server_response_builder_close_source w b SALTS_ECANCELED in
  let b := chttp_server_response_builder_release_retained_body b in
  (release_body w b,
   b <| rb_body := [] |> <| rb_body_capacity := 0 |> <| rb_headers := [] |>
     <| rb_header_storage_used := 0 |> <| rb_header_wire_bytes := 0 |> <| rb_body_size := 0 |>
     <| rb_source_transferred := 0 |> <| rb_status_code := 0 |> <| rb_replied := false |>
     <| rb_deferred := false |>).

Definition builder_zero : chttp_server_response_builder :=
  {| rb_headers := []; rb_header_capacity := 0; rb_header_storage_capacity := 0;
     rb_header_storage_used := 0; rb_header_wire_bytes := 0; rb_body := []; rb_body_capacity := 0;
     rb_retained_body := None; rb_body_limit := 0; rb_source_capacity := 0; rb_body_size := 0;
     rb_source_transferred := 0; rb_status_code := 0; rb_body_source := None;
     rb_source_cleanup := None; rb_replied := false; rb_source_enabled := false; rb_deferred := false |}.

(** [sizeof(chttp_header)] with eight-byte pointers. *)
Definition sizeof_header : Z := 16.

(** On a builder that is zero. *)
Definition chttp_server_response_builder_init {alloc : Allocator} (config : response_config) :
    outcome chttp_server_response_builder :=
  if (max_response_header_count config =? 0) || (max_response_header_bytes config =? 0) ||
     (max_response_body_bytes config =? 0) || (max_buffered_response_body_bytes config =? 0)
  then Err SALTS_EINVAL
  else if SIZE_MAX / sizeof_header <? max_response_header_count config then Err SALTS_ERANGE
  else if negb (malloc_ok (max_response_header_count config * sizeof_header)) ||
          negb (malloc_ok (max_response_header_bytes config)) then Err SALTS_ENOMEM
  else
    Ok {| rb_headers := []; rb_header_capacity := max_response_header_count config;
          rb_header_storage_capacity := max_response_header_bytes config;
          rb_header_storage_used := 0; rb_header_wire_bytes := 0; rb_body := []; rb_body_capacity := 0;
          rb_retained_body := None; rb_body_limit := max_buffered_response_body_bytes config;
          rb_source_capacity := max_response_body_bytes config; rb_body_size := 0;
          rb_source_transferred := 0; rb_status_code := 0; rb_body_source := None;
          rb_source_cleanup := None; rb_replied := false; rb_source_enabled := false;
          rb_deferred := false |}.

Definition chttp_server_response_builder_destroy (w : world) (b : chttp_server_response_builder) :
    world * chttp_server_response_builder :=
  let '(w, b) := chttp_server_response_builder_close_source w b SALTS_ECANCELED in
  let b := chttp_server_response_builder_release_retained_body b in
  (release_body w b, builder_zero).

(** ** Headers *)

(** The headers that the server writes itself. *)
Definition reserved_header (name : list Z) : bool :=
  chttp_server_response_ascii_equal name (bytes_of "Content-Length") ||
  chttp_server_response_ascii_equal name (bytes_of "Connection") ||
  chttp_server_response_ascii_equal name (bytes_of "Transfer-Encoding") ||
  chttp_server_response_ascii_equal name (bytes_of "Upgrade") ||
  chttp_server_response_ascii_equal name (bytes_of "Sec-WebSocket-Accept") ||
  chttp_server_response_ascii_equal name (bytes_of "Sec-WebSocket-Extensions").

Definition wire_size (h : list Z * list Z) : Z := zlen h.1 + zlen h.2 + 4.

Definition find_header (b : chttp_server_response_builder) (name : list Z) :
    option (nat * (list Z * list Z)) :=
  list_find (fun h => chttp_server_response_ascii_equal h.1 name = true) (rb_headers b).

Definition chttp_server_response_set_header_impl (b : chttp_server_response_builder)
    (name value : list Z) (allow_websocket_protocol : bool) :
    chttp_server_response_builder * salts_status :=
  if negb (chttp_server_response_token name) || negb (chttp_server_response_value value) then
    (b, SALTS_EINVAL)
  else if reserved_header name ||
     (negb allow_websocket_protocol &&
      chttp_server_response_ascii_equal name (bytes_of "Sec-WebSocket-Protocol")) then
    (b, SALTS_EPERM)
  else if rb_deferred b then (b, SALTS_EALREADY)
  else
    let name_size := zlen name in
    let value_size := zlen value in
    if u64 (SIZE_MAX - value_size - 4) <? name_size then (b, SALTS_ERANGE)
    else
      let size := name_size + value_size + 4 in
      match find_header b name with
      | Some (index, h) =>
        let previous := wire_size h in
        let others := u64 (rb_header_wire_bytes b - previous) in
        if (rb_header_storage_capacity b <? others) || (rb_header_storage_capacity b - others <? size)
        then (b, SALTS_ENOBUFS)
        else
          let '(b, status) := chttp_server_response_storage_copy b value in
          if negb (bool_decide (status = SALTS_OK)) then (b, status)
          else
            (b <| rb_headers := <[index := (h.1, value)]> (rb_headers b) |>
               <| rb_header_wire_bytes := u64 (rb_header_wire_bytes b - previous + size) |>, SALTS_OK)
      | None =>
        if (rb_header_capacity b <=? zlen (rb_headers b)) ||
           (rb_header_storage_capacity b <? rb_header_wire_bytes b) ||
           (rb_header_storage_capacity b - rb_header_wire_bytes b <? size) then (b, SALTS_ENOBUFS)
        else if (u64 (SIZE_MAX - value_size - 2) <? name_size) ||
           (rb_header_storage_capacity b <? rb_header_storage_used b) ||
           (rb_header_storage_capacity b - rb_header_storage_used b <? name_size + value_size + 2)
        then (b, SALTS_ENOBUFS)
        else
          let '(b, status) := chttp_server_response_storage_copy b name in
          if negb (bool_decide (status = SALTS_OK)) then (b, status)
          else
            let '(b, status) := chttp_server_response_storage_copy b value in
            if negb (bool_decide (status = SALTS_OK)) then (b, status)
            else
              (b <| rb_headers := rb_headers b ++ [(name, value)] |>
                 <| rb_header_wire_bytes := rb_header_wire_bytes b + size |>, SALTS_OK)
      end.

Definition chttp_server_response_set_header (b : chttp_server_response_builder)
    (name value : list Z) : chttp_server_response_builder * salts_status :=
  chttp_server_response_set_header_impl b name value false.

Definition chttp_server_response_append_vary (b : chttp_server_response_builder) (fields : list Z) :
    chttp_server_response_builder * salts_status :=
  let extra := zlen fields in
  if rb_deferred b then (b, SALTS_EALREADY)
  else
    match find_header b (bytes_of "Vary") with
    | Some (index, h) =>
      if bytes_eqb h.2 (bytes_of "*") then (b, SALTS_OK)
      else
        let previous := zlen h.2 in
        if u64 (SIZE_MAX - extra - 3) <? previous then (b, SALTS_ERANGE)
        else
          let needed := previous + extra + 3 in
          if (u64 (rb_header_storage_capacity b - rb_header_storage_used b) <? needed) ||
             (u64 (rb_header_storage_capacity b - rb_header_wire_bytes b) <? extra + 2)
          then (b, SALTS_ENOBUFS)
          else
            (b <| rb_headers := <[index := (h.1, h.2 ++ bytes_of ", " ++ fields)]> (rb_headers b) |>
               <| rb_header_storage_used := rb_header_storage_used b + needed |>
               <| rb_header_wire_bytes := rb_header_wire_bytes b + (extra + 2) |>, SALTS_OK)
    | None => chttp_server_response_set_header b (bytes_of "Vary") fields
    end.

(** ** The selection of a subprotocol *)

Definition COMMA : Z := 44.

(** The members of a list; a member ends at a comma or at the end. *)
Fixpoint list_members_loop (value current : list Z) : list (list Z) :=
  match value with
  | [] => [current]
  | ch :: value =>
    if ch =? COMMA then
      match value with [] => [current] | _ => current :: list_members_loop value [] end
    else list_members_loop value (current ++ [ch])
  end.

Definition list_members (value : list Z) : list (list Z) :=
  match value with [] => [] | _ => list_members_loop value [] end.

Definition chttp_server_response_subprotocol_offered (headers : list (list Z * list Z))
    (subprotocol : list Z) : bool :=
  existsb (fun h =>
    chttp_server_response_ascii_equal h.1 (bytes_of "Sec-WebSocket-Protocol") &&
    existsb (fun member => bytes_eqb (chttp_server_trim_ows member) subprotocol) (list_members h.2))
    headers.

Definition chttp_server_response_select_websocket_subprotocol (b : chttp_server_response_builder)
    (headers : list (list Z * list Z)) (subprotocol : list Z) :
    chttp_server_response_builder * salts_status :=
  if negb (chttp_server_response_token subprotocol) then (b, SALTS_EINVAL)
  else if negb (chttp_server_response_subprotocol_offered headers subprotocol) then (b, SALTS_EPROTO)
  else chttp_server_response_set_header_impl b (bytes_of "Sec-WebSocket-Protocol") subprotocol true.

(** ** Replies *)

Definition status_code_invalid (status_code : Z) : bool := (status_code <? 200) || (599 <? status_code).

(** Statuses without a body. *)
Definition bodiless (status_code : Z) : bool :=
  (status_code =? 204) || (status_code =? 205) || (status_code =? 304).

Definition empty_type (content_type : option (list Z)) : bool :=
  match content_type with Some t => zlen t =? 0 | None => false end.

Definition set_content_type (b : chttp_server_response_builder) (content_type : option (list Z)) :
    chttp_server_response_builder * salts_status :=
  match content_type with
  | Some t => chttp_server_response_set_header b (bytes_of "Content-Type") t
  | None => (b, SALTS_OK)
  end.

(** The growth of the body buffer; its loop ends ([grow_plan_spec]), so that the
    last case does not occur. *)
Definition grow_body {alloc : Allocator} (w : world) (b : chttp_server_response_builder)
    (body_size : Z) : world * chttp_server_response_builder * salts_status :=
  match chttp_server_buffer_grow (w_budget w) (rb_body_capacity b) body_size (rb_body_limit b) 0 with
  | Some (budget, status, capacity) =>
    ({| w_budget := budget; w_cleanups := w_cleanups w |}, b <| rb_body_capacity := capacity |>, status)
  | None => (w, b, SALTS_ENOBUFS)
  end.

Definition chttp_server_reply {alloc : Allocator} (w : world) (b : chttp_server_response_builder)
    (status_code : Z) (content_type : option (list Z)) (body : list Z) :
    world * chttp_server_response_builder * salts_status :=
  let body_size := zlen body in
  if status_code_invalid status_code || empty_type content_type then (w, b, SALTS_EINVAL)
  else if bodiless status_code && negb (body_size =? 0) then (w, b, SALTS_EINVAL)
  else if rb_deferred b then (w, b, SALTS_EALREADY)
  else if rb_replied b then (w, b, SALTS_EALREADY)
  else if rb_body_limit b <? body_size then (w, b, SALTS_EMSGSIZE)
  else
    let '(w, b, status) := if negb (body_size =? 0) then grow_body w b body_size else (w, b, SALTS_OK) in
    if negb (bool_decide (status = SALTS_OK)) then (w, b, status)
    else
      let '(b, status) := set_content_type b content_type in
      if negb (bool_decide (status = SALTS_OK)) then (w, b, status)
      else
        (w, (if negb (body_size =? 0) then b <| rb_body := body |> else b)
              <| rb_body_size := body_size |> <| rb_status_code := status_code |>
              <| rb_replied := true |>, SALTS_OK).

(** [body] is a buffer of the memory library, with the bytes it holds. *)
Definition chttp_server_reply_buffer (b : chttp_server_response_builder) (status_code : Z)
    (content_type : option (list Z)) (body : option (list Z)) :
    chttp_server_response_builder * salts_status :=
  let body_size := match body with Some body => zlen body | None => 0 end in
  if status_code_invalid status_code || empty_type content_type then (b, SALTS_EINVAL)
  else if bodiless status_code && negb (body_size =? 0) then (b, SALTS_EINVAL)
  else if rb_deferred b || rb_replied b then (b, SALTS_EALREADY)
  else if rb_body_limit b <? body_size then (b, SALTS_EMSGSIZE)
  else
    let '(b, status) := set_content_type b content_type in
    if negb (bool_decide (status = SALTS_OK)) then (b, status)
    else
      (b <| rb_retained_body := body |> <| rb_body_size := body_size |>
         <| rb_status_code := status_code |> <| rb_replied := true |>, SALTS_OK).

Definition chttp_server_response_source_owned (b : chttp_server_response_builder) (status_code : Z)
    (content_type : option (list Z)) (source : chttp_body_source) (cleanup : option Z) :
    chttp_server_response_builder * salts_status :=
  if status_code_invalid status_code || empty_type content_type || bodiless status_code then
    (b, SALTS_EINVAL)
  else if rb_deferred b then (b, SALTS_EALREADY)
  else if rb_replied b then (b, SALTS_EALREADY)
  else if bs_content_length_known source && (rb_source_capacity b <? bs_content_length source) then
    (b, SALTS_EMSGSIZE)
  else
    let '(b, status) := set_content_type b content_type in
    if negb (bool_decide (status = SALTS_OK)) then (b, status)
    else
      (b <| rb_body_source := Some source |> <| rb_source_cleanup := cleanup |>
         <| rb_body_size := if bs_content_length_known source then bs_content_length source else 0 |>
         <| rb_source_transferred := 0 |> <| rb_status_code := status_code |>
         <| rb_source_enabled := true |> <| rb_replied := true |>, SALTS_OK).

Definition chttp_server_response_source_with_cleanup := chttp_server_response_source_owned.

Definition chttp_server_response_source (b : chttp_server_response_builder) (status_code : Z)
    (content_type : option (list Z)) (source : chttp_body_source) :
    chttp_server_response_builder * salts_status :=
  chttp_server_response_source_with_cleanup b status_code content_type source None.

(** ** Dates *)

Record tm := {
  tm_sec : Z;
  tm_min : Z;
  tm_hour : Z;
  tm_mday : Z;
  tm_mon : Z;
  tm_year : Z;
  tm_wday : Z;
}.

(** [cmeta_gmtime] of the platform library. *)
Class Gmtime := cmeta_gmtime : Z -> option tm.

Definition CHTTP_SERVER_DATE_BYTES : Z := 29.

Definition weekdays : list (list Z) :=
  [bytes_of "Sun"; bytes_of "Mon"; bytes_of "Tue"; bytes_of "Wed"; bytes_of "Thu"; bytes_of "Fri";
   bytes_of "Sat"].

Definition months : list (list Z) :=
  [bytes_of "Jan"; bytes_of "Feb"; bytes_of "Mar"; bytes_of "Apr"; bytes_of "May"; bytes_of "Jun";
   bytes_of "Jul"; bytes_of "Aug"; bytes_of "Sep"; bytes_of "Oct"; bytes_of "Nov"; bytes_of "Dec"].

(** [%0nd] of a number that is not negative. *)
Definition padded (n : nat) (value : Z) : list Z :=
  let digits := decimal value in replicate (n - length digits) 48 ++ digits.

Definition date_text (utc : tm) : list Z :=
  nth (Z.to_nat (tm_wday utc)) weekdays [] ++ bytes_of ", " ++ padded 2 (tm_mday utc) ++ bytes_of " " ++
  nth (Z.to_nat (tm_mon utc)) months [] ++ bytes_of " " ++ padded 4 (tm_year utc + 1900) ++
  bytes_of " " ++ padded 2 (tm_hour utc) ++ bytes_of ":" ++ padded 2 (tm_min utc) ++ bytes_of ":" ++
  padded 2 (tm_sec utc) ++ bytes_of " GMT".

Section Serialize.
Context {gmtime : Gmtime}.

Definition chttp_server_format_date (value : Z) : outcome (list Z) :=
  match cmeta_gmtime value with
  | None => Err SALTS_EIO
  | Some utc =>
    if (tm_year utc <? 0) || (9999 - 1900 <? tm_year utc) then Err SALTS_ERANGE
    else
      let output := date_text utc in
      if zlen output =? CHTTP_SERVER_DATE_BYTES then Ok output else Err SALTS_ERANGE
  end.

(** The empty string when the handler set the date itself; [now_ms] is the
    clock. *)
Definition chttp_server_response_date (headers : list (list Z * list Z)) (now_ms : Z) :
    outcome (list Z) :=
  if existsb (fun h => chttp_server_response_ascii_equal h.1 (bytes_of "Date")) headers then Ok []
  else chttp_server_format_date (now_ms / 1000).

(** ** The message *)

Definition chttp_server_reason (status_code : Z) : list Z :=
  match status_code with
  | 100 => bytes_of "Continue"
  | 200 => bytes_of "OK"
  | 201 => bytes_of "Created"
  | 202 => bytes_of "Accepted"
  | 204 => bytes_of "No Content"
  | 205 => bytes_of "Reset Content"
  | 304 => bytes_of "Not Modified"
  | 206 => bytes_of "Partial Content"
  | 412 => bytes_of "Precondition Failed"
  | 416 => bytes_of "Range Not Satisfiable"
  | 400 => bytes_of "Bad Request"
  | 401 => bytes_of "Unauthorized"
  | 404 => bytes_of "Not Found"
  | 405 => bytes_of "Method Not Allowed"
  | 413 => bytes_of "Content Too Large"
  | 414 => bytes_of "URI Too Long"
  | 417 => bytes_of "Expectation Failed"
  | 426 => bytes_of "Upgrade Required"
  | 431 => bytes_of "Request Header Fields Too Large"
  | 500 => bytes_of "Internal Server Error"
  | 501 => bytes_of "Not Implemented"
  | 505 => bytes_of "HTTP Version Not Supported"
  | _ => bytes_of "Unknown"
  end.

Definition CRLF : list Z := [CR; LF].

(** The output with the bytes appended. *)
Definition chttp_server_output_append (capacity : Z) (output data : list Z) : list Z * salts_status :=
  if (capacity <? zlen output) || (capacity - zlen output <? zlen data) then (output, SALTS_EMSGSIZE)
  else (output ++ data, SALTS_OK).

(** Runs the next append only after a success. *)
Definition then_append (capacity : Z) (r : list Z * salts_status) (data : list Z) : list Z * salts_status :=
  match r with
  | (output, SALTS_OK) => chttp_server_output_append capacity output data
  | _ => r
  end.

Definition LINE_BYTES : Z := 128.

(** A line formatted into the local array, which must hold its terminator. *)
Definition then_line (capacity : Z) (r : list Z * salts_status) (line : list Z) : list Z * salts_status :=
  match r with
  | (output, SALTS_OK) =>
    if LINE_BYTES <=? zlen line then (output, SALTS_EMSGSIZE)
    else chttp_server_output_append capacity output line
  | _ => r
  end.

Fixpoint append_headers (capacity : Z) (r : list Z * salts_status) (headers : list (list Z * list Z)) :
    list Z * salts_status :=
  match headers with
  | [] => r
  | h :: headers =>
    let r := then_append capacity r h.1 in
    let r := then_append capacity r (bytes_of ": ") in
    let r := then_append capacity r h.2 in
    let r := then_append capacity r CRLF in
    append_headers capacity r headers
  end.

Definition connection_line (protocol_keep_alive : bool) : list Z :=
  bytes_of "Connection: " ++ (if protocol_keep_alive then bytes_of "keep-alive" else bytes_of "close") ++
  CRLF ++ CRLF.

(** The length of a source whose length is known. *)
Definition source_length_known (b : chttp_server_response_builder) : bool :=
  match rb_body_source b with Some source => bs_content_length_known source | None => false end.

Definition framing_lines (b : chttp_server_response_builder) (request : chttp_server_request_view) : list Z :=
  if (rb_status_code b =? 204) || (rb_status_code b =? 304) then
    connection_line (rv_protocol_keep_alive request)
  else if rb_source_enabled b && negb (source_length_known b) && (rv_http_major request =? 1) &&
          (rv_http_minor request =? 1) then
    bytes_of "Transfer-Encoding: chunked" ++ CRLF ++ connection_line (rv_protocol_keep_alive request)
  else if rb_source_enabled b && negb (source_length_known b) then connection_line false
  else
    bytes_of "Content-Length: " ++ decimal_size (rb_body_size b) ++ CRLF ++
    connection_line (rv_protocol_keep_alive request).

Definition status_line (b : chttp_server_response_builder) (request : chttp_server_request_view) : list Z :=
  bytes_of "HTTP/" ++ decimal (rv_http_major request) ++ bytes_of "." ++ decimal (rv_http_minor request) ++
  bytes_of " " ++ decimal (rb_status_code b) ++ bytes_of " " ++ chttp_server_reason (rb_status_code b) ++
  CRLF.

(** The bytes that follow the head: the first [body_size] of the buffer. *)
Definition body_bytes (b : chttp_server_response_builder) (request : chttp_server_request_view)
    (include_body : bool) : option (list Z) :=
  let body_size :=
    if include_body && negb (rv_method request =? CHTTP_METHOD_HEAD) && negb (rb_source_enabled b)
    then rb_body_size b else 0 in
  if body_size =? 0 then Some []
  else
    match rb_retained_body b with
    | Some body => Some (ztake body_size body)
    | None => if rb_body_capacity b =? 0 then None else Some (ztake body_size (rb_body b))
    end.

(** A failure gives the output back as it was. *)
Definition chttp_server_response_serialize_impl (b : chttp_server_response_builder)
    (request : chttp_server_request_view) (now_ms capacity : Z) (output : list Z) (include_body : bool) :
    list Z * salts_status :=
  if negb (rb_replied b) then (output, SALTS_EINVAL)
  else
    match chttp_server_response_date (rb_headers b) now_ms with
    | Err status => (output, status)
    | Ok date =>
      match body_bytes b request include_body with
      | None => (output, SALTS_EPROTO)
      | Some body =>
        let r := then_line capacity (output, SALTS_OK) (status_line b request) in
        let r := if zlen date =? 0 then r
                 else then_line capacity r (bytes_of "Date: " ++ date ++ CRLF) in
        let r := append_headers capacity r (rb_headers b) in
        let r := then_line capacity r (framing_lines b request) in
        let r := then_append capacity r body in
        if bool_decide (r.2 = SALTS_OK) then r else (output, r.2)
      end
    end.

Definition chttp_server_response_serialize (b : chttp_server_response_builder)
    (request : chttp_server_request_view) (now_ms capacity : Z) (output : list Z) : list Z * salts_status :=
  chttp_server_response_serialize_impl b request now_ms capacity output true.

Definition chttp_server_response_serialize_headers (b : chttp_server_response_builder)
    (request : chttp_server_request_view) (now_ms capacity : Z) (output : list Z) : list Z * salts_status :=
  chttp_server_response_serialize_impl b request now_ms capacity output false.

Definition ERROR_WIRE_BYTES : Z := 256.

Definition chttp_server_error_serialize (status_code now_ms capacity : Z) (output : list Z) :
    list Z * salts_status :=
  if (status_code <? 400) || (599 <? status_code) then (output, SALTS_EINVAL)
  else
    match chttp_server_response_date [] now_ms with
    | Err status => (output, status)
    | Ok date =>
      let reason := chttp_server_reason status_code in
      let wire :=
        bytes_of "HTTP/1.1 " ++ decimal status_code ++ bytes_of " " ++ reason ++ CRLF ++
        bytes_of "Date: " ++ date ++ CRLF ++
        (if status_code =? 426 then bytes_of "Sec-WebSocket-Version: 13" ++ CRLF else []) ++
        bytes_of "Content-Type: text/plain" ++ CRLF ++
        bytes_of "Content-Length: " ++ decimal_size (zlen reason) ++ CRLF ++
        bytes_of "Connection: close" ++ CRLF ++ CRLF ++ reason in
      if ERROR_WIRE_BYTES <=? zlen wire then (output, SALTS_EMSGSIZE)
      else chttp_server_output_append capacity output wire
    end.

End Serialize.

End Response.
