(* ===== verification/ResponseTheorems.v ===== *)
(** * Responses: the builder

    The invariant of a response builder and that every operation keeps it; what
    setting a header does; that the budget of the server is charged with
    exactly the body of the builder, and that the cleanup of every source that
    was accepted is called exactly once. *)

From S2P Require Import Prelude Decimal HpackBuffer Router Http1Parser ServerBuffer Response.

Module ResponseTheorems.
Import Decimal HpackBuffer Router Http1Parser ServerBuffer Response.

(** ** The invariant *)

Definition sum_by (f : list Z * list Z -> Z) (headers : list (list Z * list Z)) : Z :=
  foldr (fun h n => f h + n) 0 headers.
Arguments sum_by : simpl never.

Definition wire_total := sum_by wire_size.

(** The bytes of the strings with their terminators. *)
Definition storage_size (h : list Z * list Z) : Z := zlen h.1 + zlen h.2 + 2.
Definition storage_total := sum_by storage_size.

Definition header_ok (h : list Z * list Z) : Prop :=
  chttp_server_response_token h.1 = true /\ chttp_server_response_value h.2 = true /\ reserved_header h.1 = false.

Definition folded (name : list Z) : list Z := map ascii_lower name.

Definition names (headers : list (list Z * list Z)) : list (list Z) := map (fun h => folded h.1) headers.

(** The body is within the limit for its kind: that of a buffered body, or that
    of a source that knows its length. *)
Definition body_within (b : chttp_server_response_builder) : Prop :=
  if rb_source_enabled b then
    match rb_body_source b with
    | Some source => bs_content_length_known source = true -> rb_body_size b <= rb_source_capacity b
    | None => False
    end
  else rb_body_size b <= rb_body_limit b.

(** What a reply leaves in the builder. *)
Definition reply_ok (b : chttp_server_response_builder) : Prop :=
  200 <= rb_status_code b <= 599 /\ 0 <= rb_body_size b <= SIZE_MAX /\ body_within b /\
  (bodiless (rb_status_code b) = true -> rb_body_size b = 0 /\ rb_source_enabled b = false) /\
  if rb_source_enabled b then
    match rb_body_source b with
    | Some source => bs_content_length_known source = true -> rb_body_size b = bs_content_length source
    | None => False
    end
  else
    match rb_retained_body b with
    | Some body => rb_body_size b = zlen body
    | None => rb_body_size b <> 0 -> rb_body_capacity b <> 0 /\ rb_body_size b = zlen (rb_body b)
    end.

Record builder_wf (b : chttp_server_response_builder) : Prop := {
  bw_count : zlen (rb_headers b) <= rb_header_capacity b;
  bw_wire : rb_header_wire_bytes b = wire_total (rb_headers b);
  bw_wire_limit : wire_total (rb_headers b) <= rb_header_storage_capacity b;
  bw_used : storage_total (rb_headers b) <= rb_header_storage_used b <= rb_header_storage_capacity b;
  bw_capacity : rb_header_storage_capacity b <= SIZE_MAX;
  bw_limits : 0 <= rb_body_limit b <= SIZE_MAX /\ 0 <= rb_source_capacity b <= SIZE_MAX;
  bw_headers : Forall header_ok (rb_headers b);
  bw_distinct : NoDup (names (rb_headers b));
  bw_reply : if rb_replied b then reply_ok b else rb_source_enabled b = false /\ rb_retained_body b = None;
}.

(** ** Sums and names *)

Lemma sum_by_cons f h l : sum_by f (h :: l) = f h + sum_by f l.
Proof. done. Qed.

Lemma sum_by_app f a b : sum_by f (a ++ b) = sum_by f a + sum_by f b.
Proof. induction a as [|h a IH]; [done|]. cbn [app]. rewrite !sum_by_cons, IH. lia. Qed.

Lemma sum_by_insert f headers i h h' : headers !! i = Some h ->
  sum_by f (<[i := h']> headers) = sum_by f headers - f h + f h'.
Proof.
  revert i. induction headers as [|x l IH]; intros i; [done|]. destruct i as [|i].
  - intros [= ->]. change (<[0%nat := h']> (h :: l)) with (h' :: l). rewrite !sum_by_cons. lia.
  - intros Hi. change (<[S i := h']> (x :: l)) with (x :: <[i := h']> l). rewrite !sum_by_cons, (IH i Hi). lia.
Qed.

Lemma sum_by_nonneg f headers : (forall h, 0 <= f h) -> 0 <= sum_by f headers.
Proof. intros Hf. induction headers as [|h l IH]; [done|]. rewrite sum_by_cons. specialize (Hf h). lia. Qed.

Lemma wire_size_nonneg h : 0 <= wire_size h.
Proof. unfold wire_size. pose proof (zlen_nonneg h.1). pose proof (zlen_nonneg h.2). lia. Qed.

Lemma storage_size_nonneg h : 0 <= storage_size h.
Proof. unfold storage_size. pose proof (zlen_nonneg h.1). pose proof (zlen_nonneg h.2). lia. Qed.

Lemma sum_by_member f headers i h : (forall h, 0 <= f h) -> headers !! i = Some h -> f h <= sum_by f headers.
Proof.
  intros Hf Hi. rewrite <- (take_drop_middle _ _ _ Hi), sum_by_app, sum_by_cons.
  pose proof (sum_by_nonneg f (take i headers) Hf). pose proof (sum_by_nonneg f (drop (S i) headers) Hf). lia.
Qed.

Lemma ascii_equal_folded a b : chttp_server_response_ascii_equal a b = true <-> folded a = folded b.
Proof. apply bytes_eqb_eq. Qed.

Lemma names_insert headers i h value : headers !! i = Some h -> names (<[i := (h.1, value)]> headers) = names headers.
Proof.
  intros Hi. unfold names. rewrite list_fmap_insert. apply list_insert_id. rewrite list_lookup_fmap, Hi. done.
Qed.

(** ** Setting a header *)

(** The header with the name in its place, or a new one at the end. *)
Definition upsert (headers : list (list Z * list Z)) (name value : list Z) : list (list Z * list Z) :=
  match list_find (fun h => chttp_server_response_ascii_equal h.1 name = true) headers with
  | Some (index, h) => <[index := (h.1, value)]> headers
  | None => headers ++ [(name, value)]
  end.

(** The builder with other headers, and the bytes that they take. *)
Definition with_headers (b : chttp_server_response_builder) (headers : list (list Z * list Z)) (used : Z) :
    chttp_server_response_builder :=
  b <| rb_headers := headers |> <| rb_header_storage_used := used |> <| rb_header_wire_bytes := wire_total headers |>.

Lemma storage_copy_ok b value : zlen value + 1 <= rb_header_storage_capacity b - rb_header_storage_used b ->
  chttp_server_response_storage_copy b value =
  (b <| rb_header_storage_used := rb_header_storage_used b + (zlen value + 1) |>, SALTS_OK).
Proof.
  intros H. unfold chttp_server_response_storage_copy. cbv zeta. pose proof (zlen_nonneg value).
  by rewrite (proj2 (Z.ltb_ge _ _)), (proj2 (Z.ltb_ge _ _)) by lia.
Qed.

Lemma storage_copy_cases b value :
  chttp_server_response_storage_copy b value = (b, SALTS_ENOBUFS) \/
  zlen value + 1 <= rb_header_storage_capacity b - rb_header_storage_used b /\
  chttp_server_response_storage_copy b value =
  (b <| rb_header_storage_used := rb_header_storage_used b + (zlen value + 1) |>, SALTS_OK).
Proof.
  unfold chttp_server_response_storage_copy. cbv zeta. split_if; [by left|]. right. split; [lia|done].
Qed.

Lemma u64_id z : 0 <= z <= SIZE_MAX -> u64 z = z.
Proof. intros. unfold u64. apply Z.mod_small. zlia. Qed.

Lemma set_header_impl_cases b name value allow : builder_wf b ->
  let '(b', status) := chttp_server_response_set_header_impl b name value allow in
  (status <> SALTS_OK /\ b' = b) \/
  (status = SALTS_OK /\ header_ok (name, value) /\ rb_deferred b = false /\
   exists used, b' = with_headers b (upsert (rb_headers b) name value) used /\
     builder_wf b').
Proof.
  intros Hb. pose proof Hb as [H1 H2 H3 [H4 H4'] H5 H6 H7 H8 H9].
  unfold chttp_server_response_set_header_impl. split_if; [by left|]. split_if; [by left|]. split_if; [by left|]. cbv zeta.
  split_if; [by left|]. assert (header_ok (name, value)) as Hok by done.
  unfold find_header, upsert.
  destruct (list_find _ (rb_headers b)) as [[i h]|] eqn:Ef.
  - apply list_find_Some in Ef as (Hi & He & _). apply ascii_equal_folded in He.
    assert (wire_size h <= rb_header_wire_bytes b) as Hle by (rewrite H2; eapply sum_by_member; [apply wire_size_nonneg|done]).
    pose proof (wire_size_nonneg h). pose proof (wire_size_nonneg (name, value)) as Hw. unfold wire_size in Hw at 1. cbn [fst snd] in Hw.
    rewrite (u64_id (rb_header_wire_bytes b - wire_size h)) by lia. split_if; [by left|].
    destruct (storage_copy_cases b value) as [->|[Hroom ->]]; [by left|]. cbn [rb_headers set eta bool_decide].
    rewrite bool_decide_true by done. cbn [negb]. right. split_and!; try done.
    assert (wire_total (<[i := (h.1, value)]> (rb_headers b)) = rb_header_wire_bytes b - wire_size h + (zlen name + zlen value + 4)) as Hsum.
    { unfold wire_total. rewrite (sum_by_insert _ _ _ _ _ Hi), H2. unfold wire_size at 4. cbn [fst snd]. f_equal.
      assert (zlen name = zlen h.1) as ->; [|done]. unfold zlen, folded in *. f_equal.
      rewrite <- (length_map ascii_lower name), <- (length_map ascii_lower h.1). by rewrite He. }
    exists (rb_header_storage_used b + (zlen value + 1)). split.
    { unfold with_headers. cbn. rewrite Hsum, u64_id by lia. done. }
    pose proof (zlen_nonneg value). constructor; try done.
    + cbn. unfold zlen in *. by rewrite length_insert.
    + cbn. rewrite Hsum, u64_id by lia. done.
    + cbn. rewrite Hsum. lia.
    + cbn. split; [|lia]. unfold storage_total. rewrite (sum_by_insert _ _ _ _ _ Hi). unfold storage_size at 2 3. cbn [fst snd].
      pose proof (zlen_nonneg h.2). unfold storage_total in H4. lia.
    + cbn. apply Forall_insert; [done|]. split_and!; try done; by apply (Forall_lookup_1 _ _ _ _ H7 Hi).
    + cbn. by rewrite names_insert.
  - pose proof (zlen_nonneg name). pose proof (zlen_nonneg value).
    split_if; [by left|]. split_if; [by left|]. rewrite storage_copy_ok by (cbn; lia). rewrite bool_decide_true by done. cbn [negb].
    rewrite storage_copy_ok by (cbn; lia). rewrite bool_decide_true by done. cbn [negb]. right. split_and!; try done.
    exists (rb_header_storage_used b + (zlen name + 1) + (zlen value + 1)).
    assert (wire_total (rb_headers b ++ [(name, value)]) = rb_header_wire_bytes b + (zlen name + zlen value + 4)) as Hsum.
    { unfold wire_total. rewrite sum_by_app, sum_by_cons, H2. change (sum_by wire_size []) with 0. unfold wire_size at 2. cbn [fst snd]. unfold wire_total. lia. }
    split. { unfold with_headers. cbn. by rewrite Hsum. }
    constructor; try done.
    + cbn. rewrite zlen_app. change (zlen [(name, value)]) with 1. lia.
    + cbn. rewrite Hsum. lia.
    + cbn. unfold storage_total. rewrite sum_by_app, sum_by_cons. change (sum_by storage_size []) with 0. unfold storage_size at 2. cbn [fst snd]. unfold storage_total in H4. lia.
    + cbn. apply Forall_app. split; [done|]. apply Forall_cons_2; [done|apply Forall_nil_2].
    + cbn. unfold names. rewrite map_app. apply NoDup_app. split_and!; [done| |apply NoDup_singleton].
      intros n Hn Hin. apply list_elem_of_singleton in Hin. subst n. apply list_elem_of_fmap in Hn as (h & Hh & Hin).
      apply list_find_None in Ef. rewrite Forall_forall in Ef. apply (Ef h Hin). by apply ascii_equal_folded.
Qed.

Lemma set_header_cases b name value : builder_wf b ->
  let '(b', status) := chttp_server_response_set_header b name value in
  (status <> SALTS_OK /\ b' = b) \/
  (status = SALTS_OK /\ header_ok (name, value) /\ rb_deferred b = false /\
   exists used, b' = with_headers b (upsert (rb_headers b) name value) used /\ builder_wf b').
Proof. apply set_header_impl_cases. Qed.

Lemma append_vary_cases b fields : builder_wf b -> chttp_server_response_value fields = true ->
  let '(b', status) := chttp_server_response_append_vary b fields in
  (status <> SALTS_OK /\ b' = b) \/
  (status = SALTS_OK /\ exists headers used, b' = with_headers b headers used /\ builder_wf b').
Proof.
  intros Hb Hv. unfold chttp_server_response_append_vary. cbv zeta. split_if; [by left|].
  destruct (find_header b (bytes_of "Vary")) as [[i h]|] eqn:Ef.
  2: { pose proof (set_header_cases b (bytes_of "Vary") fields Hb) as H.
       destruct (chttp_server_response_set_header _ _ _) as [b' status]. destruct H as [?|(? & _ & _ & ? & ? & ?)]; [by left|right; eauto]. }
  pose proof Hb as [H1 H2 H3 [H4 H4'] H5 H6 H7 H8 H9]. pose proof (zlen_nonneg fields). pose proof (zlen_nonneg h.2).
  split_if.
  { right. split; [done|]. exists (rb_headers b), (rb_header_storage_used b). split; [|done].
    unfold with_headers. rewrite <- H2. by destruct b. }
  split_if; [by left|]. apply list_find_Some in Ef as (Hi & He & _).
  assert (0 <= storage_total (rb_headers b)) by apply sum_by_nonneg, storage_size_nonneg.
  assert (0 <= wire_total (rb_headers b)) by apply sum_by_nonneg, wire_size_nonneg.
  rewrite !u64_id by lia.
  split_if; [by left|]. right. split; [done|].
  assert (zlen (h.2 ++ bytes_of ", " ++ fields) = zlen h.2 + (zlen fields + 2)) as Hlen.
  { rewrite !zlen_app. change (zlen (bytes_of ", ")) with 2. lia. }
  assert (wire_total (<[i := (h.1, h.2 ++ bytes_of ", " ++ fields)]> (rb_headers b)) = rb_header_wire_bytes b + (zlen fields + 2)) as Hsum.
  { unfold wire_total. rewrite (sum_by_insert _ _ _ _ _ Hi), H2. unfold wire_size at 2 3. cbn [fst snd]. rewrite Hlen. unfold wire_total. lia. }
  eexists _, _. split; [unfold with_headers; cbn; by rewrite Hsum|].
  destruct (Forall_lookup_1 _ _ _ _ H7 Hi) as (Ht & Hval & Hres).
  constructor; try done.
  - cbn. unfold zlen in *. by rewrite length_insert.
  - apply (Z.le_trans _ _ _ (Z.eq_le_incl _ _ Hsum)). cbn. lia.
  - change (storage_total (<[i := (h.1, h.2 ++ bytes_of ", " ++ fields)]> (rb_headers b)) <= rb_header_storage_used b + (zlen h.2 + zlen fields + 3) <= rb_header_storage_capacity b).
    split; [|lia]. unfold storage_total. rewrite (sum_by_insert _ _ _ _ _ Hi). unfold storage_size at 2 3. cbn [fst snd].
    rewrite Hlen. unfold storage_total in H4. lia.
  - apply (Forall_insert _ _ _ (h.1, h.2 ++ bytes_of ", " ++ fields)); [done|]. split_and!; try done. cbn [snd]. unfold chttp_server_response_value in *.
    rewrite !forallb_app, Hval, Hv. done.
  - cbn. by rewrite names_insert.
Qed.

(** ** Operations *)

Definition same_limits (b b' : chttp_server_response_builder) : Prop :=
  rb_headers b' = rb_headers b /\ rb_header_capacity b' = rb_header_capacity b /\
  rb_header_storage_capacity b' = rb_header_storage_capacity b /\
  rb_header_storage_used b' = rb_header_storage_used b /\ rb_header_wire_bytes b' = rb_header_wire_bytes b /\
  rb_body_limit b' = rb_body_limit b /\ rb_source_capacity b' = rb_source_capacity b.

Lemma wf_same b b' : builder_wf b -> same_limits b b' ->
  (if rb_replied b' then reply_ok b' else rb_source_enabled b' = false /\ rb_retained_body b' = None) -> builder_wf b'.
Proof.
  intros [H1 H2 H3 H4 H5 H6 H7 H8 H9] (E1 & E2 & E3 & E4 & E5 & E6 & E7) Hr. constructor; rewrite ?E1, ?E2, ?E3, ?E4, ?E5, ?E6, ?E7; done.
Qed.

(** What a builder holds: bytes of the budget, and the cleanup of its source. *)
Definition charge (w : world) (b : chttp_server_response_builder) : Z :=
  buffer_bytes (w_budget w) - rb_body_capacity b.

Definition owed (w : world) (b : chttp_server_response_builder) : list Z :=
  map fst (w_cleanups w) ++ (if rb_source_enabled b then option_list (rb_source_cleanup b) else []).

Inductive response_op :=
  | OpSetHeader (name value : list Z)
  | OpVary (fields : list Z)
  | OpSubprotocol (headers : list (list Z * list Z)) (subprotocol : list Z)
  | OpReply (status_code : Z) (content_type : option (list Z)) (body : list Z)
  | OpReplyBuffer (status_code : Z) (content_type : option (list Z)) (body : option (list Z))
  | OpSource (status_code : Z) (content_type : option (list Z)) (source : chttp_body_source) (cleanup : option Z)
  | OpReset
  | OpAbandon (status : salts_status).

(** Numbers of type [size_t], and the fields of [Vary], which the server
    chooses. *)
Definition op_ok (op : response_op) : Prop :=
  match op with
  | OpVary fields => chttp_server_response_value fields = true
  | OpSource _ _ source _ => 0 <= bs_content_length source <= SIZE_MAX
  | _ => True
  end.

Section Run.
Context {alloc : Allocator}.

Definition run_op (w : world) (b : chttp_server_response_builder) (op : response_op) :
    world * chttp_server_response_builder * salts_status :=
  let pure (r : chttp_server_response_builder * salts_status) := (w, r.1, r.2) in
  match op with
  | OpSetHeader name value => pure (chttp_server_response_set_header b name value)
  | OpVary fields => pure (chttp_server_response_append_vary b fields)
  | OpSubprotocol headers subprotocol =>
    pure (chttp_server_response_select_websocket_subprotocol b headers subprotocol)
  | OpReply status_code content_type body => chttp_server_reply w b status_code content_type body
  | OpReplyBuffer status_code content_type body => pure (chttp_server_reply_buffer b status_code content_type body)
  | OpSource status_code content_type source cleanup =>
    pure (chttp_server_response_source_owned b status_code content_type source cleanup)
  | OpReset => let '(w, b) := chttp_server_response_builder_reset w b in (w, b, SALTS_OK)
  | OpAbandon status =>
    let '(w, b) := chttp_server_response_builder_close_source w b status in
    let '(w, b) := chttp_server_response_builder_reset w b in (w, b, SALTS_OK)
  end.

(** The cleanup that an operation hands over, if it is accepted. *)
Definition accepted (op : response_op) (status : salts_status) : list Z :=
  match op, status with OpSource _ _ _ cleanup, SALTS_OK => option_list cleanup | _, _ => [] end.

Fixpoint run_ops (w : world) (b : chttp_server_response_builder) (ops : list response_op) :
    world * chttp_server_response_builder * list Z :=
  match ops with
  | [] => (w, b, [])
  | op :: ops =>
    let '(w, b, status) := run_op w b op in
    let '(w, b, cleanups) := run_ops w b ops in (w, b, accepted op status ++ cleanups)
  end.

Lemma set_content_type_cases b content_type : builder_wf b ->
  let '(b', status) := set_content_type b content_type in
  (status <> SALTS_OK /\ b' = b) \/
  (status = SALTS_OK /\ exists headers used, b' = with_headers b headers used /\ builder_wf b').
Proof.
  intros Hb. destruct content_type as [t|]; cbn.
  - pose proof (set_header_cases b (bytes_of "Content-Type") t Hb) as H.
    destruct (chttp_server_response_set_header _ _ _) as [b' status]. destruct H as [?|(? & _ & _ & ? & ? & ?)]; [by left|right; eauto].
  - right. split; [done|]. exists (rb_headers b), (rb_header_storage_used b). split; [|done].
    unfold with_headers. rewrite <- (bw_wire b Hb). by destruct b.
Qed.

Lemma grow_body_charge w b n : let '(w', b', status) := grow_body w b n in
  charge w' b' = charge w b /\ w_cleanups w' = w_cleanups w /\
  exists capacity, b' = b <| rb_body_capacity := capacity |> /\ (status = SALTS_OK -> n <= capacity).
Proof.
  unfold grow_body, chttp_server_buffer_grow.
  assert (exists capacity, b = b <| rb_body_capacity := capacity |>) as (c0 & Hc0) by (exists (rb_body_capacity b); by destruct b).
  destruct (grow_plan _ _ _ _) as [[status|desired]|] eqn:Ep.
  - cbn. split; [done|]. split; [done|]. eexists. split; [done|]. intros ->. revert Ep. unfold grow_plan.
    repeat split_if; try done; try (intros; cbn; lia); by destruct (grow_desired _ _ _ _).
  - assert (n <= desired) as Hn.
    { revert Ep. unfold grow_plan. repeat split_if; try done; (destruct (grow_desired _ _ _ _) as [d|]; [|done]; split_if; intros [= <-]; lia). }
    destruct (chttp_server_buffer_reserve (w_budget w) (desired - rb_body_capacity b)) as [bud ok] eqn:Er.
    assert (buffer_bytes bud = buffer_bytes (w_budget w) + if ok then desired - rb_body_capacity b else 0) as Hbytes.
    { revert Er. unfold chttp_server_buffer_reserve. split_if; [intros [= <- <-]; lia|]. split_if; [intros [= <- <-]; cbn; lia|].
      cbv zeta. unfold chttp_server_buffer_peak_update. split_if; intros [= <- <-]; cbn; lia. }
    destruct ok; cbn [negb]; [destruct (malloc_ok desired); cbn [negb]|]; unfold charge; cbn;
      (split; [lia|]; split; [done|]); eexists; (split; [reflexivity|]); done.
  - split; [done|]. split; [done|]. by exists c0.
Qed.

(** A change of the headers alone. *)
Lemma headers_step w b b' : (exists headers used, b' = with_headers b headers used) ->
  charge w b' = charge w b /\ owed w b' = owed w b /\ rb_replied b' = rb_replied b /\ rb_source_enabled b' = rb_source_enabled b /\
  rb_body_limit b' = rb_body_limit b /\ rb_source_capacity b' = rb_source_capacity b /\ rb_body_capacity b' = rb_body_capacity b /\
  rb_retained_body b' = rb_retained_body b.
Proof. by intros (headers & used & ->). Qed.

Lemma close_ok w b status : let '(w', b') := chttp_server_response_builder_close_source w b status in
  charge w' b' = charge w b /\ owed w' b' = owed w b /\ rb_source_enabled b' = false /\ same_limits b b'.
Proof.
  unfold chttp_server_response_builder_close_source, charge, owed. destruct (rb_source_enabled b) eqn:E; cbn [negb].
  - destruct (rb_source_cleanup b) as [f|]; cbn; split_and!; try done; rewrite ?map_app, ?app_nil_r; done.
  - split_and!; try done. by rewrite E.
Qed.

Lemma builder_reset_ok w b b0 : builder_wf b0 -> same_limits b0 b ->
  let '(w', b') := chttp_server_response_builder_reset w b in
  builder_wf b' /\ charge w' b' = charge w b /\ owed w' b' = owed w b.
Proof.
  intros Hb (F1 & F2 & F3 & F4 & F5 & F6 & F7). unfold chttp_server_response_builder_reset. pose proof (close_ok w b SALTS_ECANCELED) as Hc.
  destruct (chttp_server_response_builder_close_source w b SALTS_ECANCELED) as [w1 b1].
  destruct Hc as (Hch & Ho & Hs & E1 & E2 & E3 & E4 & E5 & E6 & E7). destruct Hb as [H1 H2 H3 H4 H5 H6 H7 H8 H9]. split_and!.
  - pose proof (zlen_nonneg (rb_headers b0)). assert (0 <= storage_total (rb_headers b0)) by apply sum_by_nonneg, storage_size_nonneg.
    constructor; cbn; rewrite ?E2, ?E3, ?E6, ?E7, ?F2, ?F3, ?F6, ?F7; change (zlen []) with 0; change (wire_total []) with 0;
      change (storage_total []) with 0; try done; try lia; first [apply Forall_nil_2|apply NoDup_nil_2].
  - rewrite <- Hch. unfold charge, release_body. cbn. split_if; cbn; [lia|].
    rewrite (proj2 (Z.eqb_neq _ _)) by done. cbn. lia.
  - rewrite <- Ho. unfold owed. cbn. by rewrite Hs.
Qed.

Lemma same_limits_refl b : same_limits b b.
Proof. done. Qed.

(** A builder that has not replied, after an attempt to set the content type. *)
Lemma content_type_step w b type : builder_wf b -> rb_replied b = false ->
  let '(b', status) := set_content_type b type in
  builder_wf b' /\ (status <> SALTS_OK -> b' = b) /\ charge w b' = charge w b /\ owed w b' = owed w b /\ rb_replied b' = false /\
  rb_source_enabled b' = false /\ rb_retained_body b' = None /\ rb_body_limit b' = rb_body_limit b /\
  rb_source_capacity b' = rb_source_capacity b /\ rb_body_capacity b' = rb_body_capacity b.
Proof.
  intros Hb Hr. pose proof (bw_reply b Hb) as Hq. rewrite Hr in Hq. destruct Hq as [Hs Hret].
  pose proof (set_content_type_cases b type Hb) as H. destruct (set_content_type b type) as [b' status].
  destruct H as [[? ->]|(-> & hs & used & -> & Hwf)]; split_and!; done.
Qed.

Lemma grown_step w b (body : list Z) : builder_wf b -> rb_replied b = false ->
  let '(w', b', status) := if negb (zlen body =? 0) then grow_body w b (zlen body) else (w, b, SALTS_OK) in
  builder_wf b' /\ charge w' b' = charge w b /\ owed w' b' = owed w b /\ rb_replied b' = false /\ rb_body_limit b' = rb_body_limit b /\
  (status = SALTS_OK -> zlen body <> 0 -> rb_body_capacity b' <> 0).
Proof.
  intros Hb Hr. destruct (Z.eqb_spec (zlen body) 0) as [E|E]; cbn [negb]; [by split_and!|].
  pose proof (grow_body_charge w b (zlen body)) as H. destruct (grow_body w b (zlen body)) as [[w1 b1] st].
  destruct H as (Hch & Hcl & c & -> & Hc). split_and!; try done.
  - eapply wf_same; [exact Hb|done|]. cbn. pose proof (bw_reply b Hb) as Hq. by rewrite Hr in *.
  - unfold owed. by rewrite Hcl.
  - intros Hst _. specialize (Hc Hst). pose proof (zlen_nonneg body). cbn. lia.
Qed.

Lemma reply_op_ok w b code type body : builder_wf b ->
  let '(w', b', _) := chttp_server_reply w b code type body in
  builder_wf b' /\ charge w' b' = charge w b /\ owed w' b' = owed w b.
Proof.
  intros Hb. unfold chttp_server_reply. cbv zeta. split_if; [done|]. split_if; [done|]. split_if; [done|]. split_if; [done|]. split_if; [done|].
  pose proof (grown_step w b body Hb Heqb2) as Hg. destruct (if negb (zlen body =? 0) then _ else _) as [[w1 b1] st1].
  destruct Hg as (Hb1 & Hch & Ho & Hr & Hlim & Hcap).
  destruct (bool_decide (st1 = SALTS_OK)) eqn:E1; cbn [negb]; [|done]. apply bool_decide_eq_true in E1.
  pose proof (content_type_step w1 b1 type Hb1 Hr) as Ht. destruct (set_content_type b1 type) as [b2 st2].
  destruct Ht as (Hb2 & Hne & Hch2 & Ho2 & Hr2 & Hs2 & Hret & Hl2 & _ & Hc2).
  destruct (bool_decide (st2 = SALTS_OK)) eqn:E2; cbn [negb]; [|by split_and!; try congruence].
  set (b3 := if negb (zlen body =? 0) then b2 <| rb_body := body |> else b2).
  assert (same_limits b2 b3 /\ rb_source_enabled b3 = false /\ rb_retained_body b3 = None /\ rb_body_capacity b3 = rb_body_capacity b1 /\
    charge w1 b3 = charge w b /\ owed w1 b3 = owed w b /\ (zlen body <> 0 -> rb_body b3 = body)) as (T0 & T1 & T2 & T3 & T4 & T5 & T6).
  { subst b3. rewrite <- Hch, <- Ho, <- Hch2, <- Ho2, <- Hc2. destruct (Z.eqb_spec (zlen body) 0); cbn [negb]; by split_and!. }
  clearbody b3. split_and!; try done. eapply wf_same; [exact Hb2|done|]. cbn. unfold reply_ok, body_within. cbn. rewrite T1, T2, T3.
  assert (rb_body_limit b3 = rb_body_limit b) as Hlim3 by (destruct T0 as (_ & _ & _ & _ & _ & -> & _); congruence).
  pose proof (zlen_nonneg body). pose proof (bw_limits b Hb) as [Hlb _]. unfold status_code_invalid in *. bool_prop.
  split_and!; try lia.
  - intros Hbl. split; [|done]. destruct Heqb0; bool_prop; congruence.
  - intros Hz. rewrite T6 by done. split; [by apply Hcap|done].
Qed.

Lemma reply_buffer_op_ok w b code type body : builder_wf b ->
  let '(b', _) := chttp_server_reply_buffer b code type body in
  builder_wf b' /\ charge w b' = charge w b /\ owed w b' = owed w b.
Proof.
  intros Hb. unfold chttp_server_reply_buffer. cbv zeta. split_if; [done|]. split_if; [done|]. split_if; [done|]. split_if; [done|].
  pose proof (content_type_step w b type Hb ltac:(done)) as Ht. destruct (set_content_type b type) as [b2 st2].
  destruct Ht as (Hb2 & Hne & Hch2 & Ho2 & Hr2 & Hs2 & Hret & Hl2 & _ & Hc2).
  destruct (bool_decide (st2 = SALTS_OK)) eqn:E2; cbn [negb]; [|done].
  split_and!; try done. eapply wf_same; [exact Hb2|done|]. cbn. unfold reply_ok, body_within. cbn. rewrite Hs2.
  pose proof (bw_limits b Hb) as [Hlb _]. unfold status_code_invalid in *. bool_prop.
  assert (0 <= match body with Some body => zlen body | None => 0 end) by (destruct body; [apply zlen_nonneg|done]).
  split_and!; try lia.
  - intros Hbl. split; [|done]. destruct Heqb0; bool_prop; congruence.
  - by destruct body.
Qed.

Lemma source_op_ok w b code type source cleanup : builder_wf b -> 0 <= bs_content_length source <= SIZE_MAX ->
  let '(b', status) := chttp_server_response_source_owned b code type source cleanup in
  builder_wf b' /\ charge w b' = charge w b /\ owed w b' = owed w b ++ (if bool_decide (status = SALTS_OK) then option_list cleanup else []).
Proof.
  intros Hb Hlen. unfold chttp_server_response_source_owned. do 4 (split_if; [by rewrite app_nil_r|]).
  pose proof (content_type_step w b type Hb ltac:(done)) as Ht. destruct (set_content_type b type) as [b2 st2].
  destruct Ht as (Hb2 & Hne & Hch2 & Ho2 & Hr2 & Hs2 & Hret & Hl2 & Hsc & Hc2).
  destruct (bool_decide (st2 = SALTS_OK)) eqn:E2; cbn [negb]; [|by rewrite E2, app_nil_r].
  rewrite bool_decide_true by done. split_and!.
  - eapply wf_same; [exact Hb2|done|]. cbn. unfold reply_ok, body_within. cbn. unfold status_code_invalid in *. bool_prop.
    split_and!; try lia; try congruence; try (by intros ->); destruct (bs_content_length_known source); lia.
  - done.
  - rewrite <- Ho2. unfold owed. cbn. by rewrite Hs2, app_nil_r.
Qed.

Lemma response_op_ok w b op : builder_wf b -> op_ok op ->
  let '(w', b', status) := run_op w b op in
  builder_wf b' /\ charge w' b' = charge w b /\ owed w' b' = owed w b ++ accepted op status.
Proof.
  intros Hb Hop. assert (forall r : list Z, r ++ [] = r) as Hnil by apply app_nil_r.
  destruct op as [name value|fields|headers sub|code type body|code type body|code type source cleanup| |status]; cbn [run_op].
  - pose proof (set_header_cases b name value Hb) as H. destruct (chttp_server_response_set_header b name value) as [b' st]. cbn.
    rewrite Hnil. destruct H as [[_ ->]|(_ & _ & _ & used & -> & Hwf)]; done.
  - pose proof (append_vary_cases b fields Hb Hop) as H. destruct (chttp_server_response_append_vary b fields) as [b' st]. cbn.
    rewrite Hnil. destruct H as [[_ ->]|(_ & hs & used & -> & Hwf)]; done.
  - unfold chttp_server_response_select_websocket_subprotocol. split_if; [by cbn; rewrite Hnil|]. split_if; [by cbn; rewrite Hnil|].
    pose proof (set_header_impl_cases b (bytes_of "Sec-WebSocket-Protocol") sub true Hb) as H.
    destruct (chttp_server_response_set_header_impl _ _ _ _) as [b' st]. cbn [fst snd accepted].
    rewrite Hnil. destruct H as [[_ ->]|(_ & _ & _ & used & -> & Hwf)]; done.
  - cbn [accepted]. pose proof (reply_op_ok w b code type body Hb) as H.
    destruct (chttp_server_reply w b code type body) as [[w' b'] st]. by rewrite Hnil.
  - pose proof (reply_buffer_op_ok w b code type body Hb) as H.
    destruct (chttp_server_reply_buffer b code type body) as [b' st]. cbn. by rewrite Hnil.
  - pose proof (source_op_ok w b code type source cleanup Hb Hop) as H.
    destruct (chttp_server_response_source_owned b code type source cleanup) as [b' st]. cbn.
    destruct H as (? & ? & ->). by destruct st.
  - pose proof (builder_reset_ok w b b Hb (same_limits_refl b)) as H. destruct (chttp_server_response_builder_reset w b) as [w' b']. cbn. by rewrite Hnil.
  - pose proof (close_ok w b status) as Hc. destruct (chttp_server_response_builder_close_source w b status) as [w1 b1].
    destruct Hc as (Hch & Ho & Hs & Hl). pose proof (builder_reset_ok w1 b1 b Hb Hl) as H.
    destruct (chttp_server_response_builder_reset w1 b1) as [w' b']. cbn. rewrite Hnil, <- Hch, <- Ho. done.
Qed.

Lemma run_ops_ok ops : forall w b w' b' cleanups, builder_wf b -> Forall op_ok ops ->
  run_ops w b ops = (w', b', cleanups) ->
  builder_wf b' /\ charge w' b' = charge w b /\ owed w' b' = owed w b ++ cleanups.
Proof.
  induction ops as [|op ops IH]; intros w b w' b' cleanups Hb Ho; cbn [run_ops].
  { intros [= <- <- <-]. by rewrite app_nil_r. }
  apply Forall_cons_1 in Ho as [Hop Ho]. pose proof (response_op_ok w b op Hb Hop) as H.
  destruct (run_op w b op) as [[w1 b1] status]. destruct H as (Hb1 & Hc1 & Ho1).
  destruct (run_ops w1 b1 ops) as [[w2 b2] cs] eqn:E. intros [= <- <- <-].
  destruct (IH _ _ _ _ _ Hb1 Ho E) as (? & ? & ->). split_and!; [done|congruence|]. by rewrite Ho1, app_assoc.
Qed.

(** The limits are of type [size_t]. *)
Definition config_ok (config : response_config) : Prop :=
  0 <= max_response_header_count config /\ 0 <= max_response_header_bytes config <= SIZE_MAX /\
  0 <= max_response_body_bytes config <= SIZE_MAX /\ 0 <= max_buffered_response_body_bytes config <= SIZE_MAX.

Lemma builder_init_wf config b : config_ok config -> chttp_server_response_builder_init config = Ok b ->
  builder_wf b /\ rb_body_capacity b = 0 /\ rb_source_enabled b = false.
Proof.
  intros (C1 & C2 & C3 & C4). unfold chttp_server_response_builder_init. repeat (split_if; [done|]). intros [= <-].
  split; [|done]. constructor; cbn; change (zlen []) with 0; change (wire_total []) with 0; change (storage_total []) with 0;
    try done; try lia; first [apply Forall_nil_2|apply NoDup_nil_2].
Qed.

(** ** Theorems *)

(** C32: Any sequence of header, reply and reset operations on a fresh response
    builder keeps it within its limits, of the count and bytes of headers, of a
    body in memory and of a source of known length, and its headers valid and
    distinct; the server's budget is charged exactly the capacity of the body
    buffer, and each body source that was accepted has its cleanup called exactly
    once, or still to be called by the current source. *)
Theorem response_builder_safe config b0 w0 ops w b cleanups : config_ok config ->
  chttp_server_response_builder_init config = Ok b0 -> Forall op_ok ops -> run_ops w0 b0 ops = (w, b, cleanups) ->
  builder_wf b /\ buffer_bytes (w_budget w) = buffer_bytes (w_budget w0) + rb_body_capacity b /\
  owed w b = map fst (w_cleanups w0) ++ cleanups.
Proof.
  intros Hc Hi Ho Hr. destruct (builder_init_wf config b0 Hc Hi) as (Hb & Hcap & Hs).
  destruct (run_ops_ok _ _ _ _ _ _ Hb Ho Hr) as (Hb' & Hch & ->). split_and!; [done| |].
  - unfold charge in Hch. rewrite Hcap in Hch. lia.
  - unfold owed. by rewrite Hs, app_nil_r.
Qed.

End Run.

(** The value of a header, whatever the case of its name. *)
Definition header_value (headers : list (list Z * list Z)) (name : list Z) : option (list Z) :=
  snd <$> (snd <$> list_find (fun h => chttp_server_response_ascii_equal h.1 name = true) headers).

Lemma header_value_iff headers name value : NoDup (names headers) ->
  header_value headers name = Some value <-> exists i h, headers !! i = Some h /\ folded h.1 = folded name /\ h.2 = value.
Proof.
  intros Hd. unfold header_value. split.
  - destruct (list_find _ headers) as [[i h]|] eqn:E; [|done]. intros [= <-]. apply list_find_Some in E as (Hi & He & _).
    exists i, h. by rewrite <- (proj1 (ascii_equal_folded h.1 name) He).
  - intros (i & h & Hi & He & <-). destruct (list_find _ headers) as [[j h']|] eqn:E.
    + apply list_find_Some in E as (Hj & He' & _). apply ascii_equal_folded in He'. assert (i = j) as <-.
      { apply (NoDup_lookup _ i j (folded name) Hd); unfold names; rewrite list_lookup_fmap; [rewrite Hi|rewrite Hj]; cbn; apply (f_equal Some); first [exact He|exact He'|exact (eq_trans Hx Hm)]. }
      rewrite Hi in Hj. by injection Hj as <-.
    + apply list_find_None in E. rewrite Forall_forall in E. exfalso. apply (E h); [by eapply list_elem_of_lookup_2|].
      by apply ascii_equal_folded.
Qed.

Lemma upsert_value headers name value : NoDup (names headers) -> NoDup (names (upsert headers name value)) ->
  forall m, header_value (upsert headers name value) m =
    if bool_decide (folded m = folded name) then Some value else header_value headers m.
Proof.
  intros Hd Hd' m. apply option_eq. intros v. rewrite (header_value_iff _ _ _ Hd'). revert Hd'. unfold upsert.
  destruct (list_find _ headers) as [[i h]|] eqn:E; intros _.
  - apply list_find_Some in E as (Hi & He & _). apply ascii_equal_folded in He. pose proof (lookup_lt_Some _ _ _ Hi) as Hlt.
    case_bool_decide as Hm.
    + split.
      * intros (j & x & Hj & Hx & <-). apply list_lookup_insert_Some in Hj as [(-> & <- & _)|[Hij Hj]]; [done|].
        exfalso. apply Hij. apply (NoDup_lookup _ i j (folded name) Hd); unfold names; rewrite list_lookup_fmap; [rewrite Hi|rewrite Hj]; cbn; apply (f_equal Some); first [exact He|exact He'|exact (eq_trans Hx Hm)].
      * intros [= <-]. exists i, (h.1, value). rewrite list_lookup_insert_eq by done. split_and!; try done. exact (eq_trans He (eq_sym Hm)).
    + rewrite (header_value_iff _ _ _ Hd). split.
      * intros (j & x & Hj & Hx & <-). apply list_lookup_insert_Some in Hj as [(-> & <- & _)|[Hij Hj]]; [exfalso; apply Hm; exact (eq_trans (eq_sym Hx) He)|eauto].
      * intros (j & x & Hj & Hx & <-). exists j, x. split_and!; try done. rewrite list_lookup_insert_ne; [done|].
        intros <-. rewrite Hi in Hj. injection Hj as <-. congruence.
  - apply list_find_None in E. rewrite Forall_forall in E. case_bool_decide as Hm.
    + split.
      * intros (j & x & Hj & Hx & <-). apply lookup_app_Some in Hj as [Hj|[_ Hj]].
        -- exfalso. apply (E x); [by eapply list_elem_of_lookup_2|]. apply ascii_equal_folded. congruence.
        -- apply list_lookup_singleton_Some in Hj as [_ <-]. done.
      * intros [= <-]. exists (length headers), (name, value). split_and!; try done.
        rewrite lookup_app_r, Nat.sub_diag by done. done.
    + rewrite (header_value_iff _ _ _ Hd). split.
      * intros (j & x & Hj & Hx & <-). apply lookup_app_Some in Hj as [Hj|[_ Hj]]; [eauto|].
        apply list_lookup_singleton_Some in Hj as [_ <-]. exfalso. apply Hm. exact (eq_sym Hx).
      * intros (j & x & Hj & Hx & <-). exists j, x. split_and!; try done. by apply lookup_app_l_Some.
Qed.

Lemma set_header_spec b name value b' status : builder_wf b ->
  chttp_server_response_set_header b name value = (b', status) ->
  builder_wf b' /\
  (forall m, header_value (rb_headers b') m =
     if bool_decide (status = SALTS_OK) && bool_decide (folded m = folded name) then Some value
     else header_value (rb_headers b) m) /\
  (status <> SALTS_OK -> b' = b) /\
  (status = SALTS_OK -> chttp_server_response_token name = true /\ chttp_server_response_value value = true /\
     reserved_header name = false).
Proof.
  intros Hb E. pose proof (set_header_cases b name value Hb) as H. rewrite E in H.
  destruct H as [[Hne ->]|(-> & Hok & _ & used & Eb & Hwf)].
  - split_and!; try done. intros m. by rewrite bool_decide_false.
  - split_and!; try done. intros m. rewrite bool_decide_true by done. cbn [andb].
    assert (rb_headers b' = upsert (rb_headers b) name value) as Hh by (by subst b').
    rewrite Hh. apply upsert_value; [apply Hb|]. rewrite <- Hh. apply Hwf.
Qed.

(** Appending to [Vary] leaves every other header as it was. *)
Lemma append_vary_value b fields b' status : builder_wf b -> chttp_server_response_value fields = true ->
  chttp_server_response_append_vary b fields = (b', status) ->
  builder_wf b' /\ (status <> SALTS_OK -> b' = b) /\
  (exists headers used, b' = with_headers b headers used) /\
  forall m, folded m <> folded (bytes_of "Vary") -> header_value (rb_headers b') m = header_value (rb_headers b) m.
Proof.
  intros Hb Hv E. pose proof (append_vary_cases b fields Hb Hv) as Hc. rewrite E in Hc.
  assert (exists headers used, b = with_headers b headers used) as Hself.
  { exists (rb_headers b), (rb_header_storage_used b). unfold with_headers. rewrite <- (bw_wire b Hb). by destruct b. }
  destruct Hc as [[Hne ->]|(-> & headers & used & -> & Hwf)]; [done|]. split_and!; try done; [by eauto|].
  intros m Hm. change (rb_headers (with_headers b headers used)) with headers. pose proof E as E0. apply (f_equal (fun x => rb_headers x.1)) in E0.
  change (rb_headers (with_headers b headers used, SALTS_OK).1) with headers in E0. rewrite <- E0. revert E. clear E0.
  unfold chttp_server_response_append_vary. split_if; [done|]. unfold find_header.
  destruct (list_find _ (rb_headers b)) as [[i h]|] eqn:Ef.
  - split_if; [done|]. split_if; [done|]. split_if; [done|]. intros _. cbn [fst rb_headers set eta].
    change (header_value (<[i := (h.1, h.2 ++ bytes_of ", " ++ fields)]> (rb_headers b)) m = header_value (rb_headers b) m).
    apply list_find_Some in Ef as (Hi & He & _). apply ascii_equal_folded in He. apply option_eq. intros v.
    rewrite !header_value_iff by (rewrite ?names_insert by done; apply Hb). pose proof (lookup_lt_Some _ _ _ Hi) as Hlt. split.
    + intros (j & x & Hj & Hx & <-). apply list_lookup_insert_Some in Hj as [(-> & <- & _)|[Hij Hj]]; [|eauto].
      exfalso. apply Hm. exact (eq_trans (eq_sym Hx) He).
    + intros (j & x & Hj & Hx & <-). exists j, x. split_and!; try done. rewrite list_lookup_insert_ne; [done|].
      intros <-. rewrite Hi in Hj. injection Hj as <-. congruence.
  - intros E. pose proof (set_header_spec b (bytes_of "Vary") fields _ _ Hb E) as (_ & Hval & _). rewrite E. cbn [fst].
    rewrite Hval. by rewrite (bool_decide_false (folded m = _)), andb_false_r.
Qed.

(** Setting a header gives its name that value, whatever the case of the name, and
    leaves every other header; a call that fails leaves the builder as it was, and
    one that succeeds had a valid name and value, and a name that the server does
    not write itself. *)
Theorem set_header_correct b name value b' status : builder_wf b ->
  chttp_server_response_set_header b name value = (b', status) ->
  builder_wf b' /\
  (forall m, header_value (rb_headers b') m =
     if bool_decide (status = SALTS_OK) && bool_decide (folded m = folded name) then Some value
     else header_value (rb_headers b) m) /\
  (status <> SALTS_OK -> b' = b) /\
  (status = SALTS_OK -> chttp_server_response_token name = true /\ chttp_server_response_value value = true /\
     reserved_header name = false).
Proof. apply set_header_spec. Qed.

(** ** Instances *)

#[local] Existing Instance unlimited_allocator.

Definition response_limits : response_config :=
  {| max_response_header_count := 4; max_response_header_bytes := 256; max_response_body_bytes := 4096;
     max_buffered_response_body_bytes := 1024 |}.

Definition response_world : world :=
  {| w_budget := {| buffer_capacity_bytes := 65536; buffer_bytes := 100; peak_buffer_bytes := 100;
                    rejected_buffer_allocations := 0 |};
     w_cleanups := [] |}.

Definition fresh_builder : chttp_server_response_builder :=
  Eval vm_compute in match chttp_server_response_builder_init response_limits with Ok b => b | Err _ => builder_zero end.

(** A source that is abandoned, then a page; the second reply and a reserved
    header are refused. *)
Definition page_ops : list response_op :=
  [OpSource 200 None {| bs_read := 1; bs_content_length := 10; bs_content_length_known := true |} (Some 7);
   OpAbandon SALTS_ETIMEDOUT; OpSetHeader (bytes_of "X-A") (bytes_of "1"); OpVary (bytes_of "Origin");
   OpSetHeader (bytes_of "content-length") (bytes_of "3"); OpVary (bytes_of "Accept");
   OpReply 200 (Some (bytes_of "text/plain")) (bytes_of "hello"); OpReply 404 None []].

Definition page_run : world * chttp_server_response_builder * list Z :=
  Eval vm_compute in run_ops response_world fresh_builder page_ops.

Lemma response_builder_safe_witness :
  builder_wf page_run.1.2 /\ buffer_bytes (w_budget page_run.1.1) = 100 + rb_body_capacity page_run.1.2 /\
  owed page_run.1.1 page_run.1.2 = [7].
Proof.
  apply (response_builder_safe response_limits fresh_builder response_world page_ops page_run.1.1 page_run.1.2 page_run.2).
  - unfold config_ok. vm_compute. intuition discriminate.
  - vm_compute. reflexivity.
  - repeat (apply Forall_cons_2; [first [exact I|vm_compute; reflexivity|vm_compute; split; discriminate]|]). apply Forall_nil_2.
  - vm_compute. reflexivity.
Defined.

Definition page_builder : chttp_server_response_builder := Eval vm_compute in page_run.1.2.

Lemma page_builder_wf : builder_wf page_builder.
Proof.
  destruct (builder_init_wf response_limits fresh_builder) as [H _].
  - unfold config_ok. vm_compute. intuition discriminate.
  - vm_compute. reflexivity.
  - apply (run_ops_ok page_ops response_world fresh_builder page_run.1.1 page_run.1.2 page_run.2 H).
    + repeat (apply Forall_cons_2; [first [exact I|vm_compute; reflexivity|vm_compute; split; discriminate]|]). apply Forall_nil_2.
    + vm_compute. reflexivity.
Qed.

Lemma set_header_correct_witness :
  builder_wf (chttp_server_response_set_header page_builder (bytes_of "x-a") (bytes_of "22")).1.
Proof.
  apply (set_header_correct page_builder (bytes_of "x-a") (bytes_of "22")
    (chttp_server_response_set_header page_builder (bytes_of "x-a") (bytes_of "22")).1
    (chttp_server_response_set_header page_builder (bytes_of "x-a") (bytes_of "22")).2).
  - exact page_builder_wf.
  - vm_compute. reflexivity.
Defined.

End ResponseTheorems.
