(* ===== verification/ResponseWire.v ===== *)
(** * Responses on the wire

    A reader of HTTP/1 messages that splits a message at its line ends, and the
    proof that what the serialisation of a well-formed builder appends is read
    back as exactly its status, its headers and its body: no value of a header
    can end a line or start another field. *)

From S2P Require Import Prelude Decimal HpackBuffer Router Http1Parser ServerBuffer Response ResponseTheorems.

Module ResponseWire.
Import Decimal HpackBuffer Router Http1Parser ServerBuffer Response ResponseTheorems.

(** ** The reader *)

Definition COLON : Z := 58.

(** The first line and what follows its end. *)
Fixpoint read_line (s : list Z) : option (list Z * list Z) :=
  match s with
  | [] => None
  | c :: s' =>
    match (if c =? CR then match s' with d :: rest => if d =? LF then Some rest else None | [] => None end else None) with
    | Some rest => Some ([], rest)
    | None => (fun '(line, rest) => (c :: line, rest)) <$> read_line s'
    end
  end.

(** The name and the value of a field line. *)
Fixpoint read_field (line : list Z) : option (list Z * list Z) :=
  match line with
  | [] => None
  | c :: line =>
    if c =? COLON then match line with d :: value => if d =? SPACE then Some ([], value) else None | [] => None end
    else (fun '(name, value) => (c :: name, value)) <$> read_field line
  end.

Fixpoint read_fields (fuel : nat) (s : list Z) : option (list (list Z * list Z) * list Z) :=
  match fuel with
  | O => None
  | S fuel =>
    match read_line s with
    | None => None
    | Some ([], body) => Some ([], body)
    | Some (line, rest) =>
      match read_field line, read_fields fuel rest with
      | Some field, Some (fields, body) => Some (field :: fields, body)
      | _, _ => None
      end
    end
  end.

(** The status line, the fields and the body of a message. *)
Definition read_message (wire : list Z) : option (list Z * list (list Z * list Z) * list Z) :=
  match read_line wire with
  | None => None
  | Some (status, rest) =>
    (fun '(fields, body) => (status, fields, body)) <$> read_fields (length wire) rest
  end.

(** ** Clean strings *)

Definition clean (c : Z) : bool := negb (c =? CR) && negb (c =? LF).

Lemma read_line_clean line rest : forallb clean line = true -> read_line (line ++ CRLF ++ rest) = Some (line, rest).
Proof.
  induction line as [|c line IH]; [done|]. cbn [forallb app read_line]. intros [Hc Hl]%andb_true_iff. unfold clean in Hc.
  bool_prop. rewrite (proj2 (Z.eqb_neq c CR)) by done. by rewrite IH.
Qed.

Lemma read_field_split name value : forallb (fun c => negb (c =? COLON)) name = true ->
  read_field (name ++ COLON :: SPACE :: value) = Some (name, value).
Proof.
  induction name as [|c name IH]; [done|]. cbn [forallb app read_field]. intros [Hc Hn]%andb_true_iff. bool_prop.
  rewrite (proj2 (Z.eqb_neq c COLON)) by done. by rewrite IH.
Qed.

Definition field_line (h : list Z * list Z) : list Z := h.1 ++ COLON :: SPACE :: h.2.

(** A field that can be on a line of its own. *)
Definition field_ok (h : list Z * list Z) : Prop :=
  forallb (fun c => clean c && negb (c =? COLON)) h.1 = true /\ forallb clean h.2 = true.

Definition print_fields (fields : list (list Z * list Z)) : list Z :=
  concat (map (fun h => field_line h ++ CRLF) fields) ++ CRLF.

Lemma forallb_and {A} (p q : A -> bool) l : forallb (fun x => p x && q x) l = true ->
  forallb p l = true /\ forallb q l = true.
Proof. rewrite !forallb_forall. intros H. split; intros x Hx; specialize (H x Hx); by apply andb_true_iff in H as [? ?]. Qed.

Lemma read_fields_printed fields : forall fuel body, Forall field_ok fields -> (length fields < fuel)%nat ->
  read_fields fuel (print_fields fields ++ body) = Some (fields, body).
Proof.
  induction fields as [|h fields IH]; intros fuel body Hok Hfuel; (destruct fuel as [|fuel]; [cbn in Hfuel; lia|]); [done|].
  apply Forall_cons_1 in Hok as [[Hn Hv] Hok]. apply forallb_and in Hn as [Hn1 Hn2].
  unfold print_fields. cbn [map concat]. rewrite <- !app_assoc. cbn [read_fields].
  rewrite read_line_clean by (unfold field_line; rewrite forallb_app, Hn1; cbn; by rewrite Hv).
  assert (field_line h <> []) as Hne by (unfold field_line; by destruct h.1).
  destruct (field_line h) as [|c l] eqn:El; [done|]. rewrite <- El. unfold field_line at 1. rewrite read_field_split by done.
  specialize (IH fuel body Hok). unfold print_fields in IH. rewrite <- app_assoc in IH. rewrite IH by (cbn in Hfuel; lia). by destruct h.
Qed.

Lemma read_message_printed status fields body : forallb clean status = true -> Forall field_ok fields ->
  read_message (status ++ CRLF ++ print_fields fields ++ body) = Some (status, fields, body).
Proof.
  intros Hs Hf. unfold read_message. rewrite read_line_clean by done. rewrite read_fields_printed; [done|done|].
  rewrite !length_app. unfold print_fields. rewrite length_app. assert (length fields <= length (concat (map (fun h => field_line h ++ CRLF) fields)))%nat.
  { clear. induction fields as [|h l IH]; [done|]. cbn. rewrite !length_app. cbn. lia. }
  cbn. lia.
Qed.

(** ** What the builder writes is clean *)

Lemma ascii_checks (test : Z -> bool) : forallb test (map Z.of_nat (seq 0 128)) = true ->
  forall c, 0 <= c < 128 -> test c = true.
Proof.
  intros H c Hc. rewrite forallb_forall in H. apply H, in_map_iff. exists (Z.to_nat c). split; [lia|]. apply in_seq. lia.
Qed.

Lemma token_char_clean c : token_char c = true -> clean c && negb (c =? COLON) = true.
Proof.
  intros Ht. unfold token_char in Ht. unfold clean, CR, LF, COLON.
  assert (c <> 13 /\ c <> 10 /\ c <> 58) as (H1 & H2 & H3); [|by rewrite !(proj2 (Z.eqb_neq _ _))].
  split_and!; intros ->; vm_compute in Ht; discriminate.
Qed.

Lemma value_char_clean c : value_char c = true -> clean c = true.
Proof.
  intros Hv. unfold clean, CR, LF.
  assert (c <> 13 /\ c <> 10) as (H1 & H2); [|by rewrite !(proj2 (Z.eqb_neq _ _))].
  split_and!; intros ->; vm_compute in Hv; discriminate.
Qed.

Lemma header_field_ok h : header_ok h -> field_ok h.
Proof.
  intros (Ht & Hv & _). unfold chttp_server_response_token, chttp_server_response_value in *. bool_prop.
  rewrite forallb_forall in *. split; apply forallb_forall; intros c Hc; [by apply token_char_clean, H0|by apply value_char_clean, Hv].
Qed.

Lemma decimal_loop_clean fuel : forall n digits, forallb clean digits = true -> forallb clean (decimal_loop fuel n digits) = true.
Proof.
  induction fuel as [|fuel IH]; intros n digits Hd; [done|]. cbn [decimal_loop]. cbv zeta.
  assert (forallb clean ((48 + n mod 10) :: digits) = true).
  { cbn. rewrite Hd, andb_true_r. pose proof (Z.mod_pos_bound n 10 ltac:(lia)). unfold clean, CR, LF.
    by rewrite !(proj2 (Z.eqb_neq _ _)) by lia. }
  split_if; [done|]. by apply IH.
Qed.

Lemma decimal_loop_length fuel : forall n digits, (length (decimal_loop fuel n digits) <= fuel + length digits)%nat.
Proof.
  induction fuel as [|fuel IH]; intros n digits; [done|]. cbn [decimal_loop]. cbv zeta. split_if; [cbn; lia|].
  specialize (IH (n / 10) ((48 + n mod 10) :: digits)). cbn in IH. lia.
Qed.

Lemma decimal_clean n : forallb clean (decimal n) = true.
Proof. by apply decimal_loop_clean. Qed.
Lemma decimal_size_clean n : forallb clean (decimal_size n) = true.
Proof. by apply decimal_loop_clean. Qed.
Lemma decimal_length n : zlen (decimal n) <= 10.
Proof. unfold decimal, zlen. pose proof (decimal_loop_length 10 n []). cbn in *. lia. Qed.
Lemma decimal_size_length n : zlen (decimal_size n) <= 20.
Proof. unfold decimal_size, zlen. pose proof (decimal_loop_length 20 n []). cbn in *. lia. Qed.

Lemma nth_clean l i : Forall (fun s => forallb clean s = true) l -> forallb clean (nth i l []) = true.
Proof. intros H. revert i. induction H as [|s l Hs _ IH]; intros [|i]; cbn; done. Qed.

Lemma padded_clean n value : forallb clean (padded n value) = true.
Proof.
  unfold padded. cbv zeta. rewrite forallb_app, decimal_clean, andb_true_r. apply forallb_forall. intros c Hc.
  apply list_elem_of_In, elem_of_replicate in Hc as [-> _]. done.
Qed.

Lemma date_clean utc : forallb clean (date_text utc) = true.
Proof.
  unfold date_text. rewrite !forallb_app, !padded_clean. rewrite !nth_clean; [done| |]; repeat (apply Forall_cons_2; [done|]); apply Forall_nil_2.
Qed.

Lemma reason_clean code : forallb clean (chttp_server_reason code) = true /\ zlen (chttp_server_reason code) <= 31.
Proof.
  unfold chttp_server_reason.
  repeat match goal with |- context [match ?x with _ => _ end] => destruct x; try (split; [reflexivity|vm_compute; discriminate]) end.
Qed.

(** ** The serialisation *)

(** The result of appending a list of pieces. *)
Definition appended (capacity : Z) (base : list Z) (pieces : list (list Z)) (r : list Z * salts_status) : Prop :=
  r.2 = SALTS_OK /\ r.1 = base ++ concat pieces /\ zlen base + zlen (concat pieces) <= capacity \/
  r.2 = SALTS_EMSGSIZE /\ capacity < zlen base + zlen (concat pieces).

Lemma appended_nil capacity base : zlen base <= capacity -> appended capacity base [] (base, SALTS_OK).
Proof. intros H. left. cbn. rewrite app_nil_r. change (zlen []) with 0. split_and!; [done|done|lia]. Qed.

Lemma appended_step capacity base pieces r data :
  appended capacity base pieces r -> appended capacity base (pieces ++ [data]) (then_append capacity r data).
Proof.
  pose proof (zlen_nonneg data). unfold appended. rewrite concat_app, zlen_app. cbn [concat]. rewrite app_nil_r.
  destruct r as [out st]. cbn [fst snd]. intros [(-> & -> & Hle)|(-> & Hlt)].
  - cbn [then_append]. unfold chttp_server_output_append. rewrite zlen_app. destruct (_ || _) eqn:E; cbn [fst snd]; bool_prop.
    + right. split; [done|]. rewrite !Z.ltb_lt in E. lia.
    + left. rewrite app_assoc. split_and!; [done|done|lia].
  - right. cbn. split; [done|lia].
Qed.

Lemma appended_line capacity base pieces r line : zlen line < LINE_BYTES ->
  appended capacity base pieces r -> appended capacity base (pieces ++ [line]) (then_line capacity r line).
Proof.
  intros Hl H. assert (then_line capacity r line = then_append capacity r line) as ->; [|by apply appended_step].
  destruct r as [out st]. destruct st; try done. cbn. by rewrite (proj2 (Z.leb_gt _ _)).
Qed.

Lemma appended_headers capacity base headers : forall pieces r, appended capacity base pieces r ->
  appended capacity base (pieces ++ concat (map (fun h => [h.1; bytes_of ": "; h.2; CRLF]) headers)) (append_headers capacity r headers).
Proof.
  induction headers as [|h headers IH]; intros pieces r H; cbn [map concat append_headers]; [by rewrite app_nil_r|].
  rewrite app_assoc. apply IH. change [h.1; bytes_of ": "; h.2; CRLF] with ([h.1] ++ [bytes_of ": "] ++ [h.2] ++ [CRLF]).
  rewrite !app_assoc. by repeat apply appended_step.
Qed.

(** The fields of a response, in order. *)
Definition connection_field (keep_alive : bool) : list Z * list Z :=
  (bytes_of "Connection", if keep_alive then bytes_of "keep-alive" else bytes_of "close").

Definition framing_fields (b : chttp_server_response_builder) (request : chttp_server_request_view) : list (list Z * list Z) :=
  if (rb_status_code b =? 204) || (rb_status_code b =? 304) then [connection_field (rv_protocol_keep_alive request)]
  else if rb_source_enabled b && negb (source_length_known b) && (rv_http_major request =? 1) && (rv_http_minor request =? 1) then
    [(bytes_of "Transfer-Encoding", bytes_of "chunked"); connection_field (rv_protocol_keep_alive request)]
  else if rb_source_enabled b && negb (source_length_known b) then [connection_field false]
  else [(bytes_of "Content-Length", decimal_size (rb_body_size b)); connection_field (rv_protocol_keep_alive request)].

Definition response_fields (b : chttp_server_response_builder) (request : chttp_server_request_view) (date : list Z) :
    list (list Z * list Z) :=
  (if zlen date =? 0 then [] else [(bytes_of "Date", date)]) ++ rb_headers b ++ framing_fields b request.

Definition status_text (b : chttp_server_response_builder) (request : chttp_server_request_view) : list Z :=
  bytes_of "HTTP/" ++ decimal (rv_http_major request) ++ bytes_of "." ++ decimal (rv_http_minor request) ++
  bytes_of " " ++ decimal (rb_status_code b) ++ bytes_of " " ++ chttp_server_reason (rb_status_code b).

(** The body that a reply left in the builder. *)
Definition reply_body (b : chttp_server_response_builder) : list Z :=
  match rb_retained_body b with
  | Some body => body
  | None => if rb_body_size b =? 0 then [] else rb_body b
  end.

(** The body that goes out behind the head. *)
Definition sent_body (b : chttp_server_response_builder) (request : chttp_server_request_view) (include_body : bool) : list Z :=
  if include_body && negb (rv_method request =? CHTTP_METHOD_HEAD) && negb (rb_source_enabled b) then reply_body b else [].

Definition response_wire (b : chttp_server_response_builder) (request : chttp_server_request_view) (date : list Z)
    (include_body : bool) : list Z :=
  status_text b request ++ CRLF ++ print_fields (response_fields b request date) ++ sent_body b request include_body.

Lemma print_fields_app a c : print_fields (a ++ c) = concat (map (fun h => field_line h ++ CRLF) a) ++ print_fields c.
Proof. unfold print_fields. by rewrite map_app, concat_app, <- app_assoc. Qed.

Lemma framing_printed b request : print_fields (framing_fields b request) = framing_lines b request.
Proof.
  unfold framing_fields, framing_lines, connection_line, connection_field, print_fields, field_line.
  repeat split_if; cbn [map concat fst snd]; rewrite ?app_nil_r, <- ?app_assoc; try reflexivity.
Qed.

Lemma status_printed b request : status_line b request = status_text b request ++ CRLF.
Proof. unfold status_line, status_text. by rewrite <- !app_assoc. Qed.

Lemma headers_printed headers : concat (concat (map (fun h => [h.1; bytes_of ": "; h.2; CRLF]) headers)) =
  concat (map (fun h => field_line h ++ CRLF) headers).
Proof.
  induction headers as [|h l IH]; [done|]. cbn [map concat]. rewrite concat_app, IH. f_equal. unfold field_line. cbn.
  rewrite ?app_nil_r, <- ?app_assoc. done.
Qed.

Lemma body_bytes_sent b request include_body : reply_ok b -> body_bytes b request include_body = Some (sent_body b request include_body).
Proof.
  intros (Hc & Hz & _ & _ & Hr). unfold body_bytes, sent_body. cbv zeta.
  destruct (include_body && _ && _) eqn:E; [|done]. apply andb_true_iff in E as [_ E]. apply negb_true_iff in E. rewrite E in Hr.
  unfold reply_body. destruct (rb_retained_body b) as [r|].
  - rewrite Hr. split_if; [apply zlen_0_inv in Heqb0; by subst|]. by rewrite ztake_all.
  - split_if; [done|]. destruct (Hr ltac:(done)) as [Hne ->]. rewrite (proj2 (Z.eqb_neq _ _)) by done. by rewrite ztake_all.
Qed.

Section Wire.
Context {gmtime : Gmtime}.

Lemma response_date_clean headers now date : chttp_server_response_date headers now = Ok date ->
  forallb clean date = true /\ zlen date <= 29.
Proof.
  unfold chttp_server_response_date. split_if; [by intros [= <-]|]. unfold chttp_server_format_date.
  destruct (cmeta_gmtime _) as [utc|]; [|done]. split_if; [done|]. cbv zeta. split_if; [|done]. intros [= <-].
  split; [apply date_clean|]. unfold CHTTP_SERVER_DATE_BYTES in *. lia.
Qed.

Lemma line_lengths b request date : zlen date <= 29 ->
  zlen (status_line b request) < LINE_BYTES /\ zlen (bytes_of "Date: " ++ date ++ CRLF) < LINE_BYTES /\
  zlen (framing_lines b request) < LINE_BYTES.
Proof.
  intros Hd. unfold LINE_BYTES. pose proof (decimal_length (rv_http_major request)). pose proof (decimal_length (rv_http_minor request)).
  pose proof (decimal_length (rb_status_code b)). destruct (reason_clean (rb_status_code b)) as [_ Hr].
  pose proof (decimal_size_length (rb_body_size b)). split_and!.
  - unfold status_line. rewrite !zlen_app.
    change (zlen (bytes_of "HTTP/")) with 5. change (zlen (bytes_of ".")) with 1. change (zlen (bytes_of " ")) with 1. change (zlen CRLF) with 2. lia.
  - rewrite !zlen_app. change (zlen (bytes_of "Date: ")) with 6. change (zlen CRLF) with 2. lia.
  - unfold framing_lines, connection_line. repeat split_if; rewrite ?zlen_app;
      change (zlen CRLF) with 2; change (zlen (bytes_of "Connection: ")) with 12; change (zlen (bytes_of "keep-alive")) with 10;
      change (zlen (bytes_of "close")) with 5; change (zlen (bytes_of "Transfer-Encoding: chunked")) with 26;
      change (zlen (bytes_of "Content-Length: ")) with 16; lia.
Qed.

Lemma serialize_exact b request now capacity output include_body date : builder_wf b -> rb_replied b = true ->
  chttp_server_response_date (rb_headers b) now = Ok date -> zlen output <= capacity ->
  chttp_server_response_serialize_impl b request now capacity output include_body =
  if zlen output + zlen (response_wire b request date include_body) <=? capacity
  then (output ++ response_wire b request date include_body, SALTS_OK) else (output, SALTS_EMSGSIZE).
Proof.
  intros Hb Hr Hdate Hcap. unfold chttp_server_response_serialize_impl. rewrite Hr, Hdate. cbn [negb].
  pose proof (bw_reply b Hb) as Hrep. rewrite Hr in Hrep. rewrite (body_bytes_sent b request include_body Hrep).
  destruct (response_date_clean _ _ _ Hdate) as [_ Hdl]. destruct (line_lengths b request date Hdl) as (L1 & L2 & L3).
  set (r := then_append _ _ _).
  assert (exists pieces, appended capacity output pieces r /\ concat pieces = response_wire b request date include_body) as (pieces & Ha & Hp).
  { eexists. split.
    - subst r. apply appended_step, appended_line; [done|]. apply appended_headers.
      instantiate (1 := [status_line b request] ++ if zlen date =? 0 then [] else [bytes_of "Date: " ++ date ++ CRLF]).
      assert (appended capacity output ([] ++ [status_line b request]) (then_line capacity (output, SALTS_OK) (status_line b request))) as H0.
      { apply appended_line; [done|]. by apply appended_nil. }
      destruct (zlen date =? 0); [exact H0|]. by apply appended_line.
    - rewrite !concat_app, headers_printed. cbn [concat]. rewrite !app_nil_r, status_printed. unfold response_wire, response_fields.
      rewrite !print_fields_app, framing_printed. rewrite <- !app_assoc. do 2 f_equal.
      destruct (zlen date =? 0); cbn [concat map app]; rewrite ?app_nil_r; [done|]. unfold field_line. cbn [fst snd].
      rewrite <- !app_assoc. done. }
  rewrite <- Hp. destruct r as [out st]. destruct Ha as [(Hst & Hout & Hle)|(Hst & Hlt)]; cbn in *; subst.
  - by rewrite (proj2 (Z.leb_le _ _)).
  - by rewrite (proj2 (Z.leb_gt _ _)).
Qed.

Lemma fields_ok b request date : builder_wf b -> forallb clean date = true -> Forall field_ok (response_fields b request date).
Proof.
  intros Hb Hd. unfold response_fields. apply Forall_app. split; [|apply Forall_app; split].
  - destruct (zlen date =? 0); [apply Forall_nil_2|]. apply Forall_cons_2; [done|apply Forall_nil_2].
  - eapply Forall_impl; [apply (bw_headers b Hb)|]. apply header_field_ok.
  - unfold framing_fields, connection_field. repeat split_if; repeat (apply Forall_cons_2; [|]); try apply Forall_nil_2; try done.
    all: split; [done|apply decimal_size_clean].
Qed.

Lemma status_clean b request : forallb clean (status_text b request) = true.
Proof.
  unfold status_text. destruct (reason_clean (rb_status_code b)) as [Hr _]. by rewrite !forallb_app, !decimal_clean, Hr.
Qed.

(** C31: A response is serialised whole or not at all, and a reader of HTTP/1
    messages reads back from the bytes exactly the status line, the date, the
    headers of the handler, the framing headers and the body: no header can inject
    another. *)
Theorem response_on_wire b request now capacity output include_body date : builder_wf b -> rb_replied b = true ->
  chttp_server_response_date (rb_headers b) now = Ok date -> zlen output <= capacity ->
  exists wire,
    chttp_server_response_serialize_impl b request now capacity output include_body =
      (if zlen output + zlen wire <=? capacity then (output ++ wire, SALTS_OK) else (output, SALTS_EMSGSIZE)) /\
    read_message wire = Some (status_text b request, response_fields b request date, sent_body b request include_body).
Proof.
  intros Hb Hr Hd Hc. exists (response_wire b request date include_body). split; [by apply serialize_exact|].
  unfold response_wire. apply read_message_printed; [apply status_clean|]. apply fields_ok; [done|]. by eapply response_date_clean.
Qed.

(** The names that describe the body. *)
Definition framing_name (name : list Z) : bool :=
  chttp_server_response_ascii_equal name (bytes_of "Content-Length") ||
  chttp_server_response_ascii_equal name (bytes_of "Transfer-Encoding").

(** A response carries exactly one framing header, the length of its body or
    chunked coding, unless its status has no body or the connection closes after
    it; the length it announces is the number of bytes of the body. *)
Theorem response_framing b request date : builder_wf b -> rb_replied b = true ->
  filter (fun h => framing_name h.1 = true) (response_fields b request date) =
    (if (rb_status_code b =? 204) || (rb_status_code b =? 304) then []
     else if rb_source_enabled b && negb (source_length_known b)
     then if (rv_http_major request =? 1) && (rv_http_minor request =? 1)
          then [(bytes_of "Transfer-Encoding", bytes_of "chunked")] else []
     else [(bytes_of "Content-Length", decimal_size (rb_body_size b))]) /\
  number (decimal_size (rb_body_size b)) = rb_body_size b /\
  (rb_source_enabled b = false -> rb_body_size b = zlen (reply_body b)) /\
  (bodiless (rb_status_code b) = true -> rb_body_size b = 0).
Proof.
  intros Hb Hr. pose proof (bw_reply b Hb) as Hrep. rewrite Hr in Hrep. destruct Hrep as (_ & Hz & _ & Hbl & Hbody). split_and!.
  - unfold response_fields. rewrite !filter_app.
    assert (filter (fun h => framing_name h.1 = true) (rb_headers b) = []) as ->.
    { apply elem_of_nil_inv. intros h Hin. apply list_elem_of_filter in Hin as [Hf Hin].
      pose proof (bw_headers b Hb) as Hh. rewrite Forall_forall in Hh. destruct (Hh h Hin) as (_ & _ & Hres).
      unfold reserved_header in Hres. unfold framing_name in Hf. rewrite !orb_false_iff in Hres. rewrite orb_true_iff in Hf.
      destruct Hres as (((((R1 & _) & R3) & _) & _) & _). destruct Hf; congruence. }
    assert (filter (fun h => framing_name h.1 = true) (if zlen date =? 0 then [] else [(bytes_of "Date", date)]) = []) as ->.
    { destruct (zlen date =? 0); [done|]. rewrite filter_cons, filter_nil. by rewrite decide_False by (vm_compute; done). }
    cbn [app]. unfold framing_fields.
    assert (forall k l, filter (fun h : list Z * list Z => framing_name h.1 = true) (connection_field k :: l) =
      filter (fun h => framing_name h.1 = true) l) as Hcf.
    { intros k l. rewrite filter_cons. by rewrite decide_False by (destruct k; vm_compute; done). }
    split_if; [by rewrite Hcf|]. destruct (rb_source_enabled b && negb (source_length_known b)) eqn:Es; cbn [andb].
    + destruct ((rv_http_major request =? 1) && (rv_http_minor request =? 1)) eqn:Ev.
      * rewrite filter_cons, decide_True by (vm_compute; done). by rewrite Hcf.
      * by rewrite Hcf.
    + rewrite filter_cons, decide_True by (vm_compute; done). by rewrite Hcf.
  - destruct (decimal_size_number (rb_body_size b) Hz) as (front & -> & _ & _ & _ & ->). done.
  - intros Hs. rewrite Hs in Hbody. unfold reply_body. destruct (rb_retained_body b); [done|]. split_if; [done|]. by apply Hbody.
  - intros H. by apply Hbl.
Qed.

End Wire.

(** ** Instances *)

(** A clock that knows one day. *)
#[local] Instance one_day : Gmtime := fun _ =>
  Some {| tm_sec := 37; tm_min := 49; tm_hour := 8; tm_mday := 6; tm_mon := 10; tm_year := 94; tm_wday := 0 |}.

Definition page_request : chttp_server_request_view :=
  request_zero <| rv_method := CHTTP_METHOD_GET |> <| rv_http_major := 1 |> <| rv_http_minor := 1 |>
    <| rv_protocol_keep_alive := true |>.

Definition page_date : list Z := bytes_of "Sun, 06 Nov 1994 08:49:37 GMT".

Lemma response_on_wire_witness :
  exists wire,
    chttp_server_response_serialize_impl page_builder page_request 784111777000 512 (bytes_of "...") true =
      (if 3 + zlen wire <=? 512 then (bytes_of "..." ++ wire, SALTS_OK) else (bytes_of "...", SALTS_EMSGSIZE)) /\
    read_message wire = Some (bytes_of "HTTP/1.1 200 OK",
      [(bytes_of "Date", page_date); (bytes_of "X-A", bytes_of "1"); (bytes_of "Vary", bytes_of "Origin, Accept");
       (bytes_of "Content-Type", bytes_of "text/plain"); (bytes_of "Content-Length", bytes_of "5");
       (bytes_of "Connection", bytes_of "keep-alive")], bytes_of "hello").
Proof.
  destruct (response_on_wire page_builder page_request 784111777000 512 (bytes_of "...") true page_date) as (wire & H1 & H2).
  - exact page_builder_wf.
  - reflexivity.
  - vm_compute. reflexivity.
  - vm_compute. discriminate.
  - exists wire. split; [exact H1|]. rewrite H2. vm_compute. reflexivity.
Defined.

Lemma response_framing_witness :
  filter (fun h => framing_name h.1 = true) (response_fields page_builder page_request page_date) =
    [(bytes_of "Content-Length", bytes_of "5")].
Proof.
  destruct (response_framing page_builder page_request page_date) as [H _].
  - exact page_builder_wf.
  - reflexivity.
  - rewrite H. vm_compute. reflexivity.
Defined.

End ResponseWire.
