(* ===== verification/Jwt.v ===== *)
(** * Bearer tokens

    Model of [http_server/src/chttp_jwt.c], the validator that an application
    configures and the check that a request must pass to be admitted, and of
    [http_common/http/chttp_jwt_token.c], which issues tokens.  The encoding and
    decoding of a token and its signature are in the vendored cjwt library, a
    parameter; the clock is an argument. *)

From S2P Require Import Prelude HpackBuffer Router Http1Parser ServerBuffer Response.

Module Jwt.
Import HpackBuffer Router Http1Parser ServerBuffer Response.

Definition CHTTP_JWT_HS256_MIN_KEY_BYTES : Z := 32.
Definition CHTTP_JWT_BEARER_SCHEME_SIZE : Z := 6.

Definition INT64_MAX : Z := 2 ^ 63 - 1.

(** [sizeof(chttp_jwt_bearer_validator_options)] and of the validator with
    eight-byte pointers. *)
Definition sizeof_validator_options : Z := 56.
Definition sizeof_validator_impl : Z := 48.

(** ** Data *)

(** What the code reads and writes of a token. *)
Record cjwt_t := {
  jwt_hs256 : bool;
  jwt_iss : option (list Z);
  jwt_sub : option (list Z);
  jwt_jti : option (list Z);
  jwt_aud : list (option (list Z));
  jwt_iat : option Z;
  jwt_nbf : option Z;
  jwt_exp : option Z;
}.

(** [cjwt_decode] with [OPT_ALLOW_ONLY_HS_ALG]: the token that it returns with
    [CJWTE_OK], from the text, the key, the time and the tolerated skew. *)
Class Cjwt := cjwt_decode : list Z -> list Z -> Z -> Z -> option cjwt_t.

Inductive cjwt_code_t :=
  | CJWTE_OK
  | CJWTE_OUT_OF_MEMORY
  | CJWTE_OTHER.

(** [cjwt_encode]: the code, and the text with [CJWTE_OK]. *)
Class CjwtEncode := cjwt_encode : cjwt_t -> list Z -> cjwt_code_t * list Z.

(** The claims of a token to issue; a time of zero is left out. *)
Record chttp_jwt_claims := {
  jc_issuer : option (list Z);
  jc_subject : option (list Z);
  jc_audience : option (list Z);
  jc_jwt_id : option (list Z);
  jc_issued_at : Z;
  jc_not_before : Z;
  jc_expires_at : Z;
}.

Record chttp_jwt_claims_view := {
  cv_issuer : option (list Z);
  cv_subject : option (list Z);
  cv_jwt_id : option (list Z);
  cv_audiences : list (option (list Z));
  cv_issued_at : option Z;
  cv_not_before : option Z;
  cv_expires_at : option Z;
}.

Record chttp_jwt_bearer_validator_options := {
  vo_size : Z;
  vo_key : option (list Z);
  vo_clock_skew_seconds : Z;
  vo_allow_missing_exp : Z;
  vo_expected_issuer : option (list Z);
  vo_expected_audience : option (list Z);
}.

Record chttp_jwt_bearer_validator_impl := {
  jv_key : list Z;
  jv_clock_skew_seconds : Z;
  jv_allow_missing_exp : bool;
  jv_expected_issuer : option (list Z);
  jv_expected_audience : option (list Z);
}.

(** ** The header *)

Fixpoint chttp_jwt_ascii_equal_ci (a b : list Z) : bool :=
  match a, b with
  | x :: a, y :: b =>
    if negb (ascii_lower x =? ascii_lower y) then false else chttp_jwt_ascii_equal_ci a b
  | [], [] => true
  | _, _ => false
  end.

(** The value of the only [Authorization] header; [None] is the early return. *)
Fixpoint single_authorization (headers : list (list Z * list Z)) (authorization : option (list Z)) :
    option (option (list Z)) :=
  match headers with
  | [] => Some authorization
  | h :: headers =>
    if chttp_jwt_ascii_equal_ci h.1 (bytes_of "Authorization") then
      match authorization with
      | Some _ => None
      | None => single_authorization headers (Some h.2)
      end
    else single_authorization headers authorization
  end.

Fixpoint skip_spaces (s : list Z) : list Z :=
  match s with
  | c :: rest => if c =? SPACE then skip_spaces rest else s
  | [] => []
  end.

Definition chttp_jwt_bearer_token (headers : list (list Z * list Z)) : option (list Z) :=
  match single_authorization headers None with
  | Some (Some authorization) =>
    if (zlen authorization <=? CHTTP_JWT_BEARER_SCHEME_SIZE) ||
       negb (zth authorization CHTTP_JWT_BEARER_SCHEME_SIZE =? SPACE) then None
    else if negb (bytes_eqb (map ascii_lower (ztake CHTTP_JWT_BEARER_SCHEME_SIZE authorization))
                    (map ascii_lower (bytes_of "Bearer"))) then None
    else
      match skip_spaces (zdrop CHTTP_JWT_BEARER_SCHEME_SIZE authorization) with
      | [] => None
      | token => Some token
      end
  | _ => None
  end.

(** ** Claims *)

Definition claim_is (claim : option (list Z)) (expected : list Z) : bool :=
  match claim with Some value => bytes_eqb value expected | None => false end.

Definition chttp_jwt_claims_match (validator : chttp_jwt_bearer_validator_impl) (jwt : cjwt_t) : bool :=
  if match jv_expected_issuer validator with
     | Some issuer => negb (claim_is (jwt_iss jwt) issuer)
     | None => false
     end then false
  else
    match jv_expected_audience validator with
    | None => true
    | Some audience => existsb (fun name => claim_is name audience) (jwt_aud jwt)
    end.

(** The sum does not overflow where it is computed. *)
Definition chttp_jwt_expired_strict (now_seconds expires_at clock_skew_seconds : Z) : bool :=
  if (0 <? clock_skew_seconds) && (INT64_MAX - clock_skew_seconds <? expires_at) then false
  else expires_at + clock_skew_seconds <=? now_seconds.

(** ** The validator *)

Section Validator.
Context {alloc : Allocator}.

(** The copy, or nothing when there is no memory for it. *)
Definition chttp_jwt_string_copy (value : option (list Z)) : option (list Z) :=
  match value with
  | None => None
  | Some value =>
    if zlen value =? SIZE_MAX then None
    else if malloc_ok (zlen value + 1) then Some value else None
  end.

Definition empty_string (value : option (list Z)) : bool :=
  match value with Some value => zlen value =? 0 | None => false end.

Definition not_copied (value copy : option (list Z)) : bool :=
  negb (is_none value) && is_none copy.

(** [impl] is [validator->impl]. *)
Definition chttp_jwt_bearer_validator_init (impl : option chttp_jwt_bearer_validator_impl)
    (options : chttp_jwt_bearer_validator_options) : outcome chttp_jwt_bearer_validator_impl :=
  match vo_key options with
  | None => Err SALTS_EINVAL
  | Some key =>
    if negb (vo_size options =? sizeof_validator_options) ||
       (zlen key <? CHTTP_JWT_HS256_MIN_KEY_BYTES) || (vo_clock_skew_seconds options <? 0)
    then Err SALTS_EINVAL
    else if negb (is_none impl) then Err SALTS_EALREADY
    else if empty_string (vo_expected_issuer options) || empty_string (vo_expected_audience options)
    then Err SALTS_EINVAL
    else if negb (malloc_ok sizeof_validator_impl) then Err SALTS_ENOMEM
    else
      let issuer := chttp_jwt_string_copy (vo_expected_issuer options) in
      let audience := chttp_jwt_string_copy (vo_expected_audience options) in
      if negb (malloc_ok (zlen key)) || not_copied (vo_expected_issuer options) issuer ||
         not_copied (vo_expected_audience options) audience
      then Err SALTS_ENOMEM
      else
        Ok {| jv_key := key; jv_clock_skew_seconds := vo_clock_skew_seconds options;
              jv_allow_missing_exp := negb (vo_allow_missing_exp options =? 0);
              jv_expected_issuer := issuer; jv_expected_audience := audience |}
  end.

Definition chttp_jwt_bearer_validator_destroy (impl : option chttp_jwt_bearer_validator_impl) :
    option chttp_jwt_bearer_validator_impl := None.

Definition chttp_jwt_bearer_unauthorized_response (w : world) (b : chttp_server_response_builder) :
    world * chttp_server_response_builder * salts_status :=
  let '(b, status) :=
    chttp_server_response_set_header b (bytes_of "WWW-Authenticate") (bytes_of "Bearer") in
  if negb (bool_decide (status = SALTS_OK)) then (w, b, status)
  else chttp_server_reply w b 401 (Some (bytes_of "text/plain")) (bytes_of "Unauthorized").

End Validator.

(** ** Requests *)

Section Requests.
Context {cjwt : Cjwt}.

(** The claims of a request are there when it owns a token. *)
Definition chttp_jwt_request_state_reset (claims : option chttp_jwt_claims_view) :
    option chttp_jwt_claims_view := None.

Definition expiry_refused (validator : chttp_jwt_bearer_validator_impl) (jwt : cjwt_t)
    (now_seconds : Z) : bool :=
  match jwt_exp jwt with
  | None => negb (jv_allow_missing_exp validator)
  | Some exp => chttp_jwt_expired_strict now_seconds exp (jv_clock_skew_seconds validator)
  end.

(** The claims that the request keeps, and the status. *)
Definition chttp_jwt_bearer_request_validate_at (claims : option chttp_jwt_claims_view)
    (headers : list (list Z * list Z)) (validator : option chttp_jwt_bearer_validator_impl)
    (now_seconds : Z) : option chttp_jwt_claims_view * salts_status :=
  match validator with
  | None => (claims, SALTS_EINVAL)
  | Some validator =>
    match chttp_jwt_bearer_token headers with
    | None => (claims, SALTS_EPERM)
    | Some token =>
      match cjwt_decode token (jv_key validator) now_seconds (jv_clock_skew_seconds validator) with
      | None => (claims, SALTS_EPERM)
      | Some jwt =>
        if negb (jwt_hs256 jwt) || negb (chttp_jwt_claims_match validator jwt) then (claims, SALTS_EPERM)
        else if expiry_refused validator jwt now_seconds then (claims, SALTS_EPERM)
        else
          (Some {| cv_issuer := jwt_iss jwt; cv_subject := jwt_sub jwt; cv_jwt_id := jwt_jti jwt;
                   cv_audiences := jwt_aud jwt; cv_issued_at := jwt_iat jwt;
                   cv_not_before := jwt_nbf jwt; cv_expires_at := jwt_exp jwt |}, SALTS_OK)
      end
    end
  end.

(** [now] is [time(NULL)], -1 when it fails. *)
Definition chttp_jwt_bearer_request_validate (claims : option chttp_jwt_claims_view)
    (headers : list (list Z * list Z)) (validator : option chttp_jwt_bearer_validator_impl)
    (now : Z) : option chttp_jwt_claims_view * salts_status :=
  if now =? -1 then (claims, SALTS_EPERM)
  else chttp_jwt_bearer_request_validate_at claims headers validator now.

End Requests.

(** ** Issuing a token *)

Definition chttp_jwt_encode_status (status : cjwt_code_t) : salts_status :=
  match status with
  | CJWTE_OK => SALTS_OK
  | CJWTE_OUT_OF_MEMORY => SALTS_ENOMEM
  | CJWTE_OTHER => SALTS_EINVAL
  end.

Definition time_claim (time : Z) : option Z := if time =? 0 then None else Some time.

Definition token_of (claims : chttp_jwt_claims) : cjwt_t :=
  {| jwt_hs256 := true; jwt_iss := jc_issuer claims; jwt_sub := jc_subject claims; jwt_jti := jc_jwt_id claims;
     jwt_aud := match jc_audience claims with Some audience => [Some audience] | None => [] end;
     jwt_iat := time_claim (jc_issued_at claims); jwt_nbf := time_claim (jc_not_before claims);
     jwt_exp := time_claim (jc_expires_at claims) |}.

Definition chttp_jwt_hs256_token_create {encode : CjwtEncode} (claims : chttp_jwt_claims) (key : list Z) :
    outcome (list Z) :=
  if zlen key <? CHTTP_JWT_HS256_MIN_KEY_BYTES then Err SALTS_EINVAL
  else
    let '(code, token) := cjwt_encode (token_of claims) key in
    match chttp_jwt_encode_status code with
    | SALTS_OK => Ok token
    | status => Err status
    end.

End Jwt.
