(* ===== verification/JwtTheorems.v ===== *)
(** * Theorems about bearer tokens *)

From S2P Require Import Prelude HpackBuffer Router Http1Parser ServerBuffer Response ResponseTheorems Jwt.

Module JwtTheorems.
Import HpackBuffer Router Http1Parser ServerBuffer Response ResponseTheorems Jwt.

(** ** Credentials *)

Lemma jwt_equal_folded a : forall b, chttp_jwt_ascii_equal_ci a b = true <-> folded a = folded b.
Proof.
  induction a as [|x a IH]; intros [|y b]; try done. cbn [chttp_jwt_ascii_equal_ci].
  destruct (Z.eqb_spec (ascii_lower x) (ascii_lower y)) as [E|E]; cbn [negb]; unfold folded in *; cbn [map].
  - rewrite IH, E. split; [by intros ->|by intros [= ?]].
  - split; [done|]. by intros [= ? _].
Qed.

Definition is_authorization (h : list Z * list Z) : Prop := folded h.1 = folded (bytes_of "Authorization").

Lemma single_authorization_spec headers : forall found value,
  single_authorization headers found = Some (Some value) <->
  (found = Some value /\ Forall (fun h => ~ is_authorization h) headers) \/
  (found = None /\ exists before name after, headers = before ++ (name, value) :: after /\
     is_authorization (name, value) /\ Forall (fun h => ~ is_authorization h) (before ++ after)).
Proof.
  induction headers as [|h headers IH]; intros found value; cbn [single_authorization].
  - split; [intros [= ->]; by left|]. intros [[-> _]|(_ & [|? ?] & ? & ? & ? & _)]; done.
  - destruct (chttp_jwt_ascii_equal_ci h.1 (bytes_of "Authorization")) eqn:E.
    + apply jwt_equal_folded in E. destruct found as [v|].
      * split; [done|]. intros [[_ Hf]|[? _]]; [|done]. by apply Forall_cons in Hf as [Hn _].
      * rewrite IH. split.
        -- intros [[[= <-] Hf]|[? _]]; [|done]. right. split; [done|]. exists [], h.1, headers. destruct h. done.
        -- intros [[? _]|(_ & before & name & after & Eh & Ha & Hf)]; [done|]. left.
           destruct before as [|b before]; injection Eh as -> ->; [done|]. by apply Forall_cons in Hf as [? _].
    + assert (~ is_authorization h) as Hn by (intros Ha; apply jwt_equal_folded in Ha; congruence).
      rewrite IH. split.
      * intros [[-> Hf]|(-> & before & name & after & -> & Ha & Hf)].
        -- left. split; [done|]. by constructor.
        -- right. split; [done|]. exists (h :: before), name, after. split_and!; try done. by constructor.
      * intros [[-> Hf]|(-> & before & name & after & Eh & Ha & Hf)].
        -- left. apply Forall_cons in Hf as [_ Hf]. done.
        -- right. split; [done|]. destruct before as [|b before]; injection Eh as -> ->; [done|].
           apply Forall_cons in Hf as [_ Hf]. by exists before, name, after.
Qed.

Definition starts_with_space (s : list Z) : bool := match s with c :: _ => c =? SPACE | [] => false end.

Lemma skip_spaces_spec s token : skip_spaces s = token <->
  exists n, s = replicate n SPACE ++ token /\ starts_with_space token = false.
Proof.
  split.
  - revert token. induction s as [|c s IH]; cbn; intros token.
    + intros <-. by exists 0%nat.
    + destruct (Z.eqb_spec c SPACE) as [->|Hc].
      * intros H. apply IH in H as (n & -> & Ht). by exists (S n).
      * intros <-. exists 0%nat. split; [done|]. cbn. by apply Z.eqb_neq.
  - intros (n & -> & Ht). induction n as [|n IH]; cbn.
    + destruct token as [|c token]; cbn in *; [done|]. by rewrite Ht.
    + exact IH.
Qed.

(** One [Authorization] header, and it holds the scheme, spaces and the token. *)
Definition bearer_credentials (headers : list (list Z * list Z)) (token : list Z) : Prop :=
  exists before name scheme n after,
    headers = before ++ (name, scheme ++ replicate (S n) SPACE ++ token) :: after /\
    is_authorization (name, []) /\ Forall (fun h => ~ is_authorization h) (before ++ after) /\
    folded scheme = folded (bytes_of "Bearer") /\ token <> [] /\ starts_with_space token = false.

Lemma scheme_split value token : (zlen value <=? 6) = false -> zth value 6 = SPACE ->
  folded (ztake 6 value) = folded (bytes_of "Bearer") -> skip_spaces (zdrop 6 value) = token ->
  exists scheme n, value = scheme ++ replicate (S n) SPACE ++ token /\
    folded scheme = folded (bytes_of "Bearer") /\ starts_with_space token = false.
Proof.
  intros Hl Hs Hf Ht. apply Z.leb_gt in Hl. apply skip_spaces_spec in Ht as (n & Ed & Ht).
  assert (zdrop 6 value !! 0%nat = Some SPACE) as H0.
  { unfold zdrop. rewrite lookup_drop. change (Z.to_nat 6 + 0)%nat with 6%nat. unfold zth in Hs. change (Z.to_nat 6) with 6%nat in Hs.
    destruct (value !! 6%nat) as [c|] eqn:E.
    - by rewrite (nth_lookup_Some _ _ 0 _ E) in Hs; subst.
    - apply lookup_ge_None in E. unfold zlen in Hl. lia. }
  destruct n as [|n].
  - exfalso. rewrite Ed in H0. destruct token as [|c token]; [done|]. cbn in H0, Ht. injection H0 as ->. done.
  - exists (ztake 6 value), n. split; [|done]. rewrite <- (ztake_zdrop 6 value) at 1. by rewrite Ed.
Qed.

Lemma folded_length a b : folded a = folded b -> zlen a = zlen b.
Proof. intros H. apply (f_equal length) in H. unfold folded in H. rewrite !length_map in H. unfold zlen. lia. Qed.

Lemma bearer_token_iff headers token : chttp_jwt_bearer_token headers = Some token <-> bearer_credentials headers token.
Proof.
  unfold chttp_jwt_bearer_token, bearer_credentials. change CHTTP_JWT_BEARER_SCHEME_SIZE with 6. split.
  - destruct (single_authorization headers None) as [[value|]|] eqn:E; [|done|done].
    apply single_authorization_spec in E as [[? _]|(_ & before & name & after & -> & Ha & Hf)]; [done|].
    split_if; [done|]. split_if; [done|]. apply bytes_eqb_eq in Heqb.
    destruct (skip_spaces (zdrop 6 value)) as [|c t] eqn:Es; [done|]. intros [= <-].
    destruct (scheme_split value (c :: t)) as (scheme & n & -> & Hs & Ht); try done; [by apply Z.leb_gt|].
    by exists before, name, scheme, n, after.
  - intros (before & name & scheme & n & after & -> & Ha & Hf & Hs & Hne & Ht).
    rewrite (proj2 (single_authorization_spec _ None (scheme ++ replicate (S n) SPACE ++ token))).
    2: { right. split; [done|]. by exists before, name, after. }
    pose proof (folded_length _ _ Hs : zlen scheme = 6) as Hl.
    assert (zth (scheme ++ replicate (S n) SPACE ++ token) 6 = SPACE) as ->.
    { unfold zth. unfold zlen in Hl. replace (Z.to_nat 6) with (length scheme) by lia. rewrite app_nth2, Nat.sub_diag by lia. done. }
    rewrite <- Hl, ztake_app, zdrop_app. fold (folded scheme) (folded (bytes_of "Bearer")). rewrite Hs, bytes_eqb_refl. cbn [negb orb].
    rewrite (proj2 (skip_spaces_spec (replicate (S n) SPACE ++ token) token)) by (by exists (S n)).
    rewrite !zlen_app, (proj2 (Z.leb_gt _ _)), orb_false_l; [by destruct token|].
    change (replicate (S n) SPACE) with (SPACE :: replicate n SPACE). rewrite zlen_cons.
    pose proof (zlen_nonneg (replicate n SPACE)). pose proof (zlen_nonneg token). lia.
Qed.

(** ** Admission *)

Definition claims_of (jwt : cjwt_t) : chttp_jwt_claims_view :=
  {| cv_issuer := jwt_iss jwt; cv_subject := jwt_sub jwt; cv_jwt_id := jwt_jti jwt;
     cv_audiences := jwt_aud jwt; cv_issued_at := jwt_iat jwt;
     cv_not_before := jwt_nbf jwt; cv_expires_at := jwt_exp jwt |}.

(** What a validator demands of a token: the algorithm, the issuer, the audience
    and a time of expiry in the future, with the skew, or none where the
    validator allows tokens without one. *)
Definition token_accepted (v : chttp_jwt_bearer_validator_impl) (now : Z) (jwt : cjwt_t) : Prop :=
  jwt_hs256 jwt = true /\
  (forall issuer, jv_expected_issuer v = Some issuer -> jwt_iss jwt = Some issuer) /\
  (forall audience, jv_expected_audience v = Some audience -> Some audience ∈ jwt_aud jwt) /\
  match jwt_exp jwt with
  | Some exp => now < exp + jv_clock_skew_seconds v
  | None => jv_allow_missing_exp v = true
  end.

Lemma claim_is_iff claim expected : claim_is claim expected = true <-> claim = Some expected.
Proof. destruct claim; cbn; [rewrite bytes_eqb_eq|]; split; congruence. Qed.

Lemma claims_match_iff v jwt : chttp_jwt_claims_match v jwt = true <->
  (forall issuer, jv_expected_issuer v = Some issuer -> jwt_iss jwt = Some issuer) /\
  (forall audience, jv_expected_audience v = Some audience -> Some audience ∈ jwt_aud jwt).
Proof.
  unfold chttp_jwt_claims_match.
  assert (forall audience, existsb (fun name => claim_is name audience) (jwt_aud jwt) = true <-> Some audience ∈ jwt_aud jwt) as Haud.
  { intros audience. rewrite existsb_exists. split.
    - intros (x & Hx & Hc). apply claim_is_iff in Hc as ->. by apply list_elem_of_In.
    - intros Hx. exists (Some audience). split; [by apply list_elem_of_In|]. by apply claim_is_iff. }
  destruct (jv_expected_issuer v) as [issuer|].
  - destruct (claim_is (jwt_iss jwt) issuer) eqn:Ei; cbn [negb].
    + apply claim_is_iff in Ei. destruct (jv_expected_audience v) as [audience|].
      * rewrite Haud. split; [intros H; split; intros ? [= <-]; done|intros [_ H]; by apply H].
      * split; [|done]. intros _. split; [by intros ? [= <-]|done].
    + split; [done|]. intros [H _]. rewrite (proj2 (claim_is_iff _ _)) in Ei; [done|by apply H].
  - destruct (jv_expected_audience v) as [audience|].
    + rewrite Haud. split; [intros H; split; [done|by intros ? [= <-]]|intros [_ H]; by apply H].
    + done.
Qed.

(** The strict comparison decides the expiry in exact arithmetic. *)
Lemma expired_strict_exact now exp skew : 0 <= skew -> now <= INT64_MAX ->
  chttp_jwt_expired_strict now exp skew = false <-> now < exp + skew.
Proof. unfold chttp_jwt_expired_strict. intros Hs Hn. split_if; [|rewrite Z.leb_gt; done]. split; [|done]. lia. Qed.

Section Admission.
Context {cjwt : Cjwt}.

Lemma validate_at_spec claims headers v now :
  0 <= jv_clock_skew_seconds v -> now <= INT64_MAX ->
  (forall claims', chttp_jwt_bearer_request_validate_at claims headers (Some v) now = (claims', SALTS_OK) <->
     exists token jwt, bearer_credentials headers token /\
       cjwt_decode token (jv_key v) now (jv_clock_skew_seconds v) = Some jwt /\
       token_accepted v now jwt /\ claims' = Some (claims_of jwt)) /\
  (forall claims' status, chttp_jwt_bearer_request_validate_at claims headers (Some v) now = (claims', status) ->
     status <> SALTS_OK -> claims' = claims /\ status = SALTS_EPERM).
Proof.
  intros Hs Hn. unfold chttp_jwt_bearer_request_validate_at. split.
  - intros claims'. split.
    + destruct (chttp_jwt_bearer_token headers) as [token|] eqn:Et; [|done]. apply bearer_token_iff in Et.
      destruct (cjwt_decode token _ _ _) as [jwt|] eqn:Ed; [|done]. split_if; [done|]. split_if; [done|]. intros [= <-].
      apply claims_match_iff in H0 as [Hi Ha]. exists token, jwt. split_and!; try done. unfold token_accepted.
      split_and!; try done. unfold expiry_refused in Heqb. destruct (jwt_exp jwt); [by apply expired_strict_exact|by apply negb_false_iff].
    + intros (token & jwt & Ht & Ed & (Ha & Hi & Hau & He) & ->). apply bearer_token_iff in Ht. rewrite Ht, Ed, Ha.
      rewrite (proj2 (claims_match_iff v jwt)) by done. cbn [negb orb].
      assert (expiry_refused v jwt now = false) as ->; [|done].
      unfold expiry_refused. destruct (jwt_exp jwt); [by apply expired_strict_exact|by rewrite He].
  - intros claims' status. destruct (chttp_jwt_bearer_token headers); [|by intros [= <- <-]].
    destruct (cjwt_decode _ _ _ _); [|by intros [= <- <-]]. split_if; [by intros [= <- <-]|].
    split_if; [by intros [= <- <-]|]. by intros [= <- <-].
Qed.

(** C33: A request passes the check for bearer tokens exactly when it has one
    Authorization header with the scheme, spaces and a token that the library
    decodes, with the algorithm, the issuer and the audience that the validator
    demands, and a time of expiry that is in the future with the tolerated skew,
    or none where the validator allows tokens without one; otherwise it is refused
    and keeps its claims. *)
Theorem bearer_admission_correct claims headers v now :
  0 <= jv_clock_skew_seconds v -> now <= INT64_MAX ->
  (forall claims', chttp_jwt_bearer_request_validate_at claims headers (Some v) now = (claims', SALTS_OK) <->
     exists token jwt, bearer_credentials headers token /\
       cjwt_decode token (jv_key v) now (jv_clock_skew_seconds v) = Some jwt /\
       token_accepted v now jwt /\ claims' = Some (claims_of jwt)) /\
  (forall claims' status, chttp_jwt_bearer_request_validate_at claims headers (Some v) now = (claims', status) ->
     status <> SALTS_OK -> claims' = claims /\ status = SALTS_EPERM).
Proof. apply validate_at_spec. Qed.

End Admission.

(** ** Issued tokens *)

(** The library reads the times of a token as floating-point numbers, exact up
    to 53 bits, and checks them. *)
Definition exact_time (time : option Z) : Prop := match time with Some t => - 2 ^ 53 <= t <= 2 ^ 53 | None => True end.

Definition current (jwt : cjwt_t) (now skew : Z) : Prop :=
  exact_time (jwt_iat jwt) /\ exact_time (jwt_nbf jwt) /\ exact_time (jwt_exp jwt) /\
  match jwt_nbf jwt with Some nbf => nbf <= now + skew | None => True end /\
  match jwt_exp jwt with Some exp => now - skew <= exp | None => True end.

(** A text that was encoded with a key is decoded with the same key. *)
Class LawfulCjwt (cjwt : Cjwt) (encode : CjwtEncode) := {
  cjwt_text jwt key token : cjwt_encode jwt key = (CJWTE_OK, token) -> token <> [] /\ starts_with_space token = false;
  cjwt_roundtrip jwt key token now skew : cjwt_encode jwt key = (CJWTE_OK, token) -> jwt_hs256 jwt = true ->
    current jwt now skew -> cjwt_decode token key now skew = Some jwt;
}.

(** What a validator expects of the claims. *)
Definition expects (expected claim : option (list Z)) : Prop :=
  match expected with Some value => claim = Some value | None => True end.

(** A token that was issued with the key of a validator is admitted by it in an
    Authorization header, with the claims it was issued with, until it expires,
    when the validator expects its issuer and audience or none. *)
Theorem issued_token_admitted {cjwt : Cjwt} {encode : CjwtEncode} {lawful : LawfulCjwt cjwt encode}
    claims token v now before name after claims0 :
  chttp_jwt_hs256_token_create claims (jv_key v) = Ok token ->
  current (token_of claims) now (jv_clock_skew_seconds v) -> 0 <= jv_clock_skew_seconds v -> now <= INT64_MAX ->
  expects (jv_expected_issuer v) (jc_issuer claims) -> expects (jv_expected_audience v) (jc_audience claims) ->
  (if jc_expires_at claims =? 0 then jv_allow_missing_exp v = true
   else now < jc_expires_at claims + jv_clock_skew_seconds v) ->
  is_authorization (name, []) -> Forall (fun h => ~ is_authorization h) (before ++ after) ->
  chttp_jwt_bearer_request_validate_at claims0 (before ++ (name, bytes_of "Bearer " ++ token) :: after) (Some v) now =
    (Some (claims_of (token_of claims)), SALTS_OK).
Proof.
  intros Hc Hcur Hs Hn Hi Ha He Hname Hother. apply (validate_at_spec claims0 _ v now Hs Hn). exists token, (token_of claims).
  revert Hc. unfold chttp_jwt_hs256_token_create. split_if; [done|]. destruct (cjwt_encode (token_of claims) (jv_key v)) as [code t] eqn:Ee.
  destruct code; [|done|done]. intros [= ->]. destruct (cjwt_text _ _ _ Ee) as [Hne Hsp]. split_and!; try done.
  - exists before, name, (bytes_of "Bearer"), 0%nat, after. by split_and!.
  - by apply cjwt_roundtrip.
  - unfold token_accepted. split_and!; [done| | |].
    + intros issuer Ei. unfold expects in Hi. by rewrite Ei in Hi.
    + intros audience Ea. unfold expects in Ha. rewrite Ea in Ha. cbn. rewrite Ha. apply list_elem_of_here.
    + cbn. unfold time_claim. by destruct (jc_expires_at claims =? 0).
Qed.

(** ** Instances *)

Definition day_token : cjwt_t :=
  {| jwt_hs256 := true; jwt_iss := Some (bytes_of "issuer"); jwt_sub := Some (bytes_of "ann"); jwt_jti := None;
     jwt_aud := [None; Some (bytes_of "api")]; jwt_iat := None; jwt_nbf := None; jwt_exp := Some 1000 |}.

(** A decoder that knows one text. *)
#[local] Instance one_token : Cjwt := fun token _ _ _ =>
  if bytes_eqb token (bytes_of "h.p.s") then Some day_token else None.

Definition day_validator : chttp_jwt_bearer_validator_impl :=
  {| jv_key := replicate 32 7; jv_clock_skew_seconds := 5; jv_allow_missing_exp := false;
     jv_expected_issuer := Some (bytes_of "issuer"); jv_expected_audience := Some (bytes_of "api") |}.

Lemma bearer_admission_correct_witness :
  let headers := [(bytes_of "Host", bytes_of "x"); (bytes_of "authorization", bytes_of "BEARER  h.p.s")] in
  chttp_jwt_bearer_request_validate_at None headers (Some day_validator) 1004 = (Some (claims_of day_token), SALTS_OK) /\
  bearer_credentials headers (bytes_of "h.p.s") /\
  (chttp_jwt_bearer_request_validate_at None headers (Some day_validator) 1005).2 = SALTS_EPERM.
Proof.
  cbv zeta. destruct (bearer_admission_correct None [(bytes_of "Host", bytes_of "x"); (bytes_of "authorization", bytes_of "BEARER  h.p.s")]
    day_validator 1004) as [H _]; [vm_compute; discriminate|vm_compute; discriminate|].
  assert (chttp_jwt_bearer_request_validate_at None [(bytes_of "Host", bytes_of "x"); (bytes_of "authorization", bytes_of "BEARER  h.p.s")]
    (Some day_validator) 1004 = (Some (claims_of day_token), SALTS_OK)) as E by (vm_compute; reflexivity).
  split; [exact E|]. split; [|vm_compute; reflexivity].
  apply H in E as (token & jwt & Hb & Hd & _).
  assert (chttp_jwt_bearer_token [(bytes_of "Host", bytes_of "x"); (bytes_of "authorization", bytes_of "BEARER  h.p.s")] = Some token) as Ht
    by (by apply bearer_token_iff).
  vm_compute in Ht. injection Ht as <-. exact Hb.
Defined.

(** An encoder for the one token. *)
Definition day_claims : chttp_jwt_claims :=
  {| jc_issuer := Some (bytes_of "issuer"); jc_subject := Some (bytes_of "ann"); jc_audience := Some (bytes_of "api");
     jc_jwt_id := None; jc_issued_at := 0; jc_not_before := 0; jc_expires_at := 1000 |}.

#[local] Instance cjwt_eq_dec : EqDecision cjwt_t.
Proof. solve_decision. Defined.

#[local] Instance issued_token : Cjwt := fun token _ _ _ =>
  if bytes_eqb token (bytes_of "h.p.s") then Some (token_of day_claims) else None.

#[local] Instance one_encoder : CjwtEncode := fun jwt _ =>
  if bool_decide (jwt = token_of day_claims) then (CJWTE_OK, bytes_of "h.p.s") else (CJWTE_OTHER, []).

#[local] Instance one_lawful : LawfulCjwt issued_token one_encoder.
Proof.
  constructor.
  - intros jwt key token. unfold cjwt_encode, one_encoder. case_bool_decide; [|done]. by intros [= <-].
  - intros jwt key token now skew. unfold cjwt_encode, one_encoder. case_bool_decide as E; [|done]. intros [= <-] _ _. by rewrite E.
Qed.

Lemma issued_token_admitted_witness :
  chttp_jwt_bearer_request_validate_at None ([] ++ (bytes_of "Authorization", bytes_of "Bearer " ++ bytes_of "h.p.s") :: [])
    (Some day_validator) 1004 = (Some (claims_of (token_of day_claims)), SALTS_OK).
Proof.
  apply (issued_token_admitted day_claims (bytes_of "h.p.s") day_validator 1004 [] (bytes_of "Authorization") [] None).
  - vm_compute. reflexivity.
  - unfold current. cbn. lia.
  - vm_compute. discriminate.
  - vm_compute. discriminate.
  - reflexivity.
  - reflexivity.
  - vm_compute. reflexivity.
  - reflexivity.
  - apply Forall_nil_2.
Defined.

End JwtTheorems.
