(* ===== verification/Middleware.v ===== *)
(** * Middleware

    Model of the chain of [http_server/src/chttp_server_interceptor.c].  A
    middleware is a C function that may call [chttp_server_next_call] any
    number of times, and looks at the state in between: it is a computation
    that returns or calls a continuation and goes on with the result.  The
    continuations are the [chttp_server_next_impl] on the C stack, each with its
    flag; a middleware has its own and may have got hold of one further out,
    and so call it while the call that it is part of has not returned.  What
    the callbacks of a request read and change is [call_state]: the response,
    the sessions, and whatever the application keeps.

    [run_chain] says what a chain should do, without the flags: the first call
    of a continuation runs the rest, every other call is refused.  The section
    [Rules] has the reasoning rules for invariants of a chain. *)

From S2P Require Import Prelude HpackBuffer Router Http1Parser ServerBuffer Session Response Jwt.

Module Middleware.
Import HpackBuffer Router Http1Parser ServerBuffer Session Response Jwt.

(** The view of a request that callbacks get. *)
Record server_request := {
  sq_http_major : Z;
  sq_http_minor : Z;
  sq_method : Z;
  sq_path : list Z;
  sq_headers : list (list Z * list Z);
  sq_params : list (list Z * list Z);
  sq_body : list Z;
  sq_session : bool;
  sq_jwt_claims : option chttp_jwt_claims_view;
  sq_body_sink_user : option Z;
}.

#[export] Instance eta_server_request : Eta server_request :=
  fun r => Build_server_request (sq_http_major r) (sq_http_minor r) (sq_method r) (sq_path r)
    (sq_headers r) (sq_params r) (sq_body r) (sq_session r) (sq_jwt_claims r) (sq_body_sink_user r).
#[export] Instance set_sq_params : Setter sq_params. Proof. mk_setter. Defined.
#[export] Instance set_sq_body : Setter sq_body. Proof. mk_setter. Defined.
#[export] Instance set_sq_session : Setter sq_session. Proof. mk_setter. Defined.
#[export] Instance set_sq_jwt_claims : Setter sq_jwt_claims. Proof. mk_setter. Defined.
#[export] Instance set_sq_body_sink_user : Setter sq_body_sink_user. Proof. mk_setter. Defined.

(** What the callbacks of a request change. *)
Record call_state (App : Type) := {
  cs_world : world;
  cs_response : chttp_server_response_builder;
  cs_sessions : store;
  cs_session : chttp_session_context;
  cs_app : App;
}.
Arguments cs_world {App}.
Arguments cs_response {App}.
Arguments cs_sessions {App}.
Arguments cs_session {App}.
Arguments cs_app {App}.

#[export] Instance eta_call_state App : Eta (call_state App) :=
  fun s => Build_call_state App (cs_world s) (cs_response s) (cs_sessions s) (cs_session s) (cs_app s).
#[export] Instance set_cs_world App : Setter (@cs_world App). Proof. mk_setter. Defined.
#[export] Instance set_cs_response App : Setter (@cs_response App). Proof. mk_setter. Defined.
#[export] Instance set_cs_sessions App : Setter (@cs_sessions App). Proof. mk_setter. Defined.
#[export] Instance set_cs_session App : Setter (@cs_session App). Proof. mk_setter. Defined.
#[export] Instance set_cs_app App : Setter (@cs_app App). Proof. mk_setter. Defined.

(** A middleware at work; [up] counts the middleware around it outwards. *)
Inductive activation (St : Type) :=
  | Returns (s : St) (status : salts_status)
  | CallsNext (s : St) (resume : St -> salts_status -> activation St)
  | CallsOuter (s : St) (up : nat) (resume : St -> salts_status -> activation St).
Arguments Returns {St}.
Arguments CallsNext {St}.
Arguments CallsOuter {St}.

Record chttp_server_next_impl := {
  ni_index : nat;
  ni_called : bool;
}.

Section Chain.
Context {St : Type}.

(** The state, the status, and the continuations on the stack, the innermost
    first; [None] is out of fuel. *)
#[local] Abbreviation dispatched := (option (St * salts_status * list chttp_server_next_impl)).

(** The call of the continuation at a place of the stack. *)
Definition chttp_server_next_call (dispatch : list chttp_server_next_impl -> nat -> St -> dispatched)
    (stack : list chttp_server_next_impl) (place : nat) (s : St) : dispatched :=
  match stack !! place with
  | None => Some (s, SALTS_EINVAL, stack)
  | Some impl =>
    if ni_called impl then Some (s, SALTS_EALREADY, stack)
    else dispatch (<[place := {| ni_index := ni_index impl; ni_called := true |}]> stack) (ni_index impl) s
  end.

Fixpoint activation_run (dispatch : list chttp_server_next_impl -> nat -> St -> dispatched)
    (stack : list chttp_server_next_impl) (a : activation St) : dispatched :=
  match a with
  | Returns s status => Some (s, status, stack)
  | CallsNext s resume =>
    '(s, status, stack) ← chttp_server_next_call dispatch stack 0 s; activation_run dispatch stack (resume s status)
  | CallsOuter s up resume =>
    '(s, status, stack) ← chttp_server_next_call dispatch stack (S up) s; activation_run dispatch stack (resume s status)
  end.

(** [binding] gives the middleware at an index below the total, [terminal]
    stands for the rest of the function.  A dispatch within a dispatch is for a
    later index, so the total and one are enough fuel. *)
Fixpoint chttp_server_chain_dispatch (binding : nat -> option (St -> activation St)) (terminal : St -> St * salts_status)
    (fuel : nat) (stack : list chttp_server_next_impl) (index : nat) (s : St) : dispatched :=
  match fuel with
  | O => None
  | S fuel =>
    match binding index with
    | Some handler =>
      let next_impl := {| ni_index := index + 1; ni_called := false |} in
      '(s, status, stack) ←
        activation_run (chttp_server_chain_dispatch binding terminal fuel) (next_impl :: stack) (handler s);
      Some (s, status, tail stack)
    | None => let '(s, status) := terminal s in Some (s, status, stack)
    end
  end.

(** ** What a chain should do *)

(** [called] says whether the activation has called its continuation, [depth]
    is the number of those around it. *)
Fixpoint run_activation (dispatch : St -> St * salts_status) (depth : nat) (a : activation St) (called : bool) :
    St * salts_status :=
  match a with
  | Returns s status => (s, status)
  | CallsNext s resume =>
    let '(s, status) := if called then (s, SALTS_EALREADY) else dispatch s in
    run_activation dispatch depth (resume s status) true
  | CallsOuter s up resume =>
    run_activation dispatch depth (resume s (if (up <? depth)%nat then SALTS_EALREADY else SALTS_EINVAL)) called
  end.

(** The bindings that are left, then the end of the chain. *)
Fixpoint run_chain (last : St -> St * salts_status) (depth : nat) (bindings : list (St -> activation St)) (s : St) :
    St * salts_status :=
  match bindings with
  | [] => last s
  | handler :: bindings => run_activation (run_chain last (S depth) bindings) depth (handler s) false
  end.

(** The continuations that are not the innermost have been called: so the
    innermost alone can dispatch, and each only once. *)
Definition all_called (stack : list chttp_server_next_impl) : Prop := Forall (fun impl => ni_called impl = true) stack.

Lemma activation_run_spec dispatch rest stack index a : all_called stack ->
  (forall s, dispatch ({| ni_index := index; ni_called := true |} :: stack) index s =
     Some (rest s, {| ni_index := index; ni_called := true |} :: stack)) ->
  forall called, exists called',
    activation_run dispatch ({| ni_index := index; ni_called := called |} :: stack) a =
      Some (run_activation rest (length stack) a called, {| ni_index := index; ni_called := called' |} :: stack).
Proof.
  intros Hs Hd. induction a as [s status|s resume IH|s up resume IH]; intros called; cbn [activation_run run_activation].
  - by exists called.
  - unfold chttp_server_next_call. cbn [lookup list_lookup ni_called ni_index]. destruct called; cbn [mbind option_bind].
    + apply IH.
    + change (<[0%nat := _]> (?x :: stack)) with ({| ni_index := index; ni_called := true |} :: stack). rewrite Hd.
      destruct (rest s) as [s' status]. cbn. apply IH.
  - unfold chttp_server_next_call. change ((?x :: stack) !! S up) with (stack !! up).
    destruct (Nat.ltb_spec up (length stack)) as [Hlt|Hge].
    + destruct (lookup_lt_is_Some_2 stack up Hlt) as [impl Hi]. rewrite Hi, (Forall_lookup_1 _ _ _ _ Hs Hi). apply IH.
    + rewrite lookup_ge_None_2 by done. apply IH.
Qed.

Lemma chain_dispatch_spec binding terminal bindings : forall fuel stack index s,
  (forall i, binding (index + i)%nat = bindings !! i) -> (length bindings < fuel)%nat -> all_called stack ->
  chttp_server_chain_dispatch binding terminal fuel stack index s = Some (run_chain terminal (length stack) bindings s, stack).
Proof.
  induction bindings as [|handler bindings IH]; intros [|fuel] stack index s Hb Hf Hs; cbn [length] in Hf; try lia; cbn [chttp_server_chain_dispatch].
  - specialize (Hb O). rewrite Nat.add_0_r in Hb. rewrite Hb. cbn. by destruct (terminal s).
  - pose proof (Hb O) as H0. rewrite Nat.add_0_r in H0. rewrite H0. cbn [lookup list_lookup run_chain].
    destruct (activation_run_spec (chttp_server_chain_dispatch binding terminal fuel) (run_chain terminal (S (length stack)) bindings)
      stack (index + 1) (handler s) Hs) with (called := false) as (called & ->).
    { intros s'. apply (IH fuel ({| ni_index := index + 1; ni_called := true |} :: stack)); [|lia|by constructor].
      intros i. rewrite <- Nat.add_assoc. exact (Hb (S i)). }
    by destruct (run_activation _ _ _ _).
Qed.

End Chain.

(** ** Rules *)

Section Rules.
Context {St : Type} (I : St -> Prop).

(** The computation keeps the invariant whenever it lets others run, and when
    it returns. *)
Fixpoint keeps (a : activation St) : Prop :=
  match a with
  | Returns s _ => I s
  | CallsNext s resume | CallsOuter s _ resume => I s /\ forall s' status, I s' -> keeps (resume s' status)
  end.

Lemma run_activation_keeps dispatch depth a : (forall s, I s -> I (dispatch s).1) -> keeps a ->
  forall called, I (run_activation dispatch depth a called).1.
Proof.
  intros Hd. induction a as [s status|s resume IH|s up resume IH]; cbn; [done| |]; intros [Hs Hr] called.
  - specialize (Hd s Hs). destruct called; [by apply IH, Hr|]. destruct (dispatch s) as [s' status]. by apply IH, Hr.
  - by apply IH, Hr.
Qed.

Lemma run_chain_keeps last bindings : (forall s, I s -> I (last s).1) ->
  Forall (fun handler => forall s, I s -> keeps (handler s)) bindings ->
  forall depth s, I s -> I (run_chain last depth bindings s).1.
Proof.
  intros Hl. induction 1 as [|handler bindings Hh _ IH]; intros depth s Hs; cbn; [by apply Hl|].
  apply run_activation_keeps; [apply IH|by apply Hh].
Qed.

End Rules.

(** ** Order *)

Section Order.
Context {St L : Type}.

(** The computation beside a value that it does not touch. *)
Fixpoint beside {T : Type} (a : activation St) (t : T) : activation (St * T) :=
  match a with
  | Returns s status => Returns (s, t) status
  | CallsNext s resume => CallsNext (s, t) (fun x status => beside (resume x.1 status) x.2)
  | CallsOuter s up resume => CallsOuter (s, t) up (fun x status => beside (resume x.1 status) x.2)
  end.

(** A binding and the end of the chain write a label when they start. *)
Definition logged (label : L) (handler : St -> activation St) (x : St * list L) : activation (St * list L) :=
  beside (handler x.1) (x.2 ++ [label]).

Definition logged_last (label : L) (last : St -> St * salts_status) (x : St * list L) : (St * list L) * salts_status :=
  let '(s, status) := last x.1 in ((s, x.2 ++ [label]), status).

Lemma run_activation_logged dispatch dispatch' depth (prefixes : list (list L)) a : forall log called,
  (forall s log, exists added, added ∈ prefixes /\
     dispatch' (s, log) = (((dispatch s).1, log ++ added), (dispatch s).2)) ->
  exists added, (added = [] \/ (called = false /\ added ∈ prefixes)) /\
    run_activation dispatch' depth (beside a log) called =
      (((run_activation dispatch depth a called).1, log ++ added), (run_activation dispatch depth a called).2).
Proof.
  induction a as [s status|s resume IH|s up resume IH]; intros log called Hd; cbn.
  - exists []. split; [by left|]. by rewrite app_nil_r.
  - destruct called; cbn.
    + destruct (IH s SALTS_EALREADY log true Hd) as (added & [->|[? _]] & E); [|done]. exists []. split; [by left|exact E].
    + destruct (Hd s log) as (added & Hin & ->). destruct (dispatch s) as [s' status]. cbn.
      destruct (IH s' status (log ++ added) true Hd) as (added' & [->|[? _]] & E); [|done].
      exists added. split; [by right|]. rewrite E. by rewrite app_nil_r.
  - by apply IH.
Qed.

(** The labels of a run are a prefix of those of the chain. *)
Lemma run_chain_logged label last bindings : forall labels depth s log, length labels = length bindings ->
  exists n, (0 < n <= S (length bindings))%nat /\
    run_chain (logged_last label last) depth (zip_with logged labels bindings) (s, log) =
      (((run_chain last depth bindings s).1, log ++ take n (labels ++ [label])), (run_chain last depth bindings s).2).
Proof.
  induction bindings as [|handler bindings IH]; intros [|l labels] depth s log Hl; try done; cbn [zip_with run_chain].
  - exists 1%nat. split; [cbn; lia|]. unfold logged_last. cbn. by destruct (last s).
  - injection Hl as Hl. unfold logged at 2. cbn [fst snd].
    destruct (run_activation_logged (run_chain last (S depth) bindings)
      (run_chain (logged_last label last) (S depth) (zip_with logged labels bindings)) depth
      (map (fun n => take n (labels ++ [label])) (seq 1 (S (length bindings)))) (handler s) (log ++ [l]) false) as (added & Ha & E).
    { intros s' log'. destruct (IH labels (S depth) s' log' Hl) as (n & Hn & E). eexists. split; [|exact E].
      apply list_elem_of_fmap. exists n. split; [done|]. apply elem_of_seq. lia. }
    rewrite E. destruct Ha as [->|[_ Ha]].
    + exists 1%nat. split; [cbn; lia|]. cbn. by rewrite app_nil_r.
    + apply list_elem_of_fmap in Ha as (n & -> & Hn). apply elem_of_seq in Hn. exists (S n). split; [cbn; lia|].
      cbn. by rewrite <- app_assoc.
Qed.

End Order.

End Middleware.
