(* ===== verification/Cors.v ===== *)
(** * Cross-origin requests

    Model of [http_server/src/chttp_server_cors.c]: the policy that an
    application registers, and the middleware that applies it to a request.
    A slice of a header or of the policy is its bytes. *)

From S2P Require Import Prelude Decimal HpackBuffer Router Http1Parser ServerBuffer Session Response Jwt Middleware.

Module Cors.
Import Decimal HpackBuffer Router Http1Parser ServerBuffer Session Response Jwt Middleware.

Definition CHTTP_CORS_MAX_AGE_BYTES : Z := 11.
Definition cors_origin : list Z := bytes_of "Origin".
Definition cors_method : list Z := bytes_of "Access-Control-Request-Method".
Definition cors_headers : list Z := bytes_of "Access-Control-Request-Headers".

Record chttp_server_cors_options := {
  co_origins : list (list Z);
  co_methods : option (list Z);
  co_allowed_headers : option (list Z);
  co_exposed_headers : option (list Z);
  co_max_age_seconds : Z;
  co_allow_credentials : bool;
}.

(** ** Lists *)

Definition cors_token_char (ch : Z) : bool :=
  ((48 <=? ch) && (ch <=? 57)) || ((65 <=? ch) && (ch <=? 90)) || ((97 <=? ch) && (ch <=? 122)) ||
  existsb (Z.eqb ch) (bytes_of "!#$%&'*+-.^_`|~").

(** The longest prefix whose bytes pass the test, and the rest. *)
Fixpoint span (test : Z -> bool) (s : list Z) : list Z * list Z :=
  match s with
  | c :: rest => if test c then let '(a, b) := span test rest in (c :: a, b) else ([], s)
  | [] => ([], [])
  end.

(** The end of the list (0), a malformed list (-1), or the next token and where
    it ends (1). *)
Inductive next_token :=
  | TokenEnd
  | TokenBad
  | Token (token cursor : list Z).

Definition separator (c : Z) : bool := (c =? SPACE) || (c =? TAB) || (c =? COMMA).

Definition cors_next_token (cursor : list Z) : next_token :=
  match (span separator cursor).2 with
  | [] => TokenEnd
  | scan =>
    let '(token, scan) := span cors_token_char scan in
    if zlen token =? 0 then TokenBad
    else
      let scan := drop_ows scan in
      match scan with
      | c :: _ => if negb (c =? COMMA) then TokenBad else Token token scan
      | [] => Token token scan
      end
  end.

(** The tokens that the loops over a list see, and whether the list ended well.
    A token takes a byte at least: one more than the length is enough fuel. *)
Fixpoint cors_tokens_loop (fuel : nat) (cursor : list Z) : list (list Z) * bool :=
  match fuel with
  | O => ([], false)
  | S fuel =>
    match cors_next_token cursor with
    | TokenEnd => ([], true)
    | TokenBad => ([], false)
    | Token token cursor => let '(tokens, ok) := cors_tokens_loop fuel cursor in (token :: tokens, ok)
    end
  end.

Definition cors_tokens (cursor : list Z) : list (list Z) * bool := cors_tokens_loop (S (length cursor)) cursor.

(** On strings of the same size. *)
Definition cors_equal (a b : list Z) (sensitive : bool) : bool :=
  if sensitive then bytes_eqb a b else bytes_eqb (map ascii_lower a) (map ascii_lower b).

Definition cors_list_contains (values : option (list Z)) (token : list Z) (sensitive : bool) : bool :=
  match values with
  | None => false
  | Some values =>
    existsb (fun candidate => (zlen candidate =? zlen token) && cors_equal candidate token sensitive)
      (cors_tokens values).1
  end.

Definition cors_policy_list_valid (values : option (list Z)) : bool :=
  match values with
  | None => true
  | Some values =>
    let '(tokens, ok) := cors_tokens values in
    negb (existsb (fun token => bytes_eqb token (bytes_of "*")) tokens) && ok && negb (zlen tokens =? 0)
  end.

(** ** Headers *)

Definition cors_trim (value : list Z) : list Z := reverse (drop_ows (reverse (drop_ows value))).

Definition cors_origin_valid (origin : list Z) : bool :=
  negb (zlen origin =? 0) &&
  forallb (fun ch => negb ((ch <=? SPACE) || (127 <=? ch) || (ch =? COMMA))) origin.

Definition cors_header_at (h : list Z * list Z) (name : list Z) : option (list Z) :=
  chttp_server_request_header [h] name.

(** [*value], and the error of a repeated header. *)
Fixpoint cors_single_header_loop (headers : list (list Z * list Z)) (name : list Z)
    (value : option (list Z)) : option (list Z) * salts_status :=
  match headers with
  | [] => (value, SALTS_OK)
  | h :: headers =>
    match cors_header_at h name with
    | None => cors_single_header_loop headers name value
    | Some candidate =>
      if negb (is_none value) then (value, SALTS_EINVAL)
      else cors_single_header_loop headers name (Some candidate)
    end
  end.

Definition cors_single_header (headers : list (list Z * list Z)) (name : list Z) :
    option (list Z) * salts_status := cors_single_header_loop headers name None.

(** The loop over the headers that a preflight request names. *)
Fixpoint cors_preflight_headers (policy : chttp_server_cors_options) (headers : list (list Z * list Z)) : Z :=
  match headers with
  | [] => 204
  | h :: headers =>
    match cors_header_at h cors_headers with
    | None => cors_preflight_headers policy headers
    | Some values =>
      let '(tokens, ok) := cors_tokens values in
      if existsb (fun token => negb (cors_list_contains (co_allowed_headers policy) token false)) tokens then 403
      else if negb ok then 400
      else cors_preflight_headers policy headers
    end
  end.

Definition cors_preflight_status (policy : chttp_server_cors_options) (headers : list (list Z * list Z))
    (method : list Z) : Z :=
  let '(token, _) := span cors_token_char (drop_ows method) in
  if (zlen token =? 0) || negb (zlen token =? zlen (cors_trim method)) then 400
  else if negb (cors_list_contains (co_methods policy) token true) then 403
  else cors_preflight_headers policy headers.

(** ** The middleware *)

Section Middleware.
Context {alloc : Allocator} {App : Type}.

(** An operation on the headers, in the state of the call. *)
Definition header_call (s : call_state App)
    (call : chttp_server_response_builder -> chttp_server_response_builder * salts_status) :
    call_state App * salts_status :=
  let '(b, status) := call (cs_response s) in (s <| cs_response := b |>, status).

Definition chttp_server_reply_to (s : call_state App) (status_code : Z) (content_type : option (list Z))
    (body : list Z) : call_state App * salts_status :=
  let '(w, b, status) := chttp_server_reply (cs_world s) (cs_response s) status_code content_type body in
  (s <| cs_world := w |> <| cs_response := b |>, status).

(** The next call of a sequence that stops at the first error. *)
Definition then_header (r : call_state App * salts_status) (name value : list Z) : call_state App * salts_status :=
  match r with
  | (s, SALTS_OK) => header_call s (fun b => chttp_server_response_set_header b name value)
  | _ => r
  end.

Definition then_optional_header (r : call_state App * salts_status) (name : list Z) (value : option (list Z)) :
    call_state App * salts_status :=
  match value with Some value => then_header r name value | None => r end.

(** A reply that ends the middleware. *)
Definition reply_empty (s : call_state App) (status_code : Z) : activation (call_state App) :=
  let '(s, status) := chttp_server_reply_to s status_code None [] in Returns s status.

(** [return chttp_server_next_call(next)] *)
Definition return_next (s : call_state App) : activation (call_state App) :=
  CallsNext s (fun s status => Returns s status).

Definition find_origin (policy : chttp_server_cors_options) (origin : list Z) : option (list Z) :=
  List.find (fun candidate => bytes_eqb candidate (bytes_of "*") || bytes_eqb candidate origin) (co_origins policy).

(** From the headers that allow the origin on. *)
Definition cors_allow (policy : chttp_server_cors_options) (s : call_state App) (allowed : list Z)
    (preflight : bool) : activation (call_state App) :=
  let r := then_header (s, SALTS_OK) (bytes_of "Access-Control-Allow-Origin") allowed in
  let '(s, status) :=
    if co_allow_credentials policy
    then then_header r (bytes_of "Access-Control-Allow-Credentials") (bytes_of "true") else r in
  if negb (bool_decide (status = SALTS_OK)) then Returns s status
  else if negb preflight then
    let '(s, status) :=
      then_optional_header (s, SALTS_OK) (bytes_of "Access-Control-Expose-Headers") (co_exposed_headers policy) in
    if bool_decide (status = SALTS_OK) then return_next s else Returns s status
  else
    let r := then_header (s, SALTS_OK) (bytes_of "Access-Control-Allow-Methods")
               (default [] (co_methods policy)) in
    let r := then_optional_header r (bytes_of "Access-Control-Allow-Headers") (co_allowed_headers policy) in
    let age := decimal (co_max_age_seconds policy) in
    let '(s, status) :=
      if negb (bool_decide (r.2 = SALTS_OK)) then r
      else if CHTTP_CORS_MAX_AGE_BYTES <=? zlen age then (r.1, SALTS_ERANGE)
      else then_header r (bytes_of "Access-Control-Max-Age") age in
    if bool_decide (status = SALTS_OK) then reply_empty s 204 else Returns s status.

Definition cors_middleware (policy : chttp_server_cors_options) (request : server_request)
    (s : call_state App) : activation (call_state App) :=
  let '(origin, origin_status) := cors_single_header (sq_headers request) cors_origin in
  let origin := cors_trim <$> origin in
  let '(s, status) := header_call s (fun b => chttp_server_response_append_vary b cors_origin) in
  if negb (bool_decide (status = SALTS_OK)) then Returns s status
  else if negb (bool_decide (origin_status = SALTS_OK)) ||
          match origin with Some origin => negb (cors_origin_valid origin) | None => false end
  then reply_empty s 400
  else
    match origin with
    | None => return_next s
    | Some origin =>
      let '(method, method_status) :=
        if sq_method request =? CHTTP_METHOD_OPTIONS
        then cors_single_header (sq_headers request) cors_method else (None, SALTS_OK) in
      let preflight := negb (is_none method) || negb (bool_decide (method_status = SALTS_OK)) in
      let '(s, status) :=
        if preflight
        then header_call s (fun b => chttp_server_response_append_vary b
               (bytes_of "Access-Control-Request-Method, Access-Control-Request-Headers"))
        else (s, SALTS_OK) in
      if negb (bool_decide (status = SALTS_OK)) then Returns s status
      else if negb (bool_decide (method_status = SALTS_OK)) then reply_empty s 400
      else
        match find_origin policy origin with
        | None => reply_empty s 403
        | Some allowed =>
          let result :=
            if preflight then cors_preflight_status policy (sq_headers request) (default [] method) else 204 in
          if negb (result =? 204) then reply_empty s result
          else cors_allow policy s allowed preflight
        end
    end.

End Middleware.

(** ** Registration *)

Definition origin_refused (options : chttp_server_cors_options) (origin : list Z) : bool :=
  negb (cors_origin_valid origin) ||
  (has_char STAR origin &&
   (negb (bytes_eqb origin (bytes_of "*")) || negb (zlen (co_origins options) =? 1) ||
    co_allow_credentials options)).

(** The checks of [chttp_server_use_cors]. *)
Definition cors_policy_valid (options : chttp_server_cors_options) : bool :=
  negb ((zlen (co_origins options) =? 0) || is_none (co_methods options) ||
        negb (cors_policy_list_valid (co_methods options)) ||
        negb (cors_policy_list_valid (co_allowed_headers options)) ||
        negb (cors_policy_list_valid (co_exposed_headers options))) &&
  negb (existsb (origin_refused options) (co_origins options)).

End Cors.
