(* ===== verification/CorsTheorems.v ===== *)
(** * Theorems about cross-origin requests

    What a policy permits is said by [permitted], of the header fields of a
    request; [judged] says which decision is right, and [carries_out] what the
    middleware has to do for a decision. *)

From S2P Require Import Prelude Decimal HpackBuffer Router Http1Parser ServerBuffer Session.
From S2P Require Import SessionTheorems Response ResponseTheorems Jwt Middleware Cors.

Module CorsTheorems.
Import Decimal HpackBuffer Router Http1Parser ServerBuffer Session Response ResponseTheorems Jwt Middleware Cors.

(** ** Lists *)

(** The parts between commas. *)
Abbreviation split_commas := (split_on COMMA).

Definition nonempty (s : list Z) : bool := negb (zlen s =? 0).

(** The members of a list: its parts without the blanks around them, but for
    empty ones. *)
Definition members (s : list Z) : list (list Z) := List.filter nonempty (map cors_trim (split_commas s)).

Definition is_token (s : list Z) : bool := nonempty s && forallb cors_token_char s.

Lemma trim_drop s : cors_trim (drop_ows s) = cors_trim s.
Proof. unfold cors_trim. f_equal. f_equal. f_equal. induction s as [|c s IH]; cbn; [done|]. destruct (is_ows c) eqn:E; [done|]. cbn. by rewrite E. Qed.

Lemma trim_cons_ows c s : is_ows c = true -> cors_trim (c :: s) = cors_trim s.
Proof. intros E. rewrite <- (trim_drop (c :: s)). cbn [drop_ows]. rewrite E. apply trim_drop. Qed.

Lemma members_cons_separator c s : separator c = true -> members (c :: s) = members s.
Proof.
  unfold separator, members. intros H. cbn [split_on]. destruct (c =? COMMA) eqn:Ec; [done|]. rewrite orb_false_r in H.
  destruct (split_on_cons COMMA s) as (p & ps & ->). cbn [map]. by rewrite trim_cons_ows.
Qed.

Lemma span_spec test s : let '(a, b) := span test s in
  s = a ++ b /\ forallb test a = true /\ match b with c :: _ => test c = false | [] => True end.
Proof.
  induction s as [|c s IH]; cbn; [done|]. destruct (test c) eqn:E; [|done]. destruct (span test s) as [a b].
  destruct IH as (-> & Ha & Hb). cbn. by rewrite E.
Qed.

Lemma members_span s : members (span separator s).2 = members s.
Proof.
  induction s as [|c s IH]; cbn [span]; [done|]. destruct (separator c) eqn:E; [|done].
  rewrite members_cons_separator by done. by destruct (span separator s).
Qed.

Lemma drop_ows_spec s : exists ows, s = ows ++ drop_ows s /\ forallb is_ows ows = true /\
  match drop_ows s with c :: _ => is_ows c = false | [] => True end.
Proof.
  induction s as [|c s (ows & E & Ho & Hd)]; cbn; [by exists []|]. destruct (is_ows c) eqn:Ec.
  - exists (c :: ows). cbn. rewrite Ec, Ho. split_and!; try done. by rewrite <- E.
  - by exists [].
Qed.

Lemma token_not_blank c : cors_token_char c = true -> separator c = false.
Proof.
  unfold separator. intros H.
  destruct (Z.eqb_spec c SPACE) as [->|]; [done|]. destruct (Z.eqb_spec c TAB) as [->|]; [done|].
  by destruct (Z.eqb_spec c COMMA) as [->|].
Qed.

(** Trimming what follows a byte that is not blank. *)
Lemma trim_right_app a c s : is_ows c = false -> reverse (drop_ows (reverse (a ++ c :: s))) = a ++ c :: reverse (drop_ows (reverse s)).
Proof.
  intros Hc. rewrite reverse_app, reverse_cons, <- app_assoc.
  assert (forall r, drop_ows (r ++ [c] ++ reverse a) = drop_ows r ++ [c] ++ reverse a) as ->.
  { induction r as [|x r IH]; cbn; [by rewrite Hc|]. by destruct (is_ows x). }
  rewrite !reverse_app, reverse_involutive. cbn. by rewrite <- app_assoc.
Qed.

Lemma forallb_weaken {A} (p q : A -> bool) l : (forall x, p x = true -> q x = true) -> forallb p l = true -> forallb q l = true.
Proof. intros H. rewrite !forallb_forall. eauto. Qed.

Lemma is_ows_separator c : is_ows c = true -> negb (c =? COMMA) = true.
Proof. unfold is_ows. intros H. apply orb_true_iff in H as [H|H]; apply Z.eqb_eq in H as ->; done. Qed.

(** A token, blanks, and the end of its part. *)
Lemma members_token token ows s : forallb cors_token_char token = true -> nonempty token = true -> forallb is_ows ows = true ->
  match s with c :: _ => (c =? COMMA) = true | [] => True end ->
  members (token ++ ows ++ s) = token :: members s.
Proof.
  intros Ht Hn Ho Hs. unfold members. rewrite app_assoc.
  assert (forallb (fun c => negb (c =? COMMA)) (token ++ ows) = true) as Hc.
  { rewrite forallb_app. apply andb_true_iff. split; [|by eapply forallb_weaken, Ho; apply is_ows_separator].
    eapply forallb_weaken, Ht. intros c Hc. apply token_not_blank in Hc. unfold separator in Hc.
    apply orb_false_iff in Hc as [_ ->]. done. }
  rewrite split_on_app by done. destruct (split_on_cons COMMA s) as (p & ps & Es). rewrite Es.
  assert (p = []) as ->. { destruct s as [|c s]; cbn in Es; [by injection Es|]. rewrite Hs in Es. by injection Es. }
  rewrite app_nil_r. cbn [map List.filter].
  assert (cors_trim (token ++ ows) = token) as ->.
  { unfold cors_trim. destruct token as [|c token]; [done|]. apply andb_true_iff in Ht as [Htc Ht].
    assert (is_ows c = false) as Hcf by (apply token_not_blank, orb_false_iff in Htc as [Hcf _]; exact Hcf).
    cbn [app drop_ows]. rewrite Hcf.
    destruct (exists_last (l := c :: token)) as (front & z & Ez); [done|].
    assert (is_ows z = false) as Hz.
    { assert (cors_token_char z = true) as Hzt.
      { assert (forallb cors_token_char (front ++ [z]) = true) as Hall by (rewrite <- Ez; cbn; by rewrite Htc).
        rewrite forallb_app in Hall. apply andb_true_iff in Hall as [_ Hz]. cbn in Hz. by rewrite andb_true_r in Hz. }
      apply token_not_blank, orb_false_iff in Hzt as [Hzf _]. exact Hzf. }
    change (c :: token ++ ows) with ((c :: token) ++ ows). rewrite Ez, <- app_assoc. cbn [app].
    rewrite trim_right_app by done. f_equal. f_equal.
    assert (drop_ows (reverse ows) = []) as ->; [|done].
    assert (forallb is_ows (reverse ows) = true) as Hr.
    { apply forallb_forall. intros x Hx. rewrite forallb_forall in Ho. apply Ho. rewrite <- list_elem_of_In in *. by apply elem_of_reverse. }
    clear -Hr. induction (reverse ows) as [|x r IH]; cbn in *; [done|]. apply andb_true_iff in Hr as [-> Hr]. by apply IH. }
  by rewrite Hn.
Qed.

(** A malformed first member is not a token. *)
Lemma members_bad good c rest : is_ows c = false -> (c =? COMMA) = false ->
  forallb (fun c => negb (c =? COMMA)) good = true -> match good ++ [c] with x :: _ => is_ows x = false | [] => True end ->
  forallb cors_token_char (good ++ [c]) = false -> forallb is_token (members (good ++ c :: rest)) = false.
Proof.
  intros Hc Hcc Hg Hfirst Hbad. unfold members. rewrite split_on_app by done.
  destruct (split_on_cons COMMA (c :: rest)) as (p & ps & Ep). rewrite Ep.
  assert (exists p', p = c :: p') as (p' & ->).
  { cbn in Ep. rewrite Hcc in Ep. destruct (split_on_cons COMMA rest) as (q & qs & Eq). rewrite Eq in Ep. injection Ep as <- _. by eexists. }
  cbn [map List.filter].
  assert (cors_trim (good ++ c :: p') = good ++ c :: reverse (drop_ows (reverse p'))) as ->.
  { unfold cors_trim. rewrite <- trim_right_app by done. f_equal. f_equal. f_equal. destruct good as [|x good]; cbn in *; by rewrite ?Hc, ?Hfirst. }
  assert (nonempty (good ++ c :: reverse (drop_ows (reverse p'))) = true) as Hne.
  { unfold nonempty. rewrite zlen_app, zlen_cons. pose proof (zlen_nonneg good). pose proof (zlen_nonneg (reverse (drop_ows (reverse p')))).
    apply negb_true_iff, Z.eqb_neq. lia. }
  rewrite Hne. cbn [forallb]. apply andb_false_iff. left. unfold is_token. rewrite Hne. cbn [andb].
  change (c :: reverse (drop_ows (reverse p'))) with ([c] ++ reverse (drop_ows (reverse p'))). rewrite app_assoc, forallb_app, Hbad. done.
Qed.

Lemma next_token_spec s :
  match cors_next_token s with
  | TokenEnd => members s = []
  | TokenBad => forallb is_token (members s) = false
  | Token token cursor => is_token token = true /\ members s = token :: members cursor /\ (length cursor < length s)%nat
  end.
Proof.
  unfold cors_next_token. rewrite <- (members_span s). pose proof (span_spec separator s) as Hs.
  destruct (span separator s) as [seps scan]. destruct Hs as (-> & _ & Hhead). cbn [snd].
  destruct scan as [|c0 scan0]; [done|]. set (scan := c0 :: scan0) in *.
  pose proof (span_spec cors_token_char scan) as Ht. destruct (span cors_token_char scan) as [token after]. destruct Ht as (Es & Ht & Hafter).
  assert (is_ows c0 = false /\ (c0 =? COMMA) = false) as [Hc0 Hc0c] by (apply orb_false_iff in Hhead; exact Hhead).
  destruct (Z.eqb_spec (zlen token) 0) as [E|E].
  - apply zlen_0_inv in E as ->. cbn in Es. subst after. cbn in Hafter. apply (members_bad [] c0 scan0); try done. cbn. by rewrite Hafter.
  - assert (nonempty token = true) as Hn by (unfold nonempty; by rewrite (proj2 (Z.eqb_neq _ _))).
    destruct (drop_ows_spec after) as (ows & Ea & Ho & Hd). destruct (drop_ows after) as [|c rest].
    + rewrite Es, Ea. split_and!.
      * unfold is_token. by rewrite Hn.
      * by apply members_token.
      * rewrite !length_app. destruct token; [done|]. cbn. lia.
    + destruct (c =? COMMA) eqn:Ec; cbn [negb].
      * rewrite Es, Ea. split_and!.
        -- unfold is_token. by rewrite Hn.
        -- by apply members_token.
        -- rewrite !length_app. destruct token; [done|]. cbn. lia.
      * rewrite Es, Ea. rewrite app_assoc. apply members_bad; try done.
        -- rewrite forallb_app. apply andb_true_iff. split; [|by eapply forallb_weaken, Ho; apply is_ows_separator].
           eapply forallb_weaken, Ht. intros x Hx. apply token_not_blank, orb_false_iff in Hx as [_ ->]. done.
        -- destruct token as [|x token]; [done|]. cbn in Es. injection Es as <- _. done.
        -- rewrite !forallb_app. destruct ows as [|o ows].
           ++ cbn in Ea. subst after. cbn. rewrite Hafter. by rewrite andb_false_r.
           ++ cbn in Ho. apply andb_true_iff in Ho as [Ho _]. cbn. destruct (cors_token_char o) eqn:Eo; [|by rewrite andb_false_r].
              apply token_not_blank, orb_false_iff in Eo as [Eo _]. unfold is_ows in Ho. congruence.
Qed.

(** The loops over a list see its members, up to the first that is not a token. *)
Lemma tokens_loop_spec fuel : forall s, (length s < fuel)%nat ->
  let '(tokens, ok) := cors_tokens_loop fuel s in
  ok = forallb is_token (members s) /\ (ok = true -> tokens = members s) /\
  forall t, t ∈ tokens -> t ∈ members s.
Proof.
  induction fuel as [|fuel IH]; intros s Hf; [lia|]. cbn [cors_tokens_loop]. pose proof (next_token_spec s) as H.
  destruct (cors_next_token s) as [| |token cursor].
  - rewrite H. done.
  - rewrite H. split_and!; try done. intros t Ht. by apply elem_of_nil in Ht.
  - destruct H as (Ht & Hm & Hl). specialize (IH cursor ltac:(lia)). destruct (cors_tokens_loop fuel cursor) as [tokens ok].
    destruct IH as (Hok & He & Hin). rewrite Hm. cbn [forallb]. rewrite Ht. split_and!; [done|intros Hx; by rewrite He|].
    intros t Hx. apply elem_of_cons in Hx as [->|Hx]; [apply list_elem_of_here|]. apply list_elem_of_further. by apply Hin.
Qed.

Lemma tokens_spec s : (cors_tokens s).2 = forallb is_token (members s) /\
  ((cors_tokens s).2 = true -> (cors_tokens s).1 = members s).
Proof.
  unfold cors_tokens. pose proof (tokens_loop_spec (S (length s)) s ltac:(lia)) as H.
  destruct (cors_tokens_loop _ s) as [tokens ok]. destruct H as (? & ? & _). done.
Qed.

(** ** Policies *)

Lemma contains_iff values token sensitive : forallb is_token (members values) = true ->
  cors_list_contains (Some values) token sensitive = true <->
  exists m, m ∈ members values /\ if sensitive then m = token else folded m = folded token.
Proof.
  intros Hv. destruct (tokens_spec values) as [Hok Ht]. rewrite Hv in Hok. specialize (Ht Hok).
  unfold cors_list_contains. rewrite Ht, existsb_exists. unfold cors_equal. split.
  - intros (m & Hm & Hc). apply andb_true_iff in Hc as [_ Hc]. exists m. split; [by apply list_elem_of_In|].
    destruct sensitive; by apply bytes_eqb_eq.
  - intros (m & Hm & Hc). exists m. split; [by apply list_elem_of_In|]. apply andb_true_iff. split.
    + apply Z.eqb_eq. destruct sensitive; [by subst|]. apply (f_equal length) in Hc. unfold folded in Hc. rewrite !length_map in Hc. unfold zlen. lia.
    + destruct sensitive; by apply bytes_eqb_eq.
Qed.

Lemma policy_list_valid values : cors_policy_list_valid (Some values) = true -> forallb is_token (members values) = true.
Proof.
  unfold cors_policy_list_valid. destruct (tokens_spec values) as [Hok _]. destruct (cors_tokens values) as [tokens ok]. cbn in Hok. subst ok.
  intros H. by bool_prop.
Qed.

Definition header_values (headers : list (list Z * list Z)) (name : list Z) : list (list Z) :=
  omap (fun h => cors_header_at h name) headers.

Lemma header_values_cons h headers name : header_values (h :: headers) name =
  match cors_header_at h name with Some v => v :: header_values headers name | None => header_values headers name end.
Proof. done. Qed.

Lemma single_header_loop_spec headers name : forall value,
  cors_single_header_loop headers name value =
  match value, header_values headers name with
  | None, [] => (None, SALTS_OK)
  | None, [v] => (Some v, SALTS_OK)
  | None, v :: _ => (Some v, SALTS_EINVAL)
  | Some v, [] => (Some v, SALTS_OK)
  | Some v, _ => (Some v, SALTS_EINVAL)
  end.
Proof.
  induction headers as [|h headers IH]; intros value; [by destruct value|]. cbn [cors_single_header_loop]. rewrite header_values_cons.
  destruct (cors_header_at h name) as [candidate|]; [|by apply IH]. destruct value as [v|]; [done|].
  cbn [is_none negb]. by rewrite IH.
Qed.

Lemma single_header_spec headers name : cors_single_header headers name =
  match header_values headers name with
  | [] => (None, SALTS_OK)
  | [v] => (Some v, SALTS_OK)
  | v :: _ => (Some v, SALTS_EINVAL)
  end.
Proof. exact (single_header_loop_spec headers name None). Qed.

(** What a preflight request asks for is in the policy. *)
Definition preflight_granted (policy : chttp_server_cors_options) (headers : list (list Z * list Z)) (method : list Z) : Prop :=
  (exists methods, co_methods policy = Some methods /\ cors_trim method ∈ members methods) /\
  forall value name, value ∈ header_values headers cors_headers -> name ∈ members value ->
    is_token name = true /\
    exists allowed m, co_allowed_headers policy = Some allowed /\ m ∈ members allowed /\ folded m = folded name.

Lemma trim_prefix s : exists ows, drop_ows s = cors_trim s ++ ows /\ forallb is_ows ows = true.
Proof.
  unfold cors_trim. set (d := drop_ows s). destruct (drop_ows_spec (reverse d)) as (ows & E & Ho & _).
  exists (reverse ows). split.
  - rewrite <- (reverse_involutive d) at 1. rewrite E at 1. by rewrite reverse_app.
  - apply forallb_forall. intros x Hx. rewrite forallb_forall in Ho. apply Ho. rewrite <- list_elem_of_In in *. by apply elem_of_reverse.
Qed.

Lemma method_token method : let '(token, _) := span cors_token_char (drop_ows method) in
  if (zlen token =? 0) || negb (zlen token =? zlen (cors_trim method)) then is_token (cors_trim method) = false
  else token = cors_trim method /\ is_token token = true.
Proof.
  destruct (trim_prefix method) as (ows & E & Ho). pose proof (span_spec cors_token_char (drop_ows method)) as H.
  destruct (span cors_token_char (drop_ows method)) as [token rest]. destruct H as (Es & Ht & Hr).
  assert (token ++ rest = cors_trim method ++ ows) as Eq by congruence.
  destruct (Z.eqb_spec (zlen token) (zlen (cors_trim method))) as [El|El]; cbn [negb].
  - rewrite orb_false_r. assert (token = cors_trim method) as ->.
    { apply (app_inj_1 token (cors_trim method) rest ows); [|exact Eq]. unfold zlen in El. lia. }
    unfold is_token, nonempty. destruct (Z.eqb_spec (zlen (cors_trim method)) 0); [done|]. by rewrite Ht.
  - rewrite orb_true_r. destruct (is_token (cors_trim method)) eqn:Et; [|done]. exfalso. apply El. f_equal.
    apply andb_true_iff in Et as [_ Et].
    assert (span cors_token_char (cors_trim method ++ ows) = (cors_trim method, ows)) as Hspan.
    { clear -Et Ho. induction (cors_trim method) as [|c t IH]; cbn in *.
      - destruct ows as [|o ows]; [done|]. cbn in *. apply andb_true_iff in Ho as [Ho _].
        destruct (cors_token_char o) eqn:Eo; [|done]. apply token_not_blank, orb_false_iff in Eo as [Eo _]. unfold is_ows in Ho. congruence.
      - apply andb_true_iff in Et as [-> Et]. by rewrite IH. }
    rewrite <- Eq in Hspan. clear -Hspan Ht Hr. revert Hspan.
    assert (span cors_token_char (token ++ rest) = (token, rest)) as ->.
    { induction token as [|c t IH]; cbn in *.
      - destruct rest; [done|]. cbn. by rewrite Hr.
      - apply andb_true_iff in Ht as [-> Ht]. by rewrite IH. }
    congruence.
Qed.

Lemma preflight_headers_spec policy headers :
  (forall allowed, co_allowed_headers policy = Some allowed -> forallb is_token (members allowed) = true) ->
  let granted := forall value name, value ∈ header_values headers cors_headers -> name ∈ members value ->
    is_token name = true /\
    exists allowed m, co_allowed_headers policy = Some allowed /\ m ∈ members allowed /\ folded m = folded name in
  (cors_preflight_headers policy headers = 204 /\ granted) \/
  ((cors_preflight_headers policy headers = 400 \/ cors_preflight_headers policy headers = 403) /\ ~ granted).
Proof.
  intros Hp. cbv zeta. assert (forall token, cors_list_contains (co_allowed_headers policy) token false = true <->
    exists allowed m, co_allowed_headers policy = Some allowed /\ m ∈ members allowed /\ folded m = folded token) as Hc.
  { intros token. destruct (co_allowed_headers policy) as [allowed|].
    - rewrite contains_iff by (by apply Hp). split; [intros (m & ? & ?); eauto|intros (a & m & [= <-] & ? & ?); eauto].
    - split; [done|]. intros (? & ? & ? & _). done. }
  induction headers as [|h headers IH]; cbn [cors_preflight_headers]; [|rewrite header_values_cons].
  - left. split; [done|]. intros value name Hv. by apply elem_of_nil in Hv.
  - destruct (cors_header_at h cors_headers) as [values|]; [|exact IH].
    destruct (tokens_spec values) as [Hok Heq]. pose proof (tokens_loop_spec (S (length values)) values ltac:(lia)) as H.
    change (cors_tokens_loop (S (length values)) values) with (cors_tokens values) in *.
    destruct (cors_tokens values) as [tokens ok]. cbn [fst snd] in *. destruct H as (_ & _ & H0). subst ok. split_if.
    + right. split; [by right|]. intros Hg. apply existsb_exists in Heqb as (t & Hin & Hn). apply negb_true_iff in Hn.
      destruct (Hg values t) as [_ Ha]; [apply list_elem_of_here|by apply H0, list_elem_of_In|]. apply Hc in Ha. congruence.
    + split_if.
      * right. split; [by left|]. intros Hg. assert (forallb is_token (members values) = true) as Ht; [|congruence].
        apply forallb_forall. intros t Hin. apply (Hg values t); [apply list_elem_of_here|by apply list_elem_of_In].
      * specialize (Heq Heqb0). subst tokens. destruct IH as [[-> Hg]|[Hne Hg]].
        -- left. split; [done|]. intros value name Hv Hm. apply elem_of_cons in Hv as [->|Hv]; [|by eapply Hg].
           split; [rewrite forallb_forall in Heqb0; by apply Heqb0, list_elem_of_In|]. apply Hc.
           destruct (cors_list_contains _ name false) eqn:E; [done|]. exfalso. rewrite <- not_true_iff_false in Heqb. apply Heqb, existsb_exists.
           exists name. split; [by apply list_elem_of_In|]. by rewrite E.
        -- right. split; [done|]. intros Hg'. apply Hg. intros value name Hv. apply Hg'. by apply list_elem_of_further.
Qed.

Lemma policy_valid_lists policy : cors_policy_valid policy = true ->
  (exists methods, co_methods policy = Some methods /\ forallb is_token (members methods) = true) /\
  (forall allowed, co_allowed_headers policy = Some allowed -> forallb is_token (members allowed) = true).
Proof.
  unfold cors_policy_valid. intros H. bool_prop. split.
  - destruct (co_methods policy) as [methods|]; [|done]. exists methods. split; [done|]. by apply policy_list_valid.
  - intros allowed E. rewrite E in *. by apply policy_list_valid.
Qed.

(** A preflight request is granted or refused as the policy says. *)
Lemma preflight_spec policy headers method : cors_policy_valid policy = true ->
  (cors_preflight_status policy headers method = 204 /\ preflight_granted policy headers method) \/
  ((cors_preflight_status policy headers method = 400 \/ cors_preflight_status policy headers method = 403) /\
   ~ preflight_granted policy headers method).
Proof.
  intros Hp. destruct (policy_valid_lists policy Hp) as [(methods & Em & Hm) Ha]. unfold cors_preflight_status, preflight_granted.
  pose proof (method_token method) as Ht. destruct (span cors_token_char (drop_ows method)) as [token rest].
  destruct ((zlen token =? 0) || negb (zlen token =? zlen (cors_trim method))).
  - right. split; [by left|]. intros [(ms & Em' & Hin) _]. rewrite Em in Em'. injection Em' as <-.
    rewrite forallb_forall in Hm. apply list_elem_of_In, Hm in Hin. congruence.
  - destruct Ht as [-> Ht]. rewrite Em. pose proof (contains_iff methods (cors_trim method) true Hm) as Hc.
    destruct (cors_list_contains (Some methods) (cors_trim method) true); cbn [negb].
    + destruct (proj1 Hc eq_refl) as (m & Hin & ->).
      destruct (preflight_headers_spec policy headers Ha) as [[-> Hg]|[Hne Hg]]; [left|right]; split; try done.
      * split; [by exists methods|done].
      * by intros [_ ?].
    + right. split; [by right|]. intros [(ms & [= <-] & Hin) _]. assert (false = true); [|done]. apply Hc. by exists (cors_trim method).
Qed.

(** A list of tokens is the value of a header. *)
Lemma split_on_elem x s c : c ∈ s -> c = x \/ exists part, part ∈ split_on x s /\ c ∈ part.
Proof.
  induction s as [|d s IH]; [by intros ?%elem_of_nil|]. intros [->|Hin]%elem_of_cons; cbn [split_on].
  - destruct (Z.eqb_spec d x); [by left|]. right. destruct (split_on_cons x s) as (p & ps & ->). exists (d :: p). split; apply list_elem_of_here.
  - destruct (IH Hin) as [?|(part & Hp & Hc)]; [by left|]. right. destruct (d =? x); [exists part; split; [by apply list_elem_of_further|done]|].
    destruct (split_on x s) as [|p ps]; [by apply elem_of_nil in Hp|]. apply elem_of_cons in Hp as [->|Hp].
    + exists (d :: p). split; [apply list_elem_of_here|by apply list_elem_of_further].
    + exists part. split; [by apply list_elem_of_further|done].
Qed.

Lemma trim_elem s c : c ∈ s -> is_ows c = true \/ c ∈ cors_trim s.
Proof.
  intros Hin. destruct (drop_ows_spec s) as (o1 & E1 & H1 & _). destruct (trim_prefix s) as (o2 & E2 & H2). rewrite E1, E2 in Hin.
  rewrite forallb_forall in H1, H2. apply elem_of_app in Hin as [Hin|[Hin|Hin]%elem_of_app]; [left|by right|left]; by apply list_elem_of_In in Hin; auto.
Qed.

Lemma token_value_char c : cors_token_char c = true -> value_char c = true.
Proof.
  unfold cors_token_char, value_char. intros H. apply negb_true_iff, orb_false_iff. rewrite !orb_true_iff, !andb_true_iff, !Z.leb_le, existsb_exists in H.
  assert (33 <= c <= 126) as Hr; [|split; [apply andb_false_iff; left|]; lia].
  destruct H as [[[?|?]|?]|(d & Hd & Hcd)]; [lia..|]. apply Z.eqb_eq in Hcd. subst c. revert d Hd. apply List.Forall_forall. vm_compute. repeat constructor; discriminate.
Qed.

Lemma list_value_ok values : forallb is_token (members values) = true -> chttp_server_response_value values = true.
Proof.
  intros Ht. apply forallb_forall. intros c Hc%list_elem_of_In. rewrite forallb_forall in Ht.
  destruct (split_on_elem COMMA values c Hc) as [->|(part & Hp & Hin)]; [done|].
  destruct (trim_elem part c Hin) as [Ho|Hm]; [apply orb_true_iff in Ho as [Ho|Ho]; apply Z.eqb_eq in Ho; by subst c|].
  apply token_value_char. assert (is_token (cors_trim part) = true) as Htok.
  { apply Ht. unfold members. apply filter_In. split; [by apply in_map, list_elem_of_In|]. unfold nonempty. apply negb_true_iff, Z.eqb_neq.
    destruct (cors_trim part); [by apply elem_of_nil in Hm|]. rewrite zlen_cons. pose proof (zlen_nonneg l). lia. }
  apply andb_true_iff in Htok as [_ Htok]. rewrite forallb_forall in Htok. by apply Htok, list_elem_of_In.
Qed.

(** ** The middleware *)

(** What the policy decides for a request. *)
Inductive cors_decision :=
  | CorsPass
  | CorsAllow (allowed : list Z) (preflight : bool)
  | CorsReject (code : Z).

Definition cors_decide (policy : chttp_server_cors_options) (request : server_request) : cors_decision :=
  match header_values (sq_headers request) cors_origin with
  | [] => CorsPass
  | [origin] =>
    let origin := cors_trim origin in
    if negb (cors_origin_valid origin) then CorsReject 400
    else
      match if sq_method request =? CHTTP_METHOD_OPTIONS then header_values (sq_headers request) cors_method else [] with
      | [] => match find_origin policy origin with None => CorsReject 403 | Some allowed => CorsAllow allowed false end
      | [method] =>
        match find_origin policy origin with
        | None => CorsReject 403
        | Some allowed =>
          let code := cors_preflight_status policy (sq_headers request) method in
          if code =? 204 then CorsAllow allowed true else CorsReject code
        end
      | _ => CorsReject 400
      end
  | _ => CorsReject 400
  end.

Definition ALLOW_ORIGIN : list Z := bytes_of "Access-Control-Allow-Origin".
Definition ALLOW_CREDENTIALS : list Z := bytes_of "Access-Control-Allow-Credentials".

Section Correct.
Context {alloc : Allocator} {App : Type}.

Definition value_of (s : call_state App) (name : list Z) : option (list Z) := header_value (rb_headers (cs_response s)) name.

(** The headers alone changed, and the builder is well formed. *)
Definition headed (s s' : call_state App) : Prop :=
  builder_wf (cs_response s') /\
  exists headers used, s' = s <| cs_response := with_headers (cs_response s) headers used |>.

Lemma headed_trans s s1 s2 : headed s s1 -> headed s1 s2 -> headed s s2.
Proof. intros (_ & h1 & u1 & ->) (Hwf & h2 & u2 & ->). split; [exact Hwf|]. by exists h2, u2. Qed.

Lemma headed_refl s : builder_wf (cs_response s) -> headed s s.
Proof.
  intros Hb. split; [done|]. exists (rb_headers (cs_response s)), (rb_header_storage_used (cs_response s)).
  unfold with_headers. rewrite <- (bw_wire _ Hb). destruct s as [w b ss sc app]. by destruct b.
Qed.

Lemma vary_call s fields : builder_wf (cs_response s) -> chttp_server_response_value fields = true ->
  let '(s', status) := header_call s (fun b => chttp_server_response_append_vary b fields) in
  headed s s' /\ forall m, folded m <> folded (bytes_of "Vary") -> value_of s' m = value_of s m.
Proof.
  intros Hb Hv. unfold header_call. destruct (chttp_server_response_append_vary (cs_response s) fields) as [b' status] eqn:E.
  destruct (append_vary_value _ _ _ _ Hb Hv E) as (Hwf & _ & (headers & used & ->) & Hval).
  split; [split; [exact Hwf|by exists headers, used]|exact Hval].
Qed.

Lemma header_step s name value : builder_wf (cs_response s) ->
  let '(s', status) := header_call s (fun b => chttp_server_response_set_header b name value) in
  headed s s' /\ forall m, value_of s' m =
    if bool_decide (status = SALTS_OK) && bool_decide (folded m = folded name) then Some value else value_of s m.
Proof.
  intros Hb. unfold header_call. destruct (chttp_server_response_set_header (cs_response s) name value) as [b' status] eqn:E.
  destruct (set_header_spec _ _ _ _ _ Hb E) as (Hwf & Hval & Hne & _). split; [|exact Hval]. split; [exact Hwf|].
  pose proof (set_header_cases (cs_response s) name value Hb) as Hc. rewrite E in Hc.
  destruct Hc as [[_ ->]|(_ & _ & _ & used & -> & _)]; [|by eexists _, used].
  destruct (proj2 (headed_refl s Hb)) as (headers & used & Eq). exists headers, used. rewrite <- Eq. by destruct s.
Qed.

(** The same for a sequence: the last header is set unless an error stops it. *)
Lemma then_header_spec s0 r name value : headed s0 r.1 ->
  let r' := then_header r name value in
  headed s0 r'.1 /\ (r'.2 = SALTS_OK -> r.2 = SALTS_OK) /\
  forall m, value_of r'.1 m =
    if bool_decide (r'.2 = SALTS_OK) && bool_decide (folded m = folded name) then Some value else value_of r.1 m.
Proof.
  intros Hh. destruct r as [s status]. cbn [fst] in Hh. unfold then_header.
  destruct (decide (status = SALTS_OK)) as [->|Hne].
  - cbv zeta. pose proof (header_step s name value (proj1 Hh)) as H.
    destruct (header_call s _) as [s' status]. destruct H as [H1 H2]. cbn [fst snd]. split_and!; try done. by eapply headed_trans.
  - cbv zeta. assert (match status with SALTS_OK => header_call s (fun b => chttp_server_response_set_header b name value) | _ => (s, status) end = (s, status)) as ->
      by (by destruct status). cbn [fst snd]. split_and!; try done. intros m. by rewrite bool_decide_false.
Qed.

Lemma then_optional_spec s0 r name value : headed s0 r.1 ->
  let r' := then_optional_header r name value in
  headed s0 r'.1 /\ (r'.2 = SALTS_OK -> r.2 = SALTS_OK) /\
  forall m, folded m <> folded name -> value_of r'.1 m = value_of r.1 m.
Proof.
  intros Hh. destruct value as [value|]; cbn [then_optional_header]; [|done].
  destruct (then_header_spec s0 r name value Hh) as (H1 & H2 & H3). split_and!; try done.
  intros m Hm. rewrite H3. by rewrite (bool_decide_false (folded m = folded name)), andb_false_r.
Qed.

(** A reply without a body sets the status, or fails. *)
Lemma reply_empty_spec s code : builder_wf (cs_response s) ->
  exists s' status, reply_empty s code = Returns s' status /\ builder_wf (cs_response s') /\
    (forall m, value_of s' m = value_of s m) /\
    (status = SALTS_OK -> rb_replied (cs_response s') = true /\ rb_status_code (cs_response s') = code).
Proof.
  intros Hb. unfold reply_empty, chttp_server_reply_to. pose proof (reply_op_ok (cs_world s) (cs_response s) code None [] Hb) as Hwf.
  destruct (chttp_server_reply (cs_world s) (cs_response s) code None []) as [[w' b'] status] eqn:E. destruct Hwf as (Hwf & _).
  exists (s <| cs_world := w' |> <| cs_response := b' |>), status. split_and!; try done.
  - intros m. unfold value_of. f_equal. cbn. revert E. unfold chttp_server_reply. cbn. repeat split_if; intros ?; by simplify_eq.
  - intros ->. cbn. revert E. unfold chttp_server_reply. cbn. repeat split_if; intros ?; by simplify_eq.
Qed.

(** The end of the middleware, when the origin is allowed. *)
Lemma cors_allow_spec policy s allowed preflight : builder_wf (cs_response s) ->
  match cors_allow policy s allowed preflight with
  | Returns s' status =>
    builder_wf (cs_response s') /\
    (status = SALTS_OK -> preflight = true /\ rb_replied (cs_response s') = true /\ rb_status_code (cs_response s') = 204 /\
       value_of s' ALLOW_ORIGIN = Some allowed /\
       (co_allow_credentials policy = true -> value_of s' ALLOW_CREDENTIALS = Some (bytes_of "true")))
  | CallsNext s' resume =>
    builder_wf (cs_response s') /\ preflight = false /\ (forall x status, resume x status = Returns x status) /\
    value_of s' ALLOW_ORIGIN = Some allowed /\
    (co_allow_credentials policy = true -> value_of s' ALLOW_CREDENTIALS = Some (bytes_of "true"))
  | CallsOuter _ _ _ => False
  end.
Proof.
  intros Hb. unfold cors_allow. pose proof (headed_refl s Hb) as Hh0.
  destruct (then_header_spec s (s, SALTS_OK) (bytes_of "Access-Control-Allow-Origin") allowed Hh0) as (Hh1 & _ & Hv1).
  fold ALLOW_ORIGIN in *. set (r1 := then_header (s, SALTS_OK) ALLOW_ORIGIN allowed) in *. clearbody r1.
  set (r2 := if co_allow_credentials policy then then_header r1 (bytes_of "Access-Control-Allow-Credentials") (bytes_of "true") else r1).
  assert (headed s r2.1 /\ (r2.2 = SALTS_OK -> value_of r2.1 ALLOW_ORIGIN = Some allowed /\
    (co_allow_credentials policy = true -> value_of r2.1 ALLOW_CREDENTIALS = Some (bytes_of "true")))) as [Hh2 Hv2].
  { subst r2. destruct (co_allow_credentials policy).
    - destruct (then_header_spec s r1 (bytes_of "Access-Control-Allow-Credentials") (bytes_of "true") Hh1) as (Hh & Hok & Hv).
      split; [exact Hh|]. intros E. specialize (Hok E). split.
      + rewrite Hv, (bool_decide_false (folded ALLOW_ORIGIN = _)), andb_false_r, Hv1 by (vm_compute; discriminate). by rewrite Hok, !bool_decide_true.
      + intros _. rewrite Hv, E. by rewrite !bool_decide_true.
    - split; [exact Hh1|]. intros E. split; [|done]. rewrite Hv1, E. by rewrite !bool_decide_true. }
  clearbody r2. destruct r2 as [s2 st2]. cbn [fst snd] in *.
  destruct (decide (st2 = SALTS_OK)) as [->|Hne]; [|rewrite (bool_decide_false (st2 = _)) by done; cbn [negb]; split; [exact (proj1 Hh2)|done]].
  specialize (Hv2 eq_refl). destruct Hv2 as [Hv2 Hc2]. rewrite bool_decide_true by done. cbn [negb].
  assert (forall n : list Z, folded n <> folded ALLOW_ORIGIN -> folded n <> folded ALLOW_CREDENTIALS -> forall s' : call_state App,
    (forall m, folded m <> folded n -> value_of s' m = value_of s2 m) -> value_of s' ALLOW_ORIGIN = Some allowed /\
    (co_allow_credentials policy = true -> value_of s' ALLOW_CREDENTIALS = Some (bytes_of "true"))) as Hkeep.
  { intros n N1 N2 s' Hs. rewrite !Hs by done. done. }
  destruct preflight; cbn [negb].
  - destruct (then_header_spec s (s2, SALTS_OK) (bytes_of "Access-Control-Allow-Methods") (default [] (co_methods policy)) Hh2) as (Hh3 & _ & Hv3).
    set (r3 := then_header (s2, SALTS_OK) (bytes_of "Access-Control-Allow-Methods") (default [] (co_methods policy))) in *. clearbody r3.
    destruct (then_optional_spec s r3 (bytes_of "Access-Control-Allow-Headers") (co_allowed_headers policy) Hh3) as (Hh4 & Hok4 & Hv4).
    set (r4 := then_optional_header r3 (bytes_of "Access-Control-Allow-Headers") (co_allowed_headers policy)) in *. clearbody r4.
    assert (value_of r4.1 ALLOW_ORIGIN = Some allowed /\
      (co_allow_credentials policy = true -> value_of r4.1 ALLOW_CREDENTIALS = Some (bytes_of "true"))) as [Hv Hc].
    { rewrite !Hv4, !Hv3 by (vm_compute; discriminate).
      rewrite (bool_decide_false (folded ALLOW_ORIGIN = _)), (bool_decide_false (folded ALLOW_CREDENTIALS = _)), !andb_false_r by (vm_compute; discriminate). done. }
    match goal with |- context [let '(x, y) := ?e in _] => set (r5 := e) end.
    assert (headed s r5.1 /\ value_of r5.1 ALLOW_ORIGIN = Some allowed /\
      (co_allow_credentials policy = true -> value_of r5.1 ALLOW_CREDENTIALS = Some (bytes_of "true"))) as (Hh5 & Hv5 & Hc5).
    { subst r5. split_if; [done|]. split_if; [done|].
      destruct (then_header_spec s r4 (bytes_of "Access-Control-Max-Age") (decimal (co_max_age_seconds policy)) Hh4) as (Hh & _ & Hvv).
      split; [exact Hh|]. rewrite !Hvv, (bool_decide_false (folded ALLOW_ORIGIN = _)), (bool_decide_false (folded ALLOW_CREDENTIALS = _)), !andb_false_r
        by (vm_compute; discriminate). done. }
    clearbody r5. destruct r5 as [s5 st5]. cbn [fst] in *. destruct (bool_decide (st5 = SALTS_OK)) eqn:E5; [|split; [exact (proj1 Hh5)|by apply bool_decide_eq_false in E5]].
    destruct (reply_empty_spec s5 204 (proj1 Hh5)) as (s6 & st6 & -> & Hwf & Hval & Hrep). split; [done|]. intros Hok.
    rewrite !Hval. by destruct (Hrep Hok).
  - destruct (then_optional_spec s (s2, SALTS_OK) (bytes_of "Access-Control-Expose-Headers") (co_exposed_headers policy) Hh2) as (Hh3 & _ & Hv3).
    destruct (then_optional_header (s2, SALTS_OK) _ _) as [s3 st3]. cbn [fst snd] in *.
    destruct (bool_decide (st3 = SALTS_OK)) eqn:E3; [|split; [exact (proj1 Hh3)|by apply bool_decide_eq_false in E3]]. unfold return_next. rewrite !Hv3 by (vm_compute; discriminate).
    split_and!; [exact (proj1 Hh3)|done|done|done|done].
Qed.

(** The middleware carries a decision out: it replies or calls the rest of the
    chain, with the headers that go with the decision, unless it fails. *)
Definition carries_out (policy : chttp_server_cors_options) (decision : cors_decision) (s : call_state App)
    (a : activation (call_state App)) : Prop :=
  match a with
  | Returns s' status =>
    builder_wf (cs_response s') /\
    (status = SALTS_OK -> rb_replied (cs_response s') = true /\
       match decision with
       | CorsReject code => rb_status_code (cs_response s') = code /\ value_of s' ALLOW_ORIGIN = value_of s ALLOW_ORIGIN
       | CorsAllow allowed true =>
         rb_status_code (cs_response s') = 204 /\ value_of s' ALLOW_ORIGIN = Some allowed /\
         (co_allow_credentials policy = true -> value_of s' ALLOW_CREDENTIALS = Some (bytes_of "true"))
       | _ => False
       end)
  | CallsNext s' resume =>
    builder_wf (cs_response s') /\ (forall x status, resume x status = Returns x status) /\
    match decision with
    | CorsPass => value_of s' ALLOW_ORIGIN = value_of s ALLOW_ORIGIN
    | CorsAllow allowed false =>
      value_of s' ALLOW_ORIGIN = Some allowed /\
      (co_allow_credentials policy = true -> value_of s' ALLOW_CREDENTIALS = Some (bytes_of "true"))
    | _ => False
    end
  | CallsOuter _ _ _ => False
  end.

(** A state with the same allowed origin. *)
Definition same_origin (s s' : call_state App) : Prop :=
  builder_wf (cs_response s') /\ value_of s' ALLOW_ORIGIN = value_of s ALLOW_ORIGIN.

Lemma reject_carried policy s s' code : same_origin s s' -> carries_out policy (CorsReject code) s (reply_empty s' code).
Proof.
  intros [Hb Hu]. destruct (reply_empty_spec s' code Hb) as (s2 & st & -> & Hwf & Hval & Hrep). split; [done|].
  intros Hok. destruct (Hrep Hok). by rewrite Hval.
Qed.

Lemma allow_carried policy s s' allowed preflight : same_origin s s' ->
  carries_out policy (CorsAllow allowed preflight) s (cors_allow policy s' allowed preflight).
Proof.
  intros [Hb _]. pose proof (cors_allow_spec policy s' allowed preflight Hb) as Ha.
  destruct (cors_allow policy s' allowed preflight) as [s2 st|s2 resume|]; [| |done].
  - destruct Ha as [Hwf Ha]. split; [done|]. intros Hok. by destruct (Ha Hok) as (-> & ? & ? & ? & ?).
  - by destruct Ha as (? & -> & ? & ? & ?).
Qed.

Lemma vary_same s s1 fields : chttp_server_response_value fields = true -> same_origin s s1 ->
  same_origin s (header_call s1 (fun b => chttp_server_response_append_vary b fields)).1.
Proof.
  intros Hf [Hb Hu]. pose proof (vary_call s1 fields Hb Hf) as H. destruct (header_call s1 _) as [s2 st]. destruct H as [[Hb2 _] Hv].
  split; [done|]. cbn [fst]. rewrite Hv; [done|vm_compute; discriminate].
Qed.

(** An error of the headers ends the middleware; otherwise it goes on. *)
Lemma continue_carried policy decision s s1 status a : same_origin s s1 ->
  (status = SALTS_OK -> carries_out policy decision s a) ->
  carries_out policy decision s (if negb (bool_decide (status = SALTS_OK)) then Returns s1 status else a).
Proof. intros [Hb _] Ha. case_bool_decide; cbn [negb]; [by apply Ha|]. by split. Qed.

Lemma cors_carried_out policy request s : builder_wf (cs_response s) ->
  carries_out policy (cors_decide policy request) s (cors_middleware policy request s).
Proof.
  intros Hb. unfold cors_middleware, cors_decide. rewrite !single_header_spec.
  assert (same_origin s s) as H0 by done. pose proof (vary_same s s cors_origin ltac:(vm_compute; reflexivity) H0) as H1.
  destruct (header_call s _) as [s1 st1]. cbn [fst] in H1.
  destruct (header_values (sq_headers request) cors_origin) as [|origin [|o2 origins]]; apply continue_carried; try done; intros _.
  - rewrite bool_decide_true by done. by destruct H1.
  - rewrite bool_decide_true by done. cbn [negb orb fmap option_fmap option_map].
    destruct (cors_origin_valid (cors_trim origin)); cbn [negb]; [|by apply reject_carried].
    set (methods := if sq_method request =? CHTTP_METHOD_OPTIONS then header_values (sq_headers request) cors_method else []).
    assert ((if sq_method request =? CHTTP_METHOD_OPTIONS
             then match header_values (sq_headers request) cors_method with
                  | [] => (None, SALTS_OK) | [v] => (Some v, SALTS_OK) | v :: _ :: _ => (Some v, SALTS_EINVAL) end
             else (None, SALTS_OK)) =
            match methods with [] => (None, SALTS_OK) | [v] => (Some v, SALTS_OK) | v :: _ :: _ => (Some v, SALTS_EINVAL) end) as ->
      by (subst methods; by destruct (sq_method request =? CHTTP_METHOD_OPTIONS)).
    clearbody methods.
    pose proof (vary_same s s1 (bytes_of "Access-Control-Request-Method, Access-Control-Request-Headers") ltac:(vm_compute; reflexivity) H1) as H2.
    destruct methods as [|method [|m2 methods]]; cbn [is_none negb orb].
    + rewrite !bool_decide_true by done. cbn [negb orb].
      destruct (find_origin policy (cors_trim origin)) as [allowed|]; [|by apply reject_carried]. by apply allow_carried.
    + destruct (header_call s1 _) as [s2 st2]. cbn [fst] in H2. apply continue_carried; [done|]. intros _.
      rewrite bool_decide_true by done. cbn [negb from_option]. unfold id.
      destruct (find_origin policy (cors_trim origin)) as [allowed|]; [|by apply reject_carried]. cbv zeta.
      destruct (Z.eqb_spec (cors_preflight_status policy (sq_headers request) method) 204); cbn [negb]; [by apply allow_carried|by apply reject_carried].
    + destruct (header_call s1 _) as [s2 st2]. cbn [fst] in H2. apply continue_carried; [done|]. intros _.
      rewrite bool_decide_false by done. by apply reject_carried.
  - rewrite bool_decide_false by done. by apply reject_carried.
Qed.

(** ** Room *)

(** Room for [count] more headers and [bytes] more of their text, in a response
    that was not made yet. *)
Definition room (b : chttp_server_response_builder) (count bytes : Z) : Prop :=
  rb_deferred b = false /\ rb_replied b = false /\ 0 <= rb_body_limit b /\
  zlen (rb_headers b) + count <= rb_header_capacity b /\
  rb_header_storage_used b + bytes <= rb_header_storage_capacity b /\
  rb_header_wire_bytes b + bytes <= rb_header_storage_capacity b.

Lemma room_weaken b count bytes count' bytes' : room b count bytes -> count' <= count -> bytes' <= bytes -> room b count' bytes'.
Proof. intros (H1 & H2 & H3 & H4 & H5 & H6) Hc Hb. split_and!; try done; lia. Qed.

(** The room that a header takes. *)
Definition cost (name value : list Z) : Z := zlen name + zlen value + 4.

Definition settable (name : list Z) : bool :=
  chttp_server_response_token name && negb (reserved_header name) &&
  negb (chttp_server_response_ascii_equal name (bytes_of "Sec-WebSocket-Protocol")).

Lemma set_header_room b name value count bytes : builder_wf b -> settable name = true -> chttp_server_response_value value = true ->
  0 <= count -> 0 <= bytes -> room b (count + 1) (bytes + cost name value) ->
  let '(b', status) := chttp_server_response_set_header b name value in
  status = SALTS_OK /\ builder_wf b' /\ room b' count bytes.
Proof.
  intros Hb Hn Hv Hcount Hbytes (Hd & Hr & Hl & Hc & Hu & Hw). pose proof Hb as [H1 H2 H3 [H4 H4'] H5 H6 H7 H8 H9].
  pose proof (set_header_cases b name value Hb) as Hcases. revert Hcases. unfold chttp_server_response_set_header, chttp_server_response_set_header_impl.
  unfold settable in Hn. apply andb_true_iff in Hn as [Hn Hp]. apply andb_true_iff in Hn as [Hn Hres]. rewrite Hn, Hv. cbn [negb orb andb].
  apply negb_true_iff in Hres, Hp. rewrite Hres, Hp, Hd. cbn [negb orb andb]. cbv zeta.
  pose proof (zlen_nonneg name). pose proof (zlen_nonneg value). unfold cost in *.
  assert (0 <= storage_total (rb_headers b)) by apply sum_by_nonneg, storage_size_nonneg.
  assert (0 <= wire_total (rb_headers b)) by apply sum_by_nonneg, wire_size_nonneg.
  rewrite (u64_id (SIZE_MAX - zlen value - 4)), (proj2 (Z.ltb_ge (SIZE_MAX - zlen value - 4) (zlen name))) by lia.
  destruct (find_header b name) as [[i h]|] eqn:Ef.
  - apply list_find_Some in Ef as (Hi & He & _).
    assert (wire_size h <= rb_header_wire_bytes b) as Hle by (rewrite H2; eapply sum_by_member; [apply wire_size_nonneg|done]).
    pose proof (wire_size_nonneg h). rewrite !(u64_id (rb_header_wire_bytes b - wire_size h)) by lia.
    rewrite (proj2 (Z.ltb_ge (rb_header_storage_capacity b) _)) by lia. cbn [orb].
    rewrite (proj2 (Z.ltb_ge (_ - _) _)) by lia. rewrite storage_copy_ok by lia. rewrite bool_decide_true by done. cbn [negb].
    intros [[? _]|(_ & _ & _ & used & _ & Hwf)]; [done|]. split; [done|]. split; [exact Hwf|]. unfold room. cbn.
    unfold zlen in *. rewrite length_insert, u64_id by lia. split_and!; try done; lia.
  - rewrite (proj2 (Z.leb_gt _ _)), !(proj2 (Z.ltb_ge _ _)) by lia. cbn [orb].
    rewrite (u64_id (SIZE_MAX - zlen value - 2)), !(proj2 (Z.ltb_ge _ _)) by lia. cbn [orb].
    rewrite storage_copy_ok by lia. rewrite bool_decide_true by done. cbn [negb]. rewrite storage_copy_ok by (cbn; lia).
    rewrite bool_decide_true by done. cbn [negb].
    intros [[? _]|(_ & _ & _ & used & _ & Hwf)]; [done|]. split; [done|]. split; [exact Hwf|]. unfold room. cbn.
    rewrite zlen_app. change (zlen [(name, value)]) with 1. split_and!; try done; lia.
Qed.

(** The text of the [Vary] header. *)
Definition vary_size (b : chttp_server_response_builder) : Z :=
  match find_header b (bytes_of "Vary") with Some (_, h) => zlen h.2 | None => 0 end.

Lemma append_vary_room b fields count bytes : builder_wf b -> chttp_server_response_value fields = true -> 0 <= count -> 0 <= bytes ->
  room b (count + 1) (bytes + (vary_size b + zlen fields + 8)) ->
  let '(b', status) := chttp_server_response_append_vary b fields in
  status = SALTS_OK /\ builder_wf b' /\ room b' count bytes /\ vary_size b' <= vary_size b + zlen fields + 2.
Proof.
  intros Hb Hv Hcount Hbytes Hroom. pose proof (append_vary_cases b fields Hb Hv) as Hcases. revert Hcases. unfold chttp_server_response_append_vary, vary_size in *.
  cbv zeta. pose proof Hroom as (Hd & Hr & Hl & Hc & Hu & Hw). pose proof Hb as [H1 H2 H3 [H4 H4'] H5 H6 H7 H8 H9]. rewrite Hd.
  pose proof (zlen_nonneg fields).
  assert (0 <= storage_total (rb_headers b)) by apply sum_by_nonneg, storage_size_nonneg.
  assert (0 <= wire_total (rb_headers b)) by apply sum_by_nonneg, wire_size_nonneg.
  destruct (find_header b (bytes_of "Vary")) as [[i h]|] eqn:Ef.
  - pose proof (zlen_nonneg h.2). split_if.
    { intros _. rewrite Ef. split_and!; try done; [|lia]. apply (room_weaken _ _ _ _ _ Hroom); lia. }
    rewrite !(u64_id (SIZE_MAX - zlen fields - 3)), (proj2 (Z.ltb_ge _ (zlen h.2))) by lia.
    rewrite (u64_id (rb_header_storage_capacity b - rb_header_storage_used b)), (u64_id (rb_header_storage_capacity b - rb_header_wire_bytes b)) by lia.
    rewrite !(proj2 (Z.ltb_ge _ _)) by lia. cbn [orb]. intros [[? _]|(_ & headers & used & _ & Hwf)]; [done|].
    split; [done|]. split; [exact Hwf|]. pose proof Ef as Ef'. apply list_find_Some in Ef' as (Hi & He & _). split.
    + unfold room. cbn. unfold zlen in *. rewrite length_insert. split_and!; try done; lia.
    + assert (find_header (b <| rb_headers := <[i := (h.1, h.2 ++ bytes_of ", " ++ fields)]> (rb_headers b) |>
        <| rb_header_storage_used := rb_header_storage_used b + (zlen h.2 + zlen fields + 3) |>
        <| rb_header_wire_bytes := rb_header_wire_bytes b + (zlen fields + 2) |>) (bytes_of "Vary") =
        Some (i, (h.1, h.2 ++ bytes_of ", " ++ fields))) as ->; [|cbn [snd]; rewrite !zlen_app; change (zlen (bytes_of ", ")) with 2; lia].
      apply list_find_Some. cbn [rb_headers set eta]. split_and!.
      * apply list_lookup_insert_eq. by eapply lookup_lt_Some.
      * exact He.
      * intros j y Hj Hlt. apply list_lookup_insert_Some in Hj as [(-> & _)|[_ Hj]]; [lia|]. apply list_find_Some in Ef as (_ & _ & Hfirst). by eapply Hfirst.
  - intros _. pose proof (set_header_room b (bytes_of "Vary") fields count bytes Hb ltac:(vm_compute; reflexivity) Hv Hcount Hbytes) as Hs.
    change (cost (bytes_of "Vary") fields) with (4 + zlen fields + 4) in Hs. specialize (Hs ltac:(apply (room_weaken _ _ _ _ _ Hroom); lia)).
    pose proof (set_header_cases b (bytes_of "Vary") fields Hb) as Hcases.
    destruct (chttp_server_response_set_header b (bytes_of "Vary") fields) as [b' status]. destruct Hs as (-> & Hwf & Hrm).
    split_and!; try done. destruct Hcases as [[? _]|(_ & _ & _ & used & -> & _)]; [done|]. 
    assert (forall headers, find_header (with_headers b headers used) (bytes_of "Vary") =
      list_find (fun h => chttp_server_response_ascii_equal h.1 (bytes_of "Vary") = true) headers) as -> by done.
    unfold upsert. unfold find_header in Ef. rewrite Ef, list_find_app_r by done.
    assert (list_find (fun h => chttp_server_response_ascii_equal h.1 (bytes_of "Vary") = true) [(bytes_of "Vary", fields)] =
      Some (0%nat, (bytes_of "Vary", fields))) as -> by (cbn [list_find]; by rewrite decide_True by (vm_compute; reflexivity)).
    cbn. lia.
Qed.

Definition roomy (s : call_state App) (count bytes : Z) : Prop := builder_wf (cs_response s) /\ room (cs_response s) count bytes.

Lemma roomy_weaken s count bytes count' bytes' : roomy s count bytes -> count' <= count -> bytes' <= bytes -> roomy s count' bytes'.
Proof. intros [Hb Hr] Hc Hy. split; [done|]. by eapply room_weaken. Qed.

Lemma then_header_room s name value count bytes : settable name = true -> chttp_server_response_value value = true ->
  0 <= count -> 0 <= bytes -> roomy s (count + 1) (bytes + cost name value) ->
  exists s', then_header (s, SALTS_OK) name value = (s', SALTS_OK) /\ roomy s' count bytes.
Proof.
  intros Hn Hv Hc Hy [Hb Hr]. pose proof (set_header_room _ name value count bytes Hb Hn Hv Hc Hy Hr) as H. cbn [then_header]. unfold header_call.
  destruct (chttp_server_response_set_header _ _ _) as [b' status]. destruct H as (-> & Hb' & Hr'). by eexists.
Qed.

(** The bytes of a text that may be absent. *)
Definition text_size (value : option (list Z)) : Z := match value with Some value => zlen value | None => 0 end.

Lemma text_size_nonneg value : 0 <= text_size value.
Proof. destruct value; [apply zlen_nonneg|done]. Qed.

Lemma then_optional_room s name value count bytes : settable name = true ->
  (forall v, value = Some v -> chttp_server_response_value v = true) -> 0 <= count -> 0 <= bytes ->
  roomy s (count + 1) (bytes + (zlen name + text_size value + 4)) ->
  exists s', then_optional_header (s, SALTS_OK) name value = (s', SALTS_OK) /\ roomy s' count bytes.
Proof.
  intros Hn Hv Hc Hy Hr. pose proof (zlen_nonneg name). destruct value as [v|]; cbn [then_optional_header].
  - by apply then_header_room; auto.
  - exists s. split; [done|]. cbn in Hr. apply (roomy_weaken _ _ _ _ _ Hr); lia.
Qed.

Lemma vary_room s fields count bytes : chttp_server_response_value fields = true -> 0 <= count -> 0 <= bytes ->
  roomy s (count + 1) (bytes + (vary_size (cs_response s) + zlen fields + 8)) ->
  exists s', header_call s (fun b => chttp_server_response_append_vary b fields) = (s', SALTS_OK) /\ roomy s' count bytes /\
    vary_size (cs_response s') <= vary_size (cs_response s) + zlen fields + 2.
Proof.
  intros Hv Hc Hy [Hb Hr]. pose proof (append_vary_room _ fields count bytes Hb Hv Hc Hy Hr) as H. unfold header_call.
  destruct (chttp_server_response_append_vary _ _) as [b' status]. destruct H as (-> & Hb' & Hr' & Hs). by eexists.
Qed.

Definition fails (a : activation (call_state App)) : Prop :=
  match a with Returns _ status => status <> SALTS_OK | _ => False end.

Lemma reply_room s code : roomy s 0 0 -> 200 <= code <= 599 -> ~ fails (reply_empty s code).
Proof.
  intros [_ (Hd & Hr & Hl & _)] Hc. unfold reply_empty, chttp_server_reply_to, chttp_server_reply, status_code_invalid. rewrite Hd, Hr. cbn.
  rewrite (proj2 (Z.ltb_ge code 200)), (proj2 (Z.ltb_ge 599 code)), (proj2 (Z.ltb_ge (rb_body_limit _) 0)) by lia. cbn. rewrite andb_false_r. cbn. by intros H.
Qed.

(** The texts of a policy. *)
Definition policy_bytes (policy : chttp_server_cors_options) : Z :=
  foldr (fun origin n => zlen origin + n) 0 (co_origins policy) + text_size (co_methods policy) +
  text_size (co_allowed_headers policy) + text_size (co_exposed_headers policy).

Lemma origin_bytes (allowed : list Z) origins : allowed ∈ origins -> zlen allowed <= foldr (fun origin n => zlen origin + n) 0 origins.
Proof.
  assert (forall l : list (list Z), 0 <= foldr (fun origin n => zlen origin + n) 0 l) as Hnn.
  { intros l. induction l as [|o l IH]; cbn; [done|]. pose proof (zlen_nonneg o). lia. }
  induction origins as [|o origins IH]; [by intros ?%elem_of_nil|]. cbn. specialize (Hnn origins). pose proof (zlen_nonneg o).
  intros [->|Hin]%elem_of_cons; [lia|]. specialize (IH Hin). lia.
Qed.

Lemma allowed_value policy allowed : cors_policy_valid policy = true -> allowed ∈ co_origins policy -> chttp_server_response_value allowed = true.
Proof.
  unfold cors_policy_valid. intros [_ Hp]%andb_true_iff Hin. apply negb_true_iff in Hp.
  assert (cors_origin_valid allowed = true) as Hv.
  { destruct (cors_origin_valid allowed) eqn:E; [done|]. exfalso. rewrite <- not_true_iff_false in Hp. apply Hp, existsb_exists.
    exists allowed. split; [by apply list_elem_of_In|]. unfold origin_refused. by rewrite E. }
  apply andb_true_iff in Hv as [_ Hv]. eapply forallb_weaken, Hv. intros c Hc. unfold value_char. apply negb_true_iff in Hc. apply orb_false_iff in Hc as [[Hc1 Hc2]%orb_false_iff _].
  apply Z.leb_gt in Hc1, Hc2. unfold SPACE in Hc1. apply negb_true_iff, orb_false_iff. split; [apply andb_false_iff; left|]; lia.
Qed.

Lemma policy_values policy : cors_policy_valid policy = true ->
  chttp_server_response_value (default [] (co_methods policy)) = true /\
  (forall v, co_allowed_headers policy = Some v -> chttp_server_response_value v = true) /\
  (forall v, co_exposed_headers policy = Some v -> chttp_server_response_value v = true).
Proof.
  intros Hp. destruct (policy_valid_lists policy Hp) as [(methods & -> & Hm) Ha]. split_and!; [by apply list_value_ok|intros v E; by apply list_value_ok, Ha|].
  intros v E. apply list_value_ok, policy_list_valid. unfold cors_policy_valid in Hp. bool_prop. congruence.
Qed.

Lemma cors_allow_room policy s allowed preflight : cors_policy_valid policy = true -> allowed ∈ co_origins policy ->
  0 <= co_max_age_seconds policy <= UINT32_MAX -> roomy s 5 (policy_bytes policy + 204) -> ~ fails (cors_allow policy s allowed preflight).
Proof.
  intros Hp Hin Hage Hr. pose proof (origin_bytes allowed (co_origins policy) Hin) as Ho. pose proof (allowed_value policy allowed Hp Hin) as Hav.
  destruct (policy_values policy Hp) as (Hmv & Hhv & Hev). unfold policy_bytes in Hr.
  set (origins := foldr _ 0 (co_origins policy)) in *. clearbody origins. pose proof (zlen_nonneg allowed).
  pose proof (text_size_nonneg (co_methods policy)). pose proof (text_size_nonneg (co_allowed_headers policy)). pose proof (text_size_nonneg (co_exposed_headers policy)).
  set (texts := text_size (co_methods policy) + text_size (co_allowed_headers policy) + text_size (co_exposed_headers policy)) in *.
  assert (roomy s 5 (texts + 173 + cost (bytes_of "Access-Control-Allow-Origin") allowed)) as Hr1.
  { apply (roomy_weaken _ _ _ _ _ Hr); unfold cost; change (zlen (bytes_of "Access-Control-Allow-Origin")) with 27; lia. }
  unfold cors_allow.
  destruct (then_header_room s (bytes_of "Access-Control-Allow-Origin") allowed 4 (texts + 173) ltac:(vm_compute; reflexivity) Hav ltac:(lia) ltac:(lia) Hr1) as (s1 & -> & Hs1).
  cbv zeta. set (r2 := if co_allow_credentials policy then _ else _).
  assert (exists s2, r2 = (s2, SALTS_OK) /\ roomy s2 3 (texts + 133)) as (s2 & -> & Hs2).
  { subst r2. destruct (co_allow_credentials policy); [|exists s1; split; [done|]; apply (roomy_weaken _ _ _ _ _ Hs1); lia].
    apply then_header_room; try done; try lia. change (cost _ _) with 40. apply (roomy_weaken _ _ _ _ _ Hs1); lia. }
  rewrite bool_decide_true by done. cbn [negb]. destruct preflight; cbn [negb].
  - assert (zlen (default [] (co_methods policy)) = text_size (co_methods policy)) as Hms by (by destruct (co_methods policy)).
    destruct (then_header_room s2 (bytes_of "Access-Control-Allow-Methods") (default [] (co_methods policy)) 2 (text_size (co_allowed_headers policy) + 68)) as (s3 & -> & Hs3);
      [done|exact Hmv|lia|lia|unfold cost; rewrite Hms; change (zlen (bytes_of "Access-Control-Allow-Methods")) with 28; apply (roomy_weaken _ _ _ _ _ Hs2); lia|].
    destruct (then_optional_room s3 (bytes_of "Access-Control-Allow-Headers") (co_allowed_headers policy) 1 36) as (s4 & -> & Hs4);
      [done|exact Hhv|lia|lia|change (zlen (bytes_of "Access-Control-Allow-Headers")) with 28; apply (roomy_weaken _ _ _ _ _ Hs3); lia|].
    cbn [fst snd]. rewrite (bool_decide_true (SALTS_OK = SALTS_OK)) by done. cbn [negb].
    destruct (decimal_number (co_max_age_seconds policy) Hage) as (digits & -> & _ & Hd & Hlen & _).
    unfold CHTTP_CORS_MAX_AGE_BYTES. rewrite (proj2 (Z.leb_gt _ _)) by lia.
    destruct (then_header_room s4 (bytes_of "Access-Control-Max-Age") digits 0 0) as (s5 & -> & Hs5);
      [done| |lia|lia|unfold cost; change (zlen (bytes_of "Access-Control-Max-Age")) with 22; apply (roomy_weaken _ _ _ _ _ Hs4); lia|].
    { apply forallb_forall. intros c Hc%list_elem_of_In. rewrite Forall_forall in Hd. specialize (Hd c Hc). unfold is_digit, value_char in *.
      apply negb_true_iff, orb_false_iff. split; [apply andb_false_iff; left|]; lia. }
    rewrite bool_decide_true by done. apply reply_room; [done|lia].
  - destruct (then_optional_room s2 (bytes_of "Access-Control-Expose-Headers") (co_exposed_headers policy) 0 0) as (s3 & -> & Hs3);
      [done|exact Hev|lia|lia|change (zlen (bytes_of "Access-Control-Expose-Headers")) with 29; apply (roomy_weaken _ _ _ _ _ Hs2); lia|].
    rewrite bool_decide_true by done. by intros H'.
Qed.

(** The room for whatever the middleware adds to a response: six headers, with
    the texts of the policy, and [Vary] copied twice. *)
Definition cors_room (policy : chttp_server_cors_options) (s : call_state App) : Prop :=
  roomy s 7 (2 * vary_size (cs_response s) + policy_bytes policy + 304).

Lemma find_origin_member policy origin allowed : find_origin policy origin = Some allowed -> allowed ∈ co_origins policy.
Proof. intros [Hin _]%List.find_some. by apply list_elem_of_In. Qed.

Lemma cors_middleware_room policy request s : cors_policy_valid policy = true -> 0 <= co_max_age_seconds policy <= UINT32_MAX ->
  cors_room policy s -> ~ fails (cors_middleware policy request s).
Proof.
  intros Hp Hage Hr. assert (0 <= vary_size (cs_response s)) as Hv0.
  { unfold vary_size. destruct (find_header _ _) as [[? h]|]; [apply zlen_nonneg|done]. }
  assert (0 <= policy_bytes policy) as Hp0.
  { unfold policy_bytes. pose proof (text_size_nonneg (co_methods policy)). pose proof (text_size_nonneg (co_allowed_headers policy)).
    pose proof (text_size_nonneg (co_exposed_headers policy)). assert (0 <= foldr (fun origin n => zlen origin + n) 0 (co_origins policy)); [|lia].
    induction (co_origins policy) as [|o l IH]; cbn; [done|]. pose proof (zlen_nonneg o). lia. }
  unfold cors_middleware. destruct (cors_single_header (sq_headers request) cors_origin) as [origin origin_status].
  set (v := vary_size (cs_response s)) in *.
  destruct (vary_room s cors_origin 6 (v + policy_bytes policy + 290)) as (s1 & -> & Hs1 & Hv1);
    [done|lia|lia|change (zlen cors_origin) with 6; apply (roomy_weaken _ _ _ _ _ Hr); lia|]. change (zlen cors_origin) with 6 in Hv1. fold v in Hv1.
  rewrite bool_decide_true by done. cbn [negb].
  assert (forall code, 200 <= code <= 599 -> ~ fails (reply_empty s1 code)) as Hrep1.
  { intros code Hc. apply reply_room; [|done]. apply (roomy_weaken _ _ _ _ _ Hs1); lia. }
  split_if; [apply Hrep1; lia|]. destruct (cors_trim <$> origin) as [o|]; [|by intros []].
  destruct (if sq_method request =? CHTTP_METHOD_OPTIONS then _ else _) as [method method_status]. cbv zeta.
  set (r2 := if negb (is_none method) || _ then _ else (s1, SALTS_OK)).
  assert (exists s2, r2 = (s2, SALTS_OK) /\ roomy s2 5 (policy_bytes policy + 204)) as (s2 & -> & Hs2).
  { subst r2. split_if; [|exists s1; split; [done|]; apply (roomy_weaken _ _ _ _ _ Hs1); lia].
    set (names := bytes_of "Access-Control-Request-Method, Access-Control-Request-Headers").
    destruct (vary_room s1 names 5 (policy_bytes policy + 204)) as (s2 & E & Hs2 & _); [vm_compute; reflexivity|lia|lia| |by exists s2].
    change (zlen names) with 61. apply (roomy_weaken _ _ _ _ _ Hs1); lia. }
  rewrite bool_decide_true by done. cbn [negb].
  assert (forall code, 200 <= code <= 599 -> ~ fails (reply_empty s2 code)) as Hrep2.
  { intros code Hc. apply reply_room; [|done]. apply (roomy_weaken _ _ _ _ _ Hs2); lia. }
  split_if; [apply Hrep2; lia|]. destruct (find_origin policy o) as [allowed|] eqn:Ef; [|apply Hrep2; lia].
  split_if; [|by apply cors_allow_room; [|eapply find_origin_member| |]].
  apply Hrep2. split_if; [|lia]. destruct (preflight_spec policy (sq_headers request) (default [] method) Hp) as [[-> _]|[[->| ->] _]]; lia.
Qed.

End Correct.

(** The only header of that name. *)
Definition only_value (request : server_request) (name value : list Z) : Prop :=
  header_values (sq_headers request) name = [value].

Lemma find_origin_spec policy origin allowed : cors_policy_valid policy = true -> find_origin policy origin = Some allowed ->
  allowed ∈ co_origins policy /\ (allowed = origin \/ allowed = bytes_of "*" /\ co_allow_credentials policy = false).
Proof.
  intros Hp Hf. unfold find_origin in Hf. apply List.find_some in Hf as [Hin Hx]. split; [by apply list_elem_of_In|].
  apply orb_true_iff in Hx as [Hx|Hx]; apply bytes_eqb_eq in Hx; [right|by left]. split; [done|].
  destruct (co_allow_credentials policy) eqn:Ec; [|done]. exfalso. unfold cors_policy_valid in Hp. apply andb_true_iff in Hp as [_ Hp].
  apply negb_true_iff in Hp. rewrite <- not_true_iff_false in Hp. apply Hp, existsb_exists. exists allowed. split; [done|].
  unfold origin_refused. rewrite Ec, Hx, orb_true_r. vm_compute. reflexivity.
Qed.

Lemma find_origin_none policy origin : find_origin policy origin = None ->
  ~ (origin ∈ co_origins policy) /\ ~ (bytes_of "*" ∈ co_origins policy).
Proof.
  intros Hf. split; intros Hin%list_elem_of_In; pose proof (List.find_none _ _ Hf _ Hin) as H; apply orb_false_iff in H as [H1 H2];
    [by rewrite (proj2 (bytes_eqb_eq _ _) eq_refl) in H2|by rewrite (proj2 (bytes_eqb_eq _ _) eq_refl) in H1].
Qed.

(** The request asks whether it may send another. *)
Definition asks_first (request : server_request) : Prop :=
  sq_method request = CHTTP_METHOD_OPTIONS /\ header_values (sq_headers request) cors_method <> [].

#[export] Instance asks_first_decision request : Decision (asks_first request).
Proof. unfold asks_first. apply _. Defined.

(** The policy permits the request, as [allowed]. *)
Definition permitted (policy : chttp_server_cors_options) (request : server_request) (allowed : list Z) : Prop :=
  (exists origin, only_value request cors_origin origin /\ cors_origin_valid (cors_trim origin) = true /\
     allowed ∈ co_origins policy /\
     (allowed = cors_trim origin \/ allowed = bytes_of "*" /\ co_allow_credentials policy = false)) /\
  (asks_first request -> exists method, only_value request cors_method method /\
     preflight_granted policy (sq_headers request) method).

(** The request is malformed: a header that must stand alone is repeated, or the
    origin is no origin. *)
Definition malformed (request : server_request) : Prop :=
  (forall origin, only_value request cors_origin origin -> cors_origin_valid (cors_trim origin) = false) \/
  asks_first request /\ forall method, ~ only_value request cors_method method.

(** The origin is not in the policy. *)
Definition unknown_origin (policy : chttp_server_cors_options) (request : server_request) : Prop :=
  forall origin, only_value request cors_origin origin ->
    ~ (cors_trim origin ∈ co_origins policy) /\ ~ (bytes_of "*" ∈ co_origins policy).

(** The decision is the right one. *)
Definition judged (policy : chttp_server_cors_options) (request : server_request) (decision : cors_decision) : Prop :=
  match decision with
  | CorsPass => header_values (sq_headers request) cors_origin = []
  | CorsAllow allowed preflight => permitted policy request allowed /\ preflight = bool_decide (asks_first request)
  | CorsReject code =>
    header_values (sq_headers request) cors_origin <> [] /\ (forall allowed, ~ permitted policy request allowed) /\
    (code = 400 \/ code = 403) /\ (malformed request -> code = 400) /\
    (~ malformed request -> unknown_origin policy request -> code = 403)
  end.

Lemma asks_first_methods request :
  (if sq_method request =? CHTTP_METHOD_OPTIONS then header_values (sq_headers request) cors_method else []) =
  (if decide (asks_first request) then header_values (sq_headers request) cors_method else []).
Proof.
  unfold asks_first. destruct (decide _) as [[-> _]|Hn]; [done|]. destruct (Z.eqb_spec (sq_method request) CHTTP_METHOD_OPTIONS); [|done].
  destruct (header_values _ cors_method); [done|]. exfalso. by apply Hn.
Qed.

Lemma decide_judged policy request : cors_policy_valid policy = true -> judged policy request (cors_decide policy request).
Proof.
  intros Hp. unfold cors_decide. rewrite asks_first_methods. unfold judged, permitted, malformed, unknown_origin, only_value.
  destruct (header_values (sq_headers request) cors_origin) as [|origin [|o2 origins]]; [done| |].
  2:{ split_and!; [done| |by left|done|].
      - intros allowed [(o & ? & _) _]. done.
      - intros []. left. by intros o ?. }
  cbv zeta. destruct (cors_origin_valid (cors_trim origin)) eqn:Hv; cbn [negb].
  2:{ split_and!; [done| |by left|done|].
      - intros allowed [(o & [= <-] & Hv' & _) _]. congruence.
      - intros []. left. by intros o [= <-]. }
  destruct (decide (asks_first request)) as [Ha|Ha].
  - assert (header_values (sq_headers request) cors_method <> []) as Hne by apply Ha.
    destruct (header_values (sq_headers request) cors_method) as [|method [|m2 methods]]; [done| |].
    + assert (~ ((forall o, [origin] = [o] -> cors_origin_valid (cors_trim o) = false) \/ asks_first request /\ (forall m, ~ [method] = [m]))) as Hwell
        by (intros [Hm|[_ Hm]]; [by rewrite (Hm origin eq_refl) in Hv|by destruct (Hm method)]).
      destruct (find_origin policy (cors_trim origin)) as [allowed|] eqn:Ef.
      * destruct (find_origin_spec policy _ _ Hp Ef) as [Hin Hor].
        destruct (preflight_spec policy (sq_headers request) method Hp) as [[Es Hg]|[Hcode Hg]].
        -- rewrite Es. cbn. rewrite bool_decide_true by done. split; [|done]. split; [by exists origin|by exists method].
        -- rewrite (proj2 (Z.eqb_neq _ _)) by lia. split_and!; [done| |done|done|].
           ++ intros a [_ Hq]. destruct (Hq Ha) as (m & [= <-] & ?). done.
           ++ intros _ Hu. destruct (Hu origin eq_refl) as [Hu1 Hu2]. exfalso. destruct Hor as [E|[E _]]; rewrite E in Hin; done.
      * destruct (find_origin_none _ _ Ef) as [Hn1 Hn2]. split_and!; [done| |by right|done|done].
        intros a [(o & [= <-] & _ & Hin & [E|[E _]]) _]; rewrite E in Hin; done.
    + split_and!; [done| |by left|done|].
      * intros a [_ Hq]. by destruct (Hq Ha) as (m & ? & _).
      * intros []. right. split; [done|]. by intros m ?.
  - destruct (find_origin policy (cors_trim origin)) as [allowed|] eqn:Ef.
    + destruct (find_origin_spec policy _ _ Hp Ef) as [Hin Hor].
      rewrite bool_decide_false by done. split; [|done]. split; [by exists origin|done].
    + destruct (find_origin_none _ _ Ef) as [Hn1 Hn2]. split_and!; [done| |by right| |done].
      * intros a [(o & [= <-] & _ & Hin & [E|[E _]]) _]; rewrite E in Hin; done.
      * intros [Hm|[Hx _]]; [by rewrite (Hm origin eq_refl) in Hv|done].
Qed.

(** C30: With a policy that registration accepts, the cross-origin middleware
    carries out one decision: it lets a request without an Origin header pass to
    the rest of the chain; it allows the origin, on the answer to a preflight
    request or on what the rest of the chain makes, exactly when there is one
    Origin header, its value, trimmed, is an origin and in the policy, or the
    policy allows all origins and no credentials, and, for a preflight request,
    the method and every header that it names are in the lists of the policy;
    every other request is answered without the rest of the chain and without
    allowing the origin, with 400 when a field that must stand alone is repeated
    or the origin is none, with 403 when it is an origin that is not in the
    policy, and with one of the two when a preflight request is not granted. With
    room for its headers in the response it does not fail. *)
Theorem cors_policy_enforced {alloc : Allocator} {App : Type} policy request (s : call_state App) :
  cors_policy_valid policy = true -> builder_wf (cs_response s) ->
  exists decision, judged policy request decision /\
    carries_out policy decision s (cors_middleware policy request s) /\
    (0 <= co_max_age_seconds policy <= UINT32_MAX -> cors_room policy s -> ~ fails (cors_middleware policy request s)).
Proof.
  intros Hp Hb. exists (cors_decide policy request). split; [by apply decide_judged|]. split; [by apply cors_carried_out|].
  by apply cors_middleware_room.
Qed.

(** ** Instances *)

#[local] Existing Instance unlimited_allocator.

Definition site_policy : chttp_server_cors_options :=
  {| co_origins := [bytes_of "https://a.example"; bytes_of "https://b.example"];
     co_methods := Some (bytes_of "GET, PUT"); co_allowed_headers := Some (bytes_of "X-Token,,Content-Type");
     co_exposed_headers := None; co_max_age_seconds := 600; co_allow_credentials := true |}.

Definition preflight_request : server_request :=
  {| sq_http_major := 1; sq_http_minor := 1; sq_method := CHTTP_METHOD_OPTIONS; sq_path := bytes_of "/";
     sq_headers := [(bytes_of "origin", bytes_of " https://b.example"); (bytes_of "Access-Control-Request-Method", bytes_of "PUT");
                    (bytes_of "Access-Control-Request-Headers", bytes_of "content-type , x-token")];
     sq_params := []; sq_body := []; sq_session := false; sq_jwt_claims := None; sq_body_sink_user := None |}.

Definition wide_limits : response_config :=
  {| max_response_header_count := 16; max_response_header_bytes := 1024; max_response_body_bytes := 4096;
     max_buffered_response_body_bytes := 1024 |}.

Definition wide_builder : chttp_server_response_builder :=
  Eval vm_compute in match chttp_server_response_builder_init wide_limits with Ok b => b | Err _ => builder_zero end.

Lemma wide_builder_wf : builder_wf wide_builder.
Proof.
  apply (builder_init_wf wide_limits wide_builder); [|vm_compute; reflexivity]. unfold config_ok. vm_compute. intuition discriminate.
Qed.

Definition preflight_state : call_state unit :=
  {| cs_world := response_world; cs_response := wide_builder; cs_sessions := []; cs_session := context_zero []; cs_app := tt |}.

Lemma cors_policy_enforced_witness :
  exists decision, judged site_policy preflight_request decision /\
    carries_out site_policy decision preflight_state (cors_middleware site_policy preflight_request preflight_state) /\
    ~ fails (cors_middleware site_policy preflight_request preflight_state).
Proof.
  destruct (cors_policy_enforced site_policy preflight_request preflight_state) as (decision & Hj & Hc & Hf);
    [vm_compute; reflexivity|exact wide_builder_wf|]. exists decision. split; [exact Hj|]. split; [exact Hc|].
  apply Hf; [vm_compute; split; discriminate|]. split; [exact wide_builder_wf|]. vm_compute. intuition discriminate.
Defined.

(** What is decided there, and for the same request with a repeated origin or a
    method that is not in the policy. *)
Example cors_decisions :
  let asking headers := cors_decide site_policy {| sq_http_major := 1; sq_http_minor := 1; sq_method := CHTTP_METHOD_OPTIONS;
    sq_path := bytes_of "/"; sq_headers := headers; sq_params := []; sq_body := []; sq_session := false; sq_jwt_claims := None;
    sq_body_sink_user := None |} in
  let origin := (bytes_of "Origin", bytes_of "https://a.example") in
  let method (name : list Z) := (bytes_of "Access-Control-Request-Method", name) in
  cors_decide site_policy preflight_request = CorsAllow (bytes_of "https://b.example") true /\
  asking [origin; origin; method (bytes_of "GET")] = CorsReject 400 /\ asking [origin; method (bytes_of "POST")] = CorsReject 403.
Proof. vm_compute. done. Qed.

End CorsTheorems.
