(* ===== verification/Interceptor.v ===== *)
(** * Interceptors

    Model of [http_server/src/chttp_server_interceptor.c] up to the chain of one
    request: the registration of middleware, the [Allow] header, and what stands
    at the end of a chain.  The functions of the application are known by
    numbers; their meaning is the class [Callbacks]. *)

From S2P Require Import Prelude HpackBuffer Router Http1Parser ServerBuffer RateLimit Session Response Jwt Middleware Cors.

Module Interceptor.
Import HpackBuffer Router Http1Parser ServerBuffer Session Response Jwt Middleware Cors.

Record chttp_body_sink := {
  bk_write : option Z;
  bk_user : Z;
}.

(** The functions of the application, by their number and, where the server
    passes one, their user pointer. *)
Class Callbacks (App : Type) := {
  middleware_fn : Z -> server_request -> call_state App -> activation (call_state App);
  handler_fn : Z -> Z -> server_request -> call_state App -> call_state App * salts_status;
  admission_fn : Z -> server_request -> App ->
    App * RateLimit.chttp_server_admission_result * salts_status;
  body_open_fn : Z -> Z -> server_request -> App -> App * outcome chttp_body_sink;
  body_write_fn : Z -> Z -> list Z -> App -> App * salts_status;
  body_close_fn : Z -> Z -> chttp_body_sink -> salts_status -> App -> App;
}.

(** ** Registration *)

Inductive middleware_binding :=
  | UserMiddleware (fn : Z)
  | CorsMiddleware (policy : chttp_server_cors_options).

Record interceptors := {
  ic_middleware : list middleware_binding;
  ic_capacity : Z;
  ic_start_called : bool;
}.

Definition chttp_server_use (server : interceptors) (binding : middleware_binding) :
    interceptors * salts_status :=
  if ic_start_called server then (server, SALTS_EBUSY)
  else if ic_capacity server <=? zlen (ic_middleware server) then (server, SALTS_ENOBUFS)
  else
    ({| ic_middleware := ic_middleware server ++ [binding]; ic_capacity := ic_capacity server;
        ic_start_called := ic_start_called server |}, SALTS_OK).

Definition chttp_server_use_cors (server : interceptors) (options : chttp_server_cors_options) :
    interceptors * salts_status :=
  if negb (cors_policy_valid options) then (server, SALTS_EINVAL)
  else chttp_server_use server (CorsMiddleware options).

(** ** The [Allow] header *)

Definition ALLOW_BYTES : Z := 64.

Definition method_names : list (Z * list Z) :=
  [(CHTTP_METHOD_GET, bytes_of "GET"); (CHTTP_METHOD_HEAD, bytes_of "HEAD");
   (CHTTP_METHOD_POST, bytes_of "POST"); (CHTTP_METHOD_PUT, bytes_of "PUT");
   (CHTTP_METHOD_DELETE, bytes_of "DELETE"); (CHTTP_METHOD_PATCH, bytes_of "PATCH");
   (CHTTP_METHOD_OPTIONS, bytes_of "OPTIONS")].

(** The text, or nothing when it does not fit the array. *)
Fixpoint allow_text (methods : Z) (entries : list (Z * list Z)) (value : list Z) : option (list Z) :=
  match entries with
  | [] => Some value
  | (method, name) :: entries =>
    if Z.land methods (method_bit method) =? 0 then allow_text methods entries value
    else
      let used := zlen value in
      if negb (used =? 0) && (ALLOW_BYTES <=? used + 2) then None
      else
        let value := if negb (used =? 0) then value ++ bytes_of ", " else value in
        if ALLOW_BYTES - zlen value <=? zlen name then None
        else allow_text methods entries (value ++ name)
  end.

Definition chttp_server_allow_header (b : chttp_server_response_builder) (methods : Z) :
    chttp_server_response_builder * salts_status :=
  match allow_text methods method_names [] with
  | None => (b, SALTS_EMSGSIZE)
  | Some value => chttp_server_response_set_header b (bytes_of "Allow") value
  end.

(** ** The chain of a request *)

Section Dispatch.
Context {alloc : Allocator} {App : Type} {callbacks : Callbacks App}.

Definition run_binding (request : server_request) (binding : middleware_binding) (s : call_state App) :
    activation (call_state App) :=
  match binding with
  | UserMiddleware fn => middleware_fn fn request s
  | CorsMiddleware policy => cors_middleware policy request s
  end.

(** [terminal] replaces the handler of the route. *)
Record chttp_server_chain := {
  ch_middleware : list middleware_binding;
  ch_route : option chttp_server_route_record;
  ch_fallback_status : Z;
  ch_allowed_methods : Z;
  ch_terminal : option (server_request -> call_state App -> call_state App * salts_status);
}.

Definition chttp_server_websocket_upgrade_required (s : call_state App) : call_state App * salts_status :=
  let '(s, status) := header_call s (fun b =>
    chttp_server_response_set_header b (bytes_of "Sec-WebSocket-Version") (bytes_of "13")) in
  if negb (bool_decide (status = SALTS_OK)) then (s, status)
  else chttp_server_reply_to s 426 (Some (bytes_of "text/plain")) (bytes_of "Upgrade Required").

Definition run_handler (route : chttp_server_route_record) (request : server_request) (s : call_state App) :
    call_state App * salts_status :=
  match rr_handler route with
  | UserHandler fn => handler_fn fn (rr_user route) request s
  | WebsocketUpgradeRequired => chttp_server_websocket_upgrade_required s
  end.

(** After the last middleware. *)
Definition chain_end (chain : chttp_server_chain) (request : server_request) (s : call_state App) :
    call_state App * salts_status :=
  match ch_route chain with
  | Some route =>
    match ch_terminal chain with
    | Some terminal => terminal request s
    | None => run_handler route request s
    end
  | None =>
    let '(s, status) :=
      if ch_fallback_status chain =? 405
      then header_call s (fun b => chttp_server_allow_header b (ch_allowed_methods chain))
      else (s, SALTS_OK) in
    if negb (bool_decide (status = SALTS_OK)) then (s, status)
    else
      chttp_server_reply_to s (ch_fallback_status chain) (Some (bytes_of "text/plain"))
        (if ch_fallback_status chain =? 404 then bytes_of "Not Found" else bytes_of "Method Not Allowed")
  end.

(** The bindings of a route, whose registration refuses [NULL]. *)
Definition route_middleware (route : chttp_server_route_record) : list middleware_binding :=
  omap (fun fn => UserMiddleware <$> fn) (rr_middleware route).

(** The binding at an index below the total: of the server, then of the route. *)
Definition chain_binding (chain : chttp_server_chain) (index : nat) : option middleware_binding :=
  let global_count := length (ch_middleware chain) in
  if (index <? global_count)%nat then ch_middleware chain !! index
  else match ch_route chain with Some route => route_middleware route !! (index - global_count)%nat | None => None end.

Definition chain_total (chain : chttp_server_chain) : nat :=
  length (ch_middleware chain) + match ch_route chain with Some route => length (route_middleware route) | None => 0 end.

(** A chain from its start, for any meaning [run] of the bindings and [terminal]
    of its end; the fuel suffices, see [chain_run_with_spec]. *)
Definition chain_run_with {St : Type} (run : middleware_binding -> St -> activation St) (terminal : St -> St * salts_status)
    (chain : chttp_server_chain) (s : St) : St * salts_status :=
  match chttp_server_chain_dispatch (fun index => run <$> chain_binding chain index) terminal (S (chain_total chain)) [] 0 s with
  | Some (s, status, _) => (s, status)
  | None => (s, SALTS_EINVAL)
  end.

Definition chttp_server_chain_run (chain : chttp_server_chain) (request : server_request)
    (s : call_state App) : call_state App * salts_status :=
  chain_run_with (run_binding request) (chain_end chain request) chain s.

(** The bindings in the order in which they should run. *)
Definition chain_bindings (chain : chttp_server_chain) : list middleware_binding :=
  ch_middleware chain ++ match ch_route chain with Some route => route_middleware route | None => [] end.

Lemma chain_run_with_spec {St : Type} run terminal chain (s : St) :
  chain_run_with run terminal chain s = run_chain terminal 0 (map run (chain_bindings chain)) s.
Proof.
  unfold chain_run_with. rewrite (chain_dispatch_spec _ _ (map run (chain_bindings chain))).
  - cbn [length]. by destruct (run_chain _ _ _ _).
  - intros i. rewrite list_lookup_fmap. f_equal. unfold chain_binding, chain_bindings. cbv zeta.
    rewrite lookup_app. cbn [Nat.add]. destruct (Nat.ltb_spec i (length (ch_middleware chain))) as [Hlt|Hge].
    + destruct (lookup_lt_is_Some_2 (ch_middleware chain) i Hlt) as [b Hb]. by rewrite Hb.
    + rewrite (lookup_ge_None_2 (ch_middleware chain)) by done. by destruct (ch_route chain).
  - unfold chain_bindings, chain_total. rewrite length_map, length_app. destruct (ch_route chain); cbn; lia.
  - constructor.
Qed.

End Dispatch.

End Interceptor.
