(* ===== verification/InterceptorTheorems.v ===== *)
(** * Theorems about interceptors

    The order of a chain, against [run_chain], and the [Allow] header. *)

From S2P Require Import Prelude HpackBuffer Router Http1Parser ServerBuffer RateLimit Session.
From S2P Require Import Response ResponseTheorems Jwt Middleware Cors CorsTheorems Interceptor.

Module InterceptorTheorems.
Import HpackBuffer Router Http1Parser ServerBuffer Session Response ResponseTheorems Jwt Middleware Cors CorsTheorems Interceptor.

(** ** Order *)

Section Order.
Context {alloc : Allocator} {App : Type} {callbacks : Callbacks App}.

(** The chain with a log of what starts: a binding, or the end of the chain. *)
Definition chain_run_logged (chain : chttp_server_chain) (request : server_request) (s : call_state App) :
    (call_state App * list (option middleware_binding)) * salts_status :=
  chain_run_with (fun binding => logged (Some binding) (run_binding request binding)) (logged_last None (chain_end chain request))
    chain (s, []).

(** C36: Whatever the middleware of the application does, also when it calls a
    continuation again, or one that is running, a chain runs as it should: the
    first call of a continuation runs the rest of the chain, every other call is
    refused and changes nothing; so the middleware of the server, the middleware
    of the route, each in the order of registration, and the end of the chain
    start at most once each and in this order, without a gap. *)
Theorem interceptor_order chain request (s : call_state App) :
  let bindings := ch_middleware chain ++ from_option route_middleware [] (ch_route chain) in
  chttp_server_chain_run chain request s =
    run_chain (chain_end chain request) 0 (map (run_binding request) bindings) s /\
  exists n, (0 < n <= S (length bindings))%nat /\
    chain_run_logged chain request s =
      (((chttp_server_chain_run chain request s).1, take n (map Some bindings ++ [None])),
       (chttp_server_chain_run chain request s).2).
Proof.
  intros bindings. assert (chain_bindings chain = bindings) as Eb by (unfold chain_bindings, bindings; by destruct (ch_route chain)).
  assert (chttp_server_chain_run chain request s = run_chain (chain_end chain request) 0 (map (run_binding request) bindings) s) as Er
    by (unfold chttp_server_chain_run; by rewrite chain_run_with_spec, Eb).
  split; [exact Er|]. unfold chain_run_logged. rewrite chain_run_with_spec, Eb, Er.
  destruct (run_chain_logged None (chain_end chain request) (map (run_binding request) bindings) (map Some bindings) 0 s [])
    as (n & Hn & E); [by rewrite !length_map|]. exists n. rewrite length_map in Hn. split; [done|]. rewrite app_nil_l in E. rewrite <- E. f_equal.
  clear. induction bindings as [|b bindings IH]; [done|]. cbn. by rewrite IH.
Qed.

End Order.

(** ** The [Allow] header *)

Definition allows (methods : Z) (entry : Z * list Z) : bool := negb (Z.land methods (method_bit entry.1) =? 0).

(** Only the bits of methods matter. *)
Definition METHOD_MASK : Z := 0xfe.

Lemma mask_bit methods (entry : Z * list Z) : entry ∈ method_names ->
  Z.land (Z.land methods METHOD_MASK) (method_bit entry.1) = Z.land methods (method_bit entry.1).
Proof.
  intros He. rewrite <- Z.land_assoc. f_equal. revert He. unfold method_names.
  repeat (rewrite elem_of_cons; intros [->|He]; [reflexivity|revert He]). intros He. by apply elem_of_nil in He.
Qed.

Lemma allow_text_mask methods entries : (forall e, e ∈ entries -> e ∈ method_names) ->
  forall value, allow_text (Z.land methods METHOD_MASK) entries value = allow_text methods entries value.
Proof.
  induction entries as [|e entries IH]; intros Hin value; [done|]. cbn [allow_text]. destruct e as [m name].
  rewrite (mask_bit methods (m, name) (Hin _ (list_elem_of_here _ _)) : Z.land _ (method_bit m) = Z.land methods (method_bit m)).
  assert (forall e, e ∈ entries -> e ∈ method_names) as Hin' by (intros; by apply Hin, list_elem_of_further).
  split_if; [by apply IH|]. split_if; [done|]. split_if; [done|]. by apply IH.
Qed.

Definition allow_text_checked (methods : Z) : bool :=
  match allow_text methods method_names [] with
  | Some value => bool_decide (members value = map snd (List.filter (allows methods) method_names))
  | None => false
  end.

Lemma allow_text_members methods : exists value,
  allow_text methods method_names [] = Some value /\
  members value = map snd (List.filter (allows methods) method_names).
Proof.
  assert (forallb allow_text_checked (map Z.of_nat (seq 0 256)) = true) as Hall by (vm_compute; reflexivity).
  rewrite forallb_forall in Hall. specialize (Hall (Z.land methods METHOD_MASK)).
  assert (0 <= Z.land methods METHOD_MASK < 256) as Hr.
  { change METHOD_MASK with (Z.land METHOD_MASK (2 ^ 8 - 1)). rewrite Z.land_assoc, land_mask by lia. apply Z.mod_pos_bound. lia. }
  assert (allow_text_checked (Z.land methods METHOD_MASK) = true) as Hc.
  { apply Hall. apply in_map_iff. exists (Z.to_nat (Z.land methods METHOD_MASK)). split; [lia|]. apply in_seq. lia. }
  unfold allow_text_checked in Hc. rewrite allow_text_mask in Hc by done.
  destruct (allow_text methods method_names []) as [value|]; [|done]. apply bool_decide_eq_true in Hc. exists value. split; [done|].
  rewrite Hc. f_equal. apply List.filter_ext_in. intros e He. unfold allows. by rewrite mask_bit by (by apply list_elem_of_In).
Qed.

(** The Allow header of a refused method lists exactly the methods of the routes
    that match the path. *)
Theorem allow_header_correct b methods b' status : builder_wf b ->
  chttp_server_allow_header b methods = (b', status) ->
  builder_wf b' /\ (status <> SALTS_OK -> b' = b) /\
  (status = SALTS_OK -> exists value, header_value (rb_headers b') (bytes_of "Allow") = Some value /\
     members value = map snd (List.filter (allows methods) method_names)).
Proof.
  intros Hb. unfold chttp_server_allow_header. destruct (allow_text_members methods) as (value & -> & Hm). intros E.
  destruct (set_header_spec _ _ _ _ _ Hb E) as (Hwf & Hval & Hne & _). split_and!; try done.
  intros ->. exists value. split; [|done]. rewrite Hval. by rewrite !bool_decide_true.
Qed.

(** ** Instances *)

#[local] Existing Instance unlimited_allocator.

(** Middleware 1 calls the rest of the chain twice, middleware 2 answers itself,
    middleware 4 calls the continuation of the one around it and then its own,
    any other passes on. *)
#[local] Instance example_callbacks : Callbacks unit := {|
  middleware_fn fn request s :=
    if fn =? 1 then CallsNext s (fun s _ => CallsNext s (fun s status => Returns s status))
    else if fn =? 2 then (let '(s, status) := chttp_server_reply_to s 403 None [] in Returns s status)
    else if fn =? 4 then CallsOuter s 0 (fun s outer => CallsNext s (fun s _ => Returns s outer))
    else return_next s;
  handler_fn fn user request s := chttp_server_reply_to s 200 None [];
  admission_fn fn request app := (app, RateLimit.admission_zero, SALTS_OK);
  body_open_fn fn user request app := (app, Err SALTS_ENOTSUP);
  body_write_fn write user data app := (app, SALTS_OK);
  body_close_fn fn user sink status app := app;
|}.

Definition example_route : chttp_server_route_record :=
  {| rr_method := CHTTP_METHOD_GET; rr_path := bytes_of "/"; rr_middleware := [Some 3]; rr_param_count := 0;
     rr_handler := UserHandler 1; rr_user := 0; rr_body_open := None; rr_body_close := None;
     rr_jwt_bearer_validator := None; rr_websocket_open := None; rr_websocket_event := None;
     rr_websocket_max_frame_bytes := 0; rr_websocket_max_message_bytes := 0;
     rr_websocket_max_buffered_input_bytes := 0; rr_websocket_user := 0; rr_websocket := false; rr_dynamic := false |}.

Definition example_chain (middleware : list Z) : @chttp_server_chain unit :=
  {| ch_middleware := map UserMiddleware middleware; ch_route := Some example_route; ch_fallback_status := 404;
     ch_allowed_methods := 0; ch_terminal := None |}.

(** The whole chain, whose first middleware gets [SALTS_EALREADY] for its second
    call; a chain that is cut short; and one with a call from within. *)
Example interceptor_order_runs :
  let run middleware := chain_run_logged (example_chain middleware) preflight_request preflight_state in
  let started middleware := map (option_map (fun b => match b with UserMiddleware fn => fn | _ => 0 end)) (run middleware).1.2 in
  started [1; 5] = [Some 1; Some 5; Some 3; None] /\ (run [1; 5]).2 = SALTS_EALREADY /\
  started [1; 2; 5] = [Some 1; Some 2] /\
  started [5; 4] = [Some 5; Some 4; Some 3; None] /\ (run [5; 4]).2 = SALTS_EALREADY.
Proof. vm_compute. done. Qed.

Lemma allow_header_correct_witness : exists value,
  header_value (rb_headers (chttp_server_allow_header wide_builder 38).1) (bytes_of "Allow") = Some value /\
  members value = [bytes_of "GET"; bytes_of "HEAD"; bytes_of "DELETE"].
Proof.
  destruct (allow_header_correct wide_builder 38 (chttp_server_allow_header wide_builder 38).1 SALTS_OK wide_builder_wf) as (_ & _ & H).
  - vm_compute. reflexivity.
  - destruct (H eq_refl) as (value & Hv & Hm). exists value. split; [exact Hv|]. rewrite Hm. vm_compute. reflexivity.
Defined.

(** A path that is too long for the parameters is answered with the text of
    another error. *)
Lemma too_long_uri_text :
  let chain := {| ch_middleware := []; ch_route := None; ch_fallback_status := 414; ch_allowed_methods := 0; ch_terminal := None |} in
  let '(s, status) := chttp_server_chain_run chain preflight_request preflight_state in
  status = SALTS_OK /\ rb_status_code (cs_response s) = 414 /\ rb_body (cs_response s) = bytes_of "Method Not Allowed".
Proof. vm_compute. done. Qed.

End InterceptorTheorems.
