(* ===== verification/Request.v ===== *)
(** * The life of a request

    Model of the part of [http_server/src/chttp_server.c] that follows one
    request, and of [chttp_server_dispatch_request] in
    [http_server/src/chttp_server_interceptor.c]: deadlines, admission, the
    sink of a streamed body, and the dispatch to the handlers.  It composes the
    router, the bearer tokens, the sessions, the response builder and the chain
    of middleware.

    The clock is an argument of every function that reads it.  The calls that
    were made to the sink of a body are kept in the order in which they were
    made. *)

From S2P Require Import Prelude Decimal HpackBuffer Router Http1Parser ServerBuffer RateLimit.
From S2P Require Import Session Response Jwt Middleware Cors Interceptor.

Module Request.
Import Decimal HpackBuffer Router Http1Parser ServerBuffer RateLimit Session Response Jwt Middleware Cors Interceptor.

(** ** Data *)

Record chttp_server_stats := {
  st_requests : Z;
  st_responses : Z;
  st_protocol_errors : Z;
  st_handler_errors : Z;
}.

#[export] Instance eta_stats : Eta chttp_server_stats :=
  fun s => Build_chttp_server_stats (st_requests s) (st_responses s) (st_protocol_errors s) (st_handler_errors s).
#[export] Instance set_st_requests : Setter st_requests. Proof. mk_setter. Defined.
#[export] Instance set_st_handler_errors : Setter st_handler_errors. Proof. mk_setter. Defined.

Record chttp_server_deadlines := {
  dl_headers_ms : Z;
  dl_body_ms : Z;
  dl_handler_ms : Z;
}.

(** The configuration of a server that requests use. *)
Record server_setup := {
  su_routes : list chttp_server_route_record;
  su_route_config : route_config;
  su_middleware : list middleware_binding;
  su_sessions : session_config;
  su_deadlines : chttp_server_deadlines;
  su_validators : Z -> option chttp_jwt_bearer_validator_impl;
  su_jwt_bearer_validator : option Z;
  su_admission : option Z;
}.

(** A call to the sink of a body. *)
Inductive sink_call :=
  | SinkOpened (sink : chttp_body_sink)
  | SinkWrote (sink : chttp_body_sink) (data : list Z)
  | SinkClosed (sink : chttp_body_sink) (status : salts_status).

Section Requests.
Context {App : Type}.

Record chttp_server_request_state := {
  rs_call : call_state App;
  rs_params : Router.chttp_server_request_state;
  rs_jwt_claims : option chttp_jwt_claims_view;
  rs_admitted_route : option chttp_server_route_record;
  rs_admitted_allowed_methods : Z;
  rs_admitted_fallback_status : Z;
  rs_admission_complete : bool;
  rs_admission_rejected : bool;
  rs_admission_result : chttp_server_admission_result;
  rs_deadline_ms : Z;
  rs_body_route : option chttp_server_route_record;
  rs_body_sink : option chttp_body_sink;
  rs_body_sink_user : option Z;
  rs_body_sink_open : bool;
  rs_body_was_streamed : bool;
  rs_stats : chttp_server_stats;
  rs_sink_calls : list sink_call;
}.

#[export] Instance eta_request_state : Eta chttp_server_request_state :=
  fun s => Build_chttp_server_request_state (rs_call s) (rs_params s) (rs_jwt_claims s)
    (rs_admitted_route s) (rs_admitted_allowed_methods s) (rs_admitted_fallback_status s)
    (rs_admission_complete s) (rs_admission_rejected s) (rs_admission_result s) (rs_deadline_ms s)
    (rs_body_route s) (rs_body_sink s) (rs_body_sink_user s) (rs_body_sink_open s)
    (rs_body_was_streamed s) (rs_stats s) (rs_sink_calls s).
#[export] Instance set_rs_call : Setter rs_call. Proof. mk_setter. Defined.
#[export] Instance set_rs_params : Setter rs_params. Proof. mk_setter. Defined.
#[export] Instance set_rs_jwt_claims : Setter rs_jwt_claims. Proof. mk_setter. Defined.
#[export] Instance set_rs_admitted_route : Setter rs_admitted_route. Proof. mk_setter. Defined.
#[export] Instance set_rs_admitted_allowed_methods : Setter rs_admitted_allowed_methods. Proof. mk_setter. Defined.
#[export] Instance set_rs_admitted_fallback_status : Setter rs_admitted_fallback_status. Proof. mk_setter. Defined.
#[export] Instance set_rs_admission_complete : Setter rs_admission_complete. Proof. mk_setter. Defined.
#[export] Instance set_rs_admission_rejected : Setter rs_admission_rejected. Proof. mk_setter. Defined.
#[export] Instance set_rs_admission_result : Setter rs_admission_result. Proof. mk_setter. Defined.
#[export] Instance set_rs_deadline_ms : Setter rs_deadline_ms. Proof. mk_setter. Defined.
#[export] Instance set_rs_body_route : Setter rs_body_route. Proof. mk_setter. Defined.
#[export] Instance set_rs_body_sink : Setter rs_body_sink. Proof. mk_setter. Defined.
#[export] Instance set_rs_body_sink_user : Setter rs_body_sink_user. Proof. mk_setter. Defined.
#[export] Instance set_rs_body_sink_open : Setter rs_body_sink_open. Proof. mk_setter. Defined.
#[export] Instance set_rs_body_was_streamed : Setter rs_body_was_streamed. Proof. mk_setter. Defined.
#[export] Instance set_rs_stats : Setter rs_stats. Proof. mk_setter. Defined.
#[export] Instance set_rs_sink_calls : Setter rs_sink_calls. Proof. mk_setter. Defined.

(** ** Deadlines and statistics *)

Definition chttp_server_deadline_start (state : chttp_server_request_state) (budget_ms now : Z) :
    chttp_server_request_state :=
  if budget_ms =? 0 then state <| rs_deadline_ms := 0 |>
  else state <| rs_deadline_ms := if UINT64_MAX - budget_ms <? now then UINT64_MAX else now + budget_ms |>.

Definition chttp_server_deadline_expired (state : chttp_server_request_state) (now : Z) : bool :=
  negb (rs_deadline_ms state =? 0) && (rs_deadline_ms state <=? now).

Definition chttp_server_on_message_begin (setup : server_setup) (state : chttp_server_request_state) (now : Z) :
    chttp_server_request_state :=
  if rs_deadline_ms state =? 0
  then chttp_server_deadline_start state (dl_headers_ms (su_deadlines setup)) now else state.

(** The counters are [uint64_t]. *)
Definition chttp_server_stats_request (state : chttp_server_request_state) : chttp_server_request_state :=
  state <| rs_stats := (rs_stats state) <| st_requests := u64 (st_requests (rs_stats state) + 1) |> |>.

Definition chttp_server_stats_handler_error (state : chttp_server_request_state) : chttp_server_request_state :=
  state <| rs_stats := (rs_stats state) <| st_handler_errors := u64 (st_handler_errors (rs_stats state) + 1) |> |>.

(** ** Admission *)

Section Server.
Context {alloc : Allocator} {cjwt : Cjwt} {callbacks : Callbacks App} (setup : server_setup).

Definition chttp_server_request_admission_clear (state : chttp_server_request_state) :
    chttp_server_request_state :=
  state <| rs_jwt_claims := chttp_jwt_request_state_reset (rs_jwt_claims state) |>
    <| rs_admitted_route := None |> <| rs_admitted_allowed_methods := 0 |>
    <| rs_admitted_fallback_status := 0 |> <| rs_admission_complete := false |>
    <| rs_admission_rejected := false |> <| rs_admission_result := admission_zero |>
    <| rs_params := params_reset (rs_params state) |>.

Definition admission_invalid (status : salts_status) (result : chttp_server_admission_result) : bool :=
  let code := ar_status_code result in
  negb (bool_decide (status = SALTS_OK)) ||
  (negb (code =? 0) && ((code <? 400) || (599 <? code))) ||
  ((code =? 0) && negb (ar_retry_after_seconds result =? 0)).

(** The validator of the route, or else of the server. *)
Definition admission_validator (route : option chttp_server_route_record) : option Z :=
  match route with
  | Some route =>
    match rr_jwt_bearer_validator route with
    | Some validator => Some validator
    | None => su_jwt_bearer_validator setup
    end
  | None => su_jwt_bearer_validator setup
  end.

(** The hook of the application. *)
Definition admit_hook (state : chttp_server_request_state) (request : server_request) :
    chttp_server_request_state * salts_status :=
  match su_admission setup with
  | None => (state, SALTS_OK)
  | Some admission =>
    let admitted := request <| sq_params := Router.rs_params (rs_params state) |>
                      <| sq_jwt_claims := rs_jwt_claims state |> <| sq_session := false |>
                      <| sq_body := [] |> <| sq_body_sink_user := None |> in
    let '(app, result, status) := admission_fn admission admitted (cs_app (rs_call state)) in
    let state := state <| rs_call := (rs_call state) <| cs_app := app |> |>
                   <| rs_admission_result := result |> in
    let state :=
      if admission_invalid status result
      then chttp_server_stats_handler_error
             (state <| rs_admission_result := {| ar_status_code := 500; ar_retry_after_seconds := 0 |} |>)
      else state in
    let rejected := negb (ar_status_code (rs_admission_result state) =? 0) in
    (state <| rs_admission_rejected := rejected |>, if rejected then SALTS_EPERM else SALTS_OK)
  end.

Definition admit_checks (state : chttp_server_request_state) (request : server_request) (now_seconds : Z) :
    chttp_server_request_state * salts_status :=
  match admission_validator (rs_admitted_route state) with
  | None => admit_hook state request
  | Some validator =>
    let '(claims, status) :=
      chttp_jwt_bearer_request_validate (rs_jwt_claims state) (sq_headers request)
        (su_validators setup validator) now_seconds in
    let state := state <| rs_jwt_claims := claims |> in
    if negb (bool_decide (status = SALTS_OK)) then (state <| rs_admission_rejected := true |>, status)
    else admit_hook state request
  end.

(** [None] is out of fuel of the search for a route, which does not happen. *)
Definition chttp_server_request_admit (state : chttp_server_request_state) (request : server_request)
    (route_method now_seconds : Z) : option (chttp_server_request_state * salts_status) :=
  if rs_admission_complete state then Some (state, SALTS_EINVAL)
  else
    let state := chttp_server_stats_request state in
    match chttp_server_route_find (su_route_config setup) (su_routes setup) (rs_params state) route_method
            (sq_path request) with
    | None => None
    | Some (params, index, allowed_methods, route_status) =>
      let route := match index with Some i => su_routes setup !! i | None => None end in
      let state := state <| rs_params := params |> <| rs_admitted_route := route |>
                     <| rs_admitted_allowed_methods := allowed_methods |>
                     <| rs_admitted_fallback_status := if negb (allowed_methods =? 0) then 405 else 404 |> in
      if bool_decide (route_status = SALTS_ENOBUFS) then
        Some (admit_checks (state <| rs_admitted_fallback_status := 414 |> <| rs_admission_complete := true |>)
                request now_seconds)
      else if negb (bool_decide (route_status = SALTS_OK)) then Some (state, route_status)
      else Some (admit_checks (state <| rs_admission_complete := true |>) request now_seconds)
    end.

Definition chttp_server_request_rejection_response (state : chttp_server_request_state) :
    chttp_server_request_state * salts_status :=
  let call := rs_call state in
  if ar_status_code (rs_admission_result state) =? 0 then
    let '(w, b, status) := chttp_jwt_bearer_unauthorized_response (cs_world call) (cs_response call) in
    (state <| rs_call := call <| cs_world := w |> <| cs_response := b |> |>, status)
  else
    let '(call, status) :=
      if negb (ar_retry_after_seconds (rs_admission_result state) =? 0)
      then header_call call (fun b => chttp_server_response_set_header b (bytes_of "Retry-After")
             (decimal (ar_retry_after_seconds (rs_admission_result state))))
      else (call, SALTS_OK) in
    if bool_decide (status = SALTS_OK) then
      let '(call, status) :=
        chttp_server_reply_to call (ar_status_code (rs_admission_result state)) None [] in
      (state <| rs_call := call |>, status)
    else (state <| rs_call := call |>, status).

(** ** The sink of a body *)

Definition log_sink (state : chttp_server_request_state) (call : sink_call) : chttp_server_request_state :=
  state <| rs_sink_calls := rs_sink_calls state ++ [call] |>.

Definition set_app (state : chttp_server_request_state) (app : App) : chttp_server_request_state :=
  state <| rs_call := (rs_call state) <| cs_app := app |> |>.

Definition chttp_server_request_body_open (state : chttp_server_request_state) (request : server_request)
    (now : Z) : chttp_server_request_state * salts_status :=
  if chttp_server_deadline_expired state now then (state, SALTS_ETIMEDOUT)
  else if rs_body_sink_open state then (state, SALTS_EBUSY)
  else if negb (rs_admission_complete state) || rs_admission_rejected state then (state, SALTS_EPERM)
  else
    let state := state <| rs_body_route := None |> <| rs_body_sink := None |>
                   <| rs_body_sink_user := None |> <| rs_body_was_streamed := false |> in
    match rs_admitted_route state with
    | None => (state, SALTS_OK)
    | Some route =>
      match rr_body_open route with
      | None => (state, SALTS_OK)
      | Some body_open =>
        let routed := request <| sq_params := Router.rs_params (rs_params state) |> <| sq_session := false |>
                        <| sq_jwt_claims := rs_jwt_claims state |> <| sq_body_sink_user := None |> in
        let '(app, result) := body_open_fn body_open (rr_user route) routed (cs_app (rs_call state)) in
        let state := set_app state app in
        match result with
        | Err status => (state, status)
        | Ok sink =>
          if is_none (bk_write sink) then (state, SALTS_EINVAL)
          else
            (log_sink (state <| rs_body_route := Some route |> <| rs_body_sink := Some sink |>
                         <| rs_body_sink_user := Some (bk_user sink) |> <| rs_body_sink_open := true |>
                         <| rs_body_was_streamed := true |>) (SinkOpened sink), SALTS_OK)
        end
      end
    end.

Definition chttp_server_request_body_write (state : chttp_server_request_state) (data : list Z) (now : Z) :
    chttp_server_request_state * salts_status :=
  if chttp_server_deadline_expired state now then (state, SALTS_ETIMEDOUT)
  else
    match rs_body_sink state with
    | Some {| bk_write := Some write; bk_user := user |} =>
      if negb (rs_body_sink_open state) then (state, SALTS_EINVAL)
      else if zlen data =? 0 then (state, SALTS_OK)
      else
        let '(app, status) := body_write_fn write user data (cs_app (rs_call state)) in
        (log_sink (set_app state app) (SinkWrote {| bk_write := Some write; bk_user := user |} data), status)
    | _ => (state, SALTS_EINVAL)
    end.

Definition chttp_server_request_body_close (state : chttp_server_request_state) (status : salts_status) (now : Z) :
    chttp_server_request_state :=
  if negb (rs_body_sink_open state) then state
  else
    let status :=
      if bool_decide (status = SALTS_OK) && chttp_server_deadline_expired state now
      then SALTS_ETIMEDOUT else status in
    let route := rs_body_route state in
    let sink := rs_body_sink state in
    let state := state <| rs_body_sink_open := false |> <| rs_body_route := None |> <| rs_body_sink := None |> in
    match route, sink with
    | Some route, Some sink =>
      match rr_body_close route with
      | None => state
      | Some body_close =>
        log_sink (set_app state (body_close_fn body_close (rr_user route) sink status (cs_app (rs_call state))))
          (SinkClosed sink status)
      end
    | _, _ => state
    end.

(** ** Dispatch *)

Definition reset_response (state : chttp_server_request_state) : chttp_server_request_state :=
  let '(w, b) :=
    chttp_server_response_builder_reset (cs_world (rs_call state)) (cs_response (rs_call state)) in
  state <| rs_call := (rs_call state) <| cs_world := w |> <| cs_response := b |> |>.

Definition close_response_source (state : chttp_server_request_state) (status : salts_status) :
    chttp_server_request_state :=
  let '(w, b) :=
    chttp_server_response_builder_close_source (cs_world (rs_call state)) (cs_response (rs_call state)) status in
  state <| rs_call := (rs_call state) <| cs_world := w |> <| cs_response := b |> |>.

Definition session_abort (state : chttp_server_request_state) : chttp_server_request_state :=
  let '(s, c) :=
    chttp_session_request_abort (su_sessions setup) (cs_sessions (rs_call state)) (cs_session (rs_call state)) in
  state <| rs_call := (rs_call state) <| cs_sessions := s |> <| cs_session := c |> |>.

Definition session_finish (state : chttp_server_request_state) (now : Z) :
    chttp_server_request_state * salts_status :=
  let call := rs_call state in
  let '(s, c, b, status) :=
    chttp_session_request_finish (su_sessions setup) chttp_server_response_set_header (cs_sessions call)
      (cs_session call) (cs_response call) now in
  (state <| rs_call := call <| cs_sessions := s |> <| cs_session := c |> <| cs_response := b |> |>, status).

Definition reply_call (state : chttp_server_request_state) (status_code : Z) (content_type : option (list Z))
    (body : list Z) : chttp_server_request_state * salts_status :=
  let '(call, status) := chttp_server_reply_to (rs_call state) status_code content_type body in
  (state <| rs_call := call |>, status).

(** After the chain has returned [status]. *)
Definition dispatch_finish (state : chttp_server_request_state) (status : salts_status) (now : Z) :
    chttp_server_request_state * salts_status :=
  let '(state, status) :=
    if bool_decide (status = SALTS_OK) && negb (rb_replied (cs_response (rs_call state)))
    then reply_call state 204 None [] else (state, status) in
  let '(state, status) :=
    if bool_decide (status = SALTS_OK) then session_finish state now else (state, status) in
  if negb (bool_decide (status = SALTS_OK)) then
    let state := reset_response (chttp_server_stats_handler_error (session_abort state)) in
    reply_call state 500 (Some (bytes_of "text/plain")) (bytes_of "Internal Server Error")
  else (state, status).

(** The times at which the clock is read: on entry, when the deadline starts,
    when the session is looked up, after the chain, and when the session is
    finished. *)
Record dispatch_clock := {
  dc_entry : Z;
  dc_start : Z;
  dc_session : Z;
  dc_return : Z;
  dc_finish : Z;
}.

Definition session_begin (state : chttp_server_request_state) (request : server_request) (now : Z) :
    chttp_server_request_state :=
  let '(s, c) :=
    chttp_session_request_begin (su_sessions setup) (cs_sessions (rs_call state)) (cs_session (rs_call state))
      (chttp_server_request_header (sq_headers request) (bytes_of "Cookie")) now in
  state <| rs_call := (rs_call state) <| cs_sessions := s |> <| cs_session := c |> |>.

Definition routed_request (state : chttp_server_request_state) (request : server_request) : server_request :=
  request <| sq_params := Router.rs_params (rs_params state) |>
    <| sq_session := negb (session_capacity (su_sessions setup) =? 0) |>
    <| sq_jwt_claims := rs_jwt_claims state |>
    <| sq_body_sink_user := if rs_body_was_streamed state then rs_body_sink_user state else None |>.

Definition dispatch_chain (state : chttp_server_request_state) : @chttp_server_chain App :=
  {| ch_middleware := su_middleware setup; ch_route := rs_admitted_route state;
     ch_fallback_status := rs_admitted_fallback_status state;
     ch_allowed_methods := rs_admitted_allowed_methods state; ch_terminal := None |}.

(** Up to the chain. *)
Definition dispatch_begin (state : chttp_server_request_state) (request : server_request)
    (clock : dispatch_clock) : chttp_server_request_state :=
  let state := chttp_server_deadline_start state (dl_handler_ms (su_deadlines setup)) (dc_start clock) in
  session_begin (reset_response state) request (dc_session clock).

Definition chttp_server_dispatch_request (state : chttp_server_request_state) (request : server_request)
    (clock : dispatch_clock) : chttp_server_request_state * salts_status :=
  if negb (rs_admission_complete state) || rs_admission_rejected state then (state, SALTS_EPERM)
  else if chttp_server_deadline_expired state (dc_entry clock) then (state, SALTS_ETIMEDOUT)
  else
    let state := dispatch_begin state request clock in
    let '(call, status) :=
      chttp_server_chain_run (dispatch_chain state) (routed_request state request) (rs_call state) in
    let state := state <| rs_call := call |> in
    if rb_deferred (cs_response (rs_call state)) then
      (if negb (bool_decide (status = SALTS_OK)) then chttp_server_stats_handler_error state else state, status)
    else if chttp_server_deadline_expired state (dc_return clock) then
      let state := session_abort (state <| rs_deadline_ms := 0 |>) in
      (reset_response (close_response_source state SALTS_ETIMEDOUT), SALTS_ETIMEDOUT)
    else dispatch_finish (state <| rs_deadline_ms := 0 |>) status (dc_finish clock).

(** ** Reset *)

Definition chttp_server_request_state_reset (state : chttp_server_request_state) (now : Z) :
    chttp_server_request_state :=
  let state := chttp_server_request_body_close state SALTS_ECANCELED now in
  let state := reset_response ((chttp_server_request_admission_clear state) <| rs_deadline_ms := 0 |>) in
  let state := state <| rs_params := params_reset (rs_params state) |> in
  state <| rs_call := (rs_call state) <| cs_session := chttp_session_context_reset (cs_session (rs_call state)) |> |>
    <| rs_body_route := None |> <| rs_body_sink := None |> <| rs_body_sink_user := None |>
    <| rs_body_was_streamed := false |>.

End Server.

End Requests.

Arguments chttp_server_request_state : clear implicits.

End Request.
