(* ===== verification/RequestTheorems.v ===== *)
(** * Theorems about requests

    The dispatch of a request on every branch, what it takes to be admitted to a
    protected route, and the life of the sinks of request bodies. *)

From S2P Require Import Prelude Decimal HpackBuffer Router Http1Parser ServerBuffer RateLimit Session SessionTheorems.
From S2P Require Import Response ResponseTheorems ResponseWire Jwt JwtTheorems Middleware Cors CorsTheorems Interceptor.
From S2P Require Import InterceptorTheorems Request.

Module RequestTheorems.
Import Decimal HpackBuffer Router Http1Parser ServerBuffer RateLimit Session SessionTheorems
  Response ResponseTheorems ResponseWire Jwt JwtTheorems Middleware Cors CorsTheorems Interceptor InterceptorTheorems Request.

(** ** What the callbacks of a request keep *)

Section Calls.
Context {alloc : Allocator} {App : Type} (cfg : session_config).

Record call_ok (s : call_state App) : Prop := {
  ck_response : builder_wf (cs_response s);
  ck_sessions : store_ok cfg (cs_sessions s);
  ck_session : context_ok cfg (cs_session s);
}.

(** The application uses responses and sessions through their operations only. *)
Class LawfulCallbacks (callbacks : Callbacks App) := {
  lawful_middleware fn request s : call_ok s -> keeps call_ok (middleware_fn fn request s);
  lawful_handler fn user request s : call_ok s -> call_ok (handler_fn fn user request s).1;
}.

Lemma call_ok_response s b : call_ok s -> builder_wf b -> call_ok (s <| cs_response := b |>).
Proof. by intros [_ Hs Hc] Hb. Qed.

Lemma reply_to_ok s code type body : call_ok s -> call_ok (chttp_server_reply_to s code type body).1.
Proof.
  intros Hs. unfold chttp_server_reply_to. pose proof (reply_op_ok (cs_world s) (cs_response s) code type body (ck_response s Hs)) as H.
  destruct (chttp_server_reply _ _ _ _ _) as [[w b] status]. destruct Hs, H as [Hb _]. done.
Qed.

Lemma header_call_ok s call : call_ok s -> builder_wf (call (cs_response s)).1 -> call_ok (header_call s call).1.
Proof. intros Hs Hb. unfold header_call. destruct (call (cs_response s)) as [b status]. by apply call_ok_response. Qed.

Lemma set_header_wf b name value : builder_wf b -> builder_wf (chttp_server_response_set_header b name value).1.
Proof. intros Hb. destruct (chttp_server_response_set_header b name value) as [b' st] eqn:E. by apply (set_header_spec b name value b' st Hb). Qed.

Lemma allow_header_wf b methods : builder_wf b -> builder_wf (chttp_server_allow_header b methods).1.
Proof.
  intros Hb. unfold chttp_server_allow_header. destruct (allow_text_members methods) as (value & -> & _). by apply set_header_wf.
Qed.

Lemma reply_empty_ok s code : call_ok s -> keeps call_ok (reply_empty s code).
Proof. intros Hs. unfold reply_empty. pose proof (reply_to_ok s code None [] Hs) as H. by destruct (chttp_server_reply_to s code None []). Qed.

Lemma then_header_ok r name value : call_ok r.1 -> call_ok (then_header r name value).1.
Proof.
  destruct r as [s status]. cbn [fst]. intros Hs. unfold then_header.
  destruct status; try exact Hs. apply header_call_ok; [done|]. apply set_header_wf, Hs.
Qed.

Lemma then_optional_ok r name value : call_ok r.1 -> call_ok (then_optional_header r name value).1.
Proof. destruct value; [apply then_header_ok|done]. Qed.

Lemma vary_ok s fields : call_ok s -> chttp_server_response_value fields = true ->
  call_ok (header_call s (fun b => chttp_server_response_append_vary b fields)).1.
Proof.
  intros Hs Hv. apply header_call_ok; [done|].
  destruct (chttp_server_response_append_vary (cs_response s) fields) as [b' st] eqn:E.
  by apply (append_vary_value _ _ _ _ (ck_response s Hs) Hv E).
Qed.

Lemma cors_allow_ok policy s allowed preflight : call_ok s -> keeps call_ok (cors_allow policy s allowed preflight).
Proof.
  intros Hs. unfold cors_allow. set (r1 := then_header (s, SALTS_OK) _ allowed).
  assert (call_ok r1.1) as H1 by (by apply then_header_ok). clearbody r1.
  set (r2 := if co_allow_credentials policy then _ else r1).
  assert (call_ok r2.1) as H2 by (subst r2; destruct (co_allow_credentials policy); [by apply then_header_ok|done]). clearbody r2.
  destruct r2 as [s2 st2]. cbn [fst] in H2. split_if; [exact H2|]. destruct preflight; cbn [negb].
  - set (r3 := then_optional_header _ _ _). assert (call_ok r3.1) as H3 by (by apply then_optional_ok, then_header_ok). clearbody r3.
    cbv zeta. match goal with |- context [let '(x, y) := ?e in _] => set (r4 := e) end.
    assert (call_ok r4.1) as H4 by (subst r4; split_if; [done|]; split_if; [done|]; by apply then_header_ok). clearbody r4.
    destruct r4 as [s4 st4]. split_if; [by apply reply_empty_ok|exact H4].
  - pose proof (then_optional_ok (s2, SALTS_OK) (bytes_of "Access-Control-Expose-Headers") (co_exposed_headers policy) H2) as H3.
    destruct (then_optional_header _ _ _) as [s3 st3]. split_if; [|exact H3]. split; [exact H3|]. done.
Qed.

Lemma cors_middleware_ok policy request s : call_ok s -> keeps call_ok (cors_middleware policy request s).
Proof.
  intros Hs. unfold cors_middleware. destruct (cors_single_header (sq_headers request) cors_origin) as [origin origin_status].
  pose proof (vary_ok s cors_origin Hs ltac:(vm_compute; reflexivity)) as H1. destruct (header_call s _) as [s1 st1]. cbn [fst] in H1.
  split_if; [exact H1|]. split_if; [by apply reply_empty_ok|]. destruct (cors_trim <$> origin) as [o|]; [|by split].
  destruct (if sq_method request =? CHTTP_METHOD_OPTIONS then _ else _) as [method method_status]. cbv zeta.
  pose proof (vary_ok s1 (bytes_of "Access-Control-Request-Method, Access-Control-Request-Headers") H1 ltac:(vm_compute; reflexivity)) as H2.
  set (r2 := if negb (is_none method) || _ then _ else (s1, SALTS_OK)).
  assert (call_ok r2.1) as H3 by (subst r2; split_if; done). clearbody r2. destruct r2 as [s2 st2]. cbn [fst] in H3.
  split_if; [exact H3|]. split_if; [by apply reply_empty_ok|]. destruct (find_origin policy o); [|by apply reply_empty_ok].
  split_if; [by apply reply_empty_ok|by apply cors_allow_ok].
Qed.

Context {callbacks : Callbacks App} {lawful : LawfulCallbacks callbacks}.

Lemma chain_run_ok chain request s : ch_terminal chain = None -> call_ok s -> call_ok (chttp_server_chain_run chain request s).1.
Proof.
  intros Ht Hs. unfold chttp_server_chain_run. rewrite chain_run_with_spec. apply (run_chain_keeps call_ok); [| |done].
  - intros s1 H1. unfold chain_end. destruct (ch_route chain) as [route|].
    + rewrite Ht. unfold run_handler. destruct (rr_handler route); [by apply lawful_handler|].
      unfold chttp_server_websocket_upgrade_required.
      pose proof (header_call_ok s1 (fun b => chttp_server_response_set_header b (bytes_of "Sec-WebSocket-Version") (bytes_of "13")) H1
        (set_header_wf _ _ _ (ck_response _ H1))) as H2.
      destruct (header_call s1 _) as [s2 st2]. split_if; [exact H2|by apply reply_to_ok].
    + set (r := if ch_fallback_status chain =? 405 then _ else _).
      assert (call_ok r.1) as H2.
      { subst r. split_if; [|done]. apply header_call_ok; [done|]. apply allow_header_wf, H1. }
      clearbody r. destruct r as [s2 st2]. split_if; [exact H2|by apply reply_to_ok].
  - apply Forall_map, Forall_true. intros binding s1 H1. destruct binding; cbn [run_binding]; [by apply lawful_middleware|by apply cors_middleware_ok].
Qed.

End Calls.

(** ** Dispatch *)

(** The answer to a request whose handling failed, with nothing of what the
    handlers had put into the response. *)
Definition error_page (b : chttp_server_response_builder) : Prop :=
  rb_replied b = true /\ rb_status_code b = 500 /\
  rb_headers b = [(bytes_of "Content-Type", bytes_of "text/plain")] /\
  reply_body b = bytes_of "Internal Server Error".

(** A response of which nothing was made yet. *)
Definition fresh (b : chttp_server_response_builder) : Prop :=
  rb_headers b = [] /\ rb_replied b = false /\ rb_deferred b = false /\ rb_retained_body b = None /\
  rb_source_enabled b = false.

Definition same_room (b b' : chttp_server_response_builder) : Prop :=
  rb_header_capacity b' = rb_header_capacity b /\ rb_header_storage_capacity b' = rb_header_storage_capacity b /\
  rb_body_limit b' = rb_body_limit b /\ rb_source_capacity b' = rb_source_capacity b.

(** The response that handlers leave: without a reply, it has no content. *)
Definition answered (b : chttp_server_response_builder) : chttp_server_response_builder :=
  if rb_replied b then b else b <| rb_body_size := 0 |> <| rb_status_code := 204 |> <| rb_replied := true |>.

Section Dispatch.
Context {alloc : Allocator} {cjwt : Cjwt} {App : Type} (setup : server_setup).
Context {callbacks : Callbacks App} {lawful : LawfulCallbacks (su_sessions setup) callbacks}.

Abbreviation state := (chttp_server_request_state App).
Abbreviation ok := (call_ok (su_sessions setup)).

Lemma reset_response_fresh (st : state) : ok (rs_call st) ->
  exists w b, reset_response st = st <| rs_call := (rs_call st) <| cs_world := w |> <| cs_response := b |> |> /\ builder_wf b /\
    fresh b /\ same_room (cs_response (rs_call st)) b.
Proof.
  intros Hs. unfold reset_response. pose proof (builder_reset_ok (cs_world (rs_call st)) (cs_response (rs_call st)) _ (ck_response _ _ Hs) (same_limits_refl _)) as H.
  unfold chttp_server_response_builder_reset in *. pose proof (close_ok (cs_world (rs_call st)) (cs_response (rs_call st)) SALTS_ECANCELED) as Hc.
  destruct (chttp_server_response_builder_close_source _ _ _) as [w b]. destruct H as [Hwf _]. destruct Hc as (_ & _ & Hse & _ & ? & ? & _ & _ & ? & ?).
  eexists _, _. split; [reflexivity|]. split; [exact Hwf|]. by split.
Qed.

Lemma reset_response_ok (st : state) : ok (rs_call st) -> ok (rs_call (reset_response st)).
Proof. intros Hs. destruct (reset_response_fresh st Hs) as (w & b & -> & Hb & _). destruct Hs. done. Qed.

(** A source is closed, then everything is reset. *)
Lemma timeout_reset (st : state) : ok (rs_call st) ->
  let st' := reset_response (close_response_source st SALTS_ETIMEDOUT) in
  ok (rs_call st') /\ fresh (cs_response (rs_call st')) /\ rs_deadline_ms st' = rs_deadline_ms st /\
  cs_sessions (rs_call st') = cs_sessions (rs_call st) /\ cs_session (rs_call st') = cs_session (rs_call st) /\
  cs_app (rs_call st') = cs_app (rs_call st).
Proof.
  intros [Hb Hs Hc]. cbv zeta. unfold close_response_source, reset_response.
  pose proof (close_ok (cs_world (rs_call st)) (cs_response (rs_call st)) SALTS_ETIMEDOUT) as H.
  destruct (chttp_server_response_builder_close_source _ _ _) as [w b]. destruct H as (_ & _ & _ & Hlim). cbn.
  pose proof (builder_reset_ok w b _ Hb Hlim) as H. unfold chttp_server_response_builder_reset in *.
  pose proof (close_ok w b SALTS_ECANCELED) as Hc2.
  destruct (chttp_server_response_builder_close_source w b SALTS_ECANCELED) as [w2 b2]. destruct Hc2 as (_ & _ & Hse & _). by destruct H as [Hwf _].
Qed.

Lemma session_abort_ok (st : state) : ok (rs_call st) -> ok (rs_call (session_abort setup st)).
Proof.
  intros [Hb Hs Hc]. unfold session_abort, chttp_session_request_abort. split_if; [done|].
  pose proof (discard_ok (su_sessions setup) _ _ Hs Hc) as H. destruct (chttp_session_discard_created _ _) as [s c].
  destruct H as (Hs' & Hc' & _). apply (release_ok (su_sessions setup)) in Hc'. constructor; cbn; try done.
Qed.

Lemma session_begin_ok (st : state) request now : ok (rs_call st) -> ok (rs_call (session_begin setup st request now)).
Proof.
  intros [Hb Hs Hc]. unfold session_begin.
  pose proof (begin_ok (su_sessions setup) _ _ (chttp_server_request_header (sq_headers request) (bytes_of "Cookie")) now Hs Hc) as H.
  destruct (chttp_session_request_begin _ _ _ _ _) as [s c]. by destruct H as (? & ? & _).
Qed.

(** The end of a session keeps the response but for one header. *)
Lemma session_finish_ok (st : state) now : ok (rs_call st) ->
  let '(st', status) := session_finish setup st now in
  ok (rs_call st') /\ (exists call, st' = st <| rs_call := call |>) /\
  (exists headers used, cs_response (rs_call st') = with_headers (cs_response (rs_call st)) headers used).
Proof.
  intros [Hb Hs Hc]. unfold session_finish, chttp_session_request_finish.
  pose proof (commit_ok (su_sessions setup) _ _ now Hs Hc) as H. destruct (finish_commit _ _ _ _) as [s next]. destruct H as [Hs1 _].
  pose proof (finish_reply_ok (su_sessions setup) chttp_server_response_set_header s (cs_session (rs_call st)) (cs_response (rs_call st)) next Hs1 Hc) as H.
  assert (exists headers used, cs_response (rs_call st) = with_headers (cs_response (rs_call st)) headers used) as Hself.
  { exists (rb_headers (cs_response (rs_call st))), (rb_header_storage_used (cs_response (rs_call st))).
    unfold with_headers. rewrite <- (bw_wire _ Hb). by destruct (cs_response (rs_call st)). }
  assert (let '(_, _, b, _) := finish_reply (su_sessions setup) chttp_server_response_set_header s (cs_session (rs_call st)) (cs_response (rs_call st)) next in
    builder_wf b /\ exists headers used, b = with_headers (cs_response (rs_call st)) headers used) as Hresp.
  { assert (forall id age, builder_wf (chttp_session_set_cookie (su_sessions setup) chttp_server_response_set_header (cs_response (rs_call st)) id age).1 /\
      exists headers used, (chttp_session_set_cookie (su_sessions setup) chttp_server_response_set_header (cs_response (rs_call st)) id age).1 =
        with_headers (cs_response (rs_call st)) headers used) as Hcookie.
    { intros id age. unfold chttp_session_set_cookie. cbv zeta. split_if; [done|].
      pose proof (set_header_cases (cs_response (rs_call st)) (bytes_of "Set-Cookie") (cookie_text (su_sessions setup) id age) Hb) as Hsc.
      destruct (chttp_server_response_set_header _ _ _) as [b' st']. cbn [fst].
      destruct Hsc as [[_ ->]|(_ & _ & _ & used & -> & Hwf)]; [done|]. by eauto. }
    unfold finish_reply. destruct next as [| | |id]; [done| | |].
    - specialize (Hcookie [] 0). by destruct (chttp_session_set_cookie _ _ _ _ _).
    - specialize (Hcookie [] 0). by destruct (chttp_session_set_cookie _ _ _ _ _).
    - specialize (Hcookie id (session_max_age (su_sessions setup))). destruct (chttp_session_set_cookie _ _ _ _ _) as [b' st'].
      split_if; [by destruct (chttp_session_discard_created _ _)|]. by split_if. }
  destruct (finish_reply _ _ _ _ _ _) as [[[s' c'] b'] status]. destruct H as (Hs' & Hc' & _). destruct Hresp as [Hb' Hw]. split_and!; [done| |done].
  by eexists.
Qed.

(** A reply on a fresh builder is the whole response. *)
Lemma reply_fresh w b code type body w' b' : builder_wf b -> rb_headers b = [] -> rb_retained_body b = None ->
  chttp_server_reply w b code (Some type) body = (w', b', SALTS_OK) ->
  rb_replied b' = true /\ rb_status_code b' = code /\ rb_headers b' = [(bytes_of "Content-Type", type)] /\ reply_body b' = body.
Proof.
  intros Hb Hh Hret. unfold chttp_server_reply. cbv zeta. do 5 (split_if; [done|]).
  set (r1 := if negb (zlen body =? 0) then grow_body w b (zlen body) else (w, b, SALTS_OK)).
  assert (exists c, r1.1.2 = b <| rb_body_capacity := c |>) as (c & Ec).
  { subst r1. split_if; [|exists (rb_body_capacity b); by destruct b]. pose proof (grow_body_charge w b (zlen body)) as Hg.
    destruct (grow_body w b (zlen body)) as [[w1 b1] st1]. destruct Hg as (_ & _ & c & -> & _). by exists c. }
  clearbody r1. destruct r1 as [[w1 b1] st1]. cbn [fst snd] in Ec. subst b1. set (b1 := b <| rb_body_capacity := c |>).
  destruct (bool_decide (st1 = SALTS_OK)) eqn:E1; cbn [negb]; [|intros [= <- <- ->]; by rewrite bool_decide_true in E1].
  assert (builder_wf b1) as Hb1 by (eapply wf_same; [exact Hb|done|]; pose proof (bw_reply _ Hb) as Hq; rewrite Heqb2 in Hq; subst b1; cbn; by rewrite Heqb2).
  assert (rb_headers b1 = [] /\ rb_retained_body b1 = None) as [Hh1 Hret1] by done. clearbody b1. unfold set_content_type.
  pose proof (set_header_cases b1 (bytes_of "Content-Type") type Hb1) as Hsc. generalize dependent (bytes_of "Content-Type"). intros name Hsc.
  destruct (chttp_server_response_set_header b1 name type) as [b2 st2].
  destruct Hsc as [[Hne ->]|(-> & _ & _ & used & -> & _)]; [rewrite bool_decide_false by done; cbn [negb]; by intros [= <- <- ->]|].
  rewrite bool_decide_true by done. cbn [negb]. intros [= _ <-]. split_and!; try done.
  - assert (upsert (rb_headers b1) name type = [(name, type)]) as Hu by (by rewrite Hh1). destruct (negb (zlen body =? 0)); exact Hu.
  - unfold reply_body. destruct (Z.eqb_spec (zlen body) 0) as [E|E]; cbn; rewrite Hret1.
    + apply zlen_0_inv in E as ->. done.
    + by rewrite (proj2 (Z.eqb_neq _ _)).
Qed.

(** What the chain of a request leaves. *)
Definition chain_result (st : state) (request : server_request) (clock : dispatch_clock) : call_state App * salts_status :=
  let st := dispatch_begin setup st request clock in
  chttp_server_chain_run (dispatch_chain setup st) (routed_request setup st request) (rs_call st).

Lemma dispatch_begin_ok (st : state) request clock : ok (rs_call st) -> ok (rs_call (dispatch_begin setup st request clock)).
Proof.
  intros Hs. unfold dispatch_begin. apply session_begin_ok, reset_response_ok. unfold chttp_server_deadline_start. by split_if.
Qed.

(** The handling failed, and left [failed]: the session is abandoned, and the
    error page is the answer, written into a fresh response of the same room; the
    status is that of this reply. *)
Definition abandoned (failed call' : call_state App) (status : salts_status) : Prop :=
  (cs_sessions call', cs_session call') =
    chttp_session_request_abort (su_sessions setup) (cs_sessions failed) (cs_session failed) /\
  cs_app call' = cs_app failed /\
  (exists w b, builder_wf b /\ fresh b /\ same_room (cs_response failed) b /\
     chttp_server_reply w b 500 (Some (bytes_of "text/plain")) (bytes_of "Internal Server Error") =
       (cs_world call', cs_response call', status)) /\
  (status = SALTS_OK -> error_page (cs_response call')).

Lemma dispatch_failed (st : state) : ok (rs_call st) ->
  let '(st', status) := reply_call (reset_response (chttp_server_stats_handler_error (session_abort setup st))) 500
    (Some (bytes_of "text/plain")) (bytes_of "Internal Server Error") in
  ok (rs_call st') /\ rs_deadline_ms st' = rs_deadline_ms st /\ abandoned (rs_call st) (rs_call st') status.
Proof.
  intros Hs. pose proof (session_abort_ok st Hs) as Ha. set (st1 := chttp_server_stats_handler_error (session_abort setup st)).
  assert (ok (rs_call st1)) as H1 by exact Ha.
  assert (rs_deadline_ms st1 = rs_deadline_ms st /\ (cs_sessions (rs_call st1), cs_session (rs_call st1)) =
    chttp_session_request_abort (su_sessions setup) (cs_sessions (rs_call st)) (cs_session (rs_call st)) /\
    cs_app (rs_call st1) = cs_app (rs_call st) /\ cs_response (rs_call st1) = cs_response (rs_call st)) as (Hd & Hse & Happ & Hresp).
  { subst st1. unfold session_abort. by destruct (chttp_session_request_abort _ _ _). }
  clearbody st1. destruct (reset_response_fresh st1 H1) as (w & b & E & Hb & Hf & Hroom). pose proof (reset_response_ok st1 H1) as H2. rewrite E in *.
  unfold reply_call, abandoned, error_page. generalize (bytes_of "text/plain"), (bytes_of "Internal Server Error"). intros type body.
  set (st2 := st1 <| rs_call := _ |>) in *. pose proof (reply_to_ok (su_sessions setup) (rs_call st2) 500 (Some type) body H2) as Hok.
  unfold chttp_server_reply_to in *. change (cs_world (rs_call st2)) with w in *. change (cs_response (rs_call st2)) with b in *.
  destruct (chttp_server_reply w b 500 (Some type) body) as [[w' b'] status] eqn:Er. cbn [fst] in Hok. rewrite Hresp in Hroom.
  split_and!; [exact Hok|exact Hd|exact Hse|exact Happ| |].
  - exists w, b. by split_and!.
  - intros ->. eapply reply_fresh; [exact Hb|apply Hf|apply Hf|exact Er].
Qed.

(** The chain has returned: a failure is abandoned; otherwise the session ends,
    which only adds a header to the response that the handlers left, and what
    then is there is the answer, unless that end fails. *)
Definition finished (call : call_state App) (chain_status : salts_status) (now : Z)
    (call' : call_state App) (status : salts_status) : Prop :=
  if bool_decide (chain_status = SALTS_OK) then
    let '(sessions, session, response, session_status) :=
      chttp_session_request_finish (su_sessions setup) chttp_server_response_set_header (cs_sessions call)
        (cs_session call) (answered (cs_response call)) now in
    let ended := call <| cs_sessions := sessions |> <| cs_session := session |> <| cs_response := response |> in
    (exists headers used, response = with_headers (answered (cs_response call)) headers used) /\
    if bool_decide (session_status = SALTS_OK) then call' = ended /\ status = SALTS_OK
    else abandoned ended call' status
  else abandoned call call' status.

(** The reply without a body. *)
Lemma no_content_reply (call : call_state App) : ok call -> rb_deferred (cs_response call) = false -> rb_replied (cs_response call) = false ->
  chttp_server_reply_to call 204 None [] = (call <| cs_response := answered (cs_response call) |>, SALTS_OK).
Proof.
  intros Hs Hd Hr. unfold chttp_server_reply_to, chttp_server_reply, answered. rewrite Hd, Hr. cbn.
  rewrite (proj2 (Z.ltb_ge _ _)) by apply (bw_limits _ (ck_response _ _ Hs)). cbn. by destruct call.
Qed.

Lemma dispatch_finish_ok (st : state) status now : ok (rs_call st) -> rb_deferred (cs_response (rs_call st)) = false ->
  let '(st', status') := dispatch_finish setup st status now in
  ok (rs_call st') /\ rs_deadline_ms st' = rs_deadline_ms st /\ finished (rs_call st) status now (rs_call st') status'.
Proof.
  intros Hs Hdef. unfold dispatch_finish, finished. destruct (decide (status = SALTS_OK)) as [->|Hne].
  2:{ rewrite (bool_decide_false (status = SALTS_OK)) by done. cbn [andb]. rewrite !(bool_decide_false (status = SALTS_OK)) by done. cbn [negb].
      apply (dispatch_failed st Hs). }
  rewrite (bool_decide_true (SALTS_OK = SALTS_OK)) by done. cbn [andb].
  set (st1 := st <| rs_call := (rs_call st) <| cs_response := answered (cs_response (rs_call st)) |> |>).
  assert ((if negb (rb_replied (cs_response (rs_call st))) then reply_call st 204 None [] else (st, SALTS_OK)) = (st1, SALTS_OK) /\ ok (rs_call st1)) as [-> H1].
  { destruct (rb_replied (cs_response (rs_call st))) eqn:Er; cbn [negb].
    - assert (st1 = st) as ->; [|done]. subst st1. unfold answered. rewrite Er. destruct st as [call ? ? ? ? ? ? ? ? ? ? ? ? ? ? ? ?]. by destruct call.
    - unfold reply_call. pose proof (reply_to_ok (su_sessions setup) (rs_call st) 204 None [] Hs) as H. rewrite no_content_reply in * by done. done. }
  rewrite bool_decide_true by done. pose proof (session_finish_ok st1 now H1) as Hsf. revert Hsf. unfold session_finish.
  change (cs_sessions (rs_call st1)) with (cs_sessions (rs_call st)). change (cs_session (rs_call st1)) with (cs_session (rs_call st)).
  change (cs_response (rs_call st1)) with (answered (cs_response (rs_call st))).
  destruct (chttp_session_request_finish _ _ _ _ _ _) as [[[s c] b] fin]. intros (H2 & _ & Hw). cbn in Hw. fold with_headers in Hw.
  destruct (bool_decide (fin = SALTS_OK)) eqn:Ef; cbn [negb]; [apply bool_decide_eq_true in Ef as ->; by split_and!|].
  pose proof (dispatch_failed _ H2) as H. destruct (reply_call _ _ _ _) as [st' status']. destruct H as (? & ? & ?). by split_and!.
Qed.

(** What the dispatch of a request promises. *)
Definition dispatch_outcome (st : state) (request : server_request) (clock : dispatch_clock) (st' : state) (status : salts_status) : Prop :=
  ok (rs_call st') /\
  if negb (rs_admission_complete st) || rs_admission_rejected st then st' = st /\ status = SALTS_EPERM
  else if chttp_server_deadline_expired st (dc_entry clock) then st' = st /\ status = SALTS_ETIMEDOUT
  else
    let begun := dispatch_begin setup st request clock in
    let '(call, chain_status) := chain_result st request clock in
    fresh (cs_response (rs_call begun)) /\
    if rb_deferred (cs_response call) then rs_call st' = call /\ status = chain_status
    else
      rs_deadline_ms st' = 0 /\
      if chttp_server_deadline_expired begun (dc_return clock) then
        status = SALTS_ETIMEDOUT /\ fresh (cs_response (rs_call st')) /\ cs_app (rs_call st') = cs_app call /\
        (cs_sessions (rs_call st'), cs_session (rs_call st')) =
          chttp_session_request_abort (su_sessions setup) (cs_sessions call) (cs_session call)
      else finished call chain_status (dc_finish clock) (rs_call st') status.

Lemma dispatch_begin_fresh (st : state) request clock : ok (rs_call st) -> fresh (cs_response (rs_call (dispatch_begin setup st request clock))).
Proof.
  intros Hs. unfold dispatch_begin. set (st0 := chttp_server_deadline_start _ _ _).
  assert (ok (rs_call st0)) as H0 by (subst st0; unfold chttp_server_deadline_start; by split_if). clearbody st0.
  destruct (reset_response_fresh st0 H0) as (w & b & -> & _ & Hf & _). unfold session_begin. by destruct (chttp_session_request_begin _ _ _ _ _).
Qed.

Lemma dispatch_spec (st : state) request clock st' status : ok (rs_call st) ->
  chttp_server_dispatch_request setup st request clock = (st', status) -> dispatch_outcome st request clock st' status.
Proof.
  intros Hs. unfold dispatch_outcome, chttp_server_dispatch_request. split_if; [by intros [= <- <-]|]. split_if; [by intros [= <- <-]|].
  unfold chain_result. pose proof (dispatch_begin_ok st request clock Hs) as Hb. pose proof (dispatch_begin_fresh st request clock Hs) as Hfr. cbv zeta.
  set (st0 := dispatch_begin setup st request clock) in *. clearbody st0.
  pose proof (chain_run_ok (su_sessions setup) (dispatch_chain setup st0) (routed_request setup st0 request) (rs_call st0) eq_refl Hb) as Hc.
  destruct (chttp_server_chain_run _ _ _) as [call chain_status]. cbn [fst] in Hc.
  change (cs_response (rs_call (st0 <| rs_call := call |>))) with (cs_response call).
  destruct (rb_deferred (cs_response call)) eqn:Ed.
  { intros [= <- <-]. split; [by destruct (bool_decide (chain_status = SALTS_OK))|]. split; [done|]. split; [|done].
    by destruct (bool_decide (chain_status = SALTS_OK)). }
  change (chttp_server_deadline_expired (st0 <| rs_call := call |>) (dc_return clock)) with (chttp_server_deadline_expired st0 (dc_return clock)).
  split_if.
  - set (st1 := session_abort setup (st0 <| rs_call := call |> <| rs_deadline_ms := 0 |>)). intros E.
    assert (ok (rs_call st1)) as H1 by (by apply session_abort_ok).
    assert (rs_deadline_ms st1 = 0 /\ (cs_sessions (rs_call st1), cs_session (rs_call st1)) =
      chttp_session_request_abort (su_sessions setup) (cs_sessions call) (cs_session call) /\ cs_app (rs_call st1) = cs_app call) as (Hd & Hse & Happ).
    { subst st1. unfold session_abort. by destruct (chttp_session_request_abort _ _ _). }
    clearbody st1. injection E as <- <-.
    destruct (timeout_reset st1 H1) as (Hok & Hf & Hdl & E1 & E2 & E3). rewrite E1, E2, E3, Hdl. by split_and!.
  - pose proof (dispatch_finish_ok (st0 <| rs_call := call |> <| rs_deadline_ms := 0 |>) chain_status (dc_finish clock) Hc Ed) as Hfin.
    intros E. rewrite E in Hfin. by destruct Hfin as (? & ? & ?).
Qed.

(** A dispatch that answers left a reply. *)
Lemma dispatch_spec_replied (st : state) request clock st' : ok (rs_call st) ->
  chttp_server_dispatch_request setup st request clock = (st', SALTS_OK) ->
  rb_deferred (cs_response (rs_call st')) = false -> rb_replied (cs_response (rs_call st')) = true.
Proof.
  intros Hs E Hd. apply dispatch_spec in E as [_ E]; [|done]. revert E. split_if; [by intros [_ ?]|]. split_if; [by intros [_ ?]|].
  cbv zeta. destruct (chain_result _ _ _) as [call chain_status]. intros [_ E]. revert E. destruct (rb_deferred (cs_response call)) eqn:Ed.
  - intros [Hcall _]. rewrite Hcall in Hd. congruence.
  - intros [_ E]. revert E. split_if; [by intros [? _]|]. unfold finished.
    assert (forall failed, abandoned failed (rs_call st') SALTS_OK -> rb_replied (cs_response (rs_call st')) = true) as Hab
      by (intros failed (_ & _ & _ & Hp); apply (Hp eq_refl)).
    case_bool_decide; [|by apply Hab]. destruct (chttp_session_request_finish _ _ _ _ _ _) as [[[s c] b] fin]. intros [(headers & used & ->) E].
    revert E. case_bool_decide; [|by apply Hab]. intros [-> _]. cbn. unfold answered. by destruct (rb_replied (cs_response call)) eqn:Er.
Qed.

(** C20: The dispatch of a request refuses one that was not admitted or is late
    and changes nothing. Otherwise the chain of handlers runs once, from a fresh
    response. A response that it deferred stays as it is. When the chain ends too
    late the response is discarded and the session abandoned. When the chain
    succeeds, the response is the one it made, status, headers and body, with 204
    when it made none, and only its headers may change at the end of the session,
    which the store then keeps. When the chain or the end of the session fails,
    and only then, the session is abandoned and the answer is an error page with
    status 500, written on a fresh response; the status returned is that of this
    reply. *)
Theorem dispatch_correct (st : state) request clock st' status : ok (rs_call st) ->
  chttp_server_dispatch_request setup st request clock = (st', status) ->
  ok (rs_call st') /\
  if negb (rs_admission_complete st) || rs_admission_rejected st then st' = st /\ status = SALTS_EPERM
  else if chttp_server_deadline_expired st (dc_entry clock) then st' = st /\ status = SALTS_ETIMEDOUT
  else
    let begun := dispatch_begin setup st request clock in
    let '(call, chain_status) := chain_result st request clock in
    fresh (cs_response (rs_call begun)) /\
    if rb_deferred (cs_response call) then rs_call st' = call /\ status = chain_status
    else
      rs_deadline_ms st' = 0 /\
      if chttp_server_deadline_expired begun (dc_return clock) then
        status = SALTS_ETIMEDOUT /\ fresh (cs_response (rs_call st')) /\ cs_app (rs_call st') = cs_app call /\
        (cs_sessions (rs_call st'), cs_session (rs_call st')) =
          chttp_session_request_abort (su_sessions setup) (cs_sessions call) (cs_session call)
      else finished call chain_status (dc_finish clock) (rs_call st') status.
Proof. apply dispatch_spec. Qed.

(** ** Admission *)

(** What the checks leave alone. *)
Lemma admit_hook_route (st : state) request : rs_admitted_route (admit_hook setup st request).1 = rs_admitted_route st /\
  rs_jwt_claims (admit_hook setup st request).1 = rs_jwt_claims st /\
  rs_admission_complete (admit_hook setup st request).1 = rs_admission_complete st.
Proof.
  unfold admit_hook. destruct (su_admission setup) as [fn|]; [|done]. cbv zeta.
  destruct (admission_fn _ _ _) as [[app result] status]. by destruct (admission_invalid status result).
Qed.

Lemma admit_checks_route (st : state) request now : rs_admitted_route (admit_checks setup st request now).1 = rs_admitted_route st.
Proof.
  unfold admit_checks. destruct (admission_validator setup (rs_admitted_route st)) as [v|]; [|apply admit_hook_route].
  destruct (chttp_jwt_bearer_request_validate _ _ _ _) as [claims status]. cbv zeta. split_if; [done|].
  exact (proj1 (admit_hook_route (st <| rs_jwt_claims := claims |>) request)).
Qed.

Lemma admit_checks_authenticated (st : state) request now st' status v impl :
  admission_validator setup (rs_admitted_route st) = Some v -> su_validators setup v = Some impl ->
  0 <= jv_clock_skew_seconds impl -> now <= INT64_MAX ->
  admit_checks setup st request now = (st', status) ->
  rs_admission_rejected st' = true \/
  exists token jwt, bearer_credentials (sq_headers request) token /\
    cjwt_decode token (jv_key impl) now (jv_clock_skew_seconds impl) = Some jwt /\
    token_accepted impl now jwt /\ rs_jwt_claims st' = Some (claims_of jwt).
Proof.
  intros Hv Hi Hskew Hnow. unfold admit_checks. rewrite Hv, Hi. unfold chttp_jwt_bearer_request_validate.
  destruct (Z.eqb_spec now (-1)) as [En|En]; [cbn; intros [= <- <-]; by left|].
  destruct (chttp_jwt_bearer_request_validate_at (rs_jwt_claims st) (sq_headers request) (Some impl) now) as [claims jst] eqn:E.
  cbv zeta. destruct (bool_decide (jst = SALTS_OK)) eqn:Ej; cbn [negb]; [|intros [= <- <-]; by left].
  apply bool_decide_eq_true in Ej as ->. intros Eh. right.
  destruct (validate_at_spec (rs_jwt_claims st) (sq_headers request) impl now Hskew Hnow) as [Hspec _].
  apply Hspec in E as (token & jwt & Hb & Hd & Ht & ->). exists token, jwt. split_and!; try done.
  pose proof (admit_hook_route (st <| rs_jwt_claims := Some (claims_of jwt) |>) request) as (_ & Hc & _). rewrite Eh in Hc. exact Hc.
Qed.

(** C21: A request for a protected route either was authenticated, with a token
    that its validator accepts and whose claims the handlers see, or neither its
    handlers run nor its body is opened. *)
Theorem admitted_request_authenticated (st : state) request method now st' status v impl :
  rs_admission_complete st = false ->
  chttp_server_request_admit setup st request method now = Some (st', status) ->
  admission_validator setup (rs_admitted_route st') = Some v -> su_validators setup v = Some impl ->
  0 <= jv_clock_skew_seconds impl -> now <= INT64_MAX ->
  (forall r clock, chttp_server_dispatch_request setup st' r clock = (st', SALTS_EPERM)) /\
  (forall r now', (chttp_server_request_body_open st' r now').1 = st') \/
  exists token jwt, bearer_credentials (sq_headers request) token /\
    cjwt_decode token (jv_key impl) now (jv_clock_skew_seconds impl) = Some jwt /\
    token_accepted impl now jwt /\
    forall r, sq_jwt_claims (routed_request setup st' r) = Some (claims_of jwt).
Proof.
  intros Hc0 Ha Hv Hi Hskew Hnow.
  assert (forall st1 status1, admission_validator setup (rs_admitted_route st1) = Some v -> admit_checks setup st1 request now = (st', status1) ->
    rs_admission_rejected st' = true \/
    exists token jwt, bearer_credentials (sq_headers request) token /\
      cjwt_decode token (jv_key impl) now (jv_clock_skew_seconds impl) = Some jwt /\
      token_accepted impl now jwt /\ rs_jwt_claims st' = Some (claims_of jwt)) as Hchecks
    by (intros st1 status1 Hv1 E1; by eapply admit_checks_authenticated).
  assert (negb (rs_admission_complete st') || rs_admission_rejected st' = true \/
    exists token jwt, bearer_credentials (sq_headers request) token /\
      cjwt_decode token (jv_key impl) now (jv_clock_skew_seconds impl) = Some jwt /\
      token_accepted impl now jwt /\ rs_jwt_claims st' = Some (claims_of jwt)) as [Hgate|Hauth].
  { unfold chttp_server_request_admit in Ha. rewrite Hc0 in Ha. cbv zeta in Ha.
    destruct (chttp_server_route_find _ _ _ _ _) as [[[[params index] allowed] route_status]|]; [|done].
    assert (forall st1, Some (admit_checks setup st1 request now) = Some (st', status) ->
      negb (rs_admission_complete st') || rs_admission_rejected st' = true \/
      exists token jwt, bearer_credentials (sq_headers request) token /\
        cjwt_decode token (jv_key impl) now (jv_clock_skew_seconds impl) = Some jwt /\
        token_accepted impl now jwt /\ rs_jwt_claims st' = Some (claims_of jwt)) as Hcase.
    { intros st1 E1. apply (inj Some) in E1. destruct (Hchecks st1 status) as [->|Hx]; [|exact E1|left; by rewrite orb_true_r|by right].
      rewrite <- (admit_checks_route st1 request now), E1. exact Hv. }
    destruct (bool_decide (route_status = SALTS_ENOBUFS)); [by eapply Hcase|].
    destruct (bool_decide (route_status = SALTS_OK)); cbn [negb] in Ha; [by eapply Hcase|].
    apply (inj Some) in Ha. apply (f_equal (fun x => rs_admission_complete x.1)) in Ha. cbn in Ha. left. by rewrite <- Ha, Hc0. }
  - left. split.
    + intros r clock. unfold chttp_server_dispatch_request. by rewrite Hgate.
    + intros r now'. unfold chttp_server_request_body_open. rewrite Hgate. repeat split_if; done.
  - right. destruct Hauth as (token & jwt & ? & ? & ? & ?). by exists token, jwt.
Qed.

(** ** The sink of a body *)

(** A sink is opened, gets data, and is closed before the next; [current] is the
    one that is open at the end. *)
Fixpoint sink_protocol (calls : list sink_call) (current : option chttp_body_sink) : option (option chttp_body_sink) :=
  match calls with
  | [] => Some current
  | SinkOpened sink :: calls => match current with None => sink_protocol calls (Some sink) | Some _ => None end
  | SinkWrote sink data :: calls =>
    match current with
    | Some sink' =>
      if bool_decide (bk_write sink = bk_write sink' /\ bk_user sink = bk_user sink' /\ data <> [])
      then sink_protocol calls current else None
    | None => None
    end
  | SinkClosed sink _ :: calls =>
    match current with
    | Some sink' =>
      if bool_decide (bk_write sink = bk_write sink' /\ bk_user sink = bk_user sink') then sink_protocol calls None else None
    | None => None
    end
  end.

Lemma sink_protocol_app a b current : sink_protocol (a ++ b) current =
  match sink_protocol a current with Some mid => sink_protocol b mid | None => None end.
Proof.
  revert current. induction a as [|call a IH]; intros current; [done|]. destruct call as [sink|sink data|sink status]; cbn.
  - destruct current; [done|apply IH].
  - destruct current; [|done]. case_bool_decide; [apply IH|done].
  - destruct current; [|done]. case_bool_decide; [apply IH|done].
Qed.

(** Routes that open a sink close it: the registration of routes demands it. *)
Definition routes_close : Prop :=
  forall route, route ∈ su_routes setup -> is_none (rr_body_open route) = is_none (rr_body_close route).

Record sinks_ok (st : state) : Prop := {
  sk_admitted : forall route, rs_admitted_route st = Some route -> route ∈ su_routes setup;
  sk_calls : sink_protocol (rs_sink_calls st) None = Some (if rs_body_sink_open st then rs_body_sink st else None);
  sk_open : rs_body_sink_open st = true -> exists route sink close, rs_body_route st = Some route /\ rs_body_sink st = Some sink /\
    rr_body_close route = Some close;
}.

Inductive request_op :=
  | OpAdmit (request : server_request) (method now : Z)
  | OpReject
  | OpBodyOpen (request : server_request) (now : Z)
  | OpBodyWrite (data : list Z) (now : Z)
  | OpBodyClose (status : salts_status) (now : Z)
  | OpDispatch (request : server_request) (clock : dispatch_clock)
  | OpAdmissionClear
  | OpStateReset (now : Z).

Definition request_step (st : state) (op : request_op) : option state :=
  match op with
  | OpAdmit request method now => fst <$> chttp_server_request_admit setup st request method now
  | OpReject => Some (chttp_server_request_rejection_response st).1
  | OpBodyOpen request now => Some (chttp_server_request_body_open st request now).1
  | OpBodyWrite data now => Some (chttp_server_request_body_write st data now).1
  | OpBodyClose status now => Some (chttp_server_request_body_close st status now)
  | OpDispatch request clock => Some (chttp_server_dispatch_request setup st request clock).1
  | OpAdmissionClear => Some (chttp_server_request_admission_clear st)
  | OpStateReset now => Some (chttp_server_request_state_reset st now)
  end.

Fixpoint request_run (st : state) (ops : list request_op) : option state :=
  match ops with
  | [] => Some st
  | op :: ops => match request_step st op with Some st => request_run st ops | None => None end
  end.

(** A step that leaves the sink and the route alone. *)
Definition sink_same (st st' : state) : Prop :=
  rs_admitted_route st' = rs_admitted_route st /\ rs_sink_calls st' = rs_sink_calls st /\
  rs_body_sink_open st' = rs_body_sink_open st /\ rs_body_sink st' = rs_body_sink st /\ rs_body_route st' = rs_body_route st.

Lemma sinks_ok_same st st' : sinks_ok st -> sink_same st st' -> sinks_ok st'.
Proof. intros [H1 H2 H3] (E1 & E2 & E3 & E4 & E5). constructor; rewrite ?E1, ?E2, ?E3, ?E4, ?E5; done. Qed.

Lemma sink_same_trans st1 st2 st3 : sink_same st1 st2 -> sink_same st2 st3 -> sink_same st1 st3.
Proof. intros (? & ? & ? & ? & ?) (? & ? & ? & ? & ?). unfold sink_same. split_and!; congruence. Qed.

Lemma same_call st call : sink_same st (st <| rs_call := call |>).
Proof. done. Qed.

Lemma same_reset st : sink_same st (reset_response st).
Proof. unfold reset_response. by destruct (chttp_server_response_builder_reset _ _). Qed.

Lemma same_close st status : sink_same st (close_response_source st status).
Proof. unfold close_response_source. by destruct (chttp_server_response_builder_close_source _ _ _). Qed.

Lemma same_abort st : sink_same st (session_abort setup st).
Proof. unfold session_abort. by destruct (chttp_session_request_abort _ _ _). Qed.

Lemma same_begin st request now : sink_same st (session_begin setup st request now).
Proof. unfold session_begin. by destruct (chttp_session_request_begin _ _ _ _ _). Qed.

Lemma same_reply st code type body : sink_same st (reply_call st code type body).1.
Proof. unfold reply_call. by destruct (chttp_server_reply_to _ _ _ _). Qed.

Lemma same_finish st now : sink_same st (session_finish setup st now).1.
Proof. unfold session_finish. by destruct (chttp_session_request_finish _ _ _ _ _ _) as [[[? ?] ?] ?]. Qed.

Lemma same_dispatch_finish st status now : sink_same st (dispatch_finish setup st status now).1.
Proof.
  unfold dispatch_finish. set (r1 := if bool_decide (status = SALTS_OK) && _ then _ else _).
  assert (sink_same st r1.1) as H1 by (subst r1; split_if; [apply same_reply|done]). clearbody r1. destruct r1 as [st1 status1]. cbn [fst] in H1.
  set (r2 := if bool_decide (status1 = SALTS_OK) then _ else _).
  assert (sink_same st r2.1) as H2 by (subst r2; split_if; [eapply sink_same_trans; [exact H1|apply same_finish]|done]).
  clearbody r2. destruct r2 as [st2 status2]. cbn [fst] in H2. split_if; [|done].
  eapply sink_same_trans; [exact H2|]. eapply sink_same_trans; [apply same_abort|].
  eapply sink_same_trans; [|apply same_reply]. eapply sink_same_trans; [|apply same_reset]. done.
Qed.

Lemma same_dispatch st request clock : sink_same st (chttp_server_dispatch_request setup st request clock).1.
Proof.
  unfold chttp_server_dispatch_request. destruct (negb (rs_admission_complete st) || _); [done|].
  destruct (chttp_server_deadline_expired st _); [done|]. cbv zeta.
  assert (sink_same st (dispatch_begin setup st request clock)) as H0.
  { unfold dispatch_begin. eapply sink_same_trans; [|apply same_begin]. eapply sink_same_trans; [|apply same_reset].
    unfold chttp_server_deadline_start. by split_if. }
  set (st0 := dispatch_begin setup st request clock) in *. clearbody st0. destruct (chttp_server_chain_run _ _ _) as [call status].
  split_if; [destruct (negb (bool_decide (status = SALTS_OK))); exact H0|]. split_if.
  - cbn [fst]. eapply sink_same_trans; [|apply same_reset]. eapply sink_same_trans; [|apply same_close].
    eapply sink_same_trans; [|apply same_abort]. exact H0.
  - eapply sink_same_trans; [|apply same_dispatch_finish]. exact H0.
Qed.

Lemma same_reject st : sink_same st (chttp_server_request_rejection_response st).1.
Proof.
  unfold chttp_server_request_rejection_response. split_if.
  - by destruct (chttp_jwt_bearer_unauthorized_response _ _) as [[? ?] ?].
  - destruct (if negb _ then _ else _) as [call status]. split_if; [|done]. by destruct (chttp_server_reply_to _ _ _ _).
Qed.

Lemma same_admit_hook st request : sink_same st (admit_hook setup st request).1.
Proof.
  unfold admit_hook. destruct (su_admission setup); [|done]. cbv zeta. destruct (admission_fn _ _ _) as [[? result] status].
  by destruct (admission_invalid status result).
Qed.

Lemma same_admit_checks st request now : sink_same st (admit_checks setup st request now).1.
Proof.
  unfold admit_checks. destruct (admission_validator _ _); [|apply same_admit_hook].
  destruct (chttp_jwt_bearer_request_validate _ _ _ _) as [claims status]. cbv zeta. split_if; [done|].
  eapply sink_same_trans; [|apply same_admit_hook]. done.
Qed.

Lemma admit_sinks st request method now st' : sinks_ok st ->
  fst <$> chttp_server_request_admit setup st request method now = Some st' -> sinks_ok st'.
Proof.
  intros [H1 H2 H3]. unfold chttp_server_request_admit. split_if; [by intros [= <-]|]. cbv zeta.
  destruct (chttp_server_route_find _ _ _ _ _) as [[[[params index] allowed] route_status]|]; [|done].
  set (route := match index with Some i => su_routes setup !! i | None => None end).
  assert (forall r, route = Some r -> r ∈ su_routes setup) as Hroute.
  { intros r. subst route. destruct index; [|done]. intros Hi. by eapply list_elem_of_lookup_2. }
  assert (forall x : state * salts_status, fst <$> Some x = Some st' -> sinks_ok x.1 -> sinks_ok st') as Hstep by (intros x [= <-]; done).
  clearbody route. destruct (bool_decide (route_status = SALTS_ENOBUFS)); [|destruct (bool_decide (route_status = SALTS_OK)); cbn [negb]];
    intros E; apply (Hstep _ E); clear E; [| |by constructor]; (eapply sinks_ok_same; [|apply same_admit_checks]); by constructor.
Qed.

Lemma body_open_sinks st request now : routes_close -> sinks_ok st -> sinks_ok (chttp_server_request_body_open st request now).1.
Proof.
  intros Hr Hst. pose proof Hst as [H1 H2 H3]. unfold chttp_server_request_body_open. split_if; [done|]. split_if; [done|]. split_if; [done|].
  assert (sinks_ok (st <| rs_body_route := None |> <| rs_body_sink := None |> <| rs_body_sink_user := None |> <| rs_body_was_streamed := false |>)) as Hst0.
  { constructor; cbn; try done; rewrite Heqb0 in *; done. }
  cbv zeta. change (rs_admitted_route (_ <| rs_body_was_streamed := false |>)) with (rs_admitted_route st).
  destruct (rs_admitted_route st) as [route|] eqn:Er; [|exact Hst0]. destruct (rr_body_open route) as [body_open|] eqn:Eo; [|exact Hst0].
  destruct (body_open_fn _ _ _ _) as [app [sink|status]]; [|by eapply sinks_ok_same; [exact Hst0|]].
  destruct (bk_write sink) as [write|] eqn:Ew; cbn [is_none]; [|by eapply sinks_ok_same; [exact Hst0|]].
  cbn [fst]. constructor; cbn; [by rewrite Er| |].
  - by rewrite sink_protocol_app, H2.
  - intros _. specialize (Hr route (H1 route eq_refl)). rewrite Eo in Hr. destruct (rr_body_close route) as [close|] eqn:Ec; [|done].
    by exists route, sink, close.
Qed.

Lemma body_write_sinks st data now : sinks_ok st -> sinks_ok (chttp_server_request_body_write st data now).1.
Proof.
  intros Hst. pose proof Hst as [H1 H2 H3]. unfold chttp_server_request_body_write. split_if; [done|].
  destruct (rs_body_sink st) as [[[write|] user]|] eqn:Es; try done. split_if; [done|]. split_if; [done|].
  destruct (body_write_fn _ _ _ _) as [app status]. cbn [fst]. rewrite Heqb0 in *. constructor; cbn; rewrite ?Heqb0, ?Es; try done.
  rewrite sink_protocol_app, H2. cbn. rewrite bool_decide_true; [done|]. split_and!; try done. by intros ->.
Qed.

Lemma body_close_sinks st status now : sinks_ok st -> sinks_ok (chttp_server_request_body_close st status now) /\
  rs_body_sink_open (chttp_server_request_body_close st status now) = false.
Proof.
  intros Hst. pose proof Hst as [H1 H2 H3]. unfold chttp_server_request_body_close. split_if; [done|].
  destruct (H3 Heqb) as (route & sink & close & Er & Es & Ec). rewrite Er, Es, Ec. cbv zeta. rewrite Heqb, Es in H2.
  split; [|done]. constructor; cbn; try done. rewrite sink_protocol_app, H2. cbn. by rewrite bool_decide_true.
Qed.

Lemma request_step_sinks st op st' : routes_close -> sinks_ok st -> request_step st op = Some st' -> sinks_ok st'.
Proof.
  intros Hr Hst. destruct op; cbn [request_step].
  - by apply admit_sinks.
  - intros [= <-]. eapply sinks_ok_same; [exact Hst|apply same_reject].
  - intros [= <-]. by apply body_open_sinks.
  - intros [= <-]. by apply body_write_sinks.
  - intros [= <-]. by apply body_close_sinks.
  - intros [= <-]. eapply sinks_ok_same; [exact Hst|apply same_dispatch].
  - intros [= <-]. destruct Hst as [H1 H2 H3]. by constructor.
  - intros [= <-]. unfold chttp_server_request_state_reset. destruct (body_close_sinks st SALTS_ECANCELED now Hst) as [[H1 H2 H3] Ho].
    set (st1 := chttp_server_request_body_close st SALTS_ECANCELED now) in *. clearbody st1. cbv zeta.
    pose proof (same_reset ((chttp_server_request_admission_clear st1) <| rs_deadline_ms := 0 |>)) as (E1 & E2 & E3 & _).
    set (st2 := reset_response _) in *. clearbody st2. constructor; cbn; rewrite ?E1, ?E2, ?E3; cbn; rewrite ?Ho; try done.
    rewrite H2, Ho. done.
Qed.

(** C34: Over any sequence of admissions, dispatches, resets and body events, the
    sinks of the application are used in turn: each that was opened gets data only
    while it is open and is closed exactly once before the next, and a reset
    closes the one that is open. *)
Theorem body_sink_protocol ops st st' : routes_close -> rs_sink_calls st = [] -> rs_body_sink_open st = false ->
  rs_admitted_route st = None -> request_run st ops = Some st' ->
  sink_protocol (rs_sink_calls st') None = Some (if rs_body_sink_open st' then rs_body_sink st' else None) /\
  (forall now, rs_body_sink_open (chttp_server_request_state_reset st' now) = false /\
     sink_protocol (rs_sink_calls (chttp_server_request_state_reset st' now)) None = Some None).
Proof.
  intros Hr Hc Ho Ha Hrun. assert (sinks_ok st') as Hst'.
  { assert (sinks_ok st) as Hst by (constructor; rewrite ?Hc, ?Ho, ?Ha; done). clear Hc Ho Ha. revert st Hst Hrun.
    induction ops as [|op ops IH]; intros st Hst; cbn; [by intros [= <-]|].
    destruct (request_step st op) as [st1|] eqn:E; [|done]. apply IH. by eapply request_step_sinks. }
  split; [apply Hst'|]. intros now.
  pose proof (request_step_sinks st' (OpStateReset now) _ Hr Hst' eq_refl) as [_ Hcalls _].
  assert (rs_body_sink_open (chttp_server_request_state_reset st' now) = false) as Hclosed.
  { unfold chttp_server_request_state_reset. destruct (body_close_sinks st' SALTS_ECANCELED now Hst') as [_ Hopen].
    set (st1 := chttp_server_request_body_close st' SALTS_ECANCELED now) in *. clearbody st1. cbv zeta.
    pose proof (same_reset ((chttp_server_request_admission_clear st1) <| rs_deadline_ms := 0 |>)) as (_ & _ & E3 & _).
    set (st2 := reset_response _) in *. clearbody st2. cbn in *. congruence. }
  split; [done|]. by rewrite Hclosed in Hcalls.
Qed.

End Dispatch.

End RequestTheorems.

(** * Requests to a small server: the instances of the theorems *)

Module RequestExample.
Import Decimal HpackBuffer Router Http1Parser ServerBuffer RateLimit Session SessionTheorems
  Response ResponseTheorems ResponseWire Jwt JwtTheorems Middleware Cors CorsTheorems Interceptor InterceptorTheorems Request RequestTheorems.

#[local] Existing Instance unlimited_allocator.
#[local] Existing Instance one_token.

Definition set_then_reply (s : call_state unit) : call_state unit * salts_status :=
  then_header (s, SALTS_OK) (bytes_of "X-Page") (bytes_of "1").

(** Handler 1 answers; any other sets a header and fails. *)
#[local] Instance page_callbacks : Callbacks unit := {|
  middleware_fn fn request s := return_next s;
  handler_fn fn user request s :=
    let '(s, status) := set_then_reply s in
    if fn =? 1 then chttp_server_reply_to s 200 (Some (bytes_of "text/plain")) (bytes_of "hello") else (s, SALTS_EIO);
  admission_fn fn request app := (app, admission_zero, SALTS_OK);
  body_open_fn fn user request app := (app, Ok {| bk_write := Some 4; bk_user := 5 |});
  body_write_fn write user data app := (app, SALTS_OK);
  body_close_fn fn user sink status app := app;
|}.

#[local] Instance page_lawful : LawfulCallbacks SessionTheorems.example_config page_callbacks.
Proof.
  constructor.
  - intros fn request s Hs. by split.
  - intros fn user request s Hs. cbn [handler_fn page_callbacks]. unfold set_then_reply.
    pose proof (then_header_ok SessionTheorems.example_config (s, SALTS_OK) (bytes_of "X-Page") (bytes_of "1") Hs) as H1.
    destruct (then_header _ _ _) as [s1 st1]. destruct (fn =? 1); [by apply reply_to_ok|exact H1].
Qed.

Definition page_route (handler : Z) (validator : option Z) : chttp_server_route_record :=
  {| rr_method := CHTTP_METHOD_POST; rr_path := bytes_of "/page"; rr_middleware := [Some 3]; rr_param_count := 0;
     rr_handler := UserHandler handler; rr_user := 0; rr_body_open := Some 7; rr_body_close := Some 8;
     rr_jwt_bearer_validator := validator; rr_websocket_open := None; rr_websocket_event := None;
     rr_websocket_max_frame_bytes := 0; rr_websocket_max_message_bytes := 0;
     rr_websocket_max_buffered_input_bytes := 0; rr_websocket_user := 0; rr_websocket := false; rr_dynamic := false |}.

Definition page_setup (handler : Z) (validator : option Z) : server_setup :=
  {| su_routes := [page_route handler validator];
     su_route_config := {| sc_max_target_bytes := 100; sc_route_capacity := 4; sc_max_route_param_count := 4;
       sc_max_route_param_bytes := 64; sc_max_route_middleware_count := 2; sc_max_send_bytes := 4096 |};
     su_middleware := [CorsMiddleware site_policy]; su_sessions := SessionTheorems.example_config;
     su_deadlines := {| dl_headers_ms := 10; dl_body_ms := 20; dl_handler_ms := 30 |};
     su_validators := fun v => if v =? 9 then Some day_validator else None;
     su_jwt_bearer_validator := None; su_admission := Some 6 |}.

Definition page_state : chttp_server_request_state unit :=
  {| rs_call := {| cs_world := response_world; cs_response := wide_builder; cs_sessions := example_store;
                   cs_session := SessionTheorems.example_context; cs_app := tt |};
     rs_params := {| Router.rs_params := []; rs_param_storage_used := 0; rs_param_storage_capacity := 64 |};
     rs_jwt_claims := None; rs_admitted_route := None; rs_admitted_allowed_methods := 0; rs_admitted_fallback_status := 0;
     rs_admission_complete := false; rs_admission_rejected := false; rs_admission_result := admission_zero;
     rs_deadline_ms := 0; rs_body_route := None; rs_body_sink := None; rs_body_sink_user := None; rs_body_sink_open := false;
     rs_body_was_streamed := false;
     rs_stats := {| st_requests := 0; st_responses := 0; st_protocol_errors := 0; st_handler_errors := 0 |}; rs_sink_calls := [] |}.

Definition page_post : server_request :=
  {| sq_http_major := 1; sq_http_minor := 1; sq_method := CHTTP_METHOD_POST; sq_path := bytes_of "/page";
     sq_headers := [(bytes_of "Origin", bytes_of "https://a.example"); (bytes_of "Authorization", bytes_of "Bearer h.p.s")];
     sq_params := []; sq_body := []; sq_session := false; sq_jwt_claims := None; sq_body_sink_user := None |}.

Definition page_clock : dispatch_clock := {| dc_entry := 1; dc_start := 2; dc_session := 3; dc_return := 4; dc_finish := 5 |}.

(** The state after admission. *)
Definition page_admitted (handler : Z) (validator : option Z) : chttp_server_request_state unit :=
  match chttp_server_request_admit (page_setup handler validator) page_state page_post CHTTP_METHOD_POST 100 with
  | Some (st, _) => st
  | None => page_state
  end.

Lemma page_call_ok : call_ok SessionTheorems.example_config (rs_call page_state).
Proof.
  constructor.
  - exact wide_builder_wf.
  - eapply store_init_ok. exact example_store_init.
  - pose proof example_contexts_init as H. apply Forall_cons in H as [H _]. exact (context_init_ok SessionTheorems.example_config SessionTheorems.example_context H).
Qed.

Lemma page_admitted_call : call_ok SessionTheorems.example_config (rs_call (page_admitted 2 None)).
Proof.
  assert (rs_call (page_admitted 2 None) = rs_call page_state) as ->; [vm_compute; reflexivity|exact page_call_ok].
Qed.

(** A handler that fails after setting a header: the answer is the error page. *)
Lemma dispatch_correct_witness :
  let '(st, status) := chttp_server_dispatch_request (page_setup 2 None) (page_admitted 2 None) page_post page_clock in
  status = SALTS_OK /\ error_page (cs_response (rs_call st)).
Proof.
  destruct (chttp_server_dispatch_request (page_setup 2 None) (page_admitted 2 None) page_post page_clock) as [st status] eqn:E.
  assert (status = SALTS_OK) as -> by (vm_compute in E; injection E as _ <-; reflexivity). split; [reflexivity|].
  pose proof (dispatch_correct (page_setup 2 None) (page_admitted 2 None) page_post page_clock st SALTS_OK page_admitted_call E) as [_ H].
  vm_compute in E. apply (f_equal (fun x => rs_call x.1)) in E. clear -H E. cbv zeta in H.
  assert (negb (rs_admission_complete (page_admitted 2 None)) || rs_admission_rejected (page_admitted 2 None) = false) as E1 by (vm_compute; reflexivity).
  assert (chttp_server_deadline_expired (page_admitted 2 None) (dc_entry page_clock) = false) as E2 by (vm_compute; reflexivity).
  rewrite E1, E2 in H. destruct (chain_result _ _ _ _) as [call chain_status] eqn:Ec.
  assert (rb_deferred (cs_response call) = false /\ chain_status = SALTS_EIO) as [E3 E4].
  { vm_compute in Ec. injection Ec as <- <-. split; reflexivity. }
  assert (chttp_server_deadline_expired (dispatch_begin (page_setup 2 None) (page_admitted 2 None) page_post page_clock) (dc_return page_clock) = false) as E5
    by (vm_compute; reflexivity).
  rewrite E3, E5, E4 in H. destruct H as (_ & _ & H). unfold finished in H. rewrite bool_decide_false in H by discriminate.
  destruct H as (_ & _ & _ & H). apply H. reflexivity.
Defined.

Lemma admitted_request_authenticated_witness :
  exists token jwt, bearer_credentials (sq_headers page_post) token /\ token_accepted day_validator 100 jwt /\
    sq_jwt_claims (routed_request (page_setup 1 (Some 9)) (page_admitted 1 (Some 9)) page_post) = Some (claims_of jwt).
Proof.
  destruct (admitted_request_authenticated (page_setup 1 (Some 9)) page_state page_post CHTTP_METHOD_POST 100
    (page_admitted 1 (Some 9)) SALTS_OK 9 day_validator) as [[H _]|(token & jwt & Hb & _ & Ht & Hc)].
  - reflexivity.
  - vm_compute. reflexivity.
  - vm_compute. reflexivity.
  - reflexivity.
  - vm_compute. discriminate.
  - vm_compute. discriminate.
  - exfalso. specialize (H page_post page_clock). apply (f_equal snd) in H. vm_compute in H. discriminate.
  - exists token, jwt. split; [exact Hb|]. split; [exact Ht|apply Hc].
Defined.

Definition page_ops : list request_op :=
  [OpAdmit page_post CHTTP_METHOD_POST 100; OpBodyOpen page_post 1; OpBodyWrite (bytes_of "a") 2; OpBodyOpen page_post 3;
   OpBodyClose SALTS_OK 4; OpBodyClose SALTS_EIO 5; OpDispatch page_post page_clock; OpBodyOpen page_post 6].

Definition page_end : chttp_server_request_state unit :=
  match request_run (page_setup 1 None) page_state page_ops with Some st => st | None => page_state end.

Lemma body_sink_protocol_witness :
  sink_protocol (rs_sink_calls page_end) None = Some (Some {| bk_write := Some 4; bk_user := 5 |}) /\
  length (rs_sink_calls page_end) = 4%nat.
Proof.
  split; [|vm_compute; reflexivity].
  destruct (body_sink_protocol (page_setup 1 None) page_ops page_state page_end) as [H _].
  - intros route Hr. apply list_elem_of_singleton in Hr as ->. reflexivity.
  - reflexivity.
  - reflexivity.
  - reflexivity.
  - vm_compute. reflexivity.
  - rewrite H. vm_compute. reflexivity.
Defined.

End RequestExample.
