(* ===== verification/Connection.v ===== *)
(** * Responses of an HTTP/1 connection

    Model of the part of [http_server/src/chttp_server.c] that writes the
    responses of a connection of HTTP/1 to its outbound buffer: what the parser
    calls at the end of the headers, for [100 Continue] and for a request, and
    the pieces of a streamed body; and of the retained buffers of
    [http_common/http/chttp_cnet_retained.h].

    The outbound buffer is the bytes that wait in it together with its capacity,
    0 for [NULL].  The wrapper around it belongs to the memory library: its
    reference count is 1 unless the network holds it.  Clock readings are
    arguments.  A source is a function of the application; the sources that the
    server makes from files are not modelled. *)

From S2P Require Import Prelude Decimal HpackBuffer Router Http1Parser ServerBuffer RateLimit.
From S2P Require Import Session Response Jwt Middleware Cors Interceptor Request.

Module Connection.
Import Decimal HpackBuffer Router Http1Parser ServerBuffer RateLimit Session Response Jwt Middleware Cors
  Interceptor Request.

(** ** Retained buffers *)

Record mem_buffer := {
  mb_ref_count : Z;
  mb_capacity : Z;
  mb_used : Z;
}.

(** Whether [mem_wrap_external] makes a wrapper for so many bytes. *)
Class MemWrap := mem_wrap_external : Z -> bool.

Definition chttp_cnet_retained_idle (buffer : option mem_buffer) : bool :=
  match buffer with Some buffer => mb_ref_count buffer =? 1 | None => true end.

(** On storage that is not [NULL]; a wrapper of the server is always external. *)
Definition chttp_cnet_retained_bind {wrap : MemWrap} (slot : option mem_buffer) (capacity : Z) :
    option mem_buffer * salts_status :=
  if capacity =? 0 then (slot, SALTS_EINVAL)
  else
    match slot with
    | None =>
      if mem_wrap_external capacity
      then (Some {| mb_ref_count := 1; mb_capacity := capacity; mb_used := 0 |}, SALTS_OK)
      else (None, SALTS_ENOMEM)
    | Some buffer =>
      if negb (mb_ref_count buffer =? 1) then (slot, SALTS_EBUSY)
      else (Some {| mb_ref_count := mb_ref_count buffer; mb_capacity := capacity; mb_used := 0 |}, SALTS_OK)
    end.

Definition chttp_cnet_retained_release (slot : option mem_buffer) : option mem_buffer * salts_status :=
  match slot with
  | None => (None, SALTS_OK)
  | Some buffer => if negb (mb_ref_count buffer =? 1) then (slot, SALTS_EBUSY) else (None, SALTS_OK)
  end.

(** ** The connection *)

Definition CHTTP_SERVER_CHUNK_PREFIX_RESERVE : Z := 32.
Definition CHTTP_SERVER_CHUNK_TRAILER_BYTES : Z := 2.
Definition CHTTP_SERVER_CONTINUE_RESPONSE : list Z := bytes_of "HTTP/1.1 100 Continue" ++ CRLF ++ CRLF.

Inductive chttp_server_wire_protocol :=
  | CHTTP_SERVER_WIRE_UNKNOWN | CHTTP_SERVER_WIRE_HTTP_1_1 | CHTTP_SERVER_WIRE_HTTP_2.

#[export] Instance wire_protocol_eq_dec : EqDecision chttp_server_wire_protocol.
Proof. solve_decision. Defined.

(** The configuration of a server that its connections use. *)
Record connection_config := {
  cc_setup : server_setup;
  cc_max_send_bytes : Z;
  cc_max_response_wire_bytes : Z;
  cc_stream_chunk_bytes : Z;
  cc_tls_initialized : bool;
}.

Record chttp_server_connection (App : Type) := {
  cn_request_state : chttp_server_request_state App;
  cn_outbound : list Z;
  cn_outbound_capacity : Z;
  cn_outbound_retained : option mem_buffer;
  cn_wire_protocol : chttp_server_wire_protocol;
  cn_close_after_write : bool;
  cn_response_streaming : bool;
  cn_response_source_chunked : bool;
  cn_response_close_after_stream : bool;
  cn_retained_response_paused : bool;
  cn_retained_response_sg : bool;
  cn_retained_response_sg_body_size : Z;
}.
Arguments cn_request_state {App}.
Arguments cn_outbound {App}.
Arguments cn_outbound_capacity {App}.
Arguments cn_outbound_retained {App}.
Arguments cn_wire_protocol {App}.
Arguments cn_close_after_write {App}.
Arguments cn_response_streaming {App}.
Arguments cn_response_source_chunked {App}.
Arguments cn_response_close_after_stream {App}.
Arguments cn_retained_response_paused {App}.
Arguments cn_retained_response_sg {App}.
Arguments cn_retained_response_sg_body_size {App}.

#[export] Instance eta_connection App : Eta (chttp_server_connection App) :=
  fun c => Build_chttp_server_connection App (cn_request_state c) (cn_outbound c) (cn_outbound_capacity c)
    (cn_outbound_retained c) (cn_wire_protocol c) (cn_close_after_write c) (cn_response_streaming c)
    (cn_response_source_chunked c) (cn_response_close_after_stream c) (cn_retained_response_paused c)
    (cn_retained_response_sg c) (cn_retained_response_sg_body_size c).
#[export] Instance set_cn_request_state App : Setter (@cn_request_state App). Proof. mk_setter. Defined.
#[export] Instance set_cn_outbound App : Setter (@cn_outbound App). Proof. mk_setter. Defined.
#[export] Instance set_cn_outbound_capacity App : Setter (@cn_outbound_capacity App). Proof. mk_setter. Defined.
#[export] Instance set_cn_outbound_retained App : Setter (@cn_outbound_retained App). Proof. mk_setter. Defined.
#[export] Instance set_cn_close_after_write App : Setter (@cn_close_after_write App). Proof. mk_setter. Defined.
#[export] Instance set_cn_response_streaming App : Setter (@cn_response_streaming App). Proof. mk_setter. Defined.
#[export] Instance set_cn_response_source_chunked App : Setter (@cn_response_source_chunked App). Proof. mk_setter. Defined.
#[export] Instance set_cn_response_close_after_stream App : Setter (@cn_response_close_after_stream App). Proof. mk_setter. Defined.
#[export] Instance set_cn_retained_response_paused App : Setter (@cn_retained_response_paused App). Proof. mk_setter. Defined.
#[export] Instance set_cn_retained_response_sg App : Setter (@cn_retained_response_sg App). Proof. mk_setter. Defined.
#[export] Instance set_cn_retained_response_sg_body_size App : Setter (@cn_retained_response_sg_body_size App). Proof. mk_setter. Defined.
#[export] Instance set_st_responses : Setter st_responses. Proof. mk_setter. Defined.

(** The functions behind [source->read]: they are given the capacity and report
    a status and the bytes that they say they wrote. *)
Class BodySources (App : Type) := source_read : Z -> Z -> App -> App * salts_status * list Z.

Section Connections.
Context {App : Type} {alloc : Allocator} {wrap : MemWrap} {gmtime : Gmtime} {cjwt : Cjwt}
  {callbacks : Callbacks App} {sources : BodySources App} (config : connection_config).
Implicit Types c : chttp_server_connection App.

Definition cn_world c : world := cs_world (rs_call (cn_request_state c)).
Definition cn_builder c : chttp_server_response_builder := cs_response (rs_call (cn_request_state c)).

Definition with_world c (w : world) : chttp_server_connection App :=
  c <| cn_request_state := (cn_request_state c) <| rs_call :=
         (rs_call (cn_request_state c)) <| cs_world := w |> |> |>.

Definition with_builder c (b : chttp_server_response_builder) : chttp_server_connection App :=
  c <| cn_request_state := (cn_request_state c) <| rs_call :=
         (rs_call (cn_request_state c)) <| cs_response := b |> |> |>.

Definition with_budget c (budget : budget) : chttp_server_connection App :=
  with_world c {| w_budget := budget; w_cleanups := w_cleanups (cn_world c) |}.

(** ** The outbound buffer *)

(** The growth ends ([grow_plan_spec]), so that the last case does not occur. *)
Definition chttp_server_connection_reserve_outbound c (required : Z) :
    chttp_server_connection App * salts_status :=
  if negb (chttp_cnet_retained_idle (cn_outbound_retained c)) then (c, SALTS_EBUSY)
  else
    match chttp_server_buffer_grow (w_budget (cn_world c)) (cn_outbound_capacity c) required
            (cc_max_send_bytes config) (zlen (cn_outbound c)) with
    | Some (budget, status, capacity) =>
      let c := (with_budget c budget) <| cn_outbound_capacity := capacity |> in
      if negb (bool_decide (status = SALTS_OK)) then (c, status)
      else if capacity =? 0 then (c, SALTS_OK)
      else
        let '(slot, status) := chttp_cnet_retained_bind (cn_outbound_retained c) capacity in
        (c <| cn_outbound_retained := slot |>, status)
    | None => (c, SALTS_ENOBUFS)
    end.

Definition chttp_server_connection_release_outbound c : chttp_server_connection App :=
  if cn_outbound_capacity c =? 0 then c
  else
    let '(slot, status) := chttp_cnet_retained_release (cn_outbound_retained c) in
    let c := c <| cn_outbound_retained := slot |> in
    if negb (bool_decide (status = SALTS_OK)) then c
    else
      (with_budget c (chttp_server_buffer_release (w_budget (cn_world c)) (Some (cn_outbound_capacity c))))
        <| cn_outbound_capacity := 0 |>.

Definition chttp_server_stats_response c : chttp_server_connection App :=
  let stats := rs_stats (cn_request_state c) in
  c <| cn_request_state := (cn_request_state c) <| rs_stats := stats <| st_responses := u64 (st_responses stats + 1) |> |> |>.

(** The request of the parser for the callbacks. *)
Definition server_request_of (request : chttp_server_request_view) (headers : list (list Z * list Z)) :
    server_request :=
  {| sq_http_major := rv_http_major request; sq_http_minor := rv_http_minor request;
     sq_method := rv_method request; sq_path := rv_path request; sq_headers := headers; sq_params := [];
     sq_body := ztake (rv_body_size request) (rv_body request); sq_session := false; sq_jwt_claims := None;
     sq_body_sink_user := None |}.

(** ** The end of the headers *)

(** The times at which the deadline is read and starts, the seconds for the
    tokens, and the milliseconds for the date. *)
Record headers_clock := {
  hc_entry : Z;
  hc_start : Z;
  hc_seconds : Z;
  hc_date_ms : Z;
}.

Definition reserve_then c (required : Z) (next : chttp_server_connection App -> chttp_server_connection App * salts_status) :
    chttp_server_connection App * salts_status :=
  let '(c, status) := chttp_server_connection_reserve_outbound c required in
  if bool_decide (status = SALTS_OK) then next c else (c, status).

(** The answer to a request that was not admitted. *)
Definition headers_rejection c (request : chttp_server_request_view) (clock : headers_clock) :
    chttp_server_connection App * salts_status :=
  let request := request <| rv_protocol_keep_alive := false |> in
  let '(state, status) :=
    chttp_server_request_rejection_response ((cn_request_state c) <| rs_deadline_ms := 0 |>) in
  let c := c <| cn_request_state := state |> in
  if negb (bool_decide (status = SALTS_OK)) then (c, status)
  else
    reserve_then c (zlen (cn_outbound c) + cc_max_response_wire_bytes config) (fun c =>
      let '(outbound, status) :=
        chttp_server_response_serialize (cn_builder c) request (hc_date_ms clock) (cn_outbound_capacity c)
          (cn_outbound c) in
      (c <| cn_outbound := outbound |>, status)).

(** The search for a route ends, so that the last case does not occur. *)
Definition chttp_server_on_headers c (request : chttp_server_request_view) (headers : list (list Z * list Z))
    (clock : headers_clock) : chttp_server_connection App * salts_status * headers_action :=
  let state := cn_request_state c in
  if chttp_server_deadline_expired state (hc_entry clock) then (c, SALTS_ETIMEDOUT, HeadersContinue)
  else
    let state :=
      chttp_server_deadline_start state (dl_body_ms (su_deadlines (cc_setup config))) (hc_start clock) in
    let state := reset_response (chttp_server_request_admission_clear state) in
    match chttp_server_request_admit (cc_setup config) state (server_request_of request headers)
            (rv_method request) (hc_seconds clock) with
    | None => (c <| cn_request_state := state |>, SALTS_EINVAL, HeadersContinue)
    | Some (state, status) =>
      let c := c <| cn_request_state := state |> in
      if bool_decide (status = SALTS_OK) then (c, SALTS_OK, HeadersContinue)
      else if negb (bool_decide (status = SALTS_EPERM)) then (c, status, HeadersContinue)
      else
        let '(c, status) := headers_rejection c request clock in
        if negb (bool_decide (status = SALTS_OK)) then (c, status, HeadersContinue)
        else ((chttp_server_stats_response c) <| cn_close_after_write := true |>, SALTS_OK, HeadersStop)
    end.

Definition chttp_server_on_continue c : chttp_server_connection App * salts_status :=
  reserve_then c (zlen (cn_outbound c) + zlen CHTTP_SERVER_CONTINUE_RESPONSE) (fun c =>
    if (cn_outbound_capacity c <? zlen (cn_outbound c)) ||
       (cn_outbound_capacity c - zlen (cn_outbound c) <? zlen CHTTP_SERVER_CONTINUE_RESPONSE)
    then (c, SALTS_EMSGSIZE)
    else (c <| cn_outbound := cn_outbound c ++ CHTTP_SERVER_CONTINUE_RESPONSE |>, SALTS_OK)).

(** ** A request *)

(** Whether the body goes out by itself, next to the buffer. *)
Definition retained_sg c (request : chttp_server_request_view) : bool :=
  let b := cn_builder c in
  match rb_retained_body b with Some _ => true | None => false end && negb (rb_body_size b =? 0) &&
  negb (rv_method request =? CHTTP_METHOD_HEAD) &&
  bool_decide (cn_wire_protocol c = CHTTP_SERVER_WIRE_HTTP_1_1) && negb (cc_tls_initialized config).

(** The response in the buffer. *)
Definition request_serialize c (request : chttp_server_request_view) (now_ms : Z) :
    chttp_server_connection App * salts_status :=
  let sg := retained_sg c request in
  let serialize :=
    if sg then chttp_server_response_serialize_headers else chttp_server_response_serialize in
  let '(outbound, status) :=
    serialize (cn_builder c) request now_ms (cn_outbound_capacity c) (cn_outbound c) in
  let c := c <| cn_outbound := outbound |> in
  if bool_decide (status = SALTS_OK) then
    (if sg then c <| cn_retained_response_sg := true |>
                  <| cn_retained_response_sg_body_size := rb_body_size (cn_builder c) |>
     else c, SALTS_OK)
  else
    (c <| cn_retained_response_sg := false |> <| cn_retained_response_sg_body_size := 0 |>
       <| cn_request_state := session_abort (cc_setup config) (cn_request_state c) |>, status).

Definition close_builder_source c (status : salts_status) : chttp_server_connection App :=
  c <| cn_request_state := close_response_source (cn_request_state c) status |>.

(** What follows a response that was written. *)
Definition request_answered c (request : chttp_server_request_view) :
    chttp_server_connection App * request_result :=
  let c := chttp_server_stats_response c in
  let b := cn_builder c in
  if rb_source_enabled b && negb (rv_method request =? CHTTP_METHOD_HEAD) then
    let chunked := negb (source_length_known b) && (rv_http_major request =? 1) && (rv_http_minor request =? 1) in
    (c <| cn_response_streaming := true |> <| cn_response_source_chunked := chunked |>
       <| cn_response_close_after_stream :=
            negb (rv_protocol_keep_alive request) || (negb (source_length_known b) && negb chunked) |>,
     RequestStatus SALTS_OK)
  else
    let c := if rb_source_enabled b then close_builder_source c SALTS_OK else c in
    let c := if negb (rv_protocol_keep_alive request) then c <| cn_close_after_write := true |> else c in
    if match rb_retained_body (cn_builder c) with Some _ => true | None => false end &&
       bool_decide (cn_wire_protocol c = CHTTP_SERVER_WIRE_HTTP_1_1)
    then (c <| cn_retained_response_paused := true |>, RequestDeferred)
    else (c, RequestStatus SALTS_OK).

Definition chttp_server_on_request c (request : chttp_server_request_view) (headers : list (list Z * list Z))
    (clock : dispatch_clock) (date_ms : Z) : chttp_server_connection App * request_result :=
  if cn_close_after_write c then (c, RequestStatus SALTS_ESHUTDOWN)
  else if (cc_max_send_bytes config <? zlen (cn_outbound c)) ||
     (cc_max_send_bytes config - zlen (cn_outbound c) <? cc_max_response_wire_bytes config)
  then (c, RequestStatus SALTS_ENOBUFS)
  else
    let '(state, status) :=
      chttp_server_dispatch_request (cc_setup config) (cn_request_state c) (server_request_of request headers)
        clock in
    let c := c <| cn_request_state := state |> in
    if negb (bool_decide (status = SALTS_OK)) then (c, RequestStatus status)
    else if rb_deferred (cn_builder c) then (c, RequestDeferred)
    else
      let '(c, status) :=
        reserve_then c (zlen (cn_outbound c) + cc_max_response_wire_bytes config)
          (fun c => request_serialize c request date_ms) in
      if negb (bool_decide (status = SALTS_OK)) then (c, RequestStatus status) else request_answered c request.

(** ** The pieces of a streamed body *)

Definition chttp_server_response_stream_finish c (status : salts_status) :
    chttp_server_connection App * salts_status :=
  let c := (close_builder_source c status) <| cn_response_streaming := false |> in
  (if bool_decide (status = SALTS_OK)
   then c <| cn_close_after_write := cn_response_close_after_stream c |> else c, status).

(** A size in hexadecimal digits. *)
Fixpoint hex_loop (fuel : nat) (n : Z) (digits : list Z) : list Z :=
  match fuel with
  | O => digits
  | S fuel =>
    let digits := hex_digit (n mod 16) :: digits in
    if n <? 16 then digits else hex_loop fuel (n / 16) digits
  end.

Definition hex_size (n : Z) : list Z := hex_loop 16 n [].

Definition FINAL_CHUNK : list Z := bytes_of "0" ++ CRLF ++ CRLF.

(** The bytes that the source gave, [remaining] being what it may still give. *)
Definition stream_piece c (known : bool) (remaining capacity : Z) (piece : list Z) :
    chttp_server_connection App * salts_status :=
  let size := zlen piece in
  if capacity <? size then chttp_server_response_stream_finish c SALTS_EPROTO
  else if known && (remaining =? 0) then
    chttp_server_response_stream_finish c (if size =? 0 then SALTS_OK else SALTS_EPROTO)
  else if known && (size =? 0) then chttp_server_response_stream_finish c SALTS_EPROTO
  else if negb known && (remaining =? 0) && negb (size =? 0) then
    chttp_server_response_stream_finish c SALTS_EMSGSIZE
  else if size =? 0 then
    chttp_server_response_stream_finish
      (if cn_response_source_chunked c then c <| cn_outbound := FINAL_CHUNK |> else c) SALTS_OK
  else
    let b := cn_builder c in
    let c := with_builder c (b <| rb_source_transferred := rb_source_transferred b + size |>) in
    if cn_response_source_chunked c then
      let prefix := hex_size size ++ CRLF in
      if CHTTP_SERVER_CHUNK_PREFIX_RESERVE <=? zlen prefix then
        chttp_server_response_stream_finish c SALTS_EMSGSIZE
      else (c <| cn_outbound := prefix ++ piece ++ CRLF |>, SALTS_OK)
    else (c <| cn_outbound := piece |>, SALTS_OK).

(** The room for a piece of a body, and what the source may still give. *)
Definition stream_room c (source : chttp_body_source) : outcome (Z * Z) :=
  let b := cn_builder c in
  let room := cn_outbound_capacity c in
  if cn_response_source_chunked c &&
     (room <=? CHTTP_SERVER_CHUNK_PREFIX_RESERVE + CHTTP_SERVER_CHUNK_TRAILER_BYTES) then Err SALTS_EMSGSIZE
  else
    let room :=
      if cn_response_source_chunked c
      then room - (CHTTP_SERVER_CHUNK_PREFIX_RESERVE + CHTTP_SERVER_CHUNK_TRAILER_BYTES) else room in
    let room := if cc_stream_chunk_bytes config <? room then cc_stream_chunk_bytes config else room in
    let limit := if bs_content_length_known source then bs_content_length source else rb_source_capacity b in
    if limit <? rb_source_transferred b then
      Err (if bs_content_length_known source then SALTS_EPROTO else SALTS_EMSGSIZE)
    else
      let remaining := limit - rb_source_transferred b in
      let room := if negb (remaining =? 0) && (remaining <? room) then remaining else room in
      Ok (remaining, if room =? 0 then 1 else room).

Definition stream_read c : chttp_server_connection App * salts_status :=
  let b := cn_builder c in
  match rb_body_source b with
  | Some source =>
    if negb (rb_source_enabled b) then chttp_server_response_stream_finish c SALTS_EPROTO
    else
      match stream_room c source with
      | Err status => chttp_server_response_stream_finish c status
      | Ok (remaining, room) =>
        let '(app, status, piece) := source_read (bs_read source) room (cs_app (rs_call (cn_request_state c))) in
        let c := c <| cn_request_state := set_app (cn_request_state c) app |> in
        if negb (bool_decide (status = SALTS_OK)) then chttp_server_response_stream_finish c status
        else stream_piece c (bs_content_length_known source) remaining room piece
      end
  | None => chttp_server_response_stream_finish c SALTS_EPROTO
  end.

Definition chttp_server_response_stream_next c : chttp_server_connection App * salts_status :=
  if negb (cn_response_streaming c) || negb (zlen (cn_outbound c) =? 0) then (c, SALTS_EINVAL)
  else
    let '(c, status) :=
      chttp_server_connection_reserve_outbound c
        (cc_stream_chunk_bytes config + CHTTP_SERVER_CHUNK_PREFIX_RESERVE + CHTTP_SERVER_CHUNK_TRAILER_BYTES) in
    if negb (bool_decide (status = SALTS_OK)) then chttp_server_response_stream_finish c status
    else stream_read c.

End Connections.

Arguments chttp_server_connection : clear implicits.

End Connection.
