(* ===== verification/ConnectionTheorems.v ===== *)
(** * Theorems about the responses of a connection

    Streamed bodies on the wire, and the messages that answer the requests which
    arrive together. *)

From S2P Require Import Prelude Decimal HpackBuffer Router Http1Parser ServerBuffer RateLimit Session SessionTheorems.
From S2P Require Import Response ResponseTheorems ResponseWire Jwt Middleware Cors Interceptor Request RequestTheorems.
From S2P Require Import Connection JwtTheorems CorsTheorems.

Module ConnectionTheorems.
Import Decimal HpackBuffer Router Http1Parser ServerBuffer RateLimit Session SessionTheorems Response ResponseTheorems
  ResponseWire Jwt Middleware Cors Interceptor Request RequestTheorems Connection.

(** ** The chunked coding *)

Definition hex_value (d : Z) : option Z :=
  if (48 <=? d) && (d <=? 57) then Some (d - 48)
  else if (97 <=? d) && (d <=? 102) then Some (d - 87) else None.

Definition hex_step (value : option Z) (d : Z) : option Z :=
  match value, hex_value d with Some v, Some d => Some (v * 16 + d) | _, _ => None end.

(** The value of a line of hexadecimal digits. *)
Definition hex_number (line : list Z) : option Z :=
  match line with [] => None | _ => foldl hex_step (Some 0) line end.

(** A reader of chunks: the data, and what follows the last chunk. *)
Fixpoint read_chunks (fuel : nat) (s : list Z) : option (list Z * list Z) :=
  match fuel with
  | O => None
  | S fuel =>
    match read_line s with
    | None => None
    | Some (line, rest) =>
      match hex_number line with
      | None => None
      | Some size =>
        if size =? 0 then match read_line rest with Some ([], rest) => Some ([], rest) | _ => None end
        else if zlen rest <? size then None
        else
          match read_line (zdrop size rest) with
          | Some ([], next) => (fun '(data, after) => (ztake size rest ++ data, after)) <$> read_chunks fuel next
          | _ => None
          end
      end
    end
  end.

Lemma hex_digit_value n : 0 <= n < 16 -> hex_value (hex_digit n) = Some n /\ clean (hex_digit n) = true.
Proof.
  intros Hn. unfold hex_value, hex_digit, clean, CR, LF. destruct (n <? 10) eqn:E.
  - rewrite (proj2 (Z.leb_le 48 _)), (proj2 (Z.leb_le _ 57)), !(proj2 (Z.eqb_neq _ _)) by lia. cbn. split; [f_equal; lia|done].
  - rewrite (proj2 (Z.leb_gt _ 57)), andb_false_r, (proj2 (Z.leb_le 97 _)), (proj2 (Z.leb_le _ 102)), !(proj2 (Z.eqb_neq _ _)) by lia.
    cbn. split; [f_equal; lia|done].
Qed.

Lemma hex_loop_number fuel : forall n digits, 0 <= n < 16 ^ Z.of_nat fuel -> (0 < fuel)%nat ->
  exists front, hex_loop fuel n digits = front ++ digits /\ front <> [] /\ forallb clean front = true /\
    foldl hex_step (Some 0) front = Some n.
Proof.
  induction fuel as [|fuel IH]; intros n digits Hn Hf; [lia|]. cbn [hex_loop]. cbv zeta.
  destruct (hex_digit_value (n mod 16)) as [Hv Hc]; [apply Z.mod_pos_bound; lia|]. split_if.
  - exists [hex_digit (n mod 16)]. cbn [app foldl hex_step forallb]. rewrite Hc. unfold hex_step. rewrite Hv, Z.mod_small by lia.
    split_and!; done.
  - rewrite Nat2Z.inj_succ, Z.pow_succ_r in Hn by lia. destruct fuel as [|fuel]; [cbn in *; lia|].
    destruct (IH (n / 16) (hex_digit (n mod 16) :: digits)) as (front & -> & Hne & Hcl & Hnum); [|lia|].
    { split; [apply Z.div_pos; lia|apply Z.div_lt_upper_bound; lia]. }
    exists (front ++ [hex_digit (n mod 16)]). rewrite <- app_assoc, foldl_app, Hnum, forallb_app, Hcl. cbn [foldl forallb app]. rewrite Hc.
    unfold hex_step. rewrite Hv. split_and!; try done; [by destruct front|]. f_equal. pose proof (Z.div_mod n 16 ltac:(lia)). lia.
Qed.

Lemma hex_size_number n : 0 <= n <= SIZE_MAX -> hex_number (hex_size n) = Some n /\ forallb clean (hex_size n) = true.
Proof.
  intros Hn. destruct (hex_loop_number 16 n []) as (front & E & Hne & Hc & Hv); [unfold SIZE_MAX in Hn; cbn; lia|lia|].
  unfold hex_size. rewrite E, app_nil_r. split; [|done]. by destruct front.
Qed.

Definition chunk (piece : list Z) : list Z := hex_size (zlen piece) ++ CRLF ++ piece ++ CRLF.

Lemma read_chunks_framed pieces : forall fuel rest, Forall (fun piece => 1 <= zlen piece <= SIZE_MAX) pieces -> (length pieces < fuel)%nat ->
  read_chunks fuel (concat (map chunk pieces) ++ FINAL_CHUNK ++ rest) = Some (concat pieces, rest).
Proof.
  induction pieces as [|piece pieces IH]; intros fuel rest Hp Hf; (destruct fuel as [|fuel]; [lia|]).
  - cbn [map concat app]. done.
  - apply Forall_cons_1 in Hp as [Hz Hp]. destruct (hex_size_number (zlen piece)) as [Hn Hc]; [lia|].
    cbn [map concat]. unfold chunk at 1. rewrite <- !app_assoc. cbn [read_chunks]. rewrite read_line_clean by done. rewrite Hn.
    rewrite (proj2 (Z.eqb_neq _ 0)) by lia. rewrite zlen_app, (proj2 (Z.ltb_ge _ _)), zdrop_app by (match goal with |- context [zlen piece + zlen ?l] => pose proof (zlen_nonneg l) end; lia).
    change (read_line (CRLF ++ concat (map chunk pieces) ++ FINAL_CHUNK ++ rest)) with (Some (@nil Z, concat (map chunk pieces) ++ FINAL_CHUNK ++ rest)).
    cbv iota. rewrite IH by (try done; cbn in Hf; lia). cbn [fmap option_fmap option_map]. by rewrite ztake_app.
Qed.

Section Connections.
Context {App : Type} {alloc : Allocator} {wrap : MemWrap} {gmtime : Gmtime} {cjwt : Cjwt}
  {callbacks : Callbacks App} {sources : BodySources App} (config : connection_config).
Implicit Types c : chttp_server_connection App.

(** ** The outbound buffer *)

Lemma with_budget_same c : with_budget c (w_budget (cn_world c)) = c.
Proof. by destruct c as [[[[? ?] ? ? ? ?]]]. Qed.

Lemma grow_facts b capacity required limit preserve : 0 <= capacity -> limit <= SIZE_MAX ->
  exists b' status capacity', chttp_server_buffer_grow b capacity required limit preserve = Some (b', status, capacity') /\
    capacity <= capacity' /\ (capacity' = capacity \/ capacity' <= limit) /\
    (status = SALTS_OK -> preserve <= capacity' /\ required <= capacity' /\ required <= limit).
Proof.
  intros Hc Hl. unfold chttp_server_buffer_grow.
  assert (forall r, grow_plan capacity required limit preserve = Some r ->
    r = PlanDone SALTS_EINVAL \/ r = PlanDone SALTS_EMSGSIZE \/ required <= limit) as Hreq.
  { unfold grow_plan. intros r. split_if; [intros [= <-]; auto|]. split_if; [intros [= <-]; auto|]. right. right. lia. }
  destruct (grow_plan_spec capacity required limit preserve Hc Hl) as ([status|desired] & Hp & Hr); rewrite Hp; specialize (Hreq _ Hp).
  - exists b, status, capacity. split_and!; try done; [by left|]. intros ->. destruct Hreq as [?|[?|?]]; [done|done|]. lia.
  - destruct (chttp_server_buffer_reserve b (desired - capacity)) as [b1 reserved]. destruct Hreq as [?|[?|?]]; [done|done|].
    destruct reserved; cbn [negb]; [|eexists _, _, _; split_and!; try done; by left].
    destruct (malloc_ok desired); cbn [negb]; eexists _, _, _; (split_and!; [done|lia| |intros ?; try done; lia]); lia.
Qed.

(** A reservation changes the buffer, its wrapper and the counters of the
    budget only. *)
Definition same_but_buffer c c' : Prop :=
  exists budget capacity slot,
    c' = (with_budget c budget) <| cn_outbound_capacity := capacity |> <| cn_outbound_retained := slot |>.

Lemma reserve_spec c required : 0 <= cn_outbound_capacity c -> cc_max_send_bytes config <= SIZE_MAX ->
  let '(c', status) := chttp_server_connection_reserve_outbound config c required in
  same_but_buffer c c' /\ cn_outbound_capacity c <= cn_outbound_capacity c' /\
  (cn_outbound_capacity c' = cn_outbound_capacity c \/ cn_outbound_capacity c' <= cc_max_send_bytes config) /\
  (status = SALTS_OK -> zlen (cn_outbound c) <= cn_outbound_capacity c' /\ required <= cn_outbound_capacity c' /\
   required <= cc_max_send_bytes config).
Proof.
  intros Hc Hm. unfold chttp_server_connection_reserve_outbound.
  assert (same_but_buffer c c) as Hself.
  { exists (w_budget (cn_world c)), (cn_outbound_capacity c), (cn_outbound_retained c). rewrite with_budget_same. by destruct c. }
  split_if; [split_and!; try done; by left|].
  destruct (grow_facts (w_budget (cn_world c)) (cn_outbound_capacity c) required (cc_max_send_bytes config) (zlen (cn_outbound c)) Hc Hm)
    as (b & status & capacity & -> & H1 & H2 & H3). cbv zeta.
  destruct (bool_decide (status = SALTS_OK)) eqn:Es; cbn [negb].
  2:{ apply bool_decide_eq_false in Es. split_and!; [exists b, capacity, (cn_outbound_retained c); by destruct c|done|done|done]. }
  apply bool_decide_eq_true in Es. specialize (H3 Es). split_if; [split_and!; [exists b, capacity, (cn_outbound_retained c); by destruct c|done|done|done]|].
  destruct (chttp_cnet_retained_bind _ capacity) as [slot st]. split_and!; [by exists b, capacity, slot|done|done|done].
Qed.

(** ** Streamed bodies *)

Definition PIECE_RESERVE : Z :=
  cc_stream_chunk_bytes config + CHTTP_SERVER_CHUNK_PREFIX_RESERVE + CHTTP_SERVER_CHUNK_TRAILER_BYTES.

(** The buffer is empty, large enough, and the network does not hold it. *)
Record stream_ready c : Prop := {
  sr_streaming : cn_response_streaming c = true;
  sr_outbound : cn_outbound c = [];
  sr_capacity : PIECE_RESERVE <= cn_outbound_capacity c;
  sr_limit : PIECE_RESERVE <= cc_max_send_bytes config;
  sr_chunk : 1 <= cc_stream_chunk_bytes config;
  sr_idle : exists m, cn_outbound_retained c = Some m /\ mb_ref_count m = 1;
}.

Definition bound c : chttp_server_connection App :=
  c <| cn_outbound_retained := Some {| mb_ref_count := 1; mb_capacity := cn_outbound_capacity c; mb_used := 0 |} |>.

Lemma reserve_ready c : stream_ready c ->
  chttp_server_connection_reserve_outbound config c PIECE_RESERVE = (bound c, SALTS_OK).
Proof.
  intros [_ Ho Hc Hl Hk (m & Hm & Hr)]. unfold chttp_server_connection_reserve_outbound. rewrite Hm, Ho. cbn [chttp_cnet_retained_idle].
  rewrite Hr. cbn [negb Z.eqb]. unfold PIECE_RESERVE, CHTTP_SERVER_CHUNK_PREFIX_RESERVE, CHTTP_SERVER_CHUNK_TRAILER_BYTES in *.
  unfold chttp_server_buffer_grow, grow_plan. rewrite zlen_nil.
  rewrite (proj2 (Z.ltb_ge (cn_outbound_capacity c) 0)), (proj2 (Z.ltb_ge (cc_max_send_bytes config) _)), (proj2 (Z.leb_le _ (cn_outbound_capacity c))) by lia.
  cbv zeta. rewrite with_budget_same. rewrite (proj2 (Z.eqb_neq (cn_outbound_capacity c) 0)) by lia.
  rewrite bool_decide_true by done. cbn [negb]. unfold chttp_cnet_retained_bind.
  rewrite (proj2 (Z.eqb_neq (cn_outbound_capacity c) 0)) by lia. destruct c; cbn in *. subst. by rewrite Hr.
Qed.

Definition app_of c : App := cs_app (rs_call (cn_request_state c)).

(** What a source has still to give, while the application is in a valid state. *)
Class LawfulSource (read : Z) (valid : App -> Prop) (content : App -> list Z) : Prop :=
  source_law : forall app capacity, valid app -> 1 <= capacity ->
    let '(app', status, piece) := source_read read capacity app in
    status = SALTS_OK /\ valid app' /\ content app = piece ++ content app' /\ zlen piece <= capacity /\
    (piece = [] -> content app = []).

Section Stream.
Context (source : chttp_body_source) (valid : App -> Prop) (content : App -> list Z)
  {law : LawfulSource (bs_read source) valid content}.

Definition limit_of c : Z :=
  if bs_content_length_known source then bs_content_length source else rb_source_capacity (cn_builder c).

Definition remaining_of c : Z := limit_of c - rb_source_transferred (cn_builder c).

(** The stream of [source]. *)
Record streaming c : Prop := {
  st_ready : stream_ready c;
  st_source : rb_body_source (cn_builder c) = Some source;
  st_enabled : rb_source_enabled (cn_builder c) = true;
  st_remaining : 0 <= remaining_of c;
  st_chunked : cn_response_source_chunked c = true -> bs_content_length_known source = false;
  st_valid : valid (app_of c);
}.

Definition gave c (app : App) : chttp_server_connection App :=
  (bound c) <| cn_request_state := set_app (cn_request_state (bound c)) app |>.

(** A step reads a piece of the source that fits. *)
Lemma stream_next_reads c : streaming c -> exists room app' piece,
  1 <= room <= PIECE_RESERVE - 34 /\ (remaining_of c <> 0 -> room <= remaining_of c) /\
  zlen piece <= room /\ valid app' /\ content (app_of c) = piece ++ content app' /\ (piece = [] -> content (app_of c) = []) /\
  chttp_server_response_stream_next config c =
    stream_piece (gave c app') (bs_content_length_known source) (remaining_of c) room piece.
Proof.
  intros [Hr Hs He Hrem Hch Hva]. pose proof Hr as [Hst Ho Hc _ Hk _]. unfold chttp_server_response_stream_next. rewrite Hst, Ho. cbn [negb orb zlen length Z.of_nat Z.eqb].
  change (cc_stream_chunk_bytes config + _ + _) with PIECE_RESERVE. rewrite reserve_ready by done. rewrite bool_decide_true by done. cbn [negb].
  unfold stream_read. change (cn_builder (bound c)) with (cn_builder c). rewrite Hs, He. cbn [negb].
  unfold stream_room. change (cn_builder (bound c)) with (cn_builder c). change (cn_outbound_capacity (bound c)) with (cn_outbound_capacity c).
  change (cn_response_source_chunked (bound c)) with (cn_response_source_chunked c).
  unfold remaining_of in *. change (if bs_content_length_known source then bs_content_length source else rb_source_capacity (cn_builder c)) with (limit_of c).
  unfold PIECE_RESERVE, CHTTP_SERVER_CHUNK_PREFIX_RESERVE, CHTTP_SERVER_CHUNK_TRAILER_BYTES in *.
  rewrite (proj2 (Z.leb_gt (cn_outbound_capacity c) (32 + 2))), andb_false_r by lia. cbv zeta.
  rewrite (proj2 (Z.ltb_ge (limit_of c) _)) by lia.
  set (room0 := if _ <? (if cn_response_source_chunked c then _ else _) then _ else _).
  assert (room0 = cc_stream_chunk_bytes config) as -> by (unfold room0; destruct (cn_response_source_chunked c); split_if; lia).
  set (room := if negb _ && _ then _ else _).
  assert (1 <= room <= cc_stream_chunk_bytes config /\ (limit_of c - rb_source_transferred (cn_builder c) <> 0 -> room <= limit_of c - rb_source_transferred (cn_builder c))) as [Hroom Hroom'].
  { unfold room. split_if; bool_prop; lia. }
  rewrite (proj2 (Z.eqb_neq room 0)) by lia. clearbody room.
  pose proof (source_law (app_of c) room Hva ltac:(lia)) as Hlaw. unfold app_of in *.
  change (cs_app (rs_call (cn_request_state (bound c)))) with (cs_app (rs_call (cn_request_state c))).
  destruct (source_read (bs_read source) room (cs_app (rs_call (cn_request_state c)))) as [[app' status] piece].
  destruct Hlaw as (-> & Hva' & Hd & Hl & Hn). rewrite bool_decide_true by done. cbn [negb].
  exists room, app', piece. split_and!; try done; lia.
Qed.

(** How the stream goes on: when a piece has been sent, [on_send] asks for the
    next one.  The bytes that were sent, the connection at the end and how the
    stream ended; nothing is sent after a failure. *)
Fixpoint stream_all (fuel : nat) c : option (list Z * chttp_server_connection App * salts_status) :=
  match fuel with
  | O => None
  | S fuel =>
    let '(c, status) := chttp_server_response_stream_next config c in
    let sent := cn_outbound c in
    let c := c <| cn_outbound := [] |> in
    if negb (bool_decide (status = SALTS_OK)) then Some ([], c, status)
    else if cn_response_streaming c then
      match stream_all fuel c with
      | Some (rest, c, status) => Some (sent ++ rest, c, status)
      | None => None
      end
    else Some (sent, c, SALTS_OK)
  end.

(** The pieces on the wire. *)
Definition framed (chunked complete : bool) (pieces : list (list Z)) : list Z :=
  if chunked then concat (map chunk pieces) ++ (if complete then FINAL_CHUNK else []) else concat pieces.

(** How a stream of so many bytes ends when so many may be given. *)
Definition stream_status (size remaining : Z) : salts_status :=
  if bs_content_length_known source then if size =? remaining then SALTS_OK else SALTS_EPROTO
  else if size <=? remaining then SALTS_OK else SALTS_EMSGSIZE.

(** The stream has ended: its source is closed, once, with the status. *)
Record stream_ended c (status : salts_status) c' : Prop := {
  se_streaming : cn_response_streaming c' = false;
  se_outbound : cn_outbound c' = [];
  se_disabled : rb_source_enabled (cn_builder c') = false;
  se_cleanups : w_cleanups (cn_world c') = w_cleanups (cn_world c) ++
    match rb_source_cleanup (cn_builder c) with Some f => [(f, status)] | None => [] end;
  se_close : cn_close_after_write c' =
    if bool_decide (status = SALTS_OK) then cn_response_close_after_stream c else cn_close_after_write c;
}.

Lemma finish_ended c status : rb_source_enabled (cn_builder c) = true ->
  let '(c', st) := chttp_server_response_stream_finish c status in
  st = status /\ cn_response_streaming c' = false /\ cn_outbound c' = cn_outbound c /\
  stream_ended c status (c' <| cn_outbound := [] |>).
Proof.
  intros He. unfold chttp_server_response_stream_finish, close_builder_source, close_response_source, chttp_server_response_builder_close_source.
  unfold cn_builder in *. rewrite He. cbn [negb]. destruct (rb_source_cleanup (cs_response (rs_call (cn_request_state c)))) as [f|] eqn:Ef; cbv zeta;
  (destruct (bool_decide (status = SALTS_OK)) eqn:Es; split_and!; try done; split; cbn; unfold cn_builder, cn_world; rewrite ?Ef, ?Es, ?app_nil_r; done).
Qed.

(** The connection after a piece was sent. *)
Definition advanced c (app : App) (size : Z) : chttp_server_connection App :=
  (with_builder (gave c app) ((cn_builder (gave c app)) <| rb_source_transferred := rb_source_transferred (cn_builder (gave c app)) + size |>))
    <| cn_outbound := [] |>.

Lemma advanced_streaming c app size : streaming c -> valid app -> 0 <= size <= remaining_of c ->
  streaming (advanced c app size) /\ remaining_of (advanced c app size) = remaining_of c - size /\ app_of (advanced c app size) = app.
Proof.
  intros [Hr Hs He Hrem Hch _] Hva Hsize. assert (remaining_of (advanced c app size) = remaining_of c - size) as Hrm.
  { unfold remaining_of, limit_of, cn_builder. cbn. lia. }
  split_and!; [|done|done]. destruct Hr as [R1 R2 R3 R4 R5 R6]. split; [split|..]; try done; [by eexists; split|]. lia.
Qed.

Lemma stream_ended_advanced c app size status c' : stream_ended (advanced c app size) status c' -> stream_ended c status c'.
Proof. by intros [? ? ? ? ?]. Qed.

Lemma hex_loop_length fuel : forall n digits, (length (hex_loop fuel n digits) <= fuel + length digits)%nat.
Proof.
  induction fuel as [|fuel IH]; intros n digits; [done|]. cbn [hex_loop]. cbv zeta. split_if; [cbn; lia|].
  etransitivity; [apply IH|]. cbn. lia.
Qed.

(** What happens to a piece. *)
Lemma stream_piece_spec c app' room piece : streaming c -> zlen piece <= room -> (remaining_of c <> 0 -> room <= remaining_of c) ->
  let '(c', status) := stream_piece (gave c app') (bs_content_length_known source) (remaining_of c) room piece in
  if (zlen piece =? 0) || (remaining_of c =? 0) then
    status = stream_status (zlen piece) (remaining_of c) /\ cn_response_streaming c' = false /\
    cn_outbound c' = (if cn_response_source_chunked c && bool_decide (status = SALTS_OK) then FINAL_CHUNK else []) /\
    stream_ended c status (c' <| cn_outbound := [] |>)
  else
    status = SALTS_OK /\ cn_response_streaming c' = true /\
    cn_outbound c' = (if cn_response_source_chunked c then chunk piece else piece) /\
    c' <| cn_outbound := [] |> = advanced c app' (zlen piece).
Proof.
  intros Hst Hroom Hle. pose proof Hst as [Hr Hs He Hrem Hch _]. pose proof Hr as [Hstr Ho _ _ _ _]. unfold stream_piece.
  change (cn_response_source_chunked (gave c app')) with (cn_response_source_chunked c).
  rewrite (proj2 (Z.ltb_ge room (zlen piece))) by done. unfold stream_status.
  assert (forall st, let '(c', s') := chttp_server_response_stream_finish (gave c app') st in
    s' = st /\ cn_response_streaming c' = false /\ cn_outbound c' = [] /\ stream_ended c st (c' <| cn_outbound := [] |>)) as Hfin.
  { intros st. pose proof (finish_ended (gave c app') st He) as H. destruct (chttp_server_response_stream_finish _ st) as [c' s'].
    destruct H as (? & ? & H & [? ? ? ? ?]). split_and!; [done|done|by rewrite H|by split]. }
  destruct (zlen piece =? 0) eqn:Ep; cbn [orb negb andb].
  - destruct (bs_content_length_known source) eqn:Ek; cbn [andb negb].
    + assert (cn_response_source_chunked c = false) as -> by (destruct (cn_response_source_chunked c); [by specialize (Hch eq_refl)|done]).
      apply Z.eqb_eq in Ep as ->. destruct (remaining_of c =? 0) eqn:E0; (rewrite (Z.eqb_sym 0), E0; apply Hfin).
    + rewrite andb_false_r. apply Z.eqb_eq in Ep as ->. rewrite (proj2 (Z.leb_le 0 (remaining_of c))) by done.
      destruct (cn_response_source_chunked c) eqn:Ec; [|exact (Hfin SALTS_OK)].
      match goal with |- context [chttp_server_response_stream_finish ?x ?st] =>
        generalize (finish_ended x st He); destruct (chttp_server_response_stream_finish x st) as [c' s'] end.
      intros H. destruct H as (-> & ? & H & [? ? ? ? ?]). split_and!; [done|done|exact H|by split].
  - destruct (remaining_of c =? 0) eqn:E0; cbn [andb].
    + rewrite andb_true_r. pose proof (zlen_nonneg piece). apply Z.eqb_eq in E0 as ->.
      destruct (bs_content_length_known source); cbn [negb andb]; [rewrite Ep|rewrite (proj2 (Z.leb_gt _ 0)) by lia];
      (match goal with |- context [chttp_server_response_stream_finish (gave c app') ?st] => pose proof (Hfin st) as Hf; destruct (chttp_server_response_stream_finish (gave c app') st) as [c' s'] end;
       destruct Hf as (-> & ? & ? & ?); split_and!; try done; by rewrite andb_false_r).
    + rewrite !andb_false_r. cbn [andb]. 
      change (cn_response_source_chunked (with_builder (gave c app') _)) with (cn_response_source_chunked c).
      destruct (cn_response_source_chunked c) eqn:Ec; [|by split_and!].
      rewrite (proj2 (Z.leb_gt CHTTP_SERVER_CHUNK_PREFIX_RESERVE _)).
      2:{ pose proof (hex_loop_length 16 (zlen piece) []). unfold hex_size, zlen in *. rewrite length_app. cbn in *. unfold CHTTP_SERVER_CHUNK_PREFIX_RESERVE. lia. }
      split_and!; try done. unfold chunk. cbn. by rewrite <- app_assoc.
Qed.

Lemma ztake_past {A} n (a b : list A) : zlen a <= n -> ztake n (a ++ b) = a ++ ztake (n - zlen a) b.
Proof.
  intros Hn. unfold ztake, zlen in *. rewrite take_app_ge by lia. f_equal. f_equal. lia.
Qed.

(** The whole stream. *)
Lemma stream_all_spec fuel : forall c, streaming c -> (length (content (app_of c)) < fuel)%nat ->
  let size := zlen (content (app_of c)) in
  let status := stream_status size (remaining_of c) in
  exists pieces c',
    stream_all fuel c = Some (framed (cn_response_source_chunked c) (bool_decide (status = SALTS_OK)) pieces, c', status) /\
    concat pieces = ztake (remaining_of c) (content (app_of c)) /\
    Forall (fun piece => 1 <= zlen piece <= PIECE_RESERVE - 34) pieces /\ stream_ended c status c'.
Proof.
  induction fuel as [|fuel IH]; intros c Hst Hfuel; [lia|]. cbv zeta. cbn [stream_all].
  destruct (stream_next_reads c Hst) as (room & app' & piece & Hroom & Hle & Hp & Hva & Hd & Hn & ->).
  pose proof (stream_piece_spec c app' room piece Hst Hp Hle) as Hpiece. pose proof (st_remaining _ Hst) as Hrem.
  destruct (stream_piece _ _ _ _ _) as [c1 status]. pose proof (zlen_nonneg piece) as Hz.
  destruct ((zlen piece =? 0) || (remaining_of c =? 0)) eqn:Eend.
  - destruct Hpiece as (-> & Hs1 & Ho1 & Hended).
    assert (stream_status (zlen piece) (remaining_of c) = stream_status (zlen (content (app_of c))) (remaining_of c) /\
      ztake (remaining_of c) (content (app_of c)) = []) as [Est Et].
    { destruct (zlen piece =? 0) eqn:Ep.
      - apply Z.eqb_eq, zlen_0_inv in Ep as ->. rewrite (Hn eq_refl). split; [done|]. apply take_nil.
      - apply Z.eqb_eq in Eend. rewrite Eend. split; [|done]. rewrite Hd, zlen_app. pose proof (zlen_nonneg (content app')).
        unfold stream_status. destruct (bs_content_length_known source); rewrite ?(proj2 (Z.eqb_neq _ 0)), ?(proj2 (Z.leb_gt _ 0)) by lia; done. }
    rewrite <- Est. exists [], (c1 <| cn_outbound := [] |>). rewrite Et.
    change (cn_response_streaming (c1 <| cn_outbound := [] |>)) with (cn_response_streaming c1). rewrite Hs1.
    split_and!; [|done|done|done]. rewrite Ho1.
    destruct (bool_decide (stream_status (zlen piece) (remaining_of c) = SALTS_OK)) eqn:Eb; cbn [negb].
    + apply bool_decide_eq_true in Eb. rewrite Eb. unfold framed. cbn [map concat app]. by destruct (cn_response_source_chunked c).
    + unfold framed. cbn [map concat app]. by destruct (cn_response_source_chunked c).
  - destruct Hpiece as (-> & Hs1 & Ho1 & Hadv). rewrite Hadv. apply orb_false_iff in Eend as [Ep E0].
    destruct (advanced_streaming c app' (zlen piece) Hst Hva) as (Hst' & Hrem' & Happ); [lia|].
    rewrite bool_decide_true by done. cbn [negb].
    change (cn_response_streaming (advanced c app' (zlen piece))) with (cn_response_streaming c). rewrite (sr_streaming c (st_ready c Hst)).
    specialize (IH _ Hst'). rewrite Happ, Hrem' in IH. 
    destruct IH as (pieces & c' & Hall & Hc & Hf & Hended).
    { rewrite Hd, length_app in Hfuel. unfold zlen in *. lia. }
    assert (stream_status (zlen (content app')) (remaining_of c - zlen piece) = stream_status (zlen (content (app_of c))) (remaining_of c)) as Est.
    { unfold stream_status. rewrite Hd, zlen_app. replace (zlen piece + zlen (content app') =? remaining_of c) with (zlen (content app') =? remaining_of c - zlen piece) by lia.
      by replace (zlen piece + zlen (content app') <=? remaining_of c) with (zlen (content app') <=? remaining_of c - zlen piece) by lia. }
    rewrite Est in *. rewrite Hall. exists (piece :: pieces), c'. 
    change (cn_response_source_chunked (advanced c app' (zlen piece))) with (cn_response_source_chunked c). split_and!.
    + rewrite Ho1. unfold framed. destruct (cn_response_source_chunked c); cbn [map concat]; by rewrite ?app_assoc.
    + cbn [concat]. rewrite Hc, Hd. symmetry. apply ztake_past. lia.
    + constructor; [lia|done].
    + by eapply stream_ended_advanced.
Qed.

Lemma chunks_length pieces : (length pieces <= length (concat (map chunk pieces)))%nat.
Proof.
  induction pieces as [|p ps IH]; [done|]. cbn [map concat length]. unfold chunk at 1. rewrite !length_app.
  change (length CRLF) with 2%nat. lia.
Qed.

Lemma streamed_body_spec c : streaming c -> cc_max_send_bytes config <= SIZE_MAX ->
  let data := content (app_of c) in
  let status := stream_status (zlen data) (remaining_of c) in
  exists sent c',
    stream_all (S (length data)) c = Some (sent, c', status) /\ stream_ended c status c' /\
    (cn_response_source_chunked c = false -> sent = ztake (remaining_of c) data /\ (status = SALTS_OK -> sent = data)) /\
    (cn_response_source_chunked c = true -> status = SALTS_OK ->
     forall rest, read_chunks (length sent) (sent ++ rest) = Some (data, rest)).
Proof.
  intros Hst Hmax data status. destruct (stream_all_spec (S (length data)) c Hst (Nat.lt_succ_diag_r _)) as (pieces & c' & Hall & Hc & Hf & He).
  fold data in Hc, Hall, He. fold status in Hall, He.
  assert (status = SALTS_OK -> concat pieces = data) as Hdata.
  { intros Hok. rewrite Hc. unfold status, stream_status in Hok. fold data in Hok. destruct (bs_content_length_known source).
    - destruct (zlen data =? remaining_of c) eqn:E; [|done]. apply Z.eqb_eq in E as <-. apply ztake_all.
    - destruct (zlen data <=? remaining_of c) eqn:E; [|done]. apply take_ge. unfold zlen in E. lia. }
  exists (framed (cn_response_source_chunked c) (bool_decide (status = SALTS_OK)) pieces), c'. split_and!; try done.
  - intros ->. unfold framed. split; [by rewrite Hc|done].
  - intros -> Hok rest. unfold framed. rewrite bool_decide_true by done. rewrite <- app_assoc, read_chunks_framed; [by rewrite Hdata| |].
    + eapply Forall_impl; [exact Hf|]. intros piece Hp. cbv beta in Hp. pose proof (sr_limit c (st_ready c Hst)). lia.
    + rewrite length_app. pose proof (chunks_length pieces). cbn. lia.
Qed.

(** C23: A body that the application streams reaches the wire: sending the pieces
    one after the other ends, and what was sent is the content of the source, as
    it is or in chunks that a reader of chunked coding puts together again; the
    source is cleaned up once, with the status that the lengths demand, and a body
    that is longer or shorter than announced ends in an error. *)
Theorem streamed_body_on_wire c : streaming c -> cc_max_send_bytes config <= SIZE_MAX ->
  let data := content (app_of c) in
  let status := stream_status (zlen data) (remaining_of c) in
  exists sent c',
    stream_all (S (length data)) c = Some (sent, c', status) /\ stream_ended c status c' /\
    (cn_response_source_chunked c = false -> sent = ztake (remaining_of c) data /\ (status = SALTS_OK -> sent = data)) /\
    (cn_response_source_chunked c = true -> status = SALTS_OK ->
     forall rest, read_chunks (length sent) (sent ++ rest) = Some (data, rest)).
Proof. apply streamed_body_spec. Qed.

End Stream.

(** ** A request *)

Section Requests.
Context {lawful : LawfulCallbacks (su_sessions (cc_setup config)) callbacks}.
Context (size_max : cc_max_send_bytes config <= SIZE_MAX).

(** A builder that was well formed but for its reply: a reset makes it so again. *)
Definition builder_limits (b : chttp_server_response_builder) : Prop := exists b0, builder_wf b0 /\ same_limits b0 b.

(** The bytes that wait fit their buffer, and the request can be reset. *)
Record connection_ok c : Prop := {
  co_builder : builder_limits (cn_builder c);
  co_sessions : store_ok (su_sessions (cc_setup config)) (cs_sessions (rs_call (cn_request_state c)));
  co_session : context_ok (su_sessions (cc_setup config)) (cs_session (rs_call (cn_request_state c)));
  co_outbound : zlen (cn_outbound c) <= cn_outbound_capacity c;
}.

Abbreviation request_ok c := (call_ok (su_sessions (cc_setup config)) (rs_call (cn_request_state c))).

Lemma request_connection_ok c : request_ok c -> zlen (cn_outbound c) <= cn_outbound_capacity c -> connection_ok c.
Proof. intros [Hb Hs Hc] Ho. split; try done. exists (cn_builder c). split; [done|apply same_limits_refl]. Qed.

(** A message of the server: what a reader of HTTP/1 messages reads from it is
    the response of a builder, with the date of the time [now]. *)
Definition message_of (b : chttp_server_response_builder) (request : chttp_server_request_view) (now : Z) (include_body : bool)
    (wire : list Z) : Prop :=
  exists date, builder_wf b /\ rb_replied b = true /\ chttp_server_response_date (rb_headers b) now = Ok date /\
    read_message wire = Some (status_text b request, response_fields b request date, sent_body b request include_body).

(** There is no such message, or no room for it. *)
Definition does_not_fit (b : chttp_server_response_builder) (request : chttp_server_request_view) (now : Z) (include_body : bool)
    (room : Z) : Prop :=
  rb_replied b = true -> forall date, chttp_server_response_date (rb_headers b) now = Ok date ->
  room < zlen (response_wire b request date include_body).

Lemma serialize_whole b request now capacity output include_body : builder_wf b -> zlen output <= capacity ->
  let '(output', status) := chttp_server_response_serialize_impl b request now capacity output include_body in
  (status = SALTS_OK /\ exists wire, output' = output ++ wire /\ zlen output' <= capacity /\ message_of b request now include_body wire) \/
  (status <> SALTS_OK /\ output' = output /\ does_not_fit b request now include_body (capacity - zlen output)).
Proof.
  intros Hb Hc. unfold does_not_fit. destruct (rb_replied b) eqn:Hr.
  2:{ unfold chttp_server_response_serialize_impl. rewrite Hr. by right. }
  destruct (chttp_server_response_date (rb_headers b) now) as [date|e] eqn:Hd.
  - rewrite (serialize_exact _ _ _ _ _ _ date) by done. split_if.
    + left. split; [done|]. exists (response_wire b request date include_body). rewrite zlen_app. bool_prop. split_and!; try done.
      exists date. split_and!; try done. unfold response_wire. apply read_message_printed; [apply status_clean|]. apply fields_ok; [done|]. by eapply response_date_clean.
    + right. split_and!; try done. intros _ date' [= <-]. lia.
  - unfold chttp_server_response_serialize_impl. rewrite Hr, Hd. cbn [negb]. right. split_and!; try done.
    intros ->. unfold chttp_server_response_date, chttp_server_format_date in Hd. repeat (case_match || split_if_in Hd); done.
Qed.

(** A reservation, whether it succeeds or not. *)
Lemma reserve_ok c required : zlen (cn_outbound c) <= cn_outbound_capacity c ->
  let '(c', status) := chttp_server_connection_reserve_outbound config c required in
  same_but_buffer c c' /\ zlen (cn_outbound c) <= cn_outbound_capacity c'.
Proof.
  intros Ho. pose proof (zlen_nonneg (cn_outbound c)). pose proof (reserve_spec c required ltac:(lia) size_max) as Hres.
  destruct (chttp_server_connection_reserve_outbound config c required) as [c' status]. destruct Hres as (Hs & H1 & _ & _).
  split; [done|]. lia.
Qed.

Lemma same_but_buffer_frame c c' : same_but_buffer c c' ->
  cn_outbound c' = cn_outbound c /\ cn_builder c' = cn_builder c /\ retained_sg config c' = retained_sg config c /\
  (request_ok c -> request_ok c') /\ cn_close_after_write c' = cn_close_after_write c /\ cn_response_streaming c' = cn_response_streaming c.
Proof. intros (b & n & m & ->). split_and!; try done. by intros [? ? ?]. Qed.

(** A body that is sent next to the buffer, not as part of it: one that the
    application keeps, on a connection without encryption. *)
Definition sent_apart c (b : chttp_server_response_builder) (request : chttp_server_request_view) : Prop :=
  is_Some (rb_retained_body b) /\ rb_body_size b <> 0 /\ rv_method request <> CHTTP_METHOD_HEAD /\
  cn_wire_protocol c = CHTTP_SERVER_WIRE_HTTP_1_1 /\ cc_tls_initialized config = false.

Lemma retained_sg_spec c request : retained_sg config c request = true <-> sent_apart c (cn_builder c) request.
Proof.
  unfold retained_sg, sent_apart. rewrite !andb_true_iff, !negb_true_iff, !Z.eqb_neq, bool_decide_eq_true.
  destruct (rb_retained_body (cn_builder c)); split; intros H; destruct_and?; split_and?; try done.
Qed.

(** A message without its body is one whose body is sent next to the buffer. *)
Definition body_follows c (b : chttp_server_response_builder) : Prop :=
  cn_retained_response_sg c = true /\ cn_retained_response_sg_body_size c = rb_body_size b.

(** A request leaves its response, or nothing. *)
Lemma serialize_request c request now_ms : request_ok c -> zlen (cn_outbound c) <= cn_outbound_capacity c ->
  let '(c', status) := request_serialize config c request now_ms in
  let include_body := negb (retained_sg config c request) in
  request_ok c' /\ zlen (cn_outbound c') <= cn_outbound_capacity c' /\ cn_close_after_write c' = cn_close_after_write c /\
  ((status = SALTS_OK /\ cn_builder c' = cn_builder c /\ exists wire, cn_outbound c' = cn_outbound c ++ wire /\
    message_of (cn_builder c) request now_ms include_body wire /\ (include_body = false -> body_follows c' (cn_builder c))) \/
   (status <> SALTS_OK /\ cn_outbound c' = cn_outbound c /\
    does_not_fit (cn_builder c) request now_ms include_body (cn_outbound_capacity c - zlen (cn_outbound c)))).
Proof.
  intros Hr Ho. unfold request_serialize. cbv zeta.
  assert (forall now capacity output, (if retained_sg config c request then chttp_server_response_serialize_headers else chttp_server_response_serialize)
    (cn_builder c) request now capacity output =
    chttp_server_response_serialize_impl (cn_builder c) request now capacity output (negb (retained_sg config c request))) as ->
    by (by destruct (retained_sg config c request)).
  pose proof (serialize_whole (cn_builder c) request now_ms (cn_outbound_capacity c) (cn_outbound c) (negb (retained_sg config c request)) (ck_response _ _ Hr) Ho) as Hs.
  destruct (chttp_server_response_serialize_impl _ _ _ _ _ _) as [outbound status]. destruct Hs as [(-> & wire & -> & Hl & Hm)|(Hne & -> & Hf)].
  - rewrite bool_decide_true by done. destruct (retained_sg config c request) eqn:Esg; (split_and!; try done; left; split_and!; try done);
      (exists wire; by split_and!).
  - rewrite bool_decide_false by done. split_and!; try done; [|by right]. apply (session_abort_ok (cc_setup config)); done.
Qed.

(** What follows a response. *)
Lemma answered_ok c request : request_ok c -> zlen (cn_outbound c) <= cn_outbound_capacity c ->
  let '(c', result) := request_answered c request in
  connection_ok c' /\ cn_outbound c' = cn_outbound c /\
  (result = RequestStatus SALTS_OK \/ (result = RequestDeferred /\ cn_retained_response_paused c' = true)) /\
  cn_retained_response_sg c' = cn_retained_response_sg c /\
  cn_retained_response_sg_body_size c' = cn_retained_response_sg_body_size c /\
  (rb_source_enabled (cn_builder c) = true -> rv_method request <> CHTTP_METHOD_HEAD -> cn_response_streaming c' = true).
Proof.
  intros Hr Ho. unfold request_answered. cbv zeta. set (c1 := chttp_server_stats_response c).
  assert (cn_builder c1 = cn_builder c) as Eb by done. rewrite <- Eb. clear Eb.
  assert (request_ok c1 /\ zlen (cn_outbound c1) <= cn_outbound_capacity c1 /\ cn_outbound c1 = cn_outbound c /\
    cn_retained_response_sg c1 = cn_retained_response_sg c /\ cn_retained_response_sg_body_size c1 = cn_retained_response_sg_body_size c) as (Hr1 & Ho1 & He1 & Hg1 & Hn1) by (by destruct Hr).
  clearbody c1. split_if; [split_and!; try done; [by apply request_connection_ok|by left]|].
  assert (rb_source_enabled (cn_builder c1) = true -> rv_method request <> CHTTP_METHOD_HEAD -> forall P : Prop, P) as Hstr.
  { intros Es Hm P. destruct Heqb as [Heqb|Heqb]; [congruence|]. apply negb_false_iff, Z.eqb_eq in Heqb. done. }
  set (c2 := if rb_source_enabled (cn_builder c1) then close_builder_source c1 SALTS_OK else c1).
  assert (connection_ok c2 /\ cn_outbound c2 = cn_outbound c /\ cn_retained_response_sg c2 = cn_retained_response_sg c /\
    cn_retained_response_sg_body_size c2 = cn_retained_response_sg_body_size c) as (Hc2 & He2 & Hg2 & Hn2).
  { unfold c2. destruct (rb_source_enabled (cn_builder c1)); [|by split_and!; [apply request_connection_ok|..]].
    unfold close_builder_source, close_response_source. pose proof (close_ok (cs_world (rs_call (cn_request_state c1))) (cs_response (rs_call (cn_request_state c1))) SALTS_OK) as H.
    destruct (chttp_server_response_builder_close_source _ _ _) as [w b]. destruct H as (_ & _ & _ & Hlim). destruct Hr1 as [Hb Hs Hx].
    split_and!; try done. split; try done. eexists. split; [exact Hb|exact Hlim]. }
  clearbody c2.
  set (c3 := if negb (rv_protocol_keep_alive request) then c2 <| cn_close_after_write := true |> else c2).
  assert (connection_ok c3 /\ cn_outbound c3 = cn_outbound c /\ cn_retained_response_sg c3 = cn_retained_response_sg c /\
    cn_retained_response_sg_body_size c3 = cn_retained_response_sg_body_size c) as (Hc3 & He3 & Hg3 & Hn3)
    by (unfold c3; destruct (rv_protocol_keep_alive request); [done|destruct Hc2; split_and!; [by split|done..]]).
  clearbody c3. split_if; (split_and!; [destruct Hc3; by split|done|auto|done|done|intros Es Hm; by apply Hstr]).
Qed.

(** What a call adds to the bytes that wait. *)
Definition adds c c' (wire : list Z) : Prop := cn_outbound c' = cn_outbound c ++ wire.

(** The answer to a request: the response that its dispatch leaves, with the
    body unless that is sent apart; the body of a source is streamed after it. *)
Record dispatched c (request : chttp_server_request_view) (headers : list (list Z * list Z)) (clock : dispatch_clock) (date_ms : Z)
    c' (wire : list Z) : Prop := {
  di_open : cn_close_after_write c = false;
  di_message : exists state include_body,
    chttp_server_dispatch_request (cc_setup config) (cn_request_state c) (server_request_of request headers) clock = (state, SALTS_OK) /\
    rb_deferred (cs_response (rs_call state)) = false /\
    message_of (cs_response (rs_call state)) request date_ms include_body wire /\
    (include_body = false <-> sent_apart c (cs_response (rs_call state)) request) /\
    (include_body = false -> body_follows c' (cs_response (rs_call state))) /\
    (rb_source_enabled (cs_response (rs_call state)) = true -> rv_method request <> CHTTP_METHOD_HEAD -> cn_response_streaming c' = true);
}.

(** Why a request is not answered at once. *)
Inductive undispatched c (request : chttp_server_request_view) (headers : list (list Z * list Z)) (clock : dispatch_clock) (date_ms : Z) :
    Prop :=
  | Closing : cn_close_after_write c = true -> undispatched c request headers clock date_ms
  | Crowded :
      cc_max_send_bytes config < zlen (cn_outbound c) \/
        cc_max_send_bytes config < zlen (cn_outbound c) + cc_max_response_wire_bytes config ->
      undispatched c request headers clock date_ms
  | NotDispatched state status :
      chttp_server_dispatch_request (cc_setup config) (cn_request_state c) (server_request_of request headers) clock = (state, status) ->
      status <> SALTS_OK \/ rb_deferred (cs_response (rs_call state)) = true -> undispatched c request headers clock date_ms
  | NoMemory state c1 status :
      chttp_server_dispatch_request (cc_setup config) (cn_request_state c) (server_request_of request headers) clock = (state, SALTS_OK) ->
      chttp_server_connection_reserve_outbound config (c <| cn_request_state := state |>)
        (zlen (cn_outbound c) + cc_max_response_wire_bytes config) = (c1, status) -> status <> SALTS_OK ->
      undispatched c request headers clock date_ms
  | TooLong state c1 include_body :
      chttp_server_dispatch_request (cc_setup config) (cn_request_state c) (server_request_of request headers) clock = (state, SALTS_OK) ->
      chttp_server_connection_reserve_outbound config (c <| cn_request_state := state |>)
        (zlen (cn_outbound c) + cc_max_response_wire_bytes config) = (c1, SALTS_OK) ->
      (include_body = false <-> sent_apart c (cs_response (rs_call state)) request) ->
      does_not_fit (cs_response (rs_call state)) request date_ms include_body (cn_outbound_capacity c1 - zlen (cn_outbound c)) ->
      undispatched c request headers clock date_ms.

(** The effect of a request on the bytes that wait. *)
Lemma request_spec c request headers clock date_ms : request_ok c -> zlen (cn_outbound c) <= cn_outbound_capacity c ->
  let '(c', result) := chttp_server_on_request config c request headers clock date_ms in
  connection_ok c' /\
  ((exists wire, adds c c' wire /\ dispatched c request headers clock date_ms c' wire /\
     (result = RequestStatus SALTS_OK \/ (result = RequestDeferred /\ cn_retained_response_paused c' = true))) \/
   (adds c c' [] /\ undispatched c request headers clock date_ms /\ result <> RequestStatus SALTS_OK)).
Proof.
  intros Hr Ho. unfold chttp_server_on_request, adds. rewrite app_nil_r.
  assert (connection_ok c) as Hc by (by apply request_connection_ok).
  destruct (cn_close_after_write c) eqn:Ecl; [split; [done|right]; split_and!; [done|by apply Closing|done]|].
  split_if; [split; [done|right]; split_and!; [done|apply Crowded; destruct Heqb; [left|right]; lia|done]|].
  destruct (chttp_server_dispatch_request (cc_setup config) (cn_request_state c) _ _) as [state status] eqn:Ed.
  pose proof (dispatch_spec (cc_setup config) _ _ _ _ _ Hr Ed) as [Hr1 _].
  set (c1 := c <| cn_request_state := state |>). assert (request_ok c1) as Hrc1 by done.
  assert (zlen (cn_outbound c1) <= cn_outbound_capacity c1) as Ho1 by done.
  destruct (bool_decide (status = SALTS_OK)) eqn:Es; cbn [negb].
  2:{ apply bool_decide_eq_false in Es. split; [by apply request_connection_ok|right]. split_and!; [done|by eapply NotDispatched; [|left]|]. by intros [= ->]. }
  apply bool_decide_eq_true in Es as ->. split_if; [split; [by apply request_connection_ok|right]; split_and!; [done|by eapply NotDispatched; [|right]|done]|].
  unfold reserve_then. pose proof (reserve_ok c1 (zlen (cn_outbound c1) + cc_max_response_wire_bytes config) Ho1) as Hres.
  destruct (chttp_server_connection_reserve_outbound _ _ _) as [c2 status2] eqn:Eres. destruct Hres as [Hsame Ho2].
  destruct (same_but_buffer_frame c1 c2 Hsame) as (E1 & E2 & Esg & Hok & Ecl2 & _). specialize (Hok Hrc1).
  destruct (bool_decide (status2 = SALTS_OK)) eqn:Es2.
  2:{ rewrite Es2. cbn [negb]. apply bool_decide_eq_false in Es2. split; [apply request_connection_ok; [done|by rewrite E1]|right].
      split_and!; [done|by eapply NoMemory|]. by intros [= ->]. }
  apply bool_decide_eq_true in Es2 as ->.
  assert (negb (retained_sg config c2 request) = false <-> sent_apart c (cs_response (rs_call state)) request) as Hap
    by (rewrite negb_false_iff, Esg; exact (retained_sg_spec c1 request)).
  pose proof (serialize_request c2 request date_ms Hok ltac:(by rewrite E1)) as Hser.
  destruct (request_serialize config c2 request date_ms) as [c3 status3]. cbv zeta in Hser. rewrite E2 in Hser.
  destruct Hser as (Hr3 & Ho3 & Ecl3 & [(-> & Eb3 & wire & Ew & Hm & Hf)|(Hne & Ew & Hfit)]).
  - rewrite bool_decide_true by done. cbn [negb]. pose proof (answered_ok c3 request Hr3 Ho3) as Ha.
    destruct (request_answered c3 request) as [c4 result]. destruct Ha as (Hc4 & Eo4 & Hres & Eg & En & Hstr). rewrite Eb3 in Hstr.
    split; [done|left]. exists wire. rewrite Eo4, Ew, E1. split_and!; [done| |done]. split; [done|].
    exists state, (negb (retained_sg config c2 request)). split_and!; try done.
    intros Hi. destruct (Hf Hi) as [F1 F2]. split; [by rewrite Eg|by rewrite En].
  - rewrite bool_decide_false by done. cbn [negb]. split; [by apply request_connection_ok|right]. rewrite Ew, E1.
    split_and!; [done| |by intros [= ->]]. rewrite E1 in Hfit. by eapply TooLong.
Qed.

(** ** The end of the headers *)

Lemma reset_limits (st : chttp_server_request_state App) : builder_limits (cs_response (rs_call st)) ->
  store_ok (su_sessions (cc_setup config)) (cs_sessions (rs_call st)) ->
  context_ok (su_sessions (cc_setup config)) (cs_session (rs_call st)) ->
  call_ok (su_sessions (cc_setup config)) (rs_call (reset_response st)).
Proof.
  intros (b0 & Hb & Hl) Hs Hc. unfold reset_response. pose proof (builder_reset_ok (cs_world (rs_call st)) (cs_response (rs_call st)) b0 Hb Hl) as H.
  destruct (chttp_server_response_builder_reset _ _) as [w b]. by destruct H as [Hwf _].
Qed.

Lemma same_app (s : call_state App) : s = s <| cs_app := cs_app s |>.
Proof. by destruct s. Qed.

(** Admission changes the state of the application only. *)
Lemma admit_hook_call (st : chttp_server_request_state App) request :
  exists app, rs_call (admit_hook (cc_setup config) st request).1 = (rs_call st) <| cs_app := app |>.
Proof.
  unfold admit_hook. destruct (su_admission (cc_setup config)) as [fn|]; [|eexists; apply same_app].
  destruct (admission_fn _ _ _) as [[app result] status]. exists app. cbv zeta. by destruct (admission_invalid status result).
Qed.

Lemma admit_checks_call (st : chttp_server_request_state App) request now :
  exists app, rs_call (admit_checks (cc_setup config) st request now).1 = (rs_call st) <| cs_app := app |>.
Proof.
  unfold admit_checks. destruct (admission_validator _ _) as [v|]; [|apply admit_hook_call].
  destruct (chttp_jwt_bearer_request_validate _ _ _ _) as [claims status]. cbv zeta.
  split_if; [eexists; apply same_app|]. exact (admit_hook_call (st <| rs_jwt_claims := claims |>) request).
Qed.

Lemma admit_call (st st' : chttp_server_request_state App) request method now status :
  chttp_server_request_admit (cc_setup config) st request method now = Some (st', status) ->
  exists app, rs_call st' = (rs_call st) <| cs_app := app |>.
Proof.
  unfold chttp_server_request_admit. split_if; [intros [= <- <-]; eexists; apply same_app|]. cbv zeta.
  destruct (chttp_server_route_find _ _ _ _ _) as [[[[params index] allowed] route_status]|]; [|done].
  split_if; [|split_if; [intros E; apply (inj Some) in E; apply (f_equal fst) in E; cbn [fst] in E; rewrite <- E; eexists; exact (same_app (rs_call st))|]]; intros E; apply (inj Some) in E;
    (match type of E with admit_checks _ ?s _ _ = _ => destruct (admit_checks_call s request now) as [app Ha] end);
    rewrite E in Ha; by exists app.
Qed.

Lemma rejection_ok (st : chttp_server_request_state App) : call_ok (su_sessions (cc_setup config)) (rs_call st) ->
  call_ok (su_sessions (cc_setup config)) (rs_call (chttp_server_request_rejection_response st).1).
Proof.
  intros Hs. unfold chttp_server_request_rejection_response. cbv zeta. split_if.
  - unfold chttp_jwt_bearer_unauthorized_response.
    pose proof (set_header_wf (cs_response (rs_call st)) (bytes_of "WWW-Authenticate") (bytes_of "Bearer") (ck_response _ _ Hs)) as Hh.
    destruct (chttp_server_response_set_header _ _ _) as [b status]. cbn [fst] in Hh. split_if; [destruct Hs; done|].
    pose proof (reply_op_ok (cs_world (rs_call st)) b 401 (Some (bytes_of "text/plain")) (bytes_of "Unauthorized") Hh) as H.
    destruct (chttp_server_reply _ _ _ _ _) as [[w b'] status']. destruct Hs, H as [Hb _]. done.
  - set (r := if negb _ then header_call _ _ else _). assert (call_ok (su_sessions (cc_setup config)) r.1) as Hr.
    { unfold r. split_if; [|done]. apply header_call_ok; [done|]. apply set_header_wf, Hs. }
    destruct r as [call status]. cbn [fst] in Hr. split_if; [|done].
    pose proof (reply_to_ok (su_sessions (cc_setup config)) call (ar_status_code (rs_admission_result st)) None [] Hr) as H.
    by destruct (chttp_server_reply_to _ _ _ _) as [call' status'].
Qed.

(** The answer to a request that is not admitted: the response to a rejection,
    after which the connection closes. *)
Definition rejected c (request : chttp_server_request_view) (headers : list (list Z * list Z)) (clock : headers_clock) (wire : list Z) : Prop :=
  exists admitted state,
    chttp_server_request_admit (cc_setup config)
      (reset_response (chttp_server_request_admission_clear (chttp_server_deadline_start (cn_request_state c)
         (dl_body_ms (su_deadlines (cc_setup config))) (hc_start clock))))
      (server_request_of request headers) (rv_method request) (hc_seconds clock) = Some (admitted, SALTS_EPERM) /\
    chttp_server_request_rejection_response (admitted <| rs_deadline_ms := 0 |>) = (state, SALTS_OK) /\
    message_of (cs_response (rs_call state)) (request <| rv_protocol_keep_alive := false |>) (hc_date_ms clock) true wire.

Lemma headers_spec c request headers clock : connection_ok c ->
  let '(c', status, action) := chttp_server_on_headers config c request headers clock in
  connection_ok c' /\
  ((status = SALTS_OK /\ action = HeadersContinue /\ adds c c' [] /\ request_ok c') \/
   (status = SALTS_OK /\ action = HeadersStop /\ cn_close_after_write c' = true /\
    exists wire, adds c c' wire /\ rejected c request headers clock wire) \/
   (status <> SALTS_OK /\ adds c c' [])).
Proof.
  intros Hc. unfold chttp_server_on_headers, adds. cbv zeta. rewrite app_nil_r.
  split_if; [split; [done|right; by right]|].
  set (st0 := chttp_server_request_admission_clear _).
  assert (rs_call st0 = rs_call (cn_request_state c)) as E0 by (unfold st0, chttp_server_deadline_start; by split_if).
  assert (call_ok (su_sessions (cc_setup config)) (rs_call (reset_response st0))) as Hst by (destruct Hc; apply reset_limits; by rewrite E0).
  assert (forall wire, (exists admitted state, chttp_server_request_admit (cc_setup config) (reset_response st0)
      (server_request_of request headers) (rv_method request) (hc_seconds clock) = Some (admitted, SALTS_EPERM) /\
    chttp_server_request_rejection_response (admitted <| rs_deadline_ms := 0 |>) = (state, SALTS_OK) /\
    message_of (cs_response (rs_call state)) (request <| rv_protocol_keep_alive := false |>) (hc_date_ms clock) true wire) ->
    rejected c request headers clock wire) as Hrejected by done.
  clearbody st0. set (st := reset_response st0) in *. clearbody st.
  destruct (chttp_server_request_admit _ _ _ _ _) as [[st1 status]|] eqn:Ea0; pose proof Ea0 as Ea.
  2:{ split; [apply request_connection_ok; [done|apply Hc]|right; by right]. }
  apply admit_call in Ea as [app Ea].
  assert (call_ok (su_sessions (cc_setup config)) (rs_call st1)) as Hst1 by (rewrite Ea; by destruct Hst). clear Ea Hst.
  set (c1 := c <| cn_request_state := st1 |>). assert (connection_ok c1) as Hc1 by (apply request_connection_ok; [done|apply Hc]).
  destruct (bool_decide (status = SALTS_OK)) eqn:Es; [split; [done|by left]|]. apply bool_decide_eq_false in Es.
  destruct (bool_decide (status = SALTS_EPERM)) eqn:Ep; cbn [negb]; [|split; [done|right; by right]].
  apply bool_decide_eq_true in Ep as ->. unfold headers_rejection. cbv zeta.
  assert (call_ok (su_sessions (cc_setup config)) (rs_call ((cn_request_state c1) <| rs_deadline_ms := 0 |>))) as Hst2 by exact Hst1.
  pose proof (rejection_ok _ Hst2) as Hrej.
  destruct (chttp_server_request_rejection_response _) as [st2 status2] eqn:Erj. cbn [fst] in Hrej.
  set (c2 := c1 <| cn_request_state := st2 |>). assert (connection_ok c2) as Hc2 by (apply request_connection_ok; [done|apply Hc]).
  destruct (bool_decide (status2 = SALTS_OK)) eqn:Es2; cbn [negb].
  2:{ apply bool_decide_eq_false in Es2. rewrite ?(bool_decide_false (status2 = SALTS_OK)) by done. cbn [negb]. split; [done|right; by right]. }
  apply bool_decide_eq_true in Es2 as ->.
  unfold reserve_then. pose proof (reserve_ok c2 (zlen (cn_outbound c2) + cc_max_response_wire_bytes config) (co_outbound c2 Hc2)) as Hres.
  destruct (chttp_server_connection_reserve_outbound _ _ _) as [c3 status3]. destruct Hres as [Hsame Ho3].
  destruct (same_but_buffer_frame c2 c3 Hsame) as (E1 & E2 & _ & Hok & _ & _). specialize (Hok Hrej).
  destruct (bool_decide (status3 = SALTS_OK)) eqn:Es3.
  2:{ apply bool_decide_eq_false in Es3. rewrite ?(bool_decide_false (status3 = SALTS_OK)) by done. cbn [negb]. split; [apply request_connection_ok; [done|by rewrite E1]|right; by right]. }
  pose proof (serialize_whole (cn_builder c3) (request <| rv_protocol_keep_alive := false |>) (hc_date_ms clock) (cn_outbound_capacity c3)
    (cn_outbound c3) true (ck_response _ _ Hok) ltac:(by rewrite E1)) as Hser.
  unfold chttp_server_response_serialize. destruct (chttp_server_response_serialize_impl _ _ _ _ _ _) as [outbound status4].
  destruct Hser as [(-> & wire & -> & Hl & Hm)|(Hne & -> & _)].
  - rewrite bool_decide_true by done. cbn [negb]. split; [by apply request_connection_ok; [destruct Hok|]|]. right. left.
    split_and!; try done. exists wire. split; [cbn; by rewrite E1|]. apply Hrejected. rewrite E2 in Hm. by exists st1, st2.
  - rewrite bool_decide_false by done. cbn [negb]. split; [apply request_connection_ok; [done|cbn; by rewrite E1]|]. right. right. done.
Qed.

(** ** Requests one after the other *)

(** A request as the parser reports it, with the readings of the clocks. *)
Record pipelined := {
  pr_request : chttp_server_request_view;
  pr_headers : list (list Z * list Z);
  pr_headers_clock : headers_clock;
  pr_clock : dispatch_clock;
  pr_date_ms : Z;
}.

(** The calls of the parser for a request without a body; the flag is whether
    the parser goes on. *)
Definition serve c (p : pipelined) : chttp_server_connection App * bool :=
  let '(c, status, action) := chttp_server_on_headers config c (pr_request p) (pr_headers p) (pr_headers_clock p) in
  match status, action with
  | SALTS_OK, HeadersContinue =>
    let '(c, result) := chttp_server_on_request config c (pr_request p) (pr_headers p) (pr_clock p) (pr_date_ms p) in
    (c, match result with RequestStatus SALTS_OK => true | _ => false end)
  | _, _ => (c, false)
  end.

Fixpoint serve_all c (ps : list pipelined) : chttp_server_connection App :=
  match ps with
  | [] => c
  | p :: ps => let '(c, more) := serve c p in if more then serve_all c ps else c
  end.

(** How many of them let the parser go on. *)
Fixpoint served c (ps : list pipelined) : nat :=
  match ps with
  | [] => 0
  | p :: ps => let '(c, more) := serve c p in if more then S (served c ps) else 0
  end.

(** The answer to a request on a connection, as that request finds it: the
    response of its own dispatch, or of its own rejection. *)
Inductive answers c (p : pipelined) (wire : list Z) : Prop :=
  | AnsweredByHandlers c1 :
      chttp_server_on_headers config c (pr_request p) (pr_headers p) (pr_headers_clock p) = (c1, SALTS_OK, HeadersContinue) ->
      dispatched c1 (pr_request p) (pr_headers p) (pr_clock p) (pr_date_ms p) (serve c p).1 wire -> answers c p wire
  | AnsweredByRejection :
      rejected c (pr_request p) (pr_headers p) (pr_headers_clock p) wire ->
      (serve c p).2 = false -> cn_close_after_write (serve c p).1 = true -> answers c p wire.

(** Why there is no answer, for now or at all. *)
Inductive unanswered c (p : pipelined) : Prop :=
  | HeadersFailed c1 status action :
      chttp_server_on_headers config c (pr_request p) (pr_headers p) (pr_headers_clock p) = (c1, status, action) ->
      status <> SALTS_OK -> unanswered c p
  | Undispatched c1 :
      chttp_server_on_headers config c (pr_request p) (pr_headers p) (pr_headers_clock p) = (c1, SALTS_OK, HeadersContinue) ->
      undispatched c1 (pr_request p) (pr_headers p) (pr_clock p) (pr_date_ms p) -> unanswered c p.

Lemma serve_spec c p c' more : connection_ok c -> serve c p = (c', more) ->
  connection_ok c' /\ ((exists wire, adds c c' wire /\ answers c p wire) \/ (more = false /\ adds c c' [] /\ unanswered c p)).
Proof.
  intros Hc Es. assert ((serve c p).1 = c' /\ (serve c p).2 = more) as [E1 E2] by (by rewrite Es). unfold serve in Es.
  pose proof (headers_spec c (pr_request p) (pr_headers p) (pr_headers_clock p) Hc) as Hh.
  destruct (chttp_server_on_headers config c _ _ _) as [[c1 status] action] eqn:Eh in Es, Hh.
  destruct Hh as (Hc1 & [(-> & -> & Ha & Hr)|[(-> & -> & Hcl & wire & Ha & Hm)|(Hne & Ha)]]).
  - pose proof (request_spec c1 (pr_request p) (pr_headers p) (pr_clock p) (pr_date_ms p) Hr (co_outbound c1 Hc1)) as Hq.
    destruct (chttp_server_on_request _ _ _ _ _ _) as [c2 result] in Es, Hq. unfold adds in *. rewrite app_nil_r in Ha. rewrite Ha in Hq.
    injection Es as -> Em. destruct Hq as (Hc2 & [(wire & Hw & Hm & Hres)|(Hw & Hd & Hn)]); (split; [done|]).
    + left. exists wire. split; [done|]. eapply AnsweredByHandlers; [exact Eh|]. by rewrite E1.
    + right. split_and!; [rewrite <- Em; by destruct result as [|[]]|done|by eapply Undispatched].
  - injection Es as -> Em. split; [done|]. left. exists wire. split; [done|]. apply AnsweredByRejection; [done|by rewrite E2|by rewrite E1].
  - assert ((c', more) = (c1, false)) as [= -> ->] by (by destruct status, action). split; [done|].
    right. split_and!; [done|done|by eapply HeadersFailed].
Qed.


End Requests.

End Connections.

End ConnectionTheorems.

(** * A connection of a small server: the instances of the theorems *)

Module ConnectionExample.
Import Decimal HpackBuffer Router Http1Parser ServerBuffer RateLimit Session SessionTheorems Response
  ResponseTheorems ResponseWire Jwt JwtTheorems Middleware Cors CorsTheorems Interceptor Request RequestTheorems RequestExample
  Connection ConnectionTheorems.

#[local] Existing Instance unlimited_allocator.
#[local] Existing Instance one_token.
#[local] Existing Instance one_day.

Definition every_wrapper : MemWrap := fun _ => true.
#[local] Existing Instance every_wrapper.

(** The state of the application is what its file has still to give. *)
Definition file_reader : BodySources (list Z) := fun _ capacity rest => (zdrop capacity rest, SALTS_OK, ztake capacity rest).
#[local] Existing Instance file_reader.

Definition file_source : chttp_body_source := {| bs_read := 1; bs_content_length := 5; bs_content_length_known := true |}.

(** Handler 1 answers with a page, any other with the file. *)
Definition site_callbacks : Callbacks (list Z) := {|
  middleware_fn fn request s := return_next s;
  handler_fn fn user request s :=
    if fn =? 1 then chttp_server_reply_to s 200 (Some (bytes_of "text/plain")) (bytes_of "page")
    else header_call s (fun b => chttp_server_response_source_with_cleanup b 200 None file_source (Some 77));
  admission_fn fn request app := (app, admission_zero, SALTS_OK);
  body_open_fn fn user request app := (app, Err SALTS_EINVAL);
  body_write_fn write user data app := (app, SALTS_OK);
  body_close_fn fn user sink status app := app;
|}.
#[local] Existing Instance site_callbacks.

#[local] Instance site_lawful : LawfulCallbacks SessionTheorems.example_config site_callbacks.
Proof.
  constructor.
  - intros fn request s Hs. by split.
  - intros fn user request s Hs. cbn [handler_fn site_callbacks]. destruct (fn =? 1); [by apply reply_to_ok|].
    apply header_call_ok; [done|].
    pose proof (source_op_ok (cs_world s) (cs_response s) 200 None file_source (Some 77) (ck_response _ _ Hs)) as H.
    unfold chttp_server_response_source_with_cleanup. destruct (chttp_server_response_source_owned _ _ _ _ _) as [b st].
    apply H. vm_compute. split; discriminate.
Qed.

Definition site_route (path : list Z) (handler : Z) : chttp_server_route_record :=
  {| rr_method := CHTTP_METHOD_GET; rr_path := path; rr_middleware := []; rr_param_count := 0;
     rr_handler := UserHandler handler; rr_user := 0; rr_body_open := None; rr_body_close := None;
     rr_jwt_bearer_validator := None; rr_websocket_open := None; rr_websocket_event := None;
     rr_websocket_max_frame_bytes := 0; rr_websocket_max_message_bytes := 0;
     rr_websocket_max_buffered_input_bytes := 0; rr_websocket_user := 0; rr_websocket := false; rr_dynamic := false |}.

Definition site_config : connection_config :=
  {| cc_setup :=
       {| su_routes := [site_route (bytes_of "/page") 1; site_route (bytes_of "/file") 2];
          su_route_config := {| sc_max_target_bytes := 100; sc_route_capacity := 4; sc_max_route_param_count := 4;
            sc_max_route_param_bytes := 64; sc_max_route_middleware_count := 2; sc_max_send_bytes := 4096 |};
          su_middleware := []; su_sessions := SessionTheorems.example_config;
          su_deadlines := {| dl_headers_ms := 0; dl_body_ms := 0; dl_handler_ms := 0 |};
          su_validators := fun _ => None; su_jwt_bearer_validator := None; su_admission := None |};
     cc_max_send_bytes := 4096; cc_max_response_wire_bytes := 1024; cc_stream_chunk_bytes := 3;
     cc_tls_initialized := false |}.

Definition site_state : chttp_server_request_state (list Z) :=
  {| rs_call := {| cs_world := response_world; cs_response := wide_builder; cs_sessions := example_store;
                   cs_session := SessionTheorems.example_context; cs_app := bytes_of "12345" |};
     rs_params := {| Router.rs_params := []; rs_param_storage_used := 0; rs_param_storage_capacity := 64 |};
     rs_jwt_claims := None; rs_admitted_route := None; rs_admitted_allowed_methods := 0; rs_admitted_fallback_status := 0;
     rs_admission_complete := false; rs_admission_rejected := false; rs_admission_result := admission_zero;
     rs_deadline_ms := 0; rs_body_route := None; rs_body_sink := None; rs_body_sink_user := None; rs_body_sink_open := false;
     rs_body_was_streamed := false;
     rs_stats := {| st_requests := 0; st_responses := 0; st_protocol_errors := 0; st_handler_errors := 0 |}; rs_sink_calls := [] |}.

Definition site_connection : chttp_server_connection (list Z) :=
  {| cn_request_state := site_state; cn_outbound := []; cn_outbound_capacity := 0; cn_outbound_retained := None;
     cn_wire_protocol := CHTTP_SERVER_WIRE_HTTP_1_1; cn_close_after_write := false; cn_response_streaming := false;
     cn_response_source_chunked := false; cn_response_close_after_stream := false; cn_retained_response_paused := false;
     cn_retained_response_sg := false; cn_retained_response_sg_body_size := 0 |}.

Definition get (path : list Z) : pipelined :=
  {| pr_request := page_request <| rv_path := path |>; pr_headers := [(bytes_of "Host", bytes_of "a")];
     pr_headers_clock := {| hc_entry := 1; hc_start := 1; hc_seconds := 1; hc_date_ms := 784111777000 |};
     pr_clock := {| dc_entry := 2; dc_start := 2; dc_session := 2; dc_return := 3; dc_finish := 3 |};
     pr_date_ms := 784111777000 |}.

Lemma site_connection_ok : connection_ok site_config site_connection.
Proof.
  destruct page_call_ok as [Hb Hs Hc]. split.
  - exists wide_builder. split; [exact Hb|apply same_limits_refl].
  - exact Hs.
  - exact Hc.
  - discriminate.
Qed.


(** The connection that streams the file, when the head has been sent. *)
Definition streaming_connection : chttp_server_connection (list Z) :=
  (serve_all site_config site_connection [get (bytes_of "/file")]) <| cn_outbound := [] |>.

Definition kept (rest : list Z) : list Z := rest.

Definition anything (rest : list Z) : Prop := True.

#[local] Instance file_lawful : LawfulSource (bs_read file_source) anything kept.
Proof.
  intros app capacity _ Hc. unfold file_source, source_read, file_reader, kept. split_and!.
  - reflexivity.
  - exact I.
  - symmetry. apply ztake_zdrop.
  - unfold zlen, ztake. rewrite length_take. lia.
  - destruct app as [|x app]; [done|]. unfold ztake. destruct (Z.to_nat capacity) eqn:E; [lia|done].
Qed.

Lemma streamed_body_on_wire_witness :
  exists c, stream_all site_config 6 streaming_connection = Some (bytes_of "12345", c, SALTS_OK) /\
    w_cleanups (cn_world c) = [(77, SALTS_OK)] /\ cn_response_streaming c = false.
Proof.
  assert (streaming site_config file_source anything streaming_connection) as Hst.
  { split; [split|..]; try (vm_compute; reflexivity); try (vm_compute; discriminate). eexists; split; vm_compute; reflexivity. }
  destruct (streamed_body_on_wire site_config file_source anything kept streaming_connection Hst ltac:(discriminate)) as (sent & c & Hall & He & Hp & _).
  assert (content_size : kept (app_of streaming_connection) = bytes_of "12345") by (vm_compute; reflexivity).
  assert (stream_status file_source (zlen (kept (app_of streaming_connection))) (remaining_of file_source streaming_connection) = SALTS_OK) as Hok
    by (vm_compute; reflexivity).
  assert (cn_response_source_chunked streaming_connection = false) as Hch by (vm_compute; reflexivity).
  destruct (Hp Hch) as [_ Hs]. specialize (Hs Hok). rewrite content_size in Hs. rewrite Hok, content_size in Hall. subst sent.
  exists c. split; [exact Hall|]. destruct He as [H1 _ _ H2 _]. split; [|exact H1]. rewrite H2, Hok. vm_compute. reflexivity.
Defined.

(** A request that arrives together with one whose response is streamed is not
    held back: its response follows the head of the first, whose body has not
    been sent, and the source of that body is cancelled; the stream then fails.
    A client reads the second response as the body of the first. *)
Lemma pipelined_request_cuts_stream :
  let c := serve_all site_config site_connection [get (bytes_of "/file"); get (bytes_of "/page")] in
  (exists head page, cn_outbound c = head ++ page /\
     read_message head = Some (bytes_of "HTTP/1.1 200 OK",
       [(bytes_of "Date", page_date); (bytes_of "Content-Length", bytes_of "5"); (bytes_of "Connection", bytes_of "keep-alive")], []) /\
     read_message page = Some (bytes_of "HTTP/1.1 200 OK",
       [(bytes_of "Date", page_date); (bytes_of "Content-Type", bytes_of "text/plain"); (bytes_of "Content-Length", bytes_of "4");
        (bytes_of "Connection", bytes_of "keep-alive")], bytes_of "page")) /\
  cn_response_streaming c = true /\ w_cleanups (cn_world c) = [(77, SALTS_ECANCELED)] /\
  (chttp_server_response_stream_next site_config (c <| cn_outbound := [] |>)).2 = SALTS_EPROTO.
Proof.
  cbv zeta. split; [|vm_compute; split_and!; reflexivity].
  exists (cn_outbound (serve_all site_config site_connection [get (bytes_of "/file")])).
  exists (cn_outbound (serve_all site_config site_connection [get (bytes_of "/page")])).
  split_and!; vm_compute; reflexivity.
Qed.

End ConnectionExample.
