(* ===== verification/WebSocketHandshake.v ===== *)
(** * The opening handshake of WebSocket

    Model of [http_common/http/chttp_websocket_handshake.c]: the key of the
    client, the value that accepts it, what the server demands of a request, and
    what the client demands of the response.

    The views of the vstr library are byte strings.  Its searches and
    comparisons, base64, SHA-1 and the tokenizer of responses are not part of
    the repository: they are the parameters of the classes below.  A [NULL]
    argument is outside of the model; an array that is filled is a result. *)

From Equations Require Import Equations.
From S2P Require Import Prelude HpackBuffer Router Http1Parser.

Module WebSocketHandshake.
Import HpackBuffer Router Http1Parser.

Definition CHTTP_WEBSOCKET_KEY_BYTES : Z := 24.
Definition CHTTP_WEBSOCKET_ACCEPT_BYTES : Z := 28.
Definition CHTTP_WEBSOCKET_KEY_CAPACITY : Z := CHTTP_WEBSOCKET_KEY_BYTES + 1.
Definition CHTTP_WEBSOCKET_ACCEPT_CAPACITY : Z := CHTTP_WEBSOCKET_ACCEPT_BYTES + 1.
Definition CHTTP_WEBSOCKET_NONCE_BYTES : Z := 16.
Definition CHTTP_WEBSOCKET_GUID : list Z := bytes_of "258EAFA5-E914-47DA-95CA-C5AB0DC85B11".

(** ** The libraries *)

Class VstrText := {
  vstr_trim : list Z -> list Z -> list Z;
  vstr_eq : list Z -> list Z -> bool;
  vstr_ieq : list Z -> list Z -> bool;
}.

(** How decoding fails. *)
Inductive base64_error := TN_BASE64_ERR_NO_MEMORY | TN_BASE64_ERR_OTHER.

(** [tn_base64_encode_buf_ex] writes the text and its terminator into an array
    of the given capacity. *)
Class Base64 := {
  tn_base64_encode_buf_ex : list Z -> Z -> option (list Z);
  tn_base64_decode_ex : list Z -> list Z + base64_error;
}.

(** [None] is a failure. *)
Class Sha1 := cmeta_sha1 : list Z -> option (list Z).

(** The callbacks that the tokenizer runs on a response; the last one reads the
    status and the version of the message. *)
Inductive response_event :=
  | ReHeaderField (at_ : list Z)
  | ReHeaderFieldComplete
  | ReHeaderValue (at_ : list Z)
  | ReHeaderValueComplete
  | ReHeadersComplete (status_code http_major http_minor : Z).

(** A parser for responses, initialised and run once. *)
Class LlhttpResponse :=
  llhttp_execute_response : forall {S : Type}, (S -> response_event -> S * cb_result) ->
    S -> list Z -> S * ll_errno.

(** ** Values of headers *)

Section Handshake.
Context {search : VstrSearch} {text : VstrText}.

Definition OWS : list Z := [SPACE; TAB].

Definition chttp_websocket_trim_ows (value : list Z) : list Z := vstr_trim value OWS.

(** The loop over the members of a list.  A position of a byte is a [size_t]. *)
Equations? chttp_websocket_header_has_token (rest wanted : list Z) : bool by wf (length rest) lt :=
  chttp_websocket_header_has_token [] wanted := false;
  chttp_websocket_header_has_token (c :: rest) wanted with vstr_find_char (c :: rest) 44 => {
    | None := vstr_ieq (chttp_websocket_trim_ows (c :: rest)) wanted;
    | Some comma :=
        if vstr_ieq (chttp_websocket_trim_ows (ztake comma (c :: rest))) wanted then true
        else chttp_websocket_header_has_token (drop (Z.to_nat comma) rest) wanted }.
Proof. rewrite length_drop. cbn. lia. Qed.

Definition chttp_websocket_content_length_zero (value : list Z) : bool :=
  let trimmed := chttp_websocket_trim_ows value in
  negb (zlen trimmed =? 0) && forallb (fun c => c =? 48) trimmed.

(** ** Keys *)

Context {base64 : Base64} {sha1 : Sha1}.

Definition chttp_websocket_accept_compute (key : list Z) (output_capacity : Z) : outcome (list Z) :=
  if negb (zlen key =? CHTTP_WEBSOCKET_KEY_BYTES) || (output_capacity <? CHTTP_WEBSOCKET_ACCEPT_CAPACITY)
  then Err SALTS_EINVAL
  else
    match cmeta_sha1 (key ++ CHTTP_WEBSOCKET_GUID) with
    | None => Err SALTS_EIO
    | Some digest =>
      match tn_base64_encode_buf_ex digest output_capacity with
      | None => Err SALTS_EMSGSIZE
      | Some output =>
        if zlen output =? CHTTP_WEBSOCKET_ACCEPT_BYTES then Ok output else Err SALTS_EPROTO
      end
    end.

(** [random] is what the platform gives: sixteen bytes or an error. *)
Definition chttp_websocket_client_key_generate (random : list Z + salts_status) (output_capacity : Z) :
    outcome (list Z) :=
  if output_capacity <? CHTTP_WEBSOCKET_KEY_CAPACITY then Err SALTS_EINVAL
  else
    match random with
    | inr status => Err status
    | inl nonce =>
      match tn_base64_encode_buf_ex nonce output_capacity with
      | Some output => Ok output
      | None => Err SALTS_EMSGSIZE
      end
    end.

(** ** The client *)

(** [expect_subprotocol] is whether there is an expected subprotocol; the
    collected field and value have their sizes. *)
Record chttp_websocket_client_handshake_parser := {
  hp_field : list Z;
  hp_value : list Z;
  hp_expected_accept : list Z;
  hp_expected_subprotocol : option (list Z);
  hp_capacity : Z;
  hp_accept_count : Z;
  hp_subprotocol_count : Z;
  hp_http_status : Z;
  hp_upgrade : bool;
  hp_connection_upgrade : bool;
  hp_accept_matches : bool;
  hp_subprotocol_matches : bool;
  hp_headers_complete : bool;
  hp_protocol_version : bool;
  hp_invalid_framing : bool;
  hp_unsupported_negotiation : bool;
  hp_overflow : bool;
}.

#[export] Instance eta_hp : Eta chttp_websocket_client_handshake_parser :=
  fun c => Build_chttp_websocket_client_handshake_parser (hp_field c) (hp_value c) (hp_expected_accept c)
    (hp_expected_subprotocol c) (hp_capacity c) (hp_accept_count c) (hp_subprotocol_count c)
    (hp_http_status c) (hp_upgrade c) (hp_connection_upgrade c) (hp_accept_matches c)
    (hp_subprotocol_matches c) (hp_headers_complete c) (hp_protocol_version c) (hp_invalid_framing c)
    (hp_unsupported_negotiation c) (hp_overflow c).
#[export] Instance set_hp_field : Setter hp_field. Proof. mk_setter. Defined.
#[export] Instance set_hp_value : Setter hp_value. Proof. mk_setter. Defined.
#[export] Instance set_hp_accept_count : Setter hp_accept_count. Proof. mk_setter. Defined.
#[export] Instance set_hp_subprotocol_count : Setter hp_subprotocol_count. Proof. mk_setter. Defined.
#[export] Instance set_hp_http_status : Setter hp_http_status. Proof. mk_setter. Defined.
#[export] Instance set_hp_upgrade : Setter hp_upgrade. Proof. mk_setter. Defined.
#[export] Instance set_hp_connection_upgrade : Setter hp_connection_upgrade. Proof. mk_setter. Defined.
#[export] Instance set_hp_accept_matches : Setter hp_accept_matches. Proof. mk_setter. Defined.
#[export] Instance set_hp_subprotocol_matches : Setter hp_subprotocol_matches. Proof. mk_setter. Defined.
#[export] Instance set_hp_headers_complete : Setter hp_headers_complete. Proof. mk_setter. Defined.
#[export] Instance set_hp_protocol_version : Setter hp_protocol_version. Proof. mk_setter. Defined.
#[export] Instance set_hp_invalid_framing : Setter hp_invalid_framing. Proof. mk_setter. Defined.
#[export] Instance set_hp_unsupported_negotiation : Setter hp_unsupported_negotiation. Proof. mk_setter. Defined.
#[export] Instance set_hp_overflow : Setter hp_overflow. Proof. mk_setter. Defined.

(** The context before the tokenizer runs. *)
Definition handshake_context (size : Z) (expected_accept : list Z) (expected_subprotocol : option (list Z)) :
    chttp_websocket_client_handshake_parser :=
  {| hp_field := []; hp_value := []; hp_expected_accept := expected_accept;
     hp_expected_subprotocol := expected_subprotocol; hp_capacity := size + 1; hp_accept_count := 0;
     hp_subprotocol_count := 0; hp_http_status := 0; hp_upgrade := false; hp_connection_upgrade := false;
     hp_accept_matches := false; hp_subprotocol_matches := false; hp_headers_complete := false;
     hp_protocol_version := false; hp_invalid_framing := false; hp_unsupported_negotiation := false;
     hp_overflow := false |}.

Implicit Types c : chttp_websocket_client_handshake_parser.

Definition chttp_websocket_client_header_field c (at_ : list Z) :
    chttp_websocket_client_handshake_parser * cb_result :=
  if (hp_capacity c <? zlen (hp_field c)) || (hp_capacity c - zlen (hp_field c) <? zlen at_) then
    (c <| hp_overflow := true |>, CbUser)
  else (c <| hp_field := hp_field c ++ at_ |>, CbOk).

Definition chttp_websocket_client_header_field_complete c :
    chttp_websocket_client_handshake_parser * cb_result :=
  (c, if hp_capacity c <? zlen (hp_field c) then CbUser else CbOk).

Definition chttp_websocket_client_header_value c (at_ : list Z) :
    chttp_websocket_client_handshake_parser * cb_result :=
  if (hp_capacity c <? zlen (hp_value c)) || (hp_capacity c - zlen (hp_value c) <? zlen at_) then
    (c <| hp_overflow := true |>, CbUser)
  else (c <| hp_value := hp_value c ++ at_ |>, CbOk).

(** What a header means to the handshake. *)
Definition client_header c (field value : list Z) : chttp_websocket_client_handshake_parser :=
  if vstr_ieq field (bytes_of "Upgrade") then
    c <| hp_upgrade := hp_upgrade c || chttp_websocket_header_has_token value (bytes_of "websocket") |>
  else if vstr_ieq field (bytes_of "Connection") then
    c <| hp_connection_upgrade :=
           hp_connection_upgrade c || chttp_websocket_header_has_token value (bytes_of "upgrade") |>
  else if vstr_ieq field (bytes_of "Sec-WebSocket-Accept") then
    let trimmed := chttp_websocket_trim_ows value in
    c <| hp_accept_count := hp_accept_count c + 1 |>
      <| hp_accept_matches := (zlen trimmed =? CHTTP_WEBSOCKET_ACCEPT_BYTES) &&
                              vstr_eq trimmed (hp_expected_accept c) |>
  else if vstr_ieq field (bytes_of "Content-Length") || vstr_ieq field (bytes_of "Transfer-Encoding") then
    c <| hp_invalid_framing := true |>
  else if vstr_ieq field (bytes_of "Sec-WebSocket-Protocol") then
    let trimmed := chttp_websocket_trim_ows value in
    c <| hp_subprotocol_count := hp_subprotocol_count c + 1 |>
      <| hp_subprotocol_matches :=
           match hp_expected_subprotocol c with Some expected => vstr_eq trimmed expected | None => false end |>
  else if vstr_ieq field (bytes_of "Sec-WebSocket-Extensions") then
    c <| hp_unsupported_negotiation := true |>
  else c.

Definition chttp_websocket_client_header_value_complete c :
    chttp_websocket_client_handshake_parser * cb_result :=
  if hp_capacity c <? zlen (hp_value c) then (c, CbUser)
  else ((client_header c (hp_field c) (hp_value c)) <| hp_field := [] |> <| hp_value := [] |>, CbOk).

Definition chttp_websocket_client_headers_complete c (status_code http_major http_minor : Z) :
    chttp_websocket_client_handshake_parser * cb_result :=
  (c <| hp_http_status := status_code |>
     <| hp_protocol_version := (http_major =? 1) && (http_minor =? 1) |>
     <| hp_headers_complete := true |>, CbUpgrade).

(** The settings of the tokenizer. *)
Definition client_callback c (event : response_event) : chttp_websocket_client_handshake_parser * cb_result :=
  match event with
  | ReHeaderField at_ => chttp_websocket_client_header_field c at_
  | ReHeaderFieldComplete => chttp_websocket_client_header_field_complete c
  | ReHeaderValue at_ => chttp_websocket_client_header_value c at_
  | ReHeaderValueComplete => chttp_websocket_client_header_value_complete c
  | ReHeadersComplete status_code http_major http_minor =>
    chttp_websocket_client_headers_complete c status_code http_major http_minor
  end.

(** The verdict on the context that the tokenizer leaves. *)
Definition client_accepts c (parse_status : ll_errno) : bool :=
  match parse_status with HPE_PAUSED_UPGRADE | HPE_OK => true | _ => false end &&
  hp_headers_complete c && hp_protocol_version c && (hp_http_status c =? 101) && hp_upgrade c &&
  hp_connection_upgrade c && (hp_accept_count c =? 1) && hp_accept_matches c &&
  match hp_expected_subprotocol c with
  | None => hp_subprotocol_count c =? 0
  | Some _ => (hp_subprotocol_count c =? 1) && hp_subprotocol_matches c
  end &&
  negb (hp_invalid_framing c) && negb (hp_unsupported_negotiation c).

Context {alloc : Allocator} {tokenizer : LlhttpResponse}.

(** The status of the call and the one of the response. *)
Definition chttp_websocket_client_handshake_validate (data expected_accept : list Z)
    (expected_subprotocol : option (list Z)) : salts_status * Z :=
  let size := zlen data in
  if (size =? 0) || negb (zlen expected_accept =? CHTTP_WEBSOCKET_ACCEPT_BYTES) || (size =? SIZE_MAX) then
    (SALTS_EINVAL, 0)
  else if negb (malloc_ok (size + 1)) then (SALTS_ENOMEM, 0)
  else
    let '(c, parse_status) :=
      llhttp_execute_response client_callback (handshake_context size expected_accept expected_subprotocol) data in
    (if client_accepts c parse_status then SALTS_OK
     else if hp_overflow c then SALTS_EMSGSIZE else SALTS_EPROTO, hp_http_status c).

(** ** The server *)

(** The key, when it is the canonical form of sixteen bytes. *)
Definition chttp_websocket_key_validate (value : list Z) : outcome (list Z) :=
  let key := chttp_websocket_trim_ows value in
  if negb (zlen key =? CHTTP_WEBSOCKET_KEY_BYTES) then Err SALTS_EPROTO
  else
    match tn_base64_decode_ex key with
    | inr TN_BASE64_ERR_NO_MEMORY => Err SALTS_ENOMEM
    | inr _ => Err SALTS_EPROTO
    | inl decoded =>
      if zlen decoded =? CHTTP_WEBSOCKET_NONCE_BYTES then
        match tn_base64_encode_buf_ex decoded CHTTP_WEBSOCKET_KEY_CAPACITY with
        | Some canonical => if bytes_eqb canonical key then Ok key else Err SALTS_EPROTO
        | None => Err SALTS_EPROTO
        end
      else Err SALTS_EPROTO
    end.

(** The local variables of the loop over the headers; [key_seen] and
    [version_seen] are whether there is a value. *)
Record handshake_scan := {
  wh_key_value : option (list Z);
  wh_version_value : option (list Z);
  wh_upgrade : bool;
  wh_connection_upgrade : bool;
  wh_host_count : Z;
  wh_key_count : Z;
  wh_version_count : Z;
}.

#[export] Instance eta_wh : Eta handshake_scan :=
  fun s => Build_handshake_scan (wh_key_value s) (wh_version_value s) (wh_upgrade s) (wh_connection_upgrade s)
    (wh_host_count s) (wh_key_count s) (wh_version_count s).
#[export] Instance set_wh_key_value : Setter wh_key_value. Proof. mk_setter. Defined.
#[export] Instance set_wh_version_value : Setter wh_version_value. Proof. mk_setter. Defined.
#[export] Instance set_wh_upgrade : Setter wh_upgrade. Proof. mk_setter. Defined.
#[export] Instance set_wh_connection_upgrade : Setter wh_connection_upgrade. Proof. mk_setter. Defined.
#[export] Instance set_wh_host_count : Setter wh_host_count. Proof. mk_setter. Defined.
#[export] Instance set_wh_key_count : Setter wh_key_count. Proof. mk_setter. Defined.
#[export] Instance set_wh_version_count : Setter wh_version_count. Proof. mk_setter. Defined.

Definition handshake_scan_start : handshake_scan :=
  {| wh_key_value := None; wh_version_value := None; wh_upgrade := false; wh_connection_upgrade := false;
     wh_host_count := 0; wh_key_count := 0; wh_version_count := 0 |}.

(** [None] is the return on a header that frames a body. *)
Definition handshake_header (s : handshake_scan) (h : list Z * list Z) : option handshake_scan :=
  let '(name, value) := h in
  if vstr_ieq name (bytes_of "Host") then Some (s <| wh_host_count := wh_host_count s + 1 |>)
  else if vstr_ieq name (bytes_of "Upgrade") then
    Some (s <| wh_upgrade := wh_upgrade s || chttp_websocket_header_has_token value (bytes_of "websocket") |>)
  else if vstr_ieq name (bytes_of "Connection") then
    Some (s <| wh_connection_upgrade :=
                 wh_connection_upgrade s || chttp_websocket_header_has_token value (bytes_of "upgrade") |>)
  else if vstr_ieq name (bytes_of "Sec-WebSocket-Key") then
    Some (s <| wh_key_count := wh_key_count s + 1 |> <| wh_key_value := Some value |>)
  else if vstr_ieq name (bytes_of "Sec-WebSocket-Version") then
    Some (s <| wh_version_count := wh_version_count s + 1 |> <| wh_version_value := Some value |>)
  else if vstr_ieq name (bytes_of "Transfer-Encoding") ||
     (vstr_ieq name (bytes_of "Content-Length") && negb (chttp_websocket_content_length_zero value)) then None
  else Some s.

Fixpoint handshake_headers (s : handshake_scan) (headers : list (list Z * list Z)) : option handshake_scan :=
  match headers with
  | [] => Some s
  | h :: headers => match handshake_header s h with Some s => handshake_headers s headers | None => None end
  end.

(** The status of the call, the one to answer with, and the value of the header
    that accepts the key. *)
Record handshake_verdict := {
  hv_status : salts_status;
  hv_http_status : Z;
  hv_accept : list Z;
}.

Definition refuse (status : salts_status) (http_status : Z) : handshake_verdict :=
  {| hv_status := status; hv_http_status := http_status; hv_accept := [] |}.

Definition chttp_websocket_server_handshake_validate (request : chttp_server_request_view)
    (headers : list (list Z * list Z)) (accept_capacity : Z) : handshake_verdict :=
  if accept_capacity <? CHTTP_WEBSOCKET_ACCEPT_CAPACITY then refuse SALTS_EINVAL 0
  else if negb (rv_method request =? CHTTP_METHOD_GET) || negb (rv_http_major request =? 1) ||
     negb (rv_http_minor request =? 1) || negb (rv_body_size request =? 0) || rv_body_streamed request then
    refuse SALTS_EPROTO 400
  else
    match handshake_headers handshake_scan_start headers with
    | None => refuse SALTS_EPROTO 400
    | Some s =>
      if negb (wh_host_count s =? 1) || negb (wh_upgrade s) || negb (wh_connection_upgrade s) ||
         negb (wh_key_count s =? 1) || negb (wh_version_count s =? 1) then refuse SALTS_EPROTO 400
      else
        match wh_key_value s, wh_version_value s with
        | Some key_value, Some version_value =>
          if negb (vstr_eq (chttp_websocket_trim_ows version_value) (bytes_of "13")) then
            refuse SALTS_EPROTONOSUPPORT 426
          else
            match chttp_websocket_key_validate key_value with
            | Err status => refuse status (if bool_decide (status = SALTS_ENOMEM) then 500 else 400)
            | Ok key =>
              match chttp_websocket_accept_compute key accept_capacity with
              | Err status => refuse status (if bool_decide (status = SALTS_EMSGSIZE) then 500 else 400)
              | Ok accept => {| hv_status := SALTS_OK; hv_http_status := 0; hv_accept := accept |}
              end
            end
        | _, _ => refuse SALTS_EPROTO 400
        end
    end.

End Handshake.

End WebSocketHandshake.
