(* ===== verification/WebSocketHandshakeTheorems.v ===== *)
(** * Theorems about the opening handshake

    The request that the server accepts, as a condition on its headers; the
    response that the client accepts, whatever way the tokenizer cuts it; and
    the keys. *)

From Equations Require Import Equations.
From S2P Require Import Prelude Decimal HpackBuffer Router Http1Parser Http1ParserTheorems.
From S2P Require Import ServerBuffer Response ResponseTheorems ResponseWire WebSocketHandshake.

Module WebSocketHandshakeTheorems.
Import Decimal HpackBuffer Router Http1Parser Http1ParserTheorems ServerBuffer Response ResponseWire WebSocketHandshake.

(** ** What the libraries promise *)

Class LawfulVstrText (text : VstrText) : Prop := {
  vstr_trim_ows : forall s, vstr_trim s OWS = chttp_server_trim_ows s;
  vstr_eq_bytes : forall a b, vstr_eq a b = bytes_eqb a b;
  vstr_ieq_bytes : forall a b, vstr_ieq a b = chttp_server_ascii_equal a b;
}.

(** The length of the text, the characters of its alphabet, and that decoding
    undoes encoding unless it runs out of memory. *)
Class LawfulBase64 (base64 : Base64) : Prop := {
  base64_fits : forall s capacity, 4 * ((zlen s + 2) / 3) < capacity ->
    is_Some (tn_base64_encode_buf_ex s capacity);
  base64_length : forall s capacity t, tn_base64_encode_buf_ex s capacity = Some t ->
    zlen t = 4 * ((zlen s + 2) / 3);
  base64_text : forall s capacity t, tn_base64_encode_buf_ex s capacity = Some t ->
    forallb (fun c => value_char c && negb (is_ows c)) t = true;
  base64_capacity : forall s n m t u, tn_base64_encode_buf_ex s n = Some t ->
    tn_base64_encode_buf_ex s m = Some u -> t = u;
  base64_decode : forall s capacity t, is_bytes s -> tn_base64_encode_buf_ex s capacity = Some t ->
    tn_base64_decode_ex t = inl s \/ tn_base64_decode_ex t = inr TN_BASE64_ERR_NO_MEMORY;
}.

Class LawfulSha1 (sha1 : Sha1) : Prop :=
  sha1_length : forall s digest, cmeta_sha1 s = Some digest -> zlen digest = 20.

(** ** Blanks *)

Lemma drop_ows_app a s : forallb is_ows a = true -> drop_ows (a ++ s) = drop_ows s.
Proof. induction a as [|c a IH]; [done|]. cbn. intros [Hc Ha]%andb_true_iff. rewrite Hc. by apply IH. Qed.

Lemma drop_ows_ends s b : forallb is_ows b = true ->
  exists b', drop_ows (s ++ b) = drop_ows s ++ b' /\ forallb is_ows b' = true.
Proof.
  intros Hb. induction s as [|c s IH]; cbn.
  - exists []. split; [|done]. rewrite <- (app_nil_r b). by apply drop_ows_app.
  - destruct (is_ows c); [done|]. by exists b.
Qed.

Lemma forallb_reverse {A} (p : A -> bool) l : forallb p (reverse l) = forallb p l.
Proof.
  induction l as [|x l IH]; [done|]. rewrite reverse_cons, forallb_app, IH. cbn. by rewrite andb_true_r, andb_comm.
Qed.

Lemma trim_around a s b : forallb is_ows a = true -> forallb is_ows b = true ->
  chttp_server_trim_ows (a ++ s ++ b) = chttp_server_trim_ows s.
Proof.
  intros Ha Hb. unfold chttp_server_trim_ows. rewrite drop_ows_app by done.
  destruct (drop_ows_ends s b Hb) as (b' & -> & Hb'). rewrite reverse_app, drop_ows_app; [done|]. by rewrite forallb_reverse.
Qed.

Lemma trim_before a s : forallb is_ows a = true -> chttp_server_trim_ows (a ++ s) = chttp_server_trim_ows s.
Proof. intros Ha. rewrite <- (trim_around a s []) by done. by rewrite app_nil_r. Qed.

Lemma trim_after s b : forallb is_ows b = true -> chttp_server_trim_ows (s ++ b) = chttp_server_trim_ows s.
Proof. intros Hb. by rewrite <- (trim_around [] s b). Qed.

Lemma drop_ows_none s : forallb (fun c => negb (is_ows c)) s = true -> drop_ows s = s.
Proof. destruct s as [|c s]; [done|]. cbn. by destruct (is_ows c). Qed.

Lemma trim_none s : forallb (fun c => negb (is_ows c)) s = true -> chttp_server_trim_ows s = s.
Proof.
  intros Hs. unfold chttp_server_trim_ows. rewrite (drop_ows_none s), drop_ows_none by (by rewrite ?forallb_reverse).
  apply reverse_involutive.
Qed.

(** ** Lists of tokens *)

(** Whether a member of the list is the token. *)
Definition lists_token (value token : list Z) : bool :=
  existsb (fun member => chttp_server_ascii_equal (chttp_server_trim_ows member) token) (split_on COMMA value).

(** What follows a list belongs to its last part. *)
Lemma split_on_after x s b : forallb (fun c => negb (c =? x)) b = true ->
  exists parts part, split_on x s = parts ++ [part] /\ split_on x (s ++ b) = parts ++ [part ++ b].
Proof.
  intros Hb. induction s as [|c s (parts & part & E1 & E2)].
  - exists [], []. split; [done|]. rewrite app_nil_l, <- (app_nil_r b), split_on_app by done. cbn. by rewrite !app_nil_r.
  - cbn [app split_on]. rewrite E1, E2. destruct (c =? x); [by exists ([] :: parts), part|].
    destruct parts as [|p parts]; [by exists [], (c :: part)|by exists ((c :: p) :: parts), part].
Qed.

(** Blanks around a list do not matter. *)
Lemma lists_token_around a s b token : forallb is_ows a = true -> forallb is_ows b = true ->
  lists_token (a ++ s ++ b) token = lists_token s token.
Proof.
  intros Ha Hb. unfold lists_token.
  assert (Hc : forall l, forallb is_ows l = true -> forallb (fun c => negb (c =? COMMA)) l = true).
  { intros l. rewrite !forallb_forall. intros Hl c Hi. specialize (Hl c Hi). unfold is_ows, SPACE, TAB, COMMA in *. lia. }
  rewrite split_on_app by auto. destruct (split_on_after COMMA s b) as (parts & part & E1 & E2); [auto|].
  rewrite E1, E2. destruct parts as [|p parts]; cbn [app existsb].
  - by rewrite trim_around.
  - rewrite trim_before by done. f_equal. rewrite !existsb_app. cbn [existsb]. by rewrite trim_after.
Qed.

Section Values.
Context {search : VstrSearch} {search_law : LawfulVstr search} {text : VstrText} {text_law : LawfulVstrText text}.

(** The loop over a list finds a token where it is a member. *)
Lemma header_has_token_spec value token : token <> [] ->
  chttp_websocket_header_has_token value token = lists_token value token.
Proof.
  intros Ht. unfold lists_token. funelim (chttp_websocket_header_has_token value token); rewrite <- ?Heqcall; clear Heqcall.
  - cbn. destruct wanted; [done|]. done.
  - apply vstr_some in Heq as (before & after & E & Hl & Hn). rewrite E. rewrite <- Hl, ztake_app.
    assert (drop (Z.to_nat (zlen before)) rest = after) as Hd.
    { change (drop (S (Z.to_nat (zlen before))) (c :: rest) = after). rewrite E, to_nat_zlen.
      replace (before ++ 44 :: after) with ((before ++ [44]) ++ after) by (by rewrite <- app_assoc).
      apply drop_app_length'. rewrite length_app. cbn. lia. }
    rewrite <- Hl, Hd in H. rewrite Hd, H by done. rewrite split_on_app.
    + cbn [split_on existsb]. rewrite Z.eqb_refl, app_nil_r. cbn [existsb]. unfold chttp_websocket_trim_ows.
      rewrite vstr_trim_ows, vstr_ieq_bytes. by destruct (chttp_server_ascii_equal _ _).
    + apply forallb_forall. intros x Hx. apply negb_true_iff, Z.eqb_neq. intros ->. apply Hn. by apply list_elem_of_In.
  - apply vstr_none in Heq. rewrite <- (app_nil_r (c :: rest)), split_on_app.
    + cbn [split_on existsb]. rewrite orb_false_r, !app_nil_r. unfold chttp_websocket_trim_ows.
      by rewrite vstr_trim_ows, vstr_ieq_bytes.
    + apply forallb_forall. intros x Hx. apply negb_true_iff, Z.eqb_neq. intros ->. apply Heq. by apply list_elem_of_In.
Qed.

End Values.

(** ** Fields of a message *)

(** The values of the fields of that name, in their order. *)
Definition values (name : list Z) (headers : list (list Z * list Z)) : list (list Z) :=
  map snd (List.filter (fun h => chttp_server_ascii_equal h.1 name) headers).

Definition announces (headers : list (list Z * list Z)) (name token : list Z) : bool :=
  existsb (fun value => lists_token value token) (values name headers).

Definition has_field (headers : list (list Z * list Z)) (name : list Z) : bool :=
  existsb (fun h => chttp_server_ascii_equal h.1 name) headers.

Lemma values_cons name h headers : values name (h :: headers) =
  if chttp_server_ascii_equal h.1 name then h.2 :: values name headers else values name headers.
Proof. unfold values. cbn. by destruct (chttp_server_ascii_equal h.1 name). Qed.

(** A name that is one of two is the other one only when they are the same. *)
Lemma same_name n a b : chttp_server_ascii_equal n a = true ->
  chttp_server_ascii_equal n b = chttp_server_ascii_equal a b.
Proof. unfold chttp_server_ascii_equal. rewrite bytes_eqb_eq. by intros ->. Qed.

(** Decides the comparisons of the name [n], equal to a literal. *)
Ltac name_is n :=
  repeat match goal with
  | E : chttp_server_ascii_equal n ?a = true |- context [chttp_server_ascii_equal n ?b] =>
    lazymatch b with
    | a => rewrite E
    | _ => rewrite (same_name n a b E);
      let v := eval vm_compute in (chttp_server_ascii_equal a b) in change (chttp_server_ascii_equal a b) with v
    end
  end.

(** ** The server *)

(** A length that announces no body. *)
Definition zero_length (value : list Z) : bool :=
  let digits := chttp_server_trim_ows value in
  negb (zlen digits =? 0) && forallb (fun c => c =? 48) digits.

Definition frames_body (headers : list (list Z * list Z)) : bool :=
  has_field headers (bytes_of "Transfer-Encoding") ||
  existsb (fun value => negb (zero_length value)) (values (bytes_of "Content-Length") headers).

(** What the server demands of the fields. *)
Definition handshake_fields (headers : list (list Z * list Z)) : bool :=
  (zlen (values (bytes_of "Host") headers) =? 1) &&
  announces headers (bytes_of "Upgrade") (bytes_of "websocket") &&
  announces headers (bytes_of "Connection") (bytes_of "upgrade") &&
  (zlen (values (bytes_of "Sec-WebSocket-Key") headers) =? 1) &&
  (zlen (values (bytes_of "Sec-WebSocket-Version") headers) =? 1) && negb (frames_body headers).

(** The last value, or the one there was. *)
Definition latest (before : option (list Z)) (values : list (list Z)) : option (list Z) :=
  fold_left (fun _ value => Some value) values before.

Section Server.
Context {search : VstrSearch} {search_law : LawfulVstr search} {text : VstrText} {text_law : LawfulVstrText text}.

Definition scanned (s : handshake_scan) (headers : list (list Z * list Z)) : handshake_scan :=
  {| wh_key_value := latest (wh_key_value s) (values (bytes_of "Sec-WebSocket-Key") headers);
     wh_version_value := latest (wh_version_value s) (values (bytes_of "Sec-WebSocket-Version") headers);
     wh_upgrade := wh_upgrade s || announces headers (bytes_of "Upgrade") (bytes_of "websocket");
     wh_connection_upgrade := wh_connection_upgrade s || announces headers (bytes_of "Connection") (bytes_of "upgrade");
     wh_host_count := wh_host_count s + zlen (values (bytes_of "Host") headers);
     wh_key_count := wh_key_count s + zlen (values (bytes_of "Sec-WebSocket-Key") headers);
     wh_version_count := wh_version_count s + zlen (values (bytes_of "Sec-WebSocket-Version") headers) |}.

Lemma content_length_zero_spec value : chttp_websocket_content_length_zero value = zero_length value.
Proof. unfold chttp_websocket_content_length_zero, zero_length, chttp_websocket_trim_ows. by rewrite vstr_trim_ows. Qed.

(** The effect of a field on the local variables. *)
Ltac scan_case s :=
  split; [done|]; rewrite ?header_has_token_spec by done; destruct s;
  cbn [wh_key_value wh_version_value wh_upgrade wh_connection_upgrade wh_host_count wh_key_count wh_version_count
       set set_wh_key_value set_wh_version_value set_wh_upgrade set_wh_connection_upgrade set_wh_host_count
       set_wh_key_count set_wh_version_count existsb];
  rewrite ?zlen_cons, ?orb_assoc; f_equal; lia.

(** One header, by its name. *)
Lemma handshake_header_spec s h headers :
  match handshake_header s h with
  | None => frames_body (h :: headers) = true
  | Some s' => frames_body (h :: headers) = frames_body headers /\ scanned s (h :: headers) = scanned s' headers
  end.
Proof.
  destruct h as [n v]. unfold handshake_header. rewrite !vstr_ieq_bytes.
  unfold scanned, frames_body, announces, has_field. rewrite !values_cons. cbn [fst snd existsb].
  destruct (chttp_server_ascii_equal n (bytes_of "Host")) eqn:E1; [name_is n; scan_case s|].
  destruct (chttp_server_ascii_equal n (bytes_of "Upgrade")) eqn:E2; [name_is n; scan_case s|].
  destruct (chttp_server_ascii_equal n (bytes_of "Connection")) eqn:E3; [name_is n; scan_case s|].
  destruct (chttp_server_ascii_equal n (bytes_of "Sec-WebSocket-Key")) eqn:E4; [name_is n; scan_case s|].
  destruct (chttp_server_ascii_equal n (bytes_of "Sec-WebSocket-Version")) eqn:E5; [name_is n; scan_case s|].
  destruct (chttp_server_ascii_equal n (bytes_of "Transfer-Encoding")) eqn:E6; [done|]. cbn [orb].
  destruct (chttp_server_ascii_equal n (bytes_of "Content-Length")) eqn:E7; [|scan_case s].
  rewrite content_length_zero_spec. cbn [existsb]. destruct (zero_length v); cbn [negb orb andb]; [scan_case s|apply orb_true_r].
Qed.

Lemma handshake_headers_spec headers : forall s,
  handshake_headers s headers = if frames_body headers then None else Some (scanned s headers).
Proof.
  induction headers as [|h headers IH]; intros s.
  - cbn. f_equal. destruct s. unfold scanned. cbn. by rewrite !orb_false_r, !Z.add_0_r.
  - cbn [handshake_headers]. pose proof (handshake_header_spec s h headers) as Hh.
    destruct (handshake_header s h) as [s'|]; [|by rewrite Hh]. destruct Hh as [-> ->]. apply IH.
Qed.

Context {base64 : Base64} {base64_law : LawfulBase64 base64} {sha1 : Sha1} {sha1_law : LawfulSha1 sha1}.

(** The keys that are accepted: the encodings of sixteen bytes. *)
Lemma key_validate_spec value key : chttp_websocket_key_validate value = Ok key <->
  key = chttp_server_trim_ows value /\
  exists nonce, zlen nonce = CHTTP_WEBSOCKET_NONCE_BYTES /\ tn_base64_decode_ex key = inl nonce /\
    tn_base64_encode_buf_ex nonce CHTTP_WEBSOCKET_KEY_CAPACITY = Some key.
Proof.
  unfold chttp_websocket_key_validate, chttp_websocket_trim_ows. rewrite vstr_trim_ows. split.
  - split_if; [done|]. destruct (tn_base64_decode_ex _) as [nonce|[]] eqn:Ed; try done. split_if; [|done].
    destruct (tn_base64_encode_buf_ex nonce _) as [canonical|] eqn:Ee; [|done]. split_if; [|done]. intros [= <-].
    split; [done|]. exists nonce. apply bytes_eqb_eq in Heqb1 as ->. bool_prop. by rewrite Ee.
  - intros (-> & nonce & Hn & Hd & He). pose proof (base64_length _ _ _ He) as Hl. rewrite Hn in Hl.
    change (4 * ((CHTTP_WEBSOCKET_NONCE_BYTES + 2) / 3)) with CHTTP_WEBSOCKET_KEY_BYTES in Hl.
    by rewrite Hl, Z.eqb_refl, Hd, Hn, Z.eqb_refl, He, bytes_eqb_refl.
Qed.

Lemma key_validate_never_ok value : chttp_websocket_key_validate value <> Err SALTS_OK.
Proof. unfold chttp_websocket_key_validate. repeat (split_if || case_match); done. Qed.

(** The value that accepts a key. *)
Lemma accept_compute_spec key capacity :
  zlen key = CHTTP_WEBSOCKET_KEY_BYTES -> CHTTP_WEBSOCKET_ACCEPT_CAPACITY <= capacity ->
  match cmeta_sha1 (key ++ CHTTP_WEBSOCKET_GUID) with
  | None => chttp_websocket_accept_compute key capacity = Err SALTS_EIO
  | Some digest => exists accept, tn_base64_encode_buf_ex digest capacity = Some accept /\
      chttp_websocket_accept_compute key capacity = Ok accept /\ zlen accept = CHTTP_WEBSOCKET_ACCEPT_BYTES
  end.
Proof.
  intros Hk Hc. unfold chttp_websocket_accept_compute. rewrite Hk.
  replace (negb (CHTTP_WEBSOCKET_KEY_BYTES =? CHTTP_WEBSOCKET_KEY_BYTES) || (capacity <? CHTTP_WEBSOCKET_ACCEPT_CAPACITY))
    with false by (cbn; lia).
  destruct (cmeta_sha1 _) as [digest|] eqn:Es; [|done]. pose proof (sha1_length _ _ Es) as Hd.
  destruct (base64_fits digest capacity) as [accept Ha]; [rewrite Hd; exact (Z.lt_le_trans 28 29 _ eq_refl Hc)|].
  pose proof (base64_length _ _ _ Ha) as Hl. rewrite Hd in Hl. exists accept. rewrite Ha, Hl. done.
Qed.

(** The method, the version, and no body. *)
Definition opening_request (request : chttp_server_request_view) : bool :=
  (rv_method request =? CHTTP_METHOD_GET) && (rv_http_major request =? 1) && (rv_http_minor request =? 1) &&
  (rv_body_size request =? 0) && negb (rv_body_streamed request).

(** The only value of a field that occurs once. *)
Lemma one_value (vs : list (list Z)) : (zlen vs =? 1) = true -> exists v, vs = [v].
Proof. destruct vs as [|v [|w vs]]; [done|by exists v|]. rewrite !zlen_cons. pose proof (zlen_nonneg vs). lia. Qed.

Definition version_13 (headers : list (list Z * list Z)) : bool :=
  forallb (fun value => bytes_eqb (chttp_server_trim_ows value) (bytes_of "13"))
    (values (bytes_of "Sec-WebSocket-Version") headers).

(** The verdict once the fields are there. *)
Definition key_verdict (value : list Z) (capacity : Z) : handshake_verdict :=
  match chttp_websocket_key_validate value with
  | Err status => refuse status (if bool_decide (status = SALTS_ENOMEM) then 500 else 400)
  | Ok key =>
    match chttp_websocket_accept_compute key capacity with
    | Err status => refuse status (if bool_decide (status = SALTS_EMSGSIZE) then 500 else 400)
    | Ok accept => {| hv_status := SALTS_OK; hv_http_status := 0; hv_accept := accept |}
    end
  end.

Lemma server_verdict request headers capacity : CHTTP_WEBSOCKET_ACCEPT_CAPACITY <= capacity ->
  let v := chttp_websocket_server_handshake_validate request headers capacity in
  (opening_request request && handshake_fields headers = false /\ v = refuse SALTS_EPROTO 400) \/
  (opening_request request && handshake_fields headers = true /\ version_13 headers = false /\
   v = refuse SALTS_EPROTONOSUPPORT 426) \/
  (opening_request request && handshake_fields headers = true /\ version_13 headers = true /\
   exists key_value, values (bytes_of "Sec-WebSocket-Key") headers = [key_value] /\ v = key_verdict key_value capacity).
Proof.
  intros Hc. cbv zeta. unfold chttp_websocket_server_handshake_validate.
  rewrite (proj2 (Z.ltb_ge capacity CHTTP_WEBSOCKET_ACCEPT_CAPACITY)) by done.
  rewrite <- !negb_andb, <- (negb_involutive (rv_body_streamed request)), <- negb_andb.
  fold (opening_request request). destruct (opening_request request); cbn [negb andb]; [|by left].
  rewrite handshake_headers_spec. unfold handshake_fields. destruct (frames_body headers); [left; by rewrite andb_false_r|].
  unfold scanned, handshake_scan_start. cbn [wh_key_value wh_version_value wh_upgrade wh_connection_upgrade wh_host_count wh_key_count wh_version_count orb].
  rewrite !Z.add_0_l, <- !negb_andb, andb_true_r. destruct (_ && (zlen (values (bytes_of "Sec-WebSocket-Version") headers) =? 1)) eqn:E; cbn [negb]; [right|by left].
  apply andb_true_iff in E as [E Ev]. apply andb_true_iff in E as [E Ek]. apply one_value in Ev as [vv Ev], Ek as [kv Ek].
  unfold version_13. rewrite Ev, Ek. cbn [latest fold_left forallb]. unfold chttp_websocket_trim_ows. rewrite vstr_eq_bytes, vstr_trim_ows, andb_true_r.
  destruct (bytes_eqb _ _); cbn [negb]; [right|by left]. split_and!; try done. by exists kv.
Qed.

Lemma key_verdict_ok value capacity : CHTTP_WEBSOCKET_ACCEPT_CAPACITY <= capacity ->
  hv_status (key_verdict value capacity) = SALTS_OK <->
  exists nonce digest, zlen nonce = CHTTP_WEBSOCKET_NONCE_BYTES /\
    tn_base64_encode_buf_ex nonce CHTTP_WEBSOCKET_KEY_CAPACITY = Some (chttp_server_trim_ows value) /\
    tn_base64_decode_ex (chttp_server_trim_ows value) = inl nonce /\
    cmeta_sha1 (chttp_server_trim_ows value ++ CHTTP_WEBSOCKET_GUID) = Some digest /\
    tn_base64_encode_buf_ex digest capacity = Some (hv_accept (key_verdict value capacity)).
Proof.
  intros Hc. unfold key_verdict. destruct (chttp_websocket_key_validate value) as [key|e] eqn:Ek.
  - apply key_validate_spec in Ek as (-> & nonce & Hn & Hd & He). pose proof (base64_length _ _ _ He) as Hl. rewrite Hn in Hl.
    pose proof (accept_compute_spec _ capacity Hl Hc) as Ha. destruct (cmeta_sha1 _) as [digest|] eqn:Es.
    + destruct Ha as (accept & Ha & -> & _). cbn. split; [|done]. intros _. by exists nonce, digest.
    + rewrite Ha. cbn. split; [done|]. by intros (? & ? & _ & _ & _ & ? & _).
  - split; [|]; cbn.
    + intros ->. by apply key_validate_never_ok in Ek.
    + intros (nonce & digest & Hn & He & Hd & _). assert (chttp_websocket_key_validate value = Ok (chttp_server_trim_ows value)); [|congruence].
      apply key_validate_spec. eauto.
Qed.

(** C27: The server opens a WebSocket exactly for a GET of HTTP/1.1 without a body
    whose fields name one host, ask for the upgrade, and carry one version, 13,
    and one key, the encoding of sixteen bytes; the answer is then the encoding of
    the digest of the key. A request with the wrong fields is answered with 400,
    another version with 426; the status of every refusal is one of 400, 426 and
    500. *)
Theorem server_handshake_correct request headers capacity v :
  CHTTP_WEBSOCKET_ACCEPT_CAPACITY <= capacity ->
  v = chttp_websocket_server_handshake_validate request headers capacity ->
  (hv_status v = SALTS_OK <->
   opening_request request = true /\ handshake_fields headers = true /\ version_13 headers = true /\
   exists key_value nonce digest,
     values (bytes_of "Sec-WebSocket-Key") headers = [key_value] /\
     zlen nonce = CHTTP_WEBSOCKET_NONCE_BYTES /\
     tn_base64_encode_buf_ex nonce CHTTP_WEBSOCKET_KEY_CAPACITY = Some (chttp_server_trim_ows key_value) /\
     tn_base64_decode_ex (chttp_server_trim_ows key_value) = inl nonce /\
     cmeta_sha1 (chttp_server_trim_ows key_value ++ CHTTP_WEBSOCKET_GUID) = Some digest /\
     tn_base64_encode_buf_ex digest capacity = Some (hv_accept v)) /\
  (opening_request request && handshake_fields headers = false -> v = refuse SALTS_EPROTO 400) /\
  (opening_request request && handshake_fields headers = true -> version_13 headers = false ->
   v = refuse SALTS_EPROTONOSUPPORT 426) /\
  (hv_status v <> SALTS_OK -> hv_http_status v = 400 \/ hv_http_status v = 426 \/ hv_http_status v = 500).
Proof.
  intros Hc ->. destruct (server_verdict request headers capacity Hc) as [[Hf ->]|[(Hf & Hv & ->)|(Hf & Hv & kv & Hk & ->)]].
  - split_and!; try done; [|by rewrite Hf|by left]. split; [done|]. intros (H1 & H2 & _). by rewrite H1, H2 in Hf.
  - split_and!; try done; [|by rewrite Hf|by right; left]. split; [done|]. intros (_ & _ & H3 & _). by rewrite H3 in Hv.
  - split_and!; [|by rewrite Hf|by rewrite Hv|].
    + apply andb_true_iff in Hf as [Hf1 Hf2]. rewrite key_verdict_ok by done. split.
      * intros (nonce & digest & Hs). split_and!; try done. by exists kv, nonce, digest.
      * intros (_ & _ & _ & kv' & nonce & digest & Hk' & Hs). rewrite Hk in Hk'. injection Hk' as <-. eauto.
    + unfold key_verdict. destruct (chttp_websocket_key_validate kv); [destruct (chttp_websocket_accept_compute _ _)|]; cbn; [done| |]; split_if; auto.
Qed.

End Server.

(** ** The tokenizer of responses *)

(** The callbacks run one after the other until one stops the parser. *)
Fixpoint run_response {S : Type} (callback : S -> response_event -> S * cb_result) (s : S)
    (events : list response_event) : S * cb_result :=
  match events with
  | [] => (s, CbOk)
  | event :: events =>
    let '(s, r) := callback s event in
    if cb_continues r then match events with [] => (s, r) | _ => run_response callback s events end else (s, r)
  end.

(** The events of the fields of a head: a name and a value in pieces, the value
    without some of the blanks around it. *)
Inductive reads_fields : list (list Z * list Z) -> list response_event -> Prop :=
  | reads_none : reads_fields [] []
  | reads_field names values before after headers events :
      forallb is_ows before = true -> forallb is_ows after = true -> reads_fields headers events ->
      reads_fields ((concat names, before ++ concat values ++ after) :: headers)
        (map ReHeaderField names ++ ReHeaderFieldComplete ::
         map ReHeaderValue values ++ ReHeaderValueComplete :: events).

(** The head of a response. *)
Definition response_head (status_code : Z) (reason : list Z) (headers : list (list Z * list Z)) : list Z :=
  bytes_of "HTTP/1.1 " ++ decimal status_code ++ bytes_of " " ++ reason ++ CRLF ++ print_fields headers.

Definition proper_field (h : list Z * list Z) : bool :=
  chttp_server_response_token h.1 && chttp_server_response_value h.2.

Definition framing_field (h : list Z * list Z) : bool :=
  chttp_server_ascii_equal h.1 (bytes_of "Content-Length") ||
  chttp_server_ascii_equal h.1 (bytes_of "Transfer-Encoding").

(** On the head of a response the tokenizer reports its fields and then the end
    of the head, after which a callback that asks for it pauses the parser.  It
    may refuse a head whose framing it finds wrong. *)
Class LawfulResponseTokenizer (tokenizer : LlhttpResponse) : Prop :=
  tokenizes : forall (S : Type) (callback : S -> response_event -> S * cb_result) s status_code reason headers,
    100 <= status_code <= 599 -> forallb value_char reason = true -> forallb proper_field headers = true ->
    exists events, reads_fields headers events /\
      ((let '(s', r) := run_response callback s (events ++ [ReHeadersComplete status_code 1 1]) in
        llhttp_execute_response callback s (response_head status_code reason headers) =
          (s', match r with CbUpgrade => HPE_PAUSED_UPGRADE | CbOk | CbOkNoUpgrade => HPE_OK | _ => HPE_OTHER end)) \/
       (existsb framing_field headers = true /\
        exists s', llhttp_execute_response callback s (response_head status_code reason headers) = (s', HPE_OTHER))).

(** ** The client *)

(** What the client demands of the fields. *)
Definition accepting_fields (headers : list (list Z * list Z)) (expected_accept : list Z)
    (expected_subprotocol : option (list Z)) : bool :=
  announces headers (bytes_of "Upgrade") (bytes_of "websocket") &&
  announces headers (bytes_of "Connection") (bytes_of "upgrade") &&
  bool_decide (map chttp_server_trim_ows (values (bytes_of "Sec-WebSocket-Accept") headers) = [expected_accept]) &&
  bool_decide (map chttp_server_trim_ows (values (bytes_of "Sec-WebSocket-Protocol") headers) =
    match expected_subprotocol with Some subprotocol => [subprotocol] | None => [] end) &&
  negb (existsb framing_field headers) && negb (has_field headers (bytes_of "Sec-WebSocket-Extensions")).

Section Client.
Context {search : VstrSearch} {search_law : LawfulVstr search} {text : VstrText} {text_law : LawfulVstrText text}.
Implicit Types c : chttp_websocket_client_handshake_parser.

(** ** One field *)

Lemma run_field_pieces pieces : forall c rest, rest <> [] ->
  zlen (hp_field c) + zlen (concat pieces) <= hp_capacity c ->
  run_response client_callback c (map ReHeaderField pieces ++ rest) =
    run_response client_callback (c <| hp_field := hp_field c ++ concat pieces |>) rest.
Proof.
  induction pieces as [|piece pieces IH]; intros c rest Hr Hc; cbn [map concat app].
  - rewrite app_nil_r. by destruct c.
  - cbn [concat] in Hc. rewrite zlen_app in Hc. pose proof (zlen_nonneg (concat pieces)). pose proof (zlen_nonneg piece).
    cbn [run_response client_callback]. unfold chttp_websocket_client_header_field.
    rewrite (proj2 (Z.ltb_ge _ _)), (proj2 (Z.ltb_ge _ _)) by lia. cbn [orb cb_continues].
    assert (map ReHeaderField pieces ++ rest <> []) as Hne by (by destruct pieces).
    destruct (map ReHeaderField pieces ++ rest) eqn:E; [done|]. rewrite <- E, IH; [|done|cbn; rewrite zlen_app; lia].
    by rewrite app_assoc.
Qed.

Lemma run_value_pieces pieces : forall c rest, rest <> [] ->
  zlen (hp_value c) + zlen (concat pieces) <= hp_capacity c ->
  run_response client_callback c (map ReHeaderValue pieces ++ rest) =
    run_response client_callback (c <| hp_value := hp_value c ++ concat pieces |>) rest.
Proof.
  induction pieces as [|piece pieces IH]; intros c rest Hr Hc; cbn [map concat app].
  - rewrite app_nil_r. by destruct c.
  - cbn [concat] in Hc. rewrite zlen_app in Hc. pose proof (zlen_nonneg (concat pieces)). pose proof (zlen_nonneg piece).
    cbn [run_response client_callback]. unfold chttp_websocket_client_header_value.
    rewrite (proj2 (Z.ltb_ge _ _)), (proj2 (Z.ltb_ge _ _)) by lia. cbn [orb cb_continues].
    assert (map ReHeaderValue pieces ++ rest <> []) as Hne by (by destruct pieces).
    destruct (map ReHeaderValue pieces ++ rest) eqn:E; [done|]. rewrite <- E, IH; [|done|cbn; rewrite zlen_app; lia].
    by rewrite app_assoc.
Qed.

(** The context between two fields. *)
Definition between c : Prop := hp_field c = [] /\ hp_value c = [].

(** The meaning of a field leaves the pieces and the limits alone. *)
Lemma client_header_frame c name value :
  hp_field (client_header c name value) = hp_field c /\ hp_value (client_header c name value) = hp_value c /\
  hp_capacity (client_header c name value) = hp_capacity c /\ hp_overflow (client_header c name value) = hp_overflow c /\
  hp_expected_accept (client_header c name value) = hp_expected_accept c /\
  hp_expected_subprotocol (client_header c name value) = hp_expected_subprotocol c.
Proof. unfold client_header. repeat split_if; done. Qed.

Lemma client_header_around c name before value after : forallb is_ows before = true -> forallb is_ows after = true ->
  client_header c name (before ++ value ++ after) = client_header c name value.
Proof.
  intros Hb Ha. unfold client_header. rewrite !header_has_token_spec, !lists_token_around by done.
  unfold chttp_websocket_trim_ows. by rewrite !vstr_trim_ows, trim_around.
Qed.

Lemma run_field c names vals rest : between c -> rest <> [] ->
  zlen (concat names) <= hp_capacity c -> zlen (concat vals) <= hp_capacity c ->
  run_response client_callback c
    (map ReHeaderField names ++ ReHeaderFieldComplete :: map ReHeaderValue vals ++ ReHeaderValueComplete :: rest) =
  run_response client_callback (client_header c (concat names) (concat vals)) rest.
Proof.
  intros [Hf Hv] Hr Hn Hl. rewrite run_field_pieces by (try done; rewrite Hf; done). rewrite Hf, app_nil_l.
  cbn [run_response client_callback chttp_websocket_client_header_field_complete].
  change (hp_field (c <| hp_field := concat names |>)) with (concat names).
  change (hp_capacity (c <| hp_field := concat names |>)) with (hp_capacity c).
  rewrite (proj2 (Z.ltb_ge _ _)) by done. cbn [cb_continues].
  assert (map ReHeaderValue vals ++ ReHeaderValueComplete :: rest <> []) as Hne by (by destruct vals).
  destruct (map ReHeaderValue vals ++ _) eqn:E; [done|]. rewrite <- E. clear Hne E.
  rewrite run_value_pieces by (try done; cbn; rewrite Hv; done). cbn [run_response client_callback].
  unfold chttp_websocket_client_header_value_complete. cbn [hp_value hp_field hp_capacity set set_hp_value set_hp_field].
  rewrite Hv, app_nil_l, (proj2 (Z.ltb_ge _ _)) by done. cbn [cb_continues]. destruct rest; [done|]. f_equal.
  unfold client_header. destruct c. cbn in *. subst. repeat split_if; done.
Qed.

(** The context after the fields. *)
Definition after_fields c (headers : list (list Z * list Z)) : chttp_websocket_client_handshake_parser :=
  fold_left (fun c h => client_header c h.1 h.2) headers c.

Lemma run_fields headers events : reads_fields headers events -> forall c rest, between c -> rest <> [] ->
  Forall (fun h => zlen h.1 <= hp_capacity c /\ zlen h.2 <= hp_capacity c) headers ->
  run_response client_callback c (events ++ rest) = run_response client_callback (after_fields c headers) rest.
Proof.
  induction 1 as [|names vals before after headers events Hb Ha _ IH]; intros c rest Hc Hr Hs; [done|].
  apply Forall_cons_1 in Hs as [[Hn Hv] Hs]. cbn [fst snd] in *. rewrite !zlen_app in Hv.
  pose proof (zlen_nonneg before). pose proof (zlen_nonneg after). rewrite <- app_assoc. cbn [app]. rewrite <- app_assoc. cbn [app].
  rewrite run_field; [|done|by destruct events|done|lia]. unfold after_fields. cbn [fold_left fst snd].
  rewrite client_header_around by done.
  pose proof (client_header_frame c (concat names) (concat vals)) as (F1 & F2 & F3 & _).
  apply IH; [|done|by rewrite F3]. destruct Hc. split; congruence.
Qed.

(** ** All fields *)

(** What the fields amount to. *)
Definition client_scanned c (headers : list (list Z * list Z)) : chttp_websocket_client_handshake_parser :=
  {| hp_field := hp_field c; hp_value := hp_value c; hp_expected_accept := hp_expected_accept c;
     hp_expected_subprotocol := hp_expected_subprotocol c; hp_capacity := hp_capacity c;
     hp_accept_count := hp_accept_count c + zlen (values (bytes_of "Sec-WebSocket-Accept") headers);
     hp_subprotocol_count := hp_subprotocol_count c + zlen (values (bytes_of "Sec-WebSocket-Protocol") headers);
     hp_http_status := hp_http_status c;
     hp_upgrade := hp_upgrade c || announces headers (bytes_of "Upgrade") (bytes_of "websocket");
     hp_connection_upgrade := hp_connection_upgrade c || announces headers (bytes_of "Connection") (bytes_of "upgrade");
     hp_accept_matches := fold_left (fun _ value => (zlen (chttp_server_trim_ows value) =? CHTTP_WEBSOCKET_ACCEPT_BYTES) &&
         bytes_eqb (chttp_server_trim_ows value) (hp_expected_accept c))
       (values (bytes_of "Sec-WebSocket-Accept") headers) (hp_accept_matches c);
     hp_subprotocol_matches := fold_left (fun _ value =>
         match hp_expected_subprotocol c with
         | Some expected => bytes_eqb (chttp_server_trim_ows value) expected
         | None => false
         end) (values (bytes_of "Sec-WebSocket-Protocol") headers) (hp_subprotocol_matches c);
     hp_headers_complete := hp_headers_complete c; hp_protocol_version := hp_protocol_version c;
     hp_invalid_framing := hp_invalid_framing c || existsb framing_field headers;
     hp_unsupported_negotiation := hp_unsupported_negotiation c || has_field headers (bytes_of "Sec-WebSocket-Extensions");
     hp_overflow := hp_overflow c |}.

(** The effect of a field on the context. *)
Ltac client_case c :=
  rewrite ?header_has_token_spec by done; destruct c;
  cbn [hp_field hp_value hp_expected_accept hp_expected_subprotocol hp_capacity hp_accept_count hp_subprotocol_count
       hp_http_status hp_upgrade hp_connection_upgrade hp_accept_matches hp_subprotocol_matches hp_headers_complete
       hp_protocol_version hp_invalid_framing hp_unsupported_negotiation hp_overflow set set_hp_accept_count
       set_hp_subprotocol_count set_hp_upgrade set_hp_connection_upgrade set_hp_accept_matches
       set_hp_subprotocol_matches set_hp_invalid_framing set_hp_unsupported_negotiation existsb fold_left orb];
  rewrite ?zlen_cons, ?orb_assoc, ?orb_true_r; f_equal; lia.

Lemma client_header_spec c h headers : client_scanned c (h :: headers) = client_scanned (client_header c h.1 h.2) headers.
Proof.
  destruct h as [n v]. unfold client_header, chttp_websocket_trim_ows. cbn [fst snd]. rewrite !vstr_ieq_bytes, !vstr_trim_ows, !vstr_eq_bytes.
  assert (match hp_expected_subprotocol c with Some expected => vstr_eq (chttp_server_trim_ows v) expected | None => false end =
    match hp_expected_subprotocol c with Some expected => bytes_eqb (chttp_server_trim_ows v) expected | None => false end) as ->
    by (destruct (hp_expected_subprotocol c); [apply vstr_eq_bytes|done]).
  unfold client_scanned, announces, has_field, framing_field. rewrite !values_cons. cbn [fst snd existsb].
  destruct (chttp_server_ascii_equal n (bytes_of "Upgrade")) eqn:E1; [name_is n; client_case c|].
  destruct (chttp_server_ascii_equal n (bytes_of "Connection")) eqn:E2; [name_is n; client_case c|].
  destruct (chttp_server_ascii_equal n (bytes_of "Sec-WebSocket-Accept")) eqn:E3; [name_is n; client_case c|].
  destruct (chttp_server_ascii_equal n (bytes_of "Content-Length")) eqn:E4; [name_is n; client_case c|].
  destruct (chttp_server_ascii_equal n (bytes_of "Transfer-Encoding")) eqn:E5; [name_is n; client_case c|].
  cbn [orb].
  destruct (chttp_server_ascii_equal n (bytes_of "Sec-WebSocket-Protocol")) eqn:E6; [name_is n; client_case c|].
  destruct (chttp_server_ascii_equal n (bytes_of "Sec-WebSocket-Extensions")) eqn:E7; [name_is n|]; client_case c.
Qed.

Lemma after_fields_spec headers : forall c, after_fields c headers = client_scanned c headers.
Proof.
  induction headers as [|h headers IH]; intros c.
  - destruct c. unfold client_scanned. cbn. by rewrite !orb_false_r, !Z.add_0_r.
  - rewrite client_header_spec. apply IH.
Qed.

(** The only member of a list that matches. *)
Lemma one_match (matches : list Z -> bool) f (wanted : list Z) (vs : list (list Z)) :
  (forall v, matches v = bytes_eqb (f v) wanted) ->
  (zlen vs =? 1) && fold_left (fun _ v => matches v) vs false = bool_decide (map f vs = [wanted]).
Proof.
  intros Hm. destruct vs as [|v [|w vs]]; [done| |].
  - cbn. rewrite Hm. unfold bytes_eqb. apply bool_decide_ext. split; [by intros ->|by intros [= ->]].
  - rewrite !zlen_cons. pose proof (zlen_nonneg vs). rewrite (proj2 (Z.eqb_neq _ _)) by lia. cbn [andb].
    symmetry. by apply bool_decide_eq_false.
Qed.

(** The verdict after all fields. *)
Lemma verdict_spec size accept subprotocol headers status errno :
  zlen accept = CHTTP_WEBSOCKET_ACCEPT_BYTES ->
  client_accepts (chttp_websocket_client_headers_complete
    (after_fields (handshake_context size accept subprotocol) headers) status 1 1).1 errno =
  match errno with HPE_PAUSED_UPGRADE | HPE_OK => true | _ => false end && (status =? 101) &&
  accepting_fields headers accept subprotocol.
Proof.
  intros Ha. rewrite after_fields_spec. unfold client_accepts, accepting_fields, client_scanned, handshake_context, chttp_websocket_client_headers_complete.
  cbn [fst hp_field hp_value hp_expected_accept hp_expected_subprotocol hp_capacity hp_accept_count hp_subprotocol_count
       hp_http_status hp_upgrade hp_connection_upgrade hp_accept_matches hp_subprotocol_matches hp_headers_complete
       hp_protocol_version hp_invalid_framing hp_unsupported_negotiation hp_overflow set set_hp_http_status
       set_hp_protocol_version set_hp_headers_complete orb]. rewrite !Z.add_0_l.
  rewrite <- (one_match (fun value => (zlen (chttp_server_trim_ows value) =? CHTTP_WEBSOCKET_ACCEPT_BYTES) &&
    bytes_eqb (chttp_server_trim_ows value) accept)).
  2:{ intros v. destruct (bytes_eqb _ _) eqn:E; [|apply andb_false_r]. apply bytes_eqb_eq in E as ->. by rewrite Ha. }
  destruct subprotocol as [sub|].
  - rewrite <- (one_match (fun value => bytes_eqb (chttp_server_trim_ows value) sub)) by done.
    destruct errno; cbn; rewrite ?andb_assoc; done.
  - replace (bool_decide (map chttp_server_trim_ows (values (bytes_of "Sec-WebSocket-Protocol") headers) = []))
      with (zlen (values (bytes_of "Sec-WebSocket-Protocol") headers) =? 0).
    + destruct errno; cbn; rewrite ?andb_assoc; done.
    + destruct (values (bytes_of "Sec-WebSocket-Protocol") headers) as [|v vs]; [done|]. rewrite zlen_cons.
      pose proof (zlen_nonneg vs). rewrite (proj2 (Z.eqb_neq _ _)) by lia. symmetry. by apply bool_decide_eq_false.
Qed.

(** A head is longer than each of its names and values. *)
Lemma head_size status reason headers :
  Forall (fun h => zlen h.1 + zlen h.2 <= zlen (response_head status reason headers)) headers.
Proof.
  assert (Forall (fun h => zlen h.1 + zlen h.2 <= zlen (print_fields headers)) headers) as H.
  { unfold print_fields. induction headers as [|h headers IH]; [done|]. cbn [map concat]. constructor.
    - unfold field_line. rewrite !zlen_app, !zlen_cons. pose proof (zlen_nonneg CRLF).
      pose proof (zlen_nonneg (concat (map (fun h => field_line h ++ CRLF) headers))). unfold field_line in *. lia.
    - eapply Forall_impl; [exact IH|]. intros g Hg. rewrite !zlen_app in *. pose proof (zlen_nonneg (field_line h)). pose proof (zlen_nonneg CRLF). lia. }
  eapply Forall_impl; [exact H|]. intros h Hh. cbv beta in Hh. unfold response_head. rewrite !zlen_app.
  pose proof (zlen_nonneg (bytes_of "HTTP/1.1 ")). pose proof (zlen_nonneg (decimal status)).
  pose proof (zlen_nonneg (bytes_of " ")). pose proof (zlen_nonneg reason). pose proof (zlen_nonneg CRLF).
  lia.
Qed.

Context {alloc : Allocator} {tokenizer : LlhttpResponse} {tokenizer_law : LawfulResponseTokenizer tokenizer}.

Lemma client_validate_head status reason headers accept subprotocol :
  let data := response_head status reason headers in
  100 <= status <= 599 -> forallb value_char reason = true -> forallb proper_field headers = true ->
  zlen accept = CHTTP_WEBSOCKET_ACCEPT_BYTES -> zlen data < SIZE_MAX -> malloc_ok (zlen data + 1) = true ->
  (existsb framing_field headers = true /\
   (chttp_websocket_client_handshake_validate data accept subprotocol).1 <> SALTS_OK) \/
  chttp_websocket_client_handshake_validate data accept subprotocol =
    (if (status =? 101) && accepting_fields headers accept subprotocol then SALTS_OK else SALTS_EPROTO, status).
Proof.
  cbv zeta. intros Hs Hr Hh Ha Hsize Hm. unfold chttp_websocket_client_handshake_validate. rewrite Ha, Z.eqb_refl, Hm. cbn [negb].
  pose proof (head_size status reason headers) as Hsizes.
  assert (0 < zlen (response_head status reason headers)) as Hpos.
  { assert (exists l, response_head status reason headers = 72 :: l) as [l ->] by (eexists; reflexivity).
    rewrite zlen_cons. pose proof (zlen_nonneg l). lia. }
  rewrite (proj2 (Z.eqb_neq (zlen _) 0)), (proj2 (Z.eqb_neq (zlen _) SIZE_MAX)) by lia. cbn [orb].
  set (c := handshake_context (zlen (response_head status reason headers)) accept subprotocol).
  destruct (tokenizes _ client_callback c status reason headers Hs Hr Hh) as (events & He & [Hrun|(Hf & s' & Hrun)]).
  - right. rewrite (run_fields _ _ He) in Hrun; [|done|done|].
    2:{ eapply Forall_impl; [exact Hsizes|]. intros h Hle. cbv beta in Hle. pose proof (zlen_nonneg h.1). pose proof (zlen_nonneg h.2). unfold c. cbn [hp_capacity handshake_context]. lia. }
    cbn [run_response client_callback] in Hrun.
    destruct (chttp_websocket_client_headers_complete (after_fields c headers) status 1 1) as [c' r] eqn:Ec.
    assert (r = CbUpgrade) as -> by (unfold chttp_websocket_client_headers_complete in Ec; congruence). cbn [cb_continues] in Hrun. rewrite Hrun.
    pose proof (verdict_spec (zlen (response_head status reason headers)) accept subprotocol headers status HPE_PAUSED_UPGRADE Ha) as Hv.
    fold c in Hv. rewrite Ec in Hv. cbn [fst] in Hv. rewrite Hv. cbn [andb].
    rewrite after_fields_spec in Ec. unfold chttp_websocket_client_headers_complete in Ec.
    apply (f_equal fst) in Ec. cbn [fst] in Ec. rewrite <- Ec. cbn [hp_overflow hp_http_status set set_hp_http_status set_hp_protocol_version set_hp_headers_complete client_scanned]. 
    split_if; done.
  - left. split; [done|]. rewrite Hrun. unfold client_accepts. cbn [andb]. cbn [fst]. by split_if.
Qed.

(** The client takes a response for the opening of a WebSocket exactly when its
    status is 101 and its fields agree to the upgrade, carry the expected answer
    to the key once, select the expected subprotocol and no other, frame no body
    and negotiate no extension, however the tokenizer cuts the message into
    pieces; the status of a response without a field that frames a body is always
    reported. *)
Theorem client_handshake_correct status reason headers accept subprotocol :
  100 <= status <= 599 -> forallb value_char reason = true -> forallb proper_field headers = true ->
  zlen accept = CHTTP_WEBSOCKET_ACCEPT_BYTES -> zlen (response_head status reason headers) < SIZE_MAX ->
  malloc_ok (zlen (response_head status reason headers) + 1) = true ->
  ((chttp_websocket_client_handshake_validate (response_head status reason headers) accept subprotocol).1 = SALTS_OK <->
   status = 101 /\ accepting_fields headers accept subprotocol = true) /\
  (existsb framing_field headers = false ->
   (chttp_websocket_client_handshake_validate (response_head status reason headers) accept subprotocol).2 = status).
Proof.
  intros Hs Hr Hh Ha Hsize Hm.
  destruct (client_validate_head status reason headers accept subprotocol Hs Hr Hh Ha Hsize Hm) as [[Hf Hn]|E].
  - split; [|by rewrite Hf]. split; [done|]. intros [_ H]. unfold accepting_fields in H. rewrite Hf in H. by rewrite !andb_false_r in H.
  - rewrite E. split; [|done]. cbn [fst]. destruct (_ && _) eqn:Eb.
    + apply andb_true_iff in Eb as [E1 E2]. apply Z.eqb_eq in E1. done.
    + split; [done|]. intros [-> H]. by rewrite H in Eb.
Qed.

End Client.

End WebSocketHandshakeTheorems.
