(* ===== verification/WebSocketServer.v ===== *)
(** * The upgrade of a connection to WebSocket

    Model of the part of [http_server/src/chttp_websocket_server.c] that opens a
    WebSocket on a connection of HTTP/1: the peer up to its opening, the chain of
    middleware with the callback of the route at its end, and the answer to the
    request.

    The engine of the frames belongs to the network library; of it, only whether
    it can be initialised matters here. *)

From S2P Require Import Prelude Decimal HpackBuffer Router Http1Parser ServerBuffer RateLimit.
From S2P Require Import Session Response Jwt Middleware Cors Interceptor Request Connection WebSocketHandshake.

Module WebSocketServer.
Import Decimal HpackBuffer Router Http1Parser ServerBuffer RateLimit Session Response Jwt Middleware Cors
  Interceptor Request Connection WebSocketHandshake.

Inductive websocket_phase :=
  | CHTTP_SERVER_WEBSOCKET_NONE | CHTTP_SERVER_WEBSOCKET_HANDSHAKE | CHTTP_SERVER_WEBSOCKET_OPEN.

#[export] Instance websocket_phase_eq_dec : EqDecision websocket_phase.
Proof. solve_decision. Defined.

(** The peer; [wp_engine] is whether its engine exists. *)
Record chttp_server_websocket_peer := {
  wp_phase : websocket_phase;
  wp_engine : bool;
  wp_route : option chttp_server_route_record;
  wp_dedicated : bool;
}.

Definition peer_zero : chttp_server_websocket_peer :=
  {| wp_phase := CHTTP_SERVER_WEBSOCKET_NONE; wp_engine := false; wp_route := None; wp_dedicated := false |}.

(** [cnet_websocket_init] with the limits of a route: frames, messages and
    buffered input. *)
Class CnetWebsocket := cnet_websocket_init : Z -> Z -> Z -> salts_status.

(** A connection with its handles and its peer. *)
Record websocket_connection (App : Type) := {
  wc_connection : chttp_server_connection App;
  wc_handle_slot : Z;
  wc_handle_generation : Z;
  wc_server_slot : Z;
  wc_server_generation : Z;
  wc_peer : chttp_server_websocket_peer;
  wc_upgrade_input_size : Z;
}.
Arguments wc_connection {App}.
Arguments wc_handle_slot {App}.
Arguments wc_handle_generation {App}.
Arguments wc_server_slot {App}.
Arguments wc_server_generation {App}.
Arguments wc_peer {App}.
Arguments wc_upgrade_input_size {App}.

#[export] Instance eta_websocket_connection App : Eta (websocket_connection App) :=
  fun c => Build_websocket_connection App (wc_connection c) (wc_handle_slot c) (wc_handle_generation c)
    (wc_server_slot c) (wc_server_generation c) (wc_peer c) (wc_upgrade_input_size c).
#[export] Instance set_wc_connection App : Setter (@wc_connection App). Proof. mk_setter. Defined.
#[export] Instance set_wc_peer App : Setter (@wc_peer App). Proof. mk_setter. Defined.
#[export] Instance set_wc_upgrade_input_size App : Setter (@wc_upgrade_input_size App). Proof. mk_setter. Defined.

(** The callback that a route runs when a WebSocket opens. *)
Class WebSocketCallbacks (App : Type) :=
  websocket_open_fn : Z -> Z -> server_request -> call_state App -> call_state App * salts_status.

(** ** The answer *)

Definition chttp_server_websocket_append (capacity : Z) (output data : list Z) : list Z * salts_status :=
  if (capacity <? zlen output) || (capacity - zlen output <? zlen data) then (output, SALTS_EMSGSIZE)
  else (output ++ data, SALTS_OK).

(** The next append of a sequence that stops at the first failure. *)
Definition then_websocket_append (capacity : Z) (r : list Z * salts_status) (data : list Z) :
    list Z * salts_status :=
  match r with (output, SALTS_OK) => chttp_server_websocket_append capacity output data | _ => r end.

Definition append_header (capacity : Z) (r : list Z * salts_status) (h : list Z * list Z) :
    list Z * salts_status :=
  let r := then_websocket_append capacity r h.1 in
  let r := then_websocket_append capacity r (bytes_of ": ") in
  let r := then_websocket_append capacity r h.2 in
  then_websocket_append capacity r CRLF.

(** The bytes that were written, from the start of the buffer. *)
Definition handshake_write (headers : list (list Z * list Z)) (accept : list Z) (capacity : Z) :
    list Z * salts_status :=
  let r := chttp_server_websocket_append capacity [] (bytes_of "HTTP/1.1 101 Switching Protocols" ++ CRLF) in
  let r := fold_left (append_header capacity) headers r in
  let r := then_websocket_append capacity r
    (bytes_of "Upgrade: websocket" ++ CRLF ++ bytes_of "Connection: Upgrade" ++ CRLF ++
     bytes_of "Sec-WebSocket-Accept: ") in
  let r := then_websocket_append capacity r (ztake CHTTP_WEBSOCKET_ACCEPT_BYTES accept) in
  then_websocket_append capacity r (CRLF ++ CRLF).

(** The buffer afterwards, of which [output] bytes waited.  The answer is
    written over them; its size becomes the size of the buffer only when all of
    it fits. *)
Definition chttp_server_websocket_handshake_serialize (b : chttp_server_response_builder) (accept : list Z)
    (capacity : Z) (output : list Z) : list Z * salts_status :=
  let '(written, status) := handshake_write (rb_headers b) accept capacity in
  if bool_decide (status = SALTS_OK) then (written, SALTS_OK)
  else (take (length output) (written ++ drop (length written) output), status).

Section Upgrade.
Context {App : Type} {alloc : Allocator} {wrap : MemWrap} {gmtime : Gmtime} {cjwt : Cjwt}
  {callbacks : Callbacks App} {open_callbacks : WebSocketCallbacks App} {engine : CnetWebsocket}
  {search : VstrSearch} {text : VstrText} {base64 : Base64} {sha1 : Sha1}
  (config : connection_config) (dedicated_h1 : bool).
Implicit Types c : websocket_connection App.

Definition wc_state c : Request.chttp_server_request_state App := cn_request_state (wc_connection c).

Definition with_state c (state : Request.chttp_server_request_state App) : websocket_connection App :=
  c <| wc_connection := (wc_connection c) <| cn_request_state := state |> |>.

(** ** The peer *)

(** For the stream 0, on a connection of HTTP/1. *)
Definition chttp_server_websocket_peer_init c (route : chttp_server_route_record) :
    websocket_connection App * salts_status :=
  if (wc_handle_slot c =? 0) || (wc_handle_generation c =? 0) || (wc_server_slot c =? 0) ||
     (wc_server_generation c =? 0) then (c, SALTS_EINVAL)
  else if wp_engine (wc_peer c) || negb (bool_decide (wp_phase (wc_peer c) = CHTTP_SERVER_WEBSOCKET_NONE)) then
    (c, SALTS_EBUSY)
  else
    let status :=
      cnet_websocket_init (rr_websocket_max_frame_bytes route) (rr_websocket_max_message_bytes route)
        (rr_websocket_max_buffered_input_bytes route) in
    if negb (bool_decide (status = SALTS_OK)) then (c, status)
    else
      (c <| wc_peer := {| wp_phase := CHTTP_SERVER_WEBSOCKET_HANDSHAKE; wp_engine := true; wp_route := Some route;
                          wp_dedicated := dedicated_h1 |} |>, SALTS_OK).

Definition chttp_server_websocket_peer_open (peer : chttp_server_websocket_peer) : chttp_server_websocket_peer :=
  if bool_decide (wp_phase peer = CHTTP_SERVER_WEBSOCKET_HANDSHAKE)
  then {| wp_phase := CHTTP_SERVER_WEBSOCKET_OPEN; wp_engine := wp_engine peer; wp_route := wp_route peer;
          wp_dedicated := wp_dedicated peer |}
  else peer.

(** Of a peer that is not bound to the transport yet. *)
Definition chttp_server_websocket_reset c : websocket_connection App :=
  c <| wc_peer := peer_zero |> <| wc_upgrade_input_size := 0 |>.

(** ** The callback of the route *)

(** The end of the chain: it notes that it was reached.  The registration of a
    WebSocket refuses a callback that is [NULL]. *)
Definition chttp_server_websocket_open (route : chttp_server_route_record) (request : server_request)
    (x : call_state App * bool) : (call_state App * bool) * salts_status :=
  match rr_websocket_open route with
  | Some fn =>
    let '(s, status) := websocket_open_fn fn (rr_websocket_user route) request x.1 in ((s, true), status)
  | None => ((x.1, true), SALTS_OK)
  end.

Definition open_chain_run (route : chttp_server_route_record) (request : server_request) (s : call_state App) :
    (call_state App * bool) * salts_status :=
  let chain : @chttp_server_chain App := {| ch_middleware := su_middleware (cc_setup config); ch_route := Some route;
                  ch_fallback_status := 0; ch_allowed_methods := 0; ch_terminal := None |} in
  chain_run_with (fun binding (x : call_state App * bool) => beside (run_binding request binding x.1) x.2)
    (chttp_server_websocket_open route request) chain (s, false).

(** The times at which the session is looked up and finished. *)
Definition chttp_server_websocket_route_open (state : Request.chttp_server_request_state App)
    (route : chttp_server_route_record) (request : server_request) (now_begin now_finish : Z) :
    Request.chttp_server_request_state App * salts_status :=
  let setup := cc_setup config in
  let state := if negb (rs_admission_complete state) then chttp_server_stats_request state else state in
  let routed := request <| sq_params := Router.rs_params (rs_params state) |>
                  <| sq_session := negb (session_capacity (su_sessions setup) =? 0) |>
                  <| sq_jwt_claims := rs_jwt_claims state |> in
  let state := reset_response (session_begin setup state routed now_begin) in
  let '(call, called, status) := open_chain_run route routed (rs_call state) in
  let state := state <| rs_call := call |> in
  let status :=
    if bool_decide (status = SALTS_OK) && negb called && negb (rb_replied (cs_response (rs_call state)))
    then SALTS_EPROTO else status in
  let '(state, status) :=
    if bool_decide (status = SALTS_OK) then session_finish setup state now_finish else (state, status) in
  if negb (bool_decide (status = SALTS_OK))
  then (chttp_server_stats_handler_error (session_abort setup state), status) else (state, status).

(** ** The upgrade *)

(** After the callback: the response it made, or the answer to the handshake. *)
Definition upgrade_answer c (request : chttp_server_request_view) (accept : list Z) (date_ms : Z) :
    websocket_connection App * salts_status * upgrade_action * Z :=
  let b := cn_builder (wc_connection c) in
  if rb_replied b then
    if rb_source_enabled b then
      (chttp_server_websocket_reset (with_state c (close_response_source (wc_state c) SALTS_ENOTSUP)), SALTS_ENOTSUP,
       UpgradeIgnore, 500)
    else
      let '(outbound, status) :=
        chttp_server_response_serialize b request date_ms (cn_outbound_capacity (wc_connection c))
          (cn_outbound (wc_connection c)) in
      let c := chttp_server_websocket_reset
                 (c <| wc_connection := (wc_connection c) <| cn_outbound := outbound |> |>) in
      if negb (bool_decide (status = SALTS_OK)) then (c, status, UpgradeIgnore, 500)
      else
        (c <| wc_connection := chttp_server_stats_response ((wc_connection c) <| cn_close_after_write := true |>) |>,
         SALTS_OK, UpgradeStop, 0)
  else
    let '(outbound, status) :=
      chttp_server_websocket_handshake_serialize b accept (cn_outbound_capacity (wc_connection c))
        (cn_outbound (wc_connection c)) in
    let c := c <| wc_connection := (wc_connection c) <| cn_outbound := outbound |> |> in
    if negb (bool_decide (status = SALTS_OK)) then (chttp_server_websocket_reset c, status, UpgradeIgnore, 500)
    else (c <| wc_connection := chttp_server_stats_response (wc_connection c) |>, SALTS_OK, UpgradeStop, 0).

(** The readings of the clocks of an upgrade. *)
Record upgrade_clock := {
  uc_begin : Z;
  uc_finish : Z;
  uc_date_ms : Z;
}.

(** The connection, the status, the action, and the status to answer with. *)
Definition chttp_server_websocket_upgrade c (request : chttp_server_request_view)
    (headers : list (list Z * list Z)) (clock : upgrade_clock) :
    websocket_connection App * salts_status * upgrade_action * Z :=
  let state := wc_state c in
  if negb (rs_admission_complete state) || rs_admission_rejected state then (c, SALTS_EPERM, UpgradeIgnore, 0)
  else
    match rs_admitted_route state with
    | None => (c, SALTS_OK, UpgradeIgnore, 0)
    | Some route =>
      if negb (rr_websocket route) then (c, SALTS_OK, UpgradeIgnore, 0)
      else
        let v := chttp_websocket_server_handshake_validate request headers CHTTP_WEBSOCKET_ACCEPT_CAPACITY in
        if negb (bool_decide (hv_status v = SALTS_OK)) then (c, hv_status v, UpgradeIgnore, hv_http_status v)
        else
          let outbound_size := zlen (cn_outbound (wc_connection c)) in
          if (cc_max_send_bytes config <? outbound_size) ||
             (cc_max_send_bytes config - outbound_size <? cc_max_response_wire_bytes config)
          then (c, SALTS_ENOBUFS, UpgradeIgnore, hv_http_status v)
          else
            let '(connection, status) :=
              chttp_server_connection_reserve_outbound config (wc_connection c)
                (outbound_size + cc_max_response_wire_bytes config) in
            let c := c <| wc_connection := connection |> in
            if negb (bool_decide (status = SALTS_OK)) then (c, status, UpgradeIgnore, hv_http_status v)
            else
              let '(c, status) := chttp_server_websocket_peer_init c route in
              if negb (bool_decide (status = SALTS_OK)) then (c, status, UpgradeIgnore, hv_http_status v)
              else
                let '(state, status) :=
                  chttp_server_websocket_route_open (wc_state c) route (server_request_of request headers)
                    (uc_begin clock) (uc_finish clock) in
                let c := with_state c state in
                if negb (bool_decide (status = SALTS_OK))
                then (chttp_server_websocket_reset c, status, UpgradeIgnore, 500)
                else upgrade_answer c request (hv_accept v) (uc_date_ms clock)
    end.

End Upgrade.

Arguments websocket_connection : clear implicits.

End WebSocketServer.
