(* ===== verification/WebSocketTheorems.v ===== *)
(** * Theorems about WebSocket upgrades

    What the server writes when it opens a WebSocket, that the client which sent
    the key accepts it, and the states in which an upgrade can leave a
    connection. *)

From S2P Require Import Prelude Decimal HpackBuffer Router Http1Parser Http1ParserTheorems ServerBuffer RateLimit.
From S2P Require Import Session SessionTheorems Response ResponseTheorems ResponseWire Jwt.
From S2P Require Import Middleware Cors Interceptor Request RequestTheorems Connection ConnectionTheorems.
From S2P Require Import WebSocketHandshake WebSocketHandshakeTheorems WebSocketServer.

Module WebSocketTheorems.
Import Decimal HpackBuffer Router Http1Parser Http1ParserTheorems ServerBuffer RateLimit Session SessionTheorems
  Response ResponseTheorems ResponseWire Jwt Middleware Cors Interceptor Request RequestTheorems Connection
  ConnectionTheorems WebSocketHandshake WebSocketHandshakeTheorems WebSocketServer.

(** ** What the server writes *)

(** The pieces in the order in which they are appended. *)
Definition header_pieces (h : list Z * list Z) : list (list Z) := [h.1; bytes_of ": "; h.2; CRLF].

Lemma append_header_pieces capacity headers : forall r,
  fold_left (append_header capacity) headers r =
    fold_left (then_websocket_append capacity) (concat (map header_pieces headers)) r.
Proof.
  induction headers as [|h headers IH]; intros r; [done|]. cbn [fold_left map concat].
  rewrite fold_left_app, IH. done.
Qed.

Lemma failed_appends capacity pieces : forall output,
  (fold_left (then_websocket_append capacity) pieces (output, SALTS_EMSGSIZE)).2 = SALTS_EMSGSIZE.
Proof. induction pieces as [|data pieces IH]; intros output; [done|]. cbn [fold_left then_websocket_append]. apply IH. Qed.

Lemma appends_spec capacity pieces : forall output, zlen output <= capacity ->
  let r := fold_left (then_websocket_append capacity) pieces (output, SALTS_OK) in
  if zlen output + zlen (concat pieces) <=? capacity then r = (output ++ concat pieces, SALTS_OK) else r.2 = SALTS_EMSGSIZE.
Proof.
  induction pieces as [|data pieces IH]; intros output Ho; cbn [fold_left concat].
  - rewrite app_nil_r. by rewrite (proj2 (Z.leb_le _ _)) by (rewrite zlen_nil; lia).
  - cbn [then_websocket_append]. unfold chttp_server_websocket_append. rewrite (proj2 (Z.ltb_ge capacity _)) by done. cbn [orb].
    rewrite zlen_app. pose proof (zlen_nonneg (concat pieces)). destruct (capacity - zlen output <? zlen data) eqn:E.
    + rewrite (proj2 (Z.leb_gt _ _)) by lia. apply failed_appends.
    + specialize (IH (output ++ data)). rewrite zlen_app in IH. specialize (IH ltac:(lia)). cbv zeta in *.
      rewrite Z.add_assoc, app_assoc. exact IH.
Qed.

(** The fields of the answer. *)
Definition opening_fields (headers : list (list Z * list Z)) (accept : list Z) : list (list Z * list Z) :=
  headers ++ [(bytes_of "Upgrade", bytes_of "websocket"); (bytes_of "Connection", bytes_of "Upgrade");
              (bytes_of "Sec-WebSocket-Accept", accept)].

Definition opening_head (headers : list (list Z * list Z)) (accept : list Z) : list Z :=
  response_head 101 (bytes_of "Switching Protocols") (opening_fields headers accept).

Lemma header_pieces_lines headers : concat (concat (map header_pieces headers)) = concat (map (fun h => field_line h ++ CRLF) headers).
Proof.
  induction headers as [|h headers IH]; [done|]. cbn [map concat]. rewrite concat_app, IH. f_equal. unfold field_line, header_pieces.
  cbn [concat]. rewrite app_nil_r, <- app_assoc. done.
Qed.

(** The answer is written in full or not at all. *)
Lemma handshake_write_spec headers accept capacity : zlen accept = CHTTP_WEBSOCKET_ACCEPT_BYTES -> 0 <= capacity ->
  if zlen (opening_head headers accept) <=? capacity
  then handshake_write headers accept capacity = (opening_head headers accept, SALTS_OK)
  else (handshake_write headers accept capacity).2 = SALTS_EMSGSIZE.
Proof.
  intros Ha Hc. set (start := bytes_of "HTTP/1.1 101 Switching Protocols" ++ CRLF).
  set (required := bytes_of "Upgrade: websocket" ++ CRLF ++ bytes_of "Connection: Upgrade" ++ CRLF ++ bytes_of "Sec-WebSocket-Accept: ").
  set (pieces := start :: concat (map header_pieces headers) ++ [required; accept; CRLF ++ CRLF]).
  assert (handshake_write headers accept capacity = fold_left (then_websocket_append capacity) pieces ([], SALTS_OK)) as ->.
  { unfold handshake_write, pieces. cbv zeta. rewrite append_header_pieces. cbn [fold_left]. rewrite fold_left_app. cbn [fold_left].
    rewrite <- Ha, ztake_all. done. }
  assert (concat pieces = opening_head headers accept) as E.
  { unfold pieces. cbn [concat]. rewrite concat_app, header_pieces_lines.
    assert (concat [required; accept; CRLF ++ CRLF] =
      concat (map (fun h => field_line h ++ CRLF) [(bytes_of "Upgrade", bytes_of "websocket"); (bytes_of "Connection", bytes_of "Upgrade");
        (bytes_of "Sec-WebSocket-Accept", accept)]) ++ CRLF) as ->.
    { unfold required. cbn [map concat]. unfold field_line. cbn [fst snd]. rewrite !app_nil_r, <- !app_assoc. reflexivity. }
    unfold opening_head, response_head, opening_fields, print_fields. rewrite map_app, concat_app, <- !app_assoc. reflexivity. }
  pose proof (appends_spec capacity pieces [] Hc) as H. cbv zeta in H. rewrite E, zlen_nil, Z.add_0_l in H. exact H.
Qed.

Lemma serialize_opening b accept capacity output : zlen accept = CHTTP_WEBSOCKET_ACCEPT_BYTES -> 0 <= capacity ->
  let '(output', status) := chttp_server_websocket_handshake_serialize b accept capacity output in
  if zlen (opening_head (rb_headers b) accept) <=? capacity
  then output' = opening_head (rb_headers b) accept /\ status = SALTS_OK
  else length output' = length output /\ status = SALTS_EMSGSIZE.
Proof.
  intros Ha Hc. unfold chttp_server_websocket_handshake_serialize. pose proof (handshake_write_spec (rb_headers b) accept capacity Ha Hc) as H.
  destruct (handshake_write _ _ _) as [written status]. destruct (_ <=? capacity).
  - injection H as -> ->. by rewrite bool_decide_true.
  - cbn in H. subst status. rewrite bool_decide_false by done. split; [|done]. rewrite length_take, length_app, length_drop. lia.
Qed.

(** ** The client accepts it *)

Lemma values_app name l k : values name (l ++ k) = values name l ++ values name k.
Proof. unfold values. by rewrite List.filter_app, map_app. Qed.

Lemma reserved_same n m : chttp_server_ascii_equal n m = true -> reserved_header n = reserved_header m.
Proof.
  unfold chttp_server_ascii_equal, reserved_header, chttp_server_response_ascii_equal. rewrite bytes_eqb_eq. by intros ->.
Qed.

(** The headers of a builder are none of those that the server writes. *)
Lemma reserved_absent name headers : reserved_header name = true -> Forall header_ok headers ->
  values name headers = [] /\ has_field headers name = false.
Proof.
  intros Hn Hf. unfold has_field. induction Hf as [|h headers [_ [_ Hr]] _ [IH1 IH2]]; [done|]. rewrite values_cons. cbn [existsb].
  destruct (chttp_server_ascii_equal h.1 name) eqn:E; [|done]. apply reserved_same in E. congruence.
Qed.

Lemma framing_absent headers : Forall header_ok headers -> existsb framing_field headers = false.
Proof.
  intros Hf. destruct (reserved_absent (bytes_of "Content-Length") headers eq_refl Hf) as [_ H1].
  destruct (reserved_absent (bytes_of "Transfer-Encoding") headers eq_refl Hf) as [_ H2]. unfold has_field in *. clear Hf.
  induction headers as [|h headers IH]; [done|]. cbn [existsb] in *. apply orb_false_iff in H1 as [H1 H1'], H2 as [H2 H2'].
  unfold framing_field at 1. rewrite H1, H2. by apply IH.
Qed.

(** What the server writes is what the client asks for. *)
Lemma fields_accepted headers accept subprotocol : Forall header_ok headers ->
  forallb (fun c => negb (is_ows c)) accept = true ->
  map chttp_server_trim_ows (values (bytes_of "Sec-WebSocket-Protocol") headers) =
    match subprotocol with Some p => [p] | None => [] end ->
  accepting_fields (opening_fields headers accept) accept subprotocol = true.
Proof.
  intros Hh Ha Hp. unfold accepting_fields, opening_fields, announces, has_field. rewrite !values_app, !existsb_app, !map_app, Hp.
  destruct (reserved_absent (bytes_of "Sec-WebSocket-Accept") headers eq_refl Hh) as [-> _].
  pose proof (proj2 (reserved_absent (bytes_of "Sec-WebSocket-Extensions") headers eq_refl Hh)) as He. unfold has_field in He. rewrite He. clear He.
  rewrite (framing_absent headers Hh). clear Hh Hp.
  set (own := [(bytes_of "Upgrade", bytes_of "websocket"); (bytes_of "Connection", bytes_of "Upgrade"); (bytes_of "Sec-WebSocket-Accept", accept)]).
  change (values (bytes_of "Sec-WebSocket-Accept") own) with [accept].
  change (values (bytes_of "Sec-WebSocket-Protocol") own) with (@nil (list Z)).
  change (values (bytes_of "Upgrade") own) with [bytes_of "websocket"]. change (values (bytes_of "Connection") own) with [bytes_of "Upgrade"].
  change (existsb framing_field own) with false.
  change (existsb (fun h => chttp_server_ascii_equal h.1 (bytes_of "Sec-WebSocket-Extensions")) own) with false.
  cbn [app map]. rewrite trim_none, app_nil_r by done. rewrite !bool_decide_true by done.
  change (existsb (fun value => lists_token value (bytes_of "websocket")) [bytes_of "websocket"]) with true.
  change (existsb (fun value => lists_token value (bytes_of "upgrade")) [bytes_of "Upgrade"]) with true. by rewrite !orb_true_r.
Qed.

Section Roundtrip.
Context {search : VstrSearch} {search_law : LawfulVstr search} {text : VstrText} {text_law : LawfulVstrText text}.
Context {base64 : Base64} {base64_law : LawfulBase64 base64} {sha1 : Sha1} {sha1_law : LawfulSha1 sha1}.
Context {alloc : Allocator} {tokenizer : LlhttpResponse} {tokenizer_law : LawfulResponseTokenizer tokenizer}.

(** C26: A client that sends a key of its own and the server that opens a
    WebSocket for it agree: the client accepts the answer of the server, with the
    headers of the application and the subprotocol it selected. *)
Theorem handshake_roundtrip nonce key request headers v b subprotocol wire capacity output expected :
  zlen nonce = CHTTP_WEBSOCKET_NONCE_BYTES ->
  chttp_websocket_client_key_generate (inl nonce) CHTTP_WEBSOCKET_KEY_CAPACITY = Ok key ->
  values (bytes_of "Sec-WebSocket-Key") headers = [key] ->
  v = chttp_websocket_server_handshake_validate request headers CHTTP_WEBSOCKET_ACCEPT_CAPACITY -> hv_status v = SALTS_OK ->
  builder_wf b -> map chttp_server_trim_ows (values (bytes_of "Sec-WebSocket-Protocol") (rb_headers b)) = option_list subprotocol ->
  chttp_server_websocket_handshake_serialize b (hv_accept v) capacity output = (wire, SALTS_OK) ->
  0 <= capacity < SIZE_MAX -> malloc_ok (zlen wire + 1) = true ->
  chttp_websocket_accept_compute key CHTTP_WEBSOCKET_ACCEPT_CAPACITY = Ok expected ->
  chttp_websocket_client_handshake_validate wire expected subprotocol = (SALTS_OK, 101).
Proof.
  intros Hn Hk Hv -> Hok Hb Hp Hw Hc Hm He. 
  assert (zlen key = CHTTP_WEBSOCKET_KEY_BYTES /\ chttp_server_trim_ows key = key) as [Hlen Htrim].
  { unfold chttp_websocket_client_key_generate in Hk. rewrite Z.ltb_irrefl in Hk. destruct (tn_base64_encode_buf_ex nonce _) as [t|] eqn:Et; [|done].
    injection Hk as ->. split; [rewrite (base64_length _ _ _ Et), Hn; done|]. apply trim_none.
    pose proof (base64_text _ _ _ Et) as Ht. by apply forallb_and in Ht as [_ Ht]. }
  destruct (server_verdict request headers CHTTP_WEBSOCKET_ACCEPT_CAPACITY (Z.le_refl _)) as [[_ E]|[(_ & _ & E)|(_ & _ & kv & Ek & E)]]; rewrite E in *; try done.
  rewrite Hv in Ek. injection Ek as <-. apply key_verdict_ok in Hok as (nonce' & digest & _ & _ & _ & Hsha & Haccept); [|done].
  rewrite Htrim in *. pose proof (accept_compute_spec key CHTTP_WEBSOCKET_ACCEPT_CAPACITY Hlen (Z.le_refl _)) as Hcomp. rewrite Hsha in Hcomp.
  destruct Hcomp as (accept & Ha1 & Ha2 & Ha3). rewrite Ha2 in He. injection He as <-. rewrite Ha1 in Haccept. injection Haccept as Haccept.
  rewrite <- Haccept in Hw. pose proof (serialize_opening b accept capacity output Ha3 ltac:(lia)) as Hs. rewrite Hw in Hs.
  destruct (zlen (opening_head (rb_headers b) accept) <=? capacity) eqn:El; [|by destruct Hs]. destruct Hs as [-> _].
  pose proof (base64_text _ _ _ Ha1) as Ht. apply forallb_and in Ht as [Ht1 Ht2].
  pose proof (bw_headers b Hb) as Hh.
  assert (accepting_fields (opening_fields (rb_headers b) accept) accept subprotocol = true) as Hacc.
  { apply fields_accepted; [done|done|]. rewrite Hp. by destruct subprotocol. }
  destruct (client_validate_head 101 (bytes_of "Switching Protocols") (opening_fields (rb_headers b) accept) accept subprotocol) as [[Hf _]|Hval]; try done.
  - unfold opening_fields. rewrite forallb_app. apply andb_true_iff. split.
    + clear - Hh. induction Hh as [|h l (Ht & Hv & _) _ IH]; [done|]. cbn. unfold proper_field. by rewrite Ht, Hv.
    + change (forallb proper_field [(bytes_of "Upgrade", bytes_of "websocket"); (bytes_of "Connection", bytes_of "Upgrade")]) with true.
      cbn [forallb]. unfold proper_field at 3. cbn [fst snd]. unfold chttp_server_response_value. by rewrite Ht1.
  - unfold opening_head in El. lia.
  - unfold accepting_fields in Hacc. rewrite Hf in Hacc. by rewrite !andb_false_r in Hacc.
  - unfold opening_head. rewrite Hval, Hacc. done.
Qed.

End Roundtrip.

(** ** The upgrade *)

Section Upgrade.
Context {App : Type} {alloc : Allocator} {wrap : MemWrap} {gmtime : Gmtime} {cjwt : Cjwt}
  {callbacks : Callbacks App} {open_callbacks : WebSocketCallbacks App} {engine : CnetWebsocket}
  {search : VstrSearch} {text : VstrText} {base64 : Base64} {base64_law : LawfulBase64 base64}
  {sha1 : Sha1} {sha1_law : LawfulSha1 sha1}
  {search_law : LawfulVstr search} {text_law : LawfulVstrText text}
  (config : connection_config) (dedicated_h1 : bool).
Context {lawful : LawfulCallbacks (su_sessions (cc_setup config)) callbacks}.
Context (size_max : cc_max_send_bytes config <= SIZE_MAX).
Implicit Types c : websocket_connection App.

Abbreviation sessions := (su_sessions (cc_setup config)).

(** The application opens a WebSocket through the operations of responses and
    sessions only. *)
Class LawfulWebSocketCallbacks : Prop :=
  lawful_open : forall fn user request s, call_ok sessions s -> call_ok sessions (websocket_open_fn fn user request s).1.

Context {open_lawful : LawfulWebSocketCallbacks}.

(** A computation that keeps an invariant keeps it beside another value. *)
Lemma beside_keeps {St T} (I : St -> Prop) (a : activation St) : forall (t : T), keeps I a -> keeps (fun x => I x.1) (beside a t).
Proof.
  induction a as [s status|s resume IH|s up resume IH]; intros t; cbn; [done| |]; intros [Hs Hr]; (split; [done|]);
    intros [s' t'] status Hs'; cbn; apply IH, Hr, Hs'.
Qed.

(** What the chain of a WebSocket should do: the middleware of the server, then
    of the route, around the callback, with a note of whether that was reached. *)
Definition open_reference (route : chttp_server_route_record) (request : server_request) (s : call_state App) :
    (call_state App * bool) * salts_status :=
  run_chain (chttp_server_websocket_open route request) 0
    (map (fun binding (x : call_state App * bool) => beside (run_binding request binding x.1) x.2)
       (su_middleware (cc_setup config) ++ route_middleware route)) (s, false).

Lemma open_chain_spec route request s : open_chain_run config route request s = open_reference route request s.
Proof. unfold open_chain_run. cbv zeta. by rewrite chain_run_with_spec. Qed.

Lemma open_reference_ok route request s : call_ok sessions s -> call_ok sessions (open_reference route request s).1.1.
Proof.
  intros Hs. unfold open_reference. set (bindings := _ ++ _). clearbody bindings.
  apply (run_chain_keeps (fun x : call_state App * bool => call_ok sessions x.1)); [| |done].
  - intros [s1 called] H1. cbn [fst] in *. unfold chttp_server_websocket_open. destruct (rr_websocket_open route) as [fn|]; [|done].
    pose proof (lawful_open fn (rr_websocket_user route) request s1 H1) as H. cbn [fst]. by destruct (websocket_open_fn _ _ _ _) as [s2 st2].
  - apply Forall_map, Forall_true. intros binding [s1 called] H1. cbn [fst snd] in *. apply beside_keeps.
    destruct binding; cbn [run_binding]; [by apply lawful_middleware|by apply cors_middleware_ok].
Qed.

(** The request as the callbacks of a WebSocket see it. *)
Definition open_request (state : Request.chttp_server_request_state App) (request : server_request) : server_request :=
  request <| sq_params := Router.rs_params (rs_params state) |>
    <| sq_session := negb (session_capacity (su_sessions (cc_setup config)) =? 0) |> <| sq_jwt_claims := rs_jwt_claims state |>.

(** A failure of the callbacks: the session is abandoned. *)
Definition open_abandoned (failed : call_state App) (error : salts_status) (call' : call_state App) (status : salts_status) : Prop :=
  status = error /\ status <> SALTS_OK /\ cs_response call' = cs_response failed /\ cs_app call' = cs_app failed /\
  (cs_sessions call', cs_session call') = chttp_session_request_abort sessions (cs_sessions failed) (cs_session failed).

(** The callbacks run on a fresh response, in the session of the request; they
    fail, or let the WebSocket neither open nor be answered, or the end of the
    session fails, or what they leave with that end is what they made. *)
Definition opened (state : Request.chttp_server_request_state App) (route : chttp_server_route_record) (request : server_request)
    (now_begin now_finish : Z) (call' : call_state App) (status : salts_status) : Prop :=
  let routed := open_request state request in
  let begun := rs_call (reset_response (session_begin (cc_setup config) state routed now_begin)) in
  fresh (cs_response begun) /\
  let '(call, called, chain_status) := open_reference route routed begun in
  if bool_decide (chain_status = SALTS_OK) then
    if called || rb_replied (cs_response call) then
      let '(store, session, response, session_status) :=
        chttp_session_request_finish sessions chttp_server_response_set_header (cs_sessions call) (cs_session call)
          (cs_response call) now_finish in
      let ended := call <| cs_sessions := store |> <| cs_session := session |> <| cs_response := response |> in
      if bool_decide (session_status = SALTS_OK) then call' = ended /\ status = SALTS_OK
      else open_abandoned ended session_status call' status
    else open_abandoned call SALTS_EPROTO call' status
  else open_abandoned call chain_status call' status.

Lemma open_abort_ok (st : Request.chttp_server_request_state App) error : call_ok sessions (rs_call st) -> error <> SALTS_OK ->
  let st' := chttp_server_stats_handler_error (session_abort (cc_setup config) st) in
  call_ok sessions (rs_call st') /\ open_abandoned (rs_call st) error (rs_call st') error.
Proof.
  intros Hs He. cbv zeta. split; [by apply (session_abort_ok (cc_setup config)) in Hs|]. unfold open_abandoned, session_abort.
  by destruct (chttp_session_request_abort _ _ _).
Qed.

Lemma route_open_ok (state : Request.chttp_server_request_state App) route request now1 now2 : rs_admission_complete state = true ->
  call_ok sessions (rs_call state) ->
  let '(state', status) := chttp_server_websocket_route_open config state route request now1 now2 in
  call_ok sessions (rs_call state') /\ opened state route request now1 now2 (rs_call state') status.
Proof.
  intros Had Hs. unfold chttp_server_websocket_route_open, opened. cbv zeta. rewrite Had. cbn [negb]. fold (open_request state request).
  set (routed := open_request state request). clearbody routed.
  pose proof (session_begin_ok (cc_setup config) state routed now1 Hs) as H1. destruct (reset_response_fresh (cc_setup config) _ H1) as (w & b & E & _ & Hf & _).
  apply (reset_response_ok (cc_setup config)) in H1. assert (fresh (cs_response (rs_call (reset_response (session_begin (cc_setup config) state routed now1))))) as Hfresh
    by (by rewrite E). clear E Hf.
  set (st1 := reset_response _) in *. clearbody st1. rewrite open_chain_spec. pose proof (open_reference_ok route routed (rs_call st1) H1) as H2.
  destruct (open_reference route routed (rs_call st1)) as [[call called] status]. cbn [fst] in H2.
  set (st2 := st1 <| rs_call := call |>). assert (call_ok sessions (rs_call st2)) as H3 by exact H2.
  change (cs_response (rs_call st2)) with (cs_response call). change (rs_call st2) with call in H3.
  destruct (decide (status = SALTS_OK)) as [->|Hne].
  2:{ rewrite (bool_decide_false (status = SALTS_OK)) by done. cbn [andb]. rewrite !(bool_decide_false (status = SALTS_OK)) by done. cbn [negb].
      destruct (open_abort_ok st2 status H2 Hne). by split. }
  rewrite (bool_decide_true (SALTS_OK = SALTS_OK)) by done. cbn [andb]. rewrite <- negb_orb.
  destruct (called || rb_replied (cs_response call)); cbn [negb].
  2:{ rewrite (bool_decide_false (SALTS_EPROTO = SALTS_OK)) by done. rewrite bool_decide_false by done. cbn [negb].
      destruct (open_abort_ok st2 SALTS_EPROTO H2 ltac:(done)). by split. }
  rewrite bool_decide_true by done. pose proof (session_finish_ok (cc_setup config) st2 now2 H2) as Hsf. revert Hsf. unfold session_finish.
  change (rs_call st2) with call. destruct (chttp_session_request_finish _ _ _ _ _ _) as [[[s c] b'] fin]. intros (H4 & _ & _).
  destruct (bool_decide (fin = SALTS_OK)) eqn:Ef; cbn [negb]; [apply bool_decide_eq_true in Ef as ->; by split|].
  apply bool_decide_eq_false in Ef. destruct (open_abort_ok _ fin H4 Ef). by split.
Qed.

(** A request for a WebSocket that was admitted, with an opening handshake that
    the server answers with [accept]. *)
Record invited c (request : chttp_server_request_view) (headers : list (list Z * list Z)) (route : chttp_server_route_record)
    (accept : list Z) : Prop := {
  iv_complete : rs_admission_complete (wc_state c) = true;
  iv_admitted : rs_admission_rejected (wc_state c) = false;
  iv_route : rs_admitted_route (wc_state c) = Some route;
  iv_websocket : rr_websocket route = true;
  iv_handshake : chttp_websocket_server_handshake_validate request headers CHTTP_WEBSOCKET_ACCEPT_CAPACITY =
    {| hv_status := SALTS_OK; hv_http_status := 0; hv_accept := accept |};
}.

(** The buffer for the answer, reserved in the connection. *)
Definition reserves c (connection : chttp_server_connection App) (status : salts_status) : Prop :=
  chttp_server_connection_reserve_outbound config (wc_connection c)
    (zlen (cn_outbound (wc_connection c)) + cc_max_response_wire_bytes config) = (connection, status).

Definition has_handle c : Prop :=
  wc_handle_slot c <> 0 /\ wc_handle_generation c <> 0 /\ wc_server_slot c <> 0 /\ wc_server_generation c <> 0.

Definition engine_init (route : chttp_server_route_record) : salts_status :=
  cnet_websocket_init (rr_websocket_max_frame_bytes route) (rr_websocket_max_message_bytes route)
    (rr_websocket_max_buffered_input_bytes route).

(** What a WebSocket of the route lacks, the connection being as it was but for
    the buffer. *)
Inductive lacks c (route : chttp_server_route_record) : chttp_server_connection App -> salts_status -> Prop :=
  | LacksRoom :
      cc_max_send_bytes config < zlen (cn_outbound (wc_connection c)) \/
        cc_max_send_bytes config < zlen (cn_outbound (wc_connection c)) + cc_max_response_wire_bytes config ->
      lacks c route (wc_connection c) SALTS_ENOBUFS
  | LacksMemory connection status : reserves c connection status -> status <> SALTS_OK -> lacks c route connection status
  | LacksHandle connection : reserves c connection SALTS_OK -> ~ has_handle c -> lacks c route connection SALTS_EINVAL
  | LacksEngine connection status :
      reserves c connection SALTS_OK -> engine_init route = status -> status <> SALTS_OK -> lacks c route connection status.

(** The callbacks ran with this result, the connection being as [connection] but
    for the request. *)
Definition ran c (request : chttp_server_request_view) (headers : list (list Z * list Z)) (clock : upgrade_clock)
    (route : chttp_server_route_record) (call : call_state App) (status : salts_status) : Prop :=
  exists connection, reserves c connection SALTS_OK /\ has_handle c /\ engine_init route = SALTS_OK /\
    opened (cn_request_state connection) route (server_request_of request headers) (uc_begin clock) (uc_finish clock) call status.

(** Why the answer of the callbacks, or to the handshake, is not sent. *)
Inductive unsent c (request : chttp_server_request_view) (date_ms : Z) (accept : list Z) (b : chttp_server_response_builder) :
    salts_status -> Prop :=
  | StreamedAnswer : rb_replied b = true -> rb_source_enabled b = true -> unsent c request date_ms accept b SALTS_ENOTSUP
  | LongAnswer connection status :
      rb_replied b = true -> rb_source_enabled b = false -> reserves c connection SALTS_OK -> status <> SALTS_OK ->
      does_not_fit b request date_ms true (cn_outbound_capacity connection - zlen (cn_outbound (wc_connection c))) ->
      unsent c request date_ms accept b status
  | LongHandshake connection :
      rb_replied b = false -> reserves c connection SALTS_OK ->
      cn_outbound_capacity connection < zlen (opening_head (rb_headers b) accept) ->
      unsent c request date_ms accept b SALTS_EMSGSIZE.

(** How an upgrade ends. *)
Inductive upgrade_end c (request : chttp_server_request_view) (headers : list (list Z * list Z)) (clock : upgrade_clock) :
    websocket_connection App * salts_status * upgrade_action * Z -> Prop :=
  | NotAdmitted :
      rs_admission_complete (wc_state c) = false \/ rs_admission_rejected (wc_state c) = true ->
      upgrade_end c request headers clock (c, SALTS_EPERM, UpgradeIgnore, 0)
  | NotAWebSocket :
      rs_admission_complete (wc_state c) = true -> rs_admission_rejected (wc_state c) = false ->
      match rs_admitted_route (wc_state c) with Some route => rr_websocket route = false | None => True end ->
      upgrade_end c request headers clock (c, SALTS_OK, UpgradeIgnore, 0)
  | HandshakeRefused route v :
      rs_admission_complete (wc_state c) = true -> rs_admission_rejected (wc_state c) = false ->
      rs_admitted_route (wc_state c) = Some route -> rr_websocket route = true ->
      chttp_websocket_server_handshake_validate request headers CHTTP_WEBSOCKET_ACCEPT_CAPACITY = v -> hv_status v <> SALTS_OK ->
      upgrade_end c request headers clock (c, hv_status v, UpgradeIgnore, hv_http_status v)
  | NoResources route accept connection status :
      invited c request headers route accept -> lacks c route connection status ->
      upgrade_end c request headers clock (c <| wc_connection := connection |>, status, UpgradeIgnore, 0)
  | OpenFailed route accept c' status :
      invited c request headers route accept -> ran c request headers clock route (rs_call (wc_state c')) status -> status <> SALTS_OK ->
      wc_peer c' = peer_zero -> cn_outbound (wc_connection c') = cn_outbound (wc_connection c) ->
      upgrade_end c request headers clock (c', status, UpgradeIgnore, 500)
  | AnswerFailed route accept c' call status :
      invited c request headers route accept -> ran c request headers clock route call SALTS_OK ->
      unsent c request (uc_date_ms clock) accept (cs_response call) status ->
      wc_peer c' = peer_zero -> length (cn_outbound (wc_connection c')) = length (cn_outbound (wc_connection c)) ->
      upgrade_end c request headers clock (c', status, UpgradeIgnore, 500)
  | UpgradeOpened route accept c' :
      let b := cn_builder (wc_connection c') in
      invited c request headers route accept -> ran c request headers clock route (rs_call (wc_state c')) SALTS_OK ->
      wp_phase (wc_peer c') = CHTTP_SERVER_WEBSOCKET_HANDSHAKE -> wp_engine (wc_peer c') = true -> wp_route (wc_peer c') = Some route ->
      builder_wf b -> rb_replied b = false -> cn_outbound (wc_connection c') = opening_head (rb_headers b) accept ->
      upgrade_end c request headers clock (c', SALTS_OK, UpgradeStop, 0)
  | UpgradeAnswered route accept c' wire :
      let b := cn_builder (wc_connection c') in
      invited c request headers route accept -> ran c request headers clock route (rs_call (wc_state c')) SALTS_OK ->
      rb_source_enabled b = false -> wc_peer c' = peer_zero -> cn_close_after_write (wc_connection c') = true ->
      cn_outbound (wc_connection c') = cn_outbound (wc_connection c) ++ wire -> message_of b request (uc_date_ms clock) true wire ->
      upgrade_end c request headers clock (c', SALTS_OK, UpgradeStop, 0).

Lemma accepted_verdict request headers v :
  v = chttp_websocket_server_handshake_validate request headers CHTTP_WEBSOCKET_ACCEPT_CAPACITY -> hv_status v = SALTS_OK ->
  v = {| hv_status := SALTS_OK; hv_http_status := 0; hv_accept := hv_accept v |} /\ zlen (hv_accept v) = CHTTP_WEBSOCKET_ACCEPT_BYTES.
Proof.
  intros -> Hok. destruct (server_verdict request headers CHTTP_WEBSOCKET_ACCEPT_CAPACITY (Z.le_refl _)) as [[_ E]|[(_ & _ & E)|(_ & _ & kv & _ & E)]]; rewrite E in *; try done.
  unfold key_verdict in *. destruct (chttp_websocket_key_validate kv) as [key|e] eqn:Ek.
  - apply key_validate_spec in Ek as (-> & nonce & Hn & _ & He). pose proof (base64_length _ _ _ He) as Hl. rewrite Hn in Hl.
    pose proof (accept_compute_spec _ CHTTP_WEBSOCKET_ACCEPT_CAPACITY Hl (Z.le_refl _)) as Ha. destruct (cmeta_sha1 _); [|by rewrite Ha in Hok].
    destruct Ha as (accept & _ & -> & Hlen). done.
  - cbn in Hok. subst e. by apply key_validate_never_ok in Ek.
Qed.

(** The answer, once the callbacks of the route have run. *)
Lemma answer_end c0 c connection request headers route accept clock :
  invited c0 request headers route accept -> reserves c0 connection SALTS_OK -> ran c0 request headers clock route (rs_call (wc_state c)) SALTS_OK ->
  zlen accept = CHTTP_WEBSOCKET_ACCEPT_BYTES -> call_ok sessions (rs_call (wc_state c)) ->
  cn_outbound_capacity (wc_connection c) = cn_outbound_capacity connection ->
  zlen (cn_outbound (wc_connection c)) <= cn_outbound_capacity (wc_connection c) ->
  cn_outbound (wc_connection c) = cn_outbound (wc_connection c0) ->
  wp_phase (wc_peer c) = CHTTP_SERVER_WEBSOCKET_HANDSHAKE -> wp_engine (wc_peer c) = true -> wp_route (wc_peer c) = Some route ->
  upgrade_end c0 request headers clock (upgrade_answer c request accept (uc_date_ms clock)).
Proof.
  intros Hi Hres Hran Ha Hs Ecap Ho He Hph Hen Hro. unfold upgrade_answer. cbv zeta.
  change (cn_builder (wc_connection c)) with (cs_response (rs_call (wc_state c))). set (call := rs_call (wc_state c)) in *.
  destruct (rb_replied (cs_response call)) eqn:Er.
  - destruct (rb_source_enabled (cs_response call)) eqn:Ese; [eapply AnswerFailed; [done|exact Hran|by apply StreamedAnswer|done|]|].
    { unfold close_response_source. destruct (chttp_server_response_builder_close_source _ _ _). cbn. by rewrite He. }
    pose proof (serialize_whole (cs_response call) request (uc_date_ms clock) (cn_outbound_capacity (wc_connection c))
      (cn_outbound (wc_connection c)) true (ck_response _ _ Hs) Ho) as Hser. unfold chttp_server_response_serialize.
    destruct (chttp_server_response_serialize_impl _ _ _ _ _ _) as [outbound status]. destruct Hser as [(-> & wire & -> & _ & Hm)|(Hne & -> & Hfit)].
    + rewrite bool_decide_true by done. cbn [negb]. eapply (UpgradeAnswered _ _ _ _ route accept _ wire); try done. cbn. by rewrite He.
    + rewrite bool_decide_false by done. cbn [negb]. eapply AnswerFailed; [done|exact Hran| |done|cbn; by rewrite He].
      rewrite Ecap, He in Hfit. by eapply LongAnswer.
  - pose proof (zlen_nonneg (cn_outbound (wc_connection c))).
    pose proof (serialize_opening (cs_response call) accept (cn_outbound_capacity (wc_connection c)) (cn_outbound (wc_connection c)) Ha ltac:(lia)) as Hser.
    destruct (chttp_server_websocket_handshake_serialize _ _ _ _) as [outbound status].
    destruct (Z.leb_spec (zlen (opening_head (rb_headers (cs_response call)) accept)) (cn_outbound_capacity (wc_connection c))) as [Hle|Hgt].
    + destruct Hser as [-> ->]. rewrite bool_decide_true by done. cbn [negb]. eapply (UpgradeOpened _ _ _ _ route accept); try done. apply (ck_response _ _ Hs).
    + destruct Hser as [Hlen ->]. rewrite bool_decide_false by done. cbn [negb]. eapply AnswerFailed; [done|exact Hran| |done|cbn; by rewrite Hlen, He].
      eapply LongHandshake; [done|exact Hres|lia].
Qed.

(** A request that was invited, up to the answer. *)
Lemma invited_end c request headers route accept clock : wc_peer c = peer_zero -> call_ok sessions (rs_call (wc_state c)) ->
  zlen (cn_outbound (wc_connection c)) <= cn_outbound_capacity (wc_connection c) ->
  zlen accept = CHTTP_WEBSOCKET_ACCEPT_BYTES -> invited c request headers route accept ->
  upgrade_end c request headers clock (chttp_server_websocket_upgrade config dedicated_h1 c request headers clock).
Proof.
  intros Hp Hs Ho Ha Hi. pose proof Hi as [I1 I2 I3 I4 I5]. unfold chttp_server_websocket_upgrade. cbv zeta. rewrite I1, I2, I3, I4, I5. cbn [negb orb hv_status hv_http_status hv_accept].
  rewrite bool_decide_true by done. cbn [negb].
  split_if.
  { assert (c = c <| wc_connection := wc_connection c |>) as E by (by destruct c). rewrite E at 2. eapply NoResources; [done|]. apply LacksRoom.
    destruct Heqb; [left|right]; lia. }
  pose proof (reserve_ok config size_max (wc_connection c) (zlen (cn_outbound (wc_connection c)) + cc_max_response_wire_bytes config) Ho) as Hres.
  destruct (chttp_server_connection_reserve_outbound _ _ _) as [connection status] eqn:Er. destruct Hres as [Hsame Ho2].
  destruct (same_but_buffer_frame config (wc_connection c) connection Hsame) as (E1 & E2 & _ & Hok & _ & _). specialize (Hok Hs).
  destruct (bool_decide (status = SALTS_OK)) eqn:Est; cbn [negb]; [apply bool_decide_eq_true in Est as ->|apply bool_decide_eq_false in Est; by eapply NoResources; [|apply LacksMemory]].
  assert (rs_admission_complete (cn_request_state connection) = true) as Hadm by (destruct Hsame as (? & ? & ? & ->); exact I1).
  unfold chttp_server_websocket_peer_init. cbn [wc_peer set set_wc_connection wc_handle_slot wc_handle_generation wc_server_slot wc_server_generation].
  destruct (_ || _ || _ || _) eqn:Eh.
  { rewrite bool_decide_false by done. cbn [negb]. eapply NoResources; [done|]. apply LacksHandle; [exact Er|]. intros (N1 & N2 & N3 & N4).
    by rewrite !(proj2 (Z.eqb_neq _ _)) in Eh by done. }
  assert (has_handle c) as Hh by (rewrite !orb_false_iff, !Z.eqb_neq in Eh; destruct Eh as [[[? ?] ?] ?]; by split_and!).
  rewrite Hp. cbn [wp_engine wp_phase peer_zero orb]. rewrite (bool_decide_true (CHTTP_SERVER_WEBSOCKET_NONE = _)) by done. cbn [negb].
  fold (engine_init route). destruct (bool_decide (engine_init route = SALTS_OK)) eqn:Ei; cbn [negb].
  2:{ rewrite Ei. cbn [negb]. apply bool_decide_eq_false in Ei. eapply NoResources; [done|]. by eapply LacksEngine; [exact Er|reflexivity|]. }
  apply bool_decide_eq_true in Ei. rewrite (bool_decide_true (SALTS_OK = SALTS_OK)) by done. cbn [negb].
  match goal with |- context [wc_state ?x] => set (c2 := x) end.
  pose proof (route_open_ok (wc_state c2) route (server_request_of request headers) (uc_begin clock) (uc_finish clock) Hadm Hok) as Hopen.
  destruct (chttp_server_websocket_route_open _ _ _ _ _ _) as [state status3]. destruct Hopen as [Hs3 Hopen].
  assert (ran c request headers clock route (rs_call state) status3) as Hran by (by exists connection).
  destruct (bool_decide (status3 = SALTS_OK)) eqn:E3; cbn [negb].
  2:{ apply bool_decide_eq_false in E3. eapply OpenFailed; [exact Hi|exact Hran|exact E3|done|]. exact E1. }
  apply bool_decide_eq_true in E3 as ->. eapply (answer_end c _ connection); try done; cbn; by rewrite E1.
Qed.

Lemma upgrade_spec c request headers clock : wc_peer c = peer_zero -> call_ok sessions (rs_call (wc_state c)) ->
  zlen (cn_outbound (wc_connection c)) <= cn_outbound_capacity (wc_connection c) ->
  upgrade_end c request headers clock (chttp_server_websocket_upgrade config dedicated_h1 c request headers clock).
Proof.
  intros Hp Hs Ho. destruct (rs_admission_complete (wc_state c)) eqn:Ec.
  2:{ unfold chttp_server_websocket_upgrade. rewrite Ec. apply NotAdmitted. by left. }
  destruct (rs_admission_rejected (wc_state c)) eqn:Ej.
  { unfold chttp_server_websocket_upgrade. rewrite Ec, Ej. apply NotAdmitted. by right. }
  destruct (rs_admitted_route (wc_state c)) as [route|] eqn:Er.
  2:{ unfold chttp_server_websocket_upgrade. rewrite Ec, Ej, Er. apply NotAWebSocket; [done|done|by rewrite Er]. }
  destruct (rr_websocket route) eqn:Ew.
  2:{ unfold chttp_server_websocket_upgrade. rewrite Ec, Ej, Er, Ew. apply NotAWebSocket; [done|done|by rewrite Er]. }
  set (v := chttp_websocket_server_handshake_validate request headers CHTTP_WEBSOCKET_ACCEPT_CAPACITY).
  destruct (decide (hv_status v = SALTS_OK)) as [Es|Es].
  - destruct (accepted_verdict request headers v eq_refl Es) as [Ev Ha]. eapply (invited_end c _ _ route (hv_accept v)); try done.
  - unfold chttp_server_websocket_upgrade. rewrite Ec, Ej, Er, Ew. cbn [negb orb]. cbv zeta. fold v. rewrite bool_decide_false by done. cbn [negb].
    by eapply HandshakeRefused.
Qed.

(** C28: An upgrade of a connection without a peer, whose waiting bytes are within
    their capacity, ends in one of these ways, each only with its cause: a request
    that was not admitted is refused; one for another route is left alone; a
    handshake that is wrong is refused with its status; missing memory or room is
    reported; otherwise the middleware of the server, the middleware of the route
    and the callback of the route have run in this order, on a fresh response in
    the session of the request, and when they fail the upgrade fails, when they
    answered, their response is sent after what waits and the connection closes,
    and when they opened the route, the answer to the handshake is all that waits
    to be sent; an answer that cannot be written is reported. Every failure leaves
    no peer. *)
Theorem upgrade_outcome c request headers clock : wc_peer c = peer_zero -> call_ok sessions (rs_call (wc_state c)) ->
  zlen (cn_outbound (wc_connection c)) <= cn_outbound_capacity (wc_connection c) ->
  upgrade_end c request headers clock (chttp_server_websocket_upgrade config dedicated_h1 c request headers clock).
Proof. apply upgrade_spec. Qed.

End Upgrade.

End WebSocketTheorems.
