(* ===== verification/WebSocketExample.v ===== *)
(** * A WebSocket of a small server: the instances of the theorems

    The libraries of the handshake are given by definitions: base64, SHA-1 and a
    reader of responses.  The example of RFC 6455 is computed with them. *)

From S2P Require Import Prelude Decimal HpackBuffer Router Http1Parser Http1ParserTheorems Http1ParserExample.
From S2P Require Import ServerBuffer RateLimit Session SessionTheorems Response ResponseTheorems ResponseWire Jwt.
From S2P Require Import JwtTheorems Middleware Cors CorsTheorems Interceptor Request RequestTheorems Connection.
From S2P Require Import ConnectionTheorems WebSocketHandshake WebSocketHandshakeTheorems WebSocketServer.
From S2P Require Import WebSocketTheorems.

Module WebSocketExample.
Import Decimal HpackBuffer Router Http1Parser Http1ParserTheorems ServerBuffer RateLimit Session SessionTheorems
  Response ResponseTheorems ResponseWire Jwt JwtTheorems Middleware Cors CorsTheorems Interceptor Request RequestTheorems
  RequestExample Connection ConnectionTheorems ConnectionExample WebSocketHandshake WebSocketHandshakeTheorems
  WebSocketServer WebSocketTheorems.

(** ** Strings *)

Definition text_functions : VstrText :=
  {| vstr_trim s _ := chttp_server_trim_ows s; vstr_eq := bytes_eqb; vstr_ieq := chttp_server_ascii_equal |}.
#[export] Instance text_lawful : LawfulVstrText text_functions.
Proof. by split. Qed.

(** ** Base64 *)

Definition alphabet : list Z := bytes_of "ABCDEFGHIJKLMNOPQRSTUVWXYZabcdefghijklmnopqrstuvwxyz0123456789+/".
Definition PAD : Z := 61.

Definition digit (v : Z) : Z := default PAD (alphabet !! Z.to_nat (v mod 64)).

Definition undigit (c : Z) : option Z := Http1ParserExample.first_index alphabet c.

Fixpoint base64_encode (s : list Z) : list Z :=
  match s with
  | a :: b :: c :: s =>
    digit (a / 4) :: digit (a mod 4 * 16 + b / 16) :: digit (b mod 16 * 4 + c / 64) :: digit c :: base64_encode s
  | [a; b] => [digit (a / 4); digit (a mod 4 * 16 + b / 16); digit (b mod 16 * 4); PAD]
  | [a] => [digit (a / 4); digit (a mod 4 * 16); PAD; PAD]
  | [] => []
  end.

Fixpoint base64_decode (t : list Z) : option (list Z) :=
  match t with
  | a :: b :: c :: d :: t =>
    x ← undigit a; y ← undigit b;
    match undigit c, undigit d with
    | Some z, Some w => s ← base64_decode t; Some (4 * x + y / 16 :: y mod 16 * 16 + z / 4 :: z mod 4 * 64 + w :: s)
    | Some z, None => if bool_decide (d = PAD /\ t = []) then Some [4 * x + y / 16; y mod 16 * 16 + z / 4] else None
    | None, _ => if bool_decide (c = PAD /\ d = PAD /\ t = []) then Some [4 * x + y / 16] else None
    end
  | [] => Some []
  | _ => None
  end.

Definition base64_functions : Base64 := {|
  tn_base64_encode_buf_ex s capacity := let t := base64_encode s in if zlen t <? capacity then Some t else None;
  tn_base64_decode_ex t := match base64_decode t with Some s => inl s | None => inr TN_BASE64_ERR_OTHER end;
|}.

Lemma digit_checks (test : Z -> Z -> bool) :
  forallb (fun v => test v (default PAD (alphabet !! Z.to_nat v))) (map Z.of_nat (seq 0 64)) = true ->
  forall v, test (v mod 64) (digit v) = true.
Proof.
  intros H v. rewrite forallb_forall in H. apply (H (v mod 64)), in_map_iff. exists (Z.to_nat (v mod 64)).
  pose proof (Z.mod_pos_bound v 64 ltac:(lia)). split; [lia|]. apply in_seq. lia.
Qed.

Lemma undigit_digit v : undigit (digit v) = Some (v mod 64).
Proof.
  pose proof (digit_checks (fun v c => bool_decide (undigit c = Some v))) as H. specialize (H ltac:(vm_compute; reflexivity) v).
  by apply bool_decide_eq_true in H.
Qed.

Definition text_char (c : Z) : bool := value_char c && negb (is_ows c).

Lemma digit_text v : text_char (digit v) = true.
Proof. apply (digit_checks (fun _ c => text_char c)). vm_compute. reflexivity. Qed.

(** Induction by groups of three. *)
Lemma groups_ind (P : list Z -> Prop) : P [] -> (forall a, P [a]) -> (forall a b, P [a; b]) ->
  (forall a b c s, P s -> P (a :: b :: c :: s)) -> forall s, P s.
Proof.
  intros H0 H1 H2 H3 s. remember (length s) as n eqn:E. revert s E. induction n as [n IH] using lt_wf_ind. intros s ->.
  destruct s as [|a [|b [|c s]]]; auto. apply H3, (IH (length s)); cbn; [lia|done].
Qed.

Ltac Zify.zify_post_hook ::= Z.div_mod_to_equations.

Lemma encode_length s : zlen (base64_encode s) = 4 * ((zlen s + 2) / 3).
Proof.
  induction s as [|a|a b|a b c s IH] using groups_ind; [done|done|done|]. cbn [base64_encode]. rewrite !zlen_cons, IH. lia.
Qed.

Lemma encode_text s : forallb text_char (base64_encode s) = true.
Proof.
  induction s as [|a|a b|a b c s IH] using groups_ind; cbn [base64_encode forallb]; rewrite ?digit_text; done.
Qed.

Lemma decode_encode s : is_bytes s -> base64_decode (base64_encode s) = Some s.
Proof.
  unfold is_bytes. induction s as [|a|a b|a b c s IH] using groups_ind; intros Hs; [done|..];
    repeat (apply Forall_cons_1 in Hs as [? Hs]); unfold is_u8 in *;
    cbn [base64_encode base64_decode]; rewrite !undigit_digit; cbn [mbind option_bind];
    try change (undigit PAD) with (@None Z).
  - rewrite bool_decide_true by done. do 2 f_equal. lia.
  - rewrite bool_decide_true by done. do 2 f_equal; [lia|]. f_equal. lia.
  - rewrite IH by done. cbn. do 2 f_equal; [lia|]. f_equal; [lia|]. f_equal. lia.
Qed.

#[export] Instance base64_lawful : LawfulBase64 base64_functions.
Proof.
  split; cbn; cbv zeta.
  - intros s capacity H. rewrite encode_length, (proj2 (Z.ltb_lt _ _)) by done. eauto.
  - intros s capacity t. split_if; [|done]. intros [= <-]. apply encode_length.
  - intros s capacity t. split_if; [|done]. intros [= <-]. apply encode_text.
  - intros s n m t u. split_if; [|done]. split_if; [|done]. congruence.
  - intros s capacity t Hs. split_if; [|done]. intros [= <-]. left. by rewrite decode_encode.
Qed.

(** ** SHA-1 *)

Definition u32 (v : Z) : Z := v mod 2 ^ 32.
Definition rotl (n v : Z) : Z := Z.lor (u32 (Z.shiftl v n)) (Z.shiftr v (32 - n)).
Definition big_endian (count : nat) (v : Z) : list Z := map (fun i => v / 256 ^ Z.of_nat i mod 256) (rev (seq 0 count)).

Definition sha1_pad (s : list Z) : list Z :=
  s ++ 128 :: repeat 0 (Z.to_nat ((55 - zlen s) mod 64)) ++ big_endian 8 (8 * zlen s).

Fixpoint words (fuel : nat) (s : list Z) : list Z :=
  match fuel, s with
  | S fuel, a :: b :: c :: d :: s => ((a * 256 + b) * 256 + c) * 256 + d :: words fuel s
  | _, _ => []
  end.

(** The schedule, the latest word first. *)
Fixpoint extend (count : nat) (w : list Z) : list Z :=
  match count with
  | O => w
  | S count =>
    let at_ i := nth i w 0 in
    extend count (rotl 1 (Z.lxor (Z.lxor (at_ 2%nat) (at_ 7%nat)) (Z.lxor (at_ 13%nat) (at_ 15%nat))) :: w)
  end.

Definition sha1_mix (t b c d : Z) : Z :=
  if t <? 20 then Z.lor (Z.land b c) (Z.land (Z.lxor b (2 ^ 32 - 1)) d) + 0x5A827999
  else if t <? 40 then Z.lxor (Z.lxor b c) d + 0x6ED9EBA1
  else if t <? 60 then Z.lor (Z.lor (Z.land b c) (Z.land b d)) (Z.land c d) + 0x8F1BBCDC
  else Z.lxor (Z.lxor b c) d + 0xCA62C1D6.

Fixpoint rounds (t : Z) (w : list Z) (a b c d e : Z) : list Z :=
  match w with
  | [] => [a; b; c; d; e]
  | x :: w => rounds (t + 1) w (u32 (rotl 5 a + sha1_mix t b c d + e + x)) a (rotl 30 b) c d
  end.

Definition sha1_block (h : list Z) (block : list Z) : list Z :=
  let w := rev (extend 64 (rev (words 16 block))) in
  let at_ i := nth i h 0 in
  zip_with (fun x y => u32 (x + y)) h (rounds 0 w (at_ 0%nat) (at_ 1%nat) (at_ 2%nat) (at_ 3%nat) (at_ 4%nat)).

Fixpoint sha1_blocks (fuel : nat) (h s : list Z) : list Z :=
  match fuel, s with
  | S fuel, _ :: _ => sha1_blocks fuel (sha1_block h (take 64 s)) (drop 64 s)
  | _, _ => h
  end.

Definition sha1_start : list Z := [0x67452301; 0xEFCDAB89; 0x98BADCFE; 0x10325476; 0xC3D2E1F0].

Definition sha1_function : Sha1 := fun s =>
  let padded := sha1_pad s in Some (concat (map (big_endian 4) (sha1_blocks (length padded) sha1_start padded))).

Lemma rounds_length w : forall t a b c d e, length (rounds t w a b c d e) = 5%nat.
Proof. induction w as [|x w IH]; intros; [done|]. cbn. apply IH. Qed.

Lemma sha1_blocks_length fuel : forall h s, length h = 5%nat -> length (sha1_blocks fuel h s) = 5%nat.
Proof.
  induction fuel as [|fuel IH]; intros h [|x s] Hh; cbn [sha1_blocks]; [done..|]. apply IH. unfold sha1_block.
  rewrite length_zip_with, rounds_length. lia.
Qed.

#[export] Instance sha1_lawful : LawfulSha1 sha1_function.
Proof.
  intros s digest [= <-]. cbv zeta. pose proof (sha1_blocks_length (length (sha1_pad s)) sha1_start (sha1_pad s) eq_refl) as H.
  destruct (sha1_blocks _ _ _) as [|? [|? [|? [|? [|? [|]]]]]]; try done.
Qed.

(** ** A reader of responses *)

Definition field_events (h : list Z * list Z) : list response_event :=
  [ReHeaderField h.1; ReHeaderFieldComplete; ReHeaderValue h.2; ReHeaderValueComplete].

Definition mini_response : LlhttpResponse := fun S callback s data =>
  match read_message data with
  | Some (line, fields, _) =>
    let code := number (take 3 (drop 9 line)) in
    let '(s', r) := run_response callback s (concat (map field_events fields) ++ [ReHeadersComplete code 1 1]) in
    (s', match r with CbUpgrade => HPE_PAUSED_UPGRADE | CbOk | CbOkNoUpgrade => HPE_OK | _ => HPE_OTHER end)
  | None => (s, HPE_OTHER)
  end.

Lemma field_events_read headers : reads_fields headers (concat (map field_events headers)).
Proof.
  induction headers as [|[n v] headers IH]; [constructor|].
  pose proof (reads_field [n] [v] [] [] headers _ eq_refl eq_refl IH) as H. cbn [concat app] in H. by rewrite !app_nil_r in H.
Qed.

Lemma status_checks (test : Z -> bool) : forallb test (map Z.of_nat (seq 100 500)) = true ->
  forall v, 100 <= v <= 599 -> test v = true.
Proof.
  intros H v Hv. rewrite forallb_forall in H. apply H, in_map_iff. exists (Z.to_nat v). split; [lia|]. apply in_seq. lia.
Qed.

Lemma proper_field_ok h : proper_field h = true -> field_ok h.
Proof.
  unfold proper_field, chttp_server_response_token, chttp_server_response_value. intros [[_ Ht]%andb_true_iff Hv]%andb_true_iff.
  rewrite forallb_forall in *. split; apply forallb_forall; intros c Hc; [by apply token_char_clean, Ht|by apply value_char_clean, Hv].
Qed.

#[export] Instance mini_response_lawful : LawfulResponseTokenizer mini_response.
Proof.
  intros S callback s code reason headers Hcode Hr Hh. exists (concat (map field_events headers)). split; [apply field_events_read|]. left.
  set (line := bytes_of "HTTP/1.1 " ++ decimal code ++ bytes_of " " ++ reason).
  assert (read_message (response_head code reason headers) = Some (line, headers, [])) as E.
  { unfold response_head. rewrite <- (app_nil_r (print_fields headers)).
    replace (bytes_of "HTTP/1.1 " ++ decimal code ++ bytes_of " " ++ reason ++ CRLF ++ print_fields headers ++ [])
      with (line ++ CRLF ++ print_fields headers ++ []) by (unfold line; by rewrite <- !app_assoc).
    apply read_message_printed.
    - unfold line. rewrite !forallb_app. rewrite (status_checks (fun v => forallb clean (decimal v)) ltac:(vm_compute; reflexivity) code Hcode).
      cbn [andb forallb]. change (forallb clean (bytes_of "HTTP/1.1 ")) with true. change (forallb clean (bytes_of " ")) with true. cbn [andb].
      rewrite forallb_forall in *. intros c Hc. by apply value_char_clean, Hr.
    - rewrite forallb_forall in Hh. apply Forall_forall. intros h Hin. apply proper_field_ok, Hh. by apply list_elem_of_In. }
  unfold llhttp_execute_response, mini_response. rewrite E. cbv zeta.
  assert (number (take 3 (drop 9 line)) = code) as ->; [|by destruct (run_response _ _ _)].
  pose proof (status_checks (fun v => Nat.eqb (length (decimal v)) 3 && (number (decimal v) =? v)) ltac:(vm_compute; reflexivity) code Hcode) as H.
  apply andb_true_iff in H as [Hl%Nat.eqb_eq Hn%Z.eqb_eq]. unfold line. change 9%nat with (length (bytes_of "HTTP/1.1 ")). rewrite drop_app_length.
  rewrite <- Hl, take_app_length. done.
Qed.


(** ** The example of RFC 6455 *)

#[local] Existing Instances unlimited_allocator one_token one_day every_wrapper file_reader site_callbacks site_lawful.
#[local] Existing Instances Http1ParserExample.search Http1ParserExample.search_lawful text_functions base64_functions sha1_function mini_response.

Definition rfc_nonce : list Z := bytes_of "the sample nonce".
Definition rfc_key : list Z := bytes_of "dGhlIHNhbXBsZSBub25jZQ==".
Definition rfc_accept : list Z := bytes_of "s3pPLMBiTxaQ9kYGzzhZRbK+xOo=".

Lemma rfc_key_accept :
  chttp_websocket_client_key_generate (inl rfc_nonce) CHTTP_WEBSOCKET_KEY_CAPACITY = Ok rfc_key /\
  chttp_websocket_accept_compute rfc_key CHTTP_WEBSOCKET_ACCEPT_CAPACITY = Ok rfc_accept.
Proof. split; vm_compute; reflexivity. Qed.

Definition chat_headers : list (list Z * list Z) :=
  [(bytes_of "Host", bytes_of "a"); (bytes_of "Upgrade", bytes_of "h2c, WebSocket");
   (bytes_of "Connection", bytes_of "keep-alive, Upgrade"); (bytes_of "Sec-WebSocket-Key", rfc_key);
   (bytes_of "Sec-WebSocket-Version", bytes_of "13"); (bytes_of "Sec-WebSocket-Protocol", bytes_of "chat")].

Definition chat_request : chttp_server_request_view := page_request <| rv_path := bytes_of "/chat" |>.

Lemma server_handshake_correct_witness :
  exists digest, cmeta_sha1 (rfc_key ++ CHTTP_WEBSOCKET_GUID) = Some digest /\ base64_encode digest = rfc_accept.
Proof.
  set (v := chttp_websocket_server_handshake_validate chat_request chat_headers CHTTP_WEBSOCKET_ACCEPT_CAPACITY).
  assert (v = {| hv_status := SALTS_OK; hv_http_status := 0; hv_accept := rfc_accept |}) as Ev by (vm_compute; reflexivity).
  destruct (server_handshake_correct chat_request chat_headers CHTTP_WEBSOCKET_ACCEPT_CAPACITY v (Z.le_refl _) eq_refl) as [H _].
  destruct (proj1 H) as (_ & _ & _ & kv & nonce & digest & Hk & _ & _ & _ & Hs & Ha); [by rewrite Ev|].
  assert (values (bytes_of "Sec-WebSocket-Key") chat_headers = [rfc_key]) as Hv by (vm_compute; reflexivity).
  rewrite Hv in Hk. injection Hk as <-. assert (chttp_server_trim_ows rfc_key = rfc_key) as Ht by (vm_compute; reflexivity).
  rewrite Ht in Hs. exists digest. split; [exact Hs|]. rewrite Ev in Ha. cbn [tn_base64_encode_buf_ex base64_functions hv_accept] in Ha.
  revert Ha. split_if; [|done]. intros Ha. apply (f_equal (default [])) in Ha. exact Ha.
Defined.

Definition chat_answer : list (list Z * list Z) :=
  opening_fields [(bytes_of "Sec-WebSocket-Protocol", bytes_of " chat")] rfc_accept.

Lemma client_handshake_correct_witness :
  (chttp_websocket_client_handshake_validate (response_head 101 (bytes_of "Hi") chat_answer) rfc_accept (Some (bytes_of "chat"))).1 = SALTS_OK /\
  (chttp_websocket_client_handshake_validate (response_head 200 (bytes_of "OK") chat_answer) rfc_accept (Some (bytes_of "chat"))).2 = 200.
Proof.
  split.
  - apply (client_handshake_correct 101 (bytes_of "Hi") chat_answer rfc_accept (Some (bytes_of "chat"))); try (vm_compute; reflexivity); [lia|].
    split; [reflexivity|vm_compute; reflexivity].
  - apply (client_handshake_correct 200 (bytes_of "OK") chat_answer rfc_accept (Some (bytes_of "chat"))); try (vm_compute; reflexivity). lia.
Defined.

(** ** A server with a WebSocket *)

(** The callback selects the subprotocol. *)
Definition chat_callbacks : WebSocketCallbacks (list Z) := fun fn user request s =>
  header_call s (fun b => chttp_server_response_select_websocket_subprotocol b (sq_headers request) (bytes_of "chat")).
#[local] Existing Instance chat_callbacks.

Definition ready_engine : CnetWebsocket := fun _ _ _ => SALTS_OK.
#[local] Existing Instance ready_engine.

Definition chat_route : chttp_server_route_record :=
  {| rr_method := CHTTP_METHOD_GET; rr_path := bytes_of "/chat"; rr_middleware := []; rr_param_count := 0;
     rr_handler := UserHandler 0; rr_user := 0; rr_body_open := None; rr_body_close := None;
     rr_jwt_bearer_validator := None; rr_websocket_open := Some 5; rr_websocket_event := Some 6;
     rr_websocket_max_frame_bytes := 1024; rr_websocket_max_message_bytes := 1024;
     rr_websocket_max_buffered_input_bytes := 1024; rr_websocket_user := 0; rr_websocket := true; rr_dynamic := false |}.

Definition chat_config : connection_config :=
  {| cc_setup :=
       {| su_routes := chat_route :: su_routes (cc_setup site_config); su_route_config := su_route_config (cc_setup site_config);
          su_middleware := []; su_sessions := SessionTheorems.example_config;
          su_deadlines := su_deadlines (cc_setup site_config);
          su_validators := fun _ => None; su_jwt_bearer_validator := None; su_admission := None |};
     cc_max_send_bytes := 4096; cc_max_response_wire_bytes := 1024; cc_stream_chunk_bytes := 3;
     cc_tls_initialized := false |}.

Lemma subprotocol_wf b headers subprotocol : builder_wf b ->
  builder_wf (chttp_server_response_select_websocket_subprotocol b headers subprotocol).1.
Proof.
  intros Hb. unfold chttp_server_response_select_websocket_subprotocol. split_if; [done|]. split_if; [done|].
  pose proof (set_header_impl_cases b (bytes_of "Sec-WebSocket-Protocol") subprotocol true Hb) as H.
  destruct (chttp_server_response_set_header_impl _ _ _ _) as [b' status]. destruct H as [[_ ->]|(_ & _ & _ & used & _ & H)]; done.
Qed.

#[local] Instance chat_lawful : LawfulWebSocketCallbacks chat_config.
Proof.
  intros fn user request s Hs. apply (header_call_ok SessionTheorems.example_config); [done|]. apply subprotocol_wf, Hs.
Qed.

(** The connection when the head of the request for the chat has been read. *)
Definition at_chat (c : chttp_server_connection (list Z)) : websocket_connection (list Z) :=
  {| wc_connection := (chttp_server_on_headers chat_config c chat_request chat_headers
       {| hc_entry := 1; hc_start := 1; hc_seconds := 1; hc_date_ms := 784111777000 |}).1.1;
     wc_handle_slot := 1; wc_handle_generation := 1; wc_server_slot := 1; wc_server_generation := 1;
     wc_peer := peer_zero; wc_upgrade_input_size := 0 |}.

Definition chat_clock : upgrade_clock := {| uc_begin := 2; uc_finish := 3; uc_date_ms := 784111777000 |}.

Definition chat_upgrade (c : chttp_server_connection (list Z)) : websocket_connection (list Z) * salts_status * upgrade_action * Z :=
  chttp_server_websocket_upgrade chat_config false (at_chat c) chat_request chat_headers chat_clock.

Lemma upgrade_outcome_witness :
  let c := (chat_upgrade site_connection).1.1.1 in
  wp_phase (wc_peer c) = CHTTP_SERVER_WEBSOCKET_HANDSHAKE /\
  ran chat_config (at_chat site_connection) chat_request chat_headers chat_clock chat_route (rs_call (wc_state c)) SALTS_OK /\
  cn_outbound (wc_connection c) = opening_head (rb_headers (cn_builder (wc_connection c))) rfc_accept.
Proof.
  cbv zeta. assert (wp_phase (wc_peer (chat_upgrade site_connection).1.1.1) = CHTTP_SERVER_WEBSOCKET_HANDSHAKE) as Hph by (vm_compute; reflexivity).
  split; [exact Hph|].
  assert (rs_admitted_route (wc_state (at_chat site_connection)) = Some chat_route) as Hroute by (vm_compute; reflexivity).
  assert (call_ok SessionTheorems.example_config (rs_call (wc_state (at_chat site_connection)))) as Hs.
  { assert (rs_call (wc_state (at_chat site_connection)) = rs_call site_state) as -> by (vm_compute; reflexivity).
    destruct page_call_ok as [H1 H2 H3]. split; [exact H1|exact H2|exact H3]. }
  assert (upgrade_end chat_config (at_chat site_connection) chat_request chat_headers chat_clock (chat_upgrade site_connection)) as H.
  { apply (upgrade_outcome chat_config false); [discriminate|exact chat_lawful|reflexivity|exact Hs|vm_compute; discriminate]. }
  assert (chttp_websocket_server_handshake_validate chat_request chat_headers CHTTP_WEBSOCKET_ACCEPT_CAPACITY =
    {| hv_status := SALTS_OK; hv_http_status := 0; hv_accept := rfc_accept |}) as Ev by (vm_compute; reflexivity).
  clear Hs. assert (wp_phase (wc_peer (at_chat site_connection)) = CHTTP_SERVER_WEBSOCKET_NONE) as Hp0 by reflexivity.
  revert H Hph Hp0 Hroute. generalize (chat_upgrade site_connection), (at_chat site_connection). intros r c H Hph Hp0 Hroute.
  destruct H as [_|_ _ _|route v _ _ _ _ _ _|route accept connection status _ _|route accept c' status _ _ _ Hp _|route accept c' call status _ _ _ Hp _
    |route accept c' b Hi Hran _ _ _ _ _ Ho|route accept c' wire b _ _ _ Hp _ _ _]; cbn [fst snd] in *;
    try (rewrite Hp in Hph; discriminate); try (cbn in Hph; rewrite Hp0 in Hph; discriminate).
  destruct Hi as [_ _ Hr _ Hv]. rewrite Hroute in Hr. injection Hr as <-. rewrite Ev in Hv. injection Hv as <-. split; [exact Hran|exact Ho].
Defined.

Lemma handshake_roundtrip_witness :
  chttp_websocket_client_handshake_validate (cn_outbound (wc_connection (chat_upgrade site_connection).1.1.1)) rfc_accept
    (Some (bytes_of "chat")) = (SALTS_OK, 101).
Proof.
  set (b := cn_builder (wc_connection (chat_upgrade site_connection).1.1.1)).
  assert (b = (chttp_server_response_select_websocket_subprotocol wide_builder chat_headers (bytes_of "chat")).1) as Eb
    by (vm_compute; reflexivity).
  apply (handshake_roundtrip rfc_nonce rfc_key chat_request chat_headers
    {| hv_status := SALTS_OK; hv_http_status := 0; hv_accept := rfc_accept |} b (Some (bytes_of "chat")) _ 1024 [] rfc_accept);
    try (vm_compute; reflexivity).
  - rewrite Eb. apply subprotocol_wf, wide_builder_wf.
  - split; [lia|reflexivity].
Defined.

(** What waited to be sent is lost when a WebSocket opens: the answer to the
    handshake is written over the response to the request before it. *)
Lemma upgrade_drops_pending :
  let before := serve_all chat_config site_connection [get (bytes_of "/page")] in
  exists page, cn_outbound before = page /\ page <> [] /\
    cn_outbound (wc_connection (chat_upgrade before).1.1.1) =
    cn_outbound (wc_connection (chat_upgrade site_connection).1.1.1) /\
    (chat_upgrade before).1.1.2 = SALTS_OK.
Proof. cbv zeta. eexists. split_and!; [reflexivity|vm_compute; discriminate|vm_compute; reflexivity|vm_compute; reflexivity]. Qed.

End WebSocketExample.
