(* ===== verification/WebSse.v ===== *)
(** * Server-sent events

    Model of [app/src/chttp_web_sse.c]: the text of an event, and the stream of
    events as the body source of a response.

    A view is the list of its bytes; a presence flag with its value is an
    [option].  The buffer that a writer fills is [None] while the size is only
    measured.  The producer of the events and the callback at the end of the
    stream belong to the application and are parameters, as is the check of
    UTF-8 in the string library. *)

From S2P Require Import Prelude Decimal HpackBuffer Router Http1Parser ServerBuffer Web Response.

Module WebSse.
Import Decimal HpackBuffer Router Http1Parser ServerBuffer Web Response.

(** The sizes of the structures with eight-byte pointers and sizes. *)
Definition sizeof_sse_event : Z := 72.
Definition sizeof_sse_stream : Z := 72.

Record chttp_web_sse_event := {
  sv_size : Z;
  sv_event : option (list Z);
  sv_data : option (list Z);
  sv_id : option (list Z);
  sv_retry_ms : option Z;
}.

(** [VSTR_NPOS] is [None]. *)
Class VstrUtf8 := vstr_utf8_invalid_offset : list Z -> option Z.

(** ** The text of an event *)

Record chttp_web_sse_writer := {
  sw_data : option (list Z);
  sw_capacity : Z;
  sw_size : Z;
}.

Definition chttp_web_sse_fail (status : chttp_web_status) (native_status : salts_status) (message : String.string) :
    chttp_web_error :=
  {| we_status := status; we_native_status := native_status; we_offset := 0; we_message := bytes_of message |}.
Arguments chttp_web_sse_fail _ _ message%_string_scope.

Section Events.
Context {utf8 : VstrUtf8}.

Definition chttp_web_sse_view_valid (value : list Z) : bool :=
  (zlen value =? 0) || match vstr_utf8_invalid_offset value with None => true | Some _ => false end.

Definition chttp_web_sse_single_line_valid (value : list Z) (reject_nul : bool) : bool :=
  chttp_web_sse_view_valid value &&
  forallb (fun byte => negb ((byte =? CR) || (byte =? LF) || (reject_nul && (byte =? 0)))) value.

Definition chttp_web_sse_event_valid (event : chttp_web_sse_event) : bool :=
  negb (negb (sv_size event =? sizeof_sse_event) ||
        (is_none (sv_event event) && is_none (sv_data event) && is_none (sv_id event) &&
         is_none (sv_retry_ms event))) &&
  match sv_event event with Some value => chttp_web_sse_single_line_valid value true | None => true end &&
  match sv_id event with Some value => chttp_web_sse_single_line_valid value true | None => true end &&
  match sv_data event with Some value => chttp_web_sse_view_valid value | None => true end.

(** [None] is the return of 0. *)
Definition chttp_web_sse_append (writer : chttp_web_sse_writer) (data : list Z) : option chttp_web_sse_writer :=
  if SIZE_MAX - sw_size writer <? zlen data then None
  else
    match sw_data writer with
    | Some written =>
      if (sw_capacity writer <? sw_size writer) || (sw_capacity writer - sw_size writer <? zlen data) then None
      else Some {| sw_data := Some (written ++ data); sw_capacity := sw_capacity writer;
                   sw_size := sw_size writer + zlen data |}
    | None => Some {| sw_data := None; sw_capacity := sw_capacity writer; sw_size := sw_size writer + zlen data |}
    end.

Definition chttp_web_sse_append_field (writer : chttp_web_sse_writer) (name value : list Z) :
    option chttp_web_sse_writer :=
  writer ← chttp_web_sse_append writer name;
  writer ← chttp_web_sse_append writer (bytes_of ":");
  writer ← (if negb (zlen value =? 0) then
              writer ← chttp_web_sse_append writer (bytes_of " "); chttp_web_sse_append writer value
            else Some writer);
  chttp_web_sse_append writer [LF].

Definition chttp_web_sse_append_data_line (writer : chttp_web_sse_writer) (line : list Z) :
    option chttp_web_sse_writer :=
  chttp_web_sse_append_field writer (bytes_of "data") line.

(** [line] is what was passed since [start]. *)
Fixpoint append_data_loop (writer : chttp_web_sse_writer) (line data : list Z) : option chttp_web_sse_writer :=
  match data with
  | [] => chttp_web_sse_append_data_line writer line
  | c :: data =>
    if negb (c =? CR) && negb (c =? LF) then append_data_loop writer (line ++ [c]) data
    else
      writer ← chttp_web_sse_append_data_line writer line;
      match data with
      | d :: rest =>
        if (c =? CR) && (d =? LF) then
          match rest with [] => chttp_web_sse_append_data_line writer [] | _ => append_data_loop writer [] rest end
        else append_data_loop writer [] data
      | [] => chttp_web_sse_append_data_line writer []
      end
  end.

Definition chttp_web_sse_append_data (writer : chttp_web_sse_writer) (data : list Z) :
    option chttp_web_sse_writer :=
  if zlen data =? 0 then chttp_web_sse_append_data_line writer [] else append_data_loop writer [] data.

Definition RETRY_BYTES : Z := 48.

Definition retry_line (retry_ms : Z) : list Z := bytes_of "retry: " ++ decimal_size retry_ms ++ [LF].

Definition chttp_web_sse_format_core (event : chttp_web_sse_event) (writer : chttp_web_sse_writer) :
    option chttp_web_sse_writer :=
  writer ← match sv_event event with
           | Some value => chttp_web_sse_append_field writer (bytes_of "event") value
           | None => Some writer
           end;
  writer ← match sv_id event with
           | Some value => chttp_web_sse_append_field writer (bytes_of "id") value
           | None => Some writer
           end;
  writer ← match sv_retry_ms event with
           | Some retry_ms =>
             if RETRY_BYTES <=? zlen (retry_line retry_ms) then None
             else chttp_web_sse_append writer (retry_line retry_ms)
           | None => Some writer
           end;
  writer ← match sv_data event with
           | Some value => chttp_web_sse_append_data writer value
           | None => Some writer
           end;
  chttp_web_sse_append writer [LF].

(** The bytes that were written, on success; the buffer is not [NULL]. *)
Definition chttp_web_sse_format_event (event : chttp_web_sse_event) (buffer_capacity : Z) :
    list Z * chttp_web_error :=
  if negb (chttp_web_sse_event_valid event) || (buffer_capacity =? 0) then
    ([], chttp_web_sse_fail CHTTP_WEB_INVALID_ARGUMENT SALTS_EINVAL "invalid SSE event or output buffer")
  else
    match chttp_web_sse_format_core event {| sw_data := None; sw_capacity := 0; sw_size := 0 |} with
    | None => ([], chttp_web_sse_fail CHTTP_WEB_CAPACITY SALTS_EMSGSIZE "SSE event size overflow")
    | Some measure =>
      if buffer_capacity <? sw_size measure then
        ([], chttp_web_sse_fail CHTTP_WEB_CAPACITY SALTS_EMSGSIZE "SSE event exceeds output capacity")
      else
        match chttp_web_sse_format_core event
                {| sw_data := Some []; sw_capacity := buffer_capacity; sw_size := 0 |} with
        | Some {| sw_data := Some written; sw_size := size |} =>
          if size =? sw_size measure then (written, chttp_web_sse_fail CHTTP_WEB_OK SALTS_OK "")
          else ([], chttp_web_sse_fail CHTTP_WEB_CAPACITY SALTS_EMSGSIZE
                      "SSE event formatting exceeded output capacity")
        | _ => ([], chttp_web_sse_fail CHTTP_WEB_CAPACITY SALTS_EMSGSIZE
                      "SSE event formatting exceeded output capacity")
        end
    end.

End Events.

(** ** The stream *)

(** The callbacks and the scratch are [None] for [NULL]; the scratch is what was
    written into it last. *)
Record chttp_web_sse_stream := {
  ss_size : Z;
  ss_next : option Z;
  ss_close : option Z;
  ss_user : Z;
  ss_scratch : option (list Z);
  ss_scratch_capacity : Z;
  ss_buffered_offset : Z;
  ss_buffered_size : Z;
  ss_terminal_status : salts_status;
  ss_active : bool;
  ss_eof : bool;
}.

#[export] Instance eta_sse_stream : Eta chttp_web_sse_stream :=
  fun s => Build_chttp_web_sse_stream (ss_size s) (ss_next s) (ss_close s) (ss_user s) (ss_scratch s)
    (ss_scratch_capacity s) (ss_buffered_offset s) (ss_buffered_size s) (ss_terminal_status s) (ss_active s) (ss_eof s).
#[export] Instance set_ss_scratch : Setter ss_scratch. Proof. mk_setter. Defined.
#[export] Instance set_ss_buffered_offset : Setter ss_buffered_offset. Proof. mk_setter. Defined.
#[export] Instance set_ss_buffered_size : Setter ss_buffered_size. Proof. mk_setter. Defined.
#[export] Instance set_ss_terminal_status : Setter ss_terminal_status. Proof. mk_setter. Defined.
#[export] Instance set_ss_active : Setter ss_active. Proof. mk_setter. Defined.
#[export] Instance set_ss_eof : Setter ss_eof. Proof. mk_setter. Defined.

(** The producer fills an event that is passed to it empty. *)
Class SseCallbacks (App : Type) := {
  sse_next_fn : Z -> Z -> App -> App * salts_status * chttp_web_sse_event;
  sse_close_fn : Z -> Z -> salts_status -> App -> App;
}.

Section Stream.
Context {App : Type} {utf8 : VstrUtf8} {callbacks : SseCallbacks App}.
Implicit Types s : chttp_web_sse_stream.

Definition chttp_web_sse_stream_init s (next close : option Z) (user : Z) (scratch : option (list Z))
    (scratch_capacity : Z) : chttp_web_sse_stream * chttp_web_error :=
  if is_none next || is_none scratch || (scratch_capacity =? 0) ||
     (negb (ss_size s =? 0) && negb (ss_size s =? sizeof_sse_stream)) ||
     ((ss_size s =? sizeof_sse_stream) && ss_active s)
  then (s, chttp_web_sse_fail CHTTP_WEB_INVALID_ARGUMENT SALTS_EINVAL "invalid SSE stream configuration")
  else
    ({| ss_size := sizeof_sse_stream; ss_next := next; ss_close := close; ss_user := user; ss_scratch := scratch;
        ss_scratch_capacity := scratch_capacity; ss_buffered_offset := 0; ss_buffered_size := 0;
        ss_terminal_status := SALTS_OK; ss_active := false; ss_eof := false |},
     chttp_web_sse_fail CHTTP_WEB_OK SALTS_OK "").

(** The loop that fills the scratch; [inl] when there is something to copy,
    [inr] is a return.  Out of fuel is [None]. *)
Fixpoint sse_fill (fuel : nat) s (next : Z) (app : App) :
    option (chttp_web_sse_stream * App * option salts_status) :=
  match fuel with
  | O => None
  | S fuel =>
    if negb (ss_buffered_offset s =? ss_buffered_size s) then Some (s, app, None)
    else
      let s := s <| ss_buffered_offset := 0 |> <| ss_buffered_size := 0 |> in
      if ss_eof s then Some (s, app, Some SALTS_OK)
      else
        let '(app, status, event) := sse_next_fn next (ss_user s) app in
        if bool_decide (status = SALTS_ENOENT) then Some (s <| ss_eof := true |>, app, Some SALTS_OK)
        else if negb (bool_decide (status = SALTS_OK)) then Some (s, app, Some status)
        else
          let '(text, error) := chttp_web_sse_format_event event (ss_scratch_capacity s) in
          if bool_decide (we_status error = CHTTP_WEB_CAPACITY) then Some (s, app, Some SALTS_EMSGSIZE)
          else if negb (bool_decide (we_status error = CHTTP_WEB_OK)) then Some (s, app, Some SALTS_EINVAL)
          else sse_fill fuel (s <| ss_scratch := Some text |> <| ss_buffered_size := zlen text |>) next app
  end.

(** An event is never empty, so that the loop ends in its second round. *)
Definition FILL_FUEL : nat := 2.

Definition chttp_web_sse_source_read s (capacity : Z) (app : App) :
    option (chttp_web_sse_stream * App * salts_status * list Z) :=
  match ss_next s, ss_scratch s with
  | Some next, Some _ =>
    if negb (ss_size s =? sizeof_sse_stream) || (capacity =? 0) || negb (ss_active s) ||
       (ss_scratch_capacity s =? 0)
    then Some (s, app, SALTS_EINVAL, [])
    else
      match sse_fill FILL_FUEL s next app with
      | None => None
      | Some (s, app, Some status) => Some (s, app, status, [])
      | Some (s, app, None) =>
        let remaining := ss_buffered_size s - ss_buffered_offset s in
        let copied := if remaining <? capacity then remaining else capacity in
        Some (s <| ss_buffered_offset := ss_buffered_offset s + copied |>, app, SALTS_OK,
              ztake copied (zdrop (ss_buffered_offset s) (default [] (ss_scratch s))))
      end
  | _, _ => Some (s, app, SALTS_EINVAL, [])
  end.

Definition chttp_web_sse_source_cleanup s (status : salts_status) (app : App) : chttp_web_sse_stream * App :=
  if negb (ss_size s =? sizeof_sse_stream) then (s, app)
  else
    (s <| ss_active := false |> <| ss_terminal_status := status |> <| ss_buffered_offset := 0 |>
       <| ss_buffered_size := 0 |>,
     match ss_close s with Some close => sse_close_fn close (ss_user s) status app | None => app end).

(** [read] and [cleanup] are the two functions above. *)
Definition sse_source (read : Z) : chttp_body_source :=
  {| bs_read := read; bs_content_length := 0; bs_content_length_known := false |}.

Definition chttp_web_sse_response (read cleanup : Z) (b : chttp_server_response_builder) s :
    chttp_server_response_builder * chttp_web_sse_stream * chttp_web_error :=
  if negb (ss_size s =? sizeof_sse_stream) || ss_active s || is_none (ss_next s) ||
     is_none (ss_scratch s) || (ss_scratch_capacity s =? 0)
  then (b, s, chttp_web_sse_fail CHTTP_WEB_INVALID_ARGUMENT SALTS_EINVAL "invalid SSE response state")
  else
    let '(b, status) := chttp_server_response_set_header b (bytes_of "Cache-Control") (bytes_of "no-cache") in
    if negb (bool_decide (status = SALTS_OK)) then
      (b, s, chttp_web_sse_fail CHTTP_WEB_SERVER status "CHTTP rejected the SSE cache policy")
    else
      let s := s <| ss_buffered_offset := 0 |> <| ss_buffered_size := 0 |> <| ss_terminal_status := SALTS_OK |>
                 <| ss_eof := false |> <| ss_active := true |> in
      let '(b, status) :=
        chttp_server_response_source_with_cleanup b 200 (Some (bytes_of "text/event-stream")) (sse_source read)
          (Some cleanup) in
      if negb (bool_decide (status = SALTS_OK)) then
        (b, s <| ss_active := false |>, chttp_web_sse_fail CHTTP_WEB_SERVER status "CHTTP rejected the SSE response source")
      else (b, s, chttp_web_sse_fail CHTTP_WEB_OK SALTS_OK "").

End Stream.

End WebSse.
