(* ===== verification/WebSseTheorems.v ===== *)
(** * Theorems about server-sent events

    What the formatter writes, that a reader of event streams reads the events
    back, and that a stream of events is a source that a connection delivers. *)

From S2P Require Import Prelude Decimal HpackBuffer Router Http1Parser ServerBuffer Web Response WebSse RateLimit.
From S2P Require Import Session SessionTheorems ResponseTheorems ResponseWire Jwt JwtTheorems Middleware Cors.
From S2P Require Import CorsTheorems Interceptor Request RequestTheorems Connection ConnectionTheorems.

Module WebSseTheorems.
Import Decimal HpackBuffer Router Http1Parser ServerBuffer Web Response WebSse.

(** ** Lines *)

(** The lines of a text, which end in CR, LF or both; the last one has no end. *)
Fixpoint text_lines (line s : list Z) : list (list Z) :=
  match s with
  | [] => [line]
  | c :: s =>
    if c =? LF then line :: text_lines [] s
    else if c =? CR then
      line :: match s with d :: s' => if d =? LF then text_lines [] s' else text_lines [] s | [] => [[]] end
    else text_lines (line ++ [c]) s
  end.

Definition clean (c : Z) : bool := negb (c =? CR) && negb (c =? LF).

Definition unlines (ls : list (list Z)) : list Z := concat (map (fun l => l ++ [LF]) ls).

Lemma text_lines_clean a : forall line s, forallb clean a = true ->
  text_lines line (a ++ s) = text_lines (line ++ a) s.
Proof.
  induction a as [|c a IH]; intros line s; cbn [forallb app]; [by rewrite app_nil_r|]. intros [Hc Ha]%andb_true_iff.
  unfold clean in Hc. apply andb_true_iff in Hc as [Hcr Hlf]. apply negb_true_iff in Hcr, Hlf. cbn [text_lines]. rewrite Hcr, Hlf, IH by done.
  by rewrite <- app_assoc.
Qed.

Lemma text_lines_unlines ls : Forall (fun l => forallb clean l = true) ls -> text_lines [] (unlines ls) = ls ++ [[]].
Proof.
  induction 1 as [|l ls Hl _ IH]; [done|]. unfold unlines in *. cbn [map concat]. rewrite <- app_assoc, text_lines_clean by done.
  cbn [app text_lines]. by rewrite Z.eqb_refl, IH.
Qed.

(** No line of a text has an end in it. *)
Lemma text_lines_all_clean : forall n s line, (length s <= n)%nat -> forallb clean line = true ->
  Forall (fun l => forallb clean l = true) (text_lines line s).
Proof.
  induction n as [|n IH]; intros [|c s] line Hn Hl; cbn [text_lines]; try (by repeat constructor); cbn in Hn; [lia|].
  destruct (c =? LF) eqn:Elf; [constructor; [done|apply IH; [lia|done]]|].
  destruct (c =? CR) eqn:Ecr.
  - constructor; [done|]. destruct s as [|d s]; [by repeat constructor|]. cbn in Hn. destruct (d =? LF); apply IH; try done; cbn; lia.
  - apply IH; [lia|]. rewrite forallb_app, Hl. cbn. unfold clean. by rewrite Ecr, Elf.
Qed.

(** ** The writer *)

Record writer_ok (w : chttp_web_sse_writer) : Prop := {
  wo_size : 0 <= sw_size w <= SIZE_MAX;
  wo_capacity : sw_data w = None \/ sw_size w <= sw_capacity w;
}.

Lemma writer_append_ok w a w' : writer_ok w -> chttp_web_sse_append w a = Some w' -> writer_ok w'.
Proof.
  intros [Hs Hc]. unfold chttp_web_sse_append. pose proof (zlen_nonneg a). split_if; [done|].
  destruct (sw_data w) as [t|]; [destruct Hc; [done|]; split_if; [done|]|]; intros [= <-]; split; cbn; auto; lia.
Qed.

(** Two appends are one. *)
Lemma append_append w a b : writer_ok w ->
  (w' ← chttp_web_sse_append w a; chttp_web_sse_append w' b) = chttp_web_sse_append w (a ++ b).
Proof.
  intros [Hs Hc]. unfold chttp_web_sse_append. pose proof (zlen_nonneg a). pose proof (zlen_nonneg b). rewrite zlen_app.
  destruct (SIZE_MAX - sw_size w <? zlen a) eqn:E1; cbn [mbind option_bind].
  { by rewrite (proj2 (Z.ltb_lt _ (zlen a + zlen b))) by lia. }
  destruct (sw_data w) as [t|].
  - destruct Hc as [?|Hc]; [done|]. rewrite (proj2 (Z.ltb_ge (sw_capacity w) _)) by lia. cbn [orb].
    destruct (sw_capacity w - sw_size w <? zlen a) eqn:E2; cbn [mbind option_bind sw_data sw_size sw_capacity].
    { rewrite (proj2 (Z.ltb_lt (sw_capacity w - sw_size w) (zlen a + zlen b))) by lia. by split_if. }
    rewrite (proj2 (Z.ltb_ge (sw_capacity w) _)) by lia. cbn [orb]. rewrite <- app_assoc, Z.add_assoc.
    replace (SIZE_MAX - (sw_size w + zlen a) <? zlen b) with (SIZE_MAX - sw_size w <? zlen a + zlen b) by lia.
    by replace (sw_capacity w - (sw_size w + zlen a) <? zlen b) with (sw_capacity w - sw_size w <? zlen a + zlen b) by lia.
  - cbn [mbind option_bind sw_data sw_size sw_capacity]. rewrite Z.add_assoc.
    by replace (SIZE_MAX - (sw_size w + zlen a) <? zlen b) with (SIZE_MAX - sw_size w <? zlen a + zlen b) by lia.
Qed.

Lemma append_nil w : writer_ok w -> chttp_web_sse_append w [] = Some w.
Proof.
  intros [Hs Hc]. unfold chttp_web_sse_append. rewrite zlen_nil, (proj2 (Z.ltb_ge _ 0)) by lia. destruct w as [[t|] capacity size]; cbn in *.
  - destruct Hc; [done|]. rewrite !(proj2 (Z.ltb_ge _ _)) by lia. cbn. by rewrite app_nil_r, Z.add_0_r.
  - by rewrite Z.add_0_r.
Qed.

(** A step that appends, and then steps that append. *)
Lemma append_then w a b (f : chttp_web_sse_writer -> option chttp_web_sse_writer) : writer_ok w ->
  (forall w', writer_ok w' -> f w' = chttp_web_sse_append w' b) ->
  (w' ← chttp_web_sse_append w a; f w') = chttp_web_sse_append w (a ++ b).
Proof.
  intros Hw Hf. rewrite <- append_append by done. destruct (chttp_web_sse_append w a) as [w'|] eqn:E; [|done].
  cbn. apply Hf. by eapply writer_append_ok.
Qed.

(** ** The text of an event *)

Definition field_line (name value : list Z) : list Z :=
  name ++ bytes_of ":" ++ (if zlen value =? 0 then [] else bytes_of " " ++ value).

Definition option_lines {A} (f : A -> list (list Z)) (value : option A) : list (list Z) :=
  match value with Some value => f value | None => [] end.

(** The lines of an event, the blank one at its end included. *)
Definition event_lines (event : chttp_web_sse_event) : list (list Z) :=
  option_lines (fun value => [field_line (bytes_of "event") value]) (sv_event event) ++
  option_lines (fun value => [field_line (bytes_of "id") value]) (sv_id event) ++
  option_lines (fun ms => [field_line (bytes_of "retry") (decimal_size ms)]) (sv_retry_ms event) ++
  option_lines (fun data => map (field_line (bytes_of "data")) (text_lines [] data)) (sv_data event) ++ [[]].

Definition event_text (event : chttp_web_sse_event) : list Z := unlines (event_lines event).

Lemma unlines_app a b : unlines (a ++ b) = unlines a ++ unlines b.
Proof. unfold unlines. by rewrite map_app, concat_app. Qed.

Lemma unlines_cons l ls : unlines (l :: ls) = unlines [l] ++ unlines ls.
Proof. apply (unlines_app [l]). Qed.

Lemma append_field_spec w name value : writer_ok w ->
  chttp_web_sse_append_field w name value = chttp_web_sse_append w (unlines [field_line name value]).
Proof.
  intros Hw. unfold chttp_web_sse_append_field, unlines, field_line. cbn [map concat]. rewrite app_nil_r, <- !app_assoc.
  apply append_then; [done|]. intros w1 H1. apply append_then; [done|]. intros w2 H2. destruct (zlen value =? 0); cbn [negb].
  - done.
  - rewrite append_append by done. rewrite <- app_assoc. rewrite append_append by done. by rewrite <- !app_assoc.
Qed.

Lemma data_line_spec w line : writer_ok w ->
  chttp_web_sse_append_data_line w line = chttp_web_sse_append w (unlines [field_line (bytes_of "data") line]).
Proof. apply append_field_spec. Qed.

Lemma data_loop_spec : forall n data line w, (length data <= n)%nat -> writer_ok w ->
  append_data_loop w line data = chttp_web_sse_append w (unlines (map (field_line (bytes_of "data")) (text_lines line data))).
Proof.
  induction n as [|n IH]; intros [|c data] line w Hn Hw; cbn in Hn; try lia; try (by apply append_field_spec).
  assert (Hrest : forall rest w1, (length rest <= n)%nat -> writer_ok w1 ->
    match rest with [] => chttp_web_sse_append_data_line w1 [] | _ => append_data_loop w1 [] rest end =
    chttp_web_sse_append w1 (unlines (map (field_line (bytes_of "data")) (text_lines [] rest)))).
  { intros rest w1 H1 Hw1. destruct rest as [|d rest]; [by apply append_field_spec|by apply IH]. }
  cbn [append_data_loop text_lines].
  destruct (c =? LF) eqn:Elf.
  - rewrite andb_false_r. apply Z.eqb_eq in Elf as ->. rewrite (data_line_spec w line) by done.
    cbn [map]. rewrite (unlines_cons _ (map _ _)). apply append_then; [done|]. intros w1 Hw1.
    specialize (Hrest data w1 ltac:(lia) Hw1). by destruct data.
  - destruct (c =? CR) eqn:Ecr; cbn [negb andb]; [|apply IH; [lia|done]].
    rewrite (data_line_spec w line) by done. cbn [map]. rewrite (unlines_cons _ (map _ _)). apply append_then; [done|]. intros w1 Hw1. destruct data as [|d data]; [by apply append_field_spec|]. cbn in Hn.
    destruct (d =? LF); [apply (Hrest data); [lia|done]|apply (Hrest (d :: data)); [cbn; lia|done]].
Qed.

(** The retry line always fits its array. *)
Lemma retry_line_spec ms : 0 <= ms <= SIZE_MAX ->
  retry_line ms = unlines [field_line (bytes_of "retry") (decimal_size ms)] /\ zlen (retry_line ms) < RETRY_BYTES.
Proof.
  intros Hms. destruct (decimal_size_number ms Hms) as (front & E & Hne & _ & Hl & _). unfold retry_line, field_line, unlines. rewrite E. split.
  - destruct (zlen front =? 0) eqn:E0; [by apply Z.eqb_eq, zlen_0_inv in E0|]. cbn [map concat]. by rewrite app_nil_r, <- !app_assoc.
  - rewrite !zlen_app. change (zlen (bytes_of "retry: ")) with 7. change (zlen [LF]) with 1. unfold RETRY_BYTES. lia.
Qed.

Definition retry_ok (event : chttp_web_sse_event) : Prop :=
  match sv_retry_ms event with Some ms => 0 <= ms <= SIZE_MAX | None => True end.

(** An optional step. *)
Lemma option_step {A} (value : option A) (f : A -> chttp_web_sse_writer -> option chttp_web_sse_writer) lines w b
    (next : chttp_web_sse_writer -> option chttp_web_sse_writer) : writer_ok w ->
  (forall x, value = Some x -> f x w = chttp_web_sse_append w (unlines (lines x))) ->
  (forall w', writer_ok w' -> next w' = chttp_web_sse_append w' b) ->
  (w' ← match value with Some x => f x w | None => Some w end; next w') =
    chttp_web_sse_append w (unlines (option_lines lines value) ++ b).
Proof.
  intros Hw Hf Hn. destruct value as [x|]; cbn [option_lines]; [|by apply Hn]. rewrite (Hf x eq_refl). by apply append_then.
Qed.

Lemma format_core_spec event w : retry_ok event -> writer_ok w ->
  chttp_web_sse_format_core event w = chttp_web_sse_append w (event_text event).
Proof.
  intros Hr Hw. unfold chttp_web_sse_format_core, event_text, event_lines. rewrite !unlines_app.
  apply (option_step _ (fun value w => chttp_web_sse_append_field w (bytes_of "event") value)); [done|intros; by apply append_field_spec|]. intros w1 H1.
  apply (option_step _ (fun value w => chttp_web_sse_append_field w (bytes_of "id") value)); [done|intros; by apply append_field_spec|]. intros w2 H2.
  apply (option_step _ (fun ms w => if RETRY_BYTES <=? zlen (retry_line ms) then None else chttp_web_sse_append w (retry_line ms))); [done| |].
  { intros ms E. unfold retry_ok in Hr. rewrite E in Hr. destruct (retry_line_spec ms Hr) as [<- Hl]. by rewrite (proj2 (Z.leb_gt _ _)). }
  intros w3 H3. apply (option_step _ (fun data w => chttp_web_sse_append_data w data)); [done| |done].
  intros data _. unfold chttp_web_sse_append_data. destruct (zlen data =? 0) eqn:E.
  - apply Z.eqb_eq, zlen_0_inv in E as ->. by apply data_line_spec.
  - by apply (data_loop_spec (length data)).
Qed.

Section Format.
Context {utf8 : VstrUtf8}.

(** The formatter writes the whole event, or reports that it does not fit. *)
Lemma format_event_spec event capacity : retry_ok event -> chttp_web_sse_event_valid event = true -> 0 < capacity <= SIZE_MAX ->
  let '(written, error) := chttp_web_sse_format_event event capacity in
  if zlen (event_text event) <=? capacity
  then written = event_text event /\ error = chttp_web_sse_fail CHTTP_WEB_OK SALTS_OK ""
  else written = [] /\ we_status error = CHTTP_WEB_CAPACITY /\ we_native_status error = SALTS_EMSGSIZE.
Proof.
  intros Hr Hv Hc. unfold chttp_web_sse_format_event. rewrite Hv, (proj2 (Z.eqb_neq capacity 0)) by lia. cbn [negb orb].
  rewrite !format_core_spec by (done || (split; cbn; [zlia|]; auto; right; lia)). unfold chttp_web_sse_append. cbn [sw_data sw_size sw_capacity].
  rewrite !Z.sub_0_r, (proj2 (Z.ltb_ge capacity 0)) by lia. cbn [orb]. set (n := zlen (event_text event)).
  destruct (n <=? capacity) eqn:E; bool_prop.
  - rewrite (proj2 (Z.ltb_ge SIZE_MAX n)), (proj2 (Z.ltb_ge capacity n)) by lia. cbn [sw_size].
    rewrite (proj2 (Z.ltb_ge capacity (0 + n))), Z.eqb_refl by lia. done.
  - destruct (SIZE_MAX <? n); [done|]. cbn [sw_size]. by rewrite (proj2 (Z.ltb_lt capacity (0 + n))) by lia.
Qed.

End Format.

(** ** A reader of event streams *)

(** The events of a stream, in lines, fields with one blank after the colon, and
    a blank line after each event, as HTML defines them.  An event without data
    is an event here, with its other fields; HTML does not dispatch it. *)
Definition no_event : chttp_web_sse_event :=
  {| sv_size := sizeof_sse_event; sv_event := None; sv_data := None; sv_id := None; sv_retry_ms := None |}.

Fixpoint break_colon (s : list Z) : list Z * list Z :=
  match s with
  | [] => ([], [])
  | c :: s => if c =? COLON then ([], s) else let '(name, value) := break_colon s in (c :: name, value)
  end.

Definition field_value (s : list Z) : list Z :=
  match s with c :: rest => if c =? SPACE then rest else s | [] => [] end.

Definition digits_only (s : list Z) : bool := negb (zlen s =? 0) && forallb (fun d => (48 <=? d) && (d <=? 57)) s.

Definition read_field_line (event : chttp_web_sse_event) (line : list Z) : chttp_web_sse_event :=
  let '(name, rest) := break_colon line in
  let value := field_value rest in
  {| sv_size := sv_size event;
     sv_event := if bytes_eqb name (bytes_of "event") then Some value else sv_event event;
     sv_data := if bytes_eqb name (bytes_of "data")
                then Some (match sv_data event with Some data => data ++ LF :: value | None => value end)
                else sv_data event;
     sv_id := if bytes_eqb name (bytes_of "id") && forallb (fun c => negb (c =? 0)) value then Some value else sv_id event;
     sv_retry_ms := if bytes_eqb name (bytes_of "retry") && digits_only value then Some (number value) else sv_retry_ms event |}.

Fixpoint read_event_lines (event : chttp_web_sse_event) (lines : list (list Z)) : list chttp_web_sse_event :=
  match lines with
  | [] => []
  | [] :: lines => event :: read_event_lines no_event lines
  | line :: lines => read_event_lines (read_field_line event line) lines
  end.

(** What comes after the last end of a line is not read. *)
Definition read_events (s : list Z) : list chttp_web_sse_event :=
  read_event_lines no_event (removelast (text_lines [] s)).

(** ** Round trip *)

(** The data with its lines ended by LF. *)
Fixpoint join_lines (lines : list (list Z)) : list Z :=
  match lines with [] => [] | [l] => l | l :: lines => l ++ LF :: join_lines lines end.

Definition normalized (event : chttp_web_sse_event) : chttp_web_sse_event :=
  {| sv_size := sizeof_sse_event; sv_event := sv_event event;
     sv_data := (fun data => join_lines (text_lines [] data)) <$> sv_data event;
     sv_id := sv_id event; sv_retry_ms := sv_retry_ms event |}.

Lemma field_line_break name value : forallb (fun c => negb (c =? COLON)) name = true ->
  let '(n, rest) := break_colon (field_line name value) in n = name /\ field_value rest = value.
Proof.
  intros Hn. unfold field_line. 
  assert (break_colon (name ++ bytes_of ":" ++ (if zlen value =? 0 then [] else bytes_of " " ++ value)) =
    (name, if zlen value =? 0 then [] else bytes_of " " ++ value)) as ->.
  { induction name as [|c name IH]; [done|]. cbn [forallb app break_colon] in *. apply andb_true_iff in Hn as [Hc Hn].
    apply negb_true_iff in Hc. by rewrite Hc, IH. }
  split; [done|]. destruct (zlen value =? 0) eqn:E; [|done]. by apply Z.eqb_eq, zlen_0_inv in E as ->.
Qed.

Lemma read_field_value event name value : forallb (fun c => negb (c =? COLON)) name = true ->
  read_field_line event (field_line name value) =
  {| sv_size := sv_size event;
     sv_event := if bytes_eqb name (bytes_of "event") then Some value else sv_event event;
     sv_data := if bytes_eqb name (bytes_of "data")
                then Some (match sv_data event with Some data => data ++ LF :: value | None => value end)
                else sv_data event;
     sv_id := if bytes_eqb name (bytes_of "id") && forallb (fun c => negb (c =? 0)) value then Some value else sv_id event;
     sv_retry_ms := if bytes_eqb name (bytes_of "retry") && digits_only value then Some (number value) else sv_retry_ms event |}.
Proof.
  intros Hn. unfold read_field_line. pose proof (field_line_break name value Hn) as H. destruct (break_colon _) as [n rest].
  by destruct H as [-> ->].
Qed.

Lemma read_skip_field event name value lines : name <> [] ->
  read_event_lines event (field_line name value :: lines) = read_event_lines (read_field_line event (field_line name value)) lines.
Proof. intros Hn. cbn [read_event_lines]. destruct (field_line name value) eqn:E; [|done]. by destruct name. Qed.

Definition with_data (event : chttp_web_sse_event) (data : option (list Z)) : chttp_web_sse_event :=
  {| sv_size := sv_size event; sv_event := sv_event event; sv_data := data; sv_id := sv_id event; sv_retry_ms := sv_retry_ms event |}.

Lemma read_data_lines lines : forall event rest, lines <> [] ->
  read_event_lines event (map (field_line (bytes_of "data")) lines ++ rest) =
  read_event_lines (with_data event
    (Some (match sv_data event with Some data => data ++ LF :: join_lines lines | None => join_lines lines end))) rest.
Proof.
  induction lines as [|l lines IH]; intros event rest Hne; [done|]. cbn [map app]. rewrite read_skip_field by done.
  rewrite read_field_value by done.
  destruct lines as [|l' lines]; [done|]. rewrite IH by done. f_equal. unfold with_data. cbn [sv_data sv_event sv_id sv_retry_ms sv_size].
  change (bytes_eqb (bytes_of "data") (bytes_of "event")) with false. change (bytes_eqb (bytes_of "data") (bytes_of "data")) with true.
  change (bytes_eqb (bytes_of "data") (bytes_of "id")) with false. change (bytes_eqb (bytes_of "data") (bytes_of "retry")) with false. cbn [andb].
  destruct (sv_data event) as [d|]; [|done]. change (join_lines (l :: l' :: lines)) with (l ++ LF :: join_lines (l' :: lines)).
  by rewrite <- app_assoc.
Qed.

Lemma text_lines_nonempty s : forall line, text_lines line s <> [].
Proof.
  induction s as [|c s IH]; intros line; cbn; [done|]. destruct (c =? LF); [done|]. destruct (c =? CR); [done|apply IH].
Qed.

(** The digits of a number are read as the number. *)
Lemma decimal_size_read ms : 0 <= ms <= SIZE_MAX ->
  digits_only (decimal_size ms) = true /\ number (decimal_size ms) = ms /\ forallb clean (decimal_size ms) = true.
Proof.
  intros Hms. destruct (decimal_size_number ms Hms) as (front & -> & Hne & Hd & _ & Hn). split_and!; [|done|].
  - unfold digits_only. destruct front; [done|]. apply andb_true_iff. split.
    + rewrite zlen_cons. pose proof (zlen_nonneg front). apply negb_true_iff, Z.eqb_neq. lia.
    + apply forallb_forall. rewrite Forall_forall in Hd. intros c Hc. apply list_elem_of_In, Hd in Hc. unfold is_digit in Hc. lia.
  - apply forallb_forall. rewrite Forall_forall in Hd. intros c Hc. apply list_elem_of_In, Hd in Hc. unfold is_digit in Hc.
    unfold clean, CR, LF. lia.
Qed.

Section Roundtrip.
Context {utf8 : VstrUtf8}.

Lemma single_line_clean value : chttp_web_sse_single_line_valid value true = true ->
  forallb clean value = true /\ forallb (fun c => negb (c =? 0)) value = true.
Proof.
  unfold chttp_web_sse_single_line_valid. intros [_ H]%andb_true_iff. rewrite !forallb_forall in *. unfold clean.
  split; intros c Hc; specialize (H c Hc); destruct (c =? CR), (c =? LF), (c =? 0); done.
Qed.

Record event_fields_ok (event : chttp_web_sse_event) : Prop := {
  ef_event : forall value, sv_event event = Some value -> forallb clean value = true;
  ef_id : forall value, sv_id event = Some value -> forallb clean value = true /\ forallb (fun c => negb (c =? 0)) value = true;
  ef_retry : retry_ok event;
}.

Lemma valid_fields event : retry_ok event -> chttp_web_sse_event_valid event = true -> event_fields_ok event.
Proof.
  intros Hr. unfold chttp_web_sse_event_valid. intros [[[_ He]%andb_true_iff Hi]%andb_true_iff _]%andb_true_iff.
  split; [| |done]; intros value E; [rewrite E in He|rewrite E in Hi]; by apply single_line_clean.
Qed.

Lemma field_line_clean name value : forallb clean name = true -> forallb clean value = true -> forallb clean (field_line name value) = true.
Proof.
  intros Hn Hv. unfold field_line. rewrite !forallb_app, Hn. destruct (zlen value =? 0); [done|]. by rewrite forallb_app, Hv.
Qed.

Lemma option_lines_forall {A} (P : list Z -> Prop) (f : A -> list (list Z)) value :
  (forall x, value = Some x -> Forall P (f x)) -> Forall P (option_lines f value).
Proof. destruct value; cbn; [auto|]. intros _. constructor. Qed.

Lemma event_lines_clean event : event_fields_ok event -> Forall (fun l => forallb clean l = true) (event_lines event).
Proof.
  intros [He Hi Hr]. unfold event_lines. repeat (apply Forall_app; split); try (apply option_lines_forall; intros x E).
  - repeat constructor. by apply field_line_clean; [|apply He].
  - repeat constructor. by apply field_line_clean; [|apply Hi].
  - unfold retry_ok in Hr. rewrite E in Hr. repeat constructor. by apply field_line_clean; [|apply decimal_size_read].
  - apply Forall_map. eapply Forall_impl; [apply (text_lines_all_clean (length x)); done|]. intros l Hl. by apply field_line_clean.
  - by repeat constructor.
Qed.

(** One event is read back. *)
Lemma read_event event rest : event_fields_ok event ->
  read_event_lines no_event (event_lines event ++ rest) = normalized event :: read_event_lines no_event rest.
Proof.
  intros [_ Hi Hr]. unfold event_lines, normalized, retry_ok in *. rewrite <- !app_assoc.
  destruct (sv_event event) as [e|]; cbn [option_lines app];
    (destruct (sv_id event) as [i|]; [destruct (Hi i eq_refl) as [_ Hn]|]; cbn [option_lines app]);
    (destruct (sv_retry_ms event) as [ms|]; [destruct (decimal_size_read ms Hr) as (Hd & Hnum & _)|]; cbn [option_lines app]);
    (destruct (sv_data event) as [d|]; cbn [option_lines app]);
    repeat (rewrite read_skip_field by done; rewrite read_field_value by done);
    rewrite ?read_data_lines by apply text_lines_nonempty; rewrite ?Hn, ?Hd, ?Hnum; reflexivity.
Qed.

Lemma read_events_text events : Forall event_fields_ok events ->
  read_events (concat (map event_text events)) = map normalized events.
Proof.
  intros Hf. unfold read_events.
  assert (concat (map event_text events) = unlines (concat (map event_lines events))) as ->.
  { induction events as [|e events IH]; [done|]. cbn [map concat]. apply Forall_cons_1 in Hf as [_ Hf]. by rewrite unlines_app, IH. }
  rewrite text_lines_unlines.
  - rewrite removelast_last. induction Hf as [|e events He _ IH]; [done|]. cbn [map concat]. by rewrite read_event, IH.
  - apply Forall_concat, Forall_map. eapply Forall_impl; [exact Hf|]. intros e. apply event_lines_clean.
Qed.

(** What the formatter writes for a sequence of events, a reader of event streams
    reads as these events, their data with the ends of its lines normalised: no
    value can end its field or forge another. An event is formatted exactly when
    it is valid and fits. *)
Theorem sse_roundtrip events texts capacity : 0 < capacity <= SIZE_MAX -> Forall retry_ok events ->
  texts = map (fun event => (chttp_web_sse_format_event event capacity).1) events ->
  (forall event, event ∈ events ->
     (we_status (chttp_web_sse_format_event event capacity).2 = CHTTP_WEB_OK <->
      chttp_web_sse_event_valid event = true /\ zlen (event_text event) <= capacity)) /\
  (Forall (fun event => we_status (chttp_web_sse_format_event event capacity).2 = CHTTP_WEB_OK) events ->
   read_events (concat texts) = map normalized events).
Proof.
  intros Hc Hr ->. assert (forall event, event ∈ events ->
     (we_status (chttp_web_sse_format_event event capacity).2 = CHTTP_WEB_OK <->
      chttp_web_sse_event_valid event = true /\ zlen (event_text event) <= capacity) /\
     (we_status (chttp_web_sse_format_event event capacity).2 = CHTTP_WEB_OK ->
      (chttp_web_sse_format_event event capacity).1 = event_text event)) as Hall.
  { intros event Hin. rewrite Forall_forall in Hr. specialize (Hr event Hin).
    destruct (chttp_web_sse_event_valid event) eqn:Ev.
    - pose proof (format_event_spec event capacity Hr Ev Hc) as H. destruct (chttp_web_sse_format_event event capacity) as [written error].
      destruct (zlen (event_text event) <=? capacity) eqn:E; bool_prop; [destruct H as [-> ->]|destruct H as (_ & Hs & _)]; cbn; [done|].
      rewrite Hs. split; [|done]. split; [done|]. intros [_ ?]. lia.
    - unfold chttp_web_sse_format_event. rewrite Ev. cbn. split; [split; [done|by intros [? ?]]|done]. }
  split; [intros event Hin; apply Hall, Hin|]. intros Hok.
  assert (map (fun event => (chttp_web_sse_format_event event capacity).1) events = map event_text events) as ->.
  { apply map_ext_in. intros event Hin. apply list_elem_of_In in Hin. rewrite Forall_forall in Hok. by apply Hall; [|apply Hok]. }
  apply read_events_text. rewrite Forall_forall in *. intros event Hin. apply valid_fields; [by apply Hr|]. by apply Hall; [|apply Hok].
Qed.

End Roundtrip.

(** ** An instance *)

Definition any_text : VstrUtf8 := fun _ => None.
#[local] Existing Instance any_text.

Definition news : list chttp_web_sse_event :=
  [{| sv_size := sizeof_sse_event; sv_event := Some (bytes_of "price"); sv_data := Some (bytes_of "a: 1" ++ [CR; LF] ++ bytes_of "id: 9" ++ [LF]);
      sv_id := Some []; sv_retry_ms := None |};
   {| sv_size := sizeof_sse_event; sv_event := None; sv_data := Some []; sv_id := None; sv_retry_ms := Some 1500 |}].

Lemma sse_roundtrip_witness :
  exists first second, read_events (concat (map (fun event => (chttp_web_sse_format_event event 64).1) news)) = [first; second] /\
    sv_data first = Some (bytes_of "a: 1" ++ [LF] ++ bytes_of "id: 9" ++ [LF]) /\ sv_id first = Some [] /\
    sv_data second = Some [] /\ sv_retry_ms second = Some 1500.
Proof.
  destruct (sse_roundtrip news _ 64 ltac:(vm_compute; split; [reflexivity|discriminate])
    ltac:(repeat constructor; vm_compute; intuition discriminate) eq_refl) as [_ H].
  rewrite H; [|repeat constructor; vm_compute; reflexivity]. do 2 eexists. split; [reflexivity|]. vm_compute. split_and!; reflexivity.
Defined.

End WebSseTheorems.

(** * A stream of events on a connection

    The stream of [app/src/chttp_web_sse.c] is a lawful source of the
    connections of [Connection], so that a client which reads the body of the
    response reads the events that the application produced. *)

Module WebSseStream.
Import Decimal HpackBuffer Router Http1Parser ServerBuffer RateLimit Web Session SessionTheorems Response ResponseTheorems
  ResponseWire Jwt JwtTheorems Middleware Cors CorsTheorems Interceptor Request
  RequestTheorems Connection ConnectionTheorems WebSse WebSseTheorems.

(** ** The source *)

Section Source.
Context {A : Type} {utf8 : VstrUtf8} {sse : SseCallbacks A}.

(** The state of the application has the stream. *)
Abbreviation sse_app := (chttp_web_sse_stream * A)%type.

Definition sse_reader : BodySources sse_app := fun _ capacity x =>
  match chttp_web_sse_source_read x.1 capacity x.2 with
  | Some (s, app, status, piece) => ((s, app), status, piece)
  | None => (x, SALTS_EINVAL, [])
  end.
#[local] Existing Instance sse_reader.

(** The producer gives the events of a list and then ends. *)
Class LawfulProducer (next user : Z) (upcoming : A -> list chttp_web_sse_event) : Prop :=
  producer_law : forall app, let '(app', status, event) := sse_next_fn next user app in
    match upcoming app with
    | [] => status = SALTS_ENOENT /\ upcoming app' = []
    | e :: events => status = SALTS_OK /\ event = e /\ upcoming app' = events
    end.

Context (next user : Z) (upcoming : A -> list chttp_web_sse_event) {law : LawfulProducer next user upcoming}.

(** Events that the stream can send. *)
Definition sendable (capacity : Z) (event : chttp_web_sse_event) : Prop :=
  chttp_web_sse_event_valid event = true /\ retry_ok event /\ zlen (event_text event) <= capacity.

Record sse_valid (x : sse_app) : Prop := {
  sl_size : ss_size x.1 = sizeof_sse_stream;
  sl_next : ss_next x.1 = Some next;
  sl_user : ss_user x.1 = user;
  sl_active : ss_active x.1 = true;
  sl_capacity : 0 < ss_scratch_capacity x.1 <= SIZE_MAX;
  sl_scratch : exists t, ss_scratch x.1 = Some t /\ 0 <= ss_buffered_offset x.1 <= ss_buffered_size x.1 /\ ss_buffered_size x.1 <= zlen t;
  sl_events : Forall (sendable (ss_scratch_capacity x.1)) (upcoming x.2);
}.

(** What is buffered. *)
Definition buffered (s : chttp_web_sse_stream) : list Z :=
  ztake (ss_buffered_size s - ss_buffered_offset s) (zdrop (ss_buffered_offset s) (default [] (ss_scratch s))).

Definition sse_content (x : sse_app) : list Z :=
  buffered x.1 ++ (if ss_eof x.1 then [] else concat (map event_text (upcoming x.2))).

Lemma event_text_nonempty event : event_text event <> [].
Proof.
  unfold event_text, event_lines. rewrite !unlines_app. intros H. apply app_eq_nil in H as [_ H]. apply app_eq_nil in H as [_ H].
  apply app_eq_nil in H as [_ H]. by apply app_eq_nil in H as [_ H].
Qed.

Lemma ztake_split {B} n m (l : list B) : 0 <= n <= m -> ztake m l = ztake n l ++ ztake (m - n) (zdrop n l).
Proof.
  intros H. unfold ztake, zdrop. rewrite <- (take_drop (Z.to_nat n) l) at 1. rewrite take_app, take_take.
  rewrite length_take. f_equal; [f_equal; lia|].
  destruct (decide (Z.to_nat n <= length l)%nat); [f_equal; lia|]. rewrite !drop_ge by lia. by rewrite !take_nil.
Qed.

(** Copying from the scratch. *)
Lemma copy_step (x : sse_app) capacity copied : sse_valid x -> ss_buffered_offset x.1 <> ss_buffered_size x.1 -> 1 <= capacity ->
  copied = (if ss_buffered_size x.1 - ss_buffered_offset x.1 <? capacity then ss_buffered_size x.1 - ss_buffered_offset x.1 else capacity) ->
  let piece := ztake copied (zdrop (ss_buffered_offset x.1) (default [] (ss_scratch x.1))) in
  let x' := (x.1 <| ss_buffered_offset := ss_buffered_offset x.1 + copied |>, x.2) in
  sse_valid x' /\ sse_content x = piece ++ sse_content x' /\ zlen piece <= capacity /\ piece <> [].
Proof.
  intros [V1 V2 V3 V4 V5 (t & Ht & Hb) V7] Hne Hc Hcop piece x'.
  assert (1 <= copied <= ss_buffered_size x.1 - ss_buffered_offset x.1 /\ copied <= capacity) as [Hc1 Hc2] by (rewrite Hcop; destruct (_ <? _) eqn:E; lia).
  clear Hcop. assert (piece = ztake copied (zdrop (ss_buffered_offset x.1) t)) as Ep by (unfold piece; by rewrite Ht). clearbody piece. subst piece.
  assert (zlen (ztake copied (zdrop (ss_buffered_offset x.1) t)) = copied) as Hlen.
  { unfold ztake, zdrop, zlen in *. rewrite length_take, length_drop. cbn in Hb. lia. }
  split_and!.
  - split; cbn; try done. exists t. split; [done|lia].
  - unfold sse_content, buffered, x'. cbn. rewrite Ht. cbn [default]. rewrite app_assoc. f_equal.
    rewrite (ztake_split copied) by lia. f_equal. unfold zdrop, ztake. rewrite drop_drop.
    f_equal; [lia|]. f_equal. lia.
  - lia.
  - intros E. rewrite E, zlen_nil in Hlen. lia.
Qed.

#[export] Instance sse_lawful read : LawfulSource read sse_valid sse_content.
Proof.
  intros x capacity Hv Hc. unfold source_read, sse_reader, chttp_web_sse_source_read.
  pose proof Hv as [V1 V2 V3 V4 V5 (t & Ht & Hb) V7]. rewrite V2, Ht, V1, V4, Z.eqb_refl. cbn [negb orb].
  rewrite (proj2 (Z.eqb_neq capacity 0)), (proj2 (Z.eqb_neq (ss_scratch_capacity x.1) 0)) by lia. cbn [orb].
  unfold FILL_FUEL. cbn [sse_fill].
  destruct (ss_buffered_offset x.1 =? ss_buffered_size x.1) eqn:Eo; cbn [negb].
  2:{ apply Z.eqb_neq in Eo. destruct (copy_step x capacity _ Hv Eo Hc eq_refl) as (H1 & H2 & H3 & H4). split_and!; done. }
  apply Z.eqb_eq in Eo. set (s0 := x.1 <| ss_buffered_offset := 0 |> <| ss_buffered_size := 0 |>).
  assert (sse_content x = if ss_eof x.1 then [] else concat (map event_text (upcoming x.2))) as Econt.
  { unfold sse_content, buffered. rewrite Eo, Z.sub_diag. done. }
  rewrite Econt. change (ss_eof s0) with (ss_eof x.1). destruct (ss_eof x.1) eqn:Eeof.
  { split_and!; try done; [|unfold sse_content; cbn; by rewrite Eeof|rewrite zlen_nil; lia]. split; cbn; try done. exists t. split; [done|]. pose proof (zlen_nonneg t). lia. }
  change (ss_user s0) with (ss_user x.1). rewrite V3. pose proof (producer_law x.2) as Hp.
  destruct (sse_next_fn next user x.2) as [[app' status] event]. destruct (upcoming x.2) as [|e events] eqn:Eup.
  { destruct Hp as [-> Hup]. rewrite bool_decide_true by done. split_and!; try done; [|rewrite zlen_nil; lia].
    split; cbn; try done; [exists t; split; [done|]; pose proof (zlen_nonneg t); lia|by rewrite Hup]. }
  destruct Hp as (-> & -> & Hup). rewrite bool_decide_false by done. rewrite bool_decide_true by done. cbn [negb].
  apply Forall_cons_1 in V7 as [(He1 & He2 & He3) V7]. change (ss_scratch_capacity s0) with (ss_scratch_capacity x.1).
  pose proof (format_event_spec e (ss_scratch_capacity x.1) He2 He1 V5) as Hf.
  destruct (chttp_web_sse_format_event e (ss_scratch_capacity x.1)) as [text error]. rewrite (proj2 (Z.leb_le _ _) He3) in Hf.
  destruct Hf as [-> ->]. cbn [we_status chttp_web_sse_fail]. rewrite bool_decide_false by done. rewrite bool_decide_true by done. cbn [negb].
  set (s1 := s0 <| ss_scratch := Some (event_text e) |> <| ss_buffered_size := zlen (event_text e) |>).
  assert (0 < zlen (event_text e)) as Hpos.
  { pose proof (event_text_nonempty e). destruct (event_text e); [done|]. rewrite zlen_cons. pose proof (zlen_nonneg l). lia. }
  assert (sse_valid (s1, app')) as Hv1.
  { split; cbn; try done; [exists (event_text e); split; [done|lia]|by rewrite Hup]. }
  change (ss_buffered_offset s1) with 0. change (ss_buffered_size s1) with (zlen (event_text e)).
  rewrite (proj2 (Z.eqb_neq 0 _)) by lia. cbn [negb].
  destruct (copy_step (s1, app') capacity _ Hv1 ltac:(cbn; lia) Hc eq_refl) as (H1 & H2 & H3 & H4).
  assert (buffered s1 = event_text e) as Hbuf.
  { change (ztake (zlen (event_text e) - 0) (zdrop 0 (event_text e)) = event_text e). rewrite Z.sub_0_r. apply (ztake_all (event_text e)). }
  split_and!; try done. cbn [fst snd] in H2. rewrite <- H2. cbn [map concat]. unfold sse_content. cbn [fst snd].
  change (ss_eof s1) with (ss_eof x.1). rewrite Eeof, Hup. f_equal. symmetry. exact Hbuf.
Qed.

(** ** Delivery *)

Context {alloc : Allocator} {wrap : MemWrap} {gmtime : Gmtime} {cjwt : Cjwt} {callbacks : Callbacks sse_app}
  (config : connection_config).
Implicit Types c : chttp_server_connection sse_app.

(** C25: A stream of events that is the body of a response reaches its reader:
    sending the pieces one after the other ends, and whatever the sizes of the
    pieces that the connection takes, a reader of event streams reads from what
    was sent the events of the producer, in order and each once, their data with
    the ends of its lines normalised; the source is then cleaned up. The events
    are valid, each fits the buffer of the stream, and all of them the limit of
    the body. *)
Theorem sse_stream_delivered read c : streaming config (sse_source read) sse_valid c ->
  cc_max_send_bytes config <= SIZE_MAX ->
  let stream := (app_of c).1 in
  let events := upcoming (app_of c).2 in
  ss_buffered_offset stream = ss_buffered_size stream -> ss_eof stream = false ->
  zlen (concat (map event_text events)) <= remaining_of (sse_source read) c ->
  exists fuel sent c',
    stream_all config fuel c = Some (sent, c', SALTS_OK) /\ stream_ended c SALTS_OK c' /\
    forall rest, exists body,
      (if cn_response_source_chunked c then read_chunks (length sent) (sent ++ rest) = Some (body, rest) else sent = body) /\
      read_events body = map normalized events.
Proof.
  intros Hst Hmax stream events Hb Heof Hlen.
  destruct (streamed_body_spec config (sse_source read) sse_valid sse_content c Hst Hmax) as (sent & c' & Hall & Hend & Hplain & Hchunk).
  assert (sse_content (app_of c) = concat (map event_text events)) as Econt.
  { unfold sse_content, buffered. fold stream. rewrite Hb, Z.sub_diag, Heof. done. }
  rewrite Econt in *. unfold stream_status in *. cbn [bs_content_length_known sse_source] in *.
  rewrite (proj2 (Z.leb_le _ _) Hlen) in *.
  exists (S (length (concat (map event_text events)))), sent, c'. split; [exact Hall|]. split; [exact Hend|].
  intros rest. exists (concat (map event_text events)). split.
  - destruct (cn_response_source_chunked c); [by apply Hchunk|by apply Hplain].
  - apply read_events_text. pose proof (sl_events _ (st_valid _ _ _ _ Hst)) as Hev. eapply Forall_impl; [exact Hev|].
    intros e (H1 & H2 & _). by apply valid_fields.
Qed.

End Source.

(** ** An instance *)

(** A producer of a list of events, on the small server of [ConnectionExample]. *)
Abbreviation feed := (list chttp_web_sse_event).

#[local] Existing Instances unlimited_allocator one_token one_day ConnectionExample.every_wrapper any_text.

Definition feed_callbacks : SseCallbacks feed := {|
  sse_next_fn next user events :=
    match events with event :: events => (events, SALTS_OK, event) | [] => ([], SALTS_ENOENT, no_event) end;
  sse_close_fn close user status events := events;
|}.
#[local] Existing Instance feed_callbacks.
#[local] Existing Instance sse_reader.

Definition all_events (events : feed) : list chttp_web_sse_event := events.

#[local] Instance feed_lawful : LawfulProducer 5 0 all_events.
Proof. intros [|e events]; done. Qed.

(** The handler answers with the stream. *)
Definition feed_site : Callbacks (chttp_web_sse_stream * feed) := {|
  middleware_fn fn request s := return_next s;
  handler_fn fn user request s :=
    let '(b, stream, error) := chttp_web_sse_response 1 2 (cs_response s) (cs_app s).1 in
    (s <| cs_response := b |> <| cs_app := (stream, (cs_app s).2) |>, we_native_status error);
  admission_fn fn request app := (app, admission_zero, SALTS_OK);
  body_open_fn fn user request app := (app, Err SALTS_EINVAL);
  body_write_fn write user data app := (app, SALTS_OK);
  body_close_fn fn user sink status app := app;
|}.
#[local] Existing Instance feed_site.

Definition stream_zero : chttp_web_sse_stream :=
  {| ss_size := 0; ss_next := None; ss_close := None; ss_user := 0; ss_scratch := None; ss_scratch_capacity := 0;
     ss_buffered_offset := 0; ss_buffered_size := 0; ss_terminal_status := SALTS_OK; ss_active := false; ss_eof := false |}.

Definition feed_stream : chttp_web_sse_stream := (chttp_web_sse_stream_init stream_zero (Some 5) None 0 (Some []) 64).1.

Definition feed_state : chttp_server_request_state (chttp_web_sse_stream * feed) :=
  {| rs_call := {| cs_world := response_world; cs_response := wide_builder; cs_sessions := example_store;
                   cs_session := SessionTheorems.example_context; cs_app := (feed_stream, news) |};
     rs_params := {| Router.rs_params := []; rs_param_storage_used := 0; rs_param_storage_capacity := 64 |};
     rs_jwt_claims := None; rs_admitted_route := None; rs_admitted_allowed_methods := 0; rs_admitted_fallback_status := 0;
     rs_admission_complete := false; rs_admission_rejected := false; rs_admission_result := admission_zero;
     rs_deadline_ms := 0; rs_body_route := None; rs_body_sink := None; rs_body_sink_user := None; rs_body_sink_open := false;
     rs_body_was_streamed := false;
     rs_stats := {| st_requests := 0; st_responses := 0; st_protocol_errors := 0; st_handler_errors := 0 |}; rs_sink_calls := [] |}.

Definition feed_connection : chttp_server_connection (chttp_web_sse_stream * feed) :=
  (serve_all ConnectionExample.site_config
     {| cn_request_state := feed_state; cn_outbound := []; cn_outbound_capacity := 0; cn_outbound_retained := None;
        cn_wire_protocol := CHTTP_SERVER_WIRE_HTTP_1_1; cn_close_after_write := false; cn_response_streaming := false;
        cn_response_source_chunked := false; cn_response_close_after_stream := false; cn_retained_response_paused := false;
        cn_retained_response_sg := false; cn_retained_response_sg_body_size := 0 |}
     [ConnectionExample.get (bytes_of "/file")]) <| cn_outbound := [] |>.

Lemma sse_stream_delivered_witness :
  exists fuel sent c body,
    stream_all ConnectionExample.site_config fuel feed_connection = Some (sent, c, SALTS_OK) /\
    read_chunks (length sent) sent = Some (body, []) /\ read_events body = map normalized news.
Proof.
  assert (streaming ConnectionExample.site_config (sse_source 1) (sse_valid 5 0 all_events) feed_connection) as Hst.
  { split; [split|..]; try (vm_compute; first [reflexivity|discriminate]); [eexists; split; vm_compute; reflexivity|].
    assert ((app_of feed_connection).2 = news) as En by (vm_compute; reflexivity).
    split; [vm_compute; reflexivity..| | |].
    - vm_compute. split; [reflexivity|discriminate].
    - exists []. vm_compute. split; [reflexivity|]. split; [split|]; discriminate.
    - rewrite En. assert (ss_scratch_capacity (app_of feed_connection).1 = 64) as -> by (vm_compute; reflexivity).
      apply Forall_cons_2; [|apply Forall_cons_2; [|apply Forall_nil_2]]; (split; [vm_compute; reflexivity|]); split; vm_compute; intuition discriminate. }
  destruct (sse_stream_delivered 5 0 all_events ConnectionExample.site_config 1 feed_connection Hst) as (fuel & sent & c & Hall & _ & H).
  - discriminate.
  - vm_compute. reflexivity.
  - vm_compute. reflexivity.
  - vm_compute. discriminate.
  - destruct (H []) as (body & Hb & He). assert (cn_response_source_chunked feed_connection = true) as Ec by (vm_compute; reflexivity).
    rewrite Ec, app_nil_r in Hb. exists fuel, sent, c, body. split; [exact Hall|]. split; [exact Hb|].
    assert (all_events (app_of feed_connection).2 = news) as En by (vm_compute; reflexivity). rewrite En in He. exact He.
Defined.

End WebSseStream.
