(* ===== verification/S3Text.v ===== *)
(** * Texts of the S3 client

    Model of the first part of [s3/src/s3_request.c]: checked sizes, the text
    builder, the encoding of URIs and the canonical form of a query.

    A string of the tstr library is its list of bytes; that a text of a size can
    be allocated is a question to the allocator.  The array that [qsort] sorts
    is a list and its order the one of a merge sort: where elements compare
    equal, they are equal, or the code refuses them. *)

From stdpp Require Import sorting.
From S2P Require Import Prelude HpackBuffer.

Module S3Text.
Import HpackBuffer.

(** ** Sizes *)

Definition s3_checked_add (left right : Z) : outcome Z :=
  if SIZE_MAX - left <? right then Err SALTS_ERANGE else Ok (left + right).

Definition s3_checked_multiply (left right : Z) : outcome Z :=
  if negb (left =? 0) && (SIZE_MAX / left <? right) then Err SALTS_ERANGE else Ok (left * right).

(** A sequence of additions of which any failure is the same one. *)
Fixpoint add_all (total : Z) (sizes : list Z) (e : salts_status) : outcome Z :=
  match sizes with
  | [] => Ok total
  | size :: sizes => match s3_checked_add total size with Ok total => add_all total sizes e | Err _ => Err e end
  end.

(** ** The builder *)

Record s3_text_builder := {
  tb_text : list Z;
  tb_capacity : Z;
}.

Section Texts.
Context {alloc : Allocator}.

Definition s3_text_builder_init (capacity : Z) : outcome s3_text_builder :=
  if capacity =? SIZE_MAX then Err SALTS_EINVAL
  else if malloc_ok (capacity + 1) then Ok {| tb_text := []; tb_capacity := capacity |}
  else Err SALTS_ENOMEM.

(** The length that is set is within the capacity that was reserved. *)
Definition s3_text_builder_append (builder : s3_text_builder) (data : list Z) : outcome s3_text_builder :=
  match s3_checked_add (zlen (tb_text builder)) (zlen data) with
  | Err _ => Err SALTS_EMSGSIZE
  | Ok next_size =>
    if tb_capacity builder <? next_size then Err SALTS_EMSGSIZE
    else Ok {| tb_text := tb_text builder ++ data; tb_capacity := tb_capacity builder |}
  end.

Fixpoint append_all (builder : s3_text_builder) (pieces : list (list Z)) : outcome s3_text_builder :=
  match pieces with
  | [] => Ok builder
  | piece :: pieces => builder ← s3_text_builder_append builder piece; append_all builder pieces
  end.

(** A builder that is made, filled and released. *)
Definition s3_build (capacity : Z) (pieces : list (list Z)) : outcome (list Z) :=
  builder ← s3_text_builder_init capacity;
  builder ← append_all builder pieces;
  Ok (tb_text builder).

(** [tstr_dup]. *)
Definition tstr_dup (text : list Z) : outcome (list Z) :=
  if malloc_ok (zlen text + 1) then Ok text else Err SALTS_ENOMEM.

(** ** The encoding of URIs *)

Definition s3_uri_unreserved (value : Z) : bool :=
  ((65 <=? value) && (value <=? 90)) || ((97 <=? value) && (value <=? 122)) ||
  ((48 <=? value) && (value <=? 57)) || (value =? 45) || (value =? 46) || (value =? 95) || (value =? 126).

Definition uri_kept (preserve_slash : bool) (value : Z) : bool :=
  s3_uri_unreserved value || (preserve_slash && (value =? 47)).

Fixpoint encoded_size_loop (preserve_slash : bool) (max_bytes size : Z) (input : list Z) : outcome Z :=
  match input with
  | [] => Ok size
  | value :: input =>
    match s3_checked_add size (if uri_kept preserve_slash value then 1 else 3) with
    | Err _ => Err SALTS_EMSGSIZE
    | Ok size => if max_bytes <? size then Err SALTS_EMSGSIZE else encoded_size_loop preserve_slash max_bytes size input
    end
  end.

Definition hex_upper (digit : Z) : Z := if digit <? 10 then 48 + digit else 55 + digit.

Definition uri_encode_byte (preserve_slash : bool) (value : Z) : list Z :=
  if uri_kept preserve_slash value then [value]
  else [37; hex_upper (Z.shiftr value 4); hex_upper (Z.land value 0x0f)].

Definition s3_uri_encode (input : list Z) (preserve_slash : bool) (max_bytes : Z) : outcome (list Z) :=
  if max_bytes =? 0 then Err SALTS_EINVAL
  else
    size ← encoded_size_loop preserve_slash max_bytes 0 input;
    s3_build size (map (uri_encode_byte preserve_slash) input).

(** ** Queries *)

(** [strcmp]: the terminator is below every byte. *)
Fixpoint strcmp (a b : list Z) : comparison :=
  match a, b with
  | [], [] => Eq
  | [], _ :: _ => Lt
  | _ :: _, [] => Gt
  | x :: a, y :: b => match x ?= y with Eq => strcmp a b | c => c end
  end.

Definition s3_encoded_query_compare (a b : list Z * list Z) : comparison :=
  match strcmp a.1 b.1 with Eq => strcmp a.2 b.2 | c => c end.

Definition not_after {A} (compare : A -> A -> comparison) (a b : A) : Prop := compare a b <> Gt.

#[export] Instance not_after_dec {A} (compare : A -> A -> comparison) a b : Decision (not_after compare a b).
Proof. unfold not_after. destruct (compare a b); [left|left|right]; congruence. Defined.

Definition qsort {A} (compare : A -> A -> comparison) (l : list A) : list A := merge_sort (not_after compare) l.

(** [sizeof(s3_encoded_query)] *)
Definition sizeof_encoded_query : Z := 16.

(** The loop that encodes the parameters; [first] is [index == 0]. *)
Fixpoint encode_queries (max_target_bytes : Z) (first : bool) (output_size : Z) (query : list (list Z * list Z)) :
    outcome (list (list Z * list Z) * Z) :=
  match query with
  | [] => Ok ([], output_size)
  | (name, value) :: query =>
    if zlen name =? 0 then Err SALTS_EINVAL
    else
      encoded_name ← s3_uri_encode name false max_target_bytes;
      encoded_value ← s3_uri_encode value false max_target_bytes;
      output_size ← add_all output_size ([zlen encoded_name; 1; zlen encoded_value] ++ (if first then [] else [1])) SALTS_ERANGE;
      if max_target_bytes <? output_size then Err SALTS_EMSGSIZE
      else
        '(encoded, output_size) ← encode_queries max_target_bytes false output_size query;
        Ok ((encoded_name, encoded_value) :: encoded, output_size)
  end.

Definition query_pieces (first : bool) (q : list Z * list Z) : list (list Z) :=
  (if first then [] else [bytes_of "&"]) ++ [q.1; bytes_of "="; q.2].

Definition all_query_pieces (encoded : list (list Z * list Z)) : list (list Z) :=
  match encoded with
  | [] => []
  | q :: encoded => query_pieces true q ++ concat (map (query_pieces false) encoded)
  end.

Definition s3_query_canonicalize (query : list (list Z * list Z)) (max_query_count max_target_bytes : Z) :
    outcome (list Z) :=
  if (max_query_count =? 0) || (max_target_bytes =? 0) then Err SALTS_EINVAL
  else if max_query_count <? zlen query then Err SALTS_ENOBUFS
  else if zlen query =? 0 then (if malloc_ok 1 then Ok [] else Err SALTS_ENOMEM)
  else
    allocation_size ← s3_checked_multiply (zlen query) sizeof_encoded_query;
    if negb (malloc_ok allocation_size) then Err SALTS_ENOMEM
    else
      '(encoded, output_size) ← encode_queries max_target_bytes true 0 query;
      s3_build output_size (all_query_pieces (qsort s3_encoded_query_compare encoded)).

End Texts.

End S3Text.
