(* ===== verification/S3Signer.v ===== *)
(** * Signatures of S3 requests

    Model of [s3/src/s3_signer.c]: the canonical form of the headers of a
    request, the canonical request, and the signature of AWS Signature Version 4
    in a header or in a query.

    Strings are lists of bytes without a terminator; an optional string is an
    [option].  SHA-256 and its keyed form come from the cryptographic library
    and are parameters.  Cleansing and freeing memory are not modelled. *)

From S2P Require Import Prelude Decimal HpackBuffer Router Http1Parser S3Text.

Module S3Signer.
Import Decimal HpackBuffer Router Http1Parser S3Text.

Definition S3_SIGNER_DEFAULT_MAX_HEADER_COUNT : Z := 64.
Definition S3_SIGNER_DEFAULT_MAX_QUERY_COUNT : Z := 64.
Definition S3_SIGNER_SHA256_HEX_SIZE : Z := 64.
Definition S3_SIGNER_AMZ_DATE_SIZE : Z := 16.
Definition S3_SIGNER_DEFAULT_MAX_HEADER_BYTES : Z := 32 * 1024.
Definition S3_SIGNER_DEFAULT_MAX_TARGET_BYTES : Z := 8 * 1024.
Definition S3_SIGNER_COMPONENT_LIMIT : Z := 1024.

(** The sizes of the structures with eight-byte pointers and sizes. *)
Definition sizeof_signer_request : Z := 136.
Definition sizeof_presign_request : Z := 112.
Definition sizeof_normalized_header : Z := 16.
Definition sizeof_signer_query : Z := 16.

Record s3_signer_request := {
  sr_size : Z;
  sr_method : list Z;
  sr_canonical_uri : list Z;
  sr_region : list Z;
  sr_access_key : list Z;
  sr_secret_key : list Z;
  sr_session_token : option (list Z);
  sr_payload_sha256 : list Z;
  sr_amz_date : list Z;
  sr_headers : list (list Z * list Z);
  sr_query : list (list Z * list Z);
  sr_max_header_count : Z;
  sr_max_header_bytes : Z;
  sr_max_query_count : Z;
  sr_max_target_bytes : Z;
}.

Record s3_signer_result := {
  sg_authorization : list Z;
  sg_signed_headers : list Z;
  sg_signature : list Z;
  sg_canonical_query : list Z;
  sg_canonical_request : list Z;
  sg_string_to_sign : list Z;
}.

Record s3_presign_request := {
  ps_size : Z;
  ps_method : list Z;
  ps_canonical_uri : list Z;
  ps_authority : list Z;
  ps_region : list Z;
  ps_access_key : list Z;
  ps_secret_key : list Z;
  ps_session_token : option (list Z);
  ps_amz_date : list Z;
  ps_expires_seconds : Z;
  ps_query : list (list Z * list Z);
  ps_max_query_count : Z;
  ps_max_target_bytes : Z;
}.

(** ** Digests *)

Class Sha256 := {
  cmeta_sha256 : list Z -> outcome (list Z);
  cmeta_hmac_sha256 : list Z -> list Z -> outcome (list Z);
}.

Definition hex_lower (digit : Z) : Z := if digit <? 10 then 48 + digit else 87 + digit.

Definition s3_hex_lower (input : list Z) : list Z :=
  concat (map (fun b => [hex_lower (Z.shiftr b 4); hex_lower (Z.land b 0x0f)]) input).

Section Signer.
Context {alloc : Allocator} {sha256 : Sha256}.

Definition s3_signer_sha256_hex (data : list Z) : outcome (list Z) :=
  digest ← cmeta_sha256 data; Ok (s3_hex_lower digest).

(** ** Checks *)

Definition digit (c : Z) : bool := (48 <=? c) && (c <=? 57).

Definition s3_signer_date_valid (date : list Z) : bool :=
  (zlen date =? S3_SIGNER_AMZ_DATE_SIZE) && (zth date 8 =? 84) && (zth date 15 =? 90) &&
  forallb (fun index => (index =? 8) || (index =? 15) || digit (zth date index))
    (map Z.of_nat (seq 0 (Z.to_nat S3_SIGNER_AMZ_DATE_SIZE))).

Definition s3_signer_method_valid (method : list Z) : bool :=
  negb (zlen method =? 0) && negb (16 <? zlen method) && forallb (fun c => (65 <=? c) && (c <=? 90)) method.

Definition s3_signer_hash_valid (hash : list Z) : bool :=
  (zlen hash =? S3_SIGNER_SHA256_HEX_SIZE) && forallb (fun c => digit c || ((97 <=? c) && (c <=? 102))) hash.

Definition separators : list Z := bytes_of "()<>@,;:\/[]?={} " ++ [34; TAB].

Definition s3_header_name_byte (value : Z) : bool :=
  (32 <? value) && (value <? 127) && negb (existsb (fun c => c =? value) separators).

(** ** Headers *)

Definition s3_header_name_normalize (name : list Z) : outcome (list Z) :=
  if zlen name =? 0 then Err SALTS_EINVAL
  else
    out ← tstr_dup name;
    if forallb s3_header_name_byte out then Ok (map ascii_lower out) else Err SALTS_EINVAL.

(** The loop over a value without the blanks around it. *)
Fixpoint value_loop (builder : s3_text_builder) (in_whitespace : bool) (value : list Z) : outcome s3_text_builder :=
  match value with
  | [] => Ok builder
  | byte :: value =>
    if (byte =? CR) || (byte =? LF) || (byte =? 0x7f) || ((byte <? 0x20) && negb (byte =? TAB)) then Err SALTS_EINVAL
    else if (byte =? SPACE) || (byte =? TAB) then value_loop builder true value
    else
      builder ← (if in_whitespace && negb (zlen (tb_text builder) =? 0)
                 then s3_text_builder_append builder [SPACE] else Ok builder);
      builder ← s3_text_builder_append builder [byte];
      value_loop builder false value
  end.

Definition s3_header_value_normalize (value : list Z) : outcome (list Z) :=
  let value := chttp_server_trim_ows value in
  builder ← s3_text_builder_init (zlen value);
  builder ← value_loop builder false value;
  Ok (tb_text builder).

Definition s3_header_compare (a b : list Z * list Z) : comparison := strcmp a.1 b.1.

Definition s3_header_forbidden (name : list Z) : bool :=
  bytes_eqb name (bytes_of "authorization") || bytes_eqb name (bytes_of "x-amz-date") ||
  bytes_eqb name (bytes_of "x-amz-content-sha256") || bytes_eqb name (bytes_of "x-amz-security-token").

Fixpoint normalize_headers (headers : list (list Z * list Z)) : outcome (list (list Z * list Z)) :=
  match headers with
  | [] => Ok []
  | (name, value) :: headers =>
    name ← s3_header_name_normalize name;
    if s3_header_forbidden name then Err SALTS_EINVAL
    else
      value ← s3_header_value_normalize value;
      rest ← normalize_headers headers;
      Ok ((name, value) :: rest)
  end.

(** Whether there is a session token. *)
Definition has_token (session_token : option (list Z)) : bool :=
  match session_token with Some token => negb (zlen token =? 0) | None => false end.

(** The headers that signing adds. *)
Definition added_headers (request : s3_signer_request) : list (list Z * list Z) :=
  [(bytes_of "x-amz-content-sha256", sr_payload_sha256 request); (bytes_of "x-amz-date", sr_amz_date request)] ++
  match sr_session_token request with
  | Some token => if negb (zlen token =? 0) then [(bytes_of "x-amz-security-token", token)] else []
  | None => []
  end.

Definition dup_headers (headers : list (list Z * list Z)) : outcome (list (list Z * list Z)) :=
  if forallb (fun h => malloc_ok (zlen h.1 + 1) && malloc_ok (zlen h.2 + 1)) headers then Ok headers else Err SALTS_ENOMEM.

(** The loop over the sorted headers, with the name before. *)
Fixpoint check_headers (max_bytes : Z) (previous : option (list Z)) (aggregate : Z) (headers : list (list Z * list Z)) :
    outcome unit :=
  match headers with
  | [] => Ok tt
  | (name, value) :: headers =>
    if match previous with Some previous => bytes_eqb previous name | None => false end then Err SALTS_EINVAL
    else
      aggregate ← add_all aggregate [zlen name; zlen value; 2] SALTS_EMSGSIZE;
      if max_bytes <? aggregate then Err SALTS_EMSGSIZE else check_headers max_bytes (Some name) aggregate headers
  end.

Definition s3_headers_normalize (request : s3_signer_request) (max_count max_bytes : Z) :
    outcome (list (list Z * list Z)) :=
  count ← s3_checked_add (zlen (sr_headers request)) 2;
  count ← (if has_token (sr_session_token request) then s3_checked_add count 1 else Ok count);
  if max_count <? count then Err SALTS_ENOBUFS
  else
    allocation_size ← s3_checked_multiply count sizeof_normalized_header;
    if negb (malloc_ok allocation_size) then Err SALTS_ENOMEM
    else
      headers ← normalize_headers (sr_headers request);
      added ← dup_headers (added_headers request);
      let headers := qsort s3_header_compare (headers ++ added) in
      _ ← check_headers max_bytes None 0 headers;
      Ok headers.

(** The sizes of the two texts; [first] is [index == 0]. *)
Fixpoint header_sizes (max_header_bytes : Z) (first : bool) (signed_size canonical_size : Z)
    (headers : list (list Z * list Z)) : outcome (Z * Z) :=
  match headers with
  | [] => Ok (signed_size, canonical_size)
  | (name, value) :: headers =>
    signed_size ← add_all signed_size (zlen name :: if first then [] else [1]) SALTS_EMSGSIZE;
    canonical_size ← add_all canonical_size [zlen name; zlen value; 2] SALTS_EMSGSIZE;
    if max_header_bytes <? canonical_size then Err SALTS_EMSGSIZE
    else header_sizes max_header_bytes false signed_size canonical_size headers
  end.

(** The loop that fills the two builders. *)
Fixpoint fill_headers (first : bool) (signed canonical : s3_text_builder) (headers : list (list Z * list Z)) :
    outcome (s3_text_builder * s3_text_builder) :=
  match headers with
  | [] => Ok (signed, canonical)
  | (name, value) :: headers =>
    signed ← append_all signed ((if first then [] else [bytes_of ";"]) ++ [name]);
    canonical ← append_all canonical [name; bytes_of ":"; value; [LF]];
    fill_headers false signed canonical headers
  end.

(** The names and the lines. *)
Definition s3_build_canonical_headers (headers : list (list Z * list Z)) (max_header_bytes : Z) :
    outcome (list Z * list Z) :=
  '(signed_size, canonical_size) ← header_sizes max_header_bytes true 0 0 headers;
  signed ← s3_text_builder_init signed_size;
  canonical ← s3_text_builder_init canonical_size;
  '(signed, canonical) ← fill_headers true signed canonical headers;
  Ok (tb_text signed, tb_text canonical).

(** ** What is signed *)

Definition s3_build_canonical_request (request : s3_signer_request)
    (canonical_query canonical_headers signed_headers : list Z) (max_size : Z) : outcome (list Z) :=
  required ← add_all (zlen (sr_method request))
    [zlen (sr_canonical_uri request); zlen canonical_query; zlen canonical_headers; zlen signed_headers;
     zlen (sr_payload_sha256 request); 5] SALTS_ERANGE;
  if max_size <? required then Err SALTS_EMSGSIZE
  else
    s3_build required
      [sr_method request; [LF]; sr_canonical_uri request; [LF]; canonical_query; [LF]; canonical_headers; [LF];
       signed_headers; [LF]; sr_payload_sha256 request].

Definition s3_build_scope (request : s3_signer_request) : outcome (list Z) :=
  s3_build (8 + 1 + zlen (sr_region request) + zlen (bytes_of "/s3/aws4_request"))
    [ztake 8 (sr_amz_date request); bytes_of "/"; sr_region request; bytes_of "/s3/aws4_request"].

Definition SIGNING_ALGORITHM : list Z := bytes_of "AWS4-HMAC-SHA256" ++ [LF].

Definition s3_build_string_to_sign (request : s3_signer_request) (scope canonical_hash : list Z) : outcome (list Z) :=
  s3_build (zlen SIGNING_ALGORITHM + S3_SIGNER_AMZ_DATE_SIZE + 1 + zlen scope + 1 + S3_SIGNER_SHA256_HEX_SIZE)
    [SIGNING_ALGORITHM; sr_amz_date request; [LF]; scope; [LF]; canonical_hash].

Definition s3_derive_signature (request : s3_signer_request) (string_to_sign : list Z) : outcome (list Z) :=
  date_key ← cmeta_hmac_sha256 (bytes_of "AWS4" ++ sr_secret_key request) (ztake 8 (sr_amz_date request));
  region_key ← cmeta_hmac_sha256 date_key (sr_region request);
  service_key ← cmeta_hmac_sha256 region_key (bytes_of "s3");
  signing_key ← cmeta_hmac_sha256 service_key (bytes_of "aws4_request");
  raw_signature ← cmeta_hmac_sha256 signing_key string_to_sign;
  Ok (s3_hex_lower raw_signature).

Definition ALGORITHM_CREDENTIAL : list Z := bytes_of "AWS4-HMAC-SHA256 Credential=".
Definition SIGNED_PREFIX : list Z := bytes_of ",SignedHeaders=".
Definition SIGNATURE_PREFIX : list Z := bytes_of ",Signature=".

Definition s3_build_authorization (request : s3_signer_request) (scope signed_headers signature : list Z) :
    outcome (list Z) :=
  s3_build (zlen ALGORITHM_CREDENTIAL + zlen (sr_access_key request) + 1 + zlen scope + zlen SIGNED_PREFIX +
            zlen signed_headers + zlen SIGNATURE_PREFIX + zlen signature)
    [ALGORITHM_CREDENTIAL; sr_access_key request; bytes_of "/"; scope; SIGNED_PREFIX; signed_headers;
     SIGNATURE_PREFIX; signature].

(** ** Signing *)

Definition contains (c : Z) (s : list Z) : bool := existsb (fun x => x =? c) s.

(** An encoded path. *)
Definition uri_invalid (uri : list Z) (max_target_bytes : Z) : bool :=
  (zlen uri =? 0) || negb (zth uri 0 =? 47) || contains 63 uri || contains 35 uri || (max_target_bytes <? zlen uri).

Definition uri_control (uri : list Z) : bool := existsb (fun value => (value <=? 0x20) || (value =? 0x7f)) uri.

Definition component_invalid (s : list Z) : bool := (zlen s =? 0) || (S3_SIGNER_COMPONENT_LIMIT <? zlen s).

Definition token_too_long (session_token : option (list Z)) : bool :=
  match session_token with Some token => S3_SIGNER_DEFAULT_MAX_HEADER_BYTES <? zlen token | None => false end.

Definition s3_signer_request_validate (request : s3_signer_request) (max_target_bytes : Z) : outcome unit :=
  guard_err (negb (sr_size request =? sizeof_signer_request) || negb (s3_signer_method_valid (sr_method request)) ||
         uri_invalid (sr_canonical_uri request) max_target_bytes || component_invalid (sr_region request) ||
         component_invalid (sr_access_key request) || component_invalid (sr_secret_key request) ||
         token_too_long (sr_session_token request) || negb (s3_signer_hash_valid (sr_payload_sha256 request)) ||
         negb (s3_signer_date_valid (sr_amz_date request)) || uri_control (sr_canonical_uri request)) SALTS_EINVAL.

Definition or_default (value default : Z) : Z := if negb (value =? 0) then value else default.

(** The sum of the limits, whose overflow overrides any other error. *)
Definition canonical_limit (max_header_bytes max_target_bytes : Z) : outcome Z :=
  add_all max_header_bytes [max_target_bytes; max_target_bytes] SALTS_ERANGE.

Definition s3_signer_sign (request : s3_signer_request) : outcome s3_signer_result :=
  let max_header_count := or_default (sr_max_header_count request) S3_SIGNER_DEFAULT_MAX_HEADER_COUNT in
  let max_header_bytes := or_default (sr_max_header_bytes request) S3_SIGNER_DEFAULT_MAX_HEADER_BYTES in
  let max_query_count := or_default (sr_max_query_count request) S3_SIGNER_DEFAULT_MAX_QUERY_COUNT in
  let max_target_bytes := or_default (sr_max_target_bytes request) S3_SIGNER_DEFAULT_MAX_TARGET_BYTES in
  _ ← s3_signer_request_validate request max_target_bytes;
  let parts :=
    headers ← s3_headers_normalize request max_header_count max_header_bytes;
    '(signed_headers, canonical_headers) ← s3_build_canonical_headers headers max_header_bytes;
    canonical_query ← s3_query_canonicalize (sr_query request) max_query_count max_target_bytes;
    Ok (signed_headers, canonical_headers, canonical_query) in
  limit ← canonical_limit max_header_bytes max_target_bytes;
  '(signed_headers, canonical_headers, canonical_query) ← parts;
  canonical_request ← s3_build_canonical_request request canonical_query canonical_headers signed_headers limit;
  canonical_hash ← s3_signer_sha256_hex canonical_request;
  scope ← s3_build_scope request;
  string_to_sign ← s3_build_string_to_sign request scope canonical_hash;
  signature ← s3_derive_signature request string_to_sign;
  signature ← tstr_dup signature;
  authorization ← s3_build_authorization request scope signed_headers signature;
  Ok {| sg_authorization := authorization; sg_signed_headers := signed_headers; sg_signature := signature;
        sg_canonical_query := canonical_query; sg_canonical_request := canonical_request;
        sg_string_to_sign := string_to_sign |}.

(** ** Presigned queries *)

Definition s3_ascii_case_equal (left right : list Z) : bool := bytes_eqb (map ascii_lower left) (map ascii_lower right).

Definition presign_reserved : list (list Z) :=
  [bytes_of "X-Amz-Algorithm"; bytes_of "X-Amz-Credential"; bytes_of "X-Amz-Date"; bytes_of "X-Amz-Expires";
   bytes_of "X-Amz-SignedHeaders"; bytes_of "X-Amz-Security-Token"; bytes_of "X-Amz-Signature"].

Definition s3_presign_query_reserved (name : list Z) : bool := existsb (s3_ascii_case_equal name) presign_reserved.

Definition s3_presign_validate (request : s3_presign_request) (max_target_bytes : Z) : outcome unit :=
  guard_err (negb (ps_size request =? sizeof_presign_request) || negb (s3_signer_method_valid (ps_method request)) ||
         uri_invalid (ps_canonical_uri request) max_target_bytes || (zlen (ps_authority request) =? 0) ||
         (S3_SIGNER_DEFAULT_MAX_HEADER_BYTES <? zlen (ps_authority request)) ||
         component_invalid (ps_region request) || component_invalid (ps_access_key request) ||
         component_invalid (ps_secret_key request) || token_too_long (ps_session_token request) ||
         negb (s3_signer_date_valid (ps_amz_date request)) || (ps_expires_seconds request =? 0) ||
         (604800 <? ps_expires_seconds request) || uri_control (ps_canonical_uri request) ||
         existsb (fun q => s3_presign_query_reserved q.1) (ps_query request)) SALTS_EINVAL.

Definition s3_presign_canonical_headers (authority : list Z) : outcome (list Z) :=
  normalized ← s3_header_value_normalize authority;
  let required := zlen (bytes_of "host:") + 1 + zlen normalized in
  if S3_SIGNER_DEFAULT_MAX_HEADER_BYTES <? required then Err SALTS_EMSGSIZE
  else s3_build required [bytes_of "host:"; normalized; [LF]].

Definition UNSIGNED_PAYLOAD : list Z := bytes_of "UNSIGNED-PAYLOAD".

Definition presign_signer_request (request : s3_presign_request) : s3_signer_request :=
  {| sr_size := sizeof_signer_request; sr_method := ps_method request; sr_canonical_uri := ps_canonical_uri request;
     sr_region := ps_region request; sr_access_key := ps_access_key request; sr_secret_key := ps_secret_key request;
     sr_session_token := ps_session_token request; sr_payload_sha256 := UNSIGNED_PAYLOAD;
     sr_amz_date := ps_amz_date request; sr_headers := []; sr_query := []; sr_max_header_count := 0;
     sr_max_header_bytes := 0; sr_max_query_count := 0; sr_max_target_bytes := 0 |}.

(** The parameters that signing adds, but for the signature. *)
Definition presign_parameters (request : s3_presign_request) (credential expires : list Z) : list (list Z * list Z) :=
  [(bytes_of "X-Amz-Algorithm", bytes_of "AWS4-HMAC-SHA256"); (bytes_of "X-Amz-Credential", credential);
   (bytes_of "X-Amz-Date", ps_amz_date request); (bytes_of "X-Amz-Expires", expires);
   (bytes_of "X-Amz-SignedHeaders", bytes_of "host")] ++
  match ps_session_token request with
  | Some token => if negb (zlen token =? 0) then [(bytes_of "X-Amz-Security-Token", token)] else []
  | None => []
  end.

(** The query with the signature, and the signature. *)
Definition s3_signer_presign (request : s3_presign_request) : outcome (list Z * list Z) :=
  let max_query_count := or_default (ps_max_query_count request) S3_SIGNER_DEFAULT_MAX_QUERY_COUNT in
  let max_target_bytes := or_default (ps_max_target_bytes request) S3_SIGNER_DEFAULT_MAX_TARGET_BYTES in
  _ ← s3_presign_validate request max_target_bytes;
  let generated_count := if has_token (ps_session_token request) then 7 else 6 in
  final_count ← s3_checked_add (zlen (ps_query request)) generated_count;
  if (max_query_count <? final_count) || negb (is_ok (s3_checked_multiply final_count sizeof_signer_query)) then
    Err SALTS_ENOBUFS
  else if negb (malloc_ok (final_count * sizeof_signer_query)) then Err SALTS_ENOMEM
  else
    let signer_request := presign_signer_request request in
    let parts :=
      scope ← s3_build_scope signer_request;
      credential ← s3_build (zlen (ps_access_key request) + 1 + zlen scope) [ps_access_key request; bytes_of "/"; scope];
      let query := ps_query request ++ presign_parameters request credential (decimal (ps_expires_seconds request)) in
      canonical_query ← s3_query_canonicalize query max_query_count max_target_bytes;
      canonical_headers ← s3_presign_canonical_headers (ps_authority request);
      Ok (scope, query, canonical_query, canonical_headers) in
    limit ← canonical_limit S3_SIGNER_DEFAULT_MAX_HEADER_BYTES max_target_bytes;
    '(scope, query, canonical_query, canonical_headers) ← parts;
    canonical_request ← s3_build_canonical_request signer_request canonical_query canonical_headers (bytes_of "host") limit;
    canonical_hash ← s3_signer_sha256_hex canonical_request;
    string_to_sign ← s3_build_string_to_sign signer_request scope canonical_hash;
    signature ← s3_derive_signature signer_request string_to_sign;
    signature ← tstr_dup signature;
    final_query ← s3_query_canonicalize (query ++ [(bytes_of "X-Amz-Signature", signature)]) max_query_count max_target_bytes;
    Ok (final_query, signature).

End Signer.

End S3Signer.
