(* ===== verification/S3Request.v ===== *)
(** * Requests of the S3 client

    Model of the rest of [s3/src/s3_request.c]: names of buckets, the target and
    the headers of a request, the plan of a request and presigned URLs; of the
    configuration of a client in [s3/src/s3_client.c], and of
    [s3/src/s3_credentials.c].

    The clock and the answer of the credentials provider are arguments.  A value
    of an enumeration is one of its constructors.  A body of a request is an
    optional list of bytes, or comes from a source. *)

From S2P Require Import Prelude Decimal HpackBuffer Router Http1Parser Response S3Text S3Signer.

Module S3Request.
Import Decimal HpackBuffer Router Http1Parser S3Text S3Signer.

(** ** Configuration *)

Definition S3_MAX_REGION_BYTES : Z := 63.
Definition S3_DEFAULT_MAX_BUCKET_NAME_BYTES : Z := 63.
Definition S3_DEFAULT_MAX_OBJECT_KEY_BYTES : Z := 1024.
Definition S3_DEFAULT_MAX_QUERY_COUNT : Z := 64.
Definition S3_DEFAULT_MAX_HEADER_COUNT : Z := 64.
Definition S3_DEFAULT_MAX_XML_NODES : Z := 65536.
Definition S3_DEFAULT_MAX_LIST_ENTRIES : Z := 10000.
Definition S3_DEFAULT_MAX_TARGET_BYTES : Z := 8 * 1024.
Definition S3_DEFAULT_MAX_HEADER_BYTES : Z := 32 * 1024.
Definition S3_DEFAULT_MAX_XML_BYTES : Z := 4 * 1024 * 1024.
Definition S3_MULTIPART_MAX_PARTS : Z := 10000.
Definition S3_MULTIPART_MIN_PART_BYTES : Z := 5 * 1024 * 1024.
Definition S3_MULTIPART_MAX_PART_BYTES : Z := 5 * 1024 * 1024 * 1024.
Definition S3_MULTIPART_DEFAULT_MAX_BUFFER_BYTES : Z := 64 * 1024 * 1024.

Inductive s3_addressing_style := S3_ADDRESSING_PATH | S3_ADDRESSING_VIRTUAL_HOSTED.

Inductive s3_method := S3_METHOD_GET | S3_METHOD_HEAD | S3_METHOD_POST | S3_METHOD_PUT | S3_METHOD_DELETE.

Record s3_client_config := {
  cc_size : Z;
  cc_connection_uri : list Z;
  cc_authority : list Z;
  cc_region : list Z;
  cc_addressing_style : s3_addressing_style;
  cc_has_fetch : bool;
  cc_max_bucket_name_bytes : Z;
  cc_max_object_key_bytes : Z;
  cc_max_target_bytes : Z;
  cc_max_query_count : Z;
  cc_max_header_count : Z;
  cc_max_header_bytes : Z;
  cc_max_xml_bytes : Z;
  cc_max_xml_nodes : Z;
  cc_max_list_entries : Z;
  cc_max_multipart_parts : Z;
  cc_max_multipart_part_bytes : Z;
}.

Definition sizeof_client_config : Z := 184.

Definition region_byte (value : Z) : bool :=
  ((97 <=? value) && (value <=? 122)) || ((65 <=? value) && (value <=? 90)) ||
  ((48 <=? value) && (value <=? 57)) || (value =? 45).

(** Limits that are zero take their defaults. *)
Definition with_defaults (config : s3_client_config) : s3_client_config :=
  {| cc_size := cc_size config; cc_connection_uri := cc_connection_uri config; cc_authority := cc_authority config;
     cc_region := cc_region config; cc_addressing_style := cc_addressing_style config;
     cc_has_fetch := cc_has_fetch config;
     cc_max_bucket_name_bytes := or_default (cc_max_bucket_name_bytes config) S3_DEFAULT_MAX_BUCKET_NAME_BYTES;
     cc_max_object_key_bytes := or_default (cc_max_object_key_bytes config) S3_DEFAULT_MAX_OBJECT_KEY_BYTES;
     cc_max_target_bytes := or_default (cc_max_target_bytes config) S3_DEFAULT_MAX_TARGET_BYTES;
     cc_max_query_count := or_default (cc_max_query_count config) S3_DEFAULT_MAX_QUERY_COUNT;
     cc_max_header_count := or_default (cc_max_header_count config) S3_DEFAULT_MAX_HEADER_COUNT;
     cc_max_header_bytes := or_default (cc_max_header_bytes config) S3_DEFAULT_MAX_HEADER_BYTES;
     cc_max_xml_bytes := or_default (cc_max_xml_bytes config) S3_DEFAULT_MAX_XML_BYTES;
     cc_max_xml_nodes := or_default (cc_max_xml_nodes config) S3_DEFAULT_MAX_XML_NODES;
     cc_max_list_entries := or_default (cc_max_list_entries config) S3_DEFAULT_MAX_LIST_ENTRIES;
     cc_max_multipart_parts := or_default (cc_max_multipart_parts config) S3_MULTIPART_MAX_PARTS;
     cc_max_multipart_part_bytes :=
       or_default (cc_max_multipart_part_bytes config) S3_MULTIPART_DEFAULT_MAX_BUFFER_BYTES |}.

Definition s3_client_config_normalize (config : s3_client_config) : outcome s3_client_config :=
  _ ← guard_err (negb (cc_size config =? sizeof_client_config) || (zlen (cc_connection_uri config) =? 0) ||
             (zlen (cc_authority config) =? 0) || (zlen (cc_region config) =? 0) || negb (cc_has_fetch config)) SALTS_EINVAL;
  _ ← guard_err (S3_MAX_REGION_BYTES <? zlen (cc_region config)) SALTS_EINVAL;
  _ ← guard_err (negb (forallb region_byte (cc_region config))) SALTS_EINVAL;
  let config := with_defaults config in
  _ ← guard_err ((S3_DEFAULT_MAX_BUCKET_NAME_BYTES <? cc_max_bucket_name_bytes config) ||
             (cc_max_header_count config <? 3) || (cc_max_target_bytes config =? 0) ||
             (cc_max_header_bytes config =? 0) || (cc_max_xml_bytes config =? 0) || (cc_max_xml_nodes config =? 0) ||
             (cc_max_list_entries config =? 0) || (cc_max_multipart_parts config =? 0) ||
             (S3_MULTIPART_MAX_PARTS <? cc_max_multipart_parts config) ||
             (cc_max_multipart_part_bytes config <? S3_MULTIPART_MIN_PART_BYTES) ||
             (INT32_MAX <? cc_max_multipart_part_bytes config) ||
             (S3_MULTIPART_MAX_PART_BYTES <? cc_max_multipart_part_bytes config)) SALTS_EINVAL;
  Ok config.

(** ** Credentials *)

Record s3_credentials := {
  cr_access_key : list Z;
  cr_secret_key : list Z;
  cr_session_token : option (list Z);
}.

(** Both keys, where neither is missing nor empty. *)
Definition complete_credentials (access_key secret_key session_token : option (list Z)) (missing : salts_status) :
    outcome s3_credentials :=
  match access_key, secret_key with
  | Some access_key, Some secret_key =>
    if (zlen access_key =? 0) || (zlen secret_key =? 0) then Err missing
    else Ok {| cr_access_key := access_key; cr_secret_key := secret_key; cr_session_token := session_token |}
  | _, _ => Err missing
  end.

Definition s3_static_fetch (access_key secret_key session_token : option (list Z)) : outcome s3_credentials :=
  complete_credentials access_key secret_key session_token SALTS_EINVAL.

Definition s3_environment_fetch (getenv : list Z -> option (list Z)) : outcome s3_credentials :=
  complete_credentials (getenv (bytes_of "AWS_ACCESS_KEY_ID")) (getenv (bytes_of "AWS_SECRET_ACCESS_KEY"))
    (getenv (bytes_of "AWS_SESSION_TOKEN")) SALTS_ENOENT.

(** ** Requests *)

Record s3_request_options := {
  rq_size : Z;
  rq_method : s3_method;
  rq_bucket : option (list Z);
  rq_key : option (list Z);
  rq_query : list (list Z * list Z);
  rq_headers : list (list Z * list Z);
  rq_body : option (list Z);
  rq_body_source : bool;
  rq_payload_sha256 : option (list Z);
}.

Definition sizeof_request_options : Z := 104.
Definition sizeof_header : Z := 16.
Definition sizeof_query : Z := 16.

Record s3_request_plan := {
  pl_method : s3_method;
  pl_authority : list Z;
  pl_canonical_uri : list Z;
  pl_target : list Z;
  pl_payload_sha256 : list Z;
  pl_amz_date : list Z;
  pl_headers : list (list Z * list Z);
}.

Definition bucket_edge (value : Z) : bool := ((97 <=? value) && (value <=? 122)) || ((48 <=? value) && (value <=? 57)).

(** The loop over a name, with the byte before. *)
Fixpoint bucket_loop (previous : option Z) (bucket : list Z) : bool :=
  match bucket with
  | [] => true
  | value :: bucket =>
    (bucket_edge value || (value =? 45) || (value =? 46)) &&
    match previous with
    | None => true
    | Some before => negb (((value =? 46) && ((before =? 46) || (before =? 45))) || ((value =? 45) && (before =? 46)))
    end && bucket_loop (Some value) bucket
  end.

Definition s3_bucket_name_valid (bucket : option (list Z)) (max_bytes : Z) : bool :=
  match bucket with
  | None => true
  | Some bucket =>
    negb ((zlen bucket <? 3) || (max_bytes <? zlen bucket)) &&
    bucket_edge (zth bucket 0) && bucket_edge (zth bucket (zlen bucket - 1)) && bucket_loop None bucket
  end.

Definition s3_header_name_equal (left right : list Z) : bool := bytes_eqb (map ascii_lower left) (map ascii_lower right).

Definition reserved_headers : list (list Z) :=
  [bytes_of "host"; bytes_of "authorization"; bytes_of "x-amz-date"; bytes_of "x-amz-content-sha256";
   bytes_of "x-amz-security-token"].

Definition s3_application_header_valid (header : list Z * list Z) : bool :=
  negb (existsb (s3_header_name_equal header.1) reserved_headers).

Definition s3_method_map (method : s3_method) : list Z :=
  match method with
  | S3_METHOD_GET => bytes_of "GET"
  | S3_METHOD_HEAD => bytes_of "HEAD"
  | S3_METHOD_POST => bytes_of "POST"
  | S3_METHOD_PUT => bytes_of "PUT"
  | S3_METHOD_DELETE => bytes_of "DELETE"
  end.

(** ** Time *)

Definition leap (year : Z) : bool := (year mod 4 =? 0) && (negb (year mod 100 =? 0) || (year mod 400 =? 0)).
Definition year_days (year : Z) : Z := if leap year then 366 else 365.
Definition month_lengths (year : Z) : list Z := [31; if leap year then 29 else 28; 31; 30; 31; 30; 31; 31; 30; 31; 30; 31].

(** The year and the day in it; none after the year 9999. *)
Fixpoint gmtime_year (fuel : nat) (year days : Z) : option (Z * Z) :=
  if days <? year_days year then Some (year, days)
  else match fuel with O => None | S fuel => gmtime_year fuel (year + 1) (days - year_days year) end.

Fixpoint gmtime_month (month days : Z) (lengths : list Z) : Z * Z :=
  match lengths with
  | length :: lengths => if days <? length then (month, days) else gmtime_month (month + 1) (days - length) lengths
  | [] => (month, days)
  end.

Definition YEARS : nat := Z.to_nat (9999 - 1970).

(** [gmtime_r] and [strftime] with the format of the dates, which has no room
    for a year of five digits. *)
Definition amz_date (seconds : Z) : option (list Z) :=
  match gmtime_year YEARS 1970 (seconds / 86400) with
  | None => None
  | Some (year, day) =>
    let '(month, day) := gmtime_month 0 day (month_lengths year) in
    let time := seconds mod 86400 in
    Some (Response.padded 4 year ++ Response.padded 2 (month + 1) ++ Response.padded 2 (day + 1) ++ bytes_of "T" ++
          Response.padded 2 (time / 3600) ++ Response.padded 2 (time / 60 mod 60) ++ Response.padded 2 (time mod 60) ++
          bytes_of "Z")
  end.

Definition s3_request_time (seconds : Z) : outcome (list Z) :=
  if seconds <? 0 then Err SALTS_ERANGE
  else match amz_date seconds with
       | Some date => if zlen date =? S3_SIGNER_AMZ_DATE_SIZE then Ok date else Err SALTS_ERANGE
       | None => Err SALTS_ERANGE
       end.

(** ** Parts of a request *)

Section Plans.
Context {alloc : Allocator} {sha256 : Sha256}.

(** The strings of a client are its own copies. *)
Definition s3_client_base_init (config : s3_client_config) : outcome s3_client_config :=
  match s3_client_config_normalize config with
  | Err _ => Err SALTS_EINVAL
  | Ok normalized =>
    if forallb (fun s => malloc_ok (zlen s + 1))
         [cc_connection_uri normalized; cc_authority normalized; cc_region normalized]
    then Ok normalized else Err SALTS_ENOMEM
  end.

Definition s3_request_authority (client : s3_client_config) (bucket : option (list Z)) : outcome (list Z) :=
  match cc_addressing_style client, bucket with
  | S3_ADDRESSING_VIRTUAL_HOSTED, Some bucket =>
    required ← add_all (zlen bucket) [1; zlen (cc_authority client)] SALTS_EMSGSIZE;
    if cc_max_header_bytes client <? required then Err SALTS_EMSGSIZE
    else s3_build required [bucket; bytes_of "."; cc_authority client]
  | _, _ => tstr_dup (cc_authority client)
  end.

Definition uri_encode_optional (input : option (list Z)) (preserve_slash : bool) (max_bytes : Z) : outcome (option (list Z)) :=
  match input with
  | None => Ok None
  | Some input => encoded ← s3_uri_encode input preserve_slash max_bytes; Ok (Some encoded)
  end.

(** What follows the first slash of a path. *)
Definition uri_pieces (encoded_bucket encoded_key : option (list Z)) : list (list Z) :=
  match encoded_bucket with Some bucket => [bucket] | None => [] end ++
  match encoded_key with
  | Some key => match encoded_bucket with Some _ => [bytes_of "/"] | None => [] end ++ [key]
  | None => []
  end.

Definition s3_request_canonical_uri (client : s3_client_config) (options : s3_request_options) : outcome (list Z) :=
  encoded_bucket ← (match cc_addressing_style client with
                    | S3_ADDRESSING_PATH => uri_encode_optional (rq_bucket options) false (cc_max_target_bytes client)
                    | S3_ADDRESSING_VIRTUAL_HOSTED => Ok None
                    end);
  encoded_key ← uri_encode_optional (rq_key options) true (cc_max_target_bytes client);
  let pieces := uri_pieces encoded_bucket encoded_key in
  required ← add_all 1 (map zlen pieces) SALTS_ERANGE;
  if cc_max_target_bytes client <? required then Err SALTS_EMSGSIZE
  else s3_build required (bytes_of "/" :: pieces).

Definition s3_request_target (client : s3_client_config) (canonical_uri canonical_query : list Z) : outcome (list Z) :=
  let query := if zlen canonical_query =? 0 then [] else [bytes_of "?"; canonical_query] in
  required ← add_all (zlen canonical_uri) (map zlen query) SALTS_ERANGE;
  if cc_max_target_bytes client <? required then Err SALTS_EMSGSIZE
  else s3_build required (canonical_uri :: query).

(** The sizes of the lines of the headers. *)
Fixpoint header_bytes (max_header_bytes aggregate : Z) (headers : list (list Z * list Z)) : outcome unit :=
  match headers with
  | [] => Ok tt
  | (name, value) :: headers =>
    aggregate ← add_all aggregate [zlen name; zlen value; 4] SALTS_EMSGSIZE;
    if max_header_bytes <? aggregate then Err SALTS_EMSGSIZE else header_bytes max_header_bytes aggregate headers
  end.

Definition transport_list (options : s3_request_options) (credentials : s3_credentials) (authorization : list Z)
    (payload_hash date : list Z) : list (list Z * list Z) :=
  rq_headers options ++
  [(bytes_of "Authorization", authorization); (bytes_of "X-Amz-Date", date);
   (bytes_of "X-Amz-Content-Sha256", payload_hash)] ++
  match cr_session_token credentials with
  | Some token => if negb (zlen token =? 0) then [(bytes_of "X-Amz-Security-Token", token)] else []
  | None => []
  end.

Definition s3_request_transport_headers (client : s3_client_config) (options : s3_request_options)
    (credentials : s3_credentials) (signing : s3_signer_result) (payload_hash date : list Z) :
    outcome (list (list Z * list Z)) :=
  count ← add_all (zlen (rq_headers options)) (3 :: if has_token (cr_session_token credentials) then [1] else []) SALTS_ERANGE;
  if (cc_max_header_count client <? count) || negb (is_ok (s3_checked_multiply count sizeof_header)) then Err SALTS_ENOBUFS
  else if negb (malloc_ok (count * sizeof_header)) then Err SALTS_ENOMEM
  else
    headers ← dup_headers (transport_list options credentials (sg_authorization signing) payload_hash date);
    _ ← header_bytes (cc_max_header_bytes client) 0 headers;
    Ok headers.

Definition present {A} (o : option A) : bool := match o with Some _ => true | None => false end.

Definition key_invalid (client : s3_client_config) (options : s3_request_options) : bool :=
  match rq_key options with
  | Some key => negb (present (rq_bucket options)) || (zlen key =? 0) || (cc_max_object_key_bytes client <? zlen key)
  | None => false
  end.

Definition s3_request_options_validate (client : s3_client_config) (options : s3_request_options) : outcome unit :=
  guard_err (negb (rq_size options =? sizeof_request_options) ||
         negb (s3_bucket_name_valid (rq_bucket options) (cc_max_bucket_name_bytes client)) || key_invalid client options ||
         (cc_max_query_count client <? zlen (rq_query options)) || (cc_max_header_count client <? zlen (rq_headers options)) ||
         (rq_body_source options && present (rq_body options)) ||
         (rq_body_source options && negb (present (rq_payload_sha256 options))) ||
         (negb (rq_body_source options) && present (rq_payload_sha256 options)) ||
         negb (forallb s3_application_header_valid (rq_headers options))) SALTS_EINVAL.

(** The digest that is given, or that of the body. *)
Definition request_payload_hash (options : s3_request_options) : outcome (list Z) :=
  hash ← (if rq_body_source options then Ok (default [] (rq_payload_sha256 options))
          else s3_signer_sha256_hex (default [] (rq_body options)));
  tstr_dup hash.

(** An array for the elements of a list. *)
Definition calloc_array (count size : Z) : outcome unit :=
  allocation_size ← s3_checked_multiply count size;
  guard_err (negb (malloc_ok allocation_size)) SALTS_ENOMEM.

Definition plan_signer_request (client : s3_client_config) (options : s3_request_options) (credentials : s3_credentials)
    (authority canonical_uri hash date : list Z) : s3_signer_request :=
  {| sr_size := sizeof_signer_request; sr_method := s3_method_map (rq_method options); sr_canonical_uri := canonical_uri;
     sr_region := cc_region client; sr_access_key := cr_access_key credentials;
     sr_secret_key := cr_secret_key credentials; sr_session_token := cr_session_token credentials;
     sr_payload_sha256 := hash; sr_amz_date := date; sr_headers := rq_headers options ++ [(bytes_of "Host", authority)];
     sr_query := rq_query options; sr_max_header_count := cc_max_header_count client;
     sr_max_header_bytes := cc_max_header_bytes client; sr_max_query_count := cc_max_query_count client;
     sr_max_target_bytes := cc_max_target_bytes client |}.

Definition s3_request_plan_build (client : s3_client_config) (options : s3_request_options) (clock : Z)
    (fetch : outcome s3_credentials) : outcome s3_request_plan :=
  _ ← s3_request_options_validate client options;
  authority ← s3_request_authority client (rq_bucket options);
  canonical_uri ← s3_request_canonical_uri client options;
  date ← s3_request_time clock;
  hash ← request_payload_hash options;
  signer_header_count ← s3_checked_add (zlen (rq_headers options)) 1;
  _ ← calloc_array signer_header_count sizeof_header;
  _ ← (if negb (zlen (rq_query options) =? 0) then calloc_array (zlen (rq_query options)) sizeof_query else Ok tt);
  credentials ← fetch;
  signing ← s3_signer_sign (plan_signer_request client options credentials authority canonical_uri hash date);
  target ← s3_request_target client canonical_uri (sg_canonical_query signing);
  headers ← s3_request_transport_headers client options credentials signing hash date;
  Ok {| pl_method := rq_method options; pl_authority := authority; pl_canonical_uri := canonical_uri;
        pl_target := target; pl_payload_sha256 := hash; pl_amz_date := date; pl_headers := headers |}.

(** ** Presigned URLs *)

Definition url_scheme (connection_uri : list Z) : outcome (list Z) :=
  if bytes_eqb (ztake 6 connection_uri) (bytes_of "tls://") then Ok (bytes_of "https://")
  else if bytes_eqb (ztake 6 connection_uri) (bytes_of "tcp://") then Ok (bytes_of "http://")
  else Err SALTS_ENOTSUP.

Definition presign_options (method : s3_method) (bucket key : option (list Z)) (query : list (list Z * list Z)) :
    s3_request_options :=
  {| rq_size := sizeof_request_options; rq_method := method; rq_bucket := bucket; rq_key := key; rq_query := query;
     rq_headers := []; rq_body := None; rq_body_source := false; rq_payload_sha256 := None |}.

Definition plan_presign_request (client : s3_client_config) (options : s3_request_options) (credentials : s3_credentials)
    (authority canonical_uri date : list Z) (expires_seconds : Z) : s3_presign_request :=
  {| ps_size := sizeof_presign_request; ps_method := s3_method_map (rq_method options);
     ps_canonical_uri := canonical_uri; ps_authority := authority; ps_region := cc_region client;
     ps_access_key := cr_access_key credentials; ps_secret_key := cr_secret_key credentials;
     ps_session_token := cr_session_token credentials; ps_amz_date := date; ps_expires_seconds := expires_seconds;
     ps_query := rq_query options; ps_max_query_count := cc_max_query_count client;
     ps_max_target_bytes := cc_max_target_bytes client |}.

Definition s3_presign_url_build (client : s3_client_config) (method : s3_method) (bucket key : option (list Z))
    (query : list (list Z * list Z)) (expires_seconds clock : Z) (fetch : outcome s3_credentials) : outcome (list Z) :=
  let options := presign_options method bucket key query in
  _ ← s3_request_options_validate client options;
  authority ← s3_request_authority client bucket;
  canonical_uri ← s3_request_canonical_uri client options;
  _ ← (if negb (zlen query =? 0) then calloc_array (zlen query) sizeof_query else Ok tt);
  credentials ← fetch;
  date ← s3_request_time clock;
  '(final_query, _) ← s3_signer_presign (plan_presign_request client options credentials authority canonical_uri date expires_seconds);
  scheme ← url_scheme (cc_connection_uri client);
  target_size ← add_all (zlen canonical_uri) [1; zlen final_query] SALTS_EMSGSIZE;
  if cc_max_target_bytes client <? target_size then Err SALTS_EMSGSIZE
  else
    url_size ← add_all (zlen scheme) [zlen authority; target_size] SALTS_ERANGE;
    s3_build url_size [scheme; authority; canonical_uri; bytes_of "?"; final_query].

End Plans.

End S3Request.
