(* ===== verification/S3TextTheorems.v ===== *)
(** * Theorems on the texts of the S3 client

    What the builder makes, when it makes it, and that the canonical form of a
    query stands for the query up to the order of its parameters. *)

From stdpp Require Import sorting.
From S2P Require Import Prelude HpackBuffer S3Text.

Module S3TextTheorems.
Import HpackBuffer S3Text.

(** ** Reference definitions *)

Definition hex_value (c : Z) : Z := if c <? 58 then c - 48 else c - 55.

(** The text of which the encoding is given. *)
Fixpoint percent_decode (s : list Z) : list Z :=
  match s with
  | 37 :: high :: low :: s => 16 * hex_value high + hex_value low :: percent_decode s
  | c :: s => c :: percent_decode s
  | [] => []
  end.

(** What stands before and after the first occurrence of a byte. *)
Fixpoint cut (c : Z) (s : list Z) : list Z * list Z :=
  match s with
  | [] => ([], [])
  | x :: s => if x =? c then ([], s) else let '(a, b) := cut c s in (x :: a, b)
  end.

Definition decode_parameter (s : list Z) : list Z * list Z :=
  let '(name, value) := cut 61 s in (percent_decode name, percent_decode value).

(** The parameters that a query stands for. *)
Definition decode_query (s : list Z) : list (list Z * list Z) :=
  match s with [] => [] | _ => map decode_parameter (split_on 38 s) end.

(** ** Sizes *)

Fixpoint sum (sizes : list Z) : Z := match sizes with [] => 0 | size :: sizes => size + sum sizes end.

Lemma checked_add_iff a b c : s3_checked_add a b = Ok c <-> c = a + b /\ a + b <= SIZE_MAX.
Proof. unfold s3_checked_add. split_if; (split; [intros [=]; subst|intros [-> ?]]); try done; lia. Qed.

Lemma sum_nonneg sizes : Forall (Z.le 0) sizes -> 0 <= sum sizes.
Proof. induction 1; cbn; lia. Qed.

Lemma add_all_ok sizes e : forall total r, add_all total sizes e = Ok r -> r = total + sum sizes.
Proof.
  induction sizes as [|s sizes IH]; cbn; intros total r.
  - intros [= <-]. lia.
  - destruct (s3_checked_add total s) as [t|] eqn:E; [|done]. apply checked_add_iff in E as [-> _].
    intros ->%IH. lia.
Qed.

Lemma add_all_iff sizes e : Forall (Z.le 0) sizes -> forall total r, total <= SIZE_MAX ->
  add_all total sizes e = Ok r <-> r = total + sum sizes /\ total + sum sizes <= SIZE_MAX.
Proof.
  induction 1 as [|s sizes Hs H IH]; cbn; intros total r Ht.
  - split; [intros [= <-]; lia|]. intros [-> ?]. f_equal. lia.
  - pose proof (sum_nonneg sizes H).
    destruct (s3_checked_add total s) as [t|] eqn:E.
    + apply checked_add_iff in E as [-> ?]. rewrite IH by lia. lia.
    + split; [done|]. intros [-> ?]. assert (s3_checked_add total s = Ok (total + s)) as E'; [|congruence].
      apply checked_add_iff. split; [done|]. cbn in *. lia.
Qed.

(** ** The builder *)

Section Texts.
Context {alloc : Allocator}.

Lemma builder_append_ok b d b' : s3_text_builder_append b d = Ok b' ->
  tb_text b' = tb_text b ++ d /\ tb_capacity b' = tb_capacity b.
Proof. unfold s3_text_builder_append. destruct (s3_checked_add _ _); [|done]. split_if; [done|]. by intros [= <-]. Qed.

Lemma append_all_ok pieces : forall b b', append_all b pieces = Ok b' ->
  tb_text b' = tb_text b ++ concat pieces /\ tb_capacity b' = tb_capacity b.
Proof.
  induction pieces as [|p pieces IH]; cbn [append_all concat]; intros b b'.
  - intros [= <-]. by rewrite app_nil_r.
  - intros (b1 & [E1 C1]%builder_append_ok & [E2 C2]%IH)%bind_ok. rewrite E2, E1, C2, C1, <- app_assoc. done.
Qed.

Lemma append_all_fits pieces : forall b, zlen (tb_text b ++ concat pieces) <= tb_capacity b <= SIZE_MAX ->
  append_all b pieces = Ok {| tb_text := tb_text b ++ concat pieces; tb_capacity := tb_capacity b |}.
Proof.
  induction pieces as [|p pieces IH]; cbn [append_all concat]; intros b H.
  - rewrite app_nil_r. by destruct b.
  - assert (s3_text_builder_append b p = Ok {| tb_text := tb_text b ++ p; tb_capacity := tb_capacity b |}) as E.
    + unfold s3_text_builder_append. rewrite !zlen_app in H. pose proof (zlen_nonneg (concat pieces)).
      destruct (s3_checked_add _ _) as [n|] eqn:E.
      * apply checked_add_iff in E as [-> _]. split_if; [lia|done].
      * assert (s3_checked_add (zlen (tb_text b)) (zlen p) = Ok (zlen (tb_text b) + zlen p)); [|congruence].
        apply checked_add_iff. lia.
    + rewrite E. cbn. rewrite IH; cbn; rewrite <- app_assoc; done.
Qed.

(** What is built, and that a capacity of exactly the bytes is enough. *)
Lemma build_ok capacity pieces t : s3_build capacity pieces = Ok t -> t = concat pieces.
Proof.
  unfold s3_build, s3_text_builder_init. split_if; [done|]. split_if; [|done]. cbn.
  intros (b & [E _]%append_all_ok & [= <-])%bind_ok. done.
Qed.

Definition room (size : Z) : Prop := size < SIZE_MAX /\ malloc_ok (size + 1) = true.

Lemma build_exact pieces t : s3_build (zlen (concat pieces)) pieces = Ok t <->
  t = concat pieces /\ zlen (concat pieces) <> SIZE_MAX /\ malloc_ok (zlen (concat pieces) + 1) = true /\
  zlen (concat pieces) <= SIZE_MAX.
Proof.
  split.
  - intros H. pose proof (build_ok _ _ _ H) as ->. split; [done|]. revert H. unfold s3_build, s3_text_builder_init.
    split_if; [done|]. split_if; [|done]. cbn. intros (b & Hb & _)%bind_ok. split; [done|]. split; [done|].
    assert (forall l b b', append_all b l = Ok b' -> zlen (tb_text b) <= SIZE_MAX -> zlen (tb_text b') <= SIZE_MAX) as K.
    { clear. induction l as [|p l IH]; cbn [append_all]; intros b b'; [by intros [= <-]|].
      intros (b1 & E & E1)%bind_ok Hb. apply (IH _ _ E1). revert E. unfold s3_text_builder_append.
      destruct (s3_checked_add _ _) as [n|] eqn:E; [|done]. apply checked_add_iff in E as [-> ?]. split_if; [done|].
      intros [= <-]. cbn. rewrite zlen_app. done. }
    pose proof (append_all_ok _ _ _ Hb) as [E _]. cbn in E. rewrite <- E. apply (K _ _ _ Hb). by vm_compute.
  - intros (-> & H1 & H2 & H3). unfold s3_build, s3_text_builder_init. split_if; [lia|]. rewrite H2. cbn.
    rewrite append_all_fits; cbn; [done|lia].
Qed.

Lemma build_room pieces t : s3_build (zlen (concat pieces)) pieces = Ok t <->
  t = concat pieces /\ room (zlen (concat pieces)).
Proof. rewrite build_exact. unfold room. intuition lia. Qed.

(** ** The encoding of URIs *)

Definition uri_encoded (preserve_slash : bool) (input : list Z) : list Z :=
  concat (map (uri_encode_byte preserve_slash) input).

Lemma encode_byte_size slash c : zlen (uri_encode_byte slash c) = if uri_kept slash c then 1 else 3.
Proof. unfold uri_encode_byte. by split_if. Qed.

Lemma encoded_size_iff slash max input : forall size n, 0 <= size <= SIZE_MAX -> size <= max ->
  encoded_size_loop slash max size input = Ok n <->
  n = size + zlen (uri_encoded slash input) /\ n <= SIZE_MAX /\ n <= max.
Proof.
  unfold uri_encoded. induction input as [|c input IH]; cbn [encoded_size_loop map concat]; intros size n Hs Hm.
  - rewrite zlen_nil. split; [intros [= <-]; lia|]. intros (-> & _). f_equal. lia.
  - rewrite zlen_app, encode_byte_size. pose proof (zlen_nonneg (concat (map (uri_encode_byte slash) input))).
    set (k := if uri_kept slash c then 1 else 3). assert (1 <= k) by (unfold k; split_if; lia).
    destruct (s3_checked_add size k) as [m|] eqn:E.
    + apply checked_add_iff in E as [-> ?]. split_if; [split; [done|lia]|]. rewrite IH by lia. lia.
    + split; [done|]. intros H1. assert (s3_checked_add size k = Ok (size + k)); [|congruence]. apply checked_add_iff. lia.
Qed.

Lemma uri_encode_iff slash max input t : 0 <= max ->
  s3_uri_encode input slash max = Ok t <->
  max <> 0 /\ t = uri_encoded slash input /\ zlen (uri_encoded slash input) <= max /\
  room (zlen (uri_encoded slash input)).
Proof.
  intros Hm. unfold s3_uri_encode. split_if; [split; [done|lia]|]. split.
  - intros (n & En & B)%bind_ok. apply encoded_size_iff in En as (-> & H1 & H2); [|zlia|lia].
    replace (0 + zlen (uri_encoded slash input)) with (zlen (uri_encoded slash input)) in * by lia.
    apply build_room in B as [-> R]. done.
  - intros (_ & -> & H2 & [R1 R2]).
    assert (encoded_size_loop slash max 0 input = Ok (zlen (uri_encoded slash input))) as ->.
    { apply encoded_size_iff; zlia. }
    cbn. apply build_room. done.
Qed.

End Texts.

(** ** Order *)

Lemma strcmp_eq a : forall b, strcmp a b = Eq <-> a = b.
Proof.
  induction a as [|x a IH]; intros [|y b]; cbn; try (split; congruence).
  destruct (Z.compare_spec x y); [subst; rewrite IH|..]; split; congruence || (intros [=]; lia).
Qed.

Lemma strcmp_opp a : forall b, strcmp b a = CompOpp (strcmp a b).
Proof.
  induction a as [|x a IH]; intros [|y b]; cbn; try done. rewrite (Z.compare_antisym x y).
  destruct (x ?= y); cbn; auto.
Qed.

Lemma strcmp_trans a : forall b c, strcmp a b = Lt -> strcmp b c = Lt -> strcmp a c = Lt.
Proof.
  induction a as [|x a IH]; intros [|y b] [|z c]; cbn; try done.
  destruct (Z.compare_spec x y), (Z.compare_spec y z), (Z.compare_spec x z); subst; try done; try lia; eauto.
Qed.

(** An order given by a comparison. *)
Class Comparison {A} (compare : A -> A -> comparison) : Prop := {
  cmp_opp a b : compare b a = CompOpp (compare a b);
  cmp_trans a b c : compare a b <> Gt -> compare b c <> Gt -> compare a c <> Gt;
}.
Arguments cmp_opp {A} compare {_} a b.
Arguments cmp_trans {A} compare {_} a b c.

Section Sorted.
Context {A : Type} (compare : A -> A -> comparison) {lawful : Comparison compare}.

Instance not_after_total : Total (not_after compare).
Proof.
  intros a b. unfold not_after. rewrite (cmp_opp compare a b). destruct (compare a b); cbn; auto; try (by left); by right.
Qed.

Instance not_after_trans : Transitive (not_after compare).
Proof. intros a b c. unfold not_after. by apply (cmp_trans compare). Qed.

Lemma qsort_permutation l : qsort compare l ≡ₚ l.
Proof. apply merge_sort_Permutation. Qed.

Lemma qsort_sorted l : StronglySorted (not_after compare) (qsort compare l).
Proof. apply StronglySorted_merge_sort; apply _. Qed.

(** Sorting does not depend on the order in which the elements were given,
    where only equal elements compare equal. *)
Lemma qsort_stable l k : (forall a b, a ∈ l -> b ∈ l -> compare a b = Eq -> a = b) -> l ≡ₚ k ->
  qsort compare l = qsort compare k.
Proof.
  intros HE HP. apply (StronglySorted_unique_strong (not_after compare)).
  - intros a b Ha Hb Hab Hba. rewrite qsort_permutation in Ha. rewrite qsort_permutation, <- HP in Hb.
    apply HE; [done..|]. unfold not_after in *. rewrite (cmp_opp compare a b) in Hba. by destruct (compare a b).
  - apply qsort_sorted.
  - apply qsort_sorted.
  - by rewrite !qsort_permutation.
Qed.

End Sorted.

#[export] Instance strcmp_comparison : Comparison strcmp.
Proof.
  split; [intros; apply strcmp_opp|]. intros a b c H1 H2. destruct (strcmp a b) eqn:E1; [|destruct (strcmp b c) eqn:E2|done].
  - by apply strcmp_eq in E1 as ->.
  - apply strcmp_eq in E2 as <-. congruence.
  - by rewrite (strcmp_trans _ _ _ E1 E2).
  - done.
Qed.

Lemma query_compare_eq a b : s3_encoded_query_compare a b = Eq -> a = b.
Proof.
  unfold s3_encoded_query_compare. destruct (strcmp a.1 b.1) eqn:E; [|done..]. apply strcmp_eq in E.
  intros E'%strcmp_eq. destruct a, b; cbn in *; congruence.
Qed.

#[export] Instance query_comparison : Comparison s3_encoded_query_compare.
Proof.
  unfold s3_encoded_query_compare. split; intros [a a'] [b b'].
  - cbn. rewrite (strcmp_opp a b), (strcmp_opp a' b'). by destruct (strcmp a b).
  - intros [c c']. cbn. destruct (strcmp a b) eqn:E1; [|destruct (strcmp b c) eqn:E2|done]; [apply strcmp_eq in E1 as ->|..|done].
    + destruct (strcmp b c); [|done..]. apply (cmp_trans strcmp a' b' c').
    + apply strcmp_eq in E2 as ->. by rewrite E1.
    + by rewrite (strcmp_trans _ _ _ E1 E2).
Qed.

(** ** Canonical queries *)

Definition encode_parameter (q : list Z * list Z) : list Z * list Z := (uri_encoded false q.1, uri_encoded false q.2).

Definition parameter_text (q : list Z * list Z) : list Z := q.1 ++ 61 :: q.2.

(** Texts with a separator between them. *)
Fixpoint joined (separator : list Z) (texts : list (list Z)) : list Z :=
  match texts with
  | [] => []
  | [t] => t
  | t :: texts => t ++ separator ++ joined separator texts
  end.

Definition canonical_text (query : list (list Z * list Z)) : list Z :=
  joined [38] (map parameter_text (qsort s3_encoded_query_compare (map encode_parameter query))).

Lemma joined_cons separator t texts : texts <> [] ->
  joined separator (t :: texts) = t ++ separator ++ joined separator texts.
Proof. by destruct texts. Qed.

Lemma query_text encoded : concat (all_query_pieces encoded) = joined [38] (map parameter_text encoded).
Proof.
  assert (forall first q, concat (query_pieces first q) = (if first then [] else [38]) ++ parameter_text q) as E.
  { intros [|] q; unfold query_pieces, parameter_text; cbn; by rewrite app_nil_r. }
  destruct encoded as [|q encoded]; [done|]. unfold all_query_pieces. rewrite concat_app, E. cbn [app].
  revert q. induction encoded as [|p encoded IH]; intros q; [by cbn; rewrite app_nil_r|].
  rewrite map_cons, (map_cons parameter_text q), joined_cons by done.
  change (concat (query_pieces false p :: map (query_pieces false) encoded)) with
    (query_pieces false p ++ concat (map (query_pieces false) encoded)).
  rewrite concat_app, E, <- IH. done.
Qed.

(** The bytes of the parameters; [first] has no separator in front. *)
Fixpoint weight (first : bool) (query : list (list Z * list Z)) : Z :=
  match query with
  | [] => 0
  | q :: query => zlen (parameter_text q) + (if first then 0 else 1) + weight false query
  end.

Lemma weight_joined query : zlen (joined [38] (map parameter_text query)) = weight true query.
Proof.
  destruct query as [|q query]; [done|]. cbn [weight]. rewrite Z.add_0_r. revert q.
  induction query as [|p query IH]; intros q; [cbn; lia|].
  rewrite map_cons, joined_cons by done. rewrite !zlen_app, IH. cbn [weight]. rewrite zlen_cons, zlen_nil. lia.
Qed.

Lemma weight_app first a b : weight first (a ++ b) = weight first a + weight (match a with [] => first | _ => false end) b.
Proof. revert first. induction a as [|q a IH]; intros first; cbn; [lia|]. rewrite IH. destruct a; lia. Qed.

Lemma weight_permutation a b : a ≡ₚ b -> forall first, weight first a = weight first b.
Proof.
  assert (forall l, weight true l = weight false l - match l with [] => 0 | _ => 1 end) as T.
  { intros [|q l]; cbn; lia. }
  assert (forall a b, a ≡ₚ b -> weight false a = weight false b) as F.
  { induction 1; cbn; lia. }
  intros H [|]; [|auto]. rewrite !T, (F _ _ H). pose proof (Permutation_length H). by destruct a, b.
Qed.

Section Canonical.
Context {alloc : Allocator}.

Definition encodable (max : Z) (s : list Z) : Prop :=
  zlen (uri_encoded false s) <= max /\ room (zlen (uri_encoded false s)).

Definition parameter_ok (max : Z) (q : list Z * list Z) : Prop := q.1 <> [] /\ encodable max q.1 /\ encodable max q.2.

Lemma weight_nonneg first query : 0 <= weight first query.
Proof.
  revert first. induction query as [|q query IH]; intros first; cbn; [lia|].
  pose proof (zlen_nonneg (parameter_text q)). specialize (IH false). destruct first; lia.
Qed.

Lemma parameter_text_size q : zlen (parameter_text q) = zlen q.1 + 1 + zlen q.2.
Proof. unfold parameter_text. rewrite zlen_app, zlen_cons. lia. Qed.

Lemma encode_queries_iff max query : 0 < max -> forall first out r, 0 <= out <= SIZE_MAX ->
  encode_queries max first out query = Ok r <->
  r = (map encode_parameter query, out + weight first (map encode_parameter query)) /\
  Forall (parameter_ok max) query /\
  (query <> [] -> out + weight first (map encode_parameter query) <= Z.min max SIZE_MAX).
Proof.
  intros Hmax. induction query as [|[name value] query IH]; intros first out r Hout.
  { cbn. rewrite Z.add_0_r. split; [by intros [= <-]|]. by intros (-> & _). }
  cbn [encode_queries map weight]. set (q := encode_parameter (name, value)).
  pose proof (weight_nonneg false (map encode_parameter query)) as HW. rewrite parameter_text_size.
  assert (forall e n, add_all out ([zlen q.1; 1; zlen q.2] ++ (if first then [] else [1])) e = Ok n <->
    n = out + (zlen q.1 + 1 + zlen q.2 + if first then 0 else 1) /\ n <= SIZE_MAX) as HA.
  { intros e n. pose proof (zlen_nonneg q.1). pose proof (zlen_nonneg q.2).
    rewrite add_all_iff; [destruct first; cbn [sum app]; lia| |lia]. destruct first; repeat constructor; lia. }
  pose proof (zlen_nonneg q.1). pose proof (zlen_nonneg q.2).
  split_if.
  { split; [done|]. intros (_ & [(E & _) _]%Forall_cons & _). cbn in E. by apply zlen_0_inv in Heqb. }
  split.
  - intros (n & En & (v & Ev & (s & Es & K)%bind_ok)%bind_ok)%bind_ok.
    apply uri_encode_iff in En as (_ & -> & En1 & En2); [|lia]. apply uri_encode_iff in Ev as (_ & -> & Ev1 & Ev2); [|lia].
    apply HA in Es as [-> Hs]. split_if_in K; [done|]. apply bind_ok in K as ([rest final] & Er & [= <-]).
    apply IH in Er as ([= -> ->] & HF & Hrest); [|destruct first; lia]. split; [f_equal; symmetry; apply Z.add_assoc|].
    split.
    + constructor; [|done]. split; [|by split]. cbn. intros ->. by rewrite zlen_nil in *.
    + intros _. destruct query as [|q' query]; [cbn [map weight]; lia|]. specialize (Hrest ltac:(done)). lia.
  - intros (-> & [(Hn & En & Ev) HF]%Forall_cons & Hfit). specialize (Hfit ltac:(done)).
    assert (s3_uri_encode name false max = Ok (uri_encoded false name)) as ->.
    { apply uri_encode_iff; [lia|]. destruct En. repeat split; done || lia || apply H2. }
    assert (s3_uri_encode value false max = Ok (uri_encoded false value)) as ->.
    { apply uri_encode_iff; [lia|]. destruct Ev. repeat split; done || lia || apply H2. }
    cbn [mbind outcome_bind].
    change (zlen (uri_encoded false name)) with (zlen q.1). change (zlen (uri_encoded false value)) with (zlen q.2).
    assert (add_all out ([zlen q.1; 1; zlen q.2] ++ (if first then [] else [1])) SALTS_ERANGE =
      Ok (out + (zlen q.1 + 1 + zlen q.2 + if first then 0 else 1))) as ->.
    { apply HA. split; [done|]. lia. }
    cbn [mbind outcome_bind]. split_if; [lia|].
    assert (encode_queries max false (out + (zlen q.1 + 1 + zlen q.2 + (if first then 0 else 1))) query =
      Ok (map encode_parameter query, out + (zlen q.1 + 1 + zlen q.2 + (if first then 0 else 1)) +
            weight false (map encode_parameter query))) as ->.
    { apply IH; [destruct first; lia|]. split; [done|]. split; [done|]. lia. }
    cbn [mbind outcome_bind]. f_equal. f_equal. symmetry. apply Z.add_assoc.
Qed.

Lemma checked_multiply_iff a b c : 0 <= a -> 0 <= b ->
  s3_checked_multiply a b = Ok c <-> c = a * b /\ a * b <= SIZE_MAX.
Proof.
  intros Ha Hb. unfold s3_checked_multiply. destruct (Z.eqb_spec a 0) as [->|Hn]; cbn.
  { split; [intros [= <-]; zlia|]. by intros [-> _]. }
  assert (SIZE_MAX / a < b <-> SIZE_MAX < a * b) as HD.
  { split; intros H.
    - apply Z.nle_gt. intros H'. apply Z.lt_nge in H. apply H. apply Z.div_le_lower_bound; lia.
    - apply Z.div_lt_upper_bound; lia. }
  split_if; [split; [done|lia]|]. split; [intros [= <-]; lia|]. by intros [-> _].
Qed.

(** The queries that have a canonical form within the limits. *)
Record fits (query : list (list Z * list Z)) (max_count max_bytes : Z) : Prop := {
  fit_limits : max_count <> 0 /\ max_bytes <> 0;
  fit_count : zlen query <= max_count;
  fit_array : query <> [] -> zlen query * sizeof_encoded_query <= SIZE_MAX /\ malloc_ok (zlen query * sizeof_encoded_query) = true;
  fit_parameters : Forall (parameter_ok max_bytes) query;
  fit_bytes : weight true (map encode_parameter query) <= max_bytes;
  fit_room : room (weight true (map encode_parameter query));
}.

Lemma sorted_weight query :
  zlen (concat (all_query_pieces (qsort s3_encoded_query_compare (map encode_parameter query)))) =
  weight true (map encode_parameter query).
Proof. rewrite query_text, weight_joined. apply weight_permutation, qsort_permutation. Qed.

Lemma canonicalize_iff query max_count max_bytes t : 0 <= max_bytes ->
  s3_query_canonicalize query max_count max_bytes = Ok t <-> t = canonical_text query /\ fits query max_count max_bytes.
Proof.
  intros Hb. unfold s3_query_canonicalize. pose proof (zlen_nonneg query).
  destruct (_ || _) eqn:E0.
  { split; [done|]. intros [_ [[? ?] ]]. bool_prop. destruct E0; bool_prop; done. }
  bool_prop. split_if; [split; [done|intros [_ [] ]; lia]|].
  destruct (Z.eqb_spec (zlen query) 0) as [Hz|Hz].
  { apply zlen_0_inv in Hz as ->. destruct (malloc_ok 1) eqn:Em.
    - split; [intros [= <-]|by intros [-> _] ]. split; [done|]. split; try done.
    - split; [done|]. intros [_ [_ _ _ _ _ [_ R] ] ]. change (malloc_ok 1 = true) in R. congruence. }
  split.
  - intros (n & En & K)%bind_ok. apply checked_multiply_iff in En as [-> ?]; [|lia|by vm_compute].
    split_if_in K; [done|]. apply bind_ok in K as ([encoded size] & Ee & B).
    apply encode_queries_iff in Ee as ([= -> ->] & HF & Hs); [|lia|zlia].
    rewrite Z.add_0_l, <- sorted_weight in B. apply build_room in B as [-> R]. rewrite sorted_weight in R.
    split; [by rewrite query_text|]. rewrite Z.add_0_l in Hs.
    assert (query <> []) as Hq by (intros ->; done). specialize (Hs Hq). split; try done; lia.
  - intros [-> [_ _ HA HF HW HR] ]. assert (query <> []) as Hq by (intros ->; done). destruct (HA Hq) as [A1 A2].
    assert (s3_checked_multiply (zlen query) sizeof_encoded_query = Ok (zlen query * sizeof_encoded_query)) as ->.
    { apply checked_multiply_iff; [lia|by vm_compute|done]. }
    cbn [mbind outcome_bind]. rewrite A2. cbn [negb].
    assert (encode_queries max_bytes true 0 query =
      Ok (map encode_parameter query, 0 + weight true (map encode_parameter query))) as ->.
    { apply encode_queries_iff; [lia|zlia|]. split; [done|]. split; [done|]. destruct HR. lia. }
    cbn [mbind outcome_bind]. rewrite Z.add_0_l, <- sorted_weight. apply build_room. rewrite sorted_weight.
    by rewrite query_text.
Qed.

End Canonical.

(** ** Decoding *)

Definition encoded_char (c : Z) : bool := s3_uri_unreserved c || (c =? 37).

Lemma hex_upper_digit d : 0 <= d < 16 -> s3_uri_unreserved (hex_upper d) = true /\ hex_value (hex_upper d) = d.
Proof.
  intros Hd. assert (d ∈ map Z.of_nat (seq 0 16)) as H.
  { apply list_elem_of_fmap. exists (Z.to_nat d). split; [lia|]. apply elem_of_seq. lia. }
  revert d Hd H. cut (Forall (fun d => s3_uri_unreserved (hex_upper d) = true /\ hex_value (hex_upper d) = d)
    (map Z.of_nat (seq 0 16))); [rewrite Forall_forall; auto|]. repeat constructor.
Qed.

Lemma nibbles c : is_u8 c -> 0 <= Z.shiftr c 4 < 16 /\ 0 <= Z.land c 0x0f < 16 /\ 16 * Z.shiftr c 4 + Z.land c 0x0f = c.
Proof.
  intros H. change 0x0f with (2 ^ 4 - 1). rewrite Z.shiftr_div_pow2, (land_mask c 4) by lia. change (2 ^ 4) with 16.
  pose proof (Z.div_mod c 16 ltac:(lia)). pose proof (Z.mod_pos_bound c 16 ltac:(lia)). zlia.
Qed.

Lemma encoded_chars input : is_bytes input -> forallb encoded_char (uri_encoded false input) = true.
Proof.
  unfold uri_encoded. induction 1 as [|c input Hc H IH]; [done|]. cbn [map concat]. rewrite forallb_app, IH, andb_true_r.
  unfold uri_encode_byte, uri_kept. cbn [andb]. rewrite orb_false_r. destruct (s3_uri_unreserved c) eqn:E.
  - cbn. unfold encoded_char. by rewrite E.
  - destruct (nibbles c Hc) as (H1 & H2 & _). apply hex_upper_digit in H1 as [H1 _], H2 as [H2 _].
    cbn [forallb]. unfold encoded_char at 2 3. rewrite H1, H2. done.
Qed.

Lemma decode_kept c s : c <> 37 -> percent_decode (c :: s) = c :: percent_decode s.
Proof. intros H. cbn. destruct c as [|p|p]; try done. do 6 (destruct p as [p|p|]; try done). Qed.

Lemma percent_roundtrip slash input : is_bytes input -> percent_decode (uri_encoded slash input) = input.
Proof.
  unfold uri_encoded. induction 1 as [|c input Hc H IH]; [done|]. cbn [map concat]. unfold uri_encode_byte at 1.
  destruct (uri_kept slash c) eqn:E.
  - cbn [app]. rewrite decode_kept, IH; [done|]. intros ->. by destruct slash.
  - destruct (nibbles c Hc) as (H1 & H2 & H3). apply hex_upper_digit in H1 as [_ H1], H2 as [_ H2].
    cbn [app percent_decode]. rewrite H1, H2, H3, IH. done.
Qed.

Lemma avoid_encoded c input : encoded_char c = false -> is_bytes input ->
  forallb (fun x => negb (x =? c)) (uri_encoded false input) = true.
Proof.
  intros Hc H%encoded_chars. revert H. induction (uri_encoded false input) as [|x l IH]; [done|]. cbn.
  intros [Hx Hl]%andb_true_iff. rewrite IH by done. rewrite andb_true_r. apply negb_true_iff, Z.eqb_neq. congruence.
Qed.

Lemma cut_app c a b : forallb (fun x => negb (x =? c)) a = true -> cut c (a ++ c :: b) = (a, b).
Proof.
  induction a as [|x a IH]; cbn.
  - by rewrite Z.eqb_refl.
  - intros [Hx%negb_true_iff Ha]%andb_true_iff. by rewrite Hx, IH.
Qed.

Lemma split_joined c texts : texts <> [] -> Forall (fun t => forallb (fun x => negb (x =? c)) t = true) texts ->
  split_on c (joined [c] texts) = texts.
Proof.
  intros Hne H. induction H as [|t texts Ht H IH]; [done|]. destruct texts as [|u texts].
  - cbn [joined]. rewrite <- (app_nil_r t), (split_on_app c t []) by done. cbn. by rewrite !app_nil_r.
  - rewrite joined_cons by done. rewrite split_on_app by done.
    replace (split_on c ([c] ++ joined [c] (u :: texts))) with ([] :: split_on c (joined [c] (u :: texts)));
      [|by cbn [app split_on]; rewrite Z.eqb_refl]. rewrite IH by done. by rewrite app_nil_r.
Qed.

Definition byte_pair (q : list Z * list Z) : Prop := is_bytes q.1 /\ is_bytes q.2.

Lemma parameter_text_avoids c q : encoded_char c = false -> c <> 61 -> byte_pair q ->
  forallb (fun x => negb (x =? c)) (parameter_text (encode_parameter q)) = true.
Proof.
  intros Hc Hne [H1 H2]. unfold parameter_text. rewrite forallb_app. cbn [forallb encode_parameter fst snd].
  rewrite !avoid_encoded by done. rewrite andb_true_r. apply negb_true_iff, Z.eqb_neq. congruence.
Qed.

Lemma decode_parameter_text q : byte_pair q -> decode_parameter (parameter_text (encode_parameter q)) = q.
Proof.
  intros [H1 H2]. unfold decode_parameter, parameter_text. rewrite cut_app by by apply avoid_encoded.
  cbn. rewrite !percent_roundtrip by done. by destruct q.
Qed.

Lemma sorted_encoded query : exists sorted, sorted ≡ₚ query /\
  qsort s3_encoded_query_compare (map encode_parameter query) = map encode_parameter sorted.
Proof.
  destruct (Permutation_map_inv encode_parameter query (qsort_permutation s3_encoded_query_compare (map encode_parameter query)))
    as (sorted & E & HP).
  exists sorted. by split.
Qed.

Lemma decode_canonical query : Forall byte_pair query -> decode_query (canonical_text query) ≡ₚ query.
Proof.
  intros HB. unfold canonical_text. destruct (sorted_encoded query) as (sorted & HP & ->).
  rewrite <- HP in HB. destruct sorted as [|q sorted]; [by rewrite <- HP|].
  rewrite <- HP, map_map.
  unfold decode_query. destruct (joined _ _) eqn:E.
  { apply (f_equal zlen) in E. rewrite <- map_map, weight_joined in E. cbn [map weight] in E. rewrite parameter_text_size in E.
    match type of E with zlen ?a + 1 + zlen ?b + 0 + ?w = _ =>
      pose proof (zlen_nonneg a); pose proof (zlen_nonneg b); pose proof (weight_nonneg false (map encode_parameter sorted)) end.
    pose proof (@zlen_nil Z). lia. }
  rewrite <- E. rewrite split_joined.
  - rewrite map_map. replace (q :: sorted) with (map (fun x => x) (q :: sorted)) at 2 by apply map_id.
    apply reflexive_eq, map_ext_in. intros x Hx. apply decode_parameter_text. rewrite Forall_forall in HB. apply HB.
    by apply list_elem_of_In.
  - done.
  - apply Forall_map. apply (Forall_impl _ _ _ HB). intros x Hx. by apply parameter_text_avoids.
Qed.

Lemma canonical_permutation query query' : query ≡ₚ query' -> canonical_text query = canonical_text query'.
Proof.
  intros H. unfold canonical_text. do 2 f_equal. apply (qsort_stable s3_encoded_query_compare); [intros; by apply query_compare_eq|]. by rewrite H.
Qed.

Lemma fits_permutation `{alloc : Allocator} query query' max_count max_bytes : query ≡ₚ query' ->
  fits query max_count max_bytes -> fits query' max_count max_bytes.
Proof.
  intros HP [L C A P B R]. assert (map encode_parameter query ≡ₚ map encode_parameter query') as HM by by rewrite HP.
  assert (zlen query' = zlen query) as HL by (unfold zlen; by rewrite HP).
  assert (query' <> [] -> query <> []) as HN by (intros H ->; by apply H, zlen_0_inv).
  rewrite (weight_permutation _ _ HM) in B, R. split; rewrite ?HL; auto. by rewrite <- HP.
Qed.

(** ** Canonical queries, as a whole *)

Section Theorems.
Context {alloc : Allocator}.

(** Where a query has a canonical form, the form decodes to the parameters of the
    query, each with its name and value; every order of the parameters has this
    form, and no other query has it. *)
Theorem canonical_query_correct query max_count max_bytes t : 0 <= max_bytes -> Forall byte_pair query ->
  s3_query_canonicalize query max_count max_bytes = Ok t ->
  decode_query t ≡ₚ query /\
  (forall query', query ≡ₚ query' -> s3_query_canonicalize query' max_count max_bytes = Ok t) /\
  (forall query' max_count' max_bytes', 0 <= max_bytes' -> Forall byte_pair query' ->
    s3_query_canonicalize query' max_count' max_bytes' = Ok t -> query ≡ₚ query').
Proof.
  intros Hb HB H. apply canonicalize_iff in H as [-> F]; [|done]. split; [by apply decode_canonical|]. split.
  - intros query' HP. apply canonicalize_iff; [done|]. split; [by apply canonical_permutation|]. by apply (fits_permutation query).
  - intros query' mc mb Hb' HB' [E _]%canonicalize_iff; [|done]. by rewrite <- (decode_canonical query), E, decode_canonical.
Qed.

End Theorems.

Definition sample_query : list (list Z * list Z) :=
  [(bytes_of "prefix", bytes_of "photos/2024 & more"); (bytes_of "list-type", bytes_of "2"); (bytes_of "prefix", bytes_of "a=b")].

Definition sample_canonical : list Z := bytes_of "list-type=2&prefix=a%3Db&prefix=photos%2F2024%20%26%20more".

Lemma canonical_query_correct_witness :
  s3_query_canonicalize (alloc := unlimited_allocator) sample_query 64 8192 = Ok sample_canonical /\
  decode_query sample_canonical ≡ₚ sample_query.
Proof.
  assert (s3_query_canonicalize (alloc := unlimited_allocator) sample_query 64 8192 = Ok sample_canonical) as E by by vm_compute.
  split; [exact E|]. apply (canonical_query_correct (alloc := unlimited_allocator) sample_query 64 8192 sample_canonical).
  - lia.
  - unfold sample_query. repeat (apply Forall_cons_2; [split; apply bytes_of_bytes|]). apply Forall_nil_2.
  - exact E.
Defined.

End S3TextTheorems.
