(* ===== verification/S3SignerTheorems.v ===== *)
(** * Theorems on signatures of S3 requests

    What the signer makes of a request: the canonical headers, the canonical
    request and the signature; that a canonical request stands for one request;
    and that a service which knows the secret, and sees only what is sent,
    computes the same signature. *)

From stdpp Require Import sorting.
From S2P Require Import Prelude Decimal HpackBuffer Router Http1Parser S3Text S3Signer S3TextTheorems.

Module S3SignerTheorems.
Import Decimal HpackBuffer Router Http1Parser S3Text S3Signer S3TextTheorems.

(** ** Values *)

(** The parts of a value between blanks. *)
Fixpoint fields (s : list Z) : list (list Z) :=
  match s with
  | [] => [[]]
  | c :: s =>
    if is_ows c then [] :: fields s
    else match fields s with f :: fs => (c :: f) :: fs | [] => [[c]] end
  end.

Definition nonempty (w : list Z) : Prop := w <> [].

#[export] Instance nonempty_dec w : Decision (nonempty w).
Proof. unfold nonempty. apply _. Defined.

Definition words (s : list Z) : list (list Z) := filter nonempty (fields s).

(** A value without blanks around it and with one space for any blanks in it. *)
Definition collapsed (s : list Z) : list Z := joined [SPACE] (words s).

Lemma fields_cons s : exists f fs, fields s = f :: fs.
Proof. destruct s as [|c s]; cbn; [eauto|]. destruct (is_ows c); [eauto|]. destruct (fields s); eauto. Qed.

Lemma fields_snoc s c : is_ows c = true -> fields (s ++ [c]) = fields s ++ [[]].
Proof.
  intros Hc. induction s as [|x s IH]; cbn; [by rewrite Hc|]. rewrite IH. destruct (is_ows x); [done|].
  by destruct (fields_cons s) as (f & fs & ->).
Qed.

Lemma words_drop s : words (drop_ows s) = words s.
Proof.
  induction s as [|c s IH]; [done|]. cbn [drop_ows]. destruct (is_ows c) eqn:E; [|done]. rewrite IH.
  unfold words. cbn [fields]. by rewrite E, filter_cons_False by by intros [].
Qed.

Lemma words_drop_end s : words (reverse (drop_ows (reverse s))) = words s.
Proof.
  induction s as [|c s IH] using rev_ind; [done|]. rewrite reverse_snoc. cbn [drop_ows].
  destruct (is_ows c) eqn:E.
  - rewrite IH. unfold words. rewrite fields_snoc by done. rewrite filter_app. by rewrite app_nil_r.
  - by rewrite reverse_cons, reverse_involutive.
Qed.

Lemma words_trim s : words (chttp_server_trim_ows s) = words s.
Proof. unfold chttp_server_trim_ows. by rewrite words_drop_end, words_drop. Qed.

(** What the loop adds to a text. *)
Definition continued (text : list Z) (in_whitespace : bool) (value : list Z) : list Z :=
  let separated l := match filter nonempty l with
                     | [] => []
                     | ws => (if bool_decide (text = []) then [] else [SPACE]) ++ joined [SPACE] ws
                     end in
  match fields value with
  | f :: fs => if in_whitespace || bool_decide (text = []) then separated (f :: fs)
               else f ++ match filter nonempty fs with [] => [] | ws => SPACE :: joined [SPACE] ws end
  | [] => []
  end.

Lemma continued_more text c value : text <> [] -> is_ows c = false ->
  c :: continued (text ++ [c]) false value = continued text false (c :: value).
Proof.
  intros Ht Hc. unfold continued. cbn [fields]. rewrite Hc. destruct (fields_cons value) as (f & fs & ->).
  rewrite !bool_decide_eq_false_2 by (done || by destruct text). done.
Qed.

Lemma continued_start text c value ws : ws || bool_decide (text = []) = true -> is_ows c = false ->
  (if bool_decide (text = []) then [] else [SPACE]) ++ c :: continued (text ++ (if bool_decide (text = []) then [] else [SPACE]) ++ [c]) false value =
  continued text ws (c :: value).
Proof.
  intros Ht Hc. unfold continued. cbn [fields]. rewrite Hc. destruct (fields_cons value) as (f & fs & ->). rewrite Ht.
  rewrite (bool_decide_eq_false_2 (text ++ _ = [])) by (by destruct text, (bool_decide _)). cbn [orb].
  rewrite filter_cons_True by done. f_equal. destruct (filter nonempty fs) as [|w ws']; [cbn; by rewrite app_nil_r|]. done.
Qed.

Section Values.
Context {alloc : Allocator}.

Lemma value_loop_ok value : forall b ws b', value_loop b ws value = Ok b' ->
  tb_text b' = tb_text b ++ continued (tb_text b) ws value.
Proof.
  induction value as [|c value IH]; intros b ws b'; cbn [value_loop].
  { intros [= <-]. unfold continued. cbn [fields]. destruct (ws || _); cbn; by rewrite app_nil_r. }
  split_if; [done|]. change ((c =? SPACE) || (c =? TAB)) with (is_ows c). destruct (is_ows c) eqn:Hc.
  - intros ->%IH. f_equal. unfold continued. cbn [fields]. rewrite Hc. destruct (fields_cons value) as (f & fs & ->).
    cbn [orb]. rewrite (filter_cons_False nonempty [] (f :: fs)) by by intros []. destruct (bool_decide (tb_text b = [])) eqn:E.
    + by rewrite orb_true_r.
    + rewrite orb_false_r. destruct ws; [done|]. destruct (filter nonempty (f :: fs)); done.
  - intros (b1 & E1 & (b2 & [E2 _]%builder_append_ok & ->%IH)%bind_ok)%bind_ok. rewrite E2.
    assert ((zlen (tb_text b) =? 0) = bool_decide (tb_text b = [])) as HZ.
    { destruct (tb_text b); [done|]. rewrite zlen_cons. pose proof (zlen_nonneg l). rewrite bool_decide_eq_false_2 by done. lia. }
    rewrite HZ in E1. destruct (ws || bool_decide (tb_text b = [])) eqn:Hs.
    + rewrite <- (continued_start (tb_text b) c value ws) by done.
      assert (tb_text b1 = tb_text b ++ (if bool_decide (tb_text b = []) then [] else [SPACE])) as ->.
      { destruct (bool_decide (tb_text b = [])); [rewrite andb_false_r in E1|].
        - injection E1 as ->. by rewrite app_nil_r.
        - rewrite orb_false_r in Hs. rewrite Hs in E1. cbn in E1. by apply builder_append_ok in E1 as [-> _]. }
      rewrite <- !app_assoc. done.
    + apply orb_false_iff in Hs as [-> Hs]. cbn in E1. injection E1 as ->. apply bool_decide_eq_false_1 in Hs.
      rewrite <- continued_more, <- app_assoc by done. done.
Qed.

(** Values are trimmed and their blanks collapsed. *)
Lemma value_normalize_ok value t : s3_header_value_normalize value = Ok t -> t = collapsed value.
Proof.
  unfold s3_header_value_normalize. intros (b & Hb & (b' & K & [= <-])%bind_ok)%bind_ok.
  apply value_loop_ok in K. revert Hb. unfold s3_text_builder_init. split_if; [done|]. split_if; [|done]. intros [= <-].
  cbn in K. rewrite K. unfold continued. rewrite bool_decide_eq_true_2, orb_true_r by done. unfold collapsed.
  rewrite <- words_trim. unfold words. destruct (fields_cons (chttp_server_trim_ows value)) as (f & fs & ->).
  by destruct (filter nonempty (f :: fs)).
Qed.

End Values.

(** ** Headers *)

Definition avoids (c : Z) (s : list Z) : Prop := forallb (fun x => negb (x =? c)) s = true.

Lemma avoids_app c a b : avoids c (a ++ b) <-> avoids c a /\ avoids c b.
Proof. unfold avoids. by rewrite forallb_app, andb_true_iff. Qed.

(** A test that fails on a byte keeps it out. *)
Lemma avoids_test (f : Z -> bool) c s : forallb f s = true -> f c = false -> avoids c s.
Proof.
  unfold avoids. rewrite !forallb_forall. intros H Hc x Hx%H. apply negb_true_iff, Z.eqb_neq. congruence.
Qed.

Definition header_name (name : list Z) : Prop := name <> [] /\ forallb s3_header_name_byte name = true.

Definition normal_header (h : list Z * list Z) : list Z * list Z := (map ascii_lower h.1, collapsed h.2).

Definition header_line (h : list Z * list Z) : list Z := h.1 ++ 58 :: h.2 ++ [LF].

Lemma name_byte_lower c : s3_header_name_byte c = true -> s3_header_name_byte (ascii_lower c) = true.
Proof.
  intros H. assert (c ∈ map Z.of_nat (seq 0 128)) as Hc.
  { apply list_elem_of_fmap. exists (Z.to_nat c). unfold s3_header_name_byte in H. bool_prop. split; [lia|].
    apply elem_of_seq. lia. }
  revert c Hc H. cut (forallb (fun c => implb (s3_header_name_byte c) (s3_header_name_byte (ascii_lower c)))
    (map Z.of_nat (seq 0 128)) = true); [|by vm_compute].
  rewrite forallb_forall. intros H c Hc E. apply list_elem_of_In, H in Hc. by rewrite E in Hc.
Qed.

Lemma joined_concat c n names : joined [c] (n :: names) = n ++ concat (map (cons c) names).
Proof.
  revert n. induction names as [|m names IH]; intros n; [by cbn; rewrite app_nil_r|].
  rewrite joined_cons by done. rewrite IH. done.
Qed.

Section Headers.
Context {alloc : Allocator}.

Lemma name_normalize_ok name t : s3_header_name_normalize name = Ok t -> t = map ascii_lower name /\ header_name t.
Proof.
  unfold s3_header_name_normalize. split_if; [done|]. unfold tstr_dup. split_if; [|done]. cbn. split_if; [|done].
  intros [= <-]. split; [done|]. split; [by destruct name|]. rewrite forallb_forall in *. intros x Hx.
  apply in_map_iff in Hx as (y & <- & Hy). by apply name_byte_lower, Heqb1.
Qed.

Lemma value_loop_lf value : forall b ws b', value_loop b ws value = Ok b' -> avoids LF (tb_text b) -> avoids LF (tb_text b').
Proof.
  induction value as [|c value IH]; intros b ws b'; cbn [value_loop]; [by intros [= <-]|].
  split_if; [done|]. split_if; [eauto|]. intros (b1 & E1 & (b2 & [E2 _]%builder_append_ok & K)%bind_ok)%bind_ok Hb.
  apply (IH _ _ _ K). rewrite E2. apply avoids_app. split; [|unfold avoids; cbn; rewrite (proj2 (Z.eqb_neq c LF)); done].
  split_if_in E1; [apply builder_append_ok in E1 as [-> _]; apply avoids_app; by split|]. by injection E1 as <-.
Qed.

Lemma value_normalize_lf value t : s3_header_value_normalize value = Ok t -> avoids LF t.
Proof.
  unfold s3_header_value_normalize. intros (b & Hb & (b' & K & [= <-])%bind_ok)%bind_ok. apply (value_loop_lf _ _ _ _ K).
  revert Hb. unfold s3_text_builder_init. split_if; [done|]. split_if; [|done]. by intros [= <-].
Qed.

Definition plain_header (h : list Z * list Z) : Prop :=
  header_name h.1 /\ s3_header_forbidden h.1 = false /\ avoids LF h.2.

Lemma normalize_headers_ok headers : forall hs, normalize_headers headers = Ok hs ->
  hs = map normal_header headers /\ Forall plain_header hs.
Proof.
  induction headers as [|[name value] headers IH]; intros hs; cbn [normalize_headers]; [by intros [= <-]|].
  intros (n & [-> Hn]%name_normalize_ok & K)%bind_ok. split_if_in K; [done|].
  apply bind_ok in K as (v & Hv & (rest & [-> HF]%IH & [= <-])%bind_ok). split.
  - cbn. unfold normal_header at 2. cbn. by rewrite (value_normalize_ok _ _ Hv).
  - constructor; [|done]. split; [done|]. split; [done|]. by apply value_normalize_lf in Hv.
Qed.

(** Sorted headers of which no two neighbours have the same name. *)
Lemma check_headers_after max hs : StronglySorted (not_after s3_header_compare) hs -> forall previous aggregate,
  check_headers max (Some previous) aggregate hs = Ok tt ->
  Forall (fun h => strcmp previous h.1 <> Gt) hs -> Forall (fun h => strcmp previous h.1 = Lt) hs /\ NoDup (map fst hs).
Proof.
  induction 1 as [|[n v] hs HS IH HF]; intros previous aggregate; cbn [check_headers map].
  { intros _ _. split; constructor. }
  split_if; [done|]. intros (a & _ & K)%bind_ok [Hp Hps]%Forall_cons. split_if_in K; [done|].
  destruct (IH _ _ K HF) as [HL HD]. assert (strcmp previous n = Lt) as Hlt.
  { cbn in Hp. destruct (strcmp previous n) eqn:E; [|done..]. apply strcmp_eq in E as ->. by rewrite bytes_eqb_refl in Heqb. }
  split.
  - constructor; [done|]. apply (Forall_impl _ _ _ HL). intros h Hh. by apply (strcmp_trans _ n).
  - constructor; [|done]. intros (h & E & Hh)%list_elem_of_fmap. rewrite Forall_forall in HL. apply HL in Hh.
    cbn in E. rewrite <- E, (proj2 (strcmp_eq n n)) in Hh; done.
Qed.

Lemma check_headers_nodup max hs : StronglySorted (not_after s3_header_compare) hs ->
  check_headers max None 0 hs = Ok tt -> NoDup (map fst hs).
Proof.
  destruct hs as [|[n v] hs]; [constructor|]. cbn [check_headers map]. intros [HS HF]%StronglySorted_inv.
  intros (a & _ & K)%bind_ok. split_if_in K; [done|].
  destruct (check_headers_after _ _ HS _ _ K) as [HL HD]; [done|]. constructor; [|done].
  intros (h & E & Hh)%list_elem_of_fmap. rewrite Forall_forall in HL. apply HL in Hh. cbn in E.
  by rewrite <- E, (proj2 (strcmp_eq n n)) in Hh.
Qed.

#[export] Instance header_comparison : Comparison s3_header_compare.
Proof. unfold s3_header_compare. split; intros; [apply strcmp_opp|]. eapply (cmp_trans strcmp); eauto. Qed.

Lemma headers_normalize_ok request max_count max_bytes hs : s3_headers_normalize request max_count max_bytes = Ok hs ->
  hs = qsort s3_header_compare (map normal_header (sr_headers request) ++ added_headers request) /\
  NoDup (map fst hs) /\ Forall plain_header (map normal_header (sr_headers request)).
Proof.
  unfold s3_headers_normalize. intros (n & _ & (m & _ & K)%bind_ok)%bind_ok. split_if_in K; [done|].
  apply bind_ok in K as (size & _ & K). split_if_in K; [done|].
  apply bind_ok in K as (headers & [-> HP]%normalize_headers_ok & (added & Ha & ([] & Hc & [= <-])%bind_ok)%bind_ok).
  unfold dup_headers in Ha. split_if_in Ha; [|done]. injection Ha as <-.
  split; [done|]. split; [|done]. apply (check_headers_nodup _ _ (qsort_sorted s3_header_compare _) Hc).
Qed.

Lemma fill_headers_ok hs : forall first signed canonical signed' canonical',
  fill_headers first signed canonical hs = Ok (signed', canonical') ->
  tb_text signed' = tb_text signed ++ (if first then joined [59] (map fst hs) else concat (map (cons 59) (map fst hs))) /\
  tb_text canonical' = tb_text canonical ++ concat (map header_line hs).
Proof.
  induction hs as [|[n v] hs IH]; intros first signed canonical signed' canonical'; cbn [fill_headers].
  { intros [= <- <-]. destruct first; cbn; by rewrite !app_nil_r. }
  intros (s1 & [E1 _]%append_all_ok & (c1 & [E2 _]%append_all_ok & [-> ->]%IH)%bind_ok)%bind_ok.
  rewrite E1, E2. cbn [map fst]. rewrite joined_concat. split.
  - destruct first; cbn [app concat map]; rewrite ?app_nil_r, <- !app_assoc; done.
  - cbn [concat map]. unfold header_line at 2. cbn [fst snd]. cbn. rewrite <- !app_assoc. cbn. by rewrite <- app_assoc.
Qed.

Lemma build_headers_ok hs max signed canonical : s3_build_canonical_headers hs max = Ok (signed, canonical) ->
  signed = joined [59] (map fst hs) /\ canonical = concat (map header_line hs).
Proof.
  unfold s3_build_canonical_headers. intros ([n m] & _ & (s & Hs & (c & Hc & ([s' c'] & K & [= <- <-])%bind_ok)%bind_ok)%bind_ok)%bind_ok.
  apply fill_headers_ok in K as [-> ->]. revert Hs Hc. unfold s3_text_builder_init.
  split_if; [done|]. split_if; [|done]. intros [= <-]. split_if; [done|]. split_if; [|done]. by intros [= <-].
Qed.

End Headers.

(** ** What is signed *)

Definition canonical_request (method uri query : list Z) (hs : list (list Z * list Z)) (payload : list Z) : list Z :=
  method ++ LF :: uri ++ LF :: query ++ LF :: concat (map header_line hs) ++ LF :: joined [59] (map fst hs) ++ LF :: payload.

Definition scope_text (date region : list Z) : list Z := ztake 8 date ++ 47 :: region ++ bytes_of "/s3/aws4_request".

Definition string_to_sign (date region hash : list Z) : list Z :=
  SIGNING_ALGORITHM ++ date ++ LF :: scope_text date region ++ LF :: hash.

Section Signed.
Context {alloc : Allocator} {sha256 : Sha256}.

(** The key for a day and a region, and the signature it gives a text. *)
Definition signature_of (secret date region text : list Z) : outcome (list Z) :=
  date_key ← cmeta_hmac_sha256 (bytes_of "AWS4" ++ secret) (ztake 8 date);
  region_key ← cmeta_hmac_sha256 date_key region;
  service_key ← cmeta_hmac_sha256 region_key (bytes_of "s3");
  signing_key ← cmeta_hmac_sha256 service_key (bytes_of "aws4_request");
  raw ← cmeta_hmac_sha256 signing_key text;
  Ok (s3_hex_lower raw).

(** The signature of a canonical request. *)
Definition request_signature (secret date region canonical : list Z) : outcome (list Z) :=
  hash ← s3_signer_sha256_hex canonical; signature_of secret date region (string_to_sign date region hash).

Definition signer_max_target (request : s3_signer_request) : Z :=
  or_default (sr_max_target_bytes request) S3_SIGNER_DEFAULT_MAX_TARGET_BYTES.

(** The result of signing a request with the headers [hs] in canonical form. *)
Record signed_as (request : s3_signer_request) (s : s3_signer_result) (hs : list (list Z * list Z)) : Prop := {
  sa_valid : s3_signer_request_validate request (signer_max_target request) = Ok tt;
  sa_headers : hs = qsort s3_header_compare (map normal_header (sr_headers request) ++ added_headers request);
  sa_nodup : NoDup (map fst hs);
  sa_plain : Forall plain_header (map normal_header (sr_headers request));
  sa_names : sg_signed_headers s = joined [59] (map fst hs);
  sa_query : s3_query_canonicalize (sr_query request) (or_default (sr_max_query_count request) S3_SIGNER_DEFAULT_MAX_QUERY_COUNT)
               (signer_max_target request) = Ok (sg_canonical_query s);
  sa_request : sg_canonical_request s =
    canonical_request (sr_method request) (sr_canonical_uri request) (sg_canonical_query s) hs (sr_payload_sha256 request);
  sa_signature : request_signature (sr_secret_key request) (sr_amz_date request) (sr_region request) (sg_canonical_request s) =
    Ok (sg_signature s);
  sa_authorization : sg_authorization s =
    ALGORITHM_CREDENTIAL ++ sr_access_key request ++ 47 :: scope_text (sr_amz_date request) (sr_region request) ++
    SIGNED_PREFIX ++ sg_signed_headers s ++ SIGNATURE_PREFIX ++ sg_signature s;
}.

Lemma build_request_ok request query hs max t :
  s3_build_canonical_request request query (concat (map header_line hs)) (joined [59] (map fst hs)) max = Ok t ->
  t = canonical_request (sr_method request) (sr_canonical_uri request) query hs (sr_payload_sha256 request).
Proof.
  unfold s3_build_canonical_request. intros (n & _ & K)%bind_ok. split_if_in K; [done|]. apply build_ok in K as ->.
  unfold canonical_request. cbn. by rewrite app_nil_r.
Qed.

Lemma build_scope_ok request t : s3_build_scope request = Ok t -> t = scope_text (sr_amz_date request) (sr_region request).
Proof. intros ->%build_ok. unfold scope_text. cbn [concat]. by rewrite app_nil_r. Qed.

Lemma build_string_ok request hash t :
  s3_build_string_to_sign request (scope_text (sr_amz_date request) (sr_region request)) hash = Ok t ->
  t = string_to_sign (sr_amz_date request) (sr_region request) hash.
Proof. intros ->%build_ok. unfold string_to_sign. cbn [concat]. by rewrite app_nil_r. Qed.

Lemma tstr_dup_ok s t : tstr_dup s = Ok t -> t = s.
Proof. unfold tstr_dup. split_if; [|done]. by intros [= <-]. Qed.

Lemma sign_spec request s : s3_signer_sign request = Ok s -> exists hs, signed_as request s hs.
Proof.
  unfold s3_signer_sign. intros ([] & Hv & (limit & _ & ([ [signed canonical] query] & Hp & K)%bind_ok)%bind_ok)%bind_ok.
  apply bind_ok in Hp as (hs & (Ehs & HD & HF)%headers_normalize_ok & ([names lines] & [-> ->]%build_headers_ok & (q & Hq & [= <- <- <-])%bind_ok)%bind_ok).
  exists hs. apply bind_ok in K as (creq & ->%build_request_ok & (hash & Hh & (scope & ->%build_scope_ok & K)%bind_ok)%bind_ok).
  apply bind_ok in K as (sts & ->%build_string_ok & (sig & Hs & (sig' & ->%tstr_dup_ok & (auth & ->%build_ok & [= <-])%bind_ok)%bind_ok)%bind_ok).
  split; cbn [sg_signed_headers sg_canonical_query sg_canonical_request sg_signature sg_authorization]; try done.
  - unfold request_signature. rewrite Hh. exact Hs.
  - cbn [concat]. by rewrite app_nil_r.
Qed.

End Signed.

(** ** One canonical request, one request *)

Lemma avoids_cut c a a' b b' : avoids c a -> avoids c a' -> a ++ c :: b = a' ++ c :: b' -> a = a' /\ b = b'.
Proof. intros H H' E. apply (f_equal (cut c)) in E. rewrite !cut_app in E by done. by injection E. Qed.

(** A header whose line can be read back. *)
Definition line_header (h : list Z * list Z) : Prop := header_name h.1 /\ avoids LF h.2.

Lemma name_avoids c name : s3_header_name_byte c = false -> header_name name -> avoids c name.
Proof. intros Hc [_ H]. by apply (avoids_test s3_header_name_byte). Qed.

Lemma header_lines_inj hs hs' rest rest' : Forall line_header hs -> Forall line_header hs' ->
  concat (map header_line hs) ++ LF :: rest = concat (map header_line hs') ++ LF :: rest' -> hs = hs' /\ rest = rest'.
Proof.
  assert (forall h l r, line_header h -> LF :: r <> header_line h ++ l) as Hne.
  { intros [n v] l r [ [Hn H] _] E. cbn in *. destruct n as [|c n]; [done|]. cbn in E. injection E as <- _. done. }
  intros H. revert hs'. induction H as [|[n v] hs [Hn Hv] H IH]; intros hs' H' E; destruct H' as [|[n' v'] hs' [Hn' Hv'] H'].
  - by injection E.
  - cbn [map concat] in E. rewrite <- app_assoc in E. by apply Hne in E.
  - cbn [map concat] in E. rewrite <- app_assoc in E. symmetry in E. by apply Hne in E.
  - cbn [map concat] in E. unfold header_line at 1 3 in E. rewrite <- !app_assoc in E. cbn [fst snd app] in *. rewrite <- !app_assoc in E.
    apply avoids_cut in E as [-> E]; [|by apply name_avoids..]. apply avoids_cut in E as [-> E]; [|done..].
    apply IH in E as [-> ->]; done.
Qed.

Lemma canonical_request_inj m m' u u' q q' hs hs' p p' :
  avoids LF m -> avoids LF m' -> avoids LF u -> avoids LF u' -> avoids LF q -> avoids LF q' ->
  Forall line_header hs -> Forall line_header hs' ->
  canonical_request m u q hs p = canonical_request m' u' q' hs' p' -> m = m' /\ u = u' /\ q = q' /\ hs = hs' /\ p = p'.
Proof.
  intros Hm Hm' Hu Hu' Hq Hq' H H' E. unfold canonical_request in E.
  apply avoids_cut in E as [-> E]; [|done..]. apply avoids_cut in E as [-> E]; [|done..].
  apply avoids_cut in E as [-> E]; [|done..]. apply header_lines_inj in E as [-> E]; [|done..].
  apply app_inv_head in E. by injection E as ->.
Qed.

(** A session token without a line feed. *)
Definition plain_token (token : option (list Z)) : Prop := match token with Some t => avoids LF t | None => True end.

Section Valid.
Context {alloc : Allocator} {sha256 : Sha256}.

Record valid_request (request : s3_signer_request) : Prop := {
  vr_method : forallb (fun c => (65 <=? c) && (c <=? 90)) (sr_method request) = true;
  vr_uri : uri_control (sr_canonical_uri request) = false;
  vr_query_mark : contains 63 (sr_canonical_uri request) = false;
  vr_hash : s3_signer_hash_valid (sr_payload_sha256 request) = true;
  vr_date : s3_signer_date_valid (sr_amz_date request) = true;
}.

Lemma validate_ok request max : s3_signer_request_validate request max = Ok tt -> valid_request request.
Proof.
  unfold s3_signer_request_validate, guard_err. split_if; [done|]. intros _. split; try done.
  - unfold s3_signer_method_valid in *. bool_prop. done.
  - unfold uri_invalid in *. by bool_prop.
Qed.

Lemma hash_bytes hash : s3_signer_hash_valid hash = true -> forallb (fun c => digit c || ((97 <=? c) && (c <=? 102))) hash = true.
Proof. unfold s3_signer_hash_valid. by intros [_ H]%andb_true_iff. Qed.

(** A date has digits, but for its two letters. *)
Definition date_byte (c : Z) : bool := digit c || (c =? 84) || (c =? 90).

Lemma date_bytes date : s3_signer_date_valid date = true -> zlen date = 16 /\ forallb date_byte date = true.
Proof.
  unfold s3_signer_date_valid. intros H. bool_prop. split; [done|]. apply forallb_forall. intros x Hx.
  apply list_elem_of_In, list_elem_of_lookup in Hx as (i & Hi). pose proof (lookup_lt_Some _ _ _ Hi).
  rewrite forallb_forall in H0. unfold zlen, S3_SIGNER_AMZ_DATE_SIZE in *.
  specialize (H0 (Z.of_nat i)). unfold zth in *. rewrite Nat2Z.id in H0.
  rewrite (nth_lookup_Some _ _ 0 _ Hi) in H0. specialize (H0 ltac:(apply in_map, in_seq; lia)).
  unfold date_byte. apply orb_true_iff in H0 as [H0|H0]; [|by rewrite H0]. apply orb_true_iff in H0 as [H0|H0]; bool_prop.
  - assert (x = 84) as ->; [|done]. rewrite <- H2. replace (Z.to_nat 8) with i by lia. by rewrite (nth_lookup_Some _ _ 0 _ Hi).
  - assert (x = 90) as ->; [|done]. rewrite <- H1. replace (Z.to_nat 15) with i by lia. by rewrite (nth_lookup_Some _ _ 0 _ Hi).
Qed.

Lemma avoids_existsb (f : Z -> bool) c s : existsb f s = false -> f c = true -> avoids c s.
Proof.
  intros H Hc. apply (avoids_test (fun x => negb (f x))); [|by rewrite Hc]. clear Hc c. induction s as [|x s IH]; [done|].
  cbn in *. bool_prop. rewrite H, IH by done. done.
Qed.

Lemma added_line_headers request : valid_request request -> plain_token (sr_session_token request) ->
  Forall line_header (added_headers request).
Proof.
  intros [_ _ _ Hh Hd] Ht. unfold added_headers. apply Forall_app. split.
  - repeat apply Forall_cons_2; [..|constructor]; (split; [split; [done|by vm_compute]|]).
    + by apply (avoids_test _ LF _ (hash_bytes _ Hh)).
    + by apply (avoids_test _ LF _ (proj2 (date_bytes _ Hd))).
  - destruct (sr_session_token request) as [t|]; [|constructor]. split_if; constructor; [|constructor].
    split; [split; [done|by vm_compute]|done].
Qed.

Lemma canonical_text_avoids c query : encoded_char c = false -> c <> 61 -> c <> 38 -> Forall byte_pair query ->
  avoids c (canonical_text query).
Proof.
  intros Hc H1 H2 HB. unfold canonical_text. destruct (sorted_encoded query) as (sorted & HP & ->). rewrite <- HP in HB.
  clear HP query. induction HB as [|q sorted Hq HB IH]; [done|]. destruct sorted as [|p sorted].
  - cbn [map joined]. by apply parameter_text_avoids.
  - cbn [map] in *. rewrite joined_cons by done. apply avoids_app. split; [by apply parameter_text_avoids|].
    apply avoids_app. split; [|exact IH]. unfold avoids. cbn [forallb]. by rewrite (proj2 (Z.eqb_neq 38 c)).
Qed.

Lemma signed_line_headers request s hs : signed_as request s hs -> plain_token (sr_session_token request) ->
  Forall line_header hs.
Proof.
  intros SA Ht. rewrite (sa_headers _ _ _ SA), qsort_permutation. apply Forall_app. split.
  - apply (Forall_impl _ _ _ (sa_plain _ _ _ SA)). by intros h (Hn & _ & Hv).
  - apply added_line_headers; [|done]. eapply validate_ok, sa_valid, SA.
Qed.

Lemma signed_query_text request s hs : signed_as request s hs -> 0 <= sr_max_target_bytes request ->
  sg_canonical_query s = canonical_text (sr_query request).
Proof.
  intros SA Hb. pose proof (sa_query _ _ _ SA) as Hq. apply canonicalize_iff in Hq as [-> _]; [done|].
  unfold signer_max_target, or_default. split_if; [done|]. by vm_compute.
Qed.

(** C11: The canonical request that is hashed and signed stands for one request:
    two requests with the same one have the same method, path and payload hash,
    the same query parameters, and the same headers, that is up to the case of
    names and the blanks of values; the date and the session token, which holds no
    line feed, are among the headers. *)
Theorem canonical_request_binds request request' s s' :
  0 <= sr_max_target_bytes request -> 0 <= sr_max_target_bytes request' ->
  Forall byte_pair (sr_query request) -> Forall byte_pair (sr_query request') ->
  plain_token (sr_session_token request) -> plain_token (sr_session_token request') ->
  s3_signer_sign request = Ok s -> s3_signer_sign request' = Ok s' -> sg_canonical_request s = sg_canonical_request s' ->
  sr_method request = sr_method request' /\ sr_canonical_uri request = sr_canonical_uri request' /\
  sr_query request ≡ₚ sr_query request' /\
  map normal_header (sr_headers request) ++ added_headers request ≡ₚ
    map normal_header (sr_headers request') ++ added_headers request' /\
  sr_payload_sha256 request = sr_payload_sha256 request'.
Proof.
  intros Hb Hb' HB HB' Ht Ht' (hs & SA)%sign_spec (hs' & SA')%sign_spec E.
  rewrite (sa_request _ _ _ SA), (sa_request _ _ _ SA') in E.
  rewrite (signed_query_text _ _ _ SA), (signed_query_text _ _ _ SA') in E by done.
  pose proof (validate_ok _ _ (sa_valid _ _ _ SA)) as V. pose proof (validate_ok _ _ (sa_valid _ _ _ SA')) as V'.
  apply canonical_request_inj in E as (-> & -> & Hq & Hh & ->).
  - split; [done|]. split; [done|]. split.
    + by rewrite <- (decode_canonical (sr_query request)), Hq, decode_canonical.
    + split; [|done]. rewrite <- (qsort_permutation s3_header_compare), <- (sa_headers _ _ _ SA), Hh, (sa_headers _ _ _ SA').
      apply qsort_permutation.
  - by apply (avoids_test _ _ _ (vr_method _ V)).
  - by apply (avoids_test _ _ _ (vr_method _ V')).
  - by apply (avoids_existsb _ _ _ (vr_uri _ V)).
  - by apply (avoids_existsb _ _ _ (vr_uri _ V')).
  - by apply canonical_text_avoids.
  - by apply canonical_text_avoids.
  - by apply (signed_line_headers _ _ _ SA).
  - by apply (signed_line_headers _ _ _ SA').
Qed.

End Valid.

End S3SignerTheorems.
