(* ===== verification/S3Verify.v ===== *)
(** * What an S3 service verifies

    A reference verifier of AWS Signature Version 4: it has the secrets, sees
    the request line, the headers and the body that arrive, and computes the
    signature again from them.  The theorems say that it accepts the requests
    and the presigned URLs that the client plans. *)

From stdpp Require Import sorting sets.
From S2P Require Import Prelude Decimal HpackBuffer Router Http1Parser S3Text S3Signer S3Request S3TextTheorems S3SignerTheorems.

Module S3Verify.
Import Decimal HpackBuffer Router Http1Parser S3Text S3Signer S3Request S3TextTheorems S3SignerTheorems.

(** ** The verifier *)

Record wire_request := {
  w_method : list Z;
  w_target : list Z;
  w_headers : list (list Z * list Z);
  w_body : list Z;
}.

Definition of_outcome {A} (o : outcome A) : option A := match o with Ok a => Some a | Err _ => None end.

Definition strip_prefix (prefix s : list Z) : option (list Z) :=
  if bytes_eqb (ztake (zlen prefix) s) prefix then Some (zdrop (zlen prefix) s) else None.

Fixpoint lookup_header (name : list Z) (headers : list (list Z * list Z)) : option (list Z) :=
  match headers with
  | [] => None
  | h :: headers => if bytes_eqb (map ascii_lower h.1) name then Some h.2 else lookup_header name headers
  end.

(** The parts of [key/day/region/service/aws4_request]. *)
Definition parse_credential (credential : list Z) : option (list Z * list Z * list Z) :=
  match split_on 47 credential with
  | [key; day; region; service; last] =>
    if bytes_eqb service (bytes_of "s3") && bytes_eqb last (bytes_of "aws4_request") then Some (key, day, region) else None
  | _ => None
  end.

(** The credential, the names of the signed headers and the signature. *)
Definition parse_authorization (authorization : list Z) : option (list Z * list Z * list Z) :=
  rest ← strip_prefix (bytes_of "AWS4-HMAC-SHA256 ") authorization;
  match split_on 44 rest with
  | [a; b; c] =>
    credential ← strip_prefix (bytes_of "Credential=") a;
    names ← strip_prefix (bytes_of "SignedHeaders=") b;
    signature ← strip_prefix (bytes_of "Signature=") c;
    Some (credential, names, signature)
  | _ => None
  end.

Section Verifier.
Context {sha256 : Sha256} (secrets : list Z -> option (list Z)) (service_region : list Z).

(** The headers of the given names in canonical form. *)
Definition signed_values (headers : list (list Z * list Z)) (names : list (list Z)) : option (list (list Z * list Z)) :=
  values ← mapM (fun name => lookup_header name headers) names;
  Some (zip names (map collapsed values)).

(** Every header is signed but the signature. *)
Definition all_signed (headers : list (list Z * list Z)) (names : list (list Z)) : bool :=
  forallb (fun h => bytes_eqb (map ascii_lower h.1) (bytes_of "authorization") ||
                    existsb (bytes_eqb (map ascii_lower h.1)) names) headers.

Definition verify_request (r : wire_request) : option bool :=
  authorization ← lookup_header (bytes_of "authorization") (w_headers r);
  '(credential, signed, signature) ← parse_authorization authorization;
  '(key, day, region) ← parse_credential credential;
  secret ← secrets key;
  date ← lookup_header (bytes_of "x-amz-date") (w_headers r);
  payload ← lookup_header (bytes_of "x-amz-content-sha256") (w_headers r);
  let names := split_on 59 signed in
  hs ← signed_values (w_headers r) names;
  hash ← of_outcome (s3_signer_sha256_hex (w_body r));
  let '(path, query) := cut 63 (w_target r) in
  let canonical := canonical_request (w_method r) path (canonical_text (decode_query query)) hs payload in
  expected ← of_outcome (request_signature secret date service_region canonical);
  Some (bytes_eqb region service_region && bytes_eqb day (ztake 8 date) && bytes_eqb payload hash &&
        all_signed (w_headers r) names && bytes_eqb signature expected).

Fixpoint lookup_parameter (name : list Z) (query : list (list Z * list Z)) : option (list Z) :=
  match query with
  | [] => None
  | q :: query => if bytes_eqb q.1 name then Some q.2 else lookup_parameter name query
  end.

(** A request with its signature in the query; the body is not signed. *)
Definition verify_presigned (r : wire_request) : option bool :=
  let '(path, query) := cut 63 (w_target r) in
  let parameters := decode_query query in
  algorithm ← lookup_parameter (bytes_of "X-Amz-Algorithm") parameters;
  credential ← lookup_parameter (bytes_of "X-Amz-Credential") parameters;
  date ← lookup_parameter (bytes_of "X-Amz-Date") parameters;
  expires ← lookup_parameter (bytes_of "X-Amz-Expires") parameters;
  signed ← lookup_parameter (bytes_of "X-Amz-SignedHeaders") parameters;
  signature ← lookup_parameter (bytes_of "X-Amz-Signature") parameters;
  '(key, day, region) ← parse_credential credential;
  secret ← secrets key;
  let names := split_on 59 signed in
  hs ← signed_values (w_headers r) names;
  let unsigned := filter (fun q => q.1 <> bytes_of "X-Amz-Signature") parameters in
  let canonical := canonical_request (w_method r) path (canonical_text unsigned) hs (bytes_of "UNSIGNED-PAYLOAD") in
  expected ← of_outcome (request_signature secret date service_region canonical);
  Some (bytes_eqb algorithm (bytes_of "AWS4-HMAC-SHA256") && bytes_eqb region service_region &&
        bytes_eqb day (ztake 8 date) && (1 <=? number expires) && (number expires <=? 604800) &&
        all_signed (w_headers r) names && bytes_eqb signature expected).

End Verifier.

(** ** Parsing *)

Lemma strip_app prefix s : strip_prefix prefix (prefix ++ s) = Some s.
Proof. unfold strip_prefix. by rewrite ztake_app, zdrop_app, bytes_eqb_refl. Qed.

Definition credential_text (key date region : list Z) : list Z := key ++ 47 :: scope_text date region.

Lemma parse_credential_text key date region : avoids 47 key -> avoids 47 (ztake 8 date) -> avoids 47 region ->
  parse_credential (credential_text key date region) = Some (key, ztake 8 date, region).
Proof.
  intros H1 H2 H3. unfold parse_credential.
  assert (credential_text key date region =
    joined [47] [key; ztake 8 date; region; bytes_of "s3"; bytes_of "aws4_request"]) as ->.
  { unfold credential_text, scope_text. done. }
  rewrite split_joined; [|done|repeat apply Forall_cons_2; done || constructor]. done.
Qed.

Lemma parse_authorization_text credential names signature : avoids 44 credential -> avoids 44 names -> avoids 44 signature ->
  parse_authorization (ALGORITHM_CREDENTIAL ++ credential ++ SIGNED_PREFIX ++ names ++ SIGNATURE_PREFIX ++ signature) =
  Some (credential, names, signature).
Proof.
  intros H1 H2 H3. unfold parse_authorization.
  change ALGORITHM_CREDENTIAL with (bytes_of "AWS4-HMAC-SHA256 " ++ bytes_of "Credential=").
  rewrite <- app_assoc, strip_app. cbn [mbind option_bind].
  assert (bytes_of "Credential=" ++ credential ++ SIGNED_PREFIX ++ names ++ SIGNATURE_PREFIX ++ signature =
    joined [44] [bytes_of "Credential=" ++ credential; bytes_of "SignedHeaders=" ++ names; bytes_of "Signature=" ++ signature]) as ->.
  { change SIGNED_PREFIX with (44 :: bytes_of "SignedHeaders="). change SIGNATURE_PREFIX with (44 :: bytes_of "Signature=").
    cbn [joined]. rewrite <- !app_assoc. done. }
  rewrite split_joined; [|done|].
  - rewrite !strip_app. done.
  - repeat apply Forall_cons_2; [..|constructor]; (apply avoids_app; split; [by vm_compute|done]).
Qed.

Lemma cut_none c s : avoids c s -> cut c s = (s, []).
Proof.
  unfold avoids. induction s as [|x s IH]; [done|]. cbn [forallb cut]. intros [Hx%negb_true_iff H]%andb_true_iff.
  by rewrite Hx, IH.
Qed.

(** ** Headers that arrive *)

Lemma lookup_unique headers h : NoDup (map (fun h => map ascii_lower h.1) headers) -> h ∈ headers ->
  lookup_header (map ascii_lower h.1) headers = Some h.2.
Proof.
  induction headers as [|g headers IH]; [by intros _ ?%elem_of_nil|]. cbn [map lookup_header].
  intros [Hg HD]%NoDup_cons [->|Hh]%elem_of_cons; [by rewrite bytes_eqb_refl|].
  destruct (bytes_eqb _ _) eqn:E; [|by apply IH]. apply bytes_eqb_eq in E. destruct Hg. rewrite E.
  apply list_elem_of_fmap. by exists h.
Qed.

Lemma signed_values_found headers hs : NoDup (map (fun h => map ascii_lower h.1) headers) ->
  Forall (fun x => exists h, h ∈ headers /\ normal_header h = x) hs -> signed_values headers (map fst hs) = Some hs.
Proof.
  intros HD H. unfold signed_values.
  assert (exists values, mapM (fun name => lookup_header name headers) (map fst hs) = Some values /\
    zip (map fst hs) (map collapsed values) = hs) as (values & -> & E); [|cbn; by f_equal].
  induction H as [|x hs (h & Hh & <-) H IH]; [by exists []|]. destruct IH as (values & Hv & E).
  exists (h.2 :: values). cbn [map mapM normal_header fst]. rewrite lookup_unique by done. cbn. rewrite Hv. cbn.
  split; [done|]. by rewrite E.
Qed.

Lemma collapsed_id s : forallb (fun c => negb (is_ows c)) s = true -> collapsed s = s.
Proof.
  intros H. assert (fields s = [s]) as E.
  { revert H. induction s as [|c s IH]; [done|]. cbn [forallb fields]. intros [Hc%negb_true_iff Hs]%andb_true_iff.
    by rewrite Hc, IH. }
  unfold collapsed, words. rewrite E. by destruct s.
Qed.

(** ** Planned requests *)

(** A digest with a key is a sequence of bytes. *)
Class LawfulSha256 {sha256 : Sha256} : Prop :=
  hmac_bytes : forall key data digest, cmeta_hmac_sha256 key data = Ok digest -> is_bytes digest.

(** The key has no separators of the header it goes into and the token no blanks. *)
Record clean_credentials (credentials : s3_credentials) : Prop := {
  cl_comma : avoids 44 (cr_access_key credentials);
  cl_slash : avoids 47 (cr_access_key credentials);
  cl_token : forall token, cr_session_token credentials = Some token -> forallb (fun c => negb (is_ows c)) token = true;
}.

Definition wire (plan : s3_request_plan) (body : list Z) : wire_request :=
  {| w_method := s3_method_map (pl_method plan); w_target := pl_target plan;
     w_headers := (bytes_of "Host", pl_authority plan) :: pl_headers plan; w_body := body |}.

Lemma hex_lower_digit d : 0 <= d < 16 -> (digit (hex_lower d) || ((97 <=? hex_lower d) && (hex_lower d <=? 102))) = true.
Proof. intros Hd. unfold hex_lower, digit. split_if; apply orb_true_iff; [left|right]; apply andb_true_iff; lia. Qed.

Lemma hex_lower_chars raw : is_bytes raw ->
  forallb (fun c => digit c || ((97 <=? c) && (c <=? 102))) (s3_hex_lower raw) = true.
Proof.
  unfold s3_hex_lower. induction 1 as [|c raw Hc H IH]; [done|]. cbn [map concat app forallb]. rewrite IH.
  destruct (nibbles c Hc) as (H1 & H2 & _). by rewrite !hex_lower_digit.
Qed.

Section Planned.
Context {alloc : Allocator} {sha256 : Sha256} {lawful : LawfulSha256}.

Lemma signature_avoids secret date region canonical signature : request_signature secret date region canonical = Ok signature ->
  avoids 44 signature.
Proof.
  unfold request_signature, signature_of.
  intros (hash & _ & (k1 & _ & (k2 & _ & (k3 & _ & (k4 & _ & (raw & Hr & [= <-])%bind_ok)%bind_ok)%bind_ok)%bind_ok)%bind_ok)%bind_ok.
  by apply (avoids_test _ _ _ (hex_lower_chars raw (hmac_bytes _ _ _ Hr))).
Qed.

(** The bytes that are sent have the digest that is signed. *)
Definition sent_body (options : s3_request_options) (body : list Z) : Prop :=
  if rq_body_source options then s3_signer_sha256_hex body = Ok (default [] (rq_payload_sha256 options))
  else body = default [] (rq_body options).

Definition target_text (uri query : list Z) : list Z := uri ++ match query with [] => [] | _ => 63 :: query end.

Record planned (client : s3_client_config) (options : s3_request_options) (credentials : s3_credentials)
    (plan : s3_request_plan) (request : s3_signer_request) (signing : s3_signer_result) : Prop := {
  pn_request : request = plan_signer_request client options credentials (pl_authority plan) (pl_canonical_uri plan)
    (pl_payload_sha256 plan) (pl_amz_date plan);
  pn_signed : s3_signer_sign request = Ok signing;
  pn_method : pl_method plan = rq_method options;
  pn_target : pl_target plan = target_text (pl_canonical_uri plan) (sg_canonical_query signing);
  pn_hash : request_payload_hash options = Ok (pl_payload_sha256 plan);
  pn_headers : pl_headers plan =
    transport_list options credentials (sg_authorization signing) (pl_payload_sha256 plan) (pl_amz_date plan);
}.

Lemma request_target_ok client uri query t : s3_request_target client uri query = Ok t -> t = target_text uri query.
Proof.
  unfold s3_request_target. intros (n & _ & K)%bind_ok. split_if_in K; [done|]. apply build_ok in K as ->.
  unfold target_text. destruct query as [|c query].
  - cbn. by rewrite !app_nil_r.
  - destruct (Z.eqb_spec (zlen (c :: query)) 0) as [E|E]; [by apply zlen_0_inv in E|]. cbn. by rewrite app_nil_r.
Qed.

Lemma transport_headers_ok client options credentials signing hash date headers :
  s3_request_transport_headers client options credentials signing hash date = Ok headers ->
  headers = transport_list options credentials (sg_authorization signing) hash date.
Proof.
  unfold s3_request_transport_headers. intros (n & _ & K)%bind_ok. split_if_in K; [done|]. split_if_in K; [done|].
  apply bind_ok in K as (hs & Hd & ([] & _ & [= <-])%bind_ok). unfold dup_headers in Hd. split_if_in Hd; [|done]. by injection Hd.
Qed.

Lemma plan_spec client options clock credentials plan :
  s3_request_plan_build client options clock (Ok credentials) = Ok plan ->
  s3_request_options_validate client options = Ok tt /\
  exists request signing, planned client options credentials plan request signing.
Proof.
  unfold s3_request_plan_build.
  intros ([] & Hv & (authority & _ & (uri & _ & (date & _ & (hash & Hh & (n & _ & K)%bind_ok)%bind_ok)%bind_ok)%bind_ok)%bind_ok)%bind_ok.
  split; [done|].
  apply bind_ok in K as (_ & _ & (_ & _ & (c & [= <-] & (signing & Hs & (target & Ht & (headers & Hd & [= <-])%bind_ok)%bind_ok)%bind_ok)%bind_ok)%bind_ok).
  eexists _, signing. split; cbn; try done; [by apply request_target_ok in Ht|by apply transport_headers_ok in Hd].
Qed.

(** The names of the headers that arrive. *)
Definition lower_names (headers : list (list Z * list Z)) : list (list Z) := map (fun h => map ascii_lower h.1) headers.

Lemma token_headers (token : option (list Z)) :
  match token with Some t => if negb (zlen t =? 0) then [(bytes_of "x-amz-security-token", t)] else [] | None => [] end =
  map (fun h => (map ascii_lower h.1, h.2))
    match token with Some t => if negb (zlen t =? 0) then [(bytes_of "X-Amz-Security-Token", t)] else [] | None => [] end.
Proof. destruct token as [t|]; [|done]. by destruct (zlen t =? 0). Qed.

Lemma wire_names client options credentials plan request signing hs body :
  planned client options credentials plan request signing -> signed_as request signing hs ->
  lower_names (w_headers (wire plan body)) ≡ₚ bytes_of "authorization" :: map fst hs.
Proof.
  intros PN SA. rewrite (sa_headers _ _ _ SA), qsort_permutation, (pn_request _ _ _ _ _ _ PN). cbn [w_headers wire].
  rewrite (pn_headers _ _ _ _ _ _ PN). unfold transport_list, added_headers, lower_names. cbn [sr_session_token plan_signer_request sr_headers sr_payload_sha256 sr_amz_date].
  rewrite token_headers, !map_app, !map_map. cbn [map app fst]. rewrite map_app, <- app_assoc. cbn [map app fst snd normal_header].
  change (map ascii_lower (bytes_of "Host")) with (bytes_of "host").
  change (map ascii_lower (bytes_of "Authorization")) with (bytes_of "authorization").
  change (map ascii_lower (bytes_of "X-Amz-Date")) with (bytes_of "x-amz-date").
  change (map ascii_lower (bytes_of "X-Amz-Content-Sha256")) with (bytes_of "x-amz-content-sha256").
  solve_Permutation.
Qed.

Lemma authorization_unsigned request signing hs : signed_as request signing hs -> bytes_of "authorization" ∉ map fst hs.
Proof.
  intros SA. rewrite (sa_headers _ _ _ SA), qsort_permutation, map_app. intros [H|H]%elem_of_app.
  - apply list_elem_of_fmap in H as (h & E & Hh). pose proof (sa_plain _ _ _ SA) as HF. rewrite Forall_forall in HF.
    destruct (HF _ Hh) as (_ & Hf & _). by rewrite <- E in Hf.
  - unfold added_headers in H. rewrite map_app in H. apply elem_of_app in H as [H|H].
    + cbn [map fst] in H. by apply elem_of_cons in H as [H|[H|H%elem_of_nil]%elem_of_cons].
    + destruct (sr_session_token request) as [t|]; [|by apply elem_of_nil in H]. destruct (negb _); [|by apply elem_of_nil in H].
      cbn [map fst] in H. by apply elem_of_cons in H as [H|H%elem_of_nil].
Qed.

Lemma not_ows (f : Z -> bool) s : f SPACE = false -> f TAB = false -> forallb f s = true ->
  forallb (fun c => negb (is_ows c)) s = true.
Proof.
  intros H1 H2. rewrite !forallb_forall. intros H c Hc%H. apply negb_true_iff. unfold is_ows.
  apply orb_false_iff. split; apply Z.eqb_neq; congruence.
Qed.

Lemma wire_headers_found client options credentials plan request signing hs body :
  planned client options credentials plan request signing -> signed_as request signing hs -> clean_credentials credentials ->
  Forall (fun x => exists h, h ∈ w_headers (wire plan body) /\ normal_header h = x) hs.
Proof.
  intros PN SA CL. pose proof (validate_ok _ _ (sa_valid _ _ _ SA)) as V.
  rewrite (sa_headers _ _ _ SA), qsort_permutation. cbn [w_headers wire]. rewrite (pn_headers _ _ _ _ _ _ PN).
  pose proof (vr_hash _ V) as Hh. pose proof (vr_date _ V) as Hd. rewrite (pn_request _ _ _ _ _ _ PN) in *.
  cbn [sr_payload_sha256 sr_amz_date plan_signer_request sr_headers] in *.
  apply Forall_forall. intros x [Hx|Hx]%elem_of_app.
  - apply list_elem_of_fmap in Hx as (h & -> & Hx). exists h. split; [|done]. unfold transport_list. apply elem_of_cons.
    apply elem_of_app in Hx as [Hx|Hx%list_elem_of_singleton]; [right; apply elem_of_app; by left|by left].
  - unfold added_headers in Hx. cbn [sr_payload_sha256 sr_amz_date sr_session_token plan_signer_request] in Hx.
    apply elem_of_app in Hx as [Hx|Hx].
    + apply elem_of_cons in Hx as [->|[->|[]%elem_of_nil]%elem_of_cons].
      * exists (bytes_of "X-Amz-Content-Sha256", pl_payload_sha256 plan). split; [unfold transport_list; set_solver|].
        unfold normal_header. cbn [fst snd]. f_equal. apply collapsed_id. by apply (not_ows _ _ eq_refl eq_refl (hash_bytes _ Hh)).
      * exists (bytes_of "X-Amz-Date", pl_amz_date plan). split; [unfold transport_list; set_solver|].
        unfold normal_header. cbn [fst snd]. f_equal. apply collapsed_id. by apply (not_ows date_byte _ eq_refl eq_refl (proj2 (date_bytes _ Hd))).
    + unfold transport_list. pose proof (cl_token _ CL) as HT. destruct (cr_session_token credentials) as [t|]; [|by apply elem_of_nil in Hx].
      destruct (negb (zlen t =? 0)); [|by apply elem_of_nil in Hx]. apply elem_of_cons in Hx as [->|[]%elem_of_nil].
      exists (bytes_of "X-Amz-Security-Token", t). split; [set_solver|]. unfold normal_header. cbn [fst snd]. f_equal.
      by apply collapsed_id, HT.
Qed.

(** What the verifier needs of the headers that arrive. *)
Lemma wire_headers client options credentials plan request signing hs body :
  planned client options credentials plan request signing -> signed_as request signing hs -> clean_credentials credentials ->
  let headers := w_headers (wire plan body) in
  NoDup (lower_names headers) /\ signed_values headers (map fst hs) = Some hs /\ all_signed headers (map fst hs) = true.
Proof.
  intros PN SA CL headers. pose proof (wire_names _ _ _ _ _ _ _ body PN SA) as HP. fold headers in HP.
  assert (NoDup (lower_names headers)) as HD.
  { rewrite HP. constructor; [by apply (authorization_unsigned _ _ _ SA)|]. by apply (sa_nodup _ _ _ SA). }
  split; [done|]. split; [apply signed_values_found; [done|by apply (wire_headers_found _ _ _ _ _ _ _ body PN SA)]|].
  unfold all_signed. apply forallb_forall. intros h Hh. apply orb_true_iff.
  assert (map ascii_lower h.1 ∈ bytes_of "authorization" :: map fst hs) as [E|E]%elem_of_cons.
  { rewrite <- HP. apply list_elem_of_fmap. exists h. split; [done|]. by apply list_elem_of_In. }
  - left. by apply bytes_eqb_eq.
  - right. apply existsb_exists. exists (map ascii_lower h.1). split; [by apply list_elem_of_In|]. apply bytes_eqb_refl.
Qed.

Lemma lookup_wire headers name value name' : NoDup (lower_names headers) -> (name, value) ∈ headers ->
  map ascii_lower name = name' -> lookup_header name' headers = Some value.
Proof. intros HD Hh <-. by apply (lookup_unique headers (name, value)). Qed.

Lemma region_bytes config client : s3_client_base_init config = Ok client -> forallb region_byte (cc_region client) = true.
Proof.
  unfold s3_client_base_init. destruct (s3_client_config_normalize config) as [n|] eqn:E; [|done]. split_if; [|done].
  intros [= <-]. apply bind_ok in E as (? & _ & (? & _ & (? & H & (? & _ & [= <-])%bind_ok)%bind_ok)%bind_ok).
  unfold guard_err in H. by split_if_in H.
Qed.

Lemma target_cut uri query : avoids 63 uri -> cut 63 (target_text uri query) = (uri, query).
Proof.
  intros H. unfold target_text. destruct query as [|c query]; [rewrite app_nil_r; by apply cut_none|]. by apply cut_app.
Qed.

Lemma split_names request signing hs : signed_as request signing hs -> split_on 59 (sg_signed_headers signing) = map fst hs.
Proof.
  intros SA. rewrite (sa_names _ _ _ SA). apply split_joined.
  - intros E%map_eq_nil. pose proof (sa_headers _ _ _ SA) as Hs. rewrite E in Hs.
    pose proof (qsort_permutation s3_header_compare (map normal_header (sr_headers request) ++ added_headers request)) as HP.
    rewrite <- Hs in HP. apply Permutation_nil_l in HP. unfold added_headers in HP. by destruct (map normal_header _).
  - rewrite (sa_headers _ _ _ SA). apply Forall_map. rewrite qsort_permutation. apply Forall_app. split.
    + apply (Forall_impl _ _ _ (sa_plain _ _ _ SA)). intros h (Hn & _). by apply name_avoids.
    + unfold added_headers. apply Forall_app. split; [repeat apply Forall_cons_2; by vm_compute || constructor|].
      destruct (sr_session_token request) as [t|]; [|constructor]. destruct (negb _); [|constructor].
      apply Forall_cons_2; [by vm_compute|constructor].
Qed.

Lemma authorization_parts config client request signing hs key : s3_client_base_init config = Ok client ->
  signed_as request signing hs -> sr_region request = cc_region client -> sr_access_key request = key ->
  avoids 44 key -> avoids 47 key ->
  parse_authorization (sg_authorization signing) =
    Some (credential_text key (sr_amz_date request) (sr_region request), sg_signed_headers signing, sg_signature signing) /\
  parse_credential (credential_text key (sr_amz_date request) (sr_region request)) =
    Some (key, ztake 8 (sr_amz_date request), sr_region request).
Proof.
  intros HC SA Hr Hk H1 H2. pose proof (region_bytes _ _ HC) as HR. rewrite <- Hr in HR.
  assert (forall c, date_byte c = false -> avoids c (ztake 8 (sr_amz_date request))) as HD.
  { intros c Hc. pose proof (vr_date _ (validate_ok _ _ (sa_valid _ _ _ SA))) as [_ HB]%date_bytes.
    rewrite <- (ztake_zdrop 8 (sr_amz_date request)), forallb_app in HB. apply andb_true_iff in HB as [HB _].
    by apply (avoids_test _ _ _ HB). }
  split.
  - rewrite (sa_authorization _ _ _ SA), Hk.
    replace (key ++ 47 :: scope_text (sr_amz_date request) (sr_region request) ++ SIGNED_PREFIX ++ sg_signed_headers signing ++
        SIGNATURE_PREFIX ++ sg_signature signing)
      with (credential_text key (sr_amz_date request) (sr_region request) ++ SIGNED_PREFIX ++ sg_signed_headers signing ++
        SIGNATURE_PREFIX ++ sg_signature signing) by (unfold credential_text; by rewrite <- app_assoc).
    apply parse_authorization_text.
    + unfold credential_text, scope_text. apply avoids_app. split; [done|].
      change (avoids 44 (ztake 8 (sr_amz_date request) ++ 47 :: sr_region request ++ bytes_of "/s3/aws4_request")).
      apply avoids_app. split; [by apply HD|]. change (avoids 44 (sr_region request ++ bytes_of "/s3/aws4_request")).
      apply avoids_app. split; [by apply (avoids_test _ _ _ HR)|by vm_compute].
    + rewrite (sa_names _ _ _ SA). pose proof (split_names _ _ _ SA) as HS.
      assert (Forall (avoids 44) (map fst hs)) as HF.
      { rewrite (sa_headers _ _ _ SA). apply Forall_map. rewrite qsort_permutation. apply Forall_app. split.
        - apply (Forall_impl _ _ _ (sa_plain _ _ _ SA)). intros h (Hn & _). by apply name_avoids.
        - unfold added_headers. apply Forall_app. split; [repeat apply Forall_cons_2; by vm_compute || constructor|].
          destruct (sr_session_token request) as [t|]; [|constructor]. destruct (negb _); [|constructor].
          apply Forall_cons_2; [by vm_compute|constructor]. }
      clear HS. induction HF as [|n names Hn HF IH]; [done|]. rewrite joined_concat. apply avoids_app. split; [done|].
      clear IH Hn. induction HF as [|m names Hm HF IH]; [done|]. cbn [map concat]. apply avoids_app. split; [|done].
      unfold avoids. cbn [forallb]. by rewrite Hm.
    + by apply (signature_avoids _ _ _ _ _ (sa_signature _ _ _ SA)).
  - apply parse_credential_text; [done|by apply HD|by apply (avoids_test _ _ _ HR)].
Qed.

Lemma query_canonical request signing hs : signed_as request signing hs -> 0 <= sr_max_target_bytes request ->
  Forall byte_pair (sr_query request) ->
  canonical_text (decode_query (sg_canonical_query signing)) = sg_canonical_query signing.
Proof.
  intros SA Hb HB. rewrite (signed_query_text _ _ _ SA Hb). by apply canonical_permutation, decode_canonical.
Qed.

(** C9: A service with the secret of the credentials accepts every request that
    the client plans with an access key that holds no comma or slash and a session
    token without blanks: from the method, the target, the planned headers and the
    body, as they arrive, it computes the signature in the Authorization header,
    finds every header signed and the body with the digest that was signed. *)
Theorem planned_request_verifies config client options clock credentials plan body secrets :
  s3_client_base_init config = Ok client -> 0 <= cc_max_target_bytes client ->
  Forall byte_pair (rq_query options) -> clean_credentials credentials -> sent_body options body ->
  secrets (cr_access_key credentials) = Some (cr_secret_key credentials) ->
  s3_request_plan_build client options clock (Ok credentials) = Ok plan ->
  verify_request secrets (cc_region client) (wire plan body) = Some true.
Proof.
  intros HC Hb HB CL Hbody Hsec (Hv & request & signing & PN)%plan_spec.
  destruct (sign_spec _ _ (pn_signed _ _ _ _ _ _ PN)) as (hs & SA).
  destruct (wire_headers _ _ _ _ _ _ _ body PN SA CL) as (HD & HV & HA).
  pose proof (validate_ok _ _ (sa_valid _ _ _ SA)) as V.
  assert (request = plan_signer_request client options credentials (pl_authority plan) (pl_canonical_uri plan)
    (pl_payload_sha256 plan) (pl_amz_date plan)) as Hreq by apply PN.
  destruct (authorization_parts config client request signing hs (cr_access_key credentials)) as [HP1 HP2];
    [done|done|by rewrite Hreq|by rewrite Hreq|apply CL|apply CL|].
  assert (canonical_text (decode_query (sg_canonical_query signing)) = sg_canonical_query signing) as HQ.
  { apply (query_canonical _ _ _ SA); by rewrite Hreq. }
  pose proof (pn_headers _ _ _ _ _ _ PN) as HH.
  assert (lookup_header (bytes_of "authorization") (w_headers (wire plan body)) = Some (sg_authorization signing) /\
    lookup_header (bytes_of "x-amz-date") (w_headers (wire plan body)) = Some (pl_amz_date plan) /\
    lookup_header (bytes_of "x-amz-content-sha256") (w_headers (wire plan body)) = Some (pl_payload_sha256 plan)) as (L1 & L2 & L3).
  { split; [|split];
      [apply (lookup_wire _ (bytes_of "Authorization"))|apply (lookup_wire _ (bytes_of "X-Amz-Date"))|
       apply (lookup_wire _ (bytes_of "X-Amz-Content-Sha256"))]; try reflexivity; try exact HD;
      cbn [w_headers wire]; rewrite HH; unfold transport_list; set_solver. }
  unfold verify_request. rewrite L1. cbn [mbind option_bind]. rewrite HP1. cbn [mbind option_bind]. rewrite HP2.
  cbn [mbind option_bind]. rewrite Hsec. cbn [mbind option_bind]. rewrite L2. cbn [mbind option_bind]. rewrite L3.
  cbn [mbind option_bind]. rewrite (split_names _ _ _ SA), HV. cbn [mbind option_bind].
  assert (s3_signer_sha256_hex (w_body (wire plan body)) = Ok (pl_payload_sha256 plan)) as ->.
  { pose proof (pn_hash _ _ _ _ _ _ PN) as Hh. unfold request_payload_hash in Hh. apply bind_ok in Hh as (h & Hh & ->%tstr_dup_ok).
    unfold sent_body in Hbody. cbn [w_body wire]. destruct (rq_body_source options); [|by subst body]. by injection Hh as <-. }
  cbn [mbind option_bind of_outcome w_target wire]. rewrite (pn_target _ _ _ _ _ _ PN), target_cut.
  2: { pose proof (vr_query_mark _ V) as HU. rewrite Hreq in HU. by apply (avoids_existsb _ _ _ HU). }
  rewrite HQ. cbn [w_method wire]. rewrite (pn_method _ _ _ _ _ _ PN).
  pose proof (sa_signature _ _ _ SA) as HS. rewrite (sa_request _ _ _ SA) in HS.
  rewrite Hreq in HS at 1 2 3 4 5 6. cbn [sr_secret_key sr_amz_date sr_region sr_method sr_canonical_uri sr_payload_sha256 plan_signer_request] in HS.
  rewrite HS. cbn [of_outcome mbind option_bind]. rewrite HA, Hreq. cbn [sr_amz_date sr_region plan_signer_request].
  by rewrite !bytes_eqb_refl.
Qed.

End Planned.

(** ** Presigned URLs *)

Lemma lookup_parameter_unique name value query : (name, value) ∈ query -> (forall other, (name, other) ∈ query -> other = value) ->
  lookup_parameter name query = Some value.
Proof.
  induction query as [|[n v] query IH]; [by intros ?%elem_of_nil|]. cbn [lookup_parameter fst snd]. intros H HU.
  destruct (bytes_eqb n name) eqn:E.
  - apply bytes_eqb_eq in E as ->. f_equal. apply HU. by left.
  - apply IH; [|intros other Ho; apply HU; by right]. apply elem_of_cons in H as [ [= -> ->]|H]; [|done].
    by rewrite bytes_eqb_refl in E.
Qed.

Lemma filter_all {A} (P : A -> Prop) `{!forall x, Decision (P x)} l : Forall P l -> filter P l = l.
Proof. induction 1 as [|x l Hx Hl IH]; [done|]. by rewrite filter_cons_True, IH. Qed.

(** The parameters of a presigned query but for those of the application. *)
Definition generated (request : s3_presign_request) (signature : list Z) : list (list Z * list Z) :=
  presign_parameters request (credential_text (ps_access_key request) (ps_amz_date request) (ps_region request))
    (decimal (ps_expires_seconds request)) ++ [(bytes_of "X-Amz-Signature", signature)].

Lemma generated_nodup request signature : NoDup (map fst (generated request signature)).
Proof.
  unfold generated, presign_parameters.
  destruct (ps_session_token request) as [t|]; [destruct (negb (zlen t =? 0))|]; cbn [map app fst];
    (apply (bool_decide_unpack _); by vm_compute).
Qed.

Lemma generated_members request signature : let g := generated request signature in
  (bytes_of "X-Amz-Algorithm", bytes_of "AWS4-HMAC-SHA256") ∈ g /\
  (bytes_of "X-Amz-Credential", credential_text (ps_access_key request) (ps_amz_date request) (ps_region request)) ∈ g /\
  (bytes_of "X-Amz-Date", ps_amz_date request) ∈ g /\
  (bytes_of "X-Amz-Expires", decimal (ps_expires_seconds request)) ∈ g /\
  (bytes_of "X-Amz-SignedHeaders", bytes_of "host") ∈ g /\ (bytes_of "X-Amz-Signature", signature) ∈ g.
Proof.
  cbv zeta. unfold generated, presign_parameters. split; [by apply (list_elem_of_lookup_2 _ 0%nat)|].
  split; [by apply (list_elem_of_lookup_2 _ 1%nat)|]. split; [by apply (list_elem_of_lookup_2 _ 2%nat)|].
  split; [by apply (list_elem_of_lookup_2 _ 3%nat)|]. split; [by apply (list_elem_of_lookup_2 _ 4%nat)|].
  apply elem_of_app. right. by left.
Qed.

Lemma generated_reserved request signature : Forall (fun q => s3_presign_query_reserved q.1 = true) (generated request signature).
Proof.
  unfold generated, presign_parameters. apply Forall_app. split; [apply Forall_app; split|].
  - repeat apply Forall_cons_2; by vm_compute || constructor.
  - destruct (ps_session_token request) as [t|]; [|constructor]. destruct (negb _); [|constructor].
    apply Forall_cons_2; [by vm_compute|constructor].
  - apply Forall_cons_2; [by vm_compute|constructor].
Qed.

Section Presigned.
Context {alloc : Allocator} {sha256 : Sha256} {lawful : LawfulSha256}.

Record presigned_as (request : s3_presign_request) (final_query signature : list Z) : Prop := {
  pa_valid : s3_presign_validate request (or_default (ps_max_target_bytes request) S3_SIGNER_DEFAULT_MAX_TARGET_BYTES) = Ok tt;
  pa_signature : request_signature (ps_secret_key request) (ps_amz_date request) (ps_region request)
    (canonical_request (ps_method request) (ps_canonical_uri request)
      (canonical_text (ps_query request ++ presign_parameters request
        (credential_text (ps_access_key request) (ps_amz_date request) (ps_region request)) (decimal (ps_expires_seconds request))))
      [(bytes_of "host", collapsed (ps_authority request))] UNSIGNED_PAYLOAD) = Ok signature;
  pa_query : final_query = canonical_text (ps_query request ++ generated request signature);
}.

Lemma presign_headers_ok authority t : s3_presign_canonical_headers authority = Ok t ->
  t = concat (map header_line [(bytes_of "host", collapsed authority)]).
Proof.
  unfold s3_presign_canonical_headers. intros (v & ->%value_normalize_ok & K)%bind_ok. split_if_in K; [done|].
  apply build_ok in K as ->. unfold header_line. cbn [concat map fst snd]. rewrite !app_nil_r.
  change (bytes_of "host:") with (bytes_of "host" ++ [58]). by rewrite <- app_assoc.
Qed.

Lemma presign_spec request final_query signature : 0 <= ps_max_target_bytes request ->
  s3_signer_presign request = Ok (final_query, signature) -> presigned_as request final_query signature.
Proof.
  intros Hb. unfold s3_signer_presign.
  assert (0 <= or_default (ps_max_target_bytes request) S3_SIGNER_DEFAULT_MAX_TARGET_BYTES) as Hb'.
  { unfold or_default. split_if; [done|by vm_compute]. }
  intros ([] & Hv & (count & _ & K)%bind_ok)%bind_ok. split_if_in K; [done|]. split_if_in K; [done|]. cbv zeta in K.
  apply bind_ok in K as (limit & _ & ([ [ [scope query] cquery] lines] & Hp & K)%bind_ok).
  apply bind_ok in Hp as (s & ->%build_scope_ok & (credential & ->%build_ok & (cq & Hq & (l & Hl%presign_headers_ok & [= <- <- <- <-])%bind_ok)%bind_ok)%bind_ok).
  apply canonicalize_iff in Hq as [-> _]; [|done]. subst l.
  apply bind_ok in K as (creq & Hc & (hash & Hh & (sts & ->%build_string_ok & (sig & Hs & (sig' & ->%tstr_dup_ok & (fq & Hf & [= <- <-])%bind_ok)%bind_ok)%bind_ok)%bind_ok)%bind_ok).
  apply canonicalize_iff in Hf as [-> _]; [|done].
  change (bytes_of "host") with (joined [59] (map fst [(bytes_of "host", collapsed (ps_authority request))])) in Hc at 2.
  apply build_request_ok in Hc as ->. cbn [concat] in *. rewrite app_nil_r in *.
  split; [done| |].
  - unfold request_signature. change (sr_payload_sha256 (presign_signer_request request)) with UNSIGNED_PAYLOAD in Hh.
    cbn [sr_method sr_canonical_uri presign_signer_request] in Hh. cbn [sr_amz_date sr_region presign_signer_request] in Hh.

    change (ps_access_key request ++ bytes_of "/" ++ scope_text (ps_amz_date request) (ps_region request)) with
      (credential_text (ps_access_key request) (ps_amz_date request) (ps_region request)) in Hh. rewrite Hh. exact Hs.
  - unfold generated. by rewrite app_assoc.
Qed.

(** Credentials of bytes, with a key that has no separator of a credential. *)
Record byte_credentials (credentials : s3_credentials) : Prop := {
  bc_key : is_bytes (cr_access_key credentials);
  bc_slash : avoids 47 (cr_access_key credentials);
  bc_token : forall token, cr_session_token credentials = Some token -> is_bytes token;
}.

Lemma is_bytes_test (f : Z -> bool) s : (forall c, f c = true -> is_u8 c) -> forallb f s = true -> is_bytes s.
Proof. intros Hf H. apply Forall_forall. intros c Hc. apply Hf. rewrite forallb_forall in H. by apply H, list_elem_of_In. Qed.

Record valid_presign (request : s3_presign_request) : Prop := {
  vp_query_mark : contains 63 (ps_canonical_uri request) = false;
  vp_date : s3_signer_date_valid (ps_amz_date request) = true;
  vp_expires : ps_expires_seconds request <> 0 /\ ps_expires_seconds request <= 604800;
  vp_query : existsb (fun q => s3_presign_query_reserved q.1) (ps_query request) = false;
}.

Lemma presign_validate_ok request max : s3_presign_validate request max = Ok tt -> valid_presign request.
Proof.
  unfold s3_presign_validate, guard_err. split_if; [done|]. intros _. split; try done.
  unfold uri_invalid in *. by bool_prop.
Qed.

Lemma generated_bytes request signature : valid_presign request -> is_bytes (ps_access_key request) ->
  is_bytes (ps_region request) -> 0 <= ps_expires_seconds request ->
  (forall token, ps_session_token request = Some token -> is_bytes token) -> is_bytes signature ->
  Forall byte_pair (generated request signature).
Proof.
  intros V Hk Hr He Ht Hs. pose proof (date_bytes _ (vp_date _ V)) as [_ Hd].
  assert (is_bytes (ps_amz_date request)) as HD.
  { apply (is_bytes_test date_byte); [|done]. intros c. unfold date_byte, digit. rewrite !orb_true_iff, andb_true_iff. zlia. }
  destruct (decimal_number (ps_expires_seconds request)) as (e & Ee & _ & Hdig & _); [destruct (vp_expires _ V); zlia|].
  assert (is_bytes e) as HE. { apply (Forall_impl _ _ _ Hdig). unfold is_digit. intros; zlia. }
  assert (is_bytes (credential_text (ps_access_key request) (ps_amz_date request) (ps_region request))) as HC.
  { unfold credential_text, scope_text. apply is_bytes_app. split; [done|]. apply is_bytes_cons. split; [zlia|].
    apply is_bytes_app. split; [by apply is_bytes_take|]. apply is_bytes_cons. split; [zlia|].
    apply is_bytes_app. split; [done|apply bytes_of_bytes]. }
  unfold generated, presign_parameters. rewrite Ee. apply Forall_app. split; [apply Forall_app; split|].
  - repeat (apply Forall_cons_2; [split; cbn [fst snd]; done || apply bytes_of_bytes|]). constructor.
  - destruct (ps_session_token request) as [t|]; [|constructor]. destruct (negb _); [|constructor].
    apply Forall_cons_2; [|constructor]. split; cbn [fst snd]; [apply bytes_of_bytes|by apply Ht].
  - apply Forall_cons_2; [|constructor]. split; cbn [fst snd]; [apply bytes_of_bytes|done].
Qed.

(** Looking a generated parameter up in the decoded query, and dropping the
    signature from it. *)
Lemma decoded_parameters request signature query : valid_presign request ->
  query ≡ₚ ps_query request ++ generated request signature ->
  (forall name value, (name, value) ∈ generated request signature -> lookup_parameter name query = Some value) /\
  filter (fun q => q.1 <> bytes_of "X-Amz-Signature") query ≡ₚ
    ps_query request ++ presign_parameters request
      (credential_text (ps_access_key request) (ps_amz_date request) (ps_region request)) (decimal (ps_expires_seconds request)).
Proof.
  intros V HP. pose proof (vp_query _ V) as HQ.
  assert (forall q, q ∈ ps_query request -> s3_presign_query_reserved q.1 = false) as HR.
  { intros q Hq. apply not_true_is_false. intros E. apply not_true_iff_false in HQ. apply HQ. apply existsb_exists.
    exists q. split; [by apply list_elem_of_In|done]. }
  pose proof (generated_reserved request signature) as HG. rewrite Forall_forall in HG.
  pose proof (generated_nodup request signature) as HD. split.
  - intros name value Hin. apply lookup_parameter_unique; [rewrite HP; apply elem_of_app; by right|].
    intros other. rewrite HP. intros [Ho|Ho]%elem_of_app.
    + apply HR in Ho. apply HG in Hin. cbn in *. congruence.
    + apply list_elem_of_lookup in Hin as (i & Hi), Ho as (j & Hj).
      assert (i = j) as <-; [|congruence].
      apply (NoDup_lookup _ _ _ name HD); rewrite list_lookup_fmap; [by rewrite Hi|by rewrite Hj].
  - rewrite HP, filter_app. apply Permutation_app.
    + apply reflexive_eq, filter_all. apply Forall_forall. intros q Hq%HR E. by rewrite E in Hq.
    + unfold generated. rewrite filter_app. rewrite (filter_cons_False _ (bytes_of "X-Amz-Signature", signature)) by (intros H; by apply H).
      rewrite filter_nil, app_nil_r. apply reflexive_eq, filter_all. apply Forall_forall. intros q Hq E.
      unfold generated in HD. rewrite map_app in HD. apply NoDup_app in HD as (_ & HD & _). apply (HD q.1).
      * apply list_elem_of_fmap. by exists q.
      * rewrite E. cbn. by left.
Qed.

Lemma signature_bytes secret date region canonical signature : request_signature secret date region canonical = Ok signature ->
  is_bytes signature.
Proof.
  unfold request_signature, signature_of.
  intros (hash & _ & (k1 & _ & (k2 & _ & (k3 & _ & (k4 & _ & (raw & Hr & [= <-])%bind_ok)%bind_ok)%bind_ok)%bind_ok)%bind_ok)%bind_ok.
  apply (is_bytes_test _ _) with (2 := hex_lower_chars raw (hmac_bytes _ _ _ Hr)).
  intros c. unfold digit. rewrite orb_true_iff, !andb_true_iff. zlia.
Qed.

Lemma host_values authority : signed_values [(bytes_of "Host", authority)] (split_on 59 (bytes_of "host")) =
  Some [(bytes_of "host", collapsed authority)] /\
  all_signed [(bytes_of "Host", authority)] (split_on 59 (bytes_of "host")) = true.
Proof. split; reflexivity. Qed.

(** The verifier on a presigned query. *)
Lemma presigned_accepted request final_query signature secrets body :
  presigned_as request final_query signature -> Forall byte_pair (ps_query request) ->
  is_bytes (ps_access_key request) -> avoids 47 (ps_access_key request) -> forallb region_byte (ps_region request) = true ->
  (forall token, ps_session_token request = Some token -> is_bytes token) -> 0 <= ps_expires_seconds request ->
  secrets (ps_access_key request) = Some (ps_secret_key request) ->
  verify_presigned secrets (ps_region request)
    {| w_method := ps_method request; w_target := ps_canonical_uri request ++ 63 :: final_query;
       w_headers := [(bytes_of "Host", ps_authority request)]; w_body := body |} = Some true.
Proof.
  intros PA HB Hk Hk' Hr Ht He Hsec. pose proof (presign_validate_ok _ _ (pa_valid _ _ _ PA)) as V.
  pose proof (pa_signature _ _ _ PA) as HS. pose proof (signature_bytes _ _ _ _ _ HS) as Hsig.
  assert (is_bytes (ps_region request)) as Hrb.
  { apply (is_bytes_test region_byte); [|done]. intros c. unfold region_byte. rewrite !orb_true_iff, !andb_true_iff. zlia. }
  pose proof (generated_bytes _ _ V Hk Hrb He Ht Hsig) as HG.
  assert (decode_query final_query ≡ₚ ps_query request ++ generated request signature) as HP.
  { rewrite (pa_query _ _ _ PA). apply decode_canonical. apply Forall_app. by split. }
  destruct (decoded_parameters _ _ _ V HP) as [HL HF]. unfold verify_presigned. cbn [w_target].
  rewrite cut_app by (pose proof (vp_query_mark _ V) as HU; by apply (avoids_existsb _ _ _ HU)).
  cbv zeta. destruct (generated_members request signature) as (G1 & G2 & G3 & G4 & G5 & G6).
  rewrite (HL _ _ G1), (HL _ _ G2), (HL _ _ G3), (HL _ _ G4), (HL _ _ G5), (HL _ _ G6). cbn [mbind option_bind].
  pose proof (date_bytes _ (vp_date _ V)) as [_ HDate].
  rewrite parse_credential_text; [|done| |by apply (avoids_test _ _ _ Hr)].
  2: { rewrite <- (ztake_zdrop 8 (ps_amz_date request)), forallb_app in HDate. apply andb_true_iff in HDate as [HDate _].
       by apply (avoids_test _ _ _ HDate). }
  cbn [mbind option_bind]. rewrite Hsec. cbn [mbind option_bind w_headers w_method].
  destruct (host_values (ps_authority request)) as [-> ->]. cbn [mbind option_bind].
  rewrite (canonical_permutation _ _ HF). change (bytes_of "UNSIGNED-PAYLOAD") with UNSIGNED_PAYLOAD. rewrite HS.
  cbn [of_outcome mbind option_bind]. rewrite !bytes_eqb_refl.
  destruct (vp_expires _ V) as [E1 E2]. destruct (decimal_number (ps_expires_seconds request)) as (e & -> & _ & _ & _ & ->); [zlia|].
  rewrite (proj2 (Z.leb_le 1 _)), (proj2 (Z.leb_le _ 604800)) by lia. done.
Qed.

(** A URL that the client presigns is a scheme, the host and a target, and a
    service with the secret accepts the request for this target at this host with
    any body: it finds the signature in the query, computes it again from the rest
    of the query and the host, and finds the life time allowed. *)
Theorem presigned_url_verifies config client method bucket key query expires clock credentials url secrets body :
  s3_client_base_init config = Ok client -> 0 <= cc_max_target_bytes client ->
  Forall byte_pair query -> byte_credentials credentials -> 0 <= expires ->
  secrets (cr_access_key credentials) = Some (cr_secret_key credentials) ->
  s3_presign_url_build client method bucket key query expires clock (Ok credentials) = Ok url ->
  exists scheme authority target, url = scheme ++ authority ++ target /\
    scheme ∈ [bytes_of "https://"; bytes_of "http://"] /\ s3_request_authority client bucket = Ok authority /\
    verify_presigned secrets (cc_region client)
      {| w_method := s3_method_map method; w_target := target; w_headers := [(bytes_of "Host", authority)]; w_body := body |} =
      Some true.
Proof.
  intros HC Hb HB [Bk Bs Bt] He Hsec. unfold s3_presign_url_build.
  intros ([] & _ & (authority & Ha & (uri & _ & (? & _ & (c & [= <-] & (date & _ & ([fq sig] & Hp & K)%bind_ok)%bind_ok)%bind_ok)%bind_ok)%bind_ok)%bind_ok)%bind_ok.
  apply bind_ok in K as (scheme & Hscheme & (n & _ & K)%bind_ok). split_if_in K; [done|]. apply bind_ok in K as (m & _ & ->%build_ok).
  apply presign_spec in Hp; [|done]. exists scheme, authority, (uri ++ 63 :: fq). split; [|split; [|split]].
  - cbn [concat]. by rewrite app_nil_r.
  - revert Hscheme. unfold url_scheme. split_if; [intros [= <-]; by left|]. split_if; [intros [= <-]; right; by left|done].
  - done.
  - apply (presigned_accepted _ _ _ secrets body Hp HB Bk Bs (region_bytes _ _ HC) Bt He Hsec).
Qed.

End Presigned.

End S3Verify.
