(* ===== verification/WebUpload.v ===== *)
(** * Upload transactions

    Model of [app/src/chttp_web_upload.c]: a multipart body is staged by the
    application while it arrives, and committed when the whole body was read,
    the token against forged requests is right and the validation passed;
    otherwise the staging is aborted.

    The structure of an upload holds the multipart parser, and the parser has a
    pointer back to the structure as its user.  In the model the parser carries
    the rest of the structure, [upload_core], as its user.  A structure that is
    all zero, before it is opened and after it is reset, is [Closed] with the
    state of the application, which the core of an open upload holds. *)

From S2P Require Import Prelude Router Http1Parser Web Multipart WebForm WebSession.

Module WebUpload.
Import Router Http1Parser Web Multipart WebSession.

(** [CHTTP_WEB_UPLOAD_IDLE] is the state of the zero structure. *)
Inductive upload_state :=
  | CHTTP_WEB_UPLOAD_STREAMING
  | CHTTP_WEB_UPLOAD_BODY_COMPLETE
  | CHTTP_WEB_UPLOAD_COMMITTED
  | CHTTP_WEB_UPLOAD_ABORTED.

#[export] Instance upload_state_eq_dec : EqDecision upload_state.
Proof. solve_decision. Defined.

Definition sizeof_upload_callbacks : Z := 56.

(** The callbacks of the application, on its state. *)
Record chttp_web_upload_callbacks (A : Type) := {
  uk_size : Z;
  uk_begin : A -> web_request -> A * salts_status;
  uk_part_begin : A -> chttp_web_multipart_part -> A * salts_status;
  uk_part_data : A -> list Z -> A * salts_status;
  uk_part_end : A -> A * salts_status;
  uk_commit : A -> A * salts_status;
  uk_abort : A -> chttp_web_status -> salts_status -> A;
}.
Arguments uk_size {A}.
Arguments uk_begin {A}.
Arguments uk_part_begin {A}.
Arguments uk_part_data {A}.
Arguments uk_part_end {A}.
Arguments uk_commit {A}.
Arguments uk_abort {A}.

(** [csrf_token] up to [csrf_size]. *)
Record upload_core (A : Type) := Build_core {
  up_app : A;
  up_csrf_token : list Z;
  up_csrf_count : Z;
  up_terminal_status : chttp_web_status;
  up_terminal_native_status : salts_status;
  up_state : upload_state;
  up_csrf_part : bool;
  up_begun : bool;
}.
Arguments Build_core {A}.
Arguments up_app {A}.
Arguments up_csrf_token {A}.
Arguments up_csrf_count {A}.
Arguments up_terminal_status {A}.
Arguments up_terminal_native_status {A}.
Arguments up_state {A}.
Arguments up_csrf_part {A}.
Arguments up_begun {A}.

#[export] Instance eta_core A : Eta (upload_core A) :=
  fun u => Build_core (up_app u) (up_csrf_token u) (up_csrf_count u) (up_terminal_status u) (up_terminal_native_status u)
    (up_state u) (up_csrf_part u) (up_begun u).
#[export] Instance set_up_app A : Setter (@up_app A). Proof. mk_setter. Defined.
#[export] Instance set_up_csrf_token A : Setter (@up_csrf_token A). Proof. mk_setter. Defined.
#[export] Instance set_up_csrf_count A : Setter (@up_csrf_count A). Proof. mk_setter. Defined.
#[export] Instance set_up_terminal_status A : Setter (@up_terminal_status A). Proof. mk_setter. Defined.
#[export] Instance set_up_terminal_native_status A : Setter (@up_terminal_native_status A). Proof. mk_setter. Defined.
#[export] Instance set_up_state A : Setter (@up_state A). Proof. mk_setter. Defined.
#[export] Instance set_up_csrf_part A : Setter (@up_csrf_part A). Proof. mk_setter. Defined.
#[export] Instance set_up_begun A : Setter (@up_begun A). Proof. mk_setter. Defined.

Inductive chttp_web_upload_request (A : Type) :=
  | Closed (app : A)
  | Opened (multipart : chttp_web_multipart_parser (upload_core A)).
Arguments Closed {A}.
Arguments Opened {A}.

Definition chttp_web_upload_error (status : chttp_web_status) (native_status : salts_status) (message : String.string) :
    chttp_web_error :=
  {| we_status := status; we_native_status := native_status; we_offset := 0; we_message := bytes_of message |}.
Arguments chttp_web_upload_error _ _ message%_string_scope.

Definition upload_ok : chttp_web_error := chttp_web_upload_error CHTTP_WEB_OK SALTS_OK "".

Definition is_state {A} (state : upload_state) (u : upload_core A) : bool := bool_decide (up_state u = state).

Section Upload.
Context {A : Type} (callbacks : chttp_web_upload_callbacks A).
#[local] Abbreviation core := (upload_core A).
#[local] Abbreviation parser := (chttp_web_multipart_parser (upload_core A)).
#[local] Abbreviation upload := (chttp_web_upload_request A).

Definition chttp_web_upload_callbacks_valid : bool := sizeof_upload_callbacks <=? uk_size callbacks.

Definition chttp_web_upload_name_is_csrf (part : chttp_web_multipart_part) : bool :=
  bytes_eqb (part_name part) CHTTP_WEB_CSRF_FORM_FIELD.

Definition chttp_web_upload_abort_once (u : core) (status : chttp_web_status) (native_status : salts_status) : core :=
  if is_state CHTTP_WEB_UPLOAD_ABORTED u || is_state CHTTP_WEB_UPLOAD_COMMITTED u then u
  else
    let terminal_status := if bool_decide (status = CHTTP_WEB_OK) then CHTTP_WEB_UPLOAD else status in
    let u := u <| up_terminal_status := terminal_status |> <| up_terminal_native_status := native_status |>
               <| up_state := CHTTP_WEB_UPLOAD_ABORTED |> in
    if up_begun u then u <| up_app := uk_abort callbacks (up_app u) terminal_status native_status |> else u.

(** ** The callbacks of the parser *)

Definition with_app (u : core) (r : A * salts_status) : core * salts_status := (u <| up_app := r.1 |>, r.2).

Definition chttp_web_upload_part_begin (u : core) (part : chttp_web_multipart_part) : core * salts_status :=
  if negb (is_state CHTTP_WEB_UPLOAD_STREAMING u) then (u, SALTS_EINVAL)
  else
    let u := u <| up_csrf_part := false |> in
    if chttp_web_upload_name_is_csrf part then
      if match part_filename part with Some _ => true | None => false end || negb (up_csrf_count u =? 0) then (u, SALTS_EPROTO)
      else (u <| up_csrf_token := [] |> <| up_csrf_part := true |>, SALTS_OK)
    else with_app u (uk_part_begin callbacks (up_app u) part).

Definition chttp_web_upload_part_data (u : core) (data : list Z) : core * salts_status :=
  if negb (is_state CHTTP_WEB_UPLOAD_STREAMING u) then (u, SALTS_EINVAL)
  else if negb (up_csrf_part u) then with_app u (uk_part_data callbacks (up_app u) data)
  else if CHTTP_WEB_CSRF_TOKEN_BYTES - zlen (up_csrf_token u) <? zlen data then (u, SALTS_EMSGSIZE)
  else (u <| up_csrf_token := up_csrf_token u ++ data |>, SALTS_OK).

Definition chttp_web_upload_part_end (u : core) : core * salts_status :=
  if negb (is_state CHTTP_WEB_UPLOAD_STREAMING u) then (u, SALTS_EINVAL)
  else if up_csrf_part u then (u <| up_csrf_count := up_csrf_count u + 1 |> <| up_csrf_part := false |>, SALTS_OK)
  else with_app u (uk_part_end callbacks (up_app u)).

Definition multipart_callbacks : chttp_web_multipart_callbacks core :=
  {| mc_size := sizeof_multipart_callbacks; part_begin := chttp_web_upload_part_begin;
     part_data := chttp_web_upload_part_data; part_end := chttp_web_upload_part_end |}.

(** ** The body *)

Definition chttp_web_upload_native_status (status : chttp_web_status) (error : chttp_web_error) : salts_status :=
  if negb (bool_decide (we_native_status error = SALTS_OK)) then we_native_status error
  else match status with
       | CHTTP_WEB_CAPACITY => SALTS_ENOBUFS
       | CHTTP_WEB_INVALID_ARGUMENT => SALTS_EINVAL
       | _ => SALTS_EPROTO
       end.

Definition on_core (f : core -> core) (p : parser) : parser := p <| mp_user := f (mp_user p) |>.

(** [None] is a loop of the parser that was cut short. *)
Definition chttp_web_upload_sink_write (upload : upload) (data : list Z) : option (chttp_web_upload_request A * salts_status) :=
  match upload with
  | Closed app => Some (upload, SALTS_EINVAL)
  | Opened p =>
    if negb (is_state CHTTP_WEB_UPLOAD_STREAMING (mp_user p)) then Some (upload, SALTS_EINVAL)
    else
      match chttp_web_multipart_feed multipart_callbacks p data with
      | None => None
      | Some (p, error) =>
        if bool_decide (we_status error = CHTTP_WEB_OK) then Some (Opened p, SALTS_OK)
        else
          Some (Opened (on_core (fun u => u <| up_terminal_status := we_status error |>
                                            <| up_terminal_native_status := we_native_status error |>) p),
                chttp_web_upload_native_status (we_status error) error)
      end
  end.

Definition new_core (app : A) : core :=
  {| up_app := app; up_csrf_token := []; up_csrf_count := 0; up_terminal_status := CHTTP_WEB_OK;
     up_terminal_native_status := SALTS_OK; up_state := CHTTP_WEB_UPLOAD_STREAMING; up_csrf_part := false; up_begun := true |}.

(** The application begins after the parser was made, which does not look at
    its user; the core is complete then.  The sink is [chttp_web_upload_sink_write]. *)
Definition chttp_web_upload_open (upload : upload) (request : web_request) (limits : chttp_web_multipart_limits) :
    chttp_web_upload_request A * chttp_web_error :=
  match upload with
  | Opened _ =>
    (upload, chttp_web_upload_error CHTTP_WEB_INVALID_ARGUMENT SALTS_OK "upload open arguments or request state are invalid")
  | Closed app =>
    if negb chttp_web_upload_callbacks_valid then
      (upload, chttp_web_upload_error CHTTP_WEB_INVALID_ARGUMENT SALTS_OK "upload open arguments or request state are invalid")
    else
      match chttp_server_request_header (wq_headers request) (bytes_of "Content-Type") with
      | None => (upload, chttp_web_upload_error CHTTP_WEB_MULTIPART SALTS_OK "multipart upload requires Content-Type")
      | Some content_type =>
        match chttp_web_multipart_init multipart_callbacks content_type limits (new_core app) with
        | (None, error) => (upload, error)
        | (Some p, _) =>
          let '(app, native_status) := uk_begin callbacks app request in
          if negb (bool_decide (native_status = SALTS_OK)) then
            (Closed app, chttp_web_upload_error CHTTP_WEB_UPLOAD native_status "application upload staging begin failed")
          else (Opened (on_core (fun u => u <| up_app := app |>) p), upload_ok)
        end
      end
  end.

Definition aborting (status : chttp_web_status) (native_status : salts_status) (p : parser) : upload :=
  Opened (on_core (fun u => chttp_web_upload_abort_once u status native_status) p).

Definition chttp_web_upload_close (upload : upload) (status : salts_status) : chttp_web_upload_request A :=
  match upload with
  | Closed _ => upload
  | Opened p =>
    let u := mp_user p in
    if negb (is_state CHTTP_WEB_UPLOAD_STREAMING u) then upload
    else if negb (bool_decide (status = SALTS_OK)) then
      aborting (if negb (bool_decide (up_terminal_status u = CHTTP_WEB_OK)) then up_terminal_status u else CHTTP_WEB_SERVER)
        (if negb (bool_decide (up_terminal_native_status u = SALTS_OK)) then up_terminal_native_status u else status) p
    else if negb (bool_decide (up_terminal_status u = CHTTP_WEB_OK)) then
      aborting (up_terminal_status u) (up_terminal_native_status u) p
    else
      let '(p, error) := chttp_web_multipart_finish multipart_callbacks p in
      if negb (bool_decide (we_status error = CHTTP_WEB_OK)) then aborting (we_status error) (we_native_status error) p
      else Opened (on_core (fun u => u <| up_terminal_status := CHTTP_WEB_OK |> <| up_terminal_native_status := SALTS_OK |>
                                      <| up_state := CHTTP_WEB_UPLOAD_BODY_COMPLETE |>) p)
  end.

(** ** The end of a transaction *)

Definition chttp_web_upload_aborted_status (u : core) : chttp_web_error :=
  chttp_web_upload_error
    (if negb (bool_decide (up_terminal_status u = CHTTP_WEB_OK)) then up_terminal_status u else CHTTP_WEB_UPLOAD)
    (up_terminal_native_status u) "upload transaction was aborted before commit".

(** Whether a validation has the size of its structure, and whether it passed. *)
Record chttp_web_validation := {
  vl_sized : bool;
  vl_valid : bool;
}.

Section Finalize.
Context {S : Type} {ops : SessionOps S} {equal : CryptoEqual}.

(** The token that the request presents. *)
Definition upload_candidate (u : core) (request : web_request) : option (list Z) :=
  match csrf_header request with
  | Some header => Some header
  | None => if up_csrf_count u =? 1 then Some (up_csrf_token u) else None
  end.

(** [sink_user] is whether the body of the request went to this upload. *)
Definition chttp_web_upload_finalize (upload : upload) (request : web_request) (sink_user : bool) (session : option S)
    (validation : option chttp_web_validation) : chttp_web_upload_request A * chttp_web_error :=
  match upload with
  | Closed _ =>
    (upload, chttp_web_upload_error CHTTP_WEB_INVALID_ARGUMENT SALTS_OK "upload finalizer does not match the streamed request")
  | Opened p =>
    let u := mp_user p in
    if negb (wq_body_streamed request) || negb sink_user then
      (upload, chttp_web_upload_error CHTTP_WEB_INVALID_ARGUMENT SALTS_OK "upload finalizer does not match the streamed request")
    else if is_state CHTTP_WEB_UPLOAD_ABORTED u then (upload, chttp_web_upload_aborted_status u)
    else if negb (is_state CHTTP_WEB_UPLOAD_BODY_COMPLETE u) then
      (upload, chttp_web_upload_error CHTTP_WEB_INVALID_ARGUMENT SALTS_OK "upload body is not ready for terminal validation")
    else
      let error := chttp_web_csrf_validate_token request session (upload_candidate u request) in
      if negb (bool_decide (we_status error = CHTTP_WEB_OK)) then
        (aborting (we_status error) (we_native_status error) p, error)
      else
        match (match validation with
               | None => None
               | Some v =>
                 if negb (vl_sized v) then
                   Some (CHTTP_WEB_INVALID_ARGUMENT,
                         chttp_web_upload_error CHTTP_WEB_INVALID_ARGUMENT SALTS_OK "upload validation state is invalid")
                 else if negb (vl_valid v) then
                   Some (CHTTP_WEB_VALIDATION,
                         chttp_web_upload_error CHTTP_WEB_VALIDATION SALTS_OK "upload application validation rejected the request")
                 else None
               end) with
        | Some (status, error) => (aborting status SALTS_OK p, error)
        | None =>
          let '(app, native_status) := uk_commit callbacks (up_app u) in
          let p := on_core (fun u => u <| up_app := app |>) p in
          if negb (bool_decide (native_status = SALTS_OK)) then
            (aborting CHTTP_WEB_UPLOAD native_status p,
             chttp_web_upload_error CHTTP_WEB_UPLOAD native_status "application upload commit failed")
          else
            (Opened (on_core (fun u => u <| up_terminal_status := CHTTP_WEB_OK |> <| up_terminal_native_status := SALTS_OK |>
                                         <| up_state := CHTTP_WEB_UPLOAD_COMMITTED |>) p), upload_ok)
        end
  end.

End Finalize.

Definition chttp_web_upload_abort (upload : upload) (status : chttp_web_status) (native_status : salts_status) :
    chttp_web_upload_request A * chttp_web_error :=
  match upload with
  | Opened p =>
    if bool_decide (status = CHTTP_WEB_OK) || is_state CHTTP_WEB_UPLOAD_COMMITTED (mp_user p) then
      (upload, chttp_web_upload_error CHTTP_WEB_INVALID_ARGUMENT SALTS_OK "upload abort state or status is invalid")
    else
      (if negb (is_state CHTTP_WEB_UPLOAD_ABORTED (mp_user p)) then aborting status native_status p else upload, upload_ok)
  | Closed _ => (upload, chttp_web_upload_error CHTTP_WEB_INVALID_ARGUMENT SALTS_OK "upload abort state or status is invalid")
  end.

Definition chttp_web_upload_reset (upload : upload) : chttp_web_upload_request A * chttp_web_error :=
  match upload with
  | Opened p =>
    if is_state CHTTP_WEB_UPLOAD_COMMITTED (mp_user p) || is_state CHTTP_WEB_UPLOAD_ABORTED (mp_user p)
    then (Closed (up_app (mp_user p)), upload_ok)
    else (upload, chttp_web_upload_error CHTTP_WEB_INVALID_ARGUMENT SALTS_OK "upload reset requires committed or aborted state")
  | Closed _ => (upload, chttp_web_upload_error CHTTP_WEB_INVALID_ARGUMENT SALTS_OK "upload reset requires committed or aborted state")
  end.

Definition chttp_web_upload_user (upload : upload) : option A :=
  match upload with Opened p => Some (up_app (mp_user p)) | Closed _ => None end.

End Upload.

End WebUpload.
