(* ===== verification/WebUploadTheorems.v ===== *)
(** * Upload transactions: theorems

    When an upload is committed, and what the application staged by then; and
    the order in which the callbacks of the application run. *)

From S2P Require Import Prelude Router Http1Parser Web Multipart MultipartTheorems MultipartLanguage WebForm WebSession.
From S2P Require Import WebSessionTheorems WebUpload.

Module WebUploadTheorems.
Import Router Http1Parser Web Multipart MultipartTheorems MultipartLanguage MultipartOrder WebSession WebSessionTheorems WebUpload.

(** ** What the application is told *)

Section Staged.
Context {A : Type} (callbacks : chttp_web_upload_callbacks A).
#[local] Abbreviation core := (upload_core A).

(** The application does not see how the data of a part is cut. *)
Class LawfulStage : Prop :=
  stage_split a x y a' : x <> [] -> y <> [] ->
    uk_part_data callbacks a (x ++ y) = (a', SALTS_OK) <->
    exists a1, uk_part_data callbacks a x = (a1, SALTS_OK) /\ uk_part_data callbacks a1 y = (a', SALTS_OK).

(** A part without data is not handed over. *)
Definition stage_data (a : A) (data : list Z) : A * salts_status :=
  if zlen data =? 0 then (a, SALTS_OK) else uk_part_data callbacks a data.

Definition is_csrf (m : meta) : bool := chttp_web_upload_name_is_csrf (meta_part m).

(** A part of the wire within the limits. *)
Record wire_ok (l : chttp_web_multipart_limits) (b block data : list Z) (m : meta) : Prop := {
  wo_block : block_ok l block = true;
  wo_meta : block_meta l block = Some m;
  wo_data : marker_free b data;
  wo_field : m_has_filename m = false -> zlen data <= lm_max_field_bytes l;
}.

(** The application stages the parts; those with the token, which have no file
    name and are not too long, do not reach it. *)
Inductive staged (l : chttp_web_multipart_limits) (b : list Z) : A -> list (list Z * list Z) -> A -> list (list Z) -> Prop :=
  | staged_nil a : staged l b a [] a []
  | staged_part a block data parts m a1 a2 a3 a4 tokens :
      wire_ok l b block data m -> is_csrf m = false ->
      uk_part_begin callbacks a (meta_part m) = (a1, SALTS_OK) ->
      stage_data a1 data = (a2, SALTS_OK) ->
      uk_part_end callbacks a2 = (a3, SALTS_OK) ->
      staged l b a3 parts a4 tokens -> staged l b a ((block, data) :: parts) a4 tokens
  | staged_token a block data parts m a' tokens :
      wire_ok l b block data m -> is_csrf m = true -> m_has_filename m = false ->
      zlen data <= CHTTP_WEB_CSRF_TOKEN_BYTES ->
      staged l b a parts a' tokens -> staged l b a ((block, data) :: parts) a' (data :: tokens).

(** ** The callbacks of the parser *)

#[export] Instance upload_sink_lawful {lawful : LawfulStage} : LawfulSink (multipart_callbacks callbacks).
Proof.
  split. intros [a t c ts tn st cp bg] x y u' Hx Hy. cbn [part_data multipart_callbacks].
  unfold chttp_web_upload_part_data, is_state, with_app. cbn -[zlen CHTTP_WEB_CSRF_TOKEN_BYTES Z.sub Z.ltb].
  destruct (bool_decide (st = CHTTP_WEB_UPLOAD_STREAMING)) eqn:Es; cbn [negb]; [|by split; [|intros (? & ? & _)]].
  destruct cp; cbn [negb].
  - rewrite zlen_app. pose proof (zlen_nonneg x). pose proof (zlen_nonneg y). split.
    + split_if; [done|]. intros [= <-]. eexists. split; [by rewrite (proj2 (Z.ltb_ge _ _)) by lia|].
      cbn -[zlen CHTTP_WEB_CSRF_TOKEN_BYTES Z.sub Z.ltb]. rewrite Es, zlen_app, (proj2 (Z.ltb_ge _ _)) by lia. cbn. by rewrite <- app_assoc.
    + intros (u1 & E1 & E2). split_if_in E1; [done|]. injection E1 as <-.
      cbn -[zlen CHTTP_WEB_CSRF_TOKEN_BYTES Z.sub Z.ltb] in E2. rewrite Es, zlen_app in E2. cbn [negb] in E2. split_if_in E2; [done|].
      injection E2 as <-. rewrite (proj2 (Z.ltb_ge _ _)) by lia. by rewrite <- app_assoc.
  - split.
    + destruct (uk_part_data callbacks a (x ++ y)) as [a' s] eqn:E. cbn [fst snd]. intros [= <- ->].
      apply stage_split in E as (a1 & E1 & E2); [|done..]. rewrite E1. eexists. split; [done|]. cbn. rewrite Es. cbn. by rewrite E2.
    + intros (u1 & E1 & E2). destruct (uk_part_data callbacks a x) as [a1 s] eqn:Ex. cbn [fst snd] in E1. injection E1 as <- ->.
      cbn in E2. rewrite Es in E2. cbn in E2. destruct (uk_part_data callbacks a1 y) as [a2 s] eqn:Ey. cbn [fst snd] in E2. injection E2 as <- ->.
      assert (uk_part_data callbacks a (x ++ y) = (a2, SALTS_OK)) as ->; [|done]. apply stage_split; [done..|]. by exists a1.
Qed.

(** A core between two parts. *)
Definition between (u : core) : Prop := is_state CHTTP_WEB_UPLOAD_STREAMING u = true /\ up_csrf_part u = false.

(** The core after the parts were staged. *)
Definition after_parts (u : core) (a : A) (tokens : list (list Z)) : core :=
  u <| up_app := a |> <| up_csrf_token := match last tokens with Some t => t | None => up_csrf_token u end |>
    <| up_csrf_count := up_csrf_count u + zlen tokens |>.

Lemma data_call_stage u data u' : between u ->
  data_call (multipart_callbacks callbacks) u data = (u', SALTS_OK) <->
  exists a, stage_data (up_app u) data = (a, SALTS_OK) /\ u' = u <| up_app := a |>.
Proof.
  intros [Es Ec]. unfold data_call, stage_data. cbn [part_data multipart_callbacks]. split_if.
  - split; [intros [= <-]; exists (up_app u); by destruct u|]. intros (a & [= <-] & ->). by destruct u.
  - unfold chttp_web_upload_part_data. rewrite Es, Ec. cbn [negb]. unfold with_app.
    destruct (uk_part_data callbacks (up_app u) data) as [a s]. cbn [fst snd]. split.
    + intros [= <- ->]. by exists a.
    + by intros (? & [= <- ->] & ->).
Qed.

Lemma part_begin_iff u m u' : between u ->
  chttp_web_upload_part_begin callbacks u (meta_part m) = (u', SALTS_OK) <->
  if is_csrf m
  then m_has_filename m = false /\ up_csrf_count u = 0 /\ u' = u <| up_csrf_token := [] |> <| up_csrf_part := true |>
  else exists a, uk_part_begin callbacks (up_app u) (meta_part m) = (a, SALTS_OK) /\ u' = u <| up_app := a |>.
Proof.
  intros [Es Ec]. unfold chttp_web_upload_part_begin. rewrite Es. cbn [negb].
  assert (u <| up_csrf_part := false |> = u) as -> by (destruct u; cbn in Ec; by subst).
  fold (is_csrf m). destruct (is_csrf m).
  - destruct (m_has_filename m) eqn:Ef; cbn [meta_part part_filename]; rewrite Ef; cbn [orb]; [by split; [|intros (? & _)]|].
    destruct (Z.eqb_spec (up_csrf_count u) 0); cbn [negb].
    + split; [by intros [= <-]|by intros (_ & _ & ->)].
    + split; [done|]. by intros (_ & ? & _).
  - unfold with_app. destruct (uk_part_begin callbacks (up_app u) (meta_part m)) as [a s]. cbn [fst snd]. split.
    + intros [= <- ->]. by exists a.
    + by intros (? & [= <- ->] & ->).
Qed.

(** The token is collected and counted. *)
Lemma token_part_iff u data u' : between u ->
  (exists u2, data_call (multipart_callbacks callbacks) (u <| up_csrf_token := [] |> <| up_csrf_part := true |>) data = (u2, SALTS_OK) /\
     chttp_web_upload_part_end callbacks u2 = (u', SALTS_OK)) <->
  zlen data <= CHTTP_WEB_CSRF_TOKEN_BYTES /\
  u' = u <| up_csrf_token := data |> <| up_csrf_count := up_csrf_count u + 1 |>.
Proof.
  intros [Es Ec]. unfold data_call. cbn [part_data multipart_callbacks].
  unfold chttp_web_upload_part_data, chttp_web_upload_part_end, is_state in *. destruct u as [a t c ts tn st cp bg]. cbn in Es, Ec. subst cp.
  apply bool_decide_eq_true in Es as ->. cbn -[zlen CHTTP_WEB_CSRF_TOKEN_BYTES Z.sub Z.ltb Z.eqb Z.add]. change (CHTTP_WEB_CSRF_TOKEN_BYTES - zlen []) with CHTTP_WEB_CSRF_TOKEN_BYTES.
  destruct (Z.eqb_spec (zlen data) 0) as [E|E].
  - apply zlen_0_inv in E as ->. split.
    + intros (u2 & [= <-] & [= <-]). by rewrite zlen_nil.
    + intros (_ & ->). by eexists.
  - destruct (Z.ltb_spec CHTTP_WEB_CSRF_TOKEN_BYTES (zlen data)).
    + split; [by intros (? & ? & _)|]. lia.
    + split; [intros (u2 & [= <-] & [= <-]); by split|]. intros (_ & ->). by eexists.
Qed.

Lemma part_end_iff u u' : between u ->
  chttp_web_upload_part_end callbacks u = (u', SALTS_OK) <->
  exists a, uk_part_end callbacks (up_app u) = (a, SALTS_OK) /\ u' = u <| up_app := a |>.
Proof.
  intros [Es Ec]. unfold chttp_web_upload_part_end. rewrite Es, Ec. cbn [negb]. unfold with_app.
  destruct (uk_part_end callbacks (up_app u)) as [a s]. cbn [fst snd]. split.
  - intros [= <- ->]. by exists a.
  - by intros (? & [= <- ->] & ->).
Qed.

Lemma after_parts_app u a a' tokens : after_parts (u <| up_app := a' |>) a tokens = after_parts u a tokens.
Proof. done. Qed.

Lemma after_parts_token u data a tokens :
  after_parts (u <| up_csrf_token := data |> <| up_csrf_count := up_csrf_count u + 1 |>) a tokens =
  after_parts u a (data :: tokens).
Proof.
  unfold after_parts. cbn -[zlen last]. rewrite zlen_cons. rewrite <- Z.add_assoc.
  assert (last (data :: tokens) = Some (match last tokens with Some t => t | None => data end)) as ->; [|done].
  rewrite last_cons. by destruct (last tokens).
Qed.

(** What the parser tells the upload is what the upload stages. *)
Lemma told_staged l b parts : forall u u', between u -> 0 <= up_csrf_count u ->
  told (multipart_callbacks callbacks) l b u parts u' <->
  exists a tokens, staged l b (up_app u) parts a tokens /\ u' = after_parts u a tokens /\
    (tokens <> [] -> up_csrf_count u + zlen tokens <= 1).
Proof.
  induction parts as [|[block data] parts IH]; intros u u' Hu Hc.
  { split.
    - inversion 1; subst. exists (up_app u'), []. split; [constructor|]. split; [|done].
      destruct u'. unfold after_parts. cbn. by rewrite Z.add_0_r.
    - intros (a & tokens & H & -> & _). inversion H; subst. unfold after_parts. cbn. rewrite Z.add_0_r. destruct u. constructor. }
  split.
  - inversion 1 as [|? ? ? ? m u1 u2 u3 ? Hb Hm Hd Hf E1 E2 E3 Ht]; subst. cbn [part_begin part_end multipart_callbacks] in *.
    apply part_begin_iff in E1; [|done]. destruct (is_csrf m) eqn:Em.
    + destruct E1 as (Efile & E0 & ->). assert (zlen data <= CHTTP_WEB_CSRF_TOKEN_BYTES /\
        u3 = u <| up_csrf_token := data |> <| up_csrf_count := up_csrf_count u + 1 |>) as [Hsize ->] by (apply token_part_iff; [done|by exists u2]).
      apply IH in Ht as (a & tokens & Hs & -> & Hone); [|done|cbn; lia]. exists a, (data :: tokens).
      rewrite <- after_parts_token. split; [by econstructor|]. split; [done|]. intros _.
      destruct tokens as [|t tokens]; [change (zlen [data]) with 1; lia|].
      specialize (Hone ltac:(done)). cbn [up_csrf_count] in Hone. rewrite !zlen_cons in *. pose proof (zlen_nonneg tokens). cbn in Hone. lia.
    + destruct E1 as (a1 & E1 & ->). apply data_call_stage in E2 as (a2 & E2 & ->); [|done].
      apply part_end_iff in E3 as (a3 & E3 & ->); [|done]. apply IH in Ht as (a & tokens & Hs & -> & Hone); [|done|done].
      exists a, tokens. split; [by econstructor|done].
  - intros (a & tokens & Hs & -> & Hone). inversion Hs as [|? ? ? ? m a1 a2 a3 ? ? [Hb Hm Hd Hf] Em E1 E2 E3 Hs'|? ? ? ? m ? tokens' [Hb Hm Hd Hf] Em Efile Hsize Hs']; subst.
    + econstructor; try done; cbn [part_begin part_end multipart_callbacks].
      * apply part_begin_iff; [done|]. rewrite Em. by exists a1.
      * apply data_call_stage; [done|]. by exists a2.
      * apply part_end_iff; [done|]. by exists a3.
      * apply IH; [done|done|]. by exists a, tokens.
    + specialize (Hone ltac:(done)). rewrite zlen_cons in Hone. pose proof (zlen_nonneg tokens').
      destruct (proj2 (token_part_iff u data _ Hu) (conj Hsize eq_refl)) as (u2 & E2 & E3).
      econstructor; try done; cbn [part_begin part_end multipart_callbacks].
      * apply part_begin_iff; [done|]. rewrite Em. split; [done|]. split; [lia|done].
      * apply IH; [done|cbn; lia|]. exists a, tokens'. rewrite after_parts_token. split; [done|]. split; [done|]. intros _. cbn. lia.
Qed.

(** ** The calls on an upload *)

(** The pieces of the body are written, each with success. *)
Fixpoint write_pieces (upload : chttp_web_upload_request A) (pieces : list (list Z)) : option (chttp_web_upload_request A) :=
  match pieces with
  | [] => Some upload
  | data :: pieces =>
    match chttp_web_upload_sink_write callbacks upload data with
    | Some (upload, status) => if decide (status = SALTS_OK) then write_pieces upload pieces else None
    | None => None
    end
  end.

Lemma native_status_not_ok status error : chttp_web_upload_native_status status error <> SALTS_OK.
Proof.
  unfold chttp_web_upload_native_status. destruct (bool_decide (we_native_status error = SALTS_OK)) eqn:E; cbn [negb].
  - by destruct status.
  - by apply bool_decide_eq_false in E.
Qed.

(** An upload that reads a body without a failure so far. *)
Definition streaming (u : core) : Prop := up_state u = CHTTP_WEB_UPLOAD_STREAMING /\ up_terminal_status u = CHTTP_WEB_OK.

Lemma streaming_bracketed : bracketed (multipart_callbacks callbacks) streaming streaming streaming.
Proof.
  apply bracketed_invariant.
  - intros u part Hu. cbn. unfold chttp_web_upload_part_begin. by repeat split_if.
  - intros u data Hu. cbn. unfold chttp_web_upload_part_data. by repeat split_if.
  - intros u Hu. cbn. unfold chttp_web_upload_part_end. by repeat split_if.
Qed.

Lemma streaming_feed p data p' e : mp_wf (multipart_callbacks callbacks) p -> streaming (mp_user p) ->
  chttp_web_multipart_feed (multipart_callbacks callbacks) p data = Some (p', e) ->
  mp_wf (multipart_callbacks callbacks) p' /\ streaming (mp_user p').
Proof.
  intros Hp Hu E. setoid_rewrite <- (in_order_invariant streaming). eapply (feed_order streaming_bracketed); [done| |exact E].
  by apply in_order_invariant.
Qed.

Lemma is_streaming u : streaming u -> is_state CHTTP_WEB_UPLOAD_STREAMING u = true.
Proof. intros [E _]. by apply bool_decide_eq_true. Qed.

(** To write is to feed the parser. *)
Lemma write_pieces_feed pieces : forall p q, mp_wf (multipart_callbacks callbacks) p -> streaming (mp_user p) ->
  write_pieces (Opened p) pieces = Some q <->
  exists p', feed_pieces (multipart_callbacks callbacks) p pieces = Some p' /\ q = Opened p'.
Proof.
  induction pieces as [|data pieces IH]; intros p q Hp Hu; cbn [write_pieces feed_pieces].
  { split; [intros [= <-]; by exists p|]. by intros (? & [= <-] & ->). }
  cbn [chttp_web_upload_sink_write]. rewrite is_streaming by done. cbn [negb].
  destruct (chttp_web_multipart_feed _ p data) as [[p1 e]|] eqn:E; [|by split; [|intros (? & ? & _)]].
  destruct (streaming_feed p data p1 e Hp Hu E) as [Hw1 Hu1]. case_bool_decide as Es.
  - rewrite !decide_True by done. by apply IH.
  - rewrite (decide_False (P := we_status e = CHTTP_WEB_OK)) by done. rewrite decide_False by apply native_status_not_ok.
    by split; [|intros (? & ? & _)].
Qed.

Lemma pieces_streaming pieces : forall p p', mp_wf (multipart_callbacks callbacks) p -> streaming (mp_user p) ->
  feed_pieces (multipart_callbacks callbacks) p pieces = Some p' -> streaming (mp_user p').
Proof.
  induction pieces as [|data pieces IH]; intros p p' Hp Hu; cbn [feed_pieces]; [by intros [= <-]|].
  destruct (chttp_web_multipart_feed _ p data) as [[p1 e]|] eqn:E; [|done]. case_decide; [|done].
  destruct (streaming_feed p data p1 e Hp Hu E). by apply IH.
Qed.

(** ** The end of the body *)

Definition completed (u : core) : core :=
  u <| up_terminal_status := CHTTP_WEB_OK |> <| up_terminal_native_status := SALTS_OK |>
    <| up_state := CHTTP_WEB_UPLOAD_BODY_COMPLETE |>.

(** Whether an upload waits for its terminal validation, and its core. *)
Definition ready (upload : chttp_web_upload_request A) (u : core) : Prop :=
  exists p, upload = Opened p /\ mp_user p = u /\ up_state u = CHTTP_WEB_UPLOAD_BODY_COMPLETE.

Lemma abort_once_aborted u status native : up_state u <> CHTTP_WEB_UPLOAD_COMMITTED ->
  up_state (chttp_web_upload_abort_once callbacks u status native) = CHTTP_WEB_UPLOAD_ABORTED.
Proof.
  intros Hc. unfold chttp_web_upload_abort_once, is_state. repeat case_bool_decide; cbn [orb]; try done; cbv zeta; by split_if.
Qed.

Lemma aborting_not_ready status native p u : up_state (mp_user p) = CHTTP_WEB_UPLOAD_STREAMING ->
  ~ ready (aborting callbacks status native p) u.
Proof.
  intros Hs (q & [= <-] & <- & Hr). unfold on_core in Hr. cbn -[chttp_web_upload_abort_once] in Hr.
  rewrite abort_once_aborted in Hr; [done|]. by rewrite Hs.
Qed.

Lemma close_ready p u : streaming (mp_user p) ->
  ready (chttp_web_upload_close callbacks (Opened p) SALTS_OK) u <->
  we_status (chttp_web_multipart_finish (multipart_callbacks callbacks) p).2 = CHTTP_WEB_OK /\
  u = completed (mp_user (chttp_web_multipart_finish (multipart_callbacks callbacks) p).1).
Proof.
  intros Hu. pose proof (finish_user (multipart_callbacks callbacks) p) as Ef. unfold chttp_web_upload_close.
  rewrite is_streaming by done. destruct Hu as [Es Et]. rewrite Et. cbn [negb]. rewrite !(bool_decide_true (_ = _)) by done. cbn [negb].
  destruct (chttp_web_multipart_finish _ p) as [p1 e]. cbn [fst snd] in *. case_bool_decide as He; cbn [negb].
  - split.
    + intros (q & [= <-] & <- & _). done.
    + intros [_ ->]. by eexists.
  - split; [|by intros [? _]]. intros H. exfalso. eapply aborting_not_ready; [|exact H]. by rewrite Ef.
Qed.

(** ** The decision *)

Section Decision.
Context {S : Type} {ops : SessionOps S} {equal : CryptoEqual} {equal_ok : LawfulEqual equal}.

(** The token that a request presents: the header of a request of htmx that has
    it, otherwise the only part of that name. *)
Definition presented (request : web_request) (tokens : list (list Z)) : option (list Z) :=
  match csrf_header request with
  | Some header => Some header
  | None => match tokens with [token] => Some token | _ => None end
  end.

(** A request that may change something presents the token of its session. *)
Definition token_right (request : web_request) (session : option S) (token : option (list Z)) : Prop :=
  chttp_web_csrf_method_unsafe (wq_method request) = true ->
  exists t, chttp_web_csrf_token session = Some t /\ token = Some t.

Definition validation_passed (validation : option chttp_web_validation) : bool :=
  match validation with Some v => vl_sized v && vl_valid v | None => true end.

Lemma token_right_iff request session token :
  we_status (chttp_web_csrf_validate_token request session token) = CHTTP_WEB_OK <-> token_right request session token.
Proof.
  unfold token_right. destruct (chttp_web_csrf_method_unsafe (wq_method request)) eqn:Em.
  - rewrite validate_token_iff by done. split; [by intros ?|by intros H; apply H].
  - split; [done|]. intros _. unfold chttp_web_csrf_validate_token. by rewrite Em.
Qed.

(** An upload that ends with success, and the state of the application. *)
Definition commits (upload : chttp_web_upload_request A) (request : web_request) (session : option S)
    (validation : option chttp_web_validation) (a' : A) : Prop :=
  exists q e, chttp_web_upload_finalize callbacks upload request true session validation = (q, e) /\
    we_status e = CHTTP_WEB_OK /\ chttp_web_upload_user q = Some a'.

Lemma aborted_status_not_ok (u : core) : we_status (chttp_web_upload_aborted_status u) <> CHTTP_WEB_OK.
Proof. cbn. by case_bool_decide. Qed.

Lemma commits_iff upload request session validation a' :
  commits upload request session validation a' <->
  exists u, ready upload u /\ wq_body_streamed request = true /\ token_right request session (upload_candidate u request) /\
    validation_passed validation = true /\ uk_commit callbacks (up_app u) = (a', SALTS_OK).
Proof.
  unfold commits. destruct upload as [app|p].
  { split; [by intros (? & ? & [= <- <-] & ? & _)|by intros (? & (? & ? & _) & _)]. }
  assert ((exists u, ready (Opened p) u /\ wq_body_streamed request = true /\ token_right request session (upload_candidate u request) /\
    validation_passed validation = true /\ uk_commit callbacks (up_app u) = (a', SALTS_OK)) <->
    up_state (mp_user p) = CHTTP_WEB_UPLOAD_BODY_COMPLETE /\ wq_body_streamed request = true /\
    token_right request session (upload_candidate (mp_user p) request) /\
    validation_passed validation = true /\ uk_commit callbacks (up_app (mp_user p)) = (a', SALTS_OK)) as ->.
  { split; [intros (u & (? & [= <-] & <- & Hs) & Hrest); by split|]. intros [Hs Hrest]. exists (mp_user p). split; [by exists p|done]. }
  rewrite <- token_right_iff. unfold chttp_web_upload_finalize. cbn [negb orb]. rewrite orb_false_r.
  destruct (wq_body_streamed request); cbn [negb]; [|split; [by intros (? & ? & [= <- <-] & ? & _)|by intros (_ & ? & _)]].
  unfold is_state. case_bool_decide as E1.
  { split; [|intros (E2 & _); congruence]. intros (? & ? & [= <- <-] & H & _). by apply aborted_status_not_ok in H. }
  case_bool_decide as E2; cbn [negb]; [|split; [by intros (? & ? & [= <- <-] & ? & _)|by intros (? & _)]].
  destruct (chttp_web_csrf_validate_token request session _) as [st nat off msg]. cbn [we_status we_native_status].
  case_bool_decide as E3; cbn [negb]; [|split; [by intros (? & ? & [= <- <-] & ? & _)|by intros (_ & _ & ? & _)]].
  destruct (validation_passed validation) eqn:Ev.
  - assert (match validation with
            | Some v => if negb (vl_sized v) then Some (CHTTP_WEB_INVALID_ARGUMENT,
                         chttp_web_upload_error CHTTP_WEB_INVALID_ARGUMENT SALTS_OK "upload validation state is invalid")
                else if negb (vl_valid v) then Some (CHTTP_WEB_VALIDATION,
                         chttp_web_upload_error CHTTP_WEB_VALIDATION SALTS_OK "upload application validation rejected the request")
                else None
            | None => None end = None) as ->.
    { destruct validation as [[[] []]|]; done. }
    destruct (uk_commit callbacks (up_app (mp_user p))) as [a s]. case_bool_decide as Es; cbn [negb].
    + subst s. split; [intros (? & ? & [= <- <-] & _ & [= <-]); done|]. intros (_ & _ & _ & _ & [= <-]). by eexists _, _.
    + split; [by intros (? & ? & [= <- <-] & ? & _)|]. intros (_ & _ & _ & _ & [= _ ?]). done.
  - split; [|by intros (_ & _ & _ & ? & _)]. destruct validation as [[[] []]|]; try done; by intros (? & ? & [= <- <-] & ? & _).
Qed.

Lemma candidate_after request u a tokens : up_csrf_count u = 0 -> zlen tokens <= 1 ->
  upload_candidate (completed (after_parts u a tokens)) request = presented request tokens.
Proof.
  intros Hc H. unfold upload_candidate, presented. destruct (csrf_header request); [done|].
  destruct tokens as [|t [|t' tokens]]; cbn; rewrite ?Hc; try done. rewrite !zlen_cons in H. pose proof (zlen_nonneg tokens). lia.
Qed.

(** ** A transaction *)

Lemma init_user content_type limits (u u' : core) p e :
  chttp_web_multipart_init (multipart_callbacks callbacks) content_type limits u = (Some p, e) ->
  chttp_web_multipart_init (multipart_callbacks callbacks) content_type limits u' = (Some (p <| mp_user := u' |>), e).
Proof. unfold chttp_web_multipart_init. destruct (if negb _ then _ else _); [|done]. by intros [= <- <-]. Qed.

Lemma open_ok a0 request limits p0 e : chttp_web_upload_open callbacks (Closed a0) request limits = (Opened p0, e) ->
  exists content_type a1 e', chttp_server_request_header (wq_headers request) (bytes_of "Content-Type") = Some content_type /\
    uk_begin callbacks a0 request = (a1, SALTS_OK) /\ mp_user p0 = new_core a1 /\
    chttp_web_multipart_init (multipart_callbacks callbacks) content_type limits (new_core a1) = (Some p0, e').
Proof.
  unfold chttp_web_upload_open. split_if; [done|]. destruct (chttp_server_request_header _ _) as [content_type|]; [|done].
  destruct (chttp_web_multipart_init _ content_type limits (new_core a0)) as [[p|] e'] eqn:Ei; [|done].
  destruct (uk_begin callbacks a0 request) as [a1 s]. case_bool_decide as Es; cbn [negb]; [|done]. intros [= <- <-].
  assert (mp_user p = new_core a0) as Eu.
  { unfold chttp_web_multipart_init in Ei. destruct (if negb _ then _ else _); [|done]. by injection Ei as <- _. }
  exists content_type, a1, e'. split; [done|]. split; [by subst|]. unfold on_core. rewrite Eu. split; [done|].
  by apply (init_user _ _ (new_core a0)).
Qed.

(** A transaction on an opened upload: the body arrives in pieces, the server
    closes the sink, the application finalizes. *)
Definition transaction (p0 : chttp_web_multipart_parser core) (pieces : list (list Z)) (request : web_request)
    (session : option S) (validation : option chttp_web_validation) (a' : A) : Prop :=
  exists q, write_pieces (Opened p0) pieces = Some q /\
    commits (chttp_web_upload_close callbacks q SALTS_OK) request session validation a'.

Lemma transaction_accepts {lawful : LawfulStage} p0 pieces request session validation a' :
  mp_wf (multipart_callbacks callbacks) p0 -> mp_active p0 = true -> mp_failed p0 = false -> streaming (mp_user p0) ->
  transaction p0 pieces request session validation a' <->
  exists u, accepts (multipart_callbacks callbacks) p0 [concat pieces] u /\ wq_body_streamed request = true /\
    token_right request session (upload_candidate (completed u) request) /\
    validation_passed validation = true /\ uk_commit callbacks (up_app u) = (a', SALTS_OK).
Proof.
  intros Hp Ha Hf Hu. unfold transaction, accepts. setoid_rewrite commits_iff. setoid_rewrite write_pieces_feed; [|done..].
  setoid_rewrite <- (feed_pieces_concat _ p0 pieces); [|done..]. split.
  - intros (q & (p1 & Hp1 & ->) & u & Hr & H). apply close_ready in Hr as [Hfin ->]; [|by eapply pieces_streaming].
    eexists. split; [by exists p1|]. exact H.
  - intros (u & (p1 & Hp1 & Hfin & <-) & H).
    pose proof (pieces_streaming pieces p0 p1 Hp Hu Hp1) as Hu1.
    exists (Opened p1). split; [by exists p1|]. exists (completed (mp_user (chttp_web_multipart_finish (multipart_callbacks callbacks) p1).1)).
    split; [by apply close_ready|exact H].
Qed.


End Decision.

End Staged.

End WebUploadTheorems.
