(* ===== verification/WebUploadProtocol.v ===== *)
(** * Upload transactions: the protocol with the application

    Whatever is called on an upload, in any order, the application sees whole
    transactions: a beginning, the parts one after the other, and one end, which
    is a commit that succeeded or an abort. *)

From S2P Require Import Prelude Router Http1Parser Web Multipart MultipartTheorems MultipartLanguage WebForm WebSession.
From S2P Require Import WebUpload WebUploadTheorems MultipartRoundtrip Session SessionTheorems WebSessionTheorems.

Module WebUploadProtocol.
Import Router Http1Parser Web Multipart MultipartTheorems MultipartOrder WebSession WebUpload WebUploadTheorems.

(** ** What the application sees *)

(** The calls of the application, with whether they succeeded. *)
Inductive upload_event :=
  | EvBegin (ok : bool)
  | EvPartBegin (ok : bool)
  | EvPartData (ok : bool)
  | EvPartEnd (ok : bool)
  | EvCommit (ok : bool)
  | EvAbort.

Inductive phase :=
  | Idle
  | BetweenParts
  | InPart
  | PartFailed
  | CommitFailed.

#[export] Instance phase_eq_dec : EqDecision phase.
Proof. solve_decision. Defined.

(** The protocol: what may come next.  After a failure, only the abort. *)
Definition protocol (f : phase) (event : upload_event) : option phase :=
  match f, event with
  | Idle, EvBegin ok => Some (if ok then BetweenParts else Idle)
  | BetweenParts, EvPartBegin ok => Some (if ok then InPart else PartFailed)
  | InPart, EvPartData ok => Some (if ok then InPart else PartFailed)
  | InPart, EvPartEnd ok => Some (if ok then BetweenParts else PartFailed)
  | BetweenParts, EvCommit ok => Some (if ok then Idle else CommitFailed)
  | (BetweenParts | InPart | PartFailed | CommitFailed), EvAbort => Some Idle
  | _, _ => None
  end.

Definition after_events (events : list upload_event) : option phase :=
  foldl (fun f event => f ≫= fun f => protocol f event) (Some Idle) events.

Lemma after_snoc events event : after_events (events ++ [event]) = after_events events ≫= fun f => protocol f event.
Proof. unfold after_events. by rewrite foldl_app. Qed.

Definition is_ok (status : salts_status) : bool := bool_decide (status = SALTS_OK).

Section Protocol.
Context {B : Type} (base : chttp_web_upload_callbacks B).

(** Any application, with the calls that it got. *)
Definition app : Type := B * list upload_event.

Definition noted (event : bool -> upload_event) (a : app) (r : B * salts_status) : app * salts_status :=
  ((r.1, a.2 ++ [event (is_ok r.2)]), r.2).

Definition recording : chttp_web_upload_callbacks app :=
  {| uk_size := uk_size base;
     uk_begin a request := noted EvBegin a (uk_begin base a.1 request);
     uk_part_begin a part := noted EvPartBegin a (uk_part_begin base a.1 part);
     uk_part_data a data := noted EvPartData a (uk_part_data base a.1 data);
     uk_part_end a := noted EvPartEnd a (uk_part_end base a.1);
     uk_commit a := noted EvCommit a (uk_commit base a.1);
     uk_abort a status native := (uk_abort base a.1 status native, a.2 ++ [EvAbort]) |}.

#[local] Abbreviation core := (upload_core app).
#[local] Abbreviation upload := (chttp_web_upload_request app).

Definition at_phase (f : phase) (a : app) : Prop := after_events a.2 = Some f.

Lemma noted_phase event a r f f' : at_phase f a -> protocol f (event (is_ok r.2)) = Some f' -> at_phase f' (noted event a r).1.
Proof. unfold at_phase. cbn [noted fst snd]. intros H E. rewrite after_snoc, H. exact E. Qed.

(** ** While the body is read *)

Definition reading (u : core) : Prop := up_state u = CHTTP_WEB_UPLOAD_STREAMING /\ up_begun u = true.
Definition outside (u : core) : Prop := reading u /\ at_phase BetweenParts (up_app u).
Definition inside (u : core) : Prop := reading u /\ at_phase (if up_csrf_part u then BetweenParts else InPart) (up_app u).
Definition stopped (u : core) : Prop :=
  reading u /\ (at_phase BetweenParts (up_app u) \/ at_phase InPart (up_app u) \/ at_phase PartFailed (up_app u)).

Lemma reading_state u : reading u -> is_state CHTTP_WEB_UPLOAD_STREAMING u = true.
Proof. intros [E _]. by apply bool_decide_eq_true. Qed.

(** The result of a call for a part. *)
Lemma part_call (good : core -> Prop) (event : bool -> upload_event) (u : core) (r : B * salts_status) f f' :
  at_phase f (up_app u) ->
  (forall ok, protocol f (event ok) = Some (if ok then f' else PartFailed)) -> reading u ->
  (forall u', reading u' -> up_csrf_part u' = up_csrf_part u -> at_phase f' (up_app u') -> good u') ->
  let '(u', status) := with_app u (noted event (up_app u) r) in if decide (status = SALTS_OK) then good u' else stopped u'.
Proof.
  intros Hf Hp Hr Hg. unfold with_app. cbn [fst snd noted].
  pose proof (noted_phase event (up_app u) r f _ Hf (Hp (is_ok r.2))) as H. unfold is_ok in H at 1.
  case_decide as Es.
  - rewrite bool_decide_true in H by done. by apply Hg.
  - rewrite bool_decide_false in H by done. split; [done|]. by right; right.
Qed.

Lemma upload_bracketed : bracketed (multipart_callbacks recording) outside inside stopped.
Proof.
  split.
  - intros u part [Hr Hf]. cbn [part_begin multipart_callbacks]. unfold chttp_web_upload_part_begin.
    rewrite reading_state by done. cbn [negb]. split_if.
    + split_if; [split; [done|by left]|done].
    + apply (part_call _ EvPartBegin _ _ BetweenParts InPart); [done|by intros []|done|].
      intros u' Hr' Ec Hf'. split; [done|]. by rewrite Ec.
  - intros u data [Hr Hf]. cbn [part_data multipart_callbacks]. unfold chttp_web_upload_part_data.
    rewrite reading_state by done. cbn [negb]. destruct (up_csrf_part u) eqn:Ec; cbn [negb].
    + split_if; [split; [done|by left]|]. rewrite decide_True by done. split; [done|]. cbn. by rewrite Ec.
    + apply (part_call _ EvPartData _ _ InPart InPart); [done|by intros []|done|].
      intros u' Hr' Ec' Hf'. split; [done|]. by rewrite Ec', Ec.
  - intros u [Hr Hf]. cbn [part_end multipart_callbacks]. unfold chttp_web_upload_part_end.
    rewrite reading_state by done. cbn [negb]. destruct (up_csrf_part u) eqn:Ec; cbn [negb]; [done|].
    apply (part_call _ EvPartEnd _ _ InPart BetweenParts); [done|by intros []|done|]. by intros u' Hr' _ Hf'.
  - intros u [Hr Hf]. split; [done|by left].
  - intros u [Hr Hf]. split; [done|]. destruct (up_csrf_part u); auto.
Qed.

(** ** Every call *)

(** The phase that the state of an upload goes with. *)
Definition upload_inv (q : upload) : Prop :=
  match q with
  | Closed a => at_phase Idle a
  | Opened p =>
    mp_wf (multipart_callbacks recording) p /\
    match up_state (mp_user p) with
    | CHTTP_WEB_UPLOAD_STREAMING => in_order (outside := outside) (inside := inside) (stopped := stopped) p
    | CHTTP_WEB_UPLOAD_BODY_COMPLETE => up_begun (mp_user p) = true /\ at_phase BetweenParts (up_app (mp_user p))
    | CHTTP_WEB_UPLOAD_COMMITTED | CHTTP_WEB_UPLOAD_ABORTED => at_phase Idle (up_app (mp_user p))
    end
  end.

Definition open_phase (f : phase) : bool := negb (bool_decide (f = Idle)).

Lemma abort_once_phase (u : core) status native f :
  up_state u <> CHTTP_WEB_UPLOAD_ABORTED -> up_state u <> CHTTP_WEB_UPLOAD_COMMITTED -> up_begun u = true ->
  at_phase f (up_app u) -> open_phase f = true ->
  at_phase Idle (up_app (chttp_web_upload_abort_once recording u status native)).
Proof.
  intros H1 H2 Hb Hf Ho. unfold chttp_web_upload_abort_once, is_state. rewrite !bool_decide_false by done. cbn [orb].
  cbv zeta. match goal with |- context [if up_begun ?v then _ else _] => change (up_begun v) with (up_begun u) end. rewrite Hb.
  unfold at_phase in *. cbn [up_app recording uk_abort snd]. cbn. rewrite after_snoc, Hf. by destruct f.
Qed.

Lemma aborting_inv p status native f : mp_wf (multipart_callbacks recording) p ->
  up_state (mp_user p) <> CHTTP_WEB_UPLOAD_ABORTED -> up_state (mp_user p) <> CHTTP_WEB_UPLOAD_COMMITTED ->
  up_begun (mp_user p) = true -> at_phase f (up_app (mp_user p)) -> open_phase f = true ->
  upload_inv (aborting recording status native p).
Proof.
  intros Hp H1 H2 Hb Hf Ho. split; [by apply user_wf|].
  unfold on_core. cbn -[chttp_web_upload_abort_once]. rewrite abort_once_aborted by done. by eapply abort_once_phase.
Qed.

Lemma stopped_aborting p status native : mp_wf (multipart_callbacks recording) p -> stopped (mp_user p) ->
  upload_inv (aborting recording status native p).
Proof.
  intros Hp [[Es Eb] Hf]. assert (exists f, at_phase f (up_app (mp_user p)) /\ open_phase f = true) as (f & Hat & Ho).
  { destruct Hf as [H|[H|H]]; eexists; (split; [exact H|done]). }
  by eapply aborting_inv; [..|exact Hat|exact Ho]; rewrite ?Es.
Qed.

Lemma open_inv q request limits : limits_range limits -> upload_inv q ->
  upload_inv (chttp_web_upload_open recording q request limits).1.
Proof.
  intros Hl Hq. destruct q as [a|p]; [|done]. cbn in Hq. unfold chttp_web_upload_open. split_if; [done|].
  destruct (chttp_server_request_header _ _) as [content_type|]; [|done].
  destruct (chttp_web_multipart_init _ content_type limits (new_core a)) as [[p|] e] eqn:Ei; [|done].
  pose proof (noted_phase EvBegin a (uk_begin base a.1 request) Idle _ Hq eq_refl) as Hb.
  cbn [uk_begin recording]. destruct (noted EvBegin a (uk_begin base a.1 request)) as [a1 s] eqn:En. cbn [fst] in Hb.
  assert (s = (uk_begin base a.1 request).2) as Es by (by injection En). rewrite <- Es in Hb. unfold is_ok in Hb.
  case_bool_decide as Eok; cbn [negb]; [|exact Hb].
  apply init_wf in Ei as (Hp & _ & Hf & Hs & _ & _ & _ & _ & Hu & _); [|done]. split; [by apply user_wf|].
  unfold on_core, in_order. cbn. rewrite Hu, Hf, Hs. cbn. split; [done|exact Hb].
Qed.

Lemma write_inv q data q' status : upload_inv q -> chttp_web_upload_sink_write recording q data = Some (q', status) -> upload_inv q'.
Proof.
  intros Hq. destruct q as [a|p]; [by intros [= <- _]|]. cbn [chttp_web_upload_sink_write]. unfold is_state.
  case_bool_decide as Es; cbn [negb]; [|by intros [= <- _]]. destruct Hq as [Hp Ho]. rewrite Es in Ho.
  destruct (chttp_web_multipart_feed _ p data) as [[p1 e]|] eqn:Ef; [|done].
  destruct (feed_order upload_bracketed p data p1 e Hp Ho Ef) as [Hp1 Ho1].
  destruct (order_stopped upload_bracketed p1 Ho1) as [[Es1 _] _].
  split_if; intros [= <- <-].
  - split; [done|]. by rewrite Es1.
  - split; [by apply user_wf|]. unfold on_core. cbn. rewrite Es1. exact Ho1.
Qed.

Lemma close_inv q status : upload_inv q -> upload_inv (chttp_web_upload_close recording q status).
Proof.
  intros Hq. destruct q as [a|p]; [done|]. unfold chttp_web_upload_close, is_state.
  case_bool_decide as Es; cbn [negb]; [|done]. destruct Hq as [Hp Ho]. rewrite Es in Ho.
  pose proof (order_stopped upload_bracketed p Ho) as Hst.
  destruct (bool_decide (status = SALTS_OK)); cbn [negb]; [|by apply stopped_aborting].
  destruct (bool_decide (up_terminal_status (mp_user p) = CHTTP_WEB_OK)); cbn [negb]; [|by apply stopped_aborting].
  destruct (chttp_web_multipart_finish _ p) as [p1 e] eqn:Ef.
  destruct (finish_order upload_bracketed p p1 e Hp Ho Ef) as (Hp1 & Ho1 & Hout).
  pose proof (order_stopped upload_bracketed p1 Ho1) as Hst1. case_bool_decide as Ee; cbn [negb]; [|by apply stopped_aborting].
  destruct (Hout Ee) as [[_ Hb] Hf]. split; [by apply user_wf|]. done.
Qed.

Lemma abort_inv q status native : upload_inv q -> upload_inv (chttp_web_upload_abort recording q status native).1.
Proof.
  intros Hq. destruct q as [a|p]; [done|]. unfold chttp_web_upload_abort. split_if; [done|]. cbn [fst].
  unfold is_state in *. bool_prop. split_if; [|done]. bool_prop. destruct Hq as [Hp Hq].
  destruct (up_state (mp_user p)) eqn:Es; try done.
  - apply stopped_aborting; [done|]. by apply (order_stopped upload_bracketed).
  - destruct Hq as [Hb Hf]. by eapply aborting_inv; [..|exact Hf|done]; rewrite ?Es.
Qed.

Lemma reset_inv q : upload_inv q -> upload_inv (chttp_web_upload_reset q).1.
Proof.
  intros Hq. destruct q as [a|p]; [done|]. pose proof Hq as [_ Hs]. unfold chttp_web_upload_reset, is_state.
  by destruct (up_state (mp_user p)).
Qed.

Section Finalize.
Context {S : Type} {ops : SessionOps S} {equal : CryptoEqual}.

Lemma finalize_inv q request sink_user (session : option S) validation :
  upload_inv q -> upload_inv (chttp_web_upload_finalize recording q request sink_user session validation).1.
Proof.
  intros Hq. destruct q as [a|p]; [done|]. unfold chttp_web_upload_finalize, is_state. split_if; [done|].
  case_bool_decide as E1; [done|]. case_bool_decide as E2; cbn [negb]; [|done]. destruct Hq as [Hp Hq].
  rewrite E2 in Hq. destruct Hq as [Hb Hf].
  assert (forall status native, upload_inv (aborting recording status native p)) as Hab.
  { intros. by eapply aborting_inv; [..|exact Hf|done]; rewrite ?E2. }
  cbv zeta. split_if; [apply Hab|]. destruct (match validation with Some v => _ | None => _ end) as [[st e]|]; [apply Hab|].
  pose proof (noted_phase EvCommit (up_app (mp_user p)) (uk_commit base (up_app (mp_user p)).1) BetweenParts _ Hf eq_refl) as Hc.
  cbn [uk_commit recording]. destruct (noted EvCommit _ (uk_commit base _)) as [a1 s] eqn:En. cbn [fst] in Hc.
  assert (s = (uk_commit base (up_app (mp_user p)).1).2) as Es by (by injection En). rewrite <- Es in Hc. unfold is_ok in Hc.
  case_bool_decide as Eok; cbn [negb].
  - split; [unfold on_core; by do 2 apply user_wf|]. exact Hc.
  - eapply (aborting_inv _ _ _ CommitFailed); [by apply user_wf|by cbn; rewrite E2..|exact Hb|exact Hc|done].
Qed.

(** ** Any sequence of calls *)

Inductive upload_call :=
  | CallOpen (request : web_request) (limits : chttp_web_multipart_limits)
  | CallWrite (data : list Z)
  | CallClose (status : salts_status)
  | CallFinalize (request : web_request) (sink_user : bool) (session : option S) (validation : option chttp_web_validation)
  | CallAbort (status : chttp_web_status) (native_status : salts_status)
  | CallReset.

(** [None] is a loop of the parser that was cut short. *)
Definition upload_step (q : upload) (call : upload_call) : option upload :=
  match call with
  | CallOpen request limits => Some (chttp_web_upload_open recording q request limits).1
  | CallWrite data => fst <$> chttp_web_upload_sink_write recording q data
  | CallClose status => Some (chttp_web_upload_close recording q status)
  | CallFinalize request sink_user session validation =>
    Some (chttp_web_upload_finalize recording q request sink_user session validation).1
  | CallAbort status native_status => Some (chttp_web_upload_abort recording q status native_status).1
  | CallReset => Some (chttp_web_upload_reset q).1
  end.

Definition upload_run (q : upload) (calls : list upload_call) : option upload :=
  foldl (fun q call => q ≫= fun q => upload_step q call) (Some q) calls.

(** The limits are sizes of the machine. *)
Definition call_ok (call : upload_call) : Prop :=
  match call with CallOpen _ limits => limits_range limits | _ => True end.

(** The transactions are over. *)
Definition upload_over (q : upload) : bool :=
  match q with
  | Closed _ => true
  | Opened p => is_state CHTTP_WEB_UPLOAD_COMMITTED (mp_user p) || is_state CHTTP_WEB_UPLOAD_ABORTED (mp_user p)
  end.

Definition upload_app (q : upload) : app := match q with Closed a => a | Opened p => up_app (mp_user p) end.

Lemma step_inv q call : upload_inv q -> call_ok call -> exists q', upload_step q call = Some q' /\ upload_inv q'.
Proof.
  intros Hq Hc. destruct call; cbn [upload_step].
  - eexists. split; [done|]. by apply open_inv.
  - destruct (chttp_web_upload_sink_write recording q data) as [[q' status]|] eqn:E.
    + exists q'. split; [done|]. by eapply write_inv.
    + exfalso. destruct q as [a|p]; [done|]. revert E. cbn [chttp_web_upload_sink_write]. split_if; [done|].
      destruct (feed_total (multipart_callbacks recording) p data (proj1 Hq)) as (p' & e & -> & _). by split_if.
  - eexists. split; [done|]. by apply close_inv.
  - eexists. split; [done|]. by apply finalize_inv.
  - eexists. split; [done|]. by apply abort_inv.
  - eexists. split; [done|]. by apply reset_inv.
Qed.

Lemma inv_over q : upload_inv q -> exists f, at_phase f (upload_app q) /\ (upload_over q = true <-> f = Idle).
Proof.
  intros Hq. destruct q as [a|p]; [by exists Idle|]. destruct Hq as [Hp Hq]. cbn [upload_app upload_over]. unfold is_state.
  destruct (up_state (mp_user p)) eqn:Es; cbn.
  - destruct (order_stopped upload_bracketed p Hq) as [_ [H|[H|H]]]; eexists; (split; [exact H|done]).
  - exists BetweenParts. by destruct Hq.
  - by exists Idle.
  - by exists Idle.
Qed.

Lemma run_inv calls : forall q, upload_inv q -> Forall call_ok calls -> exists q', upload_run q calls = Some q' /\ upload_inv q'.
Proof.
  induction calls as [|call calls IH]; intros q Hq Hok; [by exists q|]. inversion_clear Hok.
  destruct (step_inv q call) as (q1 & E1 & H1); [done..|]. destruct (IH q1) as (q' & E & Hq'); [done..|].
  exists q'. split; [|done]. unfold upload_run in *. cbn. by rewrite E1.
Qed.

(** C35: Any calls on an upload, in any order, return; and the application of the
    upload, whatever it answers, has seen whole transactions: a beginning, the
    parts one after the other, the data of a part within it, nothing more after a
    call that failed, and as the only end a commit that succeeded or an abort. No
    transaction is open exactly when the upload is closed, committed or aborted. *)
Theorem upload_protocol (b : B) calls : Forall call_ok calls ->
  exists q f, upload_run (Closed (b, [])) calls = Some q /\ after_events (upload_app q).2 = Some f /\
    (upload_over q = true <-> f = Idle).
Proof.
  intros Hok. destruct (run_inv calls (Closed (b, []))) as (q & E & Hq); [done..|].
  destruct (inv_over q Hq) as (f & Hf & Ho). by exists q, f.
Qed.

End Finalize.

End Protocol.

End WebUploadProtocol.

(** * Upload transactions: an upload

    An application that collects the parts, and a body with a token and a file,
    in pieces that cut both. *)

Module WebUploadExample.
Import Router Http1Parser Web Multipart MultipartTheorems MultipartLanguage MultipartRoundtrip Session SessionTheorems WebSession WebSessionTheorems WebUpload WebUploadTheorems WebUploadProtocol.

Record gallery := {
  staging : list (list Z * list Z);
  published : list (list Z * list Z);
}.

Definition extend (data : list Z) (parts : list (list Z * list Z)) : list (list Z * list Z) :=
  match parts with (name, old) :: parts => (name, old ++ data) :: parts | [] => [] end.

Definition gallery_callbacks : chttp_web_upload_callbacks gallery :=
  {| uk_size := sizeof_upload_callbacks;
     uk_begin g _ := ({| staging := []; published := published g |}, SALTS_OK);
     uk_part_begin g part := ({| staging := (part_name part, []) :: staging g; published := published g |}, SALTS_OK);
     uk_part_data g data := ({| staging := extend data (staging g); published := published g |}, SALTS_OK);
     uk_part_end g := (g, SALTS_OK);
     uk_commit g := ({| staging := []; published := staging g ++ published g |}, SALTS_OK);
     uk_abort g _ _ := {| staging := []; published := published g |} |}.

#[export] Instance gallery_lawful : LawfulStage gallery_callbacks.
Proof.
  intros g x y g' _ _. cbn. assert (extend (x ++ y) (staging g) = extend y (extend x (staging g))) as ->.
  { destruct (staging g) as [|[name old] parts]; [done|]. cbn. by rewrite app_assoc. }
  split; [intros [= <-]; by eexists|]. by intros (? & [= <-] & [= <-]).
Qed.

Definition nothing : gallery := {| staging := []; published := [] |}.

Definition upload_post : web_request :=
  {| wq_method := CHTTP_METHOD_POST; wq_target := bytes_of "/gallery";
     wq_headers := [(bytes_of "Content-Type", example_type)]; wq_body_streamed := true |}.

Definition part_block (name : String.string) : list Z :=
  bytes_of "Content-Disposition: form-data; name=" ++ QUOTE :: bytes_of name ++ [QUOTE; CR; LF; CR; LF].
Arguments part_block name%_string_scope.

Definition upload_body : list Z :=
  body_wire (bytes_of "AaB03x")
    [(bytes_of "Content-Disposition: form-data; name=" ++ QUOTE :: CHTTP_WEB_CSRF_FORM_FIELD ++ [QUOTE; CR; LF; CR; LF], hex_text token_bytes);
     (part_block "photo", bytes_of "pixels")].

Definition upload_pieces : list (list Z) := [take 100 upload_body; drop 100 upload_body].

Definition opened_parser : option (chttp_web_multipart_parser (upload_core gallery)) :=
  match (chttp_web_upload_open gallery_callbacks (Closed nothing) upload_post default_limits).1 with Opened p => Some p | Closed _ => None end.

Definition gallery_parser : chttp_web_multipart_parser (upload_core gallery) :=
  Eval vm_compute in match opened_parser with Some p => p | None =>
    (chttp_web_multipart_start_body
      {| mp_size := 0; mp_limits := default_limits; mp_boundary := []; mp_header_bytes := []; mp_part_name := []; mp_part_filename := [];
         mp_part_content_type := []; mp_pending := []; mp_total_bytes := 0; mp_part_count := 0; mp_field_bytes := 0;
         mp_initial_index := 0; mp_state := CHTTP_WEB_MP_INITIAL; mp_suffix_state := 0; mp_active := false; mp_failed := false;
         mp_current_file := false; mp_has_filename := false; mp_has_content_type := false; mp_user := new_core nothing |}) end.


(** A body that breaks off in a part, closed and then opened again. *)
Lemma upload_protocol_witness :
  let calls := [CallOpen (S := store * chttp_session_context) upload_post default_limits; CallWrite (take 150 upload_body);
    CallWrite (take 40 (drop 150 upload_body)); CallClose SALTS_OK; CallReset; CallOpen upload_post default_limits] in
  exists q f, upload_run gallery_callbacks (Closed (nothing, [])) calls = Some q /\ after_events (upload_app q).2 = Some f /\
    (upload_over q = true <-> f = Idle).
Proof.
  apply (upload_protocol gallery_callbacks nothing).
  repeat constructor; vm_compute; try split; discriminate.
Defined.

(** What the application saw then. *)
Example broken_off_events :
  (fun q => (upload_app q).2) <$> upload_run gallery_callbacks (Closed (nothing, []))
    [CallOpen (S := store * chttp_session_context) upload_post default_limits; CallWrite (take 150 upload_body);
     CallWrite (take 40 (drop 150 upload_body)); CallClose SALTS_OK; CallReset; CallOpen upload_post default_limits] =
  Some [EvBegin true; EvPartBegin true; EvPartData true; EvAbort; EvBegin true].
Proof. vm_compute. reflexivity. Qed.

End WebUploadExample.
