(* ===== verification/FileService.v ===== *)
(** * Files as responses

    Model of [http_server/src/chttp_server_file_service.c] and of
    [chttp_server_send_file] in [chttp_server_files.c]: conditional requests,
    ranges and the response that has a file as its body.

    A C string is the list of its bytes; a cursor into it is what remains.  What
    the platform gives is a parameter: the metadata of files, the calendar, and
    the parser of dates; the clock is an argument.  A transfer from a file, which
    reads the file while the response is sent, is an opaque number or the status
    with which it could not be made; the number is the read function of the
    source and of its cleanup. *)

From S2P Require Import Prelude Decimal HpackBuffer Router Http1Parser ServerBuffer Session Response Jwt Middleware.

Module FileService.
Import Decimal HpackBuffer Router Http1Parser ServerBuffer Session Response Jwt Middleware.

(** ** The platform *)

Record cmeta_fs_stat_t := {
  st_size : Z;
  st_mtime : Z;
  st_ctime : Z;
  st_is_file : bool;
  st_is_directory : bool;
  st_is_symlink : bool;
}.

(** [cmeta_fs_stat] follows a symbolic link, [cmeta_fs_lstat] does not.  Both are
    functions of the path: the files do not change during a request. *)
Class FileSystem := {
  cmeta_fs_stat : list Z -> outcome cmeta_fs_stat_t;
  cmeta_fs_lstat : list Z -> outcome cmeta_fs_stat_t;
}.

Record datetime_t := {
  dt_year : Z;
  dt_month : Z;
  dt_day : Z;
  dt_hour : Z;
  dt_minute : Z;
  dt_second : Z;
}.

Class DatetimeParser := {
  datetime_parse : list Z -> option datetime_t;
  datetime_to_time : datetime_t -> Z;
}.

(** The transfer of [length] bytes of the file from [offset] on. *)
Class FileTransfers := chttp_file_transfer_open : list Z -> Z -> Z -> bool -> Z + salts_status.

Definition FILE_ETAG_CAPACITY : Z := 80.
Definition HTTP_DATE_INPUT_CAPACITY : Z := 64.
Definition MICROSECONDS_PER_SECOND : Z := 1000000.
Definition MILLISECONDS_PER_SECOND : Z := 1000.
Definition YEAR_BASE : Z := 1900.
Definition CENTURY : Z := 100.
Definition OBS_YEAR_WINDOW : Z := 50.

Definition QUOTE : Z := 34.
Definition STAR : Z := 42.
Definition DASH : Z := 45.

(** ** Entity tags *)

Fixpoint file_skip_space (value : list Z) : list Z :=
  match value with
  | c :: rest => if (c =? SPACE) || (c =? TAB) then file_skip_space rest else value
  | [] => []
  end.

Definition is_weak (tag : list Z) : bool := bytes_eqb (ztake 2 tag) (bytes_of "W/").

Definition opaque (tag : list Z) : list Z := if is_weak tag then zdrop 2 tag else tag.

Fixpoint tag_end_loop (tag : list Z) : option (list Z) :=
  match tag with
  | [] => None
  | ch :: rest =>
    if ch =? QUOTE then Some rest
    else if (ch <? 33) || (ch =? 127) then None
    else tag_end_loop rest
  end.

(** What follows the tag. *)
Definition file_tag_end (tag : list Z) : option (list Z) :=
  match opaque tag with
  | ch :: rest => if ch =? QUOTE then tag_end_loop rest else None
  | [] => None
  end.

(** Whether the string from [candidate] to its rest [after] is [current]. *)
Definition same_span (candidate after current : list Z) : bool :=
  (zlen candidate - zlen after =? zlen current) && bytes_eqb (ztake (zlen current) candidate) current.

(** [None] is a list that is malformed. *)
Fixpoint tag_matches_loop (fuel : nat) (field etag : list Z) (strong matched : bool) : option bool :=
  match field, fuel with
  | [], _ => Some matched
  | _, O => None
  | ch :: rest, S fuel =>
    if ch =? COMMA then tag_matches_loop fuel (file_skip_space rest) etag strong matched
    else
      match file_tag_end field with
      | None => None
      | Some after =>
        let matched :=
          matched ||
          ((negb strong || (negb (is_weak field) && negb (is_weak etag))) &&
           same_span (opaque field) after (opaque etag)) in
        match file_skip_space after with
        | [] => Some matched
        | ch :: rest => if ch =? COMMA then tag_matches_loop fuel (file_skip_space rest) etag strong matched else None
        end
      end
  end.

Definition starts_star (field : list Z) : bool :=
  match file_skip_space field with ch :: _ => ch =? STAR | [] => false end.

Definition is_empty (s : list Z) : bool := match s with [] => true | _ => false end.

Definition file_tag_matches (field etag : list Z) (strong : bool) : option bool :=
  let field := file_skip_space field in
  match field with
  | ch :: rest =>
    if ch =? STAR then if is_empty (file_skip_space rest) then Some true else None
    else tag_matches_loop (length field) field etag strong false
  | [] => Some false
  end.

(** What the fields of a condition say together: [TagsAbsent] is -2,
    [TagsMalformed] is -1. *)
Inductive tags_result :=
  | TagsAbsent
  | TagsMalformed
  | TagsMatch (matched : bool).

Fixpoint request_tags_loop (headers : list (list Z * list Z)) (name etag : list Z) (strong : bool)
    (result : option bool) (count : Z) (wildcard : bool) : tags_result :=
  match headers with
  | [] => match result with None => TagsAbsent | Some matched => TagsMatch matched end
  | h :: headers =>
    match chttp_server_request_header [h] name with
    | None => request_tags_loop headers name etag strong result count wildcard
    | Some value =>
      let count := count + 1 in
      let wildcard := wildcard || starts_star value in
      match file_tag_matches value etag strong with
      | None => TagsMalformed
      | Some matched =>
        if (1 <? count) && wildcard then TagsMalformed
        else
          request_tags_loop headers name etag strong
            (Some (match result with None => matched | Some previous => previous || matched end)) count wildcard
      end
    end
  end.

Definition file_request_tags (request : server_request) (name etag : list Z) (strong : bool) : tags_result :=
  request_tags_loop (sq_headers request) name etag strong None 0 false.

Fixpoint single_header_loop (headers : list (list Z * list Z)) (name : list Z) (result : option (list Z)) : option (list Z) :=
  match headers with
  | [] => result
  | h :: headers =>
    match chttp_server_request_header [h] name with
    | None => single_header_loop headers name result
    | Some value => match result with Some _ => None | None => single_header_loop headers name (Some value) end
    end
  end.

Definition file_single_header (request : server_request) (name : list Z) : option (list Z) :=
  single_header_loop (sq_headers request) name None.

Definition starts_quote (s : list Z) : bool := match s with ch :: _ => ch =? QUOTE | [] => false end.

Definition file_if_range_matches (value etag : list Z) : bool :=
  let value := file_skip_space value in
  if negb (starts_quote value) || negb (starts_quote etag) then false
  else
    match file_tag_end value with
    | None => false
    | Some after => is_empty (file_skip_space after) && same_span value after etag
    end.

(** ** Ranges *)

Fixpoint decimal_digits (cursor : list Z) (number : Z) : option (Z * list Z) :=
  match cursor with
  | ch :: rest =>
    if (48 <=? ch) && (ch <=? 57) then
      let digit := ch - 48 in
      if (SIZE_MAX - digit) / 10 <? number then None else decimal_digits rest (number * 10 + digit)
    else Some (number, cursor)
  | [] => Some (number, cursor)
  end.

(** The number and what follows it; [None] when it is too large or not there. *)
Definition file_decimal (cursor : list Z) : option (Z * list Z) :=
  match decimal_digits cursor 0 with
  | Some (number, rest) => if zlen rest =? zlen cursor then None else Some (number, rest)
  | None => None
  end.

Inductive range_result :=
  | RangeIgnored
  | RangeSelected (offset length : Z)
  | RangeUnsatisfiable.

Definition BYTES_UNIT : list Z := bytes_of "bytes=".

Definition file_range (field : list Z) (size : Z) : range_result :=
  let field := file_skip_space field in
  if negb (bytes_eqb (ztake (zlen BYTES_UNIT) field) BYTES_UNIT) then RangeIgnored
  else
    let field := zdrop (zlen BYTES_UNIT) field in
    let suffix := match field with ch :: _ => ch =? DASH | [] => false end in
    match (if suffix then Some (0, field) else file_decimal field) with
    | None => RangeIgnored
    | Some (first, field) =>
      match field with
      | [] => RangeIgnored
      | ch :: field =>
        if negb (ch =? DASH) then RangeIgnored
        else
          let open_end := is_empty (file_skip_space field) in
          match (if negb open_end || suffix then file_decimal field else Some (0, field)) with
          | None => RangeIgnored
          | Some (last, field) =>
            if negb (is_empty (file_skip_space field)) then RangeIgnored
            else if negb suffix && negb open_end && (last <? first) then RangeIgnored
            else if (size =? 0) || (suffix && (last =? 0)) || (negb suffix && (size <=? first)) then RangeUnsatisfiable
            else if suffix then
              let length := if last <? size then last else size in
              RangeSelected (size - length) length
            else
              let last := if open_end || (size <=? last) then size - 1 else last in
              RangeSelected first (last - first + 1)
          end
      end
    end.

(** ** Dates *)

(** The conversions of [sscanf] that the two formats use. *)
Inductive directive :=
  | Literal (c : Z)
  | White
  | IntWidth (width : nat)
  | StrWidth (width : nat)
  | NotComma (width : nat).

Inductive scanned :=
  | ScanInt (value : Z)
  | ScanStr (value : list Z).

Definition isspace (c : Z) : bool := (c =? 32) || ((9 <=? c) && (c <=? 13)).
Definition isdigit (c : Z) : bool := (48 <=? c) && (c <=? 57).

Fixpoint skip_white (s : list Z) : list Z :=
  match s with c :: rest => if isspace c then skip_white rest else s | [] => [] end.

Fixpoint take_while (test : Z -> bool) (width : nat) (s : list Z) : list Z * list Z :=
  match s, width with
  | c :: rest, S width => if test c then let '(a, b) := take_while test width rest in (c :: a, b) else ([], s)
  | _, _ => ([], s)
  end.

Definition some_str (r : list Z * list Z) : option (scanned * list Z) :=
  match r.1 with [] => None | _ => Some (ScanStr r.1, r.2) end.

Definition scan_int (width : nat) (s : list Z) : option (scanned * list Z) :=
  let s := skip_white s in
  let '(sign, s, width) :=
    match s, width with
    | c :: rest, S width' => if c =? 45 then (-1, rest, width') else if c =? 43 then (1, rest, width') else (1, s, width)
    | _, _ => (1, s, width)
    end in
  let '(digits, rest) := take_while isdigit width s in
  match digits with [] => None | _ => Some (ScanInt (sign * number digits), rest) end.

(** The conversions, all of which must succeed, and the rest. *)
Fixpoint sscanf (format : list directive) (s : list Z) : option (list scanned * list Z) :=
  match format with
  | [] => Some ([], s)
  | Literal c :: format => match s with c' :: rest => if c' =? c then sscanf format rest else None | [] => None end
  | White :: format => sscanf format (skip_white s)
  | IntWidth width :: format => '(v, s) ← scan_int width s; '(vs, s) ← sscanf format s; Some (v :: vs, s)
  | StrWidth width :: format =>
    '(v, s) ← some_str (take_while (fun c => negb (isspace c)) width (skip_white s)); '(vs, s) ← sscanf format s; Some (v :: vs, s)
  | NotComma width :: format =>
    '(v, s) ← some_str (take_while (fun c => negb (c =? COMMA)) width s); '(vs, s) ← sscanf format s; Some (v :: vs, s)
  end.

Definition COLON : Z := 58.

Definition RFC850_FORMAT : list directive :=
  [NotComma 15; Literal COMMA; White; IntWidth 2; Literal DASH; StrWidth 3; Literal DASH; IntWidth 2; White; IntWidth 2;
   Literal COLON; IntWidth 2; Literal COLON; IntWidth 2; White; StrWidth 3].

Definition ASCTIME_FORMAT : list directive :=
  [StrWidth 3; White; StrWidth 3; White; IntWidth 2; White; IntWidth 2; Literal COLON; IntWidth 2; Literal COLON; IntWidth 2;
   White; IntWidth 4].

(** [%0nd] of any number. *)
Definition padded_int (n : nat) (value : Z) : list Z :=
  if value <? 0 then 45 :: padded (n - 1) (- value) else padded n value.

Definition normalized_date (weekday month : list Z) (day year hour minute second : Z) : list Z :=
  ztake 3 weekday ++ bytes_of ", " ++ padded_int 2 day ++ [SPACE] ++ month ++ [SPACE] ++ padded_int 4 year ++ [SPACE] ++
  padded_int 2 hour ++ [COLON] ++ padded_int 2 minute ++ [COLON] ++ padded_int 2 second ++ bytes_of " GMT".

Section Dates.
Context {gmtime : Gmtime} {parser : DatetimeParser}.

(** The year of a date with two digits. *)
Definition full_year (now_ms year : Z) : option Z :=
  utc ← cmeta_gmtime (now_ms / MILLISECONDS_PER_SECOND);
  let current_year := tm_year utc + YEAR_BASE in
  let year := year + Z.quot current_year CENTURY * CENTURY in
  Some (if current_year + OBS_YEAR_WINDOW <? year then year - CENTURY else year).

Definition rfc850_date (value : list Z) : option (list Z * Z * list Z * Z * (Z * Z * Z)) :=
  match sscanf RFC850_FORMAT value with
  | Some ([ScanStr weekday; ScanInt day; ScanStr month; ScanInt year; ScanInt hour; ScanInt minute; ScanInt second; ScanStr zone], []) =>
    if bytes_eqb zone (bytes_of "GMT") then Some (weekday, day, month, year, (hour, minute, second)) else None
  | _ => None
  end.

Definition asctime_date (value : list Z) : option (list Z * Z * list Z * Z * (Z * Z * Z)) :=
  match sscanf ASCTIME_FORMAT value with
  | Some ([ScanStr weekday; ScanStr month; ScanInt day; ScanInt hour; ScanInt minute; ScanInt second; ScanInt year], []) =>
    Some (weekday, day, month, year, (hour, minute, second))
  | _ => None
  end.

(** The two obsolete formats, in the form of the current one. *)
Definition obsolete_date (value : list Z) (now_ms : Z) : option (list Z) :=
  '(weekday, day, month, year, (hour, minute, second)) ←
    match rfc850_date value with
    | Some (weekday, day, month, year, time) => year ← full_year now_ms year; Some (weekday, day, month, year, time)
    | None => asctime_date value
    end;
  let normalized := normalized_date weekday month day year hour minute second in
  if zlen normalized =? CHTTP_SERVER_DATE_BYTES then Some normalized else None.

Fixpoint trim_space_end (s : list Z) : list Z :=
  match s with
  | [] => []
  | c :: rest =>
    match trim_space_end rest with
    | [] => if (c =? SPACE) || (c =? TAB) then [] else [c]
    | rest => c :: rest
    end
  end.

Definition current_format (value : list Z) : bool :=
  (zlen value =? CHTTP_SERVER_DATE_BYTES) && (zth value 3 =? COMMA) && bytes_eqb (zdrop 26 value) (bytes_of "GMT").

Definition date_in_range (date : datetime_t) : bool :=
  negb ((dt_year date <? YEAR_BASE) || (dt_month date <? 1) || (12 <? dt_month date) || (dt_day date <? 1) ||
        (31 <? dt_day date) || (dt_hour date <? 0) || (23 <? dt_hour date) || (dt_minute date <? 0) ||
        (59 <? dt_minute date) || (dt_second date <? 0) || (59 <? dt_second date)).

Definition file_http_date (value : list Z) (now_ms : Z) : option Z :=
  let trimmed := trim_space_end (file_skip_space value) in
  if HTTP_DATE_INPUT_CAPACITY <=? zlen trimmed then None
  else
    value ← (if current_format trimmed then Some trimmed else obsolete_date trimmed now_ms);
    date ← datetime_parse value;
    if negb (date_in_range date) then None
    else
      let out := datetime_to_time date in
      if out =? -1 then None
      else
        utc ← cmeta_gmtime out;
        if (tm_year utc + YEAR_BASE =? dt_year date) && (tm_mon utc + 1 =? dt_month date) && (tm_mday utc =? dt_day date)
        then Some out else None.

End Dates.

(** ** The response *)

Definition mime_types : list (list Z * list Z) :=
  [(bytes_of ".html", bytes_of "text/html; charset=utf-8"); (bytes_of ".htm", bytes_of "text/html; charset=utf-8");
   (bytes_of ".css", bytes_of "text/css; charset=utf-8"); (bytes_of ".js", bytes_of "text/javascript; charset=utf-8");
   (bytes_of ".json", bytes_of "application/json"); (bytes_of ".txt", bytes_of "text/plain; charset=utf-8");
   (bytes_of ".svg", bytes_of "image/svg+xml"); (bytes_of ".png", bytes_of "image/png"); (bytes_of ".jpg", bytes_of "image/jpeg");
   (bytes_of ".jpeg", bytes_of "image/jpeg"); (bytes_of ".webp", bytes_of "image/webp"); (bytes_of ".pdf", bytes_of "application/pdf");
   (bytes_of ".wasm", bytes_of "application/wasm"); (bytes_of ".ico", bytes_of "image/x-icon")].

(** [strrchr] of a dot. *)
Fixpoint last_dot (path : list Z) : option (list Z) :=
  match path with
  | [] => None
  | c :: rest => match last_dot rest with Some e => Some e | None => if c =? 46 then Some path else None end
  end.

Definition file_mime (path : list Z) : list Z :=
  match last_dot path with
  | None => bytes_of "application/octet-stream"
  | Some extension =>
    match list_find (fun t => bytes_eqb extension t.1 = true) mime_types with
    | Some (_, t) => t.2
    | None => bytes_of "application/octet-stream"
    end
  end.

Record chttp_server_file_options := {
  fo_path : list Z;
  fo_content_type : option (list Z);
  fo_etag : option (list Z);
}.

(** [%PRIx64] *)
Fixpoint hex_loop (fuel : nat) (n : Z) (digits : list Z) : list Z :=
  match fuel with
  | O => digits
  | S fuel =>
    let d := n mod 16 in
    let digits := (if d <? 10 then 48 + d else 87 + d) :: digits in
    if n <? 16 then digits else hex_loop fuel (n / 16) digits
  end.

Definition hex_u64 (n : Z) : list Z := hex_loop 16 n [].

Definition generated_etag (metadata : cmeta_fs_stat_t) : list Z :=
  bytes_of "W/" ++ [QUOTE] ++ hex_u64 (st_size metadata) ++ [DASH] ++ hex_u64 (st_mtime metadata) ++ [DASH] ++
  hex_u64 (st_ctime metadata) ++ [QUOTE].

Definition ALLOWED : list Z := bytes_of "GET, HEAD".

Section Serve.
Context {alloc : Allocator} {gmtime : Gmtime} {parser : DatetimeParser} {fs : FileSystem} {transfers : FileTransfers}.
#[local] Abbreviation builder := chttp_server_response_builder.
#[local] Abbreviation served := (world * chttp_server_response_builder * salts_status)%type.

(** [if (status == SALTS_OK) status = chttp_server_response_set_header(...)] *)
Definition then_header (r : builder * salts_status) (name value : list Z) : builder * salts_status :=
  if bool_decide (r.2 = SALTS_OK) then chttp_server_response_set_header r.1 name value else r.

(** A reply without a content type and a body. *)
Definition reply_empty (w : world) (b : builder) (code : Z) : served := chttp_server_reply w b code None [].

(** A transfer that no response took is cleaned up. *)
Definition chttp_server_send_file (w : world) (b : builder) (status_code : Z) (content_type : option (list Z)) (path : list Z)
    (offset length : Z) (bounded : bool) : served :=
  if is_empty path then (w, b, SALTS_EINVAL)
  else
    match chttp_file_transfer_open path offset length bounded with
    | inr status => (w, b, status)
    | inl transfer =>
      let '(b, status) :=
        chttp_server_response_source_owned b status_code content_type
          {| bs_read := transfer; bs_content_length := length; bs_content_length_known := true |} (Some transfer) in
      if negb (bool_decide (status = SALTS_OK)) then
        ({| w_budget := w_budget w; w_cleanups := w_cleanups w ++ [(transfer, status)] |}, b, status)
      else (w, b, SALTS_OK)
    end.

Definition chttp_server_response_file (w : world) (b : builder) (status_code : Z) (content_type : option (list Z)) (path : list Z) :
    served :=
  if is_empty path then (w, b, SALTS_EINVAL)
  else
    match cmeta_fs_stat path with
    | Err _ => (w, b, SALTS_EIO)
    | Ok file_stat =>
      if negb (st_is_file file_stat) then (w, b, SALTS_EISDIR)
      else if SIZE_MAX <? st_size file_stat then (w, b, SALTS_EFBIG)
      else chttp_server_send_file w b status_code content_type path 0 (st_size file_stat) false
    end.

(** The first condition: 200 goes on. *)
Definition match_code (request : server_request) (etag : list Z) (mtime now_ms : Z) : Z :=
  match file_request_tags request (bytes_of "If-Match") etag true with
  | TagsMalformed => 400
  | TagsMatch matched => if matched then 200 else 412
  | TagsAbsent =>
    match file_single_header request (bytes_of "If-Unmodified-Since") with
    | Some condition =>
      match file_http_date condition now_ms with
      | Some condition_time => if condition_time <? mtime then 412 else 200
      | None => 200
      end
    | None => 200
    end
  end.

(** The second one. *)
Definition none_match_code (request : server_request) (etag : list Z) (mtime now_ms : Z) : Z :=
  match file_request_tags request (bytes_of "If-None-Match") etag false with
  | TagsMalformed => 400
  | TagsMatch matched => if matched then 304 else 200
  | TagsAbsent =>
    match file_single_header request (bytes_of "If-Modified-Since") with
    | Some condition =>
      match file_http_date condition now_ms with
      | Some condition_time => if mtime <=? condition_time then 304 else 200
      | None => 200
      end
    | None => 200
    end
  end.

(** The range that is asked for. *)
Definition range_asked (request : server_request) (etag : list Z) (size : Z) : range_result :=
  let condition := file_single_header request (bytes_of "Range") in
  let if_range := file_single_header request (bytes_of "If-Range") in
  let condition :=
    match if_range, chttp_server_request_header (sq_headers request) (bytes_of "If-Range") with
    | None, Some _ => None
    | _, _ => condition
    end in
  match condition with
  | Some field =>
    if (sq_method request =? CHTTP_METHOD_GET) &&
       match if_range with Some value => file_if_range_matches value etag | None => true end
    then file_range field size else RangeIgnored
  | None => RangeIgnored
  end.

Definition content_range (offset length size : Z) : list Z :=
  bytes_of "bytes " ++ decimal_size offset ++ [DASH] ++ decimal_size (offset + length - 1) ++ bytes_of "/" ++ decimal_size size.

Definition unsatisfied_range (size : Z) : list Z := bytes_of "bytes */" ++ decimal_size size.

Definition file_body (w : world) (b : builder) (options : chttp_server_file_options) (code offset length : Z) : served :=
  chttp_server_send_file w b code
    (Some (match fo_content_type options with Some t => t | None => file_mime (fo_path options) end))
    (fo_path options) offset length true.

(** After the conditions. *)
Definition serve_range (w : world) (b : builder) (request : server_request) (options : chttp_server_file_options)
    (etag : list Z) (size : Z) : served :=
  match range_asked request etag size with
  | RangeIgnored => file_body w b options 200 0 size
  | RangeUnsatisfiable =>
    let '(b, status) := chttp_server_response_set_header b (bytes_of "Content-Range") (unsatisfied_range size) in
    if negb (bool_decide (status = SALTS_OK)) then (w, b, status) else reply_empty w b 416
  | RangeSelected offset length =>
    let '(b, status) := chttp_server_response_set_header b (bytes_of "Content-Range") (content_range offset length size) in
    if negb (bool_decide (status = SALTS_OK)) then (w, b, status) else file_body w b options 206 offset length
  end.

Definition chttp_server_serve_file (w : world) (b : builder) (request : server_request) (options : chttp_server_file_options)
    (now_ms : Z) : served :=
  if is_empty (fo_path options) then (w, b, SALTS_EINVAL)
  else if negb (sq_method request =? CHTTP_METHOD_GET) && negb (sq_method request =? CHTTP_METHOD_HEAD) then
    let '(b, status) := chttp_server_response_set_header b (bytes_of "Allow") ALLOWED in
    if bool_decide (status = SALTS_OK) then reply_empty w b 405 else (w, b, status)
  else
    match cmeta_fs_stat (fo_path options) with
    | Err status => (w, b, status)
    | Ok metadata =>
      if negb (st_is_file metadata) then (w, b, SALTS_EISDIR)
      else if SIZE_MAX <? st_size metadata then (w, b, SALTS_EFBIG)
      else if FILE_ETAG_CAPACITY <=? zlen (generated_etag metadata) then (w, b, SALTS_ERANGE)
      else
        let etag := match fo_etag options with Some etag => etag | None => generated_etag metadata end in
        if negb (match file_tag_end etag with Some after => is_empty after | None => false end) then (w, b, SALTS_EINVAL)
        else
          let now := now_ms / MILLISECONDS_PER_SECOND in
          let mtime := Z.min (st_mtime metadata / MICROSECONDS_PER_SECOND) now in
          match chttp_server_format_date mtime with
          | Err status => (w, b, status)
          | Ok modified =>
            let r := chttp_server_response_set_header b (bytes_of "ETag") etag in
            let r := then_header r (bytes_of "Last-Modified") modified in
            let '(b, status) := then_header r (bytes_of "Accept-Ranges") (bytes_of "bytes") in
            if negb (bool_decide (status = SALTS_OK)) then (w, b, status)
            else
              let code := match_code request etag mtime now_ms in
              if negb (code =? 200) then reply_empty w b code
              else
                let code := none_match_code request etag mtime now_ms in
                if negb (code =? 200) then reply_empty w b code
                else serve_range w b request options etag (st_size metadata)
          end
    end.

End Serve.

End FileService.
