(* ===== verification/FileServiceTheorems.v ===== *)
(** * Files as responses: theorems

    The ranges, entity tags and conditions of RFC 9110, as grammars and
    decisions of their own, and that the service implements them. *)

From S2P Require Import Prelude Decimal HpackBuffer Router Http1Parser ServerBuffer Session Response ResponseTheorems Jwt Middleware FileService.

Module FileServiceTheorems.
Import Decimal HpackBuffer Router Http1Parser ServerBuffer Session Response ResponseTheorems Jwt Middleware FileService.

(** ** Blanks *)

Definition blank (c : Z) : bool := (c =? SPACE) || (c =? TAB).
Definition blanks (s : list Z) : Prop := forallb blank s = true.

Lemma skip_space_app ws s : blanks ws -> file_skip_space (ws ++ s) = file_skip_space s.
Proof.
  unfold blanks. induction ws as [|c ws IH]; [done|]. cbn. intros H. apply andb_true_iff in H as [Hc H]. unfold blank in Hc. rewrite Hc. by apply IH.
Qed.

Lemma skip_space_split s : exists ws, blanks ws /\ s = ws ++ file_skip_space s.
Proof.
  induction s as [|c s (ws & Hw & E)]; [by exists []|]. cbn [file_skip_space]. destruct (blank c) eqn:Ec; unfold blank in Ec; rewrite Ec.
  - exists (c :: ws). split; [unfold blanks; cbn; unfold blank at 1; by rewrite Ec|]. by rewrite E at 1.
  - by exists [].
Qed.

Lemma skip_space_nil s : is_empty (file_skip_space s) = true <-> blanks s.
Proof.
  split.
  - destruct (skip_space_split s) as (ws & Hw & E). destruct (file_skip_space s); [|done]. intros _. rewrite app_nil_r in E. by subst.
  - intros H. pose proof (skip_space_app s [] H) as E. rewrite app_nil_r in E. by rewrite E.
Qed.

Lemma skip_space_idem s : file_skip_space (file_skip_space s) = file_skip_space s.
Proof. destruct (skip_space_split s) as (ws & Hw & E). rewrite E at 2. by rewrite skip_space_app. Qed.

Lemma skip_space_stop c s : blank c = false -> file_skip_space (c :: s) = c :: s.
Proof. unfold blank. cbn. by intros ->. Qed.

(** ** Numbers *)

Definition digits (ds : list Z) : Prop := ds <> [] /\ Forall is_digit ds.

Lemma digit_test c : (48 <=? c) && (c <=? 57) = true <-> is_digit c.
Proof. unfold is_digit. rewrite andb_true_iff, !Z.leb_le. done. Qed.

Lemma number_from v ds : foldl (fun v d => v * 10 + (d - 48)) v ds = v * 10 ^ Z.of_nat (length ds) + number ds.
Proof.
  unfold number. revert v. induction ds as [|d ds IH]; intros v; [cbn; lia|]. cbn [foldl length]. rewrite IH, (IH (0 * 10 + (d - 48))).
  rewrite Nat2Z.inj_succ, Z.pow_succ_r by lia. lia.
Qed.

Lemma number_nonneg ds : Forall is_digit ds -> 0 <= number ds.
Proof.
  intros H. unfold number. assert (forall v, 0 <= v -> 0 <= foldl (fun v d => v * 10 + (d - 48)) v ds) as Hn; [|by apply Hn].
  induction H as [|d ds Hd _ IH]; intros v Hv; [done|]. cbn. apply IH. unfold is_digit in Hd. lia.
Qed.

Definition stops (rest : list Z) : Prop := match rest with c :: _ => ~ is_digit c | [] => True end.

Lemma decimal_digits_iff s : forall v n rest, 0 <= v <= SIZE_MAX ->
  decimal_digits s v = Some (n, rest) <->
  exists ds, Forall is_digit ds /\ s = ds ++ rest /\ stops rest /\ n = foldl (fun v d => v * 10 + (d - 48)) v ds /\ n <= SIZE_MAX.
Proof.
  induction s as [|c s IH]; intros v n rest Hv; cbn [decimal_digits].
  - split.
    + intros [= <- <-]. exists []. split_and!; try done. lia.
    + intros (ds & _ & E & _ & -> & _). symmetry in E. apply app_eq_nil in E as [-> ->]. done.
  - destruct ((48 <=? c) && (c <=? 57)) eqn:Ed.
    + apply digit_test in Ed. pose proof Ed as Hd. unfold is_digit in Hd. cbv zeta.
      assert ((SIZE_MAX - (c - 48)) / 10 < v <-> SIZE_MAX < v * 10 + (c - 48)) as Hover.
      { pose proof (Z.div_mod (SIZE_MAX - (c - 48)) 10 ltac:(lia)). pose proof (Z.mod_pos_bound (SIZE_MAX - (c - 48)) 10 ltac:(lia)). lia. }
      destruct (Z.ltb_spec ((SIZE_MAX - (c - 48)) / 10) v) as [Hlt|Hge].
      * split; [done|]. intros (ds & Hds & E & Hs & -> & Hle). exfalso. destruct ds as [|d ds].
        { cbn in E. subst rest. by apply Hs. }
        injection E as <- E. inversion_clear Hds as [|? ? _ Hds']. cbn [foldl] in Hle. rewrite number_from in Hle.
        pose proof (number_nonneg ds Hds'). apply Hover in Hlt. pose proof (Z.pow_pos_nonneg 10 (Z.of_nat (length ds)) ltac:(lia) ltac:(lia)). nia.
      * rewrite IH by lia. split.
        -- intros (ds & Hds & -> & Hs & -> & Hle). exists (c :: ds). split_and!; try done. by constructor.
        -- intros (ds & Hds & E & Hs & -> & Hle). destruct ds as [|d ds]; [cbn in E; subst rest; by destruct Hs|].
           injection E as <- ->. inversion_clear Hds. by exists ds.
    + assert (~ is_digit c) as Hnd by (rewrite <- digit_test; by rewrite Ed). split.
      * intros [= <- <-]. exists []. split_and!; try done. lia.
      * intros (ds & Hds & E & Hs & -> & _). destruct ds as [|d ds]; [by cbn in E; subst|]. injection E as <- _. by inversion_clear Hds.
Qed.

Lemma file_decimal_iff s n rest : file_decimal s = Some (n, rest) <->
  exists ds, digits ds /\ s = ds ++ rest /\ stops rest /\ n = number ds /\ n <= SIZE_MAX.
Proof.
  unfold file_decimal. pose proof (fun n rest => decimal_digits_iff s 0 n rest ltac:(zlia)) as H. fold (number []) in H.
  destruct (decimal_digits s 0) as [[n' rest']|] eqn:E.
  - destruct (proj1 (H n' rest') eq_refl) as (ds & Hds & -> & Hs & -> & Hle). rewrite zlen_app. pose proof (zlen_nonneg ds).
    destruct ds as [|d ds].
    + rewrite zlen_nil, Z.add_0_l, Z.eqb_refl. split; [done|]. intros (ds & [Hne Hds'] & E2 & _). exfalso. destruct ds as [|d ds]; [done|].
      cbn in E2. subst rest'. cbn in Hs. by inversion_clear Hds'.
    + rewrite (proj2 (Z.eqb_neq _ _)) by (rewrite zlen_cons in *; pose proof (zlen_nonneg ds); lia). split.
      * intros [= <- <-]. by exists (d :: ds).
      * intros (ds' & [_ Hds'] & E2 & Hs' & -> & Hle').
        apply (H (number ds') rest). by exists ds'.
  - split; [done|]. intros (ds & [_ Hds] & -> & Hs & -> & Hle). exfalso.
    assert (None = Some (number ds, rest)); [|done]. apply H. by exists ds.
Qed.

(** ** Ranges *)

Inductive range_spec :=
  | FromTo (first last : Z)
  | From (first : Z)
  | Suffix (length : Z).

(** The text of one range, with blanks behind it. *)
Inductive range_text : range_spec -> list Z -> Prop :=
  | text_from_to a b ws : digits a -> digits b -> blanks ws -> range_text (FromTo (number a) (number b)) (a ++ DASH :: b ++ ws)
  | text_from a ws : digits a -> blanks ws -> range_text (From (number a)) (a ++ DASH :: ws)
  | text_suffix a ws : digits a -> blanks ws -> range_text (Suffix (number a)) (DASH :: a ++ ws).

(** A range that makes sense, with numbers of 64 bits. *)
Definition spec_ok (spec : range_spec) : Prop :=
  match spec with
  | FromTo first last => 0 <= first <= last /\ last <= SIZE_MAX
  | From first => 0 <= first <= SIZE_MAX
  | Suffix length => 0 <= length <= SIZE_MAX
  end.

Definition range_field (field : list Z) (spec : range_spec) : Prop :=
  spec_ok spec /\ exists ws text, blanks ws /\ field = ws ++ BYTES_UNIT ++ text /\ range_text spec text.

(** The part of a representation that a range selects, if any. *)
Definition select (size : Z) (spec : range_spec) : option (Z * Z) :=
  match spec with
  | FromTo first last => if first <? size then Some (first, Z.min last (size - 1) - first + 1) else None
  | From first => if first <? size then Some (first, size - first) else None
  | Suffix length => if (0 <? length) && (0 <? size) then Some (size - Z.min length size, Z.min length size) else None
  end.

Definition ranged (size : Z) (spec : range_spec) : range_result :=
  match select size spec with Some (offset, length) => RangeSelected offset length | None => RangeUnsatisfiable end.

Lemma digits_head a c r : digits a -> a = c :: r -> is_digit c.
Proof. intros [_ H] ->. by inversion H. Qed.

Lemma blanks_stop ws : blanks ws -> stops ws.
Proof.
  destruct ws as [|c ws]; [done|]. unfold blanks, blank. cbn. intros H [Hl Hr]. apply andb_true_iff in H as [H _].
  apply orb_true_iff in H as [H|H]; apply Z.eqb_eq in H; unfold SPACE, TAB in H; lia.
Qed.

Lemma digits_not_blanks a ws : digits a -> ~ blanks (a ++ ws).
Proof.
  intros [Hne H]. destruct a as [|c a]; [done|]. inversion_clear H as [|? ? Hc _]. unfold blanks. cbn. intros E.
  apply andb_true_iff in E as [E _]. unfold blank in E. unfold is_digit in Hc. apply orb_true_iff in E as [E|E]; apply Z.eqb_eq in E; unfold SPACE, TAB in E; lia.
Qed.

Lemma file_decimal_digits a rest : digits a -> stops rest -> number a <= SIZE_MAX -> file_decimal (a ++ rest) = Some (number a, rest).
Proof. intros. apply file_decimal_iff. by exists a. Qed.

(** What the code computes from a range that it has read. *)
Definition code_range (size : Z) (spec : range_spec) : range_result :=
  match spec with
  | FromTo first last =>
    if (size =? 0) || (size <=? first) then RangeUnsatisfiable
    else RangeSelected first ((if size <=? last then size - 1 else last) - first + 1)
  | From first => if (size =? 0) || (size <=? first) then RangeUnsatisfiable else RangeSelected first (size - 1 - first + 1)
  | Suffix last =>
    if (size =? 0) || (last =? 0) then RangeUnsatisfiable
    else let length := if last <? size then last else size in RangeSelected (size - length) length
  end.

Lemma code_range_ranged size spec : 0 <= size -> spec_ok spec -> code_range size spec = ranged size spec.
Proof.
  intros Hs Hok. unfold code_range, ranged, select. destruct spec as [first last|first|n]; cbn [spec_ok] in Hok.
  - destruct (Z.ltb_spec first size); [|rewrite orb_true_intro; [done|right; apply Z.leb_le; lia]].
    rewrite (proj2 (Z.eqb_neq _ _)), (proj2 (Z.leb_gt _ _)) by lia. cbn [orb]. f_equal. split_if; lia.
  - destruct (Z.ltb_spec first size); [|rewrite orb_true_intro; [done|right; apply Z.leb_le; lia]].
    rewrite (proj2 (Z.eqb_neq _ _)), (proj2 (Z.leb_gt _ _)) by lia. cbn [orb]. f_equal. lia.
  - destruct (Z.eqb_spec size 0) as [->|]; [by rewrite andb_false_r|]. destruct (Z.eqb_spec n 0) as [->|]; [done|].
    cbn [orb]. rewrite !(proj2 (Z.ltb_lt 0 _)) by lia. cbn [andb]. cbv zeta. split_if; f_equal; lia.
Qed.

(** The code reads exactly the texts of ranges. *)
Lemma file_range_complete size field spec : range_field field spec -> file_range field size = code_range size spec.
Proof.
  intros (Hok & ws & text & Hws & -> & Ht). unfold file_range. rewrite skip_space_app by done.
  assert (forall t, file_skip_space (BYTES_UNIT ++ t) = BYTES_UNIT ++ t) as -> by done.
  rewrite ztake_app, bytes_eqb_refl, zdrop_app. cbn [negb]. destruct Ht as [a b ws' Ha Hb Hw|a ws' Ha Hw|a ws' Ha Hw]; cbn [spec_ok] in Hok.
  - assert (match a ++ DASH :: b ++ ws' with ch :: _ => ch =? DASH | [] => false end = false) as ->.
    { destruct a as [|c a]; [by destruct Ha|]. cbn. apply Z.eqb_neq. pose proof (digits_head _ c a Ha eq_refl) as Hc. unfold is_digit in Hc. unfold DASH. lia. }
    rewrite file_decimal_digits; [|done|cbn; unfold is_digit, DASH; lia|lia]. rewrite Z.eqb_refl. cbn [negb].
    destruct (is_empty (file_skip_space (b ++ ws'))) eqn:Ee; [apply skip_space_nil in Ee; by apply digits_not_blanks in Ee|]. cbn [negb orb].
    rewrite file_decimal_digits; [|done|by apply blanks_stop|lia]. rewrite (proj2 (skip_space_nil ws') Hw). cbn [negb andb orb].
    rewrite (proj2 (Z.ltb_ge _ _)) by lia. rewrite orb_false_r. done.
  - assert (match a ++ DASH :: ws' with ch :: _ => ch =? DASH | [] => false end = false) as ->.
    { destruct a as [|c a]; [by destruct Ha|]. cbn. apply Z.eqb_neq. pose proof (digits_head _ c a Ha eq_refl) as Hc. unfold is_digit in Hc. unfold DASH. lia. }
    rewrite file_decimal_digits; [|done|cbn; unfold is_digit, DASH; lia|lia]. rewrite Z.eqb_refl. cbn [negb].
    rewrite (proj2 (skip_space_nil ws') Hw). cbn [negb andb orb]. rewrite (proj2 (skip_space_nil ws') Hw). cbn [negb]. rewrite orb_false_r. done.
  - rewrite Z.eqb_refl. cbn [negb]. rewrite orb_true_r.
    rewrite file_decimal_digits; [|done|by apply blanks_stop|lia]. rewrite (proj2 (skip_space_nil ws') Hw). cbn [negb andb orb].
    rewrite orb_false_r. done.
Qed.

Lemma file_range_sound size field : file_range field size <> RangeIgnored -> exists spec, range_field field spec.
Proof.
  intros H. unfold file_range in H. destruct (skip_space_split field) as (ws & Hws & Ef).
  set (f := file_skip_space field) in *. destruct (bytes_eqb (ztake (zlen BYTES_UNIT) f) BYTES_UNIT) eqn:Eb; cbn [negb] in H; [|done].
  apply bytes_eqb_eq in Eb. assert (f = BYTES_UNIT ++ zdrop (zlen BYTES_UNIT) f) as Ef2.
  { rewrite <- Eb at 1. unfold ztake, zdrop. by rewrite take_drop. }
  set (t := zdrop (zlen BYTES_UNIT) f) in *.
  assert (forall spec, spec_ok spec -> range_text spec t -> exists spec, range_field field spec) as Hdone.
  { intros spec Hok Ht. exists spec. split; [done|]. exists ws, t. by rewrite <- Ef2. }
  destruct t as [|ch r] eqn:Et; [done|]. destruct (Z.eqb_spec ch DASH) as [->|Hch].
  - rewrite Z.eqb_refl, orb_true_r in H. cbn [negb] in H. destruct (file_decimal r) as [[n r2]|] eqn:Ed; [|done].
    apply file_decimal_iff in Ed as (a & Ha & -> & _ & -> & Hle). destruct (is_empty (file_skip_space r2)) eqn:Ee; [|done].
    apply skip_space_nil in Ee. apply (Hdone (Suffix (number a))); [|by constructor]. destruct Ha as [_ Ha]. pose proof (number_nonneg a Ha). done.
  - destruct (file_decimal (ch :: r)) as [[first r1]|] eqn:Ed; [|done]. apply file_decimal_iff in Ed as (a & Ha & Ea & _ & -> & Hle).
    pose proof (number_nonneg a (proj2 Ha)) as Hn. rewrite Ea in Hdone. destruct r1 as [|d r1]; [done|].
    destruct (Z.eqb_spec d DASH) as [->|]; cbn [negb] in H; [|done]. rewrite orb_false_r in H.
    destruct (is_empty (file_skip_space r1)) eqn:Eo; cbn [negb] in H.
    + apply skip_space_nil in Eo. by apply (Hdone (From (number a))); [|constructor].
    + destruct (file_decimal r1) as [[last r2]|] eqn:Ed2; [|done]. apply file_decimal_iff in Ed2 as (b & Hb & -> & _ & -> & Hle2).
      destruct (is_empty (file_skip_space r2)) eqn:Ee; [|done]. apply skip_space_nil in Ee. cbn [negb andb] in H.
      destruct (Z.ltb_spec (number b) (number a)); [done|]. apply (Hdone (FromTo (number a) (number b))); [|by constructor]. done.
Qed.

Lemma select_bounds size spec offset length : spec_ok spec -> select size spec = Some (offset, length) ->
  0 <= offset /\ 0 < length /\ offset + length <= size.
Proof.
  destruct spec as [first last|first|n]; cbn; intros Hok.
  - destruct (Z.ltb_spec first size); [|done]. intros [= <- <-]. lia.
  - destruct (Z.ltb_spec first size); [|done]. intros [= <- <-]. lia.
  - destruct ((0 <? n) && (0 <? size)) eqn:E; [|done]. apply andb_true_iff in E as [E1 E2]. apply Z.ltb_lt in E1, E2. intros [= <- <-]. lia.
Qed.

Lemma file_range_spec field size : 0 <= size ->
  match file_range field size with
  | RangeIgnored => forall spec, ~ range_field field spec
  | RangeUnsatisfiable => exists spec, range_field field spec /\ select size spec = None
  | RangeSelected offset length =>
    (exists spec, range_field field spec /\ select size spec = Some (offset, length)) /\
    0 <= offset /\ 0 < length /\ offset + length <= size
  end.
Proof.
  intros Hs. pose proof (file_range_sound size field) as Hsound.
  assert (forall spec, range_field field spec -> file_range field size = ranged size spec) as Hc.
  { intros spec Hf. rewrite (file_range_complete size field spec Hf). by apply code_range_ranged, Hf. }
  unfold ranged in Hc. destruct (file_range field size) as [|offset length|].
  - intros spec Hf. apply Hc in Hf. by destruct (select size spec) as [[? ?]|].
  - destruct Hsound as [spec Hf]; [done|]. pose proof (Hc spec Hf) as E. destruct (select size spec) as [[o l]|] eqn:Es; [|done].
    injection E as -> ->. split; [by exists spec|]. by eapply select_bounds; [apply Hf|].
  - destruct Hsound as [spec Hf]; [done|]. exists spec. split; [done|]. pose proof (Hc spec Hf) as E. by destruct (select size spec) as [[o l]|].
Qed.

(** C29: A Range field of one range of bytes, with numbers of 64 bits and the
    first not above the last, selects the part of the file that RFC 9110 says,
    which is not empty and within the file, or is reported as not satisfiable when
    there is none; every other field is ignored. *)
Theorem file_range_correct field size : 0 <= size ->
  match file_range field size with
  | RangeIgnored => forall spec, ~ range_field field spec
  | RangeUnsatisfiable => exists spec, range_field field spec /\ select size spec = None
  | RangeSelected offset length =>
    (exists spec, range_field field spec /\ select size spec = Some (offset, length)) /\
    0 <= offset /\ 0 < length /\ offset + length <= size
  end.
Proof. apply file_range_spec. Qed.

(** ** Entity tags *)

Record entity_tag := {
  et_weak : bool;
  et_opaque : list Z;
}.

Definition tag_char (c : Z) : bool := negb (c =? QUOTE) && negb ((c <? 33) || (c =? 127)).
Definition tag_ok (t : entity_tag) : Prop := forallb tag_char (et_opaque t) = true.
Definition tag_quoted (t : entity_tag) : list Z := QUOTE :: et_opaque t ++ [QUOTE].
Definition tag_text (t : entity_tag) : list Z := (if et_weak t then bytes_of "W/" else []) ++ tag_quoted t.

(** The comparisons of RFC 9110. *)
Definition tag_eq (strong : bool) (current t : entity_tag) : bool :=
  (negb strong || (negb (et_weak t) && negb (et_weak current))) && bytes_eqb (et_opaque t) (et_opaque current).

Lemma tag_end_loop_iff s after : tag_end_loop s = Some after <-> exists o, forallb tag_char o = true /\ s = o ++ QUOTE :: after.
Proof.
  induction s as [|c s IH]; cbn [tag_end_loop]; [split; [done|by intros ([|? ?] & _ & ?)]|].
  destruct (Z.eqb_spec c QUOTE) as [->|Hc].
  - split; [intros [= <-]; by exists []|]. intros ([|d o] & Ho & E); [by injection E as ->|]. injection E as <- _. done.
  - destruct ((c <? 33) || (c =? 127)) eqn:Ec.
    + split; [done|]. intros ([|d o] & Ho & E); [by injection E|]. injection E as <- _. cbn in Ho. unfold tag_char in Ho.
      rewrite Ec in Ho. by rewrite andb_false_r in Ho.
    + rewrite IH. split.
      * intros (o & Ho & ->). exists (c :: o). split; [|done]. cbn. unfold tag_char at 1. rewrite (proj2 (Z.eqb_neq _ _) Hc), Ec. done.
      * intros ([|d o] & Ho & E); [by injection E|]. injection E as <- ->. cbn in Ho. apply andb_true_iff in Ho as [_ Ho]. by exists o.
Qed.

Lemma weak_text t after : is_weak (tag_text t ++ after) = et_weak t.
Proof. destruct t as [[] o]; cbn; [done|]. destruct o; done. Qed.

Lemma opaque_text t after : opaque (tag_text t ++ after) = tag_quoted t ++ after.
Proof. unfold opaque. rewrite weak_text. by destruct t as [[] o]. Qed.

Lemma file_tag_end_iff s after : file_tag_end s = Some after <-> exists t, tag_ok t /\ s = tag_text t ++ after.
Proof.
  split.
  - unfold file_tag_end. destruct (opaque s) as [|ch rest] eqn:Eo; [done|]. destruct (Z.eqb_spec ch QUOTE) as [->|]; [|done].
    intros H. apply tag_end_loop_iff in H as (o & Ho & ->). exists {| et_weak := is_weak s; et_opaque := o |}. split; [done|].
    unfold opaque in Eo. destruct (is_weak s) eqn:Ew; unfold tag_text, tag_quoted; cbn [et_weak et_opaque app];
      rewrite <- app_assoc; cbn [app]; [|done].
    unfold is_weak in Ew. apply bytes_eqb_eq in Ew. unfold ztake, zdrop in *. transitivity (take (Z.to_nat 2) s ++ drop (Z.to_nat 2) s); [by rewrite take_drop|]. by rewrite Ew, Eo, <- app_assoc.
  - intros (t & Ht & ->). unfold file_tag_end. rewrite opaque_text. unfold tag_quoted. cbn [app]. rewrite Z.eqb_refl.
    apply tag_end_loop_iff. exists (et_opaque t). by rewrite <- app_assoc.
Qed.

Lemma same_span_app x after y : same_span (x ++ after) after y = bytes_eqb x y.
Proof.
  unfold same_span. rewrite zlen_app. replace (zlen x + zlen after - zlen after) with (zlen x) by lia.
  destruct (Z.eqb_spec (zlen x) (zlen y)) as [E|E]; cbn [andb].
  - by rewrite <- E, ztake_app.
  - destruct (bytes_eqb x y) eqn:Eb; [|done]. apply bytes_eqb_eq in Eb. by subst.
Qed.

Lemma quoted_eq t c : bytes_eqb (tag_quoted t) (tag_quoted c) = bytes_eqb (et_opaque t) (et_opaque c).
Proof.
  destruct (bytes_eqb (et_opaque t) (et_opaque c)) eqn:E.
  - apply bytes_eqb_eq in E. unfold tag_quoted. rewrite E. apply bytes_eqb_refl.
  - destruct (bytes_eqb (tag_quoted t) (tag_quoted c)) eqn:E2; [|done]. apply bytes_eqb_eq in E2. injection E2 as E2.
    apply app_inj_tail in E2 as [E2 _]. by rewrite E2, bytes_eqb_refl in E.
Qed.

(** A list of tags: empty elements and blanks around the commas. *)
Inductive tag_elements : list Z -> list entity_tag -> Prop :=
  | elements_nil : tag_elements [] []
  | elements_comma ws s tags : blanks ws -> tag_elements s tags -> tag_elements (COMMA :: ws ++ s) tags
  | elements_last t ws : tag_ok t -> blanks ws -> tag_elements (tag_text t ++ ws) [t]
  | elements_tag t ws ws' s tags : tag_ok t -> blanks ws -> blanks ws' -> tag_elements s tags ->
      tag_elements (tag_text t ++ ws ++ COMMA :: ws' ++ s) (t :: tags).

Lemma tag_text_start t : exists c r, tag_text t = c :: r /\ blank c = false /\ (c =? COMMA) = false /\ (c =? STAR) = false.
Proof. destruct t as [[] o]; cbn; by eexists _, _. Qed.

Lemma elements_start s tags : tag_elements s tags -> file_skip_space s = s.
Proof.
  assert (forall t r, file_skip_space (tag_text t ++ r) = tag_text t ++ r) as Ht.
  { intros t r. destruct (tag_text_start t) as (c & x & -> & Hb & _). cbn [app]. by apply skip_space_stop. }
  destruct 1; [done|done|apply Ht|apply Ht].
Qed.

Lemma elements_not_star s tags r : tag_elements s tags -> s <> STAR :: r.
Proof.
  destruct 1 as [|ws s tags|t ws|t ws ws' s tags]; try done; destruct (tag_text_start t) as (c & x & -> & _ & _ & Hs); cbn [app];
    intros [= -> _]; by rewrite Z.eqb_refl in Hs.
Qed.

Section Tags.
Context (current : entity_tag) (strong : bool).

Lemma match_text t after :
  (negb strong || (negb (is_weak (tag_text t ++ after)) && negb (is_weak (tag_text current)))) &&
  same_span (opaque (tag_text t ++ after)) after (opaque (tag_text current)) = tag_eq strong current t.
Proof.
  pose proof (weak_text current []) as Ew. pose proof (opaque_text current []) as Eo. rewrite !app_nil_r in *.
  by rewrite weak_text, opaque_text, Ew, Eo, same_span_app, quoted_eq.
Qed.

Lemma tags_loop_step fuel t after matched : tag_ok t ->
  tag_matches_loop (S fuel) (tag_text t ++ after) (tag_text current) strong matched =
  let matched := matched || tag_eq strong current t in
  match file_skip_space after with
  | [] => Some matched
  | ch :: rest => if ch =? COMMA then tag_matches_loop fuel (file_skip_space rest) (tag_text current) strong matched else None
  end.
Proof.
  intros Ht. pose proof (proj2 (file_tag_end_iff (tag_text t ++ after) after) (ex_intro _ t (conj Ht eq_refl))) as Ee.
  pose proof (match_text t after) as Em. destruct (tag_text_start t) as (c & r & E & _ & Hc & _). rewrite E in *. cbn [app] in *.
  cbn [tag_matches_loop]. rewrite Hc, Ee, Em. done.
Qed.

Lemma elements_matched s tags : tag_elements s tags -> forall fuel matched, (length s <= fuel)%nat ->
  tag_matches_loop fuel s (tag_text current) strong matched = Some (matched || existsb (tag_eq strong current) tags).
Proof.
  assert (forall t r, exists n, length (tag_text t ++ r) = S n /\ (length r <= n)%nat) as Hlen.
  { intros t r. destruct (tag_text_start t) as (c & x & -> & _). cbn. exists (length (x ++ r)). rewrite length_app. split; [done|lia]. }
  induction 1 as [|ws s tags Hw Hs IH|t ws Ht Hw|t ws ws' s tags Ht Hw Hw' Hs IH]; intros fuel matched Hf.
  - destruct fuel; cbn; by rewrite orb_false_r.
  - destruct fuel as [|fuel]; [cbn in Hf; lia|]. cbn [tag_matches_loop]. rewrite Z.eqb_refl, skip_space_app, (elements_start s tags Hs) by done.
    apply IH. cbn in Hf. rewrite length_app in Hf. lia.
  - destruct (Hlen t ws) as (n & En & _). destruct fuel as [|fuel]; [lia|]. rewrite tags_loop_step by done. cbv zeta.
    assert (file_skip_space ws = []) as -> by (apply skip_space_nil in Hw; by destruct (file_skip_space ws)). cbn. by rewrite orb_false_r.
  - destruct (Hlen t (ws ++ COMMA :: ws' ++ s)) as (n & En & Hn). destruct fuel as [|fuel]; [lia|]. rewrite tags_loop_step by done. cbv zeta.
    rewrite skip_space_app by done. change (file_skip_space (COMMA :: ws' ++ s)) with (COMMA :: ws' ++ s). cbv iota. rewrite Z.eqb_refl.
    rewrite skip_space_app, (elements_start s tags Hs) by done. cbn [existsb]. rewrite orb_assoc. apply IH.
    rewrite En in Hf. rewrite !length_app in Hn. cbn in Hn. rewrite length_app in Hn. lia.
Qed.

Lemma matched_elements fuel : forall s matched m, file_skip_space s = s ->
  tag_matches_loop fuel s (tag_text current) strong matched = Some m -> exists tags, tag_elements s tags.
Proof.
  induction fuel as [|fuel IH]; intros s matched m Hs; (destruct s as [|c s]; [intros _; eexists; constructor|]); [done|].
  destruct (Z.eqb_spec c COMMA) as [->|Hc].
  - cbn [tag_matches_loop]. rewrite Z.eqb_refl. intros H. apply IH in H as [tags Ht]; [|apply skip_space_idem].
    destruct (skip_space_split s) as (ws & Hw & E). rewrite E. exists tags. by constructor.
  - destruct (file_tag_end (c :: s)) as [after|] eqn:Ee.
    + apply file_tag_end_iff in Ee as (t & Ht & E). rewrite E, tags_loop_step by done. cbv zeta.
      destruct (skip_space_split after) as (ws & Hw & Ea). destruct (file_skip_space after) as [|ch rest] eqn:Er.
      * intros _. rewrite app_nil_r in Ea. subst after. eexists. by apply elements_last.
      * destruct (Z.eqb_spec ch COMMA) as [->|]; [|done]. intros H. apply IH in H as [tags Hts]; [|apply skip_space_idem].
        destruct (skip_space_split rest) as (ws' & Hw' & Ea'). rewrite Ea, Ea'. exists (t :: tags). by apply elements_tag.
    + cbn [tag_matches_loop]. rewrite (proj2 (Z.eqb_neq _ _) Hc), Ee. done.
Qed.

(** The value of one field: any tag, or a list of tags. *)
Inductive tag_field : list Z -> option (list entity_tag) -> Prop :=
  | field_any ws ws' : blanks ws -> blanks ws' -> tag_field (ws ++ STAR :: ws') None
  | field_tags ws s tags : blanks ws -> tag_elements s tags -> tag_field (ws ++ s) (Some tags).

Definition field_matches (o : option (list entity_tag)) : bool :=
  match o with None => true | Some tags => existsb (tag_eq strong current) tags end.

Lemma field_matched value o : tag_field value o -> file_tag_matches value (tag_text current) strong = Some (field_matches o).
Proof.
  destruct 1 as [ws ws' Hw Hw'|ws s tags Hw Hs]; unfold file_tag_matches; rewrite skip_space_app by done.
  - change (file_skip_space (STAR :: ws')) with (STAR :: ws'). cbv iota zeta. rewrite Z.eqb_refl. by rewrite (proj2 (skip_space_nil ws') Hw').
  - rewrite (elements_start s tags Hs). destruct s as [|c s]; [inversion Hs as [| |t ? ? ? E|t ? ? ? ? ? ? ? ? E]; [done|..];
      destruct (tag_text_start t) as (? & ? & Et & _); by rewrite Et in E|].
    destruct (Z.eqb_spec c STAR) as [->|Hc]; [by destruct (elements_not_star _ _ s Hs)|]. by apply (elements_matched _ tags Hs _ false).
Qed.

Lemma matched_field value m : file_tag_matches value (tag_text current) strong = Some m -> exists o, tag_field value o /\ m = field_matches o.
Proof.
  intros H. assert (exists o, tag_field value o) as [o Ho]; [|exists o; split; [done|]; apply field_matched in Ho; congruence].
  unfold file_tag_matches in H. destruct (skip_space_split value) as (ws & Hw & E). rewrite E. destruct (file_skip_space value) as [|c s] eqn:Es.
  - exists (Some []). apply field_tags; [done|constructor].
  - destruct (Z.eqb_spec c STAR) as [->|Hc].
    + destruct (is_empty (file_skip_space s)) eqn:Ee; [|done]. apply skip_space_nil in Ee. exists None. by constructor.
    + apply matched_elements in H as [tags Ht]; [|rewrite <- Es; apply skip_space_idem]. exists (Some tags). by constructor.
Qed.

Lemma field_star value o : tag_field value o -> starts_star value = match o with None => true | Some _ => false end.
Proof.
  unfold starts_star. destruct 1 as [ws ws' Hw Hw'|ws s tags Hw Hs]; rewrite skip_space_app by done; [done|].
  rewrite (elements_start s tags Hs). destruct s as [|c s]; [done|]. destruct (Z.eqb_spec c STAR) as [->|]; [|done].
  by destruct (elements_not_star _ _ s Hs).
Qed.

(** ** Conditions *)

(** The values of the fields with a name. *)
Definition field_values (headers : list (list Z * list Z)) (name : list Z) : list (list Z) :=
  map snd (filter (fun h => chttp_server_ascii_equal h.1 name = true) headers).

(** Fields that make up one condition: lists of tags, or one field for any. *)
Definition fields_read (values : list (list Z)) (os : list (option (list entity_tag))) : Prop :=
  Forall2 tag_field values os /\ (1 < zlen values -> Forall (fun o => o <> None) os).

Definition tags_condition (values : list (list Z)) (r : tags_result) : Prop :=
  match r with
  | TagsAbsent => values = []
  | TagsMatch m => values <> [] /\ exists os, fields_read values os /\ m = existsb field_matches os
  | TagsMalformed => values <> [] /\ forall os, ~ fields_read values os
  end.

Lemma one_header h name : chttp_server_request_header [h] name = if chttp_server_ascii_equal h.1 name then Some h.2 else None.
Proof. unfold chttp_server_request_header. cbn. by destruct (chttp_server_ascii_equal h.1 name). Qed.

Lemma field_values_cons h headers name : field_values (h :: headers) name =
  if chttp_server_ascii_equal h.1 name then h.2 :: field_values headers name else field_values headers name.
Proof.
  unfold field_values. destruct (chttp_server_ascii_equal h.1 name) eqn:E.
  - by rewrite filter_cons_True.
  - rewrite filter_cons_False; [done|]. by rewrite E.
Qed.

Lemma fields_read_star values os : fields_read values os -> 1 < zlen values -> existsb starts_star values = false.
Proof.
  intros [H Hn] Hl. specialize (Hn Hl). clear Hl. induction H as [|v o values os Hv _ IH]; [done|]. inversion_clear Hn.
  cbn. rewrite (field_star v o Hv), IH by done. by destruct o.
Qed.

Definition tags_so_far (os : list (option (list entity_tag))) : option bool :=
  match os with [] => None | _ => Some (existsb field_matches os) end.

Lemma tags_so_far_snoc os o : Some (match tags_so_far os with None => field_matches o | Some previous => previous || field_matches o end) =
  tags_so_far (os ++ [o]).
Proof. destruct os as [|x os]; cbn; [by rewrite orb_false_r|]. by rewrite existsb_app, orb_assoc; cbn; rewrite orb_false_r. Qed.

Lemma request_tags_condition name headers : forall seen os, fields_read seen os ->
  tags_condition (seen ++ field_values headers name)
    (request_tags_loop headers name (tag_text current) strong (tags_so_far os) (zlen seen) (existsb starts_star seen)).
Proof.
  induction headers as [|h headers IH]; intros seen os Hseen; cbn [request_tags_loop].
  { unfold field_values. cbn. rewrite app_nil_r. destruct Hseen as [H Hn]. destruct H as [|v o values os Hv H]; [done|].
    cbn. split; [done|]. exists (o :: os). split; [|done]. split; [by constructor|done]. }
  rewrite one_header, field_values_cons. destruct (chttp_server_ascii_equal h.1 name); [|by apply IH].
  assert (forall rest, 0 < zlen seen -> 1 < zlen (seen ++ h.2 :: rest)) as Hlen.
  { intros rest H. rewrite zlen_app, zlen_cons. pose proof (zlen_nonneg rest). lia. }
  destruct (file_tag_matches h.2 (tag_text current) strong) as [m|] eqn:Em.
  - apply matched_field in Em as (o & Ho & ->). cbv zeta.
    destruct ((1 <? zlen seen + 1) && (existsb starts_star seen || starts_star h.2)) eqn:Ew.
    + apply andb_true_iff in Ew as [E1 Ew]. apply Z.ltb_lt in E1. split; [by destruct seen|]. intros os' Hos.
      apply fields_read_star in Hos; [|apply Hlen; lia]. rewrite existsb_app in Hos. cbn in Hos.
      by rewrite orb_assoc, Ew in Hos.
    + assert (fields_read (seen ++ [h.2]) (os ++ [o])) as Hmore.
      { destruct Hseen as [H Hn]. split; [by apply Forall2_app; [|constructor]|]. rewrite zlen_app. change (zlen [h.2]) with 1. intros Hl.
        rewrite (proj2 (Z.ltb_lt _ _)) in Ew by lia. cbn [andb] in Ew. apply orb_false_iff in Ew as [Ew1 Ew2].
        rewrite (field_star h.2 o Ho) in Ew2. apply Forall_app. split; [|by apply Forall_singleton; destruct o].
        clear -H Ew1. induction H as [|v x values os Hv _ IH]; [done|]. cbn in Ew1. apply orb_false_iff in Ew1 as [E1 E2].
        constructor; [|by apply IH]. rewrite (field_star v x Hv) in E1. by destruct x. }
      specialize (IH (seen ++ [h.2]) (os ++ [o]) Hmore). rewrite <- app_assoc in IH. cbn [app] in IH.
      rewrite zlen_app, existsb_app, <- tags_so_far_snoc in IH. cbn [existsb] in IH. rewrite orb_false_r in IH. exact IH.
  - split; [by destruct seen|]. intros os' [H _]. apply Forall2_app_inv_l in H as (os1 & os2 & _ & H2 & _).
    inversion H2 as [|? o ? ? Ho _]; subst. apply field_matched in Ho. congruence.
Qed.

Lemma request_tags_spec request name :
  tags_condition (field_values (sq_headers request) name) (file_request_tags request name (tag_text current) strong).
Proof. apply (request_tags_condition name (sq_headers request) [] []). split; [constructor|done]. Qed.

(** The condition of the fields If-Match and If-None-Match says what RFC 9110
    says: it is absent without a field; malformed unless every field is a list of
    entity tags, or the only field is the one for any tag; and otherwise holds
    when a listed tag equals the current one, by the strong comparison for If-
    Match and by the weak one for If-None-Match. *)
Theorem file_tags_correct request name :
  tags_condition (field_values (sq_headers request) name) (file_request_tags request name (tag_text current) strong).
Proof. apply request_tags_spec. Qed.

End Tags.

(** ** The response *)

Lemma single_header_iff request name value : file_single_header request name = Some value <-> field_values (sq_headers request) name = [value].
Proof.
  unfold file_single_header. assert (forall headers result, single_header_loop headers name result =
    match field_values headers name, result with [], _ => result | [v], None => Some v | _, _ => None end) as ->.
  { induction headers as [|h headers IH]; intros result; cbn [single_header_loop]; [done|]. rewrite one_header, field_values_cons.
    destruct (chttp_server_ascii_equal h.1 name); [|apply IH]. destruct result; [by destruct (field_values headers name)|].
    rewrite IH. by destruct (field_values headers name) as [|? [|? ?]]. }
  destruct (field_values (sq_headers request) name) as [|v [|v' l]]; split; try done; intros [= ->]; done.
Qed.

Lemma request_header_none headers name : chttp_server_request_header headers name = None <-> field_values headers name = [].
Proof.
  induction headers as [|h headers IH]; [done|]. rewrite field_values_cons.
  assert (chttp_server_request_header (h :: headers) name =
    if chttp_server_ascii_equal h.1 name then Some h.2 else chttp_server_request_header headers name) as ->.
  { unfold chttp_server_request_header. cbn [list_find]. destruct (chttp_server_ascii_equal h.1 name) eqn:E; case_decide; try congruence; [done|].
    cbn. by destruct (list_find _ headers) as [[? ?]|]. }
  by destruct (chttp_server_ascii_equal h.1 name).
Qed.

(** A transfer that cannot be made says why. *)
Class LawfulTransfers (transfers : FileTransfers) : Prop :=
  transfer_status path offset length bounded : chttp_file_transfer_open path offset length bounded <> inr SALTS_OK.

Section Serve.
Context {alloc : Allocator} {gmtime : Gmtime} {parser : DatetimeParser} {fs : FileSystem} {transfers : FileTransfers}.
Context {lawful : LawfulTransfers transfers}.

(** A field with a strong tag, the current one. *)
Lemma if_range_iff value current : tag_ok current ->
  file_if_range_matches value (tag_text current) = true <->
  et_weak current = false /\ exists ws ws', blanks ws /\ blanks ws' /\ value = ws ++ tag_text current ++ ws'.
Proof.
  intros Hc. unfold file_if_range_matches. destruct (skip_space_split value) as (ws & Hw & E).
  assert (starts_quote (tag_text current) = negb (et_weak current)) as -> by (by destruct current as [[] o]).
  destruct (et_weak current) eqn:Ew; cbn [negb orb]; [rewrite orb_true_r; split; [done|by intros [? _]]|]. rewrite orb_false_r.
  assert (forall r, starts_quote (tag_text current ++ r) = true) as Hq by (by destruct current as [[] o]).
  split.
  - destruct (starts_quote (file_skip_space value)) eqn:Es; cbn [negb]; [|done]. destruct (file_tag_end (file_skip_space value)) as [after|] eqn:Ee; [|done].
    apply file_tag_end_iff in Ee as (t & Ht & Et). rewrite Et, same_span_app. intros H. apply andb_true_iff in H as [H1 H2].
    apply skip_space_nil in H1. apply bytes_eqb_eq in H2. split; [done|]. exists ws, after. by rewrite <- H2, <- Et.
  - intros (_ & ws1 & ws2 & Hw1 & Hw2 & ->). rewrite skip_space_app by done.
    assert (file_skip_space (tag_text current ++ ws2) = tag_text current ++ ws2) as ->.
    { destruct (tag_text_start current) as (c & r & -> & Hb & _). cbn [app]. by apply skip_space_stop. }
    rewrite Hq. cbn [negb]. rewrite (proj2 (file_tag_end_iff _ ws2)) by (by exists current).
    by rewrite same_span_app, bytes_eqb_refl, (proj2 (skip_space_nil ws2) Hw2).
Qed.

(** The range that a request wants, if its condition holds. *)
Definition range_wanted (request : server_request) (current : entity_tag) (spec : range_spec) : Prop :=
  sq_method request = CHTTP_METHOD_GET /\
  (exists field, field_values (sq_headers request) (bytes_of "Range") = [field] /\ range_field field spec) /\
  (field_values (sq_headers request) (bytes_of "If-Range") = [] \/
   (et_weak current = false /\ exists ws ws', blanks ws /\ blanks ws' /\
      field_values (sq_headers request) (bytes_of "If-Range") = [ws ++ tag_text current ++ ws'])).

Definition if_range_holds (request : server_request) (current : entity_tag) : bool :=
  match field_values (sq_headers request) (bytes_of "If-Range") with
  | [] => true
  | [value] => file_if_range_matches value (tag_text current)
  | _ => false
  end.

Lemma single_header_values request name : file_single_header request name =
  match field_values (sq_headers request) name with [value] => Some value | _ => None end.
Proof.
  pose proof (single_header_iff request name) as H. destruct (file_single_header request name) as [v|] eqn:E.
  - by rewrite (proj1 (H v) eq_refl).
  - destruct (field_values (sq_headers request) name) as [|v [|v' l]]; try done. by pose proof (proj2 (H v) eq_refl).
Qed.

Lemma range_asked_eq request current size : range_asked request (tag_text current) size =
  if (sq_method request =? CHTTP_METHOD_GET) && if_range_holds request current then
    match field_values (sq_headers request) (bytes_of "Range") with [field] => file_range field size | _ => RangeIgnored end
  else RangeIgnored.
Proof.
  unfold range_asked, if_range_holds. rewrite !single_header_values.
  pose proof (request_header_none (sq_headers request) (bytes_of "If-Range")) as Hn.
  assert (forall r, match r : list (list Z) with [field] => file_range field size | _ => RangeIgnored end =
    match (match r with [value] => Some value | _ => None end) with Some field => file_range field size | None => RangeIgnored end) as Hr
    by (by intros [|? [|? ?]]).
  rewrite Hr. destruct (field_values (sq_headers request) (bytes_of "If-Range")) as [|v [|v' l]].
  - rewrite (proj2 Hn eq_refl), andb_true_r. destruct (match field_values _ _ with [value] => _ | _ => _ end); [done|by split_if].
  - destruct (match field_values _ _ with [value] => _ | _ => _ end); [done|by split_if].
  - destruct (chttp_server_request_header _ _); [by rewrite andb_false_r|]. by pose proof (proj1 Hn eq_refl).
Qed.

Lemma if_range_holds_iff request current : tag_ok current -> if_range_holds request current = true <->
  field_values (sq_headers request) (bytes_of "If-Range") = [] \/
  (et_weak current = false /\ (exists ws ws', blanks ws /\ blanks ws' /\
     field_values (sq_headers request) (bytes_of "If-Range") = [ws ++ tag_text current ++ ws'])).
Proof.
  intros Hc. unfold if_range_holds. destruct (field_values (sq_headers request) (bytes_of "If-Range")) as [|v [|v' l]].
  - split; [by left|done].
  - rewrite if_range_iff by done. split.
    + intros [Ew (ws & ws' & H1 & H2 & ->)]. right. split; [done|]. by exists ws, ws'.
    + intros [?|[Ew (ws & ws' & H1 & H2 & [= ->])]]; [done|]. split; [done|]. by exists ws, ws'.
  - split; [done|]. by intros [?|[_ (? & ? & _ & _ & ?)]].
Qed.

Lemma range_asked_spec request current size : tag_ok current -> 0 <= size ->
  match range_asked request (tag_text current) size with
  | RangeIgnored => forall spec, ~ range_wanted request current spec
  | RangeUnsatisfiable => exists spec, range_wanted request current spec /\ select size spec = None
  | RangeSelected offset length =>
    (exists spec, range_wanted request current spec /\ select size spec = Some (offset, length)) /\
    0 <= offset /\ 0 < length /\ offset + length <= size
  end.
Proof.
  intros Hc Hs. rewrite range_asked_eq. pose proof (if_range_holds_iff request current Hc) as Hh.
  destruct (Z.eqb_spec (sq_method request) CHTTP_METHOD_GET) as [Em|Em]; cbn [andb]; [|by intros spec (? & _)].
  destruct (if_range_holds request current); [|intros spec (_ & _ & H); by apply Hh in H].
  assert (forall field spec, field_values (sq_headers request) (bytes_of "Range") = [field] -> range_field field spec ->
    range_wanted request current spec) as Hw by (intros field spec E Hf; split; [done|]; split; [by exists field|by apply Hh]).
  destruct (field_values (sq_headers request) (bytes_of "Range")) as [|field [|? ?]] eqn:Er;
    try (by intros spec (_ & (? & E & _) & _); rewrite Er in E).
  pose proof (file_range_spec field size Hs) as H. destruct (file_range field size).
  - intros spec (_ & (field' & E & Hf) & _). rewrite Er in E. injection E as <-. by apply (H spec).
  - destruct H as ((spec & Hf & Hsel) & Hb). split; [|done]. exists spec. split; [by apply (Hw field)|done].
  - destruct H as (spec & Hf & Hsel). exists spec. split; [by apply (Hw field)|done].
Qed.

(** *** What the operations of the builder do *)

(** The headers with one more, and the same body. *)
Definition header_set (b : chttp_server_response_builder) (name value : list Z) (b' : chttp_server_response_builder) : Prop :=
  builder_wf b' /\ rb_body_source b' = rb_body_source b /\
  forall m, header_value (rb_headers b') m = if bool_decide (folded m = folded name) then Some value else header_value (rb_headers b) m.

Lemma set_header_step b name value b' : builder_wf b -> chttp_server_response_set_header b name value = (b', SALTS_OK) -> header_set b name value b'.
Proof.
  intros Hb E. pose proof (set_header_spec b name value b' SALTS_OK Hb E) as (Hw & Hv & _). split; [done|]. split; [|exact Hv].
  pose proof (set_header_cases b name value Hb) as H. rewrite E in H. by destruct H as [[? _]|(_ & _ & _ & used & -> & _)].
Qed.

Lemma then_header_step r name value b' : then_header r name value = (b', SALTS_OK) -> r.2 = SALTS_OK /\
  chttp_server_response_set_header r.1 name value = (b', SALTS_OK).
Proof. unfold then_header. case_bool_decide; [done|]. destruct r as [b st]. by intros [= -> ->]. Qed.

Lemma empty_reply_ok w b code w' b' : reply_empty w b code = (w', b', SALTS_OK) ->
  rb_status_code b' = code /\ rb_headers b' = rb_headers b /\ rb_body_source b' = rb_body_source b.
Proof.
  unfold reply_empty, chttp_server_reply. rewrite zlen_nil. cbn [Z.eqb negb andb]. do 5 (split_if; [done|]).
  by intros [= <- <-].
Qed.

Lemma send_file_ok w b code type path offset length w' b' : builder_wf b ->
  chttp_server_send_file w b code (Some type) path offset length true = (w', b', SALTS_OK) ->
  rb_status_code b' = code /\
  (exists source, rb_body_source b' = Some source /\ chttp_file_transfer_open path offset length true = inl (bs_read source) /\
     bs_content_length source = length) /\
  (forall m, folded m <> folded (bytes_of "Content-Type") -> header_value (rb_headers b') m = header_value (rb_headers b) m).
Proof.
  intros Hb. unfold chttp_server_send_file. split_if; [done|]. pose proof (transfer_status path offset length true) as Hst.
  destruct (chttp_file_transfer_open path offset length true) as [t|e]; [|intros [= _ _ ->]; by destruct Hst].
  unfold chttp_server_response_source_owned. do 4 (split_if; [done|]). cbn [set_content_type].
  destruct (chttp_server_response_set_header b (bytes_of "Content-Type") type) as [b1 st] eqn:E1. case_bool_decide as Es; cbn [negb];
    [|case_bool_decide; [done|]; by intros [= _ _ ?]].
  subst st. rewrite bool_decide_true by done. cbn [negb]. intros E. apply (f_equal (fun r => r.1.2)) in E. cbn [fst snd] in E. subst b'.
  apply set_header_step in E1 as (_ & _ & Hh); [|done]. split; [done|]. split; [by eexists|]. intros m Hm. cbn [rb_headers]. change (header_value (rb_headers b1) m = header_value (rb_headers b) m).
  rewrite Hh, bool_decide_false by done. done.
Qed.

(** *** The conditions of a request *)

Section Conditions.
Context (request : server_request) (current : entity_tag) (mtime now_ms : Z).

Definition values (name : list Z) : list (list Z) := field_values (sq_headers request) name.

(** The condition is met, is not met, or cannot be read. *)
Definition tags_are (strong : bool) (name : list Z) (met : bool) : Prop :=
  values name <> [] /\ exists os, fields_read (values name) os /\ existsb (field_matches current strong) os = met.
Definition tags_unreadable (name : list Z) : Prop := values name <> [] /\ forall os, ~ fields_read (values name) os.

(** The only field of this name is the date [d]. *)
Definition dated (name : list Z) (d : Z) : Prop := exists value, values name = [value] /\ file_http_date value now_ms = Some d.

Definition IF_MATCH : list Z := bytes_of "If-Match".
Definition IF_NONE_MATCH : list Z := bytes_of "If-None-Match".

Definition match_allows : Prop :=
  tags_are true IF_MATCH true \/ (values IF_MATCH = [] /\ forall d, dated (bytes_of "If-Unmodified-Since") d -> mtime <= d).
Definition match_forbids : Prop :=
  tags_are true IF_MATCH false \/ (values IF_MATCH = [] /\ exists d, dated (bytes_of "If-Unmodified-Since") d /\ d < mtime).
Definition copy_outdated : Prop :=
  tags_are false IF_NONE_MATCH false \/ (values IF_NONE_MATCH = [] /\ forall d, dated (bytes_of "If-Modified-Since") d -> d < mtime).
Definition copy_current : Prop :=
  tags_are false IF_NONE_MATCH true \/ (values IF_NONE_MATCH = [] /\ exists d, dated (bytes_of "If-Modified-Since") d /\ mtime <= d).

Lemma dated_iff name d : dated name d <->
  exists condition, file_single_header request name = Some condition /\ file_http_date condition now_ms = Some d.
Proof. unfold dated. by setoid_rewrite single_header_iff. Qed.

(** The date of a field, when there is one that can be read. *)
Lemma dated_cases name (P : option Z -> Z) :
  match file_single_header request name with
  | Some condition => match file_http_date condition now_ms with Some t => P (Some t) | None => P None end
  | None => P None
  end = P (match file_single_header request name with Some condition => file_http_date condition now_ms | None => None end).
Proof. destruct (file_single_header request name) as [c|]; [|done]. by destruct (file_http_date c now_ms). Qed.

Lemma dated_only name d : dated name d <->
  match file_single_header request name with Some condition => file_http_date condition now_ms | None => None end = Some d.
Proof.
  rewrite dated_iff. destruct (file_single_header request name) as [c|]; [|by split; [intros (? & ? & _)|]].
  split; [by intros (? & [= <-] & ?)|by exists c].
Qed.

Lemma match_code_spec :
  (match_code request (tag_text current) mtime now_ms = 200 /\ match_allows) \/
  (match_code request (tag_text current) mtime now_ms = 412 /\ match_forbids) \/
  (match_code request (tag_text current) mtime now_ms = 400 /\ tags_unreadable IF_MATCH).
Proof.
  unfold match_code, match_allows, match_forbids. pose proof (request_tags_spec current true request IF_MATCH) as H. fold IF_MATCH.
  destruct (file_request_tags request IF_MATCH (tag_text current) true) as [| |m]; cbn in H.
  - setoid_rewrite dated_only. rewrite (dated_cases _ (fun o => match o with Some t => if t <? mtime then 412 else 200 | None => 200 end)).
    destruct (match file_single_header _ _ with Some c => _ | None => None end) as [d|].
    + destruct (Z.ltb_spec d mtime).
      * right. left. split; [done|]. right. split; [done|]. by exists d.
      * left. split; [done|]. right. split; [done|]. intros ? [= <-]. done.
    + left. split; [done|]. right. by split.
  - right. right. by split.
  - destruct H as [Hne (os & Hr & ->)]. destruct (existsb (field_matches current true) os) eqn:E.
    + left. split; [done|]. left. split; [done|]. by exists os.
    + right. left. split; [done|]. left. split; [done|]. by exists os.
Qed.

Lemma none_match_code_spec :
  (none_match_code request (tag_text current) mtime now_ms = 200 /\ copy_outdated) \/
  (none_match_code request (tag_text current) mtime now_ms = 304 /\ copy_current) \/
  (none_match_code request (tag_text current) mtime now_ms = 400 /\ tags_unreadable IF_NONE_MATCH).
Proof.
  unfold none_match_code, copy_outdated, copy_current. pose proof (request_tags_spec current false request IF_NONE_MATCH) as H. fold IF_NONE_MATCH.
  destruct (file_request_tags request IF_NONE_MATCH (tag_text current) false) as [| |m]; cbn in H.
  - setoid_rewrite dated_only. rewrite (dated_cases _ (fun o => match o with Some t => if mtime <=? t then 304 else 200 | None => 200 end)).
    destruct (match file_single_header _ _ with Some c => _ | None => None end) as [d|].
    + destruct (Z.leb_spec mtime d).
      * right. left. split; [done|]. right. split; [done|]. by exists d.
      * left. split; [done|]. right. split; [done|]. intros ? [= <-]. done.
    + left. split; [done|]. right. by split.
  - right. right. by split.
  - destruct H as [Hne (os & Hr & ->)]. destruct (existsb (field_matches current false) os) eqn:E.
    + right. left. split; [done|]. left. split; [done|]. by exists os.
    + left. split; [done|]. left. split; [done|]. by exists os.
Qed.

End Conditions.

(** *** The answer *)

(** The tag that identifies the file, and the time of its last change. *)
Definition file_etag (options : chttp_server_file_options) (metadata : cmeta_fs_stat_t) : list Z :=
  match fo_etag options with Some etag => etag | None => generated_etag metadata end.
Definition file_mtime (metadata : cmeta_fs_stat_t) (now_ms : Z) : Z :=
  Z.min (st_mtime metadata / MICROSECONDS_PER_SECOND) (now_ms / MILLISECONDS_PER_SECOND).

Definition CONTENT_RANGE : list Z := bytes_of "Content-Range".

(** The part of the file that a response has as its body. *)
Definition body_is (b : chttp_server_response_builder) (path : list Z) (offset length : Z) : Prop :=
  exists source, rb_body_source b = Some source /\ chttp_file_transfer_open path offset length true = inl (bs_read source) /\
    bs_content_length source = length.

(** The answer to a request without its conditions. *)
Definition range_answer (request : server_request) (current : entity_tag) (path : list Z) (size : Z) (b : chttp_server_response_builder) : Prop :=
  (rb_status_code b = 200 /\ (forall spec, ~ range_wanted request current spec) /\ body_is b path 0 size) \/
  (exists spec offset length, rb_status_code b = 206 /\ range_wanted request current spec /\ select size spec = Some (offset, length) /\
     body_is b path offset length /\ 0 <= offset /\ 0 < length /\ offset + length <= size /\
     header_value (rb_headers b) CONTENT_RANGE = Some (content_range offset length size)) \/
  (exists spec, rb_status_code b = 416 /\ range_wanted request current spec /\ select size spec = None /\ rb_body_source b = None /\
     header_value (rb_headers b) CONTENT_RANGE = Some (unsatisfied_range size)).

Lemma serve_range_ok w b request options current size w' b' : tag_ok current -> 0 <= size -> builder_wf b -> rb_body_source b = None ->
  serve_range w b request options (tag_text current) size = (w', b', SALTS_OK) ->
  range_answer request current (fo_path options) size b' /\
  (forall m, folded m <> folded (bytes_of "Content-Type") -> folded m <> folded CONTENT_RANGE ->
     header_value (rb_headers b') m = header_value (rb_headers b) m).
Proof.
  intros Hc Hs Hb Hsrc. unfold serve_range. pose proof (range_asked_spec request current size Hc Hs) as H.
  destruct (range_asked request (tag_text current) size) as [|offset length|].
  - intros E. apply send_file_ok in E as (Ec & Hbody & Hh); [|done]. split; [by left|]. intros m Hm _. by apply Hh.
  - destruct H as ((spec & Hw & Hsel) & Hbd). fold CONTENT_RANGE. destruct (chttp_server_response_set_header b CONTENT_RANGE _) as [b1 st] eqn:E1.
    case_bool_decide as Es; cbn [negb]; [subst st|by intros [= _ _ ?]]. apply set_header_step in E1 as (Hb1 & _ & Hh1); [|done].
    intros E. apply send_file_ok in E as (Ec & Hbody & Hh); [|done]. split.
    + right. left. exists spec, offset, length. split_and!; try done; try lia. rewrite Hh by (by vm_compute). by rewrite Hh1, bool_decide_true.
    + intros m Hm Hm2. rewrite Hh, Hh1 by done. by rewrite bool_decide_false.
  - destruct H as (spec & Hw & Hsel). fold CONTENT_RANGE. destruct (chttp_server_response_set_header b CONTENT_RANGE _) as [b1 st] eqn:E1.
    case_bool_decide as Es; cbn [negb]; [subst st|by intros [= _ _ ?]]. apply set_header_step in E1 as (Hb1 & Hs1 & Hh1); [|done].
    intros E. apply empty_reply_ok in E as (Ec & Eh & Eb). split.
    + right. right. exists spec. rewrite Eh, Eb, Hs1. rewrite Hh1, bool_decide_true by done. done.
    + intros m _ Hm2. rewrite Eh, Hh1. by rewrite bool_decide_false.
Qed.

(** The answer to a request with its conditions, in the order of RFC 9110. *)
Definition file_answer (request : server_request) (current : entity_tag) (path : list Z) (size mtime now_ms : Z)
    (b : chttp_server_response_builder) : Prop :=
  (match_allows request current mtime now_ms /\ copy_outdated request current mtime now_ms /\ range_answer request current path size b) \/
  (rb_body_source b = None /\
   ((rb_status_code b = 412 /\ match_forbids request current mtime now_ms) \/
    (rb_status_code b = 304 /\ match_allows request current mtime now_ms /\ copy_current request current mtime now_ms) \/
    (rb_status_code b = 400 /\ (tags_unreadable request IF_MATCH \/ tags_unreadable request IF_NONE_MATCH)))).

Lemma three_headers b etag modified b' : builder_wf b ->
  then_header (then_header (chttp_server_response_set_header b (bytes_of "ETag") etag) (bytes_of "Last-Modified") modified)
    (bytes_of "Accept-Ranges") (bytes_of "bytes") = (b', SALTS_OK) ->
  builder_wf b' /\ rb_body_source b' = rb_body_source b /\ header_value (rb_headers b') (bytes_of "ETag") = Some etag /\
  header_value (rb_headers b') (bytes_of "Last-Modified") = Some modified.
Proof.
  intros Hb E. apply then_header_step in E as [E0 E3].
  destruct (then_header (chttp_server_response_set_header b (bytes_of "ETag") etag) (bytes_of "Last-Modified") modified) as [b2 s2] eqn:E2.
  cbn [fst snd] in *. subst s2. apply then_header_step in E2 as [E0 E2].
  destruct (chttp_server_response_set_header b (bytes_of "ETag") etag) as [b1 s1] eqn:E1. cbn [fst snd] in *. subst s1.
  apply set_header_step in E1 as (W1 & S1 & H1); [|done]. apply set_header_step in E2 as (W2 & S2 & H2); [|done]. apply set_header_step in E3 as (W3 & S3 & H3); [|done].
  split; [done|]. split; [congruence|]. split.
  - rewrite H3, bool_decide_false, H2, bool_decide_false, H1, bool_decide_true by (by vm_compute). done.
  - rewrite H3, bool_decide_false, H2, bool_decide_true by (by vm_compute). done.
Qed.

Lemma format_date_fails t : chttp_server_format_date t <> Err SALTS_OK.
Proof. unfold chttp_server_format_date. destruct (cmeta_gmtime t); [|done]. split_if; [done|]. by split_if. Qed.

(** C22: A GET or HEAD of a file that is answered is answered as RFC 9110 says:
    with 412, 304 or 400 and no file as its body when the conditions demand it,
    and otherwise with the whole file, with exactly the part that the Range field
    selects and the Content-Range of this part, or with 416; the answer has the
    tag and the date of the file. *)
Theorem serve_file_correct w b request options now_ms metadata w' b' :
  builder_wf b -> rb_body_source b = None -> sq_method request = CHTTP_METHOD_GET \/ sq_method request = CHTTP_METHOD_HEAD ->
  cmeta_fs_stat (fo_path options) = Ok metadata -> 0 <= st_size metadata ->
  chttp_server_serve_file w b request options now_ms = (w', b', SALTS_OK) ->
  exists current modified, tag_ok current /\ file_etag options metadata = tag_text current /\
    chttp_server_format_date (file_mtime metadata now_ms) = Ok modified /\
    header_value (rb_headers b') (bytes_of "ETag") = Some (tag_text current) /\
    header_value (rb_headers b') (bytes_of "Last-Modified") = Some modified /\
    st_is_file metadata = true /\
    file_answer request current (fo_path options) (st_size metadata) (file_mtime metadata now_ms) now_ms b'.
Proof.
  intros Hb Hsrc Hm Est Hsize. unfold chttp_server_serve_file. split_if; [done|].
  assert (negb (sq_method request =? CHTTP_METHOD_GET) && negb (sq_method request =? CHTTP_METHOD_HEAD) = false) as ->.
  { destruct Hm as [-> | ->]; [done|]. by rewrite andb_false_r. }
  rewrite Est. destruct (st_is_file metadata) eqn:Ef; cbn [negb]; [|done]. split_if; [done|]. split_if; [done|].
  fold (file_etag options metadata) (file_mtime metadata now_ms). cbv zeta. destruct (file_tag_end (file_etag options metadata)) as [after|] eqn:Ee; [|done].
  destruct after; cbn [is_empty negb]; [|done]. apply file_tag_end_iff in Ee as (current & Hc & Et). rewrite app_nil_r in Et. rewrite Et.
  pose proof (format_date_fails (file_mtime metadata now_ms)) as Hfd.
  destruct (chttp_server_format_date (file_mtime metadata now_ms)) as [modified|e] eqn:Ed; [|intros [= _ _ ->]; by destruct Hfd].
  destruct (then_header _ (bytes_of "Accept-Ranges") (bytes_of "bytes")) as [b1 s1] eqn:E1.
  case_bool_decide as Es; cbn [negb]; [subst s1|by intros [= _ _ ?]].
  apply three_headers in E1 as (W1 & S1 & He & Hl); [|done]. rewrite Hsrc in S1. intros H. exists current, modified.
  assert (header_value (rb_headers b') (bytes_of "ETag") = Some (tag_text current) /\
    header_value (rb_headers b') (bytes_of "Last-Modified") = Some modified /\
    file_answer request current (fo_path options) (st_size metadata) (file_mtime metadata now_ms) now_ms b') as (A1 & A2 & A3);
    [|by split_and!].
  assert (forall code, reply_empty w b1 code = (w', b', SALTS_OK) -> header_value (rb_headers b') (bytes_of "ETag") = Some (tag_text current) /\
    header_value (rb_headers b') (bytes_of "Last-Modified") = Some modified /\ rb_status_code b' = code /\ rb_body_source b' = None) as Hempty.
  { intros code E. apply empty_reply_ok in E as (Ec & Eh & Eb). rewrite Eh, Eb. done. }
  unfold file_answer. destruct (match_code_spec request current (file_mtime metadata now_ms) now_ms) as [[Ec Hp1]|[[Ec Hp1]|[Ec Hp1]]]; rewrite Ec in H; cbn [Z.eqb negb Pos.eqb] in H;
    [|apply Hempty in H as (? & ? & ? & ?); split_and!; try done; right; split; [done|]; tauto..].
  destruct (none_match_code_spec request current (file_mtime metadata now_ms) now_ms) as [[Ec2 Hp2]|[[Ec2 Hp2]|[Ec2 Hp2]]]; rewrite Ec2 in H; cbn [Z.eqb negb Pos.eqb] in H;
    [|apply Hempty in H as (? & ? & ? & ?); split_and!; try done; right; split; [done|]; tauto..].
  apply serve_range_ok in H as [Ha Hh]; [|done..]. rewrite !Hh by (by vm_compute). split_and!; try done. by left.
Qed.

End Serve.

End FileServiceTheorems.
