(* ===== verification/WebAssets.v ===== *)
(** * Assets

    Model of [app/src/chttp_web_assets.c] on a POSIX system: a middleware that
    serves the files below a directory under a prefix of the URL space, and one
    file of it for all paths below another prefix.

    What the callbacks of a mount answer for a path, and the metadata of files,
    are parameters. *)

From S2P Require Import Prelude Decimal HpackBuffer Router Http1Parser ServerBuffer Session Response Jwt Middleware Cors.
From S2P Require Import Interceptor WebSse FileService.

Module WebAssets.
Import Decimal HpackBuffer Router Http1Parser ServerBuffer Session Response Jwt Middleware Interceptor WebSse FileService.

Definition CHTTP_WEB_ASSET_PREFIX_HARD_MAX : Z := 1024.
Definition CHTTP_WEB_ASSET_ROOT_HARD_MAX : Z := 4096.
Definition CHTTP_WEB_ASSET_RELATIVE_HARD_MAX : Z := 4096.
Definition CHTTP_WEB_ASSET_FS_PATH_HARD_MAX : Z := CHTTP_WEB_ASSET_ROOT_HARD_MAX + CHTTP_WEB_ASSET_RELATIVE_HARD_MAX + 2.

Definition sizeof_asset_mount : Z := 88.

Record chttp_web_asset_mount := {
  am_size : Z;
  am_url_prefix : list Z;
  am_filesystem_root : list Z;
  am_max_relative_path_bytes : Z;
  am_cache_control : option (list Z);
  am_immutable_cache_control : option (list Z);
  am_immutable : option (list Z -> bool);
  am_etag : option (list Z -> option (list Z));
  am_spa_url_prefix : option (list Z);
  am_spa_fallback_relative_path : option (list Z);
}.

Definition SLASH : Z := 47.
Definition BACKSLASH : Z := 92.
Definition PERCENT : Z := 37.
Definition DOT : Z := 46.

(** ** Prefixes *)

Definition chttp_web_asset_bounded_length (value : list Z) (limit : Z) : outcome Z :=
  if zlen value <=? limit then Ok (zlen value) else Err SALTS_EMSGSIZE.

Definition prefix_byte_invalid (value : Z) : bool :=
  (value <? 32) || (value =? 127) || (value =? BACKSLASH) || (value =? 63) || (value =? 35) || (value =? PERCENT).

Definition chttp_web_asset_prefix_valid {utf8 : VstrUtf8} (prefix : list Z) : bool :=
  match chttp_web_asset_bounded_length prefix CHTTP_WEB_ASSET_PREFIX_HARD_MAX with
  | Err _ => false
  | Ok size =>
    if (size <? 2) || negb (zth prefix 0 =? SLASH) || (zth prefix (size - 1) =? SLASH) then false
    else if existsb prefix_byte_invalid prefix then false
    else match vstr_utf8_invalid_offset prefix with None => true | Some _ => false end
  end.

Definition chttp_web_asset_prefix_matches (prefix path : list Z) : bool :=
  bytes_eqb (ztake (zlen prefix) path) prefix &&
  match zdrop (zlen prefix) path with [] => true | c :: _ => c =? SLASH end.

(** ** Paths *)

Definition chttp_web_asset_hex (value : Z) : option Z :=
  if (48 <=? value) && (value <=? 57) then Some (value - 48)
  else if (97 <=? value) && (value <=? 102) then Some (value - 97 + 10)
  else if (65 <=? value) && (value <=? 70) then Some (value - 65 + 10)
  else None.

Definition chttp_web_asset_component_byte_valid (value : Z) : bool :=
  negb ((value <? 32) || (value =? 127) || (value =? BACKSLASH) || (value =? SLASH) || (value =? 58) || (value =? 42) ||
        (value =? 63) || (value =? 34) || (value =? 60) || (value =? 62) || (value =? 124) || (value =? 35)).

Fixpoint skip_slashes (s : list Z) : list Z :=
  match s with c :: rest => if c =? SLASH then skip_slashes rest else s | [] => [] end.

Section Normalize.
Context {utf8 : VstrUtf8} (max_relative_bytes : Z) (decode_percent : bool).

Definition segment_add (segment : list Z) (value : Z) : outcome (list Z) :=
  if negb (chttp_web_asset_component_byte_valid value) then Err SALTS_EPERM
  else if (zlen segment =? max_relative_bytes) || (zlen segment =? CHTTP_WEB_ASSET_RELATIVE_HARD_MAX) then Err SALTS_ENAMETOOLONG
  else Ok (segment ++ [value]).

(** The segment up to a slash or the end, and what remains. *)
Fixpoint segment_loop (s segment : list Z) : outcome (list Z * list Z) :=
  match s with
  | [] => Ok (segment, [])
  | value :: rest =>
    if value =? SLASH then Ok (segment, s)
    else if decode_percent && (value =? PERCENT) then
      match rest with
      | h :: l :: rest =>
        match chttp_web_asset_hex h, chttp_web_asset_hex l with
        | Some high, Some low => segment ← segment_add segment (u8 (Z.lor (Z.shiftl high 4) low)); segment_loop rest segment
        | _, _ => Err SALTS_EINVAL
        end
      | _ => Err SALTS_EINVAL
      end
    else segment ← segment_add segment value; segment_loop rest segment
  end.

Definition last_is (c : Z) (s : list Z) : bool := match last s with Some c' => c' =? c | None => false end.

Definition append_segment (output segment : list Z) : outcome (list Z) :=
  if zlen segment =? 0 then Ok output
  else if bytes_eqb segment [DOT] then Ok output
  else if bytes_eqb segment [DOT; DOT] then Err SALTS_EPERM
  else if last_is DOT segment || last_is SPACE segment then Err SALTS_EPERM
  else if negb (zlen output =? 0) && (zlen output =? max_relative_bytes) then Err SALTS_ENAMETOOLONG
  else
    let output := if negb (zlen output =? 0) then output ++ [SLASH] else output in
    if max_relative_bytes - zlen output <? zlen segment then Err SALTS_ENAMETOOLONG
    else Ok (output ++ segment).

(** A round takes at least a byte, so that the fuel, the bytes that are left,
    suffices ([normalize_loop_segments]). *)
Fixpoint normalize_loop (fuel : nat) (s output : list Z) : outcome (list Z) :=
  match s, fuel with
  | [], _ => Ok output
  | _, O => Err SALTS_EINVAL
  | _, S fuel =>
    '(segment, rest) ← segment_loop s [];
    output ← append_segment output segment;
    normalize_loop fuel (skip_slashes rest) output
  end.

Definition chttp_web_asset_normalize_relative (input : list Z) : outcome (list Z) :=
  if (max_relative_bytes =? 0) || (CHTTP_WEB_ASSET_RELATIVE_HARD_MAX <? max_relative_bytes) then Err SALTS_EINVAL
  else
    let s := skip_slashes input in
    output ← normalize_loop (length s) s [];
    if zlen output =? 0 then Err SALTS_ENOENT
    else match vstr_utf8_invalid_offset output with None => Ok output | Some _ => Err SALTS_ECHARSET end.

End Normalize.

(** ** Files *)

Section Files.
Context {fs : FileSystem}.

Definition chttp_web_asset_path_has_reparse (path : list Z) : outcome cmeta_fs_stat_t :=
  out ← cmeta_fs_lstat path;
  if st_is_symlink out then Err SALTS_ELOOP else Ok out.

(** [strchr] of a slash: what is before it, and what is behind it. *)
Fixpoint at_slash (s : list Z) : list Z * option (list Z) :=
  match s with
  | [] => ([], None)
  | c :: rest => if c =? SLASH then ([], Some rest) else let '(segment, behind) := at_slash rest in (c :: segment, behind)
  end.

Definition needs_separator (output : list Z) : bool := negb (last_is SLASH output) && negb (last_is BACKSLASH output).

Definition join (output segment : list Z) : list Z :=
  (if needs_separator output then output ++ [SLASH] else output) ++ segment.

Fixpoint resolve_loop (fuel : nat) (output cursor : list Z) : outcome (list Z) :=
  match cursor, fuel with
  | [], _ => Ok output
  | _, O => Err SALTS_EINVAL
  | _, S fuel =>
    let '(segment, behind) := at_slash cursor in
    if CHTTP_WEB_ASSET_FS_PATH_HARD_MAX <? zlen output + 1 + zlen segment then Err SALTS_ENAMETOOLONG
    else
      let output := join output segment in
      metadata ← chttp_web_asset_path_has_reparse output;
      match behind with
      | None => if negb (st_is_file metadata) then Err SALTS_EISDIR else Ok output
      | Some cursor => if negb (st_is_directory metadata) then Err SALTS_ENOTDIR else resolve_loop fuel output cursor
      end
  end.

Definition chttp_web_asset_resolve_file (mount : chttp_web_asset_mount) (relative : list Z) : outcome (list Z) :=
  match chttp_web_asset_bounded_length (am_filesystem_root mount) CHTTP_WEB_ASSET_ROOT_HARD_MAX with
  | Err _ => Err SALTS_EINVAL
  | Ok root_size =>
    if root_size =? 0 then Err SALTS_EINVAL
    else
      metadata ← chttp_web_asset_path_has_reparse (am_filesystem_root mount);
      if negb (st_is_directory metadata) then Err SALTS_ENOTDIR
      else resolve_loop (length relative) (am_filesystem_root mount) relative
  end.

Context {utf8 : VstrUtf8}.

Definition chttp_web_asset_mount_valid (mount : chttp_web_asset_mount) : bool :=
  if (am_size mount <? sizeof_asset_mount) || negb (chttp_web_asset_prefix_valid (am_url_prefix mount)) ||
     (am_max_relative_path_bytes mount =? 0) || (CHTTP_WEB_ASSET_RELATIVE_HARD_MAX <? am_max_relative_path_bytes mount) then false
  else if negb (Bool.eqb (bool_decide (am_spa_url_prefix mount = None)) (bool_decide (am_spa_fallback_relative_path mount = None)))
  then false
  else if match am_spa_url_prefix mount with Some prefix => negb (chttp_web_asset_prefix_valid prefix) | None => false end then false
  else
    match chttp_web_asset_bounded_length (am_filesystem_root mount) CHTTP_WEB_ASSET_ROOT_HARD_MAX with
    | Err _ => false
    | Ok root_size =>
      if root_size =? 0 then false
      else
        match chttp_web_asset_path_has_reparse (am_filesystem_root mount) with
        | Err _ => false
        | Ok root_metadata =>
          if negb (st_is_directory root_metadata) then false
          else
            match am_spa_fallback_relative_path mount with
            | None => true
            | Some fallback => is_ok (chttp_web_asset_normalize_relative (am_max_relative_path_bytes mount) false fallback)
            end
        end
    end.

(** [fn] is the number of the middleware with this mount. *)
Definition chttp_web_assets_use (server : interceptors) (mount : chttp_web_asset_mount) (fn : Z) : interceptors * salts_status :=
  if negb (chttp_web_asset_mount_valid mount) then (server, SALTS_EINVAL) else chttp_server_use server (UserMiddleware fn).

(** ** The middleware *)

Context {alloc : Allocator} {gmtime : Gmtime} {parser : DatetimeParser} {transfers : FileTransfers}.
#[local] Abbreviation builder := chttp_server_response_builder.
#[local] Abbreviation served := (world * chttp_server_response_builder * salts_status)%type.

Definition NOT_FOUND : list Z := bytes_of "Not Found".

Definition chttp_web_asset_not_found (w : world) (b : builder) : served :=
  chttp_server_reply w b 404 (Some (bytes_of "text/plain")) NOT_FOUND.

Definition chttp_web_asset_method_not_allowed (w : world) (b : builder) : served :=
  let '(b, status) := chttp_server_response_set_header b (bytes_of "Allow") ALLOWED in
  if bool_decide (status = SALTS_OK) then reply_empty w b 405 else (w, b, status).

Definition cache_control (mount : chttp_web_asset_mount) (relative : list Z) : list Z :=
  let usual := match am_cache_control mount with Some value => value | None => bytes_of "no-cache" end in
  match am_immutable mount, am_immutable_cache_control mount with
  | Some immutable, Some value => if immutable relative then value else usual
  | _, _ => usual
  end.

Definition chttp_web_asset_serve_relative (mount : chttp_web_asset_mount) (request : server_request) (w : world) (b : builder)
    (relative : list Z) (now_ms : Z) : served :=
  match chttp_web_asset_resolve_file mount relative with
  | Err _ => chttp_web_asset_not_found w b
  | Ok filesystem_path =>
    let '(b, status) := chttp_server_response_set_header b (bytes_of "Cache-Control") (cache_control mount relative) in
    if negb (bool_decide (status = SALTS_OK)) then (w, b, status)
    else
      chttp_server_serve_file w b request
        {| fo_path := filesystem_path; fo_content_type := None;
           fo_etag := match am_etag mount with Some etag => etag relative | None => None end |} now_ms
  end.

Definition method_refused (request : server_request) : bool :=
  negb (sq_method request =? CHTTP_METHOD_GET) && negb (sq_method request =? CHTTP_METHOD_HEAD).

(** The response for a path below one of the prefixes; [None] is a path of
    another namespace. *)
Definition assets_response (mount : chttp_web_asset_mount) (request : server_request) (w : world) (b : builder) (now_ms : Z) :
    option served :=
  let answer input decode_percent :=
    if method_refused request then chttp_web_asset_method_not_allowed w b
    else
      match chttp_web_asset_normalize_relative (am_max_relative_path_bytes mount) decode_percent input with
      | Err _ => chttp_web_asset_not_found w b
      | Ok relative => chttp_web_asset_serve_relative mount request w b relative now_ms
      end in
  if chttp_web_asset_prefix_matches (am_url_prefix mount) (sq_path request) then
    Some (answer (zdrop (zlen (am_url_prefix mount)) (sq_path request)) true)
  else
    match am_spa_url_prefix mount with
    | Some prefix =>
      if chttp_web_asset_prefix_matches prefix (sq_path request) then
        Some (answer (match am_spa_fallback_relative_path mount with Some path => path | None => [] end) false)
      else None
    | None => None
    end.

Definition chttp_web_assets_middleware {App} (mount : chttp_web_asset_mount) (now_ms : Z) (request : server_request)
    (s : call_state App) : activation (call_state App) :=
  match assets_response mount request (cs_world s) (cs_response s) now_ms with
  | Some (w, b, status) => Returns (s <| cs_world := w |> <| cs_response := b |>) status
  | None => CallsNext s (fun s status => Returns s status)
  end.

End Files.

End WebAssets.
