(* ===== verification/WebAssetsTheorems.v ===== *)
(** * Assets: theorems

    A path is served exactly when its components, decoded, name a regular file
    below the root of the mount, reached through directories and no symbolic
    link. *)

From S2P Require Import Prelude Decimal HpackBuffer Router Http1Parser ServerBuffer Session Response Jwt Middleware Cors.
From S2P Require Import CorsTheorems ResponseTheorems Interceptor WebSse FileService FileServiceTheorems WebAssets.

Module WebAssetsTheorems.
Import Decimal HpackBuffer Router Http1Parser ServerBuffer Session Response Jwt Middleware Interceptor WebSse FileService WebAssets.

(** ** Components *)

(** The strings between slashes. *)
Fixpoint split_slash (s : list Z) : list (list Z) :=
  match s with
  | [] => [[]]
  | c :: s =>
    if c =? SLASH then [] :: split_slash s
    else match split_slash s with segment :: segments => (c :: segment) :: segments | [] => [[c]] end
  end.

Definition components (s : list Z) : list (list Z) := filter (fun segment => segment <> []) (split_slash s).

(** A component with its escapes decoded. *)
Fixpoint decode_component (decode : bool) (s : list Z) : option (list Z) :=
  match s with
  | [] => Some []
  | c :: rest =>
    if decode && (c =? PERCENT) then
      match rest with
      | h :: l :: rest =>
        match chttp_web_asset_hex h, chttp_web_asset_hex l with
        | Some high, Some low => d ← decode_component decode rest; Some (high * 16 + low :: d)
        | _, _ => None
        end
      | _ => None
      end
    else d ← decode_component decode rest; Some (c :: d)
  end.

(** The name of an entry of a directory that is neither the directory itself
    nor its parent, and that other systems accept too. *)
Definition component_ok (segment : list Z) : bool :=
  negb (bytes_eqb segment []) && forallb chttp_web_asset_component_byte_valid segment &&
  negb (last_is DOT segment) && negb (last_is SPACE segment).

Fixpoint join_segments (segments : list (list Z)) : list Z :=
  match segments with
  | [] => []
  | [segment] => segment
  | segment :: segments => segment ++ SLASH :: join_segments segments
  end.

Lemma split_slash_nonempty s : split_slash s <> [].
Proof. destruct s as [|c s]; cbn; [done|]. split_if; [done|]. by destruct (split_slash s). Qed.

Lemma filter_empty (segments : list (list Z)) :
  filter (fun segment => segment <> []) ([] :: segments) = filter (fun segment => segment <> []) segments.
Proof. apply filter_cons_False. by intros []. Qed.

Lemma components_slash s : components (SLASH :: s) = components s.
Proof. unfold components. cbn [split_slash]. rewrite Z.eqb_refl. apply filter_empty. Qed.

Lemma components_skip s : components (skip_slashes s) = components s.
Proof.
  induction s as [|c s IH]; [done|]. cbn [skip_slashes]. destruct (Z.eqb_spec c SLASH) as [->|]; [|done].
  by rewrite components_slash.
Qed.

Lemma split_slash_app raw rest : SLASH ∉ raw -> (rest = [] \/ (exists r, rest = SLASH :: r)) ->
  split_slash (raw ++ rest) = raw :: tail (split_slash rest).
Proof.
  intros Hraw Hrest. induction raw as [|c raw IH]; cbn [app].
  - destruct Hrest as [->|[r ->]]; [done|]. done.
  - apply not_elem_of_cons in Hraw as [Hc Hraw]. cbn [split_slash]. rewrite (proj2 (Z.eqb_neq _ _)) by done. by rewrite IH.
Qed.

Lemma components_cons raw rest : raw <> [] -> SLASH ∉ raw -> (rest = [] \/ (exists r, rest = SLASH :: r)) ->
  components (raw ++ rest) = raw :: components (skip_slashes rest).
Proof.
  intros Hne Hraw Hrest. rewrite components_skip. unfold components. rewrite split_slash_app by done.
  rewrite filter_cons_True by done. f_equal. destruct Hrest as [->|[r ->]]; [done|]. cbn [split_slash]. rewrite Z.eqb_refl. cbn [tail].
  symmetry. apply filter_empty.
Qed.

Lemma hex_range c v : chttp_web_asset_hex c = Some v -> 0 <= v < 16.
Proof. unfold chttp_web_asset_hex. repeat split_if; bool_prop; intros [= <-]; lia. Qed.

Lemma hex_slash : chttp_web_asset_hex SLASH = None.
Proof. done. Qed.

Lemma byte_of_hex h l : 0 <= h < 16 -> 0 <= l < 16 -> u8 (Z.lor (Z.shiftl h 4) l) = h * 16 + l.
Proof.
  intros Hh Hl. assert (Z.lor (Z.shiftl h 4) l = h * 16 + l) as ->.
  { rewrite Z.shiftl_mul_pow2 by lia. change (2 ^ 4) with 16. rewrite <- Z.add_lor_land, Z.add_comm.
    assert (Z.land (h * 16) l = 0) as ->; [|lia].
    change 16 with (2 ^ 4). rewrite <- Z.shiftl_mul_pow2 by lia. apply Z.bits_inj'. intros n Hn.
    rewrite Z.land_spec, Z.bits_0. destruct (Z.lt_ge_cases n 4).
    - rewrite Z.shiftl_spec_low by lia. done.
    - rewrite (Z.bits_above_log2 l n), andb_false_r; [done|lia|]. destruct (Z.eq_dec l 0) as [->|]; [cbn; lia|].
      apply Z.log2_lt_pow2; [lia|]. apply Z.lt_le_trans with (2 ^ 4); [cbn; lia|]. apply Z.pow_le_mono_r; lia. }
  unfold u8. apply Z.mod_small. cbn. lia.
Qed.

Section Normalize.
Context (max_relative_bytes : Z) (decode : bool).
Hypothesis Hmax : 0 < max_relative_bytes <= CHTTP_WEB_ASSET_RELATIVE_HARD_MAX.

Lemma segment_add_iff segment v segment' : zlen segment <= max_relative_bytes ->
  segment_add max_relative_bytes segment v = Ok segment' <->
  chttp_web_asset_component_byte_valid v = true /\ zlen segment + 1 <= max_relative_bytes /\ segment' = segment ++ [v].
Proof.
  intros Hl. unfold segment_add. destruct (chttp_web_asset_component_byte_valid v); cbn [negb]; [|by split; [|intros (? & _)]].
  destruct (Z.eqb_spec (zlen segment) max_relative_bytes); cbn [orb]; [split; [done|intros (_ & ? & _); lia]|].
  destruct (Z.eqb_spec (zlen segment) CHTTP_WEB_ASSET_RELATIVE_HARD_MAX); [split; [done|intros (_ & ? & _); lia]|].
  split; [intros [= <-]; split; [done|]; split; [lia|done]|]. by intros (_ & _ & ->).
Qed.

Definition cut (raw rest : list Z) : Prop := (SLASH ∉ raw) /\ (rest = [] \/ (exists r, rest = SLASH :: r)).

Definition segment_reads (s segment seg rest : list Z) : Prop :=
  exists raw d, s = raw ++ rest /\ cut raw rest /\ decode_component decode raw = Some d /\ seg = segment ++ d /\
    forallb chttp_web_asset_component_byte_valid d = true /\ zlen seg <= max_relative_bytes.

(** A byte [v] for the bytes [taken]. *)
Lemma segment_reads_cons taken v s segment seg rest : zlen segment <= max_relative_bytes -> SLASH ∉ taken -> taken <> [] ->
  (forall raw d, decode_component decode (taken ++ raw) = Some d <-> exists d', decode_component decode raw = Some d' /\ d = v :: d') ->
  (forall raw, taken ++ s = raw ++ rest -> cut raw rest -> is_Some (decode_component decode raw) -> taken `prefix_of` raw) ->
  segment_reads (taken ++ s) segment seg rest <->
  exists segment', segment_add max_relative_bytes segment v = Ok segment' /\ segment_reads s segment' seg rest.
Proof.
  intros Hl Ht Hne Hd Hp. setoid_rewrite segment_add_iff; [|done]. split.
  - intros (raw & d & E & Hc & Ed & -> & Hv & Hle). destruct (Hp raw E Hc (ex_intro _ d Ed)) as [raw' ->].
    apply Hd in Ed as (d' & Ed & ->). rewrite <- app_assoc in E. apply app_inv_head in E.
    cbn [forallb] in Hv. apply andb_true_iff in Hv as [Hv Hv']. rewrite zlen_app, zlen_cons in Hle. pose proof (zlen_nonneg d').
    exists (segment ++ [v]). split; [split; [done|]; split; [lia|done]|]. exists raw', d'. destruct Hc as [Hc Hrest].
    apply not_elem_of_app in Hc as [_ Hc]. split_and!; try done. { by rewrite <- app_assoc. } rewrite zlen_app, zlen_cons. lia.
  - intros (segment' & (Hv & Hle & ->) & raw & d & -> & Hc & Ed & -> & Hvd & Hle'). exists (taken ++ raw), (v :: d).
    split_and!; [by rewrite app_assoc| |apply Hd; by exists d|by rewrite <- app_assoc|cbn; by rewrite Hv|done].
    destruct Hc as [Hc Hrest]. split; [|done]. by apply not_elem_of_app.
Qed.

Lemma segment_loop_iff n : forall s segment seg rest, (length s <= n)%nat -> zlen segment <= max_relative_bytes ->
  segment_loop max_relative_bytes decode s segment = Ok (seg, rest) <-> segment_reads s segment seg rest.
Proof.
  assert (forall segment seg rest, zlen segment <= max_relative_bytes -> (seg = segment /\ rest = []) <-> segment_reads [] segment seg rest) as Hnil.
  { intros segment seg rest Hl. split.
    - intros [-> ->]. exists [], []. rewrite !app_nil_r. split_and!; try done. split; [apply not_elem_of_nil|by left].
    - intros (raw & d & E & _ & Ed & -> & _ & _). symmetry in E. apply app_eq_nil in E as [-> ->]. injection Ed as <-. by rewrite app_nil_r. }
  induction n as [|n IH]; intros s segment seg rest Hn Hl; (destruct s as [|c s]; cbn [segment_loop];
    [rewrite <- Hnil by done; split; [by intros [= <- <-]|by intros [-> ->]]|]); [cbn in Hn; lia|].
  assert (forall v rest0, (length rest0 <= n)%nat ->
    (segment0 ← segment_add max_relative_bytes segment v; segment_loop max_relative_bytes decode rest0 segment0) = Ok (seg, rest) <->
    exists segment', segment_add max_relative_bytes segment v = Ok segment' /\ segment_reads rest0 segment' seg rest) as Hbind.
  { intros v rest0 Hn0. split.
    - intros H. apply bind_ok in H as (segment' & Ea & H). exists segment'. split; [done|]. apply IH in H; [done|done|].
      apply segment_add_iff in Ea as (_ & ? & ->); [|done]. rewrite zlen_app. change (zlen [v]) with 1. lia.
    - intros (segment' & Ea & H). rewrite Ea. cbn. apply IH; [done| |done].
      apply segment_add_iff in Ea as (_ & ? & ->); [|done]. rewrite zlen_app. change (zlen [v]) with 1. lia. }
  destruct (Z.eqb_spec c SLASH) as [->|Hc].
  { split.
    - intros [= <- <-]. exists [], []. rewrite app_nil_r. split_and!; try done. split; [apply not_elem_of_nil|right; by eexists].
    - intros (raw & d & E & [Hr _] & Ed & -> & _ & _). destruct raw as [|c raw].
      + injection Ed as <-. cbn in E. rewrite app_nil_r, E. done.
      + injection E as <- _. exfalso. apply Hr. by left. }
  destruct (decode && (c =? PERCENT)) eqn:Ed.
  - apply andb_true_iff in Ed as [Edec Ec]. apply Z.eqb_eq in Ec as ->. cbn in Hn.
    assert (decode && (PERCENT =? PERCENT) = true) as Et by (by rewrite Edec).
    assert (forall raw d, decode_component decode (PERCENT :: raw) = Some d -> exists h l raw' vh vl d', raw = h :: l :: raw' /\
      chttp_web_asset_hex h = Some vh /\ chttp_web_asset_hex l = Some vl /\ decode_component decode raw' = Some d' /\ d = vh * 16 + vl :: d') as Hdec.
    { intros raw d. cbn [decode_component]. rewrite Et. destruct raw as [|h [|l raw]]; try done.
      destruct (chttp_web_asset_hex h) as [vh|] eqn:Eh; [|done]. destruct (chttp_web_asset_hex l) as [vl|] eqn:El; [|done].
      destruct (decode_component decode raw) as [d'|] eqn:E; [|done]. intros [= <-]. by exists h, l, raw, vh, vl, d'. }
    assert (forall raw, PERCENT :: s = raw ++ rest -> cut raw rest -> is_Some (decode_component decode raw) ->
      exists h l s' raw' vh vl, s = h :: l :: s' /\ raw = PERCENT :: h :: l :: raw' /\ chttp_web_asset_hex h = Some vh /\
        chttp_web_asset_hex l = Some vl) as Hraw.
    { intros raw E [_ Hrest] [d Ed]. destruct raw as [|c raw].
      - cbn in E. destruct Hrest as [->|[r ->]]; [done|]. by injection E as E _.
      - injection E as <- E. destruct (Hdec raw d Ed) as (h & l & raw' & vh & vl & d' & -> & Eh & El & _). subst s.
        by exists h, l, (raw' ++ rest), raw', vh, vl. }
    assert (~ (exists h l s' vh vl, s = h :: l :: s' /\ chttp_web_asset_hex h = Some vh /\ chttp_web_asset_hex l = Some vl) ->
      ~ segment_reads (PERCENT :: s) segment seg rest) as Hbad.
    { intros Hno (raw & d & E & Hcut & Ed & _). destruct (Hraw raw E Hcut (ex_intro _ d Ed)) as (h & l & s' & raw' & vh & vl & -> & _ & Eh & El).
      apply Hno. by exists h, l, s', vh, vl. }
    destruct s as [|h [|l s]]; [split; [done|]; intros H; exfalso; revert H; apply Hbad; by intros (? & ? & ? & ? & ? & ? & _)..|].
    destruct (chttp_web_asset_hex h) as [vh|] eqn:Eh;
      [|split; [done|]; intros H; exfalso; revert H; apply Hbad; intros (? & ? & ? & ? & ? & [= <- <- <-] & ? & ?); congruence].
    destruct (chttp_web_asset_hex l) as [vl|] eqn:El;
      [|split; [done|]; intros H; exfalso; revert H; apply Hbad; intros (? & ? & ? & ? & ? & [= <- <- <-] & ? & ?); congruence].
    pose proof (hex_range h vh Eh). pose proof (hex_range l vl El). rewrite byte_of_hex by done. rewrite Hbind by (cbn in Hn; lia).
    rewrite <- (segment_reads_cons [PERCENT; h; l]); [done|done| |done| |].
    + rewrite !not_elem_of_cons. split_and!; [done| | |apply not_elem_of_nil]; intros <-; by rewrite hex_slash in *.
    + intros raw d. cbn [app decode_component]. rewrite Et, Eh, El.
      destruct (decode_component decode raw) as [d'|]; cbn.
      * split; [intros [= <-]; by exists d'|]. by intros (? & [= <-] & ->).
      * split; [done|by intros (? & ? & _)].
    + intros raw E Hcut Hs. destruct (Hraw raw E Hcut Hs) as (? & ? & ? & raw' & ? & ? & [= <- <- <-] & -> & _). by exists raw'.
  - rewrite Hbind by (cbn in Hn; lia). rewrite <- (segment_reads_cons [c] c s); [done|done| |done| |].
    + rewrite not_elem_of_cons. split; [done|apply not_elem_of_nil].
    + intros raw d. cbn [app decode_component]. rewrite Ed. destruct (decode_component decode raw) as [d'|]; cbn.
      * split; [intros [= <-]; by exists d'|]. by intros (? & [= <-] & ->).
      * split; [done|by intros (? & ? & _)].
    + intros raw E Hcut _. destruct raw as [|c' raw].
      * destruct Hcut as [_ [->|[r ->]]]; [done|]. by injection E as -> _.
      * injection E as <- _. by exists raw.
Qed.

Definition segment_ok (segment : list Z) : bool := bytes_eqb segment [DOT] || component_ok segment.

(** The components that name an entry. *)
Definition kept (segments : list (list Z)) : list (list Z) := filter (fun segment => segment <> [DOT]) segments.

Definition extend (output segment : list Z) : list Z := if zlen output =? 0 then segment else output ++ SLASH :: segment.

Lemma append_segment_iff output segment output' : zlen output <= max_relative_bytes -> segment <> [] ->
  forallb chttp_web_asset_component_byte_valid segment = true ->
  append_segment max_relative_bytes output segment = Ok output' <->
  (segment = [DOT] /\ output' = output) \/
  (segment <> [DOT] /\ component_ok segment = true /\ output' = extend output segment /\ zlen output' <= max_relative_bytes).
Proof.
  intros Hl Hne Hv. unfold append_segment, component_ok. rewrite Hv.
  assert (zlen segment <> 0) as Hz by (intros E; by apply zlen_0_inv in E). rewrite (proj2 (Z.eqb_neq _ _)) by done.
  assert (bytes_eqb segment [] = false) as -> by (destruct (bytes_eqb segment []) eqn:E; [by apply bytes_eqb_eq in E|done]).
  cbn [negb andb]. destruct (bytes_eqb segment [DOT]) eqn:E1.
  { apply bytes_eqb_eq in E1 as ->. split; [intros [= <-]; by left|]. by intros [[_ ->]|[? _]]. }
  assert (segment <> [DOT]) as Hd by (intros ->; by rewrite bytes_eqb_refl in E1).
  destruct (bytes_eqb segment [DOT; DOT]) eqn:E2.
  { apply bytes_eqb_eq in E2 as ->. split; [done|]. by intros [[? _]|(_ & ? & _)]. }
  destruct (last_is DOT segment); cbn [orb negb andb].
  { split; [done|]. by intros [[? _]|(_ & ? & _)]. }
  destruct (last_is SPACE segment); cbn [negb].
  { split; [done|]. by intros [[? _]|(_ & ? & _)]. }
  assert (0 < zlen segment) as Hpos by (pose proof (zlen_nonneg segment); lia). unfold extend.
  destruct (Z.eqb_spec (zlen output) 0) as [E0|E0]; cbn [negb andb].
  - apply zlen_0_inv in E0 as ->. rewrite zlen_nil. cbn [app]. split_if; bool_prop.
    + split; [done|]. intros [[? _]|(_ & _ & -> & ?)]; [done|lia].
    + split; [intros [= <-]; right; split_and!; done || lia|]. by intros [[? _]|(_ & _ & -> & _)].
  - destruct (Z.eqb_spec (zlen output) max_relative_bytes) as [Em|Em].
    + split; [done|]. intros [[? _]|(_ & _ & -> & Hle)]; [done|]. rewrite zlen_app, zlen_cons in Hle. lia.
    + rewrite zlen_app. change (zlen [SLASH]) with 1. split_if; bool_prop.
      * split; [done|]. intros [[? _]|(_ & _ & -> & Hle)]; [done|]. rewrite zlen_app, zlen_cons in Hle. lia.
      * rewrite <- app_assoc. cbn [app]. split.
        -- intros [= <-]. right. split_and!; try done. rewrite zlen_app, zlen_cons. lia.
        -- by intros [[? _]|(_ & _ & -> & _)].
Qed.

Lemma join_segments_snoc done segment : join_segments (done ++ [segment]) =
  match done with [] => segment | _ => join_segments done ++ SLASH :: segment end.
Proof.
  induction done as [|x done IH]; [done|]. destruct done as [|y done]; [done|].
  change (x ++ SLASH :: join_segments ((y :: done) ++ [segment]) = (x ++ SLASH :: join_segments (y :: done)) ++ SLASH :: segment).
  rewrite IH. by rewrite <- app_assoc.
Qed.

Lemma join_segments_nil done : Forall (fun x => x <> []) done -> zlen (join_segments done) = 0 -> done = [].
Proof.
  intros H E. destruct done as [|x done]; [done|]. exfalso. inversion_clear H as [|? ? Hx _]. apply zlen_0_inv in E.
  destruct done; cbn in E; [done|]. by destruct x.
Qed.

Lemma extend_join done segment : Forall (fun x => x <> []) done ->
  extend (join_segments done) segment = join_segments (done ++ [segment]).
Proof.
  intros H. unfold extend. rewrite join_segments_snoc. destruct (Z.eqb_spec (zlen (join_segments done)) 0) as [E|E].
  - by rewrite (join_segments_nil done H E).
  - by destruct done.
Qed.

Lemma join_segments_le done more : zlen (join_segments done) <= zlen (join_segments (done ++ more)).
Proof.
  revert more. induction done as [|x done IH]; intros more; [cbn; apply zlen_nonneg|].
  destruct done as [|y done].
  { destruct more as [|z more]; [done|]. change (zlen x <= zlen (x ++ SLASH :: join_segments (z :: more))).
    rewrite zlen_app. pose proof (zlen_nonneg (SLASH :: join_segments (z :: more))). lia. }
  specialize (IH more). change (zlen (x ++ SLASH :: join_segments (y :: done)) <= zlen (x ++ SLASH :: join_segments ((y :: done) ++ more))).
  rewrite !zlen_app, !zlen_cons. lia.
Qed.

Lemma join_segments_last done segment more : Forall (fun x => x <> []) done ->
  zlen segment <= zlen (join_segments (done ++ segment :: more)).
Proof.
  intros H. pose proof (join_segments_le (done ++ [segment]) more) as H1. rewrite <- app_assoc in H1. cbn [app] in H1.
  rewrite join_segments_snoc in H1. destruct done as [|x done]; [done|]. rewrite zlen_app, zlen_cons in H1.
  pose proof (zlen_nonneg (join_segments (x :: done))). lia.
Qed.

Lemma skip_slashes_head s : forall c r, skip_slashes s = c :: r -> c <> SLASH.
Proof. induction s as [|x s IH]; cbn [skip_slashes]; [done|]. intros c r. destruct (Z.eqb_spec x SLASH); [by apply IH|]. by intros [= <- _]. Qed.

Lemma skip_slashes_length s : (length (skip_slashes s) <= length s)%nat.
Proof. induction s as [|x s IH]; cbn; [done|]. split_if; cbn; lia. Qed.

Lemma decode_component_nonempty raw d : raw <> [] -> decode_component decode raw = Some d -> d <> [].
Proof.
  destruct raw as [|c raw]; [done|]. intros _. cbn [decode_component]. split_if.
  - destruct raw as [|h [|l raw]]; try done. destruct (chttp_web_asset_hex h), (chttp_web_asset_hex l); try done.
    destruct (decode_component decode raw); [|done]. by intros [= <-].
  - destruct (decode_component decode raw); [|done]. by intros [= <-].
Qed.

Lemma cut_exists s : exists raw rest, s = raw ++ rest /\ cut raw rest.
Proof.
  induction s as [|c s (raw & rest & -> & Hr & Hrest)].
  { exists [], []. split; [done|]. split; [apply not_elem_of_nil|by left]. }
  destruct (Z.eq_dec c SLASH) as [->|Hc].
  - exists [], (SLASH :: raw ++ rest). split; [done|]. split; [apply not_elem_of_nil|right; by eexists].
  - exists (c :: raw), rest. split; [done|]. split; [|done]. by apply not_elem_of_cons.
Qed.

Lemma cut_unique raw rest : forall raw' rest', cut raw rest -> cut raw' rest' -> raw ++ rest = raw' ++ rest' -> raw = raw' /\ rest = rest'.
Proof.
  assert (forall c (raw' rest0 rest' : list Z), cut [] rest0 -> cut (c :: raw') rest' -> rest0 <> (c :: raw') ++ rest') as Hno.
  { intros c raw' rest0 rest' [_ Hr] [Hc _] ->. apply not_elem_of_cons in Hc as [Hc _]. destruct Hr as [?|[r [= E _]]]; [done|by apply Hc]. }
  induction raw as [|c raw IH]; intros [|c' raw'] rest' H H' E; cbn [app] in E.
  - done.
  - by destruct (Hno c' raw' rest rest').
  - by destruct (Hno c raw rest' rest).
  - injection E as <- E. destruct H as [H Hr], H' as [H' Hr']. apply not_elem_of_cons in H as [_ H], H' as [_ H'].
    destruct (IH raw' rest') as [-> ->]; done.
Qed.

Lemma segment_loop_cut raw rest seg rest' : cut raw rest ->
  segment_loop max_relative_bytes decode (raw ++ rest) [] = Ok (seg, rest') <->
  rest' = rest /\ decode_component decode raw = Some seg /\ forallb chttp_web_asset_component_byte_valid seg = true /\
  zlen seg <= max_relative_bytes.
Proof.
  intros Hc. rewrite segment_loop_iff; [|done|rewrite zlen_nil; lia]. split.
  - intros (raw' & d & E & Hc' & Ed & -> & Hv & Hl). destruct (cut_unique raw rest raw' rest') as [-> ->]; done.
  - intros (-> & Ed & Hv & Hl). by exists raw, seg.
Qed.

(** What the components of a path denote. *)
Definition denotes (s : list Z) (segments : list (list Z)) : Prop :=
  mapM (decode_component decode) (components s) = Some segments /\ forallb segment_ok segments = true.

Lemma denotes_cons raw rest segments : raw <> [] -> cut raw rest ->
  denotes (raw ++ rest) segments <->
  exists d more, segments = d :: more /\ decode_component decode raw = Some d /\ segment_ok d = true /\ denotes (skip_slashes rest) more.
Proof.
  intros Hne [Hr Hrest]. unfold denotes. rewrite components_cons by done. cbn [mapM].
  destruct (decode_component decode raw) as [d|]; cbn; [|split; [by intros [? _]|by intros (? & ? & _ & ? & _)]].
  destruct (mapM (decode_component decode) (components (skip_slashes rest))) as [more|]; cbn;
    [|split; [by intros [? _]|by intros (? & ? & _ & _ & _ & ? & _)]]. split.
  - intros [[= <-] H]. apply andb_true_iff in H as [H1 H2]. by exists d, more.
  - intros (d' & more' & -> & [= <-] & H1 & [= <-] & H2). split; [done|]. by apply andb_true_iff.
Qed.

Lemma normalize_loop_segments fuel : forall s done output, (length s <= fuel)%nat -> (forall c r, s = c :: r -> c <> SLASH) ->
  Forall (fun x => x <> []) done -> zlen (join_segments done) <= max_relative_bytes ->
  normalize_loop max_relative_bytes decode fuel s (join_segments done) = Ok output <->
  exists segments, denotes s segments /\ output = join_segments (done ++ kept segments) /\ zlen output <= max_relative_bytes.
Proof.
  induction fuel as [|fuel IH]; intros s done output Hf Hs Hdone Hl; (destruct s as [|c s]; cbn [normalize_loop];
    [split; [intros [= <-]; exists []; by rewrite app_nil_r|intros (segments & [[= <-] _] & -> & _); by rewrite app_nil_r]|]);
    [cbn in Hf; lia|].
  destruct (cut_exists (c :: s)) as (raw & rest & E & Hc). assert (raw <> []) as Hne.
  { intros ->. destruct Hc as [_ [->|[r ->]]]; [done|]. injection E as E _. by apply (Hs c s). }
  assert (length (skip_slashes rest) <= fuel)%nat as Hlen.
  { pose proof (skip_slashes_length rest). apply (f_equal length) in E. rewrite length_app in E. cbn in Hf, E. destruct raw; [done|]. cbn in E. lia. }
  rewrite E. setoid_rewrite (denotes_cons raw rest); [|done..]. split.
  - intros H. apply bind_ok in H as ([seg rest'] & E1 & H). apply segment_loop_cut in E1 as (-> & Ed & Hv & Hls); [|done].
    apply bind_ok in H as (output' & E2 & H). pose proof (decode_component_nonempty raw seg Hne Ed) as Hsne.
    apply append_segment_iff in E2 as [[-> ->]|(Hnd & Hok & -> & Hle)]; [| |done..].
    + apply IH in H as (more & Hm & -> & Hlm); [|done|apply skip_slashes_head|done|done].
      exists ([DOT] :: more). split; [by exists [DOT], more|]. unfold kept. rewrite filter_cons_False; [done|]. by intros [].
    + rewrite extend_join in H, Hle by done. apply IH in H as (more & Hm & -> & Hlm);
        [|done|apply skip_slashes_head|apply Forall_app; split; [done|by apply Forall_singleton]|done].
      exists (seg :: more). unfold segment_ok. split; [exists seg, more; split_and!; try done; by rewrite Hok, orb_true_r|].
      unfold kept. rewrite filter_cons_True by done. by rewrite <- app_assoc in *.
  - intros (segments & (d & more & -> & Ed & Hok & Hm) & -> & Hle). pose proof (decode_component_nonempty raw d Hne Ed) as Hdne.
    unfold segment_ok in Hok. destruct (bytes_eqb d [DOT]) eqn:E1.
    + apply bytes_eqb_eq in E1 as ->. unfold kept in *. rewrite filter_cons_False in * by (by intros []).
      assert (segment_loop max_relative_bytes decode (raw ++ rest) [] = Ok ([DOT], rest)) as ->.
      { apply segment_loop_cut; [done|]. split_and!; try done. change (zlen [DOT]) with 1. lia. }
      cbn [mbind outcome_bind]. assert (append_segment max_relative_bytes (join_segments done) [DOT] = Ok (join_segments done)) as ->.
      { apply append_segment_iff; [done..|]. by left. }
      cbn [mbind outcome_bind]. apply IH; [done|apply skip_slashes_head|done|done|]. by exists more.
    + cbn [orb] in Hok. assert (d <> [DOT]) as Hd by (intros ->; by rewrite bytes_eqb_refl in E1).
      unfold kept in *. rewrite filter_cons_True in * by done. pose proof (join_segments_last done d (filter (fun x => x <> [DOT]) more) Hdone).
      assert (forallb chttp_web_asset_component_byte_valid d = true) as Hv.
      { unfold component_ok in Hok. rewrite !andb_true_iff in Hok. tauto. }
      assert (segment_loop max_relative_bytes decode (raw ++ rest) [] = Ok (d, rest)) as ->.
      { apply segment_loop_cut; [done|]. split_and!; try done. lia. }
      pose proof (join_segments_le (done ++ [d]) (filter (fun x => x <> [DOT]) more)) as Hle2. rewrite <- app_assoc in Hle2. cbn [app] in Hle2.
      cbn [mbind outcome_bind].
      assert (append_segment max_relative_bytes (join_segments done) d = Ok (join_segments (done ++ [d]))) as ->.
      { apply append_segment_iff; [done..|]. right. rewrite extend_join by done. split_and!; try done. lia. }
      cbn [mbind outcome_bind]. apply IH; [done|apply skip_slashes_head|apply Forall_app; split; [done|by apply Forall_singleton]|lia|].
      exists more. rewrite <- app_assoc. done.
Qed.

Lemma normalize_iff {utf8 : VstrUtf8} input relative :
  chttp_web_asset_normalize_relative max_relative_bytes decode input = Ok relative <->
  exists segments, denotes input segments /\ kept segments <> [] /\ relative = join_segments (kept segments) /\
    zlen relative <= max_relative_bytes /\ vstr_utf8_invalid_offset relative = None.
Proof.
  unfold chttp_web_asset_normalize_relative. rewrite (proj2 (Z.eqb_neq _ _)), (proj2 (Z.ltb_ge _ _)) by lia. cbn [orb].
  pose proof (normalize_loop_segments (length (skip_slashes input)) (skip_slashes input) []) as Hloop.
  assert (forall segments, denotes (skip_slashes input) segments <-> denotes input segments) as Hden
    by (intros; unfold denotes; by rewrite components_skip).
  assert (forall segments, denotes input segments -> kept segments <> [] <-> zlen (join_segments (kept segments)) <> 0) as Hkept.
  { intros segments [Hm Hok]. split; [|by intros H E; rewrite E in H]. intros Hne E. apply Hne. apply join_segments_nil; [|done].
    apply Forall_forall. intros x Hx. apply list_elem_of_filter in Hx as [Hx Hin]. intros ->.
    apply list_elem_of_In in Hin. by apply (proj1 (forallb_forall _ _) Hok) in Hin. }
  split.
  - intros H. apply bind_ok in H as (output & Eo & H). apply Hloop in Eo as (segments & Hd & -> & Hl); [|done|apply skip_slashes_head|done|cbn [join_segments]; rewrite zlen_nil; lia].
    cbn [app] in *. apply Hden in Hd. exists segments. destruct (Z.eqb_spec (zlen (join_segments (kept segments))) 0) as [E|E]; [done|].
    destruct (vstr_utf8_invalid_offset _) eqn:Eu; [done|]. injection H as <-. split_and!; try done. by apply Hkept.
  - intros (segments & Hd & Hne & -> & Hl & Hu).
    assert (normalize_loop max_relative_bytes decode (length (skip_slashes input)) (skip_slashes input) [] = Ok (join_segments (kept segments))) as ->.
    { apply (Hloop (join_segments (kept segments))); [done|apply skip_slashes_head|done|cbn [join_segments]; rewrite zlen_nil; lia|]. exists segments. split; [by apply Hden|done]. }
    cbn [mbind outcome_bind]. rewrite (proj2 (Z.eqb_neq _ _)) by (by apply Hkept). by rewrite Hu.
Qed.

Lemma kept_ok input segments : denotes input segments -> Forall (fun x => component_ok x = true) (kept segments).
Proof.
  intros [_ Hok]. apply Forall_forall. intros x Hx. apply list_elem_of_filter in Hx as [Hx Hin].
  apply list_elem_of_In in Hin. apply (proj1 (forallb_forall _ _) Hok) in Hin. unfold segment_ok in Hin.
  destruct (bytes_eqb x [DOT]) eqn:E; [by apply bytes_eqb_eq in E|done].
Qed.

End Normalize.

(** ** The file system *)

(** What a path names, without following a link at its end, and the entries of
    directories: the name behind a directory and a slash is an entry of it. *)
Class LawfulFileSystem (fs : FileSystem) (Node : Type) := {
  node_at : list Z -> option Node;
  node_stat : Node -> cmeta_fs_stat_t;
  node_entry : Node -> list Z -> option Node;
  lstat_found p n : node_at p = Some n -> cmeta_fs_lstat p = Ok (node_stat n);
  lstat_missing p : node_at p = None -> exists e, cmeta_fs_lstat p = Err e;
  entry_found p n name m : node_at p = Some n -> st_is_directory (node_stat n) = true -> st_is_symlink (node_stat n) = false ->
    component_ok name = true -> node_at (if last_is SLASH p then p ++ name else p ++ SLASH :: name) = Some m -> node_entry n name = Some m;
}.

Section Confined.
Context {fs : FileSystem} {Node : Type} {lawful : LawfulFileSystem fs Node}.

Definition real_directory (n : Node) : bool := st_is_directory (node_stat n) && negb (st_is_symlink (node_stat n)).
Definition real_file (n : Node) : bool := st_is_file (node_stat n) && negb (st_is_symlink (node_stat n)).

(** From a directory down through its entries, along directories that are no
    links; the system finds each. *)
Inductive reached : list Z -> Node -> list (list Z) -> list Z -> Node -> Prop :=
  | reached_here p n : reached p n [] p n
  | reached_entry p n name m names p' n' :
      real_directory n = true -> node_entry n name = Some m -> node_at (join p name) = Some m ->
      reached (join p name) m names p' n' -> reached p n (name :: names) p' n'.

Lemma reparse_iff p metadata : chttp_web_asset_path_has_reparse p = Ok metadata <->
  exists n, node_at p = Some n /\ st_is_symlink (node_stat n) = false /\ metadata = node_stat n.
Proof.
  unfold chttp_web_asset_path_has_reparse. destruct (node_at p) as [n|] eqn:E.
  - rewrite (lstat_found p n E). cbn. destruct (st_is_symlink (node_stat n)) eqn:Es.
    + split; [done|]. intros (? & [= <-] & ? & _). congruence.
    + split; [intros [= <-]; by exists n|]. by intros (? & [= <-] & _ & ->).
  - destruct (lstat_missing p E) as [e ->]. split; [done|]. by intros (? & ? & _).
Qed.

Lemma component_no_slash name : component_ok name = true -> SLASH ∉ name.
Proof.
  unfold component_ok. rewrite !andb_true_iff. intros [[[_ H] _] _] Hin. apply list_elem_of_In in Hin.
  by apply (proj1 (forallb_forall _ _) H) in Hin.
Qed.

Lemma at_slash_plain name : SLASH ∉ name -> at_slash name = (name, None).
Proof.
  induction name as [|c name IH]; [done|]. intros H. apply not_elem_of_cons in H as [Hc H]. cbn [at_slash].
  rewrite (proj2 (Z.eqb_neq _ _)) by done. by rewrite IH.
Qed.

Lemma at_slash_more name rest : SLASH ∉ name -> at_slash (name ++ SLASH :: rest) = (name, Some rest).
Proof.
  induction name as [|c name IH]; [done|]. intros H. apply not_elem_of_cons in H as [Hc H]. cbn [app at_slash].
  rewrite (proj2 (Z.eqb_neq _ _)) by done. by rewrite IH.
Qed.

Lemma at_slash_join name names : component_ok name = true ->
  at_slash (join_segments (name :: names)) = (name, match names with [] => None | _ => Some (join_segments names) end).
Proof.
  intros H. apply component_no_slash in H. destruct names as [|x names]; [by apply at_slash_plain|].
  change (join_segments (name :: x :: names)) with (name ++ SLASH :: join_segments (x :: names)). by apply at_slash_more.
Qed.

Lemma component_last name p c : component_ok name = true -> chttp_web_asset_component_byte_valid c = false -> last_is c (p ++ name) = false.
Proof.
  unfold component_ok. rewrite !andb_true_iff. intros [[[Hne H] _] _] Hc. unfold last_is. rewrite last_app.
  destruct (last name) as [x|] eqn:E; [|by apply last_None in E as ->].
  destruct (Z.eqb_spec x c) as [->|]; [|done]. apply last_Some in E as [l ->]. rewrite forallb_app in H. cbn in H.
  rewrite Hc in H. by rewrite andb_false_r in H.
Qed.

Lemma component_nonempty name : component_ok name = true -> name <> [].
Proof. by intros H ->. Qed.

Lemma join_entry p n name m : node_at p = Some n -> real_directory n = true -> last_is BACKSLASH p = false -> component_ok name = true ->
  node_at (join p name) = Some m -> node_entry n name = Some m.
Proof.
  unfold real_directory. intros Hp Hd Hb Hn Hm. apply andb_true_iff in Hd as [Hd Hs]. apply negb_true_iff in Hs.
  apply (entry_found p n name m Hp Hd Hs Hn). rewrite <- Hm. unfold join, needs_separator. rewrite Hb.
  destruct (last_is SLASH p); cbn [negb andb]; [done|]. by rewrite <- app_assoc.
Qed.

Lemma zlen_join p name : zlen (join p name) <= zlen p + 1 + zlen name.
Proof. unfold join. destruct (needs_separator p); rewrite !zlen_app; change (zlen [SLASH]) with 1; lia. Qed.

Lemma reached_cons_iff p n name names path m : node_at p = Some n -> real_directory n = true -> last_is BACKSLASH p = false ->
  component_ok name = true ->
  reached p n (name :: names) path m <-> exists k, node_at (join p name) = Some k /\ reached (join p name) k names path m.
Proof.
  intros Hp Hn Hb Hname. split.
  - inversion_clear 1. by eexists.
  - intros (k & Hk & Hr). econstructor; [done| |exact Hk|done]. by eapply join_entry.
Qed.

Lemma reached_nil_iff p n path m : reached p n [] path m <-> path = p /\ m = n.
Proof. split; [by inversion 1|]. intros [-> ->]. constructor. Qed.

Lemma resolve_loop_iff names : forall fuel p n path, (length (join_segments names) <= fuel)%nat -> names <> [] ->
  Forall (fun x => component_ok x = true) names -> node_at p = Some n -> real_directory n = true -> last_is BACKSLASH p = false ->
  zlen p + 1 + zlen (join_segments names) <= CHTTP_WEB_ASSET_FS_PATH_HARD_MAX ->
  resolve_loop fuel p (join_segments names) = Ok path <-> exists m, reached p n names path m /\ real_file m = true.
Proof.
  induction names as [|name names IH]; [done|]. intros fuel p n path Hf _ Hok Hp Hn Hb Hl. inversion_clear Hok as [|? ? Hname Hnames].
  assert (forall x y : list Z, x <> [] -> exists c r, x ++ y = c :: r) as Hcons by (intros [|c x] y H; [done|by exists c, (x ++ y)]).
  assert (exists c r, join_segments (name :: names) = c :: r) as (c & r & Ec).
  { destruct names as [|x names]; [rewrite <- (app_nil_r (join_segments [name]))|]; apply Hcons; by apply component_nonempty. }
  pose proof (at_slash_join name names Hname) as Ea. rewrite Ec in Ea, Hf, Hl |- *.
  destruct fuel as [|fuel]; [cbn in Hf; lia|]. cbn [resolve_loop]. rewrite Ea.
  pose proof (zlen_join p name) as Hj. pose proof (zlen_nonneg name).
  assert (zlen name <= zlen (c :: r) /\ (names <> [] -> zlen name + 1 + zlen (join_segments names) = zlen (c :: r))) as [Hle Heq].
  { rewrite <- Ec. destruct names as [|x names]; [done|].
    change (join_segments (name :: x :: names)) with (name ++ SLASH :: join_segments (x :: names)).
    rewrite zlen_app, zlen_cons. pose proof (zlen_nonneg (join_segments (x :: names))). split; [lia|intros _; lia]. }
  rewrite (proj2 (Z.ltb_ge _ _)) by lia.
  setoid_rewrite reached_cons_iff; [|done..]. destruct (chttp_web_asset_path_has_reparse (join p name)) as [metadata|e] eqn:Er; cbn [mbind outcome_bind].
  2: { split; [done|]. intros (m & (k & Hk & Hr) & Hm). exfalso.
    assert (st_is_symlink (node_stat k) = false) as Hs.
    { unfold real_file in Hm. destruct names as [|x names].
      - apply reached_nil_iff in Hr as [_ ->]. apply andb_true_iff in Hm as [_ Hm]. by apply negb_true_iff in Hm.
      - inversion Hr as [|? ? ? ? ? ? ? Hd _ _ _]; subst. unfold real_directory in Hd. apply andb_true_iff in Hd as [_ Hd]. by apply negb_true_iff in Hd. }
    assert (chttp_web_asset_path_has_reparse (join p name) = Ok (node_stat k)) as E by (apply reparse_iff; by exists k). congruence. }
  apply reparse_iff in Er as (k & Hk & Hs & ->).
  assert ((exists m, (exists k', node_at (join p name) = Some k' /\ reached (join p name) k' names path m) /\ real_file m = true) <->
    exists m, reached (join p name) k names path m /\ real_file m = true) as ->.
  { split; [intros (m & (k' & Hk' & H1) & H2); assert (k' = k) as -> by congruence; by exists m|]. intros (m & H1 & H2). exists m. split; [by exists k|done]. }
  destruct names as [|x names].
  - setoid_rewrite reached_nil_iff. destruct (st_is_file (node_stat k)) eqn:Ek; cbn [negb].
    + split; [intros [= <-]; exists k; split; [done|]; unfold real_file; by rewrite Ek, Hs|]. by intros (m & [-> _] & _).
    + split; [done|]. intros (m & [_ ->] & Hm). unfold real_file in Hm. by rewrite Ek in Hm.
  - destruct (st_is_directory (node_stat k)) eqn:Ek; cbn [negb].
    + apply IH; [|done|done|done|unfold real_directory; by rewrite Ek, Hs| |specialize (Heq ltac:(done)); lia].
      * specialize (Heq ltac:(done)). unfold zlen in Heq. cbn in Hf. cbn -[join_segments] in Heq. lia.
      * apply component_last; done.
    + split; [done|]. intros (m & Hr & _). inversion Hr as [|? ? ? ? ? ? ? Hd _ _ _]; subst. unfold real_directory in Hd. by rewrite Ek in Hd.
Qed.

(** The root of a mount is a directory of the system. *)
Definition root_ok (mount : chttp_web_asset_mount) : Prop :=
  0 < zlen (am_filesystem_root mount) <= CHTTP_WEB_ASSET_ROOT_HARD_MAX /\ last_is BACKSLASH (am_filesystem_root mount) = false.

Lemma resolve_iff mount names path : root_ok mount -> names <> [] -> Forall (fun x => component_ok x = true) names ->
  zlen (join_segments names) <= CHTTP_WEB_ASSET_RELATIVE_HARD_MAX ->
  chttp_web_asset_resolve_file mount (join_segments names) = Ok path <->
  exists root n, node_at (am_filesystem_root mount) = Some root /\ reached (am_filesystem_root mount) root names path n /\ real_file n = true.
Proof.
  intros [Hroot Hb] Hne Hok Hl. unfold chttp_web_asset_resolve_file, chttp_web_asset_bounded_length.
  rewrite (proj2 (Z.leb_le _ _)) by lia. rewrite (proj2 (Z.eqb_neq _ _)) by lia.
  assert (forall root n, reached (am_filesystem_root mount) root names path n -> real_directory root = true) as Hdir
    by (intros root n Hr; inversion Hr; subst; done).
  destruct (chttp_web_asset_path_has_reparse (am_filesystem_root mount)) as [metadata|e] eqn:Er; cbn [mbind outcome_bind].
  - apply reparse_iff in Er as (root & Hat & Hs & ->). destruct (st_is_directory (node_stat root)) eqn:Ed; cbn [negb].
    + rewrite (resolve_loop_iff names _ _ root);
        [|done|done|done|done|unfold real_directory; by rewrite Ed, Hs|done|unfold CHTTP_WEB_ASSET_FS_PATH_HARD_MAX; lia].
      split; [intros (n & H1 & H2); by exists root, n|]. intros (root' & n & Hat' & H1 & H2).
      assert (root' = root) as -> by congruence. by exists n.
    + split; [done|]. intros (root' & n & Hat' & H1 & _). apply Hdir in H1. assert (root' = root) as -> by congruence.
      unfold real_directory in H1. by rewrite Ed in H1.
  - split; [done|]. intros (root & n & Hat & H1 & _). apply Hdir in H1. unfold real_directory in H1. apply andb_true_iff in H1 as [_ Hs].
    apply negb_true_iff in Hs. assert (chttp_web_asset_path_has_reparse (am_filesystem_root mount) = Ok (node_stat root)) as E
      by (apply reparse_iff; by exists root). congruence.
Qed.

(** ** What is served *)

Context {utf8 : VstrUtf8} {alloc : Allocator} {gmtime : Gmtime} {parser : DatetimeParser} {transfers : FileTransfers}.

Definition below (prefix path rest : list Z) : Prop := path = prefix ++ rest /\ (rest = [] \/ (exists r, rest = SLASH :: r)).

Lemma prefix_matches_iff prefix path : chttp_web_asset_prefix_matches prefix path = true <-> exists rest, below prefix path rest.
Proof.
  unfold chttp_web_asset_prefix_matches, below. rewrite andb_true_iff, bytes_eqb_eq. split.
  - intros [E H]. exists (zdrop (zlen prefix) path). split.
    + rewrite <- E at 1. unfold ztake, zdrop. by rewrite take_drop.
    + destruct (zdrop (zlen prefix) path) as [|c r]; [by left|]. apply Z.eqb_eq in H as ->. right. by exists r.
  - intros (rest & -> & Hr). rewrite ztake_app, zdrop_app. split; [done|]. by destruct Hr as [->|[r ->]].
Qed.

(** The path that a request asks for: its own below the prefix of the mount,
    with escapes, or the fallback of the application below the other prefix. *)
Inductive asks (mount : chttp_web_asset_mount) (path : list Z) : list Z -> bool -> Prop :=
  | asks_file rest : below (am_url_prefix mount) path rest -> asks mount path rest true
  | asks_page prefix fallback rest : (forall rest, ~ below (am_url_prefix mount) path rest) ->
      am_spa_url_prefix mount = Some prefix -> am_spa_fallback_relative_path mount = Some fallback -> below prefix path rest ->
      asks mount path fallback false.

(** A file that the input denotes: its components name it from the root down. *)
Record asset (mount : chttp_web_asset_mount) (input : list Z) (decode : bool) (relative path : list Z) (n : Node) : Prop := {
  as_names : exists segments root, denotes decode input segments /\ kept segments <> [] /\ relative = join_segments (kept segments) /\
    node_at (am_filesystem_root mount) = Some root /\ reached (am_filesystem_root mount) root (kept segments) path n;
  as_length : zlen relative <= am_max_relative_path_bytes mount;
  as_utf8 : vstr_utf8_invalid_offset relative = None;
  as_file : real_file n = true;
}.

(** The response with this file. *)
Definition serve_asset (mount : chttp_web_asset_mount) (request : server_request) (w : world) (b : chttp_server_response_builder)
    (relative path : list Z) (now_ms : Z) : world * chttp_server_response_builder * salts_status :=
  let '(b, status) := chttp_server_response_set_header b (bytes_of "Cache-Control") (cache_control mount relative) in
  if negb (bool_decide (status = SALTS_OK)) then (w, b, status)
  else chttp_server_serve_file w b request
         {| fo_path := path; fo_content_type := None;
            fo_etag := match am_etag mount with Some etag => etag relative | None => None end |} now_ms.

Definition max_ok (mount : chttp_web_asset_mount) : Prop :=
  0 < am_max_relative_path_bytes mount <= CHTTP_WEB_ASSET_RELATIVE_HARD_MAX.

Lemma asset_iff mount input decode relative path : root_ok mount -> max_ok mount ->
  (chttp_web_asset_normalize_relative (am_max_relative_path_bytes mount) decode input = Ok relative /\
   chttp_web_asset_resolve_file mount relative = Ok path) <-> exists n, asset mount input decode relative path n.
Proof.
  intros Hroot Hmax. rewrite normalize_iff by done. split.
  - intros [(segments & Hd & Hne & -> & Hl & Hu) Hr]. apply resolve_iff in Hr as (root & n & Hat & Hre & Hf); [|done|done|by eapply kept_ok|unfold max_ok in *; lia].
    exists n. split; try done. by exists segments, root.
  - intros (n & [(segments & root & Hd & Hne & -> & Hat & Hre) Hl Hu Hf]). split; [by exists segments|].
    apply resolve_iff; [done|done|by eapply kept_ok|unfold max_ok in *; lia|]. by exists root, n.
Qed.

Lemma mount_valid_facts mount : chttp_web_asset_mount_valid mount = true -> 0 <= am_max_relative_path_bytes mount ->
  max_ok mount /\ 0 < zlen (am_filesystem_root mount) <= CHTTP_WEB_ASSET_ROOT_HARD_MAX /\
  (am_spa_url_prefix mount = None <-> am_spa_fallback_relative_path mount = None).
Proof.
  unfold chttp_web_asset_mount_valid, max_ok. intros H Hm. split_if_in H; [done|]. split_if_in H; [done|]. split_if_in H; [done|].
  unfold chttp_web_asset_bounded_length in H. split_if_in H; [|done]. split_if_in H; [done|].
  pose proof (zlen_nonneg (am_filesystem_root mount)). split; [lia|]. split; [lia|].
  apply Bool.eqb_prop in Heqb. split; intros E; rewrite (bool_decide_true _ E) in Heqb;
    [symmetry in Heqb|]; by apply bool_decide_eq_true in Heqb.
Qed.

(** The middleware has answered. *)
Definition answered {App} (s : call_state App) (r : world * chttp_server_response_builder * salts_status) : activation (call_state App) :=
  Returns (s <| cs_world := r.1.1 |> <| cs_response := r.1.2 |>) r.2.

Lemma answer_cases mount request w b now_ms input decode : root_ok mount -> max_ok mount ->
  let r := match chttp_web_asset_normalize_relative (am_max_relative_path_bytes mount) decode input with
           | Err _ => chttp_web_asset_not_found w b
           | Ok relative => chttp_web_asset_serve_relative mount request w b relative now_ms
           end in
  (exists relative path n, asset mount input decode relative path n /\ r = serve_asset mount request w b relative path now_ms) \/
  ((forall relative path n, ~ asset mount input decode relative path n) /\ r = chttp_web_asset_not_found w b).
Proof.
  intros Hroot Hmax. cbv zeta. pose proof (fun relative path => asset_iff mount input decode relative path Hroot Hmax) as Ha.
  destruct (chttp_web_asset_normalize_relative _ decode input) as [relative|e].
  - unfold chttp_web_asset_serve_relative. destruct (chttp_web_asset_resolve_file mount relative) as [path|e] eqn:Er.
    + left. destruct (proj1 (Ha relative path) (conj eq_refl Er)) as [n Hn]. by exists relative, path, n.
    + right. split; [|done]. intros relative' path n Hn. destruct (proj2 (Ha relative' path) (ex_intro _ n Hn)) as [[= <-] ?]. congruence.
  - right. split; [|done]. intros relative' path n Hn. by destruct (proj2 (Ha relative' path) (ex_intro _ n Hn)).
Qed.

(** C10: For a valid mount whose root does not end in a backslash, and files that
    do not change meanwhile, a GET or HEAD request that is below a prefix of the
    mount is answered with the file that its path denotes, and with 404 exactly
    when it denotes none: the components of the path, decoded, are the names of
    entries from the root of the mount down, through directories and to a regular
    file, and none of these is a symbolic link; no other file can be named. The
    other requests go on. *)
Theorem assets_confined {App} mount now_ms request (s : call_state App) :
  chttp_web_asset_mount_valid mount = true -> 0 <= am_max_relative_path_bytes mount ->
  last_is BACKSLASH (am_filesystem_root mount) = false -> method_refused request = false ->
  (forall input decode, asks mount (sq_path request) input decode ->
     (exists relative path n, asset mount input decode relative path n /\
        chttp_web_assets_middleware mount now_ms request s =
          answered s (serve_asset mount request (cs_world s) (cs_response s) relative path now_ms)) \/
     ((forall relative path n, ~ asset mount input decode relative path n) /\
        chttp_web_assets_middleware mount now_ms request s = answered s (chttp_web_asset_not_found (cs_world s) (cs_response s)))) /\
  ((forall input decode, ~ asks mount (sq_path request) input decode) ->
     chttp_web_assets_middleware mount now_ms request s = CallsNext s (fun s status => Returns s status)).
Proof.
  intros Hvalid Hm Hb Hmethod. destruct (mount_valid_facts mount Hvalid Hm) as (Hmax & Hrl & Hspa).
  assert (root_ok mount) as Hroot by done.
  pose proof (answer_cases mount request (cs_world s) (cs_response s) now_ms) as Hans.
  unfold chttp_web_assets_middleware, assets_response. rewrite Hmethod.
  assert (forall prefix path rest, below prefix path rest -> zdrop (zlen prefix) path = rest) as Hdrop
    by (intros prefix path rest [-> _]; apply zdrop_app).
  assert (forall r : world * chttp_server_response_builder * salts_status,
    (let '(w, b, status) := r in Returns (s <| cs_world := w |> <| cs_response := b |>) status) = answered s r) as Er by (by intros [[w b] st]).
  split.
  - intros input decode Hask. destruct Hask as [rest Hbelow|prefix fallback rest Hno Es Ef Hbelow].
    + rewrite (proj2 (prefix_matches_iff _ _)) by (by exists rest). rewrite (Hdrop _ _ _ Hbelow), Er.
      destruct (Hans rest true Hroot Hmax) as [(relative & path & n & Ha & ->)|[Hna ->]]; [left; by exists relative, path, n|by right].
    + destruct (chttp_web_asset_prefix_matches (am_url_prefix mount) (sq_path request)) eqn:E1;
        [apply prefix_matches_iff in E1 as [r Hr]; by destruct (Hno r)|].
      rewrite Es, Ef. rewrite (proj2 (prefix_matches_iff _ _)) by (by exists rest). rewrite Er.
      destruct (Hans fallback false Hroot Hmax) as [(relative & path & n & Ha & ->)|[Hna ->]]; [left; by exists relative, path, n|by right].
  - intros Hno. destruct (chttp_web_asset_prefix_matches (am_url_prefix mount) (sq_path request)) eqn:E1.
    { apply prefix_matches_iff in E1 as [r Hr]. by destruct (Hno r true (asks_file _ _ r Hr)). }
    destruct (am_spa_url_prefix mount) as [prefix|] eqn:Es; [|done].
    destruct (chttp_web_asset_prefix_matches prefix (sq_path request)) eqn:E2; [|done]. exfalso.
    apply prefix_matches_iff in E2 as [r Hr]. destruct (am_spa_fallback_relative_path mount) as [fallback|] eqn:Ef;
      [|by pose proof (proj2 Hspa eq_refl)].
    apply (Hno fallback false). eapply asks_page; [|exact Es|exact Ef|exact Hr]. intros rest Hbelow. by apply (Hno rest true (asks_file _ _ rest Hbelow)).
Qed.

End Confined.

End WebAssetsTheorems.

(** A site: a small file system, requests, and what is served. *)
Module WebAssetsExample.
Import Decimal HpackBuffer Router Http1Parser ServerBuffer Session Response ResponseTheorems Jwt Middleware CorsTheorems Interceptor WebSse
  FileService FileServiceTheorems WebAssets WebAssetsTheorems.

Definition a_directory : cmeta_fs_stat_t :=
  {| st_size := 0; st_mtime := 0; st_ctime := 0; st_is_file := false; st_is_directory := true; st_is_symlink := false |}.
Definition a_file (size : Z) : cmeta_fs_stat_t :=
  {| st_size := size; st_mtime := 1000000000; st_ctime := 7; st_is_file := true; st_is_directory := false; st_is_symlink := false |}.
Definition a_link : cmeta_fs_stat_t :=
  {| st_size := 3; st_mtime := 0; st_ctime := 0; st_is_file := false; st_is_directory := false; st_is_symlink := true |}.

(** The directory [/www\], whose name ends in a backslash, and the file [/www\key]
    beside it. *)
Definition site : list (list Z * cmeta_fs_stat_t) :=
  [(bytes_of "/srv", a_directory); (bytes_of "/srv/js", a_directory); (bytes_of "/srv/js/app.js", a_file 1000);
   (bytes_of "/srv/out", a_link); (bytes_of "/www\", a_directory); (bytes_of "/www\key", a_file 32)].

Definition site_find (path : list Z) : option cmeta_fs_stat_t :=
  snd <$> (snd <$> list_find (fun e => bytes_eqb e.1 path = true) site).

#[local] Instance site_fs : FileSystem :=
  let find path := match site_find path with Some st => Ok st | None => Err SALTS_ENOENT end in
  {| cmeta_fs_stat := find; cmeta_fs_lstat := find |}.

Definition site_node (path : list Z) : option (list Z) := match site_find path with Some _ => Some path | None => None end.
Definition site_stat (path : list Z) : cmeta_fs_stat_t := match site_find path with Some st => st | None => a_link end.

Definition site_entry (p name : list Z) : option (list Z) := site_node (if last_is SLASH p then p ++ name else p ++ SLASH :: name).

Lemma site_node_path p n : site_node p = Some n -> n = p.
Proof. unfold site_node. destruct (site_find p); [|done]. by intros [= <-]. Qed.

Lemma site_found p n : site_node p = Some n -> cmeta_fs_lstat p = Ok (site_stat n).
Proof.
  intros H. rewrite (site_node_path p n H). revert H. change (cmeta_fs_lstat p) with (match site_find p with Some st => Ok st | None => Err SALTS_ENOENT end).
  unfold site_node, site_stat. by destruct (site_find p).
Qed.

Lemma site_missing p : site_node p = None -> exists e, cmeta_fs_lstat p = Err e.
Proof.
  change (cmeta_fs_lstat p) with (match site_find p with Some st => Ok st | None => Err SALTS_ENOENT end).
  unfold site_node. destruct (site_find p); [done|]. by eexists.
Qed.

Lemma site_entry_found p n name m : site_node p = Some n -> st_is_directory (site_stat n) = true -> st_is_symlink (site_stat n) = false ->
  component_ok name = true -> site_node (if last_is SLASH p then p ++ name else p ++ SLASH :: name) = Some m -> site_entry n name = Some m.
Proof. intros H _ _ _. by rewrite (site_node_path p n H). Qed.

#[local] Instance site_lawful : LawfulFileSystem site_fs (list Z) :=
  {| node_at := site_node; node_stat := site_stat; node_entry := site_entry; lstat_found := site_found; lstat_missing := site_missing;
     entry_found := site_entry_found |}.

#[local] Existing Instance unlimited_allocator.
#[local] Instance any_path : VstrUtf8 := fun _ => None.
#[local] Instance site_day : Gmtime := fun _ =>
  Some {| tm_sec := 40; tm_min := 16; tm_hour := 0; tm_mday := 1; tm_mon := 0; tm_year := 70; tm_wday := 4 |}.
#[local] Instance no_dates : DatetimeParser := {| datetime_parse _ := None; datetime_to_time _ := 0 |}.
#[local] Instance numbered_transfers : FileTransfers := fun _ offset _ _ => inl (100 + offset).
#[local] Instance numbered_lawful : LawfulTransfers numbered_transfers.
Proof. done. Qed.

Definition site_mount (root : list Z) : chttp_web_asset_mount :=
  {| am_size := sizeof_asset_mount; am_url_prefix := bytes_of "/assets"; am_filesystem_root := root;
     am_max_relative_path_bytes := 256; am_cache_control := None; am_immutable_cache_control := None; am_immutable := None;
     am_etag := Some (fun _ => Some (QUOTE :: bytes_of "v1" ++ [QUOTE])); am_spa_url_prefix := None; am_spa_fallback_relative_path := None |}.

Definition site_request (path : list Z) (headers : list (list Z * list Z)) : server_request :=
  {| sq_http_major := 1; sq_http_minor := 1; sq_method := CHTTP_METHOD_GET; sq_path := path; sq_headers := headers; sq_params := [];
     sq_body := []; sq_session := false; sq_jwt_claims := None; sq_body_sink_user := None |}.

Definition escaped_request : server_request := site_request (bytes_of "/assets//js/./%61pp.js") [(bytes_of "Range", bytes_of "bytes=990-")].

(** A path with an escape, a dot and an empty component. *)
Lemma assets_confined_witness :
  (forall input decode, asks (site_mount (bytes_of "/srv")) (sq_path escaped_request) input decode ->
     (exists relative path n, asset (site_mount (bytes_of "/srv")) input decode relative path n /\
        chttp_web_assets_middleware (site_mount (bytes_of "/srv")) 2000000 escaped_request preflight_state =
          answered preflight_state (serve_asset (site_mount (bytes_of "/srv")) escaped_request response_world wide_builder relative path 2000000)) \/
     ((forall relative path n, ~ asset (site_mount (bytes_of "/srv")) input decode relative path n) /\
        chttp_web_assets_middleware (site_mount (bytes_of "/srv")) 2000000 escaped_request preflight_state =
          answered preflight_state (chttp_web_asset_not_found response_world wide_builder))) /\
  asks (site_mount (bytes_of "/srv")) (sq_path escaped_request) (bytes_of "//js/./%61pp.js") true.
Proof.
  split.
  - apply (assets_confined (site_mount (bytes_of "/srv")) 2000000 escaped_request preflight_state).
    + vm_compute. reflexivity.
    + vm_compute. discriminate.
    + vm_compute. reflexivity.
    + vm_compute. reflexivity.
  - apply asks_file. split; [reflexivity|]. right. eexists. reflexivity.
Defined.

Definition middleware_status {St} (a : activation St) : option (St * salts_status) :=
  match a with Returns s status => Some (s, status) | _ => None end.

Definition answer_of (root path : list Z) (headers : list (list Z * list Z)) : option (Z * option Z) :=
  (fun r => (rb_status_code (cs_response r.1), bs_read <$> rb_body_source (cs_response r.1))) <$>
    middleware_status (chttp_web_assets_middleware (site_mount root) 2000000 (site_request path headers) preflight_state).

(** The file is served from byte 990 on; a link, a directory, the parent of the
    root and an escaped slash are not found. *)
Example site_answers :
  answer_of (bytes_of "/srv") (bytes_of "/assets//js/./%61pp.js") [(bytes_of "Range", bytes_of "bytes=990-")] = Some (206, Some 1090) /\
  answer_of (bytes_of "/srv") (bytes_of "/assets/js/app.js") [(bytes_of "If-None-Match", bytes_of "W/" ++ QUOTE :: bytes_of "v1" ++ [QUOTE])] = Some (304, None) /\
  answer_of (bytes_of "/srv") (bytes_of "/assets/out") [] = Some (404, None) /\
  answer_of (bytes_of "/srv") (bytes_of "/assets/js") [] = Some (404, None) /\
  answer_of (bytes_of "/srv") (bytes_of "/assets/%2e%2e/etc/passwd") [] = Some (404, None) /\
  answer_of (bytes_of "/srv") (bytes_of "/assets/js%2fapp.js") [] = Some (404, None) /\
  answer_of (bytes_of "/srv") (bytes_of "/assetsX/js/app.js") [] = None.
Proof. vm_compute. repeat split. Qed.

(** A root whose name ends in a backslash, which is a byte of a name on this
    system: no separator is added, and a file beside the root is served. *)
Example backslash_root_escapes :
  chttp_web_asset_mount_valid (site_mount (bytes_of "/www\")) = true /\
  chttp_web_asset_resolve_file (site_mount (bytes_of "/www\")) (bytes_of "key") = Ok (bytes_of "/www\key") /\
  node_entry (bytes_of "/www\") (bytes_of "key") = None.
Proof. vm_compute. repeat split. Qed.

Definition tagged_request : server_request :=
  site_request (bytes_of "/x") [(bytes_of "if-match", bytes_of ", " ++ QUOTE :: bytes_of "v0" ++ QUOTE :: bytes_of " ,W/" ++ QUOTE :: bytes_of "v1" ++ [QUOTE])].

(** A weak tag in the list, after an empty element and another tag. *)
Example tagged_condition :
  let current := {| et_weak := false; et_opaque := bytes_of "v1" |} in
  file_request_tags tagged_request (bytes_of "If-Match") (tag_text current) true = TagsMatch false /\
  file_request_tags tagged_request (bytes_of "If-Match") (tag_text current) false = TagsMatch true.
Proof. vm_compute. split; reflexivity. Qed.

Lemma file_range_correct_witness :
  match file_range (bytes_of " bytes=-10 ") 1000 with
  | RangeSelected offset length =>
    (exists spec, range_field (bytes_of " bytes=-10 ") spec /\ select 1000 spec = Some (offset, length)) /\
    0 <= offset /\ 0 < length /\ offset + length <= 1000
  | _ => False
  end.
Proof.
  pose proof (file_range_correct (bytes_of " bytes=-10 ") 1000 ltac:(lia)) as H.
  assert (file_range (bytes_of " bytes=-10 ") 1000 = RangeSelected 990 10) as E by (vm_compute; reflexivity).
  rewrite E in *. exact H.
Defined.

Definition app_options : chttp_server_file_options :=
  {| fo_path := bytes_of "/srv/js/app.js"; fo_content_type := None; fo_etag := None |}.

Definition app_served : world * chttp_server_response_builder * salts_status :=
  Eval vm_compute in chttp_server_serve_file response_world wide_builder (site_request (bytes_of "/x") [(bytes_of "Range", bytes_of "bytes=5-9")]) app_options 2000000.

Lemma serve_file_correct_witness :
  exists current modified, tag_ok current /\ file_etag app_options (a_file 1000) = tag_text current /\
    chttp_server_format_date (file_mtime (a_file 1000) 2000000) = Ok modified /\
    header_value (rb_headers app_served.1.2) (bytes_of "ETag") = Some (tag_text current) /\
    header_value (rb_headers app_served.1.2) (bytes_of "Last-Modified") = Some modified /\
    st_is_file (a_file 1000) = true /\
    file_answer (site_request (bytes_of "/x") [(bytes_of "Range", bytes_of "bytes=5-9")]) current (bytes_of "/srv/js/app.js") 1000
      (file_mtime (a_file 1000) 2000000) 2000000 app_served.1.2.
Proof.
  apply (serve_file_correct response_world wide_builder (site_request (bytes_of "/x") [(bytes_of "Range", bytes_of "bytes=5-9")]) app_options
    2000000 (a_file 1000) app_served.1.1 app_served.1.2).
  - exact wide_builder_wf.
  - vm_compute. reflexivity.
  - left. reflexivity.
  - vm_compute. reflexivity.
  - vm_compute. discriminate.
  - vm_compute. reflexivity.
Defined.

End WebAssetsExample.
